(* ===== verification/_CoqProject ===== *)
-Q . S2P
Prelude.v
Text.v
Tokens.v
Forest.v
Platform.v
Civil.v
Domain.v
Samples.v
Rollup.v
Progress.v
Completion.v
Lifecycle.v
Decimal.v
HabitRecord.v
Plan.v
Intervals.v
Order.v
Rrule.v
Expansion.v
Horizon.v
Occurrences.v
Moves.v
HabitPolicy.v
HabitAnalytics.v
Adherence.v
Trends.v
Projection.v
Materialize.v
Subtrees.v
Clones.v
Execution.v
Validation.v
Candidate.v
Planner.v
Day.v
Manual.v
Defer.v
Placement.v
Sessions.v
Safety.v
Retained.v
Precedence.v
Pipeline.v
Recurring.v
Session.v
Lease.v
ItemDomain.v
CompletionPolicy.v
ItemStore.v
Kahn.v
ItemForest.v
ItemGraph.v
Effects.v
Repository.v
ItemSamples.v
Versions.v
Delta.v
Bootstrap.v
Paging.v
Groups.v
Snapshots.v
ItemNormal.v
ItemProgress.v
Proposals.v
ProposalRuns.v
ChangeSets.v
CommandOrder.v
Projections.v
Orders.v
Risks.v
Metadata.v
Prepare.v
Classify.v
Compose.v
Sensitivity.v
Prepared.v
Composed.v
