(* ===== verification/Prelude.v ===== *)
(** * DayWeave core: a verification library (root file)

    DayWeave plans a day: a host sends a [PlanRequest] (work items in a
    hierarchy, availability, fixed time, earlier assignments) and the portable
    core, src/crates/dayweave-core, answers with a schedule.  The request is
    composed of the stored items by src/crates/dayweave-compose.  The API server,
    src/server/dayweave-api, records what is executed.  This library models the
    composition of requests, the core's planning path from the request to the
    published plan, its rules for habits, and on the server the execution state
    machine, the repository of items, and the proposals that an assistant makes
    about them, and proves what they promise.

    ** The path of a request

    [prepare_canonical_schedule] (Compose) turns the stored items, with their
    scheduling metadata (Metadata), and the request of a host (Prepare) into a
    [PlanRequest] (Classify maps one item).
    [plan_with_lifecycle] (Pipeline) validates the request (Validation), turns
    recurring items into occurrences (Rrule, Expansion) and occurrences into
    cloned items (Materialize), overlays the recorded statuses of occurrence
    members (Lifecycle), applies the execution snapshot (Execution), plans the
    resulting request (Planner, which uses Intervals, Order and Candidate),
    assesses manual placements (Manual), and translates the identifiers of
    clones back.  [assess_defer_candidate] (Defer, Pipeline) does the same with
    one session replaced.  The hierarchy passes (Rollup, Progress, Completion)
    serve the rest of the application.  On the server, a session of work is a
    state machine (Session) held in a repository that serialises commands
    (Lease).  Items (ItemDomain) are held in a repository (ItemStore) that checks
    the hierarchy and the dependency graph, applies the completion policy
    (CompletionPolicy, over Completion) after every write, and logs changes
    that clients follow in pages (Delta), from the start or from a snapshot
    (Bootstrap).  Beside them it keeps the progress that a user records by hand
    (ItemProgress).  An assistant changes items only through proposals
    (Proposals), whose commands (ChangeSets) are executed as one batch in an
    order that is found first (CommandOrder), and reviewed by the user (Risks).

    ** Files and sources

    Shared: Prelude (results, options, bounded integers, sorting), Text and
    Tokens (the string functions of Rust the code calls), Forest (the leaf
    stripping loop of four hierarchy passes), Platform and Civil (interfaces to
    the crates [time] and [uuid], with concrete instances), Samples and Day
    (data of the witnesses).

    src/crates/dayweave-core/src:
    - domain.rs: Domain (types, constructors), Rollup (expected durations)
    - hierarchy_progress.rs: Progress; hierarchy_completion.rs: Completion
    - occurrence_lifecycle.rs: Lifecycle; progress_value.rs: Decimal
    - custom_recurrence.rs: Rrule
    - recurrence.rs: Expansion and Materialize (code); Horizon, Occurrences,
      Moves, Subtrees and Clones (theorems)
    - scheduler.rs: Plan (output types), Intervals, Order, Execution,
      Validation, Candidate, Planner, Manual, Defer, Pipeline (code and
      theorems); Placement, Sessions, Safety, Retained, Precedence (theorems on
      Planner); Recurring (theorems on Pipeline with recurrence.rs)
    - habits.rs: HabitRecord, HabitPolicy and HabitAnalytics (code; the first two
      with their theorems); Adherence, Trends and Projection (theorems)
    src/crates/dayweave-compose/src:
    - metadata.rs: Metadata; model.rs: Prepare
    - prepare.rs: Prepare, Classify and Compose (code); Sensitivity, Prepared
      and Composed (theorems)
    src/server/dayweave-api/src:
    - execution/domain.rs: Session; execution/repository.rs: Lease
    - items/domain.rs: ItemDomain; item_completion/domain.rs: CompletionPolicy
      (code), Effects (theorems)
    - items/repository.rs: ItemStore and Delta (code); Kahn, ItemForest,
      ItemGraph, Repository, Versions (theorems on ItemStore), ItemNormal
      (theorems on ItemDomain and ItemStore), Paging and Groups (theorems on
      Delta); ItemSamples (data of the witnesses)
    - items/bootstrap.rs: Bootstrap (code), Snapshots (theorems)
    - item_progress: ItemProgress
    - proposals/domain.rs, repository.rs and service.rs: Proposals (code),
      ProposalRuns (every interleaving of the calls, theorems)
    - proposals/application.rs and
      persistence/proposal_application_repository.rs, without its statements:
      ChangeSets and CommandOrder (code), Projections and Orders (theorems on
      CommandOrder), Risks
    A struct is a record, an enum an inductive type, a function a definition of
    the same name; helper definitions name the lines of a function that stand
    on their own.  A [Result] is [result], an [Option] [option]; a loop over a
    collection is a fold, other loops have fuel.

    ** Interfaces

    [Platform] and [Civil] list what the code takes from [time] and [uuid];
    [PlatformLaws] and [CivilLaws] state the documented behaviour theorems use,
    and both have an instance for which the laws are proved.  [Encoding]
    (Manual) is serde_json with SHA-256, [Chrono] (Lease) the server's clock
    crate, [ReadyQueue] (Forest) the two work lists of the hierarchy passes.
    [ItemFormats] and [SchedulingMetadata] (ItemDomain), [CompletionDigest]
    (CompletionPolicy) and [ChangeLength] (ItemStore) are what the items use of
    serde_json, chrono, chrono_tz, sha2 and dayweave-compose, where
    [compose_metadata] (Metadata) implements [SchedulingMetadata];
    [ItemFormatLaws] states of serde_json's objects what ItemNormal uses.
    [MetadataFormats] (Metadata) and [ComposeTime] (Prepare) are the decoders
    and the conversions of time that the composition uses; [ComposeTimeLaws]
    (Composed) says that an instant converts to itself.
    [JsonNumbers] (Proposals) stands for the numbers of serde_json, and
    [ChangeSetFormat] (ChangeSets) for the decoder that serde derives.
    [Recurrences] (Pipeline) is what the entry points use of recurrence.rs;
    Pipeline's theorems hold for every implementation with its laws, and
    Recurring instantiates it with the code.

    ** Theorems

    - Composed requests (Sensitivity, Prepared, Composed): every stored item is
      planned, rejected or without work, once; the planned items pass the
      planner's validation; sensitivity is inherited and fails closed; manual
      placements arrive unchanged; the order of the items does not matter.
    - Whole plans (Safety, Retained, Precedence, Recurring, Pipeline): planned
      time is booked once, lies in free available time and meets every hard
      rule; immutable time is kept; hard order is respected; recurring work is
      done in its occurrence's window; published plans name no clone.
    - The pass (Placement, Sessions, Candidate, Intervals, Order): the best
      slot is chosen, loops end, minutes are conserved, splitting is respected,
      free segments and the dependency order are exact.
    - Recurrence (Rrule, Occurrences, Moves, Subtrees, Clones): rules
      round-trip and expand to their specification; rolling series of a fixed
      length cover the horizon; occurrences are unique, sorted and in the
      horizon; generated occurrences prove their own identity on calendars whose
      days keep their offset (rolling months only on the calendar a request
      implies, custom rules only on an explicit one); the materialised items are
      exactly the retained items and the clones, and all references resolve.
    - Manual placements and deferrals (Manual, Defer, Execution, Validation):
      the assessor is exact, digests are stable, deferrals are accepted exactly
      when deferrable and keep snapshots valid.
    - Hierarchies (Forest, Rollup, Progress, Completion, Lifecycle): each pass
      equals its recursive specification, with accurate errors.
    - Execution (Session, Lease): reachable sessions are well formed and
      refine a stopwatch, whose total or the user's correction they record when
      they end; the repository refines a desk with one open session,
      no revision is used twice, answers are remembered.
    - Habits (HabitRecord, HabitPolicy, Projection): reachable records are valid,
      ordinary recording only adds, decisions about missed habits are carried
      out by the parts that execute them, and the analytics equal their
      reference, or overflow before the calendar's first date.
    - Items (Effects, Repository, Versions, ItemNormal, Groups, Snapshots,
      ItemProgress): every reachable store is consistent; the dependency check
      is exact; versions increase, no revision is the base of two writes,
      answers are repeated until they expire, failed writes change nothing;
      stored items survive their encoding; clients that follow the log, from
      the start or from a snapshot, converge; progress refines a journal.
    - Proposals (ProposalRuns, Projections, Orders, Risks): however calls
      interleave, a proposal has one history of lawful versions and one
      decision; the state after some commands depends only on their set, so
      that the search, which remembers sets, finds an execution order exactly
      when there is one; only a plain creation goes without approval.

    ** Fuel

    Fuel is computed from the input and theorems show it is enough: hierarchy
    loops have one unit per item (Forest, Subtrees); [scan_fuel] one per day of
    a custom rule (Rrule); [fill_buckets] one per day of the trend (Trends);
    [roll_fuel] one per minute of the horizon and three more, since rolling
    instants are at least a minute apart (Horizon);
    [days_fuel] one per day of the horizon and three more, and [months_fuel]
    240,000, more than the months between the years -9999 and 9999 (Horizon);
    the walks of ItemStore over ancestors have one unit per item and one more
    (ItemForest), [visit_ready] one per item (Kahn), [select_units] one per row
    and [follow] one per change and one more (Paging); [walk_members] one per
    parent and one more (Bootstrap); [greedy_order] and
    [search_command_execution_order] have one unit per command (Orders:
    [greedy_fuel], [search_fuel]);
    [sensitivity_path] has one unit per item and two more, [prune_loop] one per
    item and one more, and the inbox one round per item, as in the code
    (Sensitivity); [generate_days] one more than the days the code allows;
    [slot_fuel], [size_fuel] and the session loop one per slot or session
    (Placement).

    ** Simplifications

    An index of an absent item and an [expect] on an impossible case panic in
    the code; here they are no-ops or defaults, and validation excludes them.
    Adding a duration that the code adds with [+] is exact.  The error of an
    invalid hierarchy is kept as a value instead of its text, and the texts that
    explain a validation error, a risk or a conflict are left out; the reason of
    a rejected item is a constructor.  serde attributes
    and JSON are not modelled.  A method of a repository under its lock is
    one atomic step; the service of the proposals is a program of such steps.

    ** Not modelled

    SQL persistence, HTTP handlers, provider clients (Google, Codex), the
    Android bindings and the framing of the helper process are input and
    output, or the behaviour of a database; so are the transaction that applies a
    change set, its receipts and its undo.  The remaining server domains, and
    what the server does around the composition (scheduling/compose.rs), could
    follow. *)
From stdpp Require Export prelude gmap strings list sorting fin_maps.
From Stdlib Require Export Lia.

(** ** Results: Rust's [Result<A, E>] *)

Inductive result (E A : Type) : Type :=
| Ok (a : A)
| Err (e : E).
Arguments Ok {E A} a.
Arguments Err {E A} e.

Declare Scope result_scope.
Delimit Scope result_scope with result.
Open Scope result_scope.

Definition rbind {E A B} (m : result E A) (f : A → result E B) : result E B :=
  match m with Ok a => f a | Err e => Err e end.

Notation "'let?' x ':=' m 'in' k" := (rbind m (λ x, k))
  (at level 10, x pattern, m at level 100, k at level 200) : result_scope.

(** [ensure b e] is the early return [if !b { return Err(e) }]. *)
Definition ensure {E} (b : bool) (e : E) : result E unit :=
  if b then Ok tt else Err e.

(** [ok_or o e] is [Option::ok_or]. *)
Definition ok_or {E A} (o : option A) (e : E) : result E A :=
  match o with Some a => Ok a | None => Err e end.

Definition map_err {E F A} (f : E → F) (m : result E A) : result F A :=
  match m with Ok a => Ok a | Err e => Err (f e) end.

(** A [for] loop whose body may return early with an error. *)
Fixpoint foldM {E S A} (f : S → A → result E S) (s : S) (l : list A) : result E S :=
  match l with
  | [] => Ok s
  | a :: l' => let? s' := f s a in foldM f s' l'
  end.

(** A [for] loop that only checks. *)
Definition forM {E A} (f : A → result E unit) (l : list A) : result E unit :=
  foldM (λ _ a, f a) tt l.

Definition is_ok {E A} (m : result E A) : bool :=
  match m with Ok _ => true | Err _ => false end.

(** ** Machine integers

    Unsigned Rust integers are natural numbers [N] below the bound of their
    width; the operations below are the standard library's and keep a result
    inside the width. Signed integers, instants and durations are [Z]. *)

Definition u16_max : N := 65535.
Definition u32_max : N := 4294967295.
Definition u64_max : N := 18446744073709551615.
Definition i64_max : N := 9223372036854775807.
Definition i64_min_z : Z := -9223372036854775808.
Definition i64_max_z : Z := 9223372036854775807.

Definition checked_add (bound a b : N) : option N :=
  if (a + b <=? bound)%N then Some (a + b)%N else None.

Definition saturating_add (bound a b : N) : N := N.min (a + b) bound.

(** [N.sub] truncates at zero, as [saturating_sub] does. *)
Definition saturating_sub (a b : N) : N := (a - b)%N.

Definition saturating_mul (bound a b : N) : N := N.min (a * b) bound.

Definition checked_sub (a b : N) : option N :=
  if (b <=? a)%N then Some (a - b)%N else None.

(** [u32::try_from(x).unwrap_or(u32::MAX)] of a non-negative integer. *)
Definition try_u32_or_max (x : Z) : N :=
  if (0 <=? x)%Z && (x <=? Z.of_N u32_max)%Z then Z.to_N x else u32_max.

(** [Iterator::sum::<u32>()] in a release build: wrap-around addition. *)
Definition u32_wrapping_sum (l : list N) : N :=
  foldr (λ a b, (a + b) mod (u32_max + 1))%N 0%N l.

(** ** Comparators: Rust's [Ordering] and derived lexicographic orders *)

Definition then_with (c1 c2 : comparison) : comparison :=
  match c1 with Eq => c2 | _ => c1 end.

Definition cmp_option {A} (cmp : A → A → comparison) (a b : option A) : comparison :=
  match a, b with
  | None, None => Eq
  | None, Some _ => Lt
  | Some _, None => Gt
  | Some a, Some b => cmp a b
  end.

Definition cmp_bool (a b : bool) : comparison :=
  match a, b with
  | false, true => Lt
  | true, false => Gt
  | _, _ => Eq
  end.

Fixpoint cmp_list {A} (cmp : A → A → comparison) (a b : list A) : comparison :=
  match a, b with
  | [], [] => Eq
  | [], _ => Lt
  | _, [] => Gt
  | x :: a', y :: b' => then_with (cmp x y) (cmp_list cmp a' b')
  end.

Definition is_le (c : comparison) : bool :=
  match c with Gt => false | _ => true end.

Definition is_lt (c : comparison) : bool :=
  match c with Lt => true | _ => false end.

(** ** Stable sorting: [slice::sort_by] and [sort_unstable] on total keys *)

Fixpoint insert_by {A} (leb : A → A → bool) (x : A) (l : list A) : list A :=
  match l with
  | [] => [x]
  | y :: l' => if leb x y then x :: y :: l' else y :: insert_by leb x l'
  end.

Definition sort_by {A} (leb : A → A → bool) (l : list A) : list A :=
  foldr (insert_by leb) [] l.

(** [Vec::dedup_by]: drops an element that matches the one kept before it. *)
Fixpoint dedup_from {A} (same : A → A → bool) (kept : A) (l : list A) : list A :=
  match l with
  | [] => [kept]
  | x :: l' =>
      if same kept x then dedup_from same kept l' else kept :: dedup_from same x l'
  end.

Definition dedup_by {A} (same : A → A → bool) (l : list A) : list A :=
  match l with [] => [] | x :: l' => dedup_from same x l' end.

Definition sort_dedup_N (l : list N) : list N := dedup_by N.eqb (sort_by N.leb l).

(** [Iterator::min_by]/[max_by] style folds that keep the first minimum and the
    last maximum, as the standard library documents. *)
Definition min_by {A} (cmp : A → A → comparison) (l : list A) : option A :=
  match l with
  | [] => None
  | x :: l' => Some (foldl (λ m y, if is_lt (cmp y m) then y else m) x l')
  end.

Definition max_by {A} (cmp : A → A → comparison) (l : list A) : option A :=
  match l with
  | [] => None
  | x :: l' => Some (foldl (λ m y, if is_lt (cmp y m) then m else y) x l')
  end.

(** ** Ordered maps: a [BTreeMap] is a [gmap] whose iteration order is the
    ascending order of its keys *)

Definition keys {V} (m : gmap N V) : list N := sort_by N.leb (map_to_list m).*1.

Definition entries {V} (m : gmap N V) : list (N * V) :=
  omap (λ k, pair k <$> m !! k) (keys m).

Definition values {V} (m : gmap N V) : list V := omap (λ k, m !! k) (keys m).

Definition first_key {V} (m : gmap N V) : option N := head (keys m).

(** A [BTreeSet] iterates in ascending order. *)
Definition set_elems (s : gset N) : list N := sort_by N.leb (elements s).

Definition pop_first (s : gset N) : option (N * gset N) :=
  match set_elems s with
  | [] => None
  | x :: _ => Some (x, s ∖ {[x]})
  end.

(** ** Automation *)

Create HintDb dayweave.

(** Splits a result computation in a hypothesis into its successful steps. *)
Ltac inv_result :=
  repeat match goal with
  | H : Ok _ = Ok _ |- _ => injection H; clear H; intros; try subst
  | H : Err _ = Err _ |- _ => injection H; clear H; intros; try subst
  | H : Ok _ = Err _ |- _ => discriminate H
  | H : Err _ = Ok _ |- _ => discriminate H
  | H : ensure ?b _ = Ok _ |- _ =>
      unfold ensure in H; let E := fresh "Eb" in destruct b eqn:E; [clear H|discriminate H]
  | H : ensure ?b _ = Err _ |- _ =>
      unfold ensure in H; let E := fresh "Eb" in destruct b eqn:E; [discriminate H|]
  | H : rbind ?m _ = Ok _ |- _ =>
      let E := fresh "Em" in
      destruct m eqn:E; cbn [rbind] in H; [|discriminate H]
  end.

(** Boolean comparisons of the code become propositions [lia] understands. *)
Ltac bool_to_prop :=
  repeat match goal with
  | H : (_ && _) = true |- _ => apply andb_true_iff in H; destruct H
  | H : (_ || _) = false |- _ => apply orb_false_iff in H; destruct H
  | H : negb _ = true |- _ => apply negb_true_iff in H
  | H : negb _ = false |- _ => apply negb_false_iff in H
  | H : (_ <=? _)%Z = true |- _ => apply Z.leb_le in H
  | H : (_ <=? _)%Z = false |- _ => apply Z.leb_gt in H
  | H : (_ <? _)%Z = true |- _ => apply Z.ltb_lt in H
  | H : (_ <? _)%Z = false |- _ => apply Z.ltb_ge in H
  | H : (_ =? _)%Z = true |- _ => apply Z.eqb_eq in H
  | H : (_ =? _)%Z = false |- _ => apply Z.eqb_neq in H
  | H : (_ <=? _)%N = true |- _ => apply N.leb_le in H
  | H : (_ <=? _)%N = false |- _ => apply N.leb_gt in H
  | H : (_ <? _)%N = true |- _ => apply N.ltb_lt in H
  | H : (_ <? _)%N = false |- _ => apply N.ltb_ge in H
  | H : (_ =? _)%N = true |- _ => apply N.eqb_eq in H
  | H : (_ =? _)%N = false |- _ => apply N.eqb_neq in H
  | H : bool_decide _ = true |- _ => apply bool_decide_eq_true in H
  | H : bool_decide _ = false |- _ => apply bool_decide_eq_false in H
  end.

(** ** Lemmas on results and loops *)

Lemma rbind_ok {E A B} (m : result E A) (f : A → result E B) b :
  rbind m f = Ok b ↔ ∃ a, m = Ok a ∧ f a = Ok b.
Proof. destruct m; simpl; naive_solver. Qed.

Lemma foldM_app {E S A} (f : S → A → result E S) s l1 l2 :
  foldM f s (l1 ++ l2) = let? s' := foldM f s l1 in foldM f s' l2.
Proof. revert s; induction l1 as [|a l1 IH]; intros s; simpl; [done|]. destruct (f s a); simpl; auto. Qed.

(** The loop rule: an invariant indexed by the processed prefix. *)
Lemma foldM_inv {E S A} (f : S → A → result E S) (I : list A → S → Prop) l s s' :
  I [] s →
  (∀ p a q t t', l = p ++ a :: q → I p t → f t a = Ok t' → I (p ++ [a]) t') →
  foldM f s l = Ok s' → I l s'.
Proof.
  intros H0 Hstep.
  enough (∀ q p t, l = p ++ q → I p t → foldM f t q = Ok s' → I l s') as Hgo by (by apply (Hgo l [] s)).
  induction q as [|a q IH]; intros p t -> Hp Hf; simpl in Hf.
  - rewrite app_nil_r. by simplify_eq.
  - apply rbind_ok in Hf as (t' & Hft & Hf).
    apply (IH (p ++ [a]) t'); [by rewrite <- app_assoc| |done].
    by eapply Hstep.
Qed.

(** A failing loop fails in one step, after a prefix that succeeded. *)
Lemma foldM_Err {E S A} (f : S → A → result E S) s l e :
  foldM f s l = Err e → ∃ p a q t, l = p ++ a :: q ∧ foldM f s p = Ok t ∧ f t a = Err e.
Proof.
  revert s. induction l as [|a l IH]; intros s Hf; simpl in Hf; [done|].
  destruct (f s a) as [t|e'] eqn:Ea; simpl in Hf.
  - apply IH in Hf as (p & b & q & u & -> & Hp & Hb). exists (a :: p), b, q, u. simpl. by rewrite Ea.
  - simplify_eq. by exists [], a, l, s.
Qed.

Lemma forM_ok {E A} (f : A → result E unit) l :
  forM f l = Ok tt ↔ Forall (λ a, f a = Ok tt) l.
Proof.
  unfold forM. induction l as [|a l IH]; simpl.
  - split; [constructor|done].
  - rewrite rbind_ok, Forall_cons. split.
    + intros ([] & Ha & Hl). split; [done|by apply IH].
    + intros [Ha Hl]. exists tt. split; [done|by apply IH].
Qed.

Lemma ensure_ok {E} b (e : E) : ensure b e = Ok tt ↔ b = true.
Proof. destruct b; simpl; naive_solver. Qed.

Lemma map_err_ok {E F A} (f : E → F) (m : result E A) a : map_err f m = Ok a ↔ m = Ok a.
Proof. destruct m; simpl; naive_solver. Qed.

Lemma ok_or_ok {E A} (o : option A) (e : E) a : ok_or o e = Ok a ↔ o = Some a.
Proof. destruct o; simpl; naive_solver. Qed.

Lemma rbind_unit_ok {E B} (m : result E unit) (k : result E B) b :
  (let? _ := m in k) = Ok b ↔ m = Ok tt ∧ k = Ok b.
Proof. rewrite rbind_ok. split; [intros ([] & ? & ?)|intros [? ?]; exists tt]; done. Qed.

(** A loop that refuses repeated keys and unacceptable elements, in whatever
    order it tests them, accepts exactly the lists of distinct good elements. *)
Lemma fresh_loop_ok {E A K} `{Countable K} (key : A → K) (good : A → Prop)
    (step : gset K → A → result E (gset K)) l s0 :
  (∀ s a s', a ∈ l → (step s a = Ok s') ↔ ((key a ∉ s) ∧ good a ∧ s' = {[key a]} ∪ s)) →
  (∃ s, foldM step s0 l = Ok s) ↔
  NoDup (key <$> l) ∧ (∀ a, a ∈ l → key a ∉ s0) ∧ ∀ a, a ∈ l → good a.
Proof.
  revert s0. induction l as [|a l IH]; intros s0 Hstep; simpl.
  - split; [intros _|eauto]. split_and!; [constructor|by intros ? ?%elem_of_nil..].
  - assert (∀ s b s', b ∈ l → (step s b = Ok s') ↔ ((key b ∉ s) ∧ good b ∧ s' = {[key b]} ∪ s)) as Hstep'
      by (intros; apply Hstep; by right).
    rewrite NoDup_cons. split.
    + intros (s & (s1 & (Hk & Hg & ->)%Hstep & Hs)%rbind_ok); [|left].
      destruct (proj1 (IH _ Hstep') (ex_intro _ s Hs)) as (Hnd & Hno & Hgood). split_and!.
      * intros (b & Hb & Hin)%list_elem_of_fmap. apply (Hno b Hin). rewrite Hb. set_solver.
      * done.
      * intros b [->|Hb]%elem_of_cons; [done|]. specialize (Hno b Hb). set_solver.
      * intros b [->|Hb]%elem_of_cons; auto.
    + intros ([Hnin Hnd] & Hno & Hgood).
      destruct (proj2 (IH ({[key a]} ∪ s0) Hstep')) as [s Hs].
      { split_and!; [done| |intros; apply Hgood; by right]. intros b Hb [Heq%elem_of_singleton|Hin]%elem_of_union.
        - apply Hnin. rewrite <- Heq. apply list_elem_of_fmap. eauto.
        - by apply (Hno b); [right|]. }
      exists s. rewrite (proj2 (Hstep s0 a ({[key a]} ∪ s0) ltac:(left))); [done|].
      split_and!; [apply Hno; left|apply Hgood; left|done].
Qed.

(** ** Lemmas on machine integers *)

Lemma checked_add_Some bound a b c :
  checked_add bound a b = Some c ↔ c = (a + b)%N ∧ (a + b <= bound)%N.
Proof. unfold checked_add. destruct (N.leb_spec (a + b) bound); split; intros; simplify_eq; try lia; intuition (congruence || lia). Qed.

Lemma checked_sub_Some a b c :
  checked_sub a b = Some c ↔ c = (a - b)%N ∧ (b <= a)%N.
Proof. unfold checked_sub. destruct (N.leb_spec b a); split; intros; simplify_eq; try lia; intuition (congruence || lia). Qed.

Lemma saturating_add_le bound a b : (saturating_add bound a b <= bound)%N.
Proof. unfold saturating_add. lia. Qed.

Lemma saturating_add_comm bound a b : saturating_add bound a b = saturating_add bound b a.
Proof. unfold saturating_add. lia. Qed.

Lemma saturating_add_assoc bound a b c :
  saturating_add bound a (saturating_add bound b c) = saturating_add bound (saturating_add bound a b) c.
Proof. unfold saturating_add. lia. Qed.

Lemma try_u32_or_max_le x : (try_u32_or_max x <= u32_max)%N.
Proof. unfold try_u32_or_max. destruct (_ && _) eqn:E; bool_to_prop; unfold u32_max in *; lia. Qed.

(** ** Lawful comparators *)

(** What the standard library requires of a comparator passed to [sort_by]. *)
Record lawful {A} (cmp : A → A → comparison) : Prop := {
  law_opp a b : cmp b a = CompOpp (cmp a b);
  law_trans a b c : cmp a b ≠ Gt → cmp b c ≠ Gt → cmp a c ≠ Gt
}.

Lemma lawful_N : lawful N.compare.
Proof. split; [intros; apply N.compare_antisym|]. intros a b c. rewrite !N.compare_le_iff. lia. Qed.

Lemma lawful_Z : lawful Z.compare.
Proof. split; [intros; by rewrite Z.compare_antisym|]. intros a b c. rewrite !Z.compare_le_iff. lia. Qed.

Lemma lawful_contramap {A B} (f : B → A) cmp : lawful cmp → lawful (λ x y, cmp (f x) (f y)).
Proof. intros [H1 H2]. split; [intros; apply H1|intros a b c; apply H2]. Qed.

Lemma lawful_flip {A} (cmp : A → A → comparison) : lawful cmp → lawful (λ x y, cmp y x).
Proof. intros [H1 H2]. split; [intros; apply H1|]. intros a b c ? ?. by apply (H2 _ b). Qed.

Lemma lawful_eq_trans {A} (cmp : A → A → comparison) a b c :
  lawful cmp → cmp a b = Eq → cmp b c = Eq → cmp a c = Eq.
Proof.
  intros [H1 H2] Hab Hbc.
  assert (cmp a c ≠ Gt) by (apply (H2 a b c); congruence).
  assert (cmp c a ≠ Gt) as Hca by (apply (H2 c b a); rewrite H1; rewrite ?Hab, ?Hbc; done).
  rewrite (H1 a c) in Hca. by destruct (cmp a c).
Qed.

Lemma lawful_lt_le {A} (cmp : A → A → comparison) a b c :
  lawful cmp → cmp a b ≠ Gt → cmp b c ≠ Gt → cmp a b = Lt ∨ cmp b c = Lt → cmp a c = Lt.
Proof.
  intros Hl Hab Hbc Hor. pose proof (law_trans _ Hl a b c Hab Hbc) as Hac.
  destruct (cmp a c) eqn:E; [|done..]. exfalso.
  assert (cmp c a ≠ Gt) as Hca by (by rewrite (law_opp _ Hl a c), E).
  pose proof (law_trans _ Hl b c a Hbc Hca) as Hba. pose proof (law_trans _ Hl c a b Hca Hab) as Hcb.
  rewrite (law_opp _ Hl a b) in Hba. rewrite (law_opp _ Hl b c) in Hcb.
  destruct Hor as [Hx|Hx]; rewrite Hx in *; done.
Qed.

(** Lexicographic composition keeps a comparator lawful. *)
Lemma lawful_then {A} (c1 c2 : A → A → comparison) :
  lawful c1 → lawful c2 → lawful (λ a b, then_with (c1 a b) (c2 a b)).
Proof.
  intros H1 H2. split.
  - intros a b. rewrite (law_opp _ H1 a b), (law_opp _ H2 a b). by destruct (c1 a b).
  - intros a b c Hab Hbc.
    assert (c1 a b ≠ Gt) as Hab1 by (by destruct (c1 a b)). assert (c1 b c ≠ Gt) as Hbc1 by (by destruct (c1 b c)).
    destruct (c1 a b) eqn:E1, (c1 b c) eqn:E2; try done;
      try (rewrite (lawful_lt_le _ a b c) by (rewrite ?E1, ?E2; auto); done).
    rewrite (lawful_eq_trans _ a b c) by done. simpl in *. by apply (law_trans _ H2 a b c).
Qed.

Lemma lawful_cmp_option {A} (cmp : A → A → comparison) : lawful cmp → lawful (cmp_option cmp).
Proof.
  intros [H1 H2]. split; [intros [a|] [b|]; simpl; auto|].
  intros [a|] [b|] [c|]; simpl; try done. apply H2.
Qed.

Lemma lawful_cmp_bool : lawful cmp_bool.
Proof. split; [by intros [] []|by intros [] [] []]. Qed.

Lemma lawful_leb_total {A} (cmp : A → A → comparison) a b :
  lawful cmp → is_le (cmp a b) = false → is_le (cmp b a) = true.
Proof. intros Hl. rewrite (law_opp _ Hl a b). by destruct (cmp a b). Qed.

Lemma lawful_leb_trans {A} (cmp : A → A → comparison) a b c :
  lawful cmp → is_le (cmp a b) = true → is_le (cmp b c) = true → is_le (cmp a c) = true.
Proof.
  intros Hl Hab Hbc. assert (cmp a c ≠ Gt); [|by destruct (cmp a c)].
  apply (law_trans _ Hl a b c); [by destruct (cmp a b)|by destruct (cmp b c)].
Qed.

#[export] Hint Resolve lawful_N lawful_Z lawful_contramap lawful_flip lawful_then lawful_cmp_option
  lawful_cmp_bool : dayweave.

(** ** Lemmas on sorting *)

Section sorting.
Context {A : Type} (leb : A → A → bool).

Lemma insert_by_perm x l : insert_by leb x l ≡ₚ x :: l.
Proof.
  induction l as [|y l IH]; simpl; [done|]. destruct (leb x y); [done|].
  rewrite IH. apply Permutation_swap.
Qed.

Lemma sort_by_perm l : sort_by leb l ≡ₚ l.
Proof. induction l as [|x l IH]; simpl; [done|]. by rewrite insert_by_perm, IH. Qed.

Lemma elem_of_sort_by x l : x ∈ sort_by leb l ↔ x ∈ l.
Proof. by rewrite sort_by_perm. Qed.

Lemma length_sort_by l : length (sort_by leb l) = length l.
Proof. apply Permutation_length, sort_by_perm. Qed.

Context (Htotal : ∀ x y, leb x y = false → leb y x = true).
Context (Htrans : ∀ x y z, leb x y = true → leb y z = true → leb x z = true).

Lemma insert_by_sorted x l :
  StronglySorted (λ a b, leb a b = true) l → StronglySorted (λ a b, leb a b = true) (insert_by leb x l).
Proof using Htotal Htrans.
  induction 1 as [|y l Hl IH Hy]; simpl; [repeat constructor|].
  destruct (leb x y) eqn:Exy.
  - repeat constructor; [done..|]. eapply Forall_impl; [exact Hy|]; simpl; eauto.
  - constructor; [done|]. rewrite insert_by_perm. constructor; auto.
Qed.

Lemma sort_by_sorted l : StronglySorted (λ a b, leb a b = true) (sort_by leb l).
Proof using Htotal Htrans. induction l; simpl; [constructor|]. by apply insert_by_sorted. Qed.

(** Sorting is stable under filtering. *)
Lemma filter_insert_by (P : A → Prop) `{∀ x, Decision (P x)} x l :
  StronglySorted (λ a b, leb a b = true) l →
  filter P (insert_by leb x l) = if decide (P x) then insert_by leb x (filter P l) else filter P l.
Proof using Htotal Htrans.
  induction 1 as [|y l Hl IH Hy]; simpl.
  - rewrite filter_cons, filter_nil. by case_decide.
  - destruct (leb x y) eqn:Exy.
    + rewrite filter_cons. case_decide as Hx; [|done]. rewrite filter_cons. case_decide; simpl; [by rewrite Exy|].
      assert (Forall (λ b, leb x b = true) (filter P l)) as Hall.
      { apply Forall_forall. intros b [_ Hb]%list_elem_of_filter. rewrite Forall_forall in Hy. eauto. }
      destruct (filter P l) as [|z zs]; simpl; [done|]. apply Forall_cons in Hall as [-> _]. done.
    + rewrite filter_cons, IH, (filter_cons _ y l). do 2 case_decide; simpl; by rewrite ?Exy.
Qed.

Lemma filter_sort_by (P : A → Prop) `{∀ x, Decision (P x)} l : filter P (sort_by leb l) = sort_by leb (filter P l).
Proof using Htotal Htrans.
  induction l as [|x l IH]; simpl; [done|]. rewrite filter_insert_by by apply sort_by_sorted.
  rewrite filter_cons, IH. by case_decide.
Qed.
End sorting.

(** Sorting depends on what is compared. *)
Lemma fmap_insert_by {A B} (f : A → B) (lebA : A → A → bool) (lebB : B → B → bool) x l :
  (∀ a b, lebA a b = lebB (f a) (f b)) → f <$> insert_by lebA x l = insert_by lebB (f x) (f <$> l).
Proof.
  intros Hf. induction l as [|y l IH]; [done|]. cbn [insert_by fmap list_fmap]. rewrite <-Hf.
  destruct (lebA x y); cbn [fmap list_fmap]; [done|]. by rewrite <-IH.
Qed.

Lemma fmap_sort_by {A B} (f : A → B) (lebA : A → A → bool) (lebB : B → B → bool) l :
  (∀ a b, lebA a b = lebB (f a) (f b)) → f <$> sort_by lebA l = sort_by lebB (f <$> l).
Proof.
  intros Hf. induction l as [|x l IH]; [done|]. unfold sort_by in *. cbn [foldr fmap list_fmap].
  rewrite (fmap_insert_by f lebA lebB) by done. by f_equal.
Qed.

Lemma NoDup_sort_by {A} (leb : A → A → bool) l : NoDup (sort_by leb l) ↔ NoDup l.
Proof. by rewrite sort_by_perm. Qed.

Lemma sort_N_sorted l : StronglySorted N.le (sort_by N.leb l).
Proof.
  assert (StronglySorted (λ a b, (a <=? b)%N = true) (sort_by N.leb l)) as H.
  { apply sort_by_sorted; intros *; rewrite ?N.leb_gt, ?N.leb_le; lia. }
  induction H as [|x k Hk IH Hx]; constructor; [done|].
  eapply Forall_impl; [exact Hx|]; simpl; intros ? ?%N.leb_le; done.
Qed.

(** Dropping equal neighbours keeps the same elements. *)
Lemma elem_of_dedup_by {A} (same : A → A → bool) l x :
  (∀ a b, same a b = true → a = b) → x ∈ dedup_by same l ↔ x ∈ l.
Proof.
  intros Hsame. destruct l as [|y l]; [done|]. simpl. revert y.
  induction l as [|z l IH]; intros y; simpl; [done|].
  destruct (same y z) eqn:E; [apply Hsame in E as ->|]; [rewrite IH; set_solver|].
  rewrite elem_of_cons, IH, !elem_of_cons. done.
Qed.

Lemma elem_of_sort_dedup_N l x : x ∈ sort_dedup_N l ↔ x ∈ l.
Proof. unfold sort_dedup_N. rewrite elem_of_dedup_by by apply N.eqb_eq. apply elem_of_sort_by. Qed.

Lemma dedup_from_sorted kept l :
  StronglySorted N.le (kept :: l) →
  (∀ y, y ∈ dedup_from N.eqb kept l → (kept <= y)%N) ∧ NoDup (dedup_from N.eqb kept l).
Proof.
  revert kept. induction l as [|x l IH]; intros kept Hsorted; simpl.
  { split; [intros y ->%list_elem_of_singleton; done|apply NoDup_singleton]. }
  apply StronglySorted_inv in Hsorted as [Hl Hk]. apply Forall_cons in Hk as [Hle Hk].
  destruct (N.eqb_spec kept x) as [->|Hne]; [by apply IH|].
  destruct (IH x Hl) as [Hall Hnd]. split.
  - intros y [->|Hy]%elem_of_cons; [done|]. specialize (Hall y Hy). lia.
  - constructor; [|done]. intros Hin. specialize (Hall _ Hin). lia.
Qed.

Lemma NoDup_sort_dedup_N l : NoDup (sort_dedup_N l).
Proof.
  unfold sort_dedup_N. pose proof (sort_N_sorted l) as Hs. destruct (sort_by N.leb l) as [|x k]; [constructor|].
  by apply dedup_from_sorted.
Qed.

(** ** Lemmas on ordered maps and sets *)

Lemma elem_of_keys {V} (m : gmap N V) k : k ∈ keys m ↔ is_Some (m !! k).
Proof.
  unfold keys. rewrite elem_of_sort_by, list_elem_of_fmap. split.
  - intros ([k' v] & -> & Hv%elem_of_map_to_list). by exists v.
  - intros [v Hv]. exists (k, v). split; [done|]. by apply elem_of_map_to_list.
Qed.

Lemma NoDup_keys {V} (m : gmap N V) : NoDup (keys m).
Proof. unfold keys. rewrite NoDup_sort_by. apply NoDup_fst_map_to_list. Qed.

Lemma keys_sorted {V} (m : gmap N V) : StronglySorted N.le (keys m).
Proof. apply sort_N_sorted. Qed.

Lemma keys_perm_elements {V} (m : gmap N V) : keys m ≡ₚ elements (dom m).
Proof.
  apply NoDup_Permutation; [apply NoDup_keys|apply NoDup_elements|].
  intros k. by rewrite elem_of_keys, elem_of_elements, elem_of_dom.
Qed.

Lemma length_keys {V} (m : gmap N V) : length (keys m) = size m.
Proof. unfold keys. rewrite length_sort_by, length_fmap. by rewrite length_map_to_list. Qed.

Lemma elem_of_entries {V} (m : gmap N V) k v : (k, v) ∈ entries m ↔ m !! k = Some v.
Proof.
  unfold entries. rewrite list_elem_of_omap. split.
  - intros (k' & Hk & Hv). destruct (m !! k') eqn:E; simpl in Hv; by simplify_eq.
  - intros Hv. exists k. rewrite elem_of_keys, Hv. split; [by eexists|done].
Qed.

Lemma elem_of_values {V} (m : gmap N V) v : v ∈ values m ↔ ∃ k, m !! k = Some v.
Proof.
  unfold values. rewrite list_elem_of_omap. split.
  - intros (k' & Hk & Hv). by exists k'.
  - intros [k Hv]. exists k. rewrite elem_of_keys, Hv. split; [by eexists|done].
Qed.

Lemma keys_fmap {V W} (f : V → W) (m : gmap N V) : keys (f <$> m) = keys m.
Proof.
  apply (StronglySorted_unique_strong N.le); [intros; lia|apply keys_sorted|apply keys_sorted|].
  by rewrite !keys_perm_elements, dom_fmap_L.
Qed.

Lemma values_fmap {V W} (f : V → W) (m : gmap N V) : values (f <$> m) = f <$> values m.
Proof.
  unfold values. rewrite keys_fmap. induction (keys m) as [|k l IH]; simpl; [done|].
  rewrite lookup_fmap. destruct (m !! k); simpl; [f_equal|]; exact IH.
Qed.

Lemma StronglySorted_head_min l x : StronglySorted N.le l → head l = Some x → ∀ y, y ∈ l → (x <= y)%N.
Proof.
  intros Hs Hx y Hy. destruct l as [|z l]; simplify_eq/=.
  apply StronglySorted_inv in Hs as [_ Hf]. rewrite Forall_forall in Hf.
  apply elem_of_cons in Hy as [->|Hy]; [lia|auto].
Qed.

Lemma first_key_None {V} (m : gmap N V) : first_key m = None ↔ m = ∅.
Proof.
  unfold first_key. split.
  - intros H. apply map_eq. intros k. rewrite lookup_empty. apply eq_None_not_Some.
    rewrite <- elem_of_keys. destruct (keys m); [apply not_elem_of_nil|done].
  - intros ->. done.
Qed.

Lemma first_key_Some {V} (m : gmap N V) k :
  first_key m = Some k → is_Some (m !! k) ∧ ∀ k', is_Some (m !! k') → (k <= k')%N.
Proof.
  unfold first_key. intros H. split.
  - apply elem_of_keys. destruct (keys m); simplify_eq/=. constructor.
  - intros k' Hk'%elem_of_keys. eapply StronglySorted_head_min; eauto. apply keys_sorted.
Qed.

Lemma elem_of_set_elems s k : k ∈ set_elems s ↔ k ∈ s.
Proof. unfold set_elems. by rewrite elem_of_sort_by, elem_of_elements. Qed.

Lemma pop_first_None s : pop_first s = None ↔ s = ∅.
Proof.
  unfold pop_first. split.
  - intros H. apply set_eq. intros k. destruct (set_elems s) eqn:E; [|done].
    rewrite <- (elem_of_set_elems s k), E, elem_of_nil. set_solver.
  - intros ->. done.
Qed.

Lemma pop_first_Some s x s' :
  pop_first s = Some (x, s') → x ∈ s ∧ s' = s ∖ {[x]} ∧ ∀ y, y ∈ s → (x <= y)%N.
Proof.
  unfold pop_first. destruct (set_elems s) as [|z l] eqn:E; [done|]. intros ?; simplify_eq.
  split_and!; [|done|].
  - apply elem_of_set_elems. rewrite E. constructor.
  - intros y Hy%elem_of_set_elems. apply (StronglySorted_head_min (set_elems s)); [|by rewrite E|done].
    apply sort_N_sorted.
Qed.

(** ** Lemmas on lists *)

Lemma filter_ext_in {A} (P R : A → Prop) `{∀ x, Decision (P x), ∀ x, Decision (R x)} (l : list A) :
  (∀ x, x ∈ l → P x ↔ R x) → filter P l = filter R l.
Proof.
  induction l as [|x l IH]; intros HPR; [done|].
  rewrite !filter_cons, IH by set_solver. specialize (HPR x ltac:(left)).
  repeat case_decide; naive_solver.
Qed.

Lemma filter_all {A} (P : A → Prop) `{∀ x, Decision (P x)} (l : list A) :
  (∀ x, x ∈ l → P x) → filter P l = l.
Proof.
  induction l as [|x l IH]; intros HP; [done|].
  rewrite filter_cons_True, IH by set_solver. done.
Qed.

(** Excluding one listed element shortens a filtered list by one. *)
Lemma length_filter_split {A} (P R : A → Prop) `{∀ x, Decision (P x), ∀ x, Decision (R x)} (l : list A) x :
  NoDup l → x ∈ l → P x → (∀ y, R y ↔ P y ∧ y ≠ x) →
  length (filter P l) = S (length (filter R l)).
Proof.
  intros Hnd Hx HPx HR. induction Hnd as [|y l Hy Hnd IH]; [by apply elem_of_nil in Hx|].
  apply elem_of_cons in Hx as [->|Hx].
  - rewrite filter_cons_True, filter_cons_False by naive_solver. simpl. f_equal. f_equal.
    apply filter_ext_in. intros z Hz.
    rewrite HR. split; [|naive_solver]. intros ?; split; [done|]. intros ->. done.
  - destruct (decide (R y)) as [HRy|HRy].
    + rewrite !filter_cons_True by naive_solver. simpl. f_equal. auto.
    + rewrite (filter_cons_False R) by done.
      rewrite filter_cons_False; [auto|]. intros HPy. apply HRy, HR. split; [done|]. intros ->. done.
Qed.

Lemma StronglySorted_filter {A} (R : A → A → Prop) (P : A → Prop) `{∀ x, Decision (P x)} l :
  StronglySorted R l → StronglySorted R (filter P l).
Proof.
  induction 1 as [|x l Hl IH Hx]; [constructor|]. rewrite filter_cons. case_decide; [|done].
  constructor; [done|]. rewrite Forall_forall in *. intros y [_ Hy]%list_elem_of_filter. auto.
Qed.

(** ** Maxima and minima *)

Section extrema.
Context {A} (cmp : A → A → comparison) (le : A → A → Prop) `{!PreOrder le}.
Hypothesis lt_le : ∀ a b, is_lt (cmp a b) = true → le a b.
Hypothesis ge_le : ∀ a b, is_lt (cmp a b) = false → le b a.

Lemma max_by_spec l m : max_by cmp l = Some m → m ∈ l ∧ ∀ x, x ∈ l → le x m.
Proof using All.
  destruct l as [|a l]; [done|]. simpl. intros [= <-]. revert a.
  induction l as [|b l IH]; intros a; simpl; [split; [left|]; intros x ->%list_elem_of_singleton; reflexivity|].
  destruct (IH (if is_lt (cmp b a) then a else b)) as [Hin Hle].
  destruct (is_lt (cmp b a)) eqn:E; [apply lt_le in E|apply ge_le in E].
  all: split; [set_solver|]; intros x [->|[->|Hx]%elem_of_cons]%elem_of_cons; [..|apply Hle; by right].
  - apply Hle. left.
  - etransitivity; [exact E|]. apply Hle. left.
  - etransitivity; [exact E|]. apply Hle. left.
  - apply Hle. left.
Qed.

Lemma min_by_spec l m : min_by cmp l = Some m → m ∈ l ∧ ∀ x, x ∈ l → le m x.
Proof using All.
  destruct l as [|a l]; [done|]. simpl. intros [= <-]. revert a.
  induction l as [|b l IH]; intros a; simpl; [split; [left|]; intros x ->%list_elem_of_singleton; reflexivity|].
  destruct (IH (if is_lt (cmp b a) then b else a)) as [Hin Hle].
  destruct (is_lt (cmp b a)) eqn:E; [apply lt_le in E|apply ge_le in E].
  all: split; [set_solver|]; intros x [->|[->|Hx]%elem_of_cons]%elem_of_cons; [..|apply Hle; by right].
  - etransitivity; [|exact E]. apply Hle. left.
  - apply Hle. left.
  - apply Hle. left.
  - etransitivity; [|exact E]. apply Hle. left.
Qed.
End extrema.

Lemma max_by_N_spec l m : max_by N.compare l = Some m → m ∈ l ∧ ∀ x, x ∈ l → (x <= m)%N.
Proof.
  apply (max_by_spec N.compare N.le); intros a b; destruct (N.compare_spec a b); simpl; intros ?; try done; lia.
Qed.

Lemma max_by_N_ge l m : max_by N.compare l = Some m → ∀ x, x ∈ l → (x <= m)%N.
Proof. by intros [_ ?]%max_by_N_spec. Qed.

Lemma max_by_N_in l m : max_by N.compare l = Some m → m ∈ l.
Proof. by intros [? _]%max_by_N_spec. Qed.

(** ** Sums *)

Lemma u32_wrapping_sum_le l : (u32_wrapping_sum l <= u32_max)%N.
Proof.
  destruct l as [|x l]; simpl; [done|].
  pose proof (N.mod_lt (x + u32_wrapping_sum l) (u32_max + 1) ltac:(done)). lia.
Qed.

#[export] Hint Resolve saturating_add_le try_u32_or_max_le u32_wrapping_sum_le : dayweave.
#[export] Hint Resolve NoDup_keys keys_sorted : dayweave.
