(* ===== verification/Text.v ===== *)
(** * Text: strings as the standard library of Rust sees them

    A Rust [str] is its UTF-8 bytes: [bytes_of] of a Rocq string.  This file has
    the string functions the core crate calls ([chars], [trim], [to_string],
    [split_once], ...) and the arithmetic of decimal digit strings. *)
From S2P Require Import Prelude.
From Stdlib Require Import Ascii.

(** ** Bytes *)

Definition bytes_of (s : string) : list N := map N_of_ascii (String.list_ascii_of_string s).

Definition string_of_bytes (l : list N) : string := String.string_of_list_ascii (map ascii_of_N l).

(** The code points of a valid UTF-8 byte sequence ([str::chars]). *)
Fixpoint chars_of_bytes (l : list N) : list N :=
  match l with
  | [] => []
  | b1 :: r1 =>
      if (b1 <? 192)%N then b1 :: chars_of_bytes r1
      else match r1 with
      | [] => [b1]
      | b2 :: r2 =>
          if (b1 <? 224)%N then ((b1 - 192) * 64 + (b2 - 128))%N :: chars_of_bytes r2
          else match r2 with
          | [] => [b1; b2]
          | b3 :: r3 =>
              if (b1 <? 240)%N
              then ((b1 - 224) * 4096 + (b2 - 128) * 64 + (b3 - 128))%N :: chars_of_bytes r3
              else match r3 with
              | [] => [b1; b2; b3]
              | b4 :: r4 =>
                  ((b1 - 240) * 262144 + (b2 - 128) * 4096 + (b3 - 128) * 64 + (b4 - 128))%N
                    :: chars_of_bytes r4
              end
          end
      end
  end.

Definition chars (s : string) : list N := chars_of_bytes (bytes_of s).

(** [char::is_whitespace]: the Unicode [White_Space] property. *)
Definition is_whitespace (c : N) : bool :=
  ((9 <=? c) && (c <=? 13) || (c =? 32) || (c =? 133) || (c =? 160) || (c =? 5760) ||
   (8192 <=? c) && (c <=? 8202) || (c =? 8232) || (c =? 8233) || (c =? 8239) ||
   (c =? 8287) || (c =? 12288))%N.

Fixpoint drop_while {A} (f : A → bool) (l : list A) : list A :=
  match l with
  | [] => []
  | x :: l' => if f x then drop_while f l' else l
  end.

(** [str::trim] *)
Definition trim (l : list N) : list N :=
  reverse (drop_while is_whitespace (reverse (drop_while is_whitespace l))).

(** The UTF-8 bytes of a code point. *)
Definition encode_char (c : N) : list N :=
  (if c <? 128 then [c]
   else if c <? 2048 then [192 + c / 64; 128 + c mod 64]
   else if c <? 65536 then [224 + c / 4096; 128 + (c / 64) mod 64; 128 + c mod 64]
   else [240 + c / 262144; 128 + (c / 4096) mod 64; 128 + (c / 64) mod 64; 128 + c mod 64])%N.

(** [s.trim().to_owned()] *)
Definition trim_str (s : string) : string := string_of_bytes (flat_map encode_char (trim (chars s))).

(** What every [String] holds: UTF-8, whose code points are below 0x110000 *)
Definition is_text (s : string) : bool := forallb (λ c, c <? 1114112)%N (chars s).

(** [title.trim().is_empty()] *)
Definition is_blank (s : string) : bool :=
  match trim (chars s) with [] => true | _ => false end.

(** ** Decimal digit strings *)

Definition is_ascii_digit (b : N) : bool := (48 <=? b)%N && (b <=? 57)%N.

(** The number a digit string denotes. *)
Definition dec_value (l : list N) : N := foldl (λ acc b, acc * 10 + (b - 48))%N 0%N l.

(** [to_string] of an unsigned integer; every step divides by ten, so the bit
    length is enough fuel ([dec_print_value]). *)
Fixpoint dec_print_fuel (fuel : nat) (n : N) : list N :=
  match fuel with
  | O => [(48 + n)%N]
  | S fuel' =>
      if (n <? 10)%N then [(48 + n)%N]
      else dec_print_fuel fuel' (n / 10) ++ [(48 + n mod 10)%N]
  end.

Definition dec_print (n : N) : list N := dec_print_fuel (N.size_nat n) n.

Definition display_N (n : N) : string := string_of_bytes (dec_print n).

(** [format!("{n:06}")] pads on the left with zeros. *)
Definition pad_zeros (width : nat) (l : list N) : list N :=
  replicate (width - length l) 48%N ++ l.

(** [to_be_bytes] of a two's complement integer of [n] bytes. *)
Fixpoint be_bytes (n : nat) (v : Z) : list N :=
  match n with
  | O => []
  | S n' => be_bytes n' (v / 256)%Z ++ [Z.to_N (v mod 256)]
  end.

(** [trim_end_matches('0')] *)
Definition trim_end_zeros (l : list N) : list N :=
  reverse (drop_while (λ b, b =? 48)%N (reverse l)).

(** [str::split_once(c)] *)
Fixpoint split_once (c : N) (l : list N) : option (list N * list N) :=
  match l with
  | [] => None
  | b :: l' =>
      if (b =? c)%N then Some ([], l')
      else match split_once c l' with
           | Some (x, y) => Some (b :: x, y)
           | None => None
           end
  end.

(** ** Lemmas *)

Lemma string_of_bytes_of s : string_of_bytes (bytes_of s) = s.
Proof.
  unfold string_of_bytes, bytes_of. rewrite map_map.
  rewrite (map_ext _ id) by (intros; apply ascii_N_embedding).
  by rewrite map_id, String.string_of_list_ascii_of_string.
Qed.

Lemma bytes_of_string_of l : Forall (λ b, b < 256)%N l → bytes_of (string_of_bytes l) = l.
Proof.
  intros Hl. unfold string_of_bytes, bytes_of. rewrite String.list_ascii_of_string_of_list_ascii, map_map.
  induction Hl as [|b l Hb Hl IH]; simpl; [done|]. by rewrite N_ascii_embedding, IH.
Qed.

Lemma dec_value_snoc l b : dec_value (l ++ [b]) = (dec_value l * 10 + (b - 48))%N.
Proof. unfold dec_value. by rewrite foldl_app. Qed.

Lemma dec_value_zeros n : dec_value (replicate n 48%N) = 0%N.
Proof.
  induction n as [|n IH]; [done|]. rewrite replicate_S_end, dec_value_snoc, IH. done.
Qed.

Lemma dec_value_app l1 l2 :
  dec_value (l1 ++ l2) = (dec_value l1 * 10 ^ N.of_nat (length l2) + dec_value l2)%N.
Proof.
  induction l2 as [|b l2 IH] using rev_ind.
  - rewrite app_nil_r. simpl. unfold dec_value at 3. simpl. lia.
  - rewrite app_assoc, !dec_value_snoc, IH, length_app. simpl.
    replace (N.of_nat (length l2 + 1)) with (N.succ (N.of_nat (length l2))) by lia.
    rewrite N.pow_succ_r'. lia.
Qed.

Lemma is_ascii_digit_spec b : is_ascii_digit b = true ↔ (48 <= b <= 57)%N.
Proof. unfold is_ascii_digit. rewrite andb_true_iff, !N.leb_le. done. Qed.

Abbreviation digits l := (Forall (λ b, is_ascii_digit b = true) l).

Lemma digits_snoc l b : digits (l ++ [b]) ↔ digits l ∧ (48 <= b <= 57)%N.
Proof. by rewrite Forall_app, Forall_singleton, is_ascii_digit_spec. Qed.

Lemma dec_value_bound l : digits l → (dec_value l < 10 ^ N.of_nat (length l))%N.
Proof.
  induction l as [|b l IH] using rev_ind; intros Hl; [done|].
  apply digits_snoc in Hl as [Hl Hb].
  rewrite dec_value_snoc, length_app. simpl.
  replace (N.of_nat (length l + 1)) with (N.succ (N.of_nat (length l))) by lia.
  rewrite N.pow_succ_r'. specialize (IH Hl). lia.
Qed.

(** Digit strings of one length are determined by their value. *)
Lemma dec_value_inj l1 l2 :
  digits l1 → digits l2 → length l1 = length l2 → dec_value l1 = dec_value l2 → l1 = l2.
Proof.
  revert l2. induction l1 as [|b1 l1 IH] using rev_ind; intros l2 H1 H2 Hlen Hv.
  - destruct l2; [done|simpl in Hlen; lia].
  - destruct l2 as [|b2 l2 _] using rev_ind; [rewrite length_app in Hlen; simpl in Hlen; lia|].
    rewrite !length_app in Hlen. simpl in Hlen.
    apply digits_snoc in H1 as [H1 Hb1]. apply digits_snoc in H2 as [H2 Hb2].
    rewrite !dec_value_snoc in Hv.
    assert (dec_value l1 = dec_value l2 ∧ b1 = b2) as [Hv' ->] by lia.
    f_equal. apply IH; [done..|lia|done].
Qed.

(** A digit string without a leading zero has the length of its value. *)
Lemma dec_value_lower b l :
  is_ascii_digit b = true → b ≠ 48%N → (10 ^ N.of_nat (length l) <= dec_value (b :: l))%N.
Proof.
  intros Hb%is_ascii_digit_spec Hne. change (b :: l) with ([b] ++ l).
  rewrite dec_value_app. assert (dec_value [b] = (b - 48)%N) as -> by (unfold dec_value; simpl; lia). nia.
Qed.

(** Canonical spellings: no leading zero except in "0" itself. *)
Definition canonical_digits (l : list N) : Prop :=
  digits l ∧ l ≠ [] ∧ (1 < length l → head l ≠ Some 48%N).

Lemma canonical_digits_inj l1 l2 :
  canonical_digits l1 → canonical_digits l2 → dec_value l1 = dec_value l2 → l1 = l2.
Proof.
  intros (D1 & N1 & C1) (D2 & N2 & C2) Hv. apply dec_value_inj; [done..| |done].
  assert (∀ l, digits l → l ≠ [] → (1 < length l → head l ≠ Some 48%N) →
    length l = 1 ∨ (10 ^ N.of_nat (length l - 1) <= dec_value l)%N) as Hlow.
  { intros [|b [|c l]] D N' C; [done|by left|right].
    replace (length (b :: c :: l) - 1) with (length (c :: l)) by (simpl; lia).
    apply Forall_cons in D as [D _]. apply dec_value_lower; [done|]. intros ->. apply C; simpl; [lia|done]. }
  assert (length l1 ≠ 0 ∧ length l2 ≠ 0) as [] by (split; by intros ?%nil_length_inv).
  pose proof (dec_value_bound _ D1) as B1. pose proof (dec_value_bound _ D2) as B2.
  assert (∀ a b, (10 ^ N.of_nat a <= dec_value l2)%N → (dec_value l2 < 10 ^ N.of_nat b)%N → a < b) as Hab.
  { intros a b Ha Hb. assert (10 ^ N.of_nat a < 10 ^ N.of_nat b)%N as Hlt by lia.
    apply N.pow_lt_mono_r_iff in Hlt; lia. }
  rewrite Hv in *.
  destruct (Hlow l1 D1 N1 C1) as [E1|L1], (Hlow l2 D2 N2 C2) as [E2|L2].
  - lia.
  - rewrite E1 in B1. pose proof (Hab _ _ L2 B1). lia.
  - rewrite Hv in L1. rewrite E2 in B2. pose proof (Hab _ _ L1 B2). lia.
  - rewrite Hv in L1. pose proof (Hab _ _ L1 B2). pose proof (Hab _ _ L2 B1). lia.
Qed.

(** A tenth of a number has fewer bits. *)
Lemma size_nat_div10 n fuel : (10 <= n)%N → N.size_nat n ≤ S fuel → N.size_nat (n / 10) ≤ fuel.
Proof.
  intros Hn Hf.
  assert (∀ m, N.size_nat m = N.to_nat (N.size m)) as Hsn.
  { intros [|p]; [done|]. simpl. induction p; simpl; lia. }
  rewrite Hsn in *. assert (n / 10 ≠ 0)%N as Hnz by (intros Hz; apply N.div_small_iff in Hz; lia).
  rewrite !N.size_log2 in * by lia.
  assert (N.log2 (n / 10) <= N.log2 (n / 2))%N as H1 by (apply N.log2_le_mono, N.div_le_compat_l; lia).
  assert (N.log2 n = N.succ (N.log2 (n / 2)))%N as H2.
  { rewrite (N.div_mod' n 2) at 1. pose proof (N.mod_lt n 2 ltac:(done)).
    assert (0 < n / 2)%N by (apply N.div_str_pos; lia). remember (n mod 2)%N as m eqn:Em. clear Em.
    destruct (decide (m = 0)%N) as [->|Hm].
    - rewrite N.add_0_r. by apply N.log2_double.
    - replace m with 1%N by lia. by apply N.log2_succ_double. }
  lia.
Qed.

Lemma dec_print_fuel_spec fuel n :
  N.size_nat n ≤ fuel → canonical_digits (dec_print_fuel fuel n) ∧ dec_value (dec_print_fuel fuel n) = n ∧
    (n ≠ 0%N → head (dec_print_fuel fuel n) ≠ Some 48%N).
Proof.
  revert n. induction fuel as [|fuel IH]; intros n Hn.
  - destruct n; [|simpl in Hn; pose proof (Pos2Nat.is_pos p); destruct p; simpl in Hn; lia].
    simpl. split; [|done]. repeat split; try done; [repeat constructor|simpl; lia].
  - simpl. destruct (N.ltb_spec n 10) as [Hlt|Hge].
    + split_and!.
      * repeat split; [constructor; [apply is_ascii_digit_spec; lia|constructor]|done|simpl; lia].
      * unfold dec_value. simpl. lia.
      * simpl. intros ? ?; simplify_eq. lia.
    + pose proof (size_nat_div10 n fuel Hge Hn) as Hsz.
      pose proof (N.div_mod' n 10) as Hdm. pose proof (N.mod_lt n 10 ltac:(done)) as Hm.
      remember (n / 10)%N as k eqn:Ek. remember (n mod 10)%N as m eqn:Em. clear Ek Em.
      destruct (IH _ Hsz) as ((D & Nn & C) & V & Hh).
      specialize (Hh ltac:(lia)).
      assert (head (dec_print_fuel fuel k ++ [(48 + m)%N]) ≠ Some 48%N) as Hhead.
      { destruct (dec_print_fuel fuel k); done. }
      split_and!; [split_and!| |done].
      * apply digits_snoc. split; [done|lia].
      * by destruct (dec_print_fuel fuel k).
      * done.
      * rewrite dec_value_snoc, V. lia.
Qed.

Lemma dec_print_canonical n : canonical_digits (dec_print n).
Proof. by apply dec_print_fuel_spec. Qed.

Lemma dec_print_value n : dec_value (dec_print n) = n.
Proof. by apply dec_print_fuel_spec. Qed.

(** A canonical spelling is what [to_string] prints for its value. *)
Lemma dec_print_of_canonical l : canonical_digits l → dec_print (dec_value l) = l.
Proof.
  intros Hl. apply canonical_digits_inj; [apply dec_print_canonical|done|apply dec_print_value].
Qed.

Lemma digits_bytes l : digits l → Forall (λ b, b < 256)%N l.
Proof. intros Hl. eapply Forall_impl; [exact Hl|]. intros b Hb%is_ascii_digit_spec. lia. Qed.

Lemma digits_no_byte c l : digits l → ¬ (48 <= c <= 57)%N → c ∉ l.
Proof. rewrite Forall_forall. intros Hl Hc Hin%Hl%is_ascii_digit_spec. done. Qed.

(** A spelling of a small number has few digits. *)
Lemma canonical_length l k :
  canonical_digits l → (dec_value l < 10 ^ N.of_nat k)%N → 0 < k → length l ≤ k.
Proof.
  intros (D & Nn & C) Hv Hk. destruct l as [|b [|c l]]; [done|simpl; lia|].
  apply Forall_cons in D as [D _].
  assert (10 ^ N.of_nat (length (c :: l)) <= dec_value (b :: c :: l))%N as Hl.
  { apply dec_value_lower; [done|]. intros ->. apply C; simpl; [lia|done]. }
  assert (10 ^ N.of_nat (length (c :: l)) < 10 ^ N.of_nat k)%N as Hlt by lia.
  apply N.pow_lt_mono_r_iff in Hlt; simpl in *; lia.
Qed.

Lemma split_once_app c l1 l2 : c ∉ l1 → split_once c (l1 ++ c :: l2) = Some (l1, l2).
Proof.
  induction l1 as [|b l1 IH]; intros Hc; simpl.
  - by rewrite N.eqb_refl.
  - apply not_elem_of_cons in Hc as [Hb Hc]. destruct (N.eqb_spec b c); [congruence|]. by rewrite IH.
Qed.

Lemma split_once_None c l : c ∉ l → split_once c l = None.
Proof.
  induction l as [|b l IH]; intros Hc; simpl; [done|].
  apply not_elem_of_cons in Hc as [Hb Hc]. destruct (N.eqb_spec b c); [congruence|]. by rewrite IH.
Qed.

Lemma split_once_Some c l x y : split_once c l = Some (x, y) → l = x ++ c :: y ∧ c ∉ x.
Proof.
  revert x. induction l as [|b l IH]; intros x Hs; simpl in Hs; [done|].
  destruct (N.eqb_spec b c) as [->|Hb]; [simplify_eq; split; [done|apply not_elem_of_nil]|].
  destruct (split_once c l) as [[x' y']|]; [|done]. simplify_eq.
  destruct (IH x' eq_refl) as [-> Hn]. split; [done|]. apply not_elem_of_cons. split; congruence.
Qed.

Lemma split_once_None_inv c l : split_once c l = None → c ∉ l.
Proof.
  induction l as [|b l IH]; intros Hs; simpl in Hs; [apply not_elem_of_nil|].
  destruct (N.eqb_spec b c) as [->|Hb]; [done|].
  destruct (split_once c l) as [[? ?]|]; [done|]. apply not_elem_of_cons. split; [congruence|auto].
Qed.

Lemma pad_zeros_value k l : dec_value (pad_zeros k l) = dec_value l.
Proof. unfold pad_zeros. rewrite dec_value_app, dec_value_zeros. lia. Qed.

Lemma pad_zeros_length k l : length l ≤ k → length (pad_zeros k l) = k.
Proof. intros Hk. unfold pad_zeros. rewrite length_app, length_replicate. lia. Qed.

Lemma digits_zeros n : digits (replicate n 48%N).
Proof. by apply Forall_replicate. Qed.

Lemma digits_pad k l : digits l → digits (pad_zeros k l).
Proof. intros Hl. apply Forall_app. split; [apply digits_zeros|done]. Qed.

(** Trimming removes exactly a suffix of zeros. *)
Lemma trim_end_zeros_app l n : last l ≠ Some 48%N → trim_end_zeros (l ++ replicate n 48%N) = l.
Proof.
  intros Hl. unfold trim_end_zeros. rewrite reverse_app, reverse_replicate.
  assert (drop_while (λ b, (b =? 48)%N) (replicate n 48%N ++ reverse l) = reverse l) as ->;
    [|by rewrite reverse_involutive].
  induction n as [|n IH]; simpl; [|done]. rewrite <- head_reverse in Hl.
  destruct (reverse l) as [|b r]; [done|]. simpl in *. destruct (N.eqb_spec b 48); [congruence|done].
Qed.

Lemma trim_end_zeros_split l :
  ∃ n, l = trim_end_zeros l ++ replicate n 48%N ∧ last (trim_end_zeros l) ≠ Some 48%N.
Proof.
  unfold trim_end_zeros. rewrite last_reverse.
  rewrite <- (reverse_involutive l). generalize (reverse l) as r. clear l. intros r.
  rewrite reverse_involutive. induction r as [|b r (n & IH & Hh)]; simpl; [by exists 0|].
  destruct (N.eqb_spec b 48) as [->|Hb].
  - exists (S n). split; [|done]. by rewrite reverse_cons, IH, <- app_assoc, replicate_S_end.
  - exists 0. rewrite app_nil_r. split; [done|]. simpl. congruence.
Qed.

(** ** Trimming *)

#[local] Ltac Zify.zify_post_hook ::= Z.to_euclidean_division_equations.

Lemma encode_char_bytes c : (c < 1114112)%N → Forall (λ b, b < 256)%N (encode_char c).
Proof. intros Hc. 
  unfold encode_char. destruct (N.ltb_spec c 128); [|destruct (N.ltb_spec c 2048); [|destruct (N.ltb_spec c 65536)]];
    repeat (apply Forall_cons; split); try apply Forall_nil_2; lia.
Qed.

Lemma chars_encode c l : (c < 1114112)%N → chars_of_bytes (encode_char c ++ l) = c :: chars_of_bytes l.
Proof.
  intros Hc. unfold encode_char. destruct (N.ltb_spec c 128); [|destruct (N.ltb_spec c 2048); [|destruct (N.ltb_spec c 65536)]]; cbn [app chars_of_bytes].
  - by destruct (N.ltb_spec c 192); [|lia].
  - destruct (N.ltb_spec (192 + c / 64) 192); [lia|]. destruct (N.ltb_spec (192 + c / 64) 224); [|lia]. f_equal. lia.
  - destruct (N.ltb_spec (224 + c / 4096) 192); [lia|]. destruct (N.ltb_spec (224 + c / 4096) 224); [lia|].
    destruct (N.ltb_spec (224 + c / 4096) 240); [|lia]. f_equal. lia.
  - destruct (N.ltb_spec (240 + c / 262144) 192); [lia|]. destruct (N.ltb_spec (240 + c / 262144) 224); [lia|].
    destruct (N.ltb_spec (240 + c / 262144) 240); [lia|]. f_equal. lia.
Qed.

Lemma chars_encoded l : Forall (λ c, c < 1114112)%N l → chars (string_of_bytes (flat_map encode_char l)) = l.
Proof.
  intros Hl. unfold chars. rewrite bytes_of_string_of.
  - induction Hl as [|c l Hc _ IH]; [done|]. cbn. by rewrite chars_encode, IH.
  - induction Hl as [|c l Hc _ IH]; [constructor|]. cbn. apply Forall_app. by split; [apply encode_char_bytes|].
Qed.

Lemma drop_while_suffix {A} (f : A → bool) l : drop_while f l `suffix_of` l.
Proof. induction l as [|x l IH]; [done|]. cbn. destruct (f x); [by apply suffix_cons_r|done]. Qed.

Lemma drop_while_head {A} (f : A → bool) l : match drop_while f l with [] => True | x :: _ => f x = false end.
Proof. induction l as [|x l IH]; [done|]. cbn. destruct (f x) eqn:Hf; [done|]. exact Hf. Qed.

Lemma drop_while_stop {A} (f : A → bool) l : match l with [] => True | x :: _ => f x = false end → drop_while f l = l.
Proof. destruct l as [|x l]; [done|]. cbn. by intros ->. Qed.

Lemma trim_idem l : trim (trim l) = trim l.
Proof.
  unfold trim. set (m := drop_while is_whitespace l).
  assert (drop_while is_whitespace (reverse (drop_while is_whitespace (reverse m))) = reverse (drop_while is_whitespace (reverse m))) as ->.
  { apply drop_while_stop. destruct (drop_while_suffix is_whitespace (reverse m)) as [k Hk].
    apply (f_equal reverse) in Hk. rewrite reverse_involutive, reverse_app in Hk. pose proof (drop_while_head is_whitespace l) as Hhead.
    fold m in Hhead. rewrite Hk in Hhead. by destruct (reverse (drop_while is_whitespace (reverse m))). }
  rewrite reverse_involutive. f_equal. apply drop_while_stop, drop_while_head.
Qed.

Lemma trim_elem l c : c ∈ trim l → c ∈ l.
Proof.
  unfold trim. rewrite elem_of_reverse. intros Hc. destruct (drop_while_suffix is_whitespace (reverse (drop_while is_whitespace l))) as [k Hk].
  assert (c ∈ drop_while is_whitespace l) as Hd by (rewrite <-elem_of_reverse, Hk; set_solver).
  destruct (drop_while_suffix is_whitespace l) as [k' Hk']. rewrite Hk'. set_solver.
Qed.

Lemma chars_trim s : is_text s = true → chars (trim_str s) = trim (chars s).
Proof.
  intros Ht. apply chars_encoded, Forall_forall. intros c Hc%trim_elem. unfold is_text in Ht. rewrite forallb_forall in Ht.
  apply N.ltb_lt, Ht. by apply list_elem_of_In.
Qed.

Lemma trim_str_idem s : is_text s = true → trim_str (trim_str s) = trim_str s.
Proof. intros Ht. unfold trim_str at 1. by rewrite chars_trim, trim_idem. Qed.
