(* ===== verification/Tokens.v ===== *)
(** * Tokens: splitting, joining and spelling integers

    The functions of Rust's standard library that the recurrence code applies
    to ASCII text: [split], [to_ascii_uppercase], [is_ascii_graphic], signed
    [to_string] and [parse].  Text is its bytes, as in Text.

    Joining pieces and splitting them again gives the pieces back, and a
    spelled integer parses to itself. *)
From S2P Require Import Prelude Text.

(** ** Splitting and joining *)

(** [str::split(c)]: never empty. *)
Fixpoint split_on (c : N) (l : list N) : list (list N) :=
  match l with
  | [] => [[]]
  | b :: l' =>
      if (b =? c)%N then [] :: split_on c l'
      else match split_on c l' with
           | [] => [[b]]
           | piece :: pieces => (b :: piece) :: pieces
           end
  end.

Fixpoint join (c : N) (pieces : list (list N)) : list N :=
  match pieces with
  | [] => []
  | [piece] => piece
  | piece :: pieces' => piece ++ c :: join c pieces'
  end.

Definition to_ascii_uppercase (l : list N) : list N :=
  (λ b, if (97 <=? b)%N && (b <=? 122)%N then (b - 32)%N else b) <$> l.

Definition is_ascii_graphic (b : N) : bool := (33 <=? b)%N && (b <=? 126)%N.

(** [str::contains(c)] *)
Definition contains_byte (c : N) (l : list N) : bool := existsb (N.eqb c) l.

(** ** Signed integers *)

Definition minus_sign : N := 45.
Definition plus_sign : N := 43.

(** [to_string] of a signed integer *)
Definition print_Z (z : Z) : list N :=
  if (z <? 0)%Z then minus_sign :: dec_print (Z.to_N (- z)) else dec_print (Z.to_N z).

(** [format!("{z:04}")]: the sign counts as one of the places. *)
Definition pad4 (z : Z) : list N :=
  if (z <? 0)%Z then minus_sign :: pad_zeros 3 (dec_print (Z.to_N (- z))) else pad_zeros 4 (dec_print (Z.to_N z)).

(** A non-empty digit string as a number *)
Definition parse_digits (l : list N) : option N :=
  if bool_decide (l = []) then None else if forallb is_ascii_digit l then Some (dec_value l) else None.

(** [str::parse] into a signed integer with the given bounds *)
Definition parse_signed (low high : Z) (l : list N) : option Z :=
  let '(negative, magnitude) :=
    match l with
    | b :: rest => if (b =? minus_sign)%N then (true, rest) else if (b =? plus_sign)%N then (false, rest) else (false, l)
    | [] => (false, [])
    end in
  n ← parse_digits magnitude;
  let value := if negative then (- Z.of_N n)%Z else Z.of_N n in
  if (low <=? value)%Z && (value <=? high)%Z then Some value else None.

Definition parse_i32 : list N → option Z := parse_signed (- 2 ^ 31) (2 ^ 31 - 1).
Definition parse_i8 : list N → option Z := parse_signed (- 128) 127.

(** [value.parse::<u32>()] after the check that all bytes are digits *)
Definition parse_plain_u32 (l : list N) : option N :=
  n ← parse_digits l; if (n <=? u32_max)%N then Some n else None.

(** ** Lemmas *)

Lemma split_on_app c piece l : c ∉ piece → split_on c (piece ++ c :: l) = piece :: split_on c l.
Proof.
  induction piece as [|b piece IH]; intros Hc; simpl; [by rewrite N.eqb_refl|].
  apply not_elem_of_cons in Hc as [Hb Hc]. destruct (N.eqb_spec b c); [congruence|]. by rewrite IH.
Qed.

Lemma split_on_single c piece : c ∉ piece → split_on c piece = [piece].
Proof.
  induction piece as [|b piece IH]; intros Hc; simpl; [done|].
  apply not_elem_of_cons in Hc as [Hb Hc]. destruct (N.eqb_spec b c); [congruence|]. by rewrite IH.
Qed.

Lemma split_join c pieces : pieces ≠ [] → (∀ p, p ∈ pieces → c ∉ p) → split_on c (join c pieces) = pieces.
Proof.
  induction pieces as [|p pieces IH]; intros Hne Hc; [done|].
  destruct pieces as [|q pieces]; [apply split_on_single, Hc; left|].
  change (join c (p :: q :: pieces)) with (p ++ c :: join c (q :: pieces)).
  rewrite split_on_app by (apply Hc; left). f_equal. apply IH; [done|]. intros r Hr. apply Hc. by right.
Qed.

Lemma join_cons c p q pieces : join c (p :: q :: pieces) = p ++ c :: join c (q :: pieces).
Proof. done. Qed.

Lemma join_snoc c pieces p : pieces ≠ [] → join c (pieces ++ [p]) = join c pieces ++ c :: p.
Proof.
  induction pieces as [|q pieces IH]; intros Hne; [done|]. destruct pieces as [|r pieces]; [done|].
  change (join c ((q :: r :: pieces) ++ [p])) with (q ++ c :: join c ((r :: pieces) ++ [p])).
  rewrite IH by done. rewrite join_cons, <- app_assoc. done.
Qed.

Lemma contains_byte_iff c l : contains_byte c l = true ↔ c ∈ l.
Proof.
  unfold contains_byte. rewrite existsb_exists. setoid_rewrite <- list_elem_of_In. split.
  - intros (b & Hb & ->%N.eqb_eq). done.
  - intros Hc. exists c. by rewrite N.eqb_refl.
Qed.

Lemma uppercase_fixed l : (∀ b, b ∈ l → ¬ (97 <= b <= 122)%N) → to_ascii_uppercase l = l.
Proof.
  unfold to_ascii_uppercase. induction l as [|b l IH]; intros Hl; [done|]. rewrite fmap_cons, IH; [|set_solver].
  f_equal. specialize (Hl b ltac:(left)). destruct (N.leb_spec 97 b), (N.leb_spec b 122); simpl; try done; lia.
Qed.

Lemma uppercase_app l1 l2 : to_ascii_uppercase (l1 ++ l2) = to_ascii_uppercase l1 ++ to_ascii_uppercase l2.
Proof. apply fmap_app. Qed.

Lemma uppercase_idemp l : to_ascii_uppercase (to_ascii_uppercase l) = to_ascii_uppercase l.
Proof.
  apply uppercase_fixed. unfold to_ascii_uppercase. intros b (x & -> & _)%list_elem_of_fmap.
  destruct (N.leb_spec 97 x), (N.leb_spec x 122); simpl; lia.
Qed.

Lemma digits_forallb l : forallb is_ascii_digit l = true ↔ digits l.
Proof. rewrite forallb_forall, Forall_forall. by setoid_rewrite list_elem_of_In. Qed.

Lemma parse_digits_Some l n : parse_digits l = Some n ↔ l ≠ [] ∧ digits l ∧ n = dec_value l.
Proof.
  unfold parse_digits. case_bool_decide as Hl; [split; [done|by intros [? _]]|].
  destruct (forallb is_ascii_digit l) eqn:E.
  - apply digits_forallb in E. split; [intros [= <-]; done|]. by intros (_ & _ & ->).
  - split; [done|]. intros (_ & Hd%digits_forallb & _). congruence.
Qed.

Lemma parse_digits_print n : parse_digits (dec_print n) = Some n.
Proof.
  apply parse_digits_Some. destruct (dec_print_canonical n) as (Hd & Hn & _). by rewrite dec_print_value.
Qed.

Lemma dec_print_digits n : digits (dec_print n).
Proof. by destruct (dec_print_canonical n). Qed.

Lemma dec_print_nonempty n : dec_print n ≠ [].
Proof. by destruct (dec_print_canonical n) as (_ & ? & _). Qed.

Lemma parse_signed_print low high z : (low <= z <= high)%Z → parse_signed low high (print_Z z) = Some z.
Proof.
  intros Hz. unfold parse_signed, print_Z. destruct (Z.ltb_spec z 0) as [Hneg|Hpos].
  - rewrite N.eqb_refl. rewrite parse_digits_print. simpl.
    replace (- Z.of_N (Z.to_N (- z)))%Z with z by lia.
    by rewrite (proj2 (Z.leb_le _ _)), (proj2 (Z.leb_le _ _)) by lia.
  - pose proof (dec_print_digits (Z.to_N z)) as Hd. pose proof (parse_digits_print (Z.to_N z)) as Hp.
    pose proof (dec_print_nonempty (Z.to_N z)). destruct (dec_print (Z.to_N z)) as [|b l]; [done|].
    apply Forall_cons in Hd as [Hb%is_ascii_digit_spec _]. unfold minus_sign, plus_sign.
    destruct (N.eqb_spec b 45); [lia|]. destruct (N.eqb_spec b 43); [lia|]. rewrite Hp. simpl.
    rewrite Z2N.id by lia. by rewrite (proj2 (Z.leb_le _ _)), (proj2 (Z.leb_le _ _)) by lia.
Qed.

Lemma parse_plain_u32_print n : (n <= u32_max)%N → parse_plain_u32 (dec_print n) = Some n.
Proof. intros Hn. unfold parse_plain_u32. rewrite parse_digits_print. simpl. by rewrite (proj2 (N.leb_le _ _) Hn). Qed.

Lemma print_Z_bytes z b : b ∈ print_Z z → (48 <= b <= 57)%N ∨ b = minus_sign.
Proof.
  unfold print_Z. pose proof (λ n, proj1 (Forall_forall _ _) (dec_print_digits n)) as Hd. setoid_rewrite is_ascii_digit_spec in Hd.
  destruct (z <? 0)%Z; [intros [->|Hb]%elem_of_cons|intros Hb]; eauto.
Qed.
