(* ===== verification/Forest.v ===== *)
(** * Forest: the iterative leaf-stripping traversal shared by every hierarchy pass

    Four functions of the core crate walk a parent-linked forest in the same
    way: they count each node's children, keep the nodes with no pending child
    in a work list, and strip them one by one, decrementing the parent's count
    ([roll_up_hierarchy_progress] in hierarchy_progress.rs, [complete_postorder]
    in hierarchy_completion.rs, [validate_member_tree] in
    occurrence_lifecycle.rs and [roll_up_expected_durations] in domain.rs).
    This file holds that loop once, over an abstract work list: the first two
    use a [BTreeSet] ([pop_first]), the others a [Vec] ([pop]).  It also holds
    the bottom-up reduction over the resulting order, and the theorems on both
    that the four components instantiate. *)
From S2P Require Import Prelude.

(** ** Tree nodes and work lists: the interfaces *)

(** What a node type must say about itself. *)
Class TreeNode (A : Type) := {
  node_id : A → N;
  node_parent : A → option N
}.

(** A work list of ready nodes. *)
Class ReadyQueue (Q : Type) := {
  rq_collect : list N → Q;
  rq_pop : Q → option (N * Q);
  rq_push : N → Q → Q;
  rq_elems : Q → list N
}.

(** What the traversal relies on: a work list never loses or invents nodes. *)
Class ReadyQueueLaws (Q : Type) `{ReadyQueue Q} : Prop := {
  rq_collect_elems l : NoDup l → rq_elems (rq_collect l) ≡ₚ l;
  rq_pop_None q : rq_pop q = None → rq_elems q = [];
  rq_pop_Some q x q' : rq_pop q = Some (x, q') → rq_elems q ≡ₚ x :: rq_elems q';
  rq_push_elems x q : x ∉ rq_elems q → rq_elems (rq_push x q) ≡ₚ x :: rq_elems q
}.

(** [BTreeSet]: insertion, and removal of the least element. *)
#[export] Instance btree_queue : ReadyQueue (gset N) := {
  rq_collect l := list_to_set l;
  rq_pop := pop_first;
  rq_push x q := {[x]} ∪ q;
  rq_elems q := elements q
}.

(** [Vec]: push and pop at the end. *)
#[export] Instance vec_queue : ReadyQueue (list N) := {
  rq_collect l := l;
  rq_pop q := match rev q with [] => None | x :: r => Some (x, rev r) end;
  rq_push x q := q ++ [x];
  rq_elems q := q
}.

(** ** The traversal *)

Section traversal.
Context {Q : Type} `{ReadyQueue Q}.
Variable parents : gmap N (option N).

(** The parent recorded for a node. *)
Definition parent_of (id : N) : option N := mjoin (parents !! id).

(** [for item in ids { if let Some(parent) = item.parent { count[parent] += 1 } }];
    an unknown parent is reported with the item naming it. *)
Definition count_children_of (ids : list N) : result (N * N) (gmap N N) :=
  foldM (λ counts id,
    match parent_of id with
    | None => Ok counts
    | Some parent =>
        match counts !! parent with
        | None => Err (id, parent)
        | Some c => Ok (<[parent := (c + 1)%N]> counts)
        end
    end) ((λ _, 0%N) <$> parents) ids.

(** The same over [by_id.values()], in key order. *)
Definition count_children : result (N * N) (gmap N N) := count_children_of (keys parents).

(** Nodes whose pending count is zero, in key order. *)
Definition initial_ready (counts : gmap N N) : Q :=
  rq_collect (omap (λ k, match counts !! k with Some 0%N => Some k | _ => None end) (keys counts)).

(** One iteration of [while let Some(id) = ready.pop() { ... }]. *)
Definition strip_step (id : N) (remaining : gmap N N) (ready : Q) : gmap N N * Q :=
  let remaining := delete id remaining in
  match parent_of id with
  | None => (remaining, ready)
  | Some parent =>
      match remaining !! parent with
      | None => (remaining, ready)
      | Some count =>
          let count := (count - 1)%N in
          let remaining := <[parent := count]> remaining in
          (remaining, if (count =? 0)%N then rq_push parent ready else ready)
      end
  end.

(** The loop.  Every iteration removes a key of [remaining], so [size remaining]
    iterations exhaust the work list ([strip_exhausts] below). *)
Fixpoint strip (fuel : nat) (remaining : gmap N N) (ready : Q) (order : list N)
    : gmap N N * Q * list N :=
  match fuel with
  | O => (remaining, ready, order)
  | S fuel' =>
      match rq_pop ready with
      | None => (remaining, ready, order)
      | Some (id, ready') =>
          let '(remaining', ready'') := strip_step id remaining ready' in
          strip fuel' remaining' ready'' (order ++ [id])
      end
  end.

(** The failures of a whole traversal: a missing parent, or a cycle reported by
    the least node never stripped. *)
Inductive forest_error : Type :=
| ForestMissingParent (item parent : N)
| ForestCycle (item : N).

Definition postorder : result forest_error (list N) :=
  match count_children with
  | Err (item, parent) => Err (ForestMissingParent item parent)
  | Ok counts =>
      let '(remaining, _, order) :=
        strip (size counts) counts (initial_ready counts) [] in
      match first_key remaining with
      | Some id => Err (ForestCycle id)
      | None => Ok order
      end
  end.
End traversal.

(** The parent map of an indexed collection of nodes. *)
Definition parents_map {A} `{TreeNode A} (by_id : gmap N A) : gmap N (option N) :=
  node_parent <$> by_id.

(** ** Specification vocabulary *)

(** A node is rooted when its chain of parents ends at a node without one. *)
Inductive rooted (parents : gmap N (option N)) : N → Prop :=
| rooted_root id : parents !! id = Some None → rooted parents id
| rooted_child id p : parents !! id = Some (Some p) → rooted parents p → rooted parents id.

(** A complete, acyclic forest. *)
Definition forest_ok (parents : gmap N (option N)) : Prop :=
  ∀ id, is_Some (parents !! id) → rooted parents id.

(** The [k]-th ancestor. *)
Fixpoint ancestor (parents : gmap N (option N)) (k : nat) (id : N) : option N :=
  match k with
  | O => Some id
  | S k' => match parents !! id with
            | Some (Some p) => ancestor parents k' p
            | _ => None
            end
  end.

(** The children of a node, in key order. *)
Definition children_of (parents : gmap N (option N)) (x : N) : list N :=
  filter (λ k, parents !! k = Some (Some x)) (keys parents).

(** Every listed node comes after all its children. *)
Definition children_first (parents : gmap N (option N)) (order : list N) : Prop :=
  ∀ p x q c, order = p ++ x :: q → parents !! c = Some (Some x) → c ∈ p.

(** ** Work list laws *)

#[export] Instance btree_queue_laws : ReadyQueueLaws (gset N).
Proof.
  split; simpl.
  - intros l Hl. by apply elements_list_to_set.
  - intros q ->%pop_first_None. apply elements_empty.
  - intros q x q' (Hx & -> & _)%pop_first_Some.
    rewrite <- elements_union_singleton by set_solver.
    apply elements_proper. rewrite <- union_difference_singleton; set_solver.
  - intros x q Hx. apply elements_union_singleton. by rewrite <- elem_of_elements.
Qed.

#[export] Instance vec_queue_laws : ReadyQueueLaws (list N).
Proof.
  split; simpl; try done.
  - intros q. destruct (rev q) eqn:E; [|done]. intros _.
    by rewrite <- (rev_involutive q), E.
  - intros q x q'. destruct (rev q) as [|y r] eqn:E; [done|]. intros ?; simplify_eq.
    rewrite <- (rev_involutive q), E. simpl. by rewrite Permutation_app_comm.
  - intros x q _. by rewrite Permutation_app_comm.
Qed.

(** ** Counting children *)

Lemma elem_of_children parents x c : c ∈ children_of parents x ↔ parents !! c = Some (Some x).
Proof.
  unfold children_of. rewrite list_elem_of_filter, elem_of_keys.
  split; [by intros [? _]|]. intros Hc. split; [done|]. rewrite Hc. by eexists.
Qed.

Lemma NoDup_children parents x : NoDup (children_of parents x).
Proof. apply NoDup_filter, NoDup_keys. Qed.

#[export] Hint Resolve NoDup_children : dayweave.

Lemma parent_of_Some parents id p : parent_of parents id = Some p ↔ parents !! id = Some (Some p).
Proof. unfold parent_of. destruct (parents !! id) as [[?|]|]; simpl; naive_solver. Qed.

Lemma parent_of_None parents id :
  is_Some (parents !! id) → parent_of parents id = None → parents !! id = Some None.
Proof. unfold parent_of. intros [[?|] ->]; simpl; naive_solver. Qed.

(** Counting over any enumeration of the nodes gives the number of children of
    every node. *)
Lemma count_children_of_Ok parents ids counts :
  ids ≡ₚ keys parents → count_children_of parents ids = Ok counts →
  (∀ x, counts !! x = (λ _, N.of_nat (length (children_of parents x))) <$> parents !! x) ∧
  (∀ c p, parents !! c = Some (Some p) → is_Some (parents !! p)).
Proof.
  unfold count_children_of. intros Hperm Hf.
  pose (I p (m : gmap N N) :=
    (∀ x, m !! x = (λ _, N.of_nat (length (filter (λ k, parents !! k = Some (Some x)) p))) <$> parents !! x) ∧
    (∀ c q, c ∈ p → parents !! c = Some (Some q) → is_Some (parents !! q))).
  assert (I ids counts) as [H1 H2].
  { revert Hf. apply foldM_inv.
    - split; [|intros ? ? ?%elem_of_nil; done]. intros x. rewrite lookup_fmap. by destruct (parents !! x).
    - intros p a q m m' Hsplit [IH1 IH2] Hstep.
      assert (is_Some (parents !! a)) as Ha.
      { apply elem_of_keys. rewrite <- Hperm, Hsplit. set_solver. }
      destruct (parent_of parents a) as [b|] eqn:Eb.
      + apply parent_of_Some in Eb. pose proof (IH1 b) as IHb.
        destruct (m !! b) as [c|] eqn:Ec; simplify_eq.
        destruct (parents !! b) as [pb|] eqn:Epb; simplify_eq/=.
        split.
        * intros x. destruct (decide (x = b)) as [->|Hxb].
          -- rewrite lookup_insert_eq, Epb, filter_app, length_app, filter_cons_True by done.
             simpl. f_equal. lia.
          -- rewrite lookup_insert_ne, IH1, filter_app, filter_cons_False by congruence.
             by rewrite app_nil_r.
        * intros c q' [Hc|Hc]%elem_of_app; [by apply IH2|].
          apply list_elem_of_singleton in Hc as ->. intros ?; simplify_eq. by eexists.
      + apply parent_of_None in Eb; [|done]. simplify_eq. split.
        * intros x. rewrite IH1, filter_app, filter_cons_False by congruence.
          by rewrite app_nil_r.
        * intros c q' [Hc|Hc]%elem_of_app; [by apply IH2|].
          apply list_elem_of_singleton in Hc as ->. congruence. }
  split.
  - intros x. rewrite H1. destruct (parents !! x); simpl; [|done]. do 2 f_equal.
    apply Permutation_length. unfold children_of. by rewrite Hperm.
  - intros c p Hc. eapply H2; [|done]. rewrite Hperm. apply elem_of_keys. by rewrite Hc.
Qed.

Lemma count_children_Ok parents counts :
  count_children parents = Ok counts →
  (∀ x, counts !! x = (λ _, N.of_nat (length (children_of parents x))) <$> parents !! x) ∧
  (∀ c p, parents !! c = Some (Some p) → is_Some (parents !! p)).
Proof. by apply count_children_of_Ok. Qed.

(** [count_children] fails only on a node that names an unknown parent. *)
Lemma count_children_of_Err parents ids item p :
  ids ≡ₚ keys parents → count_children_of parents ids = Err (item, p) →
  parents !! item = Some (Some p) ∧ parents !! p = None.
Proof.
  intros Hperm. unfold count_children_of.
  assert (∀ l (m : gmap N N), (∀ k, k ∈ l → is_Some (parents !! k)) →
    (∀ k, is_Some (m !! k) ↔ is_Some (parents !! k)) →
    foldM (λ counts id, match parent_of parents id with
      | None => Ok counts
      | Some parent => match counts !! parent with
          | None => Err (id, parent)
          | Some c => Ok (<[parent := (c + 1)%N]> counts) end end) m l = Err (item, p) →
    parents !! item = Some (Some p) ∧ parents !! p = None) as Hgo.
  { induction l as [|a l IH]; intros m Hl Hm Hf; simpl in Hf; [done|].
    destruct (parent_of parents a) as [b|] eqn:Eb; simpl in Hf.
    - apply parent_of_Some in Eb. destruct (m !! b) as [c|] eqn:Ec; simpl in Hf.
      + apply IH in Hf; [done|set_solver|]. intros k. rewrite <- Hm, lookup_insert.
        case_decide; subst; [|done]. rewrite Ec. split; by eexists.
      + simplify_eq. split; [done|]. rewrite eq_None_not_Some, <- Hm, Ec. by intros [? ?].
    - apply IH in Hf; [done|set_solver|done]. }
  apply Hgo; [intros k; by rewrite Hperm, elem_of_keys|]. intros k. by rewrite lookup_fmap, fmap_is_Some.
Qed.

Lemma count_children_Err parents item p :
  count_children parents = Err (item, p) →
  parents !! item = Some (Some p) ∧ parents !! p = None.
Proof. by apply count_children_of_Err. Qed.

(** Conversely a forest whose parents are all present is always counted. *)
Lemma count_children_total parents :
  (∀ c p, parents !! c = Some (Some p) → is_Some (parents !! p)) →
  ∃ counts, count_children parents = Ok counts.
Proof.
  intros Hp. destruct (count_children parents) as [m|[item p]] eqn:E; [by eexists|].
  apply count_children_Err in E as [E1%Hp E2]. rewrite E2 in E1. by destruct E1.
Qed.

(** ** The traversal invariant *)

(** Children of [x] not yet stripped. *)
Definition pending (parents : gmap N (option N)) (remaining : gmap N N) (x : N) : list N :=
  filter (λ k, is_Some (remaining !! k)) (children_of parents x).

Record strip_inv {Q} `{ReadyQueue Q} (parents : gmap N (option N))
    (remaining : gmap N N) (ready : Q) (order : list N) : Prop := {
  si_split k : is_Some (parents !! k) ↔ (k ∈ order ∨ is_Some (remaining !! k));
  si_fresh k : k ∈ order → remaining !! k = None;
  si_nodup : NoDup order;
  si_count k c : remaining !! k = Some c → c = N.of_nat (length (pending parents remaining k));
  si_ready k : k ∈ rq_elems ready ↔ remaining !! k = Some 0%N;
  si_ready_nodup : NoDup (rq_elems ready);
  si_order : children_first parents order
}.

Section strip_proofs.
Context {Q : Type} `{ReadyQueueLaws Q}.
Variable parents : gmap N (option N).
Implicit Types remaining : gmap N N.

Lemma pending_delete_other remaining x id :
  parents !! id ≠ Some (Some x) → pending parents (delete id remaining) x = pending parents remaining x.
Proof.
  intros Hid. unfold pending. apply filter_ext_in. intros k Hk.
  apply elem_of_children in Hk. rewrite lookup_delete_ne by congruence. done.
Qed.

Lemma pending_insert remaining x p c :
  is_Some (remaining !! p) → pending parents (<[p:=c]> remaining) x = pending parents remaining x.
Proof.
  intros Hp. unfold pending. apply list_filter_iff. intros k. rewrite lookup_insert.
  case_decide; subst; [|done]. split; [done|by eexists].
Qed.

Lemma pending_delete_child remaining x id :
  parents !! id = Some (Some x) → is_Some (remaining !! id) →
  length (pending parents remaining x) = S (length (pending parents (delete id remaining) x)).
Proof.
  intros Hid Hr. unfold pending. apply length_filter_split with id; [apply NoDup_children| |done|].
  - by apply elem_of_children.
  - intros y. rewrite lookup_delete_is_Some. naive_solver.
Qed.

(** Appending a node all of whose children are listed. *)
Lemma children_first_snoc order id :
  children_first parents order → (∀ c, parents !! c = Some (Some id) → c ∈ order) →
  children_first parents (order ++ [id]).
Proof.
  intros Horder Hid p x q c Heq Hc. destruct (decide (q = [])) as [->|Hq].
  - apply app_inj_tail in Heq as [-> ->]. auto.
  - destruct (exists_last Hq) as (q' & z & ->). rewrite app_comm_cons, app_assoc in Heq.
    apply app_inj_tail in Heq as [-> ->]. by eapply Horder.
Qed.

(** A ready node has every child behind it, so it is not its own parent. *)
Lemma ready_children remaining (ready : Q) order id :
  strip_inv parents remaining ready order → remaining !! id = Some 0%N →
  (∀ c, parents !! c = Some (Some id) → c ∈ order) ∧ parents !! id ≠ Some (Some id).
Proof.
  intros Hinv Hid. pose proof (si_count _ _ _ _ Hinv _ _ Hid) as Hlen.
  destruct (pending parents remaining id) as [|y l] eqn:Epend; [|simpl in Hlen; lia].
  assert (∀ c, parents !! c = Some (Some id) → remaining !! c = None) as Hnone.
  { intros c Hc. apply eq_None_not_Some. intros Hs.
    assert (c ∈ pending parents remaining id) as Hin.
    { apply list_elem_of_filter. by rewrite elem_of_children. }
    rewrite Epend in Hin. by apply elem_of_nil in Hin. }
  split.
  - intros c Hc. assert (is_Some (parents !! c)) as Hs by (by eexists).
    apply (si_split _ _ _ _ Hinv) in Hs as [?|[? Hs]]; [done|]. rewrite Hnone in Hs; done.
  - intros Hself%Hnone. congruence.
Qed.

Lemma elem_of_snoc_iff (l : list N) x k : k ∈ l ++ [x] ↔ k ∈ l ∨ k = x.
Proof. by rewrite elem_of_app, list_elem_of_singleton. Qed.

Lemma NoDup_snoc (l : list N) x : NoDup l → x ∉ l → NoDup (l ++ [x]).
Proof.
  intros Hl Hx. apply NoDup_app. split; [done|]. split; [|apply NoDup_singleton].
  intros k Hk ->%list_elem_of_singleton. done.
Qed.

(** Stripping a node whose parent holds no pending count. *)
Lemma strip_inv_detach remaining (ready ready' : Q) order id :
  strip_inv parents remaining ready order → rq_pop ready = Some (id, ready') →
  remaining !! id = Some 0%N → NoDup (rq_elems ready') →
  (∀ k, k ∈ rq_elems ready' ↔ delete id remaining !! k = Some 0%N) →
  (∀ x c, parent_of parents id = Some x → delete id remaining !! x = Some c → False) →
  strip_inv parents (delete id remaining) ready' (order ++ [id]).
Proof.
  intros Hinv Hpop Hid Hrnd Hother Hnp. destruct (ready_children _ _ _ _ Hinv Hid) as [Hch _].
  destruct Hinv as [Hsplit Hfresh Hnd Hcount Hready _ Horder]. split; try done.
  - intros k. rewrite elem_of_snoc_iff, lookup_delete_is_Some, Hsplit.
    destruct (decide (k = id)) as [->|]; [rewrite Hid|]; naive_solver.
  - intros k [Hk| ->]%elem_of_snoc_iff; [|apply lookup_delete_eq].
    rewrite lookup_delete_None. right. by apply Hfresh.
  - apply NoDup_snoc; [done|]. intros ?%Hfresh. congruence.
  - intros k c Hk. rewrite pending_delete_other.
    + apply Hcount. by apply lookup_delete_Some in Hk as [_ ?].
    + intros Hpk. eapply (Hnp k c); [by apply parent_of_Some|done].
  - by apply children_first_snoc.
Qed.

(** Stripping a node whose parent still waits for [c] children. *)
Lemma strip_inv_attach remaining (ready ready' : Q) order id x c :
  strip_inv parents remaining ready order → rq_pop ready = Some (id, ready') →
  remaining !! id = Some 0%N → NoDup (rq_elems ready') →
  (∀ k, k ∈ rq_elems ready' ↔ delete id remaining !! k = Some 0%N) →
  parents !! id = Some (Some x) → delete id remaining !! x = Some c →
  strip_inv parents (<[x := (c - 1)%N]> (delete id remaining))
    (if (c - 1 =? 0)%N then rq_push x ready' else ready') (order ++ [id]).
Proof.
  intros Hinv Hpop Hid Hrnd Hother Ex Ec. destruct (ready_children _ _ _ _ Hinv Hid) as [Hch Hself].
  destruct Hinv as [Hsplit Hfresh Hnd Hcount Hready _ Horder].
  apply lookup_delete_Some in Ec as Ec2. destruct Ec2 as [Hxid Hx].
  pose proof (Hcount x c Hx) as Hc.
  rewrite (pending_delete_child _ x id) in Hc by (done || by eexists).
  assert (x ∉ rq_elems ready') as Hxr.
  { rewrite Hother, Ec. intros ?; simplify_eq. }
  split.
  - intros k. rewrite elem_of_snoc_iff, lookup_insert, Hsplit. case_decide; subst.
    + rewrite Hx. split; intros _; right; by eexists.
    + rewrite lookup_delete_is_Some. destruct (decide (k = id)) as [->|]; [rewrite Hid|]; naive_solver.
  - intros k Hk. rewrite lookup_insert_None. apply elem_of_snoc_iff in Hk as [Hk| ->].
    + split; [apply lookup_delete_None; right; by apply Hfresh|]. intros ->. apply Hfresh in Hk. congruence.
    + split; [apply lookup_delete_eq|congruence].
  - apply NoDup_snoc; [done|]. intros ?%Hfresh. congruence.
  - intros k c' Hk. rewrite pending_insert by (by eexists).
    rewrite lookup_insert in Hk. case_decide; simplify_eq; [lia|].
    apply lookup_delete_Some in Hk as [? Hk]. rewrite pending_delete_other; [auto|congruence].
  - intros k. rewrite lookup_insert. destruct (N.eqb_spec (c - 1) 0) as [Hz|Hz].
    + rewrite rq_push_elems, elem_of_cons, Hother by done. case_decide; subst; [|naive_solver].
      split; [intros _; by f_equal|by left].
    + rewrite Hother. case_decide; subst; [|done]. rewrite Ec. split; intros ?; simplify_eq; lia.
  - destruct (N.eqb_spec (c - 1) 0) as [Hz|Hz]; [|done].
    rewrite rq_push_elems by done. by constructor.
  - by apply children_first_snoc.
Qed.

(** Stripping a ready node keeps the invariant. *)
Lemma strip_step_inv remaining (ready ready' : Q) order id remaining' ready'' :
  strip_inv parents remaining ready order →
  rq_pop ready = Some (id, ready') →
  strip_step parents id remaining ready' = (remaining', ready'') →
  strip_inv parents remaining' ready'' (order ++ [id]) ∧ is_Some (remaining !! id) ∧
    dom remaining' = dom remaining ∖ {[id]}.
Proof.
  intros Hinv Hpop Hstep. pose proof (rq_pop_Some _ _ _ Hpop) as Hperm.
  assert (remaining !! id = Some 0%N) as Hid.
  { apply (si_ready _ _ _ _ Hinv). rewrite Hperm. constructor. }
  pose proof (si_ready_nodup _ _ _ _ Hinv) as Hrnd. rewrite Hperm in Hrnd.
  apply NoDup_cons in Hrnd as [Hidr Hrnd].
  assert (∀ k, k ∈ rq_elems ready' ↔ delete id remaining !! k = Some 0%N) as Hother.
  { intros k. rewrite lookup_delete_Some, <- (si_ready _ _ _ _ Hinv), Hperm, elem_of_cons.
    split; [intros Hk; split; [by intros ->|by right]|]. intros [? [?|?]]; congruence || done. }
  split; [|split; [by eexists|]]; unfold strip_step in Hstep;
    destruct (parent_of parents id) as [x|] eqn:Ex.
  - destruct (delete id remaining !! x) as [c|] eqn:Ec; simplify_eq.
    + eapply strip_inv_attach; eauto. by apply parent_of_Some.
    + eapply strip_inv_detach; eauto. intros; congruence.
  - simplify_eq. eapply strip_inv_detach; eauto. intros; congruence.
  - destruct (delete id remaining !! x) eqn:Ec; simplify_eq; [|by rewrite dom_delete_L].
    rewrite dom_insert_L, dom_delete_L. apply elem_of_dom_2 in Ec. rewrite dom_delete_L in Ec. set_solver.
  - simplify_eq. by rewrite dom_delete_L.
Qed.

(** The loop keeps the invariant, and [size remaining] iterations exhaust the
    work list. *)
Lemma strip_exhausts fuel remaining (ready : Q) order remaining' ready' order' :
  strip_inv parents remaining ready order →
  size remaining ≤ fuel →
  strip parents fuel remaining ready order = (remaining', ready', order') →
  strip_inv parents remaining' ready' order' ∧ rq_elems ready' = [].
Proof.
  revert remaining ready order. induction fuel as [|fuel IH]; intros remaining ready order Hinv Hf Hs; simpl in Hs.
  - simplify_eq. split; [done|]. assert (remaining' = ∅) as -> by (apply map_size_empty_iff; lia).
    destruct (rq_elems ready') as [|k l] eqn:E; [done|]. exfalso.
    assert (k ∈ rq_elems ready') as Hk%(si_ready _ _ _ _ Hinv) by (rewrite E; constructor). done.
  - destruct (rq_pop ready) as [[id r]|] eqn:Hpop.
    + destruct (strip_step parents id remaining r) as [rem1 r1] eqn:Estep.
      destruct (strip_step_inv _ _ _ _ _ _ _ Hinv Hpop Estep) as (Hinv1 & Hid & Hdom).
      apply (IH _ _ _ Hinv1); [|done].
      assert (size rem1 < size remaining); [|lia].
      rewrite <- !(size_dom (D := gset N)), Hdom. apply elem_of_dom in Hid.
      apply subset_size. set_solver.
    + simplify_eq. split; [done|]. by apply rq_pop_None.
Qed.

(** The counting loop starts the traversal in a state of the invariant. *)
Lemma initial_inv counts :
  count_children parents = Ok counts → strip_inv parents counts (initial_ready counts : Q) [].
Proof.
  intros [Hc Hp]%count_children_Ok.
  assert (NoDup (omap (λ k, match counts !! k with Some 0%N => Some k | _ => None end) (keys counts))) as Hnd.
  { assert (∀ l : list N, NoDup l → NoDup (omap (λ k, match counts !! k with Some 0%N => Some k | _ => None end) l)) as Hgo.
    { induction 1 as [|k l Hk Hl IH]; simpl; [constructor|].
      destruct (counts !! k) as [[|]|] eqn:Ek; simpl; [|done..]. constructor; [|done].
      rewrite list_elem_of_omap. intros (k' & Hk' & Heq). destruct (counts !! k') as [[|]|]; by simplify_eq. }
    apply Hgo, NoDup_keys. }
  assert (∀ k, is_Some (counts !! k) ↔ is_Some (parents !! k)) as Hdom.
  { intros k. by rewrite Hc, fmap_is_Some. }
  split.
  - intros k. rewrite Hdom, elem_of_nil. naive_solver.
  - intros k Hk. by apply elem_of_nil in Hk.
  - constructor.
  - intros k c Hk. rewrite Hc in Hk. apply fmap_Some in Hk as (o & Ho & ->). f_equal. f_equal.
    unfold pending. symmetry. apply filter_all. intros j Hj%elem_of_children.
    rewrite Hdom, Hj. by eexists.
  - intros k. unfold initial_ready. rewrite rq_collect_elems, list_elem_of_omap by done. split.
    + intros (k' & _ & Hk'). destruct (counts !! k') as [[|]|] eqn:E; by simplify_eq.
    + intros Hk. exists k. rewrite elem_of_keys, Hk. split; [by eexists|done].
  - unfold initial_ready. by rewrite rq_collect_elems.
  - intros p x q c Heq. by destruct p.
Qed.
End strip_proofs.


(** ** Ancestors and rootedness *)

Lemma ancestor_add parents a b x y :
  ancestor parents a x = Some y → ancestor parents (a + b) x = ancestor parents b y.
Proof.
  revert x. induction a as [|a IH]; intros x Hx; simpl in *; [by simplify_eq|].
  destruct (parents !! x) as [[p|]|]; [auto|done..].
Qed.

(** A rooted node has an ancestor chain that ends. *)
Lemma rooted_chain_ends parents x :
  rooted parents x → ∃ k, ancestor parents k x = None.
Proof.
  induction 1 as [id Hid|id p Hid _ [k IH]].
  - exists 1. simpl. by rewrite Hid.
  - exists (S k). simpl. by rewrite Hid.
Qed.

Lemma ancestor_None_mono parents k k' x :
  k ≤ k' → ancestor parents k x = None → ancestor parents k' x = None.
Proof.
  intros Hle. revert k' x Hle. induction k as [|k IH]; intros k' x Hle Hx; [done|].
  destruct k' as [|k']; [lia|]. simpl in *. destruct (parents !! x) as [[p|]|]; [|done..].
  apply IH; [lia|done].
Qed.

(** No node of a cycle is rooted. *)
Lemma cycle_not_rooted parents x k :
  0 < k → ancestor parents k x = Some x → ¬ rooted parents x.
Proof.
  intros Hk Hc [n Hn]%rooted_chain_ends.
  assert (∀ m, ancestor parents (m * k) x = Some x) as Hm.
  { induction m as [|m IHm]; [done|]. simpl. by rewrite (ancestor_add _ _ _ _ _ Hc). }
  specialize (Hm n). rewrite (ancestor_None_mono _ n) in Hm; [done|nia|done].
Qed.

(** A chain of [n] successive children below [x], inside a set in which every
    node has a child. *)
Lemma descending_chain parents (R : gset N) x n :
  (∀ y, y ∈ R → ∃ c, c ∈ R ∧ parents !! c = Some (Some y)) → x ∈ R →
  ∃ l, length l = S n ∧ (∀ y, y ∈ l → y ∈ R) ∧
    (∀ i y, l !! i = Some y → ancestor parents i y = Some x) ∧
    (∀ i j y, l !! i = Some y → j ≤ i → ∃ z, l !! j = Some z ∧ ancestor parents (i - j) y = Some z).
Proof.
  intros Hchild Hx. induction n as [|n (l & Hlen & HR & Hanc & Hpair)].
  - exists [x]. split_and!; [done|set_solver|..].
    + intros [|i] y Hy; simplify_eq/=. done.
    + intros [|i] j y Hy Hj; simplify_eq/=. assert (j = 0) as -> by lia. by exists y.
  - destruct (lookup_lt_is_Some_2 l n) as [y Hy]; [lia|].
    destruct (Hchild y) as (c & Hc & Hpc); [eapply HR, list_elem_of_lookup_2, Hy|].
    assert (ancestor parents 1 c = Some y) as Hac by (simpl; by rewrite Hpc).
    exists (l ++ [c]). split_and!.
    + rewrite length_app. simpl. lia.
    + intros z [Hz| ->]%elem_of_snoc_iff; auto.
    + intros i z [Hz|[Hi Hz]]%lookup_app_Some; [auto|]. apply list_lookup_singleton_Some in Hz as [Hz <-].
      assert (i = 1 + n) as -> by lia. rewrite (ancestor_add _ _ _ _ _ Hac). auto.
    + intros i j z [Hz|[Hi Hz]]%lookup_app_Some Hj.
      * destruct (Hpair _ _ _ Hz Hj) as (w & Hw & Haw). exists w. split; [|done]. by apply lookup_app_l_Some.
      * apply list_lookup_singleton_Some in Hz as [Hz <-]. destruct (decide (j = i)) as [->|Hne].
        -- exists c. rewrite Nat.sub_diag. split; [|done]. by rewrite lookup_app_r, Hz by lia.
        -- destruct (Hpair n j y Hy) as (w & Hw & Haw); [lia|]. exists w. split; [by apply lookup_app_l_Some|].
           replace (i - j) with (1 + (n - j)) by lia. by rewrite (ancestor_add _ _ _ _ _ Hac).
Qed.

(** A list longer than the set its elements come from repeats an element. *)
Lemma pigeonhole_dup (R : gset N) l :
  (∀ y, y ∈ l → y ∈ R) → size R < length l →
  ∃ i j y, i < j ∧ l !! i = Some y ∧ l !! j = Some y.
Proof.
  intros HR Hlen.
  assert (¬ NoDup l) as Hdup.
  { intros Hnd. assert (size (list_to_set l : gset N) ≤ size R).
    { apply subseteq_size. intros y. rewrite elem_of_list_to_set. auto. }
    rewrite size_list_to_set in *; [lia|done]. }
  clear -Hdup. induction l as [|a l IH]; [destruct Hdup; constructor|].
  destruct (decide (a ∈ l)) as [Ha|Ha].
  - apply list_elem_of_lookup in Ha as [j Hj]. exists 0, (S j), a. split_and!; [lia|done..].
  - destruct IH as (i & j & y & ? & ? & ?); [intros ?; by destruct Hdup; constructor|].
    exists (S i), (S j), y. split_and!; [lia|done..].
Qed.

(** When every node of a set has a child in the set, every node of the set is
    one of its own ancestors. *)
Lemma pigeonhole_cycle parents (R : gset N) x :
  (∀ y, y ∈ R → ∃ c, c ∈ R ∧ parents !! c = Some (Some y)) → x ∈ R →
  ∃ k, 0 < k ∧ ancestor parents k x = Some x.
Proof.
  intros Hchild Hx.
  destruct (descending_chain parents R x (size R) Hchild Hx) as (l & Hlen & HR & Hanc & Hpair).
  destruct (pigeonhole_dup R l HR) as (i & j & y & Hij & Hi & Hj); [lia|].
  destruct (Hpair j (j - i) y Hj) as (z & Hz & Haz); [lia|].
  replace (j - (j - i)) with i in Haz by lia.
  rewrite (Hanc _ _ Hi) in Haz. simplify_eq.
  exists (j - i). split; [lia|]. by apply Hanc.
Qed.

(** ** The traversal theorems *)

Section postorder_proofs.
Context (Q : Type) `{ReadyQueueLaws Q}.
Variable parents : gmap N (option N).

(** The state of the loop when it ends. *)
Lemma postorder_final counts remaining (ready : Q) order :
  count_children parents = Ok counts →
  strip parents (size counts) counts (initial_ready counts) [] = (remaining, ready, order) →
  strip_inv parents remaining ready order ∧
  ∀ y, y ∈ dom remaining → ∃ c, c ∈ dom remaining ∧ parents !! c = Some (Some y).
Proof.
  intros Hc Hs.
  destruct (strip_exhausts parents _ _ _ _ _ _ _ (initial_inv parents _ Hc) (le_n _) Hs) as [Hinv Hnil].
  split; [done|]. intros y [c Hy]%elem_of_dom.
  pose proof (si_count _ _ _ _ Hinv _ _ Hy) as Hcount.
  destruct (pending parents remaining y) as [|k l] eqn:Epend; simpl in Hcount.
  - subst c. apply (si_ready _ _ _ _ Hinv) in Hy. rewrite Hnil in Hy. by apply elem_of_nil in Hy.
  - assert (k ∈ pending parents remaining y) as Hk by (rewrite Epend; constructor).
    apply list_elem_of_filter in Hk as [Hk1 Hk2%elem_of_children].
    exists k. by rewrite elem_of_dom.
Qed.

Lemma children_first_rooted order :
  (∀ k, k ∈ order ↔ is_Some (parents !! k)) → NoDup order → children_first parents order →
  (∀ c p, parents !! c = Some (Some p) → is_Some (parents !! p)) → forest_ok parents.
Proof.
  intros Hall Hnd Hcf Hp.
  assert (∀ q p, order = p ++ q → ∀ id, id ∈ q → rooted parents id) as Hgo.
  { induction q as [|x q IH]; intros p Hsplit id Hid; [by apply elem_of_nil in Hid|].
    assert (∀ y, y ∈ q → rooted parents y) as IHq by (apply (IH (p ++ [x])); by rewrite <- app_assoc).
    apply elem_of_cons in Hid as [->|Hid]; [|auto].
    assert (is_Some (parents !! x)) as [px Hx] by (apply Hall; rewrite Hsplit; set_solver).
    destruct px as [px|]; [|by constructor].
    apply (rooted_child _ x px Hx). apply IHq.
    assert (px ∈ order) as Hin by (apply Hall; eauto).
    apply list_elem_of_split in Hin as (l1 & l2 & Hl).
    pose proof (Hcf _ _ _ _ Hl Hx) as Hxl.
    apply list_elem_of_split in Hxl as (m1 & m2 & ->).
    rewrite Hsplit, <- app_assoc in Hl. simpl in Hl.
    enough (p = m1) as ->.
    { apply app_inv_head in Hl. simplify_eq. set_solver. }
    rewrite Hsplit in Hnd. clear -Hl Hnd. revert m1 Hl Hnd.
    induction p as [|a p IHp]; intros [|b m1] Hl Hnd; simplify_eq/=; [done|..].
    - apply NoDup_cons in Hnd as [Hn _]. destruct Hn. set_solver.
    - apply NoDup_cons in Hnd as [Hn _]. destruct Hn. set_solver.
    - f_equal. apply NoDup_cons in Hnd as [_ ?]. auto. }
  intros id Hid%Hall. by apply (Hgo order []).
Qed.

(** A successful traversal lists every node once, children before parents, and
    establishes that the forest is complete and acyclic. *)
Lemma postorder_Ok order :
  postorder (Q := Q) parents = Ok order →
  order ≡ₚ keys parents ∧ children_first parents order ∧ forest_ok parents.
Proof.
  unfold postorder. destruct (count_children parents) as [counts|[item p]] eqn:Ec; [|done].
  destruct (strip _ _ _ _ _) as [[remaining ready] order'] eqn:Es.
  destruct (first_key remaining) eqn:Ek; [done|]. intros ?; simplify_eq.
  destruct (postorder_final _ _ _ _ Ec Es) as [Hinv _].
  apply first_key_None in Ek as ->.
  assert (∀ k, k ∈ order ↔ is_Some (parents !! k)) as Hall.
  { intros k. rewrite (si_split _ _ _ _ Hinv), lookup_empty. split; [by left|]. intros [?|[? ?]]; done. }
  split_and!.
  - apply NoDup_Permutation; [apply Hinv|apply NoDup_keys|]. intros k. by rewrite Hall, elem_of_keys.
  - apply Hinv.
  - eapply children_first_rooted; [done|apply Hinv|apply Hinv|]. by apply count_children_Ok in Ec as [_ ?].
Qed.

(** A reported cycle is one. *)
Lemma postorder_Cycle id :
  postorder (Q := Q) parents = Err (ForestCycle id) → ∃ k, 0 < k ∧ ancestor parents k id = Some id.
Proof.
  unfold postorder. destruct (count_children parents) as [counts|[item p]] eqn:Ec; [|done].
  destruct (strip _ _ _ _ _) as [[remaining ready] order'] eqn:Es.
  destruct (first_key remaining) eqn:Ek; [|done]. intros ?; simplify_eq.
  destruct (postorder_final _ _ _ _ Ec Es) as [Hinv Hchild].
  apply first_key_Some in Ek as [Hid%elem_of_dom _].
  exact (pigeonhole_cycle _ _ _ Hchild Hid).
Qed.

Lemma postorder_MissingParent item p :
  postorder (Q := Q) parents = Err (ForestMissingParent item p) →
  parents !! item = Some (Some p) ∧ parents !! p = None.
Proof.
  unfold postorder. destruct (count_children parents) as [counts|[i q]] eqn:Ec.
  - destruct (strip _ _ _ _ _) as [[? ?] ?]. by destruct (first_key _).
  - intros ?; simplify_eq. by apply count_children_Err.
Qed.

(** A complete, acyclic forest is always traversed. *)
Lemma postorder_total : forest_ok parents → ∃ order, postorder (Q := Q) parents = Ok order.
Proof.
  intros Hf. destruct (postorder (Q := Q) parents) as [order|[item p|id]] eqn:E; [by eexists|..].
  - apply postorder_MissingParent in E as [Hi Hp].
    assert (rooted parents item) as Hr by (apply Hf; by eexists).
    inversion Hr as [? Hr1|? q Hr1 Hr2]; simplify_eq. inversion Hr2; congruence.
  - pose proof E as E'. apply postorder_Cycle in E as (k & Hk & Hc).
    destruct (cycle_not_rooted _ _ _ Hk Hc). apply Hf.
    destruct k; [lia|]. simpl in Hc. by destruct (parents !! id).
Qed.

Lemma postorder_nodup order : postorder (Q := Q) parents = Ok order → NoDup order.
Proof. intros (Hperm & _)%postorder_Ok. rewrite Hperm. apply NoDup_keys. Qed.
End postorder_proofs.

(** ** Bottom-up reduction over a children-first order

    Each node in turn is finished from what its children contributed to it
    ([finish]), and then contributes to its own parent ([contrib], absorbed by
    [absorb], whose [None] is an arithmetic overflow reported for the parent). *)

Section reduce.
Context {E V D W : Type}.
Variable parents : gmap N (option N).
Variable finish : N → V → result E D.
Variable contrib : N → D → option W.
Variable absorb : V → W → option V.
Variable overflow : N → E.

Definition reduce_step (st : gmap N V * gmap N D) (id : N) : result E (gmap N V * gmap N D) :=
  let '(acc, finished) := st in
  match acc !! id with
  | None => Ok st
  | Some v =>
      let? d := finish id v in
      let finished := <[id := d]> finished in
      match parent_of parents id, contrib id d with
      | Some parent, Some w =>
          match acc !! parent ≫= (λ v, absorb v w) with
          | None => Err (overflow parent)
          | Some v' => Ok (<[parent := v']> acc, finished)
          end
      | _, _ => Ok (acc, finished)
      end
  end.

Definition reduce (acc : gmap N V) (order : list N) : result E (gmap N V * gmap N D) :=
  foldM reduce_step (acc, ∅) order.

(** What the nodes [cs], finished as recorded, add to [v]. *)
Definition absorb_all (finished : gmap N D) (v : V) (cs : list N) : option V :=
  foldl (λ o c, o ≫= λ v, match finished !! c ≫= contrib c with
                          | Some w => absorb v w
                          | None => Some v
                          end) (Some v) cs.

Lemma absorb_all_snoc finished v cs c :
  absorb_all finished v (cs ++ [c]) =
  absorb_all finished v cs ≫= λ v, match finished !! c ≫= contrib c with
                                   | Some w => absorb v w | None => Some v end.
Proof. unfold absorb_all. by rewrite foldl_app. Qed.

Lemma absorb_all_ext finished finished' v cs :
  (∀ c, c ∈ cs → finished !! c = finished' !! c) →
  absorb_all finished v cs = absorb_all finished' v cs.
Proof.
  unfold absorb_all. generalize (Some v). induction cs as [|c cs IH]; intros o Hc; simpl; [done|].
  rewrite (Hc c) by left. apply IH. intros; apply Hc; by right.
Qed.

Definition child_of (x k : N) : Prop := parents !! k = Some (Some x).
#[export] Instance child_of_dec x k : Decision (child_of x k) := decide (parents !! k = Some (Some x)).

(** Adding one more finished node to the processed prefix. *)
Lemma absorb_all_step finished p a d x v0 v :
  a ∉ p → absorb_all finished v0 (filter (child_of x) p) = Some v →
  absorb_all (<[a := d]> finished) v0 (filter (child_of x) (p ++ [a])) =
    if decide (child_of x a)
    then match contrib a d with Some w => absorb v w | None => Some v end
    else Some v.
Proof.
  intros Ha Hv.
  assert (absorb_all (<[a:=d]> finished) v0 (filter (child_of x) p) = Some v) as Hv'.
  { rewrite <- Hv. symmetry. apply absorb_all_ext. intros c [_ Hc]%list_elem_of_filter.
    rewrite lookup_insert_ne; [done|]. by intros ->. }
  rewrite filter_app, (filter_cons _ a). case_decide.
  - rewrite absorb_all_snoc, Hv'. simpl. by rewrite lookup_insert_eq.
  - by rewrite app_nil_r.
Qed.

(** The reduction invariant after the prefix [p]. *)
Definition reduce_inv (acc0 : gmap N V) (p : list N) (st : gmap N V * gmap N D) : Prop :=
  dom st.1 = dom acc0 ∧ (∀ x, is_Some (st.2 !! x) ↔ x ∈ p) ∧
  ∀ x v0, acc0 !! x = Some v0 → ∃ v, st.1 !! x = Some v ∧
    absorb_all st.2 v0 (filter (child_of x) p) = Some v ∧
    (x ∈ p → ∃ d, st.2 !! x = Some d ∧ finish x v = Ok d).

(** In a children-first order a node is no child of itself or of an earlier one. *)
Lemma processed_no_child order p a q x :
  children_first parents order → NoDup order → order = p ++ a :: q →
  x ∈ p ++ [a] → child_of x a → False.
Proof.
  intros Hcf Hnd Hsplit Hx Hc.
  assert (a ∉ p) as Hap.
  { rewrite Hsplit in Hnd. apply NoDup_app in Hnd as (_ & Hd & _). intros Ha. apply (Hd a Ha). left. }
  apply elem_of_snoc_iff in Hx as [Hx| ->]; apply Hap.
  - apply list_elem_of_split in Hx as (l1 & l2 & ->). apply elem_of_app. left.
    apply (Hcf l1 x (l2 ++ a :: q)); [|exact Hc]. rewrite Hsplit, <- app_assoc. done.
  - eapply Hcf; [exact Hsplit|exact Hc].
Qed.

Lemma reduce_step_inv acc0 order p a q st st' :
  children_first parents order → NoDup order → (∀ k, k ∈ order → is_Some (acc0 !! k)) →
  order = p ++ a :: q → reduce_inv acc0 p st → reduce_step st a = Ok st' →
  reduce_inv acc0 (p ++ [a]) st'.
Proof.
  intros Hcf Hnd Hdom Hsplit (HI1 & HI2 & HI3) Hstep.
  assert (∀ x, x ∈ p ++ [a] → child_of x a → False) as Hdone by (intros x; eauto using processed_no_child).
  assert (a ∉ p) as Hap.
  { rewrite Hsplit in Hnd. apply NoDup_app in Hnd as (_ & Hd & _). intros Ha. apply (Hd a Ha). left. }
  destruct st as [m f]; simpl in *. destruct (Hdom a) as [va0 Hva0]; [rewrite Hsplit; set_solver|].
  destruct (HI3 _ _ Hva0) as (va & Hva & _ & _). rewrite Hva in Hstep.
  apply rbind_ok in Hstep as (d & Hfin & Hstep).
  assert (HI2' : ∀ x, is_Some (<[a:=d]> f !! x) ↔ x ∈ p ++ [a]).
  { intros x. rewrite lookup_insert_is_Some', HI2, elem_of_snoc_iff. naive_solver. }
  assert (Hold : ∀ x v, m !! x = Some v → (x ∈ p → ∃ d', f !! x = Some d' ∧ finish x v = Ok d') →
     x ∈ p ++ [a] → ∃ d', <[a:=d]> f !! x = Some d' ∧ finish x v = Ok d').
  { intros x v Hxv Hx [Hin| ->]%elem_of_snoc_iff.
    - rewrite lookup_insert_ne by (by intros ->). auto.
    - exists d. rewrite lookup_insert_eq. by simplify_eq. }
  assert (Hsame : ((∃ b, child_of b a) → contrib a d = None) → reduce_inv acc0 (p ++ [a]) (m, <[a:=d]> f)).
  { intros Hn. split_and!; [done..|]. intros x v0 Hx. destruct (HI3 x v0 Hx) as (v & Hv & Hva' & Hvd).
    exists v. simpl. rewrite (absorb_all_step _ _ _ _ _ _ _ Hap Hva'). split_and!; [done|by case_decide; rewrite ?Hn by eauto|eauto]. }
  destruct (parent_of parents a) as [b|] eqn:Eb.
  2:{ simplify_eq. apply Hsame. intros [b Hb%parent_of_Some]. congruence. }
  apply parent_of_Some in Eb.
  destruct (contrib a d) as [w|] eqn:Ew; [|simplify_eq; by apply Hsame].
  clear Hsame. destruct (m !! b ≫= _) as [vb'|] eqn:Evb; simplify_eq.
  apply bind_Some in Evb as (vb & Hvb & Habsb). split_and!; [|done|].
  { simpl. rewrite dom_insert_L. apply elem_of_dom_2 in Hvb. set_solver. }
  intros x v0 Hx. destruct (HI3 x v0 Hx) as (v & Hv & Hva' & Hvd). simpl.
  rewrite (absorb_all_step _ _ _ _ _ _ _ Hap Hva'), Ew. destruct (decide (x = b)) as [->|Hne].
  - rewrite Hv in Hvb. simplify_eq. exists vb'. rewrite lookup_insert_eq, decide_True by done.
    split_and!; [done..|]. intros Hin. by destruct (Hdone b Hin).
  - exists v. rewrite lookup_insert_ne, decide_False by (unfold child_of in *; congruence). eauto.
Qed.

Lemma reduce_invariant acc0 order st :
  children_first parents order → NoDup order → (∀ k, k ∈ order → is_Some (acc0 !! k)) →
  reduce acc0 order = Ok st → reduce_inv acc0 order st.
Proof.
  intros Hcf Hnd Hdom. apply (foldM_inv reduce_step (reduce_inv acc0)).
  - split_and!; simpl; [done|..].
    + intros x. rewrite lookup_empty, elem_of_nil. split; [by intros []|done].
    + intros x v0 Hx. exists v0. split_and!; [done..|]. by intros ?%elem_of_nil.
  - intros p a q s s' Hsplit HI Hs. by eapply reduce_step_inv.
Qed.

(** A reduction that succeeds finishes every node from its initial value and
    the contributions of exactly its children. *)
Lemma reduce_spec acc0 order acc finished :
  children_first parents order → NoDup order → (∀ k, k ∈ order → is_Some (acc0 !! k)) →
  reduce acc0 order = Ok (acc, finished) →
  dom acc = dom acc0 ∧ (∀ x, is_Some (finished !! x) ↔ x ∈ order) ∧
  ∀ x v0, x ∈ order → acc0 !! x = Some v0 →
    ∃ v d, acc !! x = Some v ∧ finished !! x = Some d ∧ finish x v = Ok d ∧
      absorb_all finished v0 (filter (child_of x) order) = Some v.
Proof.
  intros Hcf Hnd Hdom Hr.
  destruct (reduce_invariant _ _ _ Hcf Hnd Hdom Hr) as (HI1 & HI2 & HI3).
  split_and!; [done..|]. intros x v0 Hx Hv0. destruct (HI3 x v0 Hv0) as (v & Hv & Ha & Hd).
  destruct (Hd Hx) as (d & Hd1 & Hd2). by exists v, d.
Qed.
End reduce.

(** Two reductions that finish every node alike, up to a map [g] on results
    that contributes the same, run in step. *)
Section simulation.
Context {E V D W : Type} (parents : gmap N (option N)).
Context (finish finish' : N → V → result E D) (contrib contrib' : N → D → option W).
Context (absorb : V → W → option V) (overflow : N → E) (g : D → D).
Hypothesis contrib_same : ∀ id d v,
  (contrib id d ≫= absorb v = contrib' id (g d) ≫= absorb v) ∧
  (contrib id d = None ↔ contrib' id (g d) = None).

Lemma reduce_step_other st id st' k :
  reduce_step parents finish contrib absorb overflow st id = Ok st' → k ≠ id → st'.2 !! k = st.2 !! k.
Proof.
  destruct st as [acc fin]. unfold reduce_step. intros Hs Hk.
  destruct (acc !! id); [|by simplify_eq]. apply rbind_ok in Hs as (d & _ & Hs).
  repeat case_match; simplify_eq; simpl; by rewrite lookup_insert_ne.
Qed.

Lemma reduce_other q st st' k :
  foldM (reduce_step parents finish contrib absorb overflow) st q = Ok st' → k ∉ q → st'.2 !! k = st.2 !! k.
Proof.
  revert st. induction q as [|id q IH]; intros st Hf Hk; simpl in Hf; [by simplify_eq|].
  apply rbind_ok in Hf as (st1 & H1 & Hf). apply not_elem_of_cons in Hk as [Hne Hk].
  rewrite (IH _ Hf Hk). by eapply reduce_step_other.
Qed.

Lemma reduce_simulation q acc fin acc' fin' :
  NoDup q →
  foldM (reduce_step parents finish contrib absorb overflow) (acc, fin) q = Ok (acc', fin') →
  (∀ id v d, id ∈ q → finish id v = Ok d → fin' !! id = Some d → finish' id v = Ok (g d)) →
  foldM (reduce_step parents finish' contrib' absorb overflow) (acc, g <$> fin) q = Ok (acc', g <$> fin').
Proof using contrib_same.
  revert acc fin. induction q as [|id q IH]; intros acc fin Hnd Hf Hfin; simpl in Hf; [by simplify_eq/=|].
  apply NoDup_cons in Hnd as [Hid Hnd]. apply rbind_ok in Hf as ([acc1 fin1] & H1 & Hf).
  pose proof (reduce_other _ _ _ _ Hf Hid) as Hsame. simpl in Hsame.
  assert (foldM (reduce_step parents finish' contrib' absorb overflow) (acc1, g <$> fin1) q =
    Ok (acc', g <$> fin')) as Hrest.
  { apply IH; [done..|]. intros; eapply Hfin; eauto. by right. }
  cbn [foldM]. rewrite <- Hrest. clear Hrest IH.
  enough (reduce_step parents finish' contrib' absorb overflow (acc, g <$> fin) id = Ok (acc1, g <$> fin1)) as -> by done.
  unfold reduce_step in *. destruct (acc !! id) as [v|]; [|by simplify_eq].
  apply rbind_ok in H1 as (d & Hd & H1).
  assert (fin1 = <[id := d]> fin) as -> by (repeat case_match; by simplify_eq).
  rewrite lookup_insert_eq in Hsame. rewrite (Hfin id v d) by (done || left). cbn [rbind].
  rewrite fmap_insert in *. destruct (parent_of parents id) as [p|]; [|by simplify_eq].
  assert (∀ v, (contrib id d ≫= absorb v = contrib' id (g d) ≫= absorb v)) as Hc by (intros; apply contrib_same).
  destruct (contrib_same id d v) as [_ Hn].
  destruct (contrib id d) as [w|], (contrib' id (g d)) as [w'|].
  - simpl in Hc. assert (acc !! p ≫= (λ v, absorb v w) = acc !! p ≫= (λ v, absorb v w')) as <-.
    { destruct (acc !! p); simpl; [apply Hc|done]. }
    destruct (acc !! p ≫= _); by simplify_eq.
  - by destruct Hn as [_ Hn]; specialize (Hn eq_refl).
  - by destruct Hn as [Hn _]; specialize (Hn eq_refl).
  - by simplify_eq.
Qed.
End simulation.

(** ** Totals over subtrees: the reference definition of a reduction *)

Section totals.
Context {V : Type} (op : V → V → V).

(** The total of a subtree, by recursion over the tree: the fuel bounds its
    height. *)
Fixpoint subtree_total (parents : gmap N (option N)) (own : N → V) (fuel : nat) (x : N) : V :=
  foldr op (own x)
    (match fuel with
     | O => []
     | S fuel' => map (subtree_total parents own fuel') (children_of parents x)
     end).

Context (Hassoc : ∀ a b c, op a (op b c) = op (op a b) c).
Context (Hcomm : ∀ a b, op a b = op b a).

Lemma foldr_op_perm v l1 l2 : l1 ≡ₚ l2 → foldr op v l1 = foldr op v l2.
Proof using Hassoc Hcomm.
  induction 1 as [|x k1 k2 _ IH|x y k|]; simpl; [done|by rewrite IH| |congruence].
  by rewrite !Hassoc, (Hcomm x y).
Qed.

Lemma foldl_op_foldr v l : foldl op v l = foldr op v l.
Proof using Hassoc Hcomm.
  revert v. induction l as [|x l IH]; intros v; simpl; [done|]. rewrite IH.
  clear IH. induction l as [|y l IHl]; simpl; [apply Hcomm|].
  rewrite IHl. by rewrite !Hassoc, (Hcomm x y).
Qed.

Context {E : Type}.
Variable parents : gmap N (option N).
Variable absorb : V → V → option V.
Variable overflow : N → E.
Hypothesis absorb_op : ∀ a b c, absorb a b = Some c → c = op a b.

Abbreviation pass_up := (λ (_ : N) (v : V), Some v).

Lemma absorb_all_total finished v cs v' ts :
  absorb_all pass_up absorb finished v cs = Some v' →
  Forall2 (λ c t, finished !! c = Some t) cs ts → v' = foldl op v ts.
Proof using absorb_op.
  revert v' ts. induction cs as [|c cs IH] using rev_ind; intros v' ts Ha Hf.
  - apply Forall2_nil_inv_l in Hf as ->. unfold absorb_all in Ha. simpl in Ha. by simplify_eq.
  - apply Forall2_app_inv_l in Hf as (ts1 & ts2 & H1 & H2 & ->).
    apply Forall2_cons_inv_l in H2 as (t & ts3 & Ht & H3 & ->). apply Forall2_nil_inv_l in H3 as ->.
    rewrite absorb_all_snoc in Ha. destruct (absorb_all _ _ _ v cs) as [u|] eqn:Eu; [|done].
    simpl in Ha. rewrite Ht in Ha. simpl in Ha. rewrite foldl_app. simpl.
    rewrite <- (IH u ts1 eq_refl H1). by apply absorb_op.
Qed.

Lemma children_perm order x :
  NoDup order → children_first parents order → x ∈ order →
  filter (child_of parents x) order ≡ₚ children_of parents x.
Proof.
  intros Hnd Hcf Hx. apply NoDup_Permutation; [by apply NoDup_filter|apply NoDup_children|].
  intros k. rewrite list_elem_of_filter, elem_of_children. unfold child_of.
  split; [by intros [? _]|]. intros Hk. split; [done|].
  apply list_elem_of_split in Hx as (p & q & ->). apply elem_of_app. left. by eapply Hcf.
Qed.

(** A reduction that passes each node's value up computes the subtree totals. *)
Lemma reduce_total own acc0 order acc finished :
  NoDup order → children_first parents order →
  (∀ x, x ∈ order → acc0 !! x = Some (own x)) →
  reduce parents (λ _ v, Ok v) pass_up absorb overflow acc0 order = Ok (acc, finished) →
  ∀ x, x ∈ order → ∀ fuel, length order ≤ fuel →
    acc !! x = Some (subtree_total parents own fuel x) ∧ finished !! x = acc !! x.
Proof using Hassoc Hcomm absorb_op.
  intros Hnd Hcf Hown Hr.
  destruct (reduce_spec parents _ _ _ _ _ _ _ _ Hcf Hnd ltac:(intros k Hk; rewrite Hown by done; eauto) Hr)
    as (_ & _ & Hspec).
  assert (∀ n x, order !! n = Some x → ∀ fuel, n ≤ fuel →
    acc !! x = Some (subtree_total parents own fuel x) ∧ finished !! x = acc !! x) as Hgo.
  { intros n. induction n as [n IH] using lt_wf_ind. intros x Hx fuel Hf.
    assert (x ∈ order) as Hin by (by eapply list_elem_of_lookup_2).
    destruct (Hspec x _ Hin (Hown x Hin)) as (v & d & Hv & Hd & Hfin & Ha). simplify_eq.
    split; [|by rewrite Hd, Hv]. rewrite Hv. f_equal.
    assert (∀ c, parents !! c = Some (Some x) → ∃ m, m < n ∧ order !! m = Some c) as Hearlier.
    { intros c Hc. apply list_elem_of_split_length in Hx as (l1 & l2 & Hsplit & Hlen).
      pose proof (Hcf _ _ _ _ Hsplit Hc) as Hcl. apply list_elem_of_lookup in Hcl as [m Hm].
      exists m. split; [rewrite Hlen; by eapply lookup_lt_Some|]. rewrite Hsplit. by apply lookup_app_l_Some. }
    destruct fuel as [|fuel].
    - assert (children_of parents x = []) as Hnil.
      { destruct (children_of parents x) as [|c l] eqn:Ech; [done|].
        assert (c ∈ children_of parents x) as (m & Hm & _)%elem_of_children%Hearlier by (rewrite Ech; left). lia. }
      pose proof (children_perm order x Hnd Hcf Hin) as Hp0. rewrite Hnil in Hp0. apply Permutation_nil_r in Hp0.
      rewrite Hp0 in Ha. unfold absorb_all in Ha. simpl in Ha. by simplify_eq.
    - simpl. rewrite <- (foldr_op_perm _ _ _ (fmap_Permutation (subtree_total parents own fuel) _ _ (children_perm order x Hnd Hcf Hin))).
      rewrite <- foldl_op_foldr. eapply absorb_all_total; [exact Ha|].
      apply Forall2_fmap_r, Forall_Forall2_diag. apply Forall_forall. intros c [Hc _]%list_elem_of_filter.
      destruct (Hearlier c Hc) as (m & Hm & Hcm). destruct (IH m Hm c Hcm fuel ltac:(lia)) as [H1 H2].
      by rewrite H2. }
  intros x Hx fuel Hf. apply list_elem_of_lookup in Hx as [n Hn].
  apply (Hgo n x Hn). apply lookup_lt_Some in Hn. lia.
Qed.

(** The loop that adds each node's value to its parent's, in order. *)
Definition pass_up_step (acc : gmap N V) (id : N) : result E (gmap N V) :=
  match parent_of parents id with
  | None => Ok acc
  | Some parent =>
      match acc !! id with
      | None => Ok acc
      | Some child =>
          match acc !! parent ≫= λ v, absorb v child with
          | None => Err (overflow parent)
          | Some v => Ok (<[parent := v]> acc)
          end
      end
  end.

Lemma pass_up_reduce order acc0 fin0 acc :
  (∀ k, k ∈ order → is_Some (acc0 !! k)) →
  foldM pass_up_step acc0 order = Ok acc →
  ∃ fin, foldM (reduce_step parents (λ _ v, Ok v) pass_up absorb overflow) (acc0, fin0) order = Ok (acc, fin).
Proof.
  revert acc0 fin0. induction order as [|id order IH]; intros acc0 fin0 Hin Hf; simpl in *; [simplify_eq; eauto|].
  destruct (Hin id ltac:(left)) as [v Hv]. unfold pass_up_step in Hf at 1. rewrite Hv in Hf |- *. simpl in *.
  destruct (parent_of parents id) as [p|]; simpl in *.
  - destruct (acc0 !! p ≫= _) as [w|] eqn:Ew; simpl in *; [|done]. apply IH; [|done].
    intros k Hk. rewrite lookup_insert_is_Some'. right. apply Hin. by right.
  - apply IH; [|done]. intros k Hk. apply Hin. by right.
Qed.

Lemma pass_up_total own acc0 order acc :
  NoDup order → children_first parents order →
  (∀ x, x ∈ order → acc0 !! x = Some (own x)) →
  foldM pass_up_step acc0 order = Ok acc →
  ∀ x, x ∈ order → ∀ fuel, length order ≤ fuel → acc !! x = Some (subtree_total parents own fuel x).
Proof using Hassoc Hcomm absorb_op.
  intros Hnd Hcf Hown Hf x Hx fuel Hfuel.
  destruct (pass_up_reduce order acc0 ∅ acc) as [fin Hr]; [intros k Hk; rewrite Hown; eauto|done|].
  by apply (reduce_total own _ _ _ _ Hnd Hcf Hown Hr).
Qed.

(** The loop only fails at a node whose total really overflows: the reported
    node's subtree total is a sum one of whose partial sums is not absorbed. *)
Lemma pass_up_overflow own acc0 order e :
  NoDup order → children_first parents order →
  (∀ x, is_Some (parents !! x) → acc0 !! x = Some (own x)) →
  (∀ k, k ∈ order → is_Some (parents !! k)) →
  (∀ c p, parents !! c = Some (Some p) → is_Some (parents !! p)) →
  foldM pass_up_step acc0 order = Err e →
  ∀ fuel, length order < fuel →
  ∃ p a t rest, e = overflow p ∧ is_Some (parents !! p) ∧ absorb a t = None ∧
    subtree_total parents own fuel p = foldr op (op a t) rest.
Proof using Hassoc Hcomm absorb_op.
  intros Hnd Hcf Hown Hin Hclosed Hf fuel Hfuel.
  apply foldM_Err in Hf as (l1 & c & l2 & acc1 & -> & Hok & Hstep).
  assert (NoDup l1) as Hnd1 by (by apply NoDup_app in Hnd as (? & _)).
  assert (children_first parents l1) as Hcf1.
  { intros p x q d Heq Hd. apply (Hcf p x (q ++ c :: l2)); [|done]. by rewrite Heq, <- app_assoc. }
  assert (∀ k, k ∈ l1 → is_Some (acc0 !! k)) as Hdom.
  { intros k Hk. rewrite Hown; [by eexists|]. apply Hin. set_solver. }
  destruct (pass_up_reduce l1 acc0 ∅ acc1 Hdom Hok) as [fin Hr].
  destruct (reduce_invariant parents _ _ _ _ _ _ _ Hcf1 Hnd1 Hdom Hr) as (_ & _ & Hinv). simpl in Hinv.
  assert (∀ x n, is_Some (parents !! x) → length l1 ≤ n → ∃ v, acc1 !! x = Some v ∧
    v = foldr op (own x) (map (subtree_total parents own n) (filter (child_of parents x) l1))) as Hpart.
  { intros x n Hx Hn. destruct (Hinv x _ (Hown x Hx)) as (v & Hv & Ha & _). exists v. split; [done|].
    rewrite <- foldl_op_foldr. eapply absorb_all_total; [exact Ha|].
    apply Forall2_fmap_r, Forall_Forall2_diag, Forall_forall. intros d [_ Hd]%list_elem_of_filter.
    destruct (reduce_total own _ _ _ _ Hnd1 Hcf1 ltac:(intros; apply Hown, Hin; set_solver) Hr d Hd n Hn) as [H1 H2].
    by rewrite H2. }
  rewrite length_app in Hfuel. simpl in Hfuel.
  unfold pass_up_step in Hstep. destruct (parent_of parents c) as [p|] eqn:Ep; [|done].
  apply parent_of_Some in Ep. destruct fuel as [|[|n]]; [lia..|].
  destruct (Hpart c n ltac:(eauto) ltac:(lia)) as (t & Ht & Htot).
  destruct (Hpart p (S n) ltac:(eauto) ltac:(lia)) as (a & Ha & Hatot).
  rewrite Ht, Ha in Hstep. simpl in Hstep. destruct (absorb a t) eqn:Hab; [done|]. simplify_eq.
  assert (filter (child_of parents c) l1 ≡ₚ children_of parents c) as Hc.
  { apply NoDup_Permutation; [by apply NoDup_filter|apply NoDup_children|].
    intros k. rewrite list_elem_of_filter, elem_of_children. unfold child_of.
    split; [by intros [? _]|]. intros Hk. split; [done|]. by eapply Hcf. }
  assert (filter (child_of parents p) l1 ++ [c] ⊆+ children_of parents p) as Hsub.
  { apply NoDup_submseteq.
    - apply NoDup_snoc; [by apply NoDup_filter|]. intros [_ Hc1]%list_elem_of_filter.
      apply NoDup_app in Hnd as (_ & Hd & _). apply (Hd c Hc1). left.
    - intros k. rewrite elem_of_snoc_iff, list_elem_of_filter, elem_of_children.
      intros [[? _]| ->]; done. }
  apply submseteq_Permutation in Hsub as [rest Hrest].
  eexists p, _, _, (map (subtree_total parents own (S n)) rest). split_and!; [done|eauto|exact Hab|].
  change (subtree_total parents own (S (S n)) p)
    with (foldr op (own p) (map (subtree_total parents own (S n)) (children_of parents p))).
  assert (children_of parents p ≡ₚ rest ++ c :: filter (child_of parents p) l1) as Hperm.
  { rewrite Hrest, (Permutation_app_comm _ rest). by rewrite (Permutation_app_comm _ [c]). }
  rewrite (foldr_op_perm _ _ _ (Permutation_map _ Hperm)), map_app, foldr_app. f_equal. simpl.
  by rewrite Hcomm, <- (foldr_op_perm _ _ _ (Permutation_map _ Hc)).
Qed.
End totals.

(** ** Inherited flags *)

(** [marks[id] = flag(id) || marks[parent]], parents first. *)
Definition mark_inherited (parents : gmap N (option N)) (flag : N → bool) (order : list N) : gmap N bool :=
  foldl (λ marks id,
    <[id := flag id || match parent_of parents id with
                       | Some parent => default false (marks !! parent)
                       | None => false
                       end]> marks) ∅ (reverse order).

(** The reference: follow the parents up; the fuel bounds the depth. *)
Fixpoint inherits (parents : gmap N (option N)) (flag : N → bool) (fuel : nat) (x : N) : bool :=
  flag x ||
  match fuel, parent_of parents x with
  | S fuel', Some p => inherits parents flag fuel' p
  | _, _ => false
  end.

(** A parent is listed after its child. *)
Lemma parent_after parents l1 a l2 p :
  children_first parents (l1 ++ a :: l2) → NoDup (l1 ++ a :: l2) →
  p ∈ l1 ++ a :: l2 → parents !! a = Some (Some p) → p ∈ l2.
Proof.
  intros Hcf Hnd Hp Ha.
  apply list_elem_of_split in Hp as (m1 & m2 & Heq).
  pose proof (Hcf _ _ _ _ Heq Ha) as Hin.
  apply list_elem_of_split in Hin as (n1 & n2 & ->).
  assert (l1 = n1 ∧ l2 = n2 ++ p :: m2) as [-> ->]; [|set_solver].
  rewrite <- app_assoc in Heq. simpl in Heq.
  revert Heq Hnd. clear. revert n1. induction l1 as [|b l1 IH]; intros [|c n1] Heq Hnd; simpl in *; injection Heq as; subst.
  - done.
  - apply NoDup_cons in Hnd as [Hnd _]. destruct Hnd. set_solver.
  - apply NoDup_cons in Hnd as [Hnd _]. destruct Hnd. set_solver.
  - apply NoDup_cons in Hnd as [_ Hnd]. by destruct (IH n1 ltac:(done) Hnd) as [-> ->].
Qed.

Lemma mark_inherited_spec parents flag order :
  NoDup order → children_first parents order →
  (∀ c p, c ∈ order → parents !! c = Some (Some p) → p ∈ order) →
  ∀ x fuel, x ∈ order → length order ≤ fuel →
    mark_inherited parents flag order !! x = Some (inherits parents flag fuel x).
Proof.
  intros Hnd Hcf Hclosed. unfold mark_inherited.
  enough (∀ l2 l1, order = l1 ++ l2 → ∀ x fuel, x ∈ l2 → length l2 ≤ fuel →
    foldl (λ marks id, <[id := flag id || match parent_of parents id with
        | Some parent => default false (marks !! parent) | None => false end]> marks) ∅ (reverse l2) !! x =
    Some (inherits parents flag fuel x)) as Hgo by (intros x fuel; by apply (Hgo order [])).
  induction l2 as [|a l2 IH]; intros l1 Heq x fuel Hx Hfuel; [by apply elem_of_nil in Hx|].
  assert (order = (l1 ++ [a]) ++ l2) as Heq' by (by rewrite <- app_assoc).
  specialize (IH _ Heq'). rewrite reverse_cons, foldl_app. simpl in *.
  apply elem_of_cons in Hx as [->|Hx].
  - rewrite lookup_insert_eq. destruct fuel as [|fuel]; [lia|]. simpl. do 2 f_equal.
    destruct (parent_of parents a) as [p|] eqn:Ep; [|done].
    apply parent_of_Some in Ep as Ep'. rewrite (IH p fuel); [done| |lia].
    subst order. eapply parent_after; [done..| |done]. eapply Hclosed; [|done]. set_solver.
  - rewrite lookup_insert_ne; [apply IH; [done|lia]|]. intros ->.
    rewrite Heq in Hnd. apply NoDup_app in Hnd as (_ & _ & Hnd). by apply NoDup_cons in Hnd as [? _].
Qed.

(** ** Stripping with a visit

    The [Vec]-based roll-up folds its accumulator while it strips; the result
    is the fold over the order the plain traversal produces. *)

Section strip_with.
Context {Q : Type} `{ReadyQueue Q} {S : Type}.
Variable parents : gmap N (option N).
Variable visit : S → N → S.

Fixpoint strip_with (fuel : nat) (remaining : gmap N N) (ready : Q) (s : S) : gmap N N * Q * S :=
  match fuel with
  | O => (remaining, ready, s)
  | Datatypes.S fuel' =>
      match rq_pop ready with
      | None => (remaining, ready, s)
      | Some (id, ready') =>
          let '(remaining', ready'') := strip_step parents id remaining ready' in
          strip_with fuel' remaining' ready'' (visit s id)
      end
  end.

Lemma strip_with_fold fuel remaining (ready : Q) order s0 :
  strip_with fuel remaining ready (foldl visit s0 order) =
  let '(remaining', ready', order') := strip parents fuel remaining ready order in
  (remaining', ready', foldl visit s0 order').
Proof.
  revert remaining ready order. induction fuel as [|fuel IH]; intros remaining ready order; simpl; [done|].
  destruct (rq_pop ready) as [[id ready']|]; [|done].
  destruct (strip_step parents id remaining ready') as [remaining' ready''].
  rewrite <- IH, foldl_app. done.
Qed.
End strip_with.

(** Counting in another order gives the same counts. *)
Lemma count_children_of_same parents ids counts :
  ids ≡ₚ keys parents → count_children_of parents ids = Ok counts → count_children parents = Ok counts.
Proof.
  intros Hp Hc. apply count_children_of_Ok in Hc as [Hc Hclosed]; [|done].
  destruct (count_children_total parents Hclosed) as [counts' Hc'].
  pose proof (proj1 (count_children_Ok _ _ Hc')) as Hc2.
  replace counts with counts'; [done|]. apply map_eq. intros k. by rewrite Hc, Hc2.
Qed.

(** ** Indexing nodes by identifier *)

Section index.
Context {A E : Type} `{TreeNode A}.
Variable before after : A → result E unit.
Variable duplicate : A → E.

(** [for item in items { before?; if map.insert(id, item).is_some() { duplicate } after? }] *)
Definition index_by (l : list A) : result E (gmap N A) :=
  foldM (λ by_id item,
    let? _ := before item in
    match by_id !! node_id item with
    | Some _ => Err (duplicate item)
    | None => let? _ := after item in Ok (<[node_id item := item]> by_id)
    end) ∅ l.

(** What a successful index holds. *)
Record indexed (l : list A) (by_id : gmap N A) : Prop := {
  ix_nodup : NoDup (node_id <$> l);
  ix_lookup k a : by_id !! k = Some a ↔ a ∈ l ∧ node_id a = k;
  ix_before a : a ∈ l → before a = Ok tt;
  ix_after a : a ∈ l → after a = Ok tt
}.

Lemma index_by_Ok l by_id : index_by l = Ok by_id → indexed l by_id.
Proof.
  apply (foldM_inv _ indexed).
  - split; simpl; [constructor|intros k a; rewrite lookup_empty|..]; set_solver.
  - intros p a q m m' _ [Hnd Hl Hb Ha] Hs.
    apply rbind_ok in Hs as ([] & Hba & Hs).
    destruct (m !! node_id a) as [?|] eqn:Em; [done|].
    apply rbind_ok in Hs as ([] & Haa & Hs). simplify_eq.
    assert (node_id a ∉ node_id <$> p) as Hfresh.
    { intros (a' & Heq & Hin)%list_elem_of_fmap. assert (m !! node_id a = Some a') as Hc by (by apply Hl). congruence. }
    split.
    + rewrite fmap_app. apply NoDup_snoc; done.
    + intros k b. rewrite elem_of_app, list_elem_of_singleton, lookup_insert.
      case_decide as Hk; [subst k|rewrite Hl; naive_solver].
      split; [intros; simplify_eq; auto|]. intros [[Hin| ->] Hid]; [|done].
      destruct Hfresh. apply list_elem_of_fmap. exists b. auto.
    + intros b [?| ->%list_elem_of_singleton]%elem_of_app; auto.
    + intros b [?| ->%list_elem_of_singleton]%elem_of_app; auto.
Qed.

(** Distinct identifiers and passing checks are all the index needs. *)
Lemma index_by_total l :
  NoDup (node_id <$> l) → (∀ a, a ∈ l → before a = Ok tt ∧ after a = Ok tt) →
  ∃ by_id, index_by l = Ok by_id.
Proof.
  unfold index_by. intros Hnd Hok.
  enough (∀ m : gmap N A, (∀ a, a ∈ l → m !! node_id a = None) → ∃ by_id, foldM (λ by_id item,
    let? _ := before item in
    match by_id !! node_id item with
    | Some _ => Err (duplicate item)
    | None => let? _ := after item in Ok (<[node_id item := item]> by_id)
    end) m l = Ok by_id) as Hgo by (apply Hgo; intros; apply lookup_empty).
  induction l as [|a l IH]; intros m Hm; simpl; [by eexists|].
  destruct (Hok a) as [-> Ha]; [left|]. simpl. rewrite Hm by left. rewrite Ha. simpl.
  rewrite fmap_cons in Hnd. apply NoDup_cons in Hnd as [Hnot Hnd]. apply IH; [done|set_solver|].
  intros b Hb. rewrite lookup_insert_ne; [apply Hm; by right|].
  intros Heq. destruct Hnot. rewrite Heq. apply list_elem_of_fmap. eauto.
Qed.

(** A failure is one of the checks of a listed item, or a repeated identifier. *)
Lemma index_by_Err l e :
  index_by l = Err e → ∃ a, a ∈ l ∧ (before a = Err e ∨ after a = Err e ∨
    (e = duplicate a ∧ ¬ NoDup (node_id <$> l))).
Proof.
  unfold index_by.
  enough (∀ q p (m : gmap N A), indexed p m → l = p ++ q → foldM (λ by_id item,
    let? _ := before item in
    match by_id !! node_id item with
    | Some _ => Err (duplicate item)
    | None => let? _ := after item in Ok (<[node_id item := item]> by_id)
    end) m q = Err e → ∃ a, a ∈ l ∧ (before a = Err e ∨ after a = Err e ∨
    (e = duplicate a ∧ ¬ NoDup (node_id <$> l)))) as Hgo.
  { apply (Hgo l []); [|done]. split; simpl; [constructor|intros k a; rewrite lookup_empty|..]; set_solver. }
  induction q as [|a q IH]; intros p m Hix -> Hf; simpl in Hf; [done|].
  assert (a ∈ p ++ a :: q) as Hin by set_solver.
  destruct (before a) as [[]|e'] eqn:Eb; simpl in Hf; [|simplify_eq; eauto].
  destruct (m !! node_id a) as [b|] eqn:Em; simpl in Hf.
  - simplify_eq. exists a. split; [done|]. right; right. split; [done|].
    apply (ix_lookup _ _ Hix) in Em as [Hb Hid].
    rewrite fmap_app, fmap_cons. intros (_ & Hd & _)%NoDup_app. apply (Hd (node_id a)); [|left].
    apply list_elem_of_fmap. eauto.
  - destruct (after a) as [[]|e'] eqn:Ea; simpl in Hf; [|simplify_eq; eauto].
    apply (IH (p ++ [a]) (<[node_id a := a]> m)); [|by rewrite <- app_assoc|done].
    apply index_by_Ok. unfold index_by. clear IH Hf Hin.
    assert (∃ m0, index_by p = Ok m0) as [m0 Hm0].
    { apply index_by_total; [apply Hix|]. intros x Hx. split; by apply Hix. }
    assert (m0 = m) as ->.
    { apply index_by_Ok in Hm0. apply map_eq. intros k. apply option_eq. intros x.
      by rewrite (ix_lookup _ _ Hm0), (ix_lookup _ _ Hix). }
    rewrite foldM_app. unfold index_by in Hm0. rewrite Hm0. simpl. by rewrite Eb, Em, Ea.
Qed.
End index.

(** ** Lists of nodes *)

Section nodes.
Context {A : Type} `{TreeNode A}.

(** The node with an identifier, and the parent links, of a list of nodes. *)
Definition find_node (l : list A) (id : N) : option A :=
  (list_to_map ((λ a, (node_id a, a)) <$> l) : gmap N A) !! id.

Definition forest_of (l : list A) : gmap N (option N) :=
  list_to_map ((λ a, (node_id a, node_parent a)) <$> l).

Lemma list_to_map_lookup {B} (g : A → B) (l : list A) k b :
  NoDup (node_id <$> l) →
  (list_to_map ((λ a, (node_id a, g a)) <$> l) : gmap N B) !! k = Some b ↔
  ∃ a, a ∈ l ∧ node_id a = k ∧ g a = b.
Proof.
  intros Hnd. rewrite <- elem_of_list_to_map.
  - rewrite list_elem_of_fmap. split; intros (a & Ha & Hb); exists a; naive_solver.
  - by rewrite <- list_fmap_compose.
Qed.

Lemma find_node_Some l k a : NoDup (node_id <$> l) → find_node l k = Some a ↔ a ∈ l ∧ node_id a = k.
Proof. intros Hnd. unfold find_node. rewrite (list_to_map_lookup (λ a, a)) by done. naive_solver. Qed.

Lemma forest_of_Some l k pp :
  NoDup (node_id <$> l) → forest_of l !! k = Some pp ↔ ∃ a, a ∈ l ∧ node_id a = k ∧ node_parent a = pp.
Proof. apply list_to_map_lookup. Qed.

Lemma forest_of_is_Some l k : is_Some (forest_of l !! k) ↔ k ∈ node_id <$> l.
Proof.
  unfold forest_of. rewrite <- elem_of_dom, dom_list_to_map, elem_of_list_to_set.
  by rewrite <- list_fmap_compose.
Qed.

Lemma length_keys_forest l : NoDup (node_id <$> l) → length (keys (forest_of l)) = length l.
Proof.
  intros Hnd. rewrite length_keys. unfold forest_of.
  rewrite <- size_dom, dom_list_to_map_L, <- list_fmap_compose.
  rewrite size_list_to_set by exact Hnd. apply length_fmap.
Qed.

Lemma indexed_find {E} {before after : A → result E unit} l by_id k :
  indexed before after l by_id → by_id !! k = find_node l k.
Proof.
  intros Hix. apply option_eq. intros a.
  rewrite (ix_lookup _ _ _ _ Hix), find_node_Some by apply Hix. done.
Qed.

Lemma indexed_parents {E} {before after : A → result E unit} l by_id :
  indexed before after l by_id → parents_map by_id = forest_of l.
Proof.
  intros Hix. apply map_eq. intros k. apply option_eq. intros pp. unfold parents_map.
  rewrite lookup_fmap_Some, forest_of_Some by apply Hix. split.
  - intros (a & Ha & Hk). apply (ix_lookup _ _ _ _ Hix) in Hk as [? ?]. eauto.
  - intros (a & Ha & Hk & Hp). exists a. split; [done|]. by apply (ix_lookup _ _ _ _ Hix).
Qed.
End nodes.
