(* ===== verification/Platform.v ===== *)
(** * Platform: what the core crate takes from other crates

    The core uses the [time] crate for instants and the [uuid] crate for
    identifiers.  Neither is part of the repository, so what they compute is an
    argument of the model: the class [Platform] lists the functions the core
    calls, [PlatformLaws] the documented facts the theorems rely on, and
    [utc_platform] is one concrete instance used to evaluate witnesses.

    An instant carries, as [time::OffsetDateTime] does, the instant itself and
    the offset it is displayed in; equality and order look at the instant only.
    A [time::Duration] is its signed number of nanoseconds, and an identifier is
    its 128-bit number (the nil identifier is 0, and the order of [Uuid] is the
    order of these numbers). *)
From S2P Require Import Prelude.

(** ** Identifiers *)

Abbreviation Uuid := N (only parsing).
Abbreviation ItemId := N (only parsing).
Abbreviation OccurrenceId := N (only parsing).

Definition is_nil (id : Uuid) : bool := (id =? 0)%N.

(** ** Instants and durations *)

Record OffsetDateTime : Type := {
  unix_nanos : Z;
  utc_offset : Z
}.

Coercion unix_nanos : OffsetDateTime >-> Z.

Abbreviation Duration := Z (only parsing).
(** A calendar date, as its day number. *)
Abbreviation Date := Z (only parsing).

Definition nanos_per_second : Z := 1000000000.
Definition nanos_per_minute : Z := 60000000000.

Definition odt_ltb (a b : OffsetDateTime) : bool := (a <? b)%Z.
Definition odt_leb (a b : OffsetDateTime) : bool := (a <=? b)%Z.
Definition odt_eqb (a b : OffsetDateTime) : bool := (a =? b)%Z.
Definition odt_cmp (a b : OffsetDateTime) : comparison := (a ?= b)%Z.

(** [Ord::max] returns its second argument on a tie, [Ord::min] its first. *)
Definition odt_max (a b : OffsetDateTime) : OffsetDateTime := if odt_ltb b a then a else b.
Definition odt_min (a b : OffsetDateTime) : OffsetDateTime := if odt_ltb b a then b else a.

Definition duration_between (later earlier : OffsetDateTime) : Duration := (later - earlier)%Z.
Definition duration_minutes (m : N) : Duration := (Z.of_N m * nanos_per_minute)%Z.
Definition duration_seconds (s : Z) : Duration := (s * nanos_per_second)%Z.
(** [whole_seconds] and [whole_minutes] truncate toward zero. *)
Definition whole_seconds (d : Duration) : Z := Z.quot d nanos_per_second.
Definition whole_minutes (d : Duration) : Z := Z.quot d nanos_per_minute.

(** [unix_timestamp] rounds down, [nanosecond] is what it leaves. *)
Definition unix_timestamp (t : OffsetDateTime) : Z := (t / nanos_per_second)%Z.
Definition nanosecond (t : OffsetDateTime) : Z := (t mod nanos_per_second)%Z.

Module Weekday.
Inductive Weekday : Type :=
| Monday | Tuesday | Wednesday | Thursday | Friday | Saturday | Sunday.
End Weekday.
Abbreviation Weekday := Weekday.Weekday.

Definition number_days_from_monday (w : Weekday) : Z :=
  match w with
  | Weekday.Monday => 0 | Weekday.Tuesday => 1 | Weekday.Wednesday => 2 | Weekday.Thursday => 3
  | Weekday.Friday => 4 | Weekday.Saturday => 5 | Weekday.Sunday => 6
  end.

(** ** The functions of the two crates *)

Class Platform : Type := {
  (** [OffsetDateTime::checked_add] and [checked_sub]: [None] outside the
      representable range of years *)
  odt_checked_add : OffsetDateTime → Duration → option OffsetDateTime;
  odt_checked_sub : OffsetDateTime → Duration → option OffsetDateTime;
  (** calendar fields in the stored offset *)
  odt_date : OffsetDateTime → Date;
  odt_weekday : OffsetDateTime → Weekday;
  odt_hour : OffsetDateTime → N;
  odt_minute : OffsetDateTime → N;
  (** [Date::checked_sub] of whole days, and [Date::MIN] *)
  date_checked_sub_days : Date → Z → option Date;
  date_min : Date;
  (** [Uuid::new_v5] over a namespace and a byte string *)
  uuid_new_v5 : Uuid → list N → Uuid;
  (** [Display] and [Debug] of [Uuid] *)
  uuid_display : Uuid → string;
  uuid_debug : Uuid → string
}.

Class PlatformLaws `{Platform} : Prop := {
  checked_add_exact t d t' : odt_checked_add t d = Some t' →
    unix_nanos t' = (unix_nanos t + d)%Z ∧ utc_offset t' = utc_offset t;
  checked_sub_exact t d t' : odt_checked_sub t d = Some t' →
    unix_nanos t' = (unix_nanos t - d)%Z ∧ utc_offset t' = utc_offset t;
  (** the representable range of an offset is an interval *)
  checked_add_between t1 t2 t d1 d2 d :
    is_Some (odt_checked_add t1 d1) → is_Some (odt_checked_add t2 d2) → utc_offset t1 = utc_offset t → utc_offset t2 = utc_offset t →
    (unix_nanos t1 + d1 <= unix_nanos t + d <= unix_nanos t2 + d2)%Z → is_Some (odt_checked_add t d);
  checked_sub_is_add t d : is_Some (odt_checked_sub t d) ↔ is_Some (odt_checked_add t (- d));
  hour_range t : (odt_hour t < 24)%N;
  minute_range t : (odt_minute t < 60)%N
}.

(** ** Lemmas *)

Lemma checked_add_convex `{PlatformLaws} t d1 d2 d :
  is_Some (odt_checked_add t d1) → is_Some (odt_checked_add t d2) → (d1 <= d <= d2)%Z → is_Some (odt_checked_add t d).
Proof. intros H1 H2 Hd. apply (checked_add_between t t t d1 d2 d); [done..|lia]. Qed.

Lemma odt_ltb_lt a b : odt_ltb a b = true ↔ (a < b)%Z.
Proof. unfold odt_ltb. apply Z.ltb_lt. Qed.

Lemma odt_ltb_ge a b : odt_ltb a b = false ↔ (b <= a)%Z.
Proof. unfold odt_ltb. apply Z.ltb_ge. Qed.

Lemma odt_leb_le a b : odt_leb a b = true ↔ (a <= b)%Z.
Proof. unfold odt_leb. apply Z.leb_le. Qed.

Lemma odt_leb_gt a b : odt_leb a b = false ↔ (b < a)%Z.
Proof. unfold odt_leb. apply Z.leb_gt. Qed.

Lemma odt_eqb_eq a b : odt_eqb a b = true ↔ unix_nanos a = unix_nanos b.
Proof. unfold odt_eqb. apply Z.eqb_eq. Qed.

Lemma unix_nanos_max a b : unix_nanos (odt_max a b) = Z.max a b.
Proof. unfold odt_max. destruct (odt_ltb b a) eqn:E; [apply odt_ltb_lt in E|apply odt_ltb_ge in E]; lia. Qed.

Lemma unix_nanos_min a b : unix_nanos (odt_min a b) = Z.min a b.
Proof. unfold odt_min. destruct (odt_ltb b a) eqn:E; [apply odt_ltb_lt in E|apply odt_ltb_ge in E]; lia. Qed.

#[export] Instance instant_le_preorder : PreOrder (λ a b : OffsetDateTime, (a <= b)%Z).
Proof. split; intros ?; intros; lia. Qed.

Lemma odt_max_by_spec l m : max_by odt_cmp l = Some m → m ∈ l ∧ ∀ x, x ∈ l → (unix_nanos x <= unix_nanos m)%Z.
Proof.
  apply (max_by_spec odt_cmp (λ a b, a <= b)%Z);
    intros a b; unfold odt_cmp; destruct (Z.compare_spec a b); simpl; intros ?; try done; lia.
Qed.

Lemma odt_min_by_spec l m : min_by odt_cmp l = Some m → m ∈ l ∧ ∀ x, x ∈ l → (unix_nanos m <= unix_nanos x)%Z.
Proof.
  apply (min_by_spec odt_cmp (λ a b, a <= b)%Z);
    intros a b; unfold odt_cmp; destruct (Z.compare_spec a b); simpl; intros ?; try done; lia.
Qed.

Lemma lawful_odt {A} (f : A → OffsetDateTime) : lawful (λ a b, odt_cmp (f a) (f b)).
Proof. unfold odt_cmp. apply (lawful_contramap (λ a, unix_nanos (f a))), lawful_Z. Qed.

(** Turns the instant comparisons of the code into arithmetic facts. *)
Ltac instants :=
  repeat match goal with
  | H : odt_ltb _ _ = true |- _ => apply odt_ltb_lt in H
  | H : odt_ltb _ _ = false |- _ => apply odt_ltb_ge in H
  | H : odt_leb _ _ = true |- _ => apply odt_leb_le in H
  | H : odt_leb _ _ = false |- _ => apply odt_leb_gt in H
  | H : odt_eqb _ _ = true |- _ => apply odt_eqb_eq in H
  end;
  rewrite ?unix_nanos_max, ?unix_nanos_min in *.

#[export] Instance OffsetDateTime_eq_dec : EqDecision OffsetDateTime.
Proof. solve_decision. Defined.

#[export] Instance Weekday_eq_dec : EqDecision Weekday.
Proof. solve_decision. Defined.

(** ** A concrete platform

    Instants are representable when their nanosecond count fits 96 bits;
    calendar fields are the proleptic day number and time of day of the stored
    offset, and day 0 (1970-01-01) is a Thursday.  Identifiers derived from
    names are spread by a fixed polynomial; no theorem depends on it. *)

Definition in_range (n : Z) : bool := (- 2 ^ 95 <=? n)%Z && (n <? 2 ^ 95)%Z.

Definition shifted (t : OffsetDateTime) (n : Z) : option OffsetDateTime :=
  if in_range n then Some {| unix_nanos := n; utc_offset := utc_offset t |} else None.

Definition local_seconds (t : OffsetDateTime) : Z := (unix_timestamp t + utc_offset t)%Z.

Definition weekday_of_day (day : Z) : Weekday :=
  match ((day + 3) mod 7)%Z with
  | 0 => Weekday.Monday | 1 => Weekday.Tuesday | 2 => Weekday.Wednesday | 3 => Weekday.Thursday
  | 4 => Weekday.Friday | 5 => Weekday.Saturday | _ => Weekday.Sunday
  end%Z.

Definition utc_platform : Platform := {|
  odt_checked_add t d := shifted t (t + d);
  odt_checked_sub t d := shifted t (t - d);
  odt_date t := (local_seconds t / 86400)%Z;
  odt_weekday t := weekday_of_day (local_seconds t / 86400);
  odt_hour t := Z.to_N ((local_seconds t mod 86400) / 3600);
  odt_minute t := Z.to_N ((local_seconds t mod 3600) / 60);
  date_checked_sub_days d n := if ((d - n <=? 2932896) && (-4371587 <=? d - n))%Z then Some (d - n)%Z else None;
  date_min := (-4371587)%Z;
  uuid_new_v5 ns name := ((foldl (λ h b, (h * 257 + b + 1) mod 2 ^ 128) ns name) + 1)%N;
  uuid_display _ := EmptyString;
  uuid_debug _ := EmptyString
|}.

#[export] Instance utc_platform_laws : @PlatformLaws utc_platform.
Proof.
  split; simpl; unfold shifted, in_range.
  - intros t d t'. case_match; intros; by simplify_eq.
  - intros t d t'. case_match; intros; by simplify_eq.
  - intros t1 t2 t d1 d2 d [u1 H1] [u2 H2] _ _ Hd.
    destruct (_ && _) eqn:E1 in H1; [|done]. destruct (_ && _) eqn:E2 in H2; [|done].
    bool_to_prop. destruct (_ && _) eqn:E; [by eexists|].
    apply andb_false_iff in E as [E|E]; bool_to_prop; lia.
  - intros t d. rewrite Z.add_opp_r. by destruct (_ && _).
  - intros t. pose proof (Z.mod_pos_bound (local_seconds t) 86400).
    pose proof (Z.div_lt_upper_bound (local_seconds t mod 86400) 3600 24).
    pose proof (Z.div_pos (local_seconds t mod 86400) 3600). lia.
  - intros t. pose proof (Z.mod_pos_bound (local_seconds t) 3600).
    pose proof (Z.div_lt_upper_bound (local_seconds t mod 3600) 60 60).
    pose proof (Z.div_pos (local_seconds t mod 3600) 60). lia.
Qed.
