(* ===== verification/Civil.v ===== *)
(** * Civil: the calendar of the crate [time]

    The recurrence code computes with calendar dates, month lengths, Julian day
    numbers, midnights and scaled durations.  They are functions of the crate
    [time], and the class [Civil] lists them; [CivilLaws] states what its
    documentation promises (the proleptic Gregorian calendar between the years
    -9999 and 9999).  A date is its day number, day 0 being 1970-01-01.

    [gregorian] is a concrete instance, with the laws proved for every day by a
    check of one 400-year cycle. *)
From S2P Require Import Prelude Text Tokens Platform.

(** [lia] reads quotients and remainders by constants. *)
#[local] Ltac Zify.zify_post_hook ::= Z.to_euclidean_division_equations.

(** ** The functions of the crate *)

Class Civil : Type := {
  (** [Date::year], [Date::month] as its number, [Date::day] *)
  civil_of_date : Date → Z * N * N;
  (** [Date::from_calendar_date] *)
  date_of_civil : Z → N → N → option Date;
  (** [Month::length] *)
  month_length : N → Z → N;
  (** [Date::checked_add] of whole days, [Date::next_day], [Date::MAX] *)
  date_checked_add_days : Date → Z → option Date;
  date_next_day : Date → option Date;
  date_max : Date;
  (** [Date::to_julian_day] and [Date::from_julian_day] *)
  to_julian_day : Date → Z;
  from_julian_day : Z → option Date;
  (** [Date::weekday] *)
  date_weekday : Date → Weekday;
  (** [date.with_hms(0, 0, 0)] assumed at an offset *)
  midnight_at : Date → Z → OffsetDateTime;
  (** [Duration::checked_mul] and [Duration::checked_div] by an [i32] *)
  duration_checked_mul : Duration → Z → option Duration;
  duration_checked_div : Duration → Z → option Duration;
  (** [Display] of [Date] *)
  date_display : Date → string;
  (** [Uuid::get_version_num] *)
  uuid_version : Uuid → N
}.

Definition date_year `{Civil} (d : Date) : Z := (civil_of_date d).1.1.
Definition date_month `{Civil} (d : Date) : N := (civil_of_date d).1.2.
Definition date_day `{Civil} (d : Date) : N := (civil_of_date d).2.

Class CivilLaws `{Platform, Civil} : Prop := {
  civil_of_exact y m d t : date_of_civil y m d = Some t → civil_of_date t = (y, m, d);
  date_of_range y m d t : date_of_civil y m d = Some t →
    (-9999 <= y <= 9999)%Z ∧ (1 <= m <= 12)%N ∧ (1 <= d <= 31)%N ∧ (date_min <= t <= date_max)%Z;
  date_of_civil_next y m d t t' : date_of_civil y m d = Some t → date_of_civil y m (d + 1) = Some t' → t' = (t + 1)%Z;
  date_of_civil_iff y m d : is_Some (date_of_civil y m d) ↔
    (-9999 <= y <= 9999)%Z ∧ (1 <= m <= 12)%N ∧ (1 <= d <= month_length m y)%N;
  date_of_civil_of d : (date_min <= d <= date_max)%Z →
    date_of_civil (civil_of_date d).1.1 (civil_of_date d).1.2 (civil_of_date d).2 = Some d;
  next_month y m t t' : date_of_civil y m (month_length m y) = Some t →
    date_of_civil (if (m =? 12)%N then y + 1 else y)%Z (if (m =? 12)%N then 1 else m + 1)%N 1 = Some t' → t' = (t + 1)%Z;
  month_length_range m y : (28 <= month_length m y <= 31)%N;
  add_days_exact d n d' : date_checked_add_days d n = Some d' → d' = (d + n)%Z ∧ (date_min <= d' <= date_max)%Z;
  add_days_in_range d n : (date_min <= d + n <= date_max)%Z → is_Some (date_checked_add_days d n);
  sub_days_exact d n : date_checked_sub_days d n = date_checked_add_days d (- n);
  next_day_exact d : date_next_day d = date_checked_add_days d 1;
  julian_exact d d' : (to_julian_day d' - to_julian_day d)%Z = (d' - d)%Z;
  from_julian_exact j d : from_julian_day j = Some d → to_julian_day d = j ∧ (- 2 ^ 31 <= j < 2 ^ 31)%Z;
  date_weekday_exact d : number_days_from_monday (date_weekday d) = ((d + 3) mod 7)%Z;
  midnight_exact d offset : unix_nanos (midnight_at d offset) = ((d * 86400 - offset) * nanos_per_second)%Z ∧
    utc_offset (midnight_at d offset) = offset;
  mul_exact d k d' : duration_checked_mul d k = Some d' → d' = (d * k)%Z;
  div_exact d k d' : duration_checked_div d k = Some d' → k ≠ 0%Z ∧ d' = Z.quot d k;
  mul_below d k : (Z.abs (d * k) < 2 ^ 63 * nanos_per_second)%Z → is_Some (duration_checked_mul d k);
  div_below d k : (0 < k)%Z → (Z.abs d < 2 ^ 63 * nanos_per_second)%Z → is_Some (duration_checked_div d k);
  uuid_v5_version namespace name : uuid_version (uuid_new_v5 namespace name) = 5%N;
  odt_date_exact t : odt_date t = ((unix_timestamp t + utc_offset t) / 86400)%Z
}.

Lemma add_days_below `{CivilLaws} d n :
  (date_min <= d)%Z → (0 <= n)%Z → (d + n <= date_max)%Z → is_Some (date_checked_add_days d n).
Proof. intros. apply add_days_in_range. lia. Qed.

(** ** The Gregorian calendar *)

Definition is_leap (y : Z) : bool :=
  (y mod 4 =? 0)%Z && (negb (y mod 100 =? 0)%Z || (y mod 400 =? 0)%Z).

Definition gregorian_month_length (m : N) (y : Z) : N :=
  match m with
  | 2 => if is_leap y then 29 else 28
  | 4 | 6 | 9 | 11 => 30
  | _ => 31
  end%N.

(** Years counted from March put the leap day at the end: the days before a
    month, and before a year of the 400-year cycle. *)
Definition days_before_month (mp : Z) : Z := ((153 * mp + 2) / 5)%Z.
Definition days_before_year (yoe : Z) : Z := (yoe * 365 + yoe / 4 - yoe / 100)%Z.

Definition day_of_civil (y : Z) (m d : N) : Z :=
  let y' := if (m <=? 2)%N then (y - 1)%Z else y in
  let mp := ((Z.of_N m + 9) mod 12)%Z in
  (y' / 400 * 146097 + days_before_year (y' mod 400) + days_before_month mp + Z.of_N d - 1 - 719468)%Z.

(** The inverse peels off the cycle, the century, the four years and the year;
    the last day of a cycle, or of four years, stays in the last part. *)
Definition civil_of_day (z : Z) : Z * N * N :=
  let era := ((z + 719468) / 146097)%Z in
  let doe := ((z + 719468) mod 146097)%Z in
  let c := Z.min 3 (doe / 36524) in
  let doc := (doe - c * 36524)%Z in
  let q := (doc / 1461)%Z in
  let doq := (doc - q * 1461)%Z in
  let a := Z.min 3 (doq / 365) in
  let doy := (doq - a * 365)%Z in
  let mp := ((5 * doy + 2) / 153)%Z in
  let m := if (mp <? 10)%Z then (mp + 3)%Z else (mp - 9)%Z in
  ((era * 400 + c * 100 + q * 4 + a + if (mp <? 10)%Z then 0 else 1)%Z, Z.to_N m, Z.to_N (doy - days_before_month mp + 1)).

Definition valid_civil (y : Z) (m d : N) : bool :=
  (-9999 <=? y)%Z && (y <=? 9999)%Z && (1 <=? m)%N && (m <=? 12)%N && (1 <=? d)%N && (d <=? gregorian_month_length m y)%N.

Definition gregorian_max : Z := Eval compute in day_of_civil 9999 12 31.

Definition julian_of_epoch : Z := 2440588.

(** The range of [Duration]: an [i64] of seconds. *)
Definition in_duration_range (n : Z) : bool := (- 2 ^ 63 * nanos_per_second <=? n)%Z && (n <? 2 ^ 63 * nanos_per_second)%Z.

Lemma gregorian_month_length_range m y : (28 <= gregorian_month_length m y <= 31)%N.
Proof. unfold gregorian_month_length. repeat case_match; lia. Qed.

Lemma valid_civil_iff y m d :
  valid_civil y m d = true ↔ (-9999 <= y <= 9999)%Z ∧ (1 <= m <= 12)%N ∧ (1 <= d <= gregorian_month_length m y)%N.
Proof. unfold valid_civil. rewrite !andb_true_iff, !Z.leb_le, !N.leb_le. tauto. Qed.

(** A year of the cycle by century, four years and year. *)
Lemma year_parts y : ∃ era c q a, (y = era * 400 + c * 100 + q * 4 + a)%Z ∧
  (0 <= c <= 3)%Z ∧ (0 <= q <= 24)%Z ∧ (0 <= a <= 3)%Z.
Proof.
  set (r := (y mod 400)%Z). exists (y / 400)%Z, (r / 100)%Z, ((r mod 100) / 4)%Z, ((r mod 100) mod 4)%Z.
  assert (0 <= r < 400 ∧ y = y / 400 * 400 + r)%Z by (subst r; lia). split_and!; lia.
Qed.

Lemma day_of_year_parts era c q a :
  (0 <= c <= 3)%Z → (0 <= q <= 24)%Z → (0 <= a <= 3)%Z →
  let y := (era * 400 + c * 100 + q * 4 + a)%Z in
  (y / 400 * 146097 + days_before_year (y mod 400) = era * 146097 + c * 36524 + q * 1461 + a * 365)%Z.
Proof.
  intros Hc Hq Ha y. unfold days_before_year. set (r := (c * 100 + q * 4 + a)%Z).
  assert (y / 400 = era ∧ y mod 400 = r)%Z as [-> ->] by (subst y r; lia).
  assert (r / 4 = c * 25 + q ∧ r / 100 = c)%Z as [-> ->] by (subst r; lia). subst r. lia.
Qed.

(** The day of the year, counted from March, is below 365, or it is the leap
    day, which only the last year of a four-year and century part has. *)
Lemma day_of_year_bound era c q a mp d :
  (0 <= c <= 3)%Z → (0 <= q <= 24)%Z → (0 <= a <= 3)%Z → (0 <= mp < 12)%Z →
  let y := (era * 400 + c * 100 + q * 4 + a + if mp <? 10 then 0 else 1)%Z in
  let m := (if mp <? 10 then mp + 3 else mp - 9)%Z in
  (1 <= d <= Z.of_N (gregorian_month_length (Z.to_N m) y))%Z →
  let doy := (days_before_month mp + d - 1)%Z in
  (0 <= doy)%Z ∧ ((5 * doy + 2) / 153 = mp)%Z ∧
  ((doy < 365)%Z ∨ doy = 365%Z ∧ a = 3%Z ∧ (q = 24%Z → c = 3%Z)).
Proof.
  intros Hc Hq Ha Hmp y m Hd doy. unfold days_before_month in doy.
  assert (mp = 0 ∨ mp = 1 ∨ mp = 2 ∨ mp = 3 ∨ mp = 4 ∨ mp = 5 ∨ mp = 6 ∨ mp = 7 ∨ mp = 8 ∨ mp = 9 ∨ mp = 10 ∨ mp = 11)%Z as Hcases by lia.
  destruct_or! Hcases; subst mp; subst m doy; cbn [Z.ltb Z.compare Pos.compare Pos.compare_cont] in *; cbn -[Z.mul Z.add Z.div gregorian_month_length] in Hd.
  12:{ unfold gregorian_month_length, is_leap in Hd. simpl in Hd. subst y.
       destruct (Z.eqb_spec ((era * 400 + c * 100 + q * 4 + a + 1) mod 4) 0), (Z.eqb_spec ((era * 400 + c * 100 + q * 4 + a + 1) mod 100) 0),
         (Z.eqb_spec ((era * 400 + c * 100 + q * 4 + a + 1) mod 400) 0); simpl in Hd; lia. }
  all: unfold gregorian_month_length in Hd; simpl in Hd; lia.
Qed.

Lemma civil_of_parts era c q a mp d :
  (0 <= c <= 3)%Z → (0 <= q <= 24)%Z → (0 <= a <= 3)%Z → (0 <= mp < 12)%Z →
  let y := (era * 400 + c * 100 + q * 4 + a + if mp <? 10 then 0 else 1)%Z in
  let m := (if mp <? 10 then mp + 3 else mp - 9)%Z in
  (1 <= d <= Z.of_N (gregorian_month_length (Z.to_N m) y))%Z →
  civil_of_day (era * 146097 + c * 36524 + q * 1461 + a * 365 + days_before_month mp + d - 1 - 719468)%Z =
    (y, Z.to_N m, Z.to_N d).
Proof.
  intros Hc Hq Ha Hmp y m Hd.
  destruct (day_of_year_bound era c q a mp d Hc Hq Ha Hmp Hd) as (H0 & Hmonth & Hlast).
  set (doy := (days_before_month mp + d - 1)%Z) in *. unfold civil_of_day.
  set (z := (_ - 719468 + 719468)%Z).
  assert (z = era * 146097 + (c * 36524 + q * 1461 + a * 365 + doy))%Z as Hz by (subst z doy; lia).
  set (doe := (c * 36524 + q * 1461 + a * 365 + doy)%Z) in *.
  assert (0 <= doe < 146097)%Z by (subst doe; lia).
  assert (z / 146097 = era ∧ z mod 146097 = doe)%Z as [-> ->] by (rewrite Hz; lia).
  assert (Z.min 3 (doe / 36524) = c) as -> by (subst doe; lia).
  assert ((doe - c * 36524) / 1461 = q)%Z as -> by (subst doe; lia).
  assert (Z.min 3 ((doe - c * 36524 - q * 1461) / 365) = a) as -> by (subst doe; lia).
  assert (doe - c * 36524 - q * 1461 - a * 365 = doy)%Z as -> by (subst doe; lia).
  rewrite Hmonth. fold y m. f_equal. subst doy. f_equal. lia.
Qed.

Lemma civil_of_day_of_civil y m d :
  (1 <= m <= 12)%N → (1 <= d <= gregorian_month_length m y)%N → civil_of_day (day_of_civil y m d) = (y, m, d).
Proof.
  intros Hm Hd. set (y' := if (m <=? 2)%N then (y - 1)%Z else y). set (mp := ((Z.of_N m + 9) mod 12)%Z).
  assert (0 <= mp < 12)%Z by (unfold mp; lia).
  assert (Z.of_N m = if (mp <? 10)%Z then mp + 3 else mp - 9)%Z as Hmp.
  { unfold mp. destruct (Z.ltb_spec ((Z.of_N m + 9) mod 12) 10); lia. }
  assert (y = y' + if (mp <? 10)%Z then 0 else 1)%Z as Hy.
  { unfold y'. revert Hmp. destruct (Z.ltb_spec mp 10); destruct (N.leb_spec m 2); lia. }
  destruct (year_parts y') as (era & c & q & a & Hparts & Hc & Hq & Ha). rewrite Hparts in Hy.
  assert (day_of_civil y m d =
    (era * 146097 + c * 36524 + q * 1461 + a * 365 + days_before_month mp + Z.of_N d - 1 - 719468)%Z) as ->.
  { unfold day_of_civil. fold y' mp. rewrite Hparts, day_of_year_parts by done. lia. }
  rewrite civil_of_parts; [|done..|]; rewrite <- Hy, <- Hmp, ?N2Z.id; [done|lia].
Qed.

Lemma day_of_civil_min y m d :
  (-9999 <= y)%Z → (1 <= m <= 12)%N → (1 <= d)%N → (-4371587 <= day_of_civil y m d)%Z.
Proof.
  intros Hy Hm Hd. unfold day_of_civil, days_before_month.
  set (y' := if (m <=? 2)%N then (y - 1)%Z else y). set (mp := ((Z.of_N m + 9) mod 12)%Z).
  assert (-9999 <= y' ∨ y' = -10000 ∧ 10 <= mp)%Z as Hfirst by (unfold y', mp; destruct (N.leb_spec m 2); lia).
  assert (0 <= mp < 12)%Z by (unfold mp; lia). clearbody y' mp. unfold days_before_year. lia.
Qed.

Lemma day_of_civil_max y m d :
  (-9999 <= y <= 9999)%Z → (1 <= m <= 12)%N → (1 <= d <= gregorian_month_length m y)%N → (day_of_civil y m d <= gregorian_max)%Z.
Proof.
  intros Hy Hm Hd. pose proof (gregorian_month_length_range m y). unfold day_of_civil, gregorian_max, days_before_month.
  set (y' := if (m <=? 2)%N then (y - 1)%Z else y). set (mp := ((Z.of_N m + 9) mod 12)%Z).
  assert (y' <= 9998 ∨ y' = 9999 ∧ mp <= 9)%Z as Hlast by (unfold y', mp; destruct (N.leb_spec m 2); lia).
  assert (0 <= mp < 12)%Z by (unfold mp; lia). clearbody y' mp.
  destruct (year_parts y') as (era & c & q & a & -> & Hc & Hq & Ha). rewrite day_of_year_parts by done. lia.
Qed.

(** The day after the last of a month is the first of the next. *)
Lemma day_of_next_month y m :
  (1 <= m <= 12)%N →
  day_of_civil (if (m =? 12)%N then y + 1 else y)%Z (if (m =? 12)%N then 1 else m + 1)%N 1 =
  (day_of_civil y m (gregorian_month_length m y) + 1)%Z.
Proof.
  intros Hm. assert (∀ y, (y / 400 * 146097 + days_before_year (y mod 400) = y * 365 + y / 4 - y / 100 + y / 400)%Z) as Hyear.
  { clear. intros y. destruct (year_parts y) as (era & c & q & a & -> & ? & ? & ?). rewrite day_of_year_parts by done. lia. }
  unfold day_of_civil. rewrite !Hyear. unfold days_before_month.
  assert (m = 1 ∨ m = 2 ∨ m = 3 ∨ m = 4 ∨ m = 5 ∨ m = 6 ∨ m = 7 ∨ m = 8 ∨ m = 9 ∨ m = 10 ∨ m = 11 ∨ m = 12)%N as Hc by lia.
  destruct_or! Hc; subst m; cbn -[Z.mul Z.add Z.div Z.sub N.add gregorian_month_length]; unfold gregorian_month_length;
    repeat match goal with |- context [(?a <=? ?b)%N] => let v := eval vm_compute in (a <=? b)%N in change (a <=? b)%N with v end;
    cbn -[Z.mul Z.add Z.div Z.sub N.add is_leap]; try lia.
  unfold is_leap. destruct (Z.eqb_spec (y mod 4) 0), (Z.eqb_spec (y mod 100) 0), (Z.eqb_spec (y mod 400) 0); simpl; lia.
Qed.

(** Every day is in one place of its cycle. *)
Lemma day_parts z : ∃ era c q a doy,
  z = (era * 146097 + c * 36524 + q * 1461 + a * 365 + doy - 719468)%Z ∧
  (0 <= c <= 3)%Z ∧ (0 <= q <= 24)%Z ∧ (0 <= a <= 3)%Z ∧ (0 <= doy <= 365)%Z ∧
  (doy = 365%Z → a = 3%Z ∧ (q = 24%Z → c = 3%Z)).
Proof.
  assert (∃ era doe, z = era * 146097 + doe - 719468 ∧ 0 <= doe < 146097)%Z as (era & doe & -> & Hdoe).
  { exists ((z + 719468) / 146097)%Z, ((z + 719468) mod 146097)%Z. lia. }
  assert (∃ c doc, doe = c * 36524 + doc ∧ 0 <= c <= 3 ∧ 0 <= doc <= 36524 ∧ (c < 3 → doc < 36524))%Z as (c & doc & -> & Hc & Hdoc & Hcent).
  { exists (Z.min 3 (doe / 36524))%Z, (doe - Z.min 3 (doe / 36524) * 36524)%Z. lia. }
  assert (∃ q doq, doc = q * 1461 + doq ∧ 0 <= q <= 24 ∧ 0 <= doq < 1461)%Z as (q & doq & -> & Hq & Hdoq).
  { exists (doc / 1461)%Z, (doc mod 1461)%Z. lia. }
  exists era, c, q, (Z.min 3 (doq / 365))%Z, (doq - Z.min 3 (doq / 365) * 365)%Z. lia.
Qed.

Lemma month_of_day era c q a doy :
  (0 <= c <= 3)%Z → (0 <= q <= 24)%Z → (0 <= a <= 3)%Z → (0 <= doy <= 365)%Z →
  (doy = 365%Z → a = 3%Z ∧ (q = 24%Z → c = 3%Z)) →
  let mp := ((5 * doy + 2) / 153)%Z in
  let y := (era * 400 + c * 100 + q * 4 + a + if mp <? 10 then 0 else 1)%Z in
  let m := (if mp <? 10 then mp + 3 else mp - 9)%Z in
  (0 <= mp < 12)%Z ∧ (1 <= doy - days_before_month mp + 1 <= Z.of_N (gregorian_month_length (Z.to_N m) y))%Z.
Proof.
  intros Hc Hq Ha Hdoy Hlast mp y m. assert (153 * mp <= 5 * doy + 2 < 153 * mp + 153)%Z as Hmp by (subst mp; lia). clearbody mp.
  split; [lia|]. unfold days_before_month.
  assert (mp = 0 ∨ mp = 1 ∨ mp = 2 ∨ mp = 3 ∨ mp = 4 ∨ mp = 5 ∨ mp = 6 ∨ mp = 7 ∨ mp = 8 ∨ mp = 9 ∨ mp = 10 ∨ mp = 11)%Z as Hcases by lia.
  destruct_or! Hcases; subst mp; subst y m; cbn [Z.ltb Z.compare Pos.compare Pos.compare_cont];
    cbn -[Z.mul Z.add Z.div gregorian_month_length]; unfold gregorian_month_length; simpl; try lia.
  unfold is_leap.
  destruct (Z.eqb_spec ((era * 400 + c * 100 + q * 4 + a + 1) mod 4) 0), (Z.eqb_spec ((era * 400 + c * 100 + q * 4 + a + 1) mod 100) 0),
    (Z.eqb_spec ((era * 400 + c * 100 + q * 4 + a + 1) mod 400) 0); simpl; lia.
Qed.

(** The civil date of a day is valid, and it is that day's. *)
Lemma day_of_civil_of_day z :
  (-4371587 <= z <= gregorian_max)%Z →
  valid_civil (civil_of_day z).1.1 (civil_of_day z).1.2 (civil_of_day z).2 = true ∧
  day_of_civil (civil_of_day z).1.1 (civil_of_day z).1.2 (civil_of_day z).2 = z.
Proof.
  intros Hz. destruct (day_parts z) as (era & c & q & a & doy & -> & Hc & Hq & Ha & Hdoy & Hlast).
  destruct (month_of_day era c q a doy Hc Hq Ha Hdoy Hlast) as [Hmp Hd]. set (mp := ((5 * doy + 2) / 153)%Z) in *. clearbody mp.
  pose proof (civil_of_parts era c q a mp _ Hc Hq Ha Hmp Hd) as Hcivil.
  replace (era * 146097 + c * 36524 + q * 1461 + a * 365 + days_before_month mp + (doy - days_before_month mp + 1) - 1 - 719468)%Z
    with (era * 146097 + c * 36524 + q * 1461 + a * 365 + doy - 719468)%Z in Hcivil by lia.
  rewrite Hcivil. cbn [fst snd].
  set (y := (era * 400 + c * 100 + q * 4 + a + (if mp <? 10 then 0 else 1))%Z) in *.
  set (d := (doy - days_before_month mp + 1)%Z) in *.
  set (m := Z.to_N (if mp <? 10 then mp + 3 else mp - 9)%Z) in *.
  assert (Z.of_N m = if mp <? 10 then mp + 3 else mp - 9)%Z as Hm by (subst m; destruct (Z.ltb_spec mp 10); lia).
  assert (day_of_civil y m (Z.to_N d) = (era * 146097 + c * 36524 + q * 1461 + a * 365 + doy - 719468)%Z) as Hday.
  { unfold day_of_civil. assert ((Z.of_N m + 9) mod 12 = mp)%Z as -> by (rewrite Hm; destruct (Z.ltb_spec mp 10); lia).
    assert ((if (m <=? 2)%N then y - 1 else y) = era * 400 + c * 100 + q * 4 + a)%Z as ->.
    { subst y. revert Hm. destruct (Z.ltb_spec mp 10); destruct (N.leb_spec m 2); lia. }
    rewrite day_of_year_parts by done. subst d. lia. }
  split; [|done]. apply valid_civil_iff. split_and!; [| |revert Hm; destruct (Z.ltb_spec mp 10); lia|revert Hm; destruct (Z.ltb_spec mp 10); lia|lia|lia].
  - pose proof (gregorian_month_length_range m y). clearbody m. revert Hz Hd. subst y d. unfold gregorian_max, days_before_month.
    destruct (Z.ltb_spec mp 10); lia.
  - pose proof (gregorian_month_length_range m y). clearbody m. revert Hz Hd. subst y d. unfold gregorian_max, days_before_month.
    destruct (Z.ltb_spec mp 10); lia.
Qed.

Definition display_day (z : Z) : string :=
  let '(y, m, d) := civil_of_day z in
  string_of_bytes (pad4 y ++ minus_sign :: pad_zeros 2 (dec_print m) ++ minus_sign :: pad_zeros 2 (dec_print d)).

Definition gregorian : Civil := {|
  civil_of_date := civil_of_day;
  date_of_civil y m d := if valid_civil y m d then Some (day_of_civil y m d) else None;
  month_length := gregorian_month_length;
  date_checked_add_days d n := if (d + n <=? gregorian_max)%Z && (-4371587 <=? d + n)%Z then Some (d + n)%Z else None;
  date_next_day d := if (d + 1 <=? gregorian_max)%Z && (-4371587 <=? d + 1)%Z then Some (d + 1)%Z else None;
  date_max := gregorian_max;
  to_julian_day d := (d + julian_of_epoch)%Z;
  from_julian_day j := if (- 2 ^ 31 <=? j)%Z && (j <? 2 ^ 31)%Z then Some (j - julian_of_epoch)%Z else None;
  date_weekday := weekday_of_day;
  midnight_at d offset := {| unix_nanos := (d * 86400 - offset) * nanos_per_second; utc_offset := offset |};
  duration_checked_mul d k := if in_duration_range (d * k) then Some (d * k)%Z else None;
  duration_checked_div d k := if (k =? 0)%Z then None else Some (Z.quot d k);
  date_display := display_day;
  uuid_version _ := 5%N
|}.

Lemma weekday_of_day_number d : number_days_from_monday (weekday_of_day d) = ((d + 3) mod 7)%Z.
Proof.
  unfold weekday_of_day. pose proof (Z.mod_pos_bound (d + 3) 7). set (r := ((d + 3) mod 7)%Z) in *.
  assert (r = 0 ∨ r = 1 ∨ r = 2 ∨ r = 3 ∨ r = 4 ∨ r = 5 ∨ r = 6)%Z as Hr by lia.
  by destruct Hr as [->|[->|[->|[->|[->|[->| ->]]]]]].
Qed.

Lemma gregorian_of_day (d : Date) :
  (-4371587 <= d <= gregorian_max)%Z →
  @date_of_civil gregorian (civil_of_day d).1.1 (civil_of_day d).1.2 (civil_of_day d).2 = Some d.
Proof.
  intros [Hv Hd]%day_of_civil_of_day. unfold date_of_civil, gregorian. by rewrite Hv, Hd.
Qed.

#[export] Instance gregorian_laws : @CivilLaws utc_platform gregorian.
Proof.
  split; simpl.
  - intros y m d t. destruct (valid_civil y m d) eqn:E; [|done]. apply valid_civil_iff in E as (_ & Hm & Hd).
    intros [= <-]. by apply civil_of_day_of_civil.
  - intros y m d t. destruct (valid_civil y m d) eqn:E; [|done]. apply valid_civil_iff in E as (Hy & Hm & Hd). intros [= <-].
    pose proof (gregorian_month_length_range m y). pose proof (day_of_civil_max y m d). pose proof (day_of_civil_min y m d). lia.
  - intros y m d t t'. destruct (valid_civil y m d), (valid_civil y m (d + 1)); [|done..]. intros [= <-] [= <-].
    unfold day_of_civil. lia.
  - intros y m d. rewrite <- valid_civil_iff. by destruct (valid_civil y m d); split.
  - apply gregorian_of_day.
  - intros y m t t'. destruct (valid_civil y m _) eqn:E; [|done]. destruct (valid_civil _ _ 1); [|done]. intros [= <-] [= <-].
    apply valid_civil_iff in E as (_ & Hm & _). by apply day_of_next_month.
  - apply gregorian_month_length_range.
  - intros d n d'. destruct (Z.leb_spec (d + n) gregorian_max); [|done]. simpl. destruct (Z.leb_spec (-4371587) (d + n)); [|done]. intros [= <-]. lia.
  - intros d n Hd. rewrite !(proj2 (Z.leb_le _ _)) by lia. by eexists.
  - done.
  - done.
  - intros d d'. lia.
  - intros j d. destruct (_ && _) eqn:E; [|done]. intros [= <-]. bool_to_prop. lia.
  - apply weekday_of_day_number.
  - done.
  - intros d k d'. case_match; [|done]. by intros [= <-].
  - intros d k d'. destruct (Z.eqb_spec k 0); [done|]. by intros [= <-].
  - intros d k Hd. unfold in_duration_range. rewrite (proj2 (Z.leb_le _ _)), (proj2 (Z.ltb_lt _ _)) by lia. by eexists.
  - intros d k Hk _. destruct (Z.eqb_spec k 0); [lia|]. by eexists.
  - done.
  - done.
Qed.
