(* ===== verification/Domain.v ===== *)
(** * Domain: the data model of crates/dayweave-core/src/domain.rs

    Structs are records whose fields carry a short prefix of the struct's name
    ([wi_status] is [WorkItem::status]); enums are inductive types, inside a
    module of the same name when their constructors are not unique
    ([WorkStatus.Completed]).  [BTreeMap]s and [BTreeSet]s are stdpp maps and
    sets.  Only the serde attributes have no counterpart: wire formats are not
    modelled.  The operations of the file follow its types. *)
From S2P Require Import Prelude Platform.

(** ** Durations and estimates *)

(** [Minutes(u32)]; [Minutes::get] is the number itself. *)
Abbreviation Minutes := N (only parsing).

Definition is_zero (m : Minutes) : bool := (m =? 0)%N.

Definition MAX_DEPENDENCY_LAG_MINUTES : N := 527040.
(** Of habits.rs, shared by the recurrence code. *)
Definition HABIT_BASIS_POINTS_SCALE : N := 10000.
Definition MAX_SOFT_CONSTRAINT_WEIGHT : N := 1000000.
Definition MAX_DEPENDENCY_WEIGHT : N := MAX_SOFT_CONSTRAINT_WEIGHT.

Module DurationKind.
Inductive DurationKind : Type := Unknown | Exact | Range.
End DurationKind.
Abbreviation DurationKind := DurationKind.DurationKind.

Inductive DurationEstimateError : Type :=
| ZeroMinimum
| InvalidRange
| RangeMustVary
| RemainingExceedsMaximum.

Inductive EstimateSource : Type := User | Learned | Ai | Imported.

Record DurationEstimate : Type := {
  de_minimum : Minutes;
  de_expected : Minutes;
  de_maximum : Minutes;
  de_remaining : option Minutes;
  de_source : EstimateSource
}.

(** ** Priorities, statuses and item kinds *)

Record Priority : Type := { importance : N; urgency : N }.

Module WorkStatus.
Inductive WorkStatus : Type :=
| NotStarted | Scheduled | Active | Paused | Completed | Skipped | Canceled | Blocked.
End WorkStatus.
Abbreviation WorkStatus := WorkStatus.WorkStatus.

Module DayOfWeek.
Inductive DayOfWeek : Type :=
| Monday | Tuesday | Wednesday | Thursday | Friday | Saturday | Sunday.
End DayOfWeek.
Abbreviation DayOfWeek := DayOfWeek.DayOfWeek.

#[export] Instance DayOfWeek_eq_dec : EqDecision DayOfWeek.
Proof. solve_decision. Defined.

Definition day_index (d : DayOfWeek) : nat :=
  match d with
  | DayOfWeek.Monday => 0 | DayOfWeek.Tuesday => 1 | DayOfWeek.Wednesday => 2 | DayOfWeek.Thursday => 3
  | DayOfWeek.Friday => 4 | DayOfWeek.Saturday => 5 | DayOfWeek.Sunday => 6
  end.

Definition day_of_index (n : nat) : DayOfWeek :=
  match n with
  | 0 => DayOfWeek.Monday | 1 => DayOfWeek.Tuesday | 2 => DayOfWeek.Wednesday | 3 => DayOfWeek.Thursday
  | 4 => DayOfWeek.Friday | 5 => DayOfWeek.Saturday | _ => DayOfWeek.Sunday
  end.

#[export] Instance DayOfWeek_countable : Countable DayOfWeek.
Proof. apply (inj_countable' day_index day_of_index). by intros []. Defined.

(** [DayOfWeek::from_time] *)
Definition from_time (value : Weekday) : DayOfWeek :=
  match value with
  | Weekday.Monday => DayOfWeek.Monday
  | Weekday.Tuesday => DayOfWeek.Tuesday
  | Weekday.Wednesday => DayOfWeek.Wednesday
  | Weekday.Thursday => DayOfWeek.Thursday
  | Weekday.Friday => DayOfWeek.Friday
  | Weekday.Saturday => DayOfWeek.Saturday
  | Weekday.Sunday => DayOfWeek.Sunday
  end.

Inductive RecurrencePeriod : Type := Day | Week | Month.

Inductive RecurrenceSemantics : Type := Calendar | Rolling.

Inductive Recurrence : Type :=
| Daily (times_per_day : N)
| Weekly (times_per_week : N) (weekdays : gset DayOfWeek)
| Monthly (times_per_month : N)
| EveryInterval (interval : Minutes)
| AfterCompletion (interval : Minutes)
| Frequency (target : N) (period : RecurrencePeriod) (semantics : RecurrenceSemantics)
    (weekdays : gset DayOfWeek) (minimum_spacing : Minutes) (anchor : option OffsetDateTime)
| Custom (rrule : string).

Record RecurringTaskSpec : Type := { rts_recurrence : Recurrence }.

Inductive HabitMissedPolicy : Type := Skip | Carry | ReduceFrequency | Ask.

Record QuantityTarget : Type := { qt_amount : N; qt_unit : string }.

Record HabitSpec : Type := {
  hs_recurrence : Recurrence;
  hs_target : option QuantityTarget;
  hs_preserves_streak_when_paused : bool;
  hs_missed_policy : HabitMissedPolicy;
  hs_minimum_spacing : Minutes
}.

Record RoutineSpec : Type := {
  rs_ordered : bool;
  rs_recurrence : option Recurrence
}.

Record GoalMeasure : Type := {
  gm_name : string; gm_target : Z; gm_current : Z; gm_unit : string
}.

Record AllocationRange : Type := { ar_minimum : Minutes; ar_maximum : option Minutes }.

Record GoalSpec : Type := {
  gs_measures : list GoalMeasure;
  gs_weekly_allocation : option AllocationRange
}.

Inductive BreakCategory : Type := Rest | Meal | Movement | Pomodoro | Decompression | Other.

Record BreakSpec : Type := {
  bs_category : BreakCategory; bs_mandatory : bool; bs_prompt_to_resume : bool
}.

Record CalendarEventSpec : Type := {
  ce_start : OffsetDateTime;
  ce_end : OffsetDateTime;
  ce_immutable : bool;
  ce_all_day : bool;
  ce_source_calendar_id : option string
}.

Inductive ItemKind : Type :=
| Task
| Project
| RecurringTask (spec : RecurringTaskSpec)
| Habit (spec : HabitSpec)
| Routine (spec : RoutineSpec)
| Goal (spec : GoalSpec)
| Break (spec : BreakSpec)
| CalendarEvent (event : CalendarEventSpec).

(** ** Constraints *)

Inductive ConstraintStrength : Type := Hard | Soft (weight : N).

Record Qualified (T : Type) : Type := { q_value : T; q_strength : ConstraintStrength }.
Arguments q_value {T} _.
Arguments q_strength {T} _.

Module Deadline.
Inductive Deadline : Type :=
| None
| Date (date : Platform.Date) (strength : ConstraintStrength)
| DateTime (at_ : OffsetDateTime) (strength : ConstraintStrength).
End Deadline.
Abbreviation Deadline := Deadline.Deadline.

Inductive DeadlineError : Type := DeadlineWeightTooLarge.

Inductive EnergyLevel : Type := Low | Medium | Deep.

Record AbsoluteWindow : Type := { aw_start : OffsetDateTime; aw_end : OffsetDateTime }.

Record DailyTimeWindow : Type := {
  dw_weekdays : gset DayOfWeek;
  dw_start_minute : N;
  dw_end_minute : N
}.

Inductive DependencyRelation : Type :=
| FinishToStart | StartToStart | FinishToFinish | StartToFinish.

Record Dependency : Type := {
  dep_item_id : ItemId;
  dep_relation : DependencyRelation;
  dep_minimum_lag : Minutes;
  dep_strength : ConstraintStrength
}.

Inductive DependencyError : Type := SelfReference | LagTooLarge | WeightTooLarge.

Record BufferPolicy : Type := {
  bp_before : Minutes;
  bp_after : Minutes;
  bp_strength : option ConstraintStrength
}.

Record SchedulingConstraints : Type := {
  earliest_start : option (Qualified OffsetDateTime);
  latest_finish : option (Qualified OffsetDateTime);
  minimum_notice : option (Qualified Minutes);
  allowed_weekdays : option (Qualified (gset DayOfWeek));
  preferred_daily_windows : list (Qualified DailyTimeWindow);
  preferred_absolute_windows : list (Qualified AbsoluteWindow);
  forbidden_windows : list (Qualified AbsoluteWindow);
  required_contexts : list (Qualified string);
  required_location : option (Qualified string);
  dependencies : list Dependency;
  maximum_daily_work : option (Qualified Minutes);
  maximum_weekly_work : option (Qualified Minutes);
  buffers : BufferPolicy;
  occurrence_window : option AbsoluteWindow
}.

Inductive SplitPolicy : Type :=
| Indivisible
| Splittable (minimum_session maximum_session : Minutes) (maximum_sessions : N)
    (minimum_gap : Minutes) (maximum_days : option N).

(** ** Work items and the planning request *)

Record WorkItem : Type := {
  wi_id : ItemId;
  wi_is_sensitive : bool;
  wi_revision : N;
  wi_title : string;
  wi_kind : ItemKind;
  wi_status : WorkStatus;
  wi_parent_id : option ItemId;
  wi_sibling_order : option N;
  wi_has_own_effort : bool;
  wi_has_children_outside_plan : bool;
  wi_goal_ids : gset ItemId;
  wi_priority : Priority;
  wi_duration : option DurationEstimate;
  wi_constraints : SchedulingConstraints;
  wi_split_policy : SplitPolicy;
  wi_energy : option (Qualified EnergyLevel);
  wi_tags : gset string;
  wi_created_at : OffsetDateTime;
  wi_updated_at : OffsetDateTime
}.

Record AvailabilityWindow : Type := {
  av_start : OffsetDateTime;
  av_end : OffsetDateTime;
  av_contexts : gset string;
  av_location : option string;
  av_energy : EnergyLevel
}.

Inductive FixedBlockSource : Type := GoogleCalendar | Sleep | ProtectedTime | Travel | Manual.

Record FixedBlock : Type := {
  fb_id : Uuid;
  fb_is_sensitive : bool;
  fb_title : string;
  fb_start : OffsetDateTime;
  fb_end : OffsetDateTime;
  fb_source : FixedBlockSource
}.

Record PreviousBlock : Type := {
  pb_start : OffsetDateTime;
  pb_end : OffsetDateTime;
  pb_session_index : N
}.

Record PreviousAssignment : Type := {
  pa_item_id : ItemId;
  pa_occurrence_id : option OccurrenceId;
  pa_blocks : list PreviousBlock;
  pa_pinned : bool;
  pa_manual_placement_id : option Uuid
}.

Inductive ExecutionDisposition : Type := DispositionSkipped.

Inductive ExecutionReservationKind : Type :=
| InFlight
| DeferredReplacement (source_session_index : N).

Record ExecutionReservation : Type := {
  er_session_index : N;
  er_start : OffsetDateTime;
  er_end : OffsetDateTime;
  er_kind : ExecutionReservationKind
}.

Record ExecutionWorkUnit : Type := {
  eu_item_id : ItemId;
  eu_occurrence_id : option OccurrenceId;
  eu_progress_epoch : N;
  eu_credited_seconds : N;
  eu_disposition : option ExecutionDisposition;
  eu_used_session_indices : list N;
  eu_reservations : list ExecutionReservation
}.

Record ExecutionPlanningContext : Type := {
  ec_snapshot_revision : N;
  ec_work_units : list ExecutionWorkUnit
}.

Record SchedulerConfig : Type := {
  slot_granularity : Minutes;
  stability_weight : N;
  default_soft_weight : N
}.

(** ** Recurrence context *)

Record RecurrencePartialProgress : Type := {
  rp_progress_basis_points : N;
  rp_expected_duration_minutes : Minutes;
  rp_remaining_duration_minutes : option Minutes
}.

Record ZonedDayBoundary : Type := {
  zd_local_date : Platform.Date;
  zd_start : OffsetDateTime;
  zd_end : OffsetDateTime
}.

Record RecurrenceCalendar : Type := {
  time_zone_id : option string;
  week_starts_on : DayOfWeek;
  rc_days : list ZonedDayBoundary
}.

Record RecurrencePause : Type := {
  rpz_item_id : ItemId; rpz_start : OffsetDateTime; rpz_end : OffsetDateTime
}.

Inductive RecurrenceExceptionSelector : Type :=
| SelectOccurrence (id : OccurrenceId)
| SelectLocalDate (date : Platform.Date)
| SelectNominalStart (at_ : OffsetDateTime).

Inductive RecurrenceOccurrenceIdentity : Type :=
| CalendarDay (date : Platform.Date) (bucket_ordinal : N)
| CalendarWeek (week_key : Z) (bucket_ordinal : N)
| CalendarMonth (year : Z) (month : N) (bucket_ordinal : N)
| RollingMinutes (index : Z) (anchor : OffsetDateTime)
| IdentityAfterCompletion (anchor : OffsetDateTime)
| RollingMonth (cycle : Z) (index : N) (anchor : OffsetDateTime)
| IdentityCustom
| CustomRule (rule_id : Uuid) (sequence : N) (date : Platform.Date).

Record RecurrenceMoveSource : Type := {
  ms_item_revision : N;
  ms_identity : RecurrenceOccurrenceIdentity;
  ms_nominal_start : OffsetDateTime;
  ms_nominal_end : OffsetDateTime;
  ms_local_date : option Platform.Date;
  ms_ordinal : N
}.

Inductive RecurrenceExceptionAction : Type :=
| ActionSkip
| ActionMove (start end_ : OffsetDateTime) (source : RecurrenceMoveSource).

Record RecurrenceException : Type := {
  rx_item_id : ItemId;
  rx_selector : RecurrenceExceptionSelector;
  rx_action : RecurrenceExceptionAction
}.

Record RecurrenceContext : Type := {
  rctx_calendar : RecurrenceCalendar;
  rctx_completion_anchors : gmap ItemId OffsetDateTime;
  rctx_rolling_anchors : gmap ItemId OffsetDateTime;
  rctx_minimum_spacing : gmap ItemId Minutes;
  rctx_completed_occurrence_ids : gset OccurrenceId;
  rctx_partial_progress : gmap OccurrenceId RecurrencePartialProgress;
  rctx_pauses : list RecurrencePause;
  rctx_exceptions : list RecurrenceException
}.

Record PlanRequest : Type := {
  as_of : OffsetDateTime;
  horizon_start : OffsetDateTime;
  horizon_end : OffsetDateTime;
  items : list WorkItem;
  availability : list AvailabilityWindow;
  fixed_blocks : list FixedBlock;
  previous_assignments : list PreviousAssignment;
  config : SchedulerConfig;
  recurrence_context : RecurrenceContext
}.

Module OccurrenceState.
Inductive OccurrenceState : Type := Generated | Completed | Paused | Skipped.
End OccurrenceState.
Abbreviation OccurrenceState := OccurrenceState.OccurrenceState.

Record Occurrence : Type := {
  occ_id : OccurrenceId;
  occ_series_item_id : ItemId;
  occ_identity : RecurrenceOccurrenceIdentity;
  occ_nominal_start : OffsetDateTime;
  occ_nominal_end : OffsetDateTime;
  occ_window_start : OffsetDateTime;
  occ_window_end : OffsetDateTime;
  occ_local_date : option Platform.Date;
  occ_ordinal : N;
  occ_state : OccurrenceState
}.

(** ** Decidable equality of the enums the code compares *)

#[export] Instance WorkStatus_eq_dec : EqDecision WorkStatus.
Proof. solve_decision. Defined.
#[export] Instance OccurrenceState_eq_dec : EqDecision OccurrenceState.
Proof. solve_decision. Defined.
#[export] Instance ConstraintStrength_eq_dec : EqDecision ConstraintStrength.
Proof. solve_decision. Defined.
#[export] Instance DependencyRelation_eq_dec : EqDecision DependencyRelation.
Proof. solve_decision. Defined.
#[export] Instance EnergyLevel_eq_dec : EqDecision EnergyLevel.
Proof. solve_decision. Defined.
#[export] Instance ExecutionDisposition_eq_dec : EqDecision ExecutionDisposition.
Proof. solve_decision. Defined.
#[export] Instance ExecutionReservationKind_eq_dec : EqDecision ExecutionReservationKind.
Proof. solve_decision. Defined.
#[export] Instance EstimateSource_eq_dec : EqDecision EstimateSource.
Proof. solve_decision. Defined.
#[export] Instance DurationEstimate_eq_dec : EqDecision DurationEstimate.
Proof. solve_decision. Defined.

(** ** Operations *)

(** [DurationEstimate::validate] *)
Definition validate_estimate (e : DurationEstimate) : result DurationEstimateError unit :=
  if is_zero (de_minimum e) then Err ZeroMinimum
  else if (de_expected e <? de_minimum e)%N || (de_maximum e <? de_expected e)%N then Err InvalidRange
  else if match de_remaining e with Some r => (de_maximum e <? r)%N | None => false end
       then Err RemainingExceedsMaximum
  else Ok tt.

(** [DurationEstimate::exact] *)
Definition exact_estimate (minutes : N) : DurationEstimate :=
  {| de_minimum := minutes; de_expected := minutes; de_maximum := minutes;
     de_remaining := None; de_source := User |}.

Definition try_exact (value : Minutes) (source : EstimateSource)
    : result DurationEstimateError DurationEstimate :=
  let estimate := {| de_minimum := value; de_expected := value; de_maximum := value;
                     de_remaining := None; de_source := source |} in
  let? _ := validate_estimate estimate in
  Ok estimate.

Definition try_range (minimum expected maximum : Minutes) (source : EstimateSource)
    : result DurationEstimateError DurationEstimate :=
  let estimate := {| de_minimum := minimum; de_expected := expected; de_maximum := maximum;
                     de_remaining := None; de_source := source |} in
  let? _ := validate_estimate estimate in
  if (minimum =? maximum)%N then Err RangeMustVary else Ok estimate.

Definition try_with_remaining (e : DurationEstimate) (remaining : Minutes)
    : result DurationEstimateError DurationEstimate :=
  let e := {| de_minimum := de_minimum e; de_expected := de_expected e; de_maximum := de_maximum e;
              de_remaining := Some remaining; de_source := de_source e |} in
  let? _ := validate_estimate e in
  Ok e.

(** [DurationEstimate::kind] *)
Definition estimate_kind (e : DurationEstimate) : DurationKind :=
  if (de_minimum e =? de_expected e)%N && (de_expected e =? de_maximum e)%N
  then DurationKind.Exact else DurationKind.Range.

Definition planning_minutes (e : DurationEstimate) : Minutes :=
  match de_remaining e with Some remaining => remaining | None => de_expected e end.

(** [Priority::score]: a [u16] product of two [u8]s *)
Definition score (p : Priority) : N := (importance p * urgency p)%N.

(** [Priority::validate] *)
Definition validate_priority (p : Priority) : result string unit :=
  if (10 <? importance p)%N || (10 <? urgency p)%N
  then Err "priority importance and urgency must be in 0..=10"%string
  else Ok tt.

Definition is_terminal (s : WorkStatus) : bool :=
  match s with
  | WorkStatus.Completed | WorkStatus.Skipped | WorkStatus.Canceled => true
  | _ => false
  end.

Definition satisfies_prerequisite (s : WorkStatus) : bool :=
  match s with WorkStatus.Completed => true | _ => false end.

Definition is_hard (s : ConstraintStrength) : bool :=
  match s with Hard => true | Soft _ => false end.

Definition weight (s : ConstraintStrength) : N :=
  match s with Hard => 0%N | Soft weight => weight end.

Definition DEFAULT_SOFT : ConstraintStrength := Soft 100.

Definition rank (e : EnergyLevel) : N :=
  match e with Low => 0 | Medium => 1 | Deep => 2 end%N.

(** [EnergyLevel::satisfies] *)
Definition energy_satisfies (available required : EnergyLevel) : bool :=
  (rank required <=? rank available)%N.

Definition deadline_strength (d : Deadline) : option ConstraintStrength :=
  match d with
  | Deadline.None => None
  | Deadline.Date _ strength | Deadline.DateTime _ strength => Some strength
  end.

(** [Deadline::validate] *)
Definition validate_deadline (d : Deadline) : result DeadlineError unit :=
  match deadline_strength d with
  | Some (Soft weight) =>
      if (MAX_SOFT_CONSTRAINT_WEIGHT <? weight)%N then Err DeadlineWeightTooLarge else Ok tt
  | _ => Ok tt
  end.

(** [Dependency::validate] *)
Definition validate_dependency (d : Dependency) (owner_id : option ItemId)
    : result DependencyError unit :=
  if bool_decide (owner_id = Some (dep_item_id d)) then Err SelfReference
  else if (MAX_DEPENDENCY_LAG_MINUTES <? dep_minimum_lag d)%N then Err LagTooLarge
  else match dep_strength d with
       | Soft weight => if (MAX_DEPENDENCY_WEIGHT <? weight)%N then Err WeightTooLarge else Ok tt
       | Hard => Ok tt
       end.

(** [Dependency::try_new] *)
Definition try_new_dependency (item_id : ItemId) (relation : DependencyRelation)
    (minimum_lag : Minutes) (strength : ConstraintStrength) : result DependencyError Dependency :=
  let dependency := {| dep_item_id := item_id; dep_relation := relation;
                       dep_minimum_lag := minimum_lag; dep_strength := strength |} in
  let? _ := validate_dependency dependency None in
  Ok dependency.

(** [SplitPolicy::validate] *)
Definition validate_split (p : SplitPolicy) : result string unit :=
  match p with
  | Indivisible => Ok tt
  | Splittable minimum_session maximum_session maximum_sessions _ _ =>
      if is_zero minimum_session then Err "minimum session must be greater than zero"%string
      else if (maximum_session <? minimum_session)%N
           then Err "minimum session cannot exceed maximum session"%string
      else if (maximum_sessions =? 0)%N then Err "maximum sessions must be greater than zero"%string
      else Ok tt
  end.

(** [WorkItem::occupies_time] *)
Definition occupies_time (item : WorkItem) (has_children : bool) : bool :=
  match wi_kind item with
  | CalendarEvent _ => true
  | kind =>
      if has_children || wi_has_children_outside_plan item then false
      else match kind with
           | Project | Goal _ | Routine _ => wi_has_own_effort item
           | _ => true
           end
  end.

(** [WorkItem::duration_kind] *)
Definition duration_kind (item : WorkItem) : DurationKind :=
  match wi_duration item with
  | Some e => estimate_kind e
  | None => DurationKind.Unknown
  end.

Definition is_calendar_event (kind : ItemKind) : bool :=
  match kind with CalendarEvent _ => true | _ => false end.

Section daily_window.
Context `{Platform}.

(** [DailyTimeWindow::contains] *)
Definition daily_window_contains (w : DailyTimeWindow) (start end_ : OffsetDateTime) : bool :=
  let weekday := from_time (odt_weekday start) in
  if negb (bool_decide (dw_weekdays w = ∅)) && negb (bool_decide (weekday ∈ dw_weekdays w)) then false
  else
    let start_minute := (odt_hour start * 60 + odt_minute start)%N in
    let end_minute := (odt_hour end_ * 60 + odt_minute end_)%N in
    if (dw_start_minute w <? dw_end_minute w)%N then
      (dw_start_minute w <=? start_minute)%N &&
      (odt_date end_ =? odt_date start)%Z &&
      (end_minute <=? dw_end_minute w)%N
    else
      (dw_start_minute w <=? start_minute)%N || (end_minute <=? dw_end_minute w)%N.
End daily_window.

(** The default of [ExecutionPlanningContext]. *)
Definition default_execution : ExecutionPlanningContext :=
  {| ec_snapshot_revision := 0; ec_work_units := [] |}.

(** [SchedulerConfig::default] *)
Definition default_config : SchedulerConfig :=
  {| slot_granularity := 5; stability_weight := 4; default_soft_weight := 100 |}.

(** ** Materialized recurrences, from crates/dayweave-core/src/recurrence.rs *)

Definition MAX_RECURRENCE_MATERIALIZED_ITEMS : N := 10000.

Record MaterializedIdentity : Type := {
  mi_series_item_id : ItemId;
  mi_occurrence_id : OccurrenceId
}.

Record MaterializedPlan : Type := {
  mp_request : PlanRequest;
  mp_occurrences : list Occurrence;
  mp_identities : gmap ItemId MaterializedIdentity
}.

(** Derived equality of [RecurrenceOccurrenceIdentity]: instants compare by
    the instant, whatever their offset. *)
Definition identity_eqb (a b : RecurrenceOccurrenceIdentity) : bool :=
  match a, b with
  | CalendarDay d1 o1, CalendarDay d2 o2 => (d1 =? d2)%Z && (o1 =? o2)%N
  | CalendarWeek w1 o1, CalendarWeek w2 o2 => (w1 =? w2)%Z && (o1 =? o2)%N
  | CalendarMonth y1 m1 o1, CalendarMonth y2 m2 o2 => (y1 =? y2)%Z && (m1 =? m2)%N && (o1 =? o2)%N
  | RollingMinutes i1 a1, RollingMinutes i2 a2 => (i1 =? i2)%Z && odt_eqb a1 a2
  | IdentityAfterCompletion a1, IdentityAfterCompletion a2 => odt_eqb a1 a2
  | RollingMonth c1 i1 a1, RollingMonth c2 i2 a2 => (c1 =? c2)%Z && (i1 =? i2)%N && odt_eqb a1 a2
  | IdentityCustom, IdentityCustom => true
  | CustomRule r1 s1 d1, CustomRule r2 s2 d2 => (r1 =? r2)%N && (s1 =? s2)%N && (d1 =? d2)%Z
  | _, _ => false
  end.

(** A request with its items replaced, and an item with its status replaced. *)
Definition with_items (request : PlanRequest) (new_items : list WorkItem) : PlanRequest :=
  {| as_of := as_of request; horizon_start := horizon_start request; horizon_end := horizon_end request;
     items := new_items; availability := availability request; fixed_blocks := fixed_blocks request;
     previous_assignments := previous_assignments request; config := config request;
     recurrence_context := recurrence_context request |}.

Definition with_status (item : WorkItem) (status : WorkStatus) : WorkItem :=
  {| wi_id := wi_id item; wi_is_sensitive := wi_is_sensitive item; wi_revision := wi_revision item;
     wi_title := wi_title item; wi_kind := wi_kind item; wi_status := status;
     wi_parent_id := wi_parent_id item; wi_sibling_order := wi_sibling_order item;
     wi_has_own_effort := wi_has_own_effort item;
     wi_has_children_outside_plan := wi_has_children_outside_plan item;
     wi_goal_ids := wi_goal_ids item; wi_priority := wi_priority item; wi_duration := wi_duration item;
     wi_constraints := wi_constraints item; wi_split_policy := wi_split_policy item;
     wi_energy := wi_energy item; wi_tags := wi_tags item; wi_created_at := wi_created_at item;
     wi_updated_at := wi_updated_at item |}.
