(* ===== verification/Samples.v ===== *)
(** * Samples: the concrete data on which the theorems' witnesses are evaluated

    A small day on the UTC platform: instants in minutes after an epoch day,
    items without constraints, and the default configuration. *)
From S2P Require Import Prelude Platform Domain.

(** The instant [m] minutes after 1970-01-01 00:00 UTC, a Thursday. *)
Definition at_minute (m : Z) : OffsetDateTime :=
  {| unix_nanos := m * nanos_per_minute; utc_offset := 0 |}.

Definition no_buffers : BufferPolicy := {| bp_before := 0; bp_after := 0; bp_strength := None |}.

Definition no_constraints : SchedulingConstraints :=
  {| earliest_start := None; latest_finish := None; minimum_notice := None; allowed_weekdays := None;
     preferred_daily_windows := []; preferred_absolute_windows := []; forbidden_windows := [];
     required_contexts := []; required_location := None; dependencies := [];
     maximum_daily_work := None; maximum_weekly_work := None; buffers := no_buffers;
     occurrence_window := None |}.

Definition sample_item (id : ItemId) (kind : ItemKind) (parent : option ItemId) (minutes : N) : WorkItem :=
  {| wi_id := id; wi_is_sensitive := false; wi_revision := 1; wi_title := "sample"; wi_kind := kind;
     wi_status := WorkStatus.NotStarted; wi_parent_id := parent; wi_sibling_order := None;
     wi_has_own_effort := true; wi_has_children_outside_plan := false; wi_goal_ids := ∅;
     wi_priority := {| importance := 5; urgency := 5 |};
     wi_duration := if (minutes =? 0)%N then None else Some (exact_estimate minutes);
     wi_constraints := no_constraints; wi_split_policy := Indivisible; wi_energy := None;
     wi_tags := ∅; wi_created_at := at_minute 0; wi_updated_at := at_minute 0 |}.

(** A project with two tasks, one of them with a child of its own. *)
Definition sample_tree : list WorkItem :=
  [sample_item 1 Project None 0; sample_item 2 Task (Some 1%N) 30;
   sample_item 3 Task (Some 1%N) 45; sample_item 4 Task (Some 3%N) 20].

Definition no_recurrence : RecurrenceContext :=
  {| rctx_calendar := {| time_zone_id := None; week_starts_on := DayOfWeek.Monday; rc_days := [] |};
     rctx_completion_anchors := ∅; rctx_rolling_anchors := ∅; rctx_minimum_spacing := ∅;
     rctx_completed_occurrence_ids := ∅; rctx_partial_progress := ∅; rctx_pauses := [];
     rctx_exceptions := [] |}.

Definition window (start end_ : Z) : AvailabilityWindow :=
  {| av_start := at_minute start; av_end := at_minute end_; av_contexts := ∅; av_location := None;
     av_energy := Deep |}.

(** The items over the first day, available from 08:00 to 12:00. *)
Definition sample_request (its : list WorkItem) : PlanRequest :=
  {| as_of := at_minute 0; horizon_start := at_minute 0; horizon_end := at_minute 1440; items := its;
     availability := [window 480 720]; fixed_blocks := []; previous_assignments := [];
     config := default_config; recurrence_context := no_recurrence |}.

(** ** Two edges of daily windows *)

(** A window may be any time from midnight to midnight, but a period that ends
    at midnight ends on another date, at minute 0, and is refused. *)
Example whole_day_window_rejects_midnight_end :
  let whole_day := {| dw_weekdays := ∅; dw_start_minute := 0; dw_end_minute := 1440 |} in
  @daily_window_contains utc_platform whole_day (at_minute 1380) (at_minute 1439) = true ∧
  @daily_window_contains utc_platform whole_day (at_minute 1380) (at_minute 1440) = false.
Proof. vm_compute. split; reflexivity. Qed.

(** A window from 22:00 to 02:00 accepts noon to 01:00 of the next day, because
    the end alone is in the window. *)
Example crossing_window_accepts_noon :
  @daily_window_contains utc_platform {| dw_weekdays := ∅; dw_start_minute := 1320; dw_end_minute := 120 |}
    (at_minute 720) (at_minute 1500) = true.
Proof. vm_compute. reflexivity. Qed.
