(* ===== verification/Rollup.v ===== *)
(** * Rollup: expected durations of every subtree

    [roll_up_expected_durations] of crates/dayweave-core/src/domain.rs: an
    iterative reduction over a [Vec] work list that adds each finished node's
    minutes to its parent with [u32] saturation.  The theorems give the set of
    inputs on which it succeeds, the meaning of each error, and the value it
    computes: the recursive total of the subtree, capped at [u32::MAX]. *)
From S2P Require Import Prelude Forest Platform Domain Samples.

#[export] Instance WorkItem_node : TreeNode WorkItem := {
  node_id := wi_id;
  node_parent := wi_parent_id
}.

Module HierarchyError.
Inductive HierarchyError : Type :=
| DuplicateItem (id : ItemId)
| MissingParent (item parent : ItemId)
| Cycle (id : ItemId).
End HierarchyError.
Abbreviation HierarchyError := HierarchyError.HierarchyError.

(** [items.iter().map(|item| (item.id, item)).collect()]: a later item with
    the same key replaces an earlier one. *)
Definition collect_by_id (items : list WorkItem) : gmap ItemId WorkItem :=
  foldl (λ m item, <[wi_id item := item]> m) ∅ items.

(** [find(|id| !seen.insert(id))] *)
Fixpoint first_duplicate (seen : gset N) (ids : list N) : option N :=
  match ids with
  | [] => None
  | id :: ids' =>
      if bool_decide (id ∈ seen) then Some id else first_duplicate ({[id]} ∪ seen) ids'
  end.

(** The loop that counts the children of each item, in input order. *)
Definition count_item_children (by_id : gmap ItemId WorkItem) (items : list WorkItem)
    : result HierarchyError (gmap ItemId N) :=
  foldM (λ remaining item,
    match wi_parent_id item with
    | None => Ok remaining
    | Some parent =>
        match by_id !! parent with
        | None => Err (HierarchyError.MissingParent (wi_id item) parent)
        | Some _ => Ok (<[parent := (default 0 (remaining !! parent) + 1)%N]> remaining)
        end
    end) ((λ _, 0%N) <$> by_id) items.

(** The minutes an item contributes of its own. *)
Definition own_minutes (item : WorkItem) (has_children : bool) : N :=
  if occupies_time item has_children then
    match wi_duration item with
    | Some duration => planning_minutes duration
    | None => 0%N
    end
  else 0%N.

Definition has_children (remaining_children : gmap ItemId N) (id : ItemId) : bool :=
  negb (default 0 (remaining_children !! id) =? 0)%N.

(** One visit of the reduction loop: a finished subtree reaches its parent. *)
Definition add_to_parent (parents : gmap N (option N)) (result : gmap ItemId Minutes) (id : ItemId)
    : gmap ItemId Minutes :=
  match parent_of parents id with
  | None => result
  | Some parent =>
      let child_minutes := default 0%N (result !! id) in
      let parent_minutes := default 0%N (result !! parent) in
      <[parent := saturating_add u32_max parent_minutes child_minutes]> result
  end.

Definition roll_up_expected_durations (items : list WorkItem)
    : result HierarchyError (gmap ItemId Minutes) :=
  let by_id := collect_by_id items in
  let? _ :=
    if negb (size by_id =? length items) then
      match first_duplicate ∅ (wi_id <$> items) with
      | Some duplicate => Err (HierarchyError.DuplicateItem duplicate)
      | None => Ok tt
      end
    else Ok tt in
  let? remaining_children := count_item_children by_id items in
  let ready : list N := initial_ready remaining_children in
  let result :=
    map_imap (λ id item, Some (own_minutes item (has_children remaining_children id))) by_id in
  let parents := parents_map by_id in
  let '(remaining_children, _, result) :=
    strip_with parents (add_to_parent parents) (size by_id) remaining_children ready result in
  match first_key remaining_children with
  | Some id => Err (HierarchyError.Cycle id)
  | None => Ok result
  end.

(** ** Specification *)

(** The parent links of a list of items. *)
Definition item_parents (items : list WorkItem) : gmap N (option N) := parents_map (collect_by_id items).

(** What an item contributes, given the whole list. *)
Definition own_effort (items : list WorkItem) (id : ItemId) : N :=
  match collect_by_id items !! id with
  | Some item => own_minutes item (negb (bool_decide (children_of (item_parents items) id = [])))
  | None => 0%N
  end.

(** ** Lemmas *)

Lemma collect_by_id_snoc l a : collect_by_id (l ++ [a]) = <[wi_id a := a]> (collect_by_id l).
Proof. unfold collect_by_id. by rewrite foldl_app. Qed.

Lemma collect_by_id_is_Some items k : is_Some (collect_by_id items !! k) ↔ k ∈ wi_id <$> items.
Proof.
  induction items as [|a l IH] using rev_ind.
  - unfold collect_by_id. simpl. rewrite lookup_empty, elem_of_nil. split; [by intros []|done].
  - rewrite collect_by_id_snoc, fmap_app, elem_of_app, <- IH. simpl. rewrite list_elem_of_singleton, lookup_insert.
    case_decide; naive_solver eauto.
Qed.

Lemma collect_by_id_lookup items k a :
  NoDup (wi_id <$> items) → collect_by_id items !! k = Some a ↔ a ∈ items ∧ wi_id a = k.
Proof.
  revert k a. induction items as [|b l IH] using rev_ind; intros k a Hnd.
  - unfold collect_by_id. simpl. rewrite lookup_empty. set_solver.
  - rewrite fmap_app in Hnd. apply NoDup_app in Hnd as (Hl & Hd & _).
    rewrite collect_by_id_snoc, lookup_insert, elem_of_app, list_elem_of_singleton.
    case_decide as Hk; [subst k|rewrite IH by done; naive_solver].
    split; [intros; simplify_eq; auto|]. intros [[Ha| ->] Hid]; [|done].
    destruct (Hd (wi_id a)); [apply list_elem_of_fmap; eauto|]. rewrite Hid. simpl. left.
Qed.

Lemma collect_by_id_in items k a : collect_by_id items !! k = Some a → a ∈ items ∧ wi_id a = k.
Proof.
  induction items as [|b l IH] using rev_ind; [done|]. rewrite collect_by_id_snoc, elem_of_app, list_elem_of_singleton, lookup_insert.
  case_decide; naive_solver.
Qed.

Lemma size_collect_by_id items :
  size (collect_by_id items) = length items ↔ NoDup (wi_id <$> items).
Proof.
  rewrite <- size_dom.
  assert (dom (collect_by_id items) = list_to_set (wi_id <$> items)) as ->.
  { apply set_eq. intros k. by rewrite elem_of_dom, collect_by_id_is_Some, elem_of_list_to_set. }
  induction items as [|a l IH]; [split; [constructor|done]|].
  rewrite fmap_cons, list_to_set_cons. cbn [length].
  assert (size (list_to_set (wi_id <$> l) : gset N) ≤ length l) as Hle.
  { rewrite <- (length_fmap wi_id l). clear. induction (wi_id <$> l) as [|x k IHk]; simpl; [done|].
    pose proof (size_union_alt ({[x]} : gset N) (list_to_set k)) as Hu. rewrite Hu, size_singleton.
    pose proof (subseteq_size (list_to_set k ∖ {[x]} : gset N) (list_to_set k) ltac:(set_solver)). lia. }
  rewrite NoDup_cons. destruct (decide (wi_id a ∈ wi_id <$> l)) as [Hin|Hin].
  - rewrite (subseteq_union_1_L {[wi_id a]}) by set_solver. split; [lia|]. by intros [? _].
  - rewrite size_union by set_solver. rewrite size_singleton, <- IH.
    split; [intros; split; [done|lia]|intros [_ ?]; lia].
Qed.

Lemma first_duplicate_Some seen ids d :
  first_duplicate seen ids = Some d → ∃ p q, ids = p ++ d :: q ∧ (d ∈ seen ∨ d ∈ p).
Proof.
  revert seen. induction ids as [|x ids IH]; intros seen H; simpl in H; [done|].
  case_bool_decide as Hx; [simplify_eq; exists [], ids; auto|].
  apply IH in H as (p & q & -> & Hd). exists (x :: p), q. split; [done|]. set_solver.
Qed.

Lemma first_duplicate_None seen ids :
  first_duplicate seen ids = None → NoDup ids ∧ ∀ x, x ∈ ids → x ∉ seen.
Proof.
  revert seen. induction ids as [|x ids IH]; intros seen H; simpl in H.
  - split; [constructor|set_solver].
  - case_bool_decide as Hx; [done|]. apply IH in H as [Hnd Hs].
    split; [constructor; [|done]|]; set_solver.
Qed.

Lemma parents_of_collect items a :
  NoDup (wi_id <$> items) → a ∈ items → item_parents items !! wi_id a = Some (wi_parent_id a).
Proof.
  intros Hnd Ha. unfold item_parents, parents_map. rewrite lookup_fmap.
  by rewrite (proj2 (collect_by_id_lookup items (wi_id a) a Hnd)).
Qed.

Lemma ids_perm_keys items :
  NoDup (wi_id <$> items) → wi_id <$> items ≡ₚ keys (item_parents items).
Proof.
  intros Hnd. apply NoDup_Permutation; [done|apply NoDup_keys|]. intros k.
  unfold item_parents, parents_map. by rewrite elem_of_keys, lookup_fmap, fmap_is_Some, collect_by_id_is_Some.
Qed.

(** The counting loop is the one of the traversal. *)
Lemma count_item_children_eq items :
  NoDup (wi_id <$> items) →
  count_item_children (collect_by_id items) items =
  map_err (λ '(item, parent), HierarchyError.MissingParent item parent)
    (count_children_of (item_parents items) (wi_id <$> items)).
Proof.
  intros Hnd. unfold count_item_children, count_children_of, item_parents, parents_map.
  rewrite <- map_fmap_compose. change ((λ _ : option N, 0%N) ∘ node_parent) with (λ _ : WorkItem, 0%N).
  assert (∀ k, is_Some (((λ _, 0%N) <$> collect_by_id items) !! k) ↔ is_Some (collect_by_id items !! k)) as Hdom.
  { intros k. by rewrite lookup_fmap, fmap_is_Some. }
  revert Hdom. generalize ((λ _ : WorkItem, 0%N) <$> collect_by_id items) as m.
  match goal with |- ∀ m, _ → foldM ?f m _ = map_err ?h (foldM ?g m _) =>
    enough (∀ q p m, items = p ++ q → (∀ k, is_Some (m !! k) ↔ is_Some (collect_by_id items !! k)) →
      foldM f m q = map_err h (foldM g m (wi_id <$> q))) as Hgo end.
  { intros m. by apply (Hgo items [] m). }
  induction q as [|a q IH]; intros p m Hsplit Hdom; [done|]. rewrite fmap_cons. cbn [foldM].
  assert (parent_of (parents_map (collect_by_id items)) (wi_id a) = wi_parent_id a) as Hpa.
  { unfold parent_of. pose proof (parents_of_collect items a Hnd) as Hl. unfold item_parents in Hl.
    rewrite Hl by (rewrite Hsplit; set_solver). done. }
  unfold parents_map in Hpa. rewrite Hpa.
  destruct (wi_parent_id a) as [b|]; [|cbn [rbind]; apply (IH (p ++ [a])); [by rewrite <- app_assoc|done]].
  destruct (m !! b) as [c|] eqn:Em.
  - assert (is_Some (collect_by_id items !! b)) as [? ->] by (apply Hdom; by eexists). cbn [rbind].
    apply (IH (p ++ [a])); [by rewrite <- app_assoc|]. intros k. rewrite lookup_insert.
    case_decide; subst; rewrite <- Hdom; [rewrite Em|]; naive_solver.
  - assert (collect_by_id items !! b = None) as ->; [|done].
    rewrite eq_None_not_Some, <- Hdom, Em. by intros [? ?].
Qed.

(** The initial accumulator holds every item's own effort. *)
Definition initial_minutes (items : list WorkItem) (counts : gmap ItemId N) : gmap ItemId Minutes :=
  map_imap (λ id item, Some (own_minutes item (has_children counts id))) (collect_by_id items).

Lemma initial_minutes_lookup items counts id :
  count_children (item_parents items) = Ok counts → id ∈ keys (item_parents items) →
  initial_minutes items counts !! id = Some (own_effort items id).
Proof.
  intros [Hc _]%count_children_Ok Hid%elem_of_keys.
  unfold initial_minutes, own_effort. rewrite map_lookup_imap.
  unfold has_children. rewrite Hc. destruct (item_parents items !! id) as [pp|] eqn:Ep; [|by destruct Hid].
  unfold item_parents, parents_map in Ep. rewrite lookup_fmap in Ep.
  destruct (collect_by_id items !! id) as [item|]; simpl in *; [|done]. do 2 f_equal.
  by destruct (children_of (item_parents items) id).
Qed.

(** Once every parent is known, the roll-up is the traversal followed by the
    fold of the finished subtrees into their parents. *)
Lemma roll_up_shape items counts :
  NoDup (wi_id <$> items) →
  count_children_of (item_parents items) (wi_id <$> items) = Ok counts →
  roll_up_expected_durations items =
  match postorder (Q := list N) (item_parents items) with
  | Err (ForestCycle id) => Err (HierarchyError.Cycle id)
  | Err (ForestMissingParent item parent) => Err (HierarchyError.MissingParent item parent)
  | Ok order => Ok (foldl (add_to_parent (item_parents items)) (initial_minutes items counts) order)
  end.
Proof.
  intros Hnd Hc. unfold roll_up_expected_durations, postorder.
  rewrite (proj2 (Nat.eqb_eq _ _)) by (by apply size_collect_by_id). cbn [negb rbind].
  rewrite count_item_children_eq, Hc by done. cbn [map_err rbind].
  pose proof (count_children_of_same _ _ _ (ids_perm_keys items Hnd) Hc) as Hc'. rewrite Hc'.
  assert (size counts = size (collect_by_id items)) as Hsize.
  { rewrite <- !size_dom. f_equal. apply set_eq. intros k. rewrite !elem_of_dom.
    rewrite (proj1 (count_children_Ok _ _ Hc')), fmap_is_Some. unfold item_parents, parents_map.
    by rewrite lookup_fmap, fmap_is_Some. }
  rewrite Hsize. change (parents_map (collect_by_id items)) with (item_parents items).
  change (map_imap _ (collect_by_id items)) with (initial_minutes items counts).
  pose proof (strip_with_fold (item_parents items) (add_to_parent (item_parents items))
    (size (collect_by_id items)) counts (initial_ready counts : list N) [] (initial_minutes items counts)) as Hf.
  cbn [foldl] in Hf. rewrite Hf. destruct (strip _ _ _ _ _) as [[r q] order].
  by destruct (first_key r).
Qed.

(** The three ways the roll-up can go. *)
Inductive roll_up_case (items : list WorkItem) : result HierarchyError (gmap ItemId Minutes) → Prop :=
| case_duplicate d :
    first_duplicate ∅ (wi_id <$> items) = Some d →
    roll_up_case items (Err (HierarchyError.DuplicateItem d))
| case_missing i p :
    NoDup (wi_id <$> items) →
    count_children_of (item_parents items) (wi_id <$> items) = Err (i, p) →
    roll_up_case items (Err (HierarchyError.MissingParent i p))
| case_cycle id :
    NoDup (wi_id <$> items) →
    postorder (Q := list N) (item_parents items) = Err (ForestCycle id) →
    roll_up_case items (Err (HierarchyError.Cycle id))
| case_order counts order :
    NoDup (wi_id <$> items) →
    count_children (item_parents items) = Ok counts →
    postorder (Q := list N) (item_parents items) = Ok order →
    roll_up_case items
      (Ok (foldl (add_to_parent (item_parents items)) (initial_minutes items counts) order)).

Lemma roll_up_cases items : roll_up_case items (roll_up_expected_durations items).
Proof.
  destruct (decide (size (collect_by_id items) = length items)) as [Hs|Hs].
  - apply size_collect_by_id in Hs as Hnd.
    destruct (count_children_of (item_parents items) (wi_id <$> items)) as [counts|[i p]] eqn:Hc.
    + rewrite (roll_up_shape _ _ Hnd Hc).
      pose proof (count_children_of_same _ _ _ (ids_perm_keys items Hnd) Hc) as Hc'.
      destruct (postorder _) as [order|[i p|id]] eqn:Hpo; [by econstructor| |by constructor].
      unfold postorder in Hpo. rewrite Hc' in Hpo. destruct (strip _ _ _ _ _) as [[r ?] ?].
      by destruct (first_key r).
    + unfold roll_up_expected_durations. rewrite (proj2 (Nat.eqb_eq _ _)) by done.
      cbn [negb rbind]. rewrite count_item_children_eq, Hc by done. by constructor.
  - unfold roll_up_expected_durations. rewrite (proj2 (Nat.eqb_neq _ _)) by done. cbn [negb].
    destruct (first_duplicate _ _) as [d|] eqn:Ed; [by constructor|].
    apply first_duplicate_None in Ed as [Hnd _]. by apply size_collect_by_id in Hnd.
Qed.

(** The fold is the generic bottom-up reduction that passes each value up. *)
Lemma fold_is_reduce parents (order : list N) m0 fin0 :
  (∀ c p, parents !! c = Some (Some p) → is_Some (parents !! p)) →
  (∀ k, k ∈ order → is_Some (parents !! k)) →
  (∀ k, is_Some (m0 !! k) ↔ is_Some (parents !! k)) →
  ∃ fin, foldM (reduce_step parents (λ _ v, Ok v) (λ _ v, Some v)
           (λ a b, Some (saturating_add u32_max a b)) (λ id, id)) (m0, fin0) order =
         (Ok (foldl (add_to_parent parents) m0 order, fin) : result N _).
Proof.
  intros Hclosed. revert m0 fin0. induction order as [|id order IH]; intros m0 fin0 Hin Hdom; [by eexists|].
  destruct (proj2 (Hdom id) (Hin id ltac:(left))) as [v Hv]. simpl. rewrite Hv. cbn [rbind].
  unfold add_to_parent at 2. destruct (parent_of parents id) as [p|] eqn:Ep; simpl.
  - apply parent_of_Some in Ep.
    destruct (proj2 (Hdom p) (Hclosed _ _ Ep)) as [w Hw]. rewrite Hv, Hw. simpl. apply IH; [set_solver|].
    intros k. rewrite <- Hdom, lookup_insert. case_decide; [subst; rewrite Hw|]; naive_solver.
  - apply IH; [set_solver|done].
Qed.

Lemma dom_fold_add parents m0 order :
  (∀ c p, parents !! c = Some (Some p) → is_Some (m0 !! p)) →
  dom (foldl (add_to_parent parents) m0 order) = dom m0.
Proof.
  revert m0. induction order as [|id order IH]; intros m0 Hp; simpl; [done|].
  assert (dom (add_to_parent parents m0 id) = dom m0) as Hd.
  { unfold add_to_parent. destruct (parent_of parents id) as [p|] eqn:Ep; [|done].
    apply parent_of_Some, Hp, elem_of_dom in Ep. rewrite dom_insert_L. set_solver. }
  rewrite IH; [done|]. intros c p Hc. apply elem_of_dom. rewrite Hd. apply elem_of_dom. eauto.
Qed.

(** Saturating totals are capped totals. *)
Lemma foldr_saturating bound v l :
  (v <= bound)%N → foldr (saturating_add bound) v (map (N.min bound) l) = N.min bound (foldr N.add v l).
Proof. intros Hv. induction l as [|x l IH]; simpl; [lia|]. rewrite IH. unfold saturating_add. lia. Qed.

Lemma subtree_total_saturating bound parents own fuel x :
  (∀ y, (own y <= bound)%N) →
  subtree_total (saturating_add bound) parents own fuel x =
  N.min bound (subtree_total N.add parents own fuel x).
Proof.
  intros Hown. revert x. induction fuel as [|fuel IH]; intros x; simpl.
  - specialize (Hown x). lia.
  - rewrite <- foldr_saturating by done. f_equal. rewrite map_map. apply map_ext. done.
Qed.

(** ** Theorems *)

(** The roll-up returns, for every item, the recursive total of its
    subtree's own efforts, capped at [u32::MAX], and it has an entry for the
    items only. *)
Theorem roll_up_is_subtree_total items result :
  roll_up_expected_durations items = Ok result →
  (∀ id, (own_effort items id <= u32_max)%N) →
  dom result = list_to_set (wi_id <$> items) ∧
  ∀ item, item ∈ items → result !! wi_id item =
    Some (N.min u32_max
      (subtree_total N.add (item_parents items) (own_effort items) (length items) (wi_id item))).
Proof.
  intros Hr Hown. pose proof (roll_up_cases items) as Hcase. rewrite Hr in Hcase.
  inversion Hcase as [| | |counts order Hnd Hc' Hpo]; subst.
  apply (postorder_Ok (list N)) in Hpo as (Hperm & Hcf & _).
  pose proof (λ id, initial_minutes_lookup items counts id Hc') as Hinit.
  pose proof (proj2 (count_children_Ok _ _ Hc')) as Hclosed.
  assert (∀ k, is_Some (initial_minutes items counts !! k) ↔ is_Some (item_parents items !! k)) as Hdom.
  { intros k. split.
    - unfold initial_minutes. rewrite map_lookup_imap. unfold item_parents, parents_map. rewrite lookup_fmap.
      destruct (collect_by_id items !! k); simpl; [|by intros []]. by eexists.
    - intros Hk%elem_of_keys. rewrite Hinit by done. by eexists. }
  split.
  - rewrite dom_fold_add by (intros; apply Hdom; eauto). apply set_eq. intros k.
    by rewrite elem_of_dom, Hdom, <- elem_of_keys, elem_of_list_to_set, (ids_perm_keys items Hnd).
  - intros item Hitem.
    assert (wi_id item ∈ order) as Hin.
    { rewrite Hperm, <- ids_perm_keys by done. apply list_elem_of_fmap. eauto. }
    assert (∀ k, k ∈ order → is_Some (item_parents items !! k)) as Hord.
    { intros k. by rewrite Hperm, elem_of_keys. }
    destruct (fold_is_reduce _ order _ ∅ Hclosed Hord Hdom) as [fin Hfin].
    rewrite <- subtree_total_saturating by done.
    assert (NoDup order) as Hndo by (rewrite Hperm; apply NoDup_keys).
    refine (proj1 (reduce_total (saturating_add u32_max) (saturating_add_assoc _) (saturating_add_comm _)
      (item_parents items) (λ a b, Some (saturating_add u32_max a b)) (λ id, id) _
      (own_effort items) _ _ _ fin Hndo Hcf _ Hfin (wi_id item) Hin (length items) _)).
    + intros a b c Heq. by simplify_eq.
    + intros x Hx. apply Hinit. by rewrite <- Hperm.
    + by rewrite Hperm, <- ids_perm_keys, length_fmap.
Qed.

(** The roll-up succeeds exactly on complete acyclic forests of distinct
    items. *)
Theorem roll_up_succeeds_iff items :
  (∃ result, roll_up_expected_durations items = Ok result) ↔
  NoDup (wi_id <$> items) ∧ forest_ok (item_parents items).
Proof.
  pose proof (roll_up_cases items) as Hcase. split.
  - intros [result Hr]. rewrite Hr in Hcase. inversion Hcase as [| | |? ? Hnd _ Hpo]; subst.
    split; [done|]. by apply (postorder_Ok (list N)) in Hpo as (_ & _ & Hf).
  - intros [Hnd Hf]. destruct (postorder_total (list N) _ Hf) as [order' Hpo'].
    inversion Hcase as [d Hd Hr|i p _ Hc Hr|id _ Hpo Hr|counts order _ _ _ Hr]; [|..|by eexists].
    + apply first_duplicate_Some in Hd as (p & q & Heq & [?%elem_of_empty|Hp]); [done|].
      rewrite Heq in Hnd. apply NoDup_app in Hnd as (_ & Hd & _). destruct (Hd d Hp). left.
    + apply count_children_of_Err in Hc as [H1 H2]; [|by apply ids_perm_keys].
      destruct (postorder_Ok (list N) _ _ Hpo') as (_ & _ & Hf').
      specialize (Hf i ltac:(eauto)). inversion Hf as [|? ? Hp Hroot]; [congruence|]. simplify_eq.
      inversion Hroot; congruence.
    + congruence.
Qed.

(** Every error of the roll-up is accurate: a repeated identifier occurs
    twice, a missing parent is named by an item and is not in the list, and a
    reported cycle member is its own ancestor. *)
Theorem roll_up_errors_accurate items e :
  roll_up_expected_durations items = Err e →
  match e with
  | HierarchyError.DuplicateItem id => ∃ p q r, wi_id <$> items = p ++ id :: q ++ id :: r
  | HierarchyError.MissingParent id parent =>
      (∃ item, item ∈ items ∧ wi_id item = id ∧ wi_parent_id item = Some parent) ∧
      ∀ item, item ∈ items → wi_id item ≠ parent
  | HierarchyError.Cycle id => ∃ k, 0 < k ∧ ancestor (item_parents items) k id = Some id
  end.
Proof.
  intros Hr. pose proof (roll_up_cases items) as Hcase. rewrite Hr in Hcase.
  inversion Hcase as [d Hd|i p Hnd Hc|id Hnd Hpo|]; subst.
  - apply first_duplicate_Some in Hd as (p & q & Heq & [?%elem_of_empty|Hp]); [done|].
    apply list_elem_of_split in Hp as (p1 & p2 & ->). exists p1, p2, q. by rewrite Heq, <- app_assoc.
  - apply count_children_of_Err in Hc as [H1 H2]; [|by apply ids_perm_keys].
    unfold item_parents, parents_map in H1, H2. rewrite lookup_fmap in H1, H2. split.
    + destruct (collect_by_id items !! i) as [a|] eqn:Ea; [|done].
      apply collect_by_id_lookup in Ea as [Ha Hid]; [|done]. exists a. by simplify_eq/=.
    + intros item Hitem Hid. apply fmap_None in H2.
      rewrite eq_None_not_Some, collect_by_id_is_Some in H2. apply H2, list_elem_of_fmap. eauto.
  - by apply (postorder_Cycle (list N)) in Hpo.
Qed.

(** ** Witness: a project of three tasks totals its two leaves *)

Lemma own_effort_sample_le id : (own_effort sample_tree id <= u32_max)%N.
Proof.
  unfold own_effort. destruct (collect_by_id sample_tree !! id) as [a|] eqn:Ea; [|done].
  assert (Forall (λ a, (own_minutes a true <= u32_max)%N ∧ (own_minutes a false <= u32_max)%N) sample_tree) as Hf.
  { repeat constructor; done. }
  apply collect_by_id_lookup in Ea as [Ha _]; [|apply (bool_decide_unpack _); vm_compute; done].
  rewrite Forall_forall in Hf. destruct (Hf a Ha). by destruct (negb _).
Defined.

Lemma roll_up_is_subtree_total_witness :
  ∃ result, roll_up_expected_durations sample_tree = Ok result ∧ result !! 1%N = Some 50%N.
Proof.
  destruct (roll_up_expected_durations sample_tree) as [result|e] eqn:E; [|exfalso; vm_compute in E; discriminate E].
  exists result. split; [reflexivity|].
  destruct (roll_up_is_subtree_total sample_tree result E own_effort_sample_le) as [_ H].
  pose proof (H (sample_item 1 Project None 0) ltac:(unfold sample_tree; left)) as H1.
  etransitivity; [exact H1|vm_compute; reflexivity].
Defined.

Lemma roll_up_errors_accurate_witness :
  ∃ k, 0 < k ∧ ancestor (item_parents [sample_item 1 Task (Some 1%N) 5]) k 1%N = Some 1%N.
Proof.
  apply (roll_up_errors_accurate [sample_item 1 Task (Some 1%N) 5] (HierarchyError.Cycle 1%N)).
  vm_compute; reflexivity.
Defined.
