(* ===== verification/Progress.v ===== *)
(** * Progress: hierarchy summaries

    crates/dayweave-core/src/hierarchy_progress.rs: counts of leaf items and sums
    of effort estimates for every subtree of a complete forest, with the whole
    projection refused on any malformed input or any overflow past [i64::MAX].
    The theorems show that a summary is exactly the recursive total of the own
    summaries of its subtree, and that overflow is reported only when a true
    total exceeds the bound. *)
From S2P Require Import Prelude Forest Platform.

Definition MAX_HIERARCHY_PROGRESS_VALUE : N := i64_max.

Module HierarchyProgressKind.
Inductive HierarchyProgressKind : Type := Task | Project | Goal | Routine | Habit | Break | Event.
End HierarchyProgressKind.
Abbreviation HierarchyProgressKind := HierarchyProgressKind.HierarchyProgressKind.

Module HierarchyProgressStatus.
Inductive HierarchyProgressStatus : Type :=
| Inbox | Planned | Scheduled | InProgress | Paused | Completed | Skipped | Cancelled | Blocked.
End HierarchyProgressStatus.
Abbreviation HierarchyProgressStatus := HierarchyProgressStatus.HierarchyProgressStatus.

#[export] Instance HierarchyProgressKind_eq_dec : EqDecision HierarchyProgressKind.
Proof. solve_decision. Defined.
#[export] Instance HierarchyProgressStatus_eq_dec : EqDecision HierarchyProgressStatus.
Proof. solve_decision. Defined.

Record HierarchyProgressEstimate : Type := {
  minimum_seconds : N;
  expected_seconds : N;
  maximum_seconds : N
}.

Record HierarchyProgressItem : Type := {
  hp_id : ItemId;
  hp_parent_id : option ItemId;
  hp_kind : HierarchyProgressKind;
  hp_status : HierarchyProgressStatus;
  hp_has_own_effort : bool;
  hp_recurs : bool;
  hp_has_children_outside_plan : bool;
  hp_duration : option HierarchyProgressEstimate
}.

#[export] Instance HierarchyProgressItem_node : TreeNode HierarchyProgressItem := {
  node_id := hp_id;
  node_parent := hp_parent_id
}.

Record HierarchyProgressSummary : Type := {
  completed_leaf_items : N;
  skipped_leaf_items : N;
  cancelled_leaf_items : N;
  open_leaf_items : N;
  recurring_leaf_items : N;
  fixed_events : N;
  unknown_estimates : N;
  minimum_estimate_seconds : N;
  expected_estimate_seconds : N;
  maximum_estimate_seconds : N
}.

Definition default_summary : HierarchyProgressSummary :=
  {| completed_leaf_items := 0; skipped_leaf_items := 0; cancelled_leaf_items := 0;
     open_leaf_items := 0; recurring_leaf_items := 0; fixed_events := 0; unknown_estimates := 0;
     minimum_estimate_seconds := 0; expected_estimate_seconds := 0; maximum_estimate_seconds := 0 |}.

(** One field of [HierarchyProgressSummary::checked_add]. *)
Definition add_field (a b : N) : option N :=
  match checked_add u64_max a b with
  | Some c => if (MAX_HIERARCHY_PROGRESS_VALUE <? c)%N then None else Some c
  | None => None
  end.

(** [HierarchyProgressSummary::checked_add] *)
Definition summary_checked_add (a b : HierarchyProgressSummary) : option HierarchyProgressSummary :=
  completed ← add_field (completed_leaf_items a) (completed_leaf_items b);
  skipped ← add_field (skipped_leaf_items a) (skipped_leaf_items b);
  cancelled ← add_field (cancelled_leaf_items a) (cancelled_leaf_items b);
  open ← add_field (open_leaf_items a) (open_leaf_items b);
  recurring ← add_field (recurring_leaf_items a) (recurring_leaf_items b);
  fixed ← add_field (fixed_events a) (fixed_events b);
  unknown ← add_field (unknown_estimates a) (unknown_estimates b);
  minimum ← add_field (minimum_estimate_seconds a) (minimum_estimate_seconds b);
  expected ← add_field (expected_estimate_seconds a) (expected_estimate_seconds b);
  maximum ← add_field (maximum_estimate_seconds a) (maximum_estimate_seconds b);
  Some {| completed_leaf_items := completed; skipped_leaf_items := skipped;
          cancelled_leaf_items := cancelled; open_leaf_items := open;
          recurring_leaf_items := recurring; fixed_events := fixed; unknown_estimates := unknown;
          minimum_estimate_seconds := minimum; expected_estimate_seconds := expected;
          maximum_estimate_seconds := maximum |}.

Module HierarchyProgressError.
Inductive HierarchyProgressError : Type :=
| DuplicateItem (id : ItemId)
| MissingParent (item parent : ItemId)
| Cycle (id : ItemId)
| IncompleteTopology (id : ItemId)
| InvalidId
| InvalidDuration (id : ItemId)
| Overflow (id : ItemId).
End HierarchyProgressError.
Abbreviation HierarchyProgressError := HierarchyProgressError.HierarchyProgressError.

(** [HierarchyProgressError::code] *)
Definition code (e : HierarchyProgressError) : string :=
  match e with
  | HierarchyProgressError.DuplicateItem _ => "duplicate_item"
  | HierarchyProgressError.MissingParent _ _ => "missing_parent"
  | HierarchyProgressError.Cycle _ => "cycle"
  | HierarchyProgressError.IncompleteTopology _ => "incomplete_topology"
  | HierarchyProgressError.InvalidId => "invalid_id"
  | HierarchyProgressError.InvalidDuration _ => "invalid_duration"
  | HierarchyProgressError.Overflow _ => "overflow"
  end.

(** The checks of [index_items] before and after the insertion. *)
Definition check_ids (item : HierarchyProgressItem) : result HierarchyProgressError unit :=
  if is_nil (hp_id item) || match hp_parent_id item with Some id => is_nil id | None => false end
  then Err HierarchyProgressError.InvalidId else Ok tt.

Definition estimate_invalid (d : HierarchyProgressEstimate) : bool :=
  (minimum_seconds d =? 0)%N || (expected_seconds d <? minimum_seconds d)%N ||
  (maximum_seconds d <? expected_seconds d)%N ||
  (MAX_HIERARCHY_PROGRESS_VALUE <? maximum_seconds d)%N.

Definition check_content (item : HierarchyProgressItem) : result HierarchyProgressError unit :=
  if hp_has_children_outside_plan item then Err (HierarchyProgressError.IncompleteTopology (hp_id item))
  else if match hp_duration item with Some d => estimate_invalid d | None => false end
  then Err (HierarchyProgressError.InvalidDuration (hp_id item))
  else Ok tt.

Definition index_items (items : list HierarchyProgressItem)
    : result HierarchyProgressError (gmap ItemId HierarchyProgressItem) :=
  index_by check_ids check_content (λ item, HierarchyProgressError.DuplicateItem (hp_id item)) items.

Definition flag (b : bool) : N := if b then 1%N else 0%N.

Definition has_effort (item : HierarchyProgressItem) : bool :=
  match hp_kind item with
  | HierarchyProgressKind.Event => false
  | HierarchyProgressKind.Project | HierarchyProgressKind.Goal | HierarchyProgressKind.Routine =>
      hp_has_own_effort item
  | _ => true
  end.

Definition own_summary (item : HierarchyProgressItem) (is_leaf is_recurring : bool)
    : HierarchyProgressSummary :=
  if is_recurring then
    {| completed_leaf_items := 0; skipped_leaf_items := 0; cancelled_leaf_items := 0;
       open_leaf_items := 0; recurring_leaf_items := flag is_leaf; fixed_events := 0;
       unknown_estimates := 0; minimum_estimate_seconds := 0; expected_estimate_seconds := 0;
       maximum_estimate_seconds := 0 |}
  else
    let events := flag (bool_decide (hp_kind item = HierarchyProgressKind.Event)) in
    if negb is_leaf then
      {| completed_leaf_items := 0; skipped_leaf_items := 0; cancelled_leaf_items := 0;
         open_leaf_items := 0; recurring_leaf_items := 0; fixed_events := events;
         unknown_estimates := 0; minimum_estimate_seconds := 0; expected_estimate_seconds := 0;
         maximum_estimate_seconds := 0 |}
    else
      let '(completed, skipped, cancelled, open) :=
        match hp_status item with
        | HierarchyProgressStatus.Completed => (1, 0, 0, 0)
        | HierarchyProgressStatus.Skipped => (0, 1, 0, 0)
        | HierarchyProgressStatus.Cancelled => (0, 0, 1, 0)
        | _ => (0, 0, 0, 1)
        end%N in
      let '(unknown, minimum, expected, maximum) :=
        if has_effort item then
          match hp_duration item with
          | Some d => (0%N, minimum_seconds d, expected_seconds d, maximum_seconds d)
          | None => (1, 0, 0, 0)%N
          end
        else (0, 0, 0, 0)%N in
      {| completed_leaf_items := completed; skipped_leaf_items := skipped;
         cancelled_leaf_items := cancelled; open_leaf_items := open; recurring_leaf_items := 0;
         fixed_events := events; unknown_estimates := unknown;
         minimum_estimate_seconds := minimum; expected_estimate_seconds := expected;
         maximum_estimate_seconds := maximum |}.

(** The traversal's failures, as this file reports them. *)
Definition of_forest_error (e : forest_error) : HierarchyProgressError :=
  match e with
  | ForestMissingParent item parent => HierarchyProgressError.MissingParent item parent
  | ForestCycle item => HierarchyProgressError.Cycle item
  end.

(** The [summaries] map before the reduction: [child_counts] is the count map
    of the traversal, [recurring] the inherited recurrence marks. *)
Definition own_summaries (by_id : gmap ItemId HierarchyProgressItem) (child_counts : gmap ItemId N)
    (recurring : gmap ItemId bool) : gmap ItemId HierarchyProgressSummary :=
  map_imap (λ id item,
    Some (own_summary item (default 0 (child_counts !! id) =? 0)%N (default false (recurring !! id)))) by_id.

Definition roll_up_hierarchy_progress (items : list HierarchyProgressItem)
    : result HierarchyProgressError (gmap ItemId HierarchyProgressSummary) :=
  let? by_id := index_items items in
  let parents := parents_map by_id in
  let? child_counts :=
    map_err (λ '(item, parent), HierarchyProgressError.MissingParent item parent) (count_children parents) in
  let? order := map_err of_forest_error (postorder (Q := gset N) parents) in
  let recurring :=
    mark_inherited parents (λ id, match by_id !! id with Some item => hp_recurs item | None => false end) order in
  let summaries := own_summaries by_id child_counts recurring in
  foldM (pass_up_step parents summary_checked_add HierarchyProgressError.Overflow) summaries order.

(** ** Specification *)

(** Fieldwise addition without bounds. *)
Definition summary_add (a b : HierarchyProgressSummary) : HierarchyProgressSummary :=
  {| completed_leaf_items := completed_leaf_items a + completed_leaf_items b;
     skipped_leaf_items := skipped_leaf_items a + skipped_leaf_items b;
     cancelled_leaf_items := cancelled_leaf_items a + cancelled_leaf_items b;
     open_leaf_items := open_leaf_items a + open_leaf_items b;
     recurring_leaf_items := recurring_leaf_items a + recurring_leaf_items b;
     fixed_events := fixed_events a + fixed_events b;
     unknown_estimates := unknown_estimates a + unknown_estimates b;
     minimum_estimate_seconds := minimum_estimate_seconds a + minimum_estimate_seconds b;
     expected_estimate_seconds := expected_estimate_seconds a + expected_estimate_seconds b;
     maximum_estimate_seconds := maximum_estimate_seconds a + maximum_estimate_seconds b |}%N.

(** The fields of a summary, in order. *)
Definition fields (s : HierarchyProgressSummary) : list N :=
  [completed_leaf_items s; skipped_leaf_items s; cancelled_leaf_items s; open_leaf_items s;
   recurring_leaf_items s; fixed_events s; unknown_estimates s;
   minimum_estimate_seconds s; expected_estimate_seconds s; maximum_estimate_seconds s].

Definition within_bound (s : HierarchyProgressSummary) : Prop :=
  Forall (λ n, (n <= MAX_HIERARCHY_PROGRESS_VALUE)%N) (fields s).

(** What a node contributes of its own, given the whole forest: whether it is a
    leaf, and whether it or an ancestor recurs. *)
Definition recurs_flag (items : list HierarchyProgressItem) (id : ItemId) : bool :=
  match find_node items id with Some item => hp_recurs item | None => false end.

Definition node_summary (items : list HierarchyProgressItem) (id : ItemId) : HierarchyProgressSummary :=
  match find_node items id with
  | Some item =>
      own_summary item (bool_decide (children_of (forest_of items) id = []))
        (inherits (forest_of items) (recurs_flag items) (length items) id)
  | None => default_summary
  end.

(** The recursive total of a subtree. *)
Definition total_summary (items : list HierarchyProgressItem) (id : ItemId) : HierarchyProgressSummary :=
  subtree_total summary_add (forest_of items) (node_summary items) (S (length items)) id.

(** An input the projection admits: distinct non-nil identifiers, complete
    topology, well-formed estimates, and an acyclic closed forest. *)
Record admissible (items : list HierarchyProgressItem) : Prop := {
  ad_nodup : NoDup (hp_id <$> items);
  ad_items : Forall (λ item, check_ids item = Ok tt ∧ check_content item = Ok tt) items;
  ad_forest : forest_ok (forest_of items)
}.

(** ** Lemmas *)

Lemma summary_add_assoc a b c : summary_add a (summary_add b c) = summary_add (summary_add a b) c.
Proof. unfold summary_add. simpl. by rewrite !N.add_assoc. Qed.

Lemma summary_add_comm a b : summary_add a b = summary_add b a.
Proof. unfold summary_add. f_equal; apply N.add_comm. Qed.

Lemma add_field_Some a b c :
  add_field a b = Some c ↔ c = (a + b)%N ∧ (a + b <= MAX_HIERARCHY_PROGRESS_VALUE)%N.
Proof.
  unfold add_field. destruct (checked_add u64_max a b) as [d|] eqn:E.
  - apply checked_add_Some in E as [-> _].
    destruct (MAX_HIERARCHY_PROGRESS_VALUE <? a + b)%N eqn:E; bool_to_prop; naive_solver lia.
  - split; [done|]. intros [-> Hle]. exfalso.
    assert (checked_add u64_max a b = Some (a + b)%N) as Hc; [|congruence].
    apply checked_add_Some. split; [done|]. etransitivity; [exact Hle|].
    unfold MAX_HIERARCHY_PROGRESS_VALUE, i64_max, u64_max. lia.
Qed.

(** Adding summaries succeeds exactly when every field of the sum is in bounds. *)
Lemma summary_checked_add_Some a b c :
  summary_checked_add a b = Some c ↔ c = summary_add a b ∧ within_bound (summary_add a b).
Proof.
  unfold summary_checked_add, within_bound, fields. rewrite !Forall_cons, Forall_nil.
  split.
  - intros H. repeat (apply bind_Some in H; destruct H as (? & Hx & H); apply add_field_Some in Hx; destruct Hx as [-> ?]).
    simplify_eq. split; [reflexivity|]. cbn. repeat split; assumption.
  - intros (-> & ? & ? & ? & ? & ? & ? & ? & ? & ? & ? & _).
    repeat (apply bind_Some; eexists; split; [apply add_field_Some; split; [reflexivity|done]|]). done.
Qed.

(** A sum in bounds has its parts in bounds. *)
Lemma within_bound_add_l a b : within_bound (summary_add a b) → within_bound a.
Proof. unfold within_bound, fields. rewrite !Forall_cons. simpl. intuition lia. Qed.

Lemma within_bound_foldr a l : within_bound (foldr summary_add a l) → within_bound a.
Proof.
  induction l as [|b l IH]; simpl; [done|]. intros H. apply IH.
  rewrite summary_add_comm in H. by eapply within_bound_add_l.
Qed.

Section indexed.
Variable items : list HierarchyProgressItem.
Variable by_id : gmap ItemId HierarchyProgressItem.
Hypothesis Hindex : indexed check_ids check_content items by_id.

(** The summaries before the reduction are the nodes' own contributions. *)
Lemma own_summaries_lookup counts order id :
  count_children (parents_map by_id) = Ok counts →
  postorder (Q := gset N) (parents_map by_id) = Ok order →
  is_Some (forest_of items !! id) →
  own_summaries by_id counts (mark_inherited (parents_map by_id)
    (λ id, match by_id !! id with Some item => hp_recurs item | None => false end) order) !! id =
  Some (node_summary items id).
Proof using Hindex.
  pose proof (indexed_parents _ _ Hindex) as Hpar.
  pose proof (λ k, indexed_find _ _ k Hindex) as Hfind.
  intros Hc Hpo Hid. apply (postorder_Ok (gset N)) in Hpo as (Hperm & Hcf & Hok).
  pose proof Hid as Hin. rewrite <- elem_of_keys, <- Hpar, <- Hperm in Hin.
  unfold own_summaries, node_summary. rewrite map_lookup_imap, Hfind.
  destruct (find_node items id) as [item|] eqn:Ef.
  2:{ rewrite <- Hfind in Ef. rewrite <- Hpar in Hid. unfold parents_map in Hid.
      rewrite lookup_fmap, Ef in Hid. by destruct Hid. }
  assert (NoDup order) as Hnd by (rewrite Hperm; apply NoDup_keys).
  assert (∀ c p, c ∈ order → parents_map by_id !! c = Some (Some p) → p ∈ order) as Hclosed.
  { intros c p _ Hp. rewrite Hperm. apply elem_of_keys. by eapply count_children_Ok. }
  simpl. rewrite (mark_inherited_spec _ _ _ Hnd Hcf Hclosed id (length items) Hin)
    by (by rewrite Hperm, Hpar, length_keys_forest by apply Hindex).
  simpl. rewrite (proj1 (count_children_Ok _ _ Hc)), Hpar.
  destruct Hid as [pp ->]. simpl. do 2 f_equal.
  - destruct (children_of (forest_of items) id); simpl; by try case_bool_decide.
  - assert (∀ fuel x, inherits (forest_of items)
      (λ id0, match by_id !! id0 with Some item => hp_recurs item | None => false end) fuel x =
      inherits (forest_of items) (recurs_flag items) fuel x) as Hi; [|apply Hi].
    clear Hc. induction fuel as [|fuel IH]; intros x; simpl; unfold recurs_flag at 1; rewrite Hfind; [done|].
    f_equal. destruct (parent_of (forest_of items) x); [apply IH|done].
Qed.
End indexed.

(** An admissible input reaches the reduction, over the nodes' own summaries. *)
Lemma roll_up_admissible items :
  admissible items → ∃ order summaries,
    order ≡ₚ keys (forest_of items) ∧ children_first (forest_of items) order ∧
    (∀ c p, forest_of items !! c = Some (Some p) → is_Some (forest_of items !! p)) ∧
    (∀ id, is_Some (forest_of items !! id) → summaries !! id = Some (node_summary items id)) ∧
    (∀ id, is_Some (summaries !! id) → is_Some (forest_of items !! id)) ∧
    roll_up_hierarchy_progress items =
      foldM (pass_up_step (forest_of items) summary_checked_add HierarchyProgressError.Overflow)
        summaries order.
Proof.
  intros [Hnd Hitems Hforest]. unfold roll_up_hierarchy_progress, index_items.
  destruct (index_by_total check_ids check_content (λ item, HierarchyProgressError.DuplicateItem (hp_id item)) items)
    as [by_id Hidx]; [done|by rewrite <- Forall_forall|].
  rewrite Hidx. apply index_by_Ok in Hidx. cbn [rbind].
  pose proof (indexed_parents _ _ Hidx) as Hpar.
  destruct (postorder_total (gset N) (parents_map by_id)) as [order Hpo]; [by rewrite Hpar|].
  destruct (count_children (parents_map by_id)) as [counts|[i p]] eqn:Hc.
  2:{ unfold postorder in Hpo. by rewrite Hc in Hpo. }
  rewrite Hpo. cbn [map_err rbind].
  destruct (postorder_Ok (gset N) _ _ Hpo) as (Hperm & Hcf & _).
  eexists order, _. rewrite Hpar in *. split_and!; [done|done|..|reflexivity].
  - apply (count_children_Ok _ _ Hc).
  - intros id Hid. rewrite <- (indexed_parents _ _ Hidx) in *.
    rewrite (own_summaries_lookup _ _ Hidx _ _ _ Hc Hpo); [done|]. by rewrite <- (indexed_parents _ _ Hidx).
  - intros id. unfold own_summaries. rewrite map_lookup_imap. rewrite <- (indexed_parents _ _ Hidx).
    unfold parents_map. rewrite lookup_fmap. destruct (by_id !! id); simpl; [by eexists|by intros []].
Qed.

(** A successful projection has an admissible input. *)
Lemma roll_up_Ok_admissible items summaries :
  roll_up_hierarchy_progress items = Ok summaries → admissible items.
Proof.
  unfold roll_up_hierarchy_progress, index_items.
  intros (by_id & Hidx%index_by_Ok & H)%rbind_ok.
  apply rbind_ok in H as (counts & _ & H). apply rbind_ok in H as (order & Hpo & _).
  destruct (postorder (parents_map by_id)) as [order'|] eqn:Ho; [clear Hpo; rename Ho into Hpo|done].
  apply (postorder_Ok (gset N)) in Hpo as (_ & _ & Hok).
  rewrite (indexed_parents _ _ Hidx) in Hok. split; [apply Hidx| |done].
  apply Forall_forall. intros a Ha. split; by apply Hidx.
Qed.

Lemma node_summary_within items id : admissible items → within_bound (node_summary items id).
Proof.
  intros [Hnd Hitems _]. unfold node_summary, within_bound.
  destruct (find_node items id) as [item|] eqn:Ef.
  2:{ unfold fields, default_summary. simpl. repeat constructor; unfold MAX_HIERARCHY_PROGRESS_VALUE, i64_max; lia. }
  apply find_node_Some in Ef as [Ha _]; [|done]. rename item into a.
  rewrite Forall_forall in Hitems. destruct (Hitems a Ha) as [_ Hc]. unfold check_content in Hc.
  assert (∀ d, hp_duration a = Some d → (minimum_seconds d <= MAX_HIERARCHY_PROGRESS_VALUE)%N ∧
    (expected_seconds d <= MAX_HIERARCHY_PROGRESS_VALUE)%N ∧ (maximum_seconds d <= MAX_HIERARCHY_PROGRESS_VALUE)%N) as Hd.
  { intros d Hd. rewrite Hd in Hc. destruct (hp_has_children_outside_plan a); [done|].
    destruct (estimate_invalid d) eqn:E; [done|]. unfold estimate_invalid in E. bool_to_prop. lia. }
  unfold own_summary, fields, flag. clear Hc.
  assert (1 <= MAX_HIERARCHY_PROGRESS_VALUE)%N by (unfold MAX_HIERARCHY_PROGRESS_VALUE, i64_max; lia).
  destruct (inherits _ _ _ _); [|destruct (bool_decide (children_of _ _ = []))].
  - rewrite !Forall_cons, Forall_nil. simpl. repeat split; try case_match; lia.
  - destruct (has_effort a); [destruct (hp_duration a) as [d|]; [specialize (Hd d eq_refl)|]|];
      destruct (hp_status a); rewrite !Forall_cons, Forall_nil; simpl; repeat split; try case_match; lia.
  - rewrite !Forall_cons, Forall_nil. simpl. repeat split; try case_match; lia.
Qed.

Lemma roll_up_progress_total_aux items summaries :
  roll_up_hierarchy_progress items = Ok summaries →
  ∀ item, item ∈ items → summaries !! hp_id item = Some (total_summary items (hp_id item)).
Proof.
  intros Hr item Hitem. pose proof (roll_up_Ok_admissible _ _ Hr) as Had.
  destruct (roll_up_admissible items Had) as (order & s0 & Hperm & Hcf & Hclosed & Hs0 & Hdom0 & Heq).
  rewrite Heq in Hr.
  assert (NoDup order) as Hnd by (rewrite Hperm; apply NoDup_keys).
  assert (hp_id item ∈ keys (forest_of items)) as Hin.
  { apply elem_of_keys, forest_of_is_Some, list_elem_of_fmap. eauto. }
  refine (pass_up_total summary_add summary_add_assoc summary_add_comm (forest_of items)
    summary_checked_add HierarchyProgressError.Overflow _ (node_summary items) s0 order _ Hnd Hcf _ Hr _ _ _ _).
  - by intros a b c [-> _]%summary_checked_add_Some.
  - intros x Hx. apply Hs0. by rewrite <- elem_of_keys, <- Hperm.
  - by rewrite Hperm.
  - rewrite Hperm, length_keys_forest by apply Had. lia.
Qed.

Lemma roll_up_progress_available_aux items :
  admissible items →
  match roll_up_hierarchy_progress items with
  | Ok _ => ∀ item, item ∈ items → within_bound (total_summary items (hp_id item))
  | Err e => ∃ item, item ∈ items ∧ e = HierarchyProgressError.Overflow (hp_id item) ∧
               ¬ within_bound (total_summary items (hp_id item))
  end.
Proof.
  intros Had.
  destruct (roll_up_admissible items Had) as (order & s0 & Hperm & Hcf & Hclosed & Hs0 & Hdom0 & Heq).
  assert (NoDup order) as Hnd by (rewrite Hperm; apply NoDup_keys).
  destruct (roll_up_hierarchy_progress items) as [summaries|e] eqn:Hr.
  - intros item Hitem. pose proof (roll_up_progress_total_aux _ _ Hr item Hitem) as Ht.
    enough (∀ x v, summaries !! x = Some v → within_bound v) as Hw by eauto.
    symmetry in Heq. revert Heq. apply (foldM_inv _ (λ _ m, ∀ x v, m !! x = Some v → within_bound v)).
    + intros x v Hv. destruct (forest_of items !! x) eqn:Ex.
      * rewrite Hs0 in Hv by eauto. simplify_eq. by apply node_summary_within.
      * destruct (Hdom0 x) as [? ?]; [by eexists|congruence].
    + intros p a q m m' _ IH Hstep x v Hv. unfold pass_up_step in Hstep.
      destruct (parent_of _ a) as [b|]; [|simplify_eq; eauto].
      destruct (m !! a) as [w|]; [|simplify_eq; eauto].
      destruct (m !! b ≫= _) as [u|] eqn:Eu; simplify_eq. rewrite lookup_insert in Hv.
      case_decide; [simplify_eq|eauto].
      by apply bind_Some in Eu as (? & _ & [-> ?]%summary_checked_add_Some).
  - symmetry in Heq.
    destruct (pass_up_overflow summary_add summary_add_assoc summary_add_comm (forest_of items)
      summary_checked_add HierarchyProgressError.Overflow) with (own := node_summary items) (acc0 := s0)
      (order := order) (e := e) (fuel := S (length items)) as (p & a & t & rest & -> & Hp & Hab & Htot);
      try done.
    + by intros a b c [-> _]%summary_checked_add_Some.
    + intros k. by rewrite Hperm, elem_of_keys.
    + rewrite Hperm, length_keys_forest by apply Had. lia.
    + apply forest_of_is_Some, list_elem_of_fmap in Hp as (item & -> & Hitem).
      exists item. split_and!; [done..|]. unfold total_summary. cbn [node_id HierarchyProgressItem_node] in Htot. rewrite Htot.
      intros Hw%within_bound_foldr. destruct (summary_checked_add a t) eqn:E; [done|].
      assert (summary_checked_add a t = Some (summary_add a t)) as Hc by (by apply summary_checked_add_Some).
      congruence.
Qed.

(** ** Theorems *)

(** A summary of the projection is the recursive total, over the subtree, of
    what each node contributes of its own. *)
Theorem roll_up_progress_total items summaries :
  roll_up_hierarchy_progress items = Ok summaries →
  ∀ item, item ∈ items → summaries !! hp_id item = Some (total_summary items (hp_id item)).
Proof. apply roll_up_progress_total_aux. Qed.

(** On an admissible input the projection is available exactly when every
    total is within the portable bound; otherwise the error is an overflow at
    a node whose total exceeds it. *)
Theorem roll_up_progress_available items :
  admissible items →
  match roll_up_hierarchy_progress items with
  | Ok _ => ∀ item, item ∈ items → within_bound (total_summary items (hp_id item))
  | Err e => ∃ item, item ∈ items ∧ e = HierarchyProgressError.Overflow (hp_id item) ∧
               ¬ within_bound (total_summary items (hp_id item))
  end.
Proof. apply roll_up_progress_available_aux. Qed.

(** Every error of the projection is accurate. *)
Theorem roll_up_progress_errors items e :
  roll_up_hierarchy_progress items = Err e →
  match e with
  | HierarchyProgressError.InvalidId =>
      ∃ item, item ∈ items ∧ (hp_id item = 0%N ∨ hp_parent_id item = Some 0%N)
  | HierarchyProgressError.DuplicateItem id => id ∈ hp_id <$> items ∧ ¬ NoDup (hp_id <$> items)
  | HierarchyProgressError.IncompleteTopology id =>
      ∃ item, item ∈ items ∧ hp_id item = id ∧ hp_has_children_outside_plan item = true
  | HierarchyProgressError.InvalidDuration id =>
      ∃ item d, item ∈ items ∧ hp_id item = id ∧ hp_duration item = Some d ∧ estimate_invalid d = true
  | HierarchyProgressError.MissingParent id parent =>
      forest_of items !! id = Some (Some parent) ∧ parent ∉ hp_id <$> items
  | HierarchyProgressError.Cycle id => ∃ k, 0 < k ∧ ancestor (forest_of items) k id = Some id
  | HierarchyProgressError.Overflow id => ¬ within_bound (total_summary items id)
  end.
Proof.
  intros Hr. pose proof Hr as Hr0. unfold roll_up_hierarchy_progress in Hr.
  destruct (index_items items) as [by_id|e'] eqn:Hidx; cbn [rbind] in Hr.
  - apply index_by_Ok in Hidx. pose proof (indexed_parents _ _ Hidx) as Hpar. rewrite Hpar in Hr.
    destruct (count_children _) as [counts|[i p]] eqn:Hc; cbn [map_err rbind] in Hr.
    + destruct (postorder _) as [order|[i p|id]] eqn:Hpo; cbn [map_err rbind of_forest_error] in Hr.
      * assert (admissible items) as Had.
        { apply (postorder_Ok (gset N)) in Hpo as (_ & _ & Hok). split; [apply Hidx| |done].
          apply Forall_forall. intros a Ha. split; by apply Hidx. }
        pose proof (roll_up_progress_available_aux items Had) as Hav. rewrite Hr0 in Hav.
        by destruct Hav as (item & _ & -> & Hw).
      * unfold postorder in Hpo. rewrite Hc in Hpo. destruct (strip _ _ _ _ _) as [[r ?] ?].
        by destruct (first_key r).
      * simplify_eq. by apply (postorder_Cycle (gset N)) in Hpo.
    + simplify_eq. apply count_children_Err in Hc as [H1 H2]. split; [done|].
      intros Hin. change (p ∈ node_id <$> items) in Hin. apply forest_of_is_Some in Hin as [? Hin]. congruence.
  - simplify_eq. apply index_by_Err in Hidx as (a & Ha & [Hb|[Hb|[-> Hd]]]).
    + unfold check_ids in Hb. destruct (is_nil (hp_id a) || _) eqn:E; [|done]. simplify_eq.
      exists a. split; [done|]. unfold is_nil in E. destruct (hp_parent_id a); simpl in E; repeat bool_to_prop;
        apply orb_true_iff in E as [E|E]; bool_to_prop; subst; auto; done.
    + unfold check_content in Hb. destruct (hp_has_children_outside_plan a) eqn:Eo; [simplify_eq; eauto|].
      destruct (hp_duration a) as [d|] eqn:Ed; [|done]. destruct (estimate_invalid d) eqn:Ei; [|done].
      simplify_eq. eauto 8.
    + split; [apply list_elem_of_fmap; eauto|done].
Qed.

(** ** Witnesses *)

Definition sample_progress (id : ItemId) (parent : option ItemId) (seconds : N) (recurs : bool)
    : HierarchyProgressItem :=
  {| hp_id := id; hp_parent_id := parent; hp_kind := HierarchyProgressKind.Task;
     hp_status := HierarchyProgressStatus.Planned; hp_has_own_effort := false; hp_recurs := recurs;
     hp_has_children_outside_plan := false;
     hp_duration := Some {| minimum_seconds := seconds; expected_seconds := seconds; maximum_seconds := seconds |} |}.

Definition sample_progress_tree : list HierarchyProgressItem :=
  [sample_progress 1 None 60 false; sample_progress 2 (Some 1%N) 120 false;
   sample_progress 3 (Some 1%N) 300 false; sample_progress 4 (Some 1%N) 30 true].

Lemma sample_progress_tree_ok :
  ∃ summaries, roll_up_hierarchy_progress sample_progress_tree = Ok summaries.
Proof.
  destruct (roll_up_hierarchy_progress sample_progress_tree) eqn:E; [by eexists|].
  exfalso. vm_compute in E. discriminate E.
Defined.

Lemma roll_up_progress_total_witness :
  ∃ summaries s, roll_up_hierarchy_progress sample_progress_tree = Ok summaries ∧
    summaries !! 1%N = Some s ∧ fields s = [0; 0; 0; 2; 1; 0; 0; 420; 420; 420]%N.
Proof.
  destruct sample_progress_tree_ok as [summaries E].
  exists summaries, (total_summary sample_progress_tree 1). split; [exact E|]. split.
  - apply (roll_up_progress_total sample_progress_tree summaries E (sample_progress 1 None 60 false)).
    unfold sample_progress_tree. left.
  - vm_compute. reflexivity.
Defined.

Lemma sample_progress_admissible : admissible sample_progress_tree.
Proof. destruct sample_progress_tree_ok as [summaries E]. exact (roll_up_Ok_admissible _ _ E). Qed.

Lemma roll_up_progress_available_witness :
  match roll_up_hierarchy_progress sample_progress_tree with
  | Ok _ => ∀ item, item ∈ sample_progress_tree →
              within_bound (total_summary sample_progress_tree (hp_id item))
  | Err _ => False
  end.
Proof.
  pose proof (roll_up_progress_available sample_progress_tree sample_progress_admissible) as H.
  destruct sample_progress_tree_ok as [summaries E]. rewrite E in *. exact H.
Defined.

Lemma roll_up_progress_errors_witness :
  ∃ k, 0 < k ∧ ancestor (forest_of [sample_progress 1 (Some 1%N) 5 false]) k 1%N = Some 1%N.
Proof.
  apply (roll_up_progress_errors [sample_progress 1 (Some 1%N) 5 false] (HierarchyProgressError.Cycle 1)).
  vm_compute; reflexivity.
Defined.
