(* ===== verification/Completion.v ===== *)
(** * Completion: completion decisions over a hierarchy

    crates/dayweave-core/src/hierarchy_completion.rs: bottom-up evaluation of
    which items of a complete forest are completed, reopened or kept open.  The
    theorems characterise the evaluation as the solution of its local equation
    at every node, show that an automatic completion always rests on at least
    one required descendant and that all of them are completed, that the
    counts partition the required descendants, and that applying the decisions
    and evaluating again changes nothing. *)
From S2P Require Import Prelude Forest Platform Progress.

Module HierarchyCompletionOverride.
Inductive HierarchyCompletionOverride : Type := Automatic | KeepOpen | Complete.
End HierarchyCompletionOverride.
Abbreviation HierarchyCompletionOverride := HierarchyCompletionOverride.HierarchyCompletionOverride.

Module Provenance.
Inductive HierarchyCompletionProvenance : Type :=
| Automatic (prior_open_status : HierarchyProgressStatus)
| Manual (prior_open_status : HierarchyProgressStatus).
End Provenance.
Abbreviation HierarchyCompletionProvenance := Provenance.HierarchyCompletionProvenance.

Definition prior_open_status (p : HierarchyCompletionProvenance) : HierarchyProgressStatus :=
  match p with Provenance.Automatic s | Provenance.Manual s => s end.

Inductive HierarchyCompletionScope : Type :=
| OneOff
| InOccurrence (root_id : ItemId) (occurrence_id : OccurrenceId).

Record HierarchyCompletionItem : Type := {
  hc_id : ItemId;
  hc_parent_id : option ItemId;
  hc_status : HierarchyProgressStatus;
  hc_required_for_parent : bool;
  hc_recurs : bool;
  hc_has_children_outside_plan : bool;
  hc_manual_override : HierarchyCompletionOverride;
  hc_provenance : option HierarchyCompletionProvenance
}.

#[export] Instance HierarchyCompletionItem_node : TreeNode HierarchyCompletionItem := {
  node_id := hc_id;
  node_parent := hc_parent_id
}.

Module Readiness.
Inductive HierarchyCompletionReadiness : Type :=
| NoRequiredDescendants
| RequiredDescendantsIncomplete
| OccurrenceEvidenceRequired
| AllRequiredDescendantsCompleted.
End Readiness.
Abbreviation HierarchyCompletionReadiness := Readiness.HierarchyCompletionReadiness.

Module Action.
Inductive HierarchyCompletionAction : Type :=
| Unchanged
| OccurrenceEvidenceRequired
| AutomaticallyCompleted
| AutomaticallyReopened
| ManuallyCompleted
| ManuallyKeptOpen
| ManualCompletionReleased.
End Action.
Abbreviation HierarchyCompletionAction := Action.HierarchyCompletionAction.

Record HierarchyCompletionCounts : Type := {
  required_descendants : N;
  completed : N;
  incomplete : N;
  evidence_required : N
}.

Definition default_counts : HierarchyCompletionCounts :=
  {| required_descendants := 0; completed := 0; incomplete := 0; evidence_required := 0 |}.

Record HierarchyCompletionDecision : Type := {
  hd_status : HierarchyProgressStatus;
  hd_provenance : option HierarchyCompletionProvenance;
  hd_action : HierarchyCompletionAction;
  hd_readiness : HierarchyCompletionReadiness;
  hd_counts : HierarchyCompletionCounts;
  hd_occurrence_evidence_required : bool
}.

Record HierarchyCompletionEvaluation : Type := {
  he_scope : HierarchyCompletionScope;
  he_decisions : gmap ItemId HierarchyCompletionDecision
}.

Module HierarchyCompletionError.
Inductive HierarchyCompletionError : Type :=
| InvalidId
| DuplicateItem (id : ItemId)
| MissingParent (item parent : ItemId)
| Cycle (id : ItemId)
| IncompleteTopology (id : ItemId)
| InvalidProvenance (id : ItemId)
| MissingPriorOpenStatus (id : ItemId)
| AmbiguousTerminalParent (id : ItemId)
| InvalidOccurrenceScope
| Overflow (id : ItemId).
End HierarchyCompletionError.
Abbreviation HierarchyCompletionError := HierarchyCompletionError.HierarchyCompletionError.

#[export] Instance HierarchyCompletionOverride_eq_dec : EqDecision HierarchyCompletionOverride.
Proof. solve_decision. Defined.
#[export] Instance HierarchyCompletionProvenance_eq_dec : EqDecision HierarchyCompletionProvenance.
Proof. solve_decision. Defined.
#[export] Instance HierarchyCompletionReadiness_eq_dec : EqDecision HierarchyCompletionReadiness.
Proof. solve_decision. Defined.

(** ** Counts *)

(** Which of the three categories a child falls in. *)
Definition branch_of (child : HierarchyCompletionDecision) : option HierarchyCompletionCounts :=
  let branch := hd_counts child in
  required ← checked_add u64_max (required_descendants branch) 1;
  if hd_occurrence_evidence_required child then
    evidence ← checked_add u64_max (evidence_required branch) 1;
    Some {| required_descendants := required; completed := completed branch;
            incomplete := incomplete branch; evidence_required := evidence |}
  else if bool_decide (hd_status child = HierarchyProgressStatus.Completed) then
    done ← checked_add u64_max (completed branch) 1;
    Some {| required_descendants := required; completed := done;
            incomplete := incomplete branch; evidence_required := evidence_required branch |}
  else
    open ← checked_add u64_max (incomplete branch) 1;
    Some {| required_descendants := required; completed := completed branch;
            incomplete := open; evidence_required := evidence_required branch |}.

(** [HierarchyCompletionCounts::add_branch] *)
Definition add_branch (self : HierarchyCompletionCounts) (child : HierarchyCompletionDecision)
    : option HierarchyCompletionCounts :=
  branch ← branch_of child;
  required ← checked_add u64_max (required_descendants self) (required_descendants branch);
  done ← checked_add u64_max (completed self) (completed branch);
  open ← checked_add u64_max (incomplete self) (incomplete branch);
  evidence ← checked_add u64_max (evidence_required self) (evidence_required branch);
  if (required <=? i64_max)%N then
    Some {| required_descendants := required; completed := done; incomplete := open;
            evidence_required := evidence |}
  else None.

(** ** Validation *)

Definition is_open (status : HierarchyProgressStatus) : bool :=
  match status with
  | HierarchyProgressStatus.Inbox | HierarchyProgressStatus.Planned
  | HierarchyProgressStatus.Scheduled | HierarchyProgressStatus.InProgress
  | HierarchyProgressStatus.Paused | HierarchyProgressStatus.Blocked => true
  | _ => false
  end.

Definition check_ids (item : HierarchyCompletionItem) : result HierarchyCompletionError unit :=
  if is_nil (hc_id item) || match hc_parent_id item with Some parent => is_nil parent | None => false end
  then Err HierarchyCompletionError.InvalidId else Ok tt.

Definition check_content (item : HierarchyCompletionItem) : result HierarchyCompletionError unit :=
  if hc_has_children_outside_plan item then
    Err (HierarchyCompletionError.IncompleteTopology (hc_id item))
  else match hc_provenance item with
       | Some provenance =>
           if negb (bool_decide (hc_status item = HierarchyProgressStatus.Completed)) ||
              negb (is_open (prior_open_status provenance))
           then Err (HierarchyCompletionError.InvalidProvenance (hc_id item))
           else Ok tt
       | None => Ok tt
       end.

Definition index_items (items : list HierarchyCompletionItem)
    : result HierarchyCompletionError (gmap ItemId HierarchyCompletionItem) :=
  index_by check_ids check_content (λ item, HierarchyCompletionError.DuplicateItem (hc_id item)) items.

Definition of_forest_error (e : forest_error) : HierarchyCompletionError :=
  match e with
  | ForestMissingParent item parent => HierarchyCompletionError.MissingParent item parent
  | ForestCycle item => HierarchyCompletionError.Cycle item
  end.

Definition complete_postorder (by_id : gmap ItemId HierarchyCompletionItem)
    : result HierarchyCompletionError (list ItemId) :=
  map_err of_forest_error (postorder (Q := gset N) (parents_map by_id)).

Definition validate_scope (by_id : gmap ItemId HierarchyCompletionItem)
    (scope : HierarchyCompletionScope) : result HierarchyCompletionError (option ItemId) :=
  match scope with
  | OneOff => Ok None
  | InOccurrence root_id occurrence_id =>
      if is_nil root_id || is_nil occurrence_id then Err HierarchyCompletionError.InvalidId
      else if negb (match by_id !! root_id with
                    | Some root => hc_recurs root && bool_decide (hc_parent_id root = None)
                    | None => false
                    end) ||
              existsb (λ item, bool_decide (hc_parent_id item = None) && negb (hc_id item =? root_id)%N)
                (values by_id)
      then Err HierarchyCompletionError.InvalidOccurrenceScope
      else Ok (Some root_id)
  end.

(** ** Decisions *)

Definition readiness_of (counts : HierarchyCompletionCounts) (occurrence_evidence_required : bool)
    : HierarchyCompletionReadiness :=
  if occurrence_evidence_required || negb (evidence_required counts =? 0)%N
  then Readiness.OccurrenceEvidenceRequired
  else if (required_descendants counts =? 0)%N then Readiness.NoRequiredDescendants
  else if negb (incomplete counts =? 0)%N then Readiness.RequiredDescendantsIncomplete
  else Readiness.AllRequiredDescendantsCompleted.

(** The status the item returns to when it is reopened, if one is known. *)
Definition prior_of (item : HierarchyCompletionItem) : option HierarchyProgressStatus :=
  match hc_provenance item with
  | Some p => Some (prior_open_status p)
  | None => if is_open (hc_status item) then Some (hc_status item) else None
  end.

Definition decide_item (item : HierarchyCompletionItem) (counts : HierarchyCompletionCounts)
    (occurrence_evidence_required has_children : bool)
    : result HierarchyCompletionError HierarchyCompletionDecision :=
  let readiness := readiness_of counts occurrence_evidence_required in
  let prior := prior_of item in
  let decision status provenance action :=
    {| hd_status := status; hd_provenance := provenance; hd_action := action;
       hd_readiness := readiness; hd_counts := counts;
       hd_occurrence_evidence_required := occurrence_evidence_required |} in
  if occurrence_evidence_required then
    Ok (decision (hc_status item) (hc_provenance item) Action.OccurrenceEvidenceRequired)
  else if has_children && negb (is_open (hc_status item)) &&
          bool_decide (hc_provenance item = None) &&
          bool_decide (hc_manual_override item = HierarchyCompletionOverride.Automatic)
  then Err (HierarchyCompletionError.AmbiguousTerminalParent (hc_id item))
  else
    match hc_manual_override item with
    | HierarchyCompletionOverride.Automatic =>
        if bool_decide (readiness = Readiness.AllRequiredDescendantsCompleted) then
          match prior with
          | Some prior =>
              let provenance := Some (Provenance.Automatic prior) in
              Ok (decision HierarchyProgressStatus.Completed provenance
                (if negb (bool_decide (hc_status item = HierarchyProgressStatus.Completed)) ||
                    negb (bool_decide (hc_provenance item = provenance))
                 then Action.AutomaticallyCompleted else Action.Unchanged))
          | None => Ok (decision (hc_status item) (hc_provenance item) Action.Unchanged)
          end
        else
          match hc_provenance item with
          | Some provenance =>
              Ok (decision (prior_open_status provenance) None
                (match provenance with
                 | Provenance.Automatic _ => Action.AutomaticallyReopened
                 | Provenance.Manual _ => Action.ManualCompletionReleased
                 end))
          | None => Ok (decision (hc_status item) (hc_provenance item) Action.Unchanged)
          end
    | HierarchyCompletionOverride.KeepOpen =>
        let? status := ok_or prior (HierarchyCompletionError.MissingPriorOpenStatus (hc_id item)) in
        Ok (decision status None
          (if negb (bool_decide (status = hc_status item)) || negb (bool_decide (hc_provenance item = None))
           then Action.ManuallyKeptOpen else Action.Unchanged))
    | HierarchyCompletionOverride.Complete =>
        let? prior := ok_or prior (HierarchyCompletionError.MissingPriorOpenStatus (hc_id item)) in
        let provenance := Some (Provenance.Manual prior) in
        Ok (decision HierarchyProgressStatus.Completed provenance
          (if negb (bool_decide (HierarchyProgressStatus.Completed = hc_status item)) ||
              negb (bool_decide (provenance = hc_provenance item))
           then Action.ManuallyCompleted else Action.Unchanged))
    end.

(** ** Evaluation *)

(** The items that are someone's parent. *)
Definition parent_ids (by_id : gmap ItemId HierarchyCompletionItem) : gset ItemId :=
  list_to_set (omap hc_parent_id (values by_id)).

(** A recurring node other than the qualified root, and everything below it,
    lacks occurrence evidence. *)
Definition unqualified (by_id : gmap ItemId HierarchyCompletionItem) (qualified_root : option ItemId)
    (id : ItemId) : bool :=
  match by_id !! id with
  | Some item => hc_recurs item && negb (bool_decide (qualified_root = Some id))
  | None => false
  end.

(** The decision at a node, from the counts its children contributed. *)
Definition decide_node (by_id : gmap ItemId HierarchyCompletionItem) (unproven : gmap ItemId bool)
    (id : ItemId) (counts : HierarchyCompletionCounts)
    : result HierarchyCompletionError HierarchyCompletionDecision :=
  match by_id !! id with
  | None => Err (HierarchyCompletionError.Cycle id)
  | Some item =>
      decide_item item counts (default false (unproven !! id)) (bool_decide (id ∈ parent_ids by_id))
  end.

(** Only a required child counts for its parent. *)
Definition required_branch (by_id : gmap ItemId HierarchyCompletionItem) (id : ItemId)
    (decision : HierarchyCompletionDecision) : option HierarchyCompletionDecision :=
  match by_id !! id with
  | Some item => if hc_required_for_parent item then Some decision else None
  | None => None
  end.

Definition evaluate_hierarchy_completion (items : list HierarchyCompletionItem)
    (scope : HierarchyCompletionScope)
    : result HierarchyCompletionError HierarchyCompletionEvaluation :=
  let? by_id := index_items items in
  let? order := complete_postorder by_id in
  let? qualified_root := validate_scope by_id scope in
  let parents := parents_map by_id in
  let unproven := mark_inherited parents (unqualified by_id qualified_root) order in
  let counts := (λ _, default_counts) <$> by_id in
  let? (_, decisions) :=
    reduce parents (decide_node by_id unproven) (required_branch by_id) add_branch
      HierarchyCompletionError.Overflow counts order in
  Ok {| he_scope := scope; he_decisions := decisions |}.

(** ** Specification *)

Definition counts_add (a b : HierarchyCompletionCounts) : HierarchyCompletionCounts :=
  {| required_descendants := required_descendants a + required_descendants b;
     completed := completed a + completed b;
     incomplete := incomplete a + incomplete b;
     evidence_required := evidence_required a + evidence_required b |}%N.

Definition counts_sum (l : list HierarchyCompletionCounts) : HierarchyCompletionCounts :=
  foldr counts_add default_counts l.

(** What one required descendant counts for. *)
Definition one_count (d : HierarchyCompletionDecision) : HierarchyCompletionCounts :=
  if hd_occurrence_evidence_required d then
    {| required_descendants := 1; completed := 0; incomplete := 0; evidence_required := 1 |}
  else if bool_decide (hd_status d = HierarchyProgressStatus.Completed) then
    {| required_descendants := 1; completed := 1; incomplete := 0; evidence_required := 0 |}
  else {| required_descendants := 1; completed := 0; incomplete := 1; evidence_required := 0 |}.

Definition is_required (items : list HierarchyCompletionItem) (id : ItemId) : bool :=
  match find_node items id with Some item => hc_required_for_parent item | None => false end.

(** The children whose branch is required. *)
Definition required_children (items : list HierarchyCompletionItem) (id : ItemId) : list ItemId :=
  filter (λ c, is_required items c = true) (children_of (forest_of items) id).

(** Every descendant reachable through required edges. *)
Fixpoint required_below (items : list HierarchyCompletionItem) (fuel : nat) (id : ItemId) : list ItemId :=
  match fuel with
  | O => []
  | S fuel' => flat_map (λ c, c :: required_below items fuel' c) (required_children items id)
  end.

Definition required_descendants_of (items : list HierarchyCompletionItem) (id : ItemId) : list ItemId :=
  required_below items (length items) id.

(** The counts of a list of nodes under given decisions. *)
Definition tally (decisions : gmap ItemId HierarchyCompletionDecision) (l : list ItemId)
    : HierarchyCompletionCounts :=
  counts_sum (omap (λ y, one_count <$> decisions !! y) l).

(** The recurring node whose occurrence the statuses describe. *)
Definition scope_root (scope : HierarchyCompletionScope) : option ItemId :=
  match scope with OneOff => None | InOccurrence root_id _ => Some root_id end.

(** Whether a node lacks occurrence evidence: it or an ancestor recurs outside
    the qualified root. *)
Definition lacks_evidence (items : list HierarchyCompletionItem) (scope : HierarchyCompletionScope)
    (id : ItemId) : bool :=
  inherits (forest_of items)
    (λ x, match find_node items x with
          | Some item => hc_recurs item && negb (bool_decide (scope_root scope = Some x))
          | None => false
          end) (length items) id.

Definition has_children (items : list HierarchyCompletionItem) (id : ItemId) : bool :=
  negb (bool_decide (children_of (forest_of items) id = [])).

(** ** Lemmas on counts *)

Lemma counts_eq a b :
  required_descendants a = required_descendants b → completed a = completed b →
  incomplete a = incomplete b → evidence_required a = evidence_required b → a = b.
Proof. destruct a, b; simpl; congruence. Qed.

Lemma counts_add_assoc a b c : counts_add a (counts_add b c) = counts_add (counts_add a b) c.
Proof. apply counts_eq; simpl; lia. Qed.

Lemma counts_add_0_l a : counts_add default_counts a = a.
Proof. by apply counts_eq. Qed.

Lemma counts_add_0_r a : counts_add a default_counts = a.
Proof. apply counts_eq; simpl; lia. Qed.

Lemma counts_sum_app l k : counts_sum (l ++ k) = counts_add (counts_sum l) (counts_sum k).
Proof.
  unfold counts_sum. rewrite foldr_app. induction l as [|a l IH]; simpl; [by rewrite counts_add_0_l|].
  by rewrite IH, counts_add_assoc.
Qed.

Lemma counts_sum_perm l k : l ≡ₚ k → counts_sum l = counts_sum k.
Proof.
  apply foldr_op_perm; [apply counts_add_assoc|]. intros a b. apply counts_eq; simpl; lia.
Qed.

Lemma branch_of_Some d b : branch_of d = Some b → b = counts_add (one_count d) (hd_counts d).
Proof.
  unfold branch_of, one_count. intros (r & [-> _]%checked_add_Some & H)%bind_Some.
  destruct (hd_occurrence_evidence_required d); [|case_bool_decide];
    apply bind_Some in H as (c & [-> _]%checked_add_Some & H); simplify_eq; apply counts_eq; simpl; lia.
Qed.

Lemma add_branch_Some a d c :
  add_branch a d = Some c → c = counts_add a (counts_add (one_count d) (hd_counts d)) ∧
    (required_descendants c <= i64_max)%N.
Proof.
  unfold add_branch. intros (b & ->%branch_of_Some & H)%bind_Some.
  apply bind_Some in H as (n1 & [-> _]%checked_add_Some & H).
  apply bind_Some in H as (n2 & [-> _]%checked_add_Some & H).
  apply bind_Some in H as (n3 & [-> _]%checked_add_Some & H).
  apply bind_Some in H as (n4 & [-> _]%checked_add_Some & H).
  destruct (_ <=? i64_max)%N eqn:E; [|done]. bool_to_prop. simplify_eq. split; [by apply counts_eq|done].
Qed.

Lemma tally_app decisions l k : tally decisions (l ++ k) = counts_add (tally decisions l) (tally decisions k).
Proof. unfold tally. by rewrite omap_app, counts_sum_app. Qed.

Lemma tally_cons decisions x l d :
  decisions !! x = Some d → tally decisions (x :: l) = counts_add (one_count d) (tally decisions l).
Proof. intros Hx. unfold tally. simpl. by rewrite Hx. Qed.

(** The categories partition the nodes counted, and zeros mean what they say. *)
Lemma tally_spec decisions l :
  (∀ y, y ∈ l → is_Some (decisions !! y)) →
  let t := tally decisions l in
  required_descendants t = N.of_nat (length l) ∧
  (completed t + incomplete t + evidence_required t = required_descendants t)%N ∧
  (incomplete t = 0%N ∧ evidence_required t = 0%N ↔
   ∀ y, y ∈ l → ∃ d, decisions !! y = Some d ∧ hd_status d = HierarchyProgressStatus.Completed ∧
     hd_occurrence_evidence_required d = false).
Proof.
  induction l as [|x l IH]; intros Hl; simpl.
  - split_and!; [done..|]. split; [|done]. intros _ y Hy. by apply elem_of_nil in Hy.
  - destruct (Hl x ltac:(left)) as [d Hd]. rewrite (tally_cons _ _ _ _ Hd).
    destruct IH as (H1 & H2 & H3); [intros; apply Hl; by right|]. simpl in H1, H2, H3.
    unfold one_count. setoid_rewrite elem_of_cons.
    destruct (hd_occurrence_evidence_required d) eqn:Ee; [|case_bool_decide as Es];
      cbn; split_and!; try lia.
    + split; [lia|]. intros Hy. destruct (Hy x) as (d' & ? & ? & ?); [auto|congruence].
    + rewrite !N.add_0_l, H3. split; [|auto]. intros Hy y [->|Hin]; eauto.
    + split; [lia|]. intros Hy. destruct (Hy x) as (d' & ? & ? & ?); [auto|congruence].
Qed.

(** ** Lemmas on the evaluation *)

Lemma validate_scope_root by_id scope root : validate_scope by_id scope = Ok root → root = scope_root scope.
Proof. destruct scope; simpl; [by intros ?; simplify_eq|]. repeat case_match; intros; by simplify_eq. Qed.

(** The pieces of a successful evaluation. *)
Record evaluated (items : list HierarchyCompletionItem) (scope : HierarchyCompletionScope)
    (by_id : gmap ItemId HierarchyCompletionItem) (order : list ItemId)
    (decisions : gmap ItemId HierarchyCompletionDecision) : Prop := {
  ev_index : indexed check_ids check_content items by_id;
  ev_perm : order ≡ₚ keys (forest_of items);
  ev_children_first : children_first (forest_of items) order;
  ev_forest : forest_ok (forest_of items);
  ev_scope : validate_scope by_id scope = Ok (scope_root scope);
  ev_reduce : ∃ counts,
    reduce (forest_of items)
      (decide_node by_id (mark_inherited (forest_of items) (unqualified by_id (scope_root scope)) order))
      (required_branch by_id) add_branch HierarchyCompletionError.Overflow
      ((λ _, default_counts) <$> by_id) order = Ok (counts, decisions)
}.

Lemma evaluate_Ok items scope ev :
  evaluate_hierarchy_completion items scope = Ok ev →
  ∃ by_id order, evaluated items scope by_id order (he_decisions ev) ∧ he_scope ev = scope.
Proof.
  unfold evaluate_hierarchy_completion, index_items, complete_postorder.
  intros (by_id & Hidx%index_by_Ok & H)%rbind_ok.
  apply rbind_ok in H as (order & Hpo & H). apply rbind_ok in H as (root & Hroot & H).
  apply rbind_ok in H as ([counts decisions] & Hred & H). simplify_eq/=.
  destruct (postorder (parents_map by_id)) as [order'|] eqn:Ho; [simplify_eq/=|done].
  apply (postorder_Ok (gset N)) in Ho as (Hperm & Hcf & Hok).
  pose proof (validate_scope_root _ _ _ Hroot) as ->.
  rewrite (indexed_parents _ _ Hidx) in *.
  exists by_id, order. split; [|done]. split; try done. by exists counts.
Qed.

Section evaluated.
Context {items scope by_id order decisions} (Hev : evaluated items scope by_id order decisions).

Lemma ev_nodup : NoDup order.
Proof using Hev. rewrite (ev_perm _ _ _ _ _ Hev). apply NoDup_keys. Qed.

Lemma ev_find k : by_id !! k = find_node items k.
Proof using Hev. apply (indexed_find _ _ k (ev_index _ _ _ _ _ Hev)). Qed.

Lemma ev_in_order k : k ∈ order ↔ is_Some (by_id !! k).
Proof using Hev.
  rewrite (ev_perm _ _ _ _ _ Hev), elem_of_keys, <- (indexed_parents _ _ (ev_index _ _ _ _ _ Hev)).
  unfold parents_map. by rewrite lookup_fmap, fmap_is_Some.
Qed.

Lemma ev_length : length order = length items.
Proof using Hev. rewrite (ev_perm _ _ _ _ _ Hev). apply length_keys_forest. apply Hev. Qed.

Lemma ev_parents_closed c p : forest_of items !! c = Some (Some p) → p ∈ order ∧ c ∈ order.
Proof using Hev.
  intros Hc. rewrite !(ev_perm _ _ _ _ _ Hev), !elem_of_keys.
  assert (is_Some (forest_of items !! c)) as Hs by eauto. split; [|done].
  pose proof (ev_forest _ _ _ _ _ Hev c Hs) as Hr. inversion Hr as [|? q Hq Hroot]; [congruence|].
  simplify_eq. inversion Hroot; eauto.
Qed.

Lemma ev_unproven k :
  k ∈ order → mark_inherited (forest_of items) (unqualified by_id (scope_root scope)) order !! k =
    Some (lacks_evidence items scope k).
Proof using Hev.
  intros Hk. unfold lacks_evidence.
  rewrite (mark_inherited_spec _ _ _ ev_nodup (ev_children_first _ _ _ _ _ Hev)
    ltac:(intros c p _ Hp; apply (ev_parents_closed _ _ Hp)) k (length items) Hk) by (by rewrite ev_length).
  f_equal. generalize (length items) at 1 2 as fuel. intros fuel. revert k Hk.
  induction fuel as [|fuel IH]; intros k Hk; simpl; unfold unqualified at 1; rewrite ev_find; [done|].
  f_equal. destruct (parent_of (forest_of items) k) as [p|] eqn:Ep; [|done].
  apply IH. apply parent_of_Some in Ep. apply (ev_parents_closed _ _ Ep).
Qed.

Lemma ev_has_children k : bool_decide (k ∈ parent_ids by_id) = has_children items k.
Proof using Hev.
  unfold has_children, parent_ids. rewrite <- bool_decide_not. apply bool_decide_ext.
  rewrite elem_of_list_to_set, list_elem_of_omap. split.
  - intros (a & Ha & Hp). apply elem_of_values in Ha as [j Hj].
    apply (ix_lookup _ _ _ _ (ev_index _ _ _ _ _ Hev)) in Hj as [Ha Hj].
    intros Hnil. assert (j ∈ children_of (forest_of items) k) as Hin; [|rewrite Hnil in Hin; by apply elem_of_nil in Hin].
    apply elem_of_children, forest_of_Some; [apply Hev|]. exists a. eauto.
  - destruct (children_of (forest_of items) k) as [|c l] eqn:Ec; [done|]. intros _.
    assert (c ∈ children_of (forest_of items) k) as Hc by (rewrite Ec; left).
    apply elem_of_children, forest_of_Some in Hc as (a & Ha & Hid & Hp); [|apply Hev].
    exists a. split; [|done]. apply elem_of_values. exists c. by apply (ix_lookup _ _ _ _ (ev_index _ _ _ _ _ Hev)).
Qed.

Lemma required_branch_spec c d :
  required_branch by_id c d = if is_required items c then Some d else None.
Proof using Hev. unfold required_branch, is_required. rewrite ev_find. by destruct (find_node items c). Qed.

(** The counts a node is decided with are those of its required children. *)
Lemma absorb_counts v cs v' :
  (∀ c, c ∈ cs → is_Some (decisions !! c)) →
  absorb_all (required_branch by_id) add_branch decisions v cs = Some v' →
  v' = counts_add v (counts_sum (omap (λ c,
    d ← decisions !! c; Some (counts_add (one_count d) (hd_counts d)))
    (filter (λ c, is_required items c = true) cs))).
Proof using Hev.
  revert v'. induction cs as [|c cs IH] using rev_ind; intros v' Hcs Ha.
  - unfold absorb_all in Ha. simpl in Ha. simplify_eq. simpl. by rewrite counts_add_0_r.
  - rewrite absorb_all_snoc in Ha. destruct (absorb_all _ _ _ v cs) as [u|] eqn:Eu; [|done].
    simpl in Ha. rewrite filter_app, omap_app, counts_sum_app, counts_add_assoc.
    rewrite <- (IH u) by (done || set_solver).
    destruct (Hcs c ltac:(set_solver)) as [d Hd]. rewrite Hd in Ha. simpl in Ha.
    rewrite required_branch_spec in Ha. destruct (is_required items c) eqn:Er.
    + apply add_branch_Some in Ha as [-> _]. rewrite filter_cons_True by done. simpl. rewrite Hd. simpl.
      by rewrite counts_add_0_r.
    + simplify_eq. rewrite filter_cons_False by congruence. simpl. by rewrite counts_add_0_r.
Qed.

(** The local equation at every node. *)
Lemma node_equation item :
  item ∈ items → ∃ d, decisions !! hc_id item = Some d ∧
    hd_counts d = counts_sum (omap (λ c, d ← decisions !! c; Some (counts_add (one_count d) (hd_counts d)))
      (required_children items (hc_id item))) ∧
    decide_item item (hd_counts d) (lacks_evidence items scope (hc_id item)) (has_children items (hc_id item)) = Ok d.
Proof using Hev.
  intros Hitem. destruct (ev_reduce _ _ _ _ _ Hev) as [counts Hred].
  assert (by_id !! hc_id item = Some item) as Hid by (by apply (ix_lookup _ _ _ _ (ev_index _ _ _ _ _ Hev))).
  assert (hc_id item ∈ order) as Hin by (rewrite ev_in_order, Hid; eauto).
  apply (reduce_spec _ _ _ _ _) in Hred as (_ & Hfin & Hspec);
    [|apply Hev|apply ev_nodup|intros k; rewrite ev_in_order, lookup_fmap, fmap_is_Some; done].
  destruct (Hspec _ default_counts Hin) as (v & d & _ & Hd & Hdec & Habs); [by rewrite lookup_fmap, Hid|].
  unfold decide_node in Hdec. rewrite Hid, ev_unproven, ev_has_children in Hdec by done. simpl in Hdec.
  exists d. split; [done|].
  assert (hd_counts d = v) as Hv.
  { revert Hdec. unfold decide_item. repeat (case_match; simpl); intros; simplify_eq; try done;
      by inv_result. }
  rewrite Hv. split; [|done].
  apply absorb_counts in Habs.
  2:{ intros c [Hc Hco]%list_elem_of_filter. by apply Hfin. }
  rewrite counts_add_0_l in Habs. rewrite Habs. apply counts_sum_perm, omap_Permutation.
  unfold required_children. rewrite <- (children_perm (forest_of items) order _ ev_nodup) by (apply Hev || done).
  done.
Qed.
End evaluated.

Section counts.
Context {items scope by_id order decisions} (Hev : evaluated items scope by_id order decisions).

Lemma ev_item k : k ∈ order → ∃ item, item ∈ items ∧ hc_id item = k.
Proof using Hev.
  rewrite (ev_in_order Hev). intros [a Ha]. exists a. by apply (ix_lookup _ _ _ _ (ev_index _ _ _ _ _ Hev)).
Qed.

Lemma ev_decided k : k ∈ order → is_Some (decisions !! k).
Proof using Hev.
  intros Hk. destruct (ev_item k Hk) as (a & Ha & <-).
  destruct (node_equation Hev a Ha) as (d & Hd & _). by eexists.
Qed.

Lemma required_children_earlier n x c :
  order !! n = Some x → c ∈ required_children items x → ∃ m, m < n ∧ order !! m = Some c.
Proof using Hev.
  intros Hx [_ Hc%elem_of_children]%list_elem_of_filter.
  apply list_elem_of_split_length in Hx as (l1 & l2 & Hsplit & Hlen).
  pose proof (ev_children_first _ _ _ _ _ Hev _ _ _ _ Hsplit Hc) as Hcl.
  apply list_elem_of_lookup in Hcl as [m Hm]. exists m.
  split; [rewrite Hlen; by eapply lookup_lt_Some|]. rewrite Hsplit. by apply lookup_app_l_Some.
Qed.

Lemma required_below_in_order n x fuel y :
  order !! n = Some x → y ∈ required_below items fuel x → y ∈ order.
Proof using Hev.
  revert n x. induction fuel as [|fuel IH]; intros n x Hx Hy; simpl in Hy; [by apply elem_of_nil in Hy|].
  apply list_elem_of_In, in_flat_map in Hy as (c & Hc%list_elem_of_In & Hy%list_elem_of_In).
  destruct (required_children_earlier _ _ _ Hx Hc) as (m & _ & Hm).
  apply elem_of_cons in Hy as [->|Hy]; [by eapply list_elem_of_lookup_2|by eapply IH].
Qed.

(** A node's counts are the tally of its required descendants. *)
Lemma counts_tally n x fuel d :
  order !! n = Some x → n ≤ fuel → decisions !! x = Some d →
  hd_counts d = tally decisions (required_below items fuel x).
Proof using Hev.
  revert x fuel d. induction n as [n IH] using lt_wf_ind. intros x fuel d Hx Hf Hd.
  destruct (ev_item x) as (a & Ha & <-); [by eapply list_elem_of_lookup_2|].
  destruct (node_equation Hev a Ha) as (d' & Hd' & Hcounts & _). simplify_eq.
  rewrite Hcounts. clear Hcounts.
  pose proof (λ c, required_children_earlier n _ c Hx) as Hearlier.
  destruct fuel as [|fuel]; simpl.
  - destruct (required_children items (hc_id a)) as [|c l]; [done|].
    destruct (Hearlier c ltac:(left)) as (m & Hm & _). lia.
  - revert Hearlier. generalize (required_children items (hc_id a)) as cs.
    induction cs as [|c cs IHcs]; intros Hearlier; [done|].
    destruct (Hearlier c ltac:(left)) as (m & Hm & Hcm).
    destruct (ev_decided c) as [dc Hdc]; [by eapply list_elem_of_lookup_2|].
    simpl. rewrite Hdc. simpl. rewrite app_comm_cons, tally_app, (tally_cons _ _ _ _ Hdc).
    rewrite <- (IH m Hm c fuel dc Hcm ltac:(lia) Hdc). f_equal. apply IHcs. intros; apply Hearlier. by right.
Qed.

Lemma counts_required item :
  item ∈ items → ∃ d, decisions !! hc_id item = Some d ∧
    hd_counts d = tally decisions (required_descendants_of items (hc_id item)) ∧
    decide_item item (hd_counts d) (lacks_evidence items scope (hc_id item)) (has_children items (hc_id item)) = Ok d ∧
    ∀ y, y ∈ required_descendants_of items (hc_id item) → is_Some (decisions !! y).
Proof using Hev.
  intros Hitem. destruct (node_equation Hev item Hitem) as (d & Hd & _ & Hdec). exists d.
  assert (hc_id item ∈ order) as Hin.
  { apply (ev_in_order Hev). exists item. by apply (ix_lookup _ _ _ _ (ev_index _ _ _ _ _ Hev)). }
  apply list_elem_of_lookup in Hin as [n Hn]. pose proof (lookup_lt_Some _ _ _ Hn) as Hlt.
  rewrite (ev_length Hev) in Hlt. split_and!; [done|eapply counts_tally; [exact Hn|lia|done]|done|].
  intros y Hy. by eapply ev_decided, required_below_in_order.
Qed.
End counts.

Lemma decide_item_readiness item counts evidence children d :
  decide_item item counts evidence children = Ok d →
  hd_readiness d = readiness_of counts evidence ∧ hd_occurrence_evidence_required d = evidence ∧ hd_counts d = counts.
Proof.
  unfold decide_item. intros H. repeat (case_match; simpl in H); inv_result; try done; by simplify_eq.
Qed.

(** What it means that every required descendant is completed. *)
Definition all_completed (decisions : gmap ItemId HierarchyCompletionDecision) (l : list ItemId) : Prop :=
  ∀ y, y ∈ l → ∃ d, decisions !! y = Some d ∧ hd_status d = HierarchyProgressStatus.Completed ∧
    hd_occurrence_evidence_required d = false.

Lemma readiness_of_all counts evidence :
  readiness_of counts evidence = Readiness.AllRequiredDescendantsCompleted ↔
  evidence = false ∧ required_descendants counts ≠ 0%N ∧
  (incomplete counts = 0%N ∧ evidence_required counts = 0%N).
Proof.
  unfold readiness_of. destruct evidence; simpl; [naive_solver|].
  destruct (evidence_required counts =? 0)%N eqn:E1, (required_descendants counts =? 0)%N eqn:E2,
    (incomplete counts =? 0)%N eqn:E3; simpl; bool_to_prop; naive_solver.
Qed.

Lemma readiness_all items scope ev item d :
  evaluate_hierarchy_completion items scope = Ok ev → item ∈ items →
  he_decisions ev !! hc_id item = Some d →
  hd_readiness d = Readiness.AllRequiredDescendantsCompleted ↔
  lacks_evidence items scope (hc_id item) = false ∧
  required_descendants_of items (hc_id item) ≠ [] ∧
  all_completed (he_decisions ev) (required_descendants_of items (hc_id item)).
Proof.
  intros (by_id & order & Hev & _)%evaluate_Ok Hitem Hd.
  destruct (counts_required Hev item Hitem) as (d' & Hd' & Hc & Hdec & Hsome). simplify_eq.
  apply decide_item_readiness in Hdec as (-> & _ & _). rewrite Hc, readiness_of_all.
  destruct (tally_spec (he_decisions ev) _ Hsome) as (H1 & _ & H3). rewrite H1, H3.
  unfold all_completed. destruct (required_descendants_of items (hc_id item)); naive_solver.
Qed.

(** ** Applying the decisions *)

Definition settle_with (item : HierarchyCompletionItem) (d : HierarchyCompletionDecision)
    : HierarchyCompletionItem :=
  {| hc_id := hc_id item; hc_parent_id := hc_parent_id item; hc_status := hd_status d;
     hc_required_for_parent := hc_required_for_parent item; hc_recurs := hc_recurs item;
     hc_has_children_outside_plan := hc_has_children_outside_plan item;
     hc_manual_override := hc_manual_override item; hc_provenance := hd_provenance d |}.

(** The items with their decided status and provenance. *)
Definition settle (decisions : gmap ItemId HierarchyCompletionDecision) (item : HierarchyCompletionItem)
    : HierarchyCompletionItem :=
  match decisions !! hc_id item with Some d => settle_with item d | None => item end.

(** A decision that changes nothing any more. *)
Definition settled (d : HierarchyCompletionDecision) : HierarchyCompletionDecision :=
  {| hd_status := hd_status d; hd_provenance := hd_provenance d;
     hd_action := if hd_occurrence_evidence_required d then Action.OccurrenceEvidenceRequired
                  else Action.Unchanged;
     hd_readiness := hd_readiness d; hd_counts := hd_counts d;
     hd_occurrence_evidence_required := hd_occurrence_evidence_required d |}.

Lemma prior_open item prior : check_content item = Ok tt → prior_of item = Some prior → is_open prior = true.
Proof.
  unfold check_content, prior_of. destruct (hc_has_children_outside_plan item); [done|].
  destruct (hc_provenance item) as [p|].
  - destruct (_ || _) eqn:E; [done|]. intros _ ?; simplify_eq. by bool_to_prop.
  - destruct (is_open (hc_status item)) eqn:Eo; intros; by simplify_eq.
Qed.

(** Deciding a settled item again confirms the decision. *)
Lemma decide_settled item counts evidence children d :
  check_content item = Ok tt → decide_item item counts evidence children = Ok d →
  decide_item (settle_with item d) counts evidence children = Ok (settled d) ∧
  check_content (settle_with item d) = Ok tt.
Proof.
  intros Hcheck Hdec. pose proof (λ prior, prior_open item prior Hcheck) as Hprior.
  unfold decide_item in Hdec. destruct evidence.
  { simplify_eq/=. split; [done|]. exact Hcheck. }
  destruct (children && negb (is_open (hc_status item)) && bool_decide (hc_provenance item = None) &&
    bool_decide (hc_manual_override item = HierarchyCompletionOverride.Automatic)) eqn:Eamb; [done|].
  assert (hc_has_children_outside_plan item = false) as Hout.
  { unfold check_content in Hcheck. by destruct (hc_has_children_outside_plan item). }
  destruct (hc_manual_override item) eqn:Eo.
  - destruct (bool_decide (readiness_of counts false = _)) eqn:Eready.
    + destruct (prior_of item) as [p|] eqn:Ep; simplify_eq/=.
      * specialize (Hprior p eq_refl). unfold decide_item, settle_with, check_content, prior_of, settled. simpl.
        by rewrite Eo, Hout, Hprior, Eready, ?andb_false_r, ?bool_decide_true by done.
      * split; [|exact Hcheck]. assert (settle_with item {| hd_status := hc_status item; hd_provenance := hc_provenance item;
          hd_action := Action.Unchanged; hd_readiness := readiness_of counts false; hd_counts := counts;
          hd_occurrence_evidence_required := false |} = item) as -> by by destruct item.
        unfold decide_item, settled. rewrite Eo, Ep. simpl. by rewrite Eamb, Eready.
    + destruct (hc_provenance item) as [p|] eqn:Epv; simplify_eq/=.
      * assert (is_open (prior_open_status p) = true) as Hp by (apply Hprior; unfold prior_of; by rewrite Epv).
        unfold decide_item, settle_with, check_content, settled. simpl.
        by rewrite Eo, Hout, Hp, Eready, andb_false_r.
      * split; [|by unfold check_content; simpl; rewrite Hout].
        unfold decide_item, settle_with, settled. simpl. rewrite Eo. simpl. by rewrite Eready, Eamb.
  - destruct (prior_of item) as [p|] eqn:Ep; simplify_eq/=. specialize (Hprior p eq_refl).
    unfold decide_item, settle_with, check_content, prior_of, settled. simpl.
    rewrite Eo, Hout, Hprior. simpl. rewrite ?andb_false_r. simpl. split; [|done]. by rewrite ?bool_decide_true by done.
  - destruct (prior_of item) as [p|] eqn:Ep; simplify_eq/=. specialize (Hprior p eq_refl).
    unfold decide_item, settle_with, check_content, prior_of, settled. simpl.
    by rewrite Eo, Hout, Hprior, ?andb_false_r, ?bool_decide_true by done.
Qed.

Lemma settle_id decisions item : hc_id (settle decisions item) = hc_id item.
Proof. unfold settle. by destruct (decisions !! hc_id item). Qed.

Lemma settle_fields decisions item :
  hc_parent_id (settle decisions item) = hc_parent_id item ∧
  hc_required_for_parent (settle decisions item) = hc_required_for_parent item ∧
  hc_recurs (settle decisions item) = hc_recurs item.
Proof. unfold settle. by destruct (decisions !! hc_id item). Qed.

Lemma settle_ids decisions (items : list HierarchyCompletionItem) : hc_id <$> (settle decisions <$> items) = hc_id <$> items.
Proof. rewrite <- list_fmap_compose. apply list_fmap_ext. intros i a _. apply settle_id. Qed.

Lemma settle_forest decisions items : forest_of (settle decisions <$> items) = forest_of items.
Proof.
  unfold forest_of. rewrite <- list_fmap_compose. f_equal. apply list_fmap_ext. intros i a _. simpl.
  rewrite settle_id. by destruct (settle_fields decisions a) as (-> & _).
Qed.

(** The index of the settled items is the settled index. *)
Lemma settle_index decisions items by_id by_id' :
  indexed check_ids check_content items by_id →
  indexed check_ids check_content (settle decisions <$> items) by_id' →
  by_id' = settle decisions <$> by_id.
Proof.
  intros Hix Hix'. apply map_eq. intros k. apply option_eq. intros a.
  rewrite (ix_lookup _ _ _ _ Hix'), lookup_fmap_Some, list_elem_of_fmap. split.
  - intros [(b & -> & Hb) Hk]. exists b. split; [done|]. apply (ix_lookup _ _ _ _ Hix).
    split; [done|]. simpl in *. by rewrite settle_id in Hk.
  - intros (b & <- & Hb). apply (ix_lookup _ _ _ _ Hix) in Hb as [Hb Hk]. split; [eauto|].
    simpl in *. by rewrite settle_id.
Qed.

Lemma settle_scope decisions (by_id : gmap ItemId HierarchyCompletionItem) scope :
  validate_scope (settle decisions <$> by_id) scope = validate_scope by_id scope.
Proof.
  destruct scope as [|root occurrence]; simpl; [done|].
  rewrite lookup_fmap, values_fmap. destruct (is_nil root || is_nil occurrence); [done|].
  replace (existsb _ (settle decisions <$> values by_id)) with
    (existsb (λ item, bool_decide (hc_parent_id item = None) && negb (hc_id item =? root)%N) (values by_id)).
  - destruct (by_id !! root) as [a|]; simpl; [|done]. by destruct (settle_fields decisions a) as (-> & _ & ->).
  - induction (values by_id) as [|a l IH]; simpl; [done|]. rewrite settle_id, IH.
    by destruct (settle_fields decisions a) as (-> & _).
Qed.

Lemma settle_parent_ids decisions (by_id : gmap ItemId HierarchyCompletionItem) : parent_ids (settle decisions <$> by_id) = parent_ids by_id.
Proof.
  unfold parent_ids. rewrite values_fmap. f_equal. induction (values by_id) as [|a l IH]; simpl; [done|].
  destruct (settle_fields decisions a) as (-> & _). destruct (hc_parent_id a); [f_equal|]; exact IH.
Qed.

Lemma settle_unqualified decisions (by_id : gmap ItemId HierarchyCompletionItem) root k :
  unqualified (settle decisions <$> by_id) root k = unqualified by_id root k.
Proof.
  unfold unqualified. rewrite lookup_fmap. destruct (by_id !! k) as [a|]; simpl; [|done].
  by destruct (settle_fields decisions a) as (_ & _ & ->).
Qed.

Lemma mark_inherited_ext parents f g order :
  (∀ k, f k = g k) → mark_inherited parents f order = mark_inherited parents g order.
Proof.
  intros Hfg. unfold mark_inherited. generalize (∅ : gmap N bool). induction (reverse order) as [|k l IH]; intros m; simpl; [done|].
  by rewrite Hfg, IH.
Qed.

(** ** Theorems *)

(** A successful evaluation decides every item by the same local rule, from
    the exact tally of the item's required descendants under the decisions
    themselves, and the three categories partition those descendants. *)
Theorem completion_decided_from_required items scope ev :
  evaluate_hierarchy_completion items scope = Ok ev →
  ∀ item, item ∈ items → ∃ d, he_decisions ev !! hc_id item = Some d ∧
    decide_item item (tally (he_decisions ev) (required_descendants_of items (hc_id item)))
      (lacks_evidence items scope (hc_id item)) (has_children items (hc_id item)) = Ok d ∧
    required_descendants (hd_counts d) = N.of_nat (length (required_descendants_of items (hc_id item))) ∧
    (completed (hd_counts d) + incomplete (hd_counts d) + evidence_required (hd_counts d) =
      required_descendants (hd_counts d))%N.
Proof.
  intros (by_id & order & Hev & _)%evaluate_Ok item Hitem.
  destruct (counts_required Hev item Hitem) as (d & Hd & Hc & Hdec & Hsome).
  destruct (tally_spec (he_decisions ev) _ Hsome) as (H1 & H2 & _).
  exists d. rewrite <- Hc in *. auto.
Qed.

(** C34. No item is completed without proof: when the evaluation completes an
    item automatically, the item's policy is automatic, it has required
    descendants, every one of them is decided completed with its own
    occurrence evidence, and the reopening status is recorded and open. *)
Theorem automatic_completion_sound items scope ev item d :
  evaluate_hierarchy_completion items scope = Ok ev → item ∈ items →
  he_decisions ev !! hc_id item = Some d → hd_action d = Action.AutomaticallyCompleted →
  hc_manual_override item = HierarchyCompletionOverride.Automatic ∧
  hd_status d = HierarchyProgressStatus.Completed ∧
  (∃ prior, hd_provenance d = Some (Provenance.Automatic prior) ∧ is_open prior = true) ∧
  lacks_evidence items scope (hc_id item) = false ∧
  required_descendants_of items (hc_id item) ≠ [] ∧
  all_completed (he_decisions ev) (required_descendants_of items (hc_id item)).
Proof.
  intros Hr Hitem Hd Hact. pose proof (readiness_all _ _ _ _ _ Hr Hitem Hd) as Hready.
  apply evaluate_Ok in Hr as (by_id & order & Hev & _).
  destruct (counts_required Hev item Hitem) as (d' & Hd' & _ & Hdec & _). rewrite Hd in Hd'.
  injection Hd' as <-. pose proof (ix_after _ _ _ _ (ev_index _ _ _ _ _ Hev) item Hitem) as Hcheck.
  pose proof (decide_item_readiness _ _ _ _ _ Hdec) as (Hrd & _ & _). rewrite Hrd in Hready.
  clear Hrd. revert Hready Hdec. generalize (hd_counts d) as counts. intros counts Hready Hdec.
  unfold decide_item in Hdec. destruct (lacks_evidence items scope (hc_id item)) eqn:El; [by simplify_eq/=|].
  destruct (_ && _ && _ && _) in Hdec; [done|].
  destruct (hc_manual_override item).
  - case_bool_decide as Hall; [|destruct (hc_provenance item) as [[]|]; simplify_eq/=; done].
    apply Hready in Hall as (? & ? & ?). destruct (prior_of item) as [prior|] eqn:Ep; simplify_eq/=.
    split_and!; try done. exists prior. split; [done|].
    unfold prior_of in Ep. unfold check_content in Hcheck. destruct (hc_has_children_outside_plan item); [done|].
    destruct (hc_provenance item) as [p|]; simplify_eq.
    + destruct (_ || _) eqn:E in Hcheck; [done|]. bool_to_prop. done.
    + destruct (is_open (hc_status item)) eqn:Eo; by simplify_eq.
  - inv_result. by case_match.
  - inv_result. by case_match.
Qed.

(** Evaluation is idempotent: applying the decisions and evaluating again
    succeeds with the same statuses, provenance, readiness and counts, and
    takes no further action. *)
Theorem completion_idempotent items scope ev :
  evaluate_hierarchy_completion items scope = Ok ev →
  evaluate_hierarchy_completion (settle (he_decisions ev) <$> items) scope =
    Ok {| he_scope := scope; he_decisions := settled <$> he_decisions ev |}.
Proof.
  intros Hr. pose proof Hr as (by_id0 & order0 & Hev0 & _)%evaluate_Ok.
  unfold evaluate_hierarchy_completion, complete_postorder in Hr |- *.
  apply rbind_ok in Hr as (by_id & Hidx & Hr). apply index_by_Ok in Hidx.
  apply rbind_ok in Hr as (order & Hpo & Hr). apply rbind_ok in Hr as (root & Hroot & Hr).
  apply rbind_ok in Hr as ([counts decisions] & Hred & Hr). simplify_eq/=.
  assert (∀ item, item ∈ items → check_content (settle decisions item) = Ok tt) as Hcontent.
  { intros item Hitem. destruct (counts_required Hev0 item Hitem) as (d & Hd & _ & Hdec & _). simpl in Hd.
    unfold settle. rewrite Hd. eapply decide_settled; [|exact Hdec]. by apply Hidx. }
  destruct (index_by_total check_ids check_content (λ item, HierarchyCompletionError.DuplicateItem (hc_id item))
    (settle decisions <$> items)) as [by_id' Hidx'].
  { change (NoDup (hc_id <$> (settle decisions <$> items))). rewrite settle_ids. apply Hidx. }
  { intros a (b & -> & Hb)%list_elem_of_fmap. split; [|auto].
    pose proof (ix_before _ _ _ _ Hidx b Hb) as Hc. unfold check_ids in *. rewrite settle_id.
    by destruct (settle_fields decisions b) as (-> & _). }
  unfold index_items. rewrite Hidx'. apply index_by_Ok in Hidx'. cbn [rbind].
  rewrite (indexed_parents _ _ Hidx'), settle_forest, <- (indexed_parents _ _ Hidx).
  pose proof (settle_index _ _ _ _ Hidx Hidx') as ->. rewrite Hpo. cbn [rbind].
  rewrite settle_scope, Hroot. cbn [rbind].
  rewrite (mark_inherited_ext _ _ (unqualified by_id root)) by apply settle_unqualified.
  rewrite <- map_fmap_compose. change ((λ _, default_counts) ∘ settle decisions) with
    (λ _ : HierarchyCompletionItem, default_counts).
  assert (foldM (reduce_step (parents_map by_id)
      (decide_node (settle decisions <$> by_id) (mark_inherited (parents_map by_id) (unqualified by_id root) order))
      (required_branch (settle decisions <$> by_id)) add_branch HierarchyCompletionError.Overflow)
      ((λ _, default_counts) <$> by_id, settled <$> ∅) order = Ok (counts, settled <$> decisions)) as Hsim.
  { eapply reduce_simulation; [| |exact Hred|].
    - intros id d v. unfold required_branch. rewrite lookup_fmap. destruct (by_id !! id) as [a|]; simpl; [|done].
      destruct (settle_fields decisions a) as (_ & -> & _). by destruct (hc_required_for_parent a).
    - apply (postorder_nodup (gset N) (parents_map by_id)).
      by destruct (postorder (parents_map by_id)); simplify_eq/=.
    - intros id v d _. unfold decide_node. rewrite lookup_fmap, settle_parent_ids.
      destruct (by_id !! id) as [a|] eqn:Ea; simpl; [|done]. intros Hdec Hd.
      apply (ix_lookup _ _ _ _ Hidx) in Ea as [Ha Hida]. simpl in Hida. subst id.
      unfold settle. rewrite Hd. eapply decide_settled; [|exact Hdec]. by apply Hidx. }
  rewrite fmap_empty in Hsim. unfold reduce. by rewrite Hsim.
Qed.

(** ** Witnesses: a parent whose two required children are completed *)

Definition sample_node (id : ItemId) (parent : option ItemId) (status : HierarchyProgressStatus)
    : HierarchyCompletionItem :=
  {| hc_id := id; hc_parent_id := parent; hc_status := status; hc_required_for_parent := true;
     hc_recurs := false; hc_has_children_outside_plan := false;
     hc_manual_override := HierarchyCompletionOverride.Automatic; hc_provenance := None |}.

Definition sample_nodes : list HierarchyCompletionItem :=
  [sample_node 1 None HierarchyProgressStatus.InProgress;
   sample_node 2 (Some 1%N) HierarchyProgressStatus.Completed;
   sample_node 3 (Some 1%N) HierarchyProgressStatus.Completed].

Lemma sample_evaluation :
  ∃ ev, evaluate_hierarchy_completion sample_nodes OneOff = Ok ev ∧
    (hd_action <$> he_decisions ev !! 1%N) = Some Action.AutomaticallyCompleted.
Proof.
  destruct (evaluate_hierarchy_completion sample_nodes OneOff) as [ev|e] eqn:E;
    [|exfalso; vm_compute in E; discriminate E].
  exists ev. split; [reflexivity|]. vm_compute in E. injection E as <-. vm_compute. reflexivity.
Defined.

Lemma completion_decided_from_required_witness :
  ∃ ev d, evaluate_hierarchy_completion sample_nodes OneOff = Ok ev ∧
    he_decisions ev !! 1%N = Some d ∧ required_descendants (hd_counts d) = 2%N.
Proof.
  destruct sample_evaluation as (ev & E & _).
  destruct (completion_decided_from_required sample_nodes OneOff ev E
    (sample_node 1 None HierarchyProgressStatus.InProgress) ltac:(unfold sample_nodes; left))
    as (d & Hd & _ & Hn & _).
  exists ev, d. split; [exact E|]. split; [exact Hd|]. rewrite Hn. vm_compute. reflexivity.
Defined.

Lemma automatic_completion_sound_witness :
  ∃ ev, evaluate_hierarchy_completion sample_nodes OneOff = Ok ev ∧
    all_completed (he_decisions ev) [2; 3]%N.
Proof.
  destruct sample_evaluation as (ev & E & Hact). exists ev. split; [exact E|].
  destruct (he_decisions ev !! 1%N) as [d|] eqn:Hd; [|discriminate Hact]. injection Hact as Hact.
  destruct (automatic_completion_sound sample_nodes OneOff ev
    (sample_node 1 None HierarchyProgressStatus.InProgress) d E ltac:(unfold sample_nodes; left) Hd Hact)
    as (_ & _ & _ & _ & _ & Hall).
  exact Hall.
Defined.

Lemma completion_idempotent_witness :
  ∃ ev, evaluate_hierarchy_completion sample_nodes OneOff = Ok ev ∧
    evaluate_hierarchy_completion (settle (he_decisions ev) <$> sample_nodes) OneOff =
      Ok {| he_scope := OneOff; he_decisions := settled <$> he_decisions ev |}.
Proof.
  destruct sample_evaluation as (ev & E & _). exists ev. split; [exact E|].
  exact (completion_idempotent sample_nodes OneOff ev E).
Defined.
