(* ===== verification/Lifecycle.v ===== *)
(** * Lifecycle: evidence for the members of individual occurrences

    crates/dayweave-core/src/occurrence_lifecycle.rs: the validation of complete
    occurrence trees, and the overlay of their statuses on a materialized plan.
    The theorems show that validation accepts exactly the well-formed contexts
    (bounded, with distinct instances whose members form one acyclic tree below
    the root), and that the overlay changes statuses only, each to the status
    the evidence and the template's block determine. *)
From S2P Require Import Prelude Forest Platform Domain Samples Rollup.

Definition MAX_OCCURRENCE_LIFECYCLE_MEMBERS : N := MAX_RECURRENCE_MATERIALIZED_ITEMS.

Record OccurrenceLifecycleMember : Type := {
  lm_item_id : ItemId;
  lm_parent_id : option ItemId;
  lm_source_revision : N;
  lm_status : WorkStatus
}.

Record OccurrenceLifecycleInstance : Type := {
  li_root_item_id : ItemId;
  li_occurrence_id : OccurrenceId;
  li_identity : RecurrenceOccurrenceIdentity;
  li_members : list OccurrenceLifecycleMember
}.

Record OccurrenceLifecycleContext : Type := {
  lc_snapshot_revision : N;
  lc_instances : list OccurrenceLifecycleInstance
}.

#[export] Instance OccurrenceLifecycleMember_node : TreeNode OccurrenceLifecycleMember := {
  node_id := lm_item_id;
  node_parent := lm_parent_id
}.

Inductive OccurrenceLifecycleError : Type :=
| InvalidSnapshotRevision
| TooLarge (limit : N)
| InvalidInstance (id : OccurrenceId)
| DuplicateInstance (id : OccurrenceId)
| InvalidMember (occurrence_id : OccurrenceId) (item_id : ItemId)
| DuplicateMember (occurrence_id : OccurrenceId) (item_id : ItemId)
| InvalidHierarchy (id : OccurrenceId)
| OccurrenceMismatch (id : OccurrenceId)
| SourceMismatch (occurrence_id : OccurrenceId) (item_id : ItemId)
| MissingMember (occurrence_id : OccurrenceId) (item_id : ItemId)
| ExecutionConflict (occurrence_id : OccurrenceId) (item_id : ItemId).

Record IndexedInstance : Type := {
  ii_instance : OccurrenceLifecycleInstance;
  ii_members : gmap ItemId OccurrenceLifecycleMember
}.

(** ** Validation *)

(** The reduction loop of [validate_member_tree]; unlike the other passes it
    fails when a parent holds no count. *)
Fixpoint strip_members (parents : gmap N (option N)) (invalid : OccurrenceLifecycleError) (fuel : nat)
    (children : gmap N N) (ready : list N) : result OccurrenceLifecycleError (gmap N N) :=
  match fuel with
  | O => Ok children
  | S fuel' =>
      match rq_pop ready with
      | None => Ok children
      | Some (id, ready) =>
          let children := delete id children in
          match parent_of parents id with
          | None => strip_members parents invalid fuel' children ready
          | Some parent =>
              match children !! parent with
              | None => Err invalid
              | Some count =>
                  let count := (count - 1)%N in
                  strip_members parents invalid fuel' (<[parent := count]> children)
                    (if (count =? 0)%N then rq_push parent ready else ready)
              end
          end
      end
  end.

(** The counting loop: a missing parent, or a second root, is refused. *)
Definition count_member_children (instance : OccurrenceLifecycleInstance)
    (members : gmap ItemId OccurrenceLifecycleMember) : result OccurrenceLifecycleError (gmap N N) :=
  foldM (λ children member,
    match lm_parent_id member with
    | Some parent =>
        match children !! parent with
        | None => Err (InvalidHierarchy (li_occurrence_id instance))
        | Some count => Ok (<[parent := (count + 1)%N]> children)
        end
    | None =>
        if negb (lm_item_id member =? li_root_item_id instance)%N
        then Err (InvalidHierarchy (li_occurrence_id instance)) else Ok children
    end) ((λ _, 0%N) <$> members) (values members).

Definition validate_member_tree (instance : OccurrenceLifecycleInstance)
    (members : gmap ItemId OccurrenceLifecycleMember) : result OccurrenceLifecycleError unit :=
  let invalid := InvalidHierarchy (li_occurrence_id instance) in
  if match members !! li_root_item_id instance with
     | None => true
     | Some root => negb (bool_decide (lm_parent_id root = None))
     end then Err invalid
  else
    let? children := count_member_children instance members in
    let? children :=
      strip_members (parents_map members) invalid (size children) children (initial_ready children) in
    if negb (bool_decide (children = ∅)) then Err invalid else Ok tt.

Definition check_member (instance : OccurrenceLifecycleInstance) (member : OccurrenceLifecycleMember)
    : result OccurrenceLifecycleError unit :=
  if is_nil (lm_item_id member) ||
     match lm_parent_id member with Some id => is_nil id | None => false end ||
     (lm_source_revision member =? 0)%N || (i64_max <? lm_source_revision member)%N ||
     match lm_status member with WorkStatus.Active | WorkStatus.Paused => true | _ => false end
  then Err (InvalidMember (li_occurrence_id instance) (lm_item_id member))
  else Ok tt.

Definition index_members (instance : OccurrenceLifecycleInstance)
    : result OccurrenceLifecycleError (gmap ItemId OccurrenceLifecycleMember) :=
  let? members :=
    index_by (check_member instance) (λ _, Ok tt)
      (λ member, DuplicateMember (li_occurrence_id instance) (lm_item_id member)) (li_members instance) in
  let? _ := validate_member_tree instance members in
  Ok members.

(** [try_fold(0, checked_add ... filter(<= limit))] over the member counts. *)
Definition total_members (instances : list OccurrenceLifecycleInstance)
    : result OccurrenceLifecycleError N :=
  foldM (λ total instance,
    match checked_add u64_max total (N.of_nat (length (li_members instance))) with
    | Some total =>
        if (total <=? MAX_OCCURRENCE_LIFECYCLE_MEMBERS)%N then Ok total
        else Err (TooLarge MAX_OCCURRENCE_LIFECYCLE_MEMBERS)
    | None => Err (TooLarge MAX_OCCURRENCE_LIFECYCLE_MEMBERS)
    end) 0%N instances.

Definition index_instance (indexed : gmap OccurrenceId IndexedInstance)
    (instance : OccurrenceLifecycleInstance)
    : result OccurrenceLifecycleError (gmap OccurrenceId IndexedInstance) :=
  if is_nil (li_root_item_id instance) || is_nil (li_occurrence_id instance) ||
     bool_decide (li_members instance = [])
  then Err (InvalidInstance (li_occurrence_id instance))
  else
    let? members := index_members instance in
    match indexed !! li_occurrence_id instance with
    | Some _ => Err (DuplicateInstance (li_occurrence_id instance))
    | None =>
        Ok (<[li_occurrence_id instance := {| ii_instance := instance; ii_members := members |}]> indexed)
    end.

Definition index_context (context : OccurrenceLifecycleContext)
    : result OccurrenceLifecycleError (gmap OccurrenceId IndexedInstance) :=
  if (i64_max <? lc_snapshot_revision context)%N ||
     ((lc_snapshot_revision context =? 0)%N && negb (bool_decide (lc_instances context = [])))
  then Err InvalidSnapshotRevision
  else if (MAX_OCCURRENCE_LIFECYCLE_MEMBERS <? N.of_nat (length (lc_instances context)))%N
  then Err (TooLarge MAX_OCCURRENCE_LIFECYCLE_MEMBERS)
  else
    let? _ := total_members (lc_instances context) in
    foldM index_instance ∅ (lc_instances context).

(** [OccurrenceLifecycleContext::validate] *)
Definition validate (context : OccurrenceLifecycleContext) : result OccurrenceLifecycleError unit :=
  let? _ := index_context context in Ok tt.

(** ** The overlay *)

(** [cloned_members]: for each occurrence, the clone of each series item. *)
Definition clones_of (identities : gmap ItemId MaterializedIdentity)
    : gmap OccurrenceId (gmap ItemId ItemId) :=
  foldl (λ m '(clone_id, identity),
    <[mi_occurrence_id identity :=
        <[mi_series_item_id identity := clone_id]> (default ∅ (m !! mi_occurrence_id identity))]> m)
    ∅ (entries identities).

Definition index_execution (execution : ExecutionPlanningContext)
    : gmap (ItemId * option OccurrenceId) ExecutionWorkUnit :=
  foldl (λ m unit, <[(eu_item_id unit, eu_occurrence_id unit) := unit]> m) ∅ (ec_work_units execution).

Definition index_occurrences (occurrences : list Occurrence) : gmap OccurrenceId Occurrence :=
  foldl (λ m occurrence, <[occ_id occurrence := occurrence]> m) ∅ occurrences.

(** The parents of members the planning request leaves out. *)
Definition omitted_parents (source_items : gmap ItemId WorkItem)
    (members : gmap ItemId OccurrenceLifecycleMember) : gset ItemId :=
  list_to_set (omap lm_parent_id
    (filter (λ member, source_items !! lm_item_id member = None) (values members))).

(** An open member of a blocked template stays blocked. *)
Definition overlay_status (source_item : WorkItem) (member : OccurrenceLifecycleMember) : WorkStatus :=
  if bool_decide (wi_status source_item = WorkStatus.Blocked) && negb (is_terminal (lm_status member))
  then WorkStatus.Blocked else lm_status member.

(** The consistency of a member's status with its execution record. *)
Definition execution_conflict (unit : ExecutionWorkUnit) (member : OccurrenceLifecycleMember)
    (status : WorkStatus) : bool :=
  (negb (bool_decide (eu_reservations unit = [])) &&
     (is_terminal status || bool_decide (status = WorkStatus.Blocked))) ||
  (bool_decide (eu_disposition unit = Some DispositionSkipped) &&
     negb (bool_decide (lm_status member = WorkStatus.Skipped))).

Definition overlay_member (source_items : gmap ItemId WorkItem)
    (execution : gmap (ItemId * option OccurrenceId) ExecutionWorkUnit)
    (instance : OccurrenceLifecycleInstance) (occurrence_id : OccurrenceId) (clones : gmap ItemId ItemId)
    (omitted : gset ItemId) (statuses : gmap ItemId WorkStatus) (member : OccurrenceLifecycleMember)
    : result OccurrenceLifecycleError (gmap ItemId WorkStatus) :=
  match source_items !! lm_item_id member with
  | None => Ok statuses
  | Some source_item =>
      let expected_parent :=
        if (lm_item_id member =? li_root_item_id instance)%N then None else wi_parent_id source_item in
      match clones !! lm_item_id member with
      | None => Err (SourceMismatch occurrence_id (lm_item_id member))
      | Some clone =>
          if negb (wi_revision source_item =? lm_source_revision member)%N ||
             negb (bool_decide (lm_parent_id member = expected_parent)) ||
             negb (Bool.eqb (wi_has_children_outside_plan source_item)
                     (bool_decide (lm_item_id member ∈ omitted)))
          then Err (SourceMismatch occurrence_id (lm_item_id member))
          else
            let status := overlay_status source_item member in
            if match execution !! (lm_item_id member, Some occurrence_id) with
               | Some unit => execution_conflict unit member status
               | None => false
               end
            then Err (ExecutionConflict occurrence_id (lm_item_id member))
            else Ok (<[clone := status]> statuses)
      end
  end.

Definition overlay_instance (source_items : gmap ItemId WorkItem)
    (occurrences : gmap OccurrenceId Occurrence) (cloned_members : gmap OccurrenceId (gmap ItemId ItemId))
    (execution : gmap (ItemId * option OccurrenceId) ExecutionWorkUnit)
    (statuses : gmap ItemId WorkStatus) (entry : OccurrenceId * IndexedInstance)
    : result OccurrenceLifecycleError (gmap ItemId WorkStatus) :=
  let '(occurrence_id, indexed) := entry in
  let instance := ii_instance indexed in
  if match occurrences !! occurrence_id with
     | None => true
     | Some occurrence =>
         negb (occ_series_item_id occurrence =? li_root_item_id instance)%N ||
         negb (identity_eqb (occ_identity occurrence) (li_identity instance)) ||
         negb (bool_decide (occ_state occurrence = OccurrenceState.Generated))
     end then Err (OccurrenceMismatch occurrence_id)
  else
    let? clones := ok_or (cloned_members !! occurrence_id) (OccurrenceMismatch occurrence_id) in
    let? _ := forM (λ item_id,
      match ii_members indexed !! item_id with
      | Some _ => Ok tt
      | None => Err (MissingMember occurrence_id item_id)
      end) (keys clones) in
    foldM (overlay_member source_items execution instance occurrence_id clones
             (omitted_parents source_items (ii_members indexed))) statuses (values (ii_members indexed)).

(** The whole overlay: the statuses are computed before any item changes. *)
Definition overlay_statuses (source : PlanRequest) (execution : ExecutionPlanningContext)
    (indexed : gmap OccurrenceId IndexedInstance) (materialized : MaterializedPlan)
    : result OccurrenceLifecycleError (gmap ItemId WorkStatus) :=
  foldM (overlay_instance (collect_by_id (items source)) (index_occurrences (mp_occurrences materialized))
           (clones_of (mp_identities materialized)) (index_execution execution)) ∅ (entries indexed).

Definition project_statuses (statuses : gmap ItemId WorkStatus) (request : PlanRequest) : PlanRequest :=
  with_items request
    (map (λ item, match statuses !! wi_id item with
                  | Some status => with_status item status
                  | None => item
                  end) (items request)).

Definition apply_occurrence_lifecycle (source : PlanRequest) (execution : ExecutionPlanningContext)
    (context : OccurrenceLifecycleContext) (materialized : MaterializedPlan)
    : result OccurrenceLifecycleError MaterializedPlan :=
  let? indexed := index_context context in
  if bool_decide (indexed = ∅) then Ok materialized
  else
    let? statuses := overlay_statuses source execution indexed materialized in
    Ok {| mp_request := project_statuses statuses (mp_request materialized);
          mp_occurrences := mp_occurrences materialized;
          mp_identities := mp_identities materialized |}.

(** ** Specification *)

(** The members form one complete acyclic tree below the root. *)
Record member_tree (instance : OccurrenceLifecycleInstance) : Prop := {
  mt_forest : forest_ok (forest_of (li_members instance));
  mt_root : ∃ root, root ∈ li_members instance ∧ lm_item_id root = li_root_item_id instance ∧
    lm_parent_id root = None;
  mt_single m : m ∈ li_members instance → lm_parent_id m = None → lm_item_id m = li_root_item_id instance
}.

Record valid_instance (instance : OccurrenceLifecycleInstance) : Prop := {
  vi_root : li_root_item_id instance ≠ 0%N;
  vi_occurrence : li_occurrence_id instance ≠ 0%N;
  vi_members m : m ∈ li_members instance → check_member instance m = Ok tt;
  vi_distinct : NoDup (lm_item_id <$> li_members instance);
  vi_tree : member_tree instance
}.

Record valid_context (context : OccurrenceLifecycleContext) : Prop := {
  vc_revision : (lc_snapshot_revision context <= i64_max)%N;
  vc_zero : lc_snapshot_revision context = 0%N → lc_instances context = [];
  vc_count : (N.of_nat (length (lc_instances context)) <= MAX_OCCURRENCE_LIFECYCLE_MEMBERS)%N;
  vc_total : (N.of_nat (length (flat_map li_members (lc_instances context))) <=
    MAX_OCCURRENCE_LIFECYCLE_MEMBERS)%N;
  vc_distinct : NoDup (li_occurrence_id <$> lc_instances context);
  vc_instances i : i ∈ lc_instances context → valid_instance i
}.

(** ** Lemmas on the member tree *)

(** Under the traversal invariant a parent always holds a count. *)
Lemma strip_members_eq parents invalid fuel remaining (ready : list N) order :
  (∀ c p, parents !! c = Some (Some p) → is_Some (parents !! p)) →
  strip_inv parents remaining ready order →
  strip_members parents invalid fuel remaining ready =
  Ok (let '(remaining', _, _) := strip parents fuel remaining ready order in remaining').
Proof.
  intros Hclosed. revert remaining ready order.
  induction fuel as [|fuel IH]; intros remaining ready order Hinv; [done|].
  cbn [strip_members strip]. destruct (rq_pop ready) as [[id ready']|] eqn:Hpop; [|done].
  destruct (strip_step parents id remaining ready') as [remaining' ready''] eqn:Hstep.
  destruct (strip_step_inv parents _ _ _ _ _ _ _ Hinv Hpop Hstep) as (Hinv' & Hid & _).
  rewrite <- (IH _ _ _ Hinv'). clear IH Hinv'.
  unfold strip_step in Hstep. destruct (parent_of parents id) as [p|] eqn:Ep; [|by simplify_eq].
  apply parent_of_Some in Ep. destruct (delete id remaining !! p) as [c|] eqn:Ec; [by simplify_eq|].
  exfalso. assert (remaining !! id = Some 0%N) as Hzero.
  { apply (si_ready _ _ _ _ Hinv). rewrite (rq_pop_Some _ _ _ Hpop). left. }
  destruct (ready_children parents _ _ _ _ Hinv Hzero) as [_ Hself].
  assert (p ≠ id) as Hne by congruence. rewrite lookup_delete_ne in Ec by done.
  destruct (proj1 (si_split _ _ _ _ Hinv p) (Hclosed _ _ Ep)) as [Hp|[? Hp]]; [|congruence].
  apply list_elem_of_split in Hp as (l1 & l2 & ->).
  pose proof (si_order _ _ _ _ Hinv l1 p l2 id eq_refl Ep) as Hin.
  pose proof (si_fresh _ _ _ _ Hinv id ltac:(set_solver)). congruence.
Qed.

Section tree.
Variable instance : OccurrenceLifecycleInstance.
Variable members : gmap ItemId OccurrenceLifecycleMember.
Hypothesis Hix : indexed (check_member instance) (λ _, Ok tt) (li_members instance) members.

Lemma member_lookup k m : members !! k = Some m ↔ m ∈ li_members instance ∧ lm_item_id m = k.
Proof using Hix. apply (ix_lookup _ _ _ _ Hix). Qed.

(** The counting loop is that of the traversal, with the single-root check. *)
Lemma count_member_children_Ok counts :
  count_member_children instance members = Ok counts ↔
  count_children (parents_map members) = Ok counts ∧
  ∀ m, m ∈ li_members instance → lm_parent_id m = None → lm_item_id m = li_root_item_id instance.
Proof using Hix.
  unfold count_member_children, count_children, count_children_of.
  replace ((λ _, 0%N) <$> members) with ((λ _ : option N, 0%N) <$> parents_map members)
    by (unfold parents_map; by rewrite <- map_fmap_compose).
  assert (keys (parents_map members) = keys members) as -> by apply keys_fmap. unfold values.
  assert ((∀ m, m ∈ li_members instance → lm_parent_id m = None → lm_item_id m = li_root_item_id instance) ↔
    (∀ k m, k ∈ keys members → members !! k = Some m → lm_parent_id m = None → k = li_root_item_id instance)) as ->.
  { split.
    - intros H k m _ Hk Hp. apply member_lookup in Hk as [Hm <-]. by apply H.
    - intros H m Hm Hp. assert (members !! lm_item_id m = Some m) as Hk by (by apply member_lookup).
      eapply H; [|exact Hk|done]. apply elem_of_keys. eauto. }
  assert (∀ k, k ∈ keys members → is_Some (members !! k)) as Hkeys by (intros k; apply elem_of_keys).
  revert Hkeys. generalize (keys members) as l. generalize ((λ _ : option N, 0%N) <$> parents_map members) as m0.
  intros m0 l. revert m0. induction l as [|k l IH]; intros m0 Hkeys; simpl.
  { split; [intros ?; simplify_eq; split; [done|]; intros ? ? ?%elem_of_nil; done|intros [? _]; by simplify_eq]. }
  destruct (Hkeys k ltac:(left)) as [m Hk]. rewrite Hk. simpl.
  assert (Hkeys' : ∀ k, k ∈ l → is_Some (members !! k)) by (intros; apply Hkeys; by right).
  assert (parent_of (parents_map members) k = lm_parent_id m) as ->.
  { unfold parent_of, parents_map. by rewrite lookup_fmap, Hk. }
  apply member_lookup in Hk as Hid. destruct Hid as [_ Hid].
  destruct (lm_parent_id m) as [p|] eqn:Ep.
  - destruct (m0 !! p) as [c|]; simpl; [|naive_solver]. rewrite IH by done.
    split; intros [H1 H2]; (split; [done|]); intros k' m'; specialize (H2 k' m');
      rewrite ?elem_of_cons in *; [|auto]. intros [->|Hin]; [congruence|auto].
  - destruct (lm_item_id m =? li_root_item_id instance)%N eqn:Er; simpl; bool_to_prop.
    + rewrite IH by done. split; intros [H1 H2]; (split; [done|]); intros k' m'; specialize (H2 k' m');
        rewrite ?elem_of_cons in *; [|auto]. intros [->|Hin]; [congruence|auto].
    + split; [done|]. intros [_ H]. destruct Er. rewrite Hid. eapply H; [left|exact Hk|done].
Qed.

Lemma validate_member_tree_Ok : validate_member_tree instance members = Ok tt ↔ member_tree instance.
Proof using Hix.
  pose proof (indexed_parents _ _ Hix) as Hpar. unfold validate_member_tree.
  assert (match members !! li_root_item_id instance with None => true
     | Some root => negb (bool_decide (lm_parent_id root = None)) end = false ↔
    ∃ root, root ∈ li_members instance ∧ lm_item_id root = li_root_item_id instance ∧ lm_parent_id root = None) as Hroot.
  { destruct (members !! li_root_item_id instance) as [r|] eqn:Er.
    - apply member_lookup in Er as [Hr Hid]. rewrite negb_false_iff, bool_decide_eq_true.
      split; [eauto|]. intros (r' & Hr' & Hid' & Hp).
      assert (members !! li_root_item_id instance = Some r') as E1 by (by apply member_lookup).
      assert (members !! li_root_item_id instance = Some r) as E2 by (by apply member_lookup). congruence.
    - split; [done|]. intros (r & Hr & Hid & _).
      assert (members !! li_root_item_id instance = Some r) by (by apply member_lookup). congruence. }
  destruct (match members !! li_root_item_id instance with None => true | _ => _ end).
  { split; [done|]. intros [_ H _]. by apply Hroot in H. }
  destruct (count_member_children instance members) as [counts|e] eqn:Hc; cbn [rbind].
  - apply count_member_children_Ok in Hc as [Hc Hsingle].
    rewrite (strip_members_eq _ _ _ _ _ [] (proj2 (count_children_Ok _ _ Hc)) (initial_inv _ _ Hc)). cbn [rbind].
    pose proof (postorder_total (list N) (parents_map members)) as Htot.
    pose proof (postorder_Ok (list N) (parents_map members)) as Hok.
    unfold postorder in Htot, Hok. rewrite Hc in Htot, Hok.
    destruct (strip (parents_map members) (size counts) counts (initial_ready counts) []) as [[r q] order].
    rewrite Hpar in *. case_bool_decide as Hr; simpl.
    + subst r. rewrite (proj2 (first_key_None _)) in Hok by done. split; [|done]. intros _.
      destruct (Hok order eq_refl) as (_ & _ & Hf). split; [done|by apply Hroot|done].
    + split; [done|]. intros [Hf _ _]. destruct (Htot Hf) as [o Ho].
      destruct (first_key r) eqn:Ef; [done|]. by apply first_key_None in Ef.
  - split; [done|]. intros [Hf Hr Hs]. exfalso.
    destruct (count_children_total (parents_map members)) as [counts Hc'].
    + intros c p Hcp. rewrite Hpar in *. assert (is_Some (forest_of (li_members instance) !! c)) as Hs' by eauto.
      pose proof (Hf _ Hs') as Hro. inversion Hro as [|? q Hq Hroo]; [congruence|]. simplify_eq.
      inversion Hroo; eauto.
    + assert (count_member_children instance members = Ok counts) by (by apply count_member_children_Ok).
      congruence.
Qed.
End tree.

(** ** Lemmas on the context *)

Lemma index_members_Ok instance members :
  index_members instance = Ok members ↔
  indexed (check_member instance) (λ _, Ok tt) (li_members instance) members ∧ member_tree instance.
Proof.
  unfold index_members. split.
  - intros (m & Hm%index_by_Ok & H)%rbind_ok. apply rbind_ok in H as ([] & Ht & H). simplify_eq.
    split; [done|]. by apply (validate_member_tree_Ok _ _ Hm).
  - intros [Hix Ht].
    destruct (index_by_total (check_member instance) (λ _, Ok tt)
      (λ member, DuplicateMember (li_occurrence_id instance) (lm_item_id member)) (li_members instance)) as [m Hm].
    { apply Hix. } { intros a Ha. split; [|done]. by apply Hix. }
    rewrite Hm. apply index_by_Ok in Hm. cbn [rbind].
    assert (m = members) as ->.
    { apply map_eq. intros k. apply option_eq. intros a. by rewrite (ix_lookup _ _ _ _ Hm), (ix_lookup _ _ _ _ Hix). }
    by rewrite (proj2 (validate_member_tree_Ok _ _ Hm) Ht).
Qed.

Lemma total_members_Ok instances :
  (∃ n, total_members instances = Ok n) ↔
  (N.of_nat (length (flat_map li_members instances)) <= MAX_OCCURRENCE_LIFECYCLE_MEMBERS)%N.
Proof.
  unfold total_members.
  enough (∀ l n, (n <= MAX_OCCURRENCE_LIFECYCLE_MEMBERS)%N →
    (∃ k, foldM (λ total instance,
      match checked_add u64_max total (N.of_nat (length (li_members instance))) with
      | Some total => if (total <=? MAX_OCCURRENCE_LIFECYCLE_MEMBERS)%N then Ok total
                      else Err (TooLarge MAX_OCCURRENCE_LIFECYCLE_MEMBERS)
      | None => Err (TooLarge MAX_OCCURRENCE_LIFECYCLE_MEMBERS) end) n l = Ok k) ↔
    (n + N.of_nat (length (flat_map li_members l)) <= MAX_OCCURRENCE_LIFECYCLE_MEMBERS)%N) as Hgo.
  { rewrite Hgo by (unfold MAX_OCCURRENCE_LIFECYCLE_MEMBERS, MAX_RECURRENCE_MATERIALIZED_ITEMS; lia). done. }
  induction l as [|i l IH]; intros n Hn; simpl; [split; [lia|eauto]|].
  rewrite length_app. destruct (checked_add _ _ _) as [m|] eqn:E; simpl.
  - apply checked_add_Some in E as [-> _]. destruct (_ <=? _)%N eqn:Ele; bool_to_prop; simpl.
    + rewrite IH by done. lia.
    + split; [by intros []|lia].
  - split; [by intros []|]. intros Hle. exfalso. unfold checked_add in E.
    destruct (_ <=? u64_max)%N eqn:Eb; [done|]. bool_to_prop.
    unfold MAX_OCCURRENCE_LIFECYCLE_MEMBERS, MAX_RECURRENCE_MATERIALIZED_ITEMS, u64_max in *. lia.
Qed.

(** What the index of instances holds. *)
Record indexed_instances (l : list OccurrenceLifecycleInstance)
    (m : gmap OccurrenceId IndexedInstance) : Prop := {
  xi_distinct : NoDup (li_occurrence_id <$> l);
  xi_valid i : i ∈ l → valid_instance i;
  xi_lookup k x : m !! k = Some x ↔
    ii_instance x ∈ l ∧ li_occurrence_id (ii_instance x) = k ∧
    index_members (ii_instance x) = Ok (ii_members x)
}.

Lemma index_instance_Ok m i m' :
  index_instance m i = Ok m' ↔ valid_instance i ∧ m !! li_occurrence_id i = None ∧
    ∃ members, index_members i = Ok members ∧
      m' = <[li_occurrence_id i := {| ii_instance := i; ii_members := members |}]> m.
Proof.
  unfold index_instance. destruct (is_nil _ || _ || _) eqn:E.
  - split; [done|]. intros ([H1 H2 _ _ [_ (r & Hr & _) _]] & _). exfalso.
    unfold is_nil in E. apply orb_true_iff in E as [E|E]; [apply orb_true_iff in E as [E|E]|]; bool_to_prop; try done.
    rewrite E in Hr. by apply elem_of_nil in Hr.
  - bool_to_prop. unfold is_nil in *. bool_to_prop. rewrite rbind_ok. split.
    + intros (members & Hm & Hins). destruct (m !! li_occurrence_id i) eqn:Em; simplify_eq.
      apply index_members_Ok in Hm as Hm'. destruct Hm' as [Hix Ht].
      split; [|split; [done|eauto]]. split; try done; by apply Hix.
    + intros (_ & Hnone & members & Hm & ->). exists members. rewrite Hnone. done.
Qed.

Lemma index_instances_Ok l m : foldM index_instance ∅ l = Ok m → indexed_instances l m.
Proof.
  apply (foldM_inv index_instance indexed_instances).
  - split; [constructor|set_solver|]. intros k x. rewrite lookup_empty. set_solver.
  - intros p i q m0 m1 _ [Hd Hv Hl] (Hi & Hnone & members & Hm & ->)%index_instance_Ok.
    assert (li_occurrence_id i ∉ li_occurrence_id <$> p) as Hfresh.
    { intros (j & Hid & Hj)%list_elem_of_fmap. destruct (Hv j Hj) as [_ _ _ _ _].
      assert (∃ x, m0 !! li_occurrence_id j = Some x) as [x Hx]; [|congruence].
      destruct (Hv j Hj) as [_ _ Hmem Hdis Htree].
      destruct (index_by_total (check_member j) (λ _, Ok tt)
        (λ member, DuplicateMember (li_occurrence_id j) (lm_item_id member)) (li_members j)) as [mm Hmm];
        [exact Hdis|intros a Ha; split; [by apply Hmem|done]|].
      exists {| ii_instance := j; ii_members := mm |}. apply Hl. simpl. split_and!; [done..|].
      apply index_members_Ok. split; [by apply index_by_Ok in Hmm|done]. }
    split.
    + rewrite fmap_app. by apply NoDup_snoc.
    + intros j [Hj|Hj]%elem_of_app; [auto|]. apply list_elem_of_singleton in Hj as ->. done.
    + intros k x. rewrite lookup_insert, elem_of_app, list_elem_of_singleton. case_decide as Hk.
      * subst k. split; [intros; simplify_eq/=; auto|]. intros ([Hin|Heq] & Hid & Hx).
        -- destruct Hfresh. rewrite <- Hid. apply list_elem_of_fmap. eauto.
        -- destruct x as [j mm]; simpl in *. subst. congruence.
      * rewrite Hl. split; [naive_solver|]. intros ([Hin|Heq] & Hid & Hx); [done|]. destruct Hk. by rewrite <- Hid, Heq.
Qed.

Lemma index_instances_total l :
  NoDup (li_occurrence_id <$> l) → (∀ i, i ∈ l → valid_instance i) → ∃ m, foldM index_instance ∅ l = Ok m.
Proof.
  intros Hnd Hv. enough (∀ m : gmap OccurrenceId IndexedInstance,
    (∀ i, i ∈ l → m !! li_occurrence_id i = None) → ∃ m', foldM index_instance m l = Ok m') as Hgo
    by (apply Hgo; intros; apply lookup_empty).
  induction l as [|i l IH]; intros m Hm; simpl; [eauto|].
  rewrite fmap_cons in Hnd. apply NoDup_cons in Hnd as [Hi Hnd].
  pose proof (Hv i ltac:(left)) as [H1 H2 Hmem Hdis Htree].
  destruct (index_by_total (check_member i) (λ _, Ok tt)
    (λ member, DuplicateMember (li_occurrence_id i) (lm_item_id member)) (li_members i)) as [mm Hmm];
        [exact Hdis|intros a Ha; split; [by apply Hmem|done]|].
  apply index_by_Ok in Hmm.
  assert (index_instance m i = Ok (<[li_occurrence_id i := {| ii_instance := i; ii_members := mm |}]> m)) as ->.
  { apply index_instance_Ok. split; [by apply Hv; left|]. split; [apply Hm; left|].
    exists mm. split; [|done]. by apply index_members_Ok. }
  cbn [rbind]. apply IH; [done|intros; apply Hv; by right|].
  intros j Hj. rewrite lookup_insert_ne; [apply Hm; by right|].
  intros Heq. destruct Hi. rewrite Heq. apply list_elem_of_fmap. eauto.
Qed.

(** ** Theorems *)

(** Validation accepts exactly the well-formed contexts: a revision within
    range, at most the member limit in total, distinct instances, and for each
    instance distinct valid members that form one acyclic tree at its root. *)
Theorem validate_accepts_iff context : validate context = Ok tt ↔ valid_context context.
Proof.
  unfold validate, index_context. split.
  - intros (m & H & _)%rbind_ok.
    destruct (_ || _) eqn:E1 in H; [done|]. destruct (_ <? _)%N eqn:E2 in H; [done|].
    apply rbind_ok in H as (n & Hn & H). apply index_instances_Ok in H as [Hd Hv _].
    apply orb_false_iff in E1 as [E0 E1]. bool_to_prop. split; try done.
    + intros Hz. rewrite Hz in E1. simpl in E1. by bool_to_prop.
    + apply total_members_Ok. eauto.
  - intros [H1 H2 H3 H4 H5 H6].
    replace (i64_max <? lc_snapshot_revision context)%N with false by (symmetry; by apply N.ltb_ge).
    destruct (lc_snapshot_revision context =? 0)%N eqn:Ez; bool_to_prop.
    + rewrite H2 by done. simpl. done.
    + simpl. replace (_ <? _)%N with false by (symmetry; by apply N.ltb_ge).
      apply total_members_Ok in H4 as [n ->]. cbn [rbind].
      by destruct (index_instances_total _ H5 H6) as [m ->].
Qed.

(** ** Lemmas on the overlay *)

(** The status the evidence gives a clone, if it speaks about it. *)
Definition overlay_target (source_items : gmap ItemId WorkItem)
    (identities : gmap ItemId MaterializedIdentity) (indexed : gmap OccurrenceId IndexedInstance)
    (clone : ItemId) : option WorkStatus :=
  identity ← identities !! clone;
  x ← indexed !! mi_occurrence_id identity;
  member ← ii_members x !! mi_series_item_id identity;
  source_item ← source_items !! mi_series_item_id identity;
  Some (overlay_status source_item member).

Lemma clones_of_sound identities occ m series clone :
  clones_of identities !! occ = Some m → m !! series = Some clone →
  identities !! clone = Some {| mi_series_item_id := series; mi_occurrence_id := occ |}.
Proof.
  unfold clones_of.
  enough (∀ l (acc : gmap OccurrenceId (gmap ItemId ItemId)),
    (∀ k i, (k, i) ∈ l → identities !! k = Some i) →
    (∀ o mm s c, acc !! o = Some mm → mm !! s = Some c →
      identities !! c = Some {| mi_series_item_id := s; mi_occurrence_id := o |}) →
    ∀ o mm s c, foldl (λ m '(clone_id, identity),
      <[mi_occurrence_id identity := <[mi_series_item_id identity := clone_id]>
          (default ∅ (m !! mi_occurrence_id identity))]> m) acc l !! o = Some mm → mm !! s = Some c →
      identities !! c = Some {| mi_series_item_id := s; mi_occurrence_id := o |}) as Hgo.
  { apply Hgo; [by intros k i ?%elem_of_entries|]. intros o mm s c. by rewrite lookup_empty. }
  clear. induction l as [|[k i] l IH]; intros acc Hl Hacc; simpl; [exact Hacc|].
  apply IH; [intros; apply Hl; by right|]. intros o mm s c. rewrite lookup_insert.
  case_decide as Ho; [|apply Hacc]. intros ? Hs; simplify_eq.
  rewrite lookup_insert in Hs. case_decide as Hsd.
  - simplify_eq. rewrite (Hl _ i) by left. by destruct i.
  - destruct (acc !! mi_occurrence_id i) as [m0|] eqn:E; simpl in Hs; [by eapply Hacc|done].
Qed.

Section overlay.
Variable source_items : gmap ItemId WorkItem.
Variable occurrences : gmap OccurrenceId Occurrence.
Variable execution : gmap (ItemId * option OccurrenceId) ExecutionWorkUnit.
Variable identities : gmap ItemId MaterializedIdentity.
Variable indexed : gmap OccurrenceId IndexedInstance.

Abbreviation target := (overlay_target source_items identities indexed).

(** Every status recorded is the target. *)
Definition statuses_sound (statuses : gmap ItemId WorkStatus) : Prop :=
  ∀ clone s, statuses !! clone = Some s → target clone = Some s.

(** The member's clone has a status. *)
Definition member_covered (occ : OccurrenceId) (member : OccurrenceLifecycleMember)
    (statuses : gmap ItemId WorkStatus) : Prop :=
  is_Some (source_items !! lm_item_id member) →
  ∃ clone, identities !! clone = Some {| mi_series_item_id := lm_item_id member; mi_occurrence_id := occ |} ∧
    is_Some (statuses !! clone).

Lemma overlay_member_step x occ clones omitted member statuses statuses' :
  indexed !! occ = Some x → ii_members x !! lm_item_id member = Some member →
  clones_of identities !! occ = Some clones →
  statuses_sound statuses →
  overlay_member source_items execution (ii_instance x) occ clones omitted statuses member = Ok statuses' →
  statuses_sound statuses' ∧ dom statuses ⊆ dom statuses' ∧ member_covered occ member statuses'.
Proof.
  intros Hx Hm Hclones Hs. unfold overlay_member, member_covered.
  destruct (source_items !! lm_item_id member) as [item|] eqn:Ei.
  2:{ intros ?; simplify_eq. split_and!; [done|done|by intros []]. }
  destruct (clones !! lm_item_id member) as [clone|] eqn:Ec; [|done].
  do 2 (match goal with |- (if ?b then _ else _) = _ → _ => destruct b end; [done|]).
  intros ?; simplify_eq. pose proof (clones_of_sound _ _ _ _ _ Hclones Ec) as Hid. split_and!.
  - intros c s. rewrite lookup_insert. case_decide; [|apply Hs]. intros; simplify_eq.
    unfold overlay_target. rewrite Hid. simpl. rewrite Hx. simpl. rewrite Hm. simpl. by rewrite Ei.
  - rewrite dom_insert_L. set_solver.
  - intros _. exists clone. rewrite lookup_insert_eq. eauto.
Qed.

Lemma member_covered_mono occ member s s' :
  dom s ⊆ dom s' → member_covered occ member s → member_covered occ member s'.
Proof.
  intros Hd Hc Hi. destruct (Hc Hi) as (clone & Hid & Hs). exists clone. split; [done|].
  apply elem_of_dom, Hd. by apply elem_of_dom.
Qed.

Lemma overlay_instance_step x occ statuses statuses' :
  indexed !! occ = Some x → (∀ k m, ii_members x !! k = Some m → lm_item_id m = k) →
  statuses_sound statuses →
  overlay_instance source_items occurrences (clones_of identities) execution statuses (occ, x) = Ok statuses' →
  statuses_sound statuses' ∧ dom statuses ⊆ dom statuses' ∧
  ∀ k m, ii_members x !! k = Some m → member_covered occ m statuses'.
Proof.
  intros Hx Hids Hs. unfold overlay_instance.
  match goal with |- (if ?b then _ else _) = _ → _ => destruct b end; [done|].
  intros (clones & Hc & H)%rbind_ok. apply rbind_ok in H as ([] & _ & H).
  assert (clones_of identities !! occ = Some clones) as Hclones by (destruct (clones_of identities !! occ); simplify_eq/=; done).
  enough (statuses_sound statuses' ∧ dom statuses ⊆ dom statuses' ∧
    ∀ m, m ∈ values (ii_members x) → member_covered occ m statuses') as (H1 & H2 & H3).
  { split_and!; [done..|]. intros k m Hm. apply H3, elem_of_values. eauto. }
  revert H. apply (foldM_inv _ (λ p s, statuses_sound s ∧ dom statuses ⊆ dom s ∧ ∀ m, m ∈ p → member_covered occ m s)).
  - split_and!; [done..|]. intros m Hm. by apply elem_of_nil in Hm.
  - intros p m q s s' Hsplit (I1 & I2 & I3) Hstep.
    assert (m ∈ values (ii_members x)) as [k Hk]%elem_of_values by (rewrite Hsplit; set_solver).
    pose proof (Hids _ _ Hk) as <-.
    destruct (overlay_member_step _ _ _ _ _ _ _ Hx Hk Hclones I1 Hstep) as (J1 & J2 & J3).
    split_and!; [done|set_solver|]. intros m' [Hm'|Hm']%elem_of_app.
    + eapply member_covered_mono; [exact J2|auto].
    + by apply list_elem_of_singleton in Hm' as ->.
Qed.
End overlay.

Lemma index_context_Ok context m :
  index_context context = Ok m → indexed_instances (lc_instances context) m.
Proof.
  unfold index_context. destruct (_ || _); [done|]. destruct (_ <? _)%N; [done|].
  intros (n & _ & H)%rbind_ok. by apply index_instances_Ok.
Qed.

(** Every instance of the context is indexed with its members. *)
Lemma indexed_instance l m i :
  indexed_instances l m → i ∈ l → ∃ x, m !! li_occurrence_id i = Some x ∧ ii_instance x = i ∧
    ∀ k a, ii_members x !! k = Some a ↔ a ∈ li_members i ∧ lm_item_id a = k.
Proof.
  intros [_ Hv Hl] Hi. destruct (Hv i Hi) as [_ _ Hmem Hdis Htree].
  destruct (index_by_total (check_member i) (λ _, Ok tt)
    (λ member, DuplicateMember (li_occurrence_id i) (lm_item_id member)) (li_members i)) as [mm Hmm];
    [exact Hdis|intros a Ha; split; [by apply Hmem|done]|].
  apply index_by_Ok in Hmm. exists {| ii_instance := i; ii_members := mm |}. split_and!; [|done|].
  - apply Hl. simpl. split_and!; [done..|]. by apply index_members_Ok.
  - intros k a. apply (ix_lookup _ _ _ _ Hmm).
Qed.

Lemma indexed_member_ids l m occ x k a :
  indexed_instances l m → m !! occ = Some x → ii_members x !! k = Some a → lm_item_id a = k.
Proof.
  intros [_ _ Hl] (_ & _ & Hx)%Hl Ha. apply index_members_Ok in Hx as [Hix _].
  by apply (ix_lookup _ _ _ _ Hix) in Ha as [_ ?].
Qed.

Lemma project_no_statuses request : project_statuses ∅ request = request.
Proof.
  unfold project_statuses, with_items. destruct request as [? ? ? its]; simpl. f_equal.
  rewrite <- (map_id its) at 2. apply map_ext. intros a. by rewrite lookup_empty.
Qed.

(** The overlay changes statuses only.  A clone whose status it sets is a
    member of an admitted instance and gets the status the evidence and the
    template determine; every admitted member the request contains has such a
    clone; all other items, the occurrences and the identities are unchanged. *)
Theorem overlay_sets_member_statuses source execution context materialized materialized' :
  apply_occurrence_lifecycle source execution context materialized = Ok materialized' →
  ∃ indexed statuses, index_context context = Ok indexed ∧
    materialized' = {| mp_request := project_statuses statuses (mp_request materialized);
                       mp_occurrences := mp_occurrences materialized;
                       mp_identities := mp_identities materialized |} ∧
    (∀ clone status, statuses !! clone = Some status →
      overlay_target (collect_by_id (items source)) (mp_identities materialized) indexed clone = Some status) ∧
    (∀ instance member source_item, instance ∈ lc_instances context → member ∈ li_members instance →
      collect_by_id (items source) !! lm_item_id member = Some source_item →
      ∃ clone, mp_identities materialized !! clone = Some
          {| mi_series_item_id := lm_item_id member; mi_occurrence_id := li_occurrence_id instance |} ∧
        statuses !! clone = Some (overlay_status source_item member)).
Proof.
  unfold apply_occurrence_lifecycle. intros (indexed & Hidx & H)%rbind_ok.
  pose proof (index_context_Ok _ _ Hidx) as Hii. exists indexed. case_bool_decide as Hempty.
  - simplify_eq. exists ∅. rewrite project_no_statuses. split_and!; [done|by destruct materialized'|..].
    + intros c s. by rewrite lookup_empty.
    + intros i member item Hi. destruct (indexed_instance _ _ _ Hii Hi) as (x & Hx & _).
      by rewrite lookup_empty in Hx.
  - apply rbind_ok in H as (statuses & Hs & H). simplify_eq. exists statuses.
    enough (statuses_sound (collect_by_id (items source)) (mp_identities materialized) indexed statuses ∧
      ∀ occ x, (occ, x) ∈ entries indexed → ∀ k m, ii_members x !! k = Some m →
        member_covered (collect_by_id (items source)) (mp_identities materialized) occ m statuses) as [H1 H2].
    { split_and!; [done..|]. intros i member item Hi Hm Hitem.
      destruct (indexed_instance _ _ _ Hii Hi) as (x & Hx & <- & Hmem).
      destruct (H2 (li_occurrence_id (ii_instance x)) x ltac:(by apply elem_of_entries) (lm_item_id member) member)
        as (clone & Hclone & [s Hst]); [by apply Hmem|by rewrite Hitem|].
      exists clone. split; [done|]. rewrite Hst. f_equal. apply H1 in Hst. unfold overlay_target in Hst.
      rewrite Hclone in Hst. simpl in Hst. rewrite Hx in Hst. simpl in Hst.
      rewrite (proj2 (Hmem (lm_item_id member) member)) in Hst by done. simpl in Hst.
      rewrite Hitem in Hst. by simplify_eq/=. }
    revert Hs. unfold overlay_statuses.
    apply (foldM_inv _ (λ p s, statuses_sound (collect_by_id (items source)) (mp_identities materialized) indexed s ∧
      ∀ occ x, (occ, x) ∈ p → ∀ k m, ii_members x !! k = Some m →
        member_covered (collect_by_id (items source)) (mp_identities materialized) occ m s)).
    + split; [intros c s; by rewrite lookup_empty|]. intros occ x Hin. by apply elem_of_nil in Hin.
    + intros p [occ x] q s s' Hsplit [I1 I2] Hstep.
      assert (indexed !! occ = Some x) as Hx by (apply elem_of_entries; rewrite Hsplit; set_solver).
      destruct (overlay_instance_step _ _ _ _ _ _ _ _ _ Hx (λ k m, indexed_member_ids _ _ _ _ k m Hii Hx) I1 Hstep)
        as (J1 & J2 & J3).
      split; [done|]. intros occ' x' [Hin|Hin]%elem_of_app k m Hm.
      * eapply member_covered_mono; [exact J2|by eapply I2].
      * apply list_elem_of_singleton in Hin. simplify_eq. by eapply J3.
Qed.

(** ** Witness: one occurrence of a routine with one member below it *)

Definition sample_instance : OccurrenceLifecycleInstance :=
  {| li_root_item_id := 1; li_occurrence_id := 7; li_identity := CalendarDay 0 0;
     li_members :=
       [{| lm_item_id := 1; lm_parent_id := None; lm_source_revision := 1; lm_status := WorkStatus.NotStarted |};
        {| lm_item_id := 2; lm_parent_id := Some 1%N; lm_source_revision := 1; lm_status := WorkStatus.Completed |}] |}.

Definition sample_context : OccurrenceLifecycleContext :=
  {| lc_snapshot_revision := 1; lc_instances := [sample_instance] |}.

Definition sample_source : PlanRequest :=
  sample_request [sample_item 1 Project None 0; sample_item 2 Task (Some 1%N) 30].

Definition sample_materialized : MaterializedPlan :=
  {| mp_request := sample_request [sample_item 11 Project None 0; sample_item 12 Task (Some 11%N) 30];
     mp_occurrences :=
       [{| occ_id := 7; occ_series_item_id := 1; occ_identity := CalendarDay 0 0;
           occ_nominal_start := at_minute 0; occ_nominal_end := at_minute 1440;
           occ_window_start := at_minute 0; occ_window_end := at_minute 1440;
           occ_local_date := Some 0%Z; occ_ordinal := 0; occ_state := OccurrenceState.Generated |}];
     mp_identities := {[ 11%N := {| mi_series_item_id := 1; mi_occurrence_id := 7 |};
                         12%N := {| mi_series_item_id := 2; mi_occurrence_id := 7 |} ]} |}.

Lemma overlay_sets_member_statuses_witness :
  ∃ materialized', apply_occurrence_lifecycle sample_source default_execution sample_context
      sample_materialized = Ok materialized' ∧
    wi_status <$> items (mp_request materialized') = [WorkStatus.NotStarted; WorkStatus.Completed].
Proof.
  destruct (apply_occurrence_lifecycle sample_source default_execution sample_context sample_materialized)
    as [m|e] eqn:E; [|exfalso; vm_compute in E; discriminate E].
  exists m. split; [reflexivity|].
  destruct (overlay_sets_member_statuses _ _ _ _ _ E) as (indexed & statuses & Hidx & -> & _ & Hcov).
  simpl in *.
  destruct (Hcov sample_instance
    {| lm_item_id := 1; lm_parent_id := None; lm_source_revision := 1; lm_status := WorkStatus.NotStarted |}
    (sample_item 1 Project None 0)) as (c1 & Hc1 & Hs1);
    [left|left|vm_compute; reflexivity|].
  destruct (Hcov sample_instance
    {| lm_item_id := 2; lm_parent_id := Some 1%N; lm_source_revision := 1; lm_status := WorkStatus.Completed |}
    (sample_item 2 Task (Some 1%N) 30)) as (c2 & Hc2 & Hs2);
    [left|right; left|vm_compute; reflexivity|].
  simpl in *.
  rewrite lookup_insert_Some in Hc1. rewrite lookup_insert_Some in Hc2.
  destruct Hc1 as [[<- Hc1]|[_ Hc1]]; [|apply lookup_singleton_Some in Hc1 as [_ Hc1]; discriminate Hc1].
  destruct Hc2 as [[_ Hc2]|[_ Hc2]]; [discriminate Hc2|apply lookup_singleton_Some in Hc2 as [<- _]].
  rewrite Hs1, Hs2. reflexivity.
Defined.
