(* ===== verification/Decimal.v ===== *)
(** * Decimal: exact progress quantities (crates/dayweave-core/src/progress_value.rs)

    [parse_progress_decimal] and [format_progress_decimal] translate between the
    wire spelling of a quantity and its signed count of millionths.  The
    theorems show that they are inverse to each other: formatting then parsing
    returns the value, parsing then formatting returns the very spelling, so a
    value has one accepted spelling and nothing outside the supported magnitude
    is ever produced. *)
From S2P Require Import Prelude Text.

Definition MAX_PROGRESS_COMPONENTS : N := 16.
Definition MAX_PROGRESS_NAME_SCALARS : nat := 80.
Definition MAX_PROGRESS_UNIT_SCALARS : nat := 32.
Definition MAX_PROGRESS_BASIS_POINTS : N := 10000.
Definition MAX_PROGRESS_SECONDS : N := 3155760000.
Definition MAX_PROGRESS_SCALED_QUANTITY : Z := 999999999999999999.
Definition QUANTITY_SCALE : Z := 1000000.

Inductive ProgressDecimalError : Type :=
| InvalidSyntax
| NonCanonical
| TooPrecise
| OutOfRange.

(** ['-'], ['.'] and ['0'] *)
Definition minus : N := 45.
Definition dot : N := 46.
Definition zero : N := 48.

(** [value.strip_prefix('-')] *)
Definition strip_minus (value : list N) : bool * list N :=
  match value with
  | b :: rest => if (b =? minus)%N then (true, rest) else (false, value)
  | [] => (false, value)
  end.

(** [digits.parse::<i64>()] of a non-empty digit string *)
Definition parse_i64 (digits : list N) : option Z :=
  if (Z.of_N (dec_value digits) <=? i64_max_z)%Z then Some (Z.of_N (dec_value digits)) else None.

(** [checked_mul] and [checked_add] on [i64] *)
Definition i64_checked (x : Z) : option Z :=
  if (i64_min_z <=? x)%Z && (x <=? i64_max_z)%Z then Some x else None.

Definition all_digits (l : list N) : bool := forallb is_ascii_digit l.

Definition starts_with_zero (l : list N) : bool :=
  match l with b :: _ => (b =? zero)%N | [] => false end.

Definition ends_with_zero (l : list N) : bool :=
  match last l with Some b => (b =? zero)%N | None => false end.

Definition parse_bytes (value : list N) : result ProgressDecimalError Z :=
  let '(negative, magnitude) := strip_minus value in
  let '(integer, fraction) :=
    match split_once dot magnitude with
    | Some (integer, fraction) => (integer, Some fraction)
    | None => (magnitude, None)
    end in
  if bool_decide (integer = []) || negb (all_digits integer) ||
     match fraction with
     | Some digits => bool_decide (digits = []) || negb (all_digits digits)
     | None => false
     end
  then Err InvalidSyntax
  else if (1 <? length integer) && starts_with_zero integer then Err NonCanonical
  else if match fraction with Some digits => 6 <? length digits | None => false end
  then Err TooPrecise
  else if match fraction with Some digits => ends_with_zero digits | None => false end
  then Err NonCanonical
  else if 12 <? length integer then Err OutOfRange
  else
    let? whole := ok_or (parse_i64 integer) OutOfRange in
    let? fractional :=
      match fraction with
      | Some digits =>
          let? amount := ok_or (parse_i64 digits) InvalidSyntax in
          Ok (amount * 10 ^ (6 - Z.of_nat (length digits)))%Z
      | None => Ok 0%Z
      end in
    let? scaled :=
      ok_or (scaled ← i64_checked (whole * QUANTITY_SCALE);
             scaled ← i64_checked (scaled + fractional);
             if (scaled <=? MAX_PROGRESS_SCALED_QUANTITY)%Z then Some scaled else None)
            OutOfRange in
    if negative && (scaled =? 0)%Z then Err NonCanonical
    else Ok (if negative then (- scaled)%Z else scaled).

Definition parse_progress_decimal (value : string) : result ProgressDecimalError Z :=
  parse_bytes (bytes_of value).

(** [i64::checked_abs] *)
Definition checked_abs (x : Z) : option Z := if (x =? i64_min_z)%Z then None else Some (Z.abs x).

Definition format_bytes (scaled_millionths : Z) : option (list N) :=
  magnitude ← checked_abs scaled_millionths;
  if (MAX_PROGRESS_SCALED_QUANTITY <? magnitude)%Z then None
  else
    let integer := (magnitude / QUANTITY_SCALE)%Z in
    let fraction := (magnitude mod QUANTITY_SCALE)%Z in
    let value :=
      if (fraction =? 0)%Z then dec_print (Z.to_N integer)
      else dec_print (Z.to_N integer) ++ dot ::
           trim_end_zeros (pad_zeros 6 (dec_print (Z.to_N fraction))) in
    Some (if (scaled_millionths <? 0)%Z then minus :: value else value).

Definition format_progress_decimal (scaled_millionths : Z) : option string :=
  string_of_bytes <$> format_bytes scaled_millionths.

(** [char::is_control]-style ranges of [is_valid_progress_label] *)
Definition is_control_range (c : N) : bool := ((c <=? 31) || (127 <=? c) && (c <=? 159))%N.

Definition is_valid_progress_label (value : string) (max_scalars : nat) : bool :=
  let cs := chars value in
  negb (bool_decide (value = EmptyString)) &&
  bool_decide (trim cs = cs) &&
  (length cs <=? max_scalars) &&
  negb (existsb is_control_range cs).

(** ** Lemmas *)

Lemma all_digits_spec l : all_digits l = true ↔ digits l.
Proof. unfold all_digits. rewrite forallb_forall, Forall_forall. setoid_rewrite list_elem_of_In. done. Qed.

Lemma ends_with_zero_false l : ends_with_zero l = false ↔ last l ≠ Some 48%N.
Proof.
  unfold ends_with_zero, zero. destruct (last l) as [b|]; [|done].
  rewrite N.eqb_neq. split; [by intros H [= ->]|congruence].
Qed.

Lemma starts_with_zero_false l : starts_with_zero l = false ↔ head l ≠ Some 48%N.
Proof.
  unfold starts_with_zero, zero. destruct l as [|b]; [done|]. rewrite N.eqb_neq.
  split; [by intros H [= ->]|intros H ->; done].
Qed.

Lemma i64_checked_Some x y : i64_checked x = Some y ↔ y = x ∧ (i64_min_z <= x <= i64_max_z)%Z.
Proof.
  unfold i64_checked. destruct (_ && _) eqn:E.
  - bool_to_prop. naive_solver.
  - split; [done|]. intros [-> []]. apply andb_false_iff in E as [E|E]; bool_to_prop; lia.
Qed.

Lemma i64_checked_in x : (i64_min_z <= x <= i64_max_z)%Z → i64_checked x = Some x.
Proof. intros Hx. by apply i64_checked_Some. Qed.

(** What an accepted magnitude looks like. *)
Record accepted (integer : list N) (fraction : option (list N)) (whole fractional : Z) : Prop := {
  acc_integer : canonical_digits integer;
  acc_length : length integer ≤ 12;
  acc_whole : whole = Z.of_N (dec_value integer);
  acc_fraction : match fraction with
    | Some ds => digits ds ∧ 0 < length ds ≤ 6 ∧ last ds ≠ Some 48%N ∧
        fractional = (Z.of_N (dec_value ds) * 10 ^ (6 - Z.of_nat (length ds)))%Z
    | None => fractional = 0%Z
    end
}.

Definition spelled (integer : list N) (fraction : option (list N)) : list N :=
  match fraction with Some ds => integer ++ dot :: ds | None => integer end.

(** A magnitude below [10^18] is accepted with its value, and only such. *)
Lemma accepted_bounds integer fraction whole fractional :
  accepted integer fraction whole fractional →
  (0 <= whole < 10 ^ 12)%Z ∧ (0 <= fractional < QUANTITY_SCALE)%Z.
Proof.
  intros [[Hd _] Hlen -> Hf]. split.
  - pose proof (dec_value_bound _ Hd) as Hb.
    assert (10 ^ N.of_nat (length integer) <= 10 ^ 12)%N by (apply N.pow_le_mono_r; lia). lia.
  - destruct fraction as [ds|]; [|by subst].
    destruct Hf as (Hds & Hl & _ & ->). pose proof (dec_value_bound _ Hds) as Hb.
    unfold QUANTITY_SCALE.
    assert (10 ^ 6 = 10 ^ Z.of_nat (length ds) * 10 ^ (6 - Z.of_nat (length ds)))%Z as E
      by (rewrite <- Z.pow_add_r by lia; f_equal; lia).
    assert (0 < 10 ^ (6 - Z.of_nat (length ds)))%Z by (apply Z.pow_pos_nonneg; lia).
    assert (Z.of_N (dec_value ds) < 10 ^ Z.of_nat (length ds))%Z by (rewrite <- nat_N_Z; lia).
    change 1000000%Z with (10 ^ 6)%Z. rewrite E. nia.
Qed.

(** The magnitude part of [format_bytes]. *)
Definition print_magnitude (magnitude : Z) : list N :=
  let integer := (magnitude / QUANTITY_SCALE)%Z in
  let fraction := (magnitude mod QUANTITY_SCALE)%Z in
  if (fraction =? 0)%Z then dec_print (Z.to_N integer)
  else dec_print (Z.to_N integer) ++ dot ::
       trim_end_zeros (pad_zeros 6 (dec_print (Z.to_N fraction))).

(** Printing an accepted magnitude gives back its spelling. *)
Lemma print_accepted integer fraction whole fractional :
  accepted integer fraction whole fractional →
  print_magnitude (whole * QUANTITY_SCALE + fractional) = spelled integer fraction.
Proof.
  intros Hacc. pose proof (accepted_bounds _ _ _ _ Hacc) as [Hw Hfr].
  destruct Hacc as [Hi Hlen Ew Hf]. unfold print_magnitude.
  rewrite Z.div_add_l, (Z.div_small fractional), Z.add_0_r by (unfold QUANTITY_SCALE in *; lia).
  rewrite (Z.add_comm (whole * _)), Z.mod_add, Z.mod_small by (unfold QUANTITY_SCALE in *; lia).
  assert (dec_print (Z.to_N whole) = integer) as ->.
  { rewrite Ew, N2Z.id. by apply dec_print_of_canonical. }
  destruct fraction as [ds|]; [|by subst; rewrite Z.eqb_refl].
  destruct Hf as (Hds & Hl & Hlast & Efr).
  assert (Z.of_N (dec_value ds) ≠ 0)%Z as Hnz.
  { intros Hz. assert (ds = replicate (length ds) 48%N) as Hzs.
    { apply dec_value_inj; [done|apply digits_zeros|by rewrite length_replicate|].
      rewrite dec_value_zeros. lia. }
    apply Hlast. rewrite Hzs. destruct (length ds) as [|n]; [lia|].
    rewrite replicate_S_end, last_snoc. done. }
  assert (0 < 10 ^ (6 - Z.of_nat (length ds)))%Z by (apply Z.pow_pos_nonneg; lia).
  destruct (Z.eqb_spec fractional 0) as [E0|_]; [rewrite Efr in E0; nia|].
  simpl. do 2 f_equal.
  assert (pad_zeros 6 (dec_print (Z.to_N fractional)) = ds ++ replicate (6 - length ds) 48%N) as ->.
  { assert (length (dec_print (Z.to_N fractional)) ≤ 6).
    { apply canonical_length; [apply dec_print_canonical| |lia].
      rewrite dec_print_value. unfold QUANTITY_SCALE in Hfr. change (10 ^ N.of_nat 6)%N with 1000000%N. lia. }
    apply dec_value_inj.
    - apply digits_pad, dec_print_canonical.
    - apply Forall_app. split; [done|apply digits_zeros].
    - rewrite pad_zeros_length, length_app, length_replicate by done. lia.
    - rewrite pad_zeros_value, dec_print_value, dec_value_app, dec_value_zeros, length_replicate, Efr.
      rewrite Z2N.inj_mul, N2Z.id by lia. rewrite N.add_0_r. f_equal.
      rewrite Z2N.inj_pow by lia. f_equal. lia. }
  by apply trim_end_zeros_app.
Qed.

(** Printing any supported magnitude gives an accepted spelling of it. *)
Lemma print_magnitude_accepted m :
  (0 <= m <= MAX_PROGRESS_SCALED_QUANTITY)%Z →
  ∃ integer fraction whole fractional, print_magnitude m = spelled integer fraction ∧
    accepted integer fraction whole fractional ∧ (whole * QUANTITY_SCALE + fractional = m)%Z.
Proof.
  intros Hm. unfold print_magnitude.
  pose proof (Z.div_mod m QUANTITY_SCALE ltac:(done)) as Hdm.
  pose proof (Z.mod_pos_bound m QUANTITY_SCALE ltac:(done)) as Hmod.
  set (w := (m / QUANTITY_SCALE)%Z) in *. set (f := (m mod QUANTITY_SCALE)%Z) in *.
  unfold MAX_PROGRESS_SCALED_QUANTITY in Hm.
  assert (0 <= w < 10 ^ 12)%Z as Hw by (unfold QUANTITY_SCALE in *; nia).
  assert (canonical_digits (dec_print (Z.to_N w)) ∧ length (dec_print (Z.to_N w)) ≤ 12 ∧
    w = Z.of_N (dec_value (dec_print (Z.to_N w)))) as (Hc & Hlen & Hval).
  { split_and!; [apply dec_print_canonical| |rewrite dec_print_value; lia].
    apply canonical_length; [apply dec_print_canonical|rewrite dec_print_value; change (10 ^ N.of_nat 12)%N with 1000000000000%N; lia|lia]. }
  destruct (Z.eqb_spec f 0) as [Hf|Hf].
  { exists (dec_print (Z.to_N w)), None, w, 0%Z. split_and!; [done|by split|lia]. }
  set (p := pad_zeros 6 (dec_print (Z.to_N f))).
  assert (length (dec_print (Z.to_N f)) ≤ 6) as Hl6.
  { apply canonical_length; [apply dec_print_canonical| |lia]. rewrite dec_print_value.
    unfold QUANTITY_SCALE in Hmod. change (10 ^ N.of_nat 6)%N with 1000000%N. lia. }
  assert (digits p ∧ length p = 6 ∧ dec_value p = Z.to_N f) as (Hp & Hpl & Hpv).
  { split_and!; [apply digits_pad, dec_print_canonical|by apply pad_zeros_length|].
    unfold p. by rewrite pad_zeros_value, dec_print_value. }
  destruct (trim_end_zeros_split p) as (n & Hsplit & Hlast).
  rewrite Hsplit in Hp. apply Forall_app in Hp as [Hd _].
  rewrite Hsplit, length_app, length_replicate in Hpl.
  rewrite Hsplit, dec_value_app, dec_value_zeros, length_replicate in Hpv.
  set (t := trim_end_zeros p) in *.
  assert (length t ≠ 0).
  { intros ->%nil_length_inv. change (dec_value []) with 0%N in Hpv. lia. }
  exists (dec_print (Z.to_N w)), (Some t), w, f. split_and!; [done| |lia].
  split; [done..|]. split_and!; [done|lia|lia|done|].
  replace (6 - Z.of_nat (length t))%Z with (Z.of_N (N.of_nat n)) by lia.
  change 10%Z with (Z.of_N 10). rewrite <- N2Z.inj_pow, <- N2Z.inj_mul. lia.
Qed.

Lemma strip_minus_digits l : canonical_digits l → ∀ r, strip_minus (l ++ r) = (false, l ++ r).
Proof.
  intros (Hd & Hn & _) r. destruct l as [|b l]; [done|]. simpl.
  apply Forall_cons in Hd as [Hb%is_ascii_digit_spec _]. unfold minus.
  destruct (N.eqb_spec b 45); [lia|done].
Qed.

Lemma strip_spelled integer fraction whole fractional :
  accepted integer fraction whole fractional →
  strip_minus (spelled integer fraction) = (false, spelled integer fraction) ∧
  match split_once dot (spelled integer fraction) with
  | Some (i, f) => (i, Some f) | None => (spelled integer fraction, None)
  end = (integer, fraction).
Proof.
  intros [Hi _ _ Hf]. split.
  - destruct fraction; simpl; [by apply strip_minus_digits|].
    rewrite <- (app_nil_r integer). by apply strip_minus_digits.
  - assert (dot ∉ integer) by (eapply digits_no_byte; [apply Hi|by intros []]).
    destruct fraction; simpl; [by rewrite split_once_app|by rewrite split_once_None].
Qed.

(** Every check of the parser passes on an accepted magnitude. *)
Lemma parse_accepted negative integer fraction whole fractional :
  accepted integer fraction whole fractional →
  let m := (whole * QUANTITY_SCALE + fractional)%Z in
  parse_bytes (if negative : bool then minus :: spelled integer fraction else spelled integer fraction) =
    if negative && (m =? 0)%Z then Err NonCanonical else Ok (if negative then (- m)%Z else m).
Proof.
  intros Hacc m. pose proof (accepted_bounds _ _ _ _ Hacc) as [Hw Hfr].
  destruct (strip_spelled _ _ _ _ Hacc) as [Es1 Es2].
  assert (strip_minus (if negative then minus :: spelled integer fraction else spelled integer fraction)
    = (negative, spelled integer fraction)) as Es by (by destruct negative).
  unfold parse_bytes. rewrite Es, Es2. destruct Hacc as [(Hd & Hn & Hh) Hlen Ew Hf].
  rewrite bool_decide_eq_false_2, (proj2 (all_digits_spec _) Hd) by done. simpl.
  assert ((1 <? length integer) && starts_with_zero integer = false) as Hz.
  { destruct (Nat.ltb_spec 1 (length integer)); [|done]. simpl. by apply starts_with_zero_false, Hh. }
  assert ((12 <? length integer) = false) as H12 by (apply Nat.ltb_ge; lia).
  assert (parse_i64 integer = Some whole) as Hpi.
  { unfold parse_i64. rewrite <- Ew. destruct (Z.leb_spec whole i64_max_z); [done|]. unfold i64_max_z in *. lia. }
  assert (∀ fr, fr = fractional →
    ok_or (scaled ← i64_checked (whole * QUANTITY_SCALE); scaled ← i64_checked (scaled + fr);
           if (scaled <=? MAX_PROGRESS_SCALED_QUANTITY)%Z then Some scaled else None) OutOfRange
    = Ok (E := ProgressDecimalError) m) as Hsc.
  { intros fr ->. unfold QUANTITY_SCALE in *.
    rewrite i64_checked_in by (unfold i64_min_z, i64_max_z; lia). simpl.
    rewrite i64_checked_in by (unfold i64_min_z, i64_max_z; lia). simpl.
    unfold m, MAX_PROGRESS_SCALED_QUANTITY. by rewrite (proj2 (Z.leb_le _ _)) by lia. }
  destruct fraction as [ds|].
  - destruct Hf as (Hds & Hl & Hlast & Efr).
    rewrite bool_decide_eq_false_2, (proj2 (all_digits_spec _) Hds) by (by intros ->; simpl in Hl; lia). simpl.
    rewrite Hz, (proj2 (Nat.ltb_ge 6 _)), (proj2 (ends_with_zero_false _) Hlast), H12, Hpi by lia. simpl.
    assert (parse_i64 ds = Some (Z.of_N (dec_value ds))) as ->.
    { unfold parse_i64. rewrite (proj2 (Z.leb_le _ _)); [done|]. pose proof (dec_value_bound _ Hds).
      assert (10 ^ N.of_nat (length ds) <= 10 ^ 6)%N by (apply N.pow_le_mono_r; lia). unfold i64_max_z. lia. }
    simpl. rewrite Hsc by done. done.
  - simpl. rewrite Hz, H12, Hpi. simpl. by rewrite Hsc.
Qed.

(** Whatever the parser accepts is an accepted spelling of its result. *)
Lemma parse_Ok value z :
  parse_bytes value = Ok z →
  ∃ (negative : bool) integer fraction whole fractional,
    value = (if negative then minus :: spelled integer fraction else spelled integer fraction) ∧
    accepted integer fraction whole fractional ∧
    (whole * QUANTITY_SCALE + fractional <= MAX_PROGRESS_SCALED_QUANTITY)%Z ∧
    (negative = true → whole * QUANTITY_SCALE + fractional ≠ 0)%Z ∧
    z = (if negative then - (whole * QUANTITY_SCALE + fractional)
         else whole * QUANTITY_SCALE + fractional)%Z.
Proof.
  unfold parse_bytes. intros Hp. destruct (strip_minus value) as [negative magnitude] eqn:Es.
  assert (value = if negative then minus :: magnitude else magnitude) as Hvalue.
  { unfold strip_minus in Es. destruct value as [|b r]; [by simplify_eq|].
    destruct (N.eqb_spec b minus); by simplify_eq. }
  destruct (match split_once dot magnitude with Some (i, f) => (i, Some f) | None => (magnitude, None) end)
    as [integer fraction] eqn:Esp.
  assert (magnitude = spelled integer fraction) as Hmag.
  { destruct (split_once dot magnitude) as [[i f]|] eqn:E; simplify_eq; [|done].
    by apply split_once_Some in E as [-> _]. }
  destruct (_ || _) eqn:E1 in Hp; [done|]. apply orb_false_iff in E1 as [E1 Ef].
  apply orb_false_iff in E1 as [Ene Edi]. apply negb_false_iff, all_digits_spec in Edi.
  apply bool_decide_eq_false in Ene.
  destruct (_ && _) eqn:E2 in Hp; [done|].
  destruct (match fraction with Some ds => 6 <? length ds | None => false end) eqn:E3; [done|].
  destruct (match fraction with Some ds => ends_with_zero ds | None => false end) eqn:E4; [done|].
  destruct (12 <? length integer) eqn:E5; [done|]. apply Nat.ltb_ge in E5.
  apply rbind_ok in Hp as (whole & Hw & Hp). apply rbind_ok in Hp as (fractional & Hf & Hp).
  apply rbind_ok in Hp as (scaled & Hs & Hp).
  exists negative, integer, fraction, whole, fractional.
  assert (accepted integer fraction whole fractional) as Hacc.
  { split; [|done|..].
    - split_and!; [done..|]. intros Hl. apply starts_with_zero_false. destruct (Nat.ltb_spec 1 (length integer)); [done|lia].
    - unfold parse_i64 in Hw. by destruct (_ <=? _)%Z; simplify_eq/=.
    - destruct fraction as [ds|]; [|by simplify_eq].
      apply orb_false_iff in Ef as [Ef1 Ef2]. apply bool_decide_eq_false in Ef1.
      apply negb_false_iff, all_digits_spec in Ef2. apply Nat.ltb_ge in E3. apply ends_with_zero_false in E4.
      assert (length ds ≠ 0) by (by intros ?%nil_length_inv).
      apply rbind_ok in Hf as (amount & Ha & Hf). unfold parse_i64 in Ha.
      destruct (_ <=? _)%Z in Ha; simplify_eq/=. split_and!; [done|lia|lia|done..]. }
  assert (scaled = whole * QUANTITY_SCALE + fractional ∧ scaled <= MAX_PROGRESS_SCALED_QUANTITY)%Z as [-> Hmax].
  { destruct (i64_checked (whole * QUANTITY_SCALE)) as [a|] eqn:Ea; [|done]. simpl in Hs.
    destruct (i64_checked (a + fractional)) as [b|] eqn:Eb; [|done]. simpl in Hs.
    destruct (Z.leb_spec b MAX_PROGRESS_SCALED_QUANTITY); simplify_eq/=.
    apply i64_checked_Some in Ea as [-> _]. apply i64_checked_Some in Eb as [-> _]. done. }
  split_and!; [by rewrite Hvalue, Hmag|done|done|..].
  - intros ->. simpl in Hp. by destruct (Z.eqb_spec (whole * QUANTITY_SCALE + fractional) 0).
  - destruct (negative && _); by simplify_eq.
Qed.

Lemma format_bytes_eq z :
  (Z.abs z <= MAX_PROGRESS_SCALED_QUANTITY)%Z →
  format_bytes z = Some (if (z <? 0)%Z then minus :: print_magnitude (Z.abs z) else print_magnitude (Z.abs z)).
Proof.
  intros Hz. unfold format_bytes, checked_abs.
  destruct (Z.eqb_spec z i64_min_z) as [->|_]; [unfold MAX_PROGRESS_SCALED_QUANTITY, i64_min_z in *; lia|].
  simpl. destruct (Z.ltb_spec MAX_PROGRESS_SCALED_QUANTITY (Z.abs z)); [lia|]. done.
Qed.

Lemma spelled_bytes negative integer fraction whole fractional :
  accepted integer fraction whole fractional →
  Forall (λ b, b < 256)%N (if negative : bool then minus :: spelled integer fraction else spelled integer fraction).
Proof.
  intros [(Hd & _) _ _ Hf].
  assert (Forall (λ b, b < 256)%N (spelled integer fraction)).
  { destruct fraction as [ds|]; simpl; [|by apply digits_bytes].
    destruct Hf as [Hds _]. apply Forall_app; split; [by apply digits_bytes|].
    constructor; [done|by apply digits_bytes]. }
  destruct negative; [by constructor|done].
Qed.

(** ** Properties *)

(** Every supported quantity, a signed count of millionths of magnitude at
    most 999999999999.999999, is formatted, and parsing the text gives the
    quantity back. *)
Theorem format_parse_roundtrip (scaled : Z)
    (Hbound : (Z.abs scaled <= MAX_PROGRESS_SCALED_QUANTITY)%Z) :
  ∃ text, format_progress_decimal scaled = Some text ∧ parse_progress_decimal text = Ok scaled.
Proof.
  destruct (print_magnitude_accepted (Z.abs scaled)) as (i & f & w & fr & Hp & Hacc & Heq); [lia|].
  unfold format_progress_decimal, parse_progress_decimal. rewrite format_bytes_eq, Hp by done.
  simpl. eexists. split; [done|]. rewrite bytes_of_string_of by (by eapply spelled_bytes).
  rewrite (parse_accepted _ _ _ _ _ Hacc), Heq.
  destruct (Z.ltb_spec scaled 0); simpl.
  - destruct (Z.eqb_spec (Z.abs scaled) 0); [lia|]. f_equal. lia.
  - f_equal. lia.
Qed.

Lemma format_parse_roundtrip_witness :
  ∃ text, format_progress_decimal (-3500000) = Some text ∧ parse_progress_decimal text = Ok (-3500000)%Z.
Proof. apply (format_parse_roundtrip (-3500000)). unfold MAX_PROGRESS_SCALED_QUANTITY. lia. Defined.

(** A text the parser accepts is the text the formatter prints for its
    value: the accepted spelling of a quantity is unique, and no accepted value
    lies outside the supported magnitude. *)
Theorem parse_format_canonical (text : string) (scaled : Z)
    (Hparse : parse_progress_decimal text = Ok scaled) :
  format_progress_decimal scaled = Some text ∧ (Z.abs scaled <= MAX_PROGRESS_SCALED_QUANTITY)%Z.
Proof.
  unfold parse_progress_decimal in Hparse.
  destruct (parse_Ok _ _ Hparse) as (neg & i & f & w & fr & Hv & Hacc & Hmax & Hneg & Hz).
  pose proof (accepted_bounds _ _ _ _ Hacc) as [Hw Hfr].
  assert (0 <= w * QUANTITY_SCALE + fr)%Z as Hnn by (unfold QUANTITY_SCALE in *; lia).
  assert (Z.abs scaled = w * QUANTITY_SCALE + fr)%Z as Habs by (destruct neg; lia).
  split; [|lia]. unfold format_progress_decimal.
  rewrite format_bytes_eq, Habs, (print_accepted _ _ _ _ Hacc) by lia. simpl. f_equal.
  rewrite <- (string_of_bytes_of text), Hv. f_equal.
  destruct neg; destruct (Z.ltb_spec scaled 0); try done; [|lia].
  specialize (Hneg eq_refl). lia.
Qed.

Lemma parse_format_canonical_witness :
  parse_progress_decimal "-0.000001" = Ok (-1)%Z ∧ format_progress_decimal (-1) = Some "-0.000001"%string.
Proof.
  split; [vm_compute; reflexivity|].
  apply (parse_format_canonical "-0.000001" (-1)). vm_compute. reflexivity.
Defined.

Example invalid_syntax_examples :
  map parse_progress_decimal [""; "-"; "+1"; "1e2"; " 1"; "1.2.3"; ".1"; "1."; "NaN"]%string
  = replicate 9 (Err InvalidSyntax).
Proof. vm_compute. reflexivity. Qed.

Example non_canonical_examples :
  map parse_progress_decimal ["01"; "-01"; "-0"; "0.0"; "1.20"; "-0.000000"]%string
  = replicate 6 (Err NonCanonical).
Proof. vm_compute. reflexivity. Qed.

Example bound_examples :
  parse_progress_decimal "0.0000001" = Err TooPrecise ∧
  parse_progress_decimal "1000000000000" = Err OutOfRange ∧
  parse_progress_decimal "-999999999999.999999" = Ok (- MAX_PROGRESS_SCALED_QUANTITY)%Z ∧
  format_progress_decimal i64_min_z = None ∧
  format_progress_decimal (MAX_PROGRESS_SCALED_QUANTITY + 1) = None.
Proof. vm_compute. repeat split. Qed.

Example label_examples :
  is_valid_progress_label "Read chapters" 80 = true ∧ is_valid_progress_label " name" 80 = false ∧
  is_valid_progress_label "é" 1 = true.
Proof. vm_compute. repeat split. Qed.
