(* ===== verification/HabitRecord.v ===== *)
(** * HabitRecord: the recorded outcome of one habit occurrence

    The first part of crates/dayweave-core/src/habits.rs: the value of an
    occurrence at one revision, its validation, the legacy spellings of values,
    and [apply_habit_occurrence_command], which records and corrects it.

    The theorems: exactly which commands are accepted and what they do, the
    invariant of reachable records, that ordinary recording never loses
    evidence, never reopens and ends after finitely many commands, and what
    legacy values mean. *)
From S2P Require Import Prelude Text Platform Domain Decimal Samples.

Definition MAX_HABIT_OCCURRENCE_NOTE_CHARS : nat := Z.to_nat 10000.
Definition MAX_HABIT_QUANTITY_UNIT_CHARS : nat := Z.to_nat 200.
Definition MAX_HABIT_QUANTITY : Z := 1000000000000.
Definition MAX_HABIT_ACTUAL_SECONDS : N := 366 * 24 * 60 * 60.

(** ** Data *)

Record HabitQuantityProgress : Type := { hq_amount : Z; hq_unit : string }.

Module HabitSkipReason.
Inductive HabitSkipReason : Type := User | MissedPolicy.
End HabitSkipReason.
Abbreviation HabitSkipReason := HabitSkipReason.HabitSkipReason.

Module HabitOutcome.
Inductive HabitOccurrenceOutcome : Type :=
| Pending
| Partial
| Completed
| Skipped (reason : HabitSkipReason).
End HabitOutcome.
Abbreviation HabitOccurrenceOutcome := HabitOutcome.HabitOccurrenceOutcome.

Record HabitOccurrenceValue : Type := {
  hv_outcome : HabitOccurrenceOutcome;
  hv_progress_basis_points : N;
  hv_quantity : option HabitQuantityProgress;
  hv_actual_seconds : option N;
  hv_note : option string;
  hv_occurred_at : option OffsetDateTime
}.

Record HabitOccurrenceRecord : Type := {
  hr_habit_id : ItemId;
  hr_occurrence_id : OccurrenceId;
  hr_local_date : Date;
  hr_revision : N;
  hr_value : HabitOccurrenceValue;
  hr_created_at : OffsetDateTime;
  hr_updated_at : OffsetDateTime
}.

Inductive HabitOccurrenceCommandKind : Type :=
| Record_ (value : HabitOccurrenceValue)
| Correct (value : HabitOccurrenceValue).

Record HabitOccurrenceCommand : Type := {
  hc_expected_revision : N;
  hc_recorded_at : OffsetDateTime;
  hc_kind : HabitOccurrenceCommandKind
}.

Inductive HabitOccurrenceTransitionKind : Type := Recorded | Progressed | Corrected | Reopened.

Record HabitOccurrenceTransition : Type := {
  ht_kind : HabitOccurrenceTransitionKind;
  ht_previous : HabitOccurrenceRecord;
  ht_current : HabitOccurrenceRecord
}.

Module HabitOccurrenceError.
Inductive HabitOccurrenceError : Type :=
| InvalidHabitId
| InvalidOccurrenceId
| InvalidRevision
| RevisionConflict (expected actual : N)
| RevisionOverflow
| TimestampRegression
| InvalidQuantity
| InvalidQuantityUnit
| InvalidActualSeconds
| InvalidNote
| PendingHasEvidence
| InvalidPartialProgress
| InvalidCompletedProgress
| InvalidSkippedProgress
| PendingHasOccurredTime
| RecordedOutcomeMissingOccurredTime
| OccurredTimeInFuture
| InvalidForwardTransition
| ProgressDidNotAdvance
| ProgressRegressed
| QuantityUnitChanged
| QuantityEvidenceChanged
| QuantityEvidenceRemoved
| ActualSecondsEvidenceRemoved
| ActualSecondsRegressed
| NoteEvidenceRemoved
| NoteEvidenceChanged
| CorrectionRequiresRecordedOutcome
| NoChange.
End HabitOccurrenceError.
Abbreviation HabitOccurrenceError := HabitOccurrenceError.HabitOccurrenceError.
Import HabitOccurrenceError HabitOutcome.

#[export] Instance HabitQuantityProgress_eq_dec : EqDecision HabitQuantityProgress.
Proof. solve_decision. Defined.
#[export] Instance HabitSkipReason_eq_dec : EqDecision HabitSkipReason.
Proof. solve_decision. Defined.
#[export] Instance HabitOccurrenceOutcome_eq_dec : EqDecision HabitOccurrenceOutcome.
Proof. solve_decision. Defined.
#[export] Instance HabitOccurrenceTransitionKind_eq_dec : EqDecision HabitOccurrenceTransitionKind.
Proof. solve_decision. Defined.

(** [PartialEq] of a value: instants are equal when they are the same moment,
    whatever the offset. *)
Definition same_instant (a b : option OffsetDateTime) : bool :=
  match a, b with
  | None, None => true
  | Some a, Some b => odt_eqb a b
  | _, _ => false
  end.

Definition value_eqb (a b : HabitOccurrenceValue) : bool :=
  bool_decide (hv_outcome a = hv_outcome b) &&
  (hv_progress_basis_points a =? hv_progress_basis_points b)%N &&
  bool_decide (hv_quantity a = hv_quantity b) &&
  bool_decide (hv_actual_seconds a = hv_actual_seconds b) &&
  bool_decide (hv_note a = hv_note b) &&
  same_instant (hv_occurred_at a) (hv_occurred_at b).

(** ** Values *)

Definition valid_text (value : string) (max_chars : nat) (require_trimmed : bool) : bool :=
  negb (bool_decide (trim (chars value) = [])) &&
  (length (chars value) <=? max_chars) &&
  (negb require_trimmed || bool_decide (trim (chars value) = chars value)) &&
  negb (existsb is_control_range (chars value)).

Definition is_valid_habit_quantity_unit (value : string) : bool := valid_text value MAX_HABIT_QUANTITY_UNIT_CHARS false.

Definition validate_quantity (q : HabitQuantityProgress) : result HabitOccurrenceError unit :=
  if (MAX_HABIT_QUANTITY <? Z.abs (hq_amount q))%Z then Err InvalidQuantity
  else if negb (is_valid_habit_quantity_unit (hq_unit q)) || negb (bool_decide (trim (chars (hq_unit q)) = chars (hq_unit q)))
  then Err InvalidQuantityUnit
  else Ok tt.

Definition validate_note (note : option string) : result HabitOccurrenceError unit :=
  match note with
  | Some note => if valid_text note MAX_HABIT_OCCURRENCE_NOTE_CHARS false then Ok tt else Err InvalidNote
  | None => Ok tt
  end.

Definition is_recorded (outcome : HabitOccurrenceOutcome) : bool :=
  match outcome with Pending => false | _ => true end.

Definition pending_value : HabitOccurrenceValue :=
  {| hv_outcome := Pending; hv_progress_basis_points := 0; hv_quantity := None; hv_actual_seconds := None;
     hv_note := None; hv_occurred_at := None |}.

Definition partial_value (progress : N) (quantity : option HabitQuantityProgress) (actual_seconds : option N)
    (note : option string) (occurred_at : OffsetDateTime) : HabitOccurrenceValue :=
  {| hv_outcome := Partial; hv_progress_basis_points := progress; hv_quantity := quantity;
     hv_actual_seconds := actual_seconds; hv_note := note; hv_occurred_at := Some occurred_at |}.

Definition completed_value (quantity : option HabitQuantityProgress) (actual_seconds : option N) (note : option string)
    (occurred_at : OffsetDateTime) : HabitOccurrenceValue :=
  {| hv_outcome := Completed; hv_progress_basis_points := HABIT_BASIS_POINTS_SCALE; hv_quantity := quantity;
     hv_actual_seconds := actual_seconds; hv_note := note; hv_occurred_at := Some occurred_at |}.

Definition skipped_value (reason : HabitSkipReason) (progress : N) (quantity : option HabitQuantityProgress)
    (actual_seconds : option N) (note : option string) (occurred_at : OffsetDateTime) : HabitOccurrenceValue :=
  {| hv_outcome := Skipped reason; hv_progress_basis_points := progress; hv_quantity := quantity;
     hv_actual_seconds := actual_seconds; hv_note := note; hv_occurred_at := Some occurred_at |}.

(** The first [match] of [HabitOccurrenceValue::validate]: the evidence an
    outcome allows. *)
Definition validate_evidence (v : HabitOccurrenceValue) : result HabitOccurrenceError unit :=
  match hv_outcome v with
  | Pending =>
      if negb (hv_progress_basis_points v =? 0)%N || bool_decide (is_Some (hv_quantity v)) ||
         bool_decide (is_Some (hv_actual_seconds v)) || bool_decide (is_Some (hv_note v))
      then Err PendingHasEvidence else Ok tt
  | Partial =>
      if (1 <=? hv_progress_basis_points v)%N && (hv_progress_basis_points v <? HABIT_BASIS_POINTS_SCALE)%N
      then Ok tt else Err InvalidPartialProgress
  | Completed =>
      if (hv_progress_basis_points v =? HABIT_BASIS_POINTS_SCALE)%N then Ok tt else Err InvalidCompletedProgress
  | Skipped _ =>
      if (HABIT_BASIS_POINTS_SCALE <=? hv_progress_basis_points v)%N then Err InvalidSkippedProgress else Ok tt
  end.

(** The second [match]: the time an outcome allows. *)
Definition validate_occurred (v : HabitOccurrenceValue) (recorded_at : OffsetDateTime) : result HabitOccurrenceError unit :=
  match hv_outcome v, hv_occurred_at v with
  | Pending, None => Ok tt
  | Pending, Some _ => Err PendingHasOccurredTime
  | _, Some occurred_at => if odt_leb occurred_at recorded_at then Ok tt else Err OccurredTimeInFuture
  | _, None => Err RecordedOutcomeMissingOccurredTime
  end.

(** [HabitOccurrenceValue::validate] *)
Definition validate_value (v : HabitOccurrenceValue) (recorded_at : OffsetDateTime) : result HabitOccurrenceError unit :=
  let? _ := match hv_quantity v with Some q => validate_quantity q | None => Ok tt end in
  let? _ :=
    match hv_actual_seconds v with
    | Some seconds => if (MAX_HABIT_ACTUAL_SECONDS <? seconds)%N then Err InvalidActualSeconds else Ok tt
    | None => Ok tt
    end in
  let? _ := validate_note (hv_note v) in
  let? _ := validate_evidence v in
  validate_occurred v recorded_at.

(** ** Records *)

(** [HabitOccurrenceRecord::new] *)
Definition new_record (habit_id : ItemId) (occurrence_id : OccurrenceId) (local_date : Date) (created_at : OffsetDateTime)
    : result HabitOccurrenceError HabitOccurrenceRecord :=
  if is_nil habit_id then Err InvalidHabitId
  else if is_nil occurrence_id then Err InvalidOccurrenceId
  else
    Ok {| hr_habit_id := habit_id; hr_occurrence_id := occurrence_id; hr_local_date := local_date; hr_revision := 1;
          hr_value := pending_value; hr_created_at := created_at; hr_updated_at := created_at |}.

(** [HabitOccurrenceRecord::validate] *)
Definition validate_record (r : HabitOccurrenceRecord) : result HabitOccurrenceError unit :=
  if is_nil (hr_habit_id r) then Err InvalidHabitId
  else if is_nil (hr_occurrence_id r) then Err InvalidOccurrenceId
  else if (hr_revision r =? 0)%N then Err InvalidRevision
  else if odt_ltb (hr_updated_at r) (hr_created_at r) then Err TimestampRegression
  else validate_value (hr_value r) (hr_updated_at r).

(** ** Commands *)

Definition quantity_preserved (current next : option HabitQuantityProgress) : result HabitOccurrenceError unit :=
  match current with
  | None => Ok tt
  | Some previous =>
      match next with
      | None => Err QuantityEvidenceRemoved
      | Some next =>
          if negb (bool_decide (hq_unit previous = hq_unit next)) then Err QuantityUnitChanged
          else if negb (hq_amount previous =? hq_amount next)%Z then Err QuantityEvidenceChanged
          else Ok tt
      end
  end.

Definition seconds_preserved (current next : option N) : result HabitOccurrenceError unit :=
  match current with
  | None => Ok tt
  | Some previous =>
      match next with
      | None => Err ActualSecondsEvidenceRemoved
      | Some next => if (next <? previous)%N then Err ActualSecondsRegressed else Ok tt
      end
  end.

Definition note_preserved (current next : option string) : result HabitOccurrenceError unit :=
  match current with
  | None => Ok tt
  | Some previous =>
      match next with
      | None => Err NoteEvidenceRemoved
      | Some next => if bool_decide (previous = next) then Ok tt else Err NoteEvidenceChanged
      end
  end.

Definition validate_evidence_preserved (current next : HabitOccurrenceValue) : result HabitOccurrenceError unit :=
  let? _ := quantity_preserved (hv_quantity current) (hv_quantity next) in
  let? _ := seconds_preserved (hv_actual_seconds current) (hv_actual_seconds next) in
  note_preserved (hv_note current) (hv_note next).

Definition validate_forward_record (current next : HabitOccurrenceValue) : result HabitOccurrenceError unit :=
  match hv_outcome current, hv_outcome next with
  | Pending, (Partial | Completed | Skipped _) => Ok tt
  | Partial, Partial =>
      if (hv_progress_basis_points next <=? hv_progress_basis_points current)%N then Err ProgressDidNotAdvance
      else validate_evidence_preserved current next
  | Partial, Completed => validate_evidence_preserved current next
  | Partial, Skipped _ =>
      if (hv_progress_basis_points next <? hv_progress_basis_points current)%N then Err ProgressRegressed
      else validate_evidence_preserved current next
  | _, _ => Err InvalidForwardTransition
  end.

(** The value and the kind of transition a command asks for. *)
Definition next_value (current : HabitOccurrenceRecord) (command : HabitOccurrenceCommand)
    : result HabitOccurrenceError (HabitOccurrenceValue * HabitOccurrenceTransitionKind) :=
  match hc_kind command with
  | Record_ value =>
      let? _ := validate_value value (hc_recorded_at command) in
      let? _ := validate_forward_record (hr_value current) value in
      Ok (value, match hv_outcome (hr_value current) with Pending => Recorded | _ => Progressed end)
  | Correct value =>
      if negb (is_recorded (hv_outcome (hr_value current))) then Err CorrectionRequiresRecordedOutcome
      else
        let? _ := validate_value value (hc_recorded_at command) in
        Ok (value, match hv_outcome value with Pending => Reopened | _ => Corrected end)
  end.

Definition with_value (r : HabitOccurrenceRecord) (revision : N) (value : HabitOccurrenceValue) (updated_at : OffsetDateTime)
    : HabitOccurrenceRecord :=
  {| hr_habit_id := hr_habit_id r; hr_occurrence_id := hr_occurrence_id r; hr_local_date := hr_local_date r;
     hr_revision := revision; hr_value := value; hr_created_at := hr_created_at r; hr_updated_at := updated_at |}.

Definition apply_habit_occurrence_command (current : HabitOccurrenceRecord) (command : HabitOccurrenceCommand)
    : result HabitOccurrenceError HabitOccurrenceTransition :=
  let? _ := validate_record current in
  if negb (hc_expected_revision command =? hr_revision current)%N
  then Err (RevisionConflict (hc_expected_revision command) (hr_revision current))
  else if odt_ltb (hc_recorded_at command) (hr_updated_at current) then Err TimestampRegression
  else
    let? (value, kind) := next_value current command in
    if value_eqb value (hr_value current) then Err NoChange
    else
      let? revision := ok_or (checked_add u64_max (hr_revision current) 1) RevisionOverflow in
      Ok {| ht_kind := kind; ht_previous := current; ht_current := with_value current revision value (hc_recorded_at command) |}.

(** ** Legacy spellings of values *)

Inductive HabitQuantityWire : Type :=
| CurrentQuantity (amount : Z) (unit_ : string)
| LegacyQuantity (completed_units target_units : N) (unit_ : string).

Record DecodedHabitQuantity : Type := { dq_value : HabitQuantityProgress; dq_legacy_target_units : option N }.

Definition positive_message : string := "legacy habit quantity requires positive completed and target units".
Definition range_message : string := "legacy habit quantity exceeds the signed range".

(** [HabitQuantityWire::decode] *)
Definition decode_quantity (w : HabitQuantityWire) : result string DecodedHabitQuantity :=
  match w with
  | CurrentQuantity amount unit_ => Ok {| dq_value := {| hq_amount := amount; hq_unit := unit_ |}; dq_legacy_target_units := None |}
  | LegacyQuantity completed target unit_ =>
      if (completed =? 0)%N || (target =? 0)%N || (i64_max <? target)%N then Err positive_message
      else if (i64_max <? completed)%N then Err range_message
      else Ok {| dq_value := {| hq_amount := Z.of_N completed; hq_unit := unit_ |}; dq_legacy_target_units := Some target |}
  end.

Inductive HabitOutcomeWire : Type :=
| PendingWire
| PartialWire (quantity : option HabitQuantityWire)
| CompletedWire (quantity : option HabitQuantityWire)
| SkippedWire (reason : HabitSkipReason).

(** [quantity.map(HabitQuantityWire::decode).transpose()] *)
Definition decode_optional (quantity : option HabitQuantityWire) : result string (option DecodedHabitQuantity) :=
  match quantity with
  | None => Ok None
  | Some w => let? d := decode_quantity w in Ok (Some d)
  end.

Definition legacy_share (quantity : option DecodedHabitQuantity) : option (Z * N) :=
  q ← quantity; target ← dq_legacy_target_units q; Some (hq_amount (dq_value q), target).

(** The progress a legacy partial quantity stands for. *)
Definition infer_partial (quantity : option DecodedHabitQuantity) : result string (option N) :=
  match legacy_share quantity with
  | None => Ok None
  | Some (amount, target) =>
      if (amount <? 0)%Z then Err "legacy partial quantity must be positive"%string
      else if (target <=? Z.to_N amount)%N then Err "legacy partial quantity must remain below its target"%string
      else
        let scaled := (saturating_mul u64_max (Z.to_N amount) HABIT_BASIS_POINTS_SCALE / target)%N in
        Ok (Some (N.min (N.max scaled 1) (HABIT_BASIS_POINTS_SCALE - 1)))
  end.

Definition check_completed (quantity : option DecodedHabitQuantity) : result string unit :=
  match legacy_share quantity with
  | None => Ok tt
  | Some (amount, target) =>
      if (amount <? 0)%Z then Err "legacy completed quantity must be positive"%string
      else if (Z.to_N amount <? target)%N then Err "legacy completed quantity must reach its target"%string
      else Ok tt
  end.

(** [HabitOutcomeWire::decode] *)
Definition decode_outcome (w : HabitOutcomeWire)
    : result string (HabitOccurrenceOutcome * option DecodedHabitQuantity * option N) :=
  match w with
  | PendingWire => Ok (Pending, None, Some 0%N)
  | PartialWire quantity =>
      let? quantity := decode_optional quantity in
      let? inferred := infer_partial quantity in
      Ok (Partial, quantity, inferred)
  | CompletedWire quantity =>
      let? quantity := decode_optional quantity in
      let? _ := check_completed quantity in
      Ok (Completed, quantity, Some HABIT_BASIS_POINTS_SCALE)
  | SkippedWire reason => Ok (Skipped reason, None, Some 0%N)
  end.

Record HabitOccurrenceValueWire : Type := {
  hw_outcome : HabitOutcomeWire;
  hw_progress_basis_points : option N;
  hw_quantity : option HabitQuantityWire;
  hw_actual_seconds : option N;
  hw_note : option string;
  hw_occurred_at : option OffsetDateTime
}.

(** [HabitOccurrenceValue::deserialize] after serde has read the fields *)
Definition decode_value (w : HabitOccurrenceValueWire) : result string HabitOccurrenceValue :=
  let? (outcome, embedded_quantity, inferred_progress) := decode_outcome (hw_outcome w) in
  if bool_decide (is_Some embedded_quantity) && bool_decide (is_Some (hw_quantity w))
  then Err "habit quantity cannot be present in both outcome and value"%string
  else
    let? own := decode_optional (hw_quantity w) in
    let quantity := dq_value <$> match own with Some _ => own | None => embedded_quantity end in
    let? progress := ok_or (match hw_progress_basis_points w with Some p => Some p | None => inferred_progress end)
                       "partial habit value requires explicit progress"%string in
    Ok {| hv_outcome := outcome; hv_progress_basis_points := progress; hv_quantity := quantity;
          hv_actual_seconds := hw_actual_seconds w; hv_note := hw_note w; hv_occurred_at := hw_occurred_at w |}.

(** What [Serialize] writes for a value. *)
Definition encode_value (v : HabitOccurrenceValue) : HabitOccurrenceValueWire :=
  {| hw_outcome :=
       match hv_outcome v with
       | Pending => PendingWire
       | Partial => PartialWire None
       | Completed => CompletedWire None
       | Skipped reason => SkippedWire reason
       end;
     hw_progress_basis_points := Some (hv_progress_basis_points v);
     hw_quantity := (λ q, CurrentQuantity (hq_amount q) (hq_unit q)) <$> hv_quantity v;
     hw_actual_seconds := hv_actual_seconds v; hw_note := hv_note v; hw_occurred_at := hv_occurred_at v |}.

(** ** What validation accepts *)

Definition valid_quantity (q : HabitQuantityProgress) : Prop :=
  (Z.abs (hq_amount q) <= MAX_HABIT_QUANTITY)%Z ∧ is_valid_habit_quantity_unit (hq_unit q) = true ∧
  trim (chars (hq_unit q)) = chars (hq_unit q).

(** The progress, the evidence and the time that belong to each outcome. *)
Definition outcome_shape (v : HabitOccurrenceValue) (recorded_at : OffsetDateTime) : Prop :=
  match hv_outcome v with
  | Pending => v = pending_value
  | Partial => (1 <= hv_progress_basis_points v < 10000)%N
  | Completed => hv_progress_basis_points v = 10000%N
  | Skipped _ => (hv_progress_basis_points v < 10000)%N
  end ∧
  (hv_outcome v ≠ Pending → ∃ t : OffsetDateTime, hv_occurred_at v = Some t ∧ (t <= recorded_at)%Z).

Record valid_value (v : HabitOccurrenceValue) (recorded_at : OffsetDateTime) : Prop := {
  vv_quantity q : hv_quantity v = Some q → valid_quantity q;
  vv_seconds s : hv_actual_seconds v = Some s → (s <= MAX_HABIT_ACTUAL_SECONDS)%N;
  vv_note n : hv_note v = Some n → valid_text n MAX_HABIT_OCCURRENCE_NOTE_CHARS false = true;
  vv_shape : outcome_shape v recorded_at
}.

Lemma validate_quantity_iff q : validate_quantity q = Ok tt ↔ valid_quantity q.
Proof.
  unfold validate_quantity, valid_quantity. destruct (Z.ltb_spec MAX_HABIT_QUANTITY (Z.abs (hq_amount q))).
  - split; [done|intros [? _]; lia].
  - destruct (is_valid_habit_quantity_unit _); simpl; [|naive_solver].
    case_bool_decide; simpl; naive_solver.
Qed.

Lemma validate_note_iff note :
  validate_note note = Ok tt ↔ ∀ n, note = Some n → valid_text n MAX_HABIT_OCCURRENCE_NOTE_CHARS false = true.
Proof.
  destruct note as [n|]; simpl; [|done]. destruct (valid_text n _ _) eqn:E.
  - split; [by intros _ ? [= <-]|done].
  - split; [done|intros Hn; specialize (Hn n eq_refl); congruence].
Qed.

Lemma validate_occurred_iff v recorded_at :
  is_recorded (hv_outcome v) = true →
  validate_occurred v recorded_at = Ok tt ↔ ∃ t : OffsetDateTime, hv_occurred_at v = Some t ∧ (t <= recorded_at)%Z.
Proof.
  intros Hr. unfold validate_occurred.
  assert (∀ t : OffsetDateTime, (if odt_leb t recorded_at then Ok tt else Err OccurredTimeInFuture) = Ok tt ↔ (t <= recorded_at)%Z) as Ht.
  { intros t. destruct (odt_leb t recorded_at) eqn:E; unfold odt_leb in E; bool_to_prop; split; try done; lia. }
  destruct (hv_outcome v); [done|..]; (destruct (hv_occurred_at v) as [t|]; [rewrite Ht; naive_solver|naive_solver]).
Qed.

Lemma validate_outcome_iff v recorded_at :
  (validate_evidence v = Ok tt ∧ validate_occurred v recorded_at = Ok tt) ↔ outcome_shape v recorded_at.
Proof.
  unfold outcome_shape. destruct (is_recorded (hv_outcome v)) eqn:Er.
  - rewrite validate_occurred_iff by done. unfold validate_evidence, HABIT_BASIS_POINTS_SCALE.
    destruct (hv_outcome v) eqn:Eo; [done|..].
    + destruct (N.leb_spec 1 (hv_progress_basis_points v)), (N.ltb_spec (hv_progress_basis_points v) 10000); simpl; naive_solver lia.
    + destruct (N.eqb_spec (hv_progress_basis_points v) 10000); naive_solver.
    + destruct (N.leb_spec 10000 (hv_progress_basis_points v)); naive_solver lia.
  - unfold validate_evidence, validate_occurred. destruct v as [[] p q s n o]; simpl in *; [|done..].
    destruct (N.eqb_spec p 0) as [->|]; simpl; [|split; [intros [? _]; done|intros [[=] _]; done]].
    destruct q, s, n, o; simpl; naive_solver.
Qed.

Lemma validate_value_iff v recorded_at : validate_value v recorded_at = Ok tt ↔ valid_value v recorded_at.
Proof.
  unfold validate_value. rewrite !rbind_unit_ok, validate_note_iff, validate_outcome_iff. split.
  - intros (Hq & Hs & Hn & Ho). constructor; [| |done|done].
    + intros q Hv. rewrite Hv in Hq. by apply validate_quantity_iff.
    + intros s Hv. rewrite Hv in Hs. destruct (N.ltb_spec MAX_HABIT_ACTUAL_SECONDS s); [done|lia].
  - intros [Hq Hs Hn Ho]. split_and!; [| |done..].
    + destruct (hv_quantity v); [|done]. by apply validate_quantity_iff, Hq.
    + destruct (hv_actual_seconds v) as [s|]; [|done]. specialize (Hs s eq_refl).
      destruct (N.ltb_spec MAX_HABIT_ACTUAL_SECONDS s); [lia|done].
Qed.

Record valid_record (r : HabitOccurrenceRecord) : Prop := {
  vr_habit : hr_habit_id r ≠ 0%N;
  vr_occurrence : hr_occurrence_id r ≠ 0%N;
  vr_revision : (1 <= hr_revision r)%N;
  vr_time : (hr_created_at r <= hr_updated_at r)%Z;
  vr_value : valid_value (hr_value r) (hr_updated_at r)
}.

Lemma validate_record_iff r : validate_record r = Ok tt ↔ valid_record r.
Proof.
  unfold validate_record, is_nil.
  destruct (N.eqb_spec (hr_habit_id r) 0); [split; [done|intros []; done]|].
  destruct (N.eqb_spec (hr_occurrence_id r) 0); [split; [done|intros []; done]|].
  destruct (N.eqb_spec (hr_revision r) 0); [split; [done|intros []; lia]|].
  destruct (odt_ltb (hr_updated_at r) (hr_created_at r)) eqn:E; unfold odt_ltb in E; bool_to_prop.
  - split; [done|intros []; lia].
  - rewrite validate_value_iff. split; [intros; constructor; (done || lia)|by intros []].
Qed.

(** ** What ordinary recording may change *)

(** Recorded evidence stays: the quantity and the note as they are, the time
    spent as a lower bound. *)
Record evidence_kept (current next : HabitOccurrenceValue) : Prop := {
  ek_quantity q : hv_quantity current = Some q → hv_quantity next = Some q;
  ek_seconds s : hv_actual_seconds current = Some s → ∃ s', hv_actual_seconds next = Some s' ∧ (s <= s')%N;
  ek_note n : hv_note current = Some n → hv_note next = Some n
}.

Definition forward (current next : HabitOccurrenceValue) : Prop :=
  match hv_outcome current, hv_outcome next with
  | Pending, (Partial | Completed | Skipped _) => True
  | Partial, Partial =>
      (hv_progress_basis_points current < hv_progress_basis_points next)%N ∧ evidence_kept current next
  | Partial, Completed => evidence_kept current next
  | Partial, Skipped _ =>
      (hv_progress_basis_points current <= hv_progress_basis_points next)%N ∧ evidence_kept current next
  | _, _ => False
  end.

Lemma evidence_preserved_iff current next :
  validate_evidence_preserved current next = Ok tt ↔ evidence_kept current next.
Proof.
  unfold validate_evidence_preserved. rewrite !rbind_unit_ok.
  assert (∀ a b, quantity_preserved a b = Ok tt ↔ ∀ q, a = Some q → b = Some q) as ->.
  { intros [[x u]|] [[y w]|]; simpl; try naive_solver.
    case_bool_decide; simpl; [|naive_solver]. destruct (Z.eqb_spec x y); naive_solver. }
  assert (∀ a b, seconds_preserved a b = Ok tt ↔ ∀ s, a = Some s → ∃ s', b = Some s' ∧ (s <= s')%N) as ->.
  { intros [x|] [y|]; simpl; try naive_solver. destruct (N.ltb_spec y x); naive_solver lia. }
  assert (∀ a b, note_preserved a b = Ok tt ↔ ∀ n, a = Some n → b = Some n) as ->.
  { intros [x|] [y|]; simpl; try naive_solver. case_bool_decide; naive_solver. }
  split; [intros (?&?&?); by constructor|by intros []].
Qed.

Lemma validate_forward_iff current next : validate_forward_record current next = Ok tt ↔ forward current next.
Proof.
  unfold validate_forward_record, forward.
  destruct (hv_outcome current), (hv_outcome next); try done; rewrite <- ?evidence_preserved_iff; try done.
  - destruct (N.leb_spec (hv_progress_basis_points next) (hv_progress_basis_points current)); naive_solver lia.
  - destruct (N.ltb_spec (hv_progress_basis_points next) (hv_progress_basis_points current)); naive_solver lia.
Qed.

(** ** The theorems *)

(** The value a command carries, and whether its rules admit it. *)
Definition command_value (c : HabitOccurrenceCommand) : HabitOccurrenceValue :=
  match hc_kind c with Record_ value | Correct value => value end.

Definition admits (r : HabitOccurrenceRecord) (c : HabitOccurrenceCommand) : Prop :=
  match hc_kind c with
  | Record_ value => forward (hr_value r) value
  | Correct _ => hv_outcome (hr_value r) ≠ Pending
  end.

Definition transition_kind (r : HabitOccurrenceRecord) (c : HabitOccurrenceCommand) : HabitOccurrenceTransitionKind :=
  match hc_kind c with
  | Record_ _ => if decide (hv_outcome (hr_value r) = Pending) then Recorded else Progressed
  | Correct value => if decide (hv_outcome value = Pending) then Reopened else Corrected
  end.

Lemma next_value_iff r c value kind :
  next_value r c = Ok (value, kind) ↔
  value = command_value c ∧ valid_value value (hc_recorded_at c) ∧ admits r c ∧ kind = transition_kind r c.
Proof.
  unfold next_value, command_value, admits, transition_kind. destruct (hc_kind c) as [v|v].
  - rewrite !rbind_unit_ok, validate_value_iff, validate_forward_iff.
    destruct (decide (hv_outcome (hr_value r) = Pending)) as [Ho|Ho]; destruct (hv_outcome (hr_value r)); naive_solver.
  - destruct (hv_outcome (hr_value r)) eqn:Er; simpl; [naive_solver|..]; rewrite rbind_unit_ok, validate_value_iff;
      (destruct (decide (hv_outcome v = Pending)); destruct (hv_outcome v); naive_solver).
Qed.

Lemma apply_command_iff r c t :
  apply_habit_occurrence_command r c = Ok t ↔
  valid_record r ∧ hc_expected_revision c = hr_revision r ∧ (hr_updated_at r <= hc_recorded_at c)%Z ∧
  valid_value (command_value c) (hc_recorded_at c) ∧ admits r c ∧ value_eqb (command_value c) (hr_value r) = false ∧
  (hr_revision r < u64_max)%N ∧
  t = {| ht_kind := transition_kind r c; ht_previous := r;
         ht_current := with_value r (hr_revision r + 1) (command_value c) (hc_recorded_at c) |}.
Proof.
  unfold apply_habit_occurrence_command. rewrite rbind_unit_ok, validate_record_iff. apply and_iff_compat_l.
  destruct (N.eqb_spec (hc_expected_revision c) (hr_revision r)) as [He|]; simpl; [|naive_solver].
  destruct (odt_ltb (hc_recorded_at c) (hr_updated_at r)) eqn:Et; unfold odt_ltb in Et; bool_to_prop; [naive_solver lia|].
  rewrite rbind_ok. split.
  - intros ([value kind] & (-> & Hv & Ha & ->)%next_value_iff & Hrest). split_and!; [done|lia|done|done|..];
      (destruct (value_eqb _ _) eqn:Eq; [done|]); [done|..];
      apply rbind_ok in Hrest as (rev & (-> & ?)%ok_or_ok%checked_add_Some & [= <-]); [lia|done].
  - intros (_ & _ & Hv & Ha & Heq & Hr & ->). exists (command_value c, transition_kind r c).
    split; [by apply next_value_iff|]. rewrite Heq. apply rbind_ok. exists (hr_revision r + 1)%N.
    split; [by apply ok_or_ok, checked_add_Some; split; [|lia]|done].
Qed.

Lemma value_eqb_sym a b : value_eqb a b = value_eqb b a.
Proof.
  unfold value_eqb. f_equal; [f_equal; [f_equal; [f_equal; [f_equal|]|]|]|].
  1, 3, 4, 5: by apply bool_decide_ext; split; intros.
  - apply N.eqb_sym.
  - destruct (hv_occurred_at a), (hv_occurred_at b); simpl; try done. apply Z.eqb_sym.
Qed.

Lemma valid_value_later v (t t' : OffsetDateTime) : (t <= t')%Z → valid_value v t → valid_value v t'.
Proof.
  intros Ht [? ? ? [Ho Hr]]. constructor; [done..|]. split; [done|]. intros Hp. destruct (Hr Hp) as (o & ? & ?).
  exists o. split; [done|lia].
Qed.

Lemma pending_valid t : valid_value pending_value t.
Proof. constructor; [done..|]. split; [done|by intros []]. Qed.

Lemma pending_is_pending v t : valid_value v t → hv_outcome v = Pending → v = pending_value.
Proof. intros [_ _ _ [Ho _]] Hp. by rewrite Hp in Ho. Qed.

Lemma accepted_valid r c t : apply_habit_occurrence_command r c = Ok t → valid_record (ht_current t).
Proof.
  rewrite apply_command_iff. intros ([? ? ? ? _] & _ & ? & ? & _ & _ & ? & ->). constructor; simpl; (done || lia).
Qed.

(** A history: commands applied one after the other. *)
Definition run (r : HabitOccurrenceRecord) (commands : list HabitOccurrenceCommand)
    : result HabitOccurrenceError HabitOccurrenceRecord :=
  foldM (λ r c, let? t := apply_habit_occurrence_command r c in Ok (ht_current t)) r commands.

Lemma run_cons r c commands r' :
  run r (c :: commands) = Ok r' ↔
  ∃ t, apply_habit_occurrence_command r c = Ok t ∧ run (ht_current t) commands = Ok r'.
Proof.
  unfold run. simpl. rewrite rbind_ok. split.
  - intros (r1 & (t & Ht & [= <-])%rbind_ok & Hr). by exists t.
  - intros (t & Ht & Hr). exists (ht_current t). by rewrite Ht.
Qed.

Lemma last_cons_default {A} (x d : A) l : List.last (x :: l) d = List.last l x.
Proof. revert x d. induction l as [|y l IH]; intros x d; [done|]. change (List.last (y :: l) d = List.last (y :: l) x). by rewrite !IH. Qed.

Lemma run_valid r commands r' :
  valid_record r → run r commands = Ok r' →
  valid_record r' ∧ hr_revision r' = (hr_revision r + N.of_nat (length commands))%N ∧
  hr_habit_id r' = hr_habit_id r ∧ hr_occurrence_id r' = hr_occurrence_id r ∧ hr_created_at r' = hr_created_at r ∧
  hr_updated_at r' = List.last (hc_recorded_at <$> commands) (hr_updated_at r).
Proof.
  revert r. induction commands as [|c commands IH]; intros r Hr Hrun.
  - injection Hrun as <-. split_and!; [done|simpl; lia|done..].
  - apply run_cons in Hrun as (t & Ht & Hrun). pose proof (accepted_valid _ _ _ Ht) as Hv.
    apply apply_command_iff in Ht as (_ & _ & _ & _ & _ & _ & _ & ->).
    destruct (IH _ Hv Hrun) as (? & -> & -> & -> & -> & ->). cbn [ht_current with_value hr_revision hr_updated_at].
    split_and!; [done|simpl length; lia|done..|]. by rewrite fmap_cons, last_cons_default.
Qed.

(** C16. Every record that commands make of a new occurrence is valid, keeps its
    identity, counts every transition in its revision, and was updated at the
    time of the last command. *)
Theorem reachable_records_valid habit_id occurrence_id local_date created_at r0 commands r :
  new_record habit_id occurrence_id local_date created_at = Ok r0 → run r0 commands = Ok r →
  validate_record r = Ok tt ∧ hr_revision r = (1 + N.of_nat (length commands))%N ∧
  hr_habit_id r = habit_id ∧ hr_occurrence_id r = occurrence_id ∧ hr_created_at r = created_at ∧
  hr_updated_at r = List.last (hc_recorded_at <$> commands) created_at.
Proof.
  unfold new_record, is_nil. destruct (N.eqb_spec habit_id 0); [done|]. destruct (N.eqb_spec occurrence_id 0); [done|].
  intros [= <-] Hr. rewrite validate_record_iff. apply (run_valid _ _ _) in Hr as (? & Hrev & ? & ? & ? & ?); [by split_and!|].
  constructor; simpl; [done..|lia|apply pending_valid].
Qed.

(** An accepted command is undone by its preimage: at any later time the value
    before it is accepted again, as a correction or, after a reopening, as an
    ordinary recording, and gives the old value back. *)
Theorem preimage_undoes r c t (at_ : OffsetDateTime) :
  apply_habit_occurrence_command r c = Ok t → (hc_recorded_at c <= at_)%Z → (hr_revision (ht_current t) < u64_max)%N →
  let value := hr_value (ht_previous t) in
  let kind := if decide (hv_outcome (hr_value (ht_current t)) = Pending) then Record_ value else Correct value in
  ∃ t', apply_habit_occurrence_command (ht_current t)
          {| hc_expected_revision := hr_revision (ht_current t); hc_recorded_at := at_; hc_kind := kind |} = Ok t' ∧
        hr_value (ht_current t') = hr_value r.
Proof.
  intros Ht Hat Hmax value kind. pose proof (accepted_valid _ _ _ Ht) as Hcur.
  apply apply_command_iff in Ht as (Hr & _ & Htime & Hv & Ha & Heq & _ & ->). simpl in *. eexists. split.
  - apply apply_command_iff. simpl. split_and!; [done|done|done| | | |done|reflexivity].
    + unfold kind, command_value. simpl. assert (valid_value value at_) as Hvalue.
      { apply (valid_value_later _ (hr_updated_at r)); [lia|]. apply Hr. }
      by destruct (decide _).
    + unfold admits, kind. simpl. destruct (decide _) as [Hp|Hp]; [|done]. unfold admits in Ha.
      destruct (hv_outcome (hr_value r)) eqn:Eo; [|by unfold forward, value; rewrite Eo, Hp..].
      exfalso. unfold command_value in *. destruct (hc_kind c) as [v|v]; [|done]. unfold forward in Ha. by rewrite Eo, Hp in Ha.
    + rewrite value_eqb_sym. unfold kind, command_value in *. simpl. by destruct (decide _).
  - simpl. unfold kind, command_value. simpl. by destruct (decide _).
Qed.

(** ** Ordinary recording *)

Definition ordinary (c : HabitOccurrenceCommand) : Prop := match hc_kind c with Record_ _ => True | Correct _ => False end.

(** How many ordinary recordings a value still allows. *)
Definition recordings_left (v : HabitOccurrenceValue) : N :=
  match hv_outcome v with
  | Pending => 10000
  | Partial => 10000 - hv_progress_basis_points v
  | _ => 0
  end.

Lemma evidence_kept_refl v : evidence_kept v v.
Proof. constructor; [done| |done]. intros s Hs. by exists s. Qed.

Lemma evidence_kept_trans a b c : evidence_kept a b → evidence_kept b c → evidence_kept a c.
Proof.
  intros [Hq Hs Hn] [Hq' Hs' Hn']. constructor; [auto| |auto].
  intros s (s1 & (s2 & ? & ?)%Hs' & ?)%Hs. exists s2. split; [done|lia].
Qed.

Lemma forward_step current next t t' :
  valid_value current t → valid_value next t' → forward current next →
  evidence_kept current next ∧ (hv_progress_basis_points current <= hv_progress_basis_points next)%N ∧
  (recordings_left next < recordings_left current)%N ∧ hv_outcome next ≠ Pending.
Proof.
  intros Hc Hn Hf. pose proof (pending_is_pending _ _ Hc) as Hp. destruct Hc as [_ _ _ [Hc _]], Hn as [_ _ _ [Hn _]].
  unfold forward, recordings_left in *. destruct (hv_outcome current) eqn:Eo.
  - rewrite Hp by done. split_and!; [by constructor|simpl; lia| |by destruct (hv_outcome next)].
    destruct (hv_outcome next); [done|lia..].
  - destruct (hv_outcome next); [done|..]; split_and!; try done; try apply Hf; try lia.
  - done.
  - done.
Qed.

Lemma ordinary_run r commands r' :
  valid_record r → Forall ordinary commands → run r commands = Ok r' →
  evidence_kept (hr_value r) (hr_value r') ∧
  (hv_progress_basis_points (hr_value r) <= hv_progress_basis_points (hr_value r'))%N ∧
  (N.of_nat (length commands) + recordings_left (hr_value r') <= recordings_left (hr_value r))%N ∧
  (commands ≠ [] → hv_outcome (hr_value r') ≠ Pending).
Proof.
  revert r. induction commands as [|c commands IH]; intros r Hr Ho Hrun.
  - injection Hrun as <-. split_and!; [apply evidence_kept_refl|lia|simpl; lia|done].
  - apply Forall_cons in Ho as [Hc Ho]. apply run_cons in Hrun as (t & Ht & Hrun).
    pose proof (accepted_valid _ _ _ Ht) as Hv. destruct (IH _ Hv Ho Hrun) as (Hek & Hp & Hl & Hne).
    apply apply_command_iff in Ht as (_ & _ & _ & Hvv & Ha & _ & _ & ->). unfold ordinary, admits, command_value in *.
    destruct (hc_kind c) as [v|v]; [|done]. cbn [ht_current with_value hr_value] in *.
    destruct (forward_step _ _ _ _ (vr_value _ Hr) Hvv Ha) as (? & ? & ? & ?).
    split_and!; [by eapply evidence_kept_trans|lia|simpl length; lia|]. intros _.
    destruct commands; [by injection Hrun as <-|by apply Hne].
Qed.

(** Ordinary recording only adds: whatever commands are recorded, the quantity
    and the note stay, the time spent and the progress do not decrease, an
    outcome is never reopened, and no more than 10,000 of them are accepted. *)
Theorem ordinary_recording_only_adds r commands r' :
  validate_record r = Ok tt → Forall ordinary commands → run r commands = Ok r' →
  evidence_kept (hr_value r) (hr_value r') ∧
  (hv_progress_basis_points (hr_value r) <= hv_progress_basis_points (hr_value r'))%N ∧
  (N.of_nat (length commands) <= recordings_left (hr_value r) <= 10000)%N ∧
  (commands ≠ [] → hv_outcome (hr_value r') ≠ Pending).
Proof.
  intros Hr%validate_record_iff Ho Hrun. destruct (ordinary_run _ _ _ Hr Ho Hrun) as (? & ? & ? & ?).
  split_and!; try done; [lia|]. unfold recordings_left. destruct (hv_outcome (hr_value r)); lia.
Qed.

(** ** Legacy values *)

Lemma decode_encode v : decode_value (encode_value v) = Ok v.
Proof.
  unfold decode_value, encode_value. simpl.
  assert (∀ q, decode_optional ((λ q, CurrentQuantity (hq_amount q) (hq_unit q)) <$> q) =
               Ok ((λ q, {| dq_value := q; dq_legacy_target_units := None |}) <$> q)) as Hq by (by intros [[]|]).
  destruct v as [o p q s n t]; simpl. destruct o; simpl; rewrite Hq; simpl; by destruct q.
Qed.

(** What a value without explicit progress means. *)
Lemma infer_partial_ok quantity p :
  infer_partial quantity = Ok (Some p) →
  ∃ amount target, legacy_share quantity = Some (amount, target) ∧ (0 <= amount < Z.of_N target)%Z ∧ (1 <= p < 10000)%N ∧
    ((amount <= MAX_HABIT_QUANTITY)%Z →
     p = N.min (N.max (Z.to_N amount * 10000 / target) 1) 9999).
Proof.
  unfold infer_partial, HABIT_BASIS_POINTS_SCALE. destruct (legacy_share quantity) as [[amount target]|]; [|done].
  destruct (Z.ltb_spec amount 0); [done|]. destruct (N.leb_spec target (Z.to_N amount)); [done|]. intros [= <-].
  exists amount, target. set (x := (saturating_mul _ _ _ / _)%N). split_and!; [done|lia|lia|clearbody x; lia|clearbody x; lia|].
  unfold MAX_HABIT_QUANTITY. intros Hle. unfold x, saturating_mul.
  by rewrite (N.min_l (Z.to_N amount * 10000)) by (unfold u64_max; lia).
Qed.

(** A value survives its serialization, and a value of the older wire form,
    without explicit progress, gets a progress its outcome allows: none for
    pending and skipped, all for completed, and for a partial quantity the share
    of its target, rounded down but never none and never all. *)
Theorem habit_values_decode v w v' :
  decode_value (encode_value v) = Ok v ∧
  (decode_value w = Ok v' → hw_progress_basis_points w = None →
   match hv_outcome v' with
   | Pending | Skipped _ => hv_progress_basis_points v' = 0%N
   | Completed => hv_progress_basis_points v' = 10000%N
   | Partial =>
       ∃ completed target unit_,
         hw_outcome w = PartialWire (Some (LegacyQuantity completed target unit_)) ∧
         hv_quantity v' = Some {| hq_amount := Z.of_N completed; hq_unit := unit_ |} ∧
         (1 <= completed < target)%N ∧ (1 <= hv_progress_basis_points v' < 10000)%N ∧
         ((Z.of_N completed <= MAX_HABIT_QUANTITY)%Z →
          hv_progress_basis_points v' = N.min (N.max (completed * 10000 / target) 1) 9999)
   end).
Proof.
  split; [apply decode_encode|]. unfold decode_value. intros (((o & e) & i) & Ho & Hd)%rbind_ok Hnone. rewrite Hnone in Hd.
  destruct (bool_decide (is_Some e) && bool_decide (is_Some (hw_quantity w))) eqn:Eb; [done|].
  apply rbind_ok in Hd as (own & Hown & (p & ->%ok_or_ok & [= <-])%rbind_ok). cbn [hv_outcome hv_progress_basis_points hv_quantity].
  destruct (hw_outcome w) as [|[q|]|q|reason]; simpl in Ho.
  - by injection Ho as <- _ <-.
  - apply rbind_ok in Ho as (d & (d0 & Hq & [= <-])%rbind_ok & (inferred & Hi & [= <- <- ->])%rbind_ok).
    apply infer_partial_ok in Hi as (amount & target & Hs & Hlt & Hp & Hexact). destruct q as [a u|c t u]; simpl in Hq.
    { by injection Hq as <-. }
    destruct ((c =? 0)%N || (t =? 0)%N || (i64_max <? t)%N) eqn:E; [done|]. destruct (i64_max <? c)%N; [done|].
    injection Hq as <-. unfold legacy_share in Hs. simpl in Hs. injection Hs as <- <-. bool_to_prop.
    exists c, t, u. destruct (hw_quantity w) as [x|]; [done|]. simpl in Hown. injection Hown as <-.
    split_and!; [done|done|lia|lia|lia|lia|]. intros ?. rewrite Hexact by done. by rewrite N2Z.id.
  - done.
  - apply rbind_ok in Ho as (d & _ & (u & _ & [= <- _ <-])%rbind_ok). done.
  - by injection Ho as <- _ <-.
Qed.

(** ** Witnesses *)

Definition sample_record : HabitOccurrenceRecord :=
  {| hr_habit_id := 7; hr_occurrence_id := 8; hr_local_date := 0; hr_revision := 1; hr_value := pending_value;
     hr_created_at := at_minute 0; hr_updated_at := at_minute 0 |}.

Definition record_command (revision : N) (minute : Z) (v : HabitOccurrenceValue) : HabitOccurrenceCommand :=
  {| hc_expected_revision := revision; hc_recorded_at := at_minute minute; hc_kind := Record_ v |}.

(** Half done at minute 10, done at minute 20. *)
Definition half_done : HabitOccurrenceCommand :=
  record_command 1 10 (partial_value 5000 (Some {| hq_amount := 3; hq_unit := "km" |}) (Some 600%N) None (at_minute 10)).
Definition all_done : HabitOccurrenceCommand :=
  record_command 2 20 (completed_value (Some {| hq_amount := 3; hq_unit := "km" |}) (Some 900%N) (Some "easy"%string) (at_minute 20)).

Definition done_record : HabitOccurrenceRecord :=
  with_value sample_record 3
    (completed_value (Some {| hq_amount := 3; hq_unit := "km" |}) (Some 900%N) (Some "easy"%string) (at_minute 20)) (at_minute 20).

Lemma sample_run : run sample_record [half_done; all_done] = Ok done_record.
Proof. vm_compute. reflexivity. Qed.

Lemma reachable_records_valid_witness : validate_record done_record = Ok tt.
Proof.
  apply (reachable_records_valid 7 8 0 (at_minute 0) sample_record [half_done; all_done] done_record); [reflexivity|exact sample_run].
Defined.

Lemma preimage_undoes_witness :
  ∃ t t', apply_habit_occurrence_command sample_record half_done = Ok t ∧
    hc_expected_revision half_done = 1%N ∧ hr_value (ht_current t') = pending_value.
Proof.
  destruct (apply_habit_occurrence_command sample_record half_done) as [t|e] eqn:E; [|vm_compute in E; discriminate E].
  assert (hr_revision (ht_current t) < u64_max)%N as Hmax by (vm_compute in E; injection E as <-; vm_compute; reflexivity).
  assert (hc_recorded_at half_done <= at_minute 15)%Z as Hat by (vm_compute; intros [=]).
  destruct (preimage_undoes sample_record half_done t (at_minute 15) E Hat Hmax) as (t' & _ & Ht').
  exists t, t'. split_and!; [reflexivity..|exact Ht'].
Defined.

Lemma ordinary_recording_only_adds_witness :
  evidence_kept (hr_value sample_record) (hr_value done_record) ∧ hv_outcome (hr_value done_record) ≠ Pending.
Proof.
  destruct (ordinary_recording_only_adds sample_record [half_done; all_done] done_record) as (Hk & _ & _ & Hp).
  - reflexivity.
  - repeat constructor.
  - exact sample_run.
  - split; [exact Hk|]. apply Hp. discriminate.
Defined.

Definition legacy_half : HabitOccurrenceValueWire :=
  {| hw_outcome := PartialWire (Some (LegacyQuantity 3 7 "km")); hw_progress_basis_points := None; hw_quantity := None;
     hw_actual_seconds := None; hw_note := None; hw_occurred_at := None |}.

Lemma habit_values_decode_witness :
  ∃ v, decode_value legacy_half = Ok v ∧ hv_progress_basis_points v = 4285%N.
Proof.
  destruct (decode_value legacy_half) as [v|e] eqn:E; [|vm_compute in E; discriminate E].
  exists v. split; [reflexivity|]. pose proof (proj2 (habit_values_decode v legacy_half v) E eq_refl) as H.
  vm_compute in E. injection E as <-. destruct H as (c & t & u & [= <- <- <-] & _ & _ & _ & Hp).
  rewrite Hp by (vm_compute; intros [=]). vm_compute. reflexivity.
Defined.
