(* ===== verification/Plan.v ===== *)
(** * Plan: what the scheduler returns

    The output types and the errors of crates/dayweave-core/src/scheduler.rs:
    blocks with their explanations, work left unscheduled, decisions,
    violations, the score, and the assessments of manual placements. *)
From S2P Require Import Prelude Platform Domain Rollup Lifecycle.

Inductive ScheduleBlockKind : Type := Planned | Pinned | CalendarEventBlock | ExternalFixed.

Module ExplanationCode.
Inductive ExplanationCode : Type :=
| FixedEvent | Pinned | HardDeadline | GoalProgress | HabitOrRoutine | Priority | PreferredWindow
| ContextMatch | EnergyMatch | Dependency | StableTime | EarliestAvailable | SplitSession.
End ExplanationCode.
Abbreviation ExplanationCode := ExplanationCode.ExplanationCode.

Record PlacementExplanation : Type := { pe_code : ExplanationCode; pe_message : string }.

Record ScheduleBlock : Type := {
  sb_id : Uuid;
  sb_is_sensitive : bool;
  sb_item_id : option ItemId;
  sb_occurrence_id : option OccurrenceId;
  sb_external_block_id : option Uuid;
  sb_title : string;
  sb_start : OffsetDateTime;
  sb_end : OffsetDateTime;
  sb_session_index : N;
  sb_kind : ScheduleBlockKind;
  sb_explanations : list PlacementExplanation
}.

Module UnscheduledReason.
Inductive UnscheduledReason : Type :=
| MissingDuration | NoCapacity | HardConstraint | Blocked | DependencyUnavailable
| DependencyCycle | SessionLimit.
End UnscheduledReason.
Abbreviation UnscheduledReason := UnscheduledReason.UnscheduledReason.

Record UnscheduledWork : Type := {
  uw_item_id : ItemId;
  uw_occurrence_id : option OccurrenceId;
  uw_remaining : Minutes;
  uw_reason : UnscheduledReason;
  uw_message : string
}.

Module DecisionKind.
Inductive DecisionKind : Type :=
| ContainerRolledUp | TerminalItemIgnored | FixedEventRetained | Scheduled | PartiallyScheduled
| KeptPinned.
End DecisionKind.
Abbreviation DecisionKind := DecisionKind.DecisionKind.

Record PlanDecision : Type := {
  pd_item_id : ItemId;
  pd_occurrence_id : option OccurrenceId;
  pd_kind : DecisionKind;
  pd_message : string
}.

Module ViolationKind.
Inductive ViolationKind : Type :=
| SoftConstraint | FixedOverlap | PinnedConflict | DeadlineRisk | Dependency | BufferCompressed
| Capacity.
End ViolationKind.
Abbreviation ViolationKind := ViolationKind.ViolationKind.

Inductive ViolationSeverity : Type := Warning | Error.

Record PlanViolation : Type := {
  pv_kind : ViolationKind;
  pv_severity : ViolationSeverity;
  pv_item_ids : list ItemId;
  pv_occurrence_ids : list OccurrenceId;
  pv_start : option OffsetDateTime;
  pv_end : option OffsetDateTime;
  pv_penalty : N;
  pv_message : string
}.

Module ManualPlacementViolationCode.
Inductive ManualPlacementViolationCode : Type :=
| OutsideAvailability | EarliestStart | LatestFinish | MinimumNotice | AllowedWeekday
| PreferredDailyWindow | PreferredAbsoluteWindow | ForbiddenWindow | RequiredContext
| RequiredLocation | RequiredCapabilities | Energy | Dependency | MaximumDailyWork
| MaximumWeeklyWork | BufferCompressed | ImmutableOverlap.
End ManualPlacementViolationCode.
Abbreviation ManualPlacementViolationCode := ManualPlacementViolationCode.ManualPlacementViolationCode.

Record ManualPlacementConflict : Type := {
  mpc_block_id : Uuid;
  mpc_item_id : option ItemId;
  mpc_occurrence_id : option OccurrenceId;
  mpc_external_block_id : option Uuid;
  mpc_kind : ScheduleBlockKind;
  mpc_start : OffsetDateTime;
  mpc_end : OffsetDateTime
}.

Record ManualPlacementViolation : Type := {
  mpv_code : ManualPlacementViolationCode;
  mpv_item_ids : list ItemId;
  mpv_occurrence_ids : list OccurrenceId;
  mpv_conflicting_block_ids : list Uuid;
  mpv_conflicting_blocks : list ManualPlacementConflict;
  mpv_start : OffsetDateTime;
  mpv_end : OffsetDateTime;
  mpv_boundary_start : option OffsetDateTime;
  mpv_boundary_end : option OffsetDateTime;
  mpv_message : string
}.

Record ManualPlacementAssessment : Type := {
  mpa_placement_id : Uuid;
  mpa_environment_digest : list N;
  mpa_violations : list ManualPlacementViolation
}.

Record DeferCandidateAssessmentInput : Type := {
  dci_placement_id : Uuid;
  dci_item_id : ItemId;
  dci_occurrence_id : option OccurrenceId;
  dci_source_session_index : N;
  dci_replacement_session_index : N;
  dci_credited_seconds_after_source : N;
  dci_move_start : OffsetDateTime;
  dci_move_end : OffsetDateTime
}.

Record PlanScore : Type := {
  scheduled_minutes : N;
  unscheduled_minutes : N;
  soft_penalty : N;
  moved_minutes : N
}.

Definition default_score : PlanScore :=
  {| scheduled_minutes := 0; unscheduled_minutes := 0; soft_penalty := 0; moved_minutes := 0 |}.

Record SchedulePlan : Type := {
  sp_as_of : OffsetDateTime;
  sp_horizon_start : OffsetDateTime;
  sp_horizon_end : OffsetDateTime;
  sp_blocks : list ScheduleBlock;
  sp_unscheduled : list UnscheduledWork;
  sp_decisions : list PlanDecision;
  sp_violations : list PlanViolation;
  sp_score : PlanScore;
  sp_occurrences : list Occurrence;
  sp_manual_placement_assessments : list ManualPlacementAssessment
}.

Record DeferCandidateAssessmentResult : Type := {
  dcr_plan : SchedulePlan;
  dcr_assessment : ManualPlacementAssessment
}.

(** [SchedulePlan::blocks_for] *)
Definition blocks_for (plan : SchedulePlan) (item_id : ItemId) : list ScheduleBlock :=
  filter (λ block, sb_item_id block = Some item_id) (sp_blocks plan).

(** Messages of errors are strings, formatted as the code does; the error of
    the hierarchy is kept as a value, where the code keeps its text. *)
Module ScheduleError.
Inductive ScheduleError : Type :=
| InvalidHorizon
| InvalidGranularity
| DuplicateItem (item_id : ItemId)
| InvalidItem (item_id : ItemId) (message : string)
| InvalidWindow (owner : string)
| MissingPreviousItem (item_id : ItemId)
| InvalidHierarchy (error : HierarchyError)
| InvalidRecurrence (message : string)
| InvalidOccurrenceLifecycle (error : OccurrenceLifecycleError)
| ConflictEvidenceLimit
| InvalidDeferCandidate (placement_id : Uuid) (message : string)
| MissingDeferSourceWorkUnit (placement_id : Uuid) (item_id : ItemId) (occurrence_id : option OccurrenceId)
| AmbiguousDeferSourceWorkUnit (placement_id : Uuid) (item_id : ItemId) (occurrence_id : option OccurrenceId)
| MissingDeferSourceReservation (placement_id : Uuid) (source_session_index : N)
| AmbiguousDeferSourceReservation (placement_id : Uuid) (source_session_index : N)
| MissingDeferAssessment (placement_id : Uuid)
| AmbiguousDeferAssessment (placement_id : Uuid).
End ScheduleError.
Abbreviation ScheduleError := ScheduleError.ScheduleError.

#[export] Instance ScheduleBlockKind_eq_dec : EqDecision ScheduleBlockKind.
Proof. solve_decision. Defined.
#[export] Instance ExplanationCode_eq_dec : EqDecision ExplanationCode.
Proof. solve_decision. Defined.
#[export] Instance UnscheduledReason_eq_dec : EqDecision UnscheduledReason.
Proof. solve_decision. Defined.
#[export] Instance ManualPlacementViolationCode_eq_dec : EqDecision ManualPlacementViolationCode.
Proof. solve_decision. Defined.
