(* ===== verification/Intervals.v ===== *)
(** * Intervals: time arithmetic of the scheduler

    The [Interval] of crates/dayweave-core/src/scheduler.rs with its helpers,
    and [free_segments], which turns an availability window and the busy blocks
    into the maximal free intervals.  The theorems characterise the free
    segments point by point, show that they are sorted, separated and maximal,
    and state what the minute counters and the grid alignment compute. *)
From S2P Require Import Prelude Platform Domain Samples.

Record Interval : Type := { iv_start : OffsetDateTime; iv_end : OffsetDateTime }.

Definition overlaps (self other : Interval) : bool :=
  odt_ltb (iv_start self) (iv_end other) && odt_ltb (iv_start other) (iv_end self).

Definition contains (self other : Interval) : bool :=
  odt_leb (iv_start self) (iv_start other) && odt_leb (iv_end other) (iv_end self).

Definition clipped (self bounds : Interval) : option Interval :=
  let value := {| iv_start := odt_max (iv_start self) (iv_start bounds);
                  iv_end := odt_min (iv_end self) (iv_end bounds) |} in
  if odt_ltb (iv_start value) (iv_end value) then Some value else None.

Definition positive_minutes (duration : Duration) : N :=
  try_u32_or_max (Z.max (whole_minutes duration) 0).

(** [Interval::minutes] *)
Definition minutes (self : Interval) : N :=
  try_u32_or_max (Z.max (whole_minutes (duration_between (iv_end self) (iv_start self))) 0).

Definition i128_max : Z := 2 ^ 127 - 1.

Definition ceil_duration_minutes (duration : Duration) : N :=
  let nanoseconds := Z.max duration 0 in
  try_u32_or_max (Z.min (nanoseconds + (nanos_per_minute - 1)) i128_max / nanos_per_minute).

Definition overlap_minutes (left right : Interval) : N :=
  if negb (overlaps left right) then 0%N
  else minutes {| iv_start := odt_max (iv_start left) (iv_start right);
                  iv_end := odt_min (iv_end left) (iv_end right) |}.

Record BusyBlock : Type := {
  bb_interval : Interval;
  bb_item_id : option ItemId;
  bb_pinned : bool;
  bb_manual_placement : bool
}.

(** The order [sort_by_key] uses: the start, then the end. *)
Definition interval_leb (a b : Interval) : bool :=
  is_le (then_with (odt_cmp (iv_start a) (iv_start b)) (odt_cmp (iv_end a) (iv_end b))).

(** The merging loop; [last] is [merged.last_mut()]. *)
Fixpoint merge_from (last : Interval) (rest : list Interval) : list Interval :=
  match rest with
  | [] => [last]
  | interval :: rest' =>
      if odt_leb (iv_start interval) (iv_end last) then
        merge_from {| iv_start := iv_start last; iv_end := odt_max (iv_end last) (iv_end interval) |} rest'
      else last :: merge_from interval rest'
  end.

Definition merge (intersections : list Interval) : list Interval :=
  match intersections with [] => [] | interval :: rest => merge_from interval rest end.

(** The loop that collects the gaps before each occupied interval. *)
Fixpoint gaps (cursor available_end : OffsetDateTime) (occupied : list Interval) : list Interval :=
  match occupied with
  | [] =>
      if odt_ltb cursor available_end then [{| iv_start := cursor; iv_end := available_end |}] else []
  | o :: rest =>
      (if odt_ltb cursor (iv_start o) then [{| iv_start := cursor; iv_end := iv_start o |}] else []) ++
      gaps (odt_max cursor (iv_end o)) available_end rest
  end.

Definition free_segments (available : Interval) (busy : list BusyBlock) : list Interval :=
  let intersections :=
    sort_by interval_leb (omap (λ block, clipped (bb_interval block) available) busy) in
  gaps (iv_start available) (iv_end available) (merge intersections).

Section platform.
Context `{Platform}.

Definition align_up (value : OffsetDateTime) (granularity : Minutes) : option OffsetDateTime :=
  let step := (Z.of_N granularity * 60)%Z in
  let timestamp := unix_timestamp value in
  let remainder := (timestamp mod step)%Z in
  if (remainder =? 0)%Z then Some value
  else odt_checked_add value (duration_seconds (step - remainder)).

Definition checked_buffered_interval (interval : Interval) (before after : Minutes) : option Interval :=
  start ← odt_checked_sub (iv_start interval) (duration_minutes before);
  end_ ← odt_checked_add (iv_end interval) (duration_minutes after);
  Some {| iv_start := start; iv_end := end_ |}.

Definition monday_of (value : OffsetDateTime) : Date :=
  match date_checked_sub_days (odt_date value) (number_days_from_monday (odt_weekday value)) with
  | Some date => date
  | None => date_min
  end.
End platform.

(** ** Specification vocabulary *)

(** The instants of a half-open interval. *)
Definition at_instant (t : Z) (i : Interval) : Prop := (iv_start i <= t < iv_end i)%Z.

Definition nonempty (i : Interval) : Prop := (iv_start i < iv_end i)%Z.

(** One interval ends strictly before the next begins. *)
Definition before (a b : Interval) : Prop := (iv_end a < iv_start b)%Z.

(** ** Lemmas *)

Ltac iv_simpl := unfold at_instant, nonempty, before in *; simpl in *; instants.

Lemma overlaps_iff a b :
  nonempty a → nonempty b → overlaps a b = true ↔ ∃ t, at_instant t a ∧ at_instant t b.
Proof.
  unfold overlaps. rewrite andb_true_iff, !odt_ltb_lt. intros Ha Hb. iv_simpl. split.
  - intros [H1 H2]. exists (Z.max (iv_start a) (iv_start b)). lia.
  - intros (t & H1 & H2). lia.
Qed.

Lemma contains_iff a b : contains a b = true ↔ (iv_start a <= iv_start b)%Z ∧ (iv_end b <= iv_end a)%Z.
Proof. unfold contains. by rewrite andb_true_iff, !odt_leb_le. Qed.

Lemma clipped_Some i b c :
  clipped i b = Some c → nonempty c ∧ (iv_start c = Z.max (iv_start i) (iv_start b) :> Z) ∧
    (iv_end c = Z.min (iv_end i) (iv_end b) :> Z).
Proof. unfold clipped. simpl. destruct (odt_ltb _ _) eqn:E; [|done]. intros; simplify_eq. iv_simpl. done. Qed.

Lemma clipped_None i b : clipped i b = None → ∀ t, at_instant t i → at_instant t b → False.
Proof. unfold clipped. simpl. destruct (odt_ltb _ _) eqn:E; [done|]. intros _ t. iv_simpl. lia. Qed.

Lemma interval_leb_total a b : interval_leb a b = false → interval_leb b a = true.
Proof.
  unfold interval_leb, odt_cmp, then_with, is_le.
  destruct (Z.compare_spec (iv_start a) (iv_start b)), (Z.compare_spec (iv_start b) (iv_start a)),
    (Z.compare_spec (iv_end a) (iv_end b)), (Z.compare_spec (iv_end b) (iv_end a)); try done; lia.
Qed.

Lemma interval_leb_trans a b c : interval_leb a b = true → interval_leb b c = true → interval_leb a c = true.
Proof.
  unfold interval_leb, odt_cmp, then_with, is_le.
  destruct (Z.compare_spec (iv_start a) (iv_start b)), (Z.compare_spec (iv_start b) (iv_start c)),
    (Z.compare_spec (iv_start a) (iv_start c)), (Z.compare_spec (iv_end a) (iv_end b)),
    (Z.compare_spec (iv_end b) (iv_end c)), (Z.compare_spec (iv_end a) (iv_end c)); try done; lia.
Qed.

Lemma interval_leb_start a b : interval_leb a b = true → (iv_start a <= iv_start b)%Z.
Proof.
  unfold interval_leb, odt_cmp, then_with, is_le. destruct (Z.compare_spec (iv_start a) (iv_start b)); try done; lia.
Qed.

(** Starts never decrease along a list. *)
Definition starts_sorted (l : list Interval) : Prop :=
  StronglySorted (λ a b, (iv_start a <= iv_start b)%Z) l.

(** What merging a start-sorted list gives: separated intervals with the same
    instants, none starting before the first. *)
Lemma merge_from_spec last rest :
  starts_sorted (last :: rest) → Forall nonempty (last :: rest) →
  StronglySorted before (merge_from last rest) ∧ Forall nonempty (merge_from last rest) ∧
  Forall (λ i, (iv_start last <= iv_start i)%Z) (merge_from last rest) ∧
  ∀ t, (∃ i, i ∈ merge_from last rest ∧ at_instant t i) ↔ (∃ i, i ∈ last :: rest ∧ at_instant t i).
Proof.
  revert last. induction rest as [|x rest IH]; intros last Hs Hn; simpl.
  - split_and!; [repeat constructor|by constructor; [apply Forall_inv in Hn|]|constructor; [lia|done]|done].
  - apply StronglySorted_inv in Hs as [Hs Hle]. apply Forall_cons in Hle as [Hx Hle].
    apply StronglySorted_inv in Hs as [Hs Hxle].
    apply Forall_cons in Hn as [Hn1 Hn]. apply Forall_cons in Hn as [Hn2 Hn].
    destruct (odt_leb (iv_start x) (iv_end last)) eqn:E.
    + set (m := {| iv_start := iv_start last; iv_end := odt_max (iv_end last) (iv_end x) |}).
      destruct (IH m) as (H1 & H2 & H3 & H4).
      { constructor; done. } { constructor; [|done]. iv_simpl. lia. }
      split_and!; [done..|]. intros t. rewrite H4. split.
      * intros (i & [->|Hi]%elem_of_cons & Ht); [|exists i; split; [set_solver|done]]. subst m. iv_simpl.
        destruct (decide (t < iv_end last)%Z); [exists last|exists x]; (split; [set_solver|lia]).
      * intros (i & Hi & Ht). repeat (apply elem_of_cons in Hi as [->|Hi]); [exists m|exists m|exists i];
          (split; [set_solver|]); subst m; iv_simpl; lia.
    + destruct (IH x) as (H1 & H2 & H3 & H4); [by constructor|by constructor|].
      split_and!.
      * constructor; [done|]. eapply Forall_impl; [exact H3|]. intros i Hi. iv_simpl. lia.
      * by constructor.
      * constructor; [lia|]. eapply Forall_impl; [exact H3|]. simpl. intros; lia.
      * intros t. specialize (H4 t). split.
        -- intros (i & [->|Hi]%elem_of_cons & Ht); [exists last; split; [left|done]|].
           destruct (proj1 H4) as (j & Hj & Htj); [by eauto|]. exists j. split; [by right|done].
        -- intros (i & [->|Hi]%elem_of_cons & Ht); [exists last; split; [left|done]|].
           destruct (proj2 H4) as (j & Hj & Htj); [by eauto|]. exists j. split; [by right|done].
Qed.

Lemma gaps_spec cursor (aend : OffsetDateTime) l :
  StronglySorted before l → Forall nonempty l →
  Forall (λ i, (iv_end i <= aend)%Z) l →
  StronglySorted before (gaps cursor aend l) ∧ Forall nonempty (gaps cursor aend l) ∧
  Forall (λ i, (cursor <= iv_start i)%Z ∧ (iv_end i <= aend)%Z) (gaps cursor aend l) ∧
  ∀ t, (∃ i, i ∈ gaps cursor aend l ∧ at_instant t i) ↔
       (cursor <= t < aend)%Z ∧ ∀ i, i ∈ l → ¬ at_instant t i.
Proof.
  revert cursor. induction l as [|o l IH]; intros cursor Hs Hn He; simpl.
  - destruct (odt_ltb cursor aend) eqn:E; iv_simpl.
    + split_and!; [repeat constructor|repeat constructor; simpl; lia|repeat constructor; simpl; lia|].
      intros t. split.
      * intros (i & ->%list_elem_of_singleton & Ht). simpl in Ht. split; [lia|]. by intros i ?%elem_of_nil.
      * intros [Ht _]. eexists. split; [by apply list_elem_of_singleton|simpl; lia].
    + split_and!; [constructor..|]. intros t. split; [by intros (i & ?%elem_of_nil & _)|lia].
  - apply StronglySorted_inv in Hs as [Hs Ho]. apply Forall_cons in Hn as [Hno Hn].
    apply Forall_cons in He as [Heo He].
    destruct (IH (odt_max cursor (iv_end o)) Hs Hn He) as (H1 & H2 & H3 & H4). clear IH.
    assert (∀ i, i ∈ l → (iv_end o < iv_start i)%Z) as Hafter by (rewrite <- Forall_forall; exact Ho).
    rewrite unix_nanos_max in H3, H4.
    destruct (odt_ltb cursor (iv_start o)) eqn:E; simpl; iv_simpl.
    + split_and!.
      * constructor; [done|]. eapply Forall_impl; [exact H3|]. simpl. intros; lia.
      * constructor; [simpl; lia|done].
      * constructor; [simpl; lia|]. eapply Forall_impl; [exact H3|]. simpl. intros; lia.
      * intros t. specialize (H4 t). split.
        -- intros (i & [->|Hi]%elem_of_cons & Ht); simpl in *.
           ++ split; [lia|]. intros i [->|Hi]%elem_of_cons; [lia|]. specialize (Hafter i Hi). lia.
           ++ destruct (proj1 H4) as [Hc Hl]; [by eauto|]. split; [lia|].
              intros j [->|Hj]%elem_of_cons; [lia|by apply Hl].
        -- intros [Ht Hl]. destruct (decide (t < iv_start o)%Z); [eexists; split; [left|simpl; lia]|].
           destruct (proj2 H4) as (i & Hi & Hti); [|exists i; split; [by right|done]].
           split; [specialize (Hl o ltac:(left)); lia|]. intros i Hi. apply Hl. by right.
    + split_and!; [done|done|eapply Forall_impl; [exact H3|]; simpl; intros; lia|].
      intros t. rewrite H4. split.
      * intros [Ht Hl]. split; [lia|]. intros i [->|Hi]%elem_of_cons; [lia|auto].
      * intros [Ht Hl]. split; [specialize (Hl o ltac:(left)); lia|]. intros i Hi. apply Hl. by right.
Qed.

Lemma merge_from_end (bound : Z) last rest :
  Forall (λ i, (iv_end i <= bound)%Z) (last :: rest) →
  Forall (λ i, (iv_end i <= bound)%Z) (merge_from last rest).
Proof.
  revert last. induction rest as [|x rest IH]; intros last Hl; simpl; [done|].
  apply Forall_cons in Hl as [H1 Hl]. apply Forall_cons in Hl as [H2 Hl].
  destruct (odt_leb _ _); [apply IH|constructor; [done|apply IH]]; constructor; try done. simpl. instants. lia.
Qed.

Lemma merge_spec l :
  starts_sorted l → Forall nonempty l →
  StronglySorted before (merge l) ∧ Forall nonempty (merge l) ∧
  (∀ t, (∃ i, i ∈ merge l ∧ at_instant t i) ↔ (∃ i, i ∈ l ∧ at_instant t i)) ∧
  (∀ bound : Z, Forall (λ i, (iv_end i <= bound)%Z) l → Forall (λ i, (iv_end i <= bound)%Z) (merge l)).
Proof.
  destruct l as [|x l]; intros Hs Hn; simpl; [split_and!; [constructor|constructor|done|constructor]|].
  destruct (merge_from_spec x l Hs Hn) as (H1 & H2 & _ & H4). split_and!; [done..|]. intros. by apply merge_from_end.
Qed.

Section free.
Variables (available : Interval) (busy : list BusyBlock).

Lemma elem_of_intersections c :
  c ∈ sort_by interval_leb (omap (λ block, clipped (bb_interval block) available) busy) ↔
  ∃ b, b ∈ busy ∧ clipped (bb_interval b) available = Some c.
Proof. rewrite elem_of_sort_by, list_elem_of_omap. done. Qed.

Lemma intersections_merge :
  let merged := merge (sort_by interval_leb (omap (λ block, clipped (bb_interval block) available) busy)) in
  StronglySorted before merged ∧ Forall nonempty merged ∧
  Forall (λ i, (iv_end i <= iv_end available)%Z) merged ∧
  ∀ t, (∃ i, i ∈ merged ∧ at_instant t i) ↔
    at_instant t available ∧ ∃ b, b ∈ busy ∧ at_instant t (bb_interval b).
Proof.
  destruct (merge_spec (sort_by interval_leb (omap (λ block, clipped (bb_interval block) available) busy)))
    as (H1 & H2 & H3 & H4).
  - assert (StronglySorted (λ a b, interval_leb a b = true)
      (sort_by interval_leb (omap (λ block, clipped (bb_interval block) available) busy))) as Hs.
    { apply sort_by_sorted; [apply interval_leb_total|apply interval_leb_trans]. }
    unfold starts_sorted. induction Hs as [|x l Hs IH Hx]; constructor; [done|].
    eapply Forall_impl; [exact Hx|]. intros i. apply interval_leb_start.
  - apply Forall_forall. intros c (b & _ & Hc)%elem_of_intersections. by apply clipped_Some in Hc as (? & _).
  - split_and!; [done|done|apply H4; apply Forall_forall; intros c (b & _ & Hc)%elem_of_intersections|].
    + apply clipped_Some in Hc as (_ & _ & ->). lia.
    + intros t. rewrite H3. split.
      * intros (c & (b & Hb & Hc)%elem_of_intersections & Ht). apply clipped_Some in Hc as (_ & Hs & He).
        unfold at_instant in *. rewrite Hs, He in Ht. split; [lia|]. exists b. split; [done|lia].
      * intros (Ht & b & Hb & Htb). destruct (clipped (bb_interval b) available) as [c|] eqn:Ec.
        -- exists c. split; [apply elem_of_intersections; eauto|]. apply clipped_Some in Ec as (_ & Hs & He).
           unfold at_instant in *. rewrite Hs, He. lia.
        -- by destruct (clipped_None _ _ Ec t Htb Ht).
Qed.

Lemma free_segments_facts :
  StronglySorted before (free_segments available busy) ∧ Forall nonempty (free_segments available busy) ∧
  Forall (λ i, contains available i = true) (free_segments available busy) ∧
  ∀ t, (∃ i, i ∈ free_segments available busy ∧ at_instant t i) ↔
    at_instant t available ∧ ∀ b, b ∈ busy → ¬ at_instant t (bb_interval b).
Proof.
  destruct intersections_merge as (H1 & H2 & H3 & H4). unfold free_segments.
  destruct (gaps_spec (iv_start available) (iv_end available) _ H1 H2 H3) as (G1 & G2 & G3 & G4).
  split_and!; [done|done|eapply Forall_impl; [exact G3|]; intros i; simpl; by rewrite contains_iff|].
  intros t. rewrite G4. unfold at_instant at 2. split.
  - intros [Ht Hi]. split; [done|]. intros b Hb Htb.
    destruct (proj2 (H4 t)) as (i & Hin & Hti); [split; [done|eauto]|]. by apply (Hi i).
  - intros [Ht Hb]. split; [done|]. intros i Hi Hti. destruct (proj1 (H4 t)) as (_ & b & Hbb & Htb); [eauto|].
    by apply (Hb b).
Qed.
End free.

(** ** Theorems *)

(** The free segments of an availability window are non-empty, lie inside
    the window, are sorted with a busy gap between any two of them, and
    together hold exactly the instants of the window that no busy block
    occupies. *)
Theorem free_segments_exact available busy :
  StronglySorted before (free_segments available busy) ∧
  (∀ s, s ∈ free_segments available busy → nonempty s ∧ contains available s = true) ∧
  ∀ t, (∃ s, s ∈ free_segments available busy ∧ at_instant t s) ↔
    at_instant t available ∧ ∀ b, b ∈ busy → ¬ at_instant t (bb_interval b).
Proof.
  destruct (free_segments_facts available busy) as (H1 & H2 & H3 & H4). split_and!; [done| |done].
  rewrite Forall_forall in H2. rewrite Forall_forall in H3. eauto.
Qed.

(** No free time is lost: an interval inside the window that meets no busy
    block lies within a single free segment. *)
Theorem free_segments_maximal available busy i :
  nonempty i → contains available i = true →
  (∀ b t, b ∈ busy → at_instant t i → ¬ at_instant t (bb_interval b)) →
  ∃ s, s ∈ free_segments available busy ∧ contains s i = true.
Proof.
  intros Hne Hin Hfree. apply contains_iff in Hin.
  destruct (free_segments_facts available busy) as (H1 & H2 & _ & H4).
  assert (∀ t, at_instant t i → ∃ s, s ∈ free_segments available busy ∧ at_instant t s) as Hcov.
  { intros t Ht. apply H4. split; [unfold at_instant in *; lia|]. intros b Hb. by apply Hfree. }
  unfold nonempty in Hne.
  destruct (Hcov (iv_start i)) as (s & Hs & Hts); [unfold at_instant; lia|].
  exists s. split; [done|]. apply contains_iff. unfold at_instant in Hts. split; [lia|].
  destruct (decide (iv_end i <= iv_end s)%Z) as [|Hgt]; [done|]. exfalso.
  destruct (Hcov (iv_end s)) as (s' & Hs' & Hts'); [unfold at_instant; lia|]. unfold at_instant in Hts'.
  enough (∀ l a b, StronglySorted before l → a ∈ l → b ∈ l → a = b ∨ before a b ∨ before b a) as Htri.
  { destruct (Htri _ s s' H1 Hs Hs') as [->|[Hb|Hb]]; unfold before in *; lia. }
  clear. intros l a b. induction 1 as [|x l Hl IH Hx]; [by intros ?%elem_of_nil|].
  rewrite Forall_forall in Hx. intros [->|Ha]%elem_of_cons [->|Hb]%elem_of_cons; auto.
Qed.

Section align.
Context `{PlatformLaws}.

(** Grid alignment rounds up by less than one slot, keeps the fraction of
    the second, and lands on a whole second that is a multiple of the slot. *)
Theorem align_up_spec value granularity aligned :
  granularity ≠ 0%N → align_up value granularity = Some aligned →
  let step := (Z.of_N granularity * 60)%Z in
  (unix_timestamp aligned mod step = 0)%Z ∧ nanosecond aligned = nanosecond value ∧
  (value <= aligned < value + step * nanos_per_second)%Z.
Proof.
  intros Hg Ha step. unfold align_up in Ha. fold step in Ha.
  assert (0 < step)%Z as Hstep by (subst step; lia).
  pose proof (Z.mod_pos_bound (unix_timestamp value) step Hstep) as Hr.
  destruct (_ =? 0)%Z eqn:E; bool_to_prop.
  - simplify_eq. unfold nanos_per_second. split_and!; [done|done|lia|nia].
  - apply checked_add_exact in Ha as [Ha _]. unfold unix_timestamp, nanosecond, duration_seconds in *.
    rewrite Ha. rewrite Z.div_add by done. rewrite Z.mod_add by done.
    split_and!; [|done|remember ((value / nanos_per_second) mod step)%Z as r; unfold nanos_per_second; lia..].
    set (ts := (value / nanos_per_second)%Z) in *.
    replace (ts + (step - ts mod step))%Z with ((ts / step + 1) * step)%Z.
    + apply Z.mod_mul. lia.
    + pose proof (Z.div_mod ts step ltac:(lia)). lia.
Qed.
End align.

(** [minutes] counts the whole minutes of an interval and [ceil_duration_minutes]
    rounds up, both saturating at [u32::MAX]. *)
Theorem minute_counters i :
  nonempty i →
  minutes i = N.min u32_max (Z.to_N ((iv_end i - iv_start i) / nanos_per_minute)) ∧
  ((iv_end i - iv_start i) + nanos_per_minute <= i128_max →
   ceil_duration_minutes (iv_end i - iv_start i) =
    N.min u32_max (Z.to_N ((iv_end i - iv_start i + nanos_per_minute - 1) / nanos_per_minute)))%Z.
Proof.
  unfold nonempty, minutes, ceil_duration_minutes, duration_between, whole_minutes. intros Hne.
  assert (∀ x, (0 <= x)%Z → try_u32_or_max x = N.min u32_max (Z.to_N x)) as Htry.
  { intros x Hx. unfold try_u32_or_max. destruct (_ && _) eqn:E.
    - bool_to_prop. lia.
    - apply andb_false_iff in E as [E|E]; bool_to_prop; lia. }
  assert (0 < nanos_per_minute)%Z as Hp by done.
  split.
  - rewrite Z.quot_div_nonneg by lia.
    pose proof (Z.div_pos (iv_end i - iv_start i) nanos_per_minute ltac:(lia) Hp).
    rewrite Z.max_l by done. by apply Htry.
  - intros Hb. rewrite Z.max_l by lia. rewrite Z.min_l by lia.
    replace (iv_end i - iv_start i + (nanos_per_minute - 1))%Z
      with (iv_end i - iv_start i + nanos_per_minute - 1)%Z by lia.
    apply Htry, Z.div_pos; lia.
Qed.

(** ** Witnesses: a morning with one meeting *)

Definition span (start end_ : Z) : Interval := {| iv_start := at_minute start; iv_end := at_minute end_ |}.

Definition meeting : BusyBlock :=
  {| bb_interval := span 540 600; bb_item_id := None; bb_pinned := false; bb_manual_placement := false |}.

Example free_morning : free_segments (span 480 720) [meeting] = [span 480 540; span 600 720].
Proof. vm_compute. reflexivity. Qed.

Lemma free_segments_maximal_witness :
  ∃ s, s ∈ free_segments (span 480 720) [meeting] ∧ contains s (span 610 700) = true.
Proof.
  apply (free_segments_maximal (span 480 720) [meeting] (span 610 700)).
  - unfold nonempty. vm_compute. reflexivity.
  - vm_compute. reflexivity.
  - intros b t Hb. apply list_elem_of_singleton in Hb. subst b. unfold at_instant. simpl.
    unfold nanos_per_minute. lia.
Defined.

Lemma align_up_spec_witness :
  (unix_timestamp (at_minute 485) mod 300 = 0)%Z ∧ nanosecond (at_minute 485) = nanosecond (at_minute 481) ∧
  (at_minute 481 <= at_minute 485 < at_minute 481 + 300 * nanos_per_second)%Z.
Proof.
  apply (@align_up_spec utc_platform utc_platform_laws (at_minute 481) 5 (at_minute 485)); [discriminate|].
  vm_compute. reflexivity.
Defined.

Lemma minute_counters_witness : minutes (span 480 540) = 60%N.
Proof.
  destruct (minute_counters (span 480 540)) as [H _]; [unfold nonempty; vm_compute; reflexivity|].
  etransitivity; [exact H|vm_compute; reflexivity].
Defined.
