(* ===== verification/Order.v ===== *)
(** * Order: in which order the scheduler places items

    The dependency part of crates/dayweave-core/src/scheduler.rs: the children
    of every parent, the dependencies an ordered routine adds between its
    children, the topological order with soft preferences, and the test that a
    hard predecessor is unavailable.  The theorems show that the order is a
    permutation split into placed and cyclic items, that every hard dependency
    comes first, and that an item is reported cyclic only when its hard
    dependencies lead to a cycle. *)
From S2P Require Import Prelude Platform Domain Samples Forest Rollup Lifecycle Plan.

(** [result.entry(parent).or_default().push(child)] *)
Definition push_entry {A} (m : gmap N (list A)) (k : N) (a : A) : gmap N (list A) :=
  <[k := default [] (m !! k) ++ [a]]> m.

Definition child_map (items : list WorkItem) : gmap ItemId (list ItemId) :=
  let result := foldl (λ result item,
    match wi_parent_id item with
    | Some parent => push_entry result parent (wi_id item)
    | None => result
    end) ∅ items in
  sort_by N.leb <$> result.

(** ** Dependencies, with those of ordered routines *)

Definition sibling_key_leb (by_id : gmap ItemId WorkItem) (a b : ItemId) : bool :=
  let key id := match by_id !! id with
                | Some item => default u32_max (wi_sibling_order item)
                | None => u32_max
                end in
  is_le (then_with (key a ?= key b)%N (a ?= b)%N).

Definition routine_dependency (predecessor : ItemId) : Dependency :=
  {| dep_item_id := predecessor; dep_relation := FinishToStart; dep_minimum_lag := 0; dep_strength := Hard |}.

(** [for pair in ordered.windows(2)] *)
Fixpoint push_pairs (result : gmap ItemId (list Dependency)) (ordered : list ItemId)
    : gmap ItemId (list Dependency) :=
  match ordered with
  | first :: (second :: _) as rest =>
      push_pairs (push_entry result second (routine_dependency first)) rest
  | _ => result
  end.

Definition ordered_children (by_id : gmap ItemId WorkItem) (children : gmap ItemId (list ItemId))
    (parent : ItemId) : list ItemId :=
  sort_by (sibling_key_leb by_id) (default [] (children !! parent)).

Definition is_ordered_routine (item : WorkItem) : bool :=
  match wi_kind item with Routine spec => rs_ordered spec | _ => false end.

Definition relation_index (r : DependencyRelation) : N :=
  match r with FinishToStart => 0 | StartToStart => 1 | FinishToFinish => 2 | StartToFinish => 3 end.

Definition dependency_leb (a b : Dependency) : bool :=
  is_le (then_with (dep_item_id a ?= dep_item_id b)%N
    (then_with (relation_index (dep_relation a) ?= relation_index (dep_relation b))%N
       (dep_minimum_lag a ?= dep_minimum_lag b)%N)).

Definition same_dependency (a b : Dependency) : bool :=
  (dep_item_id a =? dep_item_id b)%N && bool_decide (dep_relation a = dep_relation b) &&
  (dep_minimum_lag a =? dep_minimum_lag b)%N && bool_decide (dep_strength a = dep_strength b).

Definition dependencies_with_routine_order (items : list WorkItem) (children : gmap ItemId (list ItemId))
    : gmap ItemId (list Dependency) :=
  let by_id := collect_by_id items in
  let result := foldl (λ m item, <[wi_id item := dependencies (wi_constraints item)]> m) ∅ items in
  let result := foldl (λ result parent,
    if is_ordered_routine parent
    then push_pairs result (ordered_children by_id children (wi_id parent))
    else result) result items in
  (λ deps, dedup_by same_dependency (sort_by dependency_leb deps)) <$> result.

(** ** The scheduling order *)

Definition kind_rank (item : WorkItem) : N :=
  if negb (bool_decide (wi_goal_ids item = ∅)) then 0
  else match wi_kind item with
       | Habit _ | Routine _ | RecurringTask _ => 1
       | Break _ => 2
       | Task | Project | Goal _ => 3
       | CalendarEvent _ => 4
       end.

Definition deadline_key (item : WorkItem) : option (N * OffsetDateTime) :=
  (λ value, ((if is_hard (q_strength value) then 0 else 1)%N, q_value value)) <$>
    latest_finish (wi_constraints item).

Definition schedule_order (l r : WorkItem) : comparison :=
  let deadline_order :=
    match deadline_key l, deadline_key r with
    | Some (s1, t1), Some (s2, t2) => then_with (s1 ?= s2)%N (odt_cmp t1 t2)
    | Some _, None => Lt
    | None, Some _ => Gt
    | None, None => Eq
    end in
  then_with deadline_order
    (then_with (kind_rank l ?= kind_rank r)%N
       (then_with (score (wi_priority r) ?= score (wi_priority l))%N
          (then_with (odt_cmp (wi_created_at l) (wi_created_at r)) (wi_id l ?= wi_id r)%N))).

Section order.
Variable items : gmap ItemId WorkItem.
Variable dependencies : gmap ItemId (list Dependency).

Definition dependencies_of (id : ItemId) : list Dependency := default [] (dependencies !! id).

(** One dependency of the first loop: a hard edge between eligible items. *)
Definition count_edge (eligible_set : gset ItemId) (id : ItemId)
    (st : gmap ItemId N * gmap ItemId (list ItemId)) (dependency : Dependency)
    : gmap ItemId N * gmap ItemId (list ItemId) :=
  let '(indegree, successors) := st in
  if is_hard (dep_strength dependency) && bool_decide (dep_item_id dependency ∈ eligible_set) then
    (<[id := (default 0 (indegree !! id) + 1)%N]> indegree, push_entry successors (dep_item_id dependency) id)
  else st.

Definition count_edges (eligible : list ItemId) : gmap ItemId N * gmap ItemId (list ItemId) :=
  foldl (λ st id, foldl (count_edge (list_to_set eligible) id) st (dependencies_of id))
    (foldl (λ m id, <[id := 0%N]> m) ∅ eligible, ∅) eligible.

Definition order_leb (a b : ItemId) : bool :=
  match items !! a, items !! b with
  | Some a, Some b => is_le (schedule_order a b)
  | _, _ => true
  end.

(** The first ready item none of whose soft predecessors is pending. *)
Definition soft_free (remaining : gset ItemId) (id : ItemId) : bool :=
  forallb (λ dependency, is_hard (dep_strength dependency) ||
    negb (bool_decide (dep_item_id dependency ∈ remaining))) (dependencies_of id).

Definition preferred (remaining : gset ItemId) (ready : list ItemId) : nat :=
  match list_find (λ id, soft_free remaining id = true) ready with
  | Some (i, _) => i
  | None => 0
  end.

Definition release (st : gmap ItemId N * list ItemId) (successor : ItemId) : gmap ItemId N * list ItemId :=
  let '(indegree, ready) := st in
  let degree := (default 0 (indegree !! successor) - 1)%N in
  (<[successor := degree]> indegree, if (degree =? 0)%N then ready ++ [successor] else ready).

(** The [while !ready.is_empty()] loop.  Every iteration removes an item, so
    the number of eligible items bounds the iterations. *)
Fixpoint order_loop (fuel : nat) (successors : gmap ItemId (list ItemId)) (remaining : gset ItemId)
    (indegree : gmap ItemId N) (ready ordered : list ItemId) : list ItemId :=
  match fuel with
  | O => ordered
  | S fuel' =>
      let ready := sort_by order_leb ready in
      let index := preferred remaining ready in
      match ready !! index with
      | None => ordered
      | Some id =>
          let ready := delete index ready in
          let '(indegree, ready) := foldl release (indegree, ready) (default [] (successors !! id)) in
          order_loop fuel' successors (remaining ∖ {[id]}) indegree ready (ordered ++ [id])
      end
  end.

Definition dependency_order (eligible : list ItemId) : list ItemId * list ItemId :=
  let '(indegree, successors) := count_edges eligible in
  let ready := omap (λ id, match indegree !! id with Some 0%N => Some id | _ => None end) (keys indegree) in
  let ordered := order_loop (length eligible) successors (list_to_set eligible) indegree ready [] in
  (ordered, filter (λ id, id ∉ ordered) eligible).
End order.

(** ** Availability of hard predecessors *)

Definition dependency_uses_predecessor_start (relation : DependencyRelation) : bool :=
  match relation with StartToStart | StartToFinish => true | _ => false end.

Definition dependency_uses_successor_finish (relation : DependencyRelation) : bool :=
  match relation with FinishToFinish | StartToFinish => true | _ => false end.

Definition hard_dependency_unavailable (deps : list Dependency) (items : gmap ItemId WorkItem)
    (outcomes : gmap ItemId bool) (blocks : list ScheduleBlock) : bool :=
  existsb (λ dependency,
    if negb (is_hard (dep_strength dependency)) then false
    else
      match items !! dep_item_id dependency with
      | None => true
      | Some item =>
          if satisfies_prerequisite (wi_status item) then false
          else if is_terminal (wi_status item) then true
          else if bool_decide (wi_status item = WorkStatus.Blocked) then true
          else if is_calendar_event (wi_kind item) then false
          else if dependency_uses_predecessor_start (dep_relation dependency) &&
                  existsb (λ block, bool_decide (sb_item_id block = Some (dep_item_id dependency))) blocks
          then false
          else match outcomes !! dep_item_id dependency with
               | None => true
               | Some success => negb success
               end
      end) deps.

(** ** Specification vocabulary *)

(** The hard predecessors of an item that take part in the ordering, with
    multiplicity. *)
Definition hard_predecessors (dependencies : gmap ItemId (list Dependency)) (eligible : list ItemId)
    (id : ItemId) : list ItemId :=
  dep_item_id <$> filter (λ d, is_hard (dep_strength d) = true ∧ dep_item_id d ∈ eligible)
    (dependencies_of dependencies id).

(** [y] follows [x] directly in a list. *)
Fixpoint adjacent (l : list ItemId) (x y : ItemId) : Prop :=
  match l with
  | first :: (second :: _) as rest => (x = first ∧ y = second) ∨ adjacent rest x y
  | _ => False
  end.

(** ** Lemmas on the edge counts *)

(** How often an item occurs in a list. *)
Definition times (x : ItemId) (l : list ItemId) : nat := length (filter (λ y, y = x) l).

Lemma times_app x l k : times x (l ++ k) = times x l + times x k.
Proof. unfold times. by rewrite filter_app, length_app. Qed.

Lemma times_cons x y l : times x (y :: l) = (if decide (y = x) then 1 else 0) + times x l.
Proof. unfold times. rewrite filter_cons. by case_decide. Qed.

Lemma times_replicate x y n : times x (replicate n y) = if decide (y = x) then n else 0.
Proof. induction n as [|n IH]; simpl; [by case_decide|]. rewrite times_cons, IH. by case_decide. Qed.

Lemma times_0 x l : times x l = 0 ↔ x ∉ l.
Proof.
  induction l as [|y l IH]; [split; [by intros _ ?%elem_of_nil|done]|].
  rewrite times_cons, not_elem_of_cons, <- IH. case_decide; split; intros; try lia; naive_solver lia.
Qed.

(** Removing one more listed item from a filtered list. *)
Lemma filter_not_in_snoc (l ordered : list ItemId) id :
  id ∉ ordered →
  length (filter (λ d, d ∉ ordered) l) = length (filter (λ d, d ∉ ordered ++ [id]) l) + times id l.
Proof.
  intros Hid. induction l as [|d l IH]; [done|].
  rewrite times_cons, !filter_cons. destruct (decide (d = id)) as [->|Hne].
  - rewrite decide_True by done. rewrite decide_False by set_solver. simpl. lia.
  - destruct (decide (d ∈ ordered)) as [Hd|Hd].
    + rewrite !decide_False by set_solver. lia.
    + rewrite !decide_True by set_solver. simpl. lia.
Qed.

Section edges.
Variable dependencies : gmap ItemId (list Dependency).
Variable eligible : list ItemId.
Abbreviation hp := (hard_predecessors dependencies eligible).

Lemma count_edge_fold id deps ind succ ind' succ' :
  foldl (count_edge (list_to_set eligible) id) (ind, succ) deps = (ind', succ') →
  let l := dep_item_id <$> filter (λ d, is_hard (dep_strength d) = true ∧ dep_item_id d ∈ eligible) deps in
  (∀ x, default 0%N (ind' !! x) = (default 0 (ind !! x) + if decide (x = id) then N.of_nat (length l) else 0)%N) ∧
  (is_Some (ind !! id) → dom ind' = dom ind) ∧
  ∀ d, default [] (succ' !! d) = default [] (succ !! d) ++ replicate (times d l) id.
Proof.
  revert ind succ. induction deps as [|a deps IH]; intros ind succ Hf; simpl in Hf.
  - simplify_eq/=. split_and!; [intros x; case_decide; lia|done|]. intros d. by rewrite app_nil_r.
  - rewrite filter_cons. destruct (is_hard (dep_strength a)) eqn:Eh; simpl in Hf;
      [case_bool_decide as Hin; rewrite elem_of_list_to_set in Hin|].
    + rewrite decide_True by done. rewrite fmap_cons. apply IH in Hf as (H1 & H2 & H3). clear IH. split_and!.
      * intros x. rewrite H1, lookup_insert. destruct (decide (id = x)) as [->|Hx].
        -- rewrite !decide_True by done. simpl. lia.
        -- rewrite !decide_False by done. lia.
      * intros Hs. rewrite H2 by (rewrite lookup_insert_eq; eauto). rewrite dom_insert_L.
        apply elem_of_dom in Hs. set_solver.
      * intros d. rewrite H3, times_cons. unfold push_entry. rewrite lookup_insert. case_decide as Hd; [subst|done].
        simpl. by rewrite <- app_assoc.
    + rewrite decide_False by naive_solver. by apply IH.
    + rewrite decide_False by naive_solver. by apply IH.
Qed.

Lemma initial_degrees l x : (foldl (λ m id, <[id := 0%N]> m) (∅ : gmap ItemId N) l) !! x =
  if decide (x ∈ l) then Some 0%N else None.
Proof.
  induction l as [|a l IH] using rev_ind; [by rewrite decide_False by set_solver|].
  rewrite foldl_app. simpl. rewrite lookup_insert, IH. repeat case_decide; set_solver.
Qed.

Lemma count_edges_spec ind succ :
  NoDup eligible → count_edges dependencies eligible = (ind, succ) →
  (∀ id, ind !! id = if decide (id ∈ eligible) then Some (N.of_nat (length (hp id))) else None) ∧
  (∀ d s, times s (default [] (succ !! d)) = if decide (s ∈ eligible) then times d (hp s) else 0).
Proof.
  intros Hnd. unfold count_edges.
  enough (∀ q p ind0 succ0, eligible = p ++ q →
    (∀ x, default 0%N (ind0 !! x) = if decide (x ∈ p) then N.of_nat (length (hp x)) else 0%N) →
    (∀ x, is_Some (ind0 !! x) ↔ x ∈ eligible) →
    (∀ d s, times s (default [] (succ0 !! d)) = if decide (s ∈ p) then times d (hp s) else 0) →
    foldl (λ st id, foldl (count_edge (list_to_set eligible) id) st (dependencies_of dependencies id))
      (ind0, succ0) q = (ind, succ) →
    (∀ x, default 0%N (ind !! x) = if decide (x ∈ eligible) then N.of_nat (length (hp x)) else 0%N) ∧
    (∀ x, is_Some (ind !! x) ↔ x ∈ eligible) ∧
    (∀ d s, times s (default [] (succ !! d)) = if decide (s ∈ eligible) then times d (hp s) else 0)) as Hgo.
  { intros Hf. destruct (λ H1 H2 H3, Hgo eligible [] _ _ eq_refl H1 H2 H3 Hf) as (H1 & H2 & H3).
    - intros x. rewrite initial_degrees. repeat case_decide; simpl; set_solver.
    - intros x. rewrite initial_degrees. case_decide; split; try done.
    - intros d s. rewrite lookup_empty. case_decide; set_solver.
    - split; [|done]. intros x. specialize (H1 x). specialize (H2 x). case_decide as Hx.
      + apply H2 in Hx as [n Hn]. rewrite Hn in *. simpl in H1. by subst.
      + apply eq_None_not_Some. by rewrite H2. }
  induction q as [|id q IH]; intros p ind0 succ0 Hsplit H1 H2 H3 Hf; simpl in Hf.
  - simplify_eq. rewrite app_nil_r in *. by subst.
  - destruct (foldl (count_edge (list_to_set eligible) id) (ind0, succ0) (dependencies_of dependencies id))
      as [ind1 succ1] eqn:Ef.
    apply count_edge_fold in Ef as (G1 & G2 & G3). fold (hp id) in G1, G3.
    assert (id ∈ eligible) as Hide by (rewrite Hsplit; set_solver).
    assert (id ∉ p) as Hidp.
    { rewrite Hsplit in Hnd. apply NoDup_app in Hnd as (_ & Hd & _). intros Hp. apply (Hd _ Hp). left. }
    apply (IH (p ++ [id]) ind1 succ1); [by rewrite <- app_assoc|..|done].
    + intros x. rewrite G1, H1. repeat case_decide; rewrite ?elem_of_snoc_iff in *; subst; try lia; naive_solver.
    + intros x. rewrite <- H2, <- !elem_of_dom, G2; [done|]. by apply H2.
    + intros d s. rewrite G3, times_app, H3, times_replicate.
      repeat case_decide; rewrite ?elem_of_snoc_iff in *; subst; try lia; naive_solver.
Qed.
End edges.

(** ** The loop invariant *)

(** Releasing a list of successors lowers each degree by its occurrences and
    makes ready exactly those that reach zero, once each. *)
Lemma release_fold l (ind : gmap ItemId N) ready ind' ready' :
  (∀ s, times s l ≤ N.to_nat (default 0%N (ind !! s))) →
  foldl release (ind, ready) l = (ind', ready') →
  (∀ s, default 0 (ind' !! s) = default 0 (ind !! s) - N.of_nat (times s l))%N ∧
  ∃ new, ready' = ready ++ new ∧ NoDup new ∧
    ∀ s, s ∈ new ↔ 0 < times s l ∧ N.to_nat (default 0%N (ind !! s)) = times s l.
Proof.
  revert ind ready. induction l as [|a l IH]; intros ind ready Hle Hf; simpl in Hf.
  - simplify_eq. split; [intros s; unfold times; simpl; lia|]. exists []. rewrite app_nil_r.
    split_and!; [done|constructor|]. intros s. unfold times. simpl. rewrite elem_of_nil. lia.
  - assert (0 < N.to_nat (default 0%N (ind !! a))) as Ha.
    { specialize (Hle a). rewrite times_cons, decide_True in Hle by done. lia. }
    apply IH in Hf as (H1 & new & -> & Hnd & Hnew).
    + clear IH. split.
      * intros s. rewrite H1, lookup_insert, times_cons. repeat case_decide; subst; simpl; lia.
      * set (d := (default 0 (ind !! a) - 1)%N) in *.
        exists ((if (d =? 0)%N then [a] else []) ++ new). destruct (d =? 0)%N eqn:Ed; bool_to_prop.
        -- rewrite <- app_assoc. split_and!; [done|constructor; [|done]|].
           ++ simpl. rewrite Hnew, lookup_insert_eq. simpl. lia.
           ++ intros s. simpl. rewrite elem_of_cons, Hnew, times_cons, lookup_insert.
              specialize (Hle s). rewrite times_cons in Hle.
              repeat case_decide; subst; simpl in *; subst d; split; try lia; intuition (congruence || lia).
        -- split_and!; [done|done|]. intros s. simpl. rewrite Hnew, times_cons, lookup_insert.
           specialize (Hle s). rewrite times_cons in Hle.
           repeat case_decide; subst; simpl in *; subst d; try lia; done.
    + intros s. specialize (Hle s). rewrite times_cons in Hle. rewrite lookup_insert.
      repeat case_decide; subst; simpl; lia.
Qed.

(** The preferred position is a position. *)
Lemma preferred_lt dependencies remaining ready :
  ready ≠ [] → preferred dependencies remaining ready < length ready.
Proof.
  intros Hne. unfold preferred.
  destruct (list_find (λ id, soft_free dependencies remaining id = true) ready) as [[i z]|] eqn:El.
  - apply list_find_Some in El as (Hi & _). by apply lookup_lt_Some in Hi.
  - destruct ready; [done|simpl; lia].
Qed.

Section loop.
Variable items : gmap ItemId WorkItem.
Variable dependencies : gmap ItemId (list Dependency).
Variable eligible : list ItemId.
Hypothesis Hnodup : NoDup eligible.
Abbreviation hp := (hard_predecessors dependencies eligible).

Record order_inv (indegree : gmap ItemId N) (ready ordered : list ItemId) : Prop := {
  oi_nodup : NoDup ordered;
  oi_eligible x : x ∈ ordered → x ∈ eligible;
  oi_degree x : default 0%N (indegree !! x) =
    (if decide (x ∈ eligible) then N.of_nat (length (filter (λ d, d ∉ ordered) (hp x))) else 0%N);
  oi_ready_nodup : NoDup ready;
  oi_ready x : x ∈ ready ↔ x ∈ eligible ∧ (x ∉ ordered) ∧ filter (λ d, d ∉ ordered) (hp x) = [];
  oi_hard p x q d : ordered = p ++ x :: q → d ∈ hp x → d ∈ p
}.

Lemma order_inv_perm indegree ready ready' ordered :
  ready ≡ₚ ready' → order_inv indegree ready ordered → order_inv indegree ready' ordered.
Proof.
  intros Hp [H1 H2 H3 H4 H5 H6]. split; try done; [by rewrite <- Hp|]. intros x. by rewrite <- Hp.
Qed.

(** Nothing already ordered, and not the item itself, waits for a ready item. *)
Lemma ready_released indegree ready ordered id s :
  order_inv indegree ready ordered → id ∈ ready → s ∈ ordered ++ [id] → times id (hp s) = 0.
Proof.
  intros Hinv Hid Hs. apply times_0. intros Hin.
  apply (oi_ready _ _ _ Hinv) in Hid as (He & Hno & Hnil).
  apply elem_of_snoc_iff in Hs as [Hs| ->].
  - apply list_elem_of_split in Hs as (p & q & ->). pose proof (oi_hard _ _ _ Hinv p s q id eq_refl Hin). set_solver.
  - assert (id ∈ filter (λ d, d ∉ ordered) (hp id)) as Hf by (by apply list_elem_of_filter).
    rewrite Hnil in Hf. by apply elem_of_nil in Hf.
Qed.

Lemma order_step (succ : gmap ItemId (list ItemId)) indegree indegree' l1 l2 ready' ordered id :
  (∀ d s, times s (default [] (succ !! d)) = if decide (s ∈ eligible) then times d (hp s) else 0) →
  order_inv indegree (l1 ++ id :: l2) ordered →
  foldl release (indegree, l1 ++ l2) (default [] (succ !! id)) = (indegree', ready') →
  order_inv indegree' ready' (ordered ++ [id]).
Proof using Hnodup.
  intros Hsucc Hinv Hf.
  assert (id ∈ l1 ++ id :: l2) as Hidr by set_solver.
  pose proof (proj1 (oi_ready _ _ _ Hinv id) Hidr) as (Hide & Hidno & Hidnil).
  pose proof (λ s, ready_released _ _ _ id s Hinv Hidr) as Hrel.
  assert (Hcount : ∀ s, s ∈ eligible → length (filter (λ d, d ∉ ordered) (hp s)) =
    length (filter (λ d, d ∉ ordered ++ [id]) (hp s)) + times id (hp s)) by (intros; by apply filter_not_in_snoc).
  apply release_fold in Hf as (Hdeg & new & -> & Hnewnd & Hnew).
  2:{ intros s. rewrite Hsucc, (oi_degree _ _ _ Hinv). case_decide as Hs; [|lia]. specialize (Hcount s Hs). lia. }
  assert (Hnewin : ∀ s, s ∈ new ↔ s ∈ eligible ∧ (s ∉ ordered ++ [id]) ∧
    filter (λ d, d ∉ ordered) (hp s) ≠ [] ∧ filter (λ d, d ∉ ordered ++ [id]) (hp s) = []).
  { intros s. rewrite Hnew, Hsucc, (oi_degree _ _ _ Hinv). case_decide as Hs; [|split; [lia|naive_solver]].
    specialize (Hcount s Hs). rewrite Nat2N.id. split.
    - intros [Hpos Heq]. split_and!; [done|intros Hin; rewrite (Hrel s Hin) in Hpos; lia|..].
      + intros Hnil. rewrite Hnil in Heq. simpl in Heq. lia.
      + apply length_zero_iff_nil. lia.
    - intros (_ & Hno & Hne & Hnil). rewrite Hnil in Hcount. simpl in Hcount.
      destruct (filter (λ d, d ∉ ordered) (hp s)); [done|]. simpl in *. lia. }
  pose proof (oi_ready_nodup _ _ _ Hinv) as Hrnd. rewrite <- Permutation_middle in Hrnd.
  apply NoDup_cons in Hrnd as [Hidl Hlnd]. split.
  - apply NoDup_snoc; [apply Hinv|done].
  - intros x [Hx| ->]%elem_of_snoc_iff; [by apply Hinv|done].
  - intros x. rewrite Hdeg, Hsucc, (oi_degree _ _ _ Hinv). case_decide as Hx; [|lia].
    specialize (Hcount x Hx). lia.
  - apply NoDup_app. split_and!; [done| |done]. intros x Hx Hxn.
    apply Hnewin in Hxn as (_ & _ & Hne & _). apply Hne.
    apply (oi_ready _ _ _ Hinv x). set_solver.
  - intros x. rewrite elem_of_app, Hnewin.
    assert (x ∈ l1 ++ l2 ↔ x ≠ id ∧ x ∈ l1 ++ id :: l2) as -> by set_solver.
    rewrite (oi_ready _ _ _ Hinv), elem_of_snoc_iff.
    assert (filter (λ d, d ∉ ordered) (hp x) = [] → filter (λ d, d ∉ ordered ++ [id]) (hp x) = []) as Hmono.
    { intros Hnil. destruct (filter (λ d, d ∉ ordered ++ [id]) (hp x)) as [|d l] eqn:El; [done|]. exfalso.
      assert (d ∈ filter (λ d, d ∉ ordered ++ [id]) (hp x)) as [Hd Hdh]%list_elem_of_filter by (rewrite El; left).
      apply (filter_nil_not_elem_of _ _ d Hnil); [set_solver|done]. }
    destruct (decide (filter (λ d, d ∉ ordered) (hp x) = [])); naive_solver.
  - intros p x q d Heq Hd. destruct (decide (q = [])) as [->|Hq].
    + apply app_inj_tail in Heq as [<- <-]. destruct (decide (d ∈ ordered)) as [|Hno]; [done|].
      assert (d ∈ filter (λ d, d ∉ ordered) (hp id)) as Hin by (by apply list_elem_of_filter).
      rewrite Hidnil in Hin. by apply elem_of_nil in Hin.
    + destruct (exists_last Hq) as (q' & z & ->). rewrite app_comm_cons, app_assoc in Heq.
      apply app_inj_tail in Heq as [-> ->]. eapply (oi_hard _ _ _ Hinv); done.
Qed.

Lemma full_order_no_ready indegree ready ordered :
  order_inv indegree ready ordered → length eligible ≤ length ordered → ready = [].
Proof using Hnodup.
  intros Hinv Hlen. assert (eligible ⊆ ordered) as Hsub.
  { assert (ordered ≡ₚ eligible) as Hp; [|intros x Hx; by rewrite Hp].
    apply submseteq_length_Permutation; [|done].
    apply NoDup_submseteq; [apply Hinv|intros x; apply Hinv]. }
  destruct ready as [|x ready]; [done|].
  destruct (proj1 (oi_ready _ _ _ Hinv x) ltac:(left)) as (He & Hno & _). set_solver.
Qed.

Lemma order_loop_spec (succ : gmap ItemId (list ItemId)) fuel remaining indegree ready ordered :
  (∀ d s, times s (default [] (succ !! d)) = if decide (s ∈ eligible) then times d (hp s) else 0) →
  order_inv indegree ready ordered → length eligible ≤ fuel + length ordered →
  ∃ indegree', order_inv indegree' [] (order_loop items dependencies fuel succ remaining indegree ready ordered).
Proof using Hnodup.
  intros Hsucc. revert remaining indegree ready ordered.
  induction fuel as [|fuel IH]; intros remaining indegree ready ordered Hinv Hlen; simpl.
  - exists indegree. by rewrite (full_order_no_ready _ _ _ Hinv Hlen) in Hinv.
  - pose proof (order_inv_perm _ _ _ _ (symmetry (sort_by_perm (order_leb items) ready)) Hinv) as Hinv'.
    set (sorted := sort_by (order_leb items) ready) in *.
    destruct (sorted !! preferred dependencies remaining sorted) as [id|] eqn:Eid.
    + destruct (foldl release _ _) as [indegree' ready'] eqn:Ef.
      pose proof (take_drop_middle _ _ _ Eid) as Hsplit.
      rewrite delete_take_drop in Ef. rewrite <- Hsplit in Hinv'.
      apply (IH _ indegree' ready' (ordered ++ [id])).
      * eapply order_step; [exact Hsucc|exact Hinv'|exact Ef].
      * rewrite length_app. simpl. lia.
    + exists indegree. assert (sorted = []) as ->; [|done].
      apply lookup_ge_None in Eid. destruct (decide (sorted = [])) as [|Hne]; [done|].
      pose proof (preferred_lt dependencies remaining sorted Hne). lia.
Qed.

Lemma dependency_order_inv ordered cyclic :
  dependency_order items dependencies eligible = (ordered, cyclic) →
  (∃ indegree, order_inv indegree [] ordered) ∧ cyclic = filter (λ id, id ∉ ordered) eligible.
Proof using Hnodup.
  unfold dependency_order. destruct (count_edges dependencies eligible) as [ind succ] eqn:Ec.
  apply count_edges_spec in Ec as [Hind Hsucc]; [|done]. intros ?; simplify_eq. split; [|done].
  apply order_loop_spec; [done| |simpl; lia].
  assert (∀ l : list ItemId, filter (λ d, d ∉ []) l = l) as Hall.
  { intros l. apply filter_all. intros x _. apply not_elem_of_nil. }
  split; [constructor|set_solver|..].
  - intros x. rewrite Hind, Hall. by case_decide.
  - assert (∀ l : list ItemId, NoDup l → NoDup (omap (λ id, match ind !! id with Some 0%N => Some id | _ => None end) l)) as Hnd.
    { induction 1 as [|k l Hk Hl IH]; simpl; [constructor|].
      destruct (ind !! k) as [[|]|]; simpl; [|done..]. constructor; [|done].
      rewrite list_elem_of_omap. intros (k' & Hk' & Heq). destruct (ind !! k') as [[|]|]; by simplify_eq. }
    apply Hnd, NoDup_keys.
  - intros x. rewrite Hall, list_elem_of_omap. split.
    + intros (k & _ & Hk). rewrite Hind in Hk. case_decide as He; [|done].
      destruct (N.of_nat (length (hp k))) eqn:El; [|done]. simplify_eq. split; [done|]. split; [set_solver|].
      apply length_zero_iff_nil. lia.
    + intros (He & _ & Hnil). exists x. rewrite elem_of_keys, Hind, decide_True by done.
      rewrite Hnil. split; [by eexists|done].
  - intros [] x q d; discriminate.
Qed.
End loop.

(** ** Lemmas on routine order *)

Lemma same_dependency_eq a b : same_dependency a b = true → a = b.
Proof.
  unfold same_dependency. intros H. bool_to_prop. destruct a, b; simpl in *. congruence.
Qed.

Lemma push_pairs_elem m l k d :
  d ∈ default [] (push_pairs m l !! k) ↔
  d ∈ default [] (m !! k) ∨ ∃ a, adjacent l a k ∧ d = routine_dependency a.
Proof.
  revert m. induction l as [|x [|y l] IH]; intros m; [simpl; naive_solver..|].
  change (push_pairs m (x :: y :: l)) with (push_pairs (push_entry m y (routine_dependency x)) (y :: l)).
  change (adjacent (x :: y :: l)) with (λ a k, (a = x ∧ k = y) ∨ adjacent (y :: l) a k).
  rewrite IH. unfold push_entry. rewrite lookup_insert. case_decide as Hk; [subst k|naive_solver].
  cbn [from_option id]. rewrite elem_of_app, list_elem_of_singleton. naive_solver.
Qed.

Lemma child_map_elem items p c :
  c ∈ default [] (child_map items !! p) ↔ ∃ item, item ∈ items ∧ wi_parent_id item = Some p ∧ wi_id item = c.
Proof.
  unfold child_map. rewrite lookup_fmap.
  assert (c ∈ default [] (sort_by N.leb <$> foldl (λ result item,
      match wi_parent_id item with Some parent => push_entry result parent (wi_id item) | None => result end)
      ∅ items !! p) ↔ c ∈ default [] (foldl (λ result item,
      match wi_parent_id item with Some parent => push_entry result parent (wi_id item) | None => result end)
      (∅ : gmap ItemId (list ItemId)) items !! p)) as ->.
  { destruct (foldl _ _ _ !! p); simpl; [apply elem_of_sort_by|done]. }
  induction items as [|a l IH] using rev_ind; simpl.
  - rewrite lookup_empty. simpl. set_solver.
  - rewrite foldl_app. simpl. setoid_rewrite elem_of_app. setoid_rewrite list_elem_of_singleton.
    destruct (wi_parent_id a) as [q|] eqn:Eq; [|rewrite IH; naive_solver].
    unfold push_entry. rewrite lookup_insert. case_decide as Hk; [subst q|rewrite IH; naive_solver].
    simpl. rewrite elem_of_app, list_elem_of_singleton, IH. naive_solver.
Qed.

Lemma routine_fold_elem by_id children l m k d :
  d ∈ default [] (foldl (λ result parent, if is_ordered_routine parent
      then push_pairs result (ordered_children by_id children (wi_id parent)) else result) m l !! k) ↔
  d ∈ default [] (m !! k) ∨ ∃ parent a, parent ∈ l ∧ is_ordered_routine parent = true ∧
    adjacent (ordered_children by_id children (wi_id parent)) a k ∧ d = routine_dependency a.
Proof.
  revert m. induction l as [|p l IH]; intros m; simpl; [set_solver|].
  rewrite IH. setoid_rewrite elem_of_cons. destruct (is_ordered_routine p) eqn:Ep.
  - rewrite push_pairs_elem. naive_solver.
  - split; [naive_solver|]. intros [?|(q & a & [->|Hq] & Hr & ?)]; [by left|congruence|right; eauto 6].
Qed.

Lemma own_dependencies_elem items k d :
  NoDup (wi_id <$> items) →
  d ∈ default [] (foldl (λ (m : gmap ItemId (list Dependency)) item,
    <[wi_id item := dependencies (wi_constraints item)]> m) ∅ items !! k) ↔
  ∃ item, item ∈ items ∧ wi_id item = k ∧ d ∈ dependencies (wi_constraints item).
Proof.
  induction items as [|a l IH] using rev_ind; intros Hnd; simpl; [rewrite lookup_empty; set_solver|].
  rewrite fmap_app in Hnd. apply NoDup_app in Hnd as (Hl & Hd & _).
  rewrite foldl_app. simpl. rewrite lookup_insert. setoid_rewrite elem_of_app. setoid_rewrite list_elem_of_singleton.
  case_decide as Hk; [subst k; simpl|rewrite IH by done; naive_solver].
  split; [eauto|]. intros (b & [Hb| ->] & Hid & Hdd); [|done].
  destruct (Hd (wi_id b)); [apply list_elem_of_fmap; eauto|]. rewrite Hid. simpl. left.
Qed.

(** What the order guarantees about hard dependencies. *)
Lemma dependency_order_spec items dependencies eligible ordered cyclic :
  NoDup eligible → dependency_order items dependencies eligible = (ordered, cyclic) →
  ordered ++ cyclic ≡ₚ eligible ∧
  ∀ p x q d, ordered = p ++ x :: q → d ∈ dependencies_of dependencies x →
    is_hard (dep_strength d) = true → dep_item_id d ∈ eligible → dep_item_id d ∈ p.
Proof.
  intros Hnd Ho. apply dependency_order_inv in Ho as [[indegree Hinv] ->]; [|done]. split.
  - apply NoDup_Permutation; [apply NoDup_app; split_and!|done|].
    + apply Hinv.
    + by intros x Hx [? _]%list_elem_of_filter.
    + by apply NoDup_filter.
    + intros x. rewrite elem_of_app, list_elem_of_filter. pose proof (oi_eligible _ _ _ _ _ Hinv x).
      destruct (decide (x ∈ ordered)); naive_solver.
  - intros p x q d Heq Hd Hh He. apply (oi_hard _ _ _ _ _ Hinv p x q _ Heq).
    apply list_elem_of_fmap. exists d. split; [done|]. by apply list_elem_of_filter.
Qed.

(** ** Theorems *)

(** The order places every eligible item exactly once or reports it
    cyclic, and every item comes after each of its hard predecessors that
    takes part. *)
Theorem dependency_order_respects_hard items dependencies eligible ordered cyclic :
  NoDup eligible → dependency_order items dependencies eligible = (ordered, cyclic) →
  ordered ++ cyclic ≡ₚ eligible ∧
  ∀ p x q d, ordered = p ++ x :: q → d ∈ dependencies_of dependencies x →
    is_hard (dep_strength d) = true → dep_item_id d ∈ eligible → dep_item_id d ∈ p.
Proof. apply dependency_order_spec. Qed.

(** [y] is a hard predecessor of [x] that takes part in the ordering. *)
Definition hard_edge (dependencies : gmap ItemId (list Dependency)) (eligible : list ItemId)
    (x y : ItemId) : Prop := y ∈ hard_predecessors dependencies eligible x.

(** In a finite set closed under a step, every element leads to a cycle. *)
Lemma finite_cycle (R : ItemId → ItemId → Prop) (A : gset ItemId) x :
  (∀ y, y ∈ A → ∃ z, z ∈ A ∧ R y z) → x ∈ A → ∃ z, rtc R x z ∧ tc R z z.
Proof.
  intros Hstep Hx.
  assert (∀ n y, y ∈ A → ∃ l, length l = S n ∧ (∀ z, z ∈ l → z ∈ A ∧ rtc R y z) ∧
    ∀ i j u v, i < j → l !! i = Some u → l !! j = Some v → tc R u v) as Hchain.
  { induction n as [|n IH]; intros y Hy.
    - exists [y]. split_and!; [done|intros z ->%list_elem_of_singleton; split; [done|apply rtc_refl]|].
      intros i j u v Hij Hu Hv. apply lookup_lt_Some in Hv. simpl in Hv. lia.
    - destruct (Hstep y Hy) as (z & Hz & Hyz). destruct (IH z Hz) as (l & Hlen & Hl & Htc).
      exists (y :: l). split_and!; [simpl; lia|intros w [->|Hw]%elem_of_cons|].
      + split; [done|apply rtc_refl].
      + destruct (Hl w Hw). split; [done|]. by eapply rtc_l.
      + intros [|i] [|j] u v Hij Hu Hv; simpl in *; try lia.
        * simplify_eq. destruct (Hl v) as [_ Hr]; [by eapply list_elem_of_lookup_2|].
          by eapply tc_rtc_r; [apply tc_once|].
        * eapply (Htc i j); [lia|done|done]. }
  destruct (Hchain (size A) x Hx) as (l & Hlen & Hl & Htc).
  destruct (pigeonhole_dup A l) as (i & j & z & Hij & Hi & Hj); [intros; by apply Hl|lia|].
  exists z. split; [apply Hl; by eapply list_elem_of_lookup_2|by eapply Htc].
Qed.

(** An eligible item is reported cyclic exactly when its hard
    dependencies lead to a cycle of hard dependencies. *)
Theorem cyclic_iff_leads_to_cycle items dependencies eligible ordered cyclic :
  NoDup eligible → dependency_order items dependencies eligible = (ordered, cyclic) →
  ∀ x, x ∈ cyclic ↔ x ∈ eligible ∧
    ∃ z, rtc (hard_edge dependencies eligible) x z ∧ tc (hard_edge dependencies eligible) z z.
Proof.
  intros Hnd Ho x. apply dependency_order_inv in Ho as [[indegree Hinv] ->]; [|done].
  rewrite list_elem_of_filter. split.
  - intros [Hno He]. split; [done|].
    apply finite_cycle with (A := list_to_set (filter (λ id, id ∉ ordered) eligible)).
    + intros y [Hy Hye]%elem_of_list_to_set%list_elem_of_filter.
      destruct (filter (λ d, d ∉ ordered) (hard_predecessors dependencies eligible y)) as [|d l] eqn:El.
      { pose proof (proj2 (oi_ready _ _ _ _ _ Hinv y) (conj Hye (conj Hy El))) as Hin. by apply elem_of_nil in Hin. }
      assert (d ∈ filter (λ d, d ∉ ordered) (hard_predecessors dependencies eligible y)) as [Hd Hdh]%list_elem_of_filter
        by (rewrite El; left).
      exists d. split; [|done]. apply elem_of_list_to_set, list_elem_of_filter. split; [done|].
      apply list_elem_of_fmap in Hdh as (e & -> & He'). by apply list_elem_of_filter in He' as [[_ ?] _].
    + by apply elem_of_list_to_set, list_elem_of_filter.
  - intros [He (z & Hxz & Hzz)]. split; [|done]. intros Hx.
    assert (∀ n y, ordered !! n = Some y → ∀ w, hard_edge dependencies eligible y w →
      ∃ m, m < n ∧ ordered !! m = Some w) as Hdown.
    { intros n y Hy w Hw. apply list_elem_of_split_length in Hy as (l1 & l2 & Heq & ->).
      pose proof (oi_hard _ _ _ _ _ Hinv _ _ _ _ Heq Hw) as Hin. apply list_elem_of_lookup in Hin as [m Hm].
      exists m. split; [by eapply lookup_lt_Some|]. rewrite Heq. by apply lookup_app_l_Some. }
    assert (∀ y w, tc (hard_edge dependencies eligible) y w → ∀ n, ordered !! n = Some y →
      ∃ m, m < n ∧ ordered !! m = Some w) as Htc.
    { induction 1 as [y w Hyw|y w v Hyw _ IH]; intros n Hn; [by eapply Hdown|].
      destruct (Hdown n y Hn w Hyw) as (m & Hm & Hw). destruct (IH m Hw) as (k & Hk & Hv). exists k. split; [lia|done]. }
    apply list_elem_of_lookup in Hx as [n Hn].
    assert (∃ k, ordered !! k = Some z) as [k Hk].
    { apply rtc_tc in Hxz as [->|Hxz]; [eauto|]. destruct (Htc _ _ Hxz n Hn) as (m & _ & Hm). eauto. }
    destruct (Htc _ _ Hzz k Hk) as (m & Hm & Hmz).
    assert (m = k); [|lia]. eapply NoDup_lookup; [exact (oi_nodup _ _ _ _ _ Hinv)|done|done].
Qed.

(** The scheduling order is a lawful comparator, and two items compare
    equal only when they have the same identifier: sorting by it is
    deterministic. *)
Theorem schedule_order_lawful : lawful schedule_order ∧
  ∀ l r, schedule_order l r = Eq → wi_id l = wi_id r.
Proof.
  split.
  - unfold schedule_order.
    repeat apply (lawful_then (λ l r, _) (λ l r, _)).
    + split.
      * intros a b. destruct (deadline_key a) as [[s1 t1]|], (deadline_key b) as [[s2 t2]|]; simpl; try done.
        unfold odt_cmp. rewrite (N.compare_antisym s1 s2), (Z.compare_antisym t1 t2). by destruct (s1 ?= s2)%N.
      * intros a b c.
        destruct (deadline_key a) as [p|], (deadline_key b) as [q|], (deadline_key c) as [r|]; simpl;
          try (repeat case_match; done).
        pose proof (lawful_then (λ x y : N * OffsetDateTime, (x.1 ?= y.1)%N) (λ x y, odt_cmp x.2 y.2)) as Hl.
        destruct p, q, r. apply (law_trans _ (Hl ltac:(apply (lawful_contramap fst), lawful_N)
          ltac:(unfold odt_cmp; apply (lawful_contramap (λ x : N * OffsetDateTime, unix_nanos x.2)), lawful_Z))
          (n, o) (n0, o0) (n1, o1)).
    + apply (lawful_contramap kind_rank), lawful_N.
    + apply (lawful_flip (λ l r, (score (wi_priority l) ?= score (wi_priority r))%N)).
      apply (lawful_contramap (λ i, score (wi_priority i))), lawful_N.
    + unfold odt_cmp. apply (lawful_contramap (λ i, unix_nanos (wi_created_at i))), lawful_Z.
    + apply (lawful_contramap wi_id), lawful_N.
  - intros l r. unfold schedule_order, then_with. repeat case_match; try done; apply N.compare_eq_iff.
Qed.

(** The dependencies the scheduler uses are the declared ones and, for each
    ordered routine, a hard finish-to-start edge from every child to the next
    one by sibling order; nothing is lost or invented. *)
Theorem routine_order_dependencies items k d :
  NoDup (wi_id <$> items) →
  d ∈ dependencies_of (dependencies_with_routine_order items (child_map items)) k ↔
  (∃ item, item ∈ items ∧ wi_id item = k ∧ d ∈ dependencies (wi_constraints item)) ∨
  (∃ parent a, parent ∈ items ∧ is_ordered_routine parent = true ∧
    adjacent (ordered_children (collect_by_id items) (child_map items) (wi_id parent)) a k ∧
    d = routine_dependency a).
Proof.
  intros Hnd. unfold dependencies_of, dependencies_with_routine_order. rewrite lookup_fmap.
  rewrite <- own_dependencies_elem by done. rewrite <- routine_fold_elem.
  destruct (foldl _ _ items !! k); simpl; [|done].
  rewrite elem_of_dedup_by by apply same_dependency_eq. by rewrite elem_of_sort_by.
Qed.

(** ** Witnesses: two tasks, the second after the first, and a pair in a cycle *)

Definition needs (id : ItemId) : Dependency := routine_dependency id.

Definition sample_edges : gmap ItemId (list Dependency) :=
  {[ 2%N := [needs 1]; 3%N := [needs 4]; 4%N := [needs 3] ]}.

Definition sample_index : gmap ItemId WorkItem :=
  collect_by_id [sample_item 1 Task None 30; sample_item 2 Task None 30;
                 sample_item 3 Task None 30; sample_item 4 Task None 30].

Lemma sample_order : dependency_order sample_index sample_edges [1; 2; 3; 4]%N = ([1; 2], [3; 4])%N.
Proof. vm_compute. reflexivity. Qed.

Lemma sample_nodup : NoDup [1; 2; 3; 4]%N.
Proof. apply (bool_decide_unpack _). vm_compute. exact I. Qed.

Lemma dependency_order_respects_hard_witness : 1%N ∈ [1%N].
Proof.
  destruct (dependency_order_respects_hard sample_index sample_edges [1; 2; 3; 4]%N [1; 2]%N [3; 4]%N
    sample_nodup sample_order) as [_ H].
  apply (H [1%N] 2%N [] (needs 1)); [reflexivity|left|reflexivity|left].
Defined.

Lemma cyclic_iff_leads_to_cycle_witness :
  ∃ z, rtc (hard_edge sample_edges [1; 2; 3; 4]%N) 3%N z ∧ tc (hard_edge sample_edges [1; 2; 3; 4]%N) z z.
Proof.
  apply (cyclic_iff_leads_to_cycle sample_index sample_edges [1; 2; 3; 4]%N [1; 2]%N [3; 4]%N
    sample_nodup sample_order 3%N). left.
Defined.

Definition sample_routine : list WorkItem :=
  [sample_item 1 (Routine {| rs_ordered := true; rs_recurrence := None |}) None 0;
   sample_item 2 Task (Some 1%N) 10; sample_item 3 Task (Some 1%N) 10].

Lemma routine_order_dependencies_witness :
  routine_dependency 2 ∈ dependencies_of (dependencies_with_routine_order sample_routine (child_map sample_routine)) 3.
Proof.
  apply (routine_order_dependencies sample_routine 3 (routine_dependency 2)).
  - apply (bool_decide_unpack _). vm_compute. exact I.
  - right. exists (sample_item 1 (Routine {| rs_ordered := true; rs_recurrence := None |}) None 0), 2%N.
    split; [left|]. split; [reflexivity|]. split; [|reflexivity]. vm_compute. left. split; reflexivity.
Defined.
