(* ===== verification/Rrule.v ===== *)
(** * Rrule: custom recurrence rules

    crates/dayweave-core/src/custom_recurrence.rs: the strict parser of RRULE
    text, its canonical spelling and the bounded expansion into dates.  Text is
    its bytes; dates come from the crate [time] through [Civil].

    The theorems: every parsed rule is well formed, the canonical spelling of a
    well-formed rule parses back to it, and the expansion equals a filter of
    the days between the anchor and the final day, with the errors of the code
    for each way a rule can be empty or too long. *)
From S2P Require Import Prelude Platform Civil Text Tokens Domain.

Definition MAX_CUSTOM_RRULE_BYTES : nat := 1024.
Definition MAX_CUSTOM_RRULE_INTERVAL : N := 1200.
Definition MAX_CUSTOM_RRULE_OCCURRENCES : N := 10000.
Definition MAX_CUSTOM_RRULE_SPAN_DAYS : Z := 36600.

Definition CUSTOM_RULE_NAMESPACE : Uuid := 0x444159574541564543555354_4f4d0001.

(** ** Data *)

Module CustomFrequency.
Inductive CustomFrequency : Type := Daily | Weekly | Monthly.
End CustomFrequency.
Abbreviation CustomFrequency := CustomFrequency.CustomFrequency.

Inductive CustomTermination : Type := Count (count : N) | Until (until : Date).

Record CustomRecurrenceRule : Type := {
  cr_frequency : CustomFrequency;
  cr_interval : N;
  cr_by_day : gset DayOfWeek;
  cr_by_month_day : gset Z;
  cr_termination : CustomTermination
}.

Module CustomRecurrenceRuleError.
Inductive CustomRecurrenceRuleError : Type :=
| Empty
| TooLong
| InvalidCharacters
| MalformedPart
| DuplicatePart (name : list N)
| MissingFrequency
| UnsupportedFrequency (value : list N)
| InvalidInterval
| InvalidCount
| InvalidByDay
| UnsupportedOrdinalByDay
| DuplicateByDay (token : list N)
| InvalidByMonthDay
| DuplicateByMonthDay (day : Z)
| InvalidUntil
| MissingTermination
| ConflictingTermination
| WeeklyByMonthDay
| UnsupportedBySetPosition
| UnsupportedTimeComponent (name : list N)
| UnknownPart (name : list N)
| UntilBeforeAnchor
| SpanTooLarge
| OccurrenceBudgetExceeded
| NoOccurrences
| CountExceedsSpan
| DateOutOfRange.
End CustomRecurrenceRuleError.
Abbreviation CustomRecurrenceRuleError := CustomRecurrenceRuleError.CustomRecurrenceRuleError.
Import CustomRecurrenceRuleError.

#[export] Instance CustomFrequency_eq_dec : EqDecision CustomFrequency.
Proof. solve_decision. Defined.

(** ** Parsing the parts *)

Definition semicolon : N := 59.
Definition equals : N := 61.
Definition comma : N := 44.

Definition bounded (low high : N) (o : option N) (error : CustomRecurrenceRuleError) : result CustomRecurrenceRuleError N :=
  match o with
  | Some n => if (low <=? n)%N && (n <=? high)%N then Ok n else Err error
  | None => Err error
  end.

Definition parse_bounded_interval (value : list N) : result CustomRecurrenceRuleError N :=
  bounded 1 MAX_CUSTOM_RRULE_INTERVAL (parse_plain_u32 value) InvalidInterval.

Definition parse_bounded_count (value : list N) : result CustomRecurrenceRuleError N :=
  bounded 1 MAX_CUSTOM_RRULE_OCCURRENCES (parse_plain_u32 value) InvalidCount.

Definition weekdays : list DayOfWeek :=
  [DayOfWeek.Monday; DayOfWeek.Tuesday; DayOfWeek.Wednesday; DayOfWeek.Thursday; DayOfWeek.Friday;
   DayOfWeek.Saturday; DayOfWeek.Sunday].

Definition day_name (day : DayOfWeek) : list N :=
  bytes_of (match day with
            | DayOfWeek.Monday => "MO" | DayOfWeek.Tuesday => "TU" | DayOfWeek.Wednesday => "WE"
            | DayOfWeek.Thursday => "TH" | DayOfWeek.Friday => "FR" | DayOfWeek.Saturday => "SA"
            | DayOfWeek.Sunday => "SU"
            end).

(** The match of [parse_by_day] on the seven names. *)
Definition parse_day (token : list N) : result CustomRecurrenceRuleError DayOfWeek :=
  match List.find (λ day, bool_decide (day_name day = token)) weekdays with
  | Some day => Ok day
  | None =>
      if existsb (λ byte, is_ascii_digit byte || (byte =? plus_sign)%N || (byte =? minus_sign)%N) token
      then Err UnsupportedOrdinalByDay
      else Err InvalidByDay
  end.

Definition insert_new {A} `{Countable A} (error : CustomRecurrenceRuleError) (seen : gset A) (a : A)
    : result CustomRecurrenceRuleError (gset A) :=
  if bool_decide (a ∈ seen) then Err error else Ok ({[a]} ∪ seen).

Definition parse_by_day (value : list N) : result CustomRecurrenceRuleError (gset DayOfWeek) :=
  let? days :=
    foldM (λ seen token, let? day := parse_day token in insert_new (DuplicateByDay token) seen day) ∅ (split_on comma value) in
  if bool_decide (days = ∅) then Err InvalidByDay else Ok days.

(** Digits, with a minus sign allowed in front *)
Definition month_day_characters (token : list N) : bool :=
  forallb (λ p, is_ascii_digit p.2 || ((p.1 =? 0) && (p.2 =? minus_sign)%N)) (imap pair token).

Definition parse_month_day (token : list N) : result CustomRecurrenceRuleError Z :=
  if bool_decide (token = []) || negb (month_day_characters token) then Err InvalidByMonthDay
  else
    match parse_i8 token with
    | Some day => if negb (day =? 0)%Z && (-31 <=? day)%Z && (day <=? 31)%Z then Ok day else Err InvalidByMonthDay
    | None => Err InvalidByMonthDay
    end.

Definition parse_by_month_day (value : list N) : result CustomRecurrenceRuleError (gset Z) :=
  let? days :=
    foldM (λ seen token, let? day := parse_month_day token in insert_new (DuplicateByMonthDay day) seen day) ∅
      (split_on comma value) in
  if bool_decide (days = ∅) then Err InvalidByMonthDay else Ok days.

Section parsing.
Context `{Platform, Civil}.

Definition parse_until (value : list N) : result CustomRecurrenceRuleError Date :=
  if negb (length value =? 8) || negb (forallb is_ascii_digit value) then Err InvalidUntil
  else
    let year := Z.of_N (dec_value (take 4 value)) in
    let month := dec_value (take 2 (drop 4 value)) in
    let day := dec_value (drop 6 value) in
    if negb ((1 <=? month)%N && (month <=? 12)%N) then Err InvalidUntil
    else if (year =? 0)%Z then Err InvalidUntil
    else ok_or (date_of_civil year month day) InvalidUntil.

(** The variables of the loop over the parts. *)
Record Parts : Type := {
  pt_seen : gset (list N);
  pt_frequency : option CustomFrequency;
  pt_interval : option N;
  pt_by_day : option (gset DayOfWeek);
  pt_by_month_day : option (gset Z);
  pt_count : option N;
  pt_until : option Date
}.

Definition no_parts : Parts :=
  {| pt_seen := ∅; pt_frequency := None; pt_interval := None; pt_by_day := None; pt_by_month_day := None;
     pt_count := None; pt_until := None |}.

Definition parse_frequency (value : list N) : result CustomRecurrenceRuleError CustomFrequency :=
  if bool_decide (value = bytes_of "DAILY") then Ok CustomFrequency.Daily
  else if bool_decide (value = bytes_of "WEEKLY") then Ok CustomFrequency.Weekly
  else if bool_decide (value = bytes_of "MONTHLY") then Ok CustomFrequency.Monthly
  else Err (UnsupportedFrequency value).

Definition saw (name : list N) (p : Parts) : Parts :=
  {| pt_seen := {[name]} ∪ pt_seen p; pt_frequency := pt_frequency p; pt_interval := pt_interval p;
     pt_by_day := pt_by_day p; pt_by_month_day := pt_by_month_day p; pt_count := pt_count p; pt_until := pt_until p |}.
Definition with_frequency (p : Parts) (f : CustomFrequency) : Parts :=
  {| pt_seen := pt_seen p; pt_frequency := Some f; pt_interval := pt_interval p; pt_by_day := pt_by_day p;
     pt_by_month_day := pt_by_month_day p; pt_count := pt_count p; pt_until := pt_until p |}.
Definition with_interval (p : Parts) (n : N) : Parts :=
  {| pt_seen := pt_seen p; pt_frequency := pt_frequency p; pt_interval := Some n; pt_by_day := pt_by_day p;
     pt_by_month_day := pt_by_month_day p; pt_count := pt_count p; pt_until := pt_until p |}.
Definition with_by_day (p : Parts) (days : gset DayOfWeek) : Parts :=
  {| pt_seen := pt_seen p; pt_frequency := pt_frequency p; pt_interval := pt_interval p; pt_by_day := Some days;
     pt_by_month_day := pt_by_month_day p; pt_count := pt_count p; pt_until := pt_until p |}.
Definition with_by_month_day (p : Parts) (days : gset Z) : Parts :=
  {| pt_seen := pt_seen p; pt_frequency := pt_frequency p; pt_interval := pt_interval p; pt_by_day := pt_by_day p;
     pt_by_month_day := Some days; pt_count := pt_count p; pt_until := pt_until p |}.
Definition with_count (p : Parts) (n : N) : Parts :=
  {| pt_seen := pt_seen p; pt_frequency := pt_frequency p; pt_interval := pt_interval p; pt_by_day := pt_by_day p;
     pt_by_month_day := pt_by_month_day p; pt_count := Some n; pt_until := pt_until p |}.
Definition with_until (p : Parts) (d : Date) : Parts :=
  {| pt_seen := pt_seen p; pt_frequency := pt_frequency p; pt_interval := pt_interval p; pt_by_day := pt_by_day p;
     pt_by_month_day := pt_by_month_day p; pt_count := pt_count p; pt_until := Some d |}.

(** The match on the name of a part. *)
Definition parse_named (p : Parts) (name value : list N) : result CustomRecurrenceRuleError Parts :=
  if bool_decide (name = bytes_of "FREQ") then let? f := parse_frequency value in Ok (with_frequency p f)
  else if bool_decide (name = bytes_of "INTERVAL") then let? n := parse_bounded_interval value in Ok (with_interval p n)
  else if bool_decide (name = bytes_of "BYDAY") then let? days := parse_by_day value in Ok (with_by_day p days)
  else if bool_decide (name = bytes_of "BYMONTHDAY") then let? days := parse_by_month_day value in Ok (with_by_month_day p days)
  else if bool_decide (name = bytes_of "COUNT") then let? n := parse_bounded_count value in Ok (with_count p n)
  else if bool_decide (name = bytes_of "UNTIL") then let? d := parse_until value in Ok (with_until p d)
  else if bool_decide (name = bytes_of "BYSETPOS") then Err UnsupportedBySetPosition
  else if bool_decide (name ∈ [bytes_of "BYHOUR"; bytes_of "BYMINUTE"; bytes_of "BYSECOND"]) then
    Err (UnsupportedTimeComponent name)
  else Err (UnknownPart name).

Definition parse_part (p : Parts) (part : list N) : result CustomRecurrenceRuleError Parts :=
  match split_once equals part with
  | None => Err MalformedPart
  | Some (raw_name, raw_value) =>
      if bool_decide (raw_name = []) || bool_decide (raw_value = []) || contains_byte equals raw_value then Err MalformedPart
      else
        let name := to_ascii_uppercase raw_name in
        let value := to_ascii_uppercase raw_value in
        if bool_decide (name ∈ pt_seen p) then Err (DuplicatePart name)
        else parse_named (saw name p) name value
  end.

Definition assemble (p : Parts) : result CustomRecurrenceRuleError CustomRecurrenceRule :=
  let? frequency := ok_or (pt_frequency p) MissingFrequency in
  let? termination :=
    match pt_count p, pt_until p with
    | None, None => Err MissingTermination
    | Some _, Some _ => Err ConflictingTermination
    | Some value, None => Ok (Count value)
    | None, Some value => Ok (Until value)
    end in
  let by_month_day := default ∅ (pt_by_month_day p) in
  if bool_decide (frequency = CustomFrequency.Weekly) && negb (bool_decide (by_month_day = ∅)) then Err WeeklyByMonthDay
  else Ok {| cr_frequency := frequency; cr_interval := default 1%N (pt_interval p); cr_by_day := default ∅ (pt_by_day p);
             cr_by_month_day := by_month_day; cr_termination := termination |}.

(** [RRULE:] in any case may stand in front. *)
Definition strip_prefix (rrule : list N) : list N :=
  if (6 <=? length rrule) && bool_decide (to_ascii_uppercase (take 6 rrule) = bytes_of "RRULE:") then drop 6 rrule else rrule.

Definition parse_custom_rrule (rrule : list N) : result CustomRecurrenceRuleError CustomRecurrenceRule :=
  if bool_decide (rrule = []) then Err Empty
  else if MAX_CUSTOM_RRULE_BYTES <? length rrule then Err TooLong
  else if negb (forallb is_ascii_graphic rrule) then Err InvalidCharacters
  else
    let body := strip_prefix rrule in
    if bool_decide (body = []) then Err Empty
    else
      let? parts := foldM parse_part no_parts (split_on semicolon body) in
      assemble parts.
End parsing.

(** ** The canonical spelling *)

(** [BTreeSet] iterates in ascending order. *)
Definition day_elems (days : gset DayOfWeek) : list DayOfWeek := filter (λ day, day ∈ days) weekdays.
Definition month_day_elems (days : gset Z) : list Z := sort_by Z.leb (elements days).

Definition frequency_name (f : CustomFrequency) : list N :=
  bytes_of (match f with
            | CustomFrequency.Daily => "DAILY" | CustomFrequency.Weekly => "WEEKLY" | CustomFrequency.Monthly => "MONTHLY"
            end).

Section rules.
Context `{Platform, Civil}.

(** [{:04}{:02}{:02}] of a date *)
Definition until_text (until : Date) : list N :=
  pad4 (date_year until) ++ pad_zeros 2 (dec_print (date_month until)) ++ pad_zeros 2 (dec_print (date_day until)).

Definition canonical (r : CustomRecurrenceRule) : list N :=
  bytes_of "FREQ=" ++ frequency_name (cr_frequency r) ++ bytes_of ";INTERVAL=" ++ dec_print (cr_interval r) ++
  (if bool_decide (cr_by_day r = ∅) then []
   else bytes_of ";BYDAY=" ++ join comma (day_name <$> day_elems (cr_by_day r))) ++
  (if bool_decide (cr_by_month_day r = ∅) then []
   else bytes_of ";BYMONTHDAY=" ++ join comma (print_Z <$> month_day_elems (cr_by_month_day r))) ++
  match cr_termination r with
  | Count count => bytes_of ";COUNT=" ++ dec_print count
  | Until until => bytes_of ";UNTIL=" ++ until_text until
  end.

Definition canonicalize_custom_rrule (rrule : list N) : result CustomRecurrenceRuleError (list N) :=
  let? rule := parse_custom_rrule rrule in Ok (canonical rule).

Definition validate_custom_rrule (rrule : list N) : result CustomRecurrenceRuleError unit :=
  let? _ := parse_custom_rrule rrule in Ok tt.

Definition rule_id (r : CustomRecurrenceRule) : Uuid := uuid_new_v5 CUSTOM_RULE_NAMESPACE (canonical r).

(** ** Dates *)

Definition weekday_index (day : DayOfWeek) : Z := Z.of_nat (day_index day).

Definition week_key (date : Date) (starts_on : DayOfWeek) : Z :=
  (to_julian_day date - Z.rem (7 + weekday_index (from_time (date_weekday date)) - weekday_index starts_on) 7)%Z.

Definition month_index (date : Date) : Z := (date_year date * 12 + Z.of_N (date_month date) - 1)%Z.

Definition interval_matches (r : CustomRecurrenceRule) (anchor date : Date) (week_starts_on : DayOfWeek) : bool :=
  let interval := Z.of_N (cr_interval r) in
  match cr_frequency r with
  | CustomFrequency.Daily => ((to_julian_day date - to_julian_day anchor) mod interval =? 0)%Z
  | CustomFrequency.Weekly =>
      (Z.quot (week_key date week_starts_on - week_key anchor week_starts_on) 7 mod interval =? 0)%Z
  | CustomFrequency.Monthly => ((month_index date - month_index anchor) mod interval =? 0)%Z
  end.

Definition weekday_matches (r : CustomRecurrenceRule) (anchor date : Date) : bool :=
  if bool_decide (cr_by_day r = ∅) then
    negb (bool_decide (cr_frequency r = CustomFrequency.Weekly)) || bool_decide (date_weekday date = date_weekday anchor)
  else bool_decide (from_time (date_weekday date) ∈ cr_by_day r).

Definition month_day_matches (r : CustomRecurrenceRule) (anchor date : Date) : bool :=
  if bool_decide (cr_by_month_day r = ∅) then
    negb (bool_decide (cr_frequency r = CustomFrequency.Monthly)) || negb (bool_decide (cr_by_day r = ∅)) ||
    (date_day date =? date_day anchor)%N
  else
    let positive := Z.of_N (date_day date) in
    let negative := (positive - Z.of_N (month_length (date_month date) (date_year date)) - 1)%Z in
    bool_decide (positive ∈ cr_by_month_day r) || bool_decide (negative ∈ cr_by_month_day r).

Definition matches_date (r : CustomRecurrenceRule) (anchor date : Date) (week_starts_on : DayOfWeek) : bool :=
  negb (date <? anchor)%Z && interval_matches r anchor date week_starts_on && weekday_matches r anchor date &&
  month_day_matches r anchor date.

Definition search_bounds (r : CustomRecurrenceRule) (anchor : Date) : result CustomRecurrenceRuleError (Date * option N) :=
  match cr_termination r with
  | Count count =>
      let? final_date := ok_or (date_checked_add_days anchor (MAX_CUSTOM_RRULE_SPAN_DAYS - 1)) DateOutOfRange in
      Ok (final_date, Some count)
  | Until until =>
      if (until <? anchor)%Z then Err UntilBeforeAnchor
      else if (MAX_CUSTOM_RRULE_SPAN_DAYS <? to_julian_day until - to_julian_day anchor + 1)%Z then Err SpanTooLarge
      else Ok (until, None)
  end.

Definition validate_scan_result (occurrence_count : N) (target_count : option N) : result CustomRecurrenceRuleError unit :=
  if (occurrence_count =? 0)%N then Err NoOccurrences
  else if bool_decide (is_Some target_count) then Err CountExceedsSpan
  else Ok tt.

(** How a scan of the days ends: with the target count reached, or after the
    final date with the number of matching dates. *)
Inductive scan_end : Type :=
| Reached (dates : list (N * Date))
| Scanned (dates : list (N * Date)) (occurrence_count : N).

(** The loop of [occurrence_dates_through].  Every turn moves the date one day
    towards [final_date], so the days between are enough fuel. *)
Fixpoint scan_dates (fuel : nat) (r : CustomRecurrenceRule) (anchor through final_date : Date) (week_starts_on : DayOfWeek)
    (target_count : option N) (result : list (N * Date)) (occurrence_count : N) (date : Date)
    : Prelude.result CustomRecurrenceRuleError scan_end :=
  match fuel with
  | O => Ok (Scanned result occurrence_count)
  | S fuel' =>
      let next result occurrence_count :=
        if (date =? final_date)%Z then Ok (Scanned result occurrence_count)
        else
          let? date := ok_or (date_next_day date) DateOutOfRange in
          scan_dates fuel' r anchor through final_date week_starts_on target_count result occurrence_count date in
      if matches_date r anchor date week_starts_on then
        if (occurrence_count =? MAX_CUSTOM_RRULE_OCCURRENCES)%N then Err OccurrenceBudgetExceeded
        else
          let result := if (date <=? through)%Z then result ++ [(occurrence_count, date)] else result in
          let? occurrence_count := ok_or (checked_add u32_max occurrence_count 1) OccurrenceBudgetExceeded in
          if bool_decide (target_count = Some occurrence_count) then Ok (Reached result)
          else next result occurrence_count
      else next result occurrence_count
  end.

Definition scan_fuel (anchor final_date : Date) : nat := S (Z.to_nat (final_date - anchor)).

Definition occurrence_dates_through (r : CustomRecurrenceRule) (anchor through : Date) (week_starts_on : DayOfWeek)
    : result CustomRecurrenceRuleError (list (N * Date)) :=
  let? (final_date, target_count) := search_bounds r anchor in
  let? ended := scan_dates (scan_fuel anchor final_date) r anchor through final_date week_starts_on target_count [] 0 anchor in
  match ended with
  | Reached dates => Ok dates
  | Scanned dates occurrence_count =>
      let? _ := validate_scan_result occurrence_count target_count in Ok dates
  end.

Definition all_occurrence_dates (r : CustomRecurrenceRule) (anchor : Date) (week_starts_on : DayOfWeek)
    : result CustomRecurrenceRuleError (list Date) :=
  let? dates := occurrence_dates_through r anchor date_max week_starts_on in Ok (dates.*2).

Definition validate_custom_rrule_for_anchor (rrule : list N) (anchor : Date) (week_starts_on : DayOfWeek)
    : result CustomRecurrenceRuleError unit :=
  let? rule := parse_custom_rrule rrule in
  let? _ := all_occurrence_dates rule anchor week_starts_on in Ok tt.

Definition search_day_bound (r : CustomRecurrenceRule) (anchor : Date) : result CustomRecurrenceRuleError N :=
  let? (final_date, _) := search_bounds r anchor in
  let span := (to_julian_day final_date - to_julian_day anchor + 1)%Z in
  if (0 <=? span)%Z then Ok (Z.to_N span) else Err DateOutOfRange.

Definition custom_rrule_search_day_bound (rrule : list N) (anchor : Date) : result CustomRecurrenceRuleError N :=
  let? rule := parse_custom_rrule rrule in search_day_bound rule anchor.
End rules.

(** [Display] of the errors *)
Definition custom_error_message (e : CustomRecurrenceRuleError) : string :=
  match e with
  | Empty => "custom RRULE cannot be empty"
  | TooLong => "custom RRULE exceeds 1024 bytes"
  | InvalidCharacters => "custom RRULE must contain printable ASCII without whitespace"
  | MalformedPart => "custom RRULE contains a malformed part"
  | DuplicatePart name => "custom RRULE contains duplicate part " ++ string_of_bytes name
  | MissingFrequency => "custom RRULE requires FREQ"
  | UnsupportedFrequency value => "custom RRULE frequency " ++ string_of_bytes value ++ " is unsupported"
  | InvalidInterval => "custom RRULE INTERVAL must be in 1..=1200"
  | InvalidCount => "custom RRULE COUNT must be in 1..=10000"
  | InvalidByDay => "custom RRULE BYDAY is invalid"
  | UnsupportedOrdinalByDay => "custom RRULE does not support ordinal BYDAY entries"
  | DuplicateByDay token => "custom RRULE BYDAY contains duplicate " ++ string_of_bytes token
  | InvalidByMonthDay => "custom RRULE BYMONTHDAY accepts unique nonzero values in -31..=31"
  | DuplicateByMonthDay day => "custom RRULE BYMONTHDAY contains duplicate " ++ string_of_bytes (print_Z day)
  | InvalidUntil => "custom RRULE UNTIL must be a valid date-only YYYYMMDD value"
  | MissingTermination => "custom RRULE must define exactly one finite COUNT or UNTIL"
  | ConflictingTermination => "custom RRULE cannot combine COUNT and UNTIL"
  | WeeklyByMonthDay => "custom weekly RRULE cannot combine FREQ=WEEKLY with BYMONTHDAY"
  | UnsupportedBySetPosition => "custom RRULE does not support BYSETPOS"
  | UnsupportedTimeComponent name => "custom RRULE does not support time component " ++ string_of_bytes name
  | UnknownPart name => "custom RRULE part " ++ string_of_bytes name ++ " is unsupported"
  | UntilBeforeAnchor => "custom RRULE UNTIL precedes its item creation anchor"
  | SpanTooLarge => "custom RRULE exceeds the 36600-day expansion span"
  | OccurrenceBudgetExceeded => "custom RRULE exceeds the 10000-occurrence budget"
  | NoOccurrences => "custom RRULE has no occurrence within the supported span"
  | CountExceedsSpan => "custom RRULE COUNT cannot be reached within the supported span"
  | DateOutOfRange => "custom RRULE calendar arithmetic exceeded the supported date range"
  end%string.

(** ** Specification *)

(** The dates a rule selects between its anchor and a final date. *)
Definition selected_dates `{Civil} (r : CustomRecurrenceRule) (anchor final_date : Date) (week_starts_on : DayOfWeek) : list Date :=
  filter (λ date, matches_date r anchor date week_starts_on = true) (seqZ anchor (final_date - anchor + 1)).

(** Dates with their sequence numbers. *)
Fixpoint numbered (sequence : N) (dates : list Date) : list (N * Date) :=
  match dates with
  | [] => []
  | date :: dates' => (sequence, date) :: numbered (sequence + 1) dates'
  end.

Definition up_to (through : Date) (dates : list Date) : list (N * Date) :=
  filter (λ p, (p.2 <= through)%Z) (numbered 0 dates).

(** What the expansion promises, by the rule's terminator. *)
Definition expected_dates `{Civil} (r : CustomRecurrenceRule) (anchor through : Date) (week_starts_on : DayOfWeek)
    : result CustomRecurrenceRuleError (list (N * Date)) :=
  match cr_termination r with
  | Count count =>
      let final_date := (anchor + MAX_CUSTOM_RRULE_SPAN_DAYS - 1)%Z in
      let dates := selected_dates r anchor final_date week_starts_on in
      if decide (date_max < final_date)%Z then Err DateOutOfRange
      else if decide (N.to_nat count <= length dates) then Ok (up_to through (take (N.to_nat count) dates))
      else if decide (dates = []) then Err NoOccurrences
      else Err CountExceedsSpan
  | Until until =>
      let dates := selected_dates r anchor until week_starts_on in
      if decide (until < anchor)%Z then Err UntilBeforeAnchor
      else if decide (MAX_CUSTOM_RRULE_SPAN_DAYS < until - anchor + 1)%Z then Err SpanTooLarge
      else if decide (N.to_nat MAX_CUSTOM_RRULE_OCCURRENCES < length dates) then Err OccurrenceBudgetExceeded
      else if decide (dates = []) then Err NoOccurrences
      else Ok (up_to through dates)
  end.

Definition valid_termination `{Civil} (t : CustomTermination) : Prop :=
  match t with
  | Count count => (1 <= count <= MAX_CUSTOM_RRULE_OCCURRENCES)%N
  | Until until => ∃ y m d, (1 <= y)%Z ∧ date_of_civil y m d = Some until
  end.

Definition valid_month_day (day : Z) : Prop := day ≠ 0%Z ∧ (-31 <= day <= 31)%Z.

(** A well-formed rule: what the parser guarantees. *)
Record well_formed_rule `{Civil} (r : CustomRecurrenceRule) : Prop := {
  wr_interval : (1 <= cr_interval r <= MAX_CUSTOM_RRULE_INTERVAL)%N;
  wr_month_days : ∀ day, day ∈ cr_by_month_day r → valid_month_day day;
  wr_weekly : cr_frequency r = CustomFrequency.Weekly → cr_by_month_day r = ∅;
  wr_termination : valid_termination (cr_termination r)
}.

(** ** Lemmas: expansion *)

(** The scan over the dates a rule selects. *)
Fixpoint consume (through : Date) (target_count : option N) (result : list (N * Date)) (count : N) (dates : list Date)
    : Prelude.result CustomRecurrenceRuleError scan_end :=
  match dates with
  | [] => Ok (Scanned result count)
  | date :: dates' =>
      if (count =? MAX_CUSTOM_RRULE_OCCURRENCES)%N then Err OccurrenceBudgetExceeded
      else
        let result := if (date <=? through)%Z then result ++ [(count, date)] else result in
        if bool_decide (target_count = Some (count + 1)%N) then Ok (Reached result)
        else consume through target_count result (count + 1) dates'
  end.

Section expansion.
Context `{CivilLaws}.

Lemma next_day_below d : (date_min <= d)%Z → (d < date_max)%Z → date_next_day d = Some (d + 1)%Z.
Proof.
  intros Hmin Hmax. rewrite next_day_exact.
  assert (d + 1 <= date_max)%Z as Hle by lia. destruct (add_days_below d 1 Hmin) as [d' Hd']; [done|exact Hle|].
  rewrite Hd'. f_equal. by apply add_days_exact in Hd' as [-> _].
Qed.

Lemma seqZ_span a b : (a <= b)%Z → seqZ a (b - a + 1) = a :: seqZ (a + 1) (b - (a + 1) + 1).
Proof. intros Hab. rewrite seqZ_cons by lia. f_equal. f_equal; lia. Qed.

Lemma scan_is_consume fuel r anchor through final_date ws target res c date :
  (date_min <= date)%Z → (date <= final_date <= date_max)%Z → Z.to_nat (final_date - date) < fuel →
  (c <= MAX_CUSTOM_RRULE_OCCURRENCES)%N →
  scan_dates fuel r anchor through final_date ws target res c date =
  consume through target res c (filter (λ d, matches_date r anchor d ws = true) (seqZ date (final_date - date + 1))).
Proof.
  revert res c date. induction fuel as [|fuel IH]; intros res c date Hmin Hd Hfuel Hc; [lia|].
  rewrite seqZ_span by lia.
  assert (∀ res c, (c <= MAX_CUSTOM_RRULE_OCCURRENCES)%N →
    (if (date =? final_date)%Z then Ok (Scanned res c)
     else let? d := ok_or (date_next_day date) DateOutOfRange in
          scan_dates fuel r anchor through final_date ws target res c d) =
    consume through target res c (filter (λ d, matches_date r anchor d ws = true) (seqZ (date + 1) (final_date - (date + 1) + 1)))) as Hnext.
  { clear res c Hc. intros res c Hc. destruct (Z.eqb_spec date final_date) as [->|Hne].
    - replace (final_date - (final_date + 1) + 1)%Z with 0%Z by lia. done.
    - rewrite next_day_below by lia. simpl. apply IH; try done; lia. }
  cbn [scan_dates]. rewrite filter_cons. destruct (decide (matches_date r anchor date ws = true)) as [Hm|Hm].
  - rewrite Hm. cbn [consume]. destruct (N.eqb_spec c MAX_CUSTOM_RRULE_OCCURRENCES) as [|Hlt]; [done|].
    assert (checked_add u32_max c 1 = Some (c + 1)%N) as ->.
    { unfold checked_add. rewrite (proj2 (N.leb_le _ _)); [done|]. unfold MAX_CUSTOM_RRULE_OCCURRENCES, u32_max in *. lia. }
    simpl. destruct (bool_decide _); [done|]. apply Hnext. unfold MAX_CUSTOM_RRULE_OCCURRENCES in *. lia.
  - apply not_true_is_false in Hm. rewrite Hm. by apply Hnext.
Qed.

Abbreviation kept through l := (filter (λ p : N * Date, (p.2 <= through)%Z) l).

Lemma kept_cons through (res : list (N * Date)) c (date : Date) l :
  (if (date <=? through)%Z then res ++ [(c, date)] else res) ++ kept through l = res ++ kept through ((c, date) :: l).
Proof.
  rewrite filter_cons. simpl. destruct (Z.leb_spec date through).
  - rewrite decide_True by done. by rewrite <- app_assoc.
  - by rewrite decide_False by lia.
Qed.

Lemma consume_all through res c dates :
  (c <= MAX_CUSTOM_RRULE_OCCURRENCES)%N →
  consume through None res c dates =
  if decide (MAX_CUSTOM_RRULE_OCCURRENCES < c + N.of_nat (length dates))%N then Err OccurrenceBudgetExceeded
  else Ok (Scanned (res ++ kept through (numbered c dates)) (c + N.of_nat (length dates))).
Proof.
  revert res c. induction dates as [|d dates IH]; intros res c Hc; cbn [consume numbered take].
  - rewrite decide_False by (simpl; lia). simpl. by rewrite app_nil_r, N.add_0_r.
  - rewrite length_cons. destruct (N.eqb_spec c MAX_CUSTOM_RRULE_OCCURRENCES); [by rewrite decide_True by lia|].
    rewrite IH by lia. replace (c + 1 + N.of_nat (length dates))%N with (c + N.of_nat (S (length dates)))%N by lia.
    case_decide; [done|]. by rewrite kept_cons.
Qed.

Lemma consume_count through t res c dates :
  (c < t <= MAX_CUSTOM_RRULE_OCCURRENCES)%N →
  consume through (Some t) res c dates =
  if decide (t <= c + N.of_nat (length dates))%N
  then Ok (Reached (res ++ kept through (numbered c (take (N.to_nat (t - c)) dates))))
  else Ok (Scanned (res ++ kept through (numbered c dates)) (c + N.of_nat (length dates))).
Proof.
  revert res c. induction dates as [|d dates IH]; intros res c Hc; cbn [consume numbered take].
  - rewrite decide_False by (simpl; lia). simpl. by rewrite app_nil_r, N.add_0_r.
  - rewrite length_cons. destruct (N.eqb_spec c MAX_CUSTOM_RRULE_OCCURRENCES); [lia|].
    replace (N.to_nat (t - c)) with (S (N.to_nat (t - (c + 1)))) by lia. cbn [take numbered]. case_bool_decide as Ht.
    + injection Ht as ->. rewrite decide_True by lia. replace (c + 1 - (c + 1))%N with 0%N by lia. simpl.
      pose proof (kept_cons through res c d []) as Hk. rewrite app_nil_r in Hk. by rewrite Hk.
    + rewrite IH by (split; [|tauto]; assert (t ≠ c + 1)%N by congruence; lia).
      replace (c + 1 + N.of_nat (length dates))%N with (c + N.of_nat (S (length dates)))%N by lia.
      by case_decide; rewrite kept_cons.
Qed.

Lemma scan_from_anchor r anchor through final_date ws target :
  (date_min <= anchor)%Z → (anchor <= final_date <= date_max)%Z →
  scan_dates (scan_fuel anchor final_date) r anchor through final_date ws target [] 0 anchor =
  consume through target [] 0 (selected_dates r anchor final_date ws).
Proof. intros ??. apply scan_is_consume; try done. unfold scan_fuel. lia. Qed.

Lemma occurrence_dates_eq r anchor through ws :
  (date_min <= anchor)%Z → valid_termination (cr_termination r) →
  occurrence_dates_through r anchor through ws = expected_dates r anchor through ws.
Proof.
  intros Hmin Hterm. unfold occurrence_dates_through, search_bounds, expected_dates.
  destruct (cr_termination r) as [count|until]; simpl in Hterm.
  - destruct (date_checked_add_days anchor (MAX_CUSTOM_RRULE_SPAN_DAYS - 1)) as [fd|] eqn:E; cbn [ok_or rbind].
    + apply add_days_exact in E as [-> Hmax]. rewrite Z.add_sub_assoc in *. rewrite decide_False by lia.
      rewrite scan_from_anchor by (unfold MAX_CUSTOM_RRULE_SPAN_DAYS in *; lia).
      rewrite consume_count by lia. rewrite N.sub_0_r. set (dates := selected_dates _ _ _ _).
      destruct (decide (count <= 0 + N.of_nat (length dates))%N); [by rewrite decide_True by lia|].
      rewrite decide_False by lia. cbn [rbind]. unfold validate_scan_result. rewrite N.add_0_l.
      destruct dates as [|x l]; [done|]. rewrite decide_False by done. done.
    + rewrite decide_True; [done|]. apply Z.nle_gt. intros Hle.
      destruct (add_days_below anchor (MAX_CUSTOM_RRULE_SPAN_DAYS - 1)) as [d Hd]; [done|done| |congruence]. lia.
  - destruct (Z.ltb_spec until anchor); [by rewrite decide_True by lia|]. rewrite decide_False by lia. rewrite julian_exact.
    destruct (Z.ltb_spec MAX_CUSTOM_RRULE_SPAN_DAYS (until - anchor + 1)); [by rewrite decide_True by lia|].
    rewrite decide_False by lia. cbn [rbind]. destruct Hterm as (y & m & d & _ & Hu). apply date_of_range in Hu as (_ & _ & _ & _ & Hu).
    rewrite scan_from_anchor by done. rewrite consume_all by done. set (dates := selected_dates _ _ _ _).
    destruct (decide (MAX_CUSTOM_RRULE_OCCURRENCES < 0 + N.of_nat (length dates))%N); [by rewrite decide_True by lia|].
    rewrite decide_False by lia. cbn [rbind]. unfold validate_scan_result. destruct dates as [|x l]; [done|].
    by rewrite decide_False.
Qed.
End expansion.

(** ** Lemmas: what the parser accepts *)

Lemma bounded_ok low high o e n : bounded low high o e = Ok n → (low <= n <= high)%N.
Proof.
  unfold bounded. destruct o as [m|]; [|done].
  destruct (N.leb_spec low m), (N.leb_spec m high); simpl; try done. by intros [= <-].
Qed.

Lemma parse_month_day_ok token day : parse_month_day token = Ok day → valid_month_day day.
Proof.
  unfold parse_month_day. destruct (_ || _); [done|]. destruct (parse_i8 token) as [z|]; [|done].
  destruct (Z.eqb_spec z 0), (Z.leb_spec (-31) z), (Z.leb_spec z 31); simpl; try done. by intros [= <-].
Qed.

Lemma parse_by_month_day_ok value days : parse_by_month_day value = Ok days → ∀ day, day ∈ days → valid_month_day day.
Proof.
  unfold parse_by_month_day. intros (s & Hs & Hd)%rbind_ok. case_bool_decide; [done|]. simplify_eq. revert Hs.
  apply (foldM_inv _ (λ _ seen, ∀ day, day ∈ seen → valid_month_day day)); [set_solver|].
  intros p t q seen seen' _ IH (day & Hday%parse_month_day_ok & Hi)%rbind_ok. unfold insert_new in Hi.
  case_bool_decide; [done|]. simplify_eq. intros d [->%elem_of_singleton|Hd]%elem_of_union; auto.
Qed.

Section accepted.
Context `{Civil}.

Lemma parse_until_ok value until : parse_until value = Ok until → valid_termination (Until until).
Proof.
  unfold parse_until. destruct (_ || _); [done|]. destruct (negb _); [done|].
  destruct (Z.eqb_spec (Z.of_N (dec_value (take 4 value))) 0); [done|]. intros Hd%ok_or_ok.
  eexists _, _, _. split; [|exact Hd]. lia.
Qed.

Record parts_ok (p : Parts) : Prop := {
  po_interval n : pt_interval p = Some n → (1 <= n <= MAX_CUSTOM_RRULE_INTERVAL)%N;
  po_month_days days : pt_by_month_day p = Some days → ∀ day, day ∈ days → valid_month_day day;
  po_count n : pt_count p = Some n → valid_termination (Count n);
  po_until d : pt_until p = Some d → valid_termination (Until d)
}.

Lemma parse_named_ok p name value p' : parts_ok p → parse_named p name value = Ok p' → parts_ok p'.
Proof.
  intros [] Hp. unfold parse_named in Hp.
  repeat (case_bool_decide; [try done|]); try done.
  all: apply rbind_ok in Hp as (x & Hx & [= <-]); constructor; simpl; try done; intros y [= <-].
  - by apply bounded_ok in Hx.
  - by eapply parse_by_month_day_ok.
  - by apply bounded_ok in Hx.
  - by eapply parse_until_ok.
Qed.

Lemma parse_part_ok p part p' : parts_ok p → parse_part p part = Ok p' → parts_ok p'.
Proof.
  intros Hp. unfold parse_part. destruct (split_once _ _) as [[name value]|]; [|done]. destruct (_ || _); [done|].
  case_bool_decide; [done|]. apply parse_named_ok. by destruct Hp.
Qed.

Lemma assemble_ok p r : parts_ok p → assemble p = Ok r → well_formed_rule r.
Proof.
  intros [Hi Hm Hc Hu] (f & _ & (t & Ht & Hr)%rbind_ok)%rbind_ok.
  cbv zeta in Hr. destruct (_ && _) eqn:E in Hr; [done|].
  injection Hr as <-. constructor; simpl.
  - destruct (pt_interval p); simpl; [auto|]. unfold MAX_CUSTOM_RRULE_INTERVAL. lia.
  - destruct (pt_by_month_day p); simpl; [eauto|set_solver].
  - intros ->. rewrite bool_decide_eq_true_2 in E by done. simpl in E. by apply negb_false_iff, bool_decide_eq_true in E.
  - destruct (pt_count p), (pt_until p); simplify_eq; auto.
Qed.

Lemma parse_well_formed rrule r : parse_custom_rrule rrule = Ok r → well_formed_rule r.
Proof.
  unfold parse_custom_rrule. case_bool_decide; [done|]. destruct (_ <? _)%nat; [done|]. destruct (negb _); [done|].
  case_bool_decide; [done|]. intros (p & Hp & Ha)%rbind_ok. eapply assemble_ok; [|exact Ha]. revert Hp.
  apply (foldM_inv _ (λ _ p, parts_ok p)); [by constructor|]. intros ? part ? q q' _ Hq. by apply parse_part_ok.
Qed.
End accepted.

(** ** Lemmas: the canonical spelling *)

(** Bytes a name or a value of the canonical spelling uses. *)
Definition clean (b : N) : bool :=
  is_ascii_graphic b && negb (b =? semicolon)%N && negb (b =? equals)%N && negb ((97 <=? b)%N && (b <=? 122)%N).

Abbreviation cleaned l := (Forall (λ b, clean b = true) l).

Definition part (name value : list N) : list N := name ++ equals :: value.

Lemma clean_spec b : clean b = true ↔ (33 <= b <= 126)%N ∧ b ≠ semicolon ∧ b ≠ equals ∧ ¬ (97 <= b <= 122)%N.
Proof.
  unfold clean, is_ascii_graphic. rewrite !andb_true_iff, !negb_true_iff, !N.leb_le, !N.eqb_neq, andb_false_iff, !N.leb_gt. lia.
Qed.

Lemma cleaned_digits l : digits l → cleaned l.
Proof.
  intros Hl. eapply Forall_impl; [exact Hl|]. intros b Hb%is_ascii_digit_spec. apply clean_spec.
  unfold semicolon, equals. lia.
Qed.

Lemma cleaned_print_Z z : cleaned (print_Z z).
Proof.
  apply Forall_forall. intros b Hb%print_Z_bytes. apply clean_spec. unfold semicolon, equals, minus_sign in *. lia.
Qed.

Lemma cleaned_join pieces : (∀ p, p ∈ pieces → cleaned p) → cleaned (join comma pieces).
Proof.
  induction pieces as [|p pieces IH]; intros Hp; [constructor|]. destruct pieces as [|q pieces]; [apply Hp; left|].
  rewrite join_cons. apply Forall_app. split; [apply Hp; left|]. constructor; [done|]. apply IH. intros r Hr. apply Hp. by right.
Qed.

Lemma cleaned_avoids c l : cleaned l → clean c = false → c ∉ l.
Proof. intros Hl Hc Hin. rewrite Forall_forall in Hl. specialize (Hl c Hin). congruence. Qed.

Lemma cleaned_uppercase l : cleaned l → to_ascii_uppercase l = l.
Proof.
  intros Hl. apply uppercase_fixed. intros b Hb. rewrite Forall_forall in Hl.
  by apply Hl, clean_spec in Hb as (_ & _ & _ & ?).
Qed.

Lemma parse_part_canonical `{Civil} p name value :
  cleaned name → cleaned value → name ≠ [] → value ≠ [] → name ∉ pt_seen p →
  parse_part p (part name value) = parse_named (saw name p) name value.
Proof.
  intros Hn Hv Hn0 Hv0 Hs. unfold parse_part, part. rewrite split_once_app by (by apply cleaned_avoids).
  rewrite !bool_decide_eq_false_2 by done.
  assert (contains_byte equals value = false) as ->.
  { apply not_true_iff_false. rewrite contains_byte_iff. by apply cleaned_avoids. }
  simpl. rewrite !cleaned_uppercase by done. by rewrite bool_decide_eq_false_2.
Qed.

(** Folding distinct spelled values into an empty set. *)
Lemma fold_insert_new {A} `{Countable A} (error : list N → A → CustomRecurrenceRuleError) (parse : list N → result CustomRecurrenceRuleError A)
    (print : A → list N) l (seen : gset A) :
  (∀ a, a ∈ l → parse (print a) = Ok a) → NoDup l → (∀ a, a ∈ l → a ∉ seen) →
  foldM (λ seen token, let? a := parse token in insert_new (error token a) seen a) seen (print <$> l) =
    Ok (list_to_set l ∪ seen).
Proof.
  revert seen. induction l as [|a l IH]; intros seen Hp Hnd Hs; simpl; [by rewrite union_empty_l_L|].
  apply NoDup_cons in Hnd as [Ha Hnd]. rewrite Hp by left. simpl. unfold insert_new.
  rewrite bool_decide_eq_false_2 by (apply Hs; left). simpl. rewrite IH; [f_equal; set_solver| |done|].
  - intros b Hb. apply Hp. by right.
  - intros b Hb [->%elem_of_singleton|Hin]%elem_of_union; [done|]. eapply Hs; [by right|done].
Qed.

Lemma parse_day_name day : parse_day (day_name day) = Ok day.
Proof. by destruct day. Qed.

Lemma elem_of_day_elems days day : day ∈ day_elems days ↔ day ∈ days.
Proof. unfold day_elems. rewrite list_elem_of_filter. split; [tauto|]. intros. split; [done|]. destruct day; set_solver. Qed.

Lemma NoDup_day_elems days : NoDup (day_elems days).
Proof. apply NoDup_filter. unfold weekdays. repeat (constructor; [set_solver|]). constructor. Qed.

Lemma fmap_nonempty {A B} (f : A → B) l : l ≠ [] → f <$> l ≠ [].
Proof. by destruct l. Qed.

Lemma day_name_bytes day : cleaned (day_name day) ∧ comma ∉ day_name day.
Proof.
  split; [apply Forall_forall; intros b Hb|intros Hb]; destruct day; unfold day_name, bytes_of in Hb; simpl in Hb; set_solver.
Qed.

Lemma print_Z_no_comma z : comma ∉ print_Z z.
Proof. intros [?|Hc]%print_Z_bytes; [unfold comma in *; lia|done]. Qed.

Lemma parse_by_day_canonical days :
  days ≠ ∅ → parse_by_day (join comma (day_name <$> day_elems days)) = Ok days.
Proof.
  intros Hne. assert (day_elems days ≠ []) as Hel.
  { intros Hn. apply Hne. apply set_eq. intros d. rewrite <- elem_of_day_elems, Hn. set_solver. }
  unfold parse_by_day. rewrite split_join.
  - rewrite (fold_insert_new (λ token _, DuplicateByDay token) parse_day day_name);
      [|intros; apply parse_day_name|apply NoDup_day_elems|set_solver].
    cbn [rbind]. assert (list_to_set (day_elems days) ∪ ∅ = days) as ->.
    { apply set_eq. intros d. rewrite elem_of_union, elem_of_list_to_set, elem_of_day_elems. set_solver. }
    by rewrite bool_decide_eq_false_2.
  - by apply fmap_nonempty.
  - intros p (d & -> & _)%list_elem_of_fmap. apply day_name_bytes.
Qed.

Lemma month_day_characters_print z : month_day_characters (print_Z z) = true.
Proof.
  unfold month_day_characters, print_Z.
  assert (∀ n k, forallb (λ p : nat * N, is_ascii_digit p.2 || ((p.1 =? 0) && (p.2 =? minus_sign)%N))
    (imap (λ i, pair (k + i)) (dec_print n)) = true) as Hd.
  { intros n k. pose proof (dec_print_digits n) as Hl. revert k. induction Hl as [|b l Hb Hl IH]; intros k; [done|].
    simpl. rewrite Hb. simpl. rewrite <- (IH (S k)). f_equal. apply imap_ext. intros. simpl. f_equal. lia. }
  destruct (z <? 0)%Z; [|apply (Hd _ 0)]. simpl. apply (Hd _ 1).
Qed.

Lemma parse_month_day_print z : valid_month_day z → parse_month_day (print_Z z) = Ok z.
Proof.
  intros [Hz Hb]. unfold parse_month_day. rewrite bool_decide_eq_false_2, month_day_characters_print.
  - simpl. unfold parse_i8. rewrite parse_signed_print by lia.
    destruct (Z.eqb_spec z 0); [done|]. by rewrite (proj2 (Z.leb_le _ _)), (proj2 (Z.leb_le _ _)) by lia.
  - unfold print_Z. destruct (z <? 0)%Z; [done|apply dec_print_nonempty].
Qed.

Lemma elem_of_month_day_elems days day : day ∈ month_day_elems days ↔ day ∈ days.
Proof. unfold month_day_elems. by rewrite elem_of_sort_by, elem_of_elements. Qed.

Lemma parse_by_month_day_canonical days :
  days ≠ ∅ → (∀ day, day ∈ days → valid_month_day day) →
  parse_by_month_day (join comma (print_Z <$> month_day_elems days)) = Ok days.
Proof.
  intros Hne Hv. assert (month_day_elems days ≠ []) as Hel.
  { intros Hn. apply Hne. apply set_eq. intros d. rewrite <- elem_of_month_day_elems, Hn. set_solver. }
  unfold parse_by_month_day. rewrite split_join.
  - rewrite (fold_insert_new (λ _ day, DuplicateByMonthDay day) parse_month_day print_Z).
    + cbn [rbind]. assert (list_to_set (month_day_elems days) ∪ ∅ = days) as ->.
      { apply set_eq. intros d. rewrite elem_of_union, elem_of_list_to_set, elem_of_month_day_elems. set_solver. }
      by rewrite bool_decide_eq_false_2.
    + intros d Hd%elem_of_month_day_elems. by apply parse_month_day_print, Hv.
    + unfold month_day_elems. apply NoDup_sort_by, NoDup_elements.
    + set_solver.
  - by apply fmap_nonempty.
  - intros p (d & -> & _)%list_elem_of_fmap. apply print_Z_no_comma.
Qed.

Lemma dec_print_length n k : (n < 10 ^ N.of_nat k)%N → 0 < k → length (dec_print n) ≤ k.
Proof. intros Hn Hk. apply canonical_length; [apply dec_print_canonical|by rewrite dec_print_value|done]. Qed.

Section canonical_parts.
Context `{CivilLaws}.

Lemma until_parts until y m d :
  date_of_civil y m d = Some until → (1 <= y)%Z →
  until_text until = pad_zeros 4 (dec_print (Z.to_N y)) ++ pad_zeros 2 (dec_print m) ++ pad_zeros 2 (dec_print d) ∧
  length (pad_zeros 4 (dec_print (Z.to_N y))) = 4 ∧ length (pad_zeros 2 (dec_print m)) = 2 ∧
  length (pad_zeros 2 (dec_print d)) = 2.
Proof.
  intros Hd Hy. pose proof (date_of_range _ _ _ _ Hd) as (? & ? & ? & _).
  unfold until_text, date_year, date_month, date_day. rewrite (civil_of_exact _ _ _ _ Hd). simpl. unfold pad4.
  destruct (Z.ltb_spec y 0); [lia|]. split_and!; [done|..]; apply pad_zeros_length, dec_print_length; simpl; lia.
Qed.

Lemma parse_until_canonical until : valid_termination (Until until) → parse_until (until_text until) = Ok until.
Proof.
  intros (y & m & d & Hy & Hd). destruct (until_parts _ _ _ _ Hd Hy) as (-> & L1 & L2 & L3).
  pose proof (date_of_range _ _ _ _ Hd) as (? & ? & ? & _). unfold parse_until.
  rewrite !length_app, L1, L2, L3. simpl.
  assert (forallb is_ascii_digit (pad_zeros 4 (dec_print (Z.to_N y)) ++ pad_zeros 2 (dec_print m) ++ pad_zeros 2 (dec_print d)) = true) as ->.
  { apply digits_forallb. rewrite !Forall_app. split_and!; apply digits_pad, dec_print_digits. }
  simpl. rewrite take_app_length' by done. rewrite (drop_app_length' _ _ 4) by done. rewrite take_app_length' by done.
  change 6 with (4 + 2). rewrite <- drop_drop. rewrite (drop_app_length' _ _ 4) by done. rewrite drop_app_length' by done.
  rewrite !pad_zeros_value, !dec_print_value. rewrite (proj2 (N.leb_le _ _)), (proj2 (N.leb_le _ _)) by lia. simpl.
  rewrite Z2N.id by lia. destruct (Z.eqb_spec y 0); [lia|]. by rewrite Hd.
Qed.

Lemma until_text_ok until : valid_termination (Until until) →
  cleaned (until_text until) ∧ until_text until ≠ [] ∧ length (until_text until) ≤ 8.
Proof.
  intros (y & m & d & Hy & Hd). destruct (until_parts _ _ _ _ Hd Hy) as (-> & L1 & L2 & L3). split_and!.
  - rewrite !Forall_app. split_and!; apply cleaned_digits, digits_pad, dec_print_digits.
  - intros Hn%(f_equal length). rewrite !length_app, L1 in Hn. done.
  - rewrite !length_app, L1, L2, L3. done.
Qed.

(** The parts of the canonical spelling, and what parsing them collects. *)
Definition termination_part (t : CustomTermination) : list N * list N :=
  match t with
  | Count count => (bytes_of "COUNT", dec_print count)
  | Until until => (bytes_of "UNTIL", until_text until)
  end.

Definition canonical_parts (r : CustomRecurrenceRule) : list (list N * list N) :=
  [(bytes_of "FREQ", frequency_name (cr_frequency r)); (bytes_of "INTERVAL", dec_print (cr_interval r))] ++
  (if bool_decide (cr_by_day r = ∅) then [] else [(bytes_of "BYDAY", join comma (day_name <$> day_elems (cr_by_day r)))]) ++
  (if bool_decide (cr_by_month_day r = ∅) then []
   else [(bytes_of "BYMONTHDAY", join comma (print_Z <$> month_day_elems (cr_by_month_day r)))]) ++
  [termination_part (cr_termination r)].

Lemma canonical_join r : canonical r = join semicolon ((λ p, part p.1 p.2) <$> canonical_parts r).
Proof.
  unfold canonical, canonical_parts, termination_part.
  destruct (bool_decide (cr_by_day r = ∅)), (bool_decide (cr_by_month_day r = ∅)), (cr_termination r);
    unfold part, bytes_of; simpl; rewrite <- ?app_assoc; simpl; repeat (f_equal; simpl); rewrite <- ?app_assoc; done.
Qed.

Lemma cleaned_frequency f : cleaned (frequency_name f) ∧ frequency_name f ≠ [] ∧ length (frequency_name f) ≤ 7.
Proof. split_and!; [apply Forall_forall; intros b Hb|..]; destruct f; unfold frequency_name, bytes_of in *; simpl in *; [set_solver..|done|done|done|lia|lia|lia]. Qed.

Lemma join_nonempty pieces : (∀ p, p ∈ pieces → p ≠ []) → pieces ≠ [] → join comma pieces ≠ [].
Proof.
  intros Hp Hne. destruct pieces as [|p [|q l]]; [done|by apply Hp; left|]. rewrite join_cons.
  specialize (Hp p ltac:(left)). by destruct p.
Qed.

Lemma length_join k pieces : (∀ p, p ∈ pieces → length p ≤ k) → length (join comma pieces) ≤ length pieces * S k.
Proof.
  induction pieces as [|p pieces IH]; intros Hp; simpl; [lia|]. destruct pieces as [|q l].
  - specialize (Hp p ltac:(left)). simpl. lia.
  - rewrite length_app. cbn [length]. specialize (IH (λ r Hr, Hp r (list_elem_of_further _ _ _ Hr))).
    specialize (Hp p ltac:(left)). simpl in *. lia.
Qed.
End canonical_parts.

Section roundtrip.
Context `{CivilLaws}.

Lemma length_month_days days : (∀ day, day ∈ days → valid_month_day day) → length (month_day_elems days) ≤ 63.
Proof.
  intros Hv. unfold month_day_elems. rewrite length_sort_by.
  change 63 with (length (seqZ (-31) 63)). apply submseteq_length, NoDup_submseteq; [apply NoDup_elements|].
  intros d Hd%elem_of_elements. apply Hv in Hd as [_ ?]. apply elem_of_seqZ. lia.
Qed.

Lemma length_print_month_day day : valid_month_day day → length (print_Z day) ≤ 3.
Proof.
  intros [_ Hb]. unfold print_Z. destruct (Z.ltb_spec day 0); simpl; [apply le_n_S|transitivity 2; [|lia]];
    apply dec_print_length; simpl; lia.
Qed.

(** Every part has a clean name and value of bounded length. *)
Lemma canonical_part_ok r name value :
  well_formed_rule r → (name, value) ∈ canonical_parts r →
  cleaned name ∧ cleaned value ∧ name ≠ [] ∧ value ≠ [] ∧ length name ≤ 10 ∧ length value ≤ 252.
Proof.
  intros [Hi Hm _ Ht] Hin. unfold canonical_parts in Hin. rewrite !elem_of_app in Hin.
  assert (∀ s, forallb clean (bytes_of s) = true → cleaned (bytes_of s)) as Hname.
  { intros s Hs. apply Forall_forall. intros b Hb%list_elem_of_In. by apply (proj1 (forallb_forall _ _) Hs). }
  destruct Hin as [Hin|[Hin|[Hin|Hin]]].
  - rewrite !elem_of_cons in Hin. destruct Hin as [[= -> ->]|[[= -> ->]|[]%not_elem_of_nil]].
    + destruct (cleaned_frequency (cr_frequency r)) as (? & ? & ?). split_and!; [by apply Hname|done..|simpl; lia|lia].
    + split_and!; [by apply Hname|apply cleaned_digits, dec_print_digits|done|apply dec_print_nonempty|simpl; lia|].
      transitivity 4; [|lia]. apply dec_print_length; simpl; [unfold MAX_CUSTOM_RRULE_INTERVAL in Hi|]; lia.
  - case_bool_decide as Hd; [by apply not_elem_of_nil in Hin|]. apply list_elem_of_singleton in Hin as [= -> ->].
    assert (∀ p, p ∈ day_name <$> day_elems (cr_by_day r) → cleaned p ∧ p ≠ [] ∧ length p ≤ 2) as Hp.
    { intros p (d & -> & _)%list_elem_of_fmap. split_and!; [apply day_name_bytes|by destruct d|by destruct d; simpl; lia]. }
    split_and!; [by apply Hname|apply cleaned_join; intros; by apply Hp|done| |simpl; lia|].
    + apply join_nonempty; [intros; by apply Hp|]. apply fmap_nonempty. intros Hn. apply Hd, set_eq. intros d.
      rewrite <- elem_of_day_elems, Hn. set_solver.
    + etransitivity; [apply (length_join 2); intros; by apply Hp|]. rewrite length_fmap.
      assert (length (day_elems (cr_by_day r)) ≤ 7) by apply (length_filter _ weekdays). lia.
  - case_bool_decide as Hd; [by apply not_elem_of_nil in Hin|]. apply list_elem_of_singleton in Hin as [= -> ->].
    assert (∀ p, p ∈ print_Z <$> month_day_elems (cr_by_month_day r) → cleaned p ∧ p ≠ [] ∧ length p ≤ 3) as Hp.
    { intros p (d & -> & Hd'%elem_of_month_day_elems)%list_elem_of_fmap.
      split_and!; [apply cleaned_print_Z| |by apply length_print_month_day, Hm].
      unfold print_Z. destruct (d <? 0)%Z; [done|apply dec_print_nonempty]. }
    split_and!; [by apply Hname|apply cleaned_join; intros; by apply Hp|done| |simpl; lia|].
    + apply join_nonempty; [intros; by apply Hp|]. apply fmap_nonempty. intros Hn. apply Hd, set_eq. intros d.
      rewrite <- elem_of_month_day_elems, Hn. set_solver.
    + etransitivity; [apply (length_join 3); intros; by apply Hp|]. rewrite length_fmap.
      pose proof (length_month_days _ Hm). lia.
  - apply list_elem_of_singleton in Hin. destruct (cr_termination r) as [count|until]; simpl in Hin; injection Hin as -> ->.
    + split_and!; [by apply Hname|apply cleaned_digits, dec_print_digits|done|apply dec_print_nonempty|simpl; lia|].
      transitivity 5; [|lia]. simpl in Ht. apply dec_print_length; simpl; [unfold MAX_CUSTOM_RRULE_OCCURRENCES in Ht|]; lia.
    + destruct (until_text_ok until Ht) as (? & ? & ?). split_and!; [by apply Hname|done..|simpl; lia|lia].
Qed.

Lemma parse_frequency_part p f : parse_named p (bytes_of "FREQ") (frequency_name f) = Ok (with_frequency p f).
Proof. by destruct f. Qed.

Lemma bounded_print low high n e : (low <= n <= high)%N → (n <= u32_max)%N → bounded low high (parse_plain_u32 (dec_print n)) e = Ok n.
Proof. intros Hn Hu. rewrite parse_plain_u32_print by done. simpl. by rewrite (proj2 (N.leb_le _ _)), (proj2 (N.leb_le _ _)) by lia. Qed.

Lemma parse_interval_part p n : (1 <= n <= MAX_CUSTOM_RRULE_INTERVAL)%N →
  parse_named p (bytes_of "INTERVAL") (dec_print n) = Ok (with_interval p n).
Proof.
  intros Hn. change (rbind (parse_bounded_interval (dec_print n)) (λ n, Ok (with_interval p n)) = Ok (with_interval p n)).
  unfold parse_bounded_interval. rewrite bounded_print; [done|done|]. unfold MAX_CUSTOM_RRULE_INTERVAL, u32_max in *. lia.
Qed.

Lemma parse_by_day_part p days : days ≠ ∅ →
  parse_named p (bytes_of "BYDAY") (join comma (day_name <$> day_elems days)) = Ok (with_by_day p days).
Proof.
  intros Hd. change (rbind (parse_by_day (join comma (day_name <$> day_elems days))) (λ d, Ok (with_by_day p d)) = Ok (with_by_day p days)).
  by rewrite parse_by_day_canonical.
Qed.

Lemma parse_by_month_day_part p days : days ≠ ∅ → (∀ day, day ∈ days → valid_month_day day) →
  parse_named p (bytes_of "BYMONTHDAY") (join comma (print_Z <$> month_day_elems days)) = Ok (with_by_month_day p days).
Proof.
  intros Hd Hv. change (rbind (parse_by_month_day (join comma (print_Z <$> month_day_elems days)))
    (λ d, Ok (with_by_month_day p d)) = Ok (with_by_month_day p days)).
  by rewrite parse_by_month_day_canonical.
Qed.

Definition with_termination (p : Parts) (t : CustomTermination) : Parts :=
  match t with Count n => with_count p n | Until d => with_until p d end.

Lemma parse_termination_part p t : valid_termination t →
  parse_named p (termination_part t).1 (termination_part t).2 = Ok (with_termination p t).
Proof.
  intros Ht. destruct t as [n|d]; simpl in Ht.
  - change (rbind (parse_bounded_count (dec_print n)) (λ n, Ok (with_count p n)) = Ok (with_count p n)).
    unfold parse_bounded_count. rewrite bounded_print; [done|done|]. unfold MAX_CUSTOM_RRULE_OCCURRENCES, u32_max in *. lia.
  - change (rbind (parse_until (until_text d)) (λ n, Ok (with_until p n)) = Ok (with_until p d)).
    by rewrite parse_until_canonical.
Qed.

(** Parsing one part in a loop over parts with new names. *)
Lemma parse_next r p name value q parts :
  well_formed_rule r → (name, value) ∈ canonical_parts r → name ∉ pt_seen p → parse_named (saw name p) name value = Ok q →
  foldM parse_part p ((λ p, part p.1 p.2) <$> ((name, value) :: parts)) = foldM parse_part q ((λ p, part p.1 p.2) <$> parts).
Proof.
  intros Hw Hin Hs Hq. destruct (canonical_part_ok r name value Hw Hin) as (? & ? & ? & ? & _).
  cbn [fmap list_fmap foldM fst snd]. by rewrite parse_part_canonical, Hq.
Qed.

Lemma parse_optional r (b : bool) p name value q parts :
  well_formed_rule r →
  (b = false → (name, value) ∈ canonical_parts r ∧ (name ∉ pt_seen p) ∧ parse_named (saw name p) name value = Ok q) →
  foldM parse_part p ((λ p, part p.1 p.2) <$> ((if b then [] else [(name, value)]) ++ parts)) =
  foldM parse_part (if b then p else q) ((λ p, part p.1 p.2) <$> parts).
Proof. intros Hw Hb. destruct b; [done|]. destruct (Hb eq_refl) as (? & ? & ?). by eapply parse_next. Qed.

Ltac new_name :=
  repeat (case_bool_decide; simpl); rewrite ?not_elem_of_union, ?not_elem_of_singleton;
  repeat split; first [discriminate|apply not_elem_of_empty].

Lemma elem_of_canonical_parts r nv :
  nv ∈ canonical_parts r ↔
  nv = (bytes_of "FREQ", frequency_name (cr_frequency r)) ∨ nv = (bytes_of "INTERVAL", dec_print (cr_interval r)) ∨
  (cr_by_day r ≠ ∅ ∧ nv = (bytes_of "BYDAY", join comma (day_name <$> day_elems (cr_by_day r)))) ∨
  (cr_by_month_day r ≠ ∅ ∧ nv = (bytes_of "BYMONTHDAY", join comma (print_Z <$> month_day_elems (cr_by_month_day r)))) ∨
  nv = termination_part (cr_termination r).
Proof.
  unfold canonical_parts. rewrite !elem_of_app, !elem_of_cons.
  repeat case_bool_decide; rewrite ?list_elem_of_singleton, ?elem_of_nil; tauto.
Qed.

(** The parts of a rule, as the loop collects them. *)
Definition collected (r : CustomRecurrenceRule) (p : Parts) : Prop :=
  pt_frequency p = Some (cr_frequency r) ∧ pt_interval p = Some (cr_interval r) ∧
  default ∅ (pt_by_day p) = cr_by_day r ∧ default ∅ (pt_by_month_day p) = cr_by_month_day r ∧
  pt_count p = match cr_termination r with Count n => Some n | Until _ => None end ∧
  pt_until p = match cr_termination r with Count _ => None | Until d => Some d end.

Lemma parse_canonical_parts r :
  well_formed_rule r → ∃ p, foldM parse_part no_parts ((λ p, part p.1 p.2) <$> canonical_parts r) = Ok p ∧ collected r p.
Proof.
  intros Hw. pose proof (λ nv, proj2 (elem_of_canonical_parts r nv)) as Hin. unfold canonical_parts.
  set (p0 := no_parts). set (p1 := with_frequency (saw (bytes_of "FREQ") p0) (cr_frequency r)).
  set (p2 := with_interval (saw (bytes_of "INTERVAL") p1) (cr_interval r)).
  set (p3 := if bool_decide (cr_by_day r = ∅) then p2 else with_by_day (saw (bytes_of "BYDAY") p2) (cr_by_day r)).
  set (p4 := if bool_decide (cr_by_month_day r = ∅) then p3
             else with_by_month_day (saw (bytes_of "BYMONTHDAY") p3) (cr_by_month_day r)).
  cbn [app]. rewrite (parse_next r p0 _ _ p1); [|done|apply Hin; tauto|new_name|apply parse_frequency_part].
  rewrite (parse_next r p1 _ _ p2); [|done|apply Hin; tauto|new_name|apply parse_interval_part, Hw].
  rewrite (parse_optional r _ p2 _ _ (with_by_day (saw (bytes_of "BYDAY") p2) (cr_by_day r))); [|done|].
  2:{ intros Hd%bool_decide_eq_false. split_and!; [apply Hin; tauto|new_name|by apply parse_by_day_part]. }
  fold p3. rewrite (parse_optional r _ p3 _ _ (with_by_month_day (saw (bytes_of "BYMONTHDAY") p3) (cr_by_month_day r))); [|done|].
  2:{ intros Hd%bool_decide_eq_false. split_and!; [apply Hin; tauto|subst p3; new_name|].
      apply parse_by_month_day_part; [done|apply Hw]. }
  fold p4. destruct (termination_part (cr_termination r)) as [name value] eqn:Et.
  pose proof (parse_termination_part (saw name p4) (cr_termination r) (wr_termination _ Hw)) as Hterm. rewrite Et in Hterm.
  rewrite (parse_next r p4 name value (with_termination (saw name p4) (cr_termination r))); [|done| | |exact Hterm].
  - exists (with_termination (saw name p4) (cr_termination r)). split; [done|]. unfold collected. subst p4 p3.
    destruct (cr_termination r); repeat case_bool_decide; simpl; split_and!; by simpl.
  - apply Hin. tauto.
  - destruct (cr_termination r); simpl in Et; injection Et as <- <-; subst p4 p3; new_name.
Qed.

Lemma assemble_collected r p : well_formed_rule r → collected r p → assemble p = Ok r.
Proof.
  intros [_ _ Hwk _] (Hf & Hi & Hd & Hm & Hc & Hu). unfold assemble. rewrite Hf, Hi, Hd, Hm, Hc, Hu.
  assert (bool_decide (cr_frequency r = CustomFrequency.Weekly) && negb (bool_decide (cr_by_month_day r = ∅)) = false) as Hweekly.
  { case_bool_decide as E; [|done]. simpl. rewrite bool_decide_eq_true_2; [done|]. by apply Hwk. }
  destruct r as [f i d m [n|u]]; simpl in *; by rewrite Hweekly.
Qed.

Lemma elem_of_join c pieces b : b ∈ join c pieces → b = c ∨ ∃ p, p ∈ pieces ∧ b ∈ p.
Proof.
  induction pieces as [|p pieces IH]; [by intros ?%not_elem_of_nil|]. destruct pieces as [|q l].
  - intros Hb. right. exists p. split; [left|done].
  - rewrite join_cons, elem_of_app, elem_of_cons. intros [Hb|[->|Hb]]; [right; exists p; split; [left|done]|by left|].
    destruct (IH Hb) as [?|(p' & ? & ?)]; [by left|right; exists p'; split; [by right|done]].
Qed.

Lemma canonical_graphic r : well_formed_rule r → forallb is_ascii_graphic (canonical r) = true.
Proof.
  intros Hw. apply forallb_forall. intros b Hb%list_elem_of_In. rewrite canonical_join in Hb.
  apply elem_of_join in Hb as [->|(p & ([name value] & -> & Hin)%list_elem_of_fmap & Hb)]; [done|].
  destruct (canonical_part_ok r name value Hw Hin) as (Hn & Hv & _). simpl in Hb. unfold part in Hb.
  assert (∀ x, clean x = true → is_ascii_graphic x = true) as Hg by (unfold clean; intros x; rewrite !andb_true_iff; tauto).
  rewrite Forall_forall in Hn, Hv. apply elem_of_app in Hb as [Hb|[->|Hb]%elem_of_cons]; [auto|done|auto].
Qed.

Lemma canonical_short r : well_formed_rule r → length (canonical r) ≤ MAX_CUSTOM_RRULE_BYTES.
Proof.
  intros Hw. pose proof (λ name value, canonical_part_ok r name value Hw) as Hok.
  setoid_rewrite elem_of_canonical_parts in Hok.
  assert (length (dec_print (cr_interval r)) ≤ 4) as Hi.
  { apply dec_print_length; [|lia]. destruct Hw as [Hi _ _ _]. unfold MAX_CUSTOM_RRULE_INTERVAL in Hi. simpl. lia. }
  assert (length (frequency_name (cr_frequency r)) ≤ 7) as Hf by apply cleaned_frequency.
  unfold canonical, MAX_CUSTOM_RRULE_BYTES. rewrite !length_app.
  assert (length (if bool_decide (cr_by_day r = ∅) then []
    else bytes_of ";BYDAY=" ++ join comma (day_name <$> day_elems (cr_by_day r))) ≤ 259) as Hd.
  { case_bool_decide as Hd; [simpl; lia|]. rewrite length_app.
    destruct (Hok _ _ (or_intror (or_intror (or_introl (conj Hd eq_refl))))) as (_ & _ & _ & _ & _ & ?). simpl. lia. }
  assert (length (if bool_decide (cr_by_month_day r = ∅) then []
    else bytes_of ";BYMONTHDAY=" ++ join comma (print_Z <$> month_day_elems (cr_by_month_day r))) ≤ 264) as Hm.
  { destruct (bool_decide (cr_by_month_day r = ∅)) eqn:Hm; [simpl; lia|]. apply bool_decide_eq_false in Hm. rewrite length_app.
    destruct (Hok _ _ (or_intror (or_intror (or_intror (or_introl (conj Hm eq_refl)))))) as (_ & _ & _ & _ & _ & ?). simpl. lia. }
  assert (length (match cr_termination r with
    | Count count => bytes_of ";COUNT=" ++ dec_print count
    | Until until => bytes_of ";UNTIL=" ++ until_text until end) ≤ 259) as Ht.
  { specialize (λ name value Heq, Hok name value (or_intror (or_intror (or_intror (or_intror Heq))))) as Ht.
    destruct (cr_termination r); rewrite length_app; destruct (Ht _ _ eq_refl) as (_ & _ & _ & _ & _ & ?); simpl; lia. }
  simpl in *. lia.
Qed.

Lemma canonical_parses r : well_formed_rule r → parse_custom_rrule (canonical r) = Ok r.
Proof.
  intros Hw. unfold parse_custom_rrule.
  assert (∃ l, canonical r = bytes_of "FREQ=" ++ l) as [l Hl] by (unfold canonical; by eexists).
  rewrite bool_decide_eq_false_2 by (by rewrite Hl). rewrite (proj2 (Nat.ltb_ge _ _)) by (by apply canonical_short).
  rewrite canonical_graphic by done. cbn [negb].
  assert (strip_prefix (canonical r) = canonical r) as ->.
  { rewrite Hl. unfold strip_prefix. rewrite bool_decide_eq_false_2; [by rewrite andb_false_r|]. simpl. done. }
  rewrite bool_decide_eq_false_2 by (by rewrite Hl). rewrite canonical_join, split_join.
  - destruct (parse_canonical_parts r Hw) as (p & -> & Hc). by apply assemble_collected.
  - by apply fmap_nonempty.
  - intros p ([name value] & -> & Hin)%list_elem_of_fmap. destruct (canonical_part_ok r name value Hw Hin) as (Hn & Hv & _).
    simpl. unfold part. rewrite elem_of_app, elem_of_cons. intros [Hs|[Hs|Hs]]; [|done|].
    all: by apply (cleaned_avoids semicolon) in Hs.
Qed.

(** ** Theorems *)

(** C39. Parsing the canonical spelling of a well-formed rule gives the rule back;
    and since every parsed rule is well formed, equivalent spellings have one
    canonical form, which is itself accepted and canonical. *)
Theorem canonical_roundtrip r :
  well_formed_rule r → parse_custom_rrule (canonical r) = Ok r ∧ canonicalize_custom_rrule (canonical r) = Ok (canonical r).
Proof. intros Hw%canonical_parses. split; [done|]. unfold canonicalize_custom_rrule. by rewrite Hw. Qed.

(** Every rule the parser accepts is well formed: interval, count and month
    days are in range, a weekly rule has no month days, and a final date is a
    calendar date of a positive year. *)
Theorem parsed_rules_well_formed rrule r : parse_custom_rrule rrule = Ok r → well_formed_rule r.
Proof. apply parse_well_formed. Qed.

(** C40. The expansion equals its specification: the selected days from the anchor
    on, up to the count or the final date, with their sequence numbers, and the
    code's error for each way a rule has no finite answer.  In particular the
    scan always ends. *)
Theorem occurrence_dates_exact r anchor through ws :
  well_formed_rule r → (date_min <= anchor)%Z →
  occurrence_dates_through r anchor through ws = expected_dates r anchor through ws.
Proof. intros [_ _ _ Ht] Hmin. by apply occurrence_dates_eq. Qed.
End roundtrip.

(** ** Witnesses: every other week, Monday and Friday, four times *)

Definition sample_rrule : list N := bytes_of "rrule:count=4;byday=fr,mo;freq=weekly;interval=2".

Definition sample_rule : CustomRecurrenceRule :=
  {| cr_frequency := CustomFrequency.Weekly; cr_interval := 2; cr_by_day := {[DayOfWeek.Monday; DayOfWeek.Friday]};
     cr_by_month_day := ∅; cr_termination := Count 4 |}.

Lemma sample_parse : @parse_custom_rrule gregorian sample_rrule = Ok sample_rule.
Proof. vm_compute. reflexivity. Qed.

Lemma canonical_roundtrip_witness :
  string_of_bytes (@canonical gregorian sample_rule) = "FREQ=WEEKLY;INTERVAL=2;BYDAY=MO,FR;COUNT=4"%string ∧
  @parse_custom_rrule gregorian (@canonical gregorian sample_rule) = Ok sample_rule.
Proof.
  split; [reflexivity|].
  apply (proj1 (@canonical_roundtrip utc_platform gregorian gregorian_laws sample_rule
    (@parse_well_formed gregorian sample_rrule sample_rule sample_parse))).
Defined.

Lemma parsed_rules_well_formed_witness : @well_formed_rule gregorian sample_rule.
Proof. exact (@parsed_rules_well_formed gregorian sample_rrule sample_rule sample_parse). Defined.

(** From Tuesday 2026-09-01: Friday 4, Monday 14, Friday 18, Monday 28. *)
Lemma occurrence_dates_exact_witness :
  @expected_dates gregorian sample_rule 20697 20720 DayOfWeek.Monday = Ok [(0%N, 20700%Z); (1%N, 20710%Z); (2%N, 20714%Z)].
Proof.
  rewrite <- (@occurrence_dates_exact utc_platform gregorian gregorian_laws sample_rule 20697 20720 DayOfWeek.Monday
    (@parse_well_formed gregorian sample_rrule sample_rule sample_parse) ltac:(simpl; lia)).
  vm_compute. reflexivity.
Defined.
