(* ===== verification/Expansion.v ===== *)
(** * Expansion: recurrences as stable occurrences

    The first half of crates/dayweave-core/src/recurrence.rs: validation of the
    recurrence context, the days of the horizon, the expansion of each kind of
    recurrence into occurrences, moved occurrences and their proofs of
    identity, pauses and exceptions.  Text is its bytes; the calendar, durations
    and identifiers derived from names come from the crates [time] and [uuid].

    Loops whose length depends on the data have a fuel computed from it; the
    theorems of Horizon show that the fuel is enough. *)
From S2P Require Import Prelude Platform Civil Text Tokens Domain Forest Rollup Order Rrule.

(** ** Errors *)

Module RecurrenceError.
Inductive RecurrenceError : Type :=
| InvalidHierarchy (error : HierarchyError)
| InvalidRule (item_id : ItemId) (message : string)
| InvalidZonedDay (date : Date)
| DuplicateZonedDay (date : Date)
| IncompleteZonedCalendar
| InvalidPause (item_id : ItemId)
| InvalidException (item_id : ItemId)
| InvalidMoveSource (item_id : ItemId)
| MoveCrossesHorizon (item_id : ItemId)
| DuplicateOccurrence (id : OccurrenceId)
| InvalidManualPlacement (id : Uuid)
| InvalidPartialProgress (id : OccurrenceId)
| CrossRecurringSubtreeDependency (successor_id predecessor_id : ItemId)
| MaterializedItemLimitExceeded (limit : N)
| DateOutOfRange.
End RecurrenceError.
Abbreviation RecurrenceError := RecurrenceError.RecurrenceError.
Import RecurrenceError.

Definition hierarchy_error_message `{Platform} (e : HierarchyError) : string :=
  match e with
  | HierarchyError.DuplicateItem id => "duplicate item id " ++ uuid_display id
  | HierarchyError.MissingParent item parent =>
      "item " ++ uuid_display item ++ " references missing parent " ++ uuid_display parent
  | HierarchyError.Cycle id => "hierarchy cycle includes item " ++ uuid_display id
  end%string.

(** [Display] of the errors *)
Definition recurrence_error_message `{Platform} `{Civil} (e : RecurrenceError) : string :=
  match e with
  | InvalidHierarchy error => "invalid recurrence hierarchy: " ++ hierarchy_error_message error
  | InvalidRule item_id message =>
      "recurrence for item " ++ uuid_display item_id ++ " has an invalid value: " ++ message
  | InvalidZonedDay date => "timezone day " ++ date_display date ++ " has invalid or mismatched boundaries"
  | DuplicateZonedDay date => "timezone calendar contains duplicate local day " ++ date_display date
  | IncompleteZonedCalendar => "timezone calendar does not continuously cover the planning horizon"
  | InvalidPause item_id => "pause for item " ++ uuid_display item_id ++ " must have a positive duration"
  | InvalidException item_id =>
      "moved recurrence exception for item " ++ uuid_display item_id ++ " must have a positive duration"
  | InvalidMoveSource item_id =>
      "moved recurrence exception for item " ++ uuid_display item_id ++ " has invalid source identity"
  | MoveCrossesHorizon item_id =>
      "moved recurrence exception for item " ++ uuid_display item_id ++ " crosses the planning horizon"
  | DuplicateOccurrence id => "occurrence id " ++ uuid_display id ++ " is claimed by more than one recurrence"
  | InvalidManualPlacement id =>
      "manual placement " ++ uuid_display id ++ " does not bind to an exact materialized occurrence"
  | InvalidPartialProgress id =>
      "partial progress for occurrence " ++ uuid_display id ++ " is invalid or does not bind to schedulable work"
  | CrossRecurringSubtreeDependency successor_id predecessor_id =>
      "dependency from item " ++ uuid_display successor_id ++ " to item " ++ uuid_display predecessor_id ++
      " crosses a materialized recurring subtree boundary"
  | MaterializedItemLimitExceeded limit => "recurrence materialization exceeds the " ++ display_N limit ++ "-item limit"
  | DateOutOfRange => "calendar date arithmetic exceeded supported range"
  end%string.

(** ** Recurring items *)

Definition recurrence_of (item : WorkItem) : option Recurrence :=
  match wi_kind item with
  | RecurringTask spec => Some (rts_recurrence spec)
  | Habit spec => Some (hs_recurrence spec)
  | Routine spec => rs_recurrence spec
  | _ => None
  end.

Definition minimum_spacing (request : PlanRequest) (item : WorkItem) : Minutes :=
  match rctx_minimum_spacing (recurrence_context request) !! wi_id item with
  | Some spacing => spacing
  | None =>
      let recurrence_spacing :=
        match recurrence_of item with
        | Some (Frequency _ _ _ _ spacing _) => Some spacing
        | _ => None
        end in
      default 0%N
        (match wi_kind item with
         | Habit spec => Some (N.max (hs_minimum_spacing spec) (default 0%N recurrence_spacing))
         | _ => recurrence_spacing
         end)
  end.

Definition children_by_parent (items : list WorkItem) : gmap ItemId (list ItemId) := child_map items.

(** The stack of [recurrence_roots] and of [collect_subtree]: [pop] takes the
    last element, [extend] appends.  Every item is pushed once, so the number
    of items is enough fuel. *)
Fixpoint mark_roots (fuel : nat) (by_id : gmap ItemId WorkItem) (children : gmap ItemId (list ItemId))
    (roots : gset ItemId) (pending : list (ItemId * bool)) : gset ItemId :=
  match fuel with
  | O => roots
  | S fuel' =>
      match rev pending with
      | [] => roots
      | (id, has_recurring_ancestor) :: rest =>
          let recurs := match by_id !! id with Some item => bool_decide (is_Some (recurrence_of item)) | None => false end in
          let roots := if recurs && negb has_recurring_ancestor then {[id]} ∪ roots else roots in
          let pushed := (λ child, (child, has_recurring_ancestor || recurs)) <$> default [] (children !! id) in
          mark_roots fuel' by_id children roots (rev rest ++ pushed)
      end
  end.

Definition recurrence_roots (items : list WorkItem) (by_id : gmap ItemId WorkItem) (children : gmap ItemId (list ItemId))
    : list ItemId :=
  let pending := (λ item, (wi_id item, false)) <$> filter (λ item, wi_parent_id item = None) items in
  let roots := mark_roots (S (length items)) by_id children ∅ pending in
  filter (λ id, id ∈ roots) (wi_id <$> items).

(** ** Validation *)

Section validation.
Context `{Platform, Civil}.

Definition check_zoned_day (dates : gset Date) (day : ZonedDayBoundary) : result RecurrenceError (gset Date) :=
  match odt_checked_sub (zd_end day) 1 with
  | None => Err (InvalidZonedDay (zd_local_date day))
  | Some last_instant =>
      if odt_leb (zd_end day) (zd_start day) || negb (odt_date (zd_start day) =? zd_local_date day)%Z ||
         negb (odt_date last_instant =? zd_local_date day)%Z
      then Err (InvalidZonedDay (zd_local_date day))
      else if bool_decide (zd_local_date day ∈ dates) then Err (DuplicateZonedDay (zd_local_date day))
      else Ok ({[zd_local_date day]} ∪ dates)
  end.

Definition sort_days (days : list ZonedDayBoundary) : list ZonedDayBoundary :=
  sort_by (λ a b, zd_local_date a <=? zd_local_date b)%Z days.

(** [days.windows(2).any(..)] *)
Fixpoint has_gap (days : list ZonedDayBoundary) : bool :=
  match days with
  | a :: (b :: _) as rest =>
      negb (bool_decide (date_next_day (zd_local_date a) = Some (zd_local_date b))) ||
      negb (odt_eqb (zd_end a) (zd_start b)) || has_gap rest
  | _ => false
  end.

Definition incomplete (request : PlanRequest) (days : list ZonedDayBoundary) : bool :=
  match head days with Some day => odt_ltb (horizon_start request) (zd_start day) | None => true end ||
  match last days with Some day => odt_ltb (zd_end day) (horizon_end request) | None => true end ||
  has_gap days.

Definition calendar_days (request : PlanRequest) : list ZonedDayBoundary := rc_days (rctx_calendar (recurrence_context request)).

Definition validate_zoned_calendar (request : PlanRequest) : result RecurrenceError unit :=
  let? _ := foldM check_zoned_day ∅ (calendar_days request) in
  if negb (bool_decide (calendar_days request = [])) && incomplete request (sort_days (calendar_days request))
  then Err IncompleteZonedCalendar
  else Ok tt.

Definition custom_rule_error (item_id : ItemId) (error : CustomRecurrenceRuleError) : RecurrenceError :=
  InvalidRule item_id (custom_error_message error).

Definition validate_rule (item_id : ItemId) (recurrence : Recurrence) : result RecurrenceError unit :=
  let invalid message := Err (InvalidRule item_id message) in
  match recurrence with
  | Daily times_per_day => if (times_per_day =? 0)%N then invalid "times_per_day must be greater than zero" else Ok tt
  | Weekly times_per_week _ => if (times_per_week =? 0)%N then invalid "times_per_week must be greater than zero" else Ok tt
  | Monthly times_per_month => if (times_per_month =? 0)%N then invalid "times_per_month must be greater than zero" else Ok tt
  | EveryInterval interval | AfterCompletion interval =>
      if (interval =? 0)%N then invalid "interval must be greater than zero" else Ok tt
  | Frequency target period semantics _ _ _ =>
      if (target =? 0)%N then invalid "frequency target must be greater than zero"
      else
        match period, semantics with
        | Day, Rolling => if (24 * 60 <? target)%N then invalid "rolling daily target exceeds minute precision" else Ok tt
        | Week, Rolling => if (7 * 24 * 60 <? target)%N then invalid "rolling weekly target exceeds minute precision" else Ok tt
        | _, _ => Ok tt
        end
  | Custom rrule =>
      let? _ := map_err (custom_rule_error item_id) (parse_custom_rrule (bytes_of rrule)) in Ok tt
  end%string.

Definition habit_spacing_message : string := "habit minimum spacing must be at most 527040 minutes".
Definition spacing_message : string := "minimum spacing must be at most 527040 minutes".

Definition validate_item_recurrence (request : PlanRequest) (item : WorkItem) : result RecurrenceError unit :=
  let? _ :=
    match wi_kind item with
    | Habit spec =>
        if (MAX_DEPENDENCY_LAG_MINUTES <? hs_minimum_spacing spec)%N
        then Err (InvalidRule (wi_id item) habit_spacing_message) else Ok tt
    | _ => Ok tt
    end in
  match recurrence_of item with
  | None => Ok tt
  | Some recurrence =>
      let? _ := validate_rule (wi_id item) recurrence in
      match recurrence with
      | Custom rrule =>
          let? _ := map_err (custom_rule_error (wi_id item))
            (let? rule := parse_custom_rrule (bytes_of rrule) in
             all_occurrence_dates rule (odt_date (wi_created_at item)) (week_starts_on (rctx_calendar (recurrence_context request)))) in
          Ok tt
      | _ => Ok tt
      end
  end.

Definition validate_item_recurrences (request : PlanRequest) : result RecurrenceError unit :=
  forM (validate_item_recurrence request) (items request).

Definition is_occurrence_selector (s : RecurrenceExceptionSelector) : bool :=
  match s with SelectOccurrence _ => true | _ => false end.

Definition validate_exception (exception : RecurrenceException) : result RecurrenceError unit :=
  match rx_action exception with
  | ActionSkip => Ok tt
  | ActionMove start end_ source =>
      if odt_leb end_ start then Err (InvalidException (rx_item_id exception))
      else if negb (is_occurrence_selector (rx_selector exception)) then Err (InvalidMoveSource (rx_item_id exception))
      else if (ms_item_revision source =? 0)%N || odt_leb (ms_nominal_end source) (ms_nominal_start source) ||
              match ms_local_date source with
              | Some date => negb (date =? odt_date (ms_nominal_start source))%Z
              | None => false
              end
      then Err (InvalidMoveSource (rx_item_id exception))
      else Ok tt
  end.

Definition validate_recurrence_context (request : PlanRequest) : result RecurrenceError unit :=
  let context := recurrence_context request in
  let? _ := validate_zoned_calendar request in
  let? _ := forM (λ pause, if odt_leb (rpz_end pause) (rpz_start pause) then Err (InvalidPause (rpz_item_id pause)) else Ok tt)
              (rctx_pauses context) in
  let? _ :=
    match List.find (λ p, MAX_DEPENDENCY_LAG_MINUTES <? p.2)%N (entries (rctx_minimum_spacing context)) with
    | Some (item_id, _) => Err (InvalidRule item_id spacing_message)
    | None => Ok tt
    end in
  let? _ := forM validate_exception (rctx_exceptions context) in
  validate_item_recurrences request.

(** ** The days of the horizon *)

Definition midnight (date : Date) (offset : Z) : result RecurrenceError OffsetDateTime := Ok (midnight_at date offset).

(** The loop of [resolved_days]: each turn moves one day on, until the horizon
    ends or the calendar does. *)
Fixpoint collect_days (fuel : nat) (request : PlanRequest) (offset : Z) (date : Date) (collected : list ZonedDayBoundary)
    : result RecurrenceError (list ZonedDayBoundary) :=
  match fuel with
  | O => Ok collected
  | S fuel' =>
      let? next := ok_or (date_next_day date) DateOutOfRange in
      let? start := midnight date offset in
      let? end_ := midnight next offset in
      if odt_leb (horizon_end request) start then Ok collected
      else
        let day := {| zd_local_date := date; zd_start := start; zd_end := end_ |} in
        collect_days fuel' request offset next (if odt_ltb (horizon_start request) end_ then collected ++ [day] else collected)
  end.

Definition nanos_per_day : Z := 86400 * nanos_per_second.

Definition days_fuel (request : PlanRequest) : nat :=
  Z.to_nat ((unix_nanos (horizon_end request) - unix_nanos (horizon_start request)) / nanos_per_day + 3).

Definition resolved_days (request : PlanRequest) : result RecurrenceError (list ZonedDayBoundary) :=
  if negb (bool_decide (calendar_days request = [])) then Ok (sort_days (calendar_days request))
  else
    let offset := utc_offset (horizon_start request) in
    collect_days (days_fuel request) request offset (odt_date (horizon_start request)) [].
End validation.

(** ** Occurrences *)

(** [u32::try_from] of an [i64] *)
Definition try_u32 (z : Z) : option N := if (0 <=? z)%Z && (z <=? Z.of_N u32_max)%Z then Some (Z.to_N z) else None.
(** [i32::try_from] of an [i64] *)
Definition try_i32 (z : Z) : option Z := if (- 2 ^ 31 <=? z)%Z && (z <? 2 ^ 31)%Z then Some z else None.
(** [checked_add] of two [i64]s *)
Definition i64_add (a b : Z) : option Z := if (i64_min_z <=? a + b)%Z && (a + b <=? i64_max_z)%Z then Some (a + b)%Z else None.
(** [i32::try_from(n).unwrap_or(i32::MAX)] *)
Definition i32_or_max (n : nat) : Z := Z.min (Z.of_nat n) (2 ^ 31 - 1).

Definition stable_ordinal (identity : RecurrenceOccurrenceIdentity) : option N :=
  match identity with
  | CalendarDay _ bucket_ordinal | CalendarWeek _ bucket_ordinal | CalendarMonth _ _ bucket_ordinal => Some bucket_ordinal
  | RollingMinutes index _ => try_u32 index
  | IdentityAfterCompletion _ | IdentityCustom => Some 0%N
  | RollingMonth _ index _ => Some index
  | CustomRule _ sequence _ => Some sequence
  end.

(** The pieces of an identity key, with colons between. *)
Definition colon : N := 58.
Definition key_of (pieces : list (list N)) : list N := join colon pieces.

Definition make_occurrence `{Platform} (item_id : ItemId) (key : list N) (identity : RecurrenceOccurrenceIdentity)
    (nominal window : OffsetDateTime * OffsetDateTime) (local_date : option Date) : Occurrence :=
  {| occ_id := uuid_new_v5 item_id key; occ_series_item_id := item_id; occ_identity := identity;
     occ_nominal_start := nominal.1; occ_nominal_end := nominal.2; occ_window_start := window.1;
     occ_window_end := window.2; occ_local_date := local_date; occ_ordinal := default 0%N (stable_ordinal identity);
     occ_state := OccurrenceState.Generated |}.

(** [if occurrence.window_start < occurrence.window_end { result.push(..) }] *)
Definition in_window (occurrence : Occurrence) : list Occurrence :=
  if odt_ltb (occ_window_start occurrence) (occ_window_end occurrence) then [occurrence] else [].

(** The part of a span inside the horizon. *)
Definition clip (request : PlanRequest) (start end_ : OffsetDateTime) : OffsetDateTime * OffsetDateTime :=
  (odt_max start (horizon_start request), odt_min end_ (horizon_end request)).

(** The labels of calendar buckets, with their text. *)
Inductive BucketLabel : Type :=
| daily | weekly | monthly | frequency_calendar_day | frequency_calendar_week | frequency_calendar_month.

Definition label_text (label : BucketLabel) : list N :=
  bytes_of (match label with
            | daily => "daily" | weekly => "weekly" | monthly => "monthly"
            | frequency_calendar_day => "frequency-calendar-day" | frequency_calendar_week => "frequency-calendar-week"
            | frequency_calendar_month => "frequency-calendar-month"
            end).

Section expansion.
Context `{Platform, Civil}.

(** ** Calendar buckets *)

(** [start.checked_add(spacing)], clipped to the day. *)
Definition spacing_end_in (day : ZonedDayBoundary) (start : OffsetDateTime) (spacing : Minutes) : OffsetDateTime :=
  match odt_checked_add start (duration_minutes spacing) with
  | Some value => odt_min value (zd_end day)
  | None => zd_end day
  end.

(** The fraction [numerator / denominator] of a day. *)
Definition part_of_day (day : ZonedDayBoundary) (numerator denominator : Z) : OffsetDateTime :=
  default (zd_end day)
    (value ← duration_checked_mul (duration_between (zd_end day) (zd_start day)) numerator;
     value ← duration_checked_div value denominator;
     odt_checked_add (zd_start day) value).

(** The span of one of [count] occurrences that share a day. *)
Definition day_share (day : ZonedDayBoundary) (position count : nat) (spacing : Minutes) : OffsetDateTime * OffsetDateTime :=
  let start := part_of_day day (i32_or_max position) (i32_or_max count) in
  let end_ := if (position + 1 =? count) then zd_end day else part_of_day day (i32_or_max (position + 1)) (i32_or_max count) in
  let effective_end := odt_max end_ (spacing_end_in day start spacing) in
  (start, if odt_eqb effective_end (zd_end day) then zd_end day else effective_end).

Definition bucket_identity (label : BucketLabel) (bucket_key : list N) (day : ZonedDayBoundary) (bucket_ordinal : N)
    : RecurrenceOccurrenceIdentity :=
  match label with
  | daily | frequency_calendar_day => CalendarDay (zd_local_date day) bucket_ordinal
  | weekly | frequency_calendar_week => CalendarWeek (default 0%Z (parse_i32 bucket_key)) bucket_ordinal
  | monthly | frequency_calendar_month =>
      CalendarMonth (date_year (zd_local_date day)) (date_month (zd_local_date day)) bucket_ordinal
  end.

(** The day each ordinal of a bucket falls on, grouped by day. *)
Definition allocations (target : N) (eligible : nat) : gmap N (list N) :=
  foldl (λ m index, push_entry m (index * N.of_nat eligible / target)%N index) ∅ (N.of_nat <$> seq 0 (N.to_nat target)).

Definition bucket_occurrence (item_id : ItemId) (request : PlanRequest) (spacing : Minutes) (label : BucketLabel)
    (bucket_key : list N) (day : ZonedDayBoundary) (count position : nat) (bucket_ordinal : N) : Occurrence :=
  let '(start, end_) := day_share day position count spacing in
  make_occurrence item_id (key_of [label_text label; bucket_key; dec_print bucket_ordinal])
    (bucket_identity label bucket_key day bucket_ordinal) (start, end_) (clip request start end_) (Some (zd_local_date day)).

Definition day_occurrences (item_id : ItemId) (request : PlanRequest) (spacing : Minutes) (label : BucketLabel)
    (bucket_key : list N) (eligible_days : list ZonedDayBoundary) (allocation : N * list N) : list Occurrence :=
  match eligible_days !! N.to_nat allocation.1 with
  | Some day =>
      imap pair allocation.2 ≫= λ p,
        in_window (bucket_occurrence item_id request spacing label bucket_key day (length allocation.2) p.1 p.2)
  | None => []
  end.

Definition expand_calendar_buckets (item_id : ItemId) (buckets : list (list N * list ZonedDayBoundary)) (target : N)
    (spacing : Minutes) (request : PlanRequest) (label : BucketLabel) : list Occurrence :=
  buckets ≫= λ bucket,
    let eligible_days := sort_days bucket.2 in
    if bool_decide (eligible_days = []) then []
    else entries (allocations target (length eligible_days)) ≫=
           day_occurrences item_id request spacing label bucket.1 eligible_days.

(** An out-of-horizon date is an empty span at the nearest edge. *)
Definition resolved_boundary (date : Date) (days : list ZonedDayBoundary) (request : PlanRequest) : ZonedDayBoundary :=
  match List.find (λ day, zd_local_date day =? date)%Z days with
  | Some day => day
  | None =>
      let instant :=
        match head days with
        | Some first => if (date <? zd_local_date first)%Z then horizon_start request else horizon_end request
        | None => horizon_start request
        end in
      {| zd_local_date := date; zd_start := instant; zd_end := instant |}
  end.

Definition allows_date (weekdays : gset DayOfWeek) (date : Date) : bool :=
  bool_decide (weekdays = ∅) || bool_decide (from_time (date_weekday date) ∈ weekdays).

(** [{year:04}-{month:02}] *)
Definition month_text (year : Z) (month : N) : list N := pad4 year ++ minus_sign :: pad_zeros 2 (dec_print month).

(** The dates [1..=month.length(year)] of a month. *)
Definition month_dates (year : Z) (month : N) : result RecurrenceError (list Date) :=
  foldM (λ dates day, let? date := ok_or (date_of_civil year month day) DateOutOfRange in Ok (dates ++ [date])) []
    (N.of_nat <$> seq 1 (N.to_nat (month_length month year))).

(** A [BTreeSet] of months iterates in lexicographic order. *)
Definition month_leb (a b : Z * N) : bool := (a.1 <? b.1)%Z || ((a.1 =? b.1)%Z && (a.2 <=? b.2)%N).

Definition month_buckets (request : PlanRequest) (days : list ZonedDayBoundary) (weekdays : gset DayOfWeek)
    : result RecurrenceError (list (list N * list ZonedDayBoundary)) :=
  let months : gset (Z * N) := list_to_set ((λ day, (date_year (zd_local_date day), date_month (zd_local_date day))) <$> days) in
  foldM (λ groups year_month,
    let '(year, month) := year_month in
    if negb ((1 <=? month)%N && (month <=? 12)%N) then Err DateOutOfRange
    else
      let? dates := month_dates year month in
      Ok (groups ++ [(month_text year month,
                      (λ date, resolved_boundary date days request) <$> filter (λ date, allows_date weekdays date = true) dates)]))
    [] (sort_by month_leb (elements months)).

Definition expand_monthly (request : PlanRequest) (item_id : ItemId) (days : list ZonedDayBoundary) (target : N)
    (weekdays : gset DayOfWeek) (spacing : Minutes) (label : BucketLabel) : result RecurrenceError (list Occurrence) :=
  let? groups := month_buckets request days weekdays in
  Ok (expand_calendar_buckets item_id groups target spacing request label).

Definition week_dates (start : Date) : result RecurrenceError (list Date) :=
  foldM (λ dates offset, let? date := ok_or (date_checked_add_days start offset) DateOutOfRange in Ok (dates ++ [date])) []
    (seqZ 0 7).

Definition complete_week_groups (request : PlanRequest) (days : list ZonedDayBoundary) (starts_on : DayOfWeek)
    (weekdays : gset DayOfWeek) : result RecurrenceError (list (Z * list ZonedDayBoundary)) :=
  let keys : gset Z := list_to_set ((λ day, week_key (zd_local_date day) starts_on) <$> days) in
  foldM (λ groups key,
    let? start := ok_or (from_julian_day key) DateOutOfRange in
    let? dates := week_dates start in
    Ok (groups ++ [(key, (λ date, resolved_boundary date days request) <$> filter (λ date, allows_date weekdays date = true) dates)]))
    [] (sort_by Z.leb (elements keys)).

Definition week_buckets (groups : list (Z * list ZonedDayBoundary)) : list (list N * list ZonedDayBoundary) :=
  (λ group, (print_Z group.1, group.2)) <$> groups.

Definition day_buckets (days : list ZonedDayBoundary) : list (list N * list ZonedDayBoundary) :=
  (λ day, (bytes_of (date_display (zd_local_date day)), [day])) <$> days.
End expansion.

(** ** Rolling recurrences *)

Definition nanos_text (t : OffsetDateTime) : list N := print_Z (unix_nanos t).

Section rolling.
Context `{Platform, Civil}.

Definition add_duration (t : OffsetDateTime) (d : Duration) : result RecurrenceError OffsetDateTime :=
  ok_or (odt_checked_add t d) DateOutOfRange.

Definition next_index (index : Z) : result RecurrenceError Z := ok_or (i64_add index 1) DateOutOfRange.

Definition occurrence_end_with_spacing (start natural_end : OffsetDateTime) (spacing : Minutes) : option OffsetDateTime :=
  spacing_end ← odt_checked_add start (duration_minutes spacing); Some (odt_max natural_end spacing_end).

Definition rolling_instant (anchor : OffsetDateTime) (interval : Duration) (index : Z) : result RecurrenceError OffsetDateTime :=
  let? index := ok_or (try_i32 index) DateOutOfRange in
  let? elapsed := ok_or (duration_checked_mul interval index) DateOutOfRange in
  add_duration anchor elapsed.

(** [while next <= horizon_start { index += 1 }] over a series of instants. *)
Fixpoint advance (fuel : nat) (instant : Z → result RecurrenceError OffsetDateTime) (from : OffsetDateTime) (index : Z)
    : result RecurrenceError Z :=
  match fuel with
  | O => Ok index
  | S fuel' =>
      let? next := next_index index in
      let? start := instant next in
      if odt_ltb from start then Ok index else advance fuel' instant from next
  end.

(** [while index > 0 && instant(index) > horizon_start { index -= 1 }] *)
Fixpoint retreat (fuel : nat) (instant : Z → result RecurrenceError OffsetDateTime) (from : OffsetDateTime) (index : Z)
    : result RecurrenceError Z :=
  match fuel with
  | O => Ok index
  | S fuel' =>
      if (index <=? 0)%Z then Ok index
      else
        let? start := instant index in
        if odt_ltb from start then retreat fuel' instant from (index - 1) else Ok index
  end.

(** The common loop of both expansions: one occurrence per index until the
    horizon ends. *)
Fixpoint roll (fuel : nat) (instant : Z → result RecurrenceError OffsetDateTime) (horizon_end : OffsetDateTime)
    (occurrence : Z → OffsetDateTime → result RecurrenceError Occurrence) (index : Z) (collected : list Occurrence)
    : result RecurrenceError (list Occurrence) :=
  match fuel with
  | O => Ok collected
  | S fuel' =>
      let? start := instant index in
      if odt_leb horizon_end start then Ok collected
      else
        let? _ := ok_or (try_u32 index) DateOutOfRange in
        let? made := occurrence index start in
        let? next := next_index index in
        roll fuel' instant horizon_end occurrence next (collected ++ [made])
  end.

(** Consecutive instants are a minute apart or more. *)
Definition roll_fuel (request : PlanRequest) : nat :=
  Z.to_nat ((unix_nanos (horizon_end request) - unix_nanos (horizon_start request)) / nanos_per_minute + 3).

Definition rolling_occurrence (request : PlanRequest) (item : WorkItem) (anchor : OffsetDateTime) (spacing : Minutes)
    (key : Z → list N) (natural_end : Z → OffsetDateTime → result RecurrenceError OffsetDateTime)
    (index : Z) (start : OffsetDateTime) : result RecurrenceError Occurrence :=
  let? natural_end := natural_end index start in
  let? nominal_end := ok_or (occurrence_end_with_spacing start natural_end spacing) DateOutOfRange in
  Ok (make_occurrence (wi_id item) (key index) (RollingMinutes index anchor) (start, nominal_end)
        (clip request start nominal_end) None).

Definition minutes_key (label : list N) (anchor : OffsetDateTime) (interval_minutes : Minutes) (index : Z) : list N :=
  key_of [label; nanos_text anchor; dec_print interval_minutes; print_Z index].

Definition expand_rolling_minutes (request : PlanRequest) (item : WorkItem) (anchor : OffsetDateTime)
    (interval_minutes : N) (spacing : Minutes) (label : list N) : result RecurrenceError (list Occurrence) :=
  if (interval_minutes =? 0)%N then Ok []
  else
    let interval := duration_minutes interval_minutes in
    let elapsed := duration_between (horizon_start request) anchor in
    let index := Z.max (whole_minutes elapsed / Z.of_N interval_minutes) 0 in
    let? index := advance (roll_fuel request) (rolling_instant anchor interval) (horizon_start request) index in
    roll (roll_fuel request) (rolling_instant anchor interval) (horizon_end request)
      (rolling_occurrence request item anchor spacing (minutes_key label anchor interval_minutes)
         (λ _ start, add_duration start interval))
      index [].

Definition rolling_frequency_instant (anchor : OffsetDateTime) (target period_minutes : N) (index : Z)
    : result RecurrenceError OffsetDateTime :=
  if (index <? 0)%Z || (target =? 0)%N then Err DateOutOfRange
  else
    let cycle := (index / Z.of_N target)%Z in
    let slot := (index mod Z.of_N target)%Z in
    let offset := (cycle * Z.of_N period_minutes + slot * Z.of_N period_minutes / Z.of_N target)%Z in
    if (i64_min_z <=? offset)%Z && (offset <=? i64_max_z)%Z then add_duration anchor (offset * nanos_per_minute) else Err DateOutOfRange.

Definition frequency_key (label : list N) (anchor : OffsetDateTime) (target period_minutes : N) (index : Z) : list N :=
  key_of [label; nanos_text anchor; dec_print target; dec_print period_minutes; print_Z index].

Definition expand_rolling_frequency (request : PlanRequest) (item : WorkItem) (anchor : OffsetDateTime)
    (target period_minutes : N) (spacing : Minutes) (label : list N) : result RecurrenceError (list Occurrence) :=
  if (target =? 0)%N || (period_minutes <? target)%N then Ok []
  else
    let instant := rolling_frequency_instant anchor target period_minutes in
    let elapsed_minutes := Z.max (whole_minutes (duration_between (horizon_start request) anchor)) 0 in
    let estimated_index := (elapsed_minutes * Z.of_N target / Z.of_N period_minutes)%Z in
    let? index := ok_or (i64_add estimated_index 0) DateOutOfRange in
    let? index := retreat (roll_fuel request) instant (horizon_start request) index in
    let? index := advance (roll_fuel request) instant (horizon_start request) index in
    roll (roll_fuel request) instant (horizon_end request)
      (rolling_occurrence request item anchor spacing (frequency_key label anchor target period_minutes)
         (λ index _, let? next := next_index index in instant next))
      index [].

Definition completion_key (anchor : OffsetDateTime) (interval : Minutes) : list N :=
  key_of [bytes_of "after-completion"; nanos_text anchor; dec_print interval].

Definition completion_anchor (request : PlanRequest) (item : WorkItem) : OffsetDateTime :=
  default (wi_created_at item) (rctx_completion_anchors (recurrence_context request) !! wi_id item).

Definition expand_after_completion (request : PlanRequest) (item : WorkItem) (interval spacing : Minutes)
    : result RecurrenceError (list Occurrence) :=
  let anchor := completion_anchor request item in
  let effective_interval := N.max interval spacing in
  let? due := add_duration anchor (duration_minutes effective_interval) in
  let? nominal_end := add_duration due (duration_minutes interval) in
  if odt_leb (horizon_end request) due || odt_leb nominal_end (horizon_start request) then Ok []
  else Ok [make_occurrence (wi_id item) (completion_key anchor interval) (IdentityAfterCompletion anchor)
             (due, nominal_end) (clip request due nominal_end) None].

(** ** Rolling months *)

(** [Month::try_from] and [Date::from_calendar_date] of a month offset. *)
Definition add_months (date : Date) (offset : Z) : result RecurrenceError Date :=
  let? value := ok_or (i64_add (month_index date) offset) DateOutOfRange in
  let? year := ok_or (try_i32 (value / 12)) DateOutOfRange in
  let month := Z.to_N (value mod 12 + 1) in
  let day := N.min (date_day date) (month_length month year) in
  ok_or (date_of_civil year month day) DateOutOfRange.

Definition boundary_instant (date : Date) (days : list ZonedDayBoundary) (fallback_offset : Z)
    : result RecurrenceError OffsetDateTime :=
  match List.find (λ day, zd_local_date day =? date)%Z days with
  | Some day => Ok (zd_start day)
  | None =>
      match List.find (λ day, bool_decide (date_next_day (zd_local_date day) = Some date)) days with
      | Some previous => Ok (zd_end previous)
      | None => midnight date fallback_offset
      end
  end.

(** The instant [index / target] of the way through a cycle. *)
Definition part_of_cycle (cycle_start : OffsetDateTime) (duration : Duration) (index target : N) : option OffsetDateTime :=
  value ← duration_checked_mul duration (Z.of_N index);
  value ← duration_checked_div value (Z.of_N target);
  odt_checked_add cycle_start value.

Definition month_cycle_key (anchor : OffsetDateTime) (target : N) (cycle : Z) (index : N) : list N :=
  key_of [bytes_of "frequency-rolling-month"; nanos_text anchor; dec_print target; print_Z cycle; dec_print index].

(** The occurrences of one cycle that meet the horizon. *)
Definition cycle_occurrences (request : PlanRequest) (item : WorkItem) (anchor : OffsetDateTime) (target : N)
    (spacing : Minutes) (cycle : Z) (cycle_start cycle_end : OffsetDateTime) (collected : list Occurrence)
    : result RecurrenceError (list Occurrence) :=
  let duration := duration_between cycle_end cycle_start in
  foldM (λ collected index,
    let? start := if (index =? 0)%N then Ok cycle_start else ok_or (part_of_cycle cycle_start duration index target) DateOutOfRange in
    let? natural_end :=
      if (index + 1 =? target)%N then Ok cycle_end
      else ok_or (part_of_cycle cycle_start duration (index + 1) target) DateOutOfRange in
    let? end_ := ok_or (occurrence_end_with_spacing start natural_end spacing) DateOutOfRange in
    if odt_ltb start (horizon_end request) && odt_ltb (horizon_start request) end_ then
      Ok (collected ++
          [make_occurrence (wi_id item) (month_cycle_key anchor target cycle index) (RollingMonth cycle index anchor)
             (start, end_) (clip request start end_) None])
    else Ok collected) collected (N.of_nat <$> seq 0 (N.to_nat target)).

(** The loop over the cycles: it ends with the horizon, or with the calendar,
    which has fewer than 240,000 months. *)
Fixpoint roll_months (fuel : nat) (request : PlanRequest) (item : WorkItem) (anchor : OffsetDateTime) (target : N)
    (spacing : Minutes) (days : list ZonedDayBoundary) (cycle : Z) (collected : list Occurrence)
    : result RecurrenceError (list Occurrence) :=
  match fuel with
  | O => Ok collected
  | S fuel' =>
      let? start_date := add_months (odt_date anchor) cycle in
      let? next_cycle := next_index cycle in
      let? end_date := add_months (odt_date anchor) next_cycle in
      let? cycle_start := boundary_instant start_date days (utc_offset (horizon_start request)) in
      let? cycle_end := boundary_instant end_date days (utc_offset (horizon_start request)) in
      if odt_leb (horizon_end request) cycle_start then Ok collected
      else
        let? collected :=
          if odt_ltb (horizon_start request) cycle_end
          then cycle_occurrences request item anchor target spacing cycle cycle_start cycle_end collected
          else Ok collected in
        roll_months fuel' request item anchor target spacing days next_cycle collected
  end.

Definition months_fuel : nat := Z.to_nat 240000.

Definition expand_rolling_months (request : PlanRequest) (item : WorkItem) (anchor : OffsetDateTime) (target : N)
    (spacing : Minutes) (days : list ZonedDayBoundary) : result RecurrenceError (list Occurrence) :=
  let first_date := match head days with Some day => zd_local_date day | None => odt_date (horizon_start request) end in
  let cycle := Z.max (month_index first_date - month_index (odt_date anchor) - 1) 0 in
  roll_months months_fuel request item anchor target spacing days cycle [].
End rolling.

(** ** Custom rules and series *)

Definition custom_identity_key `{Platform} `{Civil} (rule_id : Uuid) (sequence : N) (date : Date) : list N :=
  key_of [bytes_of "custom"; bytes_of (uuid_display rule_id); dec_print sequence; bytes_of (date_display date)].

Definition rolling_anchor (request : PlanRequest) (item : WorkItem) : OffsetDateTime :=
  default (wi_created_at item) (rctx_rolling_anchors (recurrence_context request) !! wi_id item).

Definition effective_rolling_anchor (request : PlanRequest) (item : WorkItem) (rule_anchor : option OffsetDateTime)
    : OffsetDateTime :=
  match rule_anchor with Some anchor => anchor | None => rolling_anchor request item end.

Definition DAY_MINUTES : N := 1440.
Definition WEEK_MINUTES : N := 10080.

Section series.
Context `{Platform, Civil}.

Definition first_week_day (request : PlanRequest) : DayOfWeek := week_starts_on (rctx_calendar (recurrence_context request)).

Definition find_day (days : list ZonedDayBoundary) (date : Date) : option ZonedDayBoundary :=
  List.find (λ day, zd_local_date day =? date)%Z days.

Definition custom_start (item : WorkItem) (day : ZonedDayBoundary) (date : Date) : OffsetDateTime :=
  if (date =? odt_date (wi_created_at item))%Z then odt_max (zd_start day) (wi_created_at item) else zd_start day.

Definition custom_occurrence (request : PlanRequest) (item : WorkItem) (rule : CustomRecurrenceRule)
    (days : list ZonedDayBoundary) (dated : N * Date) : list Occurrence :=
  let '(sequence, date) := dated in
  match find_day days date with
  | None => []
  | Some day =>
      let nominal_start := custom_start item day date in
      if odt_leb (zd_end day) nominal_start then []
      else
        in_window (make_occurrence (wi_id item) (custom_identity_key (rule_id rule) sequence date)
          (CustomRule (rule_id rule) sequence date) (nominal_start, zd_end day) (clip request nominal_start (zd_end day)) (Some date))
  end.

Definition expand_custom (request : PlanRequest) (item : WorkItem) (rrule : list N) (days : list ZonedDayBoundary)
    : result RecurrenceError (list Occurrence) :=
  let? rule := map_err (custom_rule_error (wi_id item)) (parse_custom_rrule rrule) in
  match last days with
  | None => Ok []
  | Some day =>
      let? dates := map_err (custom_rule_error (wi_id item))
        (occurrence_dates_through rule (odt_date (wi_created_at item)) (zd_local_date day) (first_week_day request)) in
      Ok (dates ≫= custom_occurrence request item rule days)
  end.

Definition expand_weeks (request : PlanRequest) (item : WorkItem) (days : list ZonedDayBoundary) (target : N)
    (weekdays : gset DayOfWeek) (label : BucketLabel) : result RecurrenceError (list Occurrence) :=
  let? groups := complete_week_groups request days (first_week_day request) weekdays in
  Ok (expand_calendar_buckets (wi_id item) (week_buckets groups) target (minimum_spacing request item) request label).

Definition expand_series (request : PlanRequest) (item : WorkItem) (recurrence : Recurrence) (days : list ZonedDayBoundary)
    : result RecurrenceError (list Occurrence) :=
  let spacing := minimum_spacing request item in
  match recurrence with
  | Daily times_per_day => Ok (expand_calendar_buckets (wi_id item) (day_buckets days) times_per_day spacing request daily)
  | Weekly times_per_week weekdays => expand_weeks request item days times_per_week weekdays weekly
  | Monthly times_per_month => expand_monthly request (wi_id item) days times_per_month ∅ spacing monthly
  | EveryInterval interval =>
      expand_rolling_minutes request item (rolling_anchor request item) interval spacing (bytes_of "interval")
  | AfterCompletion interval => expand_after_completion request item interval spacing
  | Frequency target period Calendar weekdays _ _ =>
      match period with
      | Day =>
          Ok (expand_calendar_buckets (wi_id item)
                (day_buckets (filter (λ day, allows_date weekdays (zd_local_date day) = true) days)) target spacing request
                frequency_calendar_day)
      | Week => expand_weeks request item days target weekdays frequency_calendar_week
      | Month => expand_monthly request (wi_id item) days target weekdays spacing frequency_calendar_month
      end
  | Frequency target period Rolling _ _ anchor =>
      let anchor := effective_rolling_anchor request item anchor in
      match period with
      | Day => expand_rolling_frequency request item anchor target DAY_MINUTES spacing (bytes_of "frequency-rolling-day")
      | Week => expand_rolling_frequency request item anchor target WEEK_MINUTES spacing (bytes_of "frequency-rolling-week")
      | Month => expand_rolling_months request item anchor target spacing days
      end
  | Custom rrule => expand_custom request item (bytes_of rrule) days
  end.

(** ** Pauses and exceptions *)

Definition with_state (o : Occurrence) (state : OccurrenceState) : Occurrence :=
  {| occ_id := occ_id o; occ_series_item_id := occ_series_item_id o; occ_identity := occ_identity o;
     occ_nominal_start := occ_nominal_start o; occ_nominal_end := occ_nominal_end o;
     occ_window_start := occ_window_start o; occ_window_end := occ_window_end o;
     occ_local_date := occ_local_date o; occ_ordinal := occ_ordinal o; occ_state := state |}.

Definition moved_to (o : Occurrence) (start end_ : OffsetDateTime) : Occurrence :=
  {| occ_id := occ_id o; occ_series_item_id := occ_series_item_id o; occ_identity := occ_identity o;
     occ_nominal_start := occ_nominal_start o; occ_nominal_end := occ_nominal_end o;
     occ_window_start := start; occ_window_end := end_;
     occ_local_date := occ_local_date o; occ_ordinal := occ_ordinal o; occ_state := OccurrenceState.Generated |}.

Definition contained (request : PlanRequest) (start end_ : OffsetDateTime) : bool :=
  odt_leb (horizon_start request) start && odt_leb end_ (horizon_end request).

Definition selects (selector : RecurrenceExceptionSelector) (o : Occurrence) : bool :=
  match selector with
  | SelectOccurrence id => (id =? occ_id o)%N
  | SelectLocalDate date => bool_decide (occ_local_date o = Some date)
  | SelectNominalStart at_ => odt_eqb (occ_nominal_start o) at_
  end.

Definition apply_exception (request : PlanRequest) (o : Occurrence) (exception : RecurrenceException) : Occurrence :=
  if selects (rx_selector exception) o then
    match rx_action exception with
    | ActionSkip => with_state o OccurrenceState.Skipped
    | ActionMove start end_ _ =>
        if contained request start end_ then moved_to o start end_ else with_state o OccurrenceState.Paused
    end
  else o.

Definition is_paused (request : PlanRequest) (item_id : ItemId) (o : Occurrence) : bool :=
  existsb (λ pause, (rpz_item_id pause =? item_id)%N && odt_ltb (rpz_start pause) (occ_window_end o) &&
                    odt_ltb (occ_window_start o) (rpz_end pause)) (rctx_pauses (recurrence_context request)).

Definition item_exceptions (request : PlanRequest) (item_id : ItemId) : list RecurrenceException :=
  filter (λ exception, rx_item_id exception = item_id) (rctx_exceptions (recurrence_context request)).

(** The body of the loop of [apply_pauses_and_exceptions]. *)
Definition settle_occurrence (request : PlanRequest) (item_id : ItemId) (o : Occurrence) : Occurrence :=
  if bool_decide (occ_id o ∈ rctx_completed_occurrence_ids (recurrence_context request))
  then with_state o OccurrenceState.Completed
  else
    let o := foldl (apply_exception request) o (item_exceptions request item_id) in
    if bool_decide (occ_state o = OccurrenceState.Generated) && is_paused request item_id o
    then with_state o OccurrenceState.Paused
    else o.

Definition apply_pauses_and_exceptions (request : PlanRequest) (item_id : ItemId) (occurrences : list Occurrence)
    : list Occurrence := settle_occurrence request item_id <$> occurrences.
End series.

(** ** Proofs of identity of moved occurrences *)

(** Equal instants at equal offsets *)
Definition same_zoned (a b : OffsetDateTime) : bool := odt_eqb a b && (utc_offset a =? utc_offset b)%Z.

Record CustomMoveProof : Type := { cmp_rule_id : Uuid; cmp_dates : list Date }.

Section moves.
Context `{Platform, Civil}.

Definition authoritative_day_boundary (request : PlanRequest) (date : Date) : option ZonedDayBoundary :=
  let calendar := rctx_calendar (recurrence_context request) in
  if negb (bool_decide (rc_days calendar = [])) then
    _ ← time_zone_id calendar; find_day (rc_days calendar) date
  else
    let offset := utc_offset (horizon_start request) in
    next ← date_next_day date;
    Some {| zd_local_date := date; zd_start := midnight_at date offset; zd_end := midnight_at next offset |}.

Definition authoritative_boundary_instant (request : PlanRequest) (date : Date) : option OffsetDateTime :=
  let calendar := rctx_calendar (recurrence_context request) in
  if negb (bool_decide (rc_days calendar = [])) then
    _ ← time_zone_id calendar;
    head (omap (λ day, if (zd_local_date day =? date)%Z then Some (zd_start day)
                       else if bool_decide (date_next_day (zd_local_date day) = Some date) then Some (zd_end day)
                       else None) (rc_days calendar))
  else Some (midnight_at date (utc_offset (horizon_start request))).

(** The arithmetic on [usize] stays below [u16::MAX * 32]. *)
Definition calendar_occurrence_bounds (day : ZonedDayBoundary) (target : N) (eligible_day_count : nat) (bucket_ordinal : N)
    (spacing : Minutes) : option (OffsetDateTime * OffsetDateTime) :=
  let eligible := N.of_nat eligible_day_count in
  if (target =? 0)%N || (target <=? bucket_ordinal)%N || (eligible_day_count =? 0) then None
  else
    let day_index := (bucket_ordinal * eligible / target)%N in
    let first := ((day_index * target + (eligible - 1)) / eligible)%N in
    let after_last := (((day_index + 1) * target + (eligible - 1)) / eligible)%N in
    position ← checked_sub bucket_ordinal first;
    count ← checked_sub after_last first;
    position ← try_i32 (Z.of_N position);
    count ← try_i32 (Z.of_N count);
    let day_duration := duration_between (zd_end day) (zd_start day) in
    start_offset ← duration_checked_mul day_duration position;
    start_offset ← duration_checked_div start_offset count;
    start ← odt_checked_add (zd_start day) start_offset;
    end_ ←
      (if (position + 1 =? count)%Z then Some (zd_end day)
       else
         end_offset ← duration_checked_mul day_duration (position + 1);
         end_offset ← duration_checked_div end_offset count;
         odt_checked_add (zd_start day) end_offset);
    Some (start, odt_max end_ (spacing_end_in day start spacing)).

Definition calendar_source_matches (request : PlanRequest) (item : WorkItem) (source : RecurrenceMoveSource) (date : Date)
    (target : N) (eligible_day_count : nat) (bucket_ordinal : N) : bool :=
  match authoritative_day_boundary request date with
  | None => false
  | Some day =>
      match calendar_occurrence_bounds day target eligible_day_count bucket_ordinal (minimum_spacing request item) with
      | None => false
      | Some (expected_start, expected_end) =>
          same_zoned (ms_nominal_start source) expected_start && same_zoned (ms_nominal_end source) expected_end
      end
  end.

Definition allocated_date (dates : list Date) (target bucket_ordinal : N) : option Date :=
  if (target =? 0)%N || (target <=? bucket_ordinal)%N || bool_decide (dates = []) then None
  else dates !! N.to_nat (bucket_ordinal * N.of_nat (length dates) / target).

Definition allocated_week_date (identity_week_key : Z) (starts_on : DayOfWeek) (weekdays : gset DayOfWeek)
    (target bucket_ordinal : N) : option Date :=
  start ← from_julian_day identity_week_key;
  if negb (week_key start starts_on =? identity_week_key)%Z || negb (bool_decide (from_time (date_weekday start) = starts_on))
  then None
  else
    allocated_date (filter (λ date, allows_date weekdays date = true) (omap (date_checked_add_days start) (seqZ 0 7)))
      target bucket_ordinal.

(** The dates of a month the weekdays allow. *)
Definition eligible_month_dates (year : Z) (month : N) (weekdays : gset DayOfWeek) : list Date :=
  filter (λ date, allows_date weekdays date = true)
    (omap (date_of_civil year month) (N.of_nat <$> seq 1 (N.to_nat (month_length month year)))).

Definition valid_month (month : N) : bool := (1 <=? month)%N && (month <=? 12)%N.

Definition allocated_month_date (year : Z) (month : N) (weekdays : gset DayOfWeek) (target bucket_ordinal : N) : option Date :=
  if valid_month month then allocated_date (eligible_month_dates year month weekdays) target bucket_ordinal else None.

Definition rolling_month_source_matches (request : PlanRequest) (source : RecurrenceMoveSource) (anchor : OffsetDateTime)
    (cycle : Z) (index target : N) (spacing : Minutes) : bool :=
  match
    (next_cycle ← i64_add cycle 1;
     start_date ← match add_months (odt_date anchor) cycle with Ok date => Some date | Err _ => None end;
     end_date ← match add_months (odt_date anchor) next_cycle with Ok date => Some date | Err _ => None end;
     cycle_start ← authoritative_boundary_instant request start_date;
     cycle_end ← authoritative_boundary_instant request end_date;
     let duration := duration_between cycle_end cycle_start in
     expected_start ← part_of_cycle cycle_start duration index target;
     natural_end ← (if (index + 1 =? target)%N then Some cycle_end else part_of_cycle cycle_start duration (index + 1) target);
     expected_end ← occurrence_end_with_spacing expected_start natural_end spacing;
     Some (expected_start, expected_end)) with
  | Some (expected_start, expected_end) =>
      same_zoned (ms_nominal_start source) expected_start && same_zoned (ms_nominal_end source) expected_end
  | None => false
  end.

(** The test both rolling forms share once the expected span is known. *)
Definition rolling_source_matches (source : RecurrenceMoveSource) (anchor identity_anchor expected_start expected_end : OffsetDateTime)
    : bool :=
  same_zoned identity_anchor anchor && same_zoned (ms_nominal_start source) expected_start &&
  same_zoned (ms_nominal_end source) expected_end && bool_decide (ms_local_date source = None).

Definition validated_rolling_minute_name (source : RecurrenceMoveSource) (anchor identity_anchor : OffsetDateTime)
    (interval_minutes : N) (spacing : Minutes) (index : Z) (label : list N) : option (list N * option Date) :=
  index ← try_i32 index;
  let interval := duration_minutes interval_minutes in
  elapsed ← duration_checked_mul interval index;
  expected_start ← odt_checked_add anchor elapsed;
  natural_end ← odt_checked_add expected_start interval;
  expected_end ← occurrence_end_with_spacing expected_start natural_end spacing;
  if rolling_source_matches source anchor identity_anchor expected_start expected_end
  then Some (minutes_key label anchor interval_minutes index, None) else None.

Definition result_ok {E A} (m : result E A) : option A := match m with Ok a => Some a | Err _ => None end.

Definition validated_rolling_frequency_name (source : RecurrenceMoveSource) (anchor identity_anchor : OffsetDateTime)
    (target : N) (period : RecurrencePeriod) (spacing : Minutes) (index : Z) : option (list N * option Date) :=
  '(period_minutes, label) ←
    match period with
    | Day => Some (DAY_MINUTES, bytes_of "frequency-rolling-day")
    | Week => Some (WEEK_MINUTES, bytes_of "frequency-rolling-week")
    | Month => None
    end;
  expected_start ← result_ok (rolling_frequency_instant anchor target period_minutes index);
  next ← i64_add index 1;
  natural_end ← result_ok (rolling_frequency_instant anchor target period_minutes next);
  expected_end ← occurrence_end_with_spacing expected_start natural_end spacing;
  if rolling_source_matches source anchor identity_anchor expected_start expected_end
  then Some (frequency_key label anchor target period_minutes index, None) else None.
End moves.

Section identity.
Context `{Platform, Civil}.

(** The source spans the local day [date]. *)
Definition local_day_is_plausible (source : RecurrenceMoveSource) (date : Date) : bool :=
  bool_decide (ms_local_date source = Some date) && (odt_date (ms_nominal_start source) =? date)%Z &&
  match odt_checked_sub (ms_nominal_end source) 1 with
  | Some value => (odt_date value =? date)%Z
  | None => false
  end.

Definition weekday_count (weekdays : gset DayOfWeek) : nat := if bool_decide (weekdays = ∅) then 7 else size weekdays.

Definition bucket_key (label : BucketLabel) (key : list N) (bucket_ordinal : N) : list N :=
  key_of [label_text label; key; dec_print bucket_ordinal].

(** The arms of the match on the recurrence and the identity. *)
Definition day_identity_name (request : PlanRequest) (item : WorkItem) (source : RecurrenceMoveSource) (label : BucketLabel)
    (target : N) (weekdays : gset DayOfWeek) (date : Date) (bucket_ordinal : N) : option (list N * option Date) :=
  if (bucket_ordinal <? target)%N && allows_date weekdays date && local_day_is_plausible source date &&
     calendar_source_matches request item source date target 1 bucket_ordinal
  then Some (bucket_key label (bytes_of (date_display date)) bucket_ordinal, Some date) else None.

Definition week_identity_name (request : PlanRequest) (item : WorkItem) (source : RecurrenceMoveSource) (label : BucketLabel)
    (target : N) (weekdays : gset DayOfWeek) (identity_week_key : Z) (bucket_ordinal : N) : option (list N * option Date) :=
  date ← allocated_week_date identity_week_key (first_week_day request) weekdays target bucket_ordinal;
  if local_day_is_plausible source date &&
     calendar_source_matches request item source date target (weekday_count weekdays) bucket_ordinal
  then Some (bucket_key label (print_Z identity_week_key) bucket_ordinal, Some date) else None.

Definition month_identity_name (request : PlanRequest) (item : WorkItem) (source : RecurrenceMoveSource) (label : BucketLabel)
    (target : N) (weekdays : gset DayOfWeek) (eligible_day_count : nat) (year : Z) (month bucket_ordinal : N)
    : option (list N * option Date) :=
  date ← allocated_month_date year month weekdays target bucket_ordinal;
  if local_day_is_plausible source date && calendar_source_matches request item source date target eligible_day_count bucket_ordinal
  then Some (bucket_key label (month_text year month) bucket_ordinal, Some date) else None.

Definition completion_identity_name (request : PlanRequest) (item : WorkItem) (source : RecurrenceMoveSource)
    (interval : Minutes) (anchor : OffsetDateTime) : option (list N * option Date) :=
  let effective_anchor := completion_anchor request item in
  let effective_interval := N.max interval (minimum_spacing request item) in
  due ← odt_checked_add effective_anchor (duration_minutes effective_interval);
  expected_end ← odt_checked_add due (duration_minutes interval);
  if rolling_source_matches source effective_anchor anchor due expected_end
  then Some (completion_key anchor interval, None) else None.

Definition rolling_month_identity_name (request : PlanRequest) (item : WorkItem) (source : RecurrenceMoveSource)
    (target : N) (rule_anchor : option OffsetDateTime) (cycle : Z) (index : N) (identity_anchor : OffsetDateTime)
    : option (list N * option Date) :=
  if (0 <=? cycle)%Z && (cycle <=? 2 ^ 31 - 1)%Z && (index <? target)%N then
    let effective_anchor := effective_rolling_anchor request item rule_anchor in
    if same_zoned identity_anchor effective_anchor &&
       rolling_month_source_matches request source effective_anchor cycle index target (minimum_spacing request item) &&
       bool_decide (ms_local_date source = None)
    then Some (month_cycle_key effective_anchor target cycle index, None) else None
  else None.

Definition custom_identity_name (request : PlanRequest) (item : WorkItem) (source : RecurrenceMoveSource)
    (custom_proof : option CustomMoveProof) (rule_id : Uuid) (sequence : N) (date : Date) : option (list N * option Date) :=
  proof ← custom_proof;
  if negb (cmp_rule_id proof =? rule_id)%N || negb (bool_decide (cmp_dates proof !! N.to_nat sequence = Some date)) ||
     negb (local_day_is_plausible source date)
  then None
  else
    day ← find_day (calendar_days request) date;
    _ ← time_zone_id (rctx_calendar (recurrence_context request));
    if same_zoned (ms_nominal_start source) (custom_start item day date) && same_zoned (ms_nominal_end source) (zd_end day)
    then Some (custom_identity_key rule_id sequence date, Some date) else None.

Definition validated_identity_name (request : PlanRequest) (item : WorkItem) (recurrence : Recurrence)
    (source : RecurrenceMoveSource) (custom_proof : option CustomMoveProof) : option (list N * option Date) :=
  match recurrence, ms_identity source with
  | Daily times_per_day, CalendarDay date bucket_ordinal =>
      day_identity_name request item source daily times_per_day ∅ date bucket_ordinal
  | Weekly times_per_week weekdays, CalendarWeek identity_week_key bucket_ordinal =>
      week_identity_name request item source weekly times_per_week weekdays identity_week_key bucket_ordinal
  | Monthly times_per_month, CalendarMonth year month bucket_ordinal =>
      month_identity_name request item source monthly times_per_month ∅ (N.to_nat (month_length month year)) year month bucket_ordinal
  | EveryInterval interval, RollingMinutes index anchor =>
      validated_rolling_minute_name source (effective_rolling_anchor request item None) anchor interval
        (minimum_spacing request item) index (bytes_of "interval")
  | AfterCompletion interval, IdentityAfterCompletion anchor => completion_identity_name request item source interval anchor
  | Frequency target Day Calendar weekdays _ _, CalendarDay date bucket_ordinal =>
      day_identity_name request item source frequency_calendar_day target weekdays date bucket_ordinal
  | Frequency target Week Calendar weekdays _ _, CalendarWeek identity_week_key bucket_ordinal =>
      week_identity_name request item source frequency_calendar_week target weekdays identity_week_key bucket_ordinal
  | Frequency target Month Calendar weekdays _ _, CalendarMonth year month bucket_ordinal =>
      month_identity_name request item source frequency_calendar_month target weekdays
        (length (eligible_month_dates year month weekdays)) year month bucket_ordinal
  | Frequency target ((Day | Week) as period) Rolling _ _ anchor, RollingMinutes index identity_anchor =>
      validated_rolling_frequency_name source (effective_rolling_anchor request item anchor) identity_anchor target period
        (minimum_spacing request item) index
  | Frequency target Month Rolling _ _ anchor, RollingMonth cycle index identity_anchor =>
      rolling_month_identity_name request item source target anchor cycle index identity_anchor
  | Custom _, CustomRule rule_id sequence date => custom_identity_name request item source custom_proof rule_id sequence date
  | _, _ => None
  end.

Definition move_source_is_valid (request : PlanRequest) (item : WorkItem) (recurrence : Recurrence) (id : OccurrenceId)
    (source : RecurrenceMoveSource) (custom_proof : option CustomMoveProof) : bool :=
  if negb (uuid_version id =? 5)%N || negb (ms_item_revision source =? wi_revision item)%N ||
     negb (bool_decide (stable_ordinal (ms_identity source) = Some (ms_ordinal source)))
  then false
  else
    match validated_identity_name request item recurrence source custom_proof with
    | None => false
    | Some (key, expected_local_date) =>
        (id =? uuid_new_v5 (wi_id item) key)%N && bool_decide (ms_local_date source = expected_local_date)
    end.
End identity.

(** ** Moved occurrences of the horizon *)

Section moved.
Context `{Platform, Civil}.

Definition is_move (exception : RecurrenceException) : bool :=
  match rx_action exception with ActionMove _ _ _ => true | ActionSkip => false end.

Definition custom_move_proof (request : PlanRequest) (item : WorkItem) (recurrence : Recurrence)
    : result RecurrenceError (option CustomMoveProof) :=
  match recurrence with
  | Custom rrule =>
      if existsb is_move (item_exceptions request (wi_id item)) then
        let? rule := map_err (custom_rule_error (wi_id item)) (parse_custom_rrule (bytes_of rrule)) in
        let? dates := map_err (custom_rule_error (wi_id item))
          (all_occurrence_dates rule (odt_date (wi_created_at item)) (first_week_day request)) in
        Ok (Some {| cmp_rule_id := rule_id rule; cmp_dates := dates |})
      else Ok None
  | _ => Ok None
  end.

(** The variables of the loop over the exceptions. *)
Record MoveState : Type := {
  mv_moved_ids : gset OccurrenceId;
  mv_indices : gmap OccurrenceId nat;
  mv_occurrences : list Occurrence
}.

Definition index_occurrence_ids (occurrences : list Occurrence) : result RecurrenceError (gmap OccurrenceId nat) :=
  foldM (λ indices p,
    if bool_decide (is_Some (indices !! occ_id p.2)) then Err (DuplicateOccurrence (occ_id p.2))
    else Ok (<[occ_id p.2 := p.1]> indices)) ∅ (imap pair occurrences).

(** The source's metadata on an occurrence the expansion produced. *)
Definition with_source (o : Occurrence) (source : RecurrenceMoveSource) : Occurrence :=
  {| occ_id := occ_id o; occ_series_item_id := occ_series_item_id o; occ_identity := ms_identity source;
     occ_nominal_start := ms_nominal_start source; occ_nominal_end := ms_nominal_end source;
     occ_window_start := occ_window_start o; occ_window_end := occ_window_end o;
     occ_local_date := ms_local_date source; occ_ordinal := ms_ordinal source; occ_state := occ_state o |}.

Definition is_rolling_month (recurrence : Recurrence) : bool :=
  match recurrence with Frequency _ Month Rolling _ _ _ => true | _ => false end.

Definition source_matches_occurrence (recurrence : Recurrence) (o : Occurrence) (source : RecurrenceMoveSource) : bool :=
  identity_eqb (occ_identity o) (ms_identity source) && bool_decide (occ_local_date o = ms_local_date source) &&
  (is_rolling_month recurrence ||
   odt_eqb (occ_nominal_start o) (ms_nominal_start source) && odt_eqb (occ_nominal_end o) (ms_nominal_end source)).

Definition restored_occurrence (item_id : ItemId) (id : OccurrenceId) (start end_ : OffsetDateTime)
    (source : RecurrenceMoveSource) : Occurrence :=
  {| occ_id := id; occ_series_item_id := item_id; occ_identity := ms_identity source;
     occ_nominal_start := ms_nominal_start source; occ_nominal_end := ms_nominal_end source;
     occ_window_start := start; occ_window_end := end_; occ_local_date := ms_local_date source;
     occ_ordinal := ms_ordinal source; occ_state := OccurrenceState.Generated |}.

(** An occurrence already expanded takes the source's metadata. *)
Definition update_existing (item_id : ItemId) (recurrence : Recurrence) (id : OccurrenceId) (source : RecurrenceMoveSource)
    (st : MoveState) : result RecurrenceError (list Occurrence) :=
  match mv_indices st !! id with
  | None => Ok (mv_occurrences st)
  | Some index =>
      match mv_occurrences st !! index with
      | None => Ok (mv_occurrences st)
      | Some o =>
          if source_matches_occurrence recurrence o source
          then Ok (<[index := with_source o source]> (mv_occurrences st))
          else Err (InvalidMoveSource item_id)
      end
  end.

Definition crosses_horizon (request : PlanRequest) (start end_ : OffsetDateTime) : bool :=
  negb (contained request start end_) && odt_ltb start (horizon_end request) && odt_ltb (horizon_start request) end_.

Definition append_move (request : PlanRequest) (item : WorkItem) (recurrence : Recurrence)
    (custom_proof : option CustomMoveProof) (st : MoveState) (exception : RecurrenceException) : result RecurrenceError MoveState :=
  match rx_selector exception, rx_action exception with
  | SelectOccurrence id, ActionMove start end_ source =>
      if bool_decide (id ∈ mv_moved_ids st) || negb (move_source_is_valid request item recurrence id source custom_proof)
      then Err (InvalidMoveSource (wi_id item))
      else
        let? occurrences := update_existing (wi_id item) recurrence id source st in
        if crosses_horizon request start end_ then Err (MoveCrossesHorizon (wi_id item))
        else
          let moved_ids := {[id]} ∪ mv_moved_ids st in
          if bool_decide (mv_indices st !! id = None) && contained request start end_
          then Ok {| mv_moved_ids := moved_ids; mv_indices := <[id := length occurrences]> (mv_indices st);
                     mv_occurrences := occurrences ++ [restored_occurrence (wi_id item) id start end_ source] |}
          else Ok {| mv_moved_ids := moved_ids; mv_indices := mv_indices st; mv_occurrences := occurrences |}
  | _, _ => Ok st
  end.

Definition append_moved_occurrences_for_horizon (request : PlanRequest) (item : WorkItem) (recurrence : Recurrence)
    (occurrences : list Occurrence) : result RecurrenceError (list Occurrence) :=
  let? custom_proof := custom_move_proof request item recurrence in
  let? indices := index_occurrence_ids occurrences in
  let? st := foldM (append_move request item recurrence custom_proof)
    {| mv_moved_ids := ∅; mv_indices := indices; mv_occurrences := occurrences |} (item_exceptions request (wi_id item)) in
  Ok (mv_occurrences st).

(** ** All occurrences of a request *)

Definition series_occurrences (request : PlanRequest) (days : list ZonedDayBoundary) (item : WorkItem)
    : result RecurrenceError (list Occurrence) :=
  match recurrence_of item with
  | None => Ok []
  | Some recurrence =>
      let? occurrences := expand_series request item recurrence days in
      let? occurrences := append_moved_occurrences_for_horizon request item recurrence occurrences in
      Ok (apply_pauses_and_exceptions request (wi_id item) occurrences)
  end.

Definition request_roots (request : PlanRequest) : list ItemId :=
  recurrence_roots (items request) (collect_by_id (items request)) (children_by_parent (items request)).

(** [by_id[&root]] for the roots *)
Definition root_items (request : PlanRequest) : list WorkItem :=
  omap (λ root, collect_by_id (items request) !! root) (request_roots request).

Definition check_owners (occurrences : list Occurrence) : result RecurrenceError (gmap OccurrenceId Occurrence) :=
  foldM (λ owners o,
    if bool_decide (is_Some (owners !! occ_id o)) then Err (DuplicateOccurrence (occ_id o))
    else Ok (<[occ_id o := o]> owners)) ∅ occurrences.

Definition valid_progress_shape (progress : RecurrencePartialProgress) : bool :=
  (1 <=? rp_progress_basis_points progress)%N && (rp_progress_basis_points progress <? HABIT_BASIS_POINTS_SCALE)%N &&
  negb (rp_expected_duration_minutes progress =? 0)%N &&
  (rp_expected_duration_minutes progress <=? MAX_DEPENDENCY_LAG_MINUTES)%N &&
  match rp_remaining_duration_minutes progress with
  | Some remaining =>
      negb (remaining =? 0)%N && (remaining <=? rp_expected_duration_minutes progress)%N &&
      (remaining <=? MAX_DEPENDENCY_LAG_MINUTES)%N
  | None => true
  end.

Definition is_habit (item : WorkItem) : bool := match wi_kind item with Habit _ => true | _ => false end.

Definition valid_progress_occurrence (by_id : gmap ItemId WorkItem) (o : Occurrence) : bool :=
  (bool_decide (occ_state o = OccurrenceState.Generated) || bool_decide (occ_state o = OccurrenceState.Paused)) &&
  match by_id !! occ_series_item_id o with Some item => is_habit item | None => false end.

Definition check_partial_progress (by_id : gmap ItemId WorkItem) (owners : gmap OccurrenceId Occurrence)
    (p : OccurrenceId * RecurrencePartialProgress) : result RecurrenceError unit :=
  let valid_occurrence := match owners !! p.1 with Some o => valid_progress_occurrence by_id o | None => false end in
  if valid_progress_shape p.2 && valid_occurrence then Ok tt else Err (InvalidPartialProgress p.1).

Definition occurrence_cmp (a b : Occurrence) : comparison :=
  then_with (odt_cmp (occ_nominal_start a) (occ_nominal_start b))
    (then_with (occ_series_item_id a ?= occ_series_item_id b)%N
       (then_with (occ_ordinal a ?= occ_ordinal b)%N (occ_id a ?= occ_id b)%N)).

Definition sort_occurrences (l : list Occurrence) : list Occurrence := sort_by (λ a b, is_le (occurrence_cmp a b)) l.

(** A move must name a recurring root. *)
Definition check_move_roots (request : PlanRequest) : result RecurrenceError unit :=
  match List.find (λ exception, is_move exception && negb (bool_decide (rx_item_id exception ∈ request_roots request)))
          (rctx_exceptions (recurrence_context request)) with
  | Some exception => Err (InvalidException (rx_item_id exception))
  | None => Ok tt
  end.

Definition expand_occurrences_validated (request : PlanRequest) : result RecurrenceError (list Occurrence) :=
  let? _ := validate_recurrence_context request in
  let? days := resolved_days request in
  let? _ := check_move_roots request in
  let? occurrences :=
    foldM (λ result item, let? occurrences := series_occurrences request days item in Ok (result ++ occurrences)) []
      (root_items request) in
  let? owners := check_owners occurrences in
  let? _ := forM (check_partial_progress (collect_by_id (items request)) owners)
              (entries (rctx_partial_progress (recurrence_context request))) in
  Ok (sort_occurrences occurrences).

Definition expand_occurrences (request : PlanRequest) : result RecurrenceError (list Occurrence) :=
  let? _ := map_err InvalidHierarchy (roll_up_expected_durations (items request)) in
  expand_occurrences_validated request.
End moved.
