(* ===== verification/Horizon.v ===== *)
(** * Horizon: what the expansion of recurrences promises

    Lemmas about Expansion: rolling series are expanded exactly over the horizon
    and their loops end within their fuel, and the occurrences of calendar buckets
    have the ordinals and days the proof of a moved occurrence expects. *)
From S2P Require Import Prelude Text Tokens Platform Civil Domain Samples Forest Rollup Order Rrule Expansion.

(** [lia] reads quotients and remainders by constants. *)
#[local] Ltac Zify.zify_post_hook ::= Z.to_euclidean_division_equations.

(** ** Rolling series *)

Section series.
Context (instant : Z → result RecurrenceError OffsetDateTime).

(** Consecutive instants of a series are a minute apart or more. *)
Definition spaced : Prop :=
  ∀ i (a b : OffsetDateTime), (0 <= i)%Z → instant i = Ok a → instant (i + 1) = Ok b → (a + nanos_per_minute <= b)%Z.

Hypothesis Hspaced : spaced.

Lemma next_index_ok i j : next_index i = Ok j → j = (i + 1)%Z.
Proof. unfold next_index, i64_add. intros Hj%ok_or_ok. destruct (_ && _); [by simplify_eq|done]. Qed.

(** What [advance] finds: the last index whose instant is not after [from]. *)
Lemma advance_ok fuel (from : OffsetDateTime) index j (t : OffsetDateTime) :
  (0 <= index)%Z → instant (index + 1) = Ok t → (from < t + (Z.of_nat fuel - 1) * nanos_per_minute)%Z → 0 < fuel →
  advance fuel instant from index = Ok j →
  (index <= j)%Z ∧ (∃ t' : OffsetDateTime, instant (j + 1) = Ok t' ∧ (from < t')%Z) ∧
  (j = index ∨ ∃ t' : OffsetDateTime, instant j = Ok t' ∧ (t' <= from)%Z).
Proof using All.
  revert index t. induction fuel as [|fuel IH]; intros index t Hi Ht Hlt Hf Ha; [lia|]. cbn [advance] in Ha.
  apply rbind_ok in Ha as (n & ->%next_index_ok & (s & Hs & Ha)%rbind_ok). rewrite Ht in Hs. injection Hs as <-.
  destruct (odt_ltb from t) eqn:E; instants.
  - injection Ha as <-. split_and!; [lia|by exists t|by left].
  - destruct fuel as [|fuel]; [simpl in *; lia|].
    destruct (instant (index + 1 + 1)) as [t2|e] eqn:E2.
    + pose proof (Hspaced (index + 1)%Z t t2 ltac:(lia) Ht E2).
      destruct (IH (index + 1)%Z t2 ltac:(lia) E2 ltac:(unfold nanos_per_minute in *; lia) ltac:(lia) Ha) as (? & ? & [->|?]);
        split_and!; try done; [lia|right; by exists t|lia|by right].
    + cbn [advance] in Ha. apply rbind_ok in Ha as (n & ->%next_index_ok & (s & Hs & _)%rbind_ok). congruence.
Qed.

(** What [roll] collects: one occurrence for every index from the first on whose
    instant is before the end of the horizon. *)
Lemma roll_ok fuel (horizon_end : OffsetDateTime) occurrence index collected l (t : OffsetDateTime) :
  (0 <= index)%Z → instant index = Ok t → (horizon_end <= t + (Z.of_nat fuel - 1) * nanos_per_minute)%Z → 0 < fuel →
  roll fuel instant horizon_end occurrence index collected = Ok l →
  ∃ made, l = collected ++ made ∧
    (∀ k o, made !! k = Some o → ∃ s : OffsetDateTime, instant (index + Z.of_nat k) = Ok s ∧ (s < horizon_end)%Z ∧
       occurrence (index + Z.of_nat k)%Z s = Ok o) ∧
    ∃ s : OffsetDateTime, instant (index + Z.of_nat (length made)) = Ok s ∧ (horizon_end <= s)%Z.
Proof using All.
  revert index collected t. induction fuel as [|fuel IH]; intros index collected t Hi Ht Hle Hf Hr; [lia|]. cbn [roll] in Hr.
  rewrite Ht in Hr. cbn [rbind] in Hr. destruct (odt_leb horizon_end t) eqn:E; instants.
  { injection Hr as <-. exists []. rewrite app_nil_r. split_and!; [done|by intros k o|]. exists t.
    by rewrite Z.add_0_r. }
  apply rbind_ok in Hr as (u & _ & (o & Ho & (n & ->%next_index_ok & Hr)%rbind_ok)%rbind_ok).
  destruct fuel as [|fuel]; [simpl in *; lia|].
  destruct (instant (index + 1)) as [t2|e] eqn:E2.
  2:{ cbn [roll] in Hr. by rewrite E2 in Hr. }
  pose proof (Hspaced index t t2 Hi Ht E2).
  destruct (IH (index + 1)%Z (collected ++ [o]) t2 ltac:(lia) E2 ltac:(unfold nanos_per_minute in *; lia) ltac:(lia) Hr)
    as (made & -> & Hmade & s & Hs & Hend).
  exists (o :: made). rewrite <- app_assoc. split_and!; [done| |].
  - intros [|k] p Hp; simpl in Hp.
    + injection Hp as <-. exists t. by rewrite Z.add_0_r.
    + destruct (Hmade k p Hp) as (s' & Hs'). exists s'.
      by replace (index + Z.of_nat (S k))%Z with (index + 1 + Z.of_nat k)%Z by lia.
  - exists s. simpl. by replace (index + Z.of_nat (S (length made)))%Z with (index + 1 + Z.of_nat (length made))%Z by lia.
Qed.
End series.

Section rolling_laws.
Context `{CivilLaws} `{!PlatformLaws}.

Lemma add_duration_ok t d t' : add_duration t d = Ok t' → unix_nanos t' = (unix_nanos t + d)%Z ∧ utc_offset t' = utc_offset t.
Proof. unfold add_duration. intros Ht%ok_or_ok. by apply checked_add_exact. Qed.

Lemma rolling_instant_ok anchor interval i t :
  rolling_instant anchor interval i = Ok t → unix_nanos t = (unix_nanos anchor + interval * i)%Z ∧ utc_offset t = utc_offset anchor.
Proof.
  unfold rolling_instant. intros (i' & Hi%ok_or_ok & (d & Hd%ok_or_ok & Ht%add_duration_ok)%rbind_ok)%rbind_ok.
  unfold try_i32 in Hi. destruct (_ && _); [|done]. injection Hi as <-. apply mul_exact in Hd as ->. done.
Qed.

(** The offset of an index: the whole minutes of its share of the period. *)
Definition frequency_offset (target period_minutes : N) (i : Z) : Z := (i * Z.of_N period_minutes / Z.of_N target)%Z.

Lemma frequency_instant_ok anchor target period i t :
  rolling_frequency_instant anchor target period i = Ok t →
  (0 <= i)%Z ∧ (0 < target)%N ∧
  unix_nanos t = (unix_nanos anchor + frequency_offset target period i * nanos_per_minute)%Z ∧ utc_offset t = utc_offset anchor.
Proof.
  unfold rolling_frequency_instant, frequency_offset. destruct (Z.ltb_spec i 0); [done|]. destruct (N.eqb_spec target 0); [done|].
  cbn [orb]. destruct (_ && _); [|done]. intros [Ht Ho]%add_duration_ok. split_and!; [done|lia| |done].
  rewrite Ht. f_equal. f_equal. set (T := Z.of_N target). set (P := Z.of_N period).
  assert (0 < T)%Z by (subst T; lia).
  rewrite (Z_div_mod_eq_full i T) at 3. rewrite Z.mul_add_distr_r.
  replace (T * (i / T) * P)%Z with (i / T * P * T)%Z by ring. rewrite Z.div_add_l by lia. done.
Qed.

Lemma frequency_offset_mono target period i :
  (0 < target <= period)%N → (frequency_offset target period i + 1 <= frequency_offset target period (i + 1))%Z.
Proof.
  intros Ht. unfold frequency_offset. rewrite <- Z.div_add by lia. rewrite Z.mul_1_l. apply Z.div_le_mono; [lia|]. lia.
Qed.

Lemma minutes_spaced anchor interval : (0 < interval)%N → spaced (rolling_instant anchor (duration_minutes interval)).
Proof.
  intros Hp i a b Hi [Ha _]%rolling_instant_ok [Hb _]%rolling_instant_ok. rewrite Ha, Hb.
  unfold duration_minutes, nanos_per_minute. nia.
Qed.

Lemma frequency_spaced anchor target period :
  (0 < target <= period)%N → spaced (rolling_frequency_instant anchor target period).
Proof.
  intros Hp i a b Hi (_ & _ & Ha & _)%frequency_instant_ok (_ & _ & Hb & _)%frequency_instant_ok. rewrite Ha, Hb.
  pose proof (frequency_offset_mono target period i Hp). unfold nanos_per_minute. lia.
Qed.
End rolling_laws.

(** ** Rolling expansions are exact *)

(** The occurrences of a rolling series with the given offsets, in minutes from
    the anchor: consecutive indices, from the last instant not after the start
    of the horizon (or the anchor) until the end of the horizon. *)
Record rolling_cover (request : PlanRequest) (anchor : OffsetDateTime) (offset : Z → Z) (spacing : Minutes)
    (l : list Occurrence) (first : Z) : Prop := {
  rc_first : (0 <= first)%Z ∧ (first = 0%Z ∨ (anchor + offset first * nanos_per_minute <= horizon_start request)%Z);
  rc_next : (horizon_start request < anchor + offset (first + 1)%Z * nanos_per_minute)%Z;
  rc_occurrences k o : l !! k = Some o →
    let i := (first + Z.of_nat k)%Z in
    occ_identity o = RollingMinutes i anchor ∧
    (occ_nominal_start o : Z) = (anchor + offset i * nanos_per_minute)%Z ∧
    (occ_nominal_end o : Z) =
      Z.max (anchor + offset (i + 1)%Z * nanos_per_minute) (occ_nominal_start o + duration_minutes spacing) ∧
    (occ_nominal_start o < horizon_end request)%Z ∧
    (occ_window_start o : Z) = Z.max (occ_nominal_start o) (horizon_start request) ∧
    (occ_window_end o : Z) = Z.min (occ_nominal_end o) (horizon_end request) ∧
    occ_state o = OccurrenceState.Generated;
  rc_end : (horizon_end request <= anchor + offset (first + Z.of_nat (length l))%Z * nanos_per_minute)%Z
}.

Section rolling_exact.
Context `{CivilLaws} `{!PlatformLaws}.

Lemma roll_fuel_enough request (t : OffsetDateTime) :
  (horizon_start request <= horizon_end request)%Z → (horizon_start request < t)%Z →
  2 < roll_fuel request ∧ (horizon_end request <= t + (Z.of_nat (pred (roll_fuel request)) - 1) * nanos_per_minute)%Z.
Proof. intros Hh Ht. unfold roll_fuel, nanos_per_minute. lia. Qed.

(** The loop over a series whose first two instants are known. *)
Lemma roll_from request instant occurrence first (t t1 : OffsetDateTime) l :
  spaced instant → (horizon_start request <= horizon_end request)%Z →
  (0 <= first)%Z → instant first = Ok t → instant (first + 1)%Z = Ok t1 → (horizon_start request < t1)%Z →
  roll (roll_fuel request) instant (horizon_end request) occurrence first [] = Ok l →
  (∀ k o, l !! k = Some o → ∃ s : OffsetDateTime, instant (first + Z.of_nat k)%Z = Ok s ∧ (s < horizon_end request)%Z ∧
     occurrence (first + Z.of_nat k)%Z s = Ok o) ∧
  ∃ s : OffsetDateTime, instant (first + Z.of_nat (length l))%Z = Ok s ∧ (horizon_end request <= s)%Z.
Proof.
  intros Hs Hh Hi Ht Ht1 Hlt Hr. destruct (roll_fuel_enough request t1 Hh Hlt) as [Hf Hle].
  destruct (roll_fuel request) as [|fuel]; [lia|]. cbn [roll pred] in Hr, Hle. rewrite Ht in Hr. cbn [rbind] in Hr.
  destruct (odt_leb (horizon_end request) t) eqn:E; instants.
  { injection Hr as <-. split; [by intros|]. exists t. by rewrite Z.add_0_r. }
  apply rbind_ok in Hr as (u & _ & (o & Ho & (n & ->%next_index_ok & Hr)%rbind_ok)%rbind_ok).
  destruct (roll_ok instant Hs fuel _ _ (first + 1)%Z _ l t1 ltac:(lia) Ht1 Hle ltac:(lia) Hr) as (made & -> & Hm & s & He & Hend).
  split.
  - intros [|k] p Hp; simpl in Hp; [injection Hp as <-; exists t; by rewrite Z.add_0_r|].
    destruct (Hm k p Hp) as (s' & Hs'). exists s'. by replace (first + Z.of_nat (S k))%Z with (first + 1 + Z.of_nat k)%Z by lia.
  - exists s. simpl. by replace (first + Z.of_nat (S (length made)))%Z with (first + 1 + Z.of_nat (length made))%Z by lia.
Qed.

Lemma spacing_end_ok start natural_end spacing (e : OffsetDateTime) :
  occurrence_end_with_spacing start natural_end spacing = Some e →
  (e : Z) = Z.max (natural_end : OffsetDateTime) (start + duration_minutes spacing).
Proof.
  unfold occurrence_end_with_spacing. intros (s & Hs & [= <-])%bind_Some. apply checked_add_exact in Hs as [Hs _].
  by rewrite unix_nanos_max, Hs.
Qed.

(** Both expansions are the loop over their series. *)
Lemma rolling_cover_of_roll request item (anchor : OffsetDateTime) spacing offset instant key
    (natural_end : Z → OffsetDateTime → result RecurrenceError OffsetDateTime) first (t1 : OffsetDateTime) l :
  spaced instant → (horizon_start request <= horizon_end request)%Z → (0 <= first)%Z →
  (∀ i t, (0 <= i)%Z → instant i = Ok t → unix_nanos t = (anchor + offset i * nanos_per_minute)%Z) →
  (∀ i s e, (0 <= i)%Z → instant i = Ok s → natural_end i s = Ok e → unix_nanos e = (anchor + offset (i + 1)%Z * nanos_per_minute)%Z) →
  instant (first + 1)%Z = Ok t1 → (horizon_start request < t1)%Z →
  (first = 0%Z ∨ ∃ t : OffsetDateTime, instant first = Ok t ∧ (t <= horizon_start request)%Z) →
  roll (roll_fuel request) instant (horizon_end request) (rolling_occurrence request item anchor spacing key natural_end) first [] = Ok l →
  rolling_cover request anchor offset spacing l first.
Proof.
  intros Hsp Hh Hf Hinst Hnat Ht1 Hlt Hfirst Hr.
  assert (∃ t, instant first = Ok t) as [t Ht].
  { destruct (instant first) as [t|e] eqn:E; [by exists t|]. destruct (roll_fuel_enough request t1 Hh Hlt) as [Hfuel _].
    destruct (roll_fuel request); [lia|]. cbn [roll] in Hr. by rewrite E in Hr. }
  destruct (roll_from _ _ _ _ t t1 _ Hsp Hh Hf Ht Ht1 Hlt Hr) as (Hocc & s & Hs & Hend). constructor.
  - split; [done|]. destruct Hfirst as [?|(t' & Ht' & Hle)]; [by left|right]. rewrite Ht in Ht'. injection Ht' as <-.
    by rewrite <- (Hinst first t).
  - rewrite <- (Hinst _ t1); [done|lia|done].
  - intros k o Hk i. destruct (Hocc k o Hk) as (start & Hstart & Hlt' & Ho). fold i in Hstart, Ho.
    unfold rolling_occurrence in Ho. apply rbind_ok in Ho as (ne & Hne & (e & He%ok_or_ok%spacing_end_ok & [= <-])%rbind_ok).
    assert (0 <= i)%Z by (subst i; lia). simpl. rewrite He, (Hnat i start ne) by done. rewrite (Hinst i start) by done.
    rewrite !unix_nanos_max, !unix_nanos_min, He, (Hnat i start ne), (Hinst i start) by done. split_and!; try done.
    by rewrite <- (Hinst i start).
  - rewrite <- (Hinst _ s); [done|lia|done].
Qed.

Lemma div_bounds q m : (0 < m)%Z → (q / m * m <= q < (q / m + 1) * m)%Z.
Proof. intros Hm. pose proof (Z.div_mod q m). pose proof (Z.mod_pos_bound q m Hm). lia. Qed.

Lemma whole_minutes_bounds d : (d < (whole_minutes d + 1) * nanos_per_minute)%Z ∧
  ((0 < whole_minutes d)%Z → (whole_minutes d * nanos_per_minute <= d)%Z).
Proof. unfold whole_minutes, nanos_per_minute. lia. Qed.

Lemma expand_rolling_minutes_cover request item anchor interval spacing label l :
  (0 < interval)%N → (horizon_start request <= horizon_end request)%Z →
  expand_rolling_minutes request item anchor interval spacing label = Ok l →
  ∃ first, rolling_cover request anchor (λ i, Z.of_N interval * i)%Z spacing l first.
Proof.
  intros Hp Hh. unfold expand_rolling_minutes. destruct (N.eqb_spec interval 0); [lia|].
  set (index := Z.max _ 0). intros (j & Ha & Hr)%rbind_ok. exists j.
  pose proof (minutes_spaced anchor interval Hp) as Hsp.
  assert (0 <= index)%Z by (subst index; lia).
  assert (∃ t1, rolling_instant anchor (duration_minutes interval) (index + 1) = Ok t1) as [t1 Ht1].
  { destruct (roll_fuel request) as [|fuel] eqn:Ef; [unfold roll_fuel, nanos_per_minute in Ef; lia|]. cbn [advance] in Ha.
    apply rbind_ok in Ha as (next & ->%next_index_ok & (s & Hs & _)%rbind_ok). by exists s. }
  pose proof (rolling_instant_ok _ _ _ _ Ht1) as [Ht1' _].
  assert (horizon_start request < t1)%Z as Hlt.
  { rewrite Ht1'. subst index. set (q := whole_minutes _).
    destruct (whole_minutes_bounds (duration_between (horizon_start request) anchor)) as [Hd _]. fold q in Hd.
    destruct (div_bounds q (Z.of_N interval) ltac:(lia)) as [_ Hq].
    assert (q + 1 <= Z.of_N interval * (Z.max (q / Z.of_N interval) 0 + 1))%Z.
    { transitivity (Z.of_N interval * (q / Z.of_N interval + 1))%Z; [lia|]. apply Z.mul_le_mono_nonneg_l; lia. }
    clearbody q. unfold duration_between, duration_minutes, nanos_per_minute in *. nia. }
  assert (roll_fuel request ≠ 0) by (unfold roll_fuel, nanos_per_minute; lia).
  destruct (advance_ok _ Hsp (roll_fuel request) (horizon_start request) index j t1 ltac:(done) Ht1 ltac:(unfold nanos_per_minute in *; lia) ltac:(lia) Ha)
    as (Hle & (t' & Ht' & Hlt') & Hfirst).
  eapply (rolling_cover_of_roll request item anchor spacing _ _ _ _ _ t' l Hsp Hh); [lia| | |exact Ht'|exact Hlt'| |exact Hr].
  - intros i t _ [-> _]%rolling_instant_ok. unfold duration_minutes. lia.
  - intros i s e _ [Hs _]%rolling_instant_ok [-> _]%add_duration_ok. rewrite Hs. unfold duration_minutes. lia.
  - destruct Hfirst as [->|(t'' & ? & ?)]; [|right; by exists t''].
    destruct (Z.eq_dec index 0%Z) as [|Hne]; [by left|right].
    destruct (rolling_instant anchor (duration_minutes interval) index) as [t0|e] eqn:E0.
    + exists t0. split; [done|]. apply rolling_instant_ok in E0 as [-> _]. subst index. set (q := whole_minutes _) in *.
      destruct (whole_minutes_bounds (duration_between (horizon_start request) anchor)) as [_ Hd]. fold q in Hd.
      destruct (div_bounds q (Z.of_N interval) ltac:(lia)) as [Hq _].
      assert (0 < q / Z.of_N interval)%Z by lia. assert (0 < q)%Z by nia. specialize (Hd ltac:(done)).
      rewrite Z.max_l by lia. unfold duration_between, duration_minutes, nanos_per_minute in *. nia.
    + exfalso. destruct (roll_fuel request); [done|]. cbn [roll] in Hr. by rewrite E0 in Hr.
Qed.

Lemma expand_rolling_frequency_cover request item anchor target period spacing label l :
  (0 < target <= period)%N → (horizon_start request <= horizon_end request)%Z →
  expand_rolling_frequency request item anchor target period spacing label = Ok l →
  ∃ first, rolling_cover request anchor (frequency_offset target period) spacing l first.
Proof.
  intros Hp Hh. unfold expand_rolling_frequency. destruct (N.eqb_spec target 0); [lia|]. destruct (N.ltb_spec period target); [lia|].
  cbn [orb]. set (e := Z.max _ 0). pose proof (frequency_spaced anchor target period Hp) as Hsp.
  intros (index & Hi%ok_or_ok & (i2 & Hret & (j & Ha & Hr)%rbind_ok)%rbind_ok)%rbind_ok. exists j.
  unfold i64_add in Hi. destruct (_ && _); [|done]. injection Hi as Hi. rewrite Z.add_0_r in Hi.
  assert (0 <= e)%Z by (subst e; lia). set (T := Z.of_N target) in *. set (P := Z.of_N period) in *.
  assert (0 < T <= P)%Z by (subst T P; lia).
  assert (0 <= index)%Z as Hindex by (subst index; apply Z.div_pos; nia).
  destruct (whole_minutes_bounds (duration_between (horizon_start request) anchor)) as [Hd1 Hd2].
  assert (horizon_start request < anchor + (e + 1) * nanos_per_minute)%Z as Hafter.
  { unfold duration_between, nanos_per_minute in *. subst e. lia. }
  assert (0 < e → anchor + e * nanos_per_minute <= horizon_start request)%Z as Hbefore.
  { intros He. unfold duration_between, nanos_per_minute in *. subst e. lia. }
  assert (frequency_offset target period index <= e <= frequency_offset target period (index + 1))%Z as [Hlow Hhigh].
  { unfold frequency_offset. fold T P. destruct (div_bounds (e * T) P ltac:(lia)) as [H1' H2']. rewrite Hi in H1', H2'. split.
    - apply Z.div_le_upper_bound; [lia|]. lia.
    - apply Z.div_le_lower_bound; [lia|]. lia. }
  assert (i2 = index) as ->.
  { destruct (roll_fuel request) as [|fuel] eqn:Ef; [unfold roll_fuel, nanos_per_minute in Ef; lia|]. cbn [retreat] in Hret.
    destruct (Z.leb_spec index 0); [by injection Hret|]. apply rbind_ok in Hret as (t & Ht & Hret).
    apply frequency_instant_ok in Ht as (_ & _ & Ht & _). destruct (odt_ltb _ _) eqn:E; instants; [|by injection Hret].
    assert (0 < e)%Z as He. { destruct (Z.eq_dec e 0%Z) as [E0|]; [|lia]. rewrite E0 in Hi. simpl in Hi. rewrite Z.div_0_l in Hi; lia. }
    specialize (Hbefore He). unfold nanos_per_minute in *. lia. }
  assert (∃ t1, rolling_frequency_instant anchor target period (index + 1) = Ok t1) as [t1 Ht1].
  { destruct (roll_fuel request) as [|fuel] eqn:Ef; [unfold roll_fuel, nanos_per_minute in Ef; lia|]. cbn [advance] in Ha.
    apply rbind_ok in Ha as (next & ->%next_index_ok & (s & Hs & _)%rbind_ok). by exists s. }
  pose proof (frequency_instant_ok _ _ _ _ _ Ht1) as (_ & _ & Ht1' & _).
  assert (2 < roll_fuel request) as Hfuel by (unfold roll_fuel, nanos_per_minute; lia).
  destruct (advance_ok _ Hsp (roll_fuel request) (horizon_start request) index j t1 ltac:(done) Ht1
    ltac:(unfold nanos_per_minute in *; lia) ltac:(lia) Ha) as (Hle & (t' & Ht' & Hlt') & Hfirst).
  eapply (rolling_cover_of_roll request item anchor spacing _ _ _ _ _ t' l Hsp Hh); [lia| | |exact Ht'|exact Hlt'| |exact Hr].
  - intros i t _ (_ & _ & -> & _)%frequency_instant_ok. done.
  - intros i s nat _ _ (next & ->%next_index_ok & (_ & _ & -> & _)%frequency_instant_ok)%rbind_ok. done.
  - destruct Hfirst as [->|(t'' & ? & ?)]; [|right; by exists t''].
    destruct (Z.eq_dec index 0%Z) as [|Hne]; [by left|right].
    destruct (rolling_frequency_instant anchor target period index) as [t0|err] eqn:E0.
    + exists t0. split; [done|]. apply frequency_instant_ok in E0 as (_ & _ & -> & _).
      assert (0 < e)%Z as He. { destruct (Z.eq_dec e 0%Z) as [E0|]; [|lia]. rewrite E0 in Hi. simpl in Hi. rewrite Z.div_0_l in Hi; lia. }
      specialize (Hbefore He). unfold nanos_per_minute in *. lia.
    + exfalso. destruct (roll_fuel request); [lia|]. cbn [roll] in Hr. by rewrite E0 in Hr.
Qed.
End rolling_exact.

(** ** Calendar buckets *)

(** The ordinals below the target, and those that fall on one day. *)
Definition ordinals (target : N) : list N := N.of_nat <$> seq 0 (N.to_nat target).
Definition day_ordinals (target : N) (eligible : nat) (day : N) : list N :=
  filter (λ i, (i * N.of_nat eligible / target)%N = day) (ordinals target).

(** The first ordinal of a day: the ceiling of [day * target / eligible]. *)
Definition first_ordinal (target : N) (eligible : nat) (day : N) : N :=
  ((day * target + (N.of_nat eligible - 1)) / N.of_nat eligible)%N.

Lemma allocations_lookup target eligible day :
  allocations target eligible !! day =
  match day_ordinals target eligible day with [] => None | l => Some l end.
Proof.
  unfold allocations, day_ordinals, ordinals. generalize (N.of_nat <$> seq 0 (N.to_nat target)) as l. intros l.
  induction l as [|i l IH] using rev_ind; [done|]. rewrite foldl_app, filter_app. cbn [foldl]. unfold push_entry at 1. rewrite filter_cons, filter_nil.
  destruct (decide (i * N.of_nat eligible / target = day)%N) as [<-|Hne].
  - rewrite lookup_insert_eq, IH. by destruct (filter _ l).
  - rewrite lookup_insert_ne, app_nil_r by done. done.
Qed.

Lemma filter_seq_interval a b len :
  a <= b → b <= len → filter (λ i : N, N.of_nat a <= i < N.of_nat b)%N (N.of_nat <$> seq 0 len) = N.of_nat <$> seq a (b - a).
Proof.
  intros Hab Hlen. replace len with (a + ((b - a) + (len - b))) by lia. rewrite !seq_app, !fmap_app, !filter_app. simpl.
  assert (∀ s n, (∀ i, s <= i < s + n → ¬ (N.of_nat a <= N.of_nat i < N.of_nat b)%N) →
    filter (λ i : N, N.of_nat a <= i < N.of_nat b)%N (N.of_nat <$> seq s n) = []) as Hnone.
  { intros s n Hs. apply elem_of_nil_inv. intros x [Hx (i & -> & Hi%elem_of_seq)%list_elem_of_fmap]%list_elem_of_filter. by eapply Hs. }
  rewrite (Hnone 0 a), (Hnone (a + (b - a)) (len - b)) by lia. rewrite app_nil_r. simpl. apply filter_all.
  intros x (i & -> & Hi%elem_of_seq)%list_elem_of_fmap. lia.
Qed.

(** Division by the target against the ceiling of the inverse division. *)
Lemma ordinal_day_iff target eligible i day :
  (0 < target)%N → (0 < eligible) →
  (i * N.of_nat eligible / target = day)%N ↔
  (first_ordinal target eligible day <= i < first_ordinal target eligible (day + 1))%N.
Proof.
  intros Ht He. unfold first_ordinal. set (n := N.of_nat eligible). assert (0 < n)%N by (subst n; lia).
  assert (∀ k, (k * target + (n - 1)) / n <= i ↔ k * target <= i * n)%N as Hceil.
  { intros k. pose proof (N.div_mod (k * target + (n - 1)) n ltac:(lia)). pose proof (N.mod_lt (k * target + (n - 1)) n ltac:(lia)).
    set (q := ((k * target + (n - 1)) / n)%N) in *. split; intros; nia. }
  pose proof (N.div_mod (i * n) target ltac:(lia)). pose proof (N.mod_lt (i * n) target ltac:(lia)).
  set (q := (i * n / target)%N) in *. rewrite N.lt_nge, !Hceil, <- N.lt_nge. split; [intros <-; nia|]. intros [Hlo Hhi]. nia.
Qed.

Lemma day_ordinals_range target eligible day :
  (0 < target)%N → 0 < eligible → (day < N.of_nat eligible)%N →
  let first := N.to_nat (first_ordinal target eligible day) in
  let next := N.to_nat (first_ordinal target eligible (day + 1)) in
  first <= next ∧ next <= N.to_nat target ∧
  day_ordinals target eligible day = N.of_nat <$> seq first (next - first).
Proof.
  intros Ht He Hd first next.
  assert (first_ordinal target eligible day <= first_ordinal target eligible (day + 1))%N.
  { unfold first_ordinal. apply N.Div0.div_le_mono. nia. }
  assert (first_ordinal target eligible (day + 1) <= target)%N.
  { unfold first_ordinal. assert ((day + 1) * target + (N.of_nat eligible - 1) < (target + 1) * N.of_nat eligible)%N as Hlt by nia.
    rewrite (N.mul_comm (target + 1)) in Hlt. apply N.Div0.div_lt_upper_bound in Hlt. lia. }
  split_and!; [lia..|]. unfold day_ordinals, ordinals.
  rewrite (filter_ext_in _ (λ i, N.of_nat first <= i < N.of_nat next)%N).
  - apply filter_seq_interval; lia.
  - intros i _. rewrite (ordinal_day_iff target eligible i day Ht He). subst first next. lia.
Qed.

Definition ordinal_day (target : N) (eligible : nat) (i : N) : N := (i * N.of_nat eligible / target)%N.

(** The place of an ordinal among those of its day, and how many those are. *)
Definition ordinal_position (target : N) (eligible : nat) (i : N) : nat :=
  N.to_nat (i - first_ordinal target eligible (ordinal_day target eligible i)).
Definition ordinal_count (target : N) (eligible : nat) (i : N) : nat :=
  N.to_nat (first_ordinal target eligible (ordinal_day target eligible i + 1) -
            first_ordinal target eligible (ordinal_day target eligible i)).

Lemma ordinal_day_lt target eligible i : (i < target)%N → 0 < eligible → (ordinal_day target eligible i < N.of_nat eligible)%N.
Proof. intros Hi He. unfold ordinal_day. apply N.Div0.div_lt_upper_bound. nia. Qed.

Lemma ordinal_bounds target eligible i :
  (0 < target)%N → 0 < eligible →
  let day := ordinal_day target eligible i in
  (first_ordinal target eligible day <= i < first_ordinal target eligible (day + 1))%N.
Proof. intros Ht He day. by apply ordinal_day_iff. Qed.

Lemma imap_fmap_seq {B} (f : nat → N → B) a len :
  imap f (N.of_nat <$> seq a len) = (λ p, f p (N.of_nat (a + p))) <$> seq 0 len.
Proof.
  revert a f. induction len as [|len IH]; intros a f; [done|]. simpl. f_equal; [f_equal; lia|].
  rewrite IH, <- fmap_S_seq, <- list_fmap_compose. apply list_fmap_ext. intros ? p _. simpl. f_equal. lia.
Qed.

Section buckets.
Context `{Platform, Civil}.

(** Each ordinal below the target has one candidate occurrence, on the day its
    share of the eligible days falls on. *)
Lemma elem_of_expand_buckets item_id buckets target spacing request label o :
  o ∈ expand_calendar_buckets item_id buckets target spacing request label ↔
  ∃ key days i day, (key, days) ∈ buckets ∧ (i < target)%N ∧
    sort_days days !! N.to_nat (ordinal_day target (length days) i) = Some day ∧
    o ∈ in_window (bucket_occurrence item_id request spacing label key day
                     (ordinal_count target (length days) i) (ordinal_position target (length days) i) i).
Proof.
  unfold expand_calendar_buckets. rewrite list_elem_of_bind.
  assert (∀ (key : list N) days, o ∈ (let eligible_days := sort_days days in
      if bool_decide (eligible_days = []) then []
      else entries (allocations target (length eligible_days)) ≫= day_occurrences item_id request spacing label key eligible_days) ↔
    ∃ i day, (i < target)%N ∧ sort_days days !! N.to_nat (ordinal_day target (length days) i) = Some day ∧
      o ∈ in_window (bucket_occurrence item_id request spacing label key day
                     (ordinal_count target (length days) i) (ordinal_position target (length days) i) i)) as Hone.
  2:{ split.
      - intros ([key days] & Ho & Hb). apply Hone in Ho as (i & day & ? & ? & ?). by exists key, days, i, day.
      - intros (key & days & i & day & Hb & ? & ? & ?). exists (key, days). split; [|done]. apply Hone. by exists i, day. }
  intros key days. cbv zeta. assert (length (sort_days days) = length days) as Hlen by apply length_sort_by.
  rewrite Hlen. case_bool_decide as Hnil.
  { split; [by intros ?%not_elem_of_nil|]. intros (i & day & _ & Hl & _). by rewrite Hnil in Hl. }
  assert (0 < length days) as He by (rewrite <- Hlen; destruct (sort_days days); simpl; [done|lia]).
  rewrite list_elem_of_bind. split.
  - intros ([d l] & Ho & Hin%elem_of_entries). rewrite allocations_lookup in Hin. unfold day_occurrences in Ho. cbn [fst snd] in Ho.
    destruct (sort_days days !! N.to_nat d) as [day|] eqn:Eday; [|by apply not_elem_of_nil in Ho].
    assert (d < N.of_nat (length days))%N as Hd by (apply lookup_lt_Some in Eday; lia).
    assert (0 < target)%N as Ht by (destruct (N.eq_dec target 0%N) as [->|]; [done|lia]).
    destruct (day_ordinals_range target (length days) d Ht He Hd) as (Hle & Hnext & Hrange). rewrite Hrange in Hin.
    set (first := N.to_nat (first_ordinal target (length days) d)) in *.
    set (next := N.to_nat (first_ordinal target (length days) (d + 1))) in *.
    assert (l = N.of_nat <$> seq first (next - first)) as -> by (destruct (seq first (next - first)); simpl in *; congruence).
    rewrite length_fmap, length_seq, imap_fmap_seq, list_elem_of_bind in Ho.
    destruct Ho as ([p' i'] & Ho & (p & Heq & Hp%elem_of_seq)%list_elem_of_fmap). simplify_eq. cbn [fst snd] in Ho.
    set (i := N.of_nat (first + p)) in *.
    assert (ordinal_day target (length days) i = d) as Hday.
    { apply ordinal_day_iff; [done..|]. subst i first next. lia. }
    exists i, day. rewrite Hday. split_and!; [subst i; lia|done|]. unfold ordinal_count, ordinal_position. rewrite Hday.
    assert (N.to_nat (i - first_ordinal target (length days) d) = p) as -> by (subst i first; lia).
    assert (N.to_nat (first_ordinal target (length days) (d + 1) - first_ordinal target (length days) d) = next - first) as -> by lia.
    done.
  - intros (i & day & Hi & Hday & Ho). set (d := ordinal_day target (length days) i) in *.
    assert (0 < target)%N as Ht by lia. pose proof (ordinal_day_lt target (length days) i Hi He) as Hd. fold d in Hd.
    destruct (day_ordinals_range target (length days) d Ht He Hd) as (Hle & Hnext & Hrange).
    pose proof (ordinal_bounds target (length days) i Ht He) as Hb. fold d in Hb. cbv zeta in Hb.
    set (first := N.to_nat (first_ordinal target (length days) d)) in *.
    set (next := N.to_nat (first_ordinal target (length days) (d + 1))) in *.
    exists (d, N.of_nat <$> seq first (next - first)). split.
    + unfold day_occurrences. cbn [fst snd]. rewrite Hday, length_fmap, length_seq, imap_fmap_seq. apply list_elem_of_bind.
      exists (ordinal_position target (length days) i, i). split; [|].
      * cbn [fst snd]. unfold ordinal_count, ordinal_position in *. fold d in Ho |- *.
        assert (N.to_nat (first_ordinal target (length days) (d + 1) - first_ordinal target (length days) d) = next - first) as Hc by lia.
        by rewrite Hc in Ho.
      * apply list_elem_of_fmap. exists (ordinal_position target (length days) i). unfold ordinal_position. fold d. split.
        -- f_equal. subst first. lia.
        -- apply elem_of_seq. subst first next. lia.
    + apply elem_of_entries. rewrite allocations_lookup, Hrange.
      assert (0 < next - first) as Hpos by (subst first next; lia). destruct (next - first); [by apply Nat.lt_irrefl in Hpos|done].
Qed.
End buckets.

(** ** The days and the months *)

Section fuel.
Context `{CivilLaws} (request : PlanRequest).

Lemma collect_days_enough offset fuel extra date collected :
  (horizon_end request <= midnight_at date offset + Z.of_nat fuel * nanos_per_day)%Z →
  collect_days (S fuel + extra) request offset date collected = collect_days (S fuel) request offset date collected.
Proof.
  revert date collected. induction fuel as [|fuel IH]; intros date collected Hend; cbn [collect_days Nat.add];
    (destruct (date_next_day date) as [next|] eqn:En; [|done]); cbn [ok_or rbind midnight];
    unfold odt_leb; destruct (Z.leb_spec (horizon_end request) (midnight_at date offset)); [done|unfold nanos_per_day, nanos_per_second in *; lia|done|].
  apply IH. rewrite next_day_exact in En. apply add_days_exact in En as [-> _].
  destruct (midnight_exact date offset) as [Hm _], (midnight_exact (date + 1) offset) as [Hm' _].
  unfold nanos_per_day in *. unfold nanos_per_second in *. rewrite Nat2Z.inj_succ in Hend. lia.
Qed.

(** More turns than [days_fuel] change nothing. *)
Lemma days_fuel_enough extra :
  (horizon_start request <= horizon_end request)%Z →
  collect_days (days_fuel request + extra) request (utc_offset (horizon_start request)) (odt_date (horizon_start request)) [] =
  collect_days (days_fuel request) request (utc_offset (horizon_start request)) (odt_date (horizon_start request)) [].
Proof.
  intros Hh. unfold days_fuel, nanos_per_day.
  set (days := ((horizon_end request - horizon_start request) / (86400 * nanos_per_second))%Z).
  assert (0 <= days ∧ horizon_end request - horizon_start request < (days + 1) * (86400 * nanos_per_second))%Z as [H0d Hd]
    by (unfold days, nanos_per_second; lia).
  replace (Z.to_nat (days + 3)) with (S (Z.to_nat (days + 2))) by lia. apply collect_days_enough.
  destruct (midnight_exact (odt_date (horizon_start request)) (utc_offset (horizon_start request))) as [-> _].
  rewrite odt_date_exact. unfold unix_timestamp, nanos_per_day. clearbody days. unfold nanos_per_second in *. lia.
Qed.

Lemma add_months_range date offset d :
  add_months date offset = Ok d → (month_index date + offset <= 119999)%Z.
Proof.
  unfold add_months. intros (value & Hv & (year & Hy & Hd)%rbind_ok)%rbind_ok.
  destruct (date_of_civil _ _ _) eqn:E in Hd; [|done]. apply date_of_range in E as (Hr & _).
  unfold i64_add, try_i32 in *. destruct (_ && _) in Hv; [|done]. destruct (_ && _) in Hy; [|done]. simplify_eq/=. lia.
Qed.

Lemma roll_months_enough item anchor target spacing days fuel extra cycle collected :
  (119999 < month_index (odt_date anchor) + cycle + Z.of_nat fuel)%Z →
  roll_months (S fuel + extra) request item anchor target spacing days cycle collected =
  roll_months (S fuel) request item anchor target spacing days cycle collected.
Proof.
  assert (∀ n m cycle collected,
    (∀ collected, (month_index (odt_date anchor) + cycle <= 119999)%Z →
      roll_months n request item anchor target spacing days (cycle + 1) collected =
      roll_months m request item anchor target spacing days (cycle + 1) collected) →
    roll_months (S n) request item anchor target spacing days cycle collected =
    roll_months (S m) request item anchor target spacing days cycle collected) as Hstep.
  { intros n m i l Hnext. cbn [roll_months]. destruct (add_months (odt_date anchor) i) as [start|e] eqn:Es; [|done].
    pose proof (add_months_range _ _ _ Es). cbn [rbind]. destruct (next_index i) as [next|e] eqn:En; [|done].
    apply next_index_ok in En as ->. cbn [rbind]. destruct (add_months (odt_date anchor) (i + 1)) as [end_|e]; [|done]. cbn [rbind].
    destruct (boundary_instant start _ _) as [from|e]; [|done]. cbn [rbind].
    destruct (boundary_instant end_ _ _) as [to|e]; [|done]. cbn [rbind]. destruct (odt_leb _ _); [done|].
    destruct (if odt_ltb _ _ then _ else _) as [l'|e]; [|done]. cbn [rbind]. by apply Hnext. }
  revert cycle collected. induction fuel as [|fuel IH]; intros cycle collected Hlt; apply Hstep; intros l Hr; [lia|]. apply IH. lia.
Qed.

(** More turns than [months_fuel] change nothing. *)
Lemma months_fuel_enough item anchor target spacing days extra cycle :
  (date_min <= odt_date anchor <= date_max)%Z → (0 <= cycle)%Z →
  roll_months (months_fuel + extra) request item anchor target spacing days cycle [] =
  roll_months months_fuel request item anchor target spacing days cycle [].
Proof.
  intros Hd Hc. assert (-119988 <= month_index (odt_date anchor))%Z as Hm.
  { pose proof (date_of_range _ _ _ _ (date_of_civil_of _ Hd)) as (Hy & Hm & _). unfold month_index, date_year, date_month in *. lia. }
  unfold months_fuel. replace (Z.to_nat 240000) with (S (Z.to_nat 239999)) by lia. apply roll_months_enough. rewrite Z2Nat.id; lia.
Qed.
End fuel.
