(* ===== verification/Occurrences.v ===== *)
(** * Occurrences: what the list of occurrences of a request promises

    Theorems about Expansion: every occurrence belongs to a recurring root, its
    window lies inside the horizon, generated occurrences avoid completed
    identities and the pauses of their series, identities are unique, and the
    list is in the order of nominal starts. *)
From S2P Require Import Prelude Text Tokens Platform Civil Domain Samples Forest Rollup Order Rrule Expansion Horizon.

Import RecurrenceError.

(** The window of an occurrence is a span inside the horizon. *)
Definition in_horizon (request : PlanRequest) (o : Occurrence) : Prop :=
  (horizon_start request <= occ_window_start o)%Z ∧ (occ_window_start o <= occ_window_end o)%Z ∧
  (occ_window_end o <= horizon_end request)%Z.

(** What every occurrence of a series satisfies. *)
Definition of_series (request : PlanRequest) (item_id : ItemId) (o : Occurrence) : Prop :=
  occ_series_item_id o = item_id ∧ in_horizon request o.

Lemma of_series_same request item_id o o' :
  occ_series_item_id o' = occ_series_item_id o → occ_window_start o' = occ_window_start o → occ_window_end o' = occ_window_end o →
  of_series request item_id o → of_series request item_id o'.
Proof. unfold of_series, in_horizon. by intros -> -> ->. Qed.

Section windows.
Context `{CivilLaws} `{!PlatformLaws}.
Context (request : PlanRequest) (item : WorkItem).
Hypothesis horizon : (horizon_start request <= horizon_end request)%Z.

Lemma in_window_of_series key identity nominal start end_ date o :
  o ∈ in_window (make_occurrence (wi_id item) key identity nominal (clip request start end_) date) → of_series request (wi_id item) o.
Proof.
  unfold in_window. destruct (odt_ltb _ _) eqn:E; [|by intros ?%not_elem_of_nil]. intros ->%list_elem_of_singleton.
  unfold of_series, in_horizon. simpl in *. instants. lia.
Qed.

Lemma clipped_of_series key identity nominal (start end_ : OffsetDateTime) date :
  (start <= end_)%Z → (start < horizon_end request)%Z → (horizon_start request < end_)%Z →
  of_series request (wi_id item) (make_occurrence (wi_id item) key identity nominal (clip request start end_) date).
Proof using horizon. intros. unfold of_series, in_horizon. simpl. instants. lia. Qed.

Lemma buckets_of_series buckets target spacing label o :
  o ∈ expand_calendar_buckets (wi_id item) buckets target spacing request label → of_series request (wi_id item) o.
Proof.
  intros (key & days & i & day & _ & _ & _ & Ho)%elem_of_expand_buckets. unfold bucket_occurrence in Ho.
  destruct (day_share _ _ _ _). by eapply in_window_of_series.
Qed.

Lemma monthly_of_series days target weekdays spacing label l o :
  expand_monthly request (wi_id item) days target weekdays spacing label = Ok l → o ∈ l → of_series request (wi_id item) o.
Proof. intros (groups & _ & [= <-])%rbind_ok. apply buckets_of_series. Qed.

Lemma weeks_of_series days target weekdays label l o :
  expand_weeks request item days target weekdays label = Ok l → o ∈ l → of_series request (wi_id item) o.
Proof. intros (groups & _ & [= <-])%rbind_ok. apply buckets_of_series. Qed.

Lemma rolling_of_series anchor offset spacing l first o :
  (∀ i, (0 <= i)%Z → (offset i <= offset (i + 1))%Z) → (∀ o, o ∈ l → occ_series_item_id o = wi_id item) →
  rolling_cover request anchor offset spacing l first → o ∈ l → of_series request (wi_id item) o.
Proof using horizon.
  intros Hmono Hid [[Hf _] Hnext Hocc _] Ho. split; [by apply Hid|]. apply list_elem_of_lookup in Ho as [k Hk].
  destruct (Hocc k o Hk) as (_ & Hns & Hne & Hlt & Hws & Hwe & _).
  assert (offset (first + 1)%Z <= offset (first + Z.of_nat k + 1)%Z)%Z as Hle.
  { clear -Hmono Hf. induction k as [|k IH]; [by rewrite Z.add_0_r|].
    etransitivity; [exact IH|]. replace (first + Z.of_nat (S k) + 1)%Z with (first + Z.of_nat k + 1 + 1)%Z by lia. apply Hmono. lia. }
  pose proof (Hmono (first + Z.of_nat k)%Z ltac:(lia)).
  unfold in_horizon. unfold duration_minutes, nanos_per_minute in *. lia.
Qed.

Lemma rolls_series fuel instant anchor spacing key nat_end (he : OffsetDateTime) index collected l o :
  roll fuel instant he (rolling_occurrence request item anchor spacing key nat_end) index collected = Ok l →
  (∀ o, o ∈ collected → occ_series_item_id o = wi_id item) → o ∈ l → occ_series_item_id o = wi_id item.
Proof.
  revert index collected. induction fuel as [|fuel IH]; intros index collected Hr Hc Ho; [simpl in Hr; injection Hr as <-; by apply Hc|].
  cbn [roll] in Hr. apply rbind_ok in Hr as (t & _ & Hr). destruct (odt_leb he t); [injection Hr as <-; by apply Hc|].
  apply rbind_ok in Hr as (u & _ & (made & Hm & (n & _ & Hr)%rbind_ok)%rbind_ok). apply (IH _ _ Hr); [|done].
  intros x [Hx| ->%list_elem_of_singleton]%elem_of_app; [by apply Hc|].
  apply rbind_ok in Hm as (e & _ & (e2 & _ & [= <-])%rbind_ok). done.
Qed.

Lemma minutes_of_series anchor interval spacing label l o :
  (0 < interval)%N → expand_rolling_minutes request item anchor interval spacing label = Ok l → o ∈ l →
  of_series request (wi_id item) o.
Proof using All.
  intros Hp Hl. destruct (expand_rolling_minutes_cover _ _ _ _ _ _ _ Hp horizon Hl) as [first Hcover].
  apply (rolling_of_series anchor (λ i, Z.of_N interval * i)%Z spacing l first o); [intros; nia| |done].
  intros x. unfold expand_rolling_minutes in Hl. destruct (_ =? 0)%N; [by injection Hl as <-; intros ?%not_elem_of_nil|].
  apply rbind_ok in Hl as (j & _ & Hr). apply (rolls_series _ _ _ _ _ _ _ _ _ _ _ Hr). by intros ? ?%not_elem_of_nil.
Qed.

Lemma frequency_of_series anchor target period spacing label l o :
  (0 < target <= period)%N → expand_rolling_frequency request item anchor target period spacing label = Ok l → o ∈ l →
  of_series request (wi_id item) o.
Proof using All.
  intros Hp Hl. destruct (expand_rolling_frequency_cover _ _ _ _ _ _ _ _ Hp horizon Hl) as [first Hcover].
  apply (rolling_of_series anchor (frequency_offset target period) spacing l first o).
  - intros i _. pose proof (frequency_offset_mono target period i Hp). lia.
  - intros x. unfold expand_rolling_frequency in Hl.
    destruct ((target =? 0)%N || (period <? target)%N); [by injection Hl as <-; intros ?%not_elem_of_nil|].
    apply rbind_ok in Hl as (i1 & _ & (i2 & _ & (j & _ & Hr)%rbind_ok)%rbind_ok).
    apply (rolls_series _ _ _ _ _ _ _ _ _ _ _ Hr). by intros ? ?%not_elem_of_nil.
  - done.
Qed.

Lemma completion_of_series interval spacing l o :
  expand_after_completion request item interval spacing = Ok l → o ∈ l → of_series request (wi_id item) o.
Proof using All.
  intros (due & _ & (e & [He _]%add_duration_ok & Hl)%rbind_ok)%rbind_ok.
  destruct (odt_leb _ _) eqn:E1; [by injection Hl as <-; intros ?%not_elem_of_nil|].
  destruct (odt_leb e _) eqn:E2; [by injection Hl as <-; intros ?%not_elem_of_nil|]. injection Hl as <-.
  intros ->%list_elem_of_singleton. instants. apply clipped_of_series; [|done..].
  rewrite He. unfold duration_minutes, nanos_per_minute. lia.
Qed.

Lemma cycle_of_series anchor target spacing cycle (cs ce : OffsetDateTime) collected l o :
  cycle_occurrences request item anchor target spacing cycle cs ce collected = Ok l →
  (∀ o, o ∈ collected → of_series request (wi_id item) o) → o ∈ l → of_series request (wi_id item) o.
Proof using All.
  intros Hl Hc. revert o. refine (foldM_inv _ (λ _ acc, ∀ o, o ∈ acc → of_series request (wi_id item) o) _ _ _ Hc _ Hl).
  intros p a q t t' _ IH (start & _ & (natural & _ & (e & He%ok_or_ok & Hadd)%rbind_ok)%rbind_ok)%rbind_ok o.
  destruct (odt_ltb start _) eqn:E1; [|injection Hadd as <-; apply IH].
  destruct (odt_ltb _ e) eqn:E2; [|injection Hadd as <-; apply IH]. injection Hadd as <-.
  intros [?| ->%list_elem_of_singleton]%elem_of_app; [by apply IH|]. instants. apply spacing_end_ok in He.
  apply clipped_of_series; [|done..]. unfold duration_minutes, nanos_per_minute in *. lia.
Qed.

Lemma months_of_series fuel anchor target spacing days cycle collected l o :
  roll_months fuel request item anchor target spacing days cycle collected = Ok l →
  (∀ o, o ∈ collected → of_series request (wi_id item) o) → o ∈ l → of_series request (wi_id item) o.
Proof using All.
  revert cycle collected. induction fuel as [|fuel IH]; intros cycle collected Hr Hc; [injection Hr as <-; apply Hc|].
  cbn [roll_months] in Hr.
  apply rbind_ok in Hr as (sd & _ & (nc & _ & (ed & _ & (cs & _ & (ce & _ & Hr)%rbind_ok)%rbind_ok)%rbind_ok)%rbind_ok).
  destruct (odt_leb _ cs); [injection Hr as <-; apply Hc|]. apply rbind_ok in Hr as (collected' & Hcoll & Hr).
  apply (IH _ _ Hr). intros x. destruct (odt_ltb _ ce); [|injection Hcoll as <-; apply Hc]. by apply (cycle_of_series _ _ _ _ _ _ _ _ _ Hcoll).
Qed.

Lemma custom_of_series rrule days l o :
  expand_custom request item rrule days = Ok l → o ∈ l → of_series request (wi_id item) o.
Proof.
  intros (rule & _ & Hl)%rbind_ok. destruct (last days) as [day|]; [|injection Hl as <-; by intros ?%not_elem_of_nil].
  apply rbind_ok in Hl as (dates & _ & [= <-]). intros ([sequence date] & Ho & _)%list_elem_of_bind. unfold custom_occurrence in Ho.
  destruct (find_day _ _) as [d|]; [|by apply not_elem_of_nil in Ho]. destruct (odt_leb _ _); [by apply not_elem_of_nil in Ho|].
  by eapply in_window_of_series.
Qed.

(** Each kind of recurrence. *)
Lemma expand_series_ok recurrence days l o :
  validate_rule (wi_id item) recurrence = Ok tt → expand_series request item recurrence days = Ok l → o ∈ l →
  of_series request (wi_id item) o.
Proof using All.
  intros Hv. destruct recurrence as [times|times weekdays|times|interval|interval|target period [] weekdays spacing anchor|rrule];
    cbn [expand_series validate_rule] in *.
  - intros [= <-]. apply buckets_of_series.
  - apply weeks_of_series.
  - apply monthly_of_series.
  - destruct (N.eqb_spec interval 0); [done|]. apply minutes_of_series. lia.
  - apply completion_of_series.
  - destruct period; [intros [= <-]; apply buckets_of_series|apply weeks_of_series|apply monthly_of_series].
  - destruct (N.eqb_spec target 0); [done|]. destruct period.
    + destruct (N.ltb_spec (24 * 60) target); [done|]. apply frequency_of_series. unfold DAY_MINUTES. lia.
    + destruct (N.ltb_spec (7 * 24 * 60) target); [done|]. apply frequency_of_series. unfold WEEK_MINUTES. lia.
    + intros Hl Ho. by apply (months_of_series _ _ _ _ _ _ _ _ _ Hl); [intros ? ?%not_elem_of_nil|].
  - apply custom_of_series.
Qed.
End windows.

(** ** Exceptions, pauses and moves *)

(** No pause of the series overlaps the window. *)
Definition unpaused (request : PlanRequest) (o : Occurrence) : Prop :=
  ∀ pause, pause ∈ rctx_pauses (recurrence_context request) → rpz_item_id pause = occ_series_item_id o →
    (occ_window_end o <= rpz_start pause)%Z ∨ (rpz_end pause <= occ_window_start o)%Z.

(** A generated occurrence is open and outside its pauses. *)
Definition settled (request : PlanRequest) (o : Occurrence) : Prop :=
  occ_state o = OccurrenceState.Generated →
  (occ_id o ∉ rctx_completed_occurrence_ids (recurrence_context request)) ∧ unpaused request o.

Section settling.
Context `{CivilLaws} `{!PlatformLaws}.
Context (request : PlanRequest) (item_id : ItemId).
Hypothesis exceptions_valid : ∀ x, x ∈ rctx_exceptions (recurrence_context request) → validate_exception x = Ok tt.

Lemma move_is_a_span x (start end_ : OffsetDateTime) source :
  x ∈ rctx_exceptions (recurrence_context request) → rx_action x = ActionMove start end_ source →
  (start < end_)%Z ∧ ∃ id, rx_selector x = SelectOccurrence id.
Proof using exceptions_valid.
  intros Hx Ha. specialize (exceptions_valid x Hx). unfold validate_exception in exceptions_valid. rewrite Ha in exceptions_valid.
  destruct (odt_leb end_ start) eqn:E; [done|]. instants. split; [done|]. destruct (rx_selector x); [by eexists|done..].
Qed.

Lemma contained_of_series o (start end_ : OffsetDateTime) :
  (start < end_)%Z → contained request start end_ = true → occ_series_item_id o = item_id →
  occ_window_start o = start → occ_window_end o = end_ → of_series request item_id o.
Proof. unfold contained, of_series, in_horizon. intros Hlt Hc Hi -> ->. bool_to_prop. instants. split_and!; [done|lia..]. Qed.

Lemma apply_exception_of_series o x :
  x ∈ rctx_exceptions (recurrence_context request) → of_series request item_id o → of_series request item_id (apply_exception request o x).
Proof using exceptions_valid.
  intros Hx Ho. unfold apply_exception. destruct (selects _ o); [|done].
  destruct (rx_action x) as [|start end_ source] eqn:Ea; [by apply (of_series_same _ _ o)|].
  destruct (contained _ _ _) eqn:Ec; [|by apply (of_series_same _ _ o)].
  apply (contained_of_series _ start end_); [by eapply move_is_a_span|done|apply Ho|done..].
Qed.

Lemma apply_exception_id o x : occ_id (apply_exception request o x) = occ_id o.
Proof. unfold apply_exception. destruct (selects _ o); [|done]. destruct (rx_action x); [done|]. by destruct (contained _ _ _). Qed.

Lemma settle_of_series o :
  of_series request item_id o →
  of_series request item_id (settle_occurrence request item_id o) ∧ settled request (settle_occurrence request item_id o) ∧
  occ_id (settle_occurrence request item_id o) = occ_id o.
Proof using exceptions_valid.
  intros Ho. unfold settle_occurrence. case_bool_decide as Hdone; [split_and!; [by apply (of_series_same _ _ o)|done..]|].
  set (o' := foldl _ o _).
  assert (of_series request item_id o' ∧ occ_id o' = occ_id o) as [Ho' Hid].
  { subst o'. assert (∀ x, x ∈ item_exceptions request item_id → x ∈ rctx_exceptions (recurrence_context request)) as Hsub
      by (by intros x [_ ?]%list_elem_of_filter).
    clear Hdone. revert o Ho Hsub. induction (item_exceptions request item_id) as [|x l IH]; intros o Ho Hsub; [done|]. cbn [foldl].
    destruct (IH (apply_exception request o x)) as [? Hid].
    - apply apply_exception_of_series; [apply Hsub; left|done].
    - intros y Hy. apply Hsub. by right.
    - split; [done|]. by rewrite Hid, apply_exception_id. }
  case_bool_decide as Hst; simpl; [|split_and!; [done|by intros ?|done]].
  destruct (is_paused request item_id o') eqn:Ep; [split_and!; [by apply (of_series_same _ _ o')|done|done]|].
  split_and!; [done| |done]. intros _. split; [by rewrite Hid|]. intros pause Hp Heq.
  unfold is_paused in Ep. 
 assert ((rpz_item_id pause =? item_id)%N && odt_ltb (rpz_start pause) (occ_window_end o') &&
          odt_ltb (occ_window_start o') (rpz_end pause) = false) as E.
  { apply not_true_is_false. intros E. apply not_true_iff_false in Ep. apply Ep. apply existsb_exists. exists pause.
    split; [by apply list_elem_of_In|done]. }
  destruct Ho' as [Hs _]. rewrite Heq, Hs, N.eqb_refl in E. simpl in E. apply andb_false_iff in E as [E|E]; instants; [by left|by right].
Qed.
End settling.

Section moving.
Context `{CivilLaws} `{!PlatformLaws}.
Context (request : PlanRequest).
Hypothesis exceptions_valid : ∀ x, x ∈ rctx_exceptions (recurrence_context request) → validate_exception x = Ok tt.

Lemma update_existing_of_series item_id recurrence id source st l :
  update_existing item_id recurrence id source st = Ok l → Forall (of_series request item_id) (mv_occurrences st) →
  Forall (of_series request item_id) l.
Proof.
  unfold update_existing. intros Hu Hst. destruct (_ !! id) as [index|]; [|by injection Hu as <-].
  destruct (_ !! index) as [o|] eqn:E; [|by injection Hu as <-].
  destruct (source_matches_occurrence _ _ _); [|done]. injection Hu as <-.
  apply Forall_insert; [done|]. apply (of_series_same _ _ o); [done..|]. by eapply Forall_lookup_1.
Qed.

Lemma append_move_of_series item recurrence proof st x st' :
  x ∈ rctx_exceptions (recurrence_context request) → append_move request item recurrence proof st x = Ok st' →
  Forall (of_series request (wi_id item)) (mv_occurrences st) → Forall (of_series request (wi_id item)) (mv_occurrences st').
Proof using exceptions_valid.
  intros Hx. unfold append_move. destruct (rx_selector x) as [id| |] eqn:Es; [|by intros [= <-]..].
  destruct (rx_action x) as [|start end_ source] eqn:Ea; [by intros [= <-]|].
  destruct (_ || _); [done|]. intros (l & Hu & Ha)%rbind_ok Hst. pose proof (update_existing_of_series _ _ _ _ _ _ Hu Hst).
  destruct (crosses_horizon _ _ _); [done|]. destruct (_ && _) eqn:E; injection Ha as <-; [|done]. simpl.
  apply Forall_app; split; [done|]. apply Forall_singleton. apply andb_true_iff in E as [_ Hc].
  destruct (move_is_a_span request exceptions_valid x start end_ source Hx Ea) as [? _].
  by apply (contained_of_series request _ _ start end_).
Qed.

Lemma append_moved_of_series item recurrence l l' :
  append_moved_occurrences_for_horizon request item recurrence l = Ok l' →
  Forall (of_series request (wi_id item)) l → Forall (of_series request (wi_id item)) l'.
Proof using exceptions_valid.
  intros (proof & _ & (indices & _ & (st & Hst & [= <-])%rbind_ok)%rbind_ok)%rbind_ok Hl.
  revert Hst. apply (foldM_inv _ (λ _ st, Forall (of_series request (wi_id item)) (mv_occurrences st))); [done|].
  intros p x q t t' Heq Ht Ha. apply (append_move_of_series _ _ _ _ _ _) in Ha; [done| |done].
  assert (x ∈ item_exceptions request (wi_id item)) as [_ ?]%list_elem_of_filter; [|done].
  rewrite Heq. apply elem_of_app. right. left.
Qed.
End moving.

(** ** The occurrences of a request *)

Section whole.
Context `{CivilLaws} `{!PlatformLaws}.
Context (request : PlanRequest).
Hypothesis horizon : (horizon_start request <= horizon_end request)%Z.

Lemma validated_exceptions x :
  validate_recurrence_context request = Ok tt → x ∈ rctx_exceptions (recurrence_context request) → validate_exception x = Ok tt.
Proof.
  unfold validate_recurrence_context. rewrite !rbind_unit_ok. intros (_ & _ & _ & Hx & _). rewrite forM_ok, Forall_forall in Hx. apply Hx.
Qed.

Lemma validated_rules item recurrence :
  validate_recurrence_context request = Ok tt → item ∈ items request → recurrence_of item = Some recurrence →
  validate_rule (wi_id item) recurrence = Ok tt.
Proof.
  unfold validate_recurrence_context. rewrite !rbind_unit_ok. intros (_ & _ & _ & _ & Hi) Hin Hr.
  unfold validate_item_recurrences in Hi. rewrite forM_ok, Forall_forall in Hi. specialize (Hi item Hin).
  unfold validate_item_recurrence in Hi. rewrite rbind_unit_ok, Hr, rbind_unit_ok in Hi. tauto.
Qed.

Lemma root_items_in item : item ∈ root_items request → item ∈ items request.
Proof. unfold root_items. rewrite list_elem_of_omap. intros (root & _ & Hl). apply collect_by_id_in in Hl. tauto. Qed.

(** The occurrences of one root. *)
Lemma series_occurrences_ok days item l :
  validate_recurrence_context request = Ok tt → item ∈ root_items request →
  series_occurrences request days item = Ok l → Forall (λ o, of_series request (wi_id item) o ∧ settled request o) l.
Proof using All.
  intros Hv Hin Hl. unfold series_occurrences in Hl. destruct (recurrence_of item) as [recurrence|] eqn:Er; [|by injection Hl as <-].
  apply rbind_ok in Hl as (made & Hmade & (moved & Hmoved & [= <-])%rbind_ok). unfold apply_pauses_and_exceptions.
  apply Forall_fmap, Forall_forall. intros o Ho. unfold compose.
  destruct (settle_of_series request (wi_id item) (λ x, validated_exceptions x Hv) o) as (? & ? & _); [|done].
  pose proof (append_moved_of_series request (λ x, validated_exceptions x Hv) item recurrence made moved Hmoved) as Hall.
  revert o Ho. apply Forall_forall, Hall, Forall_forall. intros o Ho.
  apply (expand_series_ok request item horizon recurrence days made); [|done..].
  apply validated_rules; [done|by apply root_items_in|done].
Qed.

Lemma check_owners_nodup l owners : check_owners l = Ok owners → NoDup (occ_id <$> l).
Proof.
  intros Hc. assert (NoDup (occ_id <$> l) ∧ ∀ k, is_Some (owners !! k) ↔ k ∈ occ_id <$> l); [|tauto]. revert Hc.
  apply (foldM_inv _ (λ p owners, NoDup (occ_id <$> p) ∧ ∀ k, is_Some (owners !! k) ↔ k ∈ occ_id <$> p)).
  { split; [constructor|]. intros k. rewrite lookup_empty. split; [by intros [??]|by intros ?%not_elem_of_nil]. }
  intros p o q t t' _ [Hnd Hk]. case_bool_decide as Hd; [done|]. intros [= <-]. rewrite fmap_app. split.
  - apply NoDup_snoc; [done|]. by rewrite <- Hk.
  - intros k. simpl. rewrite elem_of_app, list_elem_of_singleton, <- Hk. destruct (decide (occ_id o = k)) as [<-|Hne].
    + rewrite lookup_insert_eq. split; [by right|]. by eexists.
    + rewrite lookup_insert_ne by done. split; [by left|]. by intros [|].
Qed.

Lemma lawful_occurrence_cmp : lawful occurrence_cmp.
Proof.
  unfold occurrence_cmp. apply lawful_then; [apply lawful_odt|].
  apply lawful_then; [apply (lawful_contramap occ_series_item_id), lawful_N|].
  apply lawful_then; [apply (lawful_contramap occ_ordinal), lawful_N|apply (lawful_contramap occ_id), lawful_N].
Qed.

Lemma expanded_occurrences l :
  expand_occurrences_validated request = Ok l →
  ∃ days all, validate_recurrence_context request = Ok tt ∧ resolved_days request = Ok days ∧
    foldM (λ acc item, let? made := series_occurrences request days item in Ok (acc ++ made)) [] (root_items request) = Ok all ∧
    NoDup (occ_id <$> all) ∧ l = sort_occurrences all.
Proof.
  unfold expand_occurrences_validated. rewrite rbind_unit_ok. intros [Hv (days & Hd & Hl)%rbind_ok].
  rewrite rbind_unit_ok in Hl. destruct Hl as [_ (all & Ha & (owners & Ho & Hl)%rbind_ok)%rbind_ok].
  rewrite rbind_unit_ok in Hl. destruct Hl as [_ [= <-]]. exists days, all. split_and!; try done. by eapply check_owners_nodup.
Qed.

(** Every occurrence comes from one of the roots. *)
Lemma gathered days all (P : WorkItem → Occurrence → Prop) :
  foldM (λ acc item, let? made := series_occurrences request days item in Ok (acc ++ made)) [] (root_items request) = Ok all →
  (∀ item l, item ∈ root_items request → series_occurrences request days item = Ok l → Forall (P item) l) →
  ∀ o, o ∈ all → ∃ item, item ∈ root_items request ∧ P item o.
Proof.
  intros Hall HP. revert Hall.
  apply (foldM_inv _ (λ p all, ∀ o, o ∈ all → ∃ item, item ∈ p ∧ P item o)); [by intros o ?%not_elem_of_nil|].
  intros p item q t t' Heq IH (made & Hm & [= <-])%rbind_ok o [Ho|Ho]%elem_of_app.
  - destruct (IH o Ho) as (item' & ? & ?). exists item'. split; [|done]. apply elem_of_app. by left.
  - exists item. split; [apply elem_of_app; right; left|].
    assert (item ∈ root_items request) as Hin by (rewrite Heq; apply elem_of_app; right; left).
    pose proof (HP item made Hin Hm) as HF. rewrite Forall_forall in HF. by apply HF.
Qed.

Lemma occurrences_sound l :
  expand_occurrences_validated request = Ok l →
  NoDup (occ_id <$> l) ∧ StronglySorted (λ a b, is_le (occurrence_cmp a b) = true) l ∧
  ∀ o, o ∈ l →
    (∃ item, item ∈ root_items request ∧ wi_id item = occ_series_item_id o) ∧ in_horizon request o ∧ settled request o.
Proof using All.
  intros (days & all & Hv & _ & Hall & Hnd & ->)%expanded_occurrences. unfold sort_occurrences. split_and!.
  - by rewrite sort_by_perm.
  - pose proof lawful_occurrence_cmp as Hlaw.
    apply sort_by_sorted; intros *; [by apply lawful_leb_total|by apply lawful_leb_trans].
  - intros o. rewrite elem_of_sort_by. intros Ho.
    destruct (gathered _ _ _ Hall (λ item l Hin, series_occurrences_ok days item l Hv Hin) o Ho) as (item & Hin & [Hid Hh] & Hs).
    split_and!; [by exists item|done..].
Qed.

(** Every occurrence of a request belongs to one of its recurring roots and
    has its window inside the horizon; a generated occurrence is not completed
    and no pause of its series overlaps it; identities are unique and the list
    is in order of nominal start, series, ordinal and identity. *)
Theorem occurrences_are_sound l :
  expand_occurrences_validated request = Ok l →
  NoDup (occ_id <$> l) ∧ StronglySorted (λ a b, is_le (occurrence_cmp a b) = true) l ∧
  ∀ o, o ∈ l →
    (∃ item, item ∈ root_items request ∧ wi_id item = occ_series_item_id o) ∧ in_horizon request o ∧ settled request o.
Proof using All. apply occurrences_sound. Qed.
End whole.

(** ** Rolling series are exact *)

(** The anchor of a rolling series and the minutes from it to each index. *)
Definition rolling_form (request : PlanRequest) (item : WorkItem) (recurrence : Recurrence) : option (OffsetDateTime * (Z → Z)) :=
  match recurrence with
  | EveryInterval interval => Some (rolling_anchor request item, λ i, Z.of_N interval * i)%Z
  | Frequency target Day Rolling _ _ anchor => Some (effective_rolling_anchor request item anchor, frequency_offset target 1440)
  | Frequency target Week Rolling _ _ anchor => Some (effective_rolling_anchor request item anchor, frequency_offset target 10080)
  | _ => None
  end.

(** Among increasing values, one interval holds a given instant. *)
Lemma interval_of (f : Z → Z) (first : Z) (len : nat) (t : Z) :
  (f first <= t)%Z → (t < f (first + Z.of_nat len))%Z →
  ∃ k, k < len ∧ (f (first + Z.of_nat k) <= t)%Z ∧ (t < f (first + Z.of_nat k + 1))%Z.
Proof.
  intros Hlo. induction len as [|len IH]; intros Hhi; [rewrite Z.add_0_r in Hhi; lia|].
  destruct (Z.lt_ge_cases t (f (first + Z.of_nat len)%Z)) as [Hlt|Hge].
  - destruct (IH Hlt) as (k & ? & ? & ?). exists k. split_and!; [lia|done..].
  - exists len. split_and!; [lia|done|]. by replace (first + Z.of_nat len + 1)%Z with (first + Z.of_nat (S len))%Z by lia.
Qed.

Section rolling_series.
Context `{CivilLaws} `{!PlatformLaws}.

Lemma rolling_series_cover request item recurrence days anchor offset l :
  (horizon_start request <= horizon_end request)%Z → validate_rule (wi_id item) recurrence = Ok tt →
  rolling_form request item recurrence = Some (anchor, offset) → expand_series request item recurrence days = Ok l →
  offset 0%Z = 0%Z ∧ ∃ first, rolling_cover request anchor offset (minimum_spacing request item) l first.
Proof.
  intros Hh Hv Hform Hl. destruct recurrence as [| | |interval| |target [] [] weekdays spacing a|]; try done;
    cbn [rolling_form expand_series validate_rule] in *; simplify_eq.
  - destruct (N.eqb_spec interval 0); [done|]. split; [lia|]. apply expand_rolling_minutes_cover in Hl; [done|lia|done].
  - destruct (N.eqb_spec target 0); [done|]. destruct (N.ltb_spec (24 * 60) target); [done|]. split; [done|].
    apply expand_rolling_frequency_cover in Hl; [done|unfold DAY_MINUTES; lia|done].
  - destruct (N.eqb_spec target 0); [done|]. destruct (N.ltb_spec (7 * 24 * 60) target); [done|]. split; [done|].
    apply expand_rolling_frequency_cover in Hl; [done|unfold WEEK_MINUTES; lia|done].
Qed.

(** C36. A rolling series of a fixed length, an interval of minutes or a frequency
    per rolling day or week, is expanded exactly: its occurrences are consecutive
    indices of the series, each at its index's instant and ending at the next
    index's instant or after the minimum spacing, from the last index not after
    the start of the horizon to the last one before its end, and every instant
    of the horizon from the anchor on lies in the interval of one of them. *)
Theorem rolling_series_exact request item recurrence days anchor offset l :
  (horizon_start request <= horizon_end request)%Z → validate_rule (wi_id item) recurrence = Ok tt →
  rolling_form request item recurrence = Some (anchor, offset) → expand_series request item recurrence days = Ok l →
  ∃ first, rolling_cover request anchor offset (minimum_spacing request item) l first ∧
    ∀ t : OffsetDateTime, (anchor <= t)%Z → (horizon_start request <= t)%Z → (t < horizon_end request)%Z →
      ∃ o, o ∈ l ∧ (occ_nominal_start o <= t)%Z ∧ (t < occ_nominal_end o)%Z.
Proof.
  intros Hh Hv Hform Hl. destruct (rolling_series_cover _ _ _ _ _ _ _ Hh Hv Hform Hl) as (Hzero & first & Hcover).
  exists first. split; [done|]. intros t Ha Hs He. destruct Hcover as [[Hf Hfirst] Hnext Hocc Hend].
  destruct (interval_of (λ i, anchor + offset i * nanos_per_minute)%Z first (length l) t) as (k & Hk & Hlo & Hhi).
  - destruct Hfirst as [->|?]; [rewrite Hzero; lia|lia].
  - lia.
  - apply lookup_lt_is_Some in Hk as [o Ho]. exists o. destruct (Hocc k o Ho) as (_ & Hst & Hen & _).
    split; [by eapply list_elem_of_lookup_2|]. lia.
Qed.
End rolling_series.

(** ** Witnesses: three days of a daily routine of two tasks, paused on the second *)

Definition morning_routine : list WorkItem :=
  [sample_item 1 (Routine {| rs_ordered := true; rs_recurrence := Some (Daily 1) |}) None 0;
   sample_item 2 Task (Some 1%N) 30; sample_item 3 Task (Some 1%N) 20; sample_item 4 Task None 45].

Definition paused_tomorrow : RecurrenceContext :=
  {| rctx_calendar := rctx_calendar no_recurrence; rctx_completion_anchors := ∅; rctx_rolling_anchors := ∅;
     rctx_minimum_spacing := {[1%N := 60%N]}; rctx_completed_occurrence_ids := ∅; rctx_partial_progress := ∅;
     rctx_pauses := [{| rpz_item_id := 1; rpz_start := at_minute 1500; rpz_end := at_minute 1800 |}];
     rctx_exceptions := [] |}.

Definition three_days (its : list WorkItem) : PlanRequest :=
  {| as_of := at_minute 0; horizon_start := at_minute 0; horizon_end := at_minute 4320; items := its;
     availability := [window 480 720; window 1920 2160; window 3360 3600]; fixed_blocks := []; previous_assignments := [];
     config := default_config; recurrence_context := paused_tomorrow |}.

Definition routine_days : PlanRequest := three_days morning_routine.

Definition routine_occurrences : result RecurrenceError (list Occurrence) :=
  @expand_occurrences_validated utc_platform gregorian routine_days.

Lemma routine_occurrences_ok :
  match routine_occurrences with
  | Ok l => bool_decide (occ_state <$> l = [OccurrenceState.Generated; OccurrenceState.Paused; OccurrenceState.Generated])
  | Err _ => false
  end = true.
Proof. vm_compute. reflexivity. Qed.

Lemma occurrences_are_sound_witness :
  ∃ l, routine_occurrences = Ok l ∧ length l = 3 ∧ NoDup (occ_id <$> l) ∧ ∀ o, o ∈ l → in_horizon routine_days o.
Proof.
  pose proof routine_occurrences_ok as Hok. destruct routine_occurrences as [l|e] eqn:E; [|discriminate Hok].
  apply bool_decide_eq_true in Hok. exists l. split; [reflexivity|]. split.
  { rewrite <- (length_fmap occ_state l), Hok. reflexivity. }
  destruct (@occurrences_are_sound utc_platform gregorian gregorian_laws utc_platform_laws routine_days ltac:(done) l E) as (Hnd & _ & Hall).
  split; [exact Hnd|]. intros o Ho. apply (Hall o Ho).
Defined.

(** Every ten hours from the first midnight. *)
Definition ten_hourly : WorkItem := sample_item 9 (RecurringTask {| rts_recurrence := EveryInterval 600 |}) None 30.

Definition ten_hourly_occurrences : result RecurrenceError (list Occurrence) :=
  @expand_series utc_platform gregorian (three_days [ten_hourly]) ten_hourly (EveryInterval 600) [].

Lemma ten_hourly_ok : match ten_hourly_occurrences with Ok l => length l =? 8 | Err _ => false end = true.
Proof. vm_compute. reflexivity. Qed.

Lemma rolling_series_exact_witness :
  ∃ l o, ten_hourly_occurrences = Ok l ∧ length l = 8 ∧ o ∈ l ∧
    (occ_nominal_start o <= at_minute 1234)%Z ∧ (at_minute 1234 < occ_nominal_end o)%Z.
Proof.
  pose proof ten_hourly_ok as Hok. destruct ten_hourly_occurrences as [l|e] eqn:E; [|discriminate Hok].
  apply Nat.eqb_eq in Hok.
  destruct (@rolling_series_exact utc_platform gregorian gregorian_laws utc_platform_laws (three_days [ten_hourly]) ten_hourly
    (EveryInterval 600) [] _ _ l ltac:(done) eq_refl eq_refl E) as (first & _ & Hcover).
  destruct (Hcover (at_minute 1234) ltac:(done) ltac:(done) ltac:(done)) as (o & Ho & Hs & He).
  exists l, o. split; [reflexivity|]. split; [exact Hok|]. split; [exact Ho|]. split; [exact Hs|exact He].
Defined.
