(* ===== verification/Moves.v ===== *)
(** * Moves: a generated occurrence can prove its identity

    A client moves an occurrence by sending back its identity and nominal span,
    and [move_source_is_valid] recomputes both from the series.  The theorem of
    this file: on days whose offset does not change ([steady_days]), the
    occurrences that the expansion generates are accepted with their own metadata
    ([provable_series] states what each kind of series needs).  On a day that
    changes its offset, and for a rolling month whose boundary an explicit
    calendar does not have, the recomputation can differ; examples show both. *)
From S2P Require Import Prelude Text Tokens Platform Civil Domain Samples Forest Rollup Order Rrule Expansion Horizon Occurrences.

(** [lia] reads quotients and remainders by constants. *)
#[local] Ltac Zify.zify_post_hook ::= Z.to_euclidean_division_equations.

(** ** Regular days *)

Definition representable `{Platform} (t : OffsetDateTime) : Prop := is_Some (odt_checked_add t 0).

(** A local day with one offset and representable boundaries. *)
Record regular_day `{Platform} (day : ZonedDayBoundary) : Prop := {
  rd_offset : utc_offset (zd_end day) = utc_offset (zd_start day);
  rd_start : representable (zd_start day);
  rd_end : representable (zd_end day);
  rd_order : (zd_start day < zd_end day)%Z;
  rd_first : ((unix_timestamp (zd_start day) + utc_offset (zd_start day)) / 86400 = zd_local_date day)%Z;
  rd_last : (((zd_end day - 1) / nanos_per_second + utc_offset (zd_start day)) / 86400 = zd_local_date day)%Z
}.

Section days.
Context `{CivilLaws} `{!PlatformLaws}.

Lemma regular_length day : regular_day day → (0 < zd_end day - zd_start day <= 86400 * nanos_per_second)%Z.
Proof. intros [_ _ _ Ho Hf Hl]. unfold unix_timestamp, nanos_per_second in *. lia. Qed.

(** An instant of a regular day, at the day's offset, has its date. *)
Lemma regular_date day (t : OffsetDateTime) :
  regular_day day → utc_offset t = utc_offset (zd_start day) → (zd_start day <= t)%Z → (t < zd_end day)%Z → odt_date t = zd_local_date day.
Proof. intros [_ _ _ Ho Hf Hl] Heq Hlo Hhi. rewrite odt_date_exact, Heq. unfold unix_timestamp, nanos_per_second in *. lia. Qed.

Lemma regular_add day d :
  regular_day day → (0 <= d <= zd_end day - zd_start day)%Z →
  ∃ t, odt_checked_add (zd_start day) d = Some t ∧ (t : Z) = (zd_start day + d)%Z ∧ utc_offset t = utc_offset (zd_start day).
Proof.
  intros [Ho Hs He _ _ _] Hd.
  destruct (checked_add_between (zd_start day) (zd_end day) (zd_start day) 0 0 d Hs He) as [t Ht]; [done|done|lia|].
  exists t. split; [done|]. by apply checked_add_exact.
Qed.

Lemma regular_sub day (t : OffsetDateTime) :
  regular_day day → utc_offset t = utc_offset (zd_start day) → (zd_start day < t <= zd_end day)%Z →
  ∃ u, odt_checked_sub t 1 = Some u ∧ odt_date u = zd_local_date day.
Proof.
  intros Hday Heq Ht. pose proof Hday as [Ho Hs He _ _ _].
  assert (is_Some (odt_checked_sub t 1)) as [u Hu].
  { apply checked_sub_is_add. apply (checked_add_between (zd_start day) (zd_end day) t 0 0 (- (1))%Z); [done|done|congruence|congruence|lia]. }
  exists u. split; [done|]. apply checked_sub_exact in Hu as [Hn Hoff]. apply regular_date; [done|congruence|lia|lia].
Qed.

(** ** The share of a day *)

Lemma part_of_day_ok day num den :
  regular_day day → (0 <= num <= den)%Z → (0 < den <= 65535)%Z →
  ∃ value elapsed t, duration_checked_mul (duration_between (zd_end day) (zd_start day)) num = Some value ∧
    duration_checked_div value den = Some elapsed ∧ odt_checked_add (zd_start day) elapsed = Some t ∧
    part_of_day day num den = t ∧ (t : Z) = (zd_start day + (zd_end day - zd_start day) * num / den)%Z ∧
    utc_offset t = utc_offset (zd_start day).
Proof.
  intros Hday Hn Hd. pose proof (regular_length day Hday) as Hlen. unfold part_of_day, duration_between.
  set (len := (zd_end day - zd_start day)%Z) in *.
  assert (0 <= len * num <= 86400 * nanos_per_second * 65535)%Z as Hv.
  { split; [nia|]. apply Z.mul_le_mono_nonneg; lia. }
  destruct (mul_below len num) as [value Hvalue]; [unfold nanos_per_second in *; lia|].
  pose proof (mul_exact _ _ _ Hvalue) as ->.
  destruct (div_below (len * num) den) as [elapsed Helapsed]; [lia|unfold nanos_per_second in *; lia|].
  pose proof (div_exact _ _ _ Helapsed) as [_ Hquot]. rewrite Z.quot_div_nonneg in Hquot by lia.
  destruct (regular_add day elapsed Hday) as (t & Ht & Htn & Hto).
  { rewrite Hquot. split; [apply Z.div_pos; lia|]. apply Z.div_le_upper_bound; [lia|]. fold len. nia. }
  exists (len * num)%Z, elapsed, t. split_and!; [done|done|done| |by rewrite Htn, Hquot|done].
  rewrite Hvalue. simpl. rewrite Helapsed. simpl. by rewrite Ht.
Qed.

Lemma spacing_end_offset day start spacing :
  regular_day day → utc_offset start = utc_offset (zd_start day) → utc_offset (spacing_end_in day start spacing) = utc_offset (zd_start day).
Proof.
  intros [Ho _ _ _ _ _] Hs. unfold spacing_end_in. destruct (odt_checked_add _ _) as [v|] eqn:E; [|done].
  apply checked_add_exact in E as [_ Hv]. unfold odt_min. destruct (odt_ltb _ _); congruence.
Qed.

Lemma odt_ext (a b : OffsetDateTime) : unix_nanos a = unix_nanos b → utc_offset a = utc_offset b → a = b.
Proof. destruct a, b. simpl. congruence. Qed.

Lemma odt_max_offset a b o : utc_offset a = o → utc_offset b = o → utc_offset (odt_max a b) = o.
Proof. unfold odt_max. by destruct (odt_ltb b a). Qed.

Lemma spacing_end_le day start spacing : (spacing_end_in day start spacing <= zd_end day)%Z.
Proof. unfold spacing_end_in. destruct (odt_checked_add _ _); [rewrite unix_nanos_min|]; lia. Qed.

(** On a regular day, the share lies in the day and has the day's offset. *)
Lemma day_share_ok day position count spacing s e :
  regular_day day → position < count → (Z.of_nat count <= 65535)%Z → day_share day position count spacing = (s, e) →
  utc_offset s = utc_offset (zd_start day) ∧ utc_offset e = utc_offset (zd_start day) ∧
  (zd_start day <= s)%Z ∧ (s < zd_end day)%Z ∧ (e <= zd_end day)%Z ∧ (s <= e)%Z.
Proof.
  intros Hday Hp Hc. unfold day_share, i32_or_max. pose proof Hday as [Ho _ _ Hlt _ _].
  rewrite !Z.min_l by lia.
  destruct (part_of_day_ok day (Z.of_nat position) (Z.of_nat count) Hday) as (v1 & e1 & t1 & _ & _ & _ & -> & Ht1 & Ho1); [lia|lia|].
  destruct (part_of_day_ok day (Z.of_nat (position + 1)) (Z.of_nat count) Hday) as (v2 & e2 & t2 & _ & _ & _ & -> & Ht2 & Ho2); [lia|lia|].
  set (len := (zd_end day - zd_start day)%Z) in *. intros [= <- <-].
  assert (0 <= len * Z.of_nat position / Z.of_nat count < len)%Z as Hs.
  { split; [apply Z.div_pos; nia|]. apply Z.div_lt_upper_bound; [lia|]. nia. }
  assert (len * Z.of_nat position / Z.of_nat count <= len * Z.of_nat (position + 1) / Z.of_nat count <= len)%Z as Hs'.
  { split; [apply Z.div_le_mono; nia|]. apply Z.div_le_upper_bound; [lia|]. nia. }
  set (en := if position + 1 =? count then zd_end day else t2).
  assert (utc_offset en = utc_offset (zd_start day) ∧ (t1 <= en)%Z ∧ (en <= zd_end day)%Z) as (Hen & Hge & Hle).
  { subst en. destruct (position + 1 =? count); split_and!; try done; lia. }
  pose proof (spacing_end_offset day t1 spacing Hday Ho1) as Hso. pose proof (spacing_end_le day t1 spacing) as Hsl.
  split; [done|]. destruct (odt_eqb _ _) eqn:E; instants.
  - split_and!; lia || done.
  - split_and!; [by apply odt_max_offset|lia..].
Qed.

(** The proof of a moved occurrence recomputes the share the expansion gives. *)
Lemma bounds_agree day target eligible i spacing :
  regular_day day → (i < target)%N → (target <= u16_max)%N → 0 < eligible →
  calendar_occurrence_bounds day target eligible i spacing =
    Some (day_share day (ordinal_position target eligible i) (ordinal_count target eligible i) spacing).
Proof.
  intros Hday Hi Ht He. unfold calendar_occurrence_bounds, u16_max in *. pose proof Hday as [Ho _ _ Hlt _ _].
  destruct (N.eqb_spec target 0); [lia|]. destruct (N.leb_spec target i); [lia|]. destruct (Nat.eqb_spec eligible 0); [lia|]. cbn [orb].
  pose proof (ordinal_bounds target eligible i ltac:(lia) He) as Hb. cbv zeta in Hb.
  pose proof (day_ordinals_range target eligible (ordinal_day target eligible i) ltac:(lia) He (ordinal_day_lt target eligible i Hi He)) as (_ & Hnext & _).
  unfold ordinal_position, ordinal_count. fold (ordinal_day target eligible i).
  fold (first_ordinal target eligible (ordinal_day target eligible i)).
  fold (first_ordinal target eligible (ordinal_day target eligible i + 1)).
  set (f := first_ordinal target eligible (ordinal_day target eligible i)) in *.
  set (f' := first_ordinal target eligible (ordinal_day target eligible i + 1)) in *. clearbody f f'.
  unfold checked_sub. rewrite !(proj2 (N.leb_le _ _)) by lia. cbn [mbind option_bind].
  unfold try_i32. rewrite !(proj2 (Z.leb_le _ _)), !(proj2 (Z.ltb_lt _ _)) by lia. cbn [mbind option_bind andb].
  set (position := N.to_nat (i - f)). set (count := N.to_nat (f' - f)).
  assert (Z.of_N (i - f) = Z.of_nat position ∧ Z.of_N (f' - f) = Z.of_nat count) as [-> ->] by (subst position count; lia).
  assert (position < count) as Hpc by (subst position count; lia). assert (Z.of_nat count <= 65535)%Z as Hc by (subst count; lia). clearbody position count.
  destruct (part_of_day_ok day (Z.of_nat position) (Z.of_nat count) Hday) as (v1 & e1 & t1 & Hm1 & Hd1 & Ha1 & Hp1 & _ & Ho1); [lia|lia|].
  rewrite Hm1. cbn [mbind option_bind]. rewrite Hd1. cbn [mbind option_bind]. rewrite Ha1. cbn [mbind option_bind].
  assert (∀ en, utc_offset en = utc_offset (zd_start day) →
    Some (t1, odt_max en (spacing_end_in day t1 spacing)) =
    Some (t1, if odt_eqb (odt_max en (spacing_end_in day t1 spacing)) (zd_end day) then zd_end day else odt_max en (spacing_end_in day t1 spacing))) as Hfix.
  { intros en Hen. destruct (odt_eqb _ _) eqn:E; [|done]. apply odt_eqb_eq in E. do 2 f_equal. apply odt_ext; [done|].
    rewrite Ho. apply odt_max_offset; [done|by apply spacing_end_offset]. }
  unfold day_share, i32_or_max. rewrite !Z.min_l, Hp1 by lia.
  replace (Z.of_nat position + 1)%Z with (Z.of_nat (position + 1)) by lia.
  destruct (Nat.eqb_spec (position + 1) count) as [Heq|Hne].
  - rewrite (proj2 (Z.eqb_eq _ _)) by lia. cbn [mbind option_bind]. by apply Hfix.
  - rewrite (proj2 (Z.eqb_neq _ _)) by lia.
    destruct (part_of_day_ok day (Z.of_nat (position + 1)) (Z.of_nat count) Hday) as (v2 & e2 & t2 & Hm2 & Hd2 & Ha2 & Hp2 & _ & Ho2); [lia|lia|].
    rewrite Hm2. cbn [mbind option_bind]. rewrite Hd2. cbn [mbind option_bind]. rewrite Ha2. cbn [mbind option_bind]. rewrite Hp2. by apply Hfix.
Qed.
End days.

(** ** The days of a request *)

(** The days' offsets do not change within a day, their boundaries are
    representable, and an explicit calendar names its time zone. *)
Record steady_days `{Platform} (request : PlanRequest) (days : list ZonedDayBoundary) : Prop := {
  sd_offset day : day ∈ days → utc_offset (zd_end day) = utc_offset (zd_start day);
  sd_boundaries day : day ∈ days → representable (zd_start day) ∧ representable (zd_end day);
  sd_zone : calendar_days request ≠ [] → is_Some (time_zone_id (rctx_calendar (recurrence_context request)))
}.

Section resolved.
Context `{CivilLaws} `{!PlatformLaws}.

Lemma zoned_days_checked (l : list ZonedDayBoundary) dates :
  foldM check_zoned_day ∅ l = Ok dates →
  NoDup (zd_local_date <$> l) ∧ ∀ day, day ∈ l → ∃ last_instant, odt_checked_sub (zd_end day) 1 = Some last_instant ∧
    (zd_start day < zd_end day)%Z ∧ odt_date (zd_start day) = zd_local_date day ∧ odt_date last_instant = zd_local_date day.
Proof.
  intros Hl. cut ((NoDup (zd_local_date <$> l) ∧ ∀ d, d ∈ dates ↔ d ∈ zd_local_date <$> l) ∧
    ∀ day, day ∈ l → ∃ last_instant, odt_checked_sub (zd_end day) 1 = Some last_instant ∧
    (zd_start day < zd_end day)%Z ∧ odt_date (zd_start day) = zd_local_date day ∧ odt_date last_instant = zd_local_date day); [tauto|].
  revert Hl. apply (foldM_inv _ (λ p dates, (NoDup (zd_local_date <$> p) ∧ ∀ d, d ∈ dates ↔ d ∈ zd_local_date <$> p) ∧
    ∀ day, day ∈ p → ∃ last_instant, odt_checked_sub (zd_end day) 1 = Some last_instant ∧
    (zd_start day < zd_end day)%Z ∧ odt_date (zd_start day) = zd_local_date day ∧ odt_date last_instant = zd_local_date day)).
  { split; [split; [constructor|]|by intros day ?%not_elem_of_nil]. intros d. by rewrite elem_of_empty, elem_of_nil. }
  intros p day q dates0 dates1 _ [[Hnd Hd] IH] Hc. unfold check_zoned_day in Hc.
  destruct (odt_checked_sub (zd_end day) 1) as [u|] eqn:Eu; [|done]. destruct (_ || _) eqn:E; [done|].
  case_bool_decide as Hin; [done|]. injection Hc as <-. rewrite !orb_false_iff, !negb_false_iff, !Z.eqb_eq in E.
  destruct E as [[E1 E2] E3]. instants. rewrite fmap_app. split; [split|].
  - apply NoDup_app. split_and!; [done| |apply NoDup_singleton]. intros d Hdp ->%list_elem_of_singleton. by apply Hin, Hd.
  - intros d. rewrite elem_of_union, elem_of_singleton, elem_of_app, <- Hd. simpl. rewrite list_elem_of_singleton. tauto.
  - intros d [Hp| ->%list_elem_of_singleton]%elem_of_app; [by apply IH|]. by exists u.
Qed.

Lemma collected_days fuel request offset date collected l :
  collect_days fuel request offset date collected = Ok l → ∀ day, day ∈ l →
  day ∈ collected ∨ ∃ next, date_next_day (zd_local_date day) = Some next ∧
    zd_start day = midnight_at (zd_local_date day) offset ∧ zd_end day = midnight_at next offset.
Proof.
  revert date collected. induction fuel as [|fuel IH]; intros date collected Hl day Hday; [injection Hl as <-; by left|].
  cbn [collect_days] in Hl. apply rbind_ok in Hl as (next & Hn%ok_or_ok & Hl). unfold midnight in Hl. cbn [rbind] in Hl.
  destruct (odt_leb _ _); [injection Hl as <-; by left|]. destruct (IH _ _ Hl day Hday) as [Hc|]; [|by right].
  destruct (odt_ltb _ _); [|by left]. apply elem_of_app in Hc as [?| ->%list_elem_of_singleton]; [by left|right]. by exists next.
Qed.

Lemma next_day_succ d next : date_next_day d = Some next → next = (d + 1)%Z.
Proof. rewrite next_day_exact. by intros [? _]%add_days_exact. Qed.

Context (request : PlanRequest) (days : list ZonedDayBoundary).
Hypothesis valid_calendar : validate_zoned_calendar request = Ok tt.
Hypothesis resolved : resolved_days request = Ok days.
Hypothesis steady : steady_days request days.

Lemma calendar_checked : ∃ dates, foldM check_zoned_day ∅ (calendar_days request) = Ok dates.
Proof using valid_calendar.
  unfold validate_zoned_calendar in valid_calendar. apply rbind_ok in valid_calendar as (dates & ? & _). by exists dates.
Qed.

Lemma resolved_regular day : day ∈ days → regular_day day.
Proof using All.
  intros Hday. destruct (sd_boundaries _ _ steady day Hday) as [Hs He]. pose proof (sd_offset _ _ steady day Hday) as Ho.
  unfold resolved_days in resolved. case_bool_decide as Hc; simpl in resolved.
  - destruct (collected_days _ _ _ _ _ _ resolved day Hday) as [?%not_elem_of_nil|(next & Hn & Hst & Hen)]; [done|].
    apply next_day_succ in Hn as ->. set (o := utc_offset (horizon_start request)) in *.
    destruct (midnight_exact (zd_local_date day) o) as [Hm1 Ho1]. destruct (midnight_exact (zd_local_date day + 1) o) as [Hm2 Ho2].
    constructor; rewrite ?Hst, ?Hen in *; unfold unix_timestamp; rewrite ?Hm1, ?Hm2, ?Ho1, ?Ho2; try done; unfold nanos_per_second; lia.
  - destruct calendar_checked as (dates & Hd%zoned_days_checked). destruct Hd as [_ Hd]. injection resolved as <-.
    unfold sort_days in Hday. rewrite elem_of_sort_by in Hday. destruct (Hd day Hday) as (u & Hu & Hlt & Hds & Hdu).
    apply checked_sub_exact in Hu as [Hun Huo]. rewrite odt_date_exact in Hds, Hdu. constructor; try done.
    unfold unix_timestamp in Hdu. by rewrite Huo, Ho, Hun in Hdu.
Qed.

Lemma find_day_unique l day : NoDup (zd_local_date <$> l) → day ∈ l → find_day l (zd_local_date day) = Some day.
Proof.
  unfold find_day. induction l as [|a l IH]; intros Hnd Hin; [by apply not_elem_of_nil in Hin|].
  apply NoDup_cons in Hnd as [Ha Hnd]. simpl. destruct (Z.eqb_spec (zd_local_date a) (zd_local_date day)) as [Heq|Hne].
  - apply elem_of_cons in Hin as [->|Hin]; [done|]. exfalso. apply Ha. change (zd_local_date a ∈ zd_local_date <$> l). rewrite Heq.
    by apply list_elem_of_fmap_2.
  - apply elem_of_cons in Hin as [->|Hin]; [done|]. by apply IH.
Qed.

Lemma authoritative_day day : day ∈ days → authoritative_day_boundary request (zd_local_date day) = Some day.
Proof using All.
  intros Hday. unfold authoritative_day_boundary. fold (calendar_days request). unfold resolved_days in resolved.
  case_bool_decide as Hc; simpl in *.
  - destruct (collected_days _ _ _ _ _ _ resolved day Hday) as [?%not_elem_of_nil|(next & Hn & Hst & Hen)]; [done|].
    rewrite Hn. simpl. rewrite <- Hst, <- Hen. by destruct day.
  - destruct (sd_zone _ _ steady Hc) as [zone ->]. simpl.
    destruct calendar_checked as (dates & Hd%zoned_days_checked). destruct Hd as [Hnd _]. injection resolved as <-.
    unfold sort_days in Hday. rewrite elem_of_sort_by in Hday. by apply find_day_unique.
Qed.

End resolved.

(** ** Calendar occurrences *)

(** The metadata a client sends back for an occurrence. *)
Definition source_of (item : WorkItem) (o : Occurrence) : RecurrenceMoveSource :=
  {| ms_item_revision := wi_revision item; ms_identity := occ_identity o; ms_nominal_start := occ_nominal_start o;
     ms_nominal_end := occ_nominal_end o; ms_local_date := occ_local_date o; ms_ordinal := occ_ordinal o |}.

Section calendar.
Context `{CivilLaws} `{!PlatformLaws}.
Context (request : PlanRequest) (item : WorkItem) (days : list ZonedDayBoundary).
Hypothesis valid_calendar : validate_zoned_calendar request = Ok tt.
Hypothesis resolved : resolved_days request = Ok days.
Hypothesis steady : steady_days request days.

Lemma same_zoned_refl t : same_zoned t t = true.
Proof. unfold same_zoned, odt_eqb. by rewrite !Z.eqb_refl. Qed.

Lemma in_window_inv o o' : o ∈ in_window o' → o = o' ∧ (occ_window_start o < occ_window_end o)%Z.
Proof.
  unfold in_window. destruct (odt_ltb _ _) eqn:E; [|by intros ?%not_elem_of_nil]. intros ->%list_elem_of_singleton. by instants.
Qed.

Lemma plausible_span day (o : Occurrence) :
  day ∈ days → occ_local_date o = Some (zd_local_date day) →
  utc_offset (occ_nominal_start o) = utc_offset (zd_start day) → utc_offset (occ_nominal_end o) = utc_offset (zd_start day) →
  (zd_start day <= occ_nominal_start o)%Z → (occ_nominal_start o < occ_nominal_end o)%Z → (occ_nominal_end o <= zd_end day)%Z →
  local_day_is_plausible (source_of item o) (zd_local_date day) = true.
Proof using valid_calendar resolved steady H1 H2.
  intros Hday Hdate Hso Heo Hs Hlt He. pose proof (resolved_regular request days valid_calendar resolved steady day Hday) as Hreg.
  unfold local_day_is_plausible. simpl. rewrite Hdate, bool_decide_eq_true_2 by done.
  rewrite (regular_date day) by (done || lia). rewrite Z.eqb_refl.
  destruct (regular_sub day (occ_nominal_end o) Hreg Heo) as (u & -> & ->); [lia|]. by rewrite Z.eqb_refl.
Qed.

(** What an occurrence of a bucket satisfies. *)
Lemma bucket_occurrence_ok label key day target eligible i o :
  day ∈ days → (i < target)%N → (target <= u16_max)%N → 0 < eligible →
  o ∈ in_window (bucket_occurrence (wi_id item) request (minimum_spacing request item) label key day
        (ordinal_count target eligible i) (ordinal_position target eligible i) i) →
  occ_id o = uuid_new_v5 (wi_id item) (bucket_key label key i) ∧ occ_identity o = bucket_identity label key day i ∧
  occ_local_date o = Some (zd_local_date day) ∧ occ_ordinal o = i ∧
  local_day_is_plausible (source_of item o) (zd_local_date day) = true ∧
  calendar_source_matches request item (source_of item o) (zd_local_date day) target eligible i = true.
Proof using valid_calendar resolved steady H1 H2.
  intros Hday Hi Ht He Ho. pose proof (resolved_regular request days valid_calendar resolved steady day Hday) as Hreg.
  pose proof (bounds_agree day target eligible i (minimum_spacing request item) Hreg Hi Ht He) as Hbounds.
  apply in_window_inv in Ho as [-> Hw]. unfold bucket_occurrence in *.
  destruct (day_share day _ _ _) as [s e] eqn:Es.
  assert (ordinal_position target eligible i < ordinal_count target eligible i ∧ (Z.of_nat (ordinal_count target eligible i) <= 65535)%Z) as [Hpc Hc].
  { pose proof (ordinal_bounds target eligible i ltac:(lia) He) as Hb. cbv zeta in Hb.
    pose proof (day_ordinals_range target eligible (ordinal_day target eligible i) ltac:(lia) He (ordinal_day_lt target eligible i Hi He)) as (_ & Hn & _).
    unfold ordinal_position, ordinal_count, u16_max in *. lia. }
  destruct (day_share_ok day _ _ _ s e Hreg Hpc Hc Es) as (Hso & Heo & Hs & Hsl & Hel & Hle). simpl in *. instants.
  split_and!; [done|done|done|by destruct label| |].
  - apply plausible_span; simpl; done || lia.
  - unfold calendar_source_matches. rewrite (authoritative_day request days valid_calendar resolved steady day Hday), Hbounds. simpl.
    by rewrite !same_zoned_refl.
Qed.

(** The last steps of [move_source_is_valid]. *)
Lemma source_accepted recurrence proof o key :
  occ_id o = uuid_new_v5 (wi_id item) key → stable_ordinal (occ_identity o) = Some (occ_ordinal o) →
  validated_identity_name request item recurrence (source_of item o) proof = Some (key, occ_local_date o) →
  move_source_is_valid request item recurrence (occ_id o) (source_of item o) proof = true.
Proof using H1.
  intros Hid Hord Hname. unfold move_source_is_valid. rewrite Hname. simpl. rewrite Hid, uuid_v5_version, Hord, !N.eqb_refl.
  rewrite !bool_decide_eq_true_2 by done. done.
Qed.

Lemma stable_bucket label key day i : stable_ordinal (bucket_identity label key day i) = Some i.
Proof. by destruct label. Qed.

(** *** Daily *)

Lemma daily_accepted label target weekdays l o :
  (target <= u16_max)%N → (∀ day, day ∈ l → day ∈ days ∧ allows_date weekdays (zd_local_date day) = true) →
  o ∈ expand_calendar_buckets (wi_id item) (day_buckets l) target (minimum_spacing request item) request label →
  (∀ key day i, bucket_identity label key day i = CalendarDay (zd_local_date day) i) →
  ∃ date i, occ_identity o = CalendarDay date i ∧ stable_ordinal (occ_identity o) = Some (occ_ordinal o) ∧
    ∃ key, occ_id o = uuid_new_v5 (wi_id item) key ∧
    day_identity_name request item (source_of item o) label target weekdays date i = Some (key, occ_local_date o).
Proof using valid_calendar resolved steady H1 H2.
  intros Ht Hl (key & ds & i & day & Hb & Hi & Hd & Ho)%elem_of_expand_buckets Hident.
  apply list_elem_of_fmap in Hb as (day' & [= -> ->] & Hin). cbn [length] in *.
  assert (day = day') as ->.
  { unfold ordinal_day in Hd. simpl in Hd. rewrite N.mul_1_r, N.div_small in Hd by done. by injection Hd. }
  destruct (Hl day' Hin) as [Hday Hallows].
  destruct (bucket_occurrence_ok label _ day' target 1 i o Hday Hi Ht ltac:(lia) Ho) as (Hid & Hi' & Hdate & Hord & Hpl & Hm).
  exists (zd_local_date day'), i. rewrite Hi', stable_bucket, Hord, Hident. split_and!; [done|done|].
  eexists. split; [exact Hid|]. unfold day_identity_name. rewrite (proj2 (N.ltb_lt _ _) Hi), Hallows, Hpl, Hm, Hdate. done.
Qed.
End calendar.

(** *** Weekly and monthly buckets *)

Lemma insert_by_head {A} (leb : A → A → bool) x l : (∀ y, y ∈ l → leb x y = true) → insert_by leb x l = x :: l.
Proof. destruct l as [|y l]; [done|]. intros Hx. simpl. by rewrite (Hx y ltac:(left)). Qed.

Lemma sort_by_id {A} (leb : A → A → bool) l : StronglySorted (λ a b, leb a b = true) l → sort_by leb l = l.
Proof.
  induction 1 as [|x l _ IH Hx]; [done|]. change (sort_by leb (x :: l)) with (insert_by leb x (sort_by leb l)). rewrite IH.
  apply insert_by_head. intros y Hy. rewrite Forall_forall in Hx. by apply Hx.
Qed.

Section boundaries.
Context `{CivilLaws} `{!PlatformLaws}.
Context (request : PlanRequest) (days : list ZonedDayBoundary).

Lemma resolved_boundary_date date : zd_local_date (resolved_boundary date days request) = date.
Proof.
  unfold resolved_boundary. destruct (List.find _ _) as [day|] eqn:E; [|done]. by apply find_some in E as [_ ?%Z.eqb_eq].
Qed.

Lemma resolved_boundaries_inj (dates dates' : list Date) :
  (λ date, resolved_boundary date days request) <$> dates = (λ date, resolved_boundary date days request) <$> dates' → dates' = dates.
Proof.
  assert (Inj (=) (=) (λ date, resolved_boundary date days request)).
  { intros d d' Heq. by rewrite <- (resolved_boundary_date d), <- (resolved_boundary_date d'), Heq. }
  by intros ->%list_fmap_eq_inj.
Qed.

Lemma resolved_boundary_cases date :
  resolved_boundary date days request ∈ days ∨
  zd_start (resolved_boundary date days request) = zd_end (resolved_boundary date days request).
Proof.
  unfold resolved_boundary. destruct (List.find _ _) as [day|] eqn:E; [left|by right].
  apply find_some in E as [Hin _]. by apply list_elem_of_In.
Qed.

Lemma sort_resolved (dates : list Date) :
  StronglySorted Z.lt dates →
  sort_days ((λ date, resolved_boundary date days request) <$> dates) = (λ date, resolved_boundary date days request) <$> dates.
Proof.
  intros Hs. apply sort_by_id. induction Hs as [|d dates _ IH Hd]; simpl; constructor; [done|].
  apply Forall_fmap, Forall_forall. intros d' Hd'. unfold compose. rewrite !resolved_boundary_date. rewrite Forall_forall in Hd.
  specialize (Hd d' Hd'). apply Z.leb_le. lia.
Qed.

(** A day outside the horizon has no occurrence. *)
Lemma empty_day_share day position count spacing s e :
  zd_start day = zd_end day → day_share day position count spacing = (s, e) → (e <= s)%Z.
Proof.
  intros Heq. unfold day_share.
  assert (∀ num den, (part_of_day day num den : Z) = zd_end day) as Hpart.
  { intros num den. unfold part_of_day, duration_between. destruct (duration_checked_mul _ _) as [v|] eqn:E1; [|done]. simpl.
    destruct (duration_checked_div _ _) as [q|] eqn:E2; [|done]. simpl. destruct (odt_checked_add _ _) as [t|] eqn:E3; [|done]. simpl.
    apply mul_exact in E1 as ->. apply div_exact in E2 as [Hden ->]. apply checked_add_exact in E3 as [-> _].
    rewrite Heq, Z.sub_diag, Z.mul_0_l, Z.quot_0_l by done. lia. }
  intros [= <- <-]. rewrite Hpart. pose proof (spacing_end_le day (part_of_day day (i32_or_max position) (i32_or_max count)) spacing).
  destruct (odt_eqb _ _); [lia|]. rewrite unix_nanos_max. destruct (position + 1 =? count); rewrite ?Hpart; lia.
Qed.

Lemma occurrence_day item_id spacing label key date count position i o :
  o ∈ in_window (bucket_occurrence item_id request spacing label key (resolved_boundary date days request) count position i) →
  resolved_boundary date days request ∈ days.
Proof.
  intros [-> Hw]%in_window_inv. destruct (resolved_boundary_cases date) as [|Heq]; [done|]. exfalso.
  unfold bucket_occurrence in Hw. destruct (day_share _ _ _ _) as [s e] eqn:Es. apply empty_day_share in Es; [|done].
  simpl in Hw. instants. lia.
Qed.
End boundaries.

Section spread.
Context `{CivilLaws} `{!PlatformLaws}.
Context (request : PlanRequest) (item : WorkItem) (days : list ZonedDayBoundary).
Hypothesis valid_calendar : validate_zoned_calendar request = Ok tt.
Hypothesis resolved : resolved_days request = Ok days.
Hypothesis steady : steady_days request days.

(** An occurrence of a bucket whose days are the boundaries of given dates
    falls on the date its ordinal is allocated. *)
Lemma spread_occurrence label target buckets o :
  (target <= u16_max)%N →
  (∀ key ds, (key, ds) ∈ buckets → ∃ dates, StronglySorted Z.lt dates ∧
     ds = (λ date, resolved_boundary date days request) <$> dates) →
  o ∈ expand_calendar_buckets (wi_id item) buckets target (minimum_spacing request item) request label →
  ∃ key dates date day i, (key, (λ date, resolved_boundary date days request) <$> dates) ∈ buckets ∧
    (i < target)%N ∧ allocated_date dates target i = Some date ∧ zd_local_date day = date ∧
    occ_id o = uuid_new_v5 (wi_id item) (bucket_key label key i) ∧ occ_identity o = bucket_identity label key day i ∧
    occ_local_date o = Some date ∧ occ_ordinal o = i ∧
    local_day_is_plausible (source_of item o) date = true ∧
    calendar_source_matches request item (source_of item o) date target (length dates) i = true.
Proof using valid_calendar resolved steady H1 H2.
  intros Ht Hbuckets (key & ds & i & day & Hb & Hi & Hd & Ho)%elem_of_expand_buckets.
  destruct (Hbuckets key ds Hb) as (dates & Hsorted & ->). rewrite length_fmap in *.
  rewrite sort_resolved, list_lookup_fmap in Hd by done.
  destruct (dates !! N.to_nat (ordinal_day target (length dates) i)) as [date|] eqn:Edate; [|done]. simpl in Hd. injection Hd as <-.
  pose proof (occurrence_day _ _ _ _ _ _ _ _ _ _ _ Ho) as Hday.
  assert (0 < length dates) as He by (apply lookup_lt_Some in Edate; lia).
  destruct (bucket_occurrence_ok request item days valid_calendar resolved steady label key _ target (length dates) i o Hday Hi Ht He Ho)
    as (Hid & Hident & Hdate & Hord & Hpl & Hm). rewrite resolved_boundary_date in *.
  exists key, dates, date, (resolved_boundary date days request), i. split_and!; try done; [|apply resolved_boundary_date].
  unfold allocated_date. destruct (N.eqb_spec target 0); [lia|]. destruct (N.leb_spec target i); [lia|].
  rewrite bool_decide_eq_false_2 by (by intros ->). exact Edate.
Qed.
End spread.

Section weeks.
Context `{CivilLaws} `{!PlatformLaws}.

Lemma weekday_index_of d : weekday_index (from_time (date_weekday d)) = ((d + 3) mod 7)%Z.
Proof. rewrite <- date_weekday_exact. by destruct (date_weekday d). Qed.

Lemma weekday_index_inj a b : weekday_index a = weekday_index b → a = b.
Proof. by destruct a, b. Qed.

Lemma weekday_index_range w : (0 <= weekday_index w < 7)%Z.
Proof. destruct w; done. Qed.

(** The key of a week is the Julian day of its first day. *)
Lemma week_start d starts_on start :
  from_julian_day (week_key d starts_on) = Some start →
  week_key start starts_on = week_key d starts_on ∧ from_time (date_weekday start) = starts_on ∧
  (- 2 ^ 31 <= week_key d starts_on < 2 ^ 31)%Z.
Proof.
  intros [Hj Hr]%from_julian_exact. pose proof (julian_exact start d) as Hjd. rewrite Hj in Hjd. unfold week_key in Hjd.
  rewrite weekday_index_of in Hjd. pose proof (weekday_index_range starts_on) as Hs.
  assert (weekday_index (from_time (date_weekday start)) = weekday_index starts_on) as Hw.
  { rewrite weekday_index_of. rewrite Z.rem_mod_nonneg in Hjd by lia. lia. }
  apply weekday_index_inj in Hw. split_and!; [|done|lia|lia]. unfold week_key at 1. rewrite Hj, Hw.
  rewrite Z.rem_mod_nonneg by lia. lia.
Qed.

Lemma week_dates_ok start dates :
  week_dates start = Ok dates → dates = (λ k, start + k)%Z <$> seqZ 0 7 ∧ omap (date_checked_add_days start) (seqZ 0 7) = dates.
Proof.
  unfold week_dates. assert (∀ l acc, foldM (λ dates offset, let? date := ok_or (date_checked_add_days start offset) RecurrenceError.DateOutOfRange in Ok (dates ++ [date])) acc l = Ok dates →
    dates = acc ++ ((λ k, start + k)%Z <$> l) ∧ dates = acc ++ omap (date_checked_add_days start) l) as Hgen.
  { induction l as [|k l IH]; intros acc Hf; cbn [foldM] in Hf; [injection Hf as <-; simpl; by rewrite app_nil_r|].
    apply rbind_ok in Hf as (acc' & (d & Hd%ok_or_ok & [= <-])%rbind_ok & Hf). destruct (IH _ Hf) as [H3 H4].
    pose proof (add_days_exact _ _ _ Hd) as [-> _]. rewrite fmap_cons. simpl. rewrite Hd. split.
    - by rewrite H3, <- app_assoc.
    - by rewrite H4, <- app_assoc. }
  intros [Ha Hb]%Hgen. by split.
Qed.

Lemma week_dates_sorted start : StronglySorted Z.lt ((λ k, start + k)%Z <$> seqZ 0 7).
Proof. cbn. repeat constructor; lia. Qed.

Lemma allows_all date : allows_date ∅ date = true.
Proof. done. Qed.

(** Seven days in a row have the seven weekdays. *)
Lemma weekday_count_ok weekdays start :
  length (filter (λ date, allows_date weekdays date = true) ((λ k, start + k)%Z <$> seqZ 0 7)) = weekday_count weekdays.
Proof.
  unfold weekday_count, allows_date. case_bool_decide as Hempty.
  { rewrite filter_all by done. done. }
  assert (∀ k, k ∈ seqZ 0 7 ↔ (0 <= k < 0 + 7)%Z) as Hseq by (intros k; apply elem_of_seqZ).
  pose proof (NoDup_seqZ 0 7) as Hnd. revert Hseq Hnd. generalize (seqZ 0 7). intros ks Hseq Hnd.
  rewrite <- (length_fmap (λ date, from_time (date_weekday date))). unfold size, set_size. simpl. apply Permutation_length.
  apply NoDup_Permutation; [|apply NoDup_elements|].
  - apply (NoDup_fmap_2_strong (λ date, from_time (date_weekday date))).
    + intros a b Ha Hb Hab%(f_equal weekday_index). rewrite !weekday_index_of in Hab.
      apply list_elem_of_filter in Ha as [_ (ka & -> & Hka%Hseq)%list_elem_of_fmap].
      apply list_elem_of_filter in Hb as [_ (kb & -> & Hkb%Hseq)%list_elem_of_fmap]. lia.
    + apply NoDup_filter, NoDup_fmap_2; [intros a b; lia|done].
  - intros w. rewrite elem_of_elements, list_elem_of_fmap. split.
    + intros (date & -> & [Hw _]%list_elem_of_filter). simpl in Hw. by apply bool_decide_eq_true in Hw.
    + intros Hw. pose proof (weekday_index_range w). set (k := ((weekday_index w - (start + 3)) mod 7)%Z).
      exists (start + k)%Z.
      assert (from_time (date_weekday (start + k)%Z) = w) as Hk by (apply weekday_index_inj; rewrite weekday_index_of; subst k; lia).
      split; [done|]. apply list_elem_of_filter. split; [simpl; rewrite Hk; by apply bool_decide_eq_true|].
      apply list_elem_of_fmap. exists k. split; [done|]. apply Hseq. subst k. lia.
Qed.

Lemma week_groups_ok request days starts_on weekdays groups key ds :
  complete_week_groups request days starts_on weekdays = Ok groups → (key, ds) ∈ groups →
  ∃ start d, key = week_key d starts_on ∧ from_julian_day key = Some start ∧
    omap (date_checked_add_days start) (seqZ 0 7) = ((λ k, start + k)%Z <$> seqZ 0 7) ∧
    ds = (λ date, resolved_boundary date days request) <$>
           filter (λ date, allows_date weekdays date = true) ((λ k, start + k)%Z <$> seqZ 0 7).
Proof.
  unfold complete_week_groups. set (keys := list_to_set _). intros Hg. revert key ds. revert Hg.
  assert (∀ key, key ∈ sort_by Z.leb (elements (keys : gset Z)) → ∃ d, key = week_key d starts_on) as Hkeys.
  { intros key. rewrite elem_of_sort_by, elem_of_elements. subst keys. rewrite elem_of_list_to_set.
    intros (day & -> & _)%list_elem_of_fmap. by eexists. }
  apply (foldM_inv _ (λ p groups, ∀ key ds, (key, ds) ∈ groups → ∃ start d, key = week_key d starts_on ∧ from_julian_day key = Some start ∧
    omap (date_checked_add_days start) (seqZ 0 7) = ((λ k, start + k)%Z <$> seqZ 0 7) ∧
    ds = (λ date, resolved_boundary date days request) <$>
           filter (λ date, allows_date weekdays date = true) ((λ k, start + k)%Z <$> seqZ 0 7))); [by intros key ds ?%not_elem_of_nil|].
  intros p key q groups0 groups1 Heq IH (start & Hs%ok_or_ok & (dates & Hd & [= <-])%rbind_ok)%rbind_ok key' ds [Hin|Hin]%elem_of_app; [by apply IH|].
  apply list_elem_of_singleton in Hin as [= -> ->]. destruct (Hkeys key) as [d Hkd]; [rewrite Heq; apply elem_of_app; right; left|].
  apply week_dates_ok in Hd as [-> Homap]. exists start, d. done.
Qed.
End weeks.

Section months.
Context `{CivilLaws}.

(** The dates of a month, as the expansion and the proof compute them. *)
Lemma month_dates_ok year month dates :
  month_dates year month = Ok dates →
  omap (date_of_civil year month) (N.of_nat <$> seq 1 (N.to_nat (month_length month year))) = dates ∧
  length dates = N.to_nat (month_length month year) ∧ StronglySorted Z.lt dates ∧
  ∀ date, date ∈ dates → date_year date = year ∧ date_month date = month.
Proof.
  unfold month_dates. intros Hf.
  assert (∀ k len acc, foldM (λ dates day, let? date := ok_or (date_of_civil year month day) RecurrenceError.DateOutOfRange in Ok (dates ++ [date])) acc
    (N.of_nat <$> seq k len) = Ok dates → ∃ tail, dates = acc ++ tail ∧ omap (date_of_civil year month) (N.of_nat <$> seq k len) = tail ∧
    length tail = len ∧ StronglySorted Z.lt tail ∧ (∀ date, date ∈ tail → date_year date = year ∧ date_month date = month) ∧
    ∀ t, date_of_civil year month (N.of_nat k) = Some t → ∀ date, date ∈ tail → (t <= date)%Z) as Hgen.
  { intros k len. revert k. induction len as [|len IH]; intros k acc Hacc; simpl in Hacc.
    - injection Hacc as <-. exists []. rewrite app_nil_r. split_and!; try done; [constructor|by intros d ?%not_elem_of_nil|by intros t _ d ?%not_elem_of_nil].
    - apply rbind_ok in Hacc as (acc' & (d & Hd%ok_or_ok & [= <-])%rbind_ok & Hacc).
      destruct (IH (S k) _ Hacc) as (tail & -> & Homap & Hlen & Hsort & Hcivil & Hmin).
      assert (∀ date, date ∈ tail → (d < date)%Z) as Hlt.
      { destruct len as [|len]; [destruct tail; [by intros date ?%not_elem_of_nil|done]|].
        simpl in Hacc. apply rbind_ok in Hacc as (acc'' & (d' & Hd'%ok_or_ok & _)%rbind_ok & _).
        replace (N.of_nat (S k)) with (N.of_nat k + 1)%N in * by lia. pose proof (date_of_civil_next _ _ _ _ _ Hd Hd') as ->.
        intros date Hdate. specialize (Hmin _ Hd' date Hdate). lia. }
      exists (d :: tail). rewrite <- app_assoc. cbn [seq fmap list_fmap omap list_omap]. rewrite Hd. split_and!; [done|by f_equal|simpl; by rewrite Hlen| | |].
      + constructor; [done|]. by apply Forall_forall.
      + intros date [->|Hdate]%elem_of_cons; [|by apply Hcivil]. unfold date_year, date_month. by rewrite (civil_of_exact _ _ _ _ Hd).
      + intros t [= <-] date [->|Hdate]%elem_of_cons; [lia|]. specialize (Hlt date Hdate). lia. }
  destruct (Hgen _ _ _ Hf) as (tail & -> & ? & ? & ? & ? & _). by split_and!.
Qed.

Lemma month_groups_ok `{!Platform} request days weekdays groups key ds :
  month_buckets request days weekdays = Ok groups → (key, ds) ∈ groups →
  ∃ year month dates, key = month_text year month ∧ valid_month month = true ∧ month_dates year month = Ok dates ∧
    ds = (λ date, resolved_boundary date days request) <$> filter (λ date, allows_date weekdays date = true) dates.
Proof.
  unfold month_buckets. intros Hg. revert key ds. revert Hg.
  apply (foldM_inv _ (λ p groups, ∀ key ds, (key, ds) ∈ groups → ∃ year month dates, key = month_text year month ∧ valid_month month = true ∧
    month_dates year month = Ok dates ∧
    ds = (λ date, resolved_boundary date days request) <$> filter (λ date, allows_date weekdays date = true) dates)); [by intros key ds ?%not_elem_of_nil|].
  intros p [year month] q groups0 groups1 _ IH. destruct (negb _) eqn:Em; [done|].
  intros (dates & Hd & [= <-])%rbind_ok key ds [Hin|Hin]%elem_of_app; [by apply IH|].
  apply list_elem_of_singleton in Hin as [= -> ->]. exists year, month, dates. split_and!; [done|by apply negb_false_iff|done|done].
Qed.
End months.

Section accepted.
Context `{CivilLaws} `{!PlatformLaws}.
Context (request : PlanRequest) (item : WorkItem) (days : list ZonedDayBoundary).
Hypothesis valid_calendar : validate_zoned_calendar request = Ok tt.
Hypothesis resolved : resolved_days request = Ok days.
Hypothesis steady : steady_days request days.

(** What [move_source_is_valid] asks of an occurrence. *)
Definition provable (recurrence : Recurrence) (proof : option CustomMoveProof) (o : Occurrence) : Prop :=
  stable_ordinal (occ_identity o) = Some (occ_ordinal o) ∧
  ∃ key, occ_id o = uuid_new_v5 (wi_id item) key ∧
    validated_identity_name request item recurrence (source_of item o) proof = Some (key, occ_local_date o).

Lemma week_accepted label target weekdays l o :
  (target <= u16_max)%N → expand_weeks request item days target weekdays label = Ok l → o ∈ l →
  (∀ key day i, bucket_identity label key day i = CalendarWeek (default 0%Z (parse_i32 key)) i) →
  ∃ key i, occ_identity o = CalendarWeek key i ∧ occ_ordinal o = i ∧
    ∃ name, occ_id o = uuid_new_v5 (wi_id item) name ∧
    week_identity_name request item (source_of item o) label target weekdays key i = Some (name, occ_local_date o).
Proof using valid_calendar resolved steady H1 H2.
  intros Ht (groups & Hg & [= <-])%rbind_ok Ho Hident.
  assert (∀ text ds, (text, ds) ∈ week_buckets groups → ∃ key start d, text = print_Z key ∧ key = week_key d (first_week_day request) ∧
    from_julian_day key = Some start ∧ omap (date_checked_add_days start) (seqZ 0 7) = ((λ k, start + k)%Z <$> seqZ 0 7) ∧
    ds = (λ date, resolved_boundary date days request) <$>
           filter (λ date, allows_date weekdays date = true) ((λ k, start + k)%Z <$> seqZ 0 7)) as Hbuckets.
  { intros text ds ([key ds'] & [= -> ->] & Hin)%list_elem_of_fmap.
    destruct (week_groups_ok _ _ _ _ _ _ _ Hg Hin) as (start & d & ? & ? & ? & ?). by exists key, start, d. }
  destruct (spread_occurrence request item days valid_calendar resolved steady label target (week_buckets groups) o Ht) as
    (text & dates & date & day & i & Hb & Hi & Halloc & Hday & Hid & Hi' & Hdate & Hord & Hpl & Hm); [|done|].
  - intros text ds Hin. destruct (Hbuckets text ds Hin) as (_ & start & _ & _ & _ & _ & _ & ->). eexists. split; [|done].
    apply StronglySorted_filter, week_dates_sorted.
  - destruct (Hbuckets _ _ Hb) as (key & start & d & -> & Hkey & Hj & Homap & Hds).
    assert (dates = filter (λ date, allows_date weekdays date = true) ((λ k, start + k)%Z <$> seqZ 0 7)) as ->.
    { symmetry. by apply (resolved_boundaries_inj request days). }
    destruct (week_start d (first_week_day request) start) as (Hwk & Hws & Hrange); [by rewrite <- Hkey|]. rewrite <- Hkey in *.
    rewrite Hident in Hi'. unfold parse_i32 in Hi'. rewrite parse_signed_print in Hi' by lia. simpl in Hi'.
    exists key, i. split_and!; [done|done|]. eexists. split; [exact Hid|]. unfold week_identity_name, allocated_week_date.
    rewrite Hj. cbn [mbind option_bind]. rewrite Hwk, Z.eqb_refl, Hws, bool_decide_eq_true_2 by done. cbn [negb orb].
    rewrite Homap, Halloc. cbn [mbind option_bind].
    rewrite Hpl, <- (weekday_count_ok weekdays start), Hm, Hdate. done.
Qed.

Lemma month_accepted label target weekdays l o :
  (target <= u16_max)%N → expand_monthly request (wi_id item) days target weekdays (minimum_spacing request item) label = Ok l → o ∈ l →
  (∀ key day i, bucket_identity label key day i =
     CalendarMonth (date_year (zd_local_date day)) (date_month (zd_local_date day)) i) →
  ∃ year month i dates, occ_identity o = CalendarMonth year month i ∧ occ_ordinal o = i ∧ month_dates year month = Ok dates ∧
    ∃ name, occ_id o = uuid_new_v5 (wi_id item) name ∧
    month_identity_name request item (source_of item o) label target weekdays
      (length (filter (λ date, allows_date weekdays date = true) dates)) year month i = Some (name, occ_local_date o).
Proof using valid_calendar resolved steady H1 H2.
  intros Ht (groups & Hg & [= <-])%rbind_ok Ho Hident.
  destruct (spread_occurrence request item days valid_calendar resolved steady label target groups o Ht) as
    (text & dates & date & day & i & Hb & Hi & Halloc & Hday & Hid & Hi' & Hdate & Hord & Hpl & Hm); [|done|].
  - intros text ds Hin. destruct (month_groups_ok _ _ _ _ _ _ Hg Hin) as (year & month & dates & -> & _ & Hd & ->).
    apply month_dates_ok in Hd as (_ & _ & Hsort & _). eexists. split; [|done]. by apply StronglySorted_filter.
  - destruct (month_groups_ok _ _ _ _ _ _ Hg Hb) as (year & month & all & -> & Hvm & Hmd & Hds).
    assert (dates = filter (λ date, allows_date weekdays date = true) all) as ->.
    { symmetry. by apply (resolved_boundaries_inj request days). }
    pose proof (month_dates_ok _ _ _ Hmd) as (Homap & _ & _ & Hcivil).
    assert (date_year date = year ∧ date_month date = month) as [Hy Hmo].
    { apply Hcivil. unfold allocated_date in Halloc. destruct (_ || bool_decide _); [done|]. apply list_elem_of_lookup_2 in Halloc.
      apply list_elem_of_filter in Halloc. tauto. }
    rewrite Hident, Hday, Hy, Hmo in Hi'. exists year, month, i, all. split_and!; [done|done|done|]. eexists. split; [exact Hid|].
    unfold month_identity_name, allocated_month_date, eligible_month_dates. rewrite Hvm, Homap, Halloc. simpl. rewrite Hpl, Hm, Hdate. done.
Qed.

(** *** Rolling series *)

Lemma roll_elem fuel instant he occurrence index collected l o :
  roll fuel instant he occurrence index collected = Ok l → o ∈ l →
  o ∈ collected ∨ ∃ i start u next, instant i = Ok start ∧ try_u32 i = Some u ∧ next_index i = Ok next ∧ occurrence i start = Ok o.
Proof.
  revert index collected. induction fuel as [|fuel IH]; intros index collected Hr Ho; [injection Hr as <-; by left|].
  cbn [roll] in Hr. apply rbind_ok in Hr as (start & Hs & Hr). destruct (odt_leb he start); [injection Hr as <-; by left|].
  apply rbind_ok in Hr as (u & Hu%ok_or_ok & (made & Hm & (next & Hn & Hr)%rbind_ok)%rbind_ok).
  destruct (IH _ _ Hr Ho) as [Hc|]; [|by right]. apply elem_of_app in Hc as [|Hc%list_elem_of_singleton]; [by left|right].
  subst. by exists index, start, u, next.
Qed.

Lemma rolling_source_ok o anchor :
  occ_local_date o = None → rolling_source_matches (source_of item o) anchor anchor (occ_nominal_start o) (occ_nominal_end o) = true.
Proof. intros Hd. unfold rolling_source_matches. simpl. by rewrite !same_zoned_refl, Hd. Qed.

Lemma minutes_accepted anchor interval spacing label l o :
  expand_rolling_minutes request item anchor interval spacing label = Ok l → o ∈ l →
  ∃ index, occ_identity o = RollingMinutes index anchor ∧ stable_ordinal (occ_identity o) = Some (occ_ordinal o) ∧
    ∃ key, occ_id o = uuid_new_v5 (wi_id item) key ∧
    validated_rolling_minute_name (source_of item o) anchor anchor interval spacing index label = Some (key, occ_local_date o).
Proof.
  unfold expand_rolling_minutes. intros Hl Ho. destruct (_ =? 0)%N; [injection Hl as <-; by apply not_elem_of_nil in Ho|].
  apply rbind_ok in Hl as (j & _ & Hr). destruct (roll_elem _ _ _ _ _ _ _ _ Hr Ho) as [?%not_elem_of_nil|(i & start & u & next & Hi & Hu & _ & Hm)]; [done|].
  unfold rolling_occurrence in Hm. apply rbind_ok in Hm as (natural & Hn & (e & He%ok_or_ok & [= <-])%rbind_ok).
  exists i. split_and!; [done|simpl; by rewrite Hu|]. eexists. split; [done|]. unfold rolling_instant in Hi.
  apply rbind_ok in Hi as (i' & Hi'%ok_or_ok & (d & Hd%ok_or_ok & Hs%ok_or_ok)%rbind_ok). unfold add_duration in Hn. apply ok_or_ok in Hn.
  unfold validated_rolling_minute_name. rewrite Hi'. simpl. rewrite Hd. simpl. rewrite Hs. simpl. rewrite Hn. simpl. rewrite He. simpl.
  assert (i' = i) as -> by (unfold try_i32 in Hi'; destruct (_ && _); congruence).
  pose proof (rolling_source_ok (make_occurrence (wi_id item) (minutes_key label anchor interval i) (RollingMinutes i anchor) (start, e) (clip request start e) None) anchor eq_refl) as Hok.
  simpl in Hok. unfold source_of in *. simpl in *. by rewrite Hok.
Qed.

Lemma frequency_accepted anchor target period spacing l o :
  match period with
  | Day => expand_rolling_frequency request item anchor target DAY_MINUTES spacing (bytes_of "frequency-rolling-day") = Ok l
  | Week => expand_rolling_frequency request item anchor target WEEK_MINUTES spacing (bytes_of "frequency-rolling-week") = Ok l
  | Month => False
  end → o ∈ l →
  ∃ index, occ_identity o = RollingMinutes index anchor ∧ stable_ordinal (occ_identity o) = Some (occ_ordinal o) ∧
    ∃ key, occ_id o = uuid_new_v5 (wi_id item) key ∧
    validated_rolling_frequency_name (source_of item o) anchor anchor target period spacing index = Some (key, occ_local_date o).
Proof.
  intros Hl Ho.
  assert (∃ minutes label, (match period with
    | Day => Some (DAY_MINUTES, bytes_of "frequency-rolling-day") | Week => Some (WEEK_MINUTES, bytes_of "frequency-rolling-week")
    | Month => None end) = Some (minutes, label) ∧ expand_rolling_frequency request item anchor target minutes spacing label = Ok l)
    as (minutes & label & Hlabel & Hexp) by (destruct period; [by eexists _, _|by eexists _, _|done]).
  clear Hl. unfold expand_rolling_frequency in Hexp. destruct (_ || _); [injection Hexp as <-; by apply not_elem_of_nil in Ho|].
  apply rbind_ok in Hexp as (i1 & _ & (i2 & _ & (j & _ & Hr)%rbind_ok)%rbind_ok).
  destruct (roll_elem _ _ _ _ _ _ _ _ Hr Ho) as [?%not_elem_of_nil|(i & start & u & next & Hi & Hu & Hnext & Hm)]; [done|].
  unfold rolling_occurrence in Hm. apply rbind_ok in Hm as (natural & Hn & (e & He%ok_or_ok & [= <-])%rbind_ok).
  rewrite Hnext in Hn. cbn [rbind] in Hn. unfold next_index in Hnext. apply ok_or_ok in Hnext.
  exists i. split_and!; [done|simpl; by rewrite Hu|]. eexists. split; [done|].
  unfold validated_rolling_frequency_name. rewrite Hlabel. cbn [mbind option_bind]. rewrite Hi. cbn [result_ok mbind option_bind]. rewrite Hnext.
  cbn [mbind option_bind]. rewrite Hn. cbn [result_ok mbind option_bind]. rewrite He. cbn [mbind option_bind].
  pose proof (rolling_source_ok (make_occurrence (wi_id item) (frequency_key label anchor target minutes i) (RollingMinutes i anchor) (start, e) (clip request start e) None) anchor eq_refl) as Hok.
  simpl in Hok. unfold source_of in *. simpl in *. by rewrite Hok.
Qed.

Lemma completion_accepted interval l o :
  expand_after_completion request item interval (minimum_spacing request item) = Ok l → o ∈ l →
  occ_identity o = IdentityAfterCompletion (completion_anchor request item) ∧ occ_ordinal o = 0%N ∧
    ∃ key, occ_id o = uuid_new_v5 (wi_id item) key ∧
    completion_identity_name request item (source_of item o) interval (completion_anchor request item) = Some (key, occ_local_date o).
Proof.
  unfold expand_after_completion, add_duration. intros (due & Hdue%ok_or_ok & (e & He%ok_or_ok & Hl)%rbind_ok)%rbind_ok Ho.
  destruct (_ || _); injection Hl as <-; [by apply not_elem_of_nil in Ho|]. apply list_elem_of_singleton in Ho as ->.
  split_and!; [done|done|]. eexists. split; [done|]. unfold completion_identity_name. rewrite Hdue. cbn [mbind option_bind].
  rewrite He. cbn [mbind option_bind].
  pose proof (rolling_source_ok (make_occurrence (wi_id item) (completion_key (completion_anchor request item) interval)
    (IdentityAfterCompletion (completion_anchor request item)) (due, e) (clip request due e) None) (completion_anchor request item) eq_refl) as Hok.
  simpl in Hok. unfold source_of in *. simpl in *. by rewrite Hok.
Qed.

(** *** Rolling months *)

Lemma part_of_cycle_zero cycle_start duration target :
  (0 < target)%N → representable cycle_start → part_of_cycle cycle_start duration 0 target = Some cycle_start.
Proof.
  intros Ht [t Ht0]. unfold part_of_cycle.
  destruct (mul_below duration (Z.of_N 0)) as [v Hv]; [unfold nanos_per_second; lia|]. rewrite Hv. cbn [mbind option_bind].
  apply mul_exact in Hv as ->. rewrite Z.mul_0_r.
  destruct (div_below 0 (Z.of_N target)) as [v Hv]; [lia|unfold nanos_per_second; lia|]. rewrite Hv. cbn [mbind option_bind].
  apply div_exact in Hv as [Hne ->]. rewrite Z.quot_0_l, Ht0 by done. f_equal.
  apply checked_add_exact in Ht0 as [Hn Ho]. apply odt_ext; [by rewrite Hn, Z.add_0_r|done].
Qed.

(** The boundaries of a cycle of months on the calendar a request implies. *)
Record month_cycle (anchor : OffsetDateTime) (cycle : Z) (cs ce : OffsetDateTime) : Prop := {
  mc_cycle : (0 <= cycle)%Z ∧ i64_add cycle 1 = Some (cycle + 1)%Z;
  mc_start : ∃ date, add_months (odt_date anchor) cycle = Ok date ∧ cs = midnight_at date (utc_offset (horizon_start request));
  mc_end : ∃ date, add_months (odt_date anchor) (cycle + 1) = Ok date ∧ ce = midnight_at date (utc_offset (horizon_start request))
}.

(** The spans of its occurrences: the first starts with the cycle, the last ends
    with it, unless the minimum spacing is longer. *)
Definition made_in (anchor : OffsetDateTime) (target : N) (spacing : Minutes) (o : Occurrence) : Prop :=
  ∃ cycle cs ce index start natural_end end_, month_cycle anchor cycle cs ce ∧ (index < target)%N ∧
    (if (index =? 0)%N then Some cs else part_of_cycle cs (duration_between ce cs) index target) = Some start ∧
    (if (index + 1 =? target)%N then Some ce else part_of_cycle cs (duration_between ce cs) (index + 1) target) = Some natural_end ∧
    occurrence_end_with_spacing start natural_end spacing = Some end_ ∧
    o = make_occurrence (wi_id item) (month_cycle_key anchor target cycle index) (RollingMonth cycle index anchor)
          (start, end_) (clip request start end_) None.

Lemma cycle_made anchor target spacing cycle cs ce collected l o :
  month_cycle anchor cycle cs ce → cycle_occurrences request item anchor target spacing cycle cs ce collected = Ok l →
  (∀ o, o ∈ collected → made_in anchor target spacing o) → o ∈ l → made_in anchor target spacing o.
Proof.
  intros Hcycle Hl Hc. revert o. refine (foldM_inv _ (λ _ acc, ∀ o, o ∈ acc → made_in anchor target spacing o) _ _ _ Hc _ Hl).
  intros p index q acc acc' Hsplit IH (start & Hs & (natural & Hn & (e & He%ok_or_ok & Hadd)%rbind_ok)%rbind_ok)%rbind_ok o.
  destruct (_ && _); [|injection Hadd as <-; apply IH]. injection Hadd as <-.
  intros [?| ->%list_elem_of_singleton]%elem_of_app; [by apply IH|]. exists cycle, cs, ce, index, start, natural, e.
  split_and!; [done| | | |done|done].
  - assert (index ∈ N.of_nat <$> seq 0 (N.to_nat target)) as (k & -> & Hk%elem_of_seq)%list_elem_of_fmap by (rewrite Hsplit; set_solver).
    lia.
  - destruct (index =? 0)%N; [by injection Hs as <-|by apply ok_or_ok in Hs].
  - destruct (index + 1 =? target)%N; [by injection Hn as <-|by apply ok_or_ok in Hn].
Qed.

Lemma implied_boundary date instant :
  calendar_days request = [] → boundary_instant date days (utc_offset (horizon_start request)) = Ok instant →
  instant = midnight_at date (utc_offset (horizon_start request)).
Proof using resolved.
  intros Hcal. unfold resolved_days in resolved. rewrite bool_decide_eq_true_2 in resolved by done. simpl in resolved.
  assert (∀ day, day ∈ days → ∃ next, date_next_day (zd_local_date day) = Some next ∧
    zd_start day = midnight_at (zd_local_date day) (utc_offset (horizon_start request)) ∧
    zd_end day = midnight_at next (utc_offset (horizon_start request))) as Hdays.
  { intros day Hday. destruct (collected_days _ _ _ _ _ _ resolved day Hday) as [?%not_elem_of_nil|]; done. }
  unfold boundary_instant. destruct (List.find _ days) as [day|] eqn:E1.
  { apply find_some in E1 as [Hday%list_elem_of_In Hdate%Z.eqb_eq]. destruct (Hdays day Hday) as (_ & _ & -> & _). by intros [= <-]; subst. }
  destruct (List.find (λ day, bool_decide (date_next_day (zd_local_date day) = Some date)) days) as [day|] eqn:E2; [|unfold midnight; by intros [= <-]].
  apply find_some in E2 as [Hday%list_elem_of_In Hdate%bool_decide_eq_true]. destruct (Hdays day Hday) as (next & Hn & _ & ->).
  intros [= <-]. congruence.
Qed.

Lemma months_made fuel anchor target spacing cycle collected l o :
  calendar_days request = [] → (0 <= cycle)%Z → roll_months fuel request item anchor target spacing days cycle collected = Ok l →
  (∀ o, o ∈ collected → made_in anchor target spacing o) → o ∈ l → made_in anchor target spacing o.
Proof using valid_calendar resolved steady H1 H2.
  intros Hcal. revert cycle collected. induction fuel as [|fuel IH]; intros cycle collected Hc Hr Hcoll; [injection Hr as <-; apply Hcoll|].
  cbn [roll_months] in Hr.
  apply rbind_ok in Hr as (sd & Hsd & (nc & Hnc & (ed & Hed & (cs & Hcs & (ce & Hce & Hr)%rbind_ok)%rbind_ok)%rbind_ok)%rbind_ok).
  pose proof (next_index_ok _ _ Hnc) as ->. unfold next_index in Hnc. apply ok_or_ok in Hnc.
  apply implied_boundary in Hcs, Hce; [|done..].
  destruct (odt_leb _ cs); [injection Hr as <-; apply Hcoll|]. apply rbind_ok in Hr as (collected' & Hl & Hr).
  apply (IH (cycle + 1)%Z collected'); [lia|done|]. intros x. destruct (odt_ltb _ ce); [|injection Hl as <-; apply Hcoll].
  apply (cycle_made _ _ _ cycle cs ce collected); [|done..]. constructor; [done|by exists sd|by exists ed].
Qed.

(** The loop of a series anchored in the calendar meets few cycles. *)
Lemma cycle_in_i32 date cycle d :
  (date_min <= date <= date_max)%Z → add_months date cycle = Ok d → (cycle <= 2 ^ 31 - 1)%Z.
Proof.
  intros Hd Hm%add_months_range. pose proof (date_of_range _ _ _ _ (date_of_civil_of _ Hd)) as (Hy & Hmo & _).
  unfold month_index, date_year, date_month in *. lia.
Qed.

(** The midnights of the calendar's dates, at the offset of the horizon. *)
Definition representable_midnights : Prop :=
  ∀ date, (date_min <= date <= date_max)%Z → representable (midnight_at date (utc_offset (horizon_start request))).

Lemma rolling_month_accepted rule_anchor target l o :
  calendar_days request = [] → representable_midnights →
  (date_min <= odt_date (effective_rolling_anchor request item rule_anchor) <= date_max)%Z →
  expand_rolling_months request item (effective_rolling_anchor request item rule_anchor) target (minimum_spacing request item) days = Ok l →
  o ∈ l →
  ∃ cycle index, occ_identity o = RollingMonth cycle index (effective_rolling_anchor request item rule_anchor) ∧
    stable_ordinal (occ_identity o) = Some (occ_ordinal o) ∧ ∃ key, occ_id o = uuid_new_v5 (wi_id item) key ∧
    rolling_month_identity_name request item (source_of item o) target rule_anchor cycle index
      (effective_rolling_anchor request item rule_anchor) = Some (key, occ_local_date o).
Proof using valid_calendar resolved steady H1 H2.
  set (anchor := effective_rolling_anchor request item rule_anchor). intros Hcal Hmid Hanchor Hl Ho.
  apply months_made with (o := o) in Hl as (cycle & cs & ce & index & start & natural & e & [[Hc Hadd] (sd & Hsd & Hcs) (ed & Hed & Hce)] &
    Hi & Hs & Hn & He & ->); [|done|lia|by intros ? ?%not_elem_of_nil|done].
  exists cycle, index. split_and!; [done|done|]. eexists. split; [done|].
  assert (part_of_cycle cs (duration_between ce cs) index target = Some start) as Hpart.
  { destruct (N.eqb_spec index 0) as [->|]; [|done]. injection Hs as <-. apply part_of_cycle_zero; [lia|]. rewrite Hcs. apply Hmid.
    unfold add_months in Hsd. apply rbind_ok in Hsd as (v & _ & (y & _ & Hd%ok_or_ok)%rbind_ok). apply date_of_range in Hd. lia. }
  unfold rolling_month_identity_name. fold anchor.
  rewrite (proj2 (Z.leb_le 0 cycle)), (proj2 (Z.leb_le cycle _)), (proj2 (N.ltb_lt _ _)) by (done || by eapply cycle_in_i32).
  rewrite same_zoned_refl. cbn [andb].
  assert (rolling_month_source_matches request (source_of item (make_occurrence (wi_id item) (month_cycle_key anchor target cycle index)
    (RollingMonth cycle index anchor) (start, e) (clip request start e) None)) anchor cycle index target (minimum_spacing request item) = true) as ->.
  { unfold rolling_month_source_matches, authoritative_boundary_instant. rewrite Hadd. cbn [mbind option_bind]. rewrite Hsd, Hed.
    cbn [mbind option_bind]. fold (calendar_days request). rewrite bool_decide_eq_true_2 by done. cbn [negb mbind option_bind].
    rewrite <- Hcs, <- Hce. cbv zeta. rewrite Hpart. cbn [mbind option_bind]. rewrite Hn. cbn [mbind option_bind]. rewrite He.
    cbn [mbind option_bind]. simpl. by rewrite !same_zoned_refl. }
  done.
Qed.

(** *** Custom rules *)

Lemma numbered_lookup dates start sequence date :
  (sequence, date) ∈ numbered start dates → dates !! N.to_nat (sequence - start) = Some date ∧ (start <= sequence)%N.
Proof.
  revert start. induction dates as [|d dates IH]; intros start Hin; simpl in Hin; [by apply not_elem_of_nil in Hin|].
  apply elem_of_cons in Hin as [[= -> ->]|Hin]; [by rewrite N.sub_diag|]. destruct (IH _ Hin) as [Hl Hle].
  replace (N.to_nat (sequence - start)) with (S (N.to_nat (sequence - (start + 1)))) by lia. split; [done|lia].
Qed.

Lemma numbered_snd start dates : (numbered start dates).*2 = dates.
Proof. revert start. induction dates as [|d dates IH]; intros start; simpl; [done|]. by rewrite IH. Qed.

Lemma selected_in_range r anchor final ws date : date ∈ selected_dates r anchor final ws → (date <= final)%Z.
Proof. unfold selected_dates. intros [_ Hd%elem_of_seqZ]%list_elem_of_filter. lia. Qed.

(** A dated sequence number stands at its place in the list of all dates. *)
Lemma dated_in_all r anchor through ws dates all sequence date :
  (date_min <= anchor)%Z → valid_termination (cr_termination r) →
  occurrence_dates_through r anchor through ws = Ok dates → all_occurrence_dates r anchor ws = Ok all → (sequence, date) ∈ dates →
  all !! N.to_nat sequence = Some date.
Proof using H1.
  intros Hmin Hterm Hd Ha Hin. unfold all_occurrence_dates in Ha. apply rbind_ok in Ha as (full & Hfull & [= <-]).
  rewrite occurrence_dates_eq in Hd, Hfull by done. unfold expected_dates in Hd, Hfull.
  assert (∃ base, dates = up_to through base ∧ full = up_to date_max base ∧ ∀ d, d ∈ base → (d <= date_max)%Z) as (base & -> & -> & Hle).
  { destruct (cr_termination r) as [count|until]; simpl in *.
    - destruct (decide _); [done|]. destruct (decide _).
      + injection Hd as <-. injection Hfull as <-. eexists. split_and!; [done|done|]. intros d Hd'. apply elem_of_take in Hd' as (k & Hk & _).
        apply list_elem_of_lookup_2, selected_in_range in Hk. lia.
      + by destruct (decide _) in Hd.
    - destruct Hterm as (y & m & d & Hy & Hu). pose proof (date_of_range _ _ _ _ Hu) as (_ & _ & _ & Hmax).
      destruct (decide _); [done|]. destruct (decide _); [done|]. destruct (decide _); [done|]. destruct (decide _); [done|].
      injection Hd as <-. injection Hfull as <-. eexists. split_and!; [done|done|]. intros d' Hd'%selected_in_range. lia. }
  unfold up_to in *. apply list_elem_of_filter in Hin as [_ Hin]. apply numbered_lookup in Hin as [Hl _]. rewrite N.sub_0_r in Hl.
  rewrite filter_all, numbered_snd; [done|]. intros [k d] Hk. simpl. apply Hle.
  rewrite <- (numbered_snd 0 base). by apply (list_elem_of_fmap_2 snd) in Hk.
Qed.

Lemma custom_accepted rrule l o proof :
  calendar_days request ≠ [] → (date_min <= odt_date (wi_created_at item))%Z →
  existsb is_move (item_exceptions request (wi_id item)) = true →
  custom_move_proof request item (Custom rrule) = Ok proof →
  expand_custom request item (bytes_of rrule) days = Ok l → o ∈ l →
  provable (Custom rrule) proof o.
Proof using valid_calendar resolved steady H1 H2.
  intros Hcal Hmin Hmove Hproof (rule & Hrule & Hl)%rbind_ok Ho. unfold custom_move_proof in Hproof. rewrite Hmove in Hproof.
  rewrite Hrule in Hproof. cbn [rbind] in Hproof. apply rbind_ok in Hproof as (all & Hall & [= <-]).
  apply map_err_ok in Hall, Hrule. pose proof (wr_termination _ (parse_well_formed _ _ Hrule)) as Hterm.
  destruct (last days) as [final|]; [|injection Hl as <-; by apply not_elem_of_nil in Ho].
  apply rbind_ok in Hl as (dates & Hdates & [= <-]). apply map_err_ok in Hdates.
  apply list_elem_of_bind in Ho as ([sequence date] & Ho & Hin). unfold custom_occurrence in Ho.
  destruct (find_day days date) as [day|] eqn:Eday; [|by apply not_elem_of_nil in Ho].
  destruct (odt_leb _ _) eqn:Elt; [by apply not_elem_of_nil in Ho|]. apply in_window_inv in Ho as [-> _]. instants.
  unfold find_day in Eday. apply find_some in Eday as [Hday%list_elem_of_In Hdate%Z.eqb_eq].
  pose proof (resolved_regular request days valid_calendar resolved steady day Hday) as Hreg.
  split; [done|]. eexists. split; [done|]. simpl.
  unfold custom_identity_name. cbn [mbind option_bind cmp_rule_id cmp_dates]. rewrite N.eqb_refl.
  rewrite (dated_in_all rule _ _ _ _ _ _ _ Hmin Hterm Hdates Hall Hin), bool_decide_eq_true_2 by done.
  assert (local_day_is_plausible (source_of item (make_occurrence (wi_id item) (custom_identity_key (rule_id rule) sequence date)
    (CustomRule (rule_id rule) sequence date) (custom_start item day date, zd_end day) (clip request (custom_start item day date) (zd_end day)) (Some date))) date = true) as Hpl.
  { unfold local_day_is_plausible. simpl. rewrite bool_decide_eq_true_2 by done. destruct (regular_sub day (zd_end day) Hreg) as (u & -> & Hu).
    - apply Hreg.
    - pose proof (rd_order _ Hreg). lia.
    - rewrite Hu, Hdate, Z.eqb_refl, andb_true_r. apply Z.eqb_eq. simpl. unfold custom_start.
      assert (odt_date (zd_start day) = date) as Hsd by (rewrite <- Hdate; apply regular_date; [done|done|lia|apply Hreg]).
      destruct (Z.eqb_spec date (odt_date (wi_created_at item))); [|done]. unfold odt_max. by destruct (odt_ltb _ _). }
  simpl in Hpl. rewrite Hpl. simpl.
  assert (find_day (calendar_days request) date = Some day) as ->.
  { destruct (calendar_checked request valid_calendar) as (checked & [Hnd _]%zoned_days_checked). rewrite <- Hdate. apply find_day_unique; [done|].
    unfold resolved_days in resolved. rewrite bool_decide_eq_false_2 in resolved by done. injection resolved as <-.
    unfold sort_days in Hday. by rewrite elem_of_sort_by in Hday. }
  destruct (sd_zone _ _ steady Hcal) as [zone ->]. simpl. by rewrite !same_zoned_refl.
Qed.
End accepted.

(** ** The theorem *)

(** The series whose moves are proven.  A rolling month takes its boundaries from
    outside an explicit calendar, where the proof finds none, so that it is proven
    on the calendar that a request without days implies.  A custom rule is proven
    only on an explicit calendar, and only looked at when the item has a moved
    exception. *)
Definition provable_series `{Platform} `{Civil} (request : PlanRequest) (item : WorkItem) (recurrence : Recurrence) : Prop :=
  match recurrence with
  | Daily target | Weekly target _ | Monthly target | Frequency target _ Calendar _ _ _ => (target <= u16_max)%N
  | Frequency _ Month Rolling _ _ anchor =>
      calendar_days request = [] ∧ representable_midnights request ∧
      (date_min <= odt_date (effective_rolling_anchor request item anchor) <= date_max)%Z
  | Custom _ =>
      calendar_days request ≠ [] ∧ (date_min <= odt_date (wi_created_at item))%Z ∧
      existsb is_move (item_exceptions request (wi_id item)) = true
  | _ => True
  end.

Section theorem.
Context `{CivilLaws} `{!PlatformLaws}.
Context (request : PlanRequest) (item : WorkItem) (days : list ZonedDayBoundary).
Hypothesis valid_calendar : validate_zoned_calendar request = Ok tt.
Hypothesis resolved : resolved_days request = Ok days.
Hypothesis steady : steady_days request days.

Lemma generated_provable recurrence proof l o :
  provable_series request item recurrence → custom_move_proof request item recurrence = Ok proof →
  expand_series request item recurrence days = Ok l → o ∈ l → provable request item recurrence proof o.
Proof using valid_calendar resolved steady H1 H2.
  intros Hp Hproof Hl Ho. destruct recurrence as [t|t w|t|i|i|t period [] w sp anchor|rrule]; cbn [expand_series provable_series] in *.
  - injection Hl as <-. destruct (daily_accepted request item days valid_calendar resolved steady daily t ∅ days o) as (d & i & Hi & Hs & key & Hid & Hn); try done.
    split; [done|]. exists key. split; [done|]. simpl. by rewrite Hi.
  - destruct (week_accepted request item days valid_calendar resolved steady weekly t w l o) as (k & i & Hi & Hs & key & Hid & Hn); try done.
    split; [by rewrite Hi, Hs|]. exists key. split; [done|]. simpl. by rewrite Hi.
  - destruct (month_accepted request item days valid_calendar resolved steady monthly t ∅ l o) as (y & m & i & dates & Hi & Hs & Hd & key & Hid & Hn); try done.
    split; [by rewrite Hi, Hs|]. exists key. split; [done|]. simpl. rewrite Hi.
    apply month_dates_ok in Hd as (_ & Hlen & _). by rewrite filter_all, Hlen in Hn.
  - destruct (minutes_accepted request item _ _ _ _ _ _ Hl Ho) as (k & Hi & Hs & key & Hid & Hn).
    split; [done|]. exists key. split; [done|]. simpl. by rewrite Hi.
  - destruct (completion_accepted request item _ _ _ Hl Ho) as (Hi & Hs & key & Hid & Hn).
    split; [by rewrite Hi, Hs|]. exists key. split; [done|]. simpl. by rewrite Hi.
  - destruct period.
    + injection Hl as <-.
      destruct (daily_accepted request item days valid_calendar resolved steady frequency_calendar_day t w
        (filter (λ day, allows_date w (zd_local_date day) = true) days) o) as (d & i & Hi & Hs & key & Hid & Hn); try done.
      { intros day [? ?]%list_elem_of_filter. done. }
      split; [done|]. exists key. split; [done|]. simpl. by rewrite Hi.
    + destruct (week_accepted request item days valid_calendar resolved steady frequency_calendar_week t w l o) as (k & i & Hi & Hs & key & Hid & Hn); try done.
      split; [by rewrite Hi, Hs|]. exists key. split; [done|]. simpl. by rewrite Hi.
    + destruct (month_accepted request item days valid_calendar resolved steady frequency_calendar_month t w l o) as (y & m & i & dates & Hi & Hs & Hd & key & Hid & Hn); try done.
      split; [by rewrite Hi, Hs|]. exists key. split; [done|]. simpl. rewrite Hi. unfold eligible_month_dates.
      apply month_dates_ok in Hd as (-> & _). done.
  - assert (period ≠ Month → provable request item (Frequency t period Rolling w sp anchor) proof o) as Hminutes.
    { intros Hne. destruct (frequency_accepted request item (effective_rolling_anchor request item anchor) t period (minimum_spacing request item) l o) as (k & Hi & Hs & key & Hid & Hn);
        [by destruct period|done|]. split; [done|]. exists key. split; [done|]. simpl. rewrite Hi. by destruct period. }
    destruct period; [by apply Hminutes..|].
    destruct Hp as (? & ? & ?).
    destruct (rolling_month_accepted request item days valid_calendar resolved steady anchor t l o) as (c & i & Hi & Hs & key & Hid & Hn); try done.
    split; [done|]. exists key. split; [done|]. simpl. by rewrite Hi.
  - destruct Hp as (? & ? & ?). by eapply custom_accepted.
Qed.

(** C38. On a valid calendar whose days keep one offset, with representable
    boundaries and, where it is explicit, a named time zone, a client that sends
    back the metadata of a generated occurrence proves its identity: the source
    is accepted for the occurrence's identifier.  This holds for every kind of
    series, with a condition for two of them: a rolling month on the calendar
    that a request without days implies, with its anchor in the range of dates,
    and a custom rule on an explicit calendar, for an item with a moved
    exception. *)
Theorem generated_occurrences_can_move recurrence proof l o :
  provable_series request item recurrence → custom_move_proof request item recurrence = Ok proof →
  expand_series request item recurrence days = Ok l → o ∈ l →
  move_source_is_valid request item recurrence (occ_id o) (source_of item o) proof = true.
Proof using valid_calendar resolved steady H1 H2.
  intros Hp Hproof Hl Ho. destruct (generated_provable recurrence proof l o Hp Hproof Hl Ho) as (Hord & key & Hid & Hname).
  by apply (source_accepted request item recurrence proof o key).
Qed.
End theorem.

(** ** Witnesses *)

Definition twice_weekly : WorkItem :=
  sample_item 5 (RecurringTask {| rts_recurrence := Weekly 2 {[DayOfWeek.Thursday; DayOfWeek.Saturday]} |}) None 30.

Definition weekly_occurrences : result RecurrenceError (list Occurrence) :=
  @expand_series utc_platform gregorian (three_days [twice_weekly]) twice_weekly
    (Weekly 2 {[DayOfWeek.Thursday; DayOfWeek.Saturday]})
    (match @resolved_days utc_platform gregorian (three_days [twice_weekly]) with Ok days => days | Err _ => [] end).

Lemma weekly_occurrences_ok : match weekly_occurrences with Ok l => length l =? 2 | Err _ => false end = true.
Proof. vm_compute. reflexivity. Qed.

Lemma three_days_resolved : is_ok (@resolved_days utc_platform gregorian (three_days [twice_weekly])) = true.
Proof. vm_compute. reflexivity. Qed.

Lemma three_days_steady {its} days :
  @resolved_days utc_platform gregorian (three_days its) = Ok days → @steady_days utc_platform (three_days its) days.
Proof.
  intros Hd. vm_compute in Hd. injection Hd as <-. split; [intros day Hday|intros day Hday|by intros []].
  - repeat (apply elem_of_cons in Hday as [->|Hday]; [reflexivity|]). by apply not_elem_of_nil in Hday.
  - repeat (apply elem_of_cons in Hday as [->|Hday]; [split; eexists; reflexivity|]). by apply not_elem_of_nil in Hday.
Qed.

(** Twice every month from the item's creation on. *)
Definition twice_monthly : Recurrence := Frequency 2 Month Rolling ∅ 0 None.

Definition monthly_item : WorkItem := sample_item 6 (RecurringTask {| rts_recurrence := twice_monthly |}) None 30.

Definition month_occurrences : result RecurrenceError (list Occurrence) :=
  @expand_series utc_platform gregorian (three_days [monthly_item]) monthly_item twice_monthly
    (match @resolved_days utc_platform gregorian (three_days [monthly_item]) with Ok days => days | Err _ => [] end).

Lemma month_occurrences_ok :
  match month_occurrences with Ok l => length l =? 1 | Err _ => false end &&
  is_ok (@resolved_days utc_platform gregorian (three_days [monthly_item])) = true.
Proof. vm_compute. reflexivity. Qed.

(** Every date of the calendar has a midnight at the offset of the horizon. *)
Lemma utc_midnights its : @representable_midnights utc_platform gregorian (three_days its).
Proof.
  intros date Hd. unfold representable. simpl in *. unfold shifted, in_range, gregorian_max, nanos_per_second in *.
  rewrite (proj2 (Z.leb_le _ _)), (proj2 (Z.ltb_lt _ _)) by lia. by eexists.
Qed.

Lemma generated_occurrences_can_move_witness :
  (∃ l o, weekly_occurrences = Ok l ∧ o ∈ l ∧
    @move_source_is_valid utc_platform gregorian (three_days [twice_weekly]) twice_weekly
      (Weekly 2 {[DayOfWeek.Thursday; DayOfWeek.Saturday]}) (occ_id o) (source_of twice_weekly o) None = true) ∧
  (∃ l o, month_occurrences = Ok l ∧ o ∈ l ∧
    @move_source_is_valid utc_platform gregorian (three_days [monthly_item]) monthly_item twice_monthly
      (occ_id o) (source_of monthly_item o) None = true).
Proof.
  split.
  - pose proof weekly_occurrences_ok as Hok. unfold weekly_occurrences in *. pose proof three_days_resolved as Hr.
    destruct (@resolved_days utc_platform gregorian (three_days [twice_weekly])) as [days|e] eqn:Ed; [|discriminate Hr].
    destruct (expand_series _ _ _ days) as [l|e] eqn:E; [|discriminate Hok].
    destruct l as [|o l]; [discriminate Hok|]. exists (o :: l), o. split; [reflexivity|]. split; [left|].
    refine (@generated_occurrences_can_move utc_platform gregorian gregorian_laws utc_platform_laws (three_days [twice_weekly]) twice_weekly days
      _ Ed (three_days_steady days Ed) _ None (o :: l) o _ _ E _); [vm_compute; reflexivity|simpl; done|reflexivity|left].
  - pose proof month_occurrences_ok as Hok. unfold month_occurrences in *.
    destruct (@resolved_days utc_platform gregorian (three_days [monthly_item])) as [days|e] eqn:Ed; [|by rewrite andb_false_r in Hok].
    destruct (expand_series _ _ _ days) as [l|e] eqn:E; [|discriminate Hok].
    destruct l as [|o l]; [discriminate Hok|]. exists (o :: l), o. split; [reflexivity|]. split; [left|].
    refine (@generated_occurrences_can_move utc_platform gregorian gregorian_laws utc_platform_laws (three_days [monthly_item]) monthly_item days
      _ Ed (three_days_steady days Ed) twice_monthly None (o :: l) o _ _ E _); [vm_compute; reflexivity| |reflexivity|left].
    split; [reflexivity|]. split; [apply utc_midnights|split; vm_compute; discriminate].
Defined.

(** A day that loses an hour: it starts at offset 0 and ends at offset one hour,
    23 hours later. *)
Definition spring_day : ZonedDayBoundary :=
  {| zd_local_date := 0; zd_start := at_minute 0; zd_end := {| unix_nanos := 1380 * nanos_per_minute; utc_offset := 3600 |} |}.

Definition spring_request : PlanRequest :=
  {| as_of := at_minute 0; horizon_start := at_minute 0; horizon_end := at_minute 1380;
     items := [sample_item 9 (RecurringTask {| rts_recurrence := Daily 2 |}) None 30];
     availability := []; fixed_blocks := []; previous_assignments := []; config := default_config;
     recurrence_context :=
       {| rctx_calendar := {| time_zone_id := Some "Europe/Paris"%string; week_starts_on := DayOfWeek.Monday; rc_days := [spring_day] |};
          rctx_completion_anchors := ∅; rctx_rolling_anchors := ∅; rctx_minimum_spacing := {[9%N := 1380%N]};
          rctx_completed_occurrence_ids := ∅; rctx_partial_progress := ∅; rctx_pauses := []; rctx_exceptions := [] |} |}.

(** On such a day the recomputation can miss the expansion: with a minimum
    spacing of the whole day, the first of two occurrences ends with the day, in
    the offset after the change, while its proof expects the offset before. *)
Example changing_offset_rejects_own_move :
  let item := sample_item 9 (RecurringTask {| rts_recurrence := Daily 2 |}) None 30 in
  match @expand_series utc_platform gregorian spring_request item (Daily 2) [spring_day] with
  | Ok (o :: _) =>
      @validate_zoned_calendar utc_platform gregorian spring_request = Ok tt ∧
      @move_source_is_valid utc_platform gregorian spring_request item (Daily 2) (occ_id o) (source_of item o) None = false
  | _ => False
  end.
Proof. vm_compute. split; reflexivity. Qed.

(** One day of an explicit calendar, and a series that starts on it. *)
Definition month_request : PlanRequest :=
  {| as_of := at_minute 0; horizon_start := at_minute 0; horizon_end := at_minute 1440; items := [monthly_item];
     availability := []; fixed_blocks := []; previous_assignments := []; config := default_config;
     recurrence_context :=
       {| rctx_calendar :=
            {| time_zone_id := Some "Etc/UTC"%string; week_starts_on := DayOfWeek.Monday;
               rc_days := [{| zd_local_date := 0; zd_start := at_minute 0; zd_end := at_minute 1440 |}] |};
          rctx_completion_anchors := ∅; rctx_rolling_anchors := ∅; rctx_minimum_spacing := ∅;
          rctx_completed_occurrence_ids := ∅; rctx_partial_progress := ∅; rctx_pauses := []; rctx_exceptions := [] |} |}.

(** The month ends outside the calendar: the expansion takes the midnight at the
    offset of the horizon, the proof finds no boundary and refuses the move. *)
Example explicit_calendar_rejects_rolling_month :
  match @expand_series utc_platform gregorian month_request monthly_item twice_monthly
          (rc_days (rctx_calendar (recurrence_context month_request))) with
  | Ok (o :: _) =>
      @validate_zoned_calendar utc_platform gregorian month_request = Ok tt ∧
      @move_source_is_valid utc_platform gregorian month_request monthly_item twice_monthly (occ_id o) (source_of monthly_item o) None = false
  | _ => False
  end.
Proof. vm_compute. split; reflexivity. Qed.
