(* ===== verification/HabitPolicy.v ===== *)
(** * HabitPolicy: pauses and missed habits

    The second part of crates/dayweave-core/src/habits.rs: whether a pause
    covers an occurrence, what the policy of a habit asks for when an occurrence
    was missed, and the recurrence exceptions that carry the decision out.

    The theorems compose the decisions with the parts that execute them: a skip
    is accepted by [apply_habit_occurrence_command] and settles the matter, a
    carried occurrence proves its identity to the recurrence expansion and takes
    its new window, and a reduction skips exactly the next occurrences. *)
From S2P Require Import Prelude Text Platform Civil Domain HabitRecord Expansion Moves Samples Occurrences.
Import HabitOutcome.

(** ** Errors and pauses *)

Module HabitPolicyError.
Inductive HabitPolicyError : Type :=
| InvalidOccurrenceWindow
| InvalidPauseInterval
| InvalidOutcome (error : HabitOccurrenceError)
| TimestampOverflow
| InvalidOccurrenceEvidence
| InvalidFrequencyReduction
| InsufficientUpcomingOccurrences.
End HabitPolicyError.
Abbreviation HabitPolicyError := HabitPolicyError.HabitPolicyError.
Import HabitPolicyError.

(** An absent end is an indefinite pause. *)
Record HabitPauseInterval : Type := { pi_start : OffsetDateTime; pi_end : option OffsetDateTime }.

(** [HabitPauseInterval::validate] *)
Definition validate_pause (p : HabitPauseInterval) : result HabitPolicyError unit :=
  match pi_end p with
  | Some end_ => if odt_leb end_ (pi_start p) then Err InvalidPauseInterval else Ok tt
  | None => Ok tt
  end.

(** [HabitPauseInterval::overlaps] *)
Definition pause_overlaps (p : HabitPauseInterval) (start end_ : OffsetDateTime) : bool :=
  odt_ltb (pi_start p) end_ && match pi_end p with Some pause_end => odt_ltb start pause_end | None => true end.

Inductive HabitOccurrenceEligibility : Type := Eligible | PausedProtected | PausedUnprotected.

#[export] Instance HabitOccurrenceEligibility_eq_dec : EqDecision HabitOccurrenceEligibility.
Proof. solve_decision. Defined.

Definition validate_window (start end_ : OffsetDateTime) : result HabitPolicyError unit :=
  if odt_leb end_ start then Err InvalidOccurrenceWindow else Ok tt.

Definition eligibility_of (overlaps preserves : bool) : HabitOccurrenceEligibility :=
  match overlaps, preserves with
  | false, _ => Eligible
  | true, true => PausedProtected
  | true, false => PausedUnprotected
  end.

Definition habit_occurrence_eligibility (window_start window_end : OffsetDateTime) (pauses : list HabitPauseInterval)
    (preserves_statistics_when_paused : bool) : result HabitPolicyError HabitOccurrenceEligibility :=
  let? _ := validate_window window_start window_end in
  let? overlaps := foldM (λ overlaps pause,
    let? _ := validate_pause pause in Ok (overlaps || pause_overlaps pause window_start window_end)) false pauses in
  Ok (eligibility_of overlaps preserves_statistics_when_paused).

(** ** Missed occurrences *)

Inductive HabitMissedNoActionReason : Type := WindowOpen | Paused | AlreadyCompleted | AlreadySkipped.

Inductive HabitMissedDecision : Type :=
| NoAction (reason : HabitMissedNoActionReason)
| MarkSkipped (value : HabitOccurrenceValue)
| CarryForward (window_start window_end : OffsetDateTime)
| DecideReduce (skip_next_occurrences : N)
| RequestDecision.

Section policy.
Context `{Platform}.

(** What the policy asks for when the occurrence is overdue and unmet. *)
Definition missed_action (policy : HabitMissedPolicy) (as_of window_start window_end : OffsetDateTime)
    (value : HabitOccurrenceValue) : result HabitPolicyError HabitMissedDecision :=
  match policy with
  | Skip =>
      Ok (MarkSkipped (skipped_value HabitSkipReason.MissedPolicy (hv_progress_basis_points value) (hv_quantity value)
                         (hv_actual_seconds value) (hv_note value) as_of))
  | Carry =>
      let? carried_end := ok_or (odt_checked_add as_of (duration_between window_end window_start)) TimestampOverflow in
      Ok (CarryForward as_of carried_end)
  | ReduceFrequency => Ok (DecideReduce 1)
  | Ask => Ok RequestDecision
  end.

Definition decide_habit_missed_behavior (policy : HabitMissedPolicy) (as_of window_start window_end : OffsetDateTime)
    (value : HabitOccurrenceValue) (pauses : list HabitPauseInterval) : result HabitPolicyError HabitMissedDecision :=
  let? _ := validate_window window_start window_end in
  let? _ := map_err InvalidOutcome (validate_value value as_of) in
  let? _ := forM validate_pause pauses in
  match hv_outcome value with
  | Completed => Ok (NoAction AlreadyCompleted)
  | Skipped _ => Ok (NoAction AlreadySkipped)
  | Pending | Partial =>
      if existsb (λ pause, pause_overlaps pause window_start window_end) pauses then Ok (NoAction Paused)
      else if odt_ltb as_of window_end then Ok (NoAction WindowOpen)
      else missed_action policy as_of window_start window_end value
  end.

Definition decide_configured_habit_missed_behavior (habit : HabitSpec) (as_of window_start window_end : OffsetDateTime)
    (value : HabitOccurrenceValue) (pauses : list HabitPauseInterval) : result HabitPolicyError HabitMissedDecision :=
  decide_habit_missed_behavior (hs_missed_policy habit) as_of window_start window_end value pauses.
End policy.

(** ** Carrying a decision out *)

Definition validate_missed_occurrence_source (item_revision : N) (o : Occurrence) : result HabitPolicyError unit :=
  if (item_revision =? 0)%N || is_nil (occ_series_item_id o) || is_nil (occ_id o) ||
     odt_leb (occ_nominal_end o) (occ_nominal_start o) || negb (bool_decide (occ_state o = OccurrenceState.Generated))
  then Err InvalidOccurrenceEvidence else Ok tt.

Definition skip_exception (item_id : ItemId) (occurrence_id : OccurrenceId) : RecurrenceException :=
  {| rx_item_id := item_id; rx_selector := SelectOccurrence occurrence_id; rx_action := ActionSkip |}.

Definition carry_exception (item_revision : N) (missed : Occurrence) (start end_ : OffsetDateTime) : RecurrenceException :=
  {| rx_item_id := occ_series_item_id missed; rx_selector := SelectOccurrence (occ_id missed);
     rx_action := ActionMove start end_
       {| ms_item_revision := item_revision; ms_identity := occ_identity missed;
          ms_nominal_start := occ_nominal_start missed; ms_nominal_end := occ_nominal_end missed;
          ms_local_date := occ_local_date missed; ms_ordinal := occ_ordinal missed |} |}.

(** The order of the tuples (nominal start, ordinal, identifier). *)
Definition series_cmp (a b : Occurrence) : comparison :=
  then_with (odt_cmp (occ_nominal_start a) (occ_nominal_start b))
    (then_with (occ_ordinal a ?= occ_ordinal b)%N (occ_id a ?= occ_id b)%N).

Definition is_upcoming (missed o : Occurrence) : bool :=
  (occ_series_item_id o =? occ_series_item_id missed)%N && negb (occ_id o =? occ_id missed)%N &&
  is_lt (series_cmp missed o) && bool_decide (occ_state o = OccurrenceState.Generated).

Definition upcoming (missed : Occurrence) (occurrences : list Occurrence) : list Occurrence :=
  sort_by (λ a b, is_le (series_cmp a b)) (filter (λ o, is_upcoming missed o = true) occurrences).

Definition materialize_habit_missed_scheduling_decision (item_revision : N) (missed : Occurrence)
    (decision : HabitMissedDecision) (occurrences : list Occurrence)
    : result HabitPolicyError (list RecurrenceException) :=
  match decision with
  | NoAction _ | RequestDecision => Ok []
  | MarkSkipped _ =>
      let? _ := validate_missed_occurrence_source item_revision missed in
      Ok [skip_exception (occ_series_item_id missed) (occ_id missed)]
  | CarryForward window_start window_end =>
      let? _ := validate_missed_occurrence_source item_revision missed in
      let? _ := validate_window window_start window_end in
      Ok [carry_exception item_revision missed window_start window_end]
  | DecideReduce skip_next_occurrences =>
      let? _ := validate_missed_occurrence_source item_revision missed in
      if (skip_next_occurrences =? 0)%N then Err InvalidFrequencyReduction
      else
        let count := N.to_nat skip_next_occurrences in
        if length (upcoming missed occurrences) <? count then Err InsufficientUpcomingOccurrences
        else Ok ((λ o, skip_exception (occ_series_item_id missed) (occ_id o)) <$> take count (upcoming missed occurrences))
  end.

(** ** Pauses *)

Definition valid_pause (p : HabitPauseInterval) : Prop :=
  ∀ end_ : OffsetDateTime, pi_end p = Some end_ → (pi_start p < end_)%Z.

(** The pause and the half-open window share an instant. *)
Definition pauses_during (p : HabitPauseInterval) (start end_ : OffsetDateTime) : Prop :=
  (pi_start p < end_)%Z ∧ ∀ pause_end : OffsetDateTime, pi_end p = Some pause_end → (start < pause_end)%Z.

Lemma validate_pause_iff p : validate_pause p = Ok tt ↔ valid_pause p.
Proof.
  unfold validate_pause, valid_pause. destruct (pi_end p) as [e|]; [|done].
  destruct (odt_leb e (pi_start p)) eqn:E; unfold odt_leb in E; bool_to_prop.
  - split; [done|]. intros He. specialize (He e eq_refl). lia.
  - split; [|done]. intros _ ? [= <-]. lia.
Qed.

Lemma pause_overlaps_iff p start end_ : pause_overlaps p start end_ = true ↔ pauses_during p start end_.
Proof.
  unfold pause_overlaps, pauses_during, odt_ltb. rewrite andb_true_iff, Z.ltb_lt. apply and_iff_compat_l.
  destruct (pi_end p) as [e|]; [rewrite Z.ltb_lt|]; naive_solver.
Qed.

Lemma validate_window_iff (start end_ : OffsetDateTime) : validate_window start end_ = Ok tt ↔ (start < end_)%Z.
Proof. unfold validate_window, odt_leb. destruct (Z.leb_spec end_ start); [split; [done|lia]|done]. Qed.

Lemma any_overlap pauses start end_ :
  existsb (λ pause, pause_overlaps pause start end_) pauses = true ↔ ∃ p, p ∈ pauses ∧ pauses_during p start end_.
Proof.
  rewrite existsb_exists. split.
  - intros (p & Hp%list_elem_of_In & Ho%pause_overlaps_iff). by exists p.
  - intros (p & Hp & Ho). exists p. by rewrite <- list_elem_of_In, pause_overlaps_iff.
Qed.

Lemma eligibility_loop pauses start end_ b0 b :
  foldM (λ overlaps pause, let? _ := validate_pause pause in Ok (overlaps || pause_overlaps pause start end_)) b0 pauses = Ok b ↔
  Forall valid_pause pauses ∧ b = b0 || existsb (λ pause, pause_overlaps pause start end_) pauses.
Proof.
  revert b0. induction pauses as [|p pauses IH]; intros b0; simpl.
  - rewrite orb_false_r. split; [intros [= <-]; by split|by intros [_ ->]].
  - rewrite Forall_cons. destruct (validate_pause p) as [[]|e] eqn:Ep; simpl.
    + apply validate_pause_iff in Ep. rewrite IH, orb_assoc. naive_solver.
    + split; [done|]. intros [[Hp _] _]. apply validate_pause_iff in Hp. congruence.
Qed.

(** What [habit_occurrence_eligibility] answers. *)
Lemma eligibility_iff start end_ pauses preserves e :
  habit_occurrence_eligibility start end_ pauses preserves = Ok e ↔
  (start < end_)%Z ∧ Forall valid_pause pauses ∧
  e = eligibility_of (existsb (λ pause, pause_overlaps pause start end_) pauses) preserves.
Proof.
  unfold habit_occurrence_eligibility. rewrite rbind_unit_ok, validate_window_iff, rbind_ok. apply and_iff_compat_l. split.
  - intros (b & [? ->]%eligibility_loop & [= <-]). done.
  - intros [? ->]. eexists. by split; [apply eligibility_loop|].
Qed.

(** ** Decisions *)

Section decisions.
Context `{Platform}.

(** When a decision is made at all, and which. *)
Lemma decide_missed_iff policy as_of start end_ value pauses d :
  decide_habit_missed_behavior policy as_of start end_ value pauses = Ok d ↔
  (start < end_)%Z ∧ valid_value value as_of ∧ Forall valid_pause pauses ∧
  match hv_outcome value with
  | Completed => d = NoAction AlreadyCompleted
  | Skipped _ => d = NoAction AlreadySkipped
  | Pending | Partial =>
      (if existsb (λ pause, pause_overlaps pause start end_) pauses then Ok (NoAction Paused)
       else if odt_ltb as_of end_ then Ok (NoAction WindowOpen)
       else missed_action policy as_of start end_ value) = Ok d
  end.
Proof.
  unfold decide_habit_missed_behavior. rewrite !rbind_unit_ok, validate_window_iff, map_err_ok, validate_value_iff, forM_ok.
  assert (Forall (λ p, validate_pause p = Ok tt) pauses ↔ Forall valid_pause pauses) as ->
    by (rewrite !Forall_forall; by setoid_rewrite validate_pause_iff).
  destruct (hv_outcome value); naive_solver.
Qed.

(** A habit is acted on only when it was missed: the occurrence is not settled,
    its window has closed and no pause touches it; the action is the policy's,
    and a carried window starts now and is as long as the missed one. *)
Theorem action_needs_a_miss policy as_of start end_ value pauses preserves d :
  decide_habit_missed_behavior policy as_of start end_ value pauses = Ok d → (∀ reason, d ≠ NoAction reason) →
  (hv_outcome value = Pending ∨ hv_outcome value = Partial) ∧ (end_ <= as_of)%Z ∧
  habit_occurrence_eligibility start end_ pauses preserves = Ok Eligible ∧
  match policy with
  | Skip => ∃ v, d = MarkSkipped v ∧ hv_outcome v = Skipped HabitSkipReason.MissedPolicy
  | Carry => ∃ e, d = CarryForward as_of e ∧ odt_checked_add as_of (end_ - start) = Some e
  | ReduceFrequency => d = DecideReduce 1
  | Ask => d = RequestDecision
  end.
Proof.
  intros (Hw & _ & Hp & Hd)%decide_missed_iff Hact.
  assert ((hv_outcome value = Pending ∨ hv_outcome value = Partial) ∧
    (if existsb (λ pause, pause_overlaps pause start end_) pauses then Ok (NoAction Paused)
     else if odt_ltb as_of end_ then Ok (NoAction WindowOpen)
     else missed_action policy as_of start end_ value) = Ok d) as [Ho Hd'].
  { destruct (hv_outcome value); [auto|auto|by apply Hact in Hd|by apply Hact in Hd]. }
  split; [done|]. destruct (existsb _ pauses) eqn:Ee; [injection Hd' as <-; by destruct (Hact Paused)|].
  destruct (odt_ltb as_of end_) eqn:Et; [injection Hd' as <-; by destruct (Hact WindowOpen)|]. unfold odt_ltb in Et; bool_to_prop.
  split; [lia|]. split; [apply eligibility_iff; by rewrite Ee|].
  unfold missed_action in Hd'. destruct policy; simpl in Hd'.
  - injection Hd' as <-. by eexists.
  - apply rbind_ok in Hd' as (e & He%ok_or_ok & [= <-]). by exists e.
  - by injection Hd' as <-.
  - by injection Hd' as <-.
Qed.

(** A skip by policy is accepted as an ordinary recording at the time of the
    decision, keeps all evidence, and settles the occurrence: from then on
    every policy leaves it alone. *)
Theorem missed_skip_settles r policy (as_of start end_ : OffsetDateTime) pauses value :
  validate_record r = Ok tt → (hr_updated_at r <= as_of)%Z → (hr_revision r < u64_max)%N →
  decide_habit_missed_behavior policy as_of start end_ (hr_value r) pauses = Ok (MarkSkipped value) →
  ∃ t, apply_habit_occurrence_command r
         {| hc_expected_revision := hr_revision r; hc_recorded_at := as_of; hc_kind := Record_ value |} = Ok t ∧
    evidence_kept (hr_value r) (hr_value (ht_current t)) ∧
    hv_progress_basis_points (hr_value (ht_current t)) = hv_progress_basis_points (hr_value r) ∧
    ∀ policy' (later : OffsetDateTime), (as_of <= later)%Z →
      decide_habit_missed_behavior policy' later start end_ (hr_value (ht_current t)) pauses = Ok (NoAction AlreadySkipped).
Proof.
  intros Hr%validate_record_iff Ht Hrev (Hw & [Hq Hs Hn [Hshape Hocc]] & Hp & Hd)%decide_missed_iff.
  assert ((hv_outcome (hr_value r) = Pending ∨ hv_outcome (hr_value r) = Partial) ∧
    value = skipped_value HabitSkipReason.MissedPolicy (hv_progress_basis_points (hr_value r)) (hv_quantity (hr_value r))
              (hv_actual_seconds (hr_value r)) (hv_note (hr_value r)) as_of) as [Ho ->].
  { assert (∀ m : result HabitPolicyError HabitMissedDecision, m = Ok (MarkSkipped value) → m = missed_action policy as_of start end_ (hr_value r) →
      value = skipped_value HabitSkipReason.MissedPolicy (hv_progress_basis_points (hr_value r)) (hv_quantity (hr_value r))
                (hv_actual_seconds (hr_value r)) (hv_note (hr_value r)) as_of) as Hmissed.
    { intros m -> Hm. unfold missed_action in Hm. destruct policy; simpl in Hm; [by injection Hm|..|done|done].
      by destruct (odt_checked_add _ _). }
    destruct (hv_outcome (hr_value r)); [| |done..]; (split; [auto|]);
      (destruct (existsb _ pauses); [done|]); (destruct (odt_ltb as_of end_); [done|]); by apply (Hmissed _ Hd). }
  assert (hv_progress_basis_points (hr_value r) < 10000)%N as Hlt.
  { destruct Ho as [Ho|Ho]; rewrite Ho in Hshape; [by rewrite Hshape|lia]. }
  assert (∀ later : OffsetDateTime, (as_of <= later)%Z → valid_value
    (skipped_value HabitSkipReason.MissedPolicy (hv_progress_basis_points (hr_value r)) (hv_quantity (hr_value r))
       (hv_actual_seconds (hr_value r)) (hv_note (hr_value r)) as_of) later) as Hvalid.
  { intros later Hl. constructor; simpl; [done..|]. split; [done|]. intros _. by exists as_of. }
  eexists. split; [apply apply_command_iff; simpl; split_and!; [done|done|done|by apply Hvalid| | |done|reflexivity]|].
  - unfold admits, forward. simpl. destruct Ho as [->| ->]; [done|]. split; [lia|].
    constructor; simpl; [done| |done]. intros s ?. by exists s.
  - unfold value_eqb. simpl. rewrite bool_decide_eq_false_2; [done|]. destruct Ho as [->| ->]; done.
  - simpl. split_and!; [constructor; simpl; [done| |done]; intros s ?; by exists s|done|].
    intros policy' later Hl. apply decide_missed_iff. simpl. split_and!; [done|by apply Hvalid|done|done].
Qed.
End decisions.

(** ** Carrying decisions out *)

Lemma source_valid_iff item_revision o :
  validate_missed_occurrence_source item_revision o = Ok tt ↔
  item_revision ≠ 0%N ∧ occ_series_item_id o ≠ 0%N ∧ occ_id o ≠ 0%N ∧ (occ_nominal_start o < occ_nominal_end o)%Z ∧
  occ_state o = OccurrenceState.Generated.
Proof.
  unfold validate_missed_occurrence_source, is_nil, odt_leb.
  destruct (N.eqb_spec item_revision 0), (N.eqb_spec (occ_series_item_id o) 0), (N.eqb_spec (occ_id o) 0),
    (Z.leb_spec (occ_nominal_end o) (occ_nominal_start o)); simpl; try (split; [done|naive_solver lia]).
  case_bool_decide; naive_solver.
Qed.

Lemma lawful_series_cmp : lawful series_cmp.
Proof.
  unfold series_cmp. apply lawful_then; [apply lawful_odt|]. apply lawful_then.
  - apply (lawful_contramap occ_ordinal), lawful_N.
  - apply (lawful_contramap occ_id), lawful_N.
Qed.

Lemma series_cmp_Eq a b : series_cmp a b = Eq → occ_id a = occ_id b.
Proof.
  unfold series_cmp, then_with. destruct (odt_cmp _ _); [|done..]. destruct (_ ?= _)%N; [|done..]. apply N.compare_eq.
Qed.

Lemma upcoming_perm missed occurrences : upcoming missed occurrences ≡ₚ filter (λ o, is_upcoming missed o = true) occurrences.
Proof. apply sort_by_perm. Qed.

Lemma upcoming_sorted missed occurrences :
  StronglySorted (λ a b, is_le (series_cmp a b) = true) (upcoming missed occurrences).
Proof.
  apply sort_by_sorted.
  - intros a b. by apply lawful_leb_total, lawful_series_cmp.
  - intros a b c. by apply lawful_leb_trans, lawful_series_cmp.
Qed.

Section carry_out.
Context `{Platform, Civil}.
Context (request : PlanRequest).

Lemma apply_skips item_id ids o :
  foldl (apply_exception request) o (skip_exception item_id <$> ids) =
  if bool_decide (occ_id o ∈ ids) then with_state o OccurrenceState.Skipped else o.
Proof.
  revert o. induction ids as [|id ids IH]; intros o; simpl; [done|]. rewrite IH. unfold apply_exception. simpl.
  destruct (N.eqb_spec id (occ_id o)) as [->|Hne]; simpl.
  - rewrite (bool_decide_eq_true_2 (occ_id o ∈ occ_id o :: ids)) by left. by case_bool_decide.
  - apply (f_equal (λ b : bool, if b then _ else _)), bool_decide_ext. rewrite elem_of_cons. naive_solver.
Qed.

(** Reducing the frequency by [n] skips exactly [n] occurrences: the next ones
    of the series after the missed one.  Every other occurrence stays as it
    was, and none of those left comes before one that is skipped. *)
Theorem reduction_skips_the_next item_revision missed n occurrences exceptions :
  NoDup (occ_id <$> occurrences) →
  materialize_habit_missed_scheduling_decision item_revision missed (DecideReduce n) occurrences = Ok exceptions →
  ∃ skipped, length skipped = N.to_nat n ∧ (1 <= n)%N ∧ NoDup (occ_id <$> skipped) ∧
    (∀ o, o ∈ skipped → o ∈ occurrences ∧ is_upcoming missed o = true) ∧
    (∀ o, o ∈ occurrences → foldl (apply_exception request) o exceptions =
       if bool_decide (occ_id o ∈ occ_id <$> skipped) then with_state o OccurrenceState.Skipped else o) ∧
    (∀ o left, o ∈ skipped → left ∈ occurrences → is_upcoming missed left = true → left ∉ skipped → series_cmp o left = Lt).
Proof.
  intros Hnd. unfold materialize_habit_missed_scheduling_decision. intros (_ & Hm)%rbind_unit_ok.
  destruct (N.eqb_spec n 0); [done|]. destruct (Nat.ltb_spec (length (upcoming missed occurrences)) (N.to_nat n)); [done|].
  injection Hm as <-. pose proof (upcoming_sorted missed occurrences) as Hsorted.
  assert (NoDup (occ_id <$> upcoming missed occurrences)) as Hup.
  { rewrite upcoming_perm. eapply sublist_NoDup; [exact Hnd|]. apply fmap_sublist, sublist_filter. }
  rewrite <- (take_drop (N.to_nat n) (upcoming missed occurrences)), fmap_app in Hup.
  rewrite <- (take_drop (N.to_nat n) (upcoming missed occurrences)) in Hsorted.
  exists (take (N.to_nat n) (upcoming missed occurrences)). rewrite length_take.
  assert (∀ o, o ∈ upcoming missed occurrences ↔ is_upcoming missed o = true ∧ o ∈ occurrences) as Hin
    by (intros o; unfold upcoming; by rewrite elem_of_sort_by, list_elem_of_filter).
  split_and!; [lia|lia|by apply NoDup_app in Hup as [? _]| | |].
  - intros o Ho. apply elem_of_take in Ho as (i & Ho & _).
    apply list_elem_of_lookup_2, Hin in Ho as [? ?]. done.
  - intros o _. change (λ o, skip_exception _ (occ_id o)) with (skip_exception (occ_series_item_id missed) ∘ occ_id).
    rewrite list_fmap_compose. apply apply_skips.
  - intros o left_ Ho Hleft Hu Hno.
    assert (left_ ∈ drop (N.to_nat n) (upcoming missed occurrences)) as Hd.
    { assert (left_ ∈ upcoming missed occurrences) as Hl by (by apply Hin).
      rewrite <- (take_drop (N.to_nat n) (upcoming missed occurrences)) in Hl. by apply elem_of_app in Hl as [?|?]. }
    apply StronglySorted_app in Hsorted as (Hle & _ & _). specialize (Hle o left_ Ho Hd). unfold is_le in Hle.
    destruct (series_cmp o left_) eqn:Ec; [|done..]. apply series_cmp_Eq in Ec. exfalso.
    apply NoDup_app in Hup as (_ & Hdisj & _). apply (Hdisj (occ_id o)); [by apply list_elem_of_fmap_2|].
    rewrite Ec. by apply list_elem_of_fmap_2.
Qed.
End carry_out.

(** A proof of identity with a local date starts on that date. *)
Lemma identity_name_day `{Platform, Civil} request item recurrence source proof key date :
  validated_identity_name request item recurrence source proof = Some (key, Some date) →
  odt_date (ms_nominal_start source) = date.
Proof.
  enough (validated_identity_name request item recurrence source proof = Some (key, Some date) →
          local_day_is_plausible source date = true) as Hday.
  { intros Hn%Hday. unfold local_day_is_plausible in Hn. bool_to_prop. done. }
  unfold validated_identity_name.
  destruct recurrence as [?|? ?|?|?|?|? [] [] ? ? ?|?], (ms_identity source); try done;
    unfold day_identity_name, week_identity_name, month_identity_name, custom_identity_name, completion_identity_name,
      validated_rolling_minute_name, validated_rolling_frequency_name, rolling_month_identity_name;
    intros Hn; simplify_option_eq; bool_to_prop; try done; repeat case_match;
    simplify_option_eq; bool_to_prop; try done; destruct (same_zoned _ _ && same_zoned _ _); by simplify_eq.
Qed.

Section carry.
Context `{CivilLaws} `{!PlatformLaws}.
Context (request : PlanRequest) (item : WorkItem) (days : list ZonedDayBoundary).
Hypothesis valid_calendar : validate_zoned_calendar request = Ok tt.
Hypothesis resolved : resolved_days request = Ok days.
Hypothesis steady : steady_days request days.

(** Carrying a missed occurrence forward works: the exception passes the
    validation of the recurrence context, its source proves the identity of the
    occurrence, and within the horizon the occurrence takes the carried window,
    which is as long as the one it had. *)
Theorem carried_occurrences_move recurrence proof l o (as_of start end_ : OffsetDateTime) value pauses exceptions :
  provable_series request item recurrence → custom_move_proof request item recurrence = Ok proof →
  expand_series request item recurrence days = Ok l → o ∈ l →
  decide_habit_missed_behavior Carry as_of (occ_window_start o) (occ_window_end o) value pauses = Ok (CarryForward start end_) →
  materialize_habit_missed_scheduling_decision (wi_revision item) o (CarryForward start end_) l = Ok exceptions →
  ∃ exception source, exceptions = [exception] ∧ rx_action exception = ActionMove start end_ source ∧
    validate_exception exception = Ok tt ∧
    move_source_is_valid request item recurrence (occ_id o) source proof = true ∧
    (contained request start end_ = true → apply_exception request o exception = moved_to o start end_) ∧
    (end_ - start)%Z = (occ_window_end o - occ_window_start o)%Z.
Proof using valid_calendar resolved steady H1 H2.
  intros Hp Hproof Hl Ho (_ & _ & _ & Hd)%decide_missed_iff Hm.
  destruct (generated_provable request item days valid_calendar resolved steady recurrence proof l o Hp Hproof Hl Ho)
    as (Hord & key & Hid & Hname).
  pose proof (source_accepted request item recurrence proof o key Hid Hord Hname) as Hvalid.
  simpl in Hm. apply rbind_unit_ok in Hm as [(Hrev & _ & _ & Hnom & _)%source_valid_iff Hm].
  apply rbind_unit_ok in Hm as [Hw%validate_window_iff [= <-]].
  exists (carry_exception (wi_revision item) o start end_), (source_of item o). split_and!; [done|done| |done| |].
  - unfold validate_exception, carry_exception, odt_leb. simpl. destruct (Z.leb_spec end_ start); [lia|]. simpl.
    destruct (N.eqb_spec (wi_revision item) 0); [done|]. destruct (Z.leb_spec (occ_nominal_end o) (occ_nominal_start o)); [lia|].
    simpl. destruct (occ_local_date o) as [date|]; [|done]. apply identity_name_day in Hname. simpl in Hname.
    by rewrite Hname, Z.eqb_refl.
  - intros Hc. unfold apply_exception, carry_exception. simpl. by rewrite N.eqb_refl, Hc.
  - destruct (hv_outcome value); [| |done|done];
      (destruct (existsb _ pauses); [done|]); (destruct (odt_ltb as_of (occ_window_end o)); [done|]);
      apply rbind_ok in Hd as (e & He%ok_or_ok & [= <- <-]); apply checked_add_exact in He as [He _]; rewrite He;
      unfold duration_between; lia.
Qed.
End carry.

(** ** Witnesses *)

Lemma action_needs_a_miss_witness :
  (@habit_occurrence_eligibility (at_minute 0) (at_minute 60) [] true) = Ok Eligible.
Proof.
  refine (proj1 (proj2 (proj2 (@action_needs_a_miss utc_platform Ask (at_minute 60) (at_minute 0) (at_minute 60) pending_value [] true
    RequestDecision _ _)))); [vm_compute; reflexivity|discriminate].
Defined.

Definition half_record : HabitOccurrenceRecord :=
  with_value sample_record 2 (partial_value 5000 (Some {| hq_amount := 3; hq_unit := "km" |}) (Some 600%N) None (at_minute 10)) (at_minute 10).

Lemma missed_skip_settles_witness :
  ∃ value t, @decide_habit_missed_behavior utc_platform Skip (at_minute 60) (at_minute 0) (at_minute 60) (hr_value half_record) []
      = Ok (MarkSkipped value) ∧ evidence_kept (hr_value half_record) (hr_value (ht_current t)).
Proof.
  destruct (@decide_habit_missed_behavior utc_platform Skip (at_minute 60) (at_minute 0) (at_minute 60) (hr_value half_record) [])
    as [[|value| | |]|e] eqn:E; try (vm_compute in E; discriminate E).
  assert (hr_updated_at half_record <= at_minute 60)%Z as Ht by (vm_compute; intros [=]).
  destruct (@missed_skip_settles utc_platform half_record Skip (at_minute 60) (at_minute 0) (at_minute 60) [] value
    ltac:(vm_compute; reflexivity) Ht ltac:(vm_compute; reflexivity) E) as (t & _ & Hk & _).
  exists value, t. split; [reflexivity|exact Hk].
Defined.

(** The occurrences of two times a week over three days; the first is missed. *)
Lemma reduction_skips_the_next_witness :
  ∃ missed later exceptions skipped, weekly_occurrences = Ok (missed :: later) ∧
    materialize_habit_missed_scheduling_decision 1 missed (DecideReduce 1) (missed :: later) = Ok exceptions ∧
    length skipped = 1 ∧ ∀ o, o ∈ skipped → is_upcoming missed o = true.
Proof.
  destruct weekly_occurrences as [[|missed later]|e] eqn:E; [vm_compute in E; discriminate E| |vm_compute in E; discriminate E].
  assert (NoDup (occ_id <$> missed :: later) ∧
    is_ok (materialize_habit_missed_scheduling_decision 1 missed (DecideReduce 1) (missed :: later)) = true) as [Hnd Hok].
  { vm_compute in E. injection E as <- <-. split; [apply (bool_decide_unpack _)|]; vm_compute; done. }
  destruct (materialize_habit_missed_scheduling_decision _ _ _ _) as [exceptions|e] eqn:Em; [|discriminate Hok].
  destruct (reduction_skips_the_next (three_days [twice_weekly]) 1 missed 1 (missed :: later) exceptions Hnd Em)
    as (skipped & Hlen & _ & _ & Hup & _).
  exists missed, later, exceptions, skipped. split_and!; [reflexivity|exact Em|exact Hlen|]. intros o Ho. apply (Hup o Ho).
Defined.

Definition carry_now (o : Occurrence) : result HabitPolicyError HabitMissedDecision :=
  @decide_habit_missed_behavior utc_platform Carry (occ_window_end o) (occ_window_start o) (occ_window_end o) pending_value [].

Lemma weekly_carry_ok :
  match weekly_occurrences with
  | Ok ((o :: _) as l) =>
      match carry_now o with
      | Ok (CarryForward start end_) =>
          is_ok (materialize_habit_missed_scheduling_decision (wi_revision twice_weekly) o (CarryForward start end_) l)
      | _ => false
      end
  | _ => false
  end = true.
Proof. vm_compute. reflexivity. Qed.

Lemma carried_occurrences_move_witness :
  ∃ l o (exceptions : list RecurrenceException) start end_, weekly_occurrences = Ok l ∧ o ∈ l ∧ carry_now o = Ok (CarryForward start end_) ∧
    length exceptions = 1 ∧ (end_ - start)%Z = (occ_window_end o - occ_window_start o)%Z.
Proof.
  pose proof weekly_carry_ok as Hok. unfold weekly_occurrences in *. pose proof three_days_resolved as Hr.
  destruct (@resolved_days utc_platform gregorian (three_days [twice_weekly])) as [days|e] eqn:Ed; [|discriminate Hr].
  destruct (expand_series _ _ _ days) as [[|o l]|e] eqn:E; [discriminate Hok| |discriminate Hok].
  destruct (carry_now o) as [[|?|start end_|?|]|e] eqn:Ec; try discriminate Hok.
  destruct (materialize_habit_missed_scheduling_decision _ _ _ _) as [exceptions|e] eqn:Em; [|discriminate Hok].
  destruct (@carried_occurrences_move utc_platform gregorian gregorian_laws utc_platform_laws (three_days [twice_weekly]) twice_weekly days
    ltac:(vm_compute; reflexivity) Ed (three_days_steady days Ed) (Weekly 2 {[DayOfWeek.Thursday; DayOfWeek.Saturday]}) None (o :: l) o
    (occ_window_end o) start end_ pending_value [] exceptions ltac:(simpl; done) eq_refl E ltac:(left) Ec Em)
    as (exception & source & -> & _ & _ & _ & _ & Hlen).
  exists (o :: l), o, [exception], start, end_. split_and!; [reflexivity|left|exact Ec|reflexivity|exact Hlen].
Defined.
