(* ===== verification/HabitAnalytics.v ===== *)
(** * HabitAnalytics: counts, adherence, streaks and trends of a habit

    The third part of crates/dayweave-core/src/habits.rs:
    [calculate_habit_analytics] projects the occurrences of a habit that are due
    in a range of local dates.  A [BTreeMap] from dates is a finite map whose
    entries are read in ascending order; [MutableTally] is threaded as a value.

    The theorems are in Adherence and Trends. *)
From S2P Require Import Prelude Text Platform Civil Domain HabitRecord HabitPolicy Expansion Rrule.
Import HabitOutcome.

Definition MAX_HABIT_ANALYTICS_OCCURRENCES : N := 1000000.
Definition MAX_HABIT_ANALYTICS_PAUSES : N := 100000.
Definition MAX_HABIT_ANALYTICS_RANGE_DAYS : Z := 36600.

(** ** Data *)

Record HabitAnalyticsOccurrence : Type := {
  ao_occurrence_id : OccurrenceId;
  ao_local_date : Date;
  ao_window_start : OffsetDateTime;
  ao_window_end : OffsetDateTime;
  ao_value : HabitOccurrenceValue
}.

Record HabitAnalyticsOccurrenceWire : Type := {
  aw_occurrence_id : OccurrenceId;
  aw_local_date : Date;
  aw_window_start : OffsetDateTime;
  aw_window_end : OffsetDateTime;
  aw_value : option HabitOccurrenceValue;
  aw_outcome : option HabitOutcomeWire
}.

(** The value a legacy outcome stands for; it occurred when the window ended. *)
Definition legacy_value (window_end : OffsetDateTime) (w : HabitOutcomeWire) : result string HabitOccurrenceValue :=
  let? (outcome, quantity, progress) := decode_outcome w in
  let? progress := ok_or progress "legacy partial analytics outcome requires quantity"%string in
  Ok {| hv_outcome := outcome; hv_progress_basis_points := progress; hv_quantity := dq_value <$> quantity;
        hv_actual_seconds := None; hv_note := None;
        hv_occurred_at := if bool_decide (outcome = Pending) then None else Some window_end |}.

(** [HabitAnalyticsOccurrence::deserialize] after serde has read the fields *)
Definition decode_analytics_occurrence (w : HabitAnalyticsOccurrenceWire) : result string HabitAnalyticsOccurrence :=
  let? value :=
    match aw_value w, aw_outcome w with
    | Some value, None => Ok value
    | None, Some outcome => legacy_value (aw_window_end w) outcome
    | Some _, Some _ => Err "analytics occurrence cannot contain both value and legacy outcome"%string
    | None, None => Err "analytics occurrence requires value or legacy outcome"%string
    end in
  Ok {| ao_occurrence_id := aw_occurrence_id w; ao_local_date := aw_local_date w; ao_window_start := aw_window_start w;
        ao_window_end := aw_window_end w; ao_value := value |}.

Module HabitTrendGranularity.
Inductive HabitTrendGranularity : Type := Day | Week | Month.
End HabitTrendGranularity.
Abbreviation HabitTrendGranularity := HabitTrendGranularity.HabitTrendGranularity.

Record HabitAnalyticsInput : Type := {
  ai_range_start : Date;
  ai_range_end : Date;
  ai_as_of : OffsetDateTime;
  ai_as_of_local_date : Date;
  ai_trend_granularity : HabitTrendGranularity;
  ai_week_starts_on : DayOfWeek;
  ai_preserves_statistics_when_paused : bool;
  ai_pauses : list HabitPauseInterval;
  ai_occurrences : list HabitAnalyticsOccurrence
}.

Record HabitAnalyticsCounts : Type := {
  ac_due : N;
  ac_eligible : N;
  ac_paused : N;
  ac_protected_paused : N;
  ac_completed : N;
  ac_partial : N;
  ac_skipped : N;
  ac_pending : N;
  ac_missed_policy_skips : N
}.

Record HabitQuantityTotal : Type := { qtot_unit : string; qtot_amount : Z }.

Record HabitTrendBucket : Type := {
  tb_start_date : Date;
  tb_counts : HabitAnalyticsCounts;
  tb_adherence_basis_points : option N;
  tb_actual_seconds_total : N;
  tb_quantity_totals : list HabitQuantityTotal
}.

Inductive HabitSupportiveFactCode : Type :=
| NoDueOccurrences
| PausedOccurrencesProtected
| PartialProgressRecorded
| FullAdherence
| CurrentStreak
| PersonalBest
| ImprovingTrend
| NextOccurrenceOpportunity.

Record HabitSupportiveFact : Type := { sf_code : HabitSupportiveFactCode; sf_value : option N }.

Record HabitAnalytics : Type := {
  ha_counts : HabitAnalyticsCounts;
  ha_adherence_basis_points : option N;
  ha_actual_seconds_total : N;
  ha_quantity_totals : list HabitQuantityTotal;
  ha_current_streak : N;
  ha_longest_streak : N;
  ha_trend_buckets : list HabitTrendBucket;
  ha_supportive_facts : list HabitSupportiveFact
}.

Module HabitAnalyticsError.
Inductive HabitAnalyticsError : Type :=
| InvalidRange
| RangeTooLarge
| TooManyOccurrences
| TooManyPauses
| InvalidOccurrenceId
| DuplicateOccurrence (id : OccurrenceId)
| InvalidOutcome (error : HabitOccurrenceError)
| Policy (error : HabitPolicyError)
| ArithmeticOverflow
| CalendarOverflow.
End HabitAnalyticsError.
Abbreviation HabitAnalyticsError := HabitAnalyticsError.HabitAnalyticsError.
Import HabitAnalyticsError.

(** ** Maps in the order of their keys *)

Definition date_entries {V} (m : gmap Date V) : list (Date * V) := sort_by (λ a b, a.1 <=? b.1)%Z (map_to_list m).

Definition string_leb (a b : string) : bool := is_le (cmp_list N.compare (bytes_of a) (bytes_of b)).

Definition string_entries {V} (m : gmap string V) : list (string * V) := sort_by (λ a b, string_leb a.1 b.1) (map_to_list m).

(** ** Tallies *)

Record MutableTally : Type := {
  mt_counts : HabitAnalyticsCounts;
  mt_adherence_sum : N;
  mt_actual_seconds_total : N;
  mt_quantity_totals : gmap string Z;
  mt_partial_progress_count : N
}.

Definition no_counts : HabitAnalyticsCounts :=
  {| ac_due := 0; ac_eligible := 0; ac_paused := 0; ac_protected_paused := 0; ac_completed := 0; ac_partial := 0;
     ac_skipped := 0; ac_pending := 0; ac_missed_policy_skips := 0 |}.

(** [MutableTally::default] *)
Definition empty_tally : MutableTally :=
  {| mt_counts := no_counts; mt_adherence_sum := 0; mt_actual_seconds_total := 0; mt_quantity_totals := ∅;
     mt_partial_progress_count := 0 |}.

Definition increment (value : N) : result HabitAnalyticsError N := ok_or (checked_add u32_max value 1) ArithmeticOverflow.

Definition increment_if (b : bool) (value : N) : result HabitAnalyticsError N := if b then increment value else Ok value.

Definition add_quantity (totals : gmap string Z) (quantity : option HabitQuantityProgress) : result HabitAnalyticsError (gmap string Z) :=
  match quantity with
  | None => Ok totals
  | Some q =>
      let? total := ok_or (i64_add (default 0%Z (totals !! hq_unit q)) (hq_amount q)) ArithmeticOverflow in
      Ok (<[hq_unit q := total]> totals)
  end.

(** The counts of outcomes. *)
Definition count_outcome (c : HabitAnalyticsCounts) (due paused eligible : N) (outcome : HabitOccurrenceOutcome)
    : result HabitAnalyticsError HabitAnalyticsCounts :=
  let? pending := increment_if (bool_decide (outcome = Pending)) (ac_pending c) in
  let? partial := increment_if (bool_decide (outcome = Partial)) (ac_partial c) in
  let? completed := increment_if (bool_decide (outcome = Completed)) (ac_completed c) in
  let? skipped := increment_if (match outcome with Skipped _ => true | _ => false end) (ac_skipped c) in
  let? missed := increment_if (bool_decide (outcome = Skipped HabitSkipReason.MissedPolicy)) (ac_missed_policy_skips c) in
  Ok {| ac_due := due; ac_eligible := eligible; ac_paused := paused; ac_protected_paused := ac_protected_paused c;
        ac_completed := completed; ac_partial := partial; ac_skipped := skipped; ac_pending := pending;
        ac_missed_policy_skips := missed |}.

Definition with_protected (c : HabitAnalyticsCounts) (due paused protected_paused : N) : HabitAnalyticsCounts :=
  {| ac_due := due; ac_eligible := ac_eligible c; ac_paused := paused; ac_protected_paused := protected_paused;
     ac_completed := ac_completed c; ac_partial := ac_partial c; ac_skipped := ac_skipped c; ac_pending := ac_pending c;
     ac_missed_policy_skips := ac_missed_policy_skips c |}.

(** Progress strictly between none and all *)
Definition is_partial_progress (value : HabitOccurrenceValue) : bool :=
  (1 <=? hv_progress_basis_points value)%N && (hv_progress_basis_points value <? HABIT_BASIS_POINTS_SCALE)%N.

(** [MutableTally::observe] *)
Definition observe (t : MutableTally) (value : HabitOccurrenceValue) (eligibility : HabitOccurrenceEligibility)
    : result HabitAnalyticsError MutableTally :=
  let c := mt_counts t in
  let? due := increment (ac_due c) in
  let? seconds := ok_or (checked_add u64_max (mt_actual_seconds_total t) (default 0%N (hv_actual_seconds value))) ArithmeticOverflow in
  let? quantities := add_quantity (mt_quantity_totals t) (hv_quantity value) in
  let? paused := increment_if (negb (bool_decide (eligibility = Eligible))) (ac_paused c) in
  if bool_decide (eligibility = PausedProtected) then
    let? protected_paused := increment (ac_protected_paused c) in
    Ok {| mt_counts := with_protected c due paused protected_paused; mt_adherence_sum := mt_adherence_sum t;
          mt_actual_seconds_total := seconds; mt_quantity_totals := quantities;
          mt_partial_progress_count := mt_partial_progress_count t |}
  else
    let? eligible := increment (ac_eligible c) in
    let? counts := count_outcome c due paused eligible (hv_outcome value) in
    let? partial_progress := increment_if (is_partial_progress value) (mt_partial_progress_count t) in
    let? sum := ok_or (checked_add u64_max (mt_adherence_sum t) (hv_progress_basis_points value)) ArithmeticOverflow in
    Ok {| mt_counts := counts; mt_adherence_sum := sum; mt_actual_seconds_total := seconds;
          mt_quantity_totals := quantities; mt_partial_progress_count := partial_progress |}.

Definition adherence_basis_points (t : MutableTally) : result HabitAnalyticsError (option N) :=
  let denominator := ac_eligible (mt_counts t) in
  if (denominator =? 0)%N then Ok None
  else
    let? numerator := ok_or (checked_add u64_max (mt_adherence_sum t) (denominator / 2)) ArithmeticOverflow in
    let value := (numerator / denominator)%N in
    if (value <=? u16_max)%N then Ok (Some value) else Err ArithmeticOverflow.

Definition quantity_totals (t : MutableTally) : list HabitQuantityTotal :=
  (λ p, {| qtot_unit := p.1; qtot_amount := p.2 |}) <$> string_entries (mt_quantity_totals t).

(** ** Pauses of the range *)

Definition pause_leb (a b : HabitPauseInterval) : bool :=
  is_le (then_with (odt_cmp (pi_start a) (pi_start b)) (cmp_option odt_cmp (pi_end a) (pi_end b))).

(** Where the last merged pause and the next one end together. *)
Definition joined_end (x y : option OffsetDateTime) : option OffsetDateTime :=
  match x, y with Some a, Some b => Some (odt_max a b) | _, _ => None end.

Definition merge_pause (merged : list HabitPauseInterval) (pause : HabitPauseInterval) : list HabitPauseInterval :=
  match last merged with
  | None => [pause]
  | Some previous =>
      if match pi_end previous with Some end_ => odt_leb (pi_start pause) end_ | None => true end
      then removelast merged ++ [{| pi_start := pi_start previous; pi_end := joined_end (pi_end previous) (pi_end pause) |}]
      else merged ++ [pause]
  end.

Definition merged_pauses (pauses : list HabitPauseInterval) : list HabitPauseInterval :=
  foldl merge_pause [] (sort_by pause_leb pauses).

(** [range_start <= local_date <= effective_end && window_end <= as_of] *)
Definition is_due (input : HabitAnalyticsInput) (effective_end : Date) (o : HabitAnalyticsOccurrence) : bool :=
  (ai_range_start input <=? ao_local_date o)%Z && (ao_local_date o <=? effective_end)%Z && odt_leb (ao_window_end o) (ai_as_of input).

Definition analytics_cmp (a b : HabitAnalyticsOccurrence) : comparison :=
  then_with (odt_cmp (ao_window_start a) (ao_window_start b))
    (then_with (odt_cmp (ao_window_end a) (ao_window_end b)) (ao_occurrence_id a ?= ao_occurrence_id b)%N).

(** The pause ends at or before the window starts. *)
Definition pause_is_over (start : OffsetDateTime) (pause : HabitPauseInterval) : bool :=
  match pi_end pause with Some end_ => odt_leb end_ start | None => false end.

(** One turn of the sweep: the pauses from [pause_index] on, and the result. *)
Definition sweep (preserves : bool) (st : list HabitPauseInterval * gmap OccurrenceId HabitOccurrenceEligibility)
    (o : HabitAnalyticsOccurrence) : list HabitPauseInterval * gmap OccurrenceId HabitOccurrenceEligibility :=
  let pauses := drop_while (pause_is_over (ao_window_start o)) st.1 in
  let overlaps := match head pauses with Some pause => pause_overlaps pause (ao_window_start o) (ao_window_end o) | None => false end in
  (pauses, <[ao_occurrence_id o := eligibility_of overlaps preserves]> st.2).

Definition analytics_eligibilities (input : HabitAnalyticsInput) (effective_end : Date) : gmap OccurrenceId HabitOccurrenceEligibility :=
  (foldl (sweep (ai_preserves_statistics_when_paused input)) (merged_pauses (ai_pauses input), ∅)
     (sort_by (λ a b, is_le (analytics_cmp a b)) (filter (λ o, is_due input effective_end o = true) (ai_occurrences input)))).2.

(** ** Streaks *)

Definition streaks (dates : gmap Date bool) : result HabitAnalyticsError (N * N) :=
  foldM (λ '(current, longest) (entry : Date * bool),
    if entry.2 then
      let? current := ok_or (checked_add u32_max current 1) ArithmeticOverflow in
      Ok (current, N.max longest current)
    else Ok (0%N, longest)) (0%N, 0%N) (date_entries dates).

(** ** Facts *)

Definition fact (b : bool) (code : HabitSupportiveFactCode) (value : option N) : list HabitSupportiveFact :=
  if b then [{| sf_code := code; sf_value := value |}] else [].

(** The adherence of the last two buckets, when both have one. *)
Definition latest_pair (trend : list HabitTrendBucket) : option (N * N) :=
  match rev trend with
  | latest :: prior :: _ =>
      prior ← tb_adherence_basis_points prior; latest ← tb_adherence_basis_points latest; Some (prior, latest)
  | _ => None
  end.

Definition supportive_facts (counts : HabitAnalyticsCounts) (adherence : option N) (current_streak partial_progress_count : N)
    (trend : list HabitTrendBucket) : list HabitSupportiveFact :=
  fact (ac_due counts =? 0)%N NoDueOccurrences None ++
  fact (0 <? ac_protected_paused counts)%N PausedOccurrencesProtected (Some (ac_protected_paused counts)) ++
  fact (0 <? partial_progress_count)%N PartialProgressRecorded (Some partial_progress_count) ++
  fact (bool_decide (adherence = Some HABIT_BASIS_POINTS_SCALE)) FullAdherence None ++
  fact (0 <? current_streak)%N CurrentStreak (Some current_streak) ++
  fact (match latest_pair trend with Some (prior, latest) => (prior <? latest)%N | None => false end) ImprovingTrend None ++
  fact ((0 <? ac_eligible counts)%N && (current_streak =? 0)%N) NextOccurrenceOpportunity None.

(** ** Calendar buckets *)

Section analytics.
Context `{Platform, Civil}.

Definition calendar_bucket_start (date : Date) (granularity : HabitTrendGranularity) (week_starts_on : DayOfWeek)
    : result HabitAnalyticsError Date :=
  match granularity with
  | HabitTrendGranularity.Day => Ok date
  | HabitTrendGranularity.Week =>
      let offset := ((number_days_from_monday (date_weekday date) + 7 - weekday_index week_starts_on) mod 7)%Z in
      ok_or (date_checked_sub_days date offset) CalendarOverflow
  | HabitTrendGranularity.Month => ok_or (date_of_civil (date_year date) (date_month date) 1) CalendarOverflow
  end.

Definition next_bucket_start (start : Date) (granularity : HabitTrendGranularity) : result HabitAnalyticsError Date :=
  match granularity with
  | HabitTrendGranularity.Day => ok_or (date_next_day start) CalendarOverflow
  | HabitTrendGranularity.Week => ok_or (date_checked_add_days start 7) CalendarOverflow
  | HabitTrendGranularity.Month =>
      let december := (date_month start =? 12)%N in
      ok_or (date_of_civil (if december then date_year start + 1 else date_year start)%Z
               (if december then 1 else date_month start + 1)%N 1) CalendarOverflow
  end.

(** The loop of [empty_trend_buckets]: the cursor moves on by a day at least,
    so the days from the first bucket to the last are enough fuel. *)
Fixpoint fill_buckets (fuel : nat) (granularity : HabitTrendGranularity) (last cursor : Date) (buckets : gmap Date MutableTally)
    : result HabitAnalyticsError (gmap Date MutableTally) :=
  match fuel with
  | O => Ok buckets
  | S fuel' =>
      let buckets := <[cursor := empty_tally]> buckets in
      if (cursor =? last)%Z then Ok buckets
      else
        let? cursor := next_bucket_start cursor granularity in
        if (last <? cursor)%Z then Err CalendarOverflow
        else fill_buckets fuel' granularity last cursor buckets
  end.

Definition empty_trend_buckets (range_start range_end : Date) (granularity : HabitTrendGranularity) (week_starts_on : DayOfWeek)
    : result HabitAnalyticsError (gmap Date MutableTally) :=
  let? first := calendar_bucket_start range_start granularity week_starts_on in
  let? last := calendar_bucket_start range_end granularity week_starts_on in
  fill_buckets (S (Z.to_nat (last - first))) granularity last first ∅.

(** ** The projection *)

Definition check_analytics_occurrence (as_of : OffsetDateTime) (identities : gset OccurrenceId) (o : HabitAnalyticsOccurrence)
    : result HabitAnalyticsError (gset OccurrenceId) :=
  if is_nil (ao_occurrence_id o) then Err InvalidOccurrenceId
  else if bool_decide (ao_occurrence_id o ∈ identities) then Err (DuplicateOccurrence (ao_occurrence_id o))
  else
    let? _ := map_err Policy (validate_window (ao_window_start o) (ao_window_end o)) in
    let? _ := map_err InvalidOutcome (validate_value (ao_value o) as_of) in
    Ok ({[ao_occurrence_id o]} ∪ identities).

Definition validate_analytics_input (input : HabitAnalyticsInput) : result HabitAnalyticsError unit :=
  if (ai_range_end input <? ai_range_start input)%Z then Err InvalidRange
  else if (MAX_HABIT_ANALYTICS_RANGE_DAYS <? to_julian_day (ai_range_end input) - to_julian_day (ai_range_start input) + 1)%Z
  then Err RangeTooLarge
  else if (MAX_HABIT_ANALYTICS_OCCURRENCES <? N.of_nat (length (ai_occurrences input)))%N then Err TooManyOccurrences
  else if (MAX_HABIT_ANALYTICS_PAUSES <? N.of_nat (length (ai_pauses input)))%N then Err TooManyPauses
  else
    let? _ := map_err Policy (forM validate_pause (ai_pauses input)) in
    let? _ := foldM (check_analytics_occurrence (ai_as_of input)) ∅ (ai_occurrences input) in
    Ok tt.

(** The variables of the loop over the occurrences. *)
Record AnalyticsState : Type := {
  as_trend : gmap Date MutableTally;
  as_total : MutableTally;
  as_streak_dates : gmap Date bool
}.

Definition observe_occurrence (input : HabitAnalyticsInput) (effective_end : Date)
    (eligibilities : gmap OccurrenceId HabitOccurrenceEligibility) (st : AnalyticsState) (o : HabitAnalyticsOccurrence)
    : result HabitAnalyticsError AnalyticsState :=
  if negb (is_due input effective_end o) then Ok st
  else
    let? eligibility := ok_or (eligibilities !! ao_occurrence_id o) CalendarOverflow in
    let? total := observe (as_total st) (ao_value o) eligibility in
    let? bucket_start := calendar_bucket_start (ao_local_date o) (ai_trend_granularity input) (ai_week_starts_on input) in
    let? bucket := ok_or (as_trend st !! bucket_start) CalendarOverflow in
    let? bucket := observe bucket (ao_value o) eligibility in
    let successful := bool_decide (hv_outcome (ao_value o) = Completed) in
    Ok {| as_trend := <[bucket_start := bucket]> (as_trend st); as_total := total;
          as_streak_dates :=
            if bool_decide (eligibility = PausedProtected) then as_streak_dates st
            else <[ao_local_date o := default true (as_streak_dates st !! ao_local_date o) && successful]> (as_streak_dates st) |}.

Definition trend_bucket (entry : Date * MutableTally) : result HabitAnalyticsError HabitTrendBucket :=
  let? adherence := adherence_basis_points entry.2 in
  Ok {| tb_start_date := entry.1; tb_counts := mt_counts entry.2; tb_adherence_basis_points := adherence;
        tb_actual_seconds_total := mt_actual_seconds_total entry.2; tb_quantity_totals := quantity_totals entry.2 |}.

Definition trend_of (trend : gmap Date MutableTally) : result HabitAnalyticsError (list HabitTrendBucket) :=
  foldM (λ buckets entry, let? bucket := trend_bucket entry in Ok (buckets ++ [bucket])) [] (date_entries trend).

Definition effective_end (input : HabitAnalyticsInput) : Date := Z.min (ai_range_end input) (ai_as_of_local_date input).

Definition calculate_habit_analytics (input : HabitAnalyticsInput) : result HabitAnalyticsError HabitAnalytics :=
  let? _ := validate_analytics_input input in
  let? trend :=
    if (effective_end input <? ai_range_start input)%Z then Ok ∅
    else empty_trend_buckets (ai_range_start input) (effective_end input) (ai_trend_granularity input) (ai_week_starts_on input) in
  let? st := foldM (observe_occurrence input (effective_end input) (analytics_eligibilities input (effective_end input)))
    {| as_trend := trend; as_total := empty_tally; as_streak_dates := ∅ |} (ai_occurrences input) in
  let? (current_streak, longest_streak) := streaks (as_streak_dates st) in
  let? adherence := adherence_basis_points (as_total st) in
  let? buckets := trend_of (as_trend st) in
  Ok {| ha_counts := mt_counts (as_total st); ha_adherence_basis_points := adherence;
        ha_actual_seconds_total := mt_actual_seconds_total (as_total st); ha_quantity_totals := quantity_totals (as_total st);
        ha_current_streak := current_streak; ha_longest_streak := longest_streak; ha_trend_buckets := buckets;
        ha_supportive_facts := supportive_facts (mt_counts (as_total st)) adherence current_streak
          (mt_partial_progress_count (as_total st)) buckets |}.
End analytics.
