(* ===== verification/Adherence.v ===== *)
(** * Adherence: what the analytics of a habit count

    Theorems about HabitAnalytics.  The sweep over merged pauses gives every due
    occurrence the eligibility that [habit_occurrence_eligibility] defines for it
    alone; a tally is the count and the sum of the observed values, and within
    the bounds of a validated input it never overflows; the streaks are the
    longest and the last run of successful dates. *)
From S2P Require Import Prelude Text Platform Domain HabitRecord HabitPolicy Expansion HabitAnalytics.
Import HabitOutcome.

(** ** Merged pauses hold the same instants *)

Definition covers (p : HabitPauseInterval) (t : Z) : Prop :=
  (pi_start p <= t)%Z ∧ ∀ pause_end : OffsetDateTime, pi_end p = Some pause_end → (t < pause_end)%Z.

(** A valid pause meets a window when an instant is in both. *)
Lemma pauses_during_covers p (start end_ : OffsetDateTime) :
  valid_pause p → (start < end_)%Z → pauses_during p start end_ ↔ ∃ t, (start <= t < end_)%Z ∧ covers p t.
Proof.
  unfold valid_pause, pauses_during, covers. intros Hp Hw. split.
  - intros [Hs He]. exists (Z.max start (pi_start p)). split_and!; [lia..|]. intros e Hend.
    specialize (Hp e Hend). specialize (He e Hend). lia.
  - intros (t & Ht & Hs & He). split; [lia|]. intros e Hend. specialize (He e Hend). lia.
Qed.

Definition starts_in_order (l : list HabitPauseInterval) : Prop :=
  StronglySorted (λ a b, pi_start a <= pi_start b)%Z l.

Lemma sorted_snoc {A} (R : A → A → Prop) l x :
  StronglySorted R (l ++ [x]) ↔ StronglySorted R l ∧ Forall (λ y, R y x) l.
Proof.
  induction l as [|y l IH]; simpl.
  - split; [by repeat constructor|]. repeat constructor.
  - split.
    + intros [Hs Hf]%StronglySorted_inv. apply IH in Hs as [? ?]. apply Forall_app in Hf as [? [? _]%Forall_cons].
      split; constructor; done.
    + intros [[? ?]%StronglySorted_inv [? ?]%Forall_cons]. constructor; [by apply IH|]. apply Forall_app. repeat constructor; done.
Qed.

(** The merged list: valid pauses in order whose instants are those seen. *)
Record merged_ok (seen merged : list HabitPauseInterval) : Prop := {
  mo_valid : Forall valid_pause merged;
  mo_sorted : starts_in_order merged;
  mo_instants t : (∃ p, p ∈ merged ∧ covers p t) ↔ (∃ p, p ∈ seen ∧ covers p t);
  mo_start p : p ∈ merged → ∃ q, q ∈ seen ∧ pi_start q = pi_start p
}.

(** Two pauses that touch make one. *)
Definition touches (previous pause : HabitPauseInterval) : bool :=
  match pi_end previous with Some end_ => odt_leb (pi_start pause) end_ | None => true end.

Definition joined (previous pause : HabitPauseInterval) : HabitPauseInterval :=
  {| pi_start := pi_start previous; pi_end := joined_end (pi_end previous) (pi_end pause) |}.

Lemma joined_covers previous pause t :
  (pi_start previous <= pi_start pause)%Z → touches previous pause = true →
  covers (joined previous pause) t ↔ covers previous t ∨ covers pause t.
Proof.
  intros Hle Et. unfold touches, joined, covers, joined_end in *. simpl.
  destruct (pi_end previous) as [a|], (pi_end pause) as [b|]; simpl; unfold odt_leb in Et; bool_to_prop.
  - unfold odt_max. destruct (odt_ltb b a) eqn:Eab; unfold odt_ltb in Eab; bool_to_prop; split.
    + intros [? He]. specialize (He a eq_refl). left. split; [lia|]. intros ? [= <-]. lia.
    + intros [[? He]|[? He]]; [specialize (He a eq_refl)|specialize (He b eq_refl)]; (split; [lia|]; intros ? [= <-]; lia).
    + intros [? He]. specialize (He b eq_refl).
      destruct (Z.lt_ge_cases t (pi_start pause)); [left|right]; (split; [lia|]; intros ? [= <-]; lia).
    + intros [[? He]|[? He]]; [specialize (He a eq_refl)|specialize (He b eq_refl)]; (split; [lia|]; intros ? [= <-]; lia).
  - split; [intros [? _]|intros [[? _]|[? _]]; by split; [lia|]].
    destruct (Z.lt_ge_cases t (pi_start pause)); [left|right]; (split; [lia|]; intros ? [=]; subst; lia || done).
  - split; [intros [? _]; left; by split|intros [[? _]|[? _]]; by split; [lia|]].
  - split; [intros [? _]; left; by split|intros [[? _]|[? _]]; by split; [lia|]].
Qed.

Lemma joined_valid previous pause : valid_pause previous → valid_pause (joined previous pause).
Proof.
  unfold valid_pause, joined, joined_end. simpl. intros Hp e He.
  destruct (pi_end previous) as [a|], (pi_end pause) as [b|]; try done. injection He as <-.
  specialize (Hp a eq_refl). unfold odt_max. destruct (odt_ltb b a) eqn:Eab; unfold odt_ltb in Eab; bool_to_prop; lia.
Qed.

Lemma merged_ok_push seen merged pause :
  merged_ok seen merged → valid_pause pause → Forall (λ q, pi_start q <= pi_start pause)%Z merged →
  merged_ok (seen ++ [pause]) (merged ++ [pause]).
Proof.
  intros [Hv Hs Hi Hstart] Hp Hle. constructor.
  - apply Forall_app. by repeat constructor.
  - by apply sorted_snoc.
  - intros t. setoid_rewrite elem_of_app. specialize (Hi t). naive_solver.
  - intros p [Hin|Hin%list_elem_of_singleton]%elem_of_app.
    + destruct (Hstart p Hin) as (q & ? & ?). exists q. split; [apply elem_of_app; by left|done].
    + subst p. exists pause. split; [apply elem_of_app; right; left|done].
Qed.

Lemma merged_ok_join seen m previous pause :
  merged_ok seen (m ++ [previous]) → (pi_start previous <= pi_start pause)%Z → touches previous pause = true →
  merged_ok (seen ++ [pause]) (m ++ [joined previous pause]).
Proof.
  intros [[Hvm [Hvp _]%Forall_cons]%Forall_app [Hsm Hfm]%sorted_snoc Hi Hstart] Hle Ht.
  pose proof (λ t, joined_covers previous pause t Hle Ht) as Hj. constructor.
  - apply Forall_app. split; [done|]. constructor; [by apply joined_valid|done].
  - apply sorted_snoc. by split.
  - intros t. specialize (Hi t). specialize (Hj t). setoid_rewrite elem_of_app. setoid_rewrite elem_of_app in Hi.
    setoid_rewrite list_elem_of_singleton. setoid_rewrite list_elem_of_singleton in Hi. split.
    + intros (p & [Hin| ->] & Hc); [|apply Hj in Hc as [Hc|Hc]; [|by exists pause; auto]];
        (destruct (proj1 Hi) as (q & ? & ?); [eexists; split; [|exact Hc]; auto|exists q; auto]).
    + intros (p & [Hin| ->] & Hc); [|exists (joined previous pause); split; [by right|apply Hj; by right]].
      destruct (proj2 Hi) as (q & [Hq| ->] & Hqc); [by exists p|exists q; auto|].
      exists (joined previous pause). split; [by right|]. apply Hj. by left.
  - intros p [Hin|Hin%list_elem_of_singleton]%elem_of_app.
    + destruct (Hstart p) as (q & ? & ?); [apply elem_of_app; by left|]. exists q. split; [apply elem_of_app; by left|done].
    + subst p. destruct (Hstart previous) as (q & ? & ?); [apply elem_of_app; right; left|].
      exists q. split; [apply elem_of_app; by left|done].
Qed.

Lemma merge_pause_ok seen merged pause :
  merged_ok seen merged → valid_pause pause → Forall (λ q, pi_start q <= pi_start pause)%Z seen →
  merged_ok (seen ++ [pause]) (merge_pause merged pause).
Proof.
  intros Hok Hp Hle.
  assert (Forall (λ q, pi_start q <= pi_start pause)%Z merged) as Hml.
  { apply Forall_forall. intros q Hq. destruct (mo_start _ _ Hok q Hq) as (q' & Hq' & <-). rewrite Forall_forall in Hle. by apply Hle. }
  unfold merge_pause. destruct (last merged) as [previous|] eqn:El.
  - apply last_Some in El as (m & ->). rewrite removelast_last. fold (touches previous pause).
    destruct (touches previous pause) eqn:Et; [|by apply merged_ok_push].
    apply Forall_app in Hml as [_ [Hle' _]%Forall_cons]. by apply merged_ok_join.
  - apply last_None in El as ->. by apply (merged_ok_push seen []).
Qed.

Lemma merge_all_ok pauses seen merged :
  merged_ok seen merged → Forall valid_pause pauses → starts_in_order (seen ++ pauses) →
  merged_ok (seen ++ pauses) (foldl merge_pause merged pauses).
Proof.
  revert seen merged. induction pauses as [|pause pauses IH]; intros seen merged Hok Hv Hs; simpl; [by rewrite app_nil_r|].
  apply Forall_cons in Hv as [Hp Hv]. rewrite cons_middle, app_assoc in Hs |- *. apply IH; [|done|done].
  apply merge_pause_ok; [done..|]. apply StronglySorted_app in Hs as (_ & Hs & _). by apply sorted_snoc in Hs as [_ ?].
Qed.

Lemma lawful_pause : lawful (λ a b, then_with (odt_cmp (pi_start a) (pi_start b)) (cmp_option odt_cmp (pi_end a) (pi_end b))).
Proof.
  apply lawful_then; [apply lawful_odt|]. apply (lawful_contramap pi_end), lawful_cmp_option, (lawful_odt (λ t, t)).
Qed.

Lemma pause_leb_start a b : pause_leb a b = true → (pi_start a <= pi_start b)%Z.
Proof. unfold pause_leb, odt_cmp. destruct (Z.compare_spec (pi_start a) (pi_start b)); simpl; [lia|lia|done]. Qed.

Lemma StronglySorted_impl {A} (R R' : A → A → Prop) l : (∀ a b, R a b → R' a b) → StronglySorted R l → StronglySorted R' l.
Proof. intros HR. induction 1 as [|x l _ IH Hf]; constructor; [done|]. eapply Forall_impl; [exact Hf|]. auto. Qed.

Lemma merged_pauses_ok pauses : Forall valid_pause pauses → merged_ok pauses (merged_pauses pauses).
Proof.
  intros Hv. unfold merged_pauses. set (sorted := sort_by pause_leb pauses).
  assert (sorted ≡ₚ pauses) as Hperm by apply sort_by_perm.
  assert (merged_ok sorted (foldl merge_pause [] sorted)) as [? ? Hi Hstart].
  { apply (merge_all_ok sorted []).
    - constructor; [constructor|constructor| |by intros p ?%elem_of_nil]. intros t. split; intros (p & ?%elem_of_nil & _); done.
    - by rewrite Hperm.
    - apply (StronglySorted_impl (λ a b, pause_leb a b = true)); [apply pause_leb_start|]. apply sort_by_sorted.
      + intros a b. apply (lawful_leb_total _ a b lawful_pause).
      + intros a b c. apply (lawful_leb_trans _ a b c lawful_pause). }
  constructor; [done..| |].
  - intros t. rewrite Hi. setoid_rewrite Hperm. done.
  - intros p Hp. destruct (Hstart p Hp) as (q & Hq & ?). exists q. by rewrite <- Hperm.
Qed.

(** ** The sweep *)

Definition window_overlaps (pauses : list HabitPauseInterval) (o : HabitAnalyticsOccurrence) : bool :=
  existsb (λ p, pause_overlaps p (ao_window_start o) (ao_window_end o)) pauses.

Lemma drop_while_split {A} (f : A → bool) l :
  ∃ dropped, l = dropped ++ drop_while f l ∧ Forall (λ x, f x = true) dropped ∧
    ∀ x, head (drop_while f l) = Some x → f x = false.
Proof.
  induction l as [|x l IH]; simpl; [by exists []|]. destruct (f x) eqn:E.
  - destruct IH as (d & Hl & Hd & Hh). exists (x :: d). simpl. rewrite <- Hl. split_and!; [done|by constructor|done].
  - exists []. split_and!; [done|done|]. by intros ? [= <-].
Qed.

Lemma over_no_overlap p (start end_ : OffsetDateTime) : pause_is_over start p = true → pause_overlaps p start end_ = false.
Proof.
  unfold pause_is_over, pause_overlaps, odt_leb, odt_ltb. destruct (pi_end p) as [e|]; [|done]. intros He%Z.leb_le.
  rewrite (proj2 (Z.ltb_ge start e)) by lia. apply andb_false_r.
Qed.

Lemma over_later p (start start' : OffsetDateTime) :
  (start <= start')%Z → pause_is_over start p = true → pause_is_over start' p = true.
Proof. unfold pause_is_over, odt_leb. destruct (pi_end p); [|done]. rewrite !Z.leb_le. lia. Qed.

(** The first pause that is not over decides. *)
Lemma first_pause_decides l (start end_ : OffsetDateTime) :
  starts_in_order l → (∀ p, head l = Some p → pause_is_over start p = false) →
  existsb (λ p, pause_overlaps p start end_) l =
  match head l with Some p => pause_overlaps p start end_ | None => false end.
Proof.
  intros Hs Hh. destruct l as [|p l]; simpl; [done|]. specialize (Hh p eq_refl). apply StronglySorted_inv in Hs as [_ Hf].
  destruct (pause_overlaps p start end_) eqn:Ep; [done|]. simpl. apply not_true_is_false. intros (q & Hq & Ho)%existsb_exists.
  rewrite Forall_forall in Hf. specialize (Hf q (proj2 (list_elem_of_In _ _) Hq)).
  unfold pause_overlaps, pause_is_over, odt_ltb, odt_leb in *. apply andb_true_iff in Ho as [Ho%Z.ltb_lt _].
  apply andb_false_iff in Ep as [Ep%Z.ltb_ge|Ep]; [lia|]. destruct (pi_end p) as [e|]; [|done].
  apply Z.leb_gt in Hh. apply Z.ltb_ge in Ep. lia.
Qed.

Lemma sweep_reference preserves pauses occurrences dropped rest m :
  pauses = dropped ++ rest → starts_in_order pauses →
  StronglySorted (λ a b, ao_window_start a <= ao_window_start b)%Z occurrences →
  (∀ p o, p ∈ dropped → o ∈ occurrences → pause_is_over (ao_window_start o) p = true) →
  (foldl (sweep preserves) (rest, m) occurrences).2 =
  foldl (λ m o, <[ao_occurrence_id o := eligibility_of (window_overlaps pauses o) preserves]> m) m occurrences.
Proof.
  revert dropped rest m. induction occurrences as [|o occurrences IH]; intros dropped rest m Hp Hs Ho Hd; [done|].
  apply StronglySorted_inv in Ho as [Ho Hf]. rewrite Forall_forall in Hf. cbn [foldl].
  destruct (drop_while_split (pause_is_over (ao_window_start o)) rest) as (d & Hrest & Hover & Hhead).
  set (rest' := drop_while (pause_is_over (ao_window_start o)) rest) in *. rewrite Forall_forall in Hover.
  assert (starts_in_order rest') as Hs'.
  { rewrite Hp, Hrest, app_assoc in Hs. by apply StronglySorted_app in Hs as (_ & _ & ?). }
  assert (window_overlaps pauses o =
    match head rest' with Some p => pause_overlaps p (ao_window_start o) (ao_window_end o) | None => false end) as Hov.
  { unfold window_overlaps. rewrite Hp, Hrest, app_assoc, existsb_app, <- (first_pause_decides rest') by done.
    rewrite <- (orb_false_l (existsb _ rest')) at 2. f_equal. apply not_true_is_false. intros (p & Hin & Hpo)%existsb_exists.
    apply list_elem_of_In, elem_of_app in Hin. rewrite over_no_overlap in Hpo; [done|].
    destruct Hin as [Hin|Hin]; [apply Hd; [done|left]|by apply Hover]. }
  unfold sweep at 2. cbn [fst snd]. fold rest'. rewrite <- Hov. apply (IH (dropped ++ d)).
  - by rewrite <- app_assoc, <- Hrest.
  - done.
  - done.
  - intros p o' [Hin|Hin]%elem_of_app Ho'; [apply Hd; [done|by right]|].
    apply (over_later _ (ao_window_start o)); [by apply Hf|by apply Hover].
Qed.

Lemma insert_all_lookup {A V} (key : A → N) (value : A → V) l (m : gmap N V) x :
  NoDup (key <$> l) → x ∈ l → foldl (λ m a, <[key a := value a]> m) m l !! key x = Some (value x).
Proof.
  revert m. induction l as [|a l IH] using rev_ind; intros m Hnd Hx; [by apply elem_of_nil in Hx|].
  rewrite fmap_app in Hnd. apply NoDup_app in Hnd as (Hnd & Hdisj & _). rewrite foldl_app. simpl.
  apply elem_of_app in Hx as [Hx|Hx%list_elem_of_singleton]; [|by subst; rewrite lookup_insert_eq].
  rewrite lookup_insert_ne; [by apply IH|]. intros Heq. apply (Hdisj (key x)); [by apply list_elem_of_fmap_2|].
  rewrite <- Heq. left.
Qed.

Lemma lawful_analytics_cmp : lawful analytics_cmp.
Proof.
  unfold analytics_cmp. apply lawful_then; [apply lawful_odt|]. apply lawful_then; [apply lawful_odt|].
  apply (lawful_contramap ao_occurrence_id), lawful_N.
Qed.

Lemma analytics_cmp_start a b : is_le (analytics_cmp a b) = true → (ao_window_start a <= ao_window_start b)%Z.
Proof. unfold analytics_cmp, odt_cmp. destruct (Z.compare_spec (ao_window_start a) (ao_window_start b)); simpl; [lia|lia|done]. Qed.

Section eligibilities.
Context (input : HabitAnalyticsInput).
Hypothesis pauses_valid : Forall valid_pause (ai_pauses input).
Hypothesis distinct : NoDup (ao_occurrence_id <$> ai_occurrences input).
Hypothesis windows : ∀ o, o ∈ ai_occurrences input → (ao_window_start o < ao_window_end o)%Z.

Lemma merged_overlaps o :
  o ∈ ai_occurrences input → window_overlaps (merged_pauses (ai_pauses input)) o = window_overlaps (ai_pauses input) o.
Proof using pauses_valid windows.
  intros Ho%windows. destruct (merged_pauses_ok _ pauses_valid) as [Hv _ Hi _]. unfold window_overlaps.
  apply Bool.eq_iff_eq_true. rewrite !any_overlap. rewrite Forall_forall in Hv. pose proof pauses_valid as Hpv. rewrite Forall_forall in Hpv.
  split.
  - intros (p & Hp & (t & Ht & Hc)%pauses_during_covers); [|by apply Hv|done].
    destruct (proj1 (Hi t)) as (q & Hq & Hqc); [by exists p|]. exists q. split; [done|].
    apply pauses_during_covers; [by apply Hpv|done|by exists t].
  - intros (p & Hp & (t & Ht & Hc)%pauses_during_covers); [|by apply Hpv|done].
    destruct (proj2 (Hi t)) as (q & Hq & Hqc); [by exists p|]. exists q. split; [done|].
    apply pauses_during_covers; [by apply Hv|done|by exists t].
Qed.

(** The sweep computes what the definition says of each due occurrence. *)
Lemma eligibility_lookup last_date o :
  o ∈ ai_occurrences input → is_due input last_date o = true →
  analytics_eligibilities input last_date !! ao_occurrence_id o =
  Some (eligibility_of (window_overlaps (ai_pauses input) o) (ai_preserves_statistics_when_paused input)).
Proof using All.
  intros Ho Hdue. unfold analytics_eligibilities. set (due := sort_by _ _).
  assert (∀ x, x ∈ due ↔ is_due input last_date x = true ∧ x ∈ ai_occurrences input) as Hin
    by (intros x; unfold due; by rewrite elem_of_sort_by, list_elem_of_filter).
  rewrite (sweep_reference _ (merged_pauses (ai_pauses input)) due [] (merged_pauses (ai_pauses input)) ∅).
  - rewrite (insert_all_lookup ao_occurrence_id
      (λ o, eligibility_of (window_overlaps (merged_pauses (ai_pauses input)) o) (ai_preserves_statistics_when_paused input))).
    + by rewrite merged_overlaps.
    + unfold due. rewrite sort_by_perm. eapply sublist_NoDup; [exact distinct|]. apply fmap_sublist, sublist_filter.
    + by apply Hin.
  - done.
  - apply (merged_pauses_ok _ pauses_valid).
  - apply (StronglySorted_impl (λ a b, is_le (analytics_cmp a b) = true)); [apply analytics_cmp_start|]. apply sort_by_sorted.
    + intros a b. by apply lawful_leb_total, lawful_analytics_cmp.
    + intros a b c. by apply lawful_leb_trans, lawful_analytics_cmp.
  - intros p x Hp. by apply elem_of_nil in Hp.
Qed.
End eligibilities.

(** ** Sums *)

Definition sum_of {A} (f : A → N) (l : list A) : N := foldr (λ x n, (f x + n)%N) 0%N l.
Definition number {A} (f : A → bool) (l : list A) : N := sum_of (λ x, if f x then 1%N else 0%N) l.

Lemma sum_of_app {A} (f : A → N) l1 l2 : sum_of f (l1 ++ l2) = (sum_of f l1 + sum_of f l2)%N.
Proof. induction l1 as [|x l1 IH]; simpl; [done|]. rewrite IH. lia. Qed.

Lemma sum_of_snoc {A} (f : A → N) l x : sum_of f (l ++ [x]) = (sum_of f l + f x)%N.
Proof. rewrite sum_of_app. simpl. lia. Qed.

Lemma sum_of_le {A} (f : A → N) b l : Forall (λ x, (f x <= b)%N) l → (sum_of f l <= b * N.of_nat (length l))%N.
Proof. induction 1; simpl; lia. Qed.

Lemma sum_of_add {A} (f g : A → N) l : sum_of (λ x, f x + g x)%N l = (sum_of f l + sum_of g l)%N.
Proof. induction l as [|x l IH]; simpl; lia. Qed.

Lemma sum_of_ext {A} (f g : A → N) l : (∀ x, f x = g x) → sum_of f l = sum_of g l.
Proof. intros Hfg. induction l as [|x l IH]; simpl; [done|]. by rewrite Hfg, IH. Qed.

Lemma number_snoc {A} (f : A → bool) l x : number f (l ++ [x]) = (number f l + if f x then 1 else 0)%N.
Proof. unfold number. by rewrite sum_of_snoc. Qed.

Lemma number_le {A} (f : A → bool) l : (number f l <= N.of_nat (length l))%N.
Proof.
  assert (number f l <= 1 * N.of_nat (length l))%N; [|lia]. apply sum_of_le, Forall_forall. intros x _. destruct (f x); lia.
Qed.

(** ** What a tally holds *)

(** The observed values with the eligibility of their occurrences. *)
Abbreviation Observation := (HabitOccurrenceValue * HabitOccurrenceEligibility)%type.

Definition counts_for_adherence (x : Observation) : bool := negb (bool_decide (x.2 = PausedProtected)).

Definition has_outcome (outcome : HabitOccurrenceOutcome) (x : Observation) : bool :=
  counts_for_adherence x && bool_decide (hv_outcome x.1 = outcome).

Definition is_skipped (x : Observation) : bool :=
  counts_for_adherence x && match hv_outcome x.1 with Skipped _ => true | _ => false end.

Definition reference_counts (l : list Observation) : HabitAnalyticsCounts :=
  {| ac_due := N.of_nat (length l);
     ac_eligible := number counts_for_adherence l;
     ac_paused := number (λ x, negb (bool_decide (x.2 = Eligible))) l;
     ac_protected_paused := number (λ x, bool_decide (x.2 = PausedProtected)) l;
     ac_completed := number (has_outcome Completed) l;
     ac_partial := number (has_outcome Partial) l;
     ac_skipped := number is_skipped l;
     ac_pending := number (has_outcome Pending) l;
     ac_missed_policy_skips := number (has_outcome (Skipped HabitSkipReason.MissedPolicy)) l |}.

Definition progress_sum (l : list Observation) : N :=
  sum_of (λ x, if counts_for_adherence x then hv_progress_basis_points x.1 else 0%N) l.

Definition seconds_sum (l : list Observation) : N := sum_of (λ x, default 0%N (hv_actual_seconds x.1)) l.

(** The recorded amounts of one unit, and their sum when there is one. *)
Definition amounts (unit_ : string) (l : list Observation) : list Z :=
  omap (λ x, q ← hv_quantity x.1; if bool_decide (hq_unit q = unit_) then Some (hq_amount q) else None) l.

Definition sum_Z (l : list Z) : Z := foldr Z.add 0%Z l.

Definition quantity_sum (unit_ : string) (l : list Observation) : option Z :=
  if bool_decide (amounts unit_ l = []) then None else Some (sum_Z (amounts unit_ l)).

Record tallies (l : list Observation) (t : MutableTally) : Prop := {
  ta_counts : mt_counts t = reference_counts l;
  ta_progress : mt_adherence_sum t = progress_sum l;
  ta_seconds : mt_actual_seconds_total t = seconds_sum l;
  ta_quantities unit_ : mt_quantity_totals t !! unit_ = quantity_sum unit_ l;
  ta_partial : mt_partial_progress_count t = number (λ x, counts_for_adherence x && is_partial_progress x.1) l
}.

(** The bounds of a validated value. *)
Record bounded_value (v : HabitOccurrenceValue) : Prop := {
  bv_progress : (hv_progress_basis_points v <= 10000)%N;
  bv_seconds : (default 0%N (hv_actual_seconds v) <= MAX_HABIT_ACTUAL_SECONDS)%N;
  bv_amount q : hv_quantity v = Some q → (Z.abs (hq_amount q) <= MAX_HABIT_QUANTITY)%Z
}.

Lemma valid_bounded v t : valid_value v t → bounded_value v.
Proof.
  intros [Hq Hs _ [Ho _]]. constructor.
  - destruct (hv_outcome v); [rewrite Ho; simpl|..]; lia.
  - destruct (hv_actual_seconds v) as [s|]; [by apply Hs|done].
  - intros q Hv. apply (Hq q Hv).
Qed.

Lemma sum_Z_snoc l x : sum_Z (l ++ [x]) = (sum_Z l + x)%Z.
Proof. induction l as [|y l IH]; simpl; lia. Qed.

Lemma amounts_bound unit_ l :
  Forall (λ x, bounded_value x.1) l → (Z.abs (sum_Z (amounts unit_ l)) <= MAX_HABIT_QUANTITY * Z.of_nat (length l))%Z.
Proof.
  unfold MAX_HABIT_QUANTITY. induction 1 as [|x l Hx Hl IH]; simpl; [lia|]. unfold amounts in *. simpl.
  destruct (hv_quantity x.1) as [q|] eqn:Eq; simpl; [|lia]. case_bool_decide; simpl; [|lia].
  pose proof (bv_amount _ Hx q Eq) as Hq. unfold MAX_HABIT_QUANTITY in Hq. lia.
Qed.

Lemma amounts_snoc unit_ l x :
  amounts unit_ (l ++ [x]) = amounts unit_ l ++
    match hv_quantity x.1 with Some q => if bool_decide (hq_unit q = unit_) then [hq_amount q] else [] | None => [] end.
Proof. unfold amounts. rewrite omap_app. simpl. f_equal. destruct (hv_quantity x.1) as [q|]; simpl; [|done]. by case_bool_decide. Qed.

Lemma empty_tallies : tallies [] empty_tally.
Proof. by constructor. Qed.

(** One million occurrences stay far below every bound. *)
Abbreviation below_limit l := (N.of_nat (length l) < MAX_HABIT_ANALYTICS_OCCURRENCES)%N.

Lemma increment_number {A} (f : A → bool) l :
  below_limit l → increment (number f l) = Ok (number f l + 1)%N.
Proof.
  intros Hl. pose proof (number_le f l). unfold increment. apply ok_or_ok, checked_add_Some. unfold MAX_HABIT_ANALYTICS_OCCURRENCES, u32_max in *. split; lia.
Qed.

Lemma increment_if_number {A} (f : A → bool) l x b :
  below_limit l → f x = b → increment_if b (number f l) = Ok (number f (l ++ [x])).
Proof. intros Hl <-. rewrite number_snoc. unfold increment_if. destruct (f x); [by apply increment_number|by rewrite N.add_0_r]. Qed.

Lemma add_quantity_ok l t x :
  tallies l t → below_limit l → Forall (λ x, bounded_value x.1) (l ++ [x]) →
  ∃ m, add_quantity (mt_quantity_totals t) (hv_quantity x.1) = Ok m ∧ ∀ unit_, m !! unit_ = quantity_sum unit_ (l ++ [x]).
Proof.
  intros Ht Hl [Hb [Hx _]%Forall_cons]%Forall_app. unfold add_quantity.
  destruct (hv_quantity x.1) as [q|] eqn:Eq.
  - assert (default 0%Z (mt_quantity_totals t !! hq_unit q) = sum_Z (amounts (hq_unit q) l)) as ->.
    { rewrite (ta_quantities _ _ Ht). unfold quantity_sum. case_bool_decide as E; [by rewrite E|done]. }
    pose proof (amounts_bound (hq_unit q) l Hb). pose proof (bv_amount _ Hx q Eq).
    unfold i64_add. rewrite !(proj2 (Z.leb_le _ _)) by (unfold i64_min_z, i64_max_z, MAX_HABIT_QUANTITY, MAX_HABIT_ANALYTICS_OCCURRENCES in *; lia).
    simpl. eexists. split; [done|]. intros u. unfold quantity_sum. rewrite amounts_snoc, Eq.
    destruct (decide (hq_unit q = u)) as [<-|Hne].
    + rewrite lookup_insert_eq, (bool_decide_eq_true_2 (hq_unit q = hq_unit q)) by done.
      cbn match.
      rewrite bool_decide_eq_false_2 by (by intros [_ ?]%app_nil). by rewrite sum_Z_snoc.
    + rewrite lookup_insert_ne, (bool_decide_eq_false_2 (hq_unit q = u)) by done.
      rewrite (app_nil_r (amounts u l)). apply (ta_quantities _ _ Ht).
  - eexists. split; [done|]. intros u. unfold quantity_sum. rewrite amounts_snoc, Eq, (app_nil_r (amounts u l)). apply (ta_quantities _ _ Ht).
Qed.

Lemma number_true {A} (f : A → bool) l x : f x = true → number f (l ++ [x]) = (number f l + 1)%N.
Proof. intros Hf. by rewrite number_snoc, Hf. Qed.

Lemma number_false {A} (f : A → bool) l x : f x = false → number f (l ++ [x]) = number f l.
Proof. intros Hf. by rewrite number_snoc, Hf, N.add_0_r. Qed.

Lemma seconds_step l t x :
  tallies l t → below_limit l → Forall (λ x, bounded_value x.1) l → bounded_value x.1 →
  ok_or (checked_add u64_max (mt_actual_seconds_total t) (default 0%N (hv_actual_seconds x.1))) HabitAnalyticsError.ArithmeticOverflow =
  Ok (seconds_sum (l ++ [x])).
Proof.
  intros Ht Hl Hb Hx. apply ok_or_ok, checked_add_Some. unfold seconds_sum. rewrite sum_of_snoc, (ta_seconds _ _ Ht). split; [done|].
  assert (seconds_sum l <= MAX_HABIT_ACTUAL_SECONDS * N.of_nat (length l))%N as Hle.
  { apply sum_of_le. eapply Forall_impl; [exact Hb|]. intros y []. done. }
  pose proof (bv_seconds _ Hx). unfold MAX_HABIT_ANALYTICS_OCCURRENCES, MAX_HABIT_ACTUAL_SECONDS, u64_max, seconds_sum in *. lia.
Qed.

Lemma progress_step l t x :
  tallies l t → below_limit l → Forall (λ x, bounded_value x.1) l → bounded_value x.1 → counts_for_adherence x = true →
  ok_or (checked_add u64_max (mt_adherence_sum t) (hv_progress_basis_points x.1)) HabitAnalyticsError.ArithmeticOverflow =
  Ok (progress_sum (l ++ [x])).
Proof.
  intros Ht Hl Hb Hx Hyes. apply ok_or_ok, checked_add_Some. unfold progress_sum. rewrite sum_of_snoc, Hyes, (ta_progress _ _ Ht). split; [done|].
  assert (progress_sum l <= 10000 * N.of_nat (length l))%N as Hle.
  { apply sum_of_le. eapply Forall_impl; [exact Hb|]. intros y []. destruct (counts_for_adherence y); lia. }
  pose proof (bv_progress _ Hx). unfold MAX_HABIT_ANALYTICS_OCCURRENCES, u64_max, progress_sum in *. lia.
Qed.

(** Within the limit an observation never overflows, and is tallied. *)
Lemma observe_ok l t v e :
  tallies l t → below_limit l → Forall (λ x, bounded_value x.1) (l ++ [(v, e)]) →
  ∃ t', observe t v e = Ok t' ∧ tallies (l ++ [(v, e)]) t'.
Proof.
  intros Ht Hl Hb. destruct (add_quantity_ok l t (v, e) Ht Hl Hb) as (quantities & Hquant & Hq).
  apply Forall_app in Hb as [Hb [Hx _]%Forall_cons]. pose proof Ht as [Hc Hp _ _ Hpp]. cbn [fst] in *.
  unfold observe. rewrite Hc, Hquant. cbn [reference_counts ac_due ac_paused ac_protected_paused ac_eligible].
  assert (increment (N.of_nat (length l)) = Ok (N.of_nat (length (l ++ [(v, e)])))) as ->.
  { rewrite length_app. apply ok_or_ok, checked_add_Some. unfold MAX_HABIT_ANALYTICS_OCCURRENCES, u32_max in *. simpl. split; lia. }
  pose proof (seconds_step l t (v, e) Ht Hl Hb Hx) as Hsec. cbn [fst] in Hsec. rewrite Hsec. clear Hsec.
  cbn [rbind].
  rewrite (increment_if_number _ l (v, e) (negb (bool_decide (e = Eligible))) Hl eq_refl). cbn [rbind].
  case_bool_decide as Hpro.
  - assert (counts_for_adherence (v, e) = false) as Hno by (unfold counts_for_adherence; simpl; by rewrite bool_decide_eq_true_2).
    rewrite increment_number by done. cbn [rbind]. eexists. split; [done|]. constructor; cbn [mt_counts mt_adherence_sum mt_actual_seconds_total mt_quantity_totals mt_partial_progress_count]; [| |done|done|].
    + unfold reference_counts, with_protected. f_equal; symmetry; try (apply number_false; unfold has_outcome, is_skipped; by rewrite Hno).
      apply number_true. simpl. by apply bool_decide_eq_true_2.
    + by rewrite Hp; unfold progress_sum; rewrite sum_of_snoc, Hno, N.add_0_r.
    + by rewrite Hpp, number_false by (by rewrite Hno).
  - assert (counts_for_adherence (v, e) = true) as Hyes by (unfold counts_for_adherence; simpl; by rewrite bool_decide_eq_false_2).
    rewrite increment_number by done. cbn [rbind]. unfold count_outcome. cbn [reference_counts ac_pending ac_partial ac_completed ac_skipped ac_missed_policy_skips].
    rewrite !(increment_if_number _ l (v, e)) by (try done; unfold has_outcome, is_skipped; by rewrite Hyes). cbn [rbind].
    rewrite Hpp, (increment_if_number _ l (v, e)) by (try done; by rewrite Hyes). cbn [rbind].
    pose proof (progress_step l t (v, e) Ht Hl Hb Hx Hyes) as Hsum. cbn [fst] in Hsum. rewrite Hsum. clear Hsum.
    cbn [rbind]. eexists. split; [done|].
    constructor; cbn [mt_counts mt_adherence_sum mt_actual_seconds_total mt_quantity_totals mt_partial_progress_count]; [|done..].
    unfold reference_counts. f_equal; symmetry.
    + by apply number_true.
    + apply number_false. simpl. by apply bool_decide_eq_false_2.
Qed.

(** ** The mean *)

(** Progress per counted occurrence, rounded to the nearest basis point, half
    upward: between [2 m - 1] and [2 m + 1] halves. *)
Definition is_mean (sum count mean : N) : Prop :=
  (2 * mean * count <= 2 * sum + count ∧ 2 * sum < (2 * mean + 1) * count)%N.

Lemma progress_bound l :
  Forall (λ x, bounded_value x.1) l → (progress_sum l <= 10000 * number counts_for_adherence l)%N.
Proof.
  induction 1 as [|x l Hx Hl IH]; simpl; [done|]. unfold progress_sum, number in *. simpl. pose proof (bv_progress _ Hx).
  destruct (counts_for_adherence x); lia.
Qed.

Lemma adherence_ok l t :
  tallies l t → (N.of_nat (length l) <= MAX_HABIT_ANALYTICS_OCCURRENCES)%N → Forall (λ x, bounded_value x.1) l →
  (number counts_for_adherence l = 0%N ∧ adherence_basis_points t = Ok None) ∨
  (∃ mean, adherence_basis_points t = Ok (Some mean) ∧ (mean <= 10000)%N ∧
     is_mean (progress_sum l) (number counts_for_adherence l) mean ∧ number counts_for_adherence l ≠ 0%N).
Proof.
  intros [Hc Hp _ _ _] Hl Hb. unfold adherence_basis_points. rewrite Hc, Hp. cbn [reference_counts ac_eligible].
  pose proof (progress_bound l Hb) as Hle. pose proof (number_le counts_for_adherence l) as Hn.
  set (n := number counts_for_adherence l) in *. set (s := progress_sum l) in *. clearbody n s.
  destruct (N.eqb_spec n 0) as [->|Hne]; [by left|]. right. unfold MAX_HABIT_ANALYTICS_OCCURRENCES in Hl.
  assert (checked_add u64_max s (n / 2) = Some (s + n / 2)%N) as ->.
  { apply checked_add_Some. split; [done|]. pose proof (N.Div0.div_le_mono n (n * 2) 2). rewrite N.div_mul in * by done. unfold u64_max. lia. }
  cbn [ok_or rbind]. pose proof (N.div_mod n 2 ltac:(done)) as Hhalf. pose proof (N.mod_lt n 2 ltac:(done)).
  pose proof (N.div_mod (s + n / 2) n Hne) as Hdiv. pose proof (N.mod_lt (s + n / 2) n Hne) as Hmod.
  set (h := (n / 2)%N) in *. set (m := ((s + h) / n)%N) in *. set (r := ((s + h) mod n)%N) in *. set (b := (n mod 2)%N) in *.
  clearbody h m r b. assert (m <= 10000)%N as Hm by nia.
  rewrite (proj2 (N.leb_le _ _)) by (unfold u16_max; lia). exists m. split_and!; [done|done| |done]. unfold is_mean. split; nia.
Qed.

(** ** Streaks *)

(** The last run of successes, and the longest. *)
Record runs (l : list bool) (current longest : N) : Prop := {
  ru_current : ∃ p, l = p ++ replicate (N.to_nat current) true ∧ last p ≠ Some true;
  ru_longest : ∃ p q, l = p ++ replicate (N.to_nat longest) true ++ q;
  ru_max p n q : l = p ++ replicate n true ++ q → n <= N.to_nat longest
}.

Lemma runs_bound l current longest : runs l current longest → (current <= longest)%N ∧ N.to_nat current <= length l.
Proof.
  intros [(p & -> & _) _ Hmax]. split; [|rewrite length_app, length_replicate; lia].
  specialize (Hmax p (N.to_nat current) []). rewrite app_nil_r in Hmax. specialize (Hmax eq_refl). lia.
Qed.

Lemma replicate_snoc {A} n (x : A) : replicate (S n) x = replicate n x ++ [x].
Proof. replace (S n) with (n + 1) by lia. by rewrite replicate_add. Qed.

(** A run of the longer list is in the list, or it is at the end. *)
Lemma run_snoc l b p n q :
  l ++ [b] = p ++ replicate n true ++ q →
  (∃ q', l = p ++ replicate n true ++ q') ∨ (q = [] ∧ (n = 0 ∨ ∃ n', n = S n' ∧ b = true ∧ l = p ++ replicate n' true)).
Proof.
  destruct q as [|y q] using rev_ind; intros Heq.
  - right. split; [done|]. rewrite app_nil_r in Heq. destruct n as [|n]; [by left|]. right. exists n.
    rewrite replicate_snoc, app_assoc in Heq. apply app_inj_tail in Heq as [-> ->]. done.
  - left. rewrite !app_assoc in Heq. apply app_inj_tail in Heq as [-> _]. exists q. by rewrite app_assoc.
Qed.

Lemma suffix_run_le p n p' n' :
  p ++ replicate n true = p' ++ replicate n' true → last p ≠ Some true → n' <= n.
Proof.
  revert n'. induction n as [|n IH]; intros n' Heq Hp.
  - destruct n' as [|n']; [lia|]. exfalso. simpl in Heq. rewrite app_nil_r in Heq.
    change (true :: replicate n' true) with (replicate (S n') true) in Heq.
    rewrite Heq, replicate_snoc, app_assoc, last_snoc in Hp. done.
  - destruct n' as [|n']; [lia|]. rewrite !replicate_snoc, !app_assoc in Heq. apply app_inj_tail in Heq as [Heq _].
    apply le_n_S. by apply (IH n').
Qed.

Lemma runs_step l current longest b :
  runs l current longest →
  runs (l ++ [b]) (if b then current + 1 else 0)%N (if b then N.max longest (current + 1) else longest)%N.
Proof.
  intros Hr. pose proof (runs_bound _ _ _ Hr) as [Hle _]. destruct Hr as [(p & Hl & Hp) (p' & q' & Hl') Hmax]. destruct b.
  - assert (N.to_nat (current + 1) = S (N.to_nat current)) as Hn by lia.
    assert (l ++ [true] = p ++ replicate (N.to_nat (current + 1)) true) as Hl1 by (by rewrite Hn, replicate_snoc, app_assoc, <- Hl).
    constructor.
    + by exists p.
    + destruct (N.max_spec longest (current + 1)) as [[_ ->]|[_ ->]].
      * exists p, []. by rewrite app_nil_r.
      * exists p', (q' ++ [true]). by rewrite Hl', <- !app_assoc.
    + intros p1 n q1 [(q2 & Hq2)|(-> & [->|(n' & -> & _ & Hn')])]%run_snoc; [apply Hmax in Hq2; lia|lia|].
      rewrite Hl in Hn'. apply suffix_run_le in Hn'; [lia|done].
  - constructor.
    + exists (l ++ [false]). simpl. rewrite app_nil_r, last_snoc. done.
    + exists p', (q' ++ [false]). by rewrite Hl', <- !app_assoc.
    + intros p1 n q1 [(q2 & Hq2)|(-> & [->|(n' & _ & ? & _)])]%run_snoc; [by apply Hmax in Hq2|lia|done].
Qed.

Lemma streaks_ok (dates : gmap Date bool) :
  (N.of_nat (size dates) < u32_max)%N →
  ∃ current longest, streaks dates = Ok (current, longest) ∧ runs (snd <$> date_entries dates) current longest.
Proof.
  intros Hsize. unfold streaks. set (entries := date_entries dates).
  assert (length entries = size dates) as Hlen by (unfold entries, date_entries; by rewrite length_sort_by, length_map_to_list).
  rewrite <- Hlen in Hsize. clearbody entries. clear Hlen. induction entries as [|entry entries IH] using rev_ind.
  - exists 0%N, 0%N. split; [done|]. constructor; simpl; [by exists []|by exists [], []|].
    intros p n q Heq. symmetry in Heq. apply app_nil in Heq as [_ [Heq _]%app_nil]. by destruct n.
  - rewrite length_app in Hsize. simpl in Hsize. destruct IH as (current & longest & Hf & Hr); [lia|].
    pose proof (runs_bound _ _ _ Hr) as [_ Hc]. rewrite length_fmap in Hc. apply (runs_step _ _ _ entry.2) in Hr.
    rewrite foldM_app, Hf, fmap_app. cbn [rbind foldM fmap list_fmap]. destruct entry as [d []]; cbn [snd rbind] in *.
    + rewrite (proj2 (checked_add_Some u32_max current 1 (current + 1)%N)) by (split; [done|lia]). cbn [ok_or rbind]. by do 2 eexists.
    + by do 2 eexists.
Qed.
