(* ===== verification/Trends.v ===== *)
(** * Trends: the buckets of a habit's trend

    Lemmas about HabitAnalytics.  Days, weeks and months cut the calendar into
    buckets: [calendar_bucket_start] finds the first date of the bucket of a
    date, [next_bucket_start] the first date after it, and the loop of
    [empty_trend_buckets] ends with the buckets of the dates of a range. *)
From S2P Require Import Prelude Text Platform Civil Domain HabitRecord HabitPolicy Expansion Rrule Moves HabitAnalytics Adherence.
Import HabitOutcome HabitAnalyticsError.

#[local] Ltac Zify.zify_post_hook ::= Z.to_euclidean_division_equations.

(** ** Months *)

Section months.
Context `{CivilLaws}.

(** Months in order *)
Definition month_number (y : Z) (m : N) : Z := (12 * y + Z.of_N m - 1)%Z.

Lemma month_first_days y m t :
  date_of_civil y m 1 = Some t → ∀ k : nat, (N.of_nat k < month_length m y)%N →
  date_of_civil y m (1 + N.of_nat k) = Some (t + Z.of_nat k)%Z.
Proof.
  intros Ht. pose proof (date_of_range _ _ _ _ Ht) as (Hy & Hm & _). induction k as [|k IH]; intros Hk.
  - change (1 + N.of_nat 0)%N with 1%N. rewrite Ht. f_equal. lia.
  - specialize (IH ltac:(lia)). destruct (proj2 (date_of_civil_iff y m (1 + N.of_nat (S k)))) as (t' & Ht'); [lia|].
    rewrite Ht'. replace (1 + N.of_nat (S k))%N with (1 + N.of_nat k + 1)%N in Ht' by lia.
    rewrite (date_of_civil_next _ _ _ _ _ IH Ht'). f_equal. lia.
Qed.

Lemma month_last_day y m t :
  date_of_civil y m 1 = Some t → date_of_civil y m (month_length m y) = Some (t + Z.of_N (month_length m y) - 1)%Z.
Proof.
  intros Ht. pose proof (month_length_range m y). set (n := month_length m y) in *.
  pose proof (month_first_days y m t Ht (N.to_nat (n - 1)) ltac:(lia)) as Hd.
  replace (1 + N.of_nat (N.to_nat (n - 1)))%N with n in Hd by lia. rewrite Hd. f_equal. lia.
Qed.

(** The month of a date: its first day, and every day of it. *)
Lemma month_of_date d :
  (date_min <= d <= date_max)%Z →
  ∃ t, date_of_civil (date_year d) (date_month d) 1 = Some t ∧
       (t <= d < t + Z.of_N (month_length (date_month d) (date_year d)))%Z.
Proof.
  intros Hd. pose proof (date_of_civil_of d Hd) as Hdate. fold (date_year d) (date_month d) (date_day d) in Hdate.
  set (y := date_year d) in *. set (m := date_month d) in *. set (k := date_day d) in *. clearbody y m k.
  destruct (proj1 (date_of_civil_iff y m k)) as (Hy & Hm & Hk); [by exists d|].
  destruct (proj2 (date_of_civil_iff y m 1)) as (t & Ht); [lia|]. exists t. split; [done|].
  pose proof (month_first_days y m t Ht (N.to_nat (k - 1)) ltac:(lia)) as Hd'.
  replace (1 + N.of_nat (N.to_nat (k - 1)))%N with k in Hd' by lia. rewrite Hdate in Hd'. injection Hd' as Hd'. lia.
Qed.

Lemma days_of_month y m t d :
  date_of_civil y m 1 = Some t → (t <= d < t + Z.of_N (month_length m y))%Z → date_year d = y ∧ date_month d = m.
Proof.
  intros Ht Hd. pose proof (month_first_days y m t Ht (Z.to_nat (d - t)) ltac:(lia)) as Hdate.
  replace (t + Z.of_nat (Z.to_nat (d - t)))%Z with d in Hdate by lia.
  unfold date_year, date_month. by rewrite (civil_of_exact _ _ _ _ Hdate).
Qed.

Lemma next_month_start y m t t' :
  date_of_civil y m 1 = Some t →
  date_of_civil (if (m =? 12)%N then y + 1 else y)%Z (if (m =? 12)%N then 1 else m + 1)%N 1 = Some t' →
  t' = (t + Z.of_N (month_length m y))%Z.
Proof. intros Ht%month_last_day Ht'. pose proof (next_month _ _ _ _ Ht Ht'). lia. Qed.

(** Later months start later. *)
Lemma months_in_order k : ∀ y m t y' m' t',
  date_of_civil y m 1 = Some t → date_of_civil y' m' 1 = Some t' →
  month_number y' m' = (month_number y m + Z.of_nat k)%Z → (t + 28 * Z.of_nat k <= t')%Z.
Proof.
  unfold month_number. induction k as [|k IH]; intros y m t y' m' t' Ht Ht' Hi;
    pose proof (date_of_range _ _ _ _ Ht) as (Hy & Hm & _); pose proof (date_of_range _ _ _ _ Ht') as (Hy' & Hm' & _).
  - assert (y' = y ∧ m' = m) as [-> ->] by lia. rewrite Ht in Ht'. injection Ht' as ->. lia.
  - destruct (proj2 (date_of_civil_iff (if (m =? 12)%N then y + 1 else y)%Z (if (m =? 12)%N then 1 else m + 1)%N 1)) as (t1 & Ht1).
    { pose proof (month_length_range (if (m =? 12)%N then 1 else m + 1)%N (if (m =? 12)%N then y + 1 else y)%Z).
      destruct (N.eqb_spec m 12); lia. }
    specialize (IH _ _ _ _ _ _ Ht1 Ht' ltac:(destruct (N.eqb_spec m 12); lia)). pose proof (next_month_start _ _ _ _ Ht Ht1).
    pose proof (month_length_range m y). lia.
Qed.

Lemma month_order y m t y' m' t' :
  date_of_civil y m 1 = Some t → date_of_civil y' m' 1 = Some t' → (t < t')%Z → (month_number y m < month_number y' m')%Z.
Proof.
  intros Ht Ht' Hlt. destruct (Z.lt_ge_cases (month_number y m) (month_number y' m')) as [|Hge]; [done|].
  pose proof (months_in_order (Z.to_nat (month_number y m - month_number y' m')) _ _ _ _ _ _ Ht' Ht ltac:(lia)). lia.
Qed.

(** ** The bucket of a date *)

Context (granularity : HabitTrendGranularity) (week_starts_on : DayOfWeek).

Abbreviation bucket d := (calendar_bucket_start d granularity week_starts_on).
Abbreviation next s := (next_bucket_start s granularity).

Lemma sub_days_ok d n t : ok_or (date_checked_sub_days d n) CalendarOverflow = Ok t → t = (d - n)%Z ∧ (date_min <= t <= date_max)%Z.
Proof.
  rewrite sub_days_exact. intros Ht. destruct (date_checked_add_days d (- n)) as [t'|] eqn:E; [|done]. injection Ht as ->.
  apply add_days_exact in E as []. split; [lia|done].
Qed.

(** The starts and the bucket lengths *)
Definition is_start (s : Date) : Prop := bucket s = Ok s.

#[local] Instance is_start_dec s : Decision (is_start s).
Proof.
  unfold is_start. destruct (bucket s) as [s'|e]; [|by right]. destruct (decide (s' = s)) as [->|Hne]; [by left|right; congruence].
Defined.

(** A bucket is the interval from its start to the next: the start is the
    greatest start up to a date, and the dates of a bucket share it. *)
Lemma bucket_spec d s :
  (date_min <= d <= date_max)%Z → bucket d = Ok s →
  (s <= d)%Z ∧ is_start s ∧ ∀ d', (s <= d' <= d)%Z → (date_min <= d')%Z → bucket d' = Ok s.
Proof.
  intros Hd. unfold is_start, calendar_bucket_start. destruct granularity.
  - intros [= <-]. split_and!; [lia|done|]. intros d' ? _. f_equal. lia.
  - pose proof (weekday_index_range week_starts_on) as Hw. rewrite date_weekday_exact.
    intros [-> Hs]%sub_days_ok.
    assert (∀ d', (d - ((d + 3) mod 7 + 7 - weekday_index week_starts_on) mod 7 <= d' <= d)%Z →
      ok_or (date_checked_sub_days d' ((number_days_from_monday (date_weekday d') + 7 - weekday_index week_starts_on) mod 7)) CalendarOverflow =
      Ok (d - ((d + 3) mod 7 + 7 - weekday_index week_starts_on) mod 7)%Z) as Hall.
    { intros d' Hd'. rewrite date_weekday_exact, sub_days_exact.
      assert (d' - ((d' + 3) mod 7 + 7 - weekday_index week_starts_on) mod 7 =
              d - ((d + 3) mod 7 + 7 - weekday_index week_starts_on) mod 7)%Z as Heq by lia.
      destruct (add_days_in_range d' (- (((d' + 3) mod 7 + 7 - weekday_index week_starts_on) mod 7))) as (t & Ht); [lia|].
      rewrite Ht. apply add_days_exact in Ht as [-> _]. simpl. f_equal. lia. }
    split_and!; [lia|apply Hall; lia|]. intros d' Hd' _. by apply Hall.
  - destruct (month_of_date d Hd) as (t & Ht & Hin). rewrite Ht. intros [= <-].
    assert (∀ d', (t <= d' <= d)%Z → ok_or (date_of_civil (date_year d') (date_month d') 1) CalendarOverflow = Ok t) as Hall.
    { intros d' Hd'. destruct (days_of_month _ _ _ d' Ht ltac:(lia)) as [-> ->]. by rewrite Ht. }
    split_and!; [lia|apply Hall; lia|]. intros d' Hd' _. by apply Hall.
Qed.

Lemma bucket_min d s : (date_min <= d)%Z → bucket d = Ok s → (date_min <= s)%Z.
Proof.
  unfold calendar_bucket_start. intros Hd. destruct granularity.
  - by intros [= <-].
  - by intros [_ [? _]]%sub_days_ok.
  - destruct (date_of_civil _ _ _) eqn:E; [|done]. intros [= <-]. apply date_of_range in E. lia.
Qed.

(** From a start the next bucket is found, unless the calendar ends; it is the
    next start. *)
Lemma next_spec s l :
  is_start s → is_start l → (date_min <= s)%Z → (s < l <= date_max)%Z →
  ∃ n, next s = Ok n ∧ (s < n <= l)%Z ∧ is_start n ∧ ∀ d, (s <= d < n)%Z → bucket d = Ok s.
Proof.
  unfold is_start, calendar_bucket_start, next_bucket_start. intros Hs Hl Hmin Hsl. destruct granularity.
  - destruct (add_days_in_range s 1) as (n & Hn); [lia|]. rewrite next_day_exact, Hn. pose proof (add_days_exact _ _ _ Hn) as [-> _].
    exists (s + 1)%Z. split_and!; [done|lia|lia|done|]. intros d Hd. f_equal. lia.
  - pose proof (weekday_index_range week_starts_on) as Hw. set (k := weekday_index week_starts_on) in *. clearbody k.
    rewrite date_weekday_exact in Hs, Hl. apply sub_days_ok in Hs as [Hs _], Hl as [Hl _].
    destruct (add_days_in_range s 7) as (n & Hn); [lia|]. rewrite Hn. pose proof (add_days_exact _ _ _ Hn) as [-> _].
    assert (∀ d s', (date_min <= s' <= date_max)%Z → s' = (d - ((d + 3) mod 7 + 7 - k) mod 7)%Z →
      ok_or (date_checked_sub_days d ((number_days_from_monday (date_weekday d) + 7 - k) mod 7)) CalendarOverflow = Ok s') as Hall.
    { intros d s' Hr Heq. rewrite date_weekday_exact, sub_days_exact.
      destruct (add_days_in_range d (- (((d + 3) mod 7 + 7 - k) mod 7))) as (t & Ht); [lia|].
      rewrite Ht. apply add_days_exact in Ht as [-> _]. simpl. f_equal. lia. }
    exists (s + 7)%Z. split_and!; [done|lia|lia|apply Hall; lia|]. intros d Hd. apply Hall; lia.
  - destruct (date_of_civil (date_year s) (date_month s) 1) as [t|] eqn:Hts; [|done]. injection Hs as ->.
    destruct (date_of_civil (date_year l) (date_month l) 1) as [t|] eqn:Htl; [|done]. injection Hl as ->.
    pose proof (month_order _ _ _ _ _ _ Hts Htl ltac:(lia)) as Hi. unfold month_number in Hi.
    pose proof (date_of_range _ _ _ _ Hts) as (Hy & Hm & _). pose proof (date_of_range _ _ _ _ Htl) as (Hy' & Hm' & _).
    set (y := date_year s) in *. set (m := date_month s) in *.
    set (y1 := (if (m =? 12)%N then y + 1 else y)%Z). set (m1 := (if (m =? 12)%N then 1 else m + 1)%N).
    assert (12 * y1 + Z.of_N m1 = 12 * y + Z.of_N m + 1 ∧ 1 <= Z.of_N m1 <= 12)%Z as [Hi1 Hm1]
      by (unfold y1, m1; destruct (N.eqb_spec m 12); lia).
    pose proof (month_length_range m1 y1). destruct (proj2 (date_of_civil_iff y1 m1 1)) as (n & Hn); [clearbody y1 m1; lia|].
    rewrite Hn. pose proof (next_month_start _ _ _ _ Hts Hn) as Hlen. pose proof (month_length_range m y).
    pose proof (months_in_order (Z.to_nat (month_number (date_year l) (date_month l) - month_number y1 m1)) _ _ _ _ _ _ Hn Htl
      ltac:(unfold month_number; lia)).
    exists n. split_and!; [done|lia|lia| |].
    + destruct (days_of_month _ _ _ n Hn ltac:(pose proof (month_length_range m1 y1); lia)) as [-> ->]. by rewrite Hn.
    + intros d Hd. destruct (days_of_month _ _ _ d Hts ltac:(lia)) as [-> ->]. by rewrite Hts.
Qed.

(** Later dates are in the same bucket or a later one. *)
Lemma bucket_mono d s d' :
  (date_min <= d)%Z → (d <= d' <= date_max)%Z → bucket d = Ok s → ∃ s', bucket d' = Ok s' ∧ (s <= s')%Z.
Proof.
  intros Hmin Hd Hb. pose proof (bucket_spec d s ltac:(lia) Hb) as (Hle & Hs & _). revert Hb Hs.
  unfold is_start, calendar_bucket_start. destruct granularity.
  - intros [= ->] _. exists d'. split; [done|lia].
  - pose proof (weekday_index_range week_starts_on). rewrite !date_weekday_exact. intros _ [Hs Hr]%sub_days_ok.
    rewrite sub_days_exact.
    destruct (add_days_in_range d' (- (((d' + 3) mod 7 + 7 - weekday_index week_starts_on) mod 7))) as (t & Ht); [lia|].
    rewrite Ht. apply add_days_exact in Ht as [-> _]. eexists. split; [done|]. lia.
  - intros _ Hs. destruct (month_of_date d' ltac:(lia)) as (t & Ht & Hin). rewrite Ht. exists t. split; [done|].
    destruct (Z.le_gt_cases s t) as [|Hlt]; [done|].
    destruct (days_of_month _ _ _ s Ht ltac:(lia)) as [Hy Hm]. rewrite Hy, Hm, Ht in Hs. injection Hs as ->. lia.
Qed.

Lemma fill_ok fuel last cursor buckets :
  is_start cursor → is_start last → (date_min <= cursor)%Z → (cursor <= last <= date_max)%Z → (last - cursor < Z.of_nat fuel)%Z →
  ∃ m, fill_buckets fuel granularity last cursor buckets = Ok m ∧
    (∀ s, (cursor <= s <= last)%Z → is_start s → m !! s = Some empty_tally) ∧
    (∀ s, ¬ ((cursor <= s <= last)%Z ∧ is_start s) → m !! s = buckets !! s).
Proof.
  revert cursor buckets. induction fuel as [|fuel IH]; intros cursor buckets Hc Hl Hmin Hle Hf; [lia|]. simpl.
  destruct (Z.eqb_spec cursor last) as [->|Hne].
  - eexists. split; [done|]. split; intros s Hs.
    + intros _. replace s with last by lia. by rewrite lookup_insert_eq.
    + rewrite lookup_insert_ne; [done|]. intros <-. apply Hs. split; [lia|done].
  - destruct (next_spec cursor last Hc Hl Hmin ltac:(lia)) as (n & Hn & Hlt & Hsn & Hin). rewrite Hn. cbn [rbind].
    rewrite (proj2 (Z.ltb_ge last n)) by lia.
    destruct (IH n (<[cursor:=empty_tally]> buckets) Hsn Hl ltac:(lia) ltac:(lia) ltac:(lia)) as (m & Hm & Hyes & Hno).
    exists m. split; [done|]. split; intros s Hs.
    + intros Hss. destruct (Z.lt_ge_cases s n) as [Hsn'|]; [|apply Hyes; [lia|done]].
      rewrite Hno by lia. unfold is_start in Hss. rewrite Hin in Hss by lia. injection Hss as ->. by rewrite lookup_insert_eq.
    + rewrite Hno by (intros [? ?]; apply Hs; split; [lia|done]). rewrite lookup_insert_ne; [done|].
      intros <-. apply Hs. split; [lia|done].
Qed.

(** The buckets of a range are those of its dates. *)
Lemma empty_trend_ok lo hi first :
  (date_min <= lo)%Z → (lo <= hi <= date_max)%Z → bucket lo = Ok first →
  ∃ m, empty_trend_buckets lo hi granularity week_starts_on = Ok m ∧
    ∀ s t, m !! s = Some t ↔ t = empty_tally ∧ ∃ d, (lo <= d <= hi)%Z ∧ bucket d = Ok s.
Proof.
  intros Hmin Hle Hfirst. pose proof (bucket_min lo first Hmin Hfirst) as Hfmin. destruct (bucket_mono lo first hi Hmin Hle Hfirst) as (last & Hlast & Hfl).
  pose proof (bucket_spec lo first ltac:(lia) Hfirst) as (Hf1 & Hfs & Hf2). pose proof (bucket_spec hi last ltac:(lia) Hlast) as (Hl1 & Hls & Hl2).
  unfold empty_trend_buckets. rewrite Hfirst, Hlast. cbn [rbind].
  destruct (fill_ok (S (Z.to_nat (last - first))) last first ∅ Hfs Hls Hfmin ltac:(lia) ltac:(lia)) as (m & Hm & Hyes & Hno).
  exists m. split; [done|]. intros s t. split.
  - intros Hst. assert ((first <= s <= last)%Z ∧ is_start s) as [Hin Hss].
    { destruct (decide (first <= s <= last)%Z) as [Hin|Hin]; [|rewrite Hno in Hst; [done|]; by intros [? _]].
      split; [done|]. unfold is_start. pose proof (Hno s) as Hn. rewrite Hst in Hn.
      destruct (decide (is_start s)); [done|].
      specialize (Hn ltac:(by intros [_ ?])). done. }
    rewrite Hyes in Hst by done. injection Hst as <-. split; [done|]. destruct (Z.le_gt_cases lo s).
    + exists s. split; [lia|done].
    + exists lo. split; [lia|]. rewrite Hfirst. rewrite <- Hss. symmetry. apply Hf2; lia.
  - intros [-> (d & Hd & Hb)]. pose proof (bucket_spec d s ltac:(lia) Hb) as (_ & Hss & _).
    destruct (bucket_mono lo first d Hmin ltac:(lia) Hfirst) as (s1 & Hs1 & ?). rewrite Hb in Hs1. injection Hs1 as <-.
    destruct (bucket_mono d s hi ltac:(lia) ltac:(lia) Hb) as (s2 & Hs2 & ?). rewrite Hlast in Hs2. injection Hs2 as <-.
    apply Hyes; [lia|done].
Qed.
End months.
