(* ===== verification/Projection.v ===== *)
(** * Projection: the analytics of a habit are the counts of its due occurrences

    Theorems about HabitAnalytics.  A validated input is projected without
    overflow, and the projection is the reference below: the counts and sums
    over the observations of the due occurrences, in total and per bucket of the
    trend, the runs over the dates that have a counted occurrence. *)
From S2P Require Import Prelude Text Platform Civil Domain Samples HabitRecord HabitPolicy Expansion Rrule HabitAnalytics Adherence Trends.
Import HabitOutcome HabitAnalyticsError.

(** ** Validated inputs *)

Record valid_occurrence (as_of : OffsetDateTime) (o : HabitAnalyticsOccurrence) : Prop := {
  vo_id : ao_occurrence_id o ≠ 0%N;
  vo_window : (ao_window_start o < ao_window_end o)%Z;
  vo_value : valid_value (ao_value o) as_of
}.

Record valid_input `{Civil} (input : HabitAnalyticsInput) : Prop := {
  vi_range : (ai_range_start input <= ai_range_end input)%Z;
  vi_days : (to_julian_day (ai_range_end input) - to_julian_day (ai_range_start input) < MAX_HABIT_ANALYTICS_RANGE_DAYS)%Z;
  vi_count : (N.of_nat (length (ai_occurrences input)) <= MAX_HABIT_ANALYTICS_OCCURRENCES)%N;
  vi_pause_count : (N.of_nat (length (ai_pauses input)) <= MAX_HABIT_ANALYTICS_PAUSES)%N;
  vi_pauses : Forall valid_pause (ai_pauses input);
  vi_distinct : NoDup (ao_occurrence_id <$> ai_occurrences input);
  vi_occurrences : Forall (valid_occurrence (ai_as_of input)) (ai_occurrences input)
}.

Lemma check_occurrence_iff as_of seen o seen' :
  check_analytics_occurrence as_of seen o = Ok seen' ↔
  valid_occurrence as_of o ∧ (ao_occurrence_id o ∉ seen) ∧ seen' = {[ao_occurrence_id o]} ∪ seen.
Proof.
  unfold check_analytics_occurrence, is_nil. destruct (N.eqb_spec (ao_occurrence_id o) 0) as [Hid|Hid].
  { split; [done|]. by intros ([] & _). }
  case_bool_decide; [split; [done|tauto]|]. rewrite !rbind_unit_ok, !map_err_ok, validate_window_iff, validate_value_iff.
  split; [intros (? & ? & [= <-]); split_and!; [by constructor|done|done]|]. by intros ([] & _ & ->).
Qed.

Lemma validate_input_iff `{Civil} input : validate_analytics_input input = Ok tt ↔ valid_input input.
Proof.
  unfold validate_analytics_input.
  assert (∀ l as_of, (let? _ := foldM (check_analytics_occurrence as_of) ∅ l in Ok tt) = Ok tt ↔
    NoDup (ao_occurrence_id <$> l) ∧ Forall (valid_occurrence as_of) l) as Hloop.
  { intros l as_of. rewrite rbind_ok. setoid_rewrite Forall_forall.
    transitivity (∃ s, foldM (check_analytics_occurrence as_of) ∅ l = Ok s); [naive_solver|].
    rewrite (fresh_loop_ok ao_occurrence_id (valid_occurrence as_of)) by (intros; rewrite check_occurrence_iff; tauto). set_solver. }
  destruct (Z.ltb_spec (ai_range_end input) (ai_range_start input)); [split; [done|intros []; lia]|].
  destruct (Z.ltb_spec MAX_HABIT_ANALYTICS_RANGE_DAYS (to_julian_day (ai_range_end input) - to_julian_day (ai_range_start input) + 1));
    [split; [done|intros []; lia]|].
  destruct (N.ltb_spec MAX_HABIT_ANALYTICS_OCCURRENCES (N.of_nat (length (ai_occurrences input)))); [split; [done|intros []; lia]|].
  destruct (N.ltb_spec MAX_HABIT_ANALYTICS_PAUSES (N.of_nat (length (ai_pauses input)))); [split; [done|intros []; lia]|].
  rewrite rbind_unit_ok, map_err_ok, forM_ok, Hloop. setoid_rewrite validate_pause_iff. split.
  - intros (? & ? & ?). constructor; (done || lia).
  - by intros [].
Qed.

(** ** The reference *)

Section reference.
Context `{Platform, Civil} (input : HabitAnalyticsInput).

Definition due (o : HabitAnalyticsOccurrence) : bool := is_due input (effective_end input) o.

(** The eligibility of an occurrence by all pauses, whatever their order *)
Definition eligibility_in (o : HabitAnalyticsOccurrence) : HabitOccurrenceEligibility :=
  eligibility_of (window_overlaps (ai_pauses input) o) (ai_preserves_statistics_when_paused input).

Definition observation (o : HabitAnalyticsOccurrence) : Observation := (ao_value o, eligibility_in o).

Definition observations (l : list HabitAnalyticsOccurrence) : list Observation := observation <$> filter (λ o, due o = true) l.

Definition start_of (d : Date) : result HabitAnalyticsError Date :=
  calendar_bucket_start d (ai_trend_granularity input) (ai_week_starts_on input).

Definition in_bucket (s : Date) (o : HabitAnalyticsOccurrence) : bool :=
  due o && match start_of (ao_local_date o) with Ok s' => (s' =? s)%Z | Err _ => false end.

Definition bucket_observations (s : Date) (l : list HabitAnalyticsOccurrence) : list Observation :=
  observation <$> filter (λ o, in_bucket s o = true) l.

(** The starts of the buckets of the range *)
Definition start_in_range (s : Date) : Prop :=
  ∃ d, (ai_range_start input <= d <= effective_end input)%Z ∧ start_of d = Ok s.

Definition counted_on (d : Date) (o : HabitAnalyticsOccurrence) : bool :=
  due o && (ao_local_date o =? d)%Z && counts_for_adherence (observation o).

Definition completed (o : HabitAnalyticsOccurrence) : bool := bool_decide (hv_outcome (ao_value o) = Completed).

(** Whether a date succeeded: all its counted occurrences are completed. *)
Definition date_result (d : Date) (l : list HabitAnalyticsOccurrence) : option bool :=
  if forallb (λ o, negb (counted_on d o)) l then None else Some (forallb (λ o, negb (counted_on d o) || completed o) l).
End reference.

Definition mean_of (l : list Observation) (a : option N) : Prop :=
  match a with
  | None => number counts_for_adherence l = 0%N
  | Some mean => number counts_for_adherence l ≠ 0%N ∧ (mean <= 10000)%N ∧ is_mean (progress_sum l) (number counts_for_adherence l) mean
  end.

Definition totals_of (l : list Observation) (totals : list HabitQuantityTotal) : Prop :=
  NoDup (qtot_unit <$> totals) ∧
  ∀ unit_ amount, {| qtot_unit := unit_; qtot_amount := amount |} ∈ totals ↔ quantity_sum unit_ l = Some amount.

Record bucket_of (l : list Observation) (b : HabitTrendBucket) : Prop := {
  bo_counts : tb_counts b = reference_counts l;
  bo_adherence : mean_of l (tb_adherence_basis_points b);
  bo_seconds : tb_actual_seconds_total b = seconds_sum l;
  bo_quantities : totals_of l (tb_quantity_totals b)
}.

(** The analytics of an input, in terms of its occurrences *)
Record projection `{Platform, Civil} (input : HabitAnalyticsInput) (a : HabitAnalytics) : Prop := {
  pj_counts : ha_counts a = reference_counts (observations input (ai_occurrences input));
  pj_adherence : mean_of (observations input (ai_occurrences input)) (ha_adherence_basis_points a);
  pj_seconds : ha_actual_seconds_total a = seconds_sum (observations input (ai_occurrences input));
  pj_quantities : totals_of (observations input (ai_occurrences input)) (ha_quantity_totals a);
  pj_streaks : ∃ dates : list (Date * bool),
    StronglySorted Z.lt dates.*1 ∧
    (∀ d b, (d, b) ∈ dates ↔ date_result input d (ai_occurrences input) = Some b) ∧
    runs dates.*2 (ha_current_streak a) (ha_longest_streak a);
  pj_bucket_starts : StronglySorted Z.lt (tb_start_date <$> ha_trend_buckets a) ∧
    ∀ s, s ∈ tb_start_date <$> ha_trend_buckets a ↔ start_in_range input s;
  pj_buckets b : b ∈ ha_trend_buckets a → bucket_of (bucket_observations input (tb_start_date b) (ai_occurrences input)) b;
  pj_facts : ha_supportive_facts a = supportive_facts (ha_counts a) (ha_adherence_basis_points a) (ha_current_streak a)
    (number (λ x, counts_for_adherence x && is_partial_progress x.1) (observations input (ai_occurrences input))) (ha_trend_buckets a)
}.

(** ** One more occurrence *)

Section snoc.
Context `{Platform, Civil} (input : HabitAnalyticsInput).

Lemma filter_snoc {A} (f : A → bool) l x :
  filter (λ o, f o = true) (l ++ [x]) = filter (λ o, f o = true) l ++ (if f x then [x] else []).
Proof. rewrite filter_app. f_equal. rewrite filter_cons, filter_nil. destruct (f x); [by rewrite decide_True|by rewrite decide_False]. Qed.

Lemma observations_snoc l o :
  observations input (l ++ [o]) = observations input l ++ (if due input o then [observation input o] else []).
Proof. unfold observations. rewrite filter_snoc, fmap_app. f_equal. by destruct (due input o). Qed.

Lemma bucket_observations_snoc s l o :
  bucket_observations input s (l ++ [o]) = bucket_observations input s l ++ (if in_bucket input s o then [observation input o] else []).
Proof. unfold bucket_observations. rewrite filter_snoc, fmap_app. f_equal. by destruct (in_bucket input s o). Qed.

Lemma length_observed (f : HabitAnalyticsOccurrence → bool) l : length (observation input <$> filter (λ o, f o = true) l) <= length l.
Proof. rewrite length_fmap. apply length_filter. Qed.

Lemma observed_bounded (f : HabitAnalyticsOccurrence → bool) l :
  Forall (valid_occurrence (ai_as_of input)) l →
  Forall (λ x, bounded_value x.1) (observation input <$> filter (λ o, f o = true) l).
Proof.
  intros Hl. apply Forall_fmap, Forall_forall. intros o [_ Ho]%list_elem_of_filter. rewrite Forall_forall in Hl.
  destruct (Hl o Ho) as [_ _ Hv]. by eapply valid_bounded.
Qed.

Lemma date_result_snoc d l o :
  date_result input d (l ++ [o]) =
  if counted_on input d o then Some (default true (date_result input d l) && completed o) else date_result input d l.
Proof.
  unfold date_result. rewrite !forallb_app. simpl. rewrite !andb_true_r. destruct (counted_on input d o); simpl.
  - rewrite andb_false_r. destruct (forallb (λ o, negb (counted_on input d o)) l) eqn:E; [|done]. simpl. f_equal.
    rewrite (proj2 (forallb_forall _ l)); [done|]. rewrite forallb_forall in E. intros x Hx. by rewrite (E x Hx).
  - by rewrite !andb_true_r.
Qed.
End snoc.

(** ** The loop over the occurrences *)

Section projected.
Context `{CivilLaws} (input : HabitAnalyticsInput).
Hypothesis valid : valid_input input.
Hypothesis in_calendar : (date_min <= ai_range_start input ∧ ai_range_end input <= date_max)%Z.
Hypothesis representable : (ai_range_start input <= effective_end input)%Z → ∃ first, start_of input (ai_range_start input) = Ok first.

Record progress_of (l : list HabitAnalyticsOccurrence) (st : AnalyticsState) : Prop := {
  po_total : tallies (observations input l) (as_total st);
  po_trend s t : as_trend st !! s = Some t → start_in_range input s ∧ tallies (bucket_observations input s l) t;
  po_buckets s : start_in_range input s → is_Some (as_trend st !! s);
  po_dates d : as_streak_dates st !! d = date_result input d l
}.

Lemma observe_step (f : HabitAnalyticsOccurrence → bool) l t o :
  (N.of_nat (length l) < MAX_HABIT_ANALYTICS_OCCURRENCES)%N →
  Forall (valid_occurrence (ai_as_of input)) (l ++ [o]) → f o = true →
  tallies (observation input <$> filter (λ o, f o = true) l) t →
  ∃ t', observe t (ao_value o) (eligibility_in input o) = Ok t' ∧
    tallies ((observation input <$> filter (λ o, f o = true) l) ++ [observation input o]) t'.
Proof using.
  intros Hl [Hv [Ho _]%Forall_cons]%Forall_app Hf Ht. apply observe_ok; [done| |].
  - pose proof (length_observed input f l). lia.
  - apply Forall_app. split; [by apply observed_bounded|]. constructor; [|done]. destruct Ho as [_ _ Ho]. by eapply valid_bounded.
Qed.

Lemma observe_occurrence_ok l st o :
  (N.of_nat (length l) < MAX_HABIT_ANALYTICS_OCCURRENCES)%N → Forall (valid_occurrence (ai_as_of input)) (l ++ [o]) →
  o ∈ ai_occurrences input → progress_of l st →
  ∃ st', observe_occurrence input (effective_end input) (analytics_eligibilities input (effective_end input)) st o = Ok st' ∧
    progress_of (l ++ [o]) st'.
Proof using All.
  intros Hl Hv Ho [Ht Htrend Hb Hd]. unfold observe_occurrence. fold (due input o).
  destruct (due input o) eqn:Hdue; simpl.
  2:{ exists st. split; [done|]. constructor.
      - by rewrite observations_snoc, Hdue, app_nil_r.
      - intros s t Hst. rewrite bucket_observations_snoc. unfold in_bucket. rewrite Hdue. simpl. rewrite app_nil_r. by apply Htrend.
      - done.
      - intros d. rewrite date_result_snoc. unfold counted_on. rewrite Hdue. apply Hd. }
  rewrite eligibility_lookup; [|apply valid|apply valid| |done|done].
  2:{ intros x Hx. pose proof (vi_occurrences _ valid) as Hall. rewrite Forall_forall in Hall. by apply Hall. }
  cbn [ok_or rbind]. fold (eligibility_in input o).
  destruct (observe_step (due input) l (as_total st) o Hl Hv Hdue Ht) as (total & -> & Htotal). cbn [rbind].
  assert (ai_range_start input <= ao_local_date o <= effective_end input)%Z as Hdate.
  { unfold due, is_due in Hdue. bool_to_prop. lia. }
  assert (effective_end input <= ai_range_end input)%Z as Hend by (unfold effective_end; lia).
  destruct (representable ltac:(lia)) as (first & Ef).
  destruct (bucket_mono (ai_trend_granularity input) (ai_week_starts_on input) (ai_range_start input) first (ao_local_date o))
    as (s & Hs & _); [lia|lia|done|]. rewrite Hs. cbn [rbind].
  assert (start_in_range input s) as Hsr by (exists (ao_local_date o); by split).
  destruct (Hb s Hsr) as (bucket & Hbucket). rewrite Hbucket. cbn [ok_or rbind].
  assert (∀ s', in_bucket input s' o = (s =? s')%Z) as Hin by (intros s'; unfold in_bucket, start_of; by rewrite Hdue, Hs).
  destruct (observe_step (in_bucket input s) l bucket o Hl Hv ltac:(by rewrite Hin, Z.eqb_refl) (proj2 (Htrend s bucket Hbucket)))
    as (bucket' & -> & Hb'). cbn [rbind]. eexists. split; [done|]. constructor; cbn [as_total as_trend as_streak_dates].
  - by rewrite observations_snoc, Hdue.
  - intros s' t. rewrite bucket_observations_snoc, Hin. destruct (Z.eqb_spec s s') as [<-|Hne].
    + rewrite lookup_insert_eq. intros [= <-]. done.
    + rewrite lookup_insert_ne by done. rewrite app_nil_r. apply Htrend.
  - intros s' Hs'. destruct (decide (s = s')) as [<-|Hne]; [rewrite lookup_insert_eq; by eexists|].
    rewrite lookup_insert_ne by done. by apply Hb.
  - intros d. rewrite date_result_snoc. unfold counted_on, counts_for_adherence, observation. rewrite Hdue. cbn [fst snd].
    case_bool_decide as Hp; cbn [negb andb]; [rewrite andb_false_r; apply Hd|]. rewrite andb_true_r, !Hd.
    destruct (Z.eqb_spec (ao_local_date o) d) as [<-|Hne]; [by rewrite lookup_insert_eq|].
    by rewrite lookup_insert_ne.
Qed.

Lemma occurrences_loop rest : ∀ l st,
  ai_occurrences input = l ++ rest → progress_of l st →
  ∃ st', foldM (observe_occurrence input (effective_end input) (analytics_eligibilities input (effective_end input))) st rest = Ok st' ∧
    progress_of (ai_occurrences input) st'.
Proof using All.
  induction rest as [|o rest IH]; intros l st Hl Hst; [exists st; by rewrite Hl, app_nil_r|].
  pose proof (vi_count _ valid) as Hcount. pose proof (vi_occurrences _ valid) as Hv.
  rewrite cons_middle, app_assoc in Hl. rewrite Hl in Hcount, Hv. rewrite !length_app in Hcount. simpl in Hcount.
  apply Forall_app in Hv as [Hv _].
  destruct (observe_occurrence_ok l st o) as (st1 & Hst1 & Hpo); [lia|done|rewrite Hl; set_solver|done|].
  destruct (IH (l ++ [o]) st1 Hl Hpo) as (st' & Hst' & Hpo'). exists st'. split; [|done]. cbn [foldM]. by rewrite Hst1.
Qed.

Lemma initial_trend :
  ∃ trend, (if (effective_end input <? ai_range_start input)%Z then Ok ∅
    else empty_trend_buckets (ai_range_start input) (effective_end input) (ai_trend_granularity input) (ai_week_starts_on input)) = Ok trend ∧
  progress_of [] {| as_trend := trend; as_total := empty_tally; as_streak_dates := ∅ |}.
Proof using All.
  assert (effective_end input <= ai_range_end input)%Z as Hend by (unfold effective_end; lia).
  destruct (Z.ltb_spec (effective_end input) (ai_range_start input)).
  - exists ∅. split; [done|]. constructor; simpl; [apply empty_tallies|done| |done]. intros s (d & ? & _). lia.
  - destruct (representable ltac:(lia)) as (first & Hfirst).
    destruct (empty_trend_ok (ai_trend_granularity input) (ai_week_starts_on input) (ai_range_start input) (effective_end input) first)
      as (trend & Htrend & Hiff); [lia|lia|done|].
    exists trend. split; [done|]. constructor; simpl; [apply empty_tallies| | |done].
    + intros s t [-> Hs]%Hiff. split; [done|apply empty_tallies].
    + intros s Hs. exists empty_tally. apply Hiff. by split.
Qed.
End projected.

(** ** Reading the maps in order *)

Lemma date_entries_spec {V} (m : gmap Date V) :
  StronglySorted Z.lt (date_entries m).*1 ∧ ∀ d v, (d, v) ∈ date_entries m ↔ m !! d = Some v.
Proof.
  assert (∀ d v, (d, v) ∈ date_entries m ↔ m !! d = Some v) as Hin
    by (intros d v; unfold date_entries; by rewrite elem_of_sort_by, elem_of_map_to_list).
  split; [|done]. assert (NoDup (date_entries m).*1) as Hnd.
  { unfold date_entries. rewrite sort_by_perm. apply NoDup_fst_map_to_list. }
  assert (StronglySorted (λ a b : Date * V, (a.1 <=? b.1)%Z = true) (date_entries m)) as Hs.
  { apply sort_by_sorted; intros *; rewrite !Z.leb_le; lia. }
  clear Hin. induction Hs as [|x l Hs IH Hf]; [constructor|]. apply NoDup_cons in Hnd as [Hx Hnd]. constructor; [by apply IH|].
  apply Forall_fmap, Forall_forall. intros y Hy. rewrite Forall_forall in Hf. specialize (Hf y Hy). simpl. apply Z.leb_le in Hf.
  destruct (decide (x.1 = y.1)) as [Heq|]; [|lia]. exfalso. apply Hx. rewrite Heq. by apply list_elem_of_fmap_2.
Qed.

Lemma string_entries_spec {V} (m : gmap string V) :
  NoDup (string_entries m).*1 ∧ ∀ k v, (k, v) ∈ string_entries m ↔ m !! k = Some v.
Proof.
  unfold string_entries. split; [rewrite sort_by_perm; apply NoDup_fst_map_to_list|].
  intros k v. by rewrite elem_of_sort_by, elem_of_map_to_list.
Qed.

Lemma quantity_totals_ok l t : tallies l t → totals_of l (quantity_totals t).
Proof.
  intros Ht. destruct (string_entries_spec (mt_quantity_totals t)) as [Hnd Hin]. unfold totals_of, quantity_totals. split.
  - by rewrite <- list_fmap_compose.
  - intros u a. rewrite <- (ta_quantities _ _ Ht), <- Hin, list_elem_of_fmap. split.
    + intros ([k v] & [= -> ->] & ?). done.
    + intros ?. by exists (u, a).
Qed.

Lemma adherence_mean l t :
  tallies l t → (N.of_nat (length l) <= MAX_HABIT_ANALYTICS_OCCURRENCES)%N → Forall (λ x, bounded_value x.1) l →
  ∃ a, adherence_basis_points t = Ok a ∧ mean_of l a.
Proof. intros Ht Hl Hb. destruct (adherence_ok l t Ht Hl Hb) as [[? ->]|(mean & -> & ? & ? & ?)]; eexists; by split. Qed.

(** ** The projection *)

Section result.
Context `{CivilLaws} (input : HabitAnalyticsInput).
Hypothesis valid : valid_input input.

Lemma observed_ok (f : HabitAnalyticsOccurrence → bool) t :
  let l := observation input <$> filter (λ o, f o = true) (ai_occurrences input) in
  tallies l t → ∃ a, adherence_basis_points t = Ok a ∧ mean_of l a.
Proof using All.
  intros l Ht. apply adherence_mean; [done| |].
  - pose proof (length_observed input f (ai_occurrences input)). pose proof (vi_count _ valid). unfold l. lia.
  - apply observed_bounded, valid.
Qed.

Lemma trend_bucket_ok s t :
  tallies (bucket_observations input s (ai_occurrences input)) t →
  ∃ b, trend_bucket (s, t) = Ok b ∧ tb_start_date b = s ∧ bucket_of (bucket_observations input s (ai_occurrences input)) b.
Proof using All.
  intros Ht. unfold trend_bucket. cbn [fst snd]. destruct (observed_ok (in_bucket input s) t Ht) as (a & -> & Ha).
  eexists. split; [done|]. split; [done|]. constructor; simpl; [apply Ht|done|apply Ht|by apply quantity_totals_ok].
Qed.

Lemma trend_of_ok (trend : gmap Date MutableTally) :
  (∀ s t, trend !! s = Some t → tallies (bucket_observations input s (ai_occurrences input)) t) →
  ∃ bs, trend_of trend = Ok bs ∧ tb_start_date <$> bs = (date_entries trend).*1 ∧
    ∀ b, b ∈ bs → bucket_of (bucket_observations input (tb_start_date b) (ai_occurrences input)) b.
Proof using All.
  intros Ht. unfold trend_of. destruct (date_entries_spec trend) as [_ Hin].
  assert (∀ s t, (s, t) ∈ date_entries trend → tallies (bucket_observations input s (ai_occurrences input)) t) as Hall
    by (intros s t ?%Hin; by apply Ht).
  clear Ht Hin. induction (date_entries trend) as [|[s t] l IH] using rev_ind; [exists []; split_and!; [done|done|by intros b ?%elem_of_nil]|].
  destruct IH as (bs & Hbs & Hstarts & Hok); [intros s' t' ?; apply Hall; set_solver|].
  destruct (trend_bucket_ok s t) as (b & Hb & Hs & Hbo); [apply Hall; set_solver|]. rewrite <- Hs in Hbo.
  exists (bs ++ [b]). rewrite foldM_app, Hbs. cbn [rbind foldM]. rewrite Hb. split_and!; [done| |].
  - by rewrite !fmap_app, Hstarts, <- Hs.
  - intros b' [?|Heq%list_elem_of_singleton]%elem_of_app; [by apply Hok|]. by subst b'.
Qed.

Lemma streak_dates_few (dates : gmap Date bool) :
  (∀ d, dates !! d = date_result input d (ai_occurrences input)) → size dates <= length (ai_occurrences input).
Proof using All.
  intros Hd. rewrite <- length_map_to_list, <- (length_fmap fst), <- (length_fmap ao_local_date).
  apply submseteq_length, NoDup_submseteq; [apply NoDup_fst_map_to_list|].
  intros d ([d' b] & -> & Hb%elem_of_map_to_list)%list_elem_of_fmap. rewrite Hd in Hb. unfold date_result in Hb. simpl.
  destruct (forallb _ _) eqn:E; [done|]. clear Hb Hd. apply not_true_iff_false in E. apply list_elem_of_fmap.
  induction (ai_occurrences input) as [|o l IH]; [done|]. simpl in E. destruct (counted_on input d' o) eqn:Eo.
  - exists o. split; [|left]. unfold counted_on in Eo. by bool_to_prop.
  - destruct (IH E) as (x & ? & ?). exists x. split; [done|by right].
Qed.

Lemma calculate_ok (in_calendar : (date_min <= ai_range_start input ∧ ai_range_end input <= date_max)%Z) :
  ((ai_range_start input <= effective_end input)%Z → ∃ first, start_of input (ai_range_start input) = Ok first) →
  ∃ a, calculate_habit_analytics input = Ok a ∧ projection input a.
Proof using All.
  intros Hrep. unfold calculate_habit_analytics. rewrite (proj2 (validate_input_iff input) valid). cbn [rbind].
  destruct (initial_trend input valid in_calendar Hrep) as (trend & -> & Hinit). cbn [rbind].
  destruct (occurrences_loop input valid in_calendar Hrep (ai_occurrences input) [] _ eq_refl Hinit) as (st & -> & [Ht Htrend Hb Hd]).
  cbn [rbind]. pose proof (streak_dates_few _ Hd) as Hfew. pose proof (vi_count _ valid) as Hcount.
  destruct (streaks_ok (as_streak_dates st)) as (current & longest & -> & Hruns).
  { unfold MAX_HABIT_ANALYTICS_OCCURRENCES, u32_max in *. lia. }
  cbn [rbind]. destruct (observed_ok (due input) (as_total st) Ht) as (adherence & -> & Hmean). cbn [rbind].
  destruct (trend_of_ok (as_trend st)) as (buckets & -> & Hstarts & Hbuckets); [by intros s t [_ ?]%Htrend|]. cbn [rbind].
  eexists. split; [done|]. constructor; cbn; [apply Ht|done|apply Ht|by apply quantity_totals_ok| | |done|by rewrite (ta_partial _ _ Ht)].
  - destruct (date_entries_spec (as_streak_dates st)) as [Hsorted Hin]. exists (date_entries (as_streak_dates st)).
    split_and!; [done| |done]. intros d b. by rewrite Hin, Hd.
  - rewrite Hstarts. destruct (date_entries_spec (as_trend st)) as [Hsorted Hin]. split; [done|]. intros s. rewrite list_elem_of_fmap. split.
    + intros ([s' t] & -> & Hst%Hin). by apply Htrend in Hst as [? _].
    + intros (t & Hst%Hin)%Hb. by exists (s, t).
Qed.
End result.

(** The calendar of the crate has the dates of the range. *)
Definition in_calendar `{Platform, Civil} (input : HabitAnalyticsInput) : Prop :=
  (date_min <= ai_range_start input ∧ ai_range_end input <= date_max)%Z.

(** C15. The analytics of a habit count what is due: an invalid input is refused
    with its error, and for a valid one the result equals the reference, unless
    the first bucket of the trend would start before the first date of the
    calendar, which is reported as an overflow. *)
Theorem analytics_count_the_due `{CivilLaws} input :
  in_calendar input →
  match validate_analytics_input input with
  | Err e => calculate_habit_analytics input = Err e
  | Ok _ =>
      (∃ a, calculate_habit_analytics input = Ok a ∧ projection input a) ∨
      (ai_range_start input <= effective_end input)%Z ∧
        start_of input (ai_range_start input) = Err CalendarOverflow ∧ calculate_habit_analytics input = Err CalendarOverflow
  end.
Proof.
  intros Hc. destruct (validate_analytics_input input) as [[]|e] eqn:Hv.
  2:{ unfold calculate_habit_analytics. by rewrite Hv. }
  pose proof (proj1 (validate_input_iff input) Hv) as Hvalid.
  destruct (start_of input (ai_range_start input)) as [first|e] eqn:Ef; [left; apply calculate_ok; [done|done|by exists first]|].
  destruct (Z.le_gt_cases (ai_range_start input) (effective_end input)) as [Hle|]; [|left; apply calculate_ok; [done|done|lia]].
  right. assert (e = CalendarOverflow) as ->.
  { unfold start_of, calendar_bucket_start in Ef. destruct (ai_trend_granularity input); [done|..];
      by match type of Ef with ok_or ?m _ = _ => destruct m end; simplify_eq/=. }
  split_and!; [done|done|]. unfold calculate_habit_analytics. rewrite Hv. cbn [rbind].
  rewrite (proj2 (Z.ltb_ge _ _)) by lia. unfold empty_trend_buckets. fold (start_of input (ai_range_start input)). by rewrite Ef.
Qed.

Lemma calculated_valid `{Platform, Civil} input a :
  calculate_habit_analytics input = Ok a →
  valid_input input ∧ ((ai_range_start input <= effective_end input)%Z → ∃ first, start_of input (ai_range_start input) = Ok first).
Proof.
  unfold calculate_habit_analytics. intros [Hv Hr]%rbind_unit_ok. apply validate_input_iff in Hv. split; [done|].
  apply rbind_ok in Hr as (trend & Htrend & _). intros Hle. rewrite (proj2 (Z.ltb_ge _ _)) in Htrend by lia.
  apply rbind_ok in Htrend as (first & Hf & _). by exists first.
Qed.

Lemma calculated_projection `{CivilLaws} input a :
  in_calendar input → calculate_habit_analytics input = Ok a → projection input a.
Proof.
  intros Hc Ha. destruct (calculated_valid input a Ha) as [Hv Hrep].
  destruct (calculate_ok input Hv Hc Hrep) as (a' & Ha' & Hp). rewrite Ha in Ha'. by injection Ha' as <-.
Qed.

(** The bucket of a due occurrence is one of the range. *)
Lemma due_start `{CivilLaws} input a o :
  in_calendar input → calculate_habit_analytics input = Ok a → due input o = true →
  ∃ s, start_of input (ao_local_date o) = Ok s ∧ start_in_range input s.
Proof.
  intros [Hmin Hmax] Ha Hdue. destruct (calculated_valid input a Ha) as [_ Hrep]. unfold due, is_due in Hdue. bool_to_prop.
  assert (effective_end input <= ai_range_end input)%Z as Hend by (unfold effective_end; lia).
  destruct (Hrep ltac:(lia)) as (first & Hf).
  destruct (bucket_mono (ai_trend_granularity input) (ai_week_starts_on input) (ai_range_start input) first (ao_local_date o))
    as (s & Hs & _); [lia|lia|done|]. exists s. split; [done|]. exists (ao_local_date o). by split; [lia|].
Qed.

Lemma strictly_sorted_NoDup (l : list Date) : StronglySorted Z.lt l → NoDup l.
Proof.
  induction 1 as [|x l _ IH Hf]; constructor; [|done]. intros Hx. rewrite Forall_forall in Hf. specialize (Hf x Hx). lia.
Qed.

(** ** The buckets partition the due occurrences *)

Lemma sum_indicator (starts : list Date) s (n : N) :
  NoDup starts → s ∈ starts → sum_of (λ s', if (s =? s')%Z then n else 0%N) starts = n.
Proof.
  induction 1 as [|s' starts Hn Hnd IH]; [by intros ?%elem_of_nil|]. simpl. intros [->|Hin]%elem_of_cons.
  - rewrite Z.eqb_refl. replace (sum_of _ _) with 0%N; [lia|]. clear IH Hnd. induction starts as [|s starts IH]; [done|].
    apply not_elem_of_cons in Hn as [Hne Hn]. simpl. rewrite (proj2 (Z.eqb_neq _ _)) by done. rewrite <- IH by done. done.
  - rewrite IH by done. rewrite (proj2 (Z.eqb_neq _ _)); [lia|]. by intros ->.
Qed.

Lemma sum_of_zero {A} (l : list A) : sum_of (λ _, 0%N) l = 0%N.
Proof. by induction l. Qed.

Lemma sum_buckets `{Platform, Civil} input (g : Observation → N) starts l :
  NoDup starts →
  (∀ o, o ∈ l → due input o = true → ∃ s, start_of input (ao_local_date o) = Ok s ∧ s ∈ starts) →
  sum_of g (observations input l) = sum_of (λ s, sum_of g (bucket_observations input s l)) starts.
Proof.
  intros Hnd. induction l as [|o l IH] using rev_ind; intros Hall.
  - symmetry. apply sum_of_zero.
  - rewrite observations_snoc, sum_of_app, IH by (intros; apply Hall; set_solver).
    rewrite (sum_of_ext (λ s, sum_of g (bucket_observations input s (l ++ [o]))) (λ s, sum_of g (bucket_observations input s l) +
      sum_of g (if in_bucket input s o then [observation input o] else []))%N) by (intros; by rewrite bucket_observations_snoc, sum_of_app).
    rewrite sum_of_add. f_equal. destruct (due input o) eqn:Hdue.
    + destruct (Hall o) as (s & Hs & Hin); [set_solver|done|].
      rewrite (sum_of_ext (λ s, sum_of g (if in_bucket input s o then _ else _)) (λ s', if (s =? s')%Z then sum_of g [observation input o] else 0%N)); [by rewrite sum_indicator|].
      intros s'. unfold in_bucket. rewrite Hdue, Hs. simpl. by destruct (Z.eqb_spec s s').
    + rewrite (sum_of_ext (λ s, sum_of g (if in_bucket input s o then _ else _)) (λ _, 0%N)); [|intros s; unfold in_bucket; by rewrite Hdue].
      symmetry. apply sum_of_zero.
Qed.

(** Outcomes share out the counted observations. *)
Lemma counts_add_up l :
  ac_due (reference_counts l) = (ac_eligible (reference_counts l) + ac_protected_paused (reference_counts l))%N ∧
  ac_eligible (reference_counts l) = (ac_completed (reference_counts l) + ac_partial (reference_counts l) +
    ac_skipped (reference_counts l) + ac_pending (reference_counts l))%N ∧
  (ac_missed_policy_skips (reference_counts l) <= ac_skipped (reference_counts l))%N.
Proof.
  simpl. unfold number, has_outcome, is_skipped. induction l as [|[v e] l IH]; simpl; [done|].
  unfold counts_for_adherence at 1 3 5 7 9 11 13 15. simpl. case_bool_decide as He; simpl; [lia|].
  destruct (hv_outcome v) as [| | |[]]; simpl; lia.
Qed.

Definition count_fields : list (HabitAnalyticsCounts → N) :=
  [ac_due; ac_eligible; ac_paused; ac_protected_paused; ac_completed; ac_partial; ac_skipped; ac_pending; ac_missed_policy_skips].

(** Every count is a sum over the observations. *)
Lemma count_field_sum field :
  field ∈ count_fields → ∃ g : Observation → N, ∀ l, field (reference_counts l) = sum_of g l.
Proof.
  assert (∀ l : list Observation, N.of_nat (length l) = sum_of (λ _, 1%N) l) as Hlen by (induction l; simpl; lia).
  unfold count_fields. rewrite !elem_of_cons, elem_of_nil.
  intros [->|[->|[->|[->|[->|[->|[->|[->|[->|[]]]]]]]]]]; unfold reference_counts, number; cbn; eauto.
Qed.

(** The buckets of the trend partition the totals. *)
Theorem trend_partitions_totals `{CivilLaws} input a :
  in_calendar input → calculate_habit_analytics input = Ok a →
  ac_due (ha_counts a) = (ac_eligible (ha_counts a) + ac_protected_paused (ha_counts a))%N ∧
  ac_eligible (ha_counts a) =
    (ac_completed (ha_counts a) + ac_partial (ha_counts a) + ac_skipped (ha_counts a) + ac_pending (ha_counts a))%N ∧
  (∀ field, field ∈ count_fields → sum_of (λ b, field (tb_counts b)) (ha_trend_buckets a) = field (ha_counts a)) ∧
  sum_of tb_actual_seconds_total (ha_trend_buckets a) = ha_actual_seconds_total a.
Proof.
  intros Hc Ha. pose proof (calculated_projection input a Hc Ha) as Hp.
  destruct (counts_add_up (observations input (ai_occurrences input))) as (H1' & H2' & _). rewrite <- (pj_counts _ _ Hp) in H1', H2'.
  split; [done|]. split; [done|]. destruct (pj_bucket_starts _ _ Hp) as [Hsorted Hstarts].
  assert (∀ (g : Observation → N) (f : HabitTrendBucket → N),
    (∀ b, b ∈ ha_trend_buckets a → f b = sum_of g (bucket_observations input (tb_start_date b) (ai_occurrences input))) →
    sum_of f (ha_trend_buckets a) = sum_of g (observations input (ai_occurrences input))) as Hsum.
  { intros g f Hf. rewrite (sum_buckets input g (tb_start_date <$> ha_trend_buckets a)).
    - clear Hsorted Hstarts. induction (ha_trend_buckets a) as [|b bs IH]; [done|]. simpl. rewrite Hf by left. f_equal.
      apply IH. intros b' ?. apply Hf. by right.
    - by apply strictly_sorted_NoDup.
    - intros o _ Hdue. destruct (due_start input a o Hc Ha Hdue) as (s & Hs & Hin). exists s. split; [done|by apply Hstarts]. }
  split.
  - intros field Hfield. destruct (count_field_sum field Hfield) as (g & Hg). rewrite (pj_counts _ _ Hp), Hg. apply Hsum.
    intros b Hb. by rewrite (bo_counts _ _ (pj_buckets _ _ Hp b Hb)), Hg.
  - rewrite (pj_seconds _ _ Hp). apply Hsum. intros b Hb. apply (bo_seconds _ _ (pj_buckets _ _ Hp b Hb)).
Qed.

(** The sweep gives each due occurrence the eligibility defined for it alone. *)
Theorem sweep_is_eligibility `{Civil} input o :
  validate_analytics_input input = Ok tt → o ∈ ai_occurrences input → is_due input (effective_end input) o = true →
  ∃ e, habit_occurrence_eligibility (ao_window_start o) (ao_window_end o) (ai_pauses input) (ai_preserves_statistics_when_paused input) = Ok e ∧
       analytics_eligibilities input (effective_end input) !! ao_occurrence_id o = Some e.
Proof.
  intros Hv%validate_input_iff Ho Hdue. pose proof (vi_occurrences _ Hv) as Hall. rewrite Forall_forall in Hall.
  eexists. split; [|apply eligibility_lookup; [apply Hv|apply Hv|intros x Hx; by apply Hall|done|done]].
  apply eligibility_iff. split_and!; [by apply Hall|apply Hv|done].
Qed.


(** ** Witnesses *)

(** Four occurrences in two weeks, the third during a pause. *)
Definition observed_on (id : OccurrenceId) (day : Z) (v : HabitOccurrenceValue) : HabitAnalyticsOccurrence :=
  {| ao_occurrence_id := id; ao_local_date := day; ao_window_start := at_minute (1440 * day);
     ao_window_end := at_minute (1440 * day + 60); ao_value := v |}.

Definition two_weeks : HabitAnalyticsInput :=
  {| ai_range_start := 0; ai_range_end := 13; ai_as_of := at_minute 30000; ai_as_of_local_date := 20;
     ai_trend_granularity := HabitTrendGranularity.Week; ai_week_starts_on := DayOfWeek.Monday;
     ai_preserves_statistics_when_paused := true;
     ai_pauses := [{| pi_start := at_minute 11500; pi_end := Some (at_minute 11600) |}; {| pi_start := at_minute 50; pi_end := Some (at_minute 60) |}];
     ai_occurrences :=
       [observed_on 1 3 (completed_value (Some {| hq_amount := 3; hq_unit := "km" |}) (Some 900%N) None (at_minute 4400));
        observed_on 2 5 (partial_value 5000 None (Some 600%N) None (at_minute 7210));
        observed_on 3 8 pending_value;
        observed_on 4 9 (completed_value (Some {| hq_amount := 4; hq_unit := "km" |}) None None (at_minute 12980))] |}.

Lemma two_weeks_in_calendar : @in_calendar utc_platform gregorian two_weeks.
Proof. split; vm_compute; intros [=]. Qed.

Example two_weeks_projected :
  match @calculate_habit_analytics utc_platform gregorian two_weeks with
  | Ok a => (ac_due (ha_counts a), ac_protected_paused (ha_counts a), ha_adherence_basis_points a, length (ha_trend_buckets a),
             ha_current_streak a, ha_quantity_totals a) = (4%N, 1%N, Some 8333%N, 3, 1%N, [{| qtot_unit := "km"; qtot_amount := 7 |}])
  | Err _ => False
  end.
Proof. vm_compute. reflexivity. Qed.

Lemma analytics_count_the_due_witness :
  ∃ a, @calculate_habit_analytics utc_platform gregorian two_weeks = Ok a ∧ ac_due (ha_counts a) = 4%N ∧
    @projection utc_platform gregorian two_weeks a.
Proof.
  pose proof (@analytics_count_the_due utc_platform gregorian gregorian_laws two_weeks two_weeks_in_calendar) as Hcases.
  assert (@validate_analytics_input gregorian two_weeks = Ok tt) as Hv by (vm_compute; reflexivity).
  assert (@start_of utc_platform gregorian two_weeks 0 = Ok (-3)%Z) as Hs by (vm_compute; reflexivity).
  rewrite Hv in Hcases. destruct Hcases as [(a & Ha & Hp)|(_ & Herr & _)]; [|simpl in Herr; congruence].
  exists a. split; [exact Ha|]. split; [|exact Hp]. rewrite (pj_counts _ _ Hp). vm_compute. reflexivity.
Defined.

Lemma sweep_is_eligibility_witness :
  habit_occurrence_eligibility (at_minute 11520) (at_minute 11580) (ai_pauses two_weeks) true = Ok PausedProtected ∧
  analytics_eligibilities two_weeks 13 !! 3%N = Some PausedProtected.
Proof.
  destruct (@sweep_is_eligibility gregorian two_weeks (observed_on 3 8 pending_value) ltac:(vm_compute; reflexivity)
    ltac:(right; right; left) ltac:(vm_compute; reflexivity)) as (e & He & Hl).
  assert (habit_occurrence_eligibility (at_minute 11520) (at_minute 11580) (ai_pauses two_weeks) true = Ok PausedProtected) as Hp
    by (vm_compute; reflexivity).
  split; [exact Hp|]. change (habit_occurrence_eligibility (at_minute 11520) (at_minute 11580) (ai_pauses two_weeks) true = Ok e) in He.
  rewrite Hp in He. injection He as <-. exact Hl.
Defined.

Lemma trend_partitions_totals_witness :
  ∃ a, @calculate_habit_analytics utc_platform gregorian two_weeks = Ok a ∧ sum_of (λ b, ac_completed (tb_counts b)) (ha_trend_buckets a) = 2%N.
Proof.
  destruct (@calculate_habit_analytics utc_platform gregorian two_weeks) as [a|e] eqn:E; [|vm_compute in E; discriminate E].
  destruct (@trend_partitions_totals utc_platform gregorian gregorian_laws two_weeks a two_weeks_in_calendar E) as (_ & _ & Hf & _).
  exists a. split; [reflexivity|]. rewrite (Hf ac_completed) by (do 4 right; left). vm_compute in E. injection E as <-. reflexivity.
Defined.
