(* ===== verification/Materialize.v ===== *)
(** * Materialize: occurrences as work items

    The second half of crates/dayweave-core/src/recurrence.rs:
    [materialize_recurrences] replaces every recurring subtree of a request by
    one clone per generated occurrence, and rebinds the previous assignments.
    Its theorems are in Subtrees and Clones; Recurring makes it the instance of
    the interface [Recurrences] that the entry points of Pipeline use. *)
From S2P Require Import Prelude Platform Civil Text Tokens Domain Samples Forest Rollup Order Rrule Expansion.

Import RecurrenceError.

(** ** Subtrees *)

(** [while let Some(id) = pending.pop() { .. }] with the sorted children pushed
    in reverse: a depth-first preorder.  Every item is pushed once. *)
Fixpoint walk_subtree (fuel : nat) (children : gmap ItemId (list ItemId)) (pending visited : list ItemId) : list ItemId :=
  match fuel with
  | O => visited
  | S fuel' =>
      match pending with
      | [] => visited
      | id :: rest => walk_subtree fuel' children (default [] (children !! id) ++ rest) (visited ++ [id])
      end
  end.

Definition collect_subtree (items : list WorkItem) (root : ItemId) : list ItemId :=
  walk_subtree (S (length items)) (children_by_parent items) [root] [].

Definition leaf_key_leb (by_id : gmap ItemId WorkItem) (a b : ItemId) : bool :=
  let order id := default u32_max (item ← by_id !! id; wi_sibling_order item) in
  is_le (then_with (order a ?= order b)%N (a ?= b)%N).

Definition subtree_leaves (subtree : list ItemId) (children : gmap ItemId (list ItemId)) (by_id : gmap ItemId WorkItem)
    : list ItemId :=
  let has_children id := existsb (λ child, bool_decide (child ∈ subtree)) (default [] (children !! id)) in
  sort_by (leaf_key_leb by_id)
    (filter (λ id, match by_id !! id with Some item => occupies_time item (has_children id) | None => false end = true) subtree).

(** ** Limits and checks *)

(** [checked_mul] and [checked_add] on [usize]; the totals are far below. *)
Definition checked_materialized_item_count (retained : N) (subtrees : list (N * N)) : result RecurrenceError N :=
  let too_large := MaterializedItemLimitExceeded MAX_RECURRENCE_MATERIALIZED_ITEMS in
  if (MAX_RECURRENCE_MATERIALIZED_ITEMS <? retained)%N then Err too_large
  else
    foldM (λ total p,
      let total := (total + p.1 * p.2)%N in
      if (u64_max <? p.1 * p.2)%N || (MAX_RECURRENCE_MATERIALIZED_ITEMS <? total)%N then Err too_large else Ok total)
      retained subtrees.

Definition partial_remaining_minutes (occurrence_id : OccurrenceId) (progress : RecurrencePartialProgress)
    : result RecurrenceError Minutes :=
  let expected := rp_expected_duration_minutes progress in
  match rp_remaining_duration_minutes progress with
  | Some remaining =>
      if negb (remaining =? 0)%N && (remaining <=? expected)%N then Ok remaining else Err (InvalidPartialProgress occurrence_id)
  | None =>
      let incomplete := (HABIT_BASIS_POINTS_SCALE - rp_progress_basis_points progress)%N in
      let numerator := (expected * incomplete + (HABIT_BASIS_POINTS_SCALE - 1))%N in
      let remaining := (numerator / HABIT_BASIS_POINTS_SCALE)%N in
      if (numerator <=? u64_max)%N && (remaining <=? u32_max)%N && (0 <? remaining)%N && (remaining <=? expected)%N
      then Ok remaining else Err (InvalidPartialProgress occurrence_id)
  end.

(** The owner of each item of the recurring subtrees, given by their roots in
    ascending order. *)
Definition recurring_owners (subtrees : list (ItemId * list ItemId)) : gmap ItemId ItemId :=
  foldl (λ owners p, foldl (λ owners id, <[id := p.1]> owners) owners p.2) ∅ subtrees.

Definition crossing_dependency (owners : gmap ItemId ItemId) (successor : WorkItem) (dependency : Dependency) : bool :=
  match owners !! dep_item_id dependency with
  | None => false
  | Some owner => negb (bool_decide (owners !! wi_id successor = Some owner))
  end.

Definition validate_recurring_subtree_dependencies (request : PlanRequest) (owners : gmap ItemId ItemId)
    : result RecurrenceError unit :=
  forM (λ successor,
    forM (λ dependency,
      if crossing_dependency owners successor dependency
      then Err (CrossRecurringSubtreeDependency (wi_id successor) (dep_item_id dependency)) else Ok tt)
      (dependencies (wi_constraints successor))) (items request).

Definition manual_placement_counts (assignments : list PreviousAssignment) : gmap Uuid (N * N) :=
  foldl (λ counts assignment,
    match pa_manual_placement_id assignment with
    | None => counts
    | Some id =>
        let '(a, b) := default (0, 0)%N (counts !! id) in
        <[id := (a + 1, b + N.of_nat (length (pa_blocks assignment)))%N]> counts
    end) ∅ assignments.

(** ** Clones *)

(** [occurrence.id.0.as_bytes()] *)
Definition id_bytes (id : Uuid) : list N := be_bytes 16 (Z.of_N id).

Definition clone_id `{Platform} (root : ItemId) (occurrence : Occurrence) (original_id : ItemId) : ItemId :=
  if (original_id =? root)%N then occ_id occurrence else uuid_new_v5 original_id (id_bytes (occ_id occurrence)).

(** What [clone] changes in an item. *)
Definition with_clone (original : WorkItem) (id : ItemId) (parent_id : option ItemId) (duration : option DurationEstimate)
    (constraints : SchedulingConstraints) : WorkItem :=
  {| wi_id := id; wi_is_sensitive := wi_is_sensitive original; wi_revision := wi_revision original;
     wi_title := wi_title original; wi_kind := wi_kind original; wi_status := wi_status original;
     wi_parent_id := parent_id; wi_sibling_order := wi_sibling_order original;
     wi_has_own_effort := wi_has_own_effort original;
     wi_has_children_outside_plan := wi_has_children_outside_plan original; wi_goal_ids := wi_goal_ids original;
     wi_priority := wi_priority original; wi_duration := duration; wi_constraints := constraints;
     wi_split_policy := wi_split_policy original; wi_energy := wi_energy original; wi_tags := wi_tags original;
     wi_created_at := wi_created_at original; wi_updated_at := wi_updated_at original |}.

Definition with_dependencies (c : SchedulingConstraints) (deps : list Dependency) (window : AbsoluteWindow) : SchedulingConstraints :=
  {| earliest_start := earliest_start c; latest_finish := latest_finish c; minimum_notice := minimum_notice c;
     allowed_weekdays := allowed_weekdays c; preferred_daily_windows := preferred_daily_windows c;
     preferred_absolute_windows := preferred_absolute_windows c; forbidden_windows := forbidden_windows c;
     required_contexts := required_contexts c; required_location := required_location c; dependencies := deps;
     maximum_daily_work := maximum_daily_work c; maximum_weekly_work := maximum_weekly_work c; buffers := buffers c;
     occurrence_window := Some window |}.

Definition redirect (target : ItemId) (d : Dependency) : Dependency :=
  {| dep_item_id := target; dep_relation := dep_relation d; dep_minimum_lag := dep_minimum_lag d; dep_strength := dep_strength d |}.

Definition spacing_dependency (predecessor : ItemId) (spacing : Minutes) : Dependency :=
  {| dep_item_id := predecessor; dep_relation := StartToStart; dep_minimum_lag := spacing; dep_strength := Hard |}.

(** The duration of a clone: partial progress replaces the root's. *)
Definition clone_duration (request : PlanRequest) (root : ItemId) (occurrence : Occurrence) (original : WorkItem)
    : result RecurrenceError (option DurationEstimate) :=
  let partial :=
    if (wi_id original =? root)%N then rctx_partial_progress (recurrence_context request) !! occ_id occurrence else None in
  match partial with
  | Some progress =>
      let? remaining := partial_remaining_minutes (occ_id occurrence) progress in
      let expected := rp_expected_duration_minutes progress in
      Ok (Some {| de_minimum := expected; de_expected := expected; de_maximum := expected; de_remaining := Some remaining;
                  de_source := match wi_duration original with Some d => de_source d | None => User end |})
  | None =>
      Ok ((λ d, {| de_minimum := de_minimum d; de_expected := de_expected d; de_maximum := de_maximum d;
                   de_remaining := None; de_source := de_source d |}) <$> wi_duration original)
  end.

Section materialize.
Context `{Platform, Civil}.

(** The clone of one member of the subtree. *)
Definition clone_item (request : PlanRequest) (root : ItemId) (subtree : list ItemId) (occurrence : Occurrence)
    (spacing_predecessor : option (ItemId * ItemId)) (spacing : Minutes) (original : WorkItem)
    : result RecurrenceError WorkItem :=
  let rename id := if bool_decide (id ∈ subtree) then clone_id root occurrence id else id in
  let id := clone_id root occurrence (wi_id original) in
  let deps := (λ d, redirect (rename (dep_item_id d)) d) <$> dependencies (wi_constraints original) in
  let deps :=
    match spacing_predecessor with
    | Some (first_leaf, predecessor) =>
        if negb (spacing =? 0)%N && (id =? first_leaf)%N then deps ++ [spacing_dependency predecessor spacing] else deps
    | None => deps
    end in
  let? duration := clone_duration request root occurrence original in
  Ok (with_clone original id (rename <$> wi_parent_id original) duration
        (with_dependencies (wi_constraints original) deps
           {| aw_start := occ_window_start occurrence; aw_end := occ_window_end occurrence |})).

(** The variables of the loop over the roots and their occurrences. *)
Record CloneState : Type := {
  cs_items : list WorkItem;
  cs_identities : gmap ItemId MaterializedIdentity;
  cs_previous_first_leaf : gmap ItemId ItemId
}.

Definition clone_occurrence (request : PlanRequest) (by_id : gmap ItemId WorkItem) (children : gmap ItemId (list ItemId))
    (root : ItemId) (subtree : list ItemId) (spacing : Minutes) (st : CloneState) (occurrence : Occurrence)
    : result RecurrenceError CloneState :=
  let first_leaf := clone_id root occurrence <$> head (subtree_leaves subtree children by_id) in
  let spacing_predecessor :=
    leaf ← first_leaf; predecessor ← cs_previous_first_leaf st !! root; Some (leaf, predecessor) in
  let? (new_items, identities) :=
    foldM (λ acc original_id,
      match by_id !! original_id with
      | None => Ok acc
      | Some original =>
          let? clone := clone_item request root subtree occurrence spacing_predecessor spacing original in
          Ok (acc.1 ++ [clone],
              <[wi_id clone := {| mi_series_item_id := original_id; mi_occurrence_id := occ_id occurrence |}]> acc.2)
      end) (cs_items st, cs_identities st) subtree in
  Ok {| cs_items := new_items; cs_identities := identities;
        cs_previous_first_leaf :=
          match first_leaf with Some leaf => <[root := leaf]> (cs_previous_first_leaf st) | None => cs_previous_first_leaf st end |}.

Definition generated_for (occurrences : list Occurrence) (root : ItemId) : list Occurrence :=
  filter (λ o, occ_state o = OccurrenceState.Generated ∧ occ_series_item_id o = root) occurrences.

Definition clone_root (request : PlanRequest) (occurrences : list Occurrence) (st : CloneState) (item : WorkItem)
    : result RecurrenceError CloneState :=
  let root := wi_id item in
  foldM (clone_occurrence request (collect_by_id (items request)) (children_by_parent (items request)) root
           (collect_subtree (items request) root) (minimum_spacing request item))
    st (generated_for occurrences root).

(** ** Previous assignments *)

Definition rebind (assignment : PreviousAssignment) (clone : ItemId) (occurrence_id : OccurrenceId) : PreviousAssignment :=
  {| pa_item_id := clone; pa_occurrence_id := Some occurrence_id; pa_blocks := pa_blocks assignment;
     pa_pinned := pa_pinned assignment; pa_manual_placement_id := pa_manual_placement_id assignment |}.

Definition occurrence_contains (occurrences : list Occurrence) (block : PreviousBlock) (identity : MaterializedIdentity) : bool :=
  match List.find (λ o, occ_id o =? mi_occurrence_id identity)%N occurrences with
  | Some o => odt_leb (occ_window_start o) (pb_start block) && odt_ltb (pb_start block) (occ_window_end o)
  | None => false
  end.

Definition match_assignment (occurrences : list Occurrence) (candidates : list (ItemId * MaterializedIdentity))
    (assignment : PreviousAssignment) : option (ItemId * MaterializedIdentity) :=
  match pa_occurrence_id assignment with
  | Some id => List.find (λ c, mi_occurrence_id c.2 =? id)%N candidates
  | None =>
      match (block ← head (pa_blocks assignment); List.find (λ c, occurrence_contains occurrences block c.2) candidates) with
      | Some c => Some c
      | None => head candidates
      end
  end.

Definition materialize_assignment (occurrences : list Occurrence) (identities : gmap ItemId MaterializedIdentity)
    (removed : gset ItemId) (assignment : PreviousAssignment) : list PreviousAssignment :=
  let candidates := filter (λ c, mi_series_item_id c.2 = pa_item_id assignment) (entries identities) in
  if bool_decide (candidates = []) then
    if bool_decide (pa_item_id assignment ∈ removed) then [] else [assignment]
  else
    match match_assignment occurrences candidates assignment with
    | Some (clone, identity) => [rebind assignment clone (mi_occurrence_id identity)]
    | None => []
    end.

Definition materialize_previous_assignments (request : PlanRequest) (occurrences : list Occurrence)
    (identities : gmap ItemId MaterializedIdentity) (removed : gset ItemId) : list PreviousAssignment :=
  previous_assignments request ≫= materialize_assignment occurrences identities removed.

(** The requested manual placements that lost an assignment or a block. *)
Definition lost_manual_placement (requested materialized : gmap Uuid (N * N)) : option Uuid :=
  fst <$> List.find (λ p, negb (bool_decide (materialized !! p.1 = Some p.2))) (entries requested).

(** ** The whole pass *)

Definition with_materialized (request : PlanRequest) (new_items : list WorkItem) (assignments : list PreviousAssignment) : PlanRequest :=
  {| as_of := as_of request; horizon_start := horizon_start request; horizon_end := horizon_end request;
     items := new_items; availability := availability request; fixed_blocks := fixed_blocks request;
     previous_assignments := assignments; config := config request; recurrence_context := recurrence_context request |}.

Definition sort_items (l : list WorkItem) : list WorkItem := sort_by (λ a b, wi_id a <=? wi_id b)%N l.

(** The subtrees of the recurring roots, in ascending order of the roots. *)
Definition root_subtrees (request : PlanRequest) : list (ItemId * list ItemId) :=
  (λ root, (root, collect_subtree (items request) root)) <$> sort_by N.leb (request_roots request).

Definition removed_templates (request : PlanRequest) : gset ItemId :=
  list_to_set (root_subtrees request ≫= snd).

Definition retained_items (request : PlanRequest) : list WorkItem :=
  filter (λ item, wi_id item ∉ removed_templates request) (items request).

Definition materialize_recurrences_core (request : PlanRequest) : result RecurrenceError MaterializedPlan :=
  let? occurrences := expand_occurrences_validated request in
  let subtrees := root_subtrees request in
  let? _ := validate_recurring_subtree_dependencies request (recurring_owners subtrees) in
  let retained := retained_items request in
  let? _ := checked_materialized_item_count (N.of_nat (length retained))
    ((λ p, (N.of_nat (length p.2), N.of_nat (length (generated_for occurrences p.1)))) <$> subtrees) in
  let? st := foldM (clone_root request occurrences)
    {| cs_items := retained; cs_identities := ∅; cs_previous_first_leaf := ∅ |} (root_items request) in
  let assignments := materialize_previous_assignments request occurrences (cs_identities st) (removed_templates request) in
  match lost_manual_placement (manual_placement_counts (previous_assignments request)) (manual_placement_counts assignments) with
  | Some placement_id => Err (InvalidManualPlacement placement_id)
  | None =>
      Ok {| mp_request := with_materialized request (sort_items (cs_items st)) assignments;
            mp_occurrences := occurrences; mp_identities := cs_identities st |}
  end.
End materialize.
