(* ===== verification/Subtrees.v ===== *)
(** * Subtrees: the hierarchy walks of the recurrence code

    [recurrence_roots] and [collect_subtree] of
    crates/dayweave-core/src/recurrence.rs walk the hierarchy with a stack.  On
    a complete acyclic hierarchy the walks end within their fuel, the subtree of
    an item is the list of its descendants, each once, and the roots are the
    topmost recurring items. *)
From S2P Require Import Prelude Platform Civil Domain Samples Forest Rollup Order Expansion Materialize.

(** [descends items a x]: [x] is [a] or below it. *)
Definition descends (parents : gmap N (option N)) (a x : N) : Prop := ∃ k, ancestor parents k x = Some a.

Lemma descends_refl parents a : descends parents a a.
Proof. by exists 0. Qed.

Lemma descends_child parents a p c : parents !! c = Some (Some p) → descends parents a p → descends parents a c.
Proof. intros Hc [k Hk]. exists (S k). simpl. by rewrite Hc. Qed.

(** The only way down is through the parent. *)
Lemma descends_cases parents a x :
  descends parents a x → x = a ∨ ∃ p, parents !! x = Some (Some p) ∧ descends parents a p.
Proof.
  intros [[|k] Hk]; simpl in Hk; [left; by simplify_eq|]. right. destruct (parents !! x) as [[p|]|]; [|done..]. exists p. split; [done|by exists k].
Qed.

Lemma descends_trans parents a b c : descends parents a b → descends parents b c → descends parents a c.
Proof. intros [i Hi] [j Hj]. exists (j + i). by rewrite (ancestor_add _ _ _ _ _ Hj). Qed.

(** Two ancestors of the same node are comparable. *)
Lemma descends_linear parents a b x : descends parents a x → descends parents b x → descends parents a b ∨ descends parents b a.
Proof.
  intros [i Hi] [j Hj]. destruct (Nat.le_ge_cases i j) as [Hle|Hle].
  - right. exists (j - i). rewrite <- (ancestor_add _ i _ x _ Hi). by replace (i + (j - i)) with j by lia.
  - left. exists (i - j). rewrite <- (ancestor_add _ j _ x _ Hj). by replace (j + (i - j)) with i by lia.
Qed.

Lemma no_cycle parents a p : forest_ok parents → parents !! a = Some (Some p) → ¬ descends parents a p.
Proof.
  intros Hok Ha [k Hk]. apply (cycle_not_rooted parents a (S k)); [lia|simpl; by rewrite Ha|].
  apply Hok. rewrite Ha. by eexists.
Qed.

Lemma descends_antisym parents a b : forest_ok parents → descends parents a b → descends parents b a → a = b.
Proof.
  intros Hok Hab Hba. destruct (descends_cases _ _ _ Hab) as [|(p & Hp & Hap)]; [done|]. exfalso.
  apply (no_cycle parents b p Hok Hp). by eapply descends_trans.
Qed.

(** ** Walks *)

Section walk.
Context (parents : gmap N (option N)) (children : N → list N).
Hypothesis parents_ok : forest_ok parents.
Hypothesis children_elem : ∀ p c, c ∈ children p ↔ parents !! c = Some (Some p).
Hypothesis children_nodup : ∀ p, NoDup (children p).
Context (start : list N).
Hypothesis start_known : ∀ r, r ∈ start → is_Some (parents !! r).
(** No start lies below another. *)
Hypothesis start_apart : ∀ r r', r ∈ start → r' ∈ start → descends parents r r' → r = r'.

Record walk_inv (visited pending : list N) : Prop := {
  wi_nodup : NoDup (visited ++ pending);
  wi_below x : x ∈ visited ++ pending → ∃ r, r ∈ start ∧ descends parents r x;
  wi_from x : x ∈ visited ++ pending → x ∈ start ∨ ∃ p, p ∈ visited ∧ parents !! x = Some (Some p);
  wi_closed p c : p ∈ visited → c ∈ children p → c ∈ visited ++ pending;
  wi_start r : r ∈ start → r ∈ visited ++ pending
}.

Lemma walk_start : NoDup start → walk_inv [] start.
Proof.
  intros Hnd. split; simpl; [done| |auto| |done].
  - intros x Hx. exists x. split; [done|apply descends_refl].
  - by intros p c ?%not_elem_of_nil.
Qed.

Lemma walk_step visited pending id rest pending' :
  walk_inv visited pending → pending ≡ₚ id :: rest → pending' ≡ₚ rest ++ children id → walk_inv (visited ++ [id]) pending'.
Proof using parents_ok children_elem children_nodup start_apart.
  intros [Hnd Hbelow Hfrom Hclosed Hstart] Hp Hp'.
  assert (∀ x, x ∈ visited ++ pending ↔ x ∈ visited ∨ x = id ∨ x ∈ rest) as Hold
    by (intros x; by rewrite elem_of_app, Hp, elem_of_cons).
  assert (∀ x, x ∈ (visited ++ [id]) ++ pending' ↔ (x ∈ visited ∨ x = id ∨ x ∈ rest) ∨ x ∈ children id) as Hnew.
  { intros x. rewrite !elem_of_app, Hp', elem_of_app, list_elem_of_singleton. tauto. }
  assert (∀ c, c ∈ children id → c ∉ visited ++ pending) as Hfresh.
  { intros c Hc Hin. pose proof (proj1 (children_elem id c) Hc) as Hpc.
    destruct (Hfrom c Hin) as [Hs|(p & Hpv & Hpp)].
    - destruct (Hbelow id) as (r & Hr & Hd); [apply Hold; auto|].
      assert (r = c) as -> by (apply start_apart; [done|done|by apply (descends_child _ _ id)]).
      by apply (no_cycle parents c id parents_ok Hpc).
    - rewrite Hpc in Hpp. injection Hpp as <-. rewrite Hp in Hnd. apply NoDup_app in Hnd as (_ & Hd & _).
      apply (Hd id Hpv). left. }
  assert (∀ x, x ∈ children id → ∃ r, r ∈ start ∧ descends parents r x) as Hchild.
  { intros x Hx. destruct (Hbelow id) as (r & Hr & Hd); [apply Hold; auto|]. exists r. split; [done|].
    apply (descends_child _ _ id); [by apply children_elem|done]. }
  split.
  - rewrite Hp', <- app_assoc. simpl. change (NoDup (visited ++ (id :: rest) ++ children id)). rewrite <- Hp, app_assoc.
    apply NoDup_app. split_and!; [done| |apply children_nodup]. intros x Hx Hc. by apply (Hfresh x).
  - intros x. rewrite Hnew. intros [Hx|Hx]; [apply Hbelow; by apply Hold|by apply Hchild].
  - intros x. rewrite Hnew. intros [Hx|Hx].
    + destruct (Hfrom x) as [|(p & ? & ?)]; [by apply Hold|by left|]. right. exists p. split; [apply elem_of_app; auto|done].
    + right. exists id. split; [apply elem_of_app; right; left|by apply children_elem].
  - intros p c. rewrite elem_of_app, list_elem_of_singleton, Hnew. intros [Hpv| ->] Hc; [|by right].
    left. apply Hold. by apply (Hclosed p).
  - intros r Hr. rewrite Hnew. left. by apply Hold, Hstart.
Qed.

(** A finished walk has visited the descendants of its starts. *)
Lemma walk_final visited x : walk_inv visited [] → (x ∈ visited ↔ ∃ r, r ∈ start ∧ descends parents r x).
Proof using children_elem.
  intros [Hnd Hbelow Hfrom Hclosed Hstart]. rewrite app_nil_r in *. split; [apply Hbelow|]. intros (r & Hr & k & Hk).
  revert x Hk. induction k as [|k IH]; intros x Hk; simpl in Hk; [simplify_eq; by apply Hstart|].
  destruct (parents !! x) as [[p|]|] eqn:Ep; [|done..]. specialize (IH p Hk).
  apply (Hclosed p x IH). by apply children_elem.
Qed.

Lemma descends_known r x : is_Some (parents !! r) → descends parents r x → is_Some (parents !! x).
Proof. intros Hr (k & Hk). destruct k; simpl in Hk; [by simplify_eq|]. destruct (parents !! x); [by eexists|done]. Qed.

(** A walk holds at most every node. *)
Lemma walk_size visited pending : walk_inv visited pending → length visited + length pending <= size parents.
Proof using start_known.
  intros [Hnd Hbelow _ _ _]. rewrite <- length_app, <- (length_keys parents).
  apply NoDup_incl_length; [by apply NoDup_ListNoDup|]. intros x Hx%list_elem_of_In. apply list_elem_of_In, elem_of_keys.
  destruct (Hbelow x Hx) as (r & Hr & Hd). by apply (descends_known r); [apply start_known|].
Qed.
End walk.

(** ** The hierarchy of a request *)

(** What the roll-up establishes before recurrences are materialised. *)
Definition complete_hierarchy (items : list WorkItem) : Prop :=
  NoDup (wi_id <$> items) ∧ forest_ok (item_parents items).

Section hierarchy.
Context (items : list WorkItem).
Hypothesis complete : complete_hierarchy items.

Abbreviation parents := (item_parents items).

Definition children_in (p : ItemId) : list ItemId := default [] (child_map items !! p).

Lemma item_parents_Some c p :
  parents !! c = Some p ↔ ∃ item, item ∈ items ∧ wi_id item = c ∧ wi_parent_id item = p.
Proof using complete.
  destruct complete as [Hnd _]. split.
  - unfold item_parents, parents_map. rewrite lookup_fmap. intros (item & Hl & Hp)%fmap_Some.
    apply collect_by_id_lookup in Hl as [??]; [|done]. by exists item.
  - intros (item & Hin & <- & <-). by apply parents_of_collect.
Qed.

Lemma children_in_elem p c : c ∈ children_in p ↔ parents !! c = Some (Some p).
Proof using complete.
  unfold children_in. rewrite child_map_elem, item_parents_Some. split; intros (item & ? & ? & ?); by exists item.
Qed.

Lemma children_in_nodup p : NoDup (children_in p).
Proof using complete.
  destruct complete as [Hnd _]. unfold children_in, child_map. rewrite lookup_fmap.
  set (m := foldl _ ∅ items). assert (default [] (sort_by N.leb <$> m !! p) ≡ₚ default [] (m !! p)) as ->.
  { destruct (m !! p); simpl; [apply sort_by_perm|done]. }
  assert (default [] (m !! p) = wi_id <$> filter (λ item, wi_parent_id item = Some p) items) as ->.
  { subst m. clear complete Hnd. induction items as [|a l IH] using rev_ind; simpl; [by rewrite lookup_empty|].
    rewrite foldl_app, filter_app, fmap_app, <- IH. simpl. rewrite filter_cons, filter_nil.
    destruct (wi_parent_id a) as [q|]; [|by rewrite app_nil_r]. unfold push_entry. rewrite lookup_insert.
    case_decide; case_decide; simplify_eq; [done|by rewrite app_nil_r]. }
  apply (sublist_NoDup _ _ Hnd), fmap_sublist, sublist_filter.
Qed.

Lemma size_item_parents : size parents = length items.
Proof using complete.
  destruct complete as [Hnd _]. unfold item_parents, parents_map. rewrite map_size_fmap. by apply size_collect_by_id.
Qed.

(** ** [collect_subtree] *)

Section subtree.
Context (root : ItemId) (known : root ∈ wi_id <$> items).

Lemma root_known r : r ∈ [root] → is_Some (parents !! r).
Proof using complete known.
  intros ->%list_elem_of_singleton. apply list_elem_of_fmap in known as (item & -> & Hin).
  exists (wi_parent_id item). apply item_parents_Some. by exists item.
Qed.

Lemma root_apart r r' : r ∈ [root] → r' ∈ [root] → descends parents r r' → r = r'.
Proof. by intros ->%list_elem_of_singleton ->%list_elem_of_singleton. Qed.

Lemma walk_subtree_ok fuel visited pending :
  walk_inv parents children_in [root] visited pending → length items < fuel + length visited →
  walk_inv parents children_in [root] (walk_subtree fuel (child_map items) pending visited) [].
Proof using complete known.
  revert visited pending. induction fuel as [|fuel IH]; intros visited pending Hinv Hf.
  - pose proof (walk_size _ _ _ root_known _ _ Hinv) as Hs. rewrite size_item_parents in Hs. lia.
  - cbn [walk_subtree]. destruct pending as [|id rest]; [done|]. apply IH; [|rewrite length_app; simpl; lia].
    eapply (walk_step parents children_in (proj2 complete) children_in_elem children_in_nodup [root] root_apart); [done|done|].
    unfold children_in. by rewrite Permutation_app_comm.
Qed.

(** The subtree of an item is the list of its descendants, each once. *)
Lemma collect_subtree_exact :
  NoDup (collect_subtree items root) ∧ ∀ x, x ∈ collect_subtree items root ↔ descends parents root x.
Proof using complete known.
  assert (walk_inv parents children_in [root] (collect_subtree items root) []) as Hinv.
  { apply walk_subtree_ok; [apply walk_start, NoDup_singleton|simpl; lia]. }
  split; [by pose proof (wi_nodup _ _ _ _ _ Hinv) as Hnd; rewrite app_nil_r in Hnd|]. intros x.
  rewrite (walk_final _ _ children_in_elem _ _ _ Hinv). setoid_rewrite list_elem_of_singleton. naive_solver.
Qed.
End subtree.

(** ** [recurrence_roots] *)

Definition recurs (id : ItemId) : Prop :=
  ∃ item, item ∈ items ∧ wi_id item = id ∧ is_Some (recurrence_of item).

(** Something strictly above the node recurs. *)
Definition covered (x : ItemId) : Prop := ∃ a, a ≠ x ∧ descends parents a x ∧ recurs a.

Lemma covered_child p c : parents !! c = Some (Some p) → (covered c ↔ covered p ∨ recurs p).
Proof using complete.
  intros Hc. split.
  - intros (a & Hne & Hd & Hr). destruct (descends_cases _ _ _ Hd) as [->|(q & Hq & Hq')]; [done|].
    rewrite Hc in Hq. injection Hq as <-. destruct (decide (a = p)) as [->|]; [by right|left; by exists a].
  - intros H. assert (∃ a, descends parents a p ∧ recurs a) as (a & Hd & Hr).
    { destruct H as [(a & _ & ? & ?)|?]; [by exists a|exists p; split; [apply descends_refl|done]]. }
    exists a. split_and!; [|by apply (descends_child _ _ p)|done]. intros ->. by apply (no_cycle parents c p (proj2 complete) Hc).
Qed.

Lemma recurs_lookup id :
  match collect_by_id items !! id with Some item => bool_decide (is_Some (recurrence_of item)) | None => false end = true ↔ recurs id.
Proof using complete.
  destruct complete as [Hnd _]. split.
  - destruct (collect_by_id items !! id) as [item|] eqn:E; [|done]. intros Hr%bool_decide_eq_true.
    apply collect_by_id_lookup in E as [??]; [|done]. by exists item.
  - intros (item & Hin & <- & Hr). rewrite (proj2 (collect_by_id_lookup _ _ item Hnd)) by done. by apply bool_decide_eq_true.
Qed.

Definition top_ids : list ItemId := wi_id <$> filter (λ item, wi_parent_id item = None) items.

Lemma top_elem r : r ∈ top_ids ↔ parents !! r = Some None.
Proof using complete.
  unfold top_ids. rewrite item_parents_Some, list_elem_of_fmap. setoid_rewrite list_elem_of_filter. naive_solver.
Qed.

Lemma top_known r : r ∈ top_ids → is_Some (parents !! r).
Proof using complete. rewrite top_elem. intros ->. by eexists. Qed.

Lemma top_apart r r' : r ∈ top_ids → r' ∈ top_ids → descends parents r r' → r = r'.
Proof using complete. rewrite !top_elem. intros _ Hr' [->|(p & Hp & _)]%descends_cases; [done|congruence]. Qed.

Lemma every_item_below_top x : is_Some (parents !! x) → ∃ r, r ∈ top_ids ∧ descends parents r x.
Proof using complete.
  intros Hx. destruct complete as [_ Hok]. specialize (Hok x Hx). induction Hok as [id Hid|id p Hid Hr IH].
  - exists id. split; [by apply top_elem|apply descends_refl].
  - destruct IH as (r & ? & ?); [destruct Hr as [? Hp|? ? Hp _]; rewrite Hp; by eexists|].
    exists r. split; [done|by apply (descends_child _ _ p)].
Qed.

Lemma mark_roots_ok fuel visited pending roots :
  walk_inv parents children_in top_ids visited pending.*1 → length items < fuel + length visited →
  (∀ id flag, (id, flag) ∈ pending → (flag = true ↔ covered id)) →
  (∀ x, x ∈ roots ↔ x ∈ visited ∧ recurs x ∧ ¬ covered x) →
  ∀ x, x ∈ mark_roots fuel (collect_by_id items) (child_map items) roots pending ↔ is_Some (parents !! x) ∧ recurs x ∧ ¬ covered x.
Proof using complete.
  revert visited pending roots. induction fuel as [|fuel IH]; intros visited pending roots Hinv Hf Hflag Hroots x.
  - pose proof (walk_size _ _ _ top_known _ _ Hinv) as Hs. rewrite size_item_parents in Hs. lia.
  - cbn [mark_roots]. destruct (rev pending) as [|[id above] rest] eqn:Erev.
    + assert (pending = []) as -> by (rewrite <- (rev_involutive pending), Erev; done). rewrite Hroots.
      rewrite (walk_final _ _ children_in_elem _ _ _ Hinv). split; intros (Hx & ? & ?); (split_and!; [|done..]).
      * destruct Hx as (r & Hr & Hd). apply (descends_known parents r); [by apply top_known|done].
      * by apply every_item_below_top.
    + assert (pending = rev rest ++ [(id, above)]) as Hp by (rewrite <- (rev_involutive pending), Erev; done).
      set (r := match collect_by_id items !! id with Some item => _ | None => false end).
      assert (r = true ↔ recurs id) as Hr by apply recurs_lookup.
      assert (above = true ↔ covered id) as Habove by (apply Hflag; rewrite Hp; apply elem_of_app; right; left).
      apply (IH (visited ++ [id])).
      * eapply (walk_step parents children_in (proj2 complete) children_in_elem children_in_nodup top_ids top_apart _ pending.*1 id (rev rest).*1);
          [done|rewrite Hp, fmap_app; simpl; by rewrite Permutation_app_comm|].
        rewrite fmap_app, <- list_fmap_compose. unfold children_in. rewrite (list_fmap_id (default [] _)). done.
      * rewrite length_app. simpl. lia.
      * intros c flag [Hc|Hc]%elem_of_app; [apply Hflag; rewrite Hp; apply elem_of_app; by left|].
        apply list_elem_of_fmap in Hc as (c' & [= -> ->] & Hc'). apply (children_in_elem id) in Hc'.
        rewrite (covered_child _ _ Hc'), <- Habove, <- Hr. fold r. rewrite orb_true_iff. done.
      * intros y. destruct (r && negb above) eqn:E.
        -- apply andb_true_iff in E as [E1 E2]. rewrite elem_of_union, elem_of_singleton, Hroots, elem_of_app, list_elem_of_singleton.
           split; [|naive_solver]. intros [->|?]; [|naive_solver]. split_and!; [by right|by apply Hr|]. rewrite <- Habove. by destruct above.
        -- rewrite Hroots, elem_of_app, list_elem_of_singleton. split; [naive_solver|]. intros ([?| ->] & Hry & Hcy); [done|].
           exfalso. apply Hr in Hry. rewrite Hry in E. simpl in E. apply Hcy, Habove. by destruct above.
Qed.

(** The roots are the topmost recurring items, in the order of the items. *)
Lemma recurrence_roots_exact :
  recurrence_roots items (collect_by_id items) (children_by_parent items) `sublist_of` (wi_id <$> items) ∧
  ∀ x, x ∈ recurrence_roots items (collect_by_id items) (children_by_parent items) ↔ recurs x ∧ ¬ covered x.
Proof using complete.
  unfold recurrence_roots. split; [apply sublist_filter|]. intros x. rewrite list_elem_of_filter.
  set (pending := _ <$> filter _ items).
  assert (pending.*1 = top_ids) as Hp by (unfold pending, top_ids; by rewrite <- list_fmap_compose).
  rewrite (mark_roots_ok _ [] pending ∅).
  - assert (∀ x, is_Some (parents !! x) ↔ x ∈ wi_id <$> items) as Hk.
    { intros y. unfold item_parents, parents_map. by rewrite lookup_fmap, fmap_is_Some, collect_by_id_is_Some. }
    rewrite Hk. split; [naive_solver|]. intros [(item & Hin & <- & Hr) Hc]. split_and!; try done; [apply list_elem_of_fmap; by exists item| |apply list_elem_of_fmap; by exists item].
    by exists item.
  - rewrite Hp. apply walk_start. unfold top_ids. apply (sublist_NoDup _ _ (proj1 complete)), fmap_sublist, sublist_filter.
  - simpl. lia.
  - intros id flag (item & [= -> ->] & [Hn Hin]%list_elem_of_filter)%list_elem_of_fmap. split; [done|].
    intros (a & Hne & [Ha|(p & Hp' & _)]%descends_cases & _); [by destruct Hne|].
    apply item_parents_Some in Hp' as (item' & Hin' & Hid & Hpp).
    assert (item' = item) as ->; [|congruence]. destruct complete as [Hnd _].
    pose proof (proj2 (collect_by_id_lookup _ _ item' Hnd) (conj Hin' Hid)).
    pose proof (proj2 (collect_by_id_lookup _ (wi_id item) item Hnd) (conj Hin eq_refl)). congruence.
  - intros y. split; [by intros ?%elem_of_empty|]. by intros [?%not_elem_of_nil _].
Qed.
End hierarchy.
