(* ===== verification/Clones.v ===== *)
(** * Clones: what the materialised request promises

    Theorems about Materialize: on a complete hierarchy, the materialised items
    are the items outside the recurring subtrees and one clone of each subtree
    member per generated occurrence, never more than the limit; every reference
    between items still resolves; consecutive occurrences of a series keep the
    minimum spacing; partial progress leaves a positive remainder. *)
From S2P Require Import Prelude Text Platform Civil Domain Samples Forest Rollup Order Rrule Expansion Horizon Occurrences Materialize Subtrees.

Import RecurrenceError.

(** ** The recurring subtrees *)

Section owners.
Context (request : PlanRequest).
Hypothesis complete : complete_hierarchy (items request).

Abbreviation its := (items request).
Abbreviation parents := (item_parents its).

Lemma root_iff x : x ∈ request_roots request ↔ recurs its x ∧ ¬ covered its x.
Proof using complete. unfold request_roots. by apply recurrence_roots_exact. Qed.

Lemma roots_nodup : NoDup (request_roots request).
Proof using complete.
  eapply (sublist_NoDup _ _ (proj1 complete)). unfold request_roots. by apply recurrence_roots_exact.
Qed.

Lemma root_known_item r : r ∈ request_roots request → r ∈ wi_id <$> its.
Proof using complete. intros [(item & Hin & <- & _) _]%root_iff. apply list_elem_of_fmap. by exists item. Qed.

(** Recurring subtrees are disjoint. *)
Lemma one_root r r' x :
  r ∈ request_roots request → r' ∈ request_roots request → descends parents r x → descends parents r' x → r = r'.
Proof using complete.
  intros [Hr Hc]%root_iff [Hr' Hc']%root_iff Hd Hd'. destruct (decide (r = r')) as [|Hne]; [done|]. exfalso.
  destruct (descends_linear _ _ _ _ Hd Hd') as [H|H]; [apply Hc'; exists r|apply Hc; exists r']; done.
Qed.

Lemma removed_iff x : x ∈ removed_templates request ↔ ∃ r, r ∈ request_roots request ∧ descends parents r x.
Proof using complete.
  unfold removed_templates, root_subtrees. rewrite elem_of_list_to_set, list_elem_of_bind. split.
  - intros (p & Hx & (r & -> & Hr)%list_elem_of_fmap). rewrite elem_of_sort_by in Hr. exists r. split; [done|].
    simpl in Hx. apply collect_subtree_exact in Hx; [done|done|by apply root_known_item].
  - intros (r & Hr & Hd). exists (r, collect_subtree its r). split.
    + simpl. apply collect_subtree_exact; [done|by apply root_known_item|done].
    + apply list_elem_of_fmap. exists r. by rewrite elem_of_sort_by.
Qed.

(** The owner of an item is the root above it. *)
Lemma owners_fold (l : list (ItemId * list ItemId)) (m : gmap ItemId ItemId) x :
  (∀ p q y, p ∈ l → q ∈ l → y ∈ p.2 → y ∈ q.2 → p.1 = q.1) → (∀ p y, p ∈ l → y ∈ p.2 → m !! y = None) →
  ∀ r, foldl (λ owners p, foldl (λ owners id, <[id := p.1]> owners) owners p.2) m l !! x = Some r ↔
    m !! x = Some r ∨ ∃ p, p ∈ l ∧ p.1 = r ∧ x ∈ p.2.
Proof.
  assert (∀ (ids : list ItemId) (k : ItemId) (m : gmap ItemId ItemId),
    foldl (λ owners id, <[id := k]> owners) m ids !! x = if decide (x ∈ ids) then Some k else m !! x) as Hins.
  { clear. intros ids k. induction ids as [|a ids IH]; intros m; [by rewrite decide_False by apply not_elem_of_nil|]. simpl. rewrite IH.
    destruct (decide (x ∈ ids)); [by rewrite decide_True by (by right)|].
    destruct (decide (x = a)) as [->|]; [rewrite lookup_insert_eq, decide_True; [done|left]|].
    rewrite lookup_insert_ne, decide_False; [done|by intros [?|?]%elem_of_cons|done]. }
  induction l as [|p l IH] using rev_ind; intros Hdis Hm r.
  { simpl. split; [by left|]. by intros [|(p & ?%not_elem_of_nil & _)]. }
  rewrite foldl_app. simpl. rewrite Hins. destruct (decide (x ∈ p.2)) as [Hx|Hx].
  - split.
    + intros [= <-]. right. exists p. split; [apply elem_of_app; right; left|done].
    + intros [Hm'|(q & Hq & <- & Hxq)].
      * rewrite (Hm p x) in Hm'; [done|apply elem_of_app; right; left|done].
      * f_equal. apply (Hdis p q x); [apply elem_of_app; right; left|done..].
  - rewrite IH.
    + split; (intros [|(q & Hq & ? & ?)]; [by left|right]); exists q; (split; [|done]).
      * apply elem_of_app. by left.
      * apply elem_of_app in Hq as [?| ->%list_elem_of_singleton]; done.
    + intros p' q y Hp' Hq. apply Hdis; apply elem_of_app; by left.
    + intros p' y Hp'. apply Hm. apply elem_of_app. by left.
Qed.

Lemma owner_iff x r : recurring_owners (root_subtrees request) !! x = Some r ↔ r ∈ request_roots request ∧ descends parents r x.
Proof using complete.
  assert (∀ p y, p ∈ root_subtrees request → y ∈ p.2 → p.1 ∈ request_roots request ∧ descends parents p.1 y) as Hsub.
  { intros p y (r' & -> & Hr')%list_elem_of_fmap Hy. simpl in *. rewrite elem_of_sort_by in Hr'.
    apply collect_subtree_exact in Hy; [done|done|by apply root_known_item]. }
  unfold recurring_owners. rewrite owners_fold.
  - rewrite lookup_empty. split.
    + intros [|(p & Hp & <- & Hx)]; [done|]. by apply Hsub.
    + intros [Hr Hd]. right. exists (r, collect_subtree its r). split_and!; [|done|].
      * apply list_elem_of_fmap. exists r. by rewrite elem_of_sort_by.
      * apply collect_subtree_exact; [done|by apply root_known_item|done].
  - intros p q y Hp Hq Hyp Hyq. destruct (Hsub p y Hp Hyp), (Hsub q y Hq Hyq). by apply (one_root _ _ y).
  - intros p y _ _. apply lookup_empty.
Qed.

(** A dependency on a recurring subtree stays inside it. *)
Lemma dependencies_inside :
  validate_recurring_subtree_dependencies request (recurring_owners (root_subtrees request)) = Ok tt →
  ∀ item d r, item ∈ its → d ∈ dependencies (wi_constraints item) → r ∈ request_roots request →
    descends parents r (dep_item_id d) → descends parents r (wi_id item).
Proof using complete.
  unfold validate_recurring_subtree_dependencies. rewrite forM_ok, Forall_forall. intros Hv item d r Hin Hd Hr Hdesc.
  specialize (Hv item Hin). rewrite forM_ok, Forall_forall in Hv. specialize (Hv d Hd). unfold crossing_dependency in Hv.
  pose proof (proj2 (owner_iff (dep_item_id d) r) (conj Hr Hdesc)) as E. rewrite E in Hv. case_bool_decide as Ho; [|done].
  by apply owner_iff in Ho as [_ ?].
Qed.

(** Above a recurring item there is a root. *)
Lemma root_or_none x :
  rooted parents x → (∃ r, r ∈ request_roots request ∧ descends parents r x) ∨ ∀ a, descends parents a x → ¬ recurs its a.
Proof using complete.
  assert (∀ y, (∀ a, a ≠ y → descends parents a y → ¬ recurs its a) →
    (∃ r, r ∈ request_roots request ∧ descends parents r y) ∨ ∀ a, descends parents a y → ¬ recurs its a) as Htop.
  { intros y Hy. destruct (match collect_by_id its !! y with Some item => bool_decide (is_Some (recurrence_of item)) | None => false end) eqn:E.
    - left. exists y. split; [|apply descends_refl]. apply root_iff. split; [by apply (recurs_lookup its complete)|].
      intros (a & Hne & Hd & Hr). by apply (Hy a).
    - right. intros a Hd Hr. destruct (decide (a = y)) as [->|Hne]; [|by apply (Hy a)].
      apply (recurs_lookup its complete) in Hr. congruence. }
  induction 1 as [y Hp|y p Hp Hr [(r & Hroot & Hd)|IH]].
  - apply Htop. intros a Hne [->|(q & Hq & _)]%descends_cases; [done|congruence].
  - left. exists r. split; [done|]. by apply (descends_child _ _ p).
  - apply Htop. intros a Hne [->|(q & Hq & Hd)]%descends_cases; [done|]. rewrite Hp in Hq. injection Hq as <-. by apply IH.
Qed.

Lemma topmost a x : recurs its a → descends parents a x → ∃ r, r ∈ request_roots request ∧ descends parents r x.
Proof using complete.
  intros Ha Hd. destruct (root_or_none a) as [(r & Hr & Hra)|Hno].
  - destruct Ha as (item & Hin & <- & _). apply (proj2 complete). exists (wi_parent_id item). apply item_parents_Some; [done|]. by exists item.
  - exists r. split; [done|]. by eapply descends_trans.
  - by destruct (Hno a (descends_refl _ _)).
Qed.

Lemma retained_iff item : item ∈ retained_items request ↔ item ∈ its ∧ ¬ ∃ r, r ∈ request_roots request ∧ descends parents r (wi_id item).
Proof using complete. unfold retained_items. rewrite list_elem_of_filter, removed_iff. tauto. Qed.

Lemma root_items_ids : wi_id <$> root_items request = request_roots request.
Proof using complete.
  unfold root_items. assert (∀ r, r ∈ request_roots request → r ∈ wi_id <$> its) as Hk by apply root_known_item.
  induction (request_roots request) as [|r l IH]; [done|]. simpl.
  destruct (proj2 (collect_by_id_is_Some its r) (Hk r ltac:(left))) as [item Hitem]. rewrite Hitem. simpl.
  apply collect_by_id_in in Hitem as [_ ->]. f_equal. apply IH. intros x Hx. apply Hk. by right.
Qed.
End owners.

(** ** Clones of occurrences *)

Section clones.
Context `{Platform, Civil}.
Context (request : PlanRequest).
Hypothesis complete : complete_hierarchy (items request).

Abbreviation its := (items request).
Abbreviation parents := (item_parents its).
Abbreviation subtree root := (collect_subtree its root).

(** The first leaf of a subtree, which carries the minimum spacing. *)
Definition first_leaf_of (root : ItemId) : option ItemId :=
  head (subtree_leaves (subtree root) (children_by_parent its) (collect_by_id its)).

(** The spacing dependency of an occurrence after another one of its series. *)
Definition spacing_after (root : ItemId) (previous : option Occurrence) (o : Occurrence) : option (ItemId * ItemId) :=
  leaf ← first_leaf_of root; previous ← previous; Some (clone_id root o leaf, clone_id root previous leaf).

(** Each occurrence with the one before it. *)
Definition with_previous (l : list Occurrence) : list (option Occurrence * Occurrence) :=
  zip (None :: (Some <$> l)) l.

(** The clone of a subtree member for an occurrence and the one before it. *)
Definition is_clone (root : WorkItem) (p : option Occurrence * Occurrence) (original_id : ItemId) (x : WorkItem) : Prop :=
  ∃ original, original ∈ its ∧ wi_id original = original_id ∧
    clone_item request (wi_id root) (subtree (wi_id root)) p.2 (spacing_after (wi_id root) p.1 p.2) (minimum_spacing request root) original = Ok x.

Definition identity_of (root : WorkItem) (o : Occurrence) (original_id : ItemId) : ItemId * MaterializedIdentity :=
  (clone_id (wi_id root) o original_id, {| mi_series_item_id := original_id; mi_occurrence_id := occ_id o |}).

Definition add_identities (m : gmap ItemId MaterializedIdentity) (l : list (ItemId * MaterializedIdentity)) :=
  foldl (λ m p, <[p.1 := p.2]> m) m l.

Lemma clone_item_id root st o pred spacing original x :
  clone_item request root st o pred spacing original = Ok x → wi_id x = clone_id root o (wi_id original).
Proof. unfold clone_item. by intros (d & _ & [= <-])%rbind_ok. Qed.

(** Members of a subtree are items. *)
Lemma subtree_known root x : root ∈ wi_id <$> its → x ∈ subtree root → x ∈ wi_id <$> its.
Proof using complete.
  intros Hr Hx. apply collect_subtree_exact in Hx; [|done..]. apply collect_by_id_is_Some.
  assert (∀ y, is_Some (parents !! y) ↔ is_Some (collect_by_id its !! y)) as Hy
    by (intros y; unfold item_parents, parents_map; by rewrite lookup_fmap, fmap_is_Some).
  apply Hy, (descends_known parents root); [by apply Hy, collect_by_id_is_Some|done].
Qed.

Lemma clone_members root p l acc acc' :
  (∀ x, x ∈ l → x ∈ wi_id <$> its) →
  foldM (λ acc original_id,
      match collect_by_id its !! original_id with
      | None => Ok acc
      | Some original =>
          let? clone := clone_item request (wi_id root) (subtree (wi_id root)) p.2 (spacing_after (wi_id root) p.1 p.2)
                          (minimum_spacing request root) original in
          Ok (acc.1 ++ [clone],
              <[wi_id clone := {| mi_series_item_id := original_id; mi_occurrence_id := occ_id p.2 |}]> acc.2)
      end) acc l = Ok acc' →
  ∃ made, acc'.1 = acc.1 ++ made ∧ Forall2 (is_clone root p) l made ∧ acc'.2 = add_identities acc.2 (identity_of root p.2 <$> l).
Proof.
  revert acc. induction l as [|id l IH]; intros acc Hk; simpl.
  { intros [= <-]. exists []. rewrite app_nil_r. split_and!; [done|constructor|done]. }
  destruct (proj2 (collect_by_id_is_Some its id) (Hk id ltac:(left))) as [original Ho]. rewrite Ho.
  intros (acc1 & (x & Hx & [= <-])%rbind_ok & Hl)%rbind_ok. pose proof (clone_item_id _ _ _ _ _ _ _ Hx) as Hid.
  apply collect_by_id_in in Ho as [Hin Hoid].
  destruct (IH _ (λ y Hy, Hk y ltac:(by right)) Hl) as (made & Hmade & HF & Hids).
  exists (x :: made). simpl in *. rewrite Hmade, <- app_assoc, Hids, Hid, Hoid. split_and!; [done| |done].
  constructor; [|done]. by exists original.
Qed.

(** What the loop leaves in [previous_first_leaf]. *)
Definition remembers (root : ItemId) (m : gmap ItemId ItemId) (previous : option Occurrence) : Prop :=
  m !! root = (leaf ← first_leaf_of root; previous ← previous; Some (clone_id root previous leaf)).

Lemma remembered root m previous o :
  remembers root m previous →
  (leaf ← (clone_id root o <$> first_leaf_of root); predecessor ← m !! root; Some (leaf, predecessor)) = spacing_after root previous o.
Proof.
  unfold remembers, spacing_after. intros ->. destruct (first_leaf_of root) as [leaf|]; [|done]. simpl. by destruct previous.
Qed.

Lemma clone_occurrence_ok root st previous o st' :
  wi_id root ∈ wi_id <$> its → remembers (wi_id root) (cs_previous_first_leaf st) previous →
  clone_occurrence request (collect_by_id its) (children_by_parent its) (wi_id root) (subtree (wi_id root))
    (minimum_spacing request root) st o = Ok st' →
  ∃ made, cs_items st' = cs_items st ++ made ∧ Forall2 (is_clone root (previous, o)) (subtree (wi_id root)) made ∧
    cs_identities st' = add_identities (cs_identities st) (identity_of root o <$> subtree (wi_id root)) ∧
    remembers (wi_id root) (cs_previous_first_leaf st') (Some o) ∧
    (∀ k, k ≠ wi_id root → cs_previous_first_leaf st' !! k = cs_previous_first_leaf st !! k).
Proof using complete.
  intros Hk Hrem. unfold clone_occurrence. fold (first_leaf_of (wi_id root)). rewrite (remembered _ _ _ o Hrem).
  intros ([new_items ids] & Hl & [= <-])%rbind_ok.
  apply (clone_members root (previous, o)) in Hl as (made & Hmade & HF & Hids); [|intros x; by apply subtree_known]. simpl in *.
  exists made. split_and!; [done|done|done| |].
  - unfold remembers. destruct (first_leaf_of (wi_id root)) as [leaf|] eqn:El; simpl; [by rewrite lookup_insert_eq|].
    unfold remembers in Hrem. by rewrite El in Hrem.
  - intros k Hne. destruct (first_leaf_of (wi_id root)); simpl; [by rewrite lookup_insert_ne|done].
Qed.

(** One job per subtree member and generated occurrence. *)
Definition root_jobs (occurrences : list Occurrence) (root : WorkItem) : list ((option Occurrence * Occurrence) * ItemId) :=
  with_previous (generated_for occurrences (wi_id root)) ≫= λ p, pair p <$> subtree (wi_id root).

Definition jobs_from (root : WorkItem) (previous : option Occurrence) (l : list Occurrence) : list ((option Occurrence * Occurrence) * ItemId) :=
  zip (previous :: (Some <$> l)) l ≫= λ p, pair p <$> subtree (wi_id root).

Definition job_identity (root : WorkItem) (job : (option Occurrence * Occurrence) * ItemId) : ItemId * MaterializedIdentity :=
  identity_of root job.1.2 job.2.

Lemma add_identities_app m l1 l2 : add_identities m (l1 ++ l2) = add_identities (add_identities m l1) l2.
Proof. unfold add_identities. by rewrite foldl_app. Qed.

Lemma clone_occurrences_ok root l st previous st' :
  wi_id root ∈ wi_id <$> its → remembers (wi_id root) (cs_previous_first_leaf st) previous →
  foldM (clone_occurrence request (collect_by_id its) (children_by_parent its) (wi_id root) (subtree (wi_id root))
    (minimum_spacing request root)) st l = Ok st' →
  ∃ made, cs_items st' = cs_items st ++ made ∧
    Forall2 (λ job, is_clone root job.1 job.2) (jobs_from root previous l) made ∧
    cs_identities st' = add_identities (cs_identities st) (job_identity root <$> jobs_from root previous l) ∧
    (∀ k, k ≠ wi_id root → cs_previous_first_leaf st' !! k = cs_previous_first_leaf st !! k).
Proof using complete.
  intros Hk. revert st previous. induction l as [|o l IH]; intros st previous Hrem Hl; simpl in Hl.
  { injection Hl as <-. exists []. rewrite app_nil_r. split_and!; [done|constructor|done|done]. }
  apply rbind_ok in Hl as (st1 & Ho & Hl). destruct (clone_occurrence_ok _ _ _ _ _ Hk Hrem Ho) as (made & Hm & HF & Hids & Hrem1 & Hother).
  destruct (IH st1 (Some o) Hrem1 Hl) as (made' & Hm' & HF' & Hids' & Hother').
  exists (made ++ made'). rewrite app_assoc, <- Hm, Hm'. unfold jobs_from in *. simpl. split_and!; [done| | |].
  - apply Forall2_app; [|done]. by apply Forall2_fmap_l.
  - rewrite Hids', Hids, fmap_app, add_identities_app, <- list_fmap_compose. done.
  - intros k Hne. by rewrite Hother', Hother.
Qed.

Definition all_jobs (occurrences : list Occurrence) (roots : list WorkItem) : list (WorkItem * ((option Occurrence * Occurrence) * ItemId)) :=
  roots ≫= λ root, pair root <$> root_jobs occurrences root.

Lemma clone_roots_ok occurrences roots st st' :
  NoDup (wi_id <$> roots) → (∀ root, root ∈ roots → wi_id root ∈ wi_id <$> its) →
  (∀ root, root ∈ roots → cs_previous_first_leaf st !! wi_id root = None) →
  foldM (clone_root request occurrences) st roots = Ok st' →
  ∃ made, cs_items st' = cs_items st ++ made ∧
    Forall2 (λ job, is_clone job.1 job.2.1 job.2.2) (all_jobs occurrences roots) made ∧
    cs_identities st' = add_identities (cs_identities st) ((λ job, job_identity job.1 job.2) <$> all_jobs occurrences roots).
Proof using complete.
  revert st. induction roots as [|root roots IH]; intros st Hnd Hk Hnone Hl; simpl in Hl.
  { injection Hl as <-. exists []. rewrite app_nil_r. split_and!; [done|constructor|done]. }
  apply NoDup_cons in Hnd as [Hfresh Hnd]. apply rbind_ok in Hl as (st1 & Ho & Hl).
  assert (remembers (wi_id root) (cs_previous_first_leaf st) None) as Hrem.
  { unfold remembers. rewrite Hnone by left. by destruct (first_leaf_of _). }
  destruct (clone_occurrences_ok _ _ _ _ _ (Hk root ltac:(left)) Hrem Ho) as (made & Hm & HF & Hids & Hother).
  destruct (IH st1 Hnd (λ r Hr, Hk r ltac:(by right))) as (made' & Hm' & HF' & Hids'); [|done|].
  { intros r Hr. rewrite Hother; [apply Hnone; by right|]. intros Heq. apply Hfresh. rewrite <- Heq. by apply list_elem_of_fmap_2. }
  exists (made ++ made'). rewrite app_assoc, <- Hm, Hm'. unfold all_jobs in *. simpl. split_and!; [done| |].
  - apply Forall2_app; [|done]. by apply Forall2_fmap_l.
  - rewrite Hids', Hids, fmap_app, add_identities_app, <- list_fmap_compose. done.
Qed.
End clones.

(** ** The materialised request *)

Lemma sum_list_with_perm {A} (f : A → N) l l' : l ≡ₚ l' → foldr (λ a n, f a + n)%N 0%N l = foldr (λ a n, f a + n)%N 0%N l'.
Proof. induction 1; simpl; lia. Qed.

Lemma checked_count_ok retained l n :
  checked_materialized_item_count retained l = Ok n →
  n = (retained + foldr (λ p n, p.1 * p.2 + n) 0 l)%N ∧ (n <= MAX_RECURRENCE_MATERIALIZED_ITEMS)%N.
Proof.
  unfold checked_materialized_item_count. destruct (N.ltb_spec MAX_RECURRENCE_MATERIALIZED_ITEMS retained) as [|Hr]; [done|].
  revert retained Hr. induction l as [|p l IH]; intros retained Hr; simpl; [intros [= <-]; split; [lia|done]|].
  intros (m & Hm & Hl)%rbind_ok.
  destruct (_ || _) eqn:E; [done|]. injection Hm as <-. apply orb_false_iff in E as [_ E%N.ltb_ge].
  destruct (IH _ E Hl) as [-> ?]. split; [lia|done].
Qed.

Section materialized.
Context `{Platform, Civil}.
Context (request : PlanRequest).
Hypothesis complete : complete_hierarchy (items request).

Abbreviation its := (items request).
Abbreviation parents := (item_parents its).

(** The request's jobs: one per subtree member and generated occurrence. *)
Definition request_jobs (occurrences : list Occurrence) := all_jobs request occurrences (root_items request).

Lemma length_with_previous l : length (with_previous l) = length l.
Proof. unfold with_previous. rewrite length_zip_with. cbn [length]. rewrite length_fmap. apply Nat.min_r. lia. Qed.

Lemma length_bind_const {A B} (f : A → list B) (l : list A) n : (∀ a, length (f a) = n) → length (l ≫= f) = length l * n.
Proof. intros Hf. induction l as [|a l IH]; [done|]. rewrite bind_cons, length_app, Hf, IH. simpl. lia. Qed.

Lemma length_jobs occurrences (roots : list WorkItem) :
  N.of_nat (length (all_jobs request occurrences roots)) =
  foldr (λ r n, N.of_nat (length (collect_subtree its r)) * N.of_nat (length (generated_for occurrences r)) + n)%N 0%N (wi_id <$> roots).
Proof.
  induction roots as [|root roots IH]; [done|]. unfold all_jobs in *.
  rewrite bind_cons, fmap_cons, length_app, Nat2N.inj_add, IH. cbn [foldr]. f_equal.
  rewrite length_fmap. unfold root_jobs. rewrite (length_bind_const _ _ (length (collect_subtree its (wi_id root)))) by (intros; apply length_fmap).
  rewrite length_with_previous. lia.
Qed.

Lemma materialized_parts mp :
  materialize_recurrences_core request = Ok mp →
  expand_occurrences_validated request = Ok (mp_occurrences mp) ∧
  validate_recurring_subtree_dependencies request (recurring_owners (root_subtrees request)) = Ok tt ∧
  ∃ clones, items (mp_request mp) = sort_items (retained_items request ++ clones) ∧
    Forall2 (λ job, is_clone request job.1 job.2.1 job.2.2) (request_jobs (mp_occurrences mp)) clones ∧
    mp_identities mp = add_identities ∅ ((λ job, job_identity job.1 job.2) <$> request_jobs (mp_occurrences mp)) ∧
    (N.of_nat (length (retained_items request ++ clones)) <= MAX_RECURRENCE_MATERIALIZED_ITEMS)%N.
Proof using complete.
  unfold materialize_recurrences_core. intros (occurrences & Hocc & Hmp)%rbind_ok. rewrite rbind_unit_ok in Hmp.
  destruct Hmp as [Hdeps (n & Hn & (st & Hst & Hmp)%rbind_ok)%rbind_ok]. destruct (lost_manual_placement _ _); [done|].
  injection Hmp as <-. simpl. split_and!; [done|done|].
  apply (clone_roots_ok request complete) in Hst as (clones & Hitems & HF & Hids).
  - exists clones. simpl in Hitems, Hids. rewrite Hitems. split_and!; [done|done|done|]. apply checked_count_ok in Hn as [Hn Hle].
    rewrite length_app, Nat2N.inj_add, <- (Forall2_length _ _ _ HF), length_jobs, root_items_ids by done.
    etransitivity; [|exact Hle]. rewrite Hn. unfold root_subtrees. rewrite <- list_fmap_compose, foldr_fmap. simpl.
    rewrite (sum_list_with_perm _ (request_roots request) (sort_by N.leb (request_roots request))); [done|symmetry; apply sort_by_perm].
  - rewrite root_items_ids by done. by apply roots_nodup.
  - intros root Hr. apply root_known_item; [done|]. rewrite <- root_items_ids by done. by apply list_elem_of_fmap_2.
  - intros root _. apply lookup_empty.
Qed.

(** C37. On a complete hierarchy, the materialised items are the items outside
    the recurring subtrees and one clone per subtree member and generated
    occurrence of its root, recorded with its series and occurrence; there are
    never more of them than the limit. *)
Theorem materialized_items_exact mp :
  materialize_recurrences_core request = Ok mp →
  expand_occurrences_validated request = Ok (mp_occurrences mp) ∧
  ∃ clones, items (mp_request mp) ≡ₚ retained_items request ++ clones ∧
    Forall2 (λ job, is_clone request job.1 job.2.1 job.2.2) (request_jobs (mp_occurrences mp)) clones ∧
    mp_identities mp = add_identities ∅ ((λ job, job_identity job.1 job.2) <$> request_jobs (mp_occurrences mp)) ∧
    (N.of_nat (length (items (mp_request mp))) <= MAX_RECURRENCE_MATERIALIZED_ITEMS)%N ∧
    (∀ item, item ∈ retained_items request ↔
       item ∈ its ∧ ∀ root, recurs its root → ¬ descends parents root (wi_id item)).
Proof using complete.
  intros Hmp. destruct (materialized_parts mp Hmp) as (Hocc & _ & clones & Hitems & HF & Hids & Hlen). split; [done|].
  exists clones. unfold sort_items in Hitems. rewrite Hitems. split_and!; [apply sort_by_perm|done|done|by rewrite length_sort_by|].
  intros item. rewrite retained_iff by done. split.
  - intros [Hin Hno]. split; [done|]. intros root Hr Hd. apply Hno. by apply (topmost request complete root).
  - intros [Hin Hno]. split; [done|]. intros (r & [Hr _]%root_iff & Hd); [|done]. by apply (Hno r).
Qed.

(** ** References *)

Lemma elem_of_jobs occurrences root o y :
  root ∈ root_items request → o ∈ generated_for occurrences (wi_id root) → y ∈ collect_subtree its (wi_id root) →
  ∃ previous, (root, ((previous, o), y)) ∈ request_jobs occurrences.
Proof.
  intros Hr Ho Hy. apply list_elem_of_lookup in Ho as [k Hk].
  assert (∃ previous, (previous, o) ∈ with_previous (generated_for occurrences (wi_id root))) as [previous Hp].
  { unfold with_previous. set (l := generated_for _ _) in *.
    destruct ((None :: (Some <$> l)) !! k) as [previous|] eqn:E.
    - exists previous. apply list_elem_of_lookup. exists k. apply lookup_zip_with_Some. by exists previous, o.
    - apply lookup_ge_None in E. apply lookup_lt_Some in Hk. simpl in E. rewrite length_fmap in E. lia. }
  exists previous. unfold request_jobs, all_jobs. apply list_elem_of_bind. exists root. split; [|done].
  apply list_elem_of_fmap. exists ((previous, o), y). split; [done|]. unfold root_jobs. apply list_elem_of_bind.
  exists (previous, o). split; [|done]. by apply list_elem_of_fmap_2.
Qed.

Lemma jobs_inv occurrences root previous o y :
  (root, ((previous, o), y)) ∈ request_jobs occurrences →
  root ∈ root_items request ∧ o ∈ generated_for occurrences (wi_id root) ∧ y ∈ collect_subtree its (wi_id root) ∧
  ∀ p, previous = Some p → p ∈ generated_for occurrences (wi_id root).
Proof.
  unfold request_jobs, all_jobs. rewrite list_elem_of_bind. intros (r & (j & [= <- <-] & Hj)%list_elem_of_fmap & Hr).
  unfold root_jobs in Hj. apply list_elem_of_bind in Hj as (p & (y' & [= <- <-] & Hy)%list_elem_of_fmap & Hp).
  unfold with_previous in Hp. apply list_elem_of_lookup in Hp as [k Hk].
  apply lookup_zip_with_Some in Hk as (a & b & [= -> ->] & Ha & Hb). split_and!; [done|by eapply list_elem_of_lookup_2|done|].
  intros q ->. destruct k as [|k]; [done|]. simpl in Ha. rewrite list_lookup_fmap in Ha.
  destruct (_ !! k) as [q'|] eqn:E; [|done]. simpl in Ha. injection Ha as ->. by eapply list_elem_of_lookup_2.
Qed.

Lemma first_leaf_in_subtree root leaf : first_leaf_of request root = Some leaf → leaf ∈ collect_subtree its root.
Proof. unfold first_leaf_of, subtree_leaves. intros Hl%head_Some_elem_of. rewrite elem_of_sort_by, list_elem_of_filter in Hl. tauto. Qed.

Section plan.
Context (mp : MaterializedPlan).
Hypothesis materialized : materialize_recurrences_core request = Ok mp.

Lemma clone_present root o y :
  root ∈ root_items request → o ∈ generated_for (mp_occurrences mp) (wi_id root) → y ∈ collect_subtree its (wi_id root) →
  ∃ x previous, x ∈ items (mp_request mp) ∧ is_clone request root (previous, o) y x.
Proof using complete materialized.
  intros Hr Ho Hy. destruct (materialized_parts mp materialized) as (_ & _ & clones & Hitems & HF & _).
  destruct (elem_of_jobs _ _ _ _ Hr Ho Hy) as [previous Hjob]. apply list_elem_of_lookup in Hjob as [k Hk].
  destruct (Forall2_lookup_l _ _ _ _ _ HF Hk) as (x & Hx & Hclone). exists x, previous. split; [|done].
  rewrite Hitems. unfold sort_items. apply elem_of_sort_by, elem_of_app. right. by eapply list_elem_of_lookup_2.
Qed.

Lemma is_clone_id root p y x : is_clone request root p y x → wi_id x = clone_id (wi_id root) p.2 y.
Proof. intros (original & _ & <- & Hx). by eapply clone_item_id. Qed.

Lemma clone_id_present root o y :
  root ∈ root_items request → o ∈ generated_for (mp_occurrences mp) (wi_id root) → y ∈ collect_subtree its (wi_id root) →
  clone_id (wi_id root) o y ∈ wi_id <$> items (mp_request mp).
Proof using complete materialized.
  intros Hr Ho Hy. destruct (clone_present _ _ _ Hr Ho Hy) as (x & previous & Hx & Hc%is_clone_id).
  apply list_elem_of_fmap. by exists x.
Qed.

Lemma materialized_cases x :
  x ∈ items (mp_request mp) →
  x ∈ retained_items request ∨
  ∃ root previous o y, root ∈ root_items request ∧ o ∈ generated_for (mp_occurrences mp) (wi_id root) ∧
    y ∈ collect_subtree its (wi_id root) ∧ (∀ p, previous = Some p → p ∈ generated_for (mp_occurrences mp) (wi_id root)) ∧
    is_clone request root (previous, o) y x.
Proof using complete materialized.
  destruct (materialized_parts mp materialized) as (_ & _ & clones & -> & HF & _). unfold sort_items.
  rewrite elem_of_sort_by, elem_of_app. intros [?|Hx]; [by left|right]. apply list_elem_of_lookup in Hx as [k Hk].
  destruct (Forall2_lookup_r _ _ _ _ _ HF Hk) as ([root [[previous o] y]] & Hj & Hc).
  apply list_elem_of_lookup_2, jobs_inv in Hj as (? & ? & ? & ?). by exists root, previous, o, y.
Qed.

Lemma retained_present x : x ∈ retained_items request → wi_id x ∈ wi_id <$> items (mp_request mp).
Proof using complete materialized.
  intros Hx. destruct (materialized_parts mp materialized) as (_ & _ & clones & -> & _). unfold sort_items.
  apply list_elem_of_fmap. exists x. split; [done|]. apply elem_of_sort_by, elem_of_app. by left.
Qed.

(** An item outside every recurring subtree is retained. *)
Lemma outside_present p :
  p ∈ wi_id <$> its → (∀ r, r ∈ request_roots request → ¬ descends parents r p) → p ∈ wi_id <$> items (mp_request mp).
Proof using complete materialized.
  intros (item & -> & Hin)%list_elem_of_fmap Hno. apply retained_present, retained_iff; [done|]. split; [done|].
  intros (r & Hr & Hd). by apply (Hno r).
Qed.

Lemma parent_is_item item p : item ∈ its → wi_parent_id item = Some p → p ∈ wi_id <$> its ∧ parents !! wi_id item = Some (Some p).
Proof using complete.
  intros Hin Hp. assert (parents !! wi_id item = Some (Some p)) as Hl by (apply item_parents_Some; [done|by exists item]).
  split; [|done]. destruct complete as [_ Hok]. specialize (Hok (wi_id item) ltac:(rewrite Hl; by eexists)).
  inversion Hok as [? Hn|? q Hq Hr]; [congruence|]. rewrite Hl in Hq. injection Hq as <-.
  apply collect_by_id_is_Some. assert (is_Some (parents !! p)) as Hsome by (destruct Hr as [? E|? ? E _]; rewrite E; by eexists).
  unfold item_parents, parents_map in Hsome. by rewrite lookup_fmap, fmap_is_Some in Hsome.
Qed.

Lemma root_of_root_item root : root ∈ root_items request → wi_id root ∈ request_roots request.
Proof using complete. intros Hr. rewrite <- root_items_ids by done. by apply list_elem_of_fmap_2. Qed.

Lemma in_subtree_iff root y : root ∈ root_items request → y ∈ collect_subtree its (wi_id root) ↔ descends parents (wi_id root) y.
Proof using complete. intros Hr. apply collect_subtree_exact; [done|]. by apply root_known_item, root_of_root_item. Qed.

(** A reference of a subtree member resolves after renaming: inside the subtree
    to the clone, outside to a retained item. *)
Lemma renamed_present root o p :
  root ∈ root_items request → o ∈ generated_for (mp_occurrences mp) (wi_id root) → p ∈ wi_id <$> its →
  (∀ r, r ∈ request_roots request → descends parents r p → r = wi_id root) →
  (if bool_decide (p ∈ collect_subtree its (wi_id root)) then clone_id (wi_id root) o p else p) ∈ wi_id <$> items (mp_request mp).
Proof using complete materialized.
  intros Hr Ho Hp Hroots. case_bool_decide as Hsub; [by apply clone_id_present|]. apply outside_present; [done|].
  intros r Hrr Hd. apply Hsub, in_subtree_iff; [done|]. by rewrite <- (Hroots r Hrr Hd).
Qed.

Lemma retained_references x :
  (∀ item d, item ∈ its → d ∈ dependencies (wi_constraints item) → dep_item_id d ∈ wi_id <$> its) → x ∈ retained_items request →
  (∀ p, wi_parent_id x = Some p → p ∈ wi_id <$> items (mp_request mp)) ∧
  (∀ d, d ∈ dependencies (wi_constraints x) → dep_item_id d ∈ wi_id <$> items (mp_request mp)).
Proof using complete materialized.
  intros Hdeps [Hin Hout]%retained_iff; [|done]. destruct (materialized_parts mp materialized) as (_ & Hv & _). split.
  - intros p Hp. destruct (parent_is_item x p Hin Hp) as [Hpin Hl]. apply outside_present; [done|]. intros r Hr Hd.
    apply Hout. exists r. split; [done|]. by apply (descends_child _ _ p).
  - intros d Hd. apply outside_present; [by eapply Hdeps|]. intros r Hr Hdd. apply Hout. exists r. split; [done|].
    by apply (dependencies_inside request complete Hv x d).
Qed.

Lemma materialized_references x :
  (∀ item d, item ∈ its → d ∈ dependencies (wi_constraints item) → dep_item_id d ∈ wi_id <$> its) →
  x ∈ items (mp_request mp) →
  (∀ p, wi_parent_id x = Some p → p ∈ wi_id <$> items (mp_request mp)) ∧
  (∀ d, d ∈ dependencies (wi_constraints x) → dep_item_id d ∈ wi_id <$> items (mp_request mp)).
Proof using complete materialized.
  intros Hdeps [Hx|(root & previous & o & y & Hr & Ho & Hy & Hprev & original & Hin & <- & Hc)]%materialized_cases;
    [by apply retained_references|].
  pose proof (root_of_root_item root Hr) as Hrr. pose proof (proj1 (in_subtree_iff _ _ Hr) Hy) as Hd.
  destruct (materialized_parts mp materialized) as (_ & Hv & _).
  unfold clone_item in Hc. apply rbind_ok in Hc as (duration & _ & [= <-]). simpl. split.
  - intros p Hp. destruct (wi_parent_id original) as [q|] eqn:Eq; [|done]. simpl in Hp. injection Hp as <-.
    destruct (parent_is_item original q Hin Eq) as [Hqin Hl]. apply renamed_present; [done..|]. intros r Hr' Hdq.
    apply (one_root request complete _ _ (wi_id original)); [done|done|by apply (descends_child _ _ q)|done].
  - assert (∀ d, d ∈ (λ d, redirect (if bool_decide (dep_item_id d ∈ collect_subtree its (wi_id root))
        then clone_id (wi_id root) o (dep_item_id d) else dep_item_id d) d) <$> dependencies (wi_constraints original) →
        dep_item_id d ∈ wi_id <$> items (mp_request mp)) as Hown.
    { intros d (d0 & -> & Hd0)%list_elem_of_fmap. simpl. apply renamed_present; [done|done|by eapply Hdeps|]. intros r Hr' Hdd.
      apply (one_root request complete _ _ (wi_id original)); [done|done| |done].
      by apply (dependencies_inside request complete Hv original d0). }
    intros d. unfold spacing_after. destruct (first_leaf_of request (wi_id root)) as [leaf|] eqn:El; simpl; [|apply Hown].
    destruct previous as [o'|]; simpl; [|apply Hown]. destruct (_ && _); [|apply Hown].
    intros [?| ->%list_elem_of_singleton]%elem_of_app; [by apply Hown|]. simpl. apply clone_id_present; [done|by apply Hprev|].
    by apply first_leaf_in_subtree.
Qed.

(** ** Spacing *)

Lemma consecutive_job occurrences root k o1 o2 y :
  root ∈ root_items request → generated_for occurrences (wi_id root) !! k = Some o1 →
  generated_for occurrences (wi_id root) !! S k = Some o2 → y ∈ collect_subtree its (wi_id root) →
  (root, ((Some o1, o2), y)) ∈ request_jobs occurrences.
Proof.
  intros Hr H1 H2 Hy. unfold request_jobs, all_jobs. apply list_elem_of_bind. exists root. split; [|done].
  apply list_elem_of_fmap. exists ((Some o1, o2), y). split; [done|]. unfold root_jobs. apply list_elem_of_bind.
  exists (Some o1, o2). split; [by apply list_elem_of_fmap_2|]. apply list_elem_of_lookup. exists (S k). unfold with_previous.
  apply lookup_zip_with_Some. exists (Some o1), o2. split_and!; [done| |done]. simpl. by rewrite list_lookup_fmap, H1.
Qed.

(** Consecutive generated occurrences of a series keep its minimum spacing:
    the first leaf of the later one has a hard start-to-start dependency, with
    the spacing as its lag, on the first leaf of the earlier one. *)
Theorem spacing_enforced root leaf k o1 o2 :
  root ∈ root_items request → first_leaf_of request (wi_id root) = Some leaf → minimum_spacing request root ≠ 0%N →
  generated_for (mp_occurrences mp) (wi_id root) !! k = Some o1 → generated_for (mp_occurrences mp) (wi_id root) !! S k = Some o2 →
  ∃ earlier later, earlier ∈ items (mp_request mp) ∧ later ∈ items (mp_request mp) ∧
    wi_id earlier = clone_id (wi_id root) o1 leaf ∧ wi_id later = clone_id (wi_id root) o2 leaf ∧
    spacing_dependency (wi_id earlier) (minimum_spacing request root) ∈ dependencies (wi_constraints later).
Proof using complete materialized.
  intros Hr Hleaf Hsp H1 H2. pose proof (first_leaf_in_subtree _ _ Hleaf) as Hy.
  destruct (clone_present root o1 leaf Hr (list_elem_of_lookup_2 _ _ _ H1) Hy) as (earlier & prev & He & Hce%is_clone_id).
  destruct (materialized_parts mp materialized) as (_ & _ & clones & Hitems & HF & _).
  pose proof (consecutive_job _ _ _ _ _ _ Hr H1 H2 Hy) as Hjob. apply list_elem_of_lookup in Hjob as [j Hj].
  destruct (Forall2_lookup_l _ _ _ _ _ HF Hj) as (later & Hl & Hc). simpl in *. exists earlier, later.
  split_and!; [done| |done|by apply is_clone_id in Hc|].
  - rewrite Hitems. unfold sort_items. apply elem_of_sort_by, elem_of_app. right. by eapply list_elem_of_lookup_2.
  - destruct Hc as (original & _ & Hid & Hc). unfold clone_item in Hc. apply rbind_ok in Hc as (d & _ & [= <-]). simpl.
    unfold spacing_after. rewrite Hleaf, Hid. simpl. rewrite N.eqb_refl. destruct (N.eqb_spec (minimum_spacing request root) 0); [done|].
    simpl. apply elem_of_app. right. rewrite Hce. left.
Qed.
End plan.

(** When every dependency of the request names one of its items, every
    parent and every dependency of a materialised item names a materialised
    item. *)
Theorem references_resolve mp x :
  materialize_recurrences_core request = Ok mp →
  (∀ item d, item ∈ its → d ∈ dependencies (wi_constraints item) → dep_item_id d ∈ wi_id <$> its) →
  x ∈ items (mp_request mp) →
  (∀ p, wi_parent_id x = Some p → p ∈ wi_id <$> items (mp_request mp)) ∧
  (∀ d, d ∈ dependencies (wi_constraints x) → dep_item_id d ∈ wi_id <$> items (mp_request mp)).
Proof using complete. intros Hmp. by apply materialized_references. Qed.
End materialized.

(** ** Partial progress *)

(** Progress that passes validation always leaves a remainder: the recorded
    one, or the open share of the expected duration rounded up to a minute,
    never zero and never above the expected duration. *)
Theorem partial_remaining_exact id progress :
  valid_progress_shape progress = true →
  ∃ remaining, partial_remaining_minutes id progress = Ok remaining ∧
    (1 <= remaining <= rp_expected_duration_minutes progress)%N ∧
    match rp_remaining_duration_minutes progress with
    | Some recorded => remaining = recorded
    | None =>
        let share := (rp_expected_duration_minutes progress * (10000 - rp_progress_basis_points progress))%N in
        ((remaining - 1) * 10000 < share <= remaining * 10000)%N
    end.
Proof.
  unfold valid_progress_shape, partial_remaining_minutes, HABIT_BASIS_POINTS_SCALE, MAX_DEPENDENCY_LAG_MINUTES.
  rewrite !andb_true_iff, !negb_true_iff, !N.leb_le, !N.ltb_lt, !N.eqb_neq. intros ((((Hbp & Hbp') & He) & He') & Hr).
  destruct (rp_remaining_duration_minutes progress) as [recorded|].
  - rewrite !andb_true_iff, negb_true_iff, N.eqb_neq, !N.leb_le in Hr. destruct Hr as [[Hr0 Hr1] _]. exists recorded.
    destruct (N.eqb_spec recorded 0); [done|]. rewrite (proj2 (N.leb_le _ _) Hr1). split_and!; [done|lia|done|done].
  - set (e := rp_expected_duration_minutes progress) in *. set (p := rp_progress_basis_points progress) in *.
    set (share := (e * (10000 - p))%N). assert (1 <= e * (10000 - p))%N by nia. assert (e * (10000 - p) <= e * 9999)%N by (apply N.mul_le_mono_l; lia).
    assert (1 <= share <= e * 9999)%N as Hshare by done. clearbody share.
    set (r := ((share + (10000 - 1)) / 10000)%N).
    pose proof (N.div_mod (share + (10000 - 1)) 10000 ltac:(done)) as Hdiv.
    pose proof (N.mod_lt (share + (10000 - 1)) 10000 ltac:(done)) as Hmod. fold r in Hdiv.
    set (m := ((share + (10000 - 1)) mod 10000)%N) in *. clearbody r m.
    assert (1 <= r)%N by lia. assert (r <= e)%N by lia. unfold u64_max, u32_max. cbv zeta. exists r.
    destruct (N.leb_spec (share + (10000 - 1)) 18446744073709551615); [|lia]. destruct (N.leb_spec r 4294967295); [|lia].
    destruct (N.ltb_spec 0 r); [|lia]. destruct (N.leb_spec r e); [|lia]. split_and!; [done|lia..].
Qed.

(** ** Witnesses: the routine of three days *)

Lemma routine_complete : complete_hierarchy (items routine_days).
Proof.
  apply roll_up_succeeds_iff. destruct (roll_up_expected_durations (items routine_days)) as [r|e] eqn:E; [by exists r|].
  exfalso. vm_compute in E. discriminate E.
Qed.

Definition routine_materialized : result RecurrenceError MaterializedPlan :=
  @materialize_recurrences_core utc_platform gregorian routine_days.

(** Item 4 and three clones for each of two occurrences. *)
Lemma routine_materialized_ok :
  match routine_materialized with Ok mp => length (items (mp_request mp)) =? 7 | Err _ => false end = true.
Proof. vm_compute. reflexivity. Qed.

Lemma materialized_items_exact_witness :
  ∃ mp, routine_materialized = Ok mp ∧ length (items (mp_request mp)) = 7 ∧
    ∃ clones, items (mp_request mp) ≡ₚ retained_items routine_days ++ clones.
Proof.
  pose proof routine_materialized_ok as Hok. destruct routine_materialized as [mp|e] eqn:E; [|discriminate Hok].
  apply Nat.eqb_eq in Hok. exists mp. split; [reflexivity|]. split; [exact Hok|].
  destruct (@materialized_items_exact utc_platform gregorian routine_days routine_complete mp E) as (_ & clones & Hperm & _).
  exists clones. exact Hperm.
Defined.

Lemma references_resolve_witness :
  ∃ mp, routine_materialized = Ok mp ∧
    ∀ x p, x ∈ items (mp_request mp) → wi_parent_id x = Some p → p ∈ wi_id <$> items (mp_request mp).
Proof.
  pose proof routine_materialized_ok as Hok. destruct routine_materialized as [mp|e] eqn:E; [|discriminate Hok].
  exists mp. split; [reflexivity|]. intros x p Hx Hp.
  destruct (@references_resolve utc_platform gregorian routine_days routine_complete mp x E) as [Hparent _].
  - intros item d Hin Hd. exfalso.
    assert (Forall (λ item, dependencies (wi_constraints item) = []) (items routine_days)) as Hnone by (repeat constructor).
    rewrite Forall_forall in Hnone. rewrite (Hnone item Hin) in Hd. by apply not_elem_of_nil in Hd.
  - exact Hx.
  - by apply Hparent.
Defined.

Lemma routine_spacing :
  match routine_materialized with
  | Ok mp => bool_decide (first_leaf_of routine_days 1 = Some 2%N) &&
      (length (@generated_for (mp_occurrences mp) 1) =? 2) &&
      match @root_items routine_days with [root] => (wi_id root =? 1)%N && (minimum_spacing routine_days root =? 60)%N | _ => false end
  | Err _ => false
  end = true.
Proof. vm_compute. reflexivity. Qed.

Lemma spacing_enforced_witness :
  ∃ mp o1 o2 later, routine_materialized = Ok mp ∧ later ∈ items (mp_request mp) ∧ wi_id later = @clone_id utc_platform 1 o2 2 ∧
    spacing_dependency (@clone_id utc_platform 1 o1 2) 60 ∈ dependencies (wi_constraints later).
Proof.
  pose proof routine_spacing as Hok. destruct routine_materialized as [mp|e] eqn:E; [|discriminate Hok].
  destruct (root_items routine_days) as [|root [|? ?]] eqn:Er; [rewrite andb_false_r in Hok; discriminate Hok| |rewrite andb_false_r in Hok; discriminate Hok].
  rewrite !andb_true_iff, bool_decide_eq_true, Nat.eqb_eq, !N.eqb_eq in Hok. destruct Hok as [[Hleaf Hlen] [Hid Hsp]].
  destruct (generated_for (mp_occurrences mp) 1) as [|o1 [|o2 l]] eqn:Eg; [discriminate Hlen|discriminate Hlen|].
  destruct (@spacing_enforced utc_platform gregorian routine_days routine_complete mp E root 2%N 0 o1 o2) as (earlier & later & _ & Hl & He & Hlid & Hdep).
  - rewrite Er. left.
  - rewrite Hid. exact Hleaf.
  - rewrite Hsp. discriminate.
  - rewrite Hid, Eg. reflexivity.
  - rewrite Hid, Eg. reflexivity.
  - rewrite Hid in *. rewrite Hsp, He in Hdep. exists mp, o1, o2, later. split; [reflexivity|]. split; [exact Hl|]. split; [exact Hlid|exact Hdep].
Defined.

Lemma partial_remaining_exact_witness :
  ∃ remaining, partial_remaining_minutes 7 {| rp_progress_basis_points := 3333; rp_expected_duration_minutes := 30; rp_remaining_duration_minutes := None |} = Ok remaining ∧
    (1 <= remaining <= 30)%N.
Proof.
  destruct (partial_remaining_exact 7 {| rp_progress_basis_points := 3333; rp_expected_duration_minutes := 30; rp_remaining_duration_minutes := None |}
    ltac:(reflexivity)) as (remaining & Hr & Hb & _).
  exists remaining. split; [exact Hr|exact Hb].
Defined.
