(* ===== verification/Execution.v ===== *)
(** * Execution: the authoritative execution snapshot

    The execution part of crates/dayweave-core/src/scheduler.rs: validation of
    an [ExecutionPlanningContext], and its application to a materialized
    request (skipped work, credited effort, reservations, and the previous
    blocks it invalidates).  The theorems characterise the accepted work units
    and the request the application produces. *)
From S2P Require Import Prelude Platform Domain Samples Text Forest Rollup Lifecycle Plan Intervals Order.

Definition invalid_item (item_id : ItemId) (message : string) : ScheduleError :=
  ScheduleError.InvalidItem item_id message.

Definition invalid_execution (item_id : ItemId) (message : string) : ScheduleError :=
  invalid_item item_id ("invalid execution planning context: " ++ message).

(** ** Materialized work units *)

Record MaterializedExecutionWorkUnit : Type := {
  meu_skipped : bool;
  meu_used_session_indices : gset N;
  meu_reservations : list ExecutionReservation
}.

Record MaterializedExecutionContext : Type := {
  mec_work_units : gmap ItemId MaterializedExecutionWorkUnit
}.

(** [MaterializedExecutionWorkUnit::high_water] *)
Definition high_water (unit : MaterializedExecutionWorkUnit) : option N :=
  max_by N.compare (set_elems (meu_used_session_indices unit) ++ (er_session_index <$> meu_reservations unit)).

Definition claims_session_index (unit : MaterializedExecutionWorkUnit) (session_index : N) : bool :=
  bool_decide (session_index ∈ meu_used_session_indices unit) ||
  existsb (λ reservation, (er_session_index reservation =? session_index)%N) (meu_reservations unit).

(** ** Validation *)

Definition validate_execution_reservation `{Platform} (item_id : ItemId) (reservation : ExecutionReservation)
    (used : gset N) (historical_high_water : option N) : result ScheduleError unit :=
  if odt_leb (er_end reservation) (er_start reservation) then
    Err (invalid_execution item_id ("reservation " ++ display_N (er_session_index reservation) ++ " for item " ++
           uuid_display item_id ++ " has an empty window"))
  else
    match er_kind reservation with
    | InFlight =>
        if negb (bool_decide (er_session_index reservation ∈ used)) then
          Err (invalid_execution item_id ("in-flight reservation " ++ display_N (er_session_index reservation) ++
                 " for item " ++ uuid_display item_id ++ " is not historical"))
        else Ok tt
    | DeferredReplacement source_session_index =>
        if negb (bool_decide (source_session_index ∈ used)) then
          Err (invalid_execution item_id ("deferred source index " ++ display_N source_session_index ++ " for item " ++
                 uuid_display item_id ++ " is not historical"))
        else if bool_decide (er_session_index reservation ∈ used) ||
                match historical_high_water with
                | Some high => (er_session_index reservation <=? high)%N
                | None => false
                end
        then Err (invalid_execution item_id ("deferred replacement index " ++ display_N (er_session_index reservation) ++
                    " for item " ++ uuid_display item_id ++ " is not fresh and monotonic"))
        else Ok tt
    end.

Definition repeated_index `{Platform} (unit : ExecutionWorkUnit) (index : N) : ScheduleError :=
  invalid_execution (eu_item_id unit)
    ("work unit for item " ++ uuid_display (eu_item_id unit) ++ " repeats historical session index " ++ display_N index).

Definition repeated_reservation `{Platform} (unit : ExecutionWorkUnit) (reservation : ExecutionReservation)
    : ScheduleError :=
  invalid_execution (eu_item_id unit)
    ("work unit for item " ++ uuid_display (eu_item_id unit) ++ " repeats reservation index " ++
     display_N (er_session_index reservation)).

(** The loop that inserts the historical indices one by one. *)
Definition collect_used `{Platform} (unit : ExecutionWorkUnit) : result ScheduleError (gset N) :=
  foldM (λ (used : gset N) index,
    if bool_decide (index ∈ used) then
      Err (repeated_index unit index)
    else Ok ({[index]} ∪ used)) ∅ (eu_used_session_indices unit).

(** [used.iter().next_back()] *)
Definition last_elem (s : gset N) : option N := last (set_elems s).

Definition validate_execution_work_unit `{Platform} (work_unit : ExecutionWorkUnit) : result ScheduleError unit :=
  if (eu_progress_epoch work_unit =? 0)%N then
    Err (invalid_execution (eu_item_id work_unit) ("work unit for item " ++ uuid_display (eu_item_id work_unit) ++
           " has a zero progress epoch"))
  else if bool_decide (eu_disposition work_unit = Some DispositionSkipped) &&
          negb (bool_decide (eu_reservations work_unit = []))
  then Err (invalid_execution (eu_item_id work_unit) ("skipped work unit for item " ++
              uuid_display (eu_item_id work_unit) ++ " cannot retain reservations"))
  else
    let? used := collect_used work_unit in
    let historical_high_water := last_elem used in
    let? _ := foldM (λ (reservation_indices : gset N) reservation,
      let? _ := validate_execution_reservation (eu_item_id work_unit) reservation used historical_high_water in
      if bool_decide (er_session_index reservation ∈ reservation_indices) then
        Err (repeated_reservation work_unit reservation)
      else Ok ({[er_session_index reservation]} ∪ reservation_indices)) ∅ (eu_reservations work_unit) in
    Ok tt.

(** [{:?}] of an optional occurrence identifier. *)
Definition debug_occurrence `{Platform} (occurrence_id : option OccurrenceId) : string :=
  match occurrence_id with
  | Some id => "Some(OccurrenceId(" ++ uuid_debug id ++ "))"
  | None => "None"
  end.

Definition validate_execution_context `{Platform} (request : PlanRequest) (execution : ExecutionPlanningContext)
    : result ScheduleError unit :=
  let? _ :=
    match ec_work_units execution with
    | first :: _ =>
        if (ec_snapshot_revision execution =? 0)%N then
          Err (invalid_execution (eu_item_id first)
                 "snapshot revision must be positive when work-unit evidence is present")
        else Ok tt
    | [] => Ok tt
    end in
  let by_id := collect_by_id (items request) in
  let children := child_map (items request) in
  let? _ := foldM (λ (identities : gset (ItemId * option OccurrenceId)) unit,
    match by_id !! eu_item_id unit with
    | None => Err (invalid_execution (eu_item_id unit) ("work unit references missing item " ++ uuid_display (eu_item_id unit)))
    | Some item =>
        if negb (bool_decide (eu_reservations unit = [])) &&
           (is_calendar_event (wi_kind item) ||
            negb (occupies_time item (bool_decide (is_Some (children !! wi_id item)))))
        then Err (invalid_execution (eu_item_id unit)
                    "reservations must identify a flexible leaf execution component")
        else if bool_decide ((eu_item_id unit, eu_occurrence_id unit) ∈ identities) then
          Err (invalid_execution (eu_item_id unit) ("duplicate work unit for item " ++ uuid_display (eu_item_id unit) ++
                 " and occurrence " ++ debug_occurrence (eu_occurrence_id unit)))
        else
          let? _ := validate_execution_work_unit unit in
          Ok ({[(eu_item_id unit, eu_occurrence_id unit)]} ∪ identities)
    end) ∅ (ec_work_units execution) in
  Ok tt.

(** ** Application *)

Definition ceil_seconds_to_minutes (seconds : N) : N :=
  let minutes := (saturating_add u64_max seconds 59 / 60)%N in
  if (minutes <=? u32_max)%N then minutes else u32_max.

(** The work unit key of a (possibly cloned) item. *)
Definition source_identity (identities : gmap ItemId MaterializedIdentity) (item_id : ItemId)
    : ItemId * option OccurrenceId :=
  match identities !! item_id with
  | Some identity => (mi_series_item_id identity, Some (mi_occurrence_id identity))
  | None => (item_id, None)
  end.

Definition with_duration (item : WorkItem) (duration : option DurationEstimate) : WorkItem :=
  {| wi_id := wi_id item; wi_is_sensitive := wi_is_sensitive item; wi_revision := wi_revision item;
     wi_title := wi_title item; wi_kind := wi_kind item; wi_status := wi_status item;
     wi_parent_id := wi_parent_id item; wi_sibling_order := wi_sibling_order item;
     wi_has_own_effort := wi_has_own_effort item;
     wi_has_children_outside_plan := wi_has_children_outside_plan item;
     wi_goal_ids := wi_goal_ids item; wi_priority := wi_priority item; wi_duration := duration;
     wi_constraints := wi_constraints item; wi_split_policy := wi_split_policy item;
     wi_energy := wi_energy item; wi_tags := wi_tags item; wi_created_at := wi_created_at item;
     wi_updated_at := wi_updated_at item |}.

Definition with_remaining (duration : DurationEstimate) (remaining : Minutes) : DurationEstimate :=
  {| de_minimum := de_minimum duration; de_expected := de_expected duration;
     de_maximum := de_maximum duration; de_remaining := Some remaining; de_source := de_source duration |}.

(** What a work unit does to its item. *)
Definition apply_unit (unit : ExecutionWorkUnit) (item : WorkItem) : WorkItem :=
  if bool_decide (eu_disposition unit = Some DispositionSkipped) then with_status item WorkStatus.Skipped
  else
    match wi_duration item with
    | None => item
    | Some duration =>
        let credited_minutes := ceil_seconds_to_minutes (eu_credited_seconds unit) in
        with_duration item
          (Some (with_remaining duration (saturating_sub (de_expected duration) credited_minutes)))
    end.

Definition materialize_unit (unit : ExecutionWorkUnit) : MaterializedExecutionWorkUnit :=
  {| meu_skipped := bool_decide (eu_disposition unit = Some DispositionSkipped);
     meu_used_session_indices := list_to_set (eu_used_session_indices unit);
     meu_reservations := eu_reservations unit |}.

(** The loop over the items: the new items, the matched keys and the units. *)
Definition apply_units (source : gmap (ItemId * option OccurrenceId) ExecutionWorkUnit)
    (identities : gmap ItemId MaterializedIdentity) (its : list WorkItem)
    : list WorkItem * gset (ItemId * option OccurrenceId) * gmap ItemId MaterializedExecutionWorkUnit :=
  foldl (λ st item,
    let '(done, matched, units) := st in
    let identity := source_identity identities (wi_id item) in
    match source !! identity with
    | None => (done ++ [item], matched, units)
    | Some unit =>
        (done ++ [apply_unit unit item], {[identity]} ∪ matched,
         <[wi_id item := materialize_unit unit]> units)
    end) ([], ∅, ∅) its.

Definition reservation_interval (reservation : ExecutionReservation) : Interval :=
  {| iv_start := er_start reservation; iv_end := er_end reservation |}.

(** Key order of the source map: item, then occurrence. *)
Definition unit_entry_leb (a b : (ItemId * option OccurrenceId) * ExecutionWorkUnit) : bool :=
  is_le (then_with (a.1.1 ?= b.1.1)%N (cmp_option N.compare a.1.2 b.1.2)).

(** [retain_mut]: drops the blocks the unit makes obsolete, then empty assignments. *)
Definition retained_blocks (units : gmap ItemId MaterializedExecutionWorkUnit)
    (assignment : PreviousAssignment) : list PreviousBlock :=
  match units !! pa_item_id assignment with
  | Some unit =>
      if meu_skipped unit then []
      else filter (λ block, claims_session_index unit (pb_session_index block) = false) (pa_blocks assignment)
  | None => pa_blocks assignment
  end.

Definition with_blocks (assignment : PreviousAssignment) (blocks : list PreviousBlock) : PreviousAssignment :=
  {| pa_item_id := pa_item_id assignment; pa_occurrence_id := pa_occurrence_id assignment;
     pa_blocks := blocks; pa_pinned := pa_pinned assignment;
     pa_manual_placement_id := pa_manual_placement_id assignment |}.

Definition retain_assignments (units : gmap ItemId MaterializedExecutionWorkUnit)
    (assignments : list PreviousAssignment) : list PreviousAssignment :=
  filter (λ assignment, pa_blocks assignment ≠ [])
    ((λ assignment, with_blocks assignment (retained_blocks units assignment)) <$> assignments).

Definition with_assignments (request : PlanRequest) (its : list WorkItem)
    (assignments : list PreviousAssignment) : PlanRequest :=
  {| as_of := as_of request; horizon_start := horizon_start request; horizon_end := horizon_end request;
     items := its; availability := availability request; fixed_blocks := fixed_blocks request;
     previous_assignments := assignments; config := config request;
     recurrence_context := recurrence_context request |}.

Definition apply_execution_context `{Platform} (materialized_request : PlanRequest)
    (identities : gmap ItemId MaterializedIdentity) (execution : ExecutionPlanningContext)
    : result ScheduleError (PlanRequest * MaterializedExecutionContext) :=
  let source := index_execution execution in
  let '(new_items, matched, units) := apply_units source identities (items materialized_request) in
  let horizon := {| iv_start := horizon_start materialized_request;
                    iv_end := horizon_end materialized_request |} in
  let? _ := forM (λ '(key, unit),
    if bool_decide (key ∈ matched) then Ok tt
    else
      match List.find (λ reservation, overlaps horizon (reservation_interval reservation)) (eu_reservations unit) with
      | Some reservation =>
          Err (invalid_execution key.1 ("reservation for occurrence " ++ debug_occurrence key.2 ++ ", session " ++
                 display_N (er_session_index reservation) ++ " does not map to materialized work"))
      | None => Ok tt
      end) (sort_by unit_entry_leb (map_to_list source)) in
  Ok (with_assignments materialized_request new_items
        (retain_assignments units (previous_assignments materialized_request)),
      {| mec_work_units := units |}).

(** ** Specification *)

(** A well-formed reservation, given the historical indices. *)
Definition valid_reservation (used : list N) (r : ExecutionReservation) : Prop :=
  (er_start r < er_end r)%Z ∧
  match er_kind r with
  | InFlight => er_session_index r ∈ used
  | DeferredReplacement source => source ∈ used ∧ ∀ i, i ∈ used → (i < er_session_index r)%N
  end.

Record valid_work_unit (u : ExecutionWorkUnit) : Prop := {
  vw_epoch : eu_progress_epoch u ≠ 0%N;
  vw_skipped : eu_disposition u = Some DispositionSkipped → eu_reservations u = [];
  vw_used : NoDup (eu_used_session_indices u);
  vw_reservations r : r ∈ eu_reservations u → valid_reservation (eu_used_session_indices u) r;
  vw_indices : NoDup (er_session_index <$> eu_reservations u)
}.

(** ** Lemmas *)

(** A loop that checks its elements, inserts their keys and refuses repetitions. *)
Definition insert_fresh {E A K} `{Countable K} (key : A → K) (check : A → result E unit) (dup : A → E)
    (l : list A) : result E (gset K) :=
  foldM (λ (s : gset K) a,
    let? _ := check a in
    if bool_decide (key a ∈ s) then Err (dup a) else Ok ({[key a]} ∪ s)) ∅ l.

Lemma insert_fresh_Ok {E A K} `{Countable K} (key : A → K) (check : A → result E unit) (dup : A → E) l s :
  insert_fresh key check dup l = Ok s →
  (∀ k, k ∈ s ↔ k ∈ key <$> l) ∧ NoDup (key <$> l) ∧ ∀ a, a ∈ l → check a = Ok tt.
Proof.
  apply (foldM_inv _ (λ l s, (∀ k, k ∈ s ↔ k ∈ key <$> l) ∧ NoDup (key <$> l) ∧ ∀ a, a ∈ l → check a = Ok tt)).
  - split_and!; [set_solver|constructor|set_solver].
  - intros p a q t t' _ (H1 & H2 & H3) Hs. apply rbind_ok in Hs as ([] & Ha & Hs).
    case_bool_decide as Hin; [done|]. simplify_eq. rewrite fmap_app. split_and!.
    + intros k. rewrite elem_of_union, elem_of_singleton, H1, elem_of_app. simpl. rewrite list_elem_of_singleton.
      naive_solver.
    + apply NoDup_app. split_and!; [done| |apply NoDup_singleton]. intros k Hk ->%list_elem_of_singleton.
      by rewrite <- H1 in Hk.
    + intros b [Hb| ->%list_elem_of_singleton]%elem_of_app; auto.
Qed.

Lemma insert_fresh_total {E A K} `{Countable K} (key : A → K) (check : A → result E unit) (dup : A → E) l :
  NoDup (key <$> l) → (∀ a, a ∈ l → check a = Ok tt) → ∃ s, insert_fresh key check dup l = Ok s.
Proof.
  unfold insert_fresh. intros Hnd Hc.
  enough (∀ s0, (∀ a, a ∈ l → key a ∉ s0) → ∃ s, foldM (λ (s : gset K) a,
    let? _ := check a in
    if bool_decide (key a ∈ s) then Err (dup a) else Ok ({[key a]} ∪ s)) s0 l = Ok s) as Hgo by (apply Hgo; set_solver).
  induction l as [|a l IH]; intros s0 Hs0; simpl; [eauto|].
  rewrite fmap_cons in Hnd. apply NoDup_cons in Hnd as [Hno Hnd].
  rewrite (Hc a) by left. simpl. rewrite bool_decide_false by (apply Hs0; left). simpl.
  apply IH; [done|intros; apply Hc; by right|]. intros b Hb Hin.
  apply elem_of_union in Hin as [Heq%elem_of_singleton|Hin]; [|by apply (Hs0 b); [right|]].
  destruct Hno. rewrite <- Heq. apply list_elem_of_fmap. eauto.
Qed.

(** The greatest element of a set. *)
Lemma last_elem_le s i : i ∈ s → ∃ high, last_elem s = Some high ∧ (i <= high)%N.
Proof.
  unfold last_elem. intros Hi%elem_of_set_elems.
  assert (∀ l, StronglySorted N.le l → i ∈ l → ∃ high, last l = Some high ∧ (i <= high)%N) as Hgo.
  { induction 1 as [|x l Hl IH Hx]; [by intros ?%elem_of_nil|]. destruct l as [|y l].
    - intros ->%list_elem_of_singleton. exists x. simpl. split; [done|lia].
    - intros [->|Hin]%elem_of_cons; [|by apply IH]. destruct (last (y :: l)) as [h|] eqn:E.
      + exists h. split; [done|]. rewrite Forall_forall in Hx. apply Hx. by apply last_Some_elem_of.
      + by apply last_None in E. }
  apply Hgo; [apply sort_N_sorted|done].
Qed.

Lemma last_elem_in s high : last_elem s = Some high → high ∈ s.
Proof. unfold last_elem. intros H. apply elem_of_set_elems. by apply last_Some_elem_of. Qed.

Lemma validate_reservation_Ok `{Platform} item_id r used indices :
  (∀ i, i ∈ used ↔ i ∈ indices) →
  validate_execution_reservation item_id r used (last_elem used) = Ok tt ↔ valid_reservation indices r.
Proof.
  intros Hu. unfold validate_execution_reservation, valid_reservation.
  destruct (odt_leb (er_end r) (er_start r)) eqn:Ew; instants; [split; [done|lia]|].
  destruct (er_kind r) as [|source].
  - rewrite <- Hu. case_bool_decide; simpl; naive_solver.
  - case_bool_decide as Hs; simpl; [|split; [done|intros (_ & Hs' & _); by rewrite <- Hu in Hs']].
    rewrite Hu in Hs.
    assert (bool_decide (er_session_index r ∈ used) || match last_elem used with
        | Some high => (er_session_index r <=? high)%N | None => false end = false ↔
      ∀ i, i ∈ indices → (i < er_session_index r)%N) as Hfresh.
    { rewrite orb_false_iff, bool_decide_eq_false. split.
      - intros [_ Hh] i Hi. rewrite <- Hu in Hi. destruct (last_elem_le used i Hi) as (h & Hl & Hle).
        rewrite Hl in Hh. bool_to_prop. lia.
      - intros Hall. split; [intros Hin; rewrite Hu in Hin; specialize (Hall _ Hin); lia|].
        destruct (last_elem used) as [h|] eqn:El; [|done]. apply last_elem_in, Hu in El.
        specialize (Hall _ El). by apply N.leb_gt. }
    destruct (_ || _); [split; [done|]|naive_solver].
    intros (_ & _ & Hall). by apply Hfresh in Hall.
Qed.

(** ** Theorems *)

(** A work unit is accepted exactly when it is well formed: a positive
    epoch, no reservation on skipped work, distinct historical indices, and
    distinct reservation indices whose windows are non-empty and whose indices
    are historical when in flight, fresh and above all history when deferred. *)
Theorem work_unit_accepted_iff `{Platform} u : validate_execution_work_unit u = Ok tt ↔ valid_work_unit u.
Proof.
  unfold validate_execution_work_unit.
  destruct (eu_progress_epoch u =? 0)%N eqn:E1; bool_to_prop; [split; [done|by intros []]|].
  destruct (bool_decide (eu_disposition u = Some DispositionSkipped) && _) eqn:E2; bool_to_prop.
  { split; [done|]. intros [_ Hs _ _ _]. by rewrite Hs in *. }
  assert (eu_disposition u = Some DispositionSkipped → eu_reservations u = []) as Hskip.
  { intros Hd. apply andb_false_iff in E2 as [E2|E2]; bool_to_prop; done. }
  change (collect_used u) with (insert_fresh (λ i : N, i) (λ _, Ok tt)
    (repeated_index u) (eu_used_session_indices u)).
  split.
  - intros (used & Hu & Hk)%rbind_ok. apply insert_fresh_Ok in Hu as (Hmem & Hnd & _).
    apply rbind_ok in Hk as (indices & Hr & _).
    apply (insert_fresh_Ok er_session_index (λ r, validate_execution_reservation (eu_item_id u) r used (last_elem used))
      (repeated_reservation u)) in Hr as (_ & Hndr & Hc).
    rewrite list_fmap_id in *. split; try done.
    intros r Hin. eapply validate_reservation_Ok; [exact Hmem|by apply Hc].
  - intros [_ _ Hnd Hres Hndr].
    destruct (insert_fresh_total (λ i : N, i) (λ _, Ok tt)
      (repeated_index u) (eu_used_session_indices u)) as [used Hu]; [by rewrite list_fmap_id|done|].
    rewrite Hu. apply insert_fresh_Ok in Hu as (Hmem & _). rewrite list_fmap_id in Hmem. cbn [rbind].
    destruct (insert_fresh_total er_session_index (λ r, validate_execution_reservation (eu_item_id u) r used (last_elem used))
      (repeated_reservation u) (eu_reservations u)) as [indices Hr];
      [done|intros r Hin; by eapply validate_reservation_Ok; [exact Hmem|apply Hres]|].
    unfold insert_fresh in Hr. by rewrite Hr.
Qed.

(** Credited seconds are rounded up to whole minutes once, saturating at
    [u32::MAX], for every [u64] input. *)
Theorem ceil_seconds_exact seconds :
  (seconds <= u64_max)%N →
  ceil_seconds_to_minutes seconds = N.min u32_max ((seconds + 59) / 60) ∧
  ∀ m, (m <= u32_max)%N → (ceil_seconds_to_minutes seconds <= m ↔ seconds <= 60 * m ∨ m = u32_max)%N.
Proof.
  intros Hs.
  assert (ceil_seconds_to_minutes seconds = N.min u32_max ((seconds + 59) / 60)) as Heq.
  { unfold ceil_seconds_to_minutes, saturating_add.
    destruct (N.le_gt_cases (seconds + 59) u64_max) as [Hle|Hgt].
    - rewrite N.min_l by done. destruct (_ <=? _)%N eqn:E; bool_to_prop; lia.
    - rewrite N.min_r by lia.
      assert (u32_max < u64_max / 60)%N as Hbig by (vm_compute; reflexivity).
      assert (u64_max / 60 <= (seconds + 59) / 60)%N by (apply N.Div0.div_le_mono; lia).
      destruct (_ <=? _)%N eqn:E; bool_to_prop; lia. }
  split; [done|]. intros m Hm. rewrite Heq.
  pose proof (N.div_mod (seconds + 59) 60 ltac:(lia)) as Hdm.
  pose proof (N.mod_lt (seconds + 59) 60 ltac:(lia)) as Hml.
  set (q := ((seconds + 59) / 60)%N) in *. set (r := ((seconds + 59) mod 60)%N) in *. lia.
Qed.

Lemma apply_units_spec source identities its new matched units :
  apply_units source identities its = (new, matched, units) →
  new = map (λ item, match source !! source_identity identities (wi_id item) with
                     | Some u => apply_unit u item | None => item end) its ∧
  (∀ k, k ∈ matched → ∃ item, item ∈ its ∧ source_identity identities (wi_id item) = k) ∧
  (∀ item u, item ∈ its → source !! source_identity identities (wi_id item) = Some u →
    units !! wi_id item = Some (materialize_unit u)).
Proof.
  unfold apply_units. revert new matched units.
  induction its as [|a its IH] using rev_ind; intros new matched units Hf.
  - simpl in Hf. simplify_eq. split_and!; [done|set_solver|set_solver].
  - rewrite foldl_app in Hf. simpl in Hf. destruct (foldl _ _ its) as [[n m] us] eqn:E.
    destruct (IH _ _ _ eq_refl) as (-> & H2 & H3). clear IH. rewrite map_app. simpl.
    destruct (source !! source_identity identities (wi_id a)) as [u|] eqn:Eu; simplify_eq.
    + split_and!; [done|..].
      * intros k [->%elem_of_singleton|Hk]%elem_of_union; [exists a; set_solver|].
        destruct (H2 k Hk) as (item & ? & ?). exists item. set_solver.
      * intros item u' [Hi| ->%list_elem_of_singleton]%elem_of_app Hu'; rewrite lookup_insert.
        -- case_decide as Hid; [rewrite Hid in Eu; congruence|by apply H3].
        -- rewrite decide_True by done. congruence.
    + split_and!; [done|..].
      * intros k Hk. destruct (H2 k Hk) as (item & ? & ?). exists item. set_solver.
      * intros item u' [Hi| ->%list_elem_of_singleton]%elem_of_app Hu'; [by apply H3|congruence].
Qed.

(** Applying the snapshot rewrites exactly the items that have a work
    unit, keeps only non-empty previous assignments free of claimed session
    indices, and leaves no reservation of the horizon without materialized
    work. *)
Theorem apply_execution_sound `{Platform} request identities execution request' ctx :
  apply_execution_context request identities execution = Ok (request', ctx) →
  items request' = map (λ item,
    match index_execution execution !! source_identity identities (wi_id item) with
    | Some u => apply_unit u item | None => item end) (items request) ∧
  (∀ key u r, index_execution execution !! key = Some u → r ∈ eu_reservations u →
    overlaps {| iv_start := horizon_start request; iv_end := horizon_end request |} (reservation_interval r) = true →
    ∃ item, item ∈ items request ∧ source_identity identities (wi_id item) = key ∧
      mec_work_units ctx !! wi_id item = Some (materialize_unit u)) ∧
  ∀ a, a ∈ previous_assignments request' → pa_blocks a ≠ [] ∧
    ∀ b u, b ∈ pa_blocks a → mec_work_units ctx !! pa_item_id a = Some u →
      meu_skipped u = false ∧ claims_session_index u (pb_session_index b) = false.
Proof.
  unfold apply_execution_context. destruct (apply_units _ _ _) as [[new matched] units] eqn:E.
  apply apply_units_spec in E as (-> & Hmatched & Hunits).
  intros ([] & Hcheck & Hok)%rbind_ok. simplify_eq/=. rewrite forM_ok, Forall_forall in Hcheck. split_and!; [done|..].
  - intros key u r Hu Hr Ho. specialize (Hcheck (key, u)). simpl in Hcheck.
    rewrite elem_of_sort_by, elem_of_map_to_list in Hcheck. specialize (Hcheck Hu).
    case_bool_decide as Hm.
    + destruct (Hmatched _ Hm) as (item & Hi & Hk). exists item. split_and!; [done|done|].
      apply Hunits; [done|by rewrite Hk].
    + destruct (List.find _ _) eqn:Ee; [done|]. exfalso. eapply List.find_none in Ee; [|by apply list_elem_of_In].
      simpl in Ee. congruence.
  - intros a Ha. unfold retain_assignments in Ha. apply list_elem_of_filter in Ha as [Hne Ha]. split; [done|].
    apply list_elem_of_fmap in Ha as (a0 & -> & _). intros b u Hb Hu. simpl in *.
    unfold retained_blocks in *. rewrite Hu in *. destruct (meu_skipped u); [done|].
    by apply list_elem_of_filter in Hb as [? _].
Qed.

(** ** Witness: a started task with half an hour of credit *)

Definition sample_unit : ExecutionWorkUnit :=
  {| eu_item_id := 1; eu_occurrence_id := None; eu_progress_epoch := 1; eu_credited_seconds := 1801;
     eu_disposition := None; eu_used_session_indices := [0%N];
     eu_reservations := [{| er_session_index := 0; er_start := at_minute 480; er_end := at_minute 510;
                            er_kind := InFlight |}] |}.

Definition sample_execution : ExecutionPlanningContext :=
  {| ec_snapshot_revision := 1; ec_work_units := [sample_unit] |}.

Lemma ceil_seconds_exact_witness : ceil_seconds_to_minutes 1801 = 31%N.
Proof.
  destruct (ceil_seconds_exact 1801) as [H _]; [vm_compute; discriminate|].
  etransitivity; [exact H|vm_compute; reflexivity].
Defined.

Lemma apply_execution_sound_witness :
  ∃ request ctx,
    @apply_execution_context utc_platform (sample_request [sample_item 1 Task None 60]) ∅ sample_execution = Ok (request, ctx) ∧
    (wi_duration <$> items request) = [Some (with_remaining (exact_estimate 60) 29)].
Proof.
  destruct (@apply_execution_context utc_platform (sample_request [sample_item 1 Task None 60]) ∅ sample_execution)
    as [[request ctx]|e] eqn:E; [|exfalso; vm_compute in E; discriminate E].
  exists request, ctx. split; [reflexivity|].
  destruct (@apply_execution_sound utc_platform _ _ _ _ _ E) as [H _]. rewrite H. vm_compute. reflexivity.
Defined.
