(* ===== verification/Validation.v ===== *)
(** * Validation: what the scheduler accepts

    The checks of crates/dayweave-core/src/scheduler.rs that run before
    planning: the request ([validate_request], [validate_constraints],
    [validate_previous_assignments]) and the demand of manual placements
    ([validate_manual_placement_demand] and the functions it calls).  The
    theorems characterise the accepted requests and manual placements; the
    planner relies on the lemmas about accepted requests. *)
From S2P Require Import Prelude Platform Domain Samples Text Forest Rollup Lifecycle Plan Intervals Order Execution.

(** ** Display of the errors a check embeds in its message *)

Definition display_estimate_error (error : DurationEstimateError) : string :=
  match error with
  | ZeroMinimum => "duration minimum must be greater than zero"
  | InvalidRange => "duration must satisfy minimum <= expected <= maximum"
  | RangeMustVary => "ranged duration must have minimum < maximum"
  | RemainingExceedsMaximum => "remaining duration cannot exceed maximum"
  end.

Definition display_dependency_error (error : DependencyError) : string :=
  match error with
  | SelfReference => "dependency cannot reference its owning item"
  | LagTooLarge => "dependency lag must be at most " ++ display_N MAX_DEPENDENCY_LAG_MINUTES ++ " minutes"
  | WeightTooLarge => "dependency soft weight must be at most " ++ display_N MAX_DEPENDENCY_WEIGHT
  end.

(** ** Items *)

Definition window_is_empty (w : AbsoluteWindow) : bool := odt_leb (aw_end w) (aw_start w).

Definition daily_window_is_invalid (w : DailyTimeWindow) : bool :=
  (1440 <=? dw_start_minute w)%N || (1440 <? dw_end_minute w)%N || (dw_start_minute w =? dw_end_minute w)%N.

Definition validate_constraints (item : WorkItem) : result ScheduleError unit :=
  let constraints := wi_constraints item in
  let? _ := ensure (negb match occurrence_window constraints with
                         | Some window => window_is_empty window
                         | None => false
                         end) (invalid_item (wi_id item) "recurrence occurrence window is empty") in
  let? _ := forM (λ window, ensure (negb (window_is_empty (q_value window)))
              (invalid_item (wi_id item) "preferred window is empty")) (preferred_absolute_windows constraints) in
  let? _ := forM (λ window, ensure (negb (window_is_empty (q_value window)))
              (invalid_item (wi_id item) "forbidden window is empty")) (forbidden_windows constraints) in
  let? _ := forM (λ window, ensure (negb (daily_window_is_invalid (q_value window)))
              (invalid_item (wi_id item) "daily window minutes must describe a non-empty day interval"))
              (preferred_daily_windows constraints) in
  let? _ := ensure (negb (bool_decide (is_Some (bp_strength (buffers constraints))) &&
                          is_zero (bp_before (buffers constraints)) && is_zero (bp_after (buffers constraints))))
              (invalid_item (wi_id item) "buffer strength requires a non-zero before or after buffer") in
  forM (λ dependency,
    map_err (λ error, invalid_item (wi_id item) (display_dependency_error error))
      (validate_dependency dependency (Some (wi_id item)))) (dependencies constraints).

(** One iteration of the item loop of [validate_request]. *)
Definition validate_item (ids : gset ItemId) (item : WorkItem) : result ScheduleError (gset ItemId) :=
  if bool_decide (wi_id item ∈ ids) then Err (ScheduleError.DuplicateItem (wi_id item))
  else
    let? _ := map_err (invalid_item (wi_id item)) (validate_priority (wi_priority item)) in
    let? _ := map_err (invalid_item (wi_id item)) (validate_split (wi_split_policy item)) in
    let? _ := match wi_duration item with
              | Some duration =>
                  map_err (λ error, invalid_item (wi_id item) (display_estimate_error error))
                    (validate_estimate duration)
              | None => Ok tt
              end in
    let? _ := ensure (negb (is_blank (wi_title item))) (invalid_item (wi_id item) "title cannot be empty") in
    let? _ := ensure (negb match wi_kind item with
                           | CalendarEvent event => odt_leb (ce_end event) (ce_start event)
                           | _ => false
                           end) (invalid_item (wi_id item) "calendar event end must follow start") in
    let? _ := validate_constraints item in
    Ok ({[wi_id item]} ∪ ids).

(** ** Previous assignments *)

Definition has_listed_children (children : gmap ItemId (list ItemId)) (id : ItemId) : bool :=
  match children !! id with
  | Some (_ :: _) => true
  | _ => false
  end.

(** Work that cannot carry a pinned or manual assignment. *)
Definition target_is_not_executable (children : gmap ItemId (list ItemId)) (item : WorkItem) : bool :=
  is_calendar_event (wi_kind item) || is_terminal (wi_status item) ||
  bool_decide (wi_status item = WorkStatus.Blocked) ||
  negb (occupies_time item (has_listed_children children (wi_id item))).

Definition validate_assignment_target (children : gmap ItemId (list ItemId)) (item : WorkItem)
    (assignment : PreviousAssignment) : result ScheduleError unit :=
  match pa_manual_placement_id assignment with
  | Some placement_id =>
      ensure (negb (is_nil placement_id || negb (pa_pinned assignment) ||
                    bool_decide (pa_blocks assignment = []) || target_is_not_executable children item))
        (invalid_item (pa_item_id assignment) "manual placement must pin non-empty executable work")
  | None =>
      ensure (negb (pa_pinned assignment && target_is_not_executable children item))
        (invalid_item (pa_item_id assignment) "pinned assignment must identify executable work")
  end.

(** A manual block must lie in the future part of the horizon and in the
    item's occurrence window. *)
Definition outside_planning_window (request : PlanRequest) (item : WorkItem) (block : PreviousBlock) : bool :=
  odt_ltb (pb_start block) (as_of request) || odt_ltb (pb_start block) (horizon_start request) ||
  odt_ltb (horizon_end request) (pb_end block) ||
  match occurrence_window (wi_constraints item) with
  | Some window => odt_ltb (pb_start block) (aw_start window) || odt_ltb (aw_end window) (pb_end block)
  | None => false
  end.

Definition validate_previous_block `{Platform} (request : PlanRequest) (item : WorkItem) (assignment : PreviousAssignment)
    (session_indices : gset N) (block : PreviousBlock) : result ScheduleError (gset N) :=
  if odt_leb (pb_end block) (pb_start block) then 
    Err (ScheduleError.InvalidWindow ("previous assignment for " ++ uuid_display (pa_item_id assignment)))
  else if bool_decide (pb_session_index block ∈ session_indices) then
    Err (invalid_item (pa_item_id assignment) "previous assignment repeats a session index")
  else if bool_decide (is_Some (pa_manual_placement_id assignment)) && outside_planning_window request item block then
    Err (invalid_item (pa_item_id assignment) "manual placement is outside its planning or occurrence window")
  else Ok ({[pb_session_index block]} ∪ session_indices).

Definition validate_previous_assignment `{Platform} (request : PlanRequest) (by_id : gmap ItemId WorkItem)
    (children : gmap ItemId (list ItemId)) (identities : gset (ItemId * option OccurrenceId))
    (assignment : PreviousAssignment) : result ScheduleError (gset (ItemId * option OccurrenceId)) :=
  let? item := ok_or (by_id !! pa_item_id assignment)
                 (ScheduleError.MissingPreviousItem (pa_item_id assignment)) in
  if bool_decide ((pa_item_id assignment, pa_occurrence_id assignment) ∈ identities) then
    Err (invalid_item (pa_item_id assignment) "previous assignment identity is duplicated")
  else
    let? _ := validate_assignment_target children item assignment in
    let? _ := foldM (validate_previous_block request item assignment) ∅ (pa_blocks assignment) in
    Ok ({[(pa_item_id assignment, pa_occurrence_id assignment)]} ∪ identities).

Definition validate_previous_assignments `{Platform} (request : PlanRequest) : result ScheduleError unit :=
  let? _ := foldM (validate_previous_assignment request (collect_by_id (items request))
              (child_map (items request))) ∅ (previous_assignments request) in
  Ok tt.

(** ** The request *)

Definition validate_request `{Platform} (request : PlanRequest) : result ScheduleError unit :=
  let? _ := ensure (odt_ltb (horizon_start request) (horizon_end request)) ScheduleError.InvalidHorizon in
  let? _ := ensure (negb (is_zero (slot_granularity (config request)))) ScheduleError.InvalidGranularity in
  let? _ := foldM validate_item ∅ (items request) in
  let? _ := map_err ScheduleError.InvalidHierarchy (roll_up_expected_durations (items request)) in
  let? _ := forM (λ '(index, availability), ensure (odt_ltb (av_start availability) (av_end availability))
              (ScheduleError.InvalidWindow ("availability " ++ display_N (N.of_nat index))))
              (imap pair (availability request)) in
  let? _ := forM (λ fixed, ensure (odt_ltb (fb_start fixed) (fb_end fixed))
              (ScheduleError.InvalidWindow ("fixed block " ++ uuid_display (fb_id fixed)))) (fixed_blocks request) in
  validate_previous_assignments request.

(** ** Manual placements

    A manual placement must bind exactly the work that remains, in whole
    scheduler slots and within the item's split policy. *)

Definition previous_block_leb (a b : PreviousBlock) : bool :=
  is_le (then_with (odt_cmp (pb_start a) (pb_start b))
    (then_with (odt_cmp (pb_end a) (pb_end b)) (pb_session_index a ?= pb_session_index b)%N)).

Definition on_grid (granularity_seconds : Z) (t : OffsetDateTime) : bool :=
  (nanosecond t =? 0)%Z && ((unix_timestamp t) mod granularity_seconds =? 0)%Z.

(** The seconds and minutes of one block, or [None] when it is off the grid. *)
Definition slot_aligned (request : PlanRequest) (block : PreviousBlock) : bool :=
  let seconds := whole_seconds (duration_between (pb_end block) (pb_start block)) in
  let granularity_seconds := (Z.of_N (slot_granularity (config request)) * 60)%Z in
  negb ((seconds <=? 0)%Z || negb (Z.rem seconds 60 =? 0)%Z ||
        negb (on_grid granularity_seconds (pb_start block)) || negb (on_grid granularity_seconds (pb_end block))).

Definition try_u32 (x : Z) : option N :=
  if (0 <=? x)%Z && (x <=? Z.of_N u32_max)%Z then Some (Z.to_N x) else None.

Definition add_block_minutes (request : PlanRequest) (item : WorkItem) (total_minutes : N)
    (block : PreviousBlock) : result ScheduleError N :=
  let seconds := whole_seconds (duration_between (pb_end block) (pb_start block)) in
  let? _ := ensure (slot_aligned request block)
              (invalid_item (wi_id item) "manual placement blocks must use whole-minute scheduler slots") in
  let too_large := invalid_item (wi_id item) "manual placement duration exceeds supported bounds" in
  let? block_minutes := ok_or (try_u32 (Z.quot seconds 60)) too_large in
  ok_or (checked_add u32_max total_minutes block_minutes) too_large.

(** [chronological.windows(2).any(…)] *)
Fixpoint increasing_sessions (blocks : list PreviousBlock) : bool :=
  match blocks with
  | first :: (second :: _) as rest =>
      (pb_session_index first <? pb_session_index second)%N && increasing_sessions rest
  | _ => true
  end.

(** The loop over the fresh suffix; [expected] stays put at [u16::MAX]. *)
Fixpoint consecutive_from (expected : N) (blocks : list PreviousBlock) : bool :=
  match blocks with
  | [] => true
  | block :: rest =>
      (pb_session_index block =? expected)%N &&
      consecutive_from (default expected (checked_add u16_max expected 1)) rest
  end.

Definition is_fresh (high : option N) (block : PreviousBlock) : bool :=
  match high with Some index => (index <? pb_session_index block)%N | None => true end.

(** The blocks from the first fresh one on ([position], then the slice). *)
Fixpoint fresh_suffix (high : option N) (blocks : list PreviousBlock) : list PreviousBlock :=
  match blocks with
  | [] => []
  | block :: rest => if is_fresh high block then blocks else fresh_suffix high rest
  end.

Definition unit_high_water (execution : MaterializedExecutionContext) (item_id : ItemId) : option N :=
  mec_work_units execution !! item_id ≫= high_water.

(** [map_or(Some(0), |index| index.checked_add(1))] *)
Definition next_index (high : option N) : option N :=
  match high with Some index => checked_add u16_max index 1 | None => Some 0%N end.

Definition validate_manual_block_sequence (request : PlanRequest) (execution : MaterializedExecutionContext)
    (item : WorkItem) (assignment : PreviousAssignment) : result ScheduleError (list PreviousBlock * N) :=
  let chronological := sort_by previous_block_leb (pa_blocks assignment) in
  let? total_minutes := foldM (add_block_minutes request item) 0%N chronological in
  let? _ := ensure (increasing_sessions chronological)
    (invalid_item (wi_id item) "manual placement session indices must be strictly increasing and chronological") in
  let high := unit_high_water execution (wi_id item) in
  match fresh_suffix high chronological with
  | [] => Ok (chronological, total_minutes)
  | fresh =>
      let? expected := ok_or (next_index high)
        (invalid_item (wi_id item) "manual placement session index space is exhausted") in
      let? _ := ensure (consecutive_from expected fresh)
        (invalid_item (wi_id item) "manual placement fresh session indices must be consecutive") in
      Ok (chronological, total_minutes)
  end.

Section manual.
Context `{Platform}.

(** One block of [validate_manual_split_policy] for splittable work; the
    state is the set of days and the block before. *)
Definition check_manual_session (item : WorkItem) (minimum_session maximum_session minimum_gap : Minutes)
    (alone : bool) (total_minutes : N) (st : gset Date * option PreviousBlock) (block : PreviousBlock)
    : result ScheduleError (gset Date * option PreviousBlock) :=
  let '(days, previous) := st in
  let? block_minutes := ok_or (try_u32 (whole_minutes (duration_between (pb_end block) (pb_start block))))
    (invalid_item (wi_id item) "manual placement duration exceeds supported bounds") in
  let only_subminimum_remainder :=
    alone && (total_minutes <? minimum_session)%N && (block_minutes =? total_minutes)%N in
  let? _ := ensure (negb ((negb only_subminimum_remainder && (block_minutes <? minimum_session)%N) ||
                          (maximum_session <? block_minutes)%N))
    (invalid_item (wi_id item) "manual placement block violates configured session bounds") in
  let? _ :=
    match previous with
    | None => Ok tt
    | Some previous =>
        let? required_start := ok_or (odt_checked_add (pb_end previous) (duration_minutes minimum_gap))
          (invalid_item (wi_id item) "minimum gap exceeds the supported timestamp range") in
        ensure (negb (odt_ltb (pb_start block) required_start))
          (invalid_item (wi_id item) "manual placement blocks violate the configured minimum gap")
    end in
  Ok ({[odt_date (pb_start block)]} ∪ days, Some block).

Definition validate_manual_split_policy (item : WorkItem) (chronological : list PreviousBlock)
    (total_minutes : N) : result ScheduleError unit :=
  match wi_split_policy item with
  | Indivisible =>
      ensure (length chronological =? 1)
        (invalid_item (wi_id item) "an indivisible manual placement must contain exactly one block")
  | Splittable minimum_session maximum_session maximum_sessions minimum_gap maximum_days =>
      let? _ := ensure (length chronological <=? N.to_nat maximum_sessions)
        (invalid_item (wi_id item) "manual placement exceeds the configured session limit") in
      let? (days, _) := foldM (check_manual_session item minimum_session maximum_session minimum_gap
                                 (length chronological =? 1) total_minutes) (∅, None) chronological in
      ensure match maximum_days with
             | Some limit => size days <=? N.to_nat limit
             | None => true
             end (invalid_item (wi_id item) "manual placement exceeds the configured day limit")
  end.

Definition validate_manual_assignment_demand (request : PlanRequest) (execution : MaterializedExecutionContext)
    (item : WorkItem) (assignment : PreviousAssignment) : result ScheduleError unit :=
  let? expected := ok_or (wi_duration item)
    (invalid_item (wi_id item) "manual placement requires an authoritative duration") in
  let? _ := ensure match mec_work_units execution !! wi_id item with
                   | Some work_unit => bool_decide (meu_reservations work_unit = [])
                   | None => true
                   end
    (invalid_item (wi_id item) "manual placement cannot replace an active execution reservation") in
  let? (chronological, total_minutes) := validate_manual_block_sequence request execution item assignment in
  let? _ := ensure (total_minutes =? planning_minutes expected)%N
    (invalid_item (wi_id item) "manual placement must bind the exact remaining work duration") in
  validate_manual_split_policy item chronological total_minutes.

(** Only assignments with a placement id are checked; a missing item, which
    the index of the code would reject by panicking, is excluded by
    [validate_request]. *)
Definition validate_manual_placement_demand (request : PlanRequest) (execution : MaterializedExecutionContext)
    : result ScheduleError unit :=
  let by_id := collect_by_id (items request) in
  forM (λ assignment,
    match pa_manual_placement_id assignment, by_id !! pa_item_id assignment with
    | Some _, Some item => validate_manual_assignment_demand request execution item assignment
    | _, _ => Ok tt
    end) (previous_assignments request).
End manual.

(** ** Specification: well-formed requests *)

Definition valid_window (w : AbsoluteWindow) : Prop := (aw_start w < aw_end w)%Z.

Definition valid_daily_window (w : DailyTimeWindow) : Prop :=
  (dw_start_minute w < 1440)%N ∧ (dw_end_minute w <= 1440)%N ∧ dw_start_minute w ≠ dw_end_minute w.

Definition valid_dependency (owner : ItemId) (d : Dependency) : Prop :=
  dep_item_id d ≠ owner ∧ (dep_minimum_lag d <= MAX_DEPENDENCY_LAG_MINUTES)%N ∧
  (weight (dep_strength d) <= MAX_DEPENDENCY_WEIGHT)%N.

Definition valid_estimate (e : DurationEstimate) : Prop :=
  (0 < de_minimum e)%N ∧ (de_minimum e <= de_expected e)%N ∧ (de_expected e <= de_maximum e)%N ∧
  ∀ remaining, de_remaining e = Some remaining → (remaining <= de_maximum e)%N.

Definition valid_split (p : SplitPolicy) : Prop :=
  match p with
  | Indivisible => True
  | Splittable minimum_session maximum_session maximum_sessions _ _ =>
      (0 < minimum_session)%N ∧ (minimum_session <= maximum_session)%N ∧ (0 < maximum_sessions)%N
  end.

Record valid_constraints (item : WorkItem) (c : SchedulingConstraints) : Prop := {
  vc_occurrence w : occurrence_window c = Some w → valid_window w;
  vc_preferred w : w ∈ preferred_absolute_windows c → valid_window (q_value w);
  vc_forbidden w : w ∈ forbidden_windows c → valid_window (q_value w);
  vc_daily w : w ∈ preferred_daily_windows c → valid_daily_window (q_value w);
  vc_buffers : is_Some (bp_strength (buffers c)) → bp_before (buffers c) ≠ 0%N ∨ bp_after (buffers c) ≠ 0%N;
  vc_dependencies d : d ∈ dependencies c → valid_dependency (wi_id item) d
}.

Record valid_item (item : WorkItem) : Prop := {
  vi_priority : (importance (wi_priority item) <= 10)%N ∧ (urgency (wi_priority item) <= 10)%N;
  vi_split : valid_split (wi_split_policy item);
  vi_duration e : wi_duration item = Some e → valid_estimate e;
  vi_title : is_blank (wi_title item) = false;
  vi_event e : wi_kind item = CalendarEvent e → (ce_start e < ce_end e)%Z;
  vi_constraints : valid_constraints item (wi_constraints item)
}.

(** A block of a previous assignment, and where a manual one must lie. *)
Definition valid_previous_block (request : PlanRequest) (item : WorkItem) (assignment : PreviousAssignment)
    (b : PreviousBlock) : Prop :=
  (pb_start b < pb_end b)%Z ∧
  (is_Some (pa_manual_placement_id assignment) →
     (as_of request <= pb_start b)%Z ∧ (horizon_start request <= pb_start b)%Z ∧
     (pb_end b <= horizon_end request)%Z ∧
     ∀ w, occurrence_window (wi_constraints item) = Some w → (aw_start w <= pb_start b)%Z ∧ (pb_end b <= aw_end w)%Z).

Definition executable (its : list WorkItem) (item : WorkItem) : Prop :=
  target_is_not_executable (child_map its) item = false.

Definition valid_assignment (request : PlanRequest) (assignment : PreviousAssignment) : Prop :=
  ∃ item, collect_by_id (items request) !! pa_item_id assignment = Some item ∧
  (pa_pinned assignment = true → executable (items request) item) ∧
  (∀ placement, pa_manual_placement_id assignment = Some placement →
     placement ≠ 0%N ∧ pa_pinned assignment = true ∧ pa_blocks assignment ≠ []) ∧
  NoDup (pb_session_index <$> pa_blocks assignment) ∧
  ∀ b, b ∈ pa_blocks assignment → valid_previous_block request item assignment b.

Record valid_request (request : PlanRequest) : Prop := {
  vr_horizon : (horizon_start request < horizon_end request)%Z;
  vr_granularity : slot_granularity (config request) ≠ 0%N;
  vr_ids : NoDup (wi_id <$> items request);
  vr_items item : item ∈ items request → valid_item item;
  vr_hierarchy : is_ok (roll_up_expected_durations (items request)) = true;
  vr_availability w : w ∈ availability request → (av_start w < av_end w)%Z;
  vr_fixed b : b ∈ fixed_blocks request → (fb_start b < fb_end b)%Z;
  vr_identities : NoDup ((λ a, (pa_item_id a, pa_occurrence_id a)) <$> previous_assignments request);
  vr_assignments a : a ∈ previous_assignments request → valid_assignment request a
}.

(** ** Lemmas *)

Lemma window_is_empty_false w : negb (window_is_empty w) = true ↔ valid_window w.
Proof. unfold window_is_empty, valid_window. rewrite negb_true_iff. unfold odt_leb. rewrite Z.leb_gt. done. Qed.

Lemma daily_window_valid w : negb (daily_window_is_invalid w) = true ↔ valid_daily_window w.
Proof.
  unfold daily_window_is_invalid, valid_daily_window.
  rewrite negb_true_iff, !orb_false_iff, N.leb_gt, N.ltb_ge, N.eqb_neq. tauto.
Qed.

Lemma validate_dependency_iff d owner : validate_dependency d (Some owner) = Ok tt ↔ valid_dependency owner d.
Proof.
  unfold validate_dependency, valid_dependency. case_bool_decide as Ho.
  - split; [done|]. intros [Hne _]. congruence.
  - destruct (N.ltb_spec MAX_DEPENDENCY_LAG_MINUTES (dep_minimum_lag d)); [split; [done|lia]|].
    destruct (dep_strength d) as [|w]; simpl.
    + split; [intros _|done]. split_and!; [congruence|done|lia].
    + destruct (N.ltb_spec MAX_DEPENDENCY_WEIGHT w); (split; [|naive_solver lia]); [done|].
      intros _. split_and!; [congruence|done|done].
Qed.

Lemma validate_estimate_iff e : validate_estimate e = Ok tt ↔ valid_estimate e.
Proof.
  unfold validate_estimate, valid_estimate, is_zero.
  destruct (N.eqb_spec (de_minimum e) 0); [split; [done|lia]|].
  destruct (N.ltb_spec (de_expected e) (de_minimum e)), (N.ltb_spec (de_maximum e) (de_expected e)); simpl;
    try (split; [done|lia]).
  destruct (de_remaining e) as [r|]; [destruct (N.ltb_spec (de_maximum e) r)|]; (split; [intros Hok|intros (_ & _ & _ & Hr)]);
    try done; try (split_and!; [lia..|intros ??; by simplify_eq]).
  specialize (Hr r eq_refl). lia.
Qed.

Lemma validate_split_iff p : validate_split p = Ok tt ↔ valid_split p.
Proof.
  destruct p; simpl; [done|]. unfold is_zero.
  destruct (N.eqb_spec minimum_session 0), (N.ltb_spec maximum_session minimum_session),
    (N.eqb_spec maximum_sessions 0); split; (done || lia).
Qed.

Lemma validate_constraints_iff item :
  validate_constraints item = Ok tt ↔ valid_constraints item (wi_constraints item).
Proof.
  unfold validate_constraints. set (c := wi_constraints item).
  rewrite !rbind_unit_ok, !ensure_ok, !forM_ok, !Forall_forall.
  setoid_rewrite ensure_ok. setoid_rewrite window_is_empty_false. setoid_rewrite daily_window_valid.
  setoid_rewrite map_err_ok. setoid_rewrite validate_dependency_iff.
  assert (negb match occurrence_window c with Some w => window_is_empty w | None => false end = true ↔
    ∀ w, occurrence_window c = Some w → valid_window w) as ->.
  { destruct (occurrence_window c) as [w|]; [rewrite window_is_empty_false|]; naive_solver. }
  assert (negb (bool_decide (is_Some (bp_strength (buffers c))) && is_zero (bp_before (buffers c)) &&
      is_zero (bp_after (buffers c))) = true ↔
    (is_Some (bp_strength (buffers c)) → bp_before (buffers c) ≠ 0%N ∨ bp_after (buffers c) ≠ 0%N)) as ->.
  { unfold is_zero. rewrite negb_true_iff, !andb_false_iff, bool_decide_eq_false, !N.eqb_neq.
    destruct (decide (is_Some (bp_strength (buffers c)))); tauto. }
  split; [intros (? & ? & ? & ? & ? & ?); by constructor|by intros []].
Qed.

Lemma validate_item_iff ids item ids' :
  (validate_item ids item = Ok ids') ↔ ((wi_id item ∉ ids) ∧ valid_item item ∧ ids' = {[wi_id item]} ∪ ids).
Proof.
  unfold validate_item. case_bool_decide as Hid; [split; [done|naive_solver]|].
  rewrite !rbind_unit_ok, !map_err_ok, !ensure_ok, negb_true_iff, validate_constraints_iff, validate_split_iff.
  assert (validate_priority (wi_priority item) = Ok tt ↔
    (importance (wi_priority item) <= 10)%N ∧ (urgency (wi_priority item) <= 10)%N) as ->.
  { unfold validate_priority.
    destruct (N.ltb_spec 10 (importance (wi_priority item))), (N.ltb_spec 10 (urgency (wi_priority item))); simpl;
      split; (done || lia). }
  assert (match wi_duration item with
    | Some duration => map_err (λ error, invalid_item (wi_id item) (display_estimate_error error)) (validate_estimate duration)
    | None => Ok tt end = Ok tt ↔ ∀ e, wi_duration item = Some e → valid_estimate e) as ->.
  { destruct (wi_duration item); [rewrite map_err_ok, validate_estimate_iff|]; naive_solver. }
  assert (negb match wi_kind item with CalendarEvent e => odt_leb (ce_end e) (ce_start e) | _ => false end = true ↔
    ∀ e, wi_kind item = CalendarEvent e → (ce_start e < ce_end e)%Z) as ->.
  { destruct (wi_kind item); try naive_solver. rewrite negb_true_iff, odt_leb_gt. naive_solver. }
  split.
  - intros (? & ? & ? & ? & ? & ? & [= ->]). split_and!; [done| |done]. by constructor.
  - intros (_ & [] & ->). done.
Qed.

Lemma validate_previous_block_iff `{Platform} request item assignment indices b indices' :
  (validate_previous_block request item assignment indices b = Ok indices') ↔
  ((pb_session_index b ∉ indices) ∧ valid_previous_block request item assignment b ∧
    indices' = {[pb_session_index b]} ∪ indices).
Proof.
  unfold validate_previous_block, valid_previous_block.
  destruct (odt_leb (pb_end b) (pb_start b)) eqn:Hb; instants; [split; [done|naive_solver lia]|].
  case_bool_decide; [split; [done|naive_solver]|].
  assert (outside_planning_window request item b = false ↔
    (as_of request <= pb_start b)%Z ∧ (horizon_start request <= pb_start b)%Z ∧ (pb_end b <= horizon_end request)%Z ∧
    ∀ w, occurrence_window (wi_constraints item) = Some w → (aw_start w <= pb_start b)%Z ∧ (pb_end b <= aw_end w)%Z) as Hout.
  { unfold outside_planning_window. rewrite !orb_false_iff, !odt_ltb_ge.
    destruct (occurrence_window (wi_constraints item)); [rewrite orb_false_iff, !odt_ltb_ge|]; naive_solver. }
  destruct (bool_decide (is_Some (pa_manual_placement_id assignment)) && outside_planning_window request item b) eqn:E.
  - apply andb_true_iff in E as [Hm%bool_decide_eq_true Ho]. split; [done|]. intros (_ & (_ & Hv) & _).
    specialize (Hv Hm). rewrite <- Hout in Hv. congruence.
  - apply andb_false_iff in E. rewrite bool_decide_eq_false, Hout in E. split; [|naive_solver].
    intros [= <-]. split_and!; [done|done| |done]. destruct E as [E|E]; tauto.
Qed.

Lemma validate_assignment_target_iff its item assignment :
  validate_assignment_target (child_map its) item assignment = Ok tt ↔
  (pa_pinned assignment = true → executable its item) ∧
  (∀ placement, pa_manual_placement_id assignment = Some placement →
     placement ≠ 0%N ∧ pa_pinned assignment = true ∧ pa_blocks assignment ≠ []).
Proof.
  unfold validate_assignment_target, executable.
  destruct (pa_manual_placement_id assignment) as [placement|]; rewrite ensure_ok, negb_true_iff.
  - unfold is_nil. rewrite !orb_false_iff, negb_false_iff, N.eqb_neq, bool_decide_eq_false. split.
    + intros (((? & ?) & ?) & ?). split; [done|]. by intros ? [= <-].
    + intros [H1 H2]. destruct (H2 placement eq_refl) as (? & Hp & ?). auto.
  - rewrite andb_false_iff. split.
    + intros [Hp|Ht]; split; congruence.
    + intros [H1 _]. destruct (pa_pinned assignment); auto.
Qed.

Lemma validate_previous_assignment_iff `{Platform} request identities assignment identities' :
  (validate_previous_assignment request (collect_by_id (items request)) (child_map (items request)) identities
     assignment = Ok identities') ↔
  (((pa_item_id assignment, pa_occurrence_id assignment) ∉ identities) ∧ valid_assignment request assignment ∧
    identities' = {[(pa_item_id assignment, pa_occurrence_id assignment)]} ∪ identities).
Proof.
  unfold validate_previous_assignment, valid_assignment.
  destruct (collect_by_id (items request) !! pa_item_id assignment) as [item|]; simpl; [|split; [done|naive_solver]].
  case_bool_decide; [split; [done|naive_solver]|].
  rewrite rbind_unit_ok, validate_assignment_target_iff, rbind_ok.
  assert ((∃ s, foldM (validate_previous_block request item assignment) ∅ (pa_blocks assignment) = Ok s) ↔
    NoDup (pb_session_index <$> pa_blocks assignment) ∧
    (∀ b, b ∈ pa_blocks assignment → pb_session_index b ∉ (∅ : gset N)) ∧
    ∀ b, b ∈ pa_blocks assignment → valid_previous_block request item assignment b) as Hblocks.
  { apply fresh_loop_ok. intros. apply validate_previous_block_iff. }
  split.
  - intros ([H1 H2] & s & Hs & [= <-]). destruct (proj1 Hblocks (ex_intro _ s Hs)) as (H3 & _ & H4).
    split; [done|]. split; [|done]. by exists item.
  - intros (_ & (item' & [= <-] & H1 & H2 & H3 & H4) & ->). split; [done|].
    destruct (proj2 Hblocks) as [s Hs]; [split_and!; [done|set_solver|done]|]. by exists s.
Qed.

Lemma exists_rbind_unit {E A} (m : result E A) (k : result E unit) :
  rbind m (λ _, k) = Ok tt ↔ (∃ a, m = Ok a) ∧ k = Ok tt.
Proof. rewrite rbind_ok. naive_solver. Qed.

(** A check of the elements that numbers them only in its errors. *)
Lemma forM_enumerate {E A} (f : A → bool) (e : nat → E) (l : list A) :
  forM (λ '(i, a), ensure (f a) (e i)) (imap pair l) = Ok tt ↔ ∀ a, a ∈ l → f a = true.
Proof.
  rewrite forM_ok, Forall_forall. split.
  - intros Hl a [i Hi]%list_elem_of_lookup. specialize (Hl (i, a)). simpl in Hl. rewrite ensure_ok in Hl.
    apply Hl, elem_of_lookup_imap. by exists i, a.
  - intros Hl [i a] (j & b & [= <- <-] & Hb)%elem_of_lookup_imap. apply ensure_ok, Hl. by eapply list_elem_of_lookup_2.
Qed.

Lemma validate_request_iff `{Platform} request : validate_request request = Ok tt ↔ valid_request request.
Proof.
  unfold validate_request, validate_previous_assignments.
  rewrite !rbind_unit_ok. repeat (rewrite rbind_unit_ok || rewrite exists_rbind_unit).
  rewrite forM_enumerate. rewrite !forM_ok, !Forall_forall.
  setoid_rewrite ensure_ok. setoid_rewrite odt_ltb_lt.
  setoid_rewrite negb_true_iff. unfold is_zero. rewrite N.eqb_neq.
  rewrite (fresh_loop_ok wi_id valid_item) by (intros; apply validate_item_iff).
  rewrite (fresh_loop_ok (λ a, (pa_item_id a, pa_occurrence_id a)) (valid_assignment request))
    by (intros; apply validate_previous_assignment_iff).
  assert ((∃ a, map_err ScheduleError.InvalidHierarchy (roll_up_expected_durations (items request)) = Ok a) ↔
    is_ok (roll_up_expected_durations (items request)) = true) as ->.
  { destruct (roll_up_expected_durations _); simpl; naive_solver. }
  split.
  - intros (? & ? & (? & _ & ?) & ? & ? & ? & (? & _ & ?) & _). by constructor.
  - intros Hv. destruct Hv as [? ? ? ? ? ? ? ? ?]. split_and!; eauto; set_solver.
Qed.

(** ** Manual placements: specification and lemmas *)

Definition block_minutes (b : PreviousBlock) : N :=
  Z.to_N (Z.quot (whole_seconds (duration_between (pb_end b) (pb_start b))) 60).

Definition total_block_minutes (l : list PreviousBlock) : N := foldr (λ b total, block_minutes b + total)%N 0%N l.

(** The block is a positive number of whole minutes between slot boundaries. *)
Definition slot_block (request : PlanRequest) (b : PreviousBlock) : Prop :=
  let granularity_seconds := (Z.of_N (slot_granularity (config request)) * 60)%Z in
  (0 < block_minutes b)%N ∧
  (pb_end b - pb_start b = Z.of_N (block_minutes b) * nanos_per_minute)%Z ∧
  on_grid granularity_seconds (pb_start b) = true ∧ on_grid granularity_seconds (pb_end b) = true.

Definition first_fresh_index (high : option N) : N :=
  match high with Some index => index + 1 | None => 0 end%N.

(** What a manual placement must satisfy under a split policy. *)
Definition split_policy_respected `{Platform} (policy : SplitPolicy) (chronological : list PreviousBlock) : Prop :=
  match policy with
  | Indivisible => length chronological = 1
  | Splittable minimum_session maximum_session maximum_sessions minimum_gap maximum_days =>
      length chronological ≤ N.to_nat maximum_sessions ∧
      (∀ b, b ∈ chronological → (block_minutes b <= maximum_session)%N ∧
         ((minimum_session <= block_minutes b)%N ∨ length chronological = 1)) ∧
      (∀ i a b, chronological !! i = Some a → chronological !! S i = Some b →
         (pb_end a + Z.of_N minimum_gap * nanos_per_minute <= pb_start b)%Z) ∧
      ∀ limit, maximum_days = Some limit →
        size (list_to_set ((λ b, odt_date (pb_start b)) <$> chronological) : gset Z) ≤ N.to_nat limit
  end.

Lemma slot_aligned_spec request b : slot_aligned request b = true → slot_block request b.
Proof.
  unfold slot_aligned, slot_block. rewrite negb_true_iff, !orb_false_iff, !negb_false_iff.
  intros (((Hpos & Hmod) & Hs) & He). split_and!; [| |done|done].
  - unfold block_minutes. bool_to_prop. set (sec := whole_seconds _) in *.
    pose proof (Z.quot_rem sec 60 ltac:(done)). pose proof (Z.quot_pos sec 60). lia.
  - unfold block_minutes. bool_to_prop.
    assert (∀ t : OffsetDateTime, nanosecond t = 0%Z → ∃ k, unix_nanos t = (k * nanos_per_second)%Z) as Hns.
    { unfold nanosecond. intros t Ht. exists (t / nanos_per_second)%Z.
      pose proof (Z.div_mod t nanos_per_second ltac:(done)). lia. }
    unfold on_grid in Hs, He. bool_to_prop.
    destruct (Hns (pb_start b)) as [ks Hks]; [done|]. destruct (Hns (pb_end b)) as [ke Hke]; [done|].
    unfold whole_seconds, duration_between in *. rewrite Hks, Hke in *.
    replace (ke * nanos_per_second - ks * nanos_per_second)%Z with ((ke - ks) * nanos_per_second)%Z in * by lia.
    rewrite Z.quot_mul in * by done.
    pose proof (Z.quot_rem (ke - ks) 60 ltac:(done)). pose proof (Z.quot_pos (ke - ks) 60).
    unfold nanos_per_minute, nanos_per_second. lia.
Qed.

Lemma add_block_minutes_spec request item l total :
  foldM (add_block_minutes request item) 0%N l = Ok total →
  total = total_block_minutes l ∧ Forall (slot_block request) l.
Proof.
  assert (∀ l, total_block_minutes l = foldl (λ t b, t + block_minutes b)%N 0%N l) as Hsum.
  { intros k. unfold total_block_minutes.
    enough (∀ n, foldl (λ t b, t + block_minutes b)%N n k = (n + foldr (λ b t, block_minutes b + t) 0 k)%N) as -> by lia.
    induction k as [|b k IH]; intros n; simpl; [lia|]. rewrite IH. lia. }
  rewrite Hsum.
  apply (foldM_inv _ (λ l total, total = foldl (λ t b, t + block_minutes b)%N 0%N l ∧ Forall (slot_block request) l));
    [split; constructor|].
  intros p b q t t' _ [-> Hp] Hstep. unfold add_block_minutes in Hstep.
  rewrite rbind_unit_ok, ensure_ok in Hstep. destruct Hstep as [Hal Hstep].
  apply rbind_ok in Hstep as (m & Hm%ok_or_ok & Ht%ok_or_ok). apply checked_add_Some in Ht as [-> _].
  rewrite foldl_app. simpl. split; [|apply Forall_app; split; [done|]; constructor; [by apply slot_aligned_spec|constructor]].
  f_equal. unfold try_u32 in Hm. case_match; [|done]. by simplify_eq.
Qed.

Lemma increasing_sessions_sorted l :
  increasing_sessions l = true → StronglySorted (λ a b, pb_session_index a < pb_session_index b)%N l.
Proof.
  intros Hl. apply Sorted_StronglySorted; [intros a b c; lia|].
  induction l as [|a [|b l] IH]; [constructor|repeat constructor|].
  cbn [increasing_sessions] in Hl. bool_to_prop. constructor; [by apply IH|by constructor].
Qed.

(** The fresh suffix of a strictly increasing list is all its fresh blocks. *)
Lemma fresh_suffix_filter high l :
  StronglySorted (λ a b, pb_session_index a < pb_session_index b)%N l →
  fresh_suffix high l = filter (λ b, is_fresh high b = true) l.
Proof.
  induction 1 as [|b l Hl IH Hb]; [done|]. cbn [fresh_suffix]. rewrite filter_cons.
  destruct (is_fresh high b) eqn:E; [|by rewrite decide_False by done].
  rewrite decide_True by done. f_equal. symmetry. apply filter_all. intros c Hc.
  rewrite Forall_forall in Hb. specialize (Hb c Hc). destruct high as [h|]; [|done]. simpl in *. bool_to_prop.
  apply N.ltb_lt. lia.
Qed.

Lemma consecutive_from_spec expected l i b :
  consecutive_from expected l = true → StronglySorted (λ a b, pb_session_index a < pb_session_index b)%N l →
  l !! i = Some b → pb_session_index b = (expected + N.of_nat i)%N.
Proof.
  intros Hc Hl. revert expected i Hc. induction Hl as [|a l Hl IH Ha]; intros expected i Hc Hi; [done|].
  cbn [consecutive_from] in Hc. bool_to_prop. destruct i as [|i]; simplify_eq/=; [lia|].
  destruct (checked_add u16_max (pb_session_index a) 1) as [e|] eqn:E; simpl in *.
  - apply checked_add_Some in E as [-> _]. rewrite (IH (pb_session_index a + 1)%N i); [lia|done|done].
  - destruct l as [|c l]; [done|]. rewrite Forall_forall in Ha. specialize (Ha c ltac:(left)).
    cbn [consecutive_from] in *. bool_to_prop. lia.
Qed.

Section split_policy.
Context `{PlatformLaws}.

(** The chronological loop: what it has established after a prefix. *)
Lemma check_manual_sessions_spec item minimum maximum gap alone total l days prev :
  foldM (check_manual_session item minimum maximum gap alone total) (∅, None) l = Ok (days, prev) →
  days = list_to_set ((λ b, odt_date (pb_start b)) <$> l) ∧ prev = last l ∧
  (∀ b, b ∈ l → ∃ m, try_u32 (whole_minutes (duration_between (pb_end b) (pb_start b))) = Some m ∧
     (m <= maximum)%N ∧ ((minimum <= m)%N ∨ alone = true)) ∧
  (∀ i a b, l !! i = Some a → l !! S i = Some b →
     (pb_end a + Z.of_N gap * nanos_per_minute <= pb_start b)%Z).
Proof.
  intros Hf. change days with (days, prev).1. change prev with (days, prev).2 at 2. revert Hf. generalize (days, prev).
  intros st Hf. revert Hf.
  apply (foldM_inv _ (λ l (st : gset Z * option PreviousBlock), st.1 = list_to_set ((λ b, odt_date (pb_start b)) <$> l) ∧ st.2 = last l ∧
    (∀ b, b ∈ l → ∃ m, try_u32 (whole_minutes (duration_between (pb_end b) (pb_start b))) = Some m ∧
     (m <= maximum)%N ∧ ((minimum <= m)%N ∨ alone = true)) ∧
    (∀ i a b, l !! i = Some a → l !! S i = Some b → (pb_end a + Z.of_N gap * nanos_per_minute <= pb_start b)%Z))).
  { split_and!; [done|done|by intros ? ?%elem_of_nil|done]. }
  intros p b q [ds pv] [ds' pv'] _ (H1 & H2 & H3 & H4) Hstep. simpl in H1, H2. subst ds pv.
  unfold check_manual_session in Hstep. apply rbind_ok in Hstep as (m & Hm%ok_or_ok & Hstep).
  rewrite !rbind_unit_ok, ensure_ok in Hstep. destruct Hstep as (Hb & Hgap & [= <- <-]). simpl. split_and!.
  - rewrite fmap_app, list_to_set_app_L. simpl. set_solver.
  - by rewrite last_snoc.
  - intros c [Hc| ->%list_elem_of_singleton]%elem_of_app; [by apply H3|]. exists m. split; [done|].
    apply negb_true_iff, orb_false_iff in Hb as [Hlow Hhigh%N.ltb_ge]. split; [done|].
    apply andb_false_iff in Hlow as [Hl|Hl%N.ltb_ge]; [|by left].
    apply negb_false_iff in Hl. right. by destruct alone.
  - intros i a c Ha Hc. destruct (decide (S i < length p)) as [Hlt|Hge].
    + rewrite lookup_app_l in Ha by lia. rewrite lookup_app_l in Hc by lia. by apply (H4 i).
    + pose proof (lookup_lt_Some _ _ _ Hc) as Hlen. rewrite length_app in Hlen. simpl in Hlen.
      assert (S i = length p) as Hi by lia.
      rewrite lookup_app_r in Hc by lia. rewrite Hi, Nat.sub_diag in Hc. simplify_eq/=.
      rewrite lookup_app_l in Ha by lia. rewrite last_lookup, <- Hi in Hgap. simpl in Hgap. rewrite Ha in Hgap.
      apply rbind_ok in Hgap as (t & Ht%ok_or_ok & Hlt%ensure_ok). apply checked_add_exact in Ht as [Ht _].
      apply negb_true_iff in Hlt. instants. unfold duration_minutes in Ht. lia.
Qed.

Lemma slot_block_minutes request b m :
  slot_block request b → try_u32 (whole_minutes (duration_between (pb_end b) (pb_start b))) = Some m → m = block_minutes b.
Proof.
  intros (_ & Heq & _) Hm. unfold duration_between in Hm. rewrite Heq in Hm. unfold whole_minutes in Hm.
  rewrite Z.quot_mul in Hm by done. unfold try_u32 in Hm. case_match; [|done]. simplify_eq. lia.
Qed.

Lemma validate_manual_split_policy_Ok request item chronological total :
  Forall (slot_block request) chronological →
  validate_manual_split_policy item chronological total = Ok tt →
  split_policy_respected (wi_split_policy item) chronological.
Proof.
  unfold validate_manual_split_policy, split_policy_respected. intros Hslots.
  destruct (wi_split_policy item) as [|minimum maximum sessions gap limit].
  { rewrite ensure_ok. apply Nat.eqb_eq. }
  rewrite rbind_unit_ok, ensure_ok, Nat.leb_le. intros [Hlen Hloop]. split; [done|].
  apply rbind_ok in Hloop as ([days prev] & Hloop & Hdays%ensure_ok).
  apply check_manual_sessions_spec in Hloop as (-> & _ & Hsize & Hgap). split_and!; [|done|].
  - intros b Hb. destruct (Hsize b Hb) as (m & Hm & Hmax & Hmin). rewrite Forall_forall in Hslots.
    apply (slot_block_minutes request) in Hm as ->; [|by apply Hslots]. split; [done|].
    destruct Hmin as [?|?%Nat.eqb_eq]; auto.
  - intros l ->. by apply Nat.leb_le.
Qed.
End split_policy.

(** ** Theorems *)

(** Validation accepts exactly the well-formed requests: a positive horizon
    and granularity, distinct valid items on a well-formed hierarchy, non-empty
    windows, and distinct previous assignments of known items whose pinned and
    manual ones name executable work. *)
Theorem validate_request_accepts_iff `{Platform} request : validate_request request = Ok tt ↔ valid_request request.
Proof. apply validate_request_iff. Qed.

Section manual_theorem.
Context `{PlatformLaws}.

(** An accepted manual placement binds exactly the remaining work: its
    blocks are whole slots that sum to the planned minutes, their session
    indices increase with time, those beyond the execution history are
    consecutive from the next free one, the split policy holds, and the item
    has no live reservation. *)
Theorem manual_placement_exact request execution item assignment :
  validate_manual_assignment_demand request execution item assignment = Ok tt →
  let chronological := sort_by previous_block_leb (pa_blocks assignment) in
  (∃ e, wi_duration item = Some e ∧ total_block_minutes chronological = planning_minutes e) ∧
  Forall (slot_block request) chronological ∧
  StronglySorted (λ a b, pb_session_index a < pb_session_index b)%N chronological ∧
  (∀ i b, filter (λ b, is_fresh (unit_high_water execution (wi_id item)) b = true) chronological !! i = Some b →
     pb_session_index b = (first_fresh_index (unit_high_water execution (wi_id item)) + N.of_nat i)%N) ∧
  split_policy_respected (wi_split_policy item) chronological ∧
  ∀ work_unit, mec_work_units execution !! wi_id item = Some work_unit → meu_reservations work_unit = [].
Proof.
  unfold validate_manual_assignment_demand. cbv zeta. set (chronological := sort_by _ _).
  intros (e & He%ok_or_ok & Hd)%rbind_ok. rewrite rbind_unit_ok, ensure_ok in Hd. destruct Hd as [Hres Hd].
  apply rbind_ok in Hd as ([chron total] & Hseq & Hd). rewrite rbind_unit_ok, ensure_ok, N.eqb_eq in Hd.
  destruct Hd as [Htotal Hsplit].
  unfold validate_manual_block_sequence in Hseq. fold chronological in Hseq.
  apply rbind_ok in Hseq as (total' & Hsum & Hseq). rewrite rbind_unit_ok, ensure_ok in Hseq. destruct Hseq as [Hinc Hseq].
  apply add_block_minutes_spec in Hsum as [-> Hslots]. apply increasing_sessions_sorted in Hinc as Hsorted.
  set (high := unit_high_water execution (wi_id item)) in *. rewrite fresh_suffix_filter in Hseq by done.
  assert (chron = chronological ∧ total = total_block_minutes chronological ∧
    ∀ i b, filter (λ b, is_fresh high b = true) chronological !! i = Some b →
     pb_session_index b = (first_fresh_index high + N.of_nat i)%N) as (-> & -> & Hfresh).
  { destruct (filter _ _) as [|f fresh] eqn:Ef; [by simplify_eq|].
    apply rbind_ok in Hseq as (expected & Hnext%ok_or_ok & Hseq). rewrite rbind_unit_ok, ensure_ok in Hseq.
    destruct Hseq as [Hcons [= <- <-]]. split_and!; [done|done|]. intros i b Hi.
    replace (first_fresh_index high) with expected.
    - eapply consecutive_from_spec; [done| |done]. rewrite <- Ef. apply StronglySorted_filter, Hsorted.
    - destruct high as [h|]; simpl in *; [|by simplify_eq]. by apply checked_add_Some in Hnext as [-> _]. }
  split_and!; [eauto|done|done|done| |].
  - by eapply validate_manual_split_policy_Ok.
  - intros u Hu. rewrite Hu in Hres. by apply bool_decide_eq_true in Hres.
Qed.
End manual_theorem.

(** ** Witnesses *)

(** A splittable task pinned by hand to two sessions of 30 minutes. *)
Definition split_item : WorkItem :=
  {| wi_id := 7; wi_is_sensitive := false; wi_revision := 1; wi_title := "split"; wi_kind := Task;
     wi_status := WorkStatus.NotStarted; wi_parent_id := None; wi_sibling_order := None;
     wi_has_own_effort := true; wi_has_children_outside_plan := false; wi_goal_ids := ∅;
     wi_priority := {| importance := 5; urgency := 5 |}; wi_duration := Some (exact_estimate 60);
     wi_constraints := no_constraints; wi_split_policy := Splittable 15 30 3 10 (Some 1%N); wi_energy := None;
     wi_tags := ∅; wi_created_at := at_minute 0; wi_updated_at := at_minute 0 |}.

Definition manual_blocks : PreviousAssignment :=
  {| pa_item_id := 7; pa_occurrence_id := None;
     pa_blocks := [{| pb_start := at_minute 540; pb_end := at_minute 570; pb_session_index := 1 |};
                   {| pb_start := at_minute 480; pb_end := at_minute 510; pb_session_index := 0 |}];
     pa_pinned := true; pa_manual_placement_id := Some 99%N |}.

Lemma manual_blocks_accepted :
  @validate_manual_assignment_demand utc_platform (sample_request [split_item]) {| mec_work_units := ∅ |}
    split_item manual_blocks = Ok tt.
Proof. vm_compute. reflexivity. Qed.

Lemma manual_placement_exact_witness :
  ∃ e, wi_duration split_item = Some e ∧
    total_block_minutes (sort_by previous_block_leb (pa_blocks manual_blocks)) = planning_minutes e.
Proof.
  exact (proj1 (@manual_placement_exact utc_platform utc_platform_laws (sample_request [split_item])
    {| mec_work_units := ∅ |} split_item manual_blocks manual_blocks_accepted)).
Defined.
