(* ===== verification/Candidate.v ===== *)
(** * Candidate: what one placement costs and what forbids it

    The [PlanningState] of crates/dayweave-core/src/scheduler.rs and the
    functions that judge one candidate interval for an item:
    [evaluate_candidate] and everything it calls.  The penalty, the violations
    and the explanations the code accumulates through mutable references are a
    record [Evidence]; a function that may reject the candidate returns [None].

    The main theorem lists the hard constraints an accepted candidate meets;
    the others show that soft constraints never reject and what they cost. *)
From S2P Require Import Prelude Platform Domain Samples Text Forest Rollup Lifecycle Plan Intervals Order Execution Validation.

(** ** State *)

Record PlanningState : Type := {
  blocks : list ScheduleBlock;
  busy : list BusyBlock;
  unscheduled : list UnscheduledWork;
  decisions : list PlanDecision;
  violations : list PlanViolation;
  plan_score : PlanScore;
  previous : gmap (ItemId * N) PreviousBlock;
  pinned_minutes : gmap ItemId N;
  execution_reserved_minutes : gmap ItemId N;
  session_high_water : gmap ItemId N;
  live_session_indices : gmap ItemId (gset N)
}.

Record Candidate : Type := {
  cand_interval : Interval;
  cand_penalty : N;
  cand_moved_minutes : N;
  cand_explanations : list PlacementExplanation;
  cand_violations : list PlanViolation
}.

Record Evidence : Type := {
  ev_penalty : N;
  ev_violations : list PlanViolation;
  ev_explanations : list PlacementExplanation
}.

Definition no_evidence : Evidence := {| ev_penalty := 0; ev_violations := []; ev_explanations := [] |}.

Definition block_interval (block : ScheduleBlock) : Interval :=
  {| iv_start := sb_start block; iv_end := sb_end block |}.

Definition availability_interval (availability : AvailabilityWindow) : Interval :=
  {| iv_start := av_start availability; iv_end := av_end availability |}.

Definition window_interval (window : AbsoluteWindow) : Interval :=
  {| iv_start := aw_start window; iv_end := aw_end window |}.

(** [self.blocks.iter().filter(|block| block.item_id == Some(id))] *)
Definition item_blocks (all_blocks : list ScheduleBlock) (id : ItemId) : list ScheduleBlock :=
  filter (λ block, sb_item_id block = Some id) all_blocks.

(** ** Explanations *)

Definition explanation (code : ExplanationCode) (message : string) : PlacementExplanation :=
  {| pe_code := code; pe_message := message |}.

Definition explain (code : ExplanationCode) (message : string) (ev : Evidence) : Evidence :=
  {| ev_penalty := ev_penalty ev; ev_violations := ev_violations ev;
     ev_explanations := ev_explanations ev ++ [explanation code message] |}.

Definition explain_if (b : bool) (code : ExplanationCode) (message : string) (ev : Evidence) : Evidence :=
  if b then explain code message ev else ev.

(** The derived order of [ExplanationCode]: declaration order. *)
Definition explanation_rank (code : ExplanationCode) : N :=
  match code with
  | ExplanationCode.FixedEvent => 0 | ExplanationCode.Pinned => 1 | ExplanationCode.HardDeadline => 2
  | ExplanationCode.GoalProgress => 3 | ExplanationCode.HabitOrRoutine => 4 | ExplanationCode.Priority => 5
  | ExplanationCode.PreferredWindow => 6 | ExplanationCode.ContextMatch => 7 | ExplanationCode.EnergyMatch => 8
  | ExplanationCode.Dependency => 9 | ExplanationCode.StableTime => 10
  | ExplanationCode.EarliestAvailable => 11 | ExplanationCode.SplitSession => 12
  end%N.

Definition same_explanation (a b : PlacementExplanation) : bool :=
  bool_decide (pe_code a = pe_code b) && bool_decide (pe_message a = pe_message b).

(** [sort_by_key(|value| value.code)] followed by [dedup_by]. *)
Definition normalize_explanations (l : list PlacementExplanation) : list PlacementExplanation :=
  dedup_by same_explanation
    (sort_by (λ a b, explanation_rank (pe_code a) <=? explanation_rank (pe_code b))%N l).

(** ** Soft penalties *)

Definition soft_weight (request : PlanRequest) (strength : ConstraintStrength) : N :=
  let configured := weight strength in
  if (configured =? 0)%N then default_soft_weight (config request) else configured.

Definition soft_violation (item_id : ItemId) (interval : Interval) (kind : ViolationKind) (value : N)
    (message : string) : PlanViolation :=
  {| pv_kind := kind; pv_severity := Warning; pv_item_ids := [item_id]; pv_occurrence_ids := [];
     pv_start := Some (iv_start interval); pv_end := Some (iv_end interval); pv_penalty := value;
     pv_message := message |}.

Definition penalty_value (request : PlanRequest) (strength : ConstraintStrength) (magnitude : N) : N :=
  saturating_mul u64_max (soft_weight request strength) (N.max magnitude 1).

Definition add_penalty_violation (request : PlanRequest) (item_id : ItemId) (interval : Interval)
    (strength : ConstraintStrength) (kind : ViolationKind) (magnitude : N) (message : string)
    (ev : Evidence) : Evidence :=
  let value := penalty_value request strength magnitude in
  {| ev_penalty := saturating_add u64_max (ev_penalty ev) value;
     ev_violations := ev_violations ev ++ [soft_violation item_id interval kind value message];
     ev_explanations := ev_explanations ev |}.

(** The closure [test] of [evaluate_candidate]; the code's closure repeats the
    body of [add_penalty_violation]. *)
Definition test (request : PlanRequest) (item_id : ItemId) (interval : Interval) (satisfied : bool)
    (strength : ConstraintStrength) (kind : ViolationKind) (magnitude : N) (message : string)
    (ev : Evidence) : option Evidence :=
  if satisfied then Some ev
  else if is_hard strength then None
  else Some (add_penalty_violation request item_id interval strength kind magnitude message ev).

(** ** Preferred windows: an OR within each group *)

Section windows.
Context `{Platform}.

Definition daily_matches (interval : Interval) (window : Qualified DailyTimeWindow) : bool :=
  daily_window_contains (q_value window) (iv_start interval) (iv_end interval).

Definition absolute_matches (interval : Interval) (window : Qualified AbsoluteWindow) : bool :=
  contains (window_interval (q_value window)) interval.

Definition hard_windows {A} (windows : list (Qualified A)) : list (Qualified A) :=
  filter (λ window, is_hard (q_strength window) = true) windows.

Definition soft_windows {A} (windows : list (Qualified A)) : list (Qualified A) :=
  filter (λ window, is_hard (q_strength window) = false) windows.

(** [is_empty() || any(…)] of a group of hard windows. *)
Definition hard_group_ok {A} (matches : Qualified A → bool) (windows : list (Qualified A)) : bool :=
  match hard_windows windows with
  | [] => true
  | hard => existsb matches hard
  end.

(** [min_by_key(|window| window.strength.weight())] of the soft windows. *)
Definition weakest_strength {A} (soft : list (Qualified A)) : ConstraintStrength :=
  match min_by (λ a b, weight (q_strength a) ?= weight (q_strength b))%N soft with
  | Some window => q_strength window
  | None => DEFAULT_SOFT
  end.

Definition penalize_group {A} (request : PlanRequest) (item_id : ItemId) (interval : Interval)
    (windows : list (Qualified A)) (matched : bool) (message : string) (ev : Evidence) : Evidence :=
  let soft := soft_windows windows in
  if negb (bool_decide (length soft = 0)) && negb matched then
    add_penalty_violation request item_id interval (weakest_strength soft) ViolationKind.SoftConstraint
      (minutes interval) message ev
  else ev.

Definition evaluate_preferred_windows (request : PlanRequest) (item_id : ItemId)
    (constraints : SchedulingConstraints) (interval : Interval) (ev : Evidence) : option Evidence :=
  let daily := preferred_daily_windows constraints in
  let absolute := preferred_absolute_windows constraints in
  if negb (hard_group_ok (daily_matches interval) daily) then None
  else if negb (hard_group_ok (absolute_matches interval) absolute) then None
  else
    let daily_match := existsb (daily_matches interval) daily in
    let absolute_match := existsb (absolute_matches interval) absolute in
    let ev := explain_if (daily_match || absolute_match) ExplanationCode.PreferredWindow
                "Matches a preferred work window." ev in
    let ev := penalize_group request item_id interval daily daily_match
                "Placed outside preferred daily windows." ev in
    Some (penalize_group request item_id interval absolute absolute_match
            "Placed outside preferred absolute windows." ev).

(** ** Dependencies *)

Definition dependency_boundary (dependency : Dependency) (candidate : Interval)
    (predecessor_start predecessor_end : OffsetDateTime) : option (OffsetDateTime * OffsetDateTime) :=
  let '(observed, predecessor) :=
    match dep_relation dependency with
    | FinishToStart => (iv_start candidate, predecessor_end)
    | StartToStart => (iv_start candidate, predecessor_start)
    | FinishToFinish => (iv_end candidate, predecessor_end)
    | StartToFinish => (iv_end candidate, predecessor_start)
    end in
  required ← odt_checked_add predecessor (duration_minutes (dep_minimum_lag dependency));
  Some (observed, required).

(** The fold over the predecessor's blocks, then the interval of a calendar event. *)
Definition dependency_predecessor_bounds (predecessor : option WorkItem) (predecessor_blocks : list ScheduleBlock)
    : option (OffsetDateTime * OffsetDateTime) :=
  let bounds := foldl (λ bounds block,
    Some match bounds with
         | None => (sb_start block, sb_end block)
         | Some (start, end_) => (odt_min start (sb_start block), odt_max end_ (sb_end block))
         end) None predecessor_blocks in
  match bounds with
  | Some bounds => Some bounds
  | None =>
      item ← predecessor;
      match wi_kind item with
      | CalendarEvent event => Some (ce_start event, ce_end event)
      | _ => None
      end
  end.

Definition first_start (item_blocks : list ScheduleBlock) : option OffsetDateTime :=
  min_by odt_cmp (sb_start <$> item_blocks).

Definition last_finish (item_blocks : list ScheduleBlock) : option OffsetDateTime :=
  max_by odt_cmp (sb_end <$> item_blocks).

(** The hull of the candidate and the blocks its item already has. *)
Definition successor_hull (existing : list ScheduleBlock) (interval : Interval) : Interval :=
  {| iv_start := match first_start existing with
                 | Some start => odt_min start (iv_start interval)
                 | None => iv_start interval
                 end;
     iv_end := match last_finish existing with
               | Some end_ => odt_max end_ (iv_end interval)
               | None => iv_end interval
               end |}.

(** Work of the predecessor that the plan has already given up on. *)
Definition has_remaining_work (unscheduled : list UnscheduledWork) (id : ItemId) : bool :=
  existsb (λ work, (uw_item_id work =? id)%N && negb (is_zero (uw_remaining work))) unscheduled.

Definition available_bounds (state : PlanningState) (all_items : gmap ItemId WorkItem)
    (dependency : Dependency) : option (OffsetDateTime * OffsetDateTime) :=
  if has_remaining_work (unscheduled state) (dep_item_id dependency) &&
     negb (dependency_uses_predecessor_start (dep_relation dependency))
  then None
  else dependency_predecessor_bounds (all_items !! dep_item_id dependency)
         (item_blocks (blocks state) (dep_item_id dependency)).

Definition boundary_satisfied (boundary : option (OffsetDateTime * OffsetDateTime)) : bool :=
  match boundary with Some (observed, required) => odt_leb required observed | None => false end.

Definition boundary_shortfall (boundary : option (OffsetDateTime * OffsetDateTime)) : N :=
  match boundary with
  | Some (observed, required) => positive_minutes (duration_between required observed)
  | None => u32_max
  end.

(** Whether this candidate is the one that decides the dependency. *)
Definition dependency_deferred (finishes_item candidate_establishes_start : bool) (dependency : Dependency) : bool :=
  if dependency_uses_successor_finish (dep_relation dependency) then negb finishes_item
  else negb candidate_establishes_start.

Definition predecessor_completed (all_items : gmap ItemId WorkItem) (dependency : Dependency) : bool :=
  match all_items !! dep_item_id dependency with
  | Some item => satisfies_prerequisite (wi_status item)
  | None => false
  end.

(** One iteration of the loop of [evaluate_dependencies]. *)
Definition evaluate_dependency (state : PlanningState) (request : PlanRequest) (item : WorkItem)
    (all_items : gmap ItemId WorkItem) (interval successor_interval : Interval)
    (finishes_item candidate_establishes_start : bool) (ev : Evidence) (dependency : Dependency)
    : option Evidence :=
  if dependency_deferred finishes_item candidate_establishes_start dependency ||
     predecessor_completed all_items dependency
  then Some ev
  else
    match available_bounds state all_items dependency with
    | None =>
        if is_hard (dep_strength dependency) then None
        else Some (add_penalty_violation request (wi_id item) interval (dep_strength dependency)
                     ViolationKind.Dependency 1 "A preferred predecessor is not in this plan." ev)
    | Some (predecessor_start, predecessor_end) =>
        let boundary := dependency_boundary dependency successor_interval predecessor_start predecessor_end in
        if boundary_satisfied boundary then
          Some (explain_if (is_hard (dep_strength dependency)) ExplanationCode.Dependency
                  "Follows its predecessor dependency." ev)
        else if is_hard (dep_strength dependency) then None
        else Some (add_penalty_violation request (wi_id item) interval (dep_strength dependency)
                     ViolationKind.Dependency (boundary_shortfall boundary)
                     "A soft dependency order was compressed." ev)
    end.

(** A [for] loop that may reject. *)
Definition foldO {S A} (f : S → A → option S) (s : S) (l : list A) : option S :=
  foldl (λ acc a, acc ≫= λ s, f s a) (Some s) l.

Definition evaluate_dependencies (state : PlanningState) (request : PlanRequest) (item : WorkItem)
    (deps : list Dependency) (all_items : gmap ItemId WorkItem) (interval : Interval)
    (finishes_item : bool) (ev : Evidence) : option Evidence :=
  let existing := item_blocks (blocks state) (wi_id item) in
  let successor_interval := successor_hull existing interval in
  let candidate_establishes_start :=
    match first_start existing with
    | Some start => odt_ltb (iv_start interval) start
    | None => true
    end in
  foldO (evaluate_dependency state request item all_items interval successor_interval finishes_item
           candidate_establishes_start) ev deps.
End windows.

(** ** Work limits and buffers *)

Section evaluate.
Context `{Platform}.

(** [u32::try_from((block.end - block.start).whole_minutes()).unwrap_or(u32::MAX)] *)
Definition block_whole_minutes (block : ScheduleBlock) : N :=
  try_u32_or_max (whole_minutes (duration_between (sb_end block) (sb_start block))).

(** One of the two limits: the minutes already placed in the same period
    plus the candidate's. *)
Definition evaluate_limit (request : PlanRequest) (item_id : ItemId) (limit : option (Qualified Minutes))
    (same_period : list ScheduleBlock) (interval : Interval) (message : string) (ev : Evidence) : option Evidence :=
  match limit with
  | None => Some ev
  | Some limit =>
      let already := u32_wrapping_sum (block_whole_minutes <$> same_period) in
      let total := saturating_add u32_max already (minutes interval) in
      if (q_value limit <? total)%N then
        if is_hard (q_strength limit) then None
        else Some (add_penalty_violation request item_id interval (q_strength limit)
                     ViolationKind.SoftConstraint (total - q_value limit) message ev)
      else Some ev
  end.

Definition same_day_blocks (existing : list ScheduleBlock) (interval : Interval) : list ScheduleBlock :=
  filter (λ block, odt_date (sb_start block) = odt_date (iv_start interval)) existing.

Definition same_week_blocks (existing : list ScheduleBlock) (interval : Interval) : list ScheduleBlock :=
  filter (λ block, monday_of (sb_start block) = monday_of (iv_start interval)) existing.

Definition evaluate_limits (state : PlanningState) (request : PlanRequest) (item : WorkItem)
    (constraints : SchedulingConstraints) (interval : Interval) (ev : Evidence) : option Evidence :=
  let existing := item_blocks (blocks state) (wi_id item) in
  ev ← evaluate_limit request (wi_id item) (maximum_daily_work constraints)
         (same_day_blocks existing interval) interval "Daily work limit was exceeded." ev;
  evaluate_limit request (wi_id item) (maximum_weekly_work constraints)
    (same_week_blocks existing interval) interval "Weekly work limit was exceeded." ev.

(** The minutes of the buffered interval that are busy or unavailable. *)
Definition compressed_minutes (state : PlanningState) (available expanded : Interval) : N :=
  let overlap := u32_wrapping_sum ((λ b, overlap_minutes expanded (bb_interval b)) <$> busy state) in
  let outside :=
    if contains available expanded then 0%N
    else saturating_sub (minutes expanded) (overlap_minutes expanded available) in
  saturating_add u32_max overlap outside.

Definition evaluate_buffers (state : PlanningState) (request : PlanRequest) (item : WorkItem)
    (constraints : SchedulingConstraints) (availability : AvailabilityWindow) (interval : Interval)
    (ev : Evidence) : option Evidence :=
  match bp_strength (buffers constraints) with
  | None => Some ev
  | Some strength =>
      match checked_buffered_interval interval (bp_before (buffers constraints)) (bp_after (buffers constraints)) with
      | None =>
          if is_hard strength then None
          else Some (add_penalty_violation request (wi_id item) interval strength ViolationKind.BufferCompressed
                       u32_max "Preparation or decompression buffer exceeded the supported timestamp range." ev)
      | Some expanded =>
          let compressed := compressed_minutes state (availability_interval availability) expanded in
          if (compressed =? 0)%N then Some ev
          else if is_hard strength then None
          else Some (add_penalty_violation request (wi_id item) interval strength ViolationKind.BufferCompressed
                       compressed "Preparation or decompression buffer was compressed." ev)
      end
  end.

(** ** The scalar constraints of [evaluate_candidate] *)

(** An optional constraint is skipped when absent. *)
Definition when {A} (o : option A) (f : A → Evidence → option Evidence) (ev : Evidence) : option Evidence :=
  match o with Some a => f a ev | None => Some ev end.

Definition evaluate_times (request : PlanRequest) (item : WorkItem) (interval : Interval) (ev : Evidence)
    : option Evidence :=
  let constraints := wi_constraints item in
  let test := test request (wi_id item) interval in
  ev ← when (earliest_start constraints) (λ boundary,
         test (odt_leb (q_value boundary) (iv_start interval)) (q_strength boundary) ViolationKind.SoftConstraint
           (positive_minutes (duration_between (q_value boundary) (iv_start interval)))
           "Scheduled before the preferred earliest start.") ev;
  ev ← when (latest_finish constraints) (λ boundary ev,
         ev ← test (odt_leb (iv_end interval) (q_value boundary)) (q_strength boundary) ViolationKind.DeadlineRisk
                (positive_minutes (duration_between (iv_end interval) (q_value boundary)))
                "Scheduled after the preferred deadline." ev;
         Some (explain_if (is_hard (q_strength boundary)) ExplanationCode.HardDeadline
                 "Placed within its hard deadline." ev)) ev;
  ev ← when (minimum_notice constraints) (λ notice ev,
         required_start ← odt_checked_add (as_of request) (duration_minutes (q_value notice));
         test (odt_leb required_start (iv_start interval)) (q_strength notice) ViolationKind.SoftConstraint
           (positive_minutes (duration_between required_start (iv_start interval)))
           "Minimum notice was compressed." ev) ev;
  ev ← when (allowed_weekdays constraints) (λ allowed,
         test (bool_decide (from_time (odt_weekday (iv_start interval)) ∈ q_value allowed)) (q_strength allowed)
           ViolationKind.SoftConstraint 1%N "Placed on a non-preferred weekday.") ev;
  foldO (λ ev forbidden,
    let overlap := overlap_minutes interval (window_interval (q_value forbidden)) in
    test (overlap =? 0)%N (q_strength forbidden) ViolationKind.SoftConstraint overlap
      "Placed partly inside a forbidden window." ev) ev (forbidden_windows constraints).

(** Contexts, location and energy of the availability window. *)
Definition evaluate_resources (request : PlanRequest) (item : WorkItem) (availability : AvailabilityWindow)
    (interval : Interval) (ev : Evidence) : option Evidence :=
  let constraints := wi_constraints item in
  let test := test request (wi_id item) interval in
  ev ← foldO (λ ev required,
         let matched := bool_decide (q_value required ∈ av_contexts availability) in
         ev ← test matched (q_strength required) ViolationKind.SoftConstraint (minutes interval)
                ("Required context '" ++ q_value required ++ "' is unavailable.")%string ev;
         Some (explain_if matched ExplanationCode.ContextMatch
                 ("Matches the '" ++ q_value required ++ "' context.")%string ev)) ev (required_contexts constraints);
  ev ← when (required_location constraints) (λ required,
         test (bool_decide (av_location availability = Some (q_value required))) (q_strength required)
           ViolationKind.SoftConstraint (minutes interval)
           ("Required location '" ++ q_value required ++ "' is unavailable.")%string) ev;
  when (wi_energy item) (λ required ev,
    let matched := energy_satisfies (av_energy availability) (q_value required) in
    ev ← test matched (q_strength required) ViolationKind.SoftConstraint (minutes interval)
           "Available energy is below this work's requirement." ev;
    Some (explain_if matched ExplanationCode.EnergyMatch "Matches the available energy level." ev)) ev.

(** The explanations that do not depend on a constraint. *)
Definition explain_item (item : WorkItem) (has_previous : bool) (ev : Evidence) : Evidence :=
  let ev := explain_if (negb (bool_decide (wi_goal_ids item = ∅))) ExplanationCode.GoalProgress
              "Advances linked goal work." ev in
  let ev := explain_if match wi_kind item with
                       | Habit _ | Routine _ | RecurringTask _ => true
                       | _ => false
                       end ExplanationCode.HabitOrRoutine "Maintains a habit or routine cadence." ev in
  let ev := explain_if (0 <? score (wi_priority item))%N ExplanationCode.Priority
              ("Priority score is " ++ display_N (score (wi_priority item)) ++ ".")%string ev in
  explain_if (negb has_previous) ExplanationCode.EarliestAvailable
    "Uses the earliest best-scoring valid capacity." ev.

Definition evaluate_candidate (state : PlanningState) (request : PlanRequest) (item : WorkItem)
    (deps : list Dependency) (all_items : gmap ItemId WorkItem) (availability : AvailabilityWindow)
    (interval : Interval) (finishes_item : bool) (session_index : N) : option Candidate :=
  let constraints := wi_constraints item in
  if negb match occurrence_window constraints with
          | Some window => contains (window_interval window) interval
          | None => true
          end
  then None
  else
    ev ← evaluate_times request item interval no_evidence;
    ev ← evaluate_resources request item availability interval ev;
    ev ← evaluate_preferred_windows request (wi_id item) constraints interval ev;
    ev ← evaluate_dependencies state request item deps all_items interval finishes_item ev;
    ev ← evaluate_limits state request item constraints interval ev;
    ev ← evaluate_buffers state request item constraints availability interval ev;
    let old := previous state !! (wi_id item, session_index) in
    let moved := match old with
                 | Some old => positive_minutes (Z.abs (duration_between (iv_start interval) (pb_start old)))
                 | None => 0%N
                 end in
    let penalty := match old with
                   | Some _ => saturating_add u64_max (ev_penalty ev)
                                 (saturating_mul u64_max moved (stability_weight (config request)))
                   | None => ev_penalty ev
                   end in
    let ev := explain_if match old with
                         | Some old => odt_eqb (pb_start old) (iv_start interval)
                         | None => false
                         end ExplanationCode.StableTime "Preserves the previous schedule time." ev in
    let ev := explain_item item (bool_decide (is_Some old)) ev in
    Some {| cand_interval := interval; cand_penalty := penalty; cand_moved_minutes := moved;
            cand_explanations := normalize_explanations (ev_explanations ev);
            cand_violations := ev_violations ev |}.
End evaluate.

(** ** Specification: the hard constraints *)

(** What a constraint of the given strength demands: nothing when soft. *)
Definition demands (strength : ConstraintStrength) (P : Prop) : Prop := is_hard strength = true → P.

Definition meets_times `{Platform} (request : PlanRequest) (item : WorkItem) (i : Interval) : Prop :=
  let c := wi_constraints item in
  (∀ q, earliest_start c = Some q → demands (q_strength q) (q_value q <= iv_start i)%Z) ∧
  (∀ q, latest_finish c = Some q → demands (q_strength q) (iv_end i <= q_value q)%Z) ∧
  (∀ q, minimum_notice c = Some q → ∃ t, odt_checked_add (as_of request) (duration_minutes (q_value q)) = Some t ∧
     demands (q_strength q) (t <= iv_start i)%Z) ∧
  (∀ q, allowed_weekdays c = Some q → demands (q_strength q) (from_time (odt_weekday (iv_start i)) ∈ q_value q)) ∧
  (∀ q, q ∈ forbidden_windows c → demands (q_strength q) (overlap_minutes i (window_interval (q_value q)) = 0%N)).

Definition meets_resources (item : WorkItem) (availability : AvailabilityWindow) : Prop :=
  let c := wi_constraints item in
  (∀ q, q ∈ required_contexts c → demands (q_strength q) (q_value q ∈ av_contexts availability)) ∧
  (∀ q, required_location c = Some q → demands (q_strength q) (av_location availability = Some (q_value q))) ∧
  (∀ q, wi_energy item = Some q → demands (q_strength q) (rank (q_value q) <= rank (av_energy availability))%N).

(** When a group has hard windows, one of them must match. *)
Definition meets_group {A} (matches : Qualified A → bool) (windows : list (Qualified A)) : Prop :=
  (∃ w, w ∈ windows ∧ is_hard (q_strength w) = true) →
  ∃ w, w ∈ windows ∧ is_hard (q_strength w) = true ∧ matches w = true.

Definition meets_windows `{Platform} (c : SchedulingConstraints) (i : Interval) : Prop :=
  (∀ w, occurrence_window c = Some w → (aw_start w <= iv_start i)%Z ∧ (iv_end i <= aw_end w)%Z) ∧
  meets_group (daily_matches i) (preferred_daily_windows c) ∧
  meets_group (absolute_matches i) (preferred_absolute_windows c).

(** A dependency this candidate decides: its predecessor has bounds in the
    plan, and the relation holds with its lag. *)
Definition meets_dependency `{Platform} (state : PlanningState) (item : WorkItem) (all_items : gmap ItemId WorkItem)
    (i : Interval) (finishes_item : bool) (d : Dependency) : Prop :=
  let existing := item_blocks (blocks state) (wi_id item) in
  let establishes := match first_start existing with Some t => odt_ltb (iv_start i) t | None => true end in
  dependency_deferred finishes_item establishes d = false → predecessor_completed all_items d = false →
  demands (dep_strength d) (∃ s e, available_bounds state all_items d = Some (s, e) ∧
    boundary_satisfied (dependency_boundary d (successor_hull existing i) s e) = true).

Definition meets_limits `{Platform} (state : PlanningState) (item : WorkItem) (i : Interval) : Prop :=
  let c := wi_constraints item in
  let existing := item_blocks (blocks state) (wi_id item) in
  let total same := saturating_add u32_max (u32_wrapping_sum (block_whole_minutes <$> same)) (minutes i) in
  (∀ q, maximum_daily_work c = Some q → demands (q_strength q) (total (same_day_blocks existing i) <= q_value q)%N) ∧
  (∀ q, maximum_weekly_work c = Some q → demands (q_strength q) (total (same_week_blocks existing i) <= q_value q)%N).

Definition meets_buffers `{Platform} (state : PlanningState) (item : WorkItem) (availability : AvailabilityWindow)
    (i : Interval) : Prop :=
  let b := buffers (wi_constraints item) in
  ∀ strength, bp_strength b = Some strength → demands strength
    (∃ expanded, checked_buffered_interval i (bp_before b) (bp_after b) = Some expanded ∧
       compressed_minutes state (availability_interval availability) expanded = 0%N).

(** Everything that can reject a candidate. *)
Record meets_hard `{Platform} (state : PlanningState) (request : PlanRequest) (item : WorkItem)
    (deps : list Dependency) (all_items : gmap ItemId WorkItem) (availability : AvailabilityWindow)
    (i : Interval) (finishes_item : bool) : Prop := {
  mh_times : meets_times request item i;
  mh_resources : meets_resources item availability;
  mh_windows : meets_windows (wi_constraints item) i;
  mh_dependencies d : d ∈ deps → meets_dependency state item all_items i finishes_item d;
  mh_limits : meets_limits state item i;
  mh_buffers : meets_buffers state item availability i
}.

(** ** Lemmas: acceptance *)

Lemma first_start_spec l t : first_start l = Some t → (∃ b, b ∈ l ∧ sb_start b = t) ∧ ∀ b, b ∈ l → (t <= sb_start b)%Z.
Proof.
  intros [(b & -> & Hb)%list_elem_of_fmap Hle]%odt_min_by_spec. split; [by exists b|].
  intros b' Hb'. by apply Hle, list_elem_of_fmap_2.
Qed.

Lemma last_finish_spec l t : last_finish l = Some t → (∃ b, b ∈ l ∧ sb_end b = t) ∧ ∀ b, b ∈ l → (sb_end b <= t)%Z.
Proof.
  intros [(b & -> & Hb)%list_elem_of_fmap Hle]%odt_max_by_spec. split; [by exists b|].
  intros b' Hb'. by apply Hle, list_elem_of_fmap_2.
Qed.

Lemma bind_is_Some_iff {A B} (m : option A) (k : A → option B) (P Q : Prop) :
  is_Some m ↔ P → (∀ x, is_Some (k x) ↔ Q) → is_Some (m ≫= k) ↔ P ∧ Q.
Proof.
  intros HP HQ. destruct m as [a|]; simpl.
  - rewrite HQ. assert P by (apply HP; by eexists). tauto.
  - split; [by intros []|]. intros [HP' _]. apply HP in HP' as []. done.
Qed.

Lemma Some_is_Some_iff {A} (a : A) : is_Some (Some a) ↔ True.
Proof. split; [done|by eexists]. Qed.

Lemma when_is_Some {A} (o : option A) f ev (P : A → Prop) :
  (∀ a, is_Some (f a ev) ↔ P a) → is_Some (when o f ev) ↔ ∀ a, o = Some a → P a.
Proof. intros Hf. destruct o; simpl; [rewrite Hf|rewrite Some_is_Some_iff]; naive_solver. Qed.

Lemma foldO_cons {S A} (f : S → A → option S) s a l : foldO f s (a :: l) = f s a ≫= λ s, foldO f s l.
Proof.
  unfold foldO. simpl. destruct (f s a) as [s'|]; simpl; [done|]. induction l as [|b l IH]; simpl; [done|]. exact IH.
Qed.

Lemma foldO_is_Some {S A} (f : S → A → option S) s l (P : A → Prop) :
  (∀ s a, a ∈ l → is_Some (f s a) ↔ P a) → is_Some (foldO f s l) ↔ ∀ a, a ∈ l → P a.
Proof.
  revert s. induction l as [|a l IH]; intros s Hf.
  - split; [by intros _ ? ?%elem_of_nil|by eexists].
  - rewrite foldO_cons, (bind_is_Some_iff _ _ (P a) (∀ b, b ∈ l → P b)).
    + split; [intros [Ha Hl] b [->|Hb]%elem_of_cons; auto|]. intros Hall. split; [apply Hall; left|].
      intros b Hb. apply Hall. by right.
    + apply Hf. left.
    + intros s'. apply IH. intros s'' b Hb. apply Hf. by right.
Qed.

Lemma test_is_Some request id i b strength kind magnitude message ev (P : Prop) :
  (b = true ↔ P) → is_Some (test request id i b strength kind magnitude message ev) ↔ demands strength P.
Proof.
  intros HP. unfold test, demands. destruct b.
  - rewrite Some_is_Some_iff. assert P by (by apply HP). tauto.
  - assert (¬ P) as Hno by (rewrite <- HP; done). destruct (is_hard strength).
    + split; [by intros []|]. intros HP'. by destruct (Hno (HP' eq_refl)).
    + rewrite Some_is_Some_iff. split; [by intros _ ?|done].
Qed.

Lemma meets_group_iff {A} (matches : Qualified A → bool) windows :
  hard_group_ok matches windows = true ↔ meets_group matches windows.
Proof.
  unfold hard_group_ok, meets_group, hard_windows.
  destruct (filter _ windows) as [|w l] eqn:E.
  - split; [|done]. intros _ (w & Hw & Hh). exfalso. apply (filter_nil_not_elem_of _ _ w E Hh Hw).
  - assert (∀ v, v ∈ w :: l ↔ is_hard (q_strength v) = true ∧ v ∈ windows) as Hel.
    { intros v. by rewrite <- E, list_elem_of_filter. }
    rewrite existsb_exists. split.
    + intros (v & Hv & Hm) _. apply list_elem_of_In, Hel in Hv as [? ?]. eauto.
    + intros Hg. destruct Hg as (v & Hv & Hh & Hm).
      * exists w. destruct (proj1 (Hel w)); [left|done].
      * exists v. split; [|done]. apply list_elem_of_In, Hel. done.
Qed.

Section acceptance.
Context `{Platform}.

Lemma evaluate_times_is_Some request item i ev :
  is_Some (evaluate_times request item i ev) ↔ meets_times request item i.
Proof.
  unfold evaluate_times, meets_times. cbv zeta.
  repeat (apply bind_is_Some_iff; [|intros ?]).
  - apply when_is_Some. intros q. apply test_is_Some, odt_leb_le.
  - apply when_is_Some. intros q. rewrite (bind_is_Some_iff _ _ (demands (q_strength q) (iv_end i <= q_value q)%Z) True).
    + tauto.
    + apply test_is_Some, odt_leb_le.
    + intros. apply Some_is_Some_iff.
  - apply when_is_Some. intros q. destruct (odt_checked_add (as_of request) _) as [t|]; simpl.
    + rewrite test_is_Some by apply odt_leb_le. naive_solver.
    + split; [by intros []|naive_solver].
  - apply when_is_Some. intros q. apply test_is_Some. apply bool_decide_eq_true.
  - apply foldO_is_Some. intros s q _. apply test_is_Some, N.eqb_eq.
Qed.

Lemma evaluate_resources_is_Some request item availability i ev :
  is_Some (evaluate_resources request item availability i ev) ↔ meets_resources item availability.
Proof.
  unfold evaluate_resources, meets_resources. cbv zeta.
  repeat (apply bind_is_Some_iff; [|intros ?]).
  - apply foldO_is_Some. intros s q _.
    rewrite (bind_is_Some_iff _ _ (demands (q_strength q) (q_value q ∈ av_contexts availability)) True).
    + tauto.
    + apply test_is_Some, bool_decide_eq_true.
    + intros. apply Some_is_Some_iff.
  - apply when_is_Some. intros q. apply test_is_Some, bool_decide_eq_true.
  - apply when_is_Some. intros q.
    rewrite (bind_is_Some_iff _ _ (demands (q_strength q) (rank (q_value q) <= rank (av_energy availability))%N) True).
    + tauto.
    + apply test_is_Some. unfold energy_satisfies. apply N.leb_le.
    + intros. apply Some_is_Some_iff.
Qed.

Lemma evaluate_preferred_windows_is_Some request id c i ev :
  is_Some (evaluate_preferred_windows request id c i ev) ↔
  meets_group (daily_matches i) (preferred_daily_windows c) ∧
  meets_group (absolute_matches i) (preferred_absolute_windows c).
Proof.
  unfold evaluate_preferred_windows. rewrite <- !meets_group_iff.
  destruct (hard_group_ok (daily_matches i) _); simpl; [|split; [by intros []|by intros [? _]]].
  destruct (hard_group_ok (absolute_matches i) _); simpl; [|split; [by intros []|by intros [_ ?]]].
  rewrite Some_is_Some_iff. tauto.
Qed.

Lemma evaluate_dependency_is_Some state request item all_items i hull finishes establishes ev d :
  is_Some (evaluate_dependency state request item all_items i hull finishes establishes ev d) ↔
  (dependency_deferred finishes establishes d = false → predecessor_completed all_items d = false →
   demands (dep_strength d) (∃ s e, available_bounds state all_items d = Some (s, e) ∧
     boundary_satisfied (dependency_boundary d hull s e) = true)).
Proof.
  unfold evaluate_dependency, demands.
  destruct (dependency_deferred finishes establishes d); simpl; [rewrite Some_is_Some_iff; naive_solver|].
  destruct (predecessor_completed all_items d); simpl; [rewrite Some_is_Some_iff; naive_solver|].
  destruct (available_bounds state all_items d) as [[s e]|].
  - destruct (boundary_satisfied (dependency_boundary d hull s e)) eqn:E.
    + rewrite Some_is_Some_iff. split; [|done]. intros _ _ _ _. eauto.
    + destruct (is_hard (dep_strength d)).
      * split; [by intros []|]. intros Hd. destruct (Hd eq_refl eq_refl eq_refl) as (s' & e' & [= <- <-] & ?). congruence.
      * rewrite Some_is_Some_iff. naive_solver.
  - destruct (is_hard (dep_strength d)).
    + split; [by intros []|]. intros Hd. by destruct (Hd eq_refl eq_refl eq_refl) as (s' & e' & [=] & ?).
    + rewrite Some_is_Some_iff. naive_solver.
Qed.

Lemma evaluate_limit_is_Some request id limit same i message ev :
  is_Some (evaluate_limit request id limit same i message ev) ↔
  ∀ q, limit = Some q → demands (q_strength q)
    (saturating_add u32_max (u32_wrapping_sum (block_whole_minutes <$> same)) (minutes i) <= q_value q)%N.
Proof.
  unfold evaluate_limit, demands. destruct limit as [q|]; [|rewrite Some_is_Some_iff; split; [intros; congruence|done]].
  destruct (N.ltb_spec (q_value q) (saturating_add u32_max (u32_wrapping_sum (block_whole_minutes <$> same)) (minutes i))).
  - destruct (is_hard (q_strength q)) eqn:Eh; [|rewrite Some_is_Some_iff; split; [intros; congruence|done]].
    split; [by intros []|]. intros Hq. specialize (Hq q eq_refl Eh). lia.
  - rewrite Some_is_Some_iff. split; [|done]. by intros _ ? [= <-].
Qed.

Lemma evaluate_buffers_is_Some state request item availability i ev :
  is_Some (evaluate_buffers state request item (wi_constraints item) availability i ev) ↔
  meets_buffers state item availability i.
Proof.
  unfold evaluate_buffers, meets_buffers, demands. set (b := buffers (wi_constraints item)).
  destruct (bp_strength b) as [strength|]; [|rewrite Some_is_Some_iff; split; [intros; congruence|done]].
  destruct (checked_buffered_interval i _ _) as [expanded|].
  - destruct (N.eqb_spec (compressed_minutes state (availability_interval availability) expanded) 0).
    + rewrite Some_is_Some_iff. split; [|done]. intros _ ? [= <-] _. eauto.
    + destruct (is_hard strength) eqn:Eh; [|rewrite Some_is_Some_iff; split; [intros; congruence|done]].
      split; [by intros []|]. intros Hs. by destruct (Hs _ eq_refl Eh) as (? & [= <-] & ?).
  - destruct (is_hard strength) eqn:Eh; [|rewrite Some_is_Some_iff; split; [intros; congruence|done]].
    split; [by intros []|]. intros Hs. by destruct (Hs _ eq_refl Eh) as (? & [=] & ?).
Qed.
End acceptance.

Section candidate.
Context `{Platform}.

Lemma evaluate_candidate_is_Some state request item deps all_items availability i finishes index :
  is_Some (evaluate_candidate state request item deps all_items availability i finishes index) ↔
  meets_hard state request item deps all_items availability i finishes.
Proof.
  unfold evaluate_candidate. set (c := wi_constraints item).
  assert (match occurrence_window c with Some w => contains (window_interval w) i | None => true end = true ↔
    ∀ w, occurrence_window c = Some w → (aw_start w <= iv_start i)%Z ∧ (iv_end i <= aw_end w)%Z) as Hocc.
  { destruct (occurrence_window c) as [w|]; [rewrite contains_iff; simpl|]; naive_solver. }
  destruct (match occurrence_window c with Some w => _ | None => true end); simpl.
  - etransitivity.
    { eapply bind_is_Some_iff; [apply evaluate_times_is_Some|intros ev1].
      eapply bind_is_Some_iff; [apply evaluate_resources_is_Some|intros ev2].
      eapply bind_is_Some_iff; [apply evaluate_preferred_windows_is_Some|intros ev3].
      eapply bind_is_Some_iff; [apply foldO_is_Some; intros; apply evaluate_dependency_is_Some|intros ev4].
      eapply bind_is_Some_iff; [eapply bind_is_Some_iff; [apply evaluate_limit_is_Some|intros; apply evaluate_limit_is_Some]|intros ev5].
      eapply bind_is_Some_iff; [apply evaluate_buffers_is_Some|intros ev6]. apply Some_is_Some_iff. }
    pose proof (proj1 Hocc eq_refl) as Hocc'. split.
    + intros (? & ? & [? ?] & ? & ? & ? & _). by constructor.
    + intros [? ? (? & ? & ?) ? ? ?]. done.
  - split; [by intros []|]. intros [? ? (Hw & _) _ _ _]. by apply Hocc in Hw.
Qed.

(** ** Lemmas: cost *)

Definition total_penalty (l : list PlanViolation) : N := foldr (λ v total, pv_penalty v + total)%N 0%N l.

(** The penalty is the saturated sum of the violations, all warnings about
    the item over the candidate interval. *)
Definition cost_ok (id : ItemId) (i : Interval) (ev : Evidence) : Prop :=
  ev_penalty ev = N.min (total_penalty (ev_violations ev)) u64_max ∧
  ∀ v, v ∈ ev_violations ev → pv_severity v = Warning ∧ pv_item_ids v = [id] ∧
    pv_start v = Some (iv_start i) ∧ pv_end v = Some (iv_end i).

Definition keeps_cost (id : ItemId) (i : Interval) (f : Evidence → option Evidence) : Prop :=
  ∀ ev ev', cost_ok id i ev → f ev = Some ev' → cost_ok id i ev'.

Lemma total_penalty_app l k : total_penalty (l ++ k) = (total_penalty l + total_penalty k)%N.
Proof. unfold total_penalty. induction l as [|v l IH]; simpl; lia. Qed.

Context (request : PlanRequest) (id : ItemId) (i : Interval).

Lemma add_penalty_cost strength kind magnitude message ev :
  cost_ok id i ev → cost_ok id i (add_penalty_violation request id i strength kind magnitude message ev).
Proof.
  intros [Hp Hv]. split; simpl.
  - rewrite total_penalty_app, Hp. unfold saturating_add. simpl. lia.
  - intros v [Hin| ->%list_elem_of_singleton]%elem_of_app; [by apply Hv|]. done.
Qed.

Lemma explain_if_cost b code message ev : cost_ok id i ev → cost_ok id i (explain_if b code message ev).
Proof. by destruct b. Qed.

Lemma test_cost b strength kind magnitude message :
  keeps_cost id i (test request id i b strength kind magnitude message).
Proof.
  intros ev ev' Hc. unfold test. destruct b; [by intros [= <-]|]. destruct (is_hard strength); [done|].
  intros [= <-]. by apply add_penalty_cost.
Qed.

Lemma bind_cost (f g : Evidence → option Evidence) :
  keeps_cost id i f → keeps_cost id i g → keeps_cost id i (λ ev, f ev ≫= g).
Proof. intros Hf Hg ev ev' Hc (ev1 & Hf1 & Hg1)%bind_Some. eauto. Qed.

Lemma when_cost {A} (o : option A) f : (∀ a, keeps_cost id i (f a)) → keeps_cost id i (when o f).
Proof. intros Hf ev ev' Hc. destruct o; simpl; [by apply Hf|by intros [= <-]]. Qed.

Lemma foldO_cost {A} (f : Evidence → A → option Evidence) l :
  (∀ a, keeps_cost id i (λ ev, f ev a)) → keeps_cost id i (λ ev, foldO f ev l).
Proof.
  intros Hf. induction l as [|a l IH]; intros ev ev' Hc; [by intros [= <-]|].
  rewrite foldO_cons. intros (ev1 & H1 & H2)%bind_Some. eapply IH; [|done]. by eapply Hf.
Qed.

Lemma some_cost (f : Evidence → Evidence) :
  (∀ ev, cost_ok id i ev → cost_ok id i (f ev)) → keeps_cost id i (λ ev, Some (f ev)).
Proof. intros Hf ev ev' Hc [= <-]. auto. Qed.
End candidate.

Create HintDb cost.
#[export] Hint Resolve bind_cost when_cost foldO_cost some_cost test_cost add_penalty_cost explain_if_cost : cost.

Section cost.
Context `{Platform}.

(** Walks through a chain of evaluators. *)
Ltac cost :=
  repeat match goal with
  | |- keeps_cost _ _ (test _ _ _ _ _ _ _ _) => apply test_cost
  | |- keeps_cost _ _ (when _ _) => apply when_cost; intros ?
  | |- keeps_cost ?id ?i (λ ev, when ?o ?f ev) => change (keeps_cost id i (when o f))
  | |- keeps_cost ?id ?i (λ ev, test ?r ?k ?j ?b ?s ?v ?m ?t ev) => change (keeps_cost id i (test r k j b s v m t))
  | |- keeps_cost _ _ (λ ev, foldO _ ev _) => apply foldO_cost; intros ?
  | |- keeps_cost _ _ (λ ev, _ ≫= _) => apply bind_cost
  | |- keeps_cost _ _ (λ ev, Some _) => apply some_cost; intros ??
  | |- cost_ok _ _ (explain_if _ _ _ _) => apply explain_if_cost
  | |- cost_ok _ _ (add_penalty_violation _ _ _ _ _ _ _ _) => apply add_penalty_cost
  | H : cost_ok ?id ?i ?ev |- cost_ok ?id ?i ?ev => exact H
  end.

Lemma evaluate_times_cost request item i : keeps_cost (wi_id item) i (evaluate_times request item i).
Proof.
  unfold evaluate_times. cbv zeta. cost.
  intros ev ev' Hc (t & _ & Ht)%bind_Some. by eapply test_cost in Ht.
Qed.

Lemma evaluate_resources_cost request item availability i :
  keeps_cost (wi_id item) i (evaluate_resources request item availability i).
Proof. unfold evaluate_resources. cbv zeta. cost. Qed.

Lemma evaluate_preferred_windows_cost request id c i : keeps_cost id i (evaluate_preferred_windows request id c i).
Proof.
  intros ev ev' Hc. unfold evaluate_preferred_windows, penalize_group. repeat (destruct (negb (hard_group_ok _ _)); [done|]).
  intros [= <-]. repeat case_match; cost.
Qed.

Lemma evaluate_dependencies_cost state request item deps all_items i finishes :
  keeps_cost (wi_id item) i (evaluate_dependencies state request item deps all_items i finishes).
Proof.
  unfold evaluate_dependencies. cost. intros ev ev' Hc. unfold evaluate_dependency.
  repeat (case_match; [done || (intros [= <-]; cost)|]); repeat (case_match; try done); intros [= <-]; cost.
Qed.

Lemma evaluate_limits_cost state request item c i :
  keeps_cost (wi_id item) i (evaluate_limits state request item c i).
Proof.
  unfold evaluate_limits. cost; intros ev ev' Hc; unfold evaluate_limit; repeat (case_match; try done); intros [= <-]; cost.
Qed.

Lemma evaluate_buffers_cost state request item c availability i :
  keeps_cost (wi_id item) i (evaluate_buffers state request item c availability i).
Proof. intros ev ev' Hc. unfold evaluate_buffers. repeat (case_match; try done); intros [= <-]; cost. Qed.
End cost.

(** ** Theorems *)

Section theorems.
Context `{Platform}.

(** A candidate is accepted exactly when it meets the hard constraints: no
    soft constraint can reject, and no hard one can be traded for a penalty. *)
Theorem candidate_accepted_iff state request item deps all_items availability i finishes index :
  is_Some (evaluate_candidate state request item deps all_items availability i finishes index) ↔
  meets_hard state request item deps all_items availability i finishes.
Proof. apply evaluate_candidate_is_Some. Qed.

(** The price of moving the session away from its previous time. *)
Definition stability_cost (state : PlanningState) (request : PlanRequest) (id : ItemId) (index : N) (i : Interval) : N :=
  match previous state !! (id, index) with
  | Some old => positive_minutes (Z.abs (duration_between (iv_start i) (pb_start old))) * stability_weight (config request)
  | None => 0
  end%N.

Lemma candidate_facts state request item deps all_items availability i finishes index c :
  evaluate_candidate state request item deps all_items availability i finishes index = Some c →
  cand_interval c = i ∧
  cand_penalty c = N.min (total_penalty (cand_violations c) + stability_cost state request (wi_id item) index i) u64_max ∧
  ∀ v, v ∈ cand_violations c → pv_severity v = Warning ∧ pv_item_ids v = [wi_id item] ∧
    pv_start v = Some (iv_start i) ∧ pv_end v = Some (iv_end i).
Proof.
  unfold evaluate_candidate. destruct (negb _); [done|].
  intros (ev1 & H1 & (ev2 & H2 & (ev3 & H3 & (ev4 & H4 & (ev5 & H5 & (ev6 & H6 & Hc)%bind_Some)%bind_Some)%bind_Some)%bind_Some)%bind_Some)%bind_Some.
  assert (cost_ok (wi_id item) i ev6) as [Hp Hv].
  { eapply evaluate_buffers_cost, H6. eapply evaluate_limits_cost, H5. eapply evaluate_dependencies_cost, H4.
    eapply evaluate_preferred_windows_cost, H3. eapply evaluate_resources_cost, H2. eapply evaluate_times_cost, H1.
    split; [done|]. by intros ? ?%elem_of_nil. }
  simplify_eq/=.
  assert (∀ b code message ev, ev_violations (explain_if b code message ev) = ev_violations ev) as Hex by (by intros []).
  unfold explain_item. rewrite !Hex. split_and!; [done| |done].
  unfold stability_cost. destruct (previous state !! _) as [old|]; rewrite Hp; [|lia].
  unfold saturating_add, saturating_mul. lia.
Qed.

(** The cost of an accepted candidate is the saturated sum of the penalties
    of the soft constraints it breaks plus the price of moving the session;
    each broken constraint is reported as a warning about the item over the
    candidate interval. *)
Theorem candidate_cost state request item deps all_items availability i finishes index c :
  evaluate_candidate state request item deps all_items availability i finishes index = Some c →
  cand_interval c = i ∧
  cand_penalty c = N.min (total_penalty (cand_violations c) + stability_cost state request (wi_id item) index i) u64_max ∧
  ∀ v, v ∈ cand_violations c → pv_severity v = Warning ∧ pv_item_ids v = [wi_id item] ∧
    pv_start v = Some (iv_start i) ∧ pv_end v = Some (iv_end i).
Proof. apply candidate_facts. Qed.
End theorems.

(** ** Witnesses *)

Definition empty_state : PlanningState :=
  {| blocks := []; busy := []; unscheduled := []; decisions := []; violations := []; plan_score := default_score;
     previous := ∅; pinned_minutes := ∅; execution_reserved_minutes := ∅; session_high_water := ∅;
     live_session_indices := ∅ |}.

(** A task with a soft deadline at 08:20. *)
Definition deadline_item : WorkItem :=
  {| wi_id := 5; wi_is_sensitive := false; wi_revision := 1; wi_title := "deadline"; wi_kind := Task;
     wi_status := WorkStatus.NotStarted; wi_parent_id := None; wi_sibling_order := None;
     wi_has_own_effort := true; wi_has_children_outside_plan := false; wi_goal_ids := ∅;
     wi_priority := {| importance := 5; urgency := 5 |}; wi_duration := Some (exact_estimate 30);
     wi_constraints :=
       {| earliest_start := None; latest_finish := Some {| q_value := at_minute 500; q_strength := Soft 7 |};
          minimum_notice := None; allowed_weekdays := None; preferred_daily_windows := [];
          preferred_absolute_windows := []; forbidden_windows := []; required_contexts := [];
          required_location := None; dependencies := []; maximum_daily_work := None;
          maximum_weekly_work := None; buffers := no_buffers; occurrence_window := None |};
     wi_split_policy := Indivisible; wi_energy := None;
     wi_tags := ∅; wi_created_at := at_minute 0; wi_updated_at := at_minute 0 |}.

(** Thirty minutes from 08:00 end ten minutes late, at a cost of 7 each. *)
Lemma candidate_cost_witness :
  ∃ c, @evaluate_candidate utc_platform empty_state (sample_request [deadline_item]) deadline_item [] ∅
         (window 480 720) {| iv_start := at_minute 480; iv_end := at_minute 510 |} true 0 = Some c ∧
    cand_penalty c = N.min (total_penalty (cand_violations c) + 0) u64_max ∧ cand_penalty c = 70%N.
Proof.
  destruct (@evaluate_candidate utc_platform empty_state (sample_request [deadline_item]) deadline_item [] ∅
         (window 480 720) {| iv_start := at_minute 480; iv_end := at_minute 510 |} true 0) as [c|] eqn:E.
  - exists c. split; [reflexivity|]. split.
    + exact (proj1 (proj2 (@candidate_cost utc_platform _ _ _ _ _ _ _ _ _ _ E))).
    + vm_compute in E. injection E as <-. reflexivity.
  - vm_compute in E. discriminate E.
Defined.
