(* ===== verification/Planner.v ===== *)
(** * Planner: the scheduling pass

    [PlanningState]'s operations and [Scheduler::plan_materialized] of
    crates/dayweave-core/src/scheduler.rs: immutable time is entered first,
    then the ordered items are placed one by one in the best free slots, then
    the dependency evidence is rebuilt and the plan is sorted.

    The scanning loops are bounded by fuel computed from their inputs; the
    lemmas on fuel show that more of it changes nothing. *)
From S2P Require Import Prelude Platform Domain Samples Text Forest Rollup Lifecycle Plan Intervals Order Execution Validation Candidate.

(** ** Updates of the state *)

Definition reserve (time : BusyBlock) (block : ScheduleBlock) (st : PlanningState) : PlanningState :=
  {| blocks := blocks st ++ [block]; busy := busy st ++ [time]; unscheduled := unscheduled st;
     decisions := decisions st; violations := violations st; plan_score := plan_score st;
     previous := previous st; pinned_minutes := pinned_minutes st;
     execution_reserved_minutes := execution_reserved_minutes st;
     session_high_water := session_high_water st; live_session_indices := live_session_indices st |}.

Definition push_decision (item_id : ItemId) (kind : DecisionKind) (message : string) (st : PlanningState)
    : PlanningState :=
  {| blocks := blocks st; busy := busy st; unscheduled := unscheduled st;
     decisions := decisions st ++ [{| pd_item_id := item_id; pd_occurrence_id := None; pd_kind := kind;
                                      pd_message := message |}];
     violations := violations st; plan_score := plan_score st; previous := previous st;
     pinned_minutes := pinned_minutes st; execution_reserved_minutes := execution_reserved_minutes st;
     session_high_water := session_high_water st; live_session_indices := live_session_indices st |}.

Definition push_unscheduled (item_id : ItemId) (remaining : Minutes) (reason : UnscheduledReason)
    (message : string) (st : PlanningState) : PlanningState :=
  {| blocks := blocks st; busy := busy st;
     unscheduled := unscheduled st ++ [{| uw_item_id := item_id; uw_occurrence_id := None;
                                          uw_remaining := remaining; uw_reason := reason; uw_message := message |}];
     decisions := decisions st; violations := violations st; plan_score := plan_score st; previous := previous st;
     pinned_minutes := pinned_minutes st; execution_reserved_minutes := execution_reserved_minutes st;
     session_high_water := session_high_water st; live_session_indices := live_session_indices st |}.

(** The violations and the score change together with the placements. *)
Definition with_evidence (vs : list PlanViolation) (s : PlanScore) (st : PlanningState) : PlanningState :=
  {| blocks := blocks st; busy := busy st; unscheduled := unscheduled st; decisions := decisions st;
     violations := vs; plan_score := s; previous := previous st; pinned_minutes := pinned_minutes st;
     execution_reserved_minutes := execution_reserved_minutes st;
     session_high_water := session_high_water st; live_session_indices := live_session_indices st |}.

Definition with_busy (b : list BusyBlock) (st : PlanningState) : PlanningState :=
  {| blocks := blocks st; busy := b; unscheduled := unscheduled st; decisions := decisions st;
     violations := violations st; plan_score := plan_score st; previous := previous st;
     pinned_minutes := pinned_minutes st; execution_reserved_minutes := execution_reserved_minutes st;
     session_high_water := session_high_water st; live_session_indices := live_session_indices st |}.

Definition replace_blocks (l : list ScheduleBlock) (st : PlanningState) : PlanningState :=
  {| blocks := l; busy := busy st; unscheduled := unscheduled st; decisions := decisions st;
     violations := violations st; plan_score := plan_score st; previous := previous st;
     pinned_minutes := pinned_minutes st; execution_reserved_minutes := execution_reserved_minutes st;
     session_high_water := session_high_water st; live_session_indices := live_session_indices st |}.

(** The bookkeeping of retained sessions. *)
Definition with_ledger (pinned reserved high : gmap ItemId N) (live : gmap ItemId (gset N)) (st : PlanningState)
    : PlanningState :=
  {| blocks := blocks st; busy := busy st; unscheduled := unscheduled st; decisions := decisions st;
     violations := violations st; plan_score := plan_score st; previous := previous st;
     pinned_minutes := pinned; execution_reserved_minutes := reserved; session_high_water := high;
     live_session_indices := live |}.

Definition add_scheduled (minutes : N) (s : PlanScore) : PlanScore :=
  {| scheduled_minutes := saturating_add u32_max (scheduled_minutes s) minutes;
     unscheduled_minutes := unscheduled_minutes s; soft_penalty := soft_penalty s; moved_minutes := moved_minutes s |}.

Definition add_unscheduled (minutes : N) (s : PlanScore) : PlanScore :=
  {| scheduled_minutes := scheduled_minutes s;
     unscheduled_minutes := saturating_add u32_max (unscheduled_minutes s) minutes;
     soft_penalty := soft_penalty s; moved_minutes := moved_minutes s |}.

Definition with_soft_penalty (penalty : N) (s : PlanScore) : PlanScore :=
  {| scheduled_minutes := scheduled_minutes s; unscheduled_minutes := unscheduled_minutes s;
     soft_penalty := penalty; moved_minutes := moved_minutes s |}.

(** [PlanningState::new] *)
Definition new_state (request : PlanRequest) (execution : MaterializedExecutionContext) : PlanningState :=
  {| blocks := []; busy := []; unscheduled := []; decisions := []; violations := []; plan_score := default_score;
     previous := foldl (λ m assignment,
       foldl (λ m block, <[(pa_item_id assignment, pb_session_index block) := block]> m) m (pa_blocks assignment))
       ∅ (previous_assignments request);
     pinned_minutes := ∅; execution_reserved_minutes := ∅;
     session_high_water := omap high_water (mec_work_units execution);
     live_session_indices := ∅ |}.

Definition horizon (request : PlanRequest) : Interval :=
  {| iv_start := horizon_start request; iv_end := horizon_end request |}.

(** ** Block identifiers *)

Definition block_id `{Platform} (item_id : ItemId) (session_index : N) (start : OffsetDateTime) : Uuid :=
  uuid_new_v5 item_id (be_bytes 16 (unix_nanos start) ++ be_bytes 2 (Z.of_N session_index)).

(** ** Immutable time *)

Section immutable.
Context `{Platform}.

Definition retained_block (item : WorkItem) (session_index : N) (start end_ : OffsetDateTime)
    (kind : ScheduleBlockKind) (why : PlacementExplanation) : ScheduleBlock :=
  {| sb_id := block_id (wi_id item) session_index start; sb_is_sensitive := wi_is_sensitive item;
     sb_item_id := Some (wi_id item); sb_occurrence_id := None; sb_external_block_id := None;
     sb_title := wi_title item; sb_start := start; sb_end := end_; sb_session_index := session_index;
     sb_kind := kind; sb_explanations := [why] |}.

Definition fixed_schedule_block (fixed : FixedBlock) : ScheduleBlock :=
  {| sb_id := fb_id fixed; sb_is_sensitive := fb_is_sensitive fixed; sb_item_id := None;
     sb_occurrence_id := None; sb_external_block_id := Some (fb_id fixed); sb_title := fb_title fixed;
     sb_start := fb_start fixed; sb_end := fb_end fixed; sb_session_index := 0; sb_kind := ExternalFixed;
     sb_explanations := [explanation ExplanationCode.FixedEvent
       match fb_source fixed with
       | Sleep => "Protected sleep is immutable."
       | _ => "External fixed time is retained."
       end] |}.

Definition add_fixed_block (request : PlanRequest) (st : PlanningState) (fixed : FixedBlock) : PlanningState :=
  let interval := {| iv_start := fb_start fixed; iv_end := fb_end fixed |} in
  match clipped interval (horizon request) with
  | None => st
  | Some _ =>
      reserve {| bb_interval := interval; bb_item_id := None; bb_pinned := true; bb_manual_placement := false |}
        (fixed_schedule_block fixed) st
  end.

Definition add_external_fixed_blocks (request : PlanRequest) (st : PlanningState) : PlanningState :=
  foldl (add_fixed_block request) st (fixed_blocks request).

Definition event_block (item : WorkItem) (event : CalendarEventSpec) : ScheduleBlock :=
  retained_block item 0 (ce_start event) (ce_end event) CalendarEventBlock
    (explanation ExplanationCode.FixedEvent "Calendar time is retained before flexible work is composed.").

Definition add_calendar_event (request : PlanRequest) (st : PlanningState) (item : WorkItem) : PlanningState :=
  match wi_kind item with
  | CalendarEvent event =>
      if is_terminal (wi_status item) || bool_decide (wi_status item = WorkStatus.Blocked) then
        push_decision (wi_id item) DecisionKind.TerminalItemIgnored
          "Completed, skipped, canceled, or blocked events do not reserve future time." st
      else
        let interval := {| iv_start := ce_start event; iv_end := ce_end event |} in
        match clipped interval (horizon request) with
        | None => st
        | Some _ =>
            push_decision (wi_id item) DecisionKind.FixedEventRetained
              "The calendar event remains at its source time."
              (reserve {| bb_interval := interval; bb_item_id := Some (wi_id item);
                          bb_pinned := ce_immutable event; bb_manual_placement := false |}
                 (event_block item event) st)
        end
  | _ => st
  end.

Definition add_calendar_events (request : PlanRequest) (st : PlanningState) : PlanningState :=
  foldl (add_calendar_event request) st (items request).

Definition reservation_block (item : WorkItem) (reservation : ExecutionReservation) : ScheduleBlock :=
  retained_block item (er_session_index reservation) (er_start reservation) (er_end reservation) Pinned
    (explanation ExplanationCode.Pinned "Reserved by authoritative execution state.").

(** One reservation: the ledger counts it whether or not it falls in the
    horizon; a partial overlap is an error. *)
Definition add_reservation (request : PlanRequest) (item : WorkItem) (st : PlanningState)
    (reservation : ExecutionReservation) : result ScheduleError PlanningState :=
  let id := wi_id item in
  let interval := reservation_interval reservation in
  let reserved := <[id := saturating_add u32_max (default 0%N (execution_reserved_minutes st !! id))
                            (ceil_duration_minutes (duration_between (er_end reservation) (er_start reservation)))]>
                    (execution_reserved_minutes st) in
  let live := <[id := {[er_session_index reservation]} ∪ default ∅ (live_session_indices st !! id)]>
                (live_session_indices st) in
  let st := with_ledger (pinned_minutes st) reserved (session_high_water st) live st in
  if negb (overlaps (horizon request) interval) then Ok st
  else if negb (contains (horizon request) interval) then
    Err (invalid_execution id ("reservation session " ++ display_N (er_session_index reservation) ++
           " is only partly covered by the planning horizon"))
  else
    Ok (reserve {| bb_interval := interval; bb_item_id := Some id; bb_pinned := true; bb_manual_placement := false |}
          (reservation_block item reservation) st).

Definition add_work_unit (request : PlanRequest) (by_id : gmap ItemId WorkItem) (st : PlanningState)
    (entry : ItemId * MaterializedExecutionWorkUnit) : result ScheduleError PlanningState :=
  let '(item_id, work_unit) := entry in
  match by_id !! item_id with
  | None => Ok st
  | Some item =>
      let? st := foldM (add_reservation request item) st (meu_reservations work_unit) in
      Ok (match meu_reservations work_unit with
          | [] => st
          | _ => push_decision item_id DecisionKind.KeptPinned
                   "Authoritative execution reservations were preserved exactly." st
          end)
  end.

(** The work units are those of the request's items: indexing an unknown
    item panics in the code, and no caller passes one. *)
Definition add_execution_reservations (request : PlanRequest) (by_id : gmap ItemId WorkItem)
    (execution : MaterializedExecutionContext) (st : PlanningState) : result ScheduleError PlanningState :=
  foldM (add_work_unit request by_id) st (entries (mec_work_units execution)).

Definition raise_high_water (id : ItemId) (index : N) (high : gmap ItemId N) : gmap ItemId N :=
  <[id := match high !! id with Some current => N.max current index | None => index end]> high.

Definition pinned_block (item : WorkItem) (block : PreviousBlock) : ScheduleBlock :=
  retained_block item (pb_session_index block) (pb_start block) (pb_end block) Pinned
    (explanation ExplanationCode.Pinned "Pinned by the user and excluded from recomposition.").

Definition add_pinned_block (request : PlanRequest) (item : WorkItem) (manual : bool) (st : PlanningState)
    (block : PreviousBlock) : PlanningState :=
  let id := wi_id item in
  let interval := {| iv_start := pb_start block; iv_end := pb_end block |} in
  let high := raise_high_water id (pb_session_index block) (session_high_water st) in
  let st := with_ledger (pinned_minutes st) (execution_reserved_minutes st) high (live_session_indices st) st in
  match clipped interval (horizon request) with
  | None => st
  | Some _ =>
      let pinned := <[id := saturating_add u32_max (default 0%N (pinned_minutes st !! id)) (minutes interval)]>
                      (pinned_minutes st) in
      reserve {| bb_interval := interval; bb_item_id := Some id; bb_pinned := true; bb_manual_placement := manual |}
        (pinned_block item block)
        (with_ledger pinned (execution_reserved_minutes st) (session_high_water st) (live_session_indices st) st)
  end.

Definition add_pinned_assignment (request : PlanRequest) (by_id : gmap ItemId WorkItem) (st : PlanningState)
    (assignment : PreviousAssignment) : PlanningState :=
  if negb (pa_pinned assignment) then st
  else
    match by_id !! pa_item_id assignment with
    | None => st
    | Some item =>
        if is_calendar_event (wi_kind item) then st
        else
          push_decision (wi_id item) DecisionKind.KeptPinned "Pinned sessions were preserved exactly."
            (foldl (add_pinned_block request item (bool_decide (is_Some (pa_manual_placement_id assignment)))) st
               (pa_blocks assignment))
    end.

Definition add_pinned_assignments (request : PlanRequest) (by_id : gmap ItemId WorkItem) (st : PlanningState)
    : PlanningState :=
  foldl (add_pinned_assignment request by_id) st (previous_assignments request).
End immutable.

(** ** Overlaps of immutable time *)

Definition MAX_IMMUTABLE_OVERLAP_VIOLATIONS : nat := 4096.

Definition busy_cmp (a b : BusyBlock) : comparison :=
  then_with (odt_cmp (iv_start (bb_interval a)) (iv_start (bb_interval b)))
    (then_with (odt_cmp (iv_end (bb_interval a)) (iv_end (bb_interval b)))
      (then_with (cmp_option N.compare (bb_item_id a) (bb_item_id b)) (cmp_bool (bb_pinned a) (bb_pinned b)))).

Definition busy_leb (a b : BusyBlock) : bool := is_le (busy_cmp a b).

Definition option_ids (l : list (option ItemId)) : list ItemId := sort_dedup_N (omap (λ o, o) l).

Definition overlap_violation (l r : BusyBlock) : PlanViolation :=
  {| pv_kind := if bb_pinned l || bb_pinned r then ViolationKind.PinnedConflict else ViolationKind.FixedOverlap;
     pv_severity := Error; pv_item_ids := option_ids [bb_item_id l; bb_item_id r]; pv_occurrence_ids := [];
     pv_start := Some (odt_max (iv_start (bb_interval l)) (iv_start (bb_interval r)));
     pv_end := Some (odt_min (iv_end (bb_interval l)) (iv_end (bb_interval r))); pv_penalty := 0;
     pv_message := "Immutable blocks overlap; both remain visible for resolution." |}.

(** The inner loop over the blocks after [l], until one starts after [l] ends. *)
Fixpoint overlaps_with (l : BusyBlock) (rest : list BusyBlock) (vs : list PlanViolation)
    : result ScheduleError (list PlanViolation) :=
  match rest with
  | [] => Ok vs
  | r :: rest' =>
      if odt_leb (iv_end (bb_interval l)) (iv_start (bb_interval r)) then Ok vs
      else if overlaps (bb_interval l) (bb_interval r) then
        if bb_manual_placement l || bb_manual_placement r then overlaps_with l rest' vs
        else if MAX_IMMUTABLE_OVERLAP_VIOLATIONS <=? length vs then Err ScheduleError.ConflictEvidenceLimit
        else overlaps_with l rest' (vs ++ [overlap_violation l r])
      else overlaps_with l rest' vs
  end.

Fixpoint all_overlaps (sorted : list BusyBlock) (vs : list PlanViolation)
    : result ScheduleError (list PlanViolation) :=
  match sorted with
  | [] => Ok vs
  | l :: rest => let? vs := overlaps_with l rest vs in all_overlaps rest vs
  end.

Definition detect_immutable_overlaps (st : PlanningState) : result ScheduleError PlanningState :=
  let sorted := sort_by busy_leb (busy st) in
  let? vs := all_overlaps sorted (violations st) in
  Ok (with_evidence vs (plan_score st) (with_busy sorted st)).

(** ** The best candidate *)

Section placement.
Context `{Platform}.

(** [(penalty, start, end) < (penalty, start, end)] *)
Definition candidate_cmp (a b : Candidate) : comparison :=
  then_with (cand_penalty a ?= cand_penalty b)%N
    (then_with (odt_cmp (iv_start (cand_interval a)) (iv_start (cand_interval b)))
       (odt_cmp (iv_end (cand_interval a)) (iv_end (cand_interval b)))).

Definition better (candidate : Candidate) (best : option Candidate) : bool :=
  match best with None => true | Some current => is_lt (candidate_cmp candidate current) end.

Definition keep_better (best candidate : option Candidate) : option Candidate :=
  match candidate with
  | Some candidate => if better candidate best then Some candidate else best
  | None => best
  end.

(** What a search is asked for: everything but the state. *)
Record Search : Type := {
  se_request : PlanRequest;
  se_item : WorkItem;
  se_dependencies : list Dependency;
  se_all_items : gmap ItemId WorkItem;
  se_duration : Minutes;
  se_finishes_item : bool;
  se_session_index : N;
  se_session_earliest : option OffsetDateTime;
  se_used_days : gset Date;
  se_maximum_days : option N
}.

Definition day_limit_reached (search : Search) (interval : Interval) : bool :=
  match se_maximum_days search with
  | Some limit =>
      negb (bool_decide (odt_date (iv_start interval) ∈ se_used_days search)) &&
      (N.to_nat limit <=? size (se_used_days search))
  | None => false
  end.

Definition granularity (search : Search) : Minutes := slot_granularity (config (se_request search)).

Definition evaluate_slot (state : PlanningState) (search : Search) (availability : AvailabilityWindow)
    (interval : Interval) : option Candidate :=
  if day_limit_reached search interval then None
  else evaluate_candidate state (se_request search) (se_item search) (se_dependencies search)
         (se_all_items search) availability interval (se_finishes_item search) (se_session_index search).

(** The [while let] loop over the slots of one free segment. *)
Fixpoint scan_slots (fuel : nat) (state : PlanningState) (search : Search) (availability : AvailabilityWindow)
    (free_end start : OffsetDateTime) (best : option Candidate) : option Candidate :=
  match fuel with
  | O => best
  | S fuel' =>
      match odt_checked_add start (duration_minutes (se_duration search)) with
      | None => best
      | Some end_ =>
          if odt_ltb free_end end_ then best
          else
            let interval := {| iv_start := start; iv_end := end_ |} in
            let best := keep_better best (evaluate_slot state search availability interval) in
            match odt_checked_add start (duration_minutes (granularity search)) with
            | None => best
            | Some next => scan_slots fuel' state search availability free_end next best
            end
      end
  end.

(** Slots of the segment, and two more steps to leave it. *)
Definition slot_fuel (search : Search) (free : Interval) : nat :=
  Z.to_nat ((iv_end free - iv_start free) / duration_minutes (granularity search)) + 2.

Definition first_slot (search : Search) (free : Interval) : option OffsetDateTime :=
  start ← align_up (iv_start free) (granularity search);
  match se_session_earliest search with
  | Some earliest => align_up (odt_max start earliest) (granularity search)
  | None => Some start
  end.

Definition scan_segment (state : PlanningState) (search : Search) (availability : AvailabilityWindow)
    (best : option Candidate) (free : Interval) : option Candidate :=
  match first_slot search free with
  | None => best
  | Some start => scan_slots (slot_fuel search free) state search availability (iv_end free) start best
  end.

Definition planning_horizon (request : PlanRequest) : Interval :=
  {| iv_start := odt_max (horizon_start request) (as_of request); iv_end := horizon_end request |}.

Definition scan_window (state : PlanningState) (search : Search) (best : option Candidate)
    (availability : AvailabilityWindow) : option Candidate :=
  match clipped (availability_interval availability) (planning_horizon (se_request search)) with
  | None => best
  | Some available => foldl (scan_segment state search availability) best (free_segments available (busy state))
  end.

Definition best_candidate (state : PlanningState) (search : Search) : option Candidate :=
  foldl (scan_window state search) None (availability (se_request search)).

(** ** Accepting a candidate *)

Definition split_explanation (session_index : N) : PlacementExplanation :=
  explanation ExplanationCode.SplitSession
    ("Session " ++ display_N (session_index + 1) ++ " of split work.")%string.

(** The block an accepted candidate becomes. *)
Definition planned_block (item : WorkItem) (candidate : Candidate) (session_index : N) (split : bool) : ScheduleBlock :=
  let interval := cand_interval candidate in
  {| sb_id := block_id (wi_id item) session_index (iv_start interval); sb_is_sensitive := wi_is_sensitive item;
     sb_item_id := Some (wi_id item); sb_occurrence_id := None; sb_external_block_id := None;
     sb_title := wi_title item; sb_start := iv_start interval; sb_end := iv_end interval;
     sb_session_index := session_index; sb_kind := Planned;
     sb_explanations := cand_explanations candidate ++ (if split then [split_explanation session_index] else []) |}.

Definition accept_candidate (item : WorkItem) (candidate : Candidate) (session_index : N) (split : bool)
    (st : PlanningState) : PlanningState :=
  let s := plan_score st in
  let s := {| scheduled_minutes := scheduled_minutes s; unscheduled_minutes := unscheduled_minutes s;
              soft_penalty := saturating_add u64_max (soft_penalty s) (cand_penalty candidate);
              moved_minutes := saturating_add u32_max (moved_minutes s) (cand_moved_minutes candidate) |} in
  reserve {| bb_interval := cand_interval candidate; bb_item_id := Some (wi_id item); bb_pinned := false;
             bb_manual_placement := false |}
    (planned_block item candidate session_index split)
    (with_evidence (violations st ++ cand_violations candidate) s st).

(** ** Sessions of one item *)

(** What the loop over sessions of splittable work carries. *)
Record SessionLoop : Type := {
  sl_state : PlanningState;
  sl_remaining : N;
  sl_session_index : option N;
  sl_sessions_added : N;
  sl_previous_end : option OffsetDateTime;
  sl_used_days : gset Date;
  sl_limit_hit : bool
}.

Definition hit_limit (loop : SessionLoop) : SessionLoop :=
  {| sl_state := sl_state loop; sl_remaining := sl_remaining loop; sl_session_index := sl_session_index loop;
     sl_sessions_added := sl_sessions_added loop; sl_previous_end := sl_previous_end loop;
     sl_used_days := sl_used_days loop; sl_limit_hit := true |}.

Definition search_for (request : PlanRequest) (item : WorkItem) (deps : list Dependency)
    (all_items : gmap ItemId WorkItem) (duration : Minutes) (finishes_item : bool) (session_index : N)
    (session_earliest : option OffsetDateTime) (used_days : gset Date) (maximum_days : option N) : Search :=
  {| se_request := request; se_item := item; se_dependencies := deps; se_all_items := all_items;
     se_duration := duration; se_finishes_item := finishes_item; se_session_index := session_index;
     se_session_earliest := session_earliest; se_used_days := used_days; se_maximum_days := maximum_days |}.

(** The inner [loop]: sizes from large to small, the first one with a
    candidate wins and is returned with it. *)
Fixpoint try_sizes (fuel : nat) (step minimum minimum_session remaining : N)
    (attempt : N → bool → option Candidate) (size : N) : option (N * Candidate) :=
  match fuel with
  | O => None
  | S fuel' =>
      let remainder_after := saturating_sub remaining size in
      let accepted :=
        if ((remainder_after =? 0)%N || (minimum_session <=? remainder_after)%N) && (minimum <=? size)%N
        then attempt size (remainder_after =? 0)%N
        else None in
      match accepted with
      | Some candidate => Some (size, candidate)
      | None =>
          if (size <=? minimum)%N then None
          else try_sizes fuel' step minimum minimum_session remaining attempt
                 (N.max (saturating_sub size step) minimum)
      end
  end.

Definition size_fuel (size step : N) : nat := N.to_nat (size / step) + 2.

Inductive SessionStep : Type :=
| Continue (loop : SessionLoop)
| Break (loop : SessionLoop).

(** One session, once the limits allow one. *)
Definition next_session (request : PlanRequest) (item : WorkItem) (deps : list Dependency)
    (all_items : gmap ItemId WorkItem) (minimum_session maximum_session : Minutes) (minimum_gap : Minutes)
    (maximum_days : option N) (index : N) (loop : SessionLoop) : SessionStep :=
  let remaining := sl_remaining loop in
  let step := slot_granularity (config request) in
  let size := N.min remaining maximum_session in
  let minimum := N.min minimum_session remaining in
  let earliest :=
    match sl_previous_end loop with
    | Some end_ =>
        match odt_checked_add end_ (duration_minutes minimum_gap) with
        | Some value => Some (Some value)
        | None => None
        end
    | None => Some None
    end in
  match earliest with
  | None => Break (hit_limit loop)
  | Some session_earliest =>
      let attempt size finishes :=
        best_candidate (sl_state loop)
          (search_for request item deps all_items size finishes index session_earliest (sl_used_days loop)
             maximum_days) in
      match try_sizes (size_fuel size step) step minimum minimum_session remaining attempt size with
      | None => Break loop
      | Some (size, candidate) =>
          Continue
            {| sl_state := accept_candidate item candidate index true (sl_state loop);
               sl_remaining := saturating_sub remaining size;
               sl_session_index := checked_add u16_max index 1;
               sl_sessions_added := sl_sessions_added loop + 1;
               sl_previous_end := Some (iv_end (cand_interval candidate));
               sl_used_days := {[odt_date (iv_start (cand_interval candidate))]} ∪ sl_used_days loop;
               sl_limit_hit := sl_limit_hit loop |}
      end
  end.

(** The [while remaining > 0] loop; a session is added in every iteration
    that continues, so the session limit bounds it. *)
Fixpoint place_sessions (fuel : nat) (request : PlanRequest) (item : WorkItem) (deps : list Dependency)
    (all_items : gmap ItemId WorkItem) (minimum_session maximum_session : Minutes) (maximum_sessions : N)
    (minimum_gap : Minutes) (maximum_days : option N) (existing_session_count : N) (loop : SessionLoop)
    : SessionLoop :=
  match fuel with
  | O => loop
  | S fuel' =>
      if (sl_remaining loop =? 0)%N then loop
      else if (maximum_sessions <=? existing_session_count + sl_sessions_added loop)%N then hit_limit loop
      else
        match sl_session_index loop with
        | None => hit_limit loop
        | Some index =>
            match next_session request item deps all_items minimum_session maximum_session minimum_gap
                    maximum_days index loop with
            | Break loop => loop
            | Continue loop =>
                place_sessions fuel' request item deps all_items minimum_session maximum_session maximum_sessions
                  minimum_gap maximum_days existing_session_count loop
            end
        end
  end.

(** ** Scheduling one item *)

(** The sessions the item already has when its turn comes. *)
Definition first_loop (state : PlanningState) (item : WorkItem) (remaining : N) : SessionLoop :=
  let existing := item_blocks (blocks state) (wi_id item) in
  let highest_existing := max_by N.compare (sb_session_index <$> existing) in
  let highest_allocated :=
    match session_high_water state !! wi_id item, highest_existing with
    | Some a, Some b => Some (N.max a b)
    | Some a, None => Some a
    | None, o => o
    end in
  {| sl_state := state; sl_remaining := remaining; sl_session_index := next_index highest_allocated;
     sl_sessions_added := 0; sl_previous_end := last_finish existing;
     sl_used_days := list_to_set ((λ block, odt_date (sb_start block)) <$> existing); sl_limit_hit := false |}.

Definition live_sessions (state : PlanningState) (id : ItemId) : gset N :=
  list_to_set (sb_session_index <$> item_blocks (blocks state) id) ∪ default ∅ (live_session_indices state !! id).

Definition place_item (request : PlanRequest) (item : WorkItem) (deps : list Dependency)
    (all_items : gmap ItemId WorkItem) (loop : SessionLoop) : SessionLoop :=
  match wi_split_policy item with
  | Indivisible =>
      match sl_session_index loop with
      | None => hit_limit loop
      | Some index =>
          match best_candidate (sl_state loop)
                  (search_for request item deps all_items (sl_remaining loop) true index None (sl_used_days loop)
                     None) with
          | None => loop
          | Some candidate =>
              {| sl_state := accept_candidate item candidate index false (sl_state loop); sl_remaining := 0;
                 sl_session_index := sl_session_index loop; sl_sessions_added := sl_sessions_added loop;
                 sl_previous_end := sl_previous_end loop; sl_used_days := sl_used_days loop;
                 sl_limit_hit := sl_limit_hit loop |}
          end
      end
  | Splittable minimum_session maximum_session maximum_sessions minimum_gap maximum_days =>
      place_sessions (S (N.to_nat maximum_sessions)) request item deps all_items minimum_session maximum_session
        maximum_sessions minimum_gap maximum_days
        (N.of_nat (size (live_sessions (sl_state loop) (wi_id item)))) loop
  end.

Definition capacity_violation (item_id : ItemId) (remaining : N) : PlanViolation :=
  {| pv_kind := ViolationKind.Capacity; pv_severity := Error; pv_item_ids := [item_id]; pv_occurrence_ids := [];
     pv_start := None; pv_end := None; pv_penalty := 0;
     pv_message := display_N remaining ++ " minutes remain unscheduled." |}.

(** The bookkeeping after the sessions: the score, and either a decision or
    the evidence of the work left over. *)
Definition conclude (item : WorkItem) (required : N) (loop : SessionLoop) : PlanningState * bool :=
  let st := sl_state loop in
  let remaining := sl_remaining loop in
  let scheduled_now := saturating_sub required remaining in
  let st := with_evidence (violations st) (add_scheduled scheduled_now (plan_score st)) st in
  if (remaining =? 0)%N then
    (push_decision (wi_id item) DecisionKind.Scheduled ("Reserved " ++ display_N required ++ " minutes.") st, true)
  else
    let st := push_unscheduled (wi_id item) remaining
      (if sl_limit_hit loop then UnscheduledReason.SessionLimit else UnscheduledReason.NoCapacity)
      (if sl_limit_hit loop
       then "The session limit or semantic index space leaves " ++ display_N remaining ++ " minutes unscheduled."
       else "No valid capacity for the remaining " ++ display_N remaining ++ " minutes inside the horizon.") st in
    let st := with_evidence (violations st ++ [capacity_violation (wi_id item) remaining])
                (add_unscheduled remaining (plan_score st)) st in
    (if (0 <? scheduled_now)%N
     then push_decision (wi_id item) DecisionKind.PartiallyScheduled
            ("Reserved " ++ display_N scheduled_now ++ " of " ++ display_N required ++
             " minutes; overload remains visible.") st
     else st, false).

(** The minutes of the item that are still to be placed. *)
Definition remaining_demand (state : PlanningState) (item : WorkItem) (required : N) : N :=
  saturating_sub required
    (saturating_add u32_max (default 0%N (pinned_minutes state !! wi_id item))
       (default 0%N (execution_reserved_minutes state !! wi_id item))).

Definition schedule_item (request : PlanRequest) (item : WorkItem) (deps : list Dependency)
    (all_items : gmap ItemId WorkItem) (state : PlanningState) : PlanningState * bool :=
  match wi_duration item with
  | None =>
      (push_unscheduled (wi_id item) 0 UnscheduledReason.MissingDuration
         "Add or accept a duration estimate before scheduling." state, false)
  | Some duration =>
      let required := planning_minutes duration in
      let remaining := remaining_demand state item required in
      if (remaining =? 0)%N then
        (with_evidence (violations state) (add_scheduled required (plan_score state)) state, true)
      else
        conclude item required (place_item request item deps all_items (first_loop state item remaining))
  end.
End placement.

(** ** Dependency evidence of the finished placement *)

Section reconcile.
Context `{Platform}.

Definition hard_dependency_violation (successor predecessor : ItemId) (interval : Interval) (message : string)
    : PlanViolation :=
  {| pv_kind := ViolationKind.Dependency; pv_severity := Error; pv_item_ids := sort_dedup_N [successor; predecessor];
     pv_occurrence_ids := []; pv_start := Some (iv_start interval); pv_end := Some (iv_end interval);
     pv_penalty := 0; pv_message := message |}.

Definition block_cmp (key : ScheduleBlock → OffsetDateTime * OffsetDateTime) (a b : ScheduleBlock) : comparison :=
  then_with (odt_cmp (key a).1 (key b).1)
    (then_with (odt_cmp (key a).2 (key b).2)
       (then_with (sb_session_index a ?= sb_session_index b)%N (sb_id a ?= sb_id b)%N)).

(** The blocks of an item with their positions in the plan. *)
Definition indexed_blocks (l : list ScheduleBlock) (id : ItemId) : list (nat * ScheduleBlock) :=
  filter (λ '(_, block), sb_item_id block = Some id) (imap pair l).

Definition first_block_index (l : list (nat * ScheduleBlock)) : option nat :=
  fst <$> min_by (λ a b, block_cmp (λ block, (sb_start block, sb_end block)) a.2 b.2) l.

Definition last_block_index (l : list (nat * ScheduleBlock)) : option nat :=
  fst <$> max_by (λ a b, block_cmp (λ block, (sb_end block, sb_start block)) a.2 b.2) l.

Definition BlockKey : Type := ItemId * N * Z * Z.

(** Blocks compare by their instants in the set of the code. *)
Definition block_key (id : ItemId) (index : N) (start end_ : OffsetDateTime) : BlockKey :=
  (id, index, unix_nanos start, unix_nanos end_).

(** A boundary block that the manual assessment covers. *)
Definition boundary_is_manual (manual : gset BlockKey) (successor : ItemId) (hull : Interval)
    (successor_blocks : list ScheduleBlock) (dependency : Dependency) : bool :=
  existsb (λ block,
    (if dependency_uses_successor_finish (dep_relation dependency)
     then odt_eqb (sb_end block) (iv_end hull)
     else odt_eqb (sb_start block) (iv_start hull)) &&
    bool_decide (block_key successor (sb_session_index block) (sb_start block) (sb_end block) ∈ manual))
    successor_blocks.

Definition is_unavailable (predecessor : option WorkItem) : bool :=
  match predecessor with
  | Some item => is_terminal (wi_status item) || bool_decide (wi_status item = WorkStatus.Blocked)
  | None => false
  end.

Inductive DependencyOutcome : Type :=
| NotAssessed
| Satisfied
| Violated (violation : PlanViolation).

(** One dependency of one successor, on the final blocks. *)
Definition reconcile_dependency (st : PlanningState) (request : PlanRequest) (all_items : gmap ItemId WorkItem)
    (manual : gset BlockKey) (unfinished : gset ItemId) (successor : ItemId)
    (successor_blocks : list ScheduleBlock) (hull : Interval) (dependency : Dependency) : DependencyOutcome :=
  let hard := is_hard (dep_strength dependency) in
  let predecessor := all_items !! dep_item_id dependency in
  if hard && (negb (existsb (λ block, bool_decide (sb_kind block = Pinned)) successor_blocks) ||
              boundary_is_manual manual successor hull successor_blocks dependency)
  then NotAssessed
  else if dependency_uses_successor_finish (dep_relation dependency) && bool_decide (successor ∈ unfinished)
  then NotAssessed
  else if predecessor_completed all_items dependency then NotAssessed
  else
    let bounds :=
      if is_unavailable predecessor ||
         (bool_decide (dep_item_id dependency ∈ unfinished) &&
          negb (dependency_uses_predecessor_start (dep_relation dependency)))
      then None
      else dependency_predecessor_bounds predecessor (item_blocks (blocks st) (dep_item_id dependency)) in
    match bounds with
    | None =>
        Violated
          (if hard then
             hard_dependency_violation successor (dep_item_id dependency) hull
               "A retained placement has no available hard-dependency predecessor."
           else
             soft_violation successor hull ViolationKind.Dependency (soft_weight request (dep_strength dependency))
               "A preferred predecessor is not in this plan.")
    | Some (predecessor_start, predecessor_end) =>
        let boundary := dependency_boundary dependency hull predecessor_start predecessor_end in
        if boundary_satisfied boundary then Satisfied
        else if hard then
          Violated (hard_dependency_violation successor (dep_item_id dependency) hull
                      "A retained placement violates a hard dependency.")
        else
          Violated (soft_violation successor hull ViolationKind.Dependency
                      (penalty_value request (dep_strength dependency) (boundary_shortfall boundary))
                      "A soft dependency order was compressed.")
    end.

Definition is_dependency_violation (v : PlanViolation) : bool :=
  match pv_kind v with ViolationKind.Dependency => true | _ => false end.

(** [fold(0, |total, violation| total.saturating_add(violation.penalty))] *)
Definition saturating_penalty (l : list PlanViolation) : N :=
  foldl (λ total v, saturating_add u64_max total (pv_penalty v)) 0%N l.

(** One successor: the violations and the blocks that gain an explanation. *)
Definition reconcile_successor (st : PlanningState) (request : PlanRequest) (all_items : gmap ItemId WorkItem)
    (manual : gset BlockKey) (unfinished : gset ItemId) (acc : list PlanViolation * gset nat)
    (entry : ItemId * list Dependency) : list PlanViolation * gset nat :=
  let '(successor, deps) := entry in
  let indexed := indexed_blocks (blocks st) successor in
  let successor_blocks := snd <$> indexed in
  match first_start successor_blocks, last_finish successor_blocks,
        first_block_index indexed, last_block_index indexed with
  | Some start, Some finish, Some first, Some last =>
      let hull := {| iv_start := start; iv_end := finish |} in
      foldl (λ '(reconciled, explained) dependency,
        match reconcile_dependency st request all_items manual unfinished successor successor_blocks hull dependency with
        | NotAssessed => (reconciled, explained)
        | Satisfied =>
            (reconciled, {[if dependency_uses_successor_finish (dep_relation dependency) then last else first]} ∪ explained)
        | Violated v => (reconciled ++ [v], explained)
        end) acc deps
  | _, _, _, _ => acc
  end.

Definition explain_block (block : ScheduleBlock) : ScheduleBlock :=
  {| sb_id := sb_id block; sb_is_sensitive := sb_is_sensitive block; sb_item_id := sb_item_id block;
     sb_occurrence_id := sb_occurrence_id block; sb_external_block_id := sb_external_block_id block;
     sb_title := sb_title block; sb_start := sb_start block; sb_end := sb_end block;
     sb_session_index := sb_session_index block; sb_kind := sb_kind block;
     sb_explanations := normalize_explanations (sb_explanations block ++
       [explanation ExplanationCode.Dependency "Follows its predecessor dependency."]) |}.

Definition reconcile_dependency_evidence (request : PlanRequest) (all_items : gmap ItemId WorkItem)
    (deps : gmap ItemId (list Dependency)) (manual : gset BlockKey) (st : PlanningState) : PlanningState :=
  let provisional := saturating_penalty (filter (λ v, is_dependency_violation v = true) (violations st)) in
  let kept := filter (λ v, is_dependency_violation v = false) (violations st) in
  let s := with_soft_penalty (saturating_sub (soft_penalty (plan_score st)) provisional) (plan_score st) in
  let unfinished := list_to_set (uw_item_id <$> filter (λ work, is_zero (uw_remaining work) = false) (unscheduled st)) in
  let '(reconciled, explained) :=
    foldl (reconcile_successor st request all_items manual unfinished) ([], ∅) (entries deps) in
  let new_blocks := imap (λ i block, if bool_decide (i ∈ explained) then explain_block block else block) (blocks st) in
  with_evidence (kept ++ reconciled)
    (with_soft_penalty (saturating_add u64_max (soft_penalty s) (saturating_penalty reconciled)) s)
    (replace_blocks new_blocks st).
End reconcile.

(** ** The finished plan *)

Definition schedule_block_cmp (a b : ScheduleBlock) : comparison :=
  then_with (odt_cmp (sb_start a) (sb_start b))
    (then_with (odt_cmp (sb_end a) (sb_end b))
      (then_with (cmp_option N.compare (sb_item_id a) (sb_item_id b))
        (then_with (cmp_option N.compare (sb_external_block_id a) (sb_external_block_id b))
           (sb_session_index a ?= sb_session_index b)%N))).

Definition schedule_block_leb (a b : ScheduleBlock) : bool := is_le (schedule_block_cmp a b).

Definition decision_rank (kind : DecisionKind) : N :=
  match kind with
  | DecisionKind.ContainerRolledUp => 0 | DecisionKind.TerminalItemIgnored => 1
  | DecisionKind.FixedEventRetained => 2 | DecisionKind.Scheduled => 3
  | DecisionKind.PartiallyScheduled => 4 | DecisionKind.KeptPinned => 5
  end%N.

Definition decision_leb (a b : PlanDecision) : bool :=
  is_le (then_with (pd_item_id a ?= pd_item_id b)%N (decision_rank (pd_kind a) ?= decision_rank (pd_kind b))%N).

Definition violation_rank (kind : ViolationKind) : N :=
  match kind with
  | ViolationKind.SoftConstraint => 0 | ViolationKind.FixedOverlap => 1 | ViolationKind.PinnedConflict => 2
  | ViolationKind.DeadlineRisk => 3 | ViolationKind.Dependency => 4 | ViolationKind.BufferCompressed => 5
  | ViolationKind.Capacity => 6
  end%N.

Definition violation_leb (a b : PlanViolation) : bool :=
  is_le (then_with (cmp_option odt_cmp (pv_start a) (pv_start b))
    (then_with (cmp_option odt_cmp (pv_end a) (pv_end b))
      (then_with (cmp_list N.compare (pv_item_ids a) (pv_item_ids b))
         (violation_rank (pv_kind a) ?= violation_rank (pv_kind b))%N))).

Definition finish (request : PlanRequest) (st : PlanningState) : SchedulePlan :=
  let work := sort_by (λ a b, uw_item_id a <=? uw_item_id b)%N (unscheduled st) in
  let s := plan_score st in
  {| sp_as_of := as_of request; sp_horizon_start := horizon_start request; sp_horizon_end := horizon_end request;
     sp_blocks := sort_by schedule_block_leb (blocks st);
     sp_unscheduled := work;
     sp_decisions := sort_by decision_leb (decisions st);
     sp_violations := sort_by violation_leb (violations st);
     sp_score :=
       {| scheduled_minutes := scheduled_minutes s;
          unscheduled_minutes := foldl (λ total w, saturating_add u32_max total (uw_remaining w)) 0%N work;
          soft_penalty := soft_penalty s; moved_minutes := moved_minutes s |};
     sp_occurrences := []; sp_manual_placement_assessments := [] |}.

(** ** The pass *)

Definition remaining_estimate (item : WorkItem) : Minutes :=
  match wi_duration item with Some duration => planning_minutes duration | None => 0%N end.

(** One item of the loop that collects the eligible ones. *)
Definition triage (children : gmap ItemId (list ItemId)) (acc : PlanningState * list ItemId) (item : WorkItem)
    : PlanningState * list ItemId :=
  let '(st, eligible) := acc in
  if is_calendar_event (wi_kind item) then acc
  else if is_terminal (wi_status item) then
    (push_decision (wi_id item) DecisionKind.TerminalItemIgnored
       "Completed, skipped, or canceled work does not reserve future time." st, eligible)
  else if negb (occupies_time item (has_listed_children children (wi_id item))) then
    (push_decision (wi_id item) DecisionKind.ContainerRolledUp
       "This parent is represented by its schedulable leaf descendants." st, eligible)
  else if bool_decide (wi_status item = WorkStatus.Blocked) then
    (push_unscheduled (wi_id item) (remaining_estimate item) UnscheduledReason.Blocked
       "Blocked work waits in the plan until its blocker is resolved." st, eligible)
  else (st, eligible ++ [wi_id item]).

Section pass.
Context `{Platform}.

(** One item of the ordered loop; the outcomes tell later items whether
    their predecessors were placed. *)
Definition place_one (request : PlanRequest) (all_items : gmap ItemId WorkItem)
    (dependencies : gmap ItemId (list Dependency)) (acc : PlanningState * gmap ItemId bool) (item_id : ItemId)
    : PlanningState * gmap ItemId bool :=
  let '(st, outcomes) := acc in
  match all_items !! item_id with
  | None => acc
  | Some item =>
      let deps := default [] (dependencies !! item_id) in
      if hard_dependency_unavailable deps all_items outcomes (blocks st) then
        (push_unscheduled item_id (remaining_estimate item) UnscheduledReason.DependencyUnavailable
           "A hard predecessor could not be placed in this plan." st, <[item_id := false]> outcomes)
      else
        let '(st, outcome) := schedule_item request item deps all_items st in
        (st, <[item_id := outcome]> outcomes)
  end.

Definition report_cyclic (all_items : gmap ItemId WorkItem) (st : PlanningState) (item_id : ItemId) : PlanningState :=
  match all_items !! item_id with
  | None => st
  | Some item =>
      push_unscheduled item_id (remaining_estimate item) UnscheduledReason.DependencyCycle
        "Hard dependencies form a cycle; edit or soften one dependency." st
  end.

Definition manually_assessed_blocks (assignments : list PreviousAssignment) : gset BlockKey :=
  list_to_set (assignments ≫= λ assignment,
    if pa_pinned assignment && bool_decide (is_Some (pa_manual_placement_id assignment)) then
      (λ block, block_key (pa_item_id assignment) (pb_session_index block) (pb_start block) (pb_end block)) <$>
        pa_blocks assignment
    else []).

(** Everything that is entered before flexible work is placed. *)
Definition immutable_state (request : PlanRequest) (all_items : gmap ItemId WorkItem)
    (execution : MaterializedExecutionContext) : result ScheduleError PlanningState :=
  let st := new_state request execution in
  let st := add_external_fixed_blocks request st in
  let st := add_calendar_events request st in
  let? st := add_execution_reservations request all_items execution st in
  detect_immutable_overlaps (add_pinned_assignments request all_items st).

(** The placement loops, after the immutable time. *)
Definition place_all (request : PlanRequest) (all_items : gmap ItemId WorkItem)
    (children : gmap ItemId (list ItemId)) (dependencies : gmap ItemId (list Dependency)) (st : PlanningState)
    : PlanningState :=
  let '(st, eligible) := foldl (triage children) (st, []) (items request) in
  let '(ordered, cyclic) := dependency_order all_items dependencies eligible in
  let '(st, _) := foldl (place_one request all_items dependencies) (st, ∅) ordered in
  foldl (report_cyclic all_items) st cyclic.

(** [Scheduler::plan_materialized] *)
Definition plan_materialized (request : PlanRequest) (execution : MaterializedExecutionContext)
    (additional_manually_assessed_assignments : list PreviousAssignment) : result ScheduleError SchedulePlan :=
  let? _ := validate_request request in
  let? _ := validate_manual_placement_demand request execution in
  let all_items := collect_by_id (items request) in
  let children := child_map (items request) in
  let? st := immutable_state request all_items execution in
  let dependencies := dependencies_with_routine_order (items request) children in
  let st := place_all request all_items children dependencies st in
  let manual := manually_assessed_blocks
                  (previous_assignments request ++ additional_manually_assessed_assignments) in
  Ok (finish request (reconcile_dependency_evidence request all_items dependencies manual st)).
End pass.
