(* ===== verification/Day.v ===== *)
(** * Day: a sample plan

    One day planned by [plan_materialized] of Planner.v on the UTC platform,
    for the witnesses of the theorems on whole plans: a night's sleep that
    cannot move, a pinned session, split work, work with a soft deadline and
    work that needs it done first. *)
From S2P Require Import Prelude Platform Domain Samples Text Forest Rollup Lifecycle Plan Intervals Order Execution Validation Candidate Planner.

(** Forty minutes of work that needs item 5. *)
Definition later_item : WorkItem :=
  {| wi_id := 9; wi_is_sensitive := false; wi_revision := 1; wi_title := "later"; wi_kind := Task;
     wi_status := WorkStatus.NotStarted; wi_parent_id := None; wi_sibling_order := None;
     wi_has_own_effort := true; wi_has_children_outside_plan := false; wi_goal_ids := ∅;
     wi_priority := {| importance := 9; urgency := 9 |}; wi_duration := Some (exact_estimate 40);
     wi_constraints :=
       {| earliest_start := None; latest_finish := None; minimum_notice := None; allowed_weekdays := None;
          preferred_daily_windows := []; preferred_absolute_windows := []; forbidden_windows := [];
          required_contexts := []; required_location := None;
          dependencies := [{| dep_item_id := 5; dep_relation := FinishToStart; dep_minimum_lag := 10; dep_strength := Hard |}];
          maximum_daily_work := None; maximum_weekly_work := None; buffers := no_buffers; occurrence_window := None |};
     wi_split_policy := Indivisible; wi_energy := None;
     wi_tags := ∅; wi_created_at := at_minute 0; wi_updated_at := at_minute 0 |}.

Definition sleep_block : FixedBlock :=
  {| fb_id := 100; fb_is_sensitive := false; fb_title := "sleep"; fb_start := at_minute 0; fb_end := at_minute 485;
     fb_source := Sleep |}.

Definition pinned_session : PreviousAssignment :=
  {| pa_item_id := 4; pa_occurrence_id := None;
     pa_blocks := [{| pb_start := at_minute 600; pb_end := at_minute 620; pb_session_index := 0 |}];
     pa_pinned := true; pa_manual_placement_id := None |}.

Definition sample_day : PlanRequest :=
  {| as_of := at_minute 0; horizon_start := at_minute 0; horizon_end := at_minute 1440;
     items := later_item :: split_item :: deadline_item :: sample_tree;
     availability := [window 480 720]; fixed_blocks := [sleep_block]; previous_assignments := [pinned_session];
     config := default_config; recurrence_context := no_recurrence |}.

Definition no_execution : MaterializedExecutionContext := {| mec_work_units := ∅ |}.

Definition sample_run : result ScheduleError SchedulePlan :=
  @plan_materialized utc_platform sample_day no_execution [].

Definition planned_for (id : ItemId) (plan : SchedulePlan) : list ScheduleBlock :=
  filter (λ b, sb_item_id b = Some id ∧ sb_kind b = Planned) (sp_blocks plan).

(** The day can be planned, with a place for item 9. *)
Lemma sample_plan : ∃ plan b, sample_run = Ok plan ∧ b ∈ planned_for 9 plan.
Proof.
  assert (match sample_run with Ok plan => negb (bool_decide (planned_for 9 plan = [])) | Err _ => false end = true) as Hs
    by (vm_compute; reflexivity).
  destruct sample_run as [plan|]; [|discriminate Hs]. exists plan.
  apply negb_true_iff, bool_decide_eq_false in Hs. destruct (planned_for 9 plan) as [|b l]; [done|].
  exists b. split; [done|left].
Qed.
