(* ===== verification/Manual.v ===== *)
(** * Manual: the assessment of manual placements

    The assessor of crates/dayweave-core/src/scheduler.rs: a pinned block with
    a manual placement identifier is kept where the user put it, and
    [assess_manual_placement_targets] lists every hard rule it breaks.  The
    closure [push] of the code collects evidence in shared variables; here a
    check returns the findings it would push and the record [Assessor] holds
    the variables.  JSON and SHA-256 come from other crates and are arguments.

    The theorems: a block has a finding of a code exactly when it breaks that
    rule, a block without findings satisfies the planner's own hard rules, the
    assessments hold exactly the findings of all manual blocks, within the
    evidence limits, and the environment digest depends only on the planning
    environment, not on the order of the items. *)
From S2P Require Import Prelude Platform Domain Samples Text Forest Rollup Lifecycle Plan Intervals Order Execution Validation Candidate Planner Day.

Definition MAX_MANUAL_ASSESSMENT_VIOLATIONS : nat := 4096.
Definition MAX_MANUAL_ASSESSMENT_CONFLICT_FACTS : nat := 4096.

(** ** Violations as plan violations *)

Definition violation_kind (code : ManualPlacementViolationCode) : ViolationKind :=
  match code with
  | ManualPlacementViolationCode.LatestFinish => ViolationKind.DeadlineRisk
  | ManualPlacementViolationCode.Dependency => ViolationKind.Dependency
  | ManualPlacementViolationCode.BufferCompressed => ViolationKind.BufferCompressed
  | ManualPlacementViolationCode.OutsideAvailability | ManualPlacementViolationCode.MaximumDailyWork
  | ManualPlacementViolationCode.MaximumWeeklyWork => ViolationKind.Capacity
  | ManualPlacementViolationCode.ImmutableOverlap => ViolationKind.PinnedConflict
  | ManualPlacementViolationCode.EarliestStart | ManualPlacementViolationCode.MinimumNotice
  | ManualPlacementViolationCode.AllowedWeekday | ManualPlacementViolationCode.PreferredDailyWindow
  | ManualPlacementViolationCode.PreferredAbsoluteWindow | ManualPlacementViolationCode.ForbiddenWindow
  | ManualPlacementViolationCode.RequiredContext | ManualPlacementViolationCode.RequiredLocation
  | ManualPlacementViolationCode.RequiredCapabilities | ManualPlacementViolationCode.Energy =>
      ViolationKind.SoftConstraint
  end.

(** [ManualPlacementViolation::as_plan_violation] *)
Definition as_plan_violation (v : ManualPlacementViolation) : PlanViolation :=
  {| pv_kind := violation_kind (mpv_code v); pv_severity := Error;
     pv_item_ids := sort_dedup_N (mpv_item_ids v ++ omap mpc_item_id (mpv_conflicting_blocks v));
     pv_occurrence_ids := sort_dedup_N (mpv_occurrence_ids v ++ omap mpc_occurrence_id (mpv_conflicting_blocks v));
     pv_start := Some (mpv_start v); pv_end := Some (mpv_end v); pv_penalty := 0; pv_message := mpv_message v |}.

(** ** Findings: what one check pushes *)

Record Finding : Type := {
  fd_code : ManualPlacementViolationCode;
  fd_conflicts : list ScheduleBlock;
  fd_boundary_start : option OffsetDateTime;
  fd_boundary_end : option OffsetDateTime;
  fd_message : string
}.

Definition report (b : bool) (code : ManualPlacementViolationCode) (conflicts : list ScheduleBlock)
    (boundary_start boundary_end : option OffsetDateTime) (message : string) : list Finding :=
  if b then [{| fd_code := code; fd_conflicts := conflicts; fd_boundary_start := boundary_start;
                fd_boundary_end := boundary_end; fd_message := message |}]
  else [].

(** [if let Some(q) = &option && q.strength.is_hard()] *)
Definition hard_of {A} (o : option (Qualified A)) : option A :=
  q ← o; if is_hard (q_strength q) then Some (q_value q) else None.

Definition source_interval (source : PreviousBlock) : Interval :=
  {| iv_start := pb_start source; iv_end := pb_end source |}.

Definition manual_block_matches (block : ScheduleBlock) (item_id : ItemId) (source : PreviousBlock) : bool :=
  bool_decide (sb_kind block = Pinned) && bool_decide (sb_item_id block = Some item_id) &&
  (sb_session_index block =? pb_session_index source)%N &&
  odt_eqb (sb_start block) (pb_start source) && odt_eqb (sb_end block) (pb_end source).

Definition containing_availability (request : PlanRequest) (interval : Interval) : list AvailabilityWindow :=
  filter (λ a, contains (availability_interval a) interval = true) (availability request).

Section checks.
Context `{Platform}.

Definition availability_findings (request : PlanRequest) (interval : Interval) : list Finding :=
  report (bool_decide (containing_availability request interval = [])) ManualPlacementViolationCode.OutsideAvailability
    [] None None "Manual placement is outside configured availability.".

Definition notice_findings (request : PlanRequest) (item : WorkItem) (interval : Interval)
    : result ScheduleError (list Finding) :=
  match hard_of (minimum_notice (wi_constraints item)) with
  | None => Ok []
  | Some notice =>
      let? required := ok_or (odt_checked_add (as_of request) (duration_minutes notice))
                         (invalid_item (wi_id item) "minimum notice exceeds the supported timestamp range") in
      Ok (report (odt_ltb (iv_start interval) required) ManualPlacementViolationCode.MinimumNotice [] (Some required) None
            "Manual placement compresses a hard minimum-notice boundary.")
  end.

Definition time_findings (request : PlanRequest) (item : WorkItem) (interval : Interval)
    : result ScheduleError (list Finding) :=
  let constraints := wi_constraints item in
  let early :=
    match hard_of (earliest_start constraints) with
    | Some boundary =>
        report (odt_ltb (iv_start interval) boundary) ManualPlacementViolationCode.EarliestStart [] (Some boundary) None
          "Manual placement starts before a hard earliest-start boundary."
    | None => []
    end in
  let late :=
    match hard_of (latest_finish constraints) with
    | Some boundary =>
        report (odt_ltb boundary (iv_end interval)) ManualPlacementViolationCode.LatestFinish [] None (Some boundary)
          "Manual placement ends after a hard latest-finish boundary."
    | None => []
    end in
  let? notice := notice_findings request item interval in
  let weekday :=
    match hard_of (allowed_weekdays constraints) with
    | Some weekdays =>
        report (negb (bool_decide (from_time (odt_weekday (iv_start interval)) ∈ weekdays)))
          ManualPlacementViolationCode.AllowedWeekday [] None None "Manual placement is on a disallowed weekday."
    | None => []
    end in
  Ok (early ++ late ++ notice ++ weekday).

Definition window_findings (constraints : SchedulingConstraints) (interval : Interval) : list Finding :=
  let hard_absolute := hard_windows (preferred_absolute_windows constraints) in
  report (negb (hard_group_ok (daily_matches interval) (preferred_daily_windows constraints)))
    ManualPlacementViolationCode.PreferredDailyWindow [] None None
    "Manual placement is outside every allowed daily window." ++
  report (negb (hard_group_ok (absolute_matches interval) (preferred_absolute_windows constraints)))
    ManualPlacementViolationCode.PreferredAbsoluteWindow []
    (min_by odt_cmp ((λ w, aw_start (q_value w)) <$> hard_absolute))
    (max_by odt_cmp ((λ w, aw_end (q_value w)) <$> hard_absolute))
    "Manual placement is outside every allowed absolute window." ++
  (hard_windows (forbidden_windows constraints) ≫= λ forbidden,
     report (overlaps interval (window_interval (q_value forbidden))) ManualPlacementViolationCode.ForbiddenWindow []
       (Some (aw_start (q_value forbidden))) (Some (aw_end (q_value forbidden)))
       "Manual placement overlaps a hard forbidden window.").

(** The capabilities one availability window offers. *)
Definition has_context (context : string) (a : AvailabilityWindow) : bool := bool_decide (context ∈ av_contexts a).
Definition has_location (location : string) (a : AvailabilityWindow) : bool := bool_decide (av_location a = Some location).
Definition has_energy (energy : EnergyLevel) (a : AvailabilityWindow) : bool := energy_satisfies (av_energy a) energy.

Definition hard_contexts (item : WorkItem) : list string :=
  q_value <$> hard_windows (required_contexts (wi_constraints item)).

(** [Option::is_none_or] *)
Definition is_none_or {A} (f : A → bool) (o : option A) : bool := match o with Some a => f a | None => true end.

Definition fully_capable (item : WorkItem) (a : AvailabilityWindow) : bool :=
  forallb (λ context, has_context context a) (hard_contexts item) &&
  is_none_or (λ location, has_location location a) (hard_of (required_location (wi_constraints item))) &&
  is_none_or (λ energy, has_energy energy a) (hard_of (wi_energy item)).

Definition has_hard_capabilities (item : WorkItem) : bool :=
  negb (bool_decide (hard_contexts item = [])) ||
  bool_decide (is_Some (hard_of (required_location (wi_constraints item)))) ||
  bool_decide (is_Some (hard_of (wi_energy item))).

Definition resource_findings (item : WorkItem) (containing : list AvailabilityWindow) : list Finding :=
  (hard_contexts item ≫= λ context,
     report (negb (existsb (has_context context) containing)) ManualPlacementViolationCode.RequiredContext [] None None
       "Manual placement lacks a required context.") ++
  match hard_of (required_location (wi_constraints item)) with
  | Some location =>
      report (negb (existsb (has_location location) containing)) ManualPlacementViolationCode.RequiredLocation [] None None
        "Manual placement lacks the required location."
  | None => []
  end ++
  match hard_of (wi_energy item) with
  | Some energy =>
      report (negb (existsb (has_energy energy) containing)) ManualPlacementViolationCode.Energy [] None None
        "Manual placement exceeds the available energy level."
  | None => []
  end ++
  report (has_hard_capabilities item && negb (existsb (fully_capable item) containing))
    ManualPlacementViolationCode.RequiredCapabilities [] None None
    "No single availability window satisfies every required work capability.".

(** A dependency this block does not decide: another block of the item is the
    one that starts, or finishes, it. *)
Definition dependency_decided_elsewhere (plan : SchedulePlan) (item_id : ItemId) (interval : Interval)
    (dependency : Dependency) : bool :=
  let own := item_blocks (sp_blocks plan) item_id in
  if dependency_uses_successor_finish (dep_relation dependency) then
    match last_finish own with Some finish => negb (odt_eqb (iv_end interval) finish) | None => false end
  else
    match first_start own with Some start => negb (odt_eqb (iv_start interval) start) | None => false end.

Definition dependency_satisfied (plan : SchedulePlan) (all_items : gmap ItemId WorkItem) (item_id : ItemId)
    (interval : Interval) (dependency : Dependency) : result ScheduleError bool :=
  let predecessor := all_items !! dep_item_id dependency in
  let finish_unavailable :=
    has_remaining_work (sp_unscheduled plan) (dep_item_id dependency) &&
    negb (dependency_uses_predecessor_start (dep_relation dependency)) in
  if finish_unavailable || is_unavailable predecessor then Ok false
  else
    match dependency_predecessor_bounds predecessor (item_blocks (sp_blocks plan) (dep_item_id dependency)) with
    | Some (predecessor_start, predecessor_end) =>
        let? (observed, required) :=
          ok_or (dependency_boundary dependency interval predecessor_start predecessor_end)
            (invalid_item item_id "dependency lag exceeds the supported timestamp range") in
        Ok (odt_leb required observed)
    | None => Ok false
    end.

Definition dependency_finding (plan : SchedulePlan) (all_items : gmap ItemId WorkItem) (item_id : ItemId)
    (interval : Interval) (dependency : Dependency) : result ScheduleError (list Finding) :=
  if dependency_decided_elsewhere plan item_id interval dependency || predecessor_completed all_items dependency
  then Ok []
  else
    let? satisfied := dependency_satisfied plan all_items item_id interval dependency in
    Ok (report (negb satisfied) ManualPlacementViolationCode.Dependency
          (item_blocks (sp_blocks plan) (dep_item_id dependency)) None None
          "Manual placement violates a hard dependency.").

Definition dependency_findings (plan : SchedulePlan) (all_items : gmap ItemId WorkItem) (deps : list Dependency)
    (item_id : ItemId) (interval : Interval) : result ScheduleError (list Finding) :=
  foldM (λ found dependency,
    let? more := dependency_finding plan all_items item_id interval dependency in Ok (found ++ more))
    [] (filter (λ dependency, is_hard (dep_strength dependency) = true) deps).

Definition total_minutes (relevant : list ScheduleBlock) : N :=
  foldl (λ total block, saturating_add u32_max total (minutes (block_interval block))) 0%N relevant.

Definition limit_findings (plan : SchedulePlan) (item : WorkItem) (interval : Interval) : list Finding :=
  let own := item_blocks (sp_blocks plan) (wi_id item) in
  let daily := same_day_blocks own interval in
  let weekly := same_week_blocks own interval in
  match hard_of (maximum_daily_work (wi_constraints item)) with
  | Some limit =>
      report (limit <? total_minutes daily)%N ManualPlacementViolationCode.MaximumDailyWork daily None None
        "Manual placement exceeds a hard daily work limit."
  | None => []
  end ++
  match hard_of (maximum_weekly_work (wi_constraints item)) with
  | Some limit =>
      report (limit <? total_minutes weekly)%N ManualPlacementViolationCode.MaximumWeeklyWork weekly None None
        "Manual placement exceeds a hard weekly work limit."
  | None => []
  end.

Definition buffer_findings (request : PlanRequest) (plan : SchedulePlan) (item : WorkItem) (source : PreviousBlock)
    : result ScheduleError (list Finding) :=
  let policy := buffers (wi_constraints item) in
  match bp_strength policy with
  | Some strength =>
      if is_hard strength then
        let? expanded := ok_or (checked_buffered_interval (source_interval source) (bp_before policy) (bp_after policy))
                           (invalid_item (wi_id item) "buffers exceed the supported timestamp range") in
        let conflicting :=
          filter (λ block, manual_block_matches block (wi_id item) source = false ∧
                           overlaps expanded (block_interval block) = true) (sp_blocks plan) in
        let fits := existsb (λ a, contains (availability_interval a) expanded) (availability request) in
        Ok (report (negb fits || negb (bool_decide (conflicting = []))) ManualPlacementViolationCode.BufferCompressed
              conflicting (Some (iv_start expanded)) (Some (iv_end expanded))
              "Manual placement compresses a hard preparation or decompression buffer.")
      else Ok []
  | None => Ok []
  end.

Definition is_immutable_kind (kind : ScheduleBlockKind) : bool :=
  match kind with Pinned | CalendarEventBlock | ExternalFixed => true | Planned => false end.

Definition immutable_conflicts (plan : SchedulePlan) (item_id : ItemId) (source : PreviousBlock) : list ScheduleBlock :=
  filter (λ block, is_immutable_kind (sb_kind block) = true ∧ manual_block_matches block item_id source = false ∧
                   overlaps (source_interval source) (block_interval block) = true) (sp_blocks plan).

Definition overlap_findings (plan : SchedulePlan) (item_id : ItemId) (source : PreviousBlock) : list Finding :=
  let conflicting := immutable_conflicts plan item_id source in
  report (negb (bool_decide (conflicting = []))) ManualPlacementViolationCode.ImmutableOverlap conflicting None None
    "Manual placement overlaps immutable scheduled time.".

(** The body of the loop over the blocks of an assignment: what it pushes. *)
Definition block_findings (request : PlanRequest) (plan : SchedulePlan) (all_items : gmap ItemId WorkItem)
    (deps : list Dependency) (item : WorkItem) (source : PreviousBlock) : result ScheduleError (list Finding) :=
  let interval := source_interval source in
  let? times := time_findings request item interval in
  let? dependency := dependency_findings plan all_items deps (wi_id item) interval in
  let? buffer := buffer_findings request plan item source in
  Ok (availability_findings request interval ++ times ++
      window_findings (wi_constraints item) interval ++
      resource_findings item (containing_availability request interval) ++
      dependency ++ limit_findings plan item interval ++ buffer ++
      overlap_findings plan (wi_id item) source).
End checks.

(** ** Collecting the evidence *)

Record Assessor : Type := {
  as_assessments : gmap Uuid (list ManualPlacementViolation);
  as_violation_count : nat;
  as_conflict_fact_count : nat;
  as_overflow_item_id : option ItemId
}.

Definition manual_placement_conflict (block : ScheduleBlock) : ManualPlacementConflict :=
  {| mpc_block_id := sb_id block; mpc_item_id := sb_item_id block; mpc_occurrence_id := sb_occurrence_id block;
     mpc_external_block_id := sb_external_block_id block; mpc_kind := sb_kind block;
     mpc_start := sb_start block; mpc_end := sb_end block |}.

Definition conflict_cmp (a b : ManualPlacementConflict) : comparison :=
  then_with (odt_cmp (mpc_start a) (mpc_start b))
    (then_with (odt_cmp (mpc_end a) (mpc_end b)) (mpc_block_id a ?= mpc_block_id b)%N).

Definition conflict_leb (a b : ManualPlacementConflict) : bool := is_le (conflict_cmp a b).

(** The derived equality; instants are equal whatever their offset. *)
Definition same_conflict (a b : ManualPlacementConflict) : bool :=
  (mpc_block_id a =? mpc_block_id b)%N && bool_decide (mpc_item_id a = mpc_item_id b) &&
  bool_decide (mpc_occurrence_id a = mpc_occurrence_id b) &&
  bool_decide (mpc_external_block_id a = mpc_external_block_id b) &&
  bool_decide (mpc_kind a = mpc_kind b) && odt_eqb (mpc_start a) (mpc_start b) && odt_eqb (mpc_end a) (mpc_end b).

Definition sort_conflicts (l : list ManualPlacementConflict) : list ManualPlacementConflict :=
  dedup_by same_conflict (sort_by conflict_leb l).

(** The violation [push] records for a finding. *)
Definition violation_of (item_id : ItemId) (occurrence_ids : list OccurrenceId) (interval : Interval) (f : Finding)
    : ManualPlacementViolation :=
  let conflicting_blocks := sort_conflicts (manual_placement_conflict <$> fd_conflicts f) in
  {| mpv_code := fd_code f; mpv_item_ids := [item_id]; mpv_occurrence_ids := occurrence_ids;
     mpv_conflicting_block_ids := mpc_block_id <$> conflicting_blocks; mpv_conflicting_blocks := conflicting_blocks;
     mpv_start := iv_start interval; mpv_end := iv_end interval; mpv_boundary_start := fd_boundary_start f;
     mpv_boundary_end := fd_boundary_end f; mpv_message := fd_message f |}.

Definition exceeds_evidence_limit (acc : Assessor) (conflicts : nat) : bool :=
  bool_decide (is_Some (as_overflow_item_id acc)) || (MAX_MANUAL_ASSESSMENT_VIOLATIONS <=? as_violation_count acc) ||
  (MAX_MANUAL_ASSESSMENT_CONFLICT_FACTS <? as_conflict_fact_count acc + conflicts).

(** The closure [push]. *)
Definition push (placement_id : Uuid) (item_id : ItemId) (occurrence_ids : list OccurrenceId) (interval : Interval)
    (acc : Assessor) (f : Finding) : Assessor :=
  if exceeds_evidence_limit acc (length (fd_conflicts f)) then
    {| as_assessments := as_assessments acc; as_violation_count := as_violation_count acc;
       as_conflict_fact_count := as_conflict_fact_count acc; as_overflow_item_id := Some item_id |}
  else
    {| as_assessments := push_entry (as_assessments acc) placement_id (violation_of item_id occurrence_ids interval f);
       as_violation_count := S (as_violation_count acc);
       as_conflict_fact_count := as_conflict_fact_count acc + length (fd_conflicts f);
       as_overflow_item_id := None |}.

(** [assessments.entry(placement_id).or_default()] *)
Definition open_entry (placement_id : Uuid) (acc : Assessor) : Assessor :=
  {| as_assessments := <[placement_id := default [] (as_assessments acc !! placement_id)]> (as_assessments acc);
     as_violation_count := as_violation_count acc; as_conflict_fact_count := as_conflict_fact_count acc;
     as_overflow_item_id := as_overflow_item_id acc |}.

Definition option_list {A} (o : option A) : list A := match o with Some a => [a] | None => [] end.

Section assess.
Context `{Platform}.

Definition assess_source_block (request : PlanRequest) (plan : SchedulePlan) (all_items : gmap ItemId WorkItem)
    (deps : list Dependency) (item : WorkItem) (placement_id : Uuid) (occurrence_id : option OccurrenceId)
    (acc : Assessor) (source : PreviousBlock) : result ScheduleError Assessor :=
  if bool_decide (is_Some (as_overflow_item_id acc)) then Ok acc
  else
    let? found := block_findings request plan all_items deps item source in
    Ok (foldl (push placement_id (wi_id item) (option_list occurrence_id) (source_interval source)) acc found).

Definition assess_target (request : PlanRequest) (plan : SchedulePlan) (all_items : gmap ItemId WorkItem)
    (dependencies : gmap ItemId (list Dependency)) (acc : Assessor) (target : Uuid * PreviousAssignment)
    : result ScheduleError Assessor :=
  let '(placement_id, assignment) := target in
  let acc := open_entry placement_id acc in
  match all_items !! pa_item_id assignment with
  | None => Ok acc
  | Some item =>
      let deps := default [] (dependencies !! wi_id item) in
      foldM (assess_source_block request plan all_items deps item placement_id (pa_occurrence_id assignment))
        acc (pa_blocks assignment)
  end.

(** The pinned assignments with a manual placement identifier. *)
Definition manual_targets (assignments : list PreviousAssignment) : list (Uuid * PreviousAssignment) :=
  omap (λ assignment,
    id ← pa_manual_placement_id assignment; if pa_pinned assignment then Some (id, assignment) else None) assignments.
End assess.

(** ** The environment digest *)

Record ItemEnvironment : Type := {
  ie_id : ItemId;
  ie_revision : N;
  ie_kind : ItemKind;
  ie_status : WorkStatus;
  ie_parent_id : option ItemId;
  ie_sibling_order : option N;
  ie_has_own_effort : bool;
  ie_has_children_outside_plan : bool;
  ie_duration : option DurationEstimate;
  ie_constraints : SchedulingConstraints;
  ie_split_policy : SplitPolicy;
  ie_energy : option (Qualified EnergyLevel)
}.

Record Environment : Type := {
  en_schema : string;
  en_items : list ItemEnvironment;
  en_availability : list AvailabilityWindow
}.

(** [serde_json::to_vec] of an environment and [Sha256]. *)
Class Encoding : Type := {
  json_environment : Environment → list N;
  sha256 : list N → list N
}.

Definition item_environment (item : WorkItem) : ItemEnvironment :=
  {| ie_id := wi_id item; ie_revision := wi_revision item; ie_kind := wi_kind item; ie_status := wi_status item;
     ie_parent_id := wi_parent_id item; ie_sibling_order := wi_sibling_order item;
     ie_has_own_effort := wi_has_own_effort item; ie_has_children_outside_plan := wi_has_children_outside_plan item;
     ie_duration := wi_duration item; ie_constraints := wi_constraints item; ie_split_policy := wi_split_policy item;
     ie_energy := wi_energy item |}.

Definition planning_environment (request : PlanRequest) : Environment :=
  {| en_schema := "dayweave-manual-placement-environment-base/2";
     en_items := sort_by (λ a b, ie_id a <=? ie_id b)%N (item_environment <$> items request);
     en_availability := availability request |}.

Section digest.
Context `{Encoding}.

Definition manual_placement_environment_base_digest (request : PlanRequest) : list N :=
  sha256 (json_environment (planning_environment request)).

Definition manual_placement_environment_digest (placement_id : Uuid) (environment_base_digest : list N) : list N :=
  sha256 (bytes_of "dayweave-manual-placement-environment/2" ++ [0%N] ++ environment_base_digest ++
          be_bytes 16 (Z.of_N placement_id)).

(** ** The finished assessments *)

Definition code_rank (code : ManualPlacementViolationCode) : N :=
  match code with
  | ManualPlacementViolationCode.OutsideAvailability => 0 | ManualPlacementViolationCode.EarliestStart => 1
  | ManualPlacementViolationCode.LatestFinish => 2 | ManualPlacementViolationCode.MinimumNotice => 3
  | ManualPlacementViolationCode.AllowedWeekday => 4 | ManualPlacementViolationCode.PreferredDailyWindow => 5
  | ManualPlacementViolationCode.PreferredAbsoluteWindow => 6 | ManualPlacementViolationCode.ForbiddenWindow => 7
  | ManualPlacementViolationCode.RequiredContext => 8 | ManualPlacementViolationCode.RequiredLocation => 9
  | ManualPlacementViolationCode.RequiredCapabilities => 10 | ManualPlacementViolationCode.Energy => 11
  | ManualPlacementViolationCode.Dependency => 12 | ManualPlacementViolationCode.MaximumDailyWork => 13
  | ManualPlacementViolationCode.MaximumWeeklyWork => 14 | ManualPlacementViolationCode.BufferCompressed => 15
  | ManualPlacementViolationCode.ImmutableOverlap => 16
  end%N.

Definition manual_violation_cmp (a b : ManualPlacementViolation) : comparison :=
  then_with (odt_cmp (mpv_start a) (mpv_start b))
    (then_with (odt_cmp (mpv_end a) (mpv_end b))
      (then_with (code_rank (mpv_code a) ?= code_rank (mpv_code b))%N
        (then_with (cmp_list N.compare (mpv_item_ids a) (mpv_item_ids b))
           (cmp_list N.compare (mpv_conflicting_block_ids a) (mpv_conflicting_block_ids b))))).

Definition option_odt_eqb (a b : option OffsetDateTime) : bool :=
  match a, b with Some a, Some b => odt_eqb a b | None, None => true | _, _ => false end.

Fixpoint all_same {A} (same : A → A → bool) (a b : list A) : bool :=
  match a, b with
  | [], [] => true
  | x :: a', y :: b' => same x y && all_same same a' b'
  | _, _ => false
  end.

(** The derived equality of [ManualPlacementViolation]. *)
Definition same_violation (a b : ManualPlacementViolation) : bool :=
  bool_decide (mpv_code a = mpv_code b) && bool_decide (mpv_item_ids a = mpv_item_ids b) &&
  bool_decide (mpv_occurrence_ids a = mpv_occurrence_ids b) &&
  bool_decide (mpv_conflicting_block_ids a = mpv_conflicting_block_ids b) &&
  all_same same_conflict (mpv_conflicting_blocks a) (mpv_conflicting_blocks b) &&
  odt_eqb (mpv_start a) (mpv_start b) && odt_eqb (mpv_end a) (mpv_end b) &&
  option_odt_eqb (mpv_boundary_start a) (mpv_boundary_start b) &&
  option_odt_eqb (mpv_boundary_end a) (mpv_boundary_end b) && bool_decide (mpv_message a = mpv_message b).

Definition normalize_violation (v : ManualPlacementViolation) : ManualPlacementViolation :=
  {| mpv_code := mpv_code v; mpv_item_ids := mpv_item_ids v; mpv_occurrence_ids := mpv_occurrence_ids v;
     mpv_conflicting_block_ids := sort_dedup_N (mpv_conflicting_block_ids v);
     mpv_conflicting_blocks := sort_conflicts (mpv_conflicting_blocks v); mpv_start := mpv_start v;
     mpv_end := mpv_end v; mpv_boundary_start := mpv_boundary_start v; mpv_boundary_end := mpv_boundary_end v;
     mpv_message := mpv_message v |}.

Definition finish_violations (l : list ManualPlacementViolation) : list ManualPlacementViolation :=
  dedup_by same_violation (sort_by (λ a b, is_le (manual_violation_cmp a b)) (normalize_violation <$> l)).

Definition finish_assessment (base : list N) (p : Uuid * list ManualPlacementViolation) : ManualPlacementAssessment :=
  {| mpa_placement_id := p.1; mpa_environment_digest := manual_placement_environment_digest p.1 base;
     mpa_violations := finish_violations p.2 |}.

Definition finish_assessments (request : PlanRequest) (assessments : gmap Uuid (list ManualPlacementViolation))
    : list ManualPlacementAssessment :=
  finish_assessment (manual_placement_environment_base_digest request) <$> entries assessments.

Definition assess_manual_placement_targets `{Platform} (request : PlanRequest) (plan : SchedulePlan)
    (additional_targets : list PreviousAssignment) : result ScheduleError (list ManualPlacementAssessment) :=
  let all_items := collect_by_id (items request) in
  let dependencies := dependencies_with_routine_order (items request) (child_map (items request)) in
  let? acc :=
    foldM (assess_target request plan all_items dependencies)
      {| as_assessments := ∅; as_violation_count := 0; as_conflict_fact_count := 0; as_overflow_item_id := None |}
      (manual_targets (previous_assignments request ++ additional_targets)) in
  match as_overflow_item_id acc with
  | Some item_id => Err (invalid_item item_id "manual placement assessment exceeds the supported evidence limit")
  | None => Ok (finish_assessments request (as_assessments acc))
  end.

Definition assess_manual_placements `{Platform} (request : PlanRequest) (plan : SchedulePlan)
    : result ScheduleError (list ManualPlacementAssessment) :=
  assess_manual_placement_targets request plan [].
End digest.

(** ** Specification: the rules a manual block can break *)

(** An availability window that holds the whole block. *)
Definition serves (request : PlanRequest) (i : Interval) (a : AvailabilityWindow) : Prop :=
  a ∈ availability request ∧ contains (availability_interval a) i = true.

(** The constraint is present and hard. *)
Definition hard_value {A} (o : option (Qualified A)) (v : A) : Prop :=
  ∃ q, o = Some q ∧ is_hard (q_strength q) = true ∧ q_value q = v.

(** Some hard capability is required at all. *)
Definition needs_capability (item : WorkItem) : Prop :=
  (∃ q, q ∈ required_contexts (wi_constraints item) ∧ is_hard (q_strength q) = true) ∨
  (∃ l, hard_value (required_location (wi_constraints item)) l) ∨ (∃ e, hard_value (wi_energy item) e).

(** The predecessor leaves room: it is not given up, and its bounds in the
    plan satisfy the relation with its lag. *)
Definition predecessor_leaves_room `{Platform} (plan : SchedulePlan) (all_items : gmap ItemId WorkItem) (i : Interval)
    (d : Dependency) : Prop :=
  is_unavailable (all_items !! dep_item_id d) = false ∧
  (has_remaining_work (sp_unscheduled plan) (dep_item_id d) = true → dependency_uses_predecessor_start (dep_relation d) = true) ∧
  ∃ s e, dependency_predecessor_bounds (all_items !! dep_item_id d) (item_blocks (sp_blocks plan) (dep_item_id d)) = Some (s, e) ∧
    boundary_satisfied (dependency_boundary d i s e) = true.

(** The block whose time a dependency is measured at is the item's first to
    start, or its last to finish when the relation constrains the finish. *)
Definition decides_dependency (plan : SchedulePlan) (id : ItemId) (i : Interval) (d : Dependency) : Prop :=
  let own := item_blocks (sp_blocks plan) id in
  own = [] ∨
  if dependency_uses_successor_finish (dep_relation d)
  then (∃ b, b ∈ own ∧ (sb_end b : Z) = iv_end i) ∧ ∀ b, b ∈ own → (sb_end b <= iv_end i)%Z
  else (∃ b, b ∈ own ∧ (sb_start b : Z) = iv_start i) ∧ ∀ b, b ∈ own → (iv_start i <= sb_start b)%Z.

Definition breaks_rule `{Platform} (request : PlanRequest) (plan : SchedulePlan) (all_items : gmap ItemId WorkItem)
    (deps : list Dependency) (item : WorkItem) (source : PreviousBlock) (code : ManualPlacementViolationCode) : Prop :=
  let c := wi_constraints item in
  let i := source_interval source in
  let own := item_blocks (sp_blocks plan) (wi_id item) in
  match code with
  | ManualPlacementViolationCode.OutsideAvailability => ¬ ∃ a, serves request i a
  | ManualPlacementViolationCode.EarliestStart => ∃ t, hard_value (earliest_start c) t ∧ (iv_start i < t)%Z
  | ManualPlacementViolationCode.LatestFinish => ∃ t, hard_value (latest_finish c) t ∧ (t < iv_end i)%Z
  | ManualPlacementViolationCode.MinimumNotice =>
      ∃ m t, hard_value (minimum_notice c) m ∧ odt_checked_add (as_of request) (duration_minutes m) = Some t ∧ (iv_start i < t)%Z
  | ManualPlacementViolationCode.AllowedWeekday =>
      ∃ days, hard_value (allowed_weekdays c) days ∧ from_time (odt_weekday (iv_start i)) ∉ days
  | ManualPlacementViolationCode.PreferredDailyWindow => ¬ meets_group (daily_matches i) (preferred_daily_windows c)
  | ManualPlacementViolationCode.PreferredAbsoluteWindow => ¬ meets_group (absolute_matches i) (preferred_absolute_windows c)
  | ManualPlacementViolationCode.ForbiddenWindow =>
      ∃ q, q ∈ forbidden_windows c ∧ is_hard (q_strength q) = true ∧ overlaps i (window_interval (q_value q)) = true
  | ManualPlacementViolationCode.RequiredContext =>
      ∃ q, q ∈ required_contexts c ∧ is_hard (q_strength q) = true ∧ ¬ ∃ a, serves request i a ∧ q_value q ∈ av_contexts a
  | ManualPlacementViolationCode.RequiredLocation =>
      ∃ l, hard_value (required_location c) l ∧ ¬ ∃ a, serves request i a ∧ av_location a = Some l
  | ManualPlacementViolationCode.Energy =>
      ∃ e, hard_value (wi_energy item) e ∧ ¬ ∃ a, serves request i a ∧ (rank e <= rank (av_energy a))%N
  | ManualPlacementViolationCode.RequiredCapabilities =>
      needs_capability item ∧ ¬ ∃ a, serves request i a ∧ meets_resources item a
  | ManualPlacementViolationCode.Dependency =>
      ∃ d, d ∈ deps ∧ is_hard (dep_strength d) = true ∧ decides_dependency plan (wi_id item) i d ∧
        predecessor_completed all_items d = false ∧ ¬ predecessor_leaves_room plan all_items i d
  | ManualPlacementViolationCode.MaximumDailyWork =>
      ∃ m, hard_value (maximum_daily_work c) m ∧ (m < total_minutes (same_day_blocks own i))%N
  | ManualPlacementViolationCode.MaximumWeeklyWork =>
      ∃ m, hard_value (maximum_weekly_work c) m ∧ (m < total_minutes (same_week_blocks own i))%N
  | ManualPlacementViolationCode.BufferCompressed =>
      ∃ strength e, bp_strength (buffers c) = Some strength ∧ is_hard strength = true ∧
        checked_buffered_interval i (bp_before (buffers c)) (bp_after (buffers c)) = Some e ∧
        ((¬ ∃ a, serves request e a) ∨
         ∃ b, b ∈ sp_blocks plan ∧ manual_block_matches b (wi_id item) source = false ∧ overlaps e (block_interval b) = true)
  | ManualPlacementViolationCode.ImmutableOverlap =>
      ∃ b, b ∈ sp_blocks plan ∧ sb_kind b ≠ Planned ∧ manual_block_matches b (wi_id item) source = false ∧
        overlaps i (block_interval b) = true
  end.

(** ** Lemmas: the codes of the findings *)

Definition codes (l : list Finding) : list ManualPlacementViolationCode := fd_code <$> l.

Lemma codes_app l1 l2 code : code ∈ codes (l1 ++ l2) ↔ code ∈ codes l1 ∨ code ∈ codes l2.
Proof. unfold codes. by rewrite fmap_app, elem_of_app. Qed.

Lemma codes_nil code : code ∈ codes [] ↔ False.
Proof. split; [apply not_elem_of_nil|done]. Qed.

Lemma codes_report b c x y z m code : code ∈ codes (report b c x y z m) ↔ b = true ∧ code = c.
Proof. unfold report. destruct b; simpl; [rewrite list_elem_of_singleton|rewrite codes_nil]; naive_solver. Qed.

Lemma codes_bind {A} (l : list A) f code : code ∈ codes (l ≫= f) ↔ ∃ a, a ∈ l ∧ code ∈ codes (f a).
Proof.
  unfold codes. rewrite list_elem_of_fmap. setoid_rewrite list_elem_of_bind. setoid_rewrite list_elem_of_fmap. naive_solver.
Qed.

Lemma hard_of_Some {A} (o : option (Qualified A)) v : hard_of o = Some v ↔ hard_value o v.
Proof.
  unfold hard_of, hard_value. destruct o as [q|]; simpl; [|by split; [|intros (? & [=] & _)]].
  destruct (is_hard (q_strength q)) eqn:E; split.
  - intros [= <-]. by exists q.
  - by intros (? & [= <-] & _ & ->).
  - done.
  - intros (? & [= <-] & ? & _). congruence.
Qed.

Lemma codes_hard {A} (o : option (Qualified A)) f code :
  code ∈ codes (match hard_of o with Some v => f v | None => [] end) ↔ ∃ v, hard_value o v ∧ code ∈ codes (f v).
Proof.
  setoid_rewrite <- hard_of_Some. destruct (hard_of o); [|rewrite codes_nil]; naive_solver.
Qed.

Lemma elem_of_hard_windows {A} (l : list (Qualified A)) q : q ∈ hard_windows l ↔ q ∈ l ∧ is_hard (q_strength q) = true.
Proof. unfold hard_windows. rewrite list_elem_of_filter. tauto. Qed.

Lemma elem_of_containing request i a : a ∈ containing_availability request i ↔ serves request i a.
Proof. unfold containing_availability, serves. rewrite list_elem_of_filter. tauto. Qed.

Lemma existsb_elem {A} (f : A → bool) l : existsb f l = true ↔ ∃ a, a ∈ l ∧ f a = true.
Proof. rewrite existsb_exists. by setoid_rewrite list_elem_of_In. Qed.

Lemma negb_existsb {A} (f : A → bool) l : negb (existsb f l) = true ↔ ¬ ∃ a, a ∈ l ∧ f a = true.
Proof. by rewrite negb_true_iff, <- not_true_iff_false, existsb_elem. Qed.

Lemma is_nil_iff {A} (l : list A) : bool_decide (l = []) = true ↔ ¬ ∃ a, a ∈ l.
Proof.
  rewrite bool_decide_eq_true. split; [intros -> (? & Ha); by apply not_elem_of_nil in Ha|].
  intros Hl. apply elem_of_nil_inv. naive_solver.
Qed.

Section exact.
Context `{Platform}.

Lemma meets_group_not {A} (matches : Qualified A → bool) windows :
  negb (hard_group_ok matches windows) = true ↔ ¬ meets_group matches windows.
Proof. by rewrite negb_true_iff, <- not_true_iff_false, meets_group_iff. Qed.

Lemma availability_codes request i code :
  code ∈ codes (availability_findings request i) ↔
  code = ManualPlacementViolationCode.OutsideAvailability ∧ ¬ ∃ a, serves request i a.
Proof.
  unfold availability_findings. rewrite codes_report, bool_decide_eq_true.
  setoid_rewrite <- elem_of_containing. split.
  - intros [-> ->]. split; [done|]. intros (a & Ha). by apply not_elem_of_nil in Ha.
  - intros [-> Ha]. split; [|done]. apply elem_of_nil_inv. naive_solver.
Qed.

Lemma time_codes request item i found code :
  time_findings request item i = Ok found →
  code ∈ codes found ↔
  let c := wi_constraints item in
  code = ManualPlacementViolationCode.EarliestStart ∧ (∃ t, hard_value (earliest_start c) t ∧ (iv_start i < t)%Z) ∨
  code = ManualPlacementViolationCode.LatestFinish ∧ (∃ t, hard_value (latest_finish c) t ∧ (t < iv_end i)%Z) ∨
  code = ManualPlacementViolationCode.MinimumNotice ∧ (∃ m t, hard_value (minimum_notice c) m ∧
    odt_checked_add (as_of request) (duration_minutes m) = Some t ∧ (iv_start i < t)%Z) ∨
  code = ManualPlacementViolationCode.AllowedWeekday ∧
    (∃ days, hard_value (allowed_weekdays c) days ∧ from_time (odt_weekday (iv_start i)) ∉ days).
Proof.
  unfold time_findings. intros (notice & Hn & [= <-])%rbind_ok. rewrite !codes_app, !codes_hard. cbv zeta.
  assert (code ∈ codes notice ↔ code = ManualPlacementViolationCode.MinimumNotice ∧ (∃ m t,
    hard_value (minimum_notice (wi_constraints item)) m ∧
    odt_checked_add (as_of request) (duration_minutes m) = Some t ∧ (iv_start i < t)%Z)) as ->.
  { setoid_rewrite <- hard_of_Some. unfold notice_findings in Hn. destruct (hard_of _) as [m|].
    - apply rbind_ok in Hn as (t & Ht%ok_or_ok & [= <-]). rewrite codes_report, odt_ltb_lt. split.
      + intros [? ->]. split; [done|]. by exists m, t.
      + intros (-> & m' & t' & [= <-] & Ht' & ?). rewrite Ht in Ht'. by simplify_eq.
    - simplify_eq. rewrite codes_nil. split; [done|]. by intros (_ & ? & ? & [=] & _). }
  setoid_rewrite codes_report. setoid_rewrite odt_ltb_lt. setoid_rewrite negb_true_iff. setoid_rewrite bool_decide_eq_false.
  naive_solver.
Qed.

Lemma window_codes c i code :
  code ∈ codes (window_findings c i) ↔
  code = ManualPlacementViolationCode.PreferredDailyWindow ∧ ¬ meets_group (daily_matches i) (preferred_daily_windows c) ∨
  code = ManualPlacementViolationCode.PreferredAbsoluteWindow ∧ ¬ meets_group (absolute_matches i) (preferred_absolute_windows c) ∨
  code = ManualPlacementViolationCode.ForbiddenWindow ∧
    ∃ q, q ∈ forbidden_windows c ∧ is_hard (q_strength q) = true ∧ overlaps i (window_interval (q_value q)) = true.
Proof.
  unfold window_findings. rewrite !codes_app, !codes_report, !meets_group_not, codes_bind.
  setoid_rewrite codes_report. setoid_rewrite elem_of_hard_windows. naive_solver.
Qed.

Lemma fully_capable_iff item a : fully_capable item a = true ↔ meets_resources item a.
Proof.
  unfold fully_capable, meets_resources, demands. rewrite !andb_true_iff, forallb_forall.
  unfold hard_contexts, has_context, has_location, has_energy, energy_satisfies. setoid_rewrite <- list_elem_of_In.
  setoid_rewrite list_elem_of_fmap. setoid_rewrite elem_of_hard_windows. setoid_rewrite bool_decide_eq_true.
  assert (∀ A (f : A → bool) o, is_none_or f (hard_of o) = true ↔ ∀ v, hard_value o v → f v = true) as Hnone.
  { intros A f o. setoid_rewrite <- hard_of_Some. destruct (hard_of o); simpl; naive_solver. }
  rewrite !Hnone. unfold hard_value. setoid_rewrite bool_decide_eq_true. setoid_rewrite N.leb_le. naive_solver.
Qed.

Lemma has_hard_capabilities_iff item : has_hard_capabilities item = true ↔ needs_capability item.
Proof.
  unfold has_hard_capabilities, needs_capability. rewrite !orb_true_iff, !bool_decide_eq_true, negb_true_iff, bool_decide_eq_false.
  setoid_rewrite <- hard_of_Some. unfold hard_contexts.
  assert (∀ A B (f : A → B) l, f <$> l = [] ↔ l = []) as -> by (intros ? ? ? []; split; done).
  assert (hard_windows (required_contexts (wi_constraints item)) ≠ [] ↔
    ∃ q, q ∈ required_contexts (wi_constraints item) ∧ is_hard (q_strength q) = true) as ->.
  { setoid_rewrite <- elem_of_hard_windows. destruct (hard_windows _) as [|q l]; [|split; [|done]].
    - split; [done|]. intros (q & Hq). by apply not_elem_of_nil in Hq.
    - intros _. exists q. left. }
  unfold is_Some. tauto.
Qed.

Lemma resource_codes request item i code :
  code ∈ codes (resource_findings item (containing_availability request i)) ↔
  let c := wi_constraints item in
  code = ManualPlacementViolationCode.RequiredContext ∧ (∃ q, q ∈ required_contexts c ∧ is_hard (q_strength q) = true ∧
    ¬ ∃ a, serves request i a ∧ q_value q ∈ av_contexts a) ∨
  code = ManualPlacementViolationCode.RequiredLocation ∧ (∃ l, hard_value (required_location c) l ∧
    ¬ ∃ a, serves request i a ∧ av_location a = Some l) ∨
  code = ManualPlacementViolationCode.Energy ∧ (∃ e, hard_value (wi_energy item) e ∧
    ¬ ∃ a, serves request i a ∧ (rank e <= rank (av_energy a))%N) ∨
  code = ManualPlacementViolationCode.RequiredCapabilities ∧ needs_capability item ∧
    ¬ ∃ a, serves request i a ∧ meets_resources item a.
Proof.
  unfold resource_findings. rewrite !codes_app, !codes_hard, codes_bind, codes_report, andb_true_iff, has_hard_capabilities_iff.
  setoid_rewrite codes_report. setoid_rewrite negb_existsb. setoid_rewrite elem_of_containing.
  setoid_rewrite fully_capable_iff. unfold has_context, has_location, has_energy, energy_satisfies, hard_contexts.
  setoid_rewrite bool_decide_eq_true. setoid_rewrite N.leb_le. setoid_rewrite list_elem_of_fmap.
  setoid_rewrite elem_of_hard_windows. cbv zeta. naive_solver.
Qed.
Lemma dependency_satisfied_iff plan all_items id i d b :
  dependency_satisfied plan all_items id i d = Ok b → b = true ↔ predecessor_leaves_room plan all_items i d.
Proof.
  unfold dependency_satisfied, predecessor_leaves_room, boundary_satisfied.
  destruct (has_remaining_work _ _) eqn:Er, (dependency_uses_predecessor_start _) eqn:Es, (is_unavailable _) eqn:Eu; simpl;
    try (intros [= <-]; split; [done|]; by intros (? & Hw & _); try specialize (Hw eq_refl)).
  all: destruct (dependency_predecessor_bounds _ _) as [[s e]|];
    [|intros [= <-]; split; [done|]; by intros (_ & _ & ? & ? & [=] & _)].
  all: intros ([observed required] & Hb%ok_or_ok & [= <-])%rbind_ok; split;
    [intros Hle; split_and!; try done; by exists s, e; rewrite Hb|].
  all: intros (_ & _ & ? & ? & [= <- <-] & Hs); by rewrite Hb in Hs.
Qed.

Lemma decided_here_iff plan id i d : dependency_decided_elsewhere plan id i d = false ↔ decides_dependency plan id i d.
Proof.
  unfold dependency_decided_elsewhere, decides_dependency. set (own := item_blocks _ _).
  destruct (dependency_uses_successor_finish _).
  - destruct (last_finish own) as [t|] eqn:E; [|split; [|done]; left; by destruct own].
    apply last_finish_spec in E as ((b & Hb & <-) & Hle). rewrite negb_false_iff, odt_eqb_eq. split.
    + intros ->. right. split; [by exists b|done].
    + intros [->|[(b' & Hb' & Heq) Hle']]; [by apply not_elem_of_nil in Hb|]. specialize (Hle _ Hb'). specialize (Hle' _ Hb). lia.
  - destruct (first_start own) as [t|] eqn:E; [|split; [|done]; left; by destruct own].
    apply first_start_spec in E as ((b & Hb & <-) & Hle). rewrite negb_false_iff, odt_eqb_eq. split.
    + intros ->. right. split; [by exists b|done].
    + intros [->|[(b' & Hb' & Heq) Hle']]; [by apply not_elem_of_nil in Hb|]. specialize (Hle _ Hb'). specialize (Hle' _ Hb). lia.
Qed.

Lemma dependency_codes plan all_items deps id i found code :
  dependency_findings plan all_items deps id i = Ok found →
  code ∈ codes found ↔ code = ManualPlacementViolationCode.Dependency ∧
    ∃ d, d ∈ deps ∧ is_hard (dep_strength d) = true ∧ decides_dependency plan id i d ∧
      predecessor_completed all_items d = false ∧ ¬ predecessor_leaves_room plan all_items i d.
Proof.
  unfold dependency_findings. intros Hf.
  assert (code ∈ codes found ↔ ∃ d, d ∈ filter (λ d, is_hard (dep_strength d) = true) deps ∧
    code = ManualPlacementViolationCode.Dependency ∧ decides_dependency plan id i d ∧
    predecessor_completed all_items d = false ∧ ¬ predecessor_leaves_room plan all_items i d) as ->.
  2:{ setoid_rewrite list_elem_of_filter. split; [intros (d & [? ?] & ? & ?)|intros (? & d & ? & ? & ?)]; eauto 10. }
  revert Hf. apply (foldM_inv _ (λ p found, code ∈ codes found ↔ ∃ d, d ∈ p ∧ code = ManualPlacementViolationCode.Dependency ∧
    decides_dependency plan id i d ∧ predecessor_completed all_items d = false ∧
    ¬ predecessor_leaves_room plan all_items i d)).
  - rewrite codes_nil. split; [done|]. intros (? & Hd & _). by apply not_elem_of_nil in Hd.
  - intros p d q t t' _ IH (more & Hmore & [= <-])%rbind_ok. rewrite codes_app, IH.
    assert (code ∈ codes more ↔ code = ManualPlacementViolationCode.Dependency ∧ decides_dependency plan id i d ∧
      predecessor_completed all_items d = false ∧ ¬ predecessor_leaves_room plan all_items i d) as ->.
    { unfold dependency_finding in Hmore. rewrite <- decided_here_iff.
      destruct (dependency_decided_elsewhere _ _ _ _); simpl in Hmore.
      { simplify_eq. rewrite codes_nil. split; [done|]. by intros (_ & [=] & _). }
      destruct (predecessor_completed _ _); [simplify_eq; rewrite codes_nil; split; [done|]; by intros (_ & _ & [=] & _)|].
      apply rbind_ok in Hmore as (b & Hb%dependency_satisfied_iff & [= <-]).
      rewrite codes_report, negb_true_iff, <- not_true_iff_false, Hb. tauto. }
    setoid_rewrite elem_of_app. setoid_rewrite list_elem_of_singleton. split.
    + intros [(d' & ? & ?)|?]; [exists d'|exists d]; tauto.
    + intros (d' & [?| ->] & ?); [left; exists d'|right]; tauto.
Qed.

Lemma limit_codes plan item i code :
  code ∈ codes (limit_findings plan item i) ↔
  let c := wi_constraints item in
  let own := item_blocks (sp_blocks plan) (wi_id item) in
  code = ManualPlacementViolationCode.MaximumDailyWork ∧
    (∃ m, hard_value (maximum_daily_work c) m ∧ (m < total_minutes (same_day_blocks own i))%N) ∨
  code = ManualPlacementViolationCode.MaximumWeeklyWork ∧
    (∃ m, hard_value (maximum_weekly_work c) m ∧ (m < total_minutes (same_week_blocks own i))%N).
Proof.
  unfold limit_findings. cbv zeta. rewrite codes_app, !codes_hard. setoid_rewrite codes_report. setoid_rewrite N.ltb_lt.
  naive_solver.
Qed.

Lemma filter_not_nil {A} (P : A → Prop) `{∀ x, Decision (P x)} l :
  negb (bool_decide (filter P l = [])) = true ↔ ∃ x, x ∈ l ∧ P x.
Proof.
  rewrite negb_true_iff, <- not_true_iff_false, is_nil_iff. setoid_rewrite list_elem_of_filter. split.
  - intros Hn. destruct (decide (Exists P l)) as [He%Exists_exists|He]; [naive_solver|].
    exfalso. apply Hn. intros (x & ? & ?). apply He, Exists_exists. by exists x.
  - intros (x & ? & ?) Hn. apply Hn. by exists x.
Qed.
Lemma buffer_codes request plan item source found code :
  buffer_findings request plan item source = Ok found →
  code ∈ codes found ↔ code = ManualPlacementViolationCode.BufferCompressed ∧
    breaks_rule request plan ∅ [] item source ManualPlacementViolationCode.BufferCompressed.
Proof.
  unfold buffer_findings. simpl. destruct (bp_strength _) as [strength|].
  2:{ intros [= <-]. rewrite codes_nil. split; [done|]. by intros (_ & ? & ? & [=] & _). }
  destruct (is_hard strength) eqn:Eh.
  2:{ intros [= <-]. rewrite codes_nil. split; [done|]. intros (_ & ? & ? & [= <-] & ? & _). congruence. }
  intros (e & He%ok_or_ok & [= <-])%rbind_ok. rewrite codes_report, orb_true_iff, negb_existsb, filter_not_nil.
  rewrite He. unfold serves. split.
  - intros [Hor ->]. split; [done|]. by exists strength, e.
  - intros (-> & ? & ? & [= <-] & _ & [= <-] & Hor). by split.
Qed.

Lemma is_immutable_kind_iff kind : is_immutable_kind kind = true ↔ kind ≠ Planned.
Proof. by destruct kind. Qed.

Lemma overlap_codes plan id source code :
  code ∈ codes (overlap_findings plan id source) ↔ code = ManualPlacementViolationCode.ImmutableOverlap ∧
    ∃ b, b ∈ sp_blocks plan ∧ sb_kind b ≠ Planned ∧ manual_block_matches b id source = false ∧
      overlaps (source_interval source) (block_interval b) = true.
Proof.
  unfold overlap_findings, immutable_conflicts. rewrite codes_report, filter_not_nil. setoid_rewrite is_immutable_kind_iff. tauto.
Qed.

Lemma block_findings_codes request plan all_items deps item source found code :
  block_findings request plan all_items deps item source = Ok found →
  code ∈ codes found ↔ breaks_rule request plan all_items deps item source code.
Proof.
  unfold block_findings. intros (times & Ht & (dependency & Hd & (buffer & Hb & [= <-])%rbind_ok)%rbind_ok)%rbind_ok.
  rewrite !codes_app, availability_codes, (time_codes _ _ _ _ _ Ht), window_codes, resource_codes, (dependency_codes _ _ _ _ _ _ _ Hd),
    limit_codes, (buffer_codes _ _ _ _ _ _ Hb), overlap_codes. cbv zeta.
  destruct code; simpl; intuition discriminate.
Qed.

(** The checks fail only where an instant leaves the representable range. *)
Lemma block_findings_codes_nil request plan all_items deps item source :
  block_findings request plan all_items deps item source = Ok [] →
  ∀ code, ¬ breaks_rule request plan all_items deps item source code.
Proof. intros Hf code. rewrite <- (block_findings_codes _ _ _ _ _ _ _ _ Hf), codes_nil. tauto. Qed.
End exact.

(** ** Lemmas: collecting *)

(** What identifies a piece of evidence: the rule and the block. *)
Definition EvidenceTag : Type := ManualPlacementViolationCode * Z * Z.

Definition tag (v : ManualPlacementViolation) : EvidenceTag :=
  (mpv_code v, unix_nanos (mpv_start v), unix_nanos (mpv_end v)).

Definition holds (acc : Assessor) (id : Uuid) (t : EvidenceTag) : Prop :=
  ∃ vs, as_assessments acc !! id = Some vs ∧ t ∈ tag <$> vs.

Definition within_limits (acc : Assessor) : Prop := as_overflow_item_id acc = None.

(** Dropping neighbours that agree on [f] keeps the values of [f]. *)
Lemma elem_of_dedup_fmap {A B} (same : A → A → bool) (f : A → B) l b :
  (∀ x y, same x y = true → f x = f y) → b ∈ f <$> dedup_by same l ↔ b ∈ f <$> l.
Proof.
  intros Hsame. destruct l as [|y l]; [done|]. simpl. revert y.
  induction l as [|z l IH]; intros y; [done|]. cbn [dedup_from].
  destruct (same y z) eqn:E.
  - rewrite IH. rewrite !fmap_cons, !elem_of_cons. rewrite (Hsame _ _ E). tauto.
  - rewrite fmap_cons, elem_of_cons, IH, !fmap_cons, !elem_of_cons. done.
Qed.

Lemma same_violation_tag a b : same_violation a b = true → tag a = tag b.
Proof.
  unfold same_violation, tag. rewrite !andb_true_iff, !bool_decide_eq_true, !odt_eqb_eq.
  intros (((((((((-> & _) & _) & _) & _) & ->) & ->) & _) & _) & _). done.
Qed.

Lemma finish_violations_tags l t : t ∈ tag <$> finish_violations l ↔ t ∈ tag <$> l.
Proof.
  unfold finish_violations. rewrite elem_of_dedup_fmap by apply same_violation_tag.
  rewrite sort_by_perm, <- list_fmap_compose. done.
Qed.

Lemma push_entry_lookup {A} (m : gmap N (list A)) k a k' :
  push_entry m k a !! k' = if decide (k = k') then Some (default [] (m !! k) ++ [a]) else m !! k'.
Proof. unfold push_entry. by rewrite lookup_insert. Qed.

Lemma holds_push pid id occ i acc f id' t :
  within_limits (push pid id occ i acc f) →
  within_limits acc ∧
  (holds (push pid id occ i acc f) id' t ↔
   holds acc id' t ∨ id' = pid ∧ t = (fd_code f, unix_nanos (iv_start i), unix_nanos (iv_end i))).
Proof.
  unfold within_limits, push, exceeds_evidence_limit. destruct (_ || _) eqn:E; simpl; [done|]. intros _.
  rewrite !orb_false_iff, bool_decide_eq_false in E. destruct E as ((Ho%eq_None_not_Some & _) & _). split; [done|].
  unfold holds. simpl. setoid_rewrite push_entry_lookup. case_decide as Hid.
  - subst id'. split.
    + intros (vs & [= <-] & Ht). rewrite fmap_app, elem_of_app in Ht. simpl in Ht. rewrite list_elem_of_singleton in Ht.
      destruct Ht as [Ht| ->]; [|by right]. left. destruct (as_assessments acc !! pid) as [vs|]; [by exists vs|].
      by apply not_elem_of_nil in Ht.
    + intros Ht. eexists. split; [done|]. rewrite fmap_app, elem_of_app. simpl. rewrite list_elem_of_singleton.
      destruct Ht as [(vs & -> & Ht)|[_ ->]]; [by left|by right].
  - split; [by left|]. intros [?|[-> _]]; [done|congruence].
Qed.

Lemma holds_pushes pid id occ i found acc id' t :
  within_limits (foldl (push pid id occ i) acc found) →
  within_limits acc ∧
  (holds (foldl (push pid id occ i) acc found) id' t ↔
   holds acc id' t ∨ id' = pid ∧ ∃ code, code ∈ codes found ∧ t = (code, unix_nanos (iv_start i), unix_nanos (iv_end i))).
Proof.
  revert acc. induction found as [|f found IH]; intros acc; simpl.
  { intros Hw. split; [done|]. setoid_rewrite codes_nil. split; [by left|]. intros [?|(_ & ? & [] & _)]; done. }
  intros [Hw Hiff]%IH. apply (holds_push _ _ _ _ _ _ id' t) in Hw as [Hacc Hpush]. split; [done|].
  rewrite Hiff, Hpush. change (codes (f :: found)) with (fd_code f :: codes found). setoid_rewrite elem_of_cons. split.
  - intros [[?|[-> ->]]|(-> & code & ? & ->)]; [by left|right; split; [done|]; exists (fd_code f); auto|].
    right. split; [done|]. exists code. auto.
  - intros [?|(-> & code & [->|?] & ->)]; [by left; left|by left; right|]. right. split; [done|]. by exists code.
Qed.

Section collect.
Context `{Platform}.
Context (request : PlanRequest) (plan : SchedulePlan) (all_items : gmap ItemId WorkItem)
  (dependencies : gmap ItemId (list Dependency)).

(** The evidence of one block of a placement. *)
Definition block_evidence (assignment : PreviousAssignment) (source : PreviousBlock) (t : EvidenceTag) : Prop :=
  ∃ item code, all_items !! pa_item_id assignment = Some item ∧
    breaks_rule request plan all_items (default [] (dependencies !! wi_id item)) item source code ∧
    t = (code, unix_nanos (pb_start source), unix_nanos (pb_end source)).

Lemma assess_source_block_holds item pid assignment acc source acc' :
  all_items !! pa_item_id assignment = Some item →
  assess_source_block request plan all_items (default [] (dependencies !! wi_id item)) item pid
    (pa_occurrence_id assignment) acc source = Ok acc' →
  within_limits acc' → within_limits acc ∧
  ∀ id t, holds acc' id t ↔ holds acc id t ∨ id = pid ∧ block_evidence assignment source t.
Proof.
  intros Hitem. unfold assess_source_block. case_bool_decide as Ho.
  { intros [= <-] Hw. unfold within_limits in Hw. rewrite Hw in Ho. by destruct Ho. }
  apply eq_None_not_Some in Ho. intros (found & Hf & [= <-])%rbind_ok Hw. split; [done|]. intros id t.
  destruct (holds_pushes _ _ _ _ _ _ id t Hw) as [_ ->]. unfold block_evidence.
  setoid_rewrite (block_findings_codes _ _ _ _ _ _ _ _ Hf). split.
  - intros [?|(-> & code & ? & ->)]; [by left|]. right. split; [done|]. by exists item, code.
  - intros [?|(-> & item' & code & Hi & ? & ->)]; [by left|]. right. split; [done|]. rewrite Hitem in Hi. simplify_eq. by exists code.
Qed.

Lemma open_entry_holds pid acc id t : holds (open_entry pid acc) id t ↔ holds acc id t.
Proof.
  unfold holds. simpl. destruct (decide (id = pid)) as [->|]; [|by rewrite lookup_insert_ne].
  rewrite lookup_insert_eq. destruct (as_assessments acc !! pid) as [vs|]; simpl; [done|].
  split; [|by intros (? & [=] & _)]. intros (? & [= <-] & Ht). by apply not_elem_of_nil in Ht.
Qed.

Lemma assess_target_holds acc pid assignment acc' :
  assess_target request plan all_items dependencies acc (pid, assignment) = Ok acc' → within_limits acc' →
  within_limits acc ∧
  ∀ id t, holds acc' id t ↔ holds acc id t ∨ id = pid ∧ ∃ source, source ∈ pa_blocks assignment ∧ block_evidence assignment source t.
Proof.
  simpl. destruct (all_items !! pa_item_id assignment) as [item|] eqn:Hitem.
  2:{ intros [= <-] Hw. split; [done|]. intros id t. rewrite open_entry_holds. split; [by left|].
      intros [?|(_ & ? & _ & ? & ? & ? & _)]; [done|congruence]. }
  intros Hf. set (acc0 := open_entry pid acc) in *.
  assert (within_limits acc' → within_limits acc0 ∧ ∀ id t, holds acc' id t ↔ holds acc0 id t ∨
    id = pid ∧ ∃ source, source ∈ pa_blocks assignment ∧ block_evidence assignment source t) as Hall.
  { revert Hf. apply (foldM_inv _ (λ p acc', within_limits acc' → within_limits acc0 ∧ ∀ id t, holds acc' id t ↔ holds acc0 id t ∨
      id = pid ∧ ∃ source, source ∈ p ∧ block_evidence assignment source t)).
    - intros Hw. split; [done|]. intros id t. split; [by left|]. intros [?|(_ & ? & Hs & _)]; [done|by apply not_elem_of_nil in Hs].
    - intros p source q acc1 acc2 _ IH Hs Hw. apply (assess_source_block_holds _ _ _ _ _ _ Hitem) in Hs as [Hw1 Hs]; [|done].
      destruct (IH Hw1) as [Hw0 Hi]. split; [done|]. intros id t. rewrite Hs, Hi.
      setoid_rewrite elem_of_app. setoid_rewrite list_elem_of_singleton. split.
      + intros [[?|(-> & s & ? & ?)]|[-> ?]]; [by left|right; split; [done|]; exists s; auto|].
        right. split; [done|]. exists source. auto.
      + intros [?|(-> & s & [?| ->] & ?)]; [by left; left| |by right]. left. right. split; [done|]. by exists s. }
  intros [Hw Hiff]%Hall. split; [exact Hw|]. intros id t. rewrite Hiff. unfold acc0. by rewrite open_entry_holds.
Qed.
End collect.

(** ** Theorems *)

Section theorems.
Context `{Platform}.

(** The assessor reports a rule for a block exactly when the block breaks the
    rule: no violation is invented and none is missed. *)
Theorem block_findings_exact request plan all_items deps item source found :
  block_findings request plan all_items deps item source = Ok found →
  ∀ code, (∃ f, f ∈ found ∧ fd_code f = code) ↔ breaks_rule request plan all_items deps item source code.
Proof.
  intros Hf code. rewrite <- (block_findings_codes _ _ _ _ _ _ _ _ Hf). unfold codes. rewrite list_elem_of_fmap. naive_solver.
Qed.

Lemma leaves_room_dec plan all_items i d :
  predecessor_leaves_room plan all_items i d ∨ ¬ predecessor_leaves_room plan all_items i d.
Proof.
  unfold predecessor_leaves_room. destruct (is_unavailable _); [right; by intros [[=] _]|].
  destruct (has_remaining_work _ _), (dependency_uses_predecessor_start _);
    try (right; intros (_ & Hw & _); by specialize (Hw eq_refl)).
  all: destruct (dependency_predecessor_bounds _ _) as [[s e]|]; [|right; by intros (_ & _ & ? & ? & [=] & _)].
  all: destruct (boundary_satisfied (dependency_boundary d i s e)) eqn:E; [left; eauto 10|].
  all: right; intros (_ & _ & ? & ? & [= <- <-] & ?); congruence.
Qed.

Lemma clean_serves request plan all_items deps item source :
  (∀ code, ¬ breaks_rule request plan all_items deps item source code) →
  ∃ a, serves request (source_interval source) a ∧ meets_resources item a.
Proof.
  intros Hclean. destruct (existsb (fully_capable item) (containing_availability request (source_interval source))) eqn:E.
  { apply existsb_elem in E as (a & ?%elem_of_containing & ?%fully_capable_iff). by exists a. }
  apply not_true_iff_false in E. rewrite existsb_elem in E. setoid_rewrite elem_of_containing in E. setoid_rewrite fully_capable_iff in E.
  pose proof (Hclean ManualPlacementViolationCode.RequiredCapabilities) as Hcap. simpl in Hcap.
  pose proof (Hclean ManualPlacementViolationCode.OutsideAvailability) as Hout. simpl in Hout.
  exfalso. apply Hout. intros (a & Ha). apply E. exists a. split; [done|].
  apply fully_capable_iff. apply not_false_is_true. intros Hc. apply Hcap. split; [|done].
  apply has_hard_capabilities_iff. apply not_false_is_true. intros Hn.
  unfold has_hard_capabilities in Hn. rewrite !orb_false_iff, negb_false_iff, !bool_decide_eq_false, bool_decide_eq_true in Hn.
  destruct Hn as [[Hctx Hloc%eq_None_not_Some] Hen%eq_None_not_Some].
  unfold fully_capable in Hc. by rewrite Hctx, Hloc, Hen in Hc.
Qed.

(** A manual block without violations is one the planner itself would allow:
    some availability window holds it and meets every hard context, location
    and energy demand, every hard time boundary and window group is met, no
    hard forbidden window overlaps it, and it shares no time with another
    immutable block. *)
Theorem clean_block_meets_hard_rules request plan all_items deps item source :
  block_findings request plan all_items deps item source = Ok [] →
  (∀ q, minimum_notice (wi_constraints item) = Some q →
     is_Some (odt_checked_add (as_of request) (duration_minutes (q_value q)))) →
  let c := wi_constraints item in
  let i := source_interval source in
  (∃ a, serves request i a ∧ meets_resources item a) ∧ meets_times request item i ∧
  meets_group (daily_matches i) (preferred_daily_windows c) ∧ meets_group (absolute_matches i) (preferred_absolute_windows c) ∧
  (∀ d, d ∈ deps → demands (dep_strength d)
     (decides_dependency plan (wi_id item) i d → predecessor_completed all_items d = false →
      predecessor_leaves_room plan all_items i d)) ∧
  (∀ b, b ∈ sp_blocks plan → sb_kind b ≠ Planned → manual_block_matches b (wi_id item) source = false →
     overlaps i (block_interval b) = false).
Proof.
  intros Hf0 Hnotice c i. pose proof (block_findings_codes_nil _ _ _ _ _ _ Hf0) as Hf.
  split; [by eapply clean_serves|]. unfold meets_times, demands. split_and!.
  - intros q Hq Hh. apply Z.nlt_ge. intros Hlt. apply (Hf ManualPlacementViolationCode.EarliestStart).
    exists (q_value q). split; [by exists q|done].
  - intros q Hq Hh. apply Z.nlt_ge. intros Hlt. apply (Hf ManualPlacementViolationCode.LatestFinish).
    exists (q_value q). split; [by exists q|done].
  - intros q Hq. destruct (Hnotice q Hq) as [t Ht]. exists t. split; [done|]. intros Hh. apply Z.nlt_ge. intros Hlt.
    apply (Hf ManualPlacementViolationCode.MinimumNotice). exists (q_value q), t. split; [by exists q|done].
  - intros q Hq Hh. destruct (decide (from_time (odt_weekday (iv_start i)) ∈ q_value q)); [done|]. exfalso.
    apply (Hf ManualPlacementViolationCode.AllowedWeekday). exists (q_value q). split; [by exists q|done].
  - intros q Hq Hh. unfold overlap_minutes. destruct (overlaps i (window_interval (q_value q))) eqn:E; [|done]. exfalso.
    apply (Hf ManualPlacementViolationCode.ForbiddenWindow). by exists q.
  - apply meets_group_iff, not_false_is_true. intros E. apply (Hf ManualPlacementViolationCode.PreferredDailyWindow). simpl.
    rewrite <- meets_group_iff. fold c i. by rewrite E.
  - apply meets_group_iff, not_false_is_true. intros E. apply (Hf ManualPlacementViolationCode.PreferredAbsoluteWindow). simpl.
    rewrite <- meets_group_iff. fold c i. by rewrite E.
  - intros d Hd Hh He Hc. destruct (leaves_room_dec plan all_items i d) as [|Hn]; [done|]. exfalso. apply (Hf ManualPlacementViolationCode.Dependency). by exists d.
  - intros b Hb Hk Hm. apply not_true_is_false. intros Ho. apply (Hf ManualPlacementViolationCode.ImmutableOverlap). by exists b.
Qed.

End theorems.

Lemma push_dom pid id occ i acc f :
  pid ∈ dom (as_assessments acc) → dom (as_assessments (push pid id occ i acc f)) = dom (as_assessments acc).
Proof.
  intros Hp. unfold push. destruct (exceeds_evidence_limit _ _); simpl; [done|]. unfold push_entry. rewrite dom_insert_L. set_solver.
Qed.

Lemma pushes_dom pid id occ i found acc :
  pid ∈ dom (as_assessments acc) → dom (as_assessments (foldl (push pid id occ i) acc found)) = dom (as_assessments acc).
Proof.
  revert acc. induction found as [|f found IH]; intros acc Hp; simpl; [done|].
  rewrite IH; rewrite push_dom by done; done.
Qed.

Section assessments.
Context `{Platform} `{Encoding}.

Lemma assess_target_dom request plan all_items dependencies acc pid assignment acc' :
  assess_target request plan all_items dependencies acc (pid, assignment) = Ok acc' →
  dom (as_assessments acc') = {[pid]} ∪ dom (as_assessments acc).
Proof.
  simpl. set (acc0 := open_entry pid acc). assert (dom (as_assessments acc0) = {[pid]} ∪ dom (as_assessments acc)) as Hd0.
  { unfold acc0. simpl. by rewrite dom_insert_L. }
  rewrite <- Hd0. destruct (all_items !! pa_item_id assignment) as [item|]; [|by intros [= <-]].
  apply (foldM_inv _ (λ _ acc', dom (as_assessments acc') = dom (as_assessments acc0))); [done|].
  intros p source q acc1 acc2 _ IH. unfold assess_source_block. case_bool_decide; [by intros [= <-]|].
  intros (found & _ & [= <-])%rbind_ok. rewrite pushes_dom; [done|]. rewrite IH, Hd0. set_solver.
Qed.

Lemma assess_targets_holds request plan all_items dependencies l acc0 acc :
  foldM (assess_target request plan all_items dependencies) acc0 l = Ok acc → as_assessments acc0 = ∅ → within_limits acc →
  (∀ id, id ∈ dom (as_assessments acc) ↔ ∃ assignment, (id, assignment) ∈ l) ∧
  ∀ id t, holds acc id t ↔ ∃ assignment source, (id, assignment) ∈ l ∧ source ∈ pa_blocks assignment ∧
    block_evidence request plan all_items dependencies assignment source t.
Proof.
  intros Hf Hd0. revert Hf. apply (foldM_inv _ (λ p acc, within_limits acc →
    (∀ id, id ∈ dom (as_assessments acc) ↔ ∃ assignment, (id, assignment) ∈ p) ∧
    ∀ id t, holds acc id t ↔ ∃ assignment source, (id, assignment) ∈ p ∧ source ∈ pa_blocks assignment ∧
      block_evidence request plan all_items dependencies assignment source t)).
  - intros _. unfold holds. rewrite Hd0. split; [intros id|intros id t]; split.
    + set_solver.
    + intros (? & Hx). by apply not_elem_of_nil in Hx.
    + by intros (? & Hx & _).
    + intros (? & ? & Hx & _). by apply not_elem_of_nil in Hx.
  - intros p [pid assignment] q acc1 acc2 _ IH Hs Hw. pose proof (assess_target_dom _ _ _ _ _ _ _ _ Hs) as Hdom.
    apply assess_target_holds in Hs as [Hw1 Hs]; [|done]. destruct (IH Hw1) as [Hd Hh].
    setoid_rewrite elem_of_app. setoid_rewrite list_elem_of_singleton. split.
    + intros id. rewrite Hdom, elem_of_union, elem_of_singleton, Hd. split.
      * intros [->|(a & ?)]; [exists assignment|exists a]; auto.
      * intros (a & [?|[= -> ->]]); [right; by exists a|by left].
    + intros id t. rewrite Hs, Hh. split.
      * intros [(a & s & ? & ? & ?)|(-> & s & ? & ?)]; [exists a, s|exists assignment, s]; auto.
      * intros (a & s & [?|[= -> ->]] & ? & ?); [left; by exists a, s|right; split; [done|by exists s]].
Qed.

Lemma finish_assessments_spec request m :
  mpa_placement_id <$> finish_assessments request m = keys m ∧
  ∀ a, a ∈ finish_assessments request m → ∃ vs, m !! mpa_placement_id a = Some vs ∧ mpa_violations a = finish_violations vs.
Proof.
  unfold finish_assessments. split.
  - unfold entries. set (base := manual_placement_environment_base_digest request).
    assert (∀ l : list N, (∀ k, k ∈ l → is_Some (m !! k)) →
      mpa_placement_id <$> (finish_assessment base <$> omap (λ k, pair k <$> m !! k) l) = l) as Hl.
    { induction l as [|k l IH]; intros Hk; [done|]. cbn [omap list_omap]. destruct (Hk k ltac:(left)) as [v ->]. simpl.
      f_equal. apply IH. intros k' ?. apply Hk. by right. }
    apply Hl. intros k. by rewrite elem_of_keys.
  - intros a ([k vs] & -> & Hk%elem_of_entries)%list_elem_of_fmap. by exists vs.
Qed.

(** C8. The assessments are exact: each manual placement of the request has one
    assessment, in the order of the identifiers, and an assessment reports a
    rule for a time exactly when a block of that placement at that time breaks
    the rule. *)
Theorem assessments_exact request plan extra l :
  assess_manual_placement_targets request plan extra = Ok l →
  let targets := manual_targets (previous_assignments request ++ extra) in
  let all_items := collect_by_id (items request) in
  let dependencies := dependencies_with_routine_order (items request) (child_map (items request)) in
  StronglySorted N.le (mpa_placement_id <$> l) ∧ NoDup (mpa_placement_id <$> l) ∧
  (∀ id, id ∈ mpa_placement_id <$> l ↔ ∃ assignment, (id, assignment) ∈ targets) ∧
  ∀ a code s e, a ∈ l →
    (∃ v, v ∈ mpa_violations a ∧ mpv_code v = code ∧ (mpv_start v : Z) = s ∧ (mpv_end v : Z) = e) ↔
    (∃ assignment source item, (mpa_placement_id a, assignment) ∈ targets ∧ source ∈ pa_blocks assignment ∧
       all_items !! pa_item_id assignment = Some item ∧ (pb_start source : Z) = s ∧ (pb_end source : Z) = e ∧
       breaks_rule request plan all_items (default [] (dependencies !! wi_id item)) item source code).
Proof.
  intros Hrun targets all_items dependencies. unfold assess_manual_placement_targets in Hrun.
  apply rbind_ok in Hrun as (acc & Hacc & Hl).
  destruct (as_overflow_item_id acc) as [|] eqn:Ho; [done|]. simplify_eq.
  destruct (assess_targets_holds _ _ _ _ _ _ _ Hacc eq_refl Ho) as [Hdom Hholds].
  destruct (finish_assessments_spec request (as_assessments acc)) as [-> Hviol].
  split; [apply keys_sorted|]. split; [apply NoDup_keys|]. split.
  { intros id. by rewrite elem_of_keys, <- elem_of_dom, Hdom. }
  intros a code s e (vs & Hvs & Hv)%Hviol. specialize (Hholds (mpa_placement_id a) (code, s, e)).
  transitivity (holds acc (mpa_placement_id a) (code, s, e)).
  - unfold holds. rewrite Hvs, Hv. split.
    + intros (v & Hin & <- & <- & <-). exists vs. split; [done|]. rewrite <- finish_violations_tags. by apply (list_elem_of_fmap_2 tag).
    + intros (? & [= <-] & Ht). rewrite <- finish_violations_tags in Ht. apply list_elem_of_fmap in Ht as (v & [= -> -> ->] & ?). by exists v.
  - rewrite Hholds. unfold block_evidence. split.
    + intros (assignment & source & ? & ? & item & ? & ? & ? & [= -> -> ->]). by exists assignment, source, item.
    + intros (assignment & source & item & ? & ? & ? & <- & <- & ?). exists assignment, source. split_and!; [done..|]. by exists item, code.
Qed.

Lemma sorted_perm_eq {A} (f : A → N) l1 l2 :
  StronglySorted (λ a b, (f a <=? f b)%N = true) l1 → StronglySorted (λ a b, (f a <=? f b)%N = true) l2 →
  l1 ≡ₚ l2 → NoDup (f <$> l1) → l1 = l2.
Proof.
  intros Hs1. revert l2. induction Hs1 as [|x l1 Hs1 IH Hx]; intros l2 Hs2 Hp Hnd; [by apply Permutation_nil in Hp|].
  destruct Hs2 as [|y l2 Hs2 Hy]; [by apply Permutation_sym, Permutation_nil in Hp|]. rewrite Forall_forall in Hx, Hy.
  apply NoDup_cons in Hnd as [Hnx Hnd].
  assert (x = y) as ->.
  { assert (x ∈ y :: l2) as [->|Hin]%elem_of_cons by (rewrite <- Hp; left); [done|].
    assert (y ∈ x :: l1) as [->|Hin']%elem_of_cons by (rewrite Hp; left); [done|].
    specialize (Hx _ Hin'). specialize (Hy _ Hin). exfalso. apply Hnx. apply list_elem_of_fmap. exists y. split; [|done].
    apply N.leb_le in Hx, Hy. lia. }
  f_equal. apply IH; [done| |done]. by apply Permutation_cons_inv in Hp.
Qed.

(** The digest that an approval is bound to depends only on the environment of
    the placement: requests whose items agree on what the environment records,
    in any order, and whose availability agrees have the same digest. *)
Theorem environment_digest_stable request1 request2 placement_id :
  item_environment <$> items request1 ≡ₚ item_environment <$> items request2 →
  NoDup (wi_id <$> items request1) → availability request1 = availability request2 →
  manual_placement_environment_digest placement_id (manual_placement_environment_base_digest request1) =
  manual_placement_environment_digest placement_id (manual_placement_environment_base_digest request2).
Proof.
  intros Hp Hnd Ha. unfold manual_placement_environment_base_digest, planning_environment. rewrite Ha.
  assert (∀ x y : ItemEnvironment, (ie_id x <=? ie_id y)%N = false → (ie_id y <=? ie_id x)%N = true) as Htot
    by (intros ? ?; rewrite N.leb_gt, N.leb_le; lia).
  assert (∀ x y z : ItemEnvironment, (ie_id x <=? ie_id y)%N = true → (ie_id y <=? ie_id z)%N = true → (ie_id x <=? ie_id z)%N = true)
    as Htr by (intros ? ? ?; rewrite !N.leb_le; lia).
  do 4 f_equal. apply (sorted_perm_eq ie_id); try by apply sort_by_sorted.
  - by rewrite !sort_by_perm.
  - rewrite sort_by_perm, <- list_fmap_compose. done.
Qed.
End assessments.

(** ** Witnesses: half an hour put on the end of a night's sleep *)

(** Any functions do: the theorems use no law of the encodings. *)
Definition sample_encoding : Encoding :=
  {| json_environment e := N.of_nat (length (en_items e)) :: bytes_of (en_schema e);
     sha256 l := [foldl (λ h b, (h * 257 + b + 1) mod 2 ^ 256)%N 0%N l] |}.

Definition manual_block (start : Z) : PreviousBlock :=
  {| pb_start := at_minute start; pb_end := at_minute (start + 30); pb_session_index := 0 |}.

Definition manual_session (start : Z) : PreviousAssignment :=
  {| pa_item_id := 5; pa_occurrence_id := None; pa_blocks := [manual_block start]; pa_pinned := true;
     pa_manual_placement_id := Some 77%N |}.

Definition manual_day (start : Z) : PlanRequest :=
  {| as_of := at_minute 0; horizon_start := at_minute 0; horizon_end := at_minute 1440; items := items sample_day;
     availability := availability sample_day; fixed_blocks := fixed_blocks sample_day;
     previous_assignments := [manual_session start]; config := default_config; recurrence_context := no_recurrence |}.

Definition manual_plan (start : Z) : result ScheduleError SchedulePlan :=
  @plan_materialized utc_platform (manual_day start) no_execution [].

Definition sample_index_of (request : PlanRequest) : gmap ItemId WorkItem := collect_by_id (items request).

(** At 07:50 the block is outside the availability and overlaps the sleep. *)
Lemma block_findings_exact_witness :
  ∃ plan, manual_plan 470 = Ok plan ∧
    @breaks_rule utc_platform (manual_day 470) plan (sample_index_of (manual_day 470)) [] deadline_item (manual_block 470)
      ManualPlacementViolationCode.ImmutableOverlap.
Proof.
  destruct (manual_plan 470) as [plan|e] eqn:E; [|vm_compute in E; discriminate E].
  exists plan. split; [reflexivity|].
  destruct (@block_findings utc_platform (manual_day 470) plan (sample_index_of (manual_day 470)) [] deadline_item (manual_block 470))
    as [found|e] eqn:Ef; vm_compute in E; injection E as <-; vm_compute in Ef; [|discriminate Ef].
  injection Ef as <-.
  apply (@block_findings_exact utc_platform (manual_day 470) _ (sample_index_of (manual_day 470)) [] deadline_item (manual_block 470) _ eq_refl).
  eexists. split; [right; left|reflexivity].
Defined.

Lemma clean_block_meets_hard_rules_witness :
  ∃ plan, manual_plan 490 = Ok plan ∧
    ∃ a, serves (manual_day 490) (source_interval (manual_block 490)) a ∧ meets_resources deadline_item a.
Proof.
  destruct (manual_plan 490) as [plan|e] eqn:E; [|vm_compute in E; discriminate E].
  exists plan. split; [reflexivity|].
  assert (@block_findings utc_platform (manual_day 490) plan (sample_index_of (manual_day 490)) [] deadline_item (manual_block 490) = Ok [])
    as Ef by (vm_compute in E; injection E as <-; vm_compute; reflexivity).
  exact (proj1 (@clean_block_meets_hard_rules utc_platform (manual_day 490) plan (sample_index_of (manual_day 490)) [] deadline_item
    (manual_block 490) Ef ltac:(intros q Hq; discriminate Hq))).
Defined.

Lemma assessments_exact_witness :
  ∃ plan l, manual_plan 470 = Ok plan ∧ @assess_manual_placements sample_encoding utc_platform (manual_day 470) plan = Ok l ∧
    NoDup (mpa_placement_id <$> l).
Proof.
  destruct (manual_plan 470) as [plan|e] eqn:E; [|vm_compute in E; discriminate E].
  destruct (@assess_manual_placements sample_encoding utc_platform (manual_day 470) plan) as [l|e] eqn:El.
  - exists plan, l. split; [reflexivity|]. split; [exact El|].
    exact (proj1 (proj2 (@assessments_exact utc_platform sample_encoding (manual_day 470) plan [] l El))).
  - vm_compute in E. injection E as <-. vm_compute in El. discriminate El.
Defined.

Lemma environment_digest_stable_witness :
  @manual_placement_environment_digest sample_encoding 77
    (@manual_placement_environment_base_digest sample_encoding (with_items sample_day (reverse (items sample_day)))) =
  @manual_placement_environment_digest sample_encoding 77 (@manual_placement_environment_base_digest sample_encoding sample_day).
Proof.
  apply (@environment_digest_stable sample_encoding (with_items sample_day (reverse (items sample_day))) sample_day 77).
  - exact (fmap_Permutation item_environment _ _ (reverse_Permutation (items sample_day))).
  - exact (proj1 (bool_decide_eq_true (NoDup (wi_id <$> reverse (items sample_day)))) eq_refl).
  - reflexivity.
Defined.
