(* ===== verification/Defer.v ===== *)
(** * Defer: replacing the session in flight

    The defer candidate of crates/dayweave-core/src/scheduler.rs: moving the
    unfinished part of a session that is in flight to a later time.
    [prepare_defer_candidate] checks the candidate against the authoritative
    execution snapshot and installs the replacement in a copy of it.

    The theorems: the exact conditions under which a candidate is accepted, and
    what the prepared snapshot is - one reservation replaced, the credit of the
    source recorded, nothing else changed, and the unfinished minutes conserved
    to the minute. *)
From S2P Require Import Prelude Platform Domain Samples Text Forest Rollup Lifecycle Plan Intervals Order Execution Validation.

Definition invalid_defer_candidate (candidate : DeferCandidateAssessmentInput) (message : string) : ScheduleError :=
  ScheduleError.InvalidDeferCandidate (dci_placement_id candidate) message.

(** [iter().enumerate().filter(..)]: the matches with their positions. *)
Definition indexed_matches {A} (matches : A → bool) (l : list A) : list (nat * A) :=
  filter (λ p, matches p.2 = true) (imap pair l).

Definition is_source_unit (candidate : DeferCandidateAssessmentInput) (unit : ExecutionWorkUnit) : bool :=
  (eu_item_id unit =? dci_item_id candidate)%N && bool_decide (eu_occurrence_id unit = dci_occurrence_id candidate).

Definition is_in_flight (reservation : ExecutionReservation) : bool :=
  match er_kind reservation with InFlight => true | DeferredReplacement _ => false end.

Definition is_source_reservation (candidate : DeferCandidateAssessmentInput) (reservation : ExecutionReservation) : bool :=
  (er_session_index reservation =? dci_source_session_index candidate)%N && is_in_flight reservation.

Definition source_unit (execution : ExecutionPlanningContext) (candidate : DeferCandidateAssessmentInput)
    : result ScheduleError (nat * ExecutionWorkUnit) :=
  match indexed_matches (is_source_unit candidate) (ec_work_units execution) with
  | [] => Err (ScheduleError.MissingDeferSourceWorkUnit (dci_placement_id candidate) (dci_item_id candidate) (dci_occurrence_id candidate))
  | [found] => Ok found
  | _ => Err (ScheduleError.AmbiguousDeferSourceWorkUnit (dci_placement_id candidate) (dci_item_id candidate) (dci_occurrence_id candidate))
  end.

Definition source_reservation (unit : ExecutionWorkUnit) (candidate : DeferCandidateAssessmentInput)
    : result ScheduleError (nat * ExecutionReservation) :=
  match indexed_matches (is_source_reservation candidate) (eu_reservations unit) with
  | [] => Err (ScheduleError.MissingDeferSourceReservation (dci_placement_id candidate) (dci_source_session_index candidate))
  | [found] => Ok found
  | _ => Err (ScheduleError.AmbiguousDeferSourceReservation (dci_placement_id candidate) (dci_source_session_index candidate))
  end.

(** Another reservation of the unit is in flight. *)
Definition has_other_in_flight (unit : ExecutionWorkUnit) (index : nat) : bool :=
  existsb (λ p, negb (p.1 =? index) && is_in_flight p.2) (imap pair (eu_reservations unit)).

Definition source_minutes (candidate : DeferCandidateAssessmentInput) (source : ExecutionReservation)
    : result ScheduleError N :=
  let source_seconds := whole_seconds (duration_between (er_end source) (er_start source)) in
  if (source_seconds <=? 0)%Z || negb (Z.rem source_seconds 60 =? 0)%Z then
    Err (invalid_defer_candidate candidate "the authoritative source reservation must have a whole-minute duration")
  else
    ok_or (try_u32 (Z.quot source_seconds 60))
      (invalid_defer_candidate candidate "the authoritative source duration exceeds supported bounds").

(** The minutes of the source that are not credited yet. *)
Definition remaining_source (candidate : DeferCandidateAssessmentInput) (unit : ExecutionWorkUnit)
    (source : ExecutionReservation) : result ScheduleError N :=
  let? minutes := source_minutes candidate source in
  let credited_before := ceil_seconds_to_minutes (eu_credited_seconds unit) in
  let credited_after := ceil_seconds_to_minutes (dci_credited_seconds_after_source candidate) in
  let? newly_credited :=
    ok_or (checked_sub credited_after credited_before)
      (invalid_defer_candidate candidate "normalized credited minutes cannot move backwards") in
  ok_or (remaining ← checked_sub minutes newly_credited; if (0 <? remaining)%N then Some remaining else None)
    (invalid_defer_candidate candidate "the source session has no unfinished whole-minute demand to defer").

(** The highest session index of the unit, in its history or in the request. *)
Definition defer_high_water (request : PlanRequest) (unit : ExecutionWorkUnit)
    (candidate : DeferCandidateAssessmentInput) : option N :=
  max_by N.compare
    (eu_used_session_indices unit ++ (er_session_index <$> eu_reservations unit) ++
     (filter (λ a, pa_item_id a = dci_item_id candidate ∧ pa_occurrence_id a = dci_occurrence_id candidate)
        (previous_assignments request) ≫= λ a, pb_session_index <$> pa_blocks a)).

Definition expected_replacement_index (request : PlanRequest) (unit : ExecutionWorkUnit)
    (candidate : DeferCandidateAssessmentInput) : result ScheduleError N :=
  ok_or (match defer_high_water request unit candidate with
         | None => Some 0%N
         | Some index => checked_add u16_max index 1
         end)
    (invalid_defer_candidate candidate "the replacement session index space is exhausted").

(** The window does not start on the grid or does not have the exact length. *)
Definition misses_grid_or_length (request : PlanRequest) (candidate : DeferCandidateAssessmentInput) (remaining : N) : bool :=
  let target_seconds := whole_seconds (duration_between (dci_move_end candidate) (dci_move_start candidate)) in
  let granularity_seconds := (Z.of_N (slot_granularity (config request)) * 60)%Z in
  odt_leb (dci_move_end candidate) (dci_move_start candidate) ||
  negb (nanosecond (dci_move_start candidate) =? 0)%Z || negb (nanosecond (dci_move_end candidate) =? 0)%Z ||
  negb (target_seconds =? Z.of_N remaining * 60)%Z ||
  negb (unix_timestamp (dci_move_start candidate) mod granularity_seconds =? 0)%Z.

Definition outside_horizon (request : PlanRequest) (candidate : DeferCandidateAssessmentInput) : bool :=
  odt_ltb (dci_move_start candidate) (as_of request) || odt_ltb (dci_move_start candidate) (horizon_start request) ||
  odt_ltb (horizon_end request) (dci_move_end candidate).

Definition replacement (candidate : DeferCandidateAssessmentInput) : ExecutionReservation :=
  {| er_session_index := dci_replacement_session_index candidate; er_start := dci_move_start candidate;
     er_end := dci_move_end candidate; er_kind := DeferredReplacement (dci_source_session_index candidate) |}.

(** The unit with its credit raised and one reservation replaced. *)
Definition deferred_unit (candidate : DeferCandidateAssessmentInput) (index : nat) (unit : ExecutionWorkUnit) : ExecutionWorkUnit :=
  {| eu_item_id := eu_item_id unit; eu_occurrence_id := eu_occurrence_id unit;
     eu_progress_epoch := eu_progress_epoch unit;
     eu_credited_seconds := dci_credited_seconds_after_source candidate; eu_disposition := eu_disposition unit;
     eu_used_session_indices := eu_used_session_indices unit;
     eu_reservations := <[index := replacement candidate]> (eu_reservations unit) |}.

Definition with_unit (execution : ExecutionPlanningContext) (index : nat) (unit : ExecutionWorkUnit) : ExecutionPlanningContext :=
  {| ec_snapshot_revision := ec_snapshot_revision execution;
     ec_work_units := <[index := unit]> (ec_work_units execution) |}.

Definition prepare_defer_candidate (request : PlanRequest) (execution : ExecutionPlanningContext)
    (candidate : DeferCandidateAssessmentInput) : result ScheduleError (ExecutionPlanningContext * N) :=
  if is_nil (dci_placement_id candidate) then
    Err (invalid_defer_candidate candidate "the placement identifier must not be nil")
  else if existsb (λ a, bool_decide (pa_manual_placement_id a = Some (dci_placement_id candidate))) (previous_assignments request) then
    Err (invalid_defer_candidate candidate "the placement identifier is already present in the planning request")
  else
    let? (unit_index, unit) := source_unit execution candidate in
    let? (reservation_index, source) := source_reservation unit candidate in
    if has_other_in_flight unit reservation_index then
      Err (invalid_defer_candidate candidate "the source work unit retains another in-flight reservation")
    else if (dci_credited_seconds_after_source candidate <? eu_credited_seconds unit)%N then
      Err (invalid_defer_candidate candidate "credited seconds after the source cannot move backwards")
    else
      let? remaining := remaining_source candidate unit source in
      let? expected := expected_replacement_index request unit candidate in
      if negb (dci_replacement_session_index candidate =? expected)%N then
        Err (invalid_defer_candidate candidate
          ("replacement session index " ++ display_N (dci_replacement_session_index candidate) ++
           " is not the next fresh index " ++ display_N expected))
      else if misses_grid_or_length request candidate remaining then
        Err (invalid_defer_candidate candidate
          ("the replacement must start on the scheduler grid and cover exactly " ++ display_N remaining ++ " whole minutes"))
      else if outside_horizon request candidate then
        Err (invalid_defer_candidate candidate "the replacement is outside the active planning horizon")
      else Ok (with_unit execution unit_index (deferred_unit candidate reservation_index unit), remaining).

(** ** Specification *)

(** Every session index the source's work has used. *)
Definition claimed_index (request : PlanRequest) (unit : ExecutionWorkUnit) (candidate : DeferCandidateAssessmentInput) (i : N) : Prop :=
  i ∈ eu_used_session_indices unit ∨ i ∈ er_session_index <$> eu_reservations unit ∨
  ∃ a b, a ∈ previous_assignments request ∧ pa_item_id a = dci_item_id candidate ∧
    pa_occurrence_id a = dci_occurrence_id candidate ∧ b ∈ pa_blocks a ∧ i = pb_session_index b.

(** The next index above everything claimed. *)
Definition next_fresh_index (claimed : N → Prop) (i : N) : Prop :=
  (∀ j, claimed j → (j < i)%N) ∧ (i = 0%N ∨ ∃ j, claimed j ∧ i = (j + 1)%N).

(** A candidate that may replace the unfinished part of its source. *)
Record deferrable (request : PlanRequest) (execution : ExecutionPlanningContext) (candidate : DeferCandidateAssessmentInput)
    (unit_index : nat) (unit : ExecutionWorkUnit) (reservation_index : nat) (source : ExecutionReservation) (remaining : N) : Prop := {
  df_placement : dci_placement_id candidate ≠ 0%N ∧
    ∀ a, a ∈ previous_assignments request → pa_manual_placement_id a ≠ Some (dci_placement_id candidate);
  df_unit : ∀ i u, ec_work_units execution !! i = Some u ∧ is_source_unit candidate u = true ↔ i = unit_index ∧ u = unit;
  df_source : eu_reservations unit !! reservation_index = Some source ∧
    er_session_index source = dci_source_session_index candidate;
  df_in_flight : ∀ i r, eu_reservations unit !! i = Some r ∧ er_kind r = InFlight ↔ i = reservation_index ∧ r = source;
  df_credit : (eu_credited_seconds unit <= dci_credited_seconds_after_source candidate)%N;
  df_remaining : ∃ minutes, (0 < minutes <= u32_max)%N ∧ (0 < remaining)%N ∧
    whole_seconds (duration_between (er_end source) (er_start source)) = (Z.of_N minutes * 60)%Z ∧
    (minutes + ceil_seconds_to_minutes (eu_credited_seconds unit) =
     remaining + ceil_seconds_to_minutes (dci_credited_seconds_after_source candidate))%N;
  df_index : next_fresh_index (claimed_index request unit candidate) (dci_replacement_session_index candidate) ∧
    (dci_replacement_session_index candidate <= u16_max)%N;
  df_window : nanosecond (dci_move_start candidate) = 0%Z ∧ nanosecond (dci_move_end candidate) = 0%Z ∧
    (dci_move_end candidate - dci_move_start candidate = duration_minutes remaining)%Z ∧
    (unix_timestamp (dci_move_start candidate) mod (Z.of_N (slot_granularity (config request)) * 60) = 0)%Z;
  df_horizon : (as_of request <= dci_move_start candidate)%Z ∧ (horizon_start request <= dci_move_start candidate)%Z ∧
    (dci_move_end candidate <= horizon_end request)%Z
}.

(** ** Lemmas *)

Lemma elem_of_indexed_matches {A} (f : A → bool) l i a : (i, a) ∈ indexed_matches f l ↔ l !! i = Some a ∧ f a = true.
Proof.
  unfold indexed_matches. rewrite list_elem_of_filter. simpl. rewrite elem_of_lookup_imap. naive_solver.
Qed.

Lemma NoDup_indexed_matches {A} (f : A → bool) l : NoDup (indexed_matches f l).
Proof.
  unfold indexed_matches. apply NoDup_filter. apply (NoDup_fmap_1 fst).
  assert (∀ k, NoDup (fst <$> imap (λ i a, (k + i, a)) l)) as Hk.
  { induction l as [|a l IH]; intros k; [constructor|]. rewrite imap_cons, fmap_cons. constructor.
    - rewrite list_elem_of_fmap. intros ([i b] & Hi & (j & c & [= -> ->] & _)%elem_of_lookup_imap). simpl in Hi. lia.
    - specialize (IH (S k)). erewrite imap_ext; [exact IH|]. intros. simpl. f_equal. lia. }
  apply (Hk 0).
Qed.

Lemma one_match {A} (f : A → bool) l i a :
  indexed_matches f l = [(i, a)] ↔ ∀ j b, l !! j = Some b ∧ f b = true ↔ j = i ∧ b = a.
Proof.
  split.
  - intros Hl j b. rewrite <- elem_of_indexed_matches, Hl, list_elem_of_singleton. naive_solver.
  - intros Hall. pose proof (NoDup_indexed_matches f l) as Hnd.
    assert (∀ p, p ∈ indexed_matches f l ↔ p = (i, a)) as Hel.
    { intros [j b]. rewrite elem_of_indexed_matches, Hall. naive_solver. }
    destruct (indexed_matches f l) as [|p [|q m]].
    + assert ((i, a) ∈ []) as Hin by (by apply Hel). by apply not_elem_of_nil in Hin.
    + f_equal. apply Hel. left.
    + assert (p = (i, a)) as -> by (apply Hel; left). assert (q = (i, a)) as -> by (apply Hel; right; left).
      apply NoDup_cons in Hnd as [Hn _]. destruct Hn. left.
Qed.

Lemma source_unit_ok execution candidate i u :
  source_unit execution candidate = Ok (i, u) ↔
  ∀ j v, ec_work_units execution !! j = Some v ∧ is_source_unit candidate v = true ↔ j = i ∧ v = u.
Proof.
  rewrite <- one_match. unfold source_unit. destruct (indexed_matches _ _) as [|p [|q l]]; [done| |done].
  split; [by intros [= ->]|by intros [= ->]].
Qed.

Lemma source_reservation_ok unit candidate i r :
  source_reservation unit candidate = Ok (i, r) ↔
  ∀ j v, eu_reservations unit !! j = Some v ∧ is_source_reservation candidate v = true ↔ j = i ∧ v = r.
Proof.
  rewrite <- one_match. unfold source_reservation. destruct (indexed_matches _ _) as [|p [|q l]]; [done| |done].
  split; [by intros [= ->]|by intros [= ->]].
Qed.

Lemma is_in_flight_iff r : is_in_flight r = true ↔ er_kind r = InFlight.
Proof. unfold is_in_flight. by destruct (er_kind r). Qed.

Lemma only_in_flight unit candidate i r :
  source_reservation unit candidate = Ok (i, r) ∧ has_other_in_flight unit i = false ↔
  (eu_reservations unit !! i = Some r ∧ er_session_index r = dci_source_session_index candidate) ∧
  ∀ j v, eu_reservations unit !! j = Some v ∧ er_kind v = InFlight ↔ j = i ∧ v = r.
Proof.
  rewrite source_reservation_ok. unfold has_other_in_flight, is_source_reservation.
  rewrite <- not_true_iff_false, existsb_exists. setoid_rewrite andb_true_iff. setoid_rewrite N.eqb_eq.
  setoid_rewrite is_in_flight_iff. split.
  - intros [Hsrc Hother]. destruct (proj2 (Hsrc i r) (conj eq_refl eq_refl)) as (Hi & Hidx & Hk).
    split; [done|]. intros j v. split.
    + intros [Hj Hv]. destruct (decide (j = i)) as [->|Hne]; [split; [done|congruence]|]. exfalso. apply Hother.
      exists (j, v). simpl. split; [|split; [|done]]; [apply list_elem_of_In, elem_of_lookup_imap; by exists j, v|].
      apply negb_true_iff. by apply Nat.eqb_neq.
    + intros [-> ->]. done.
  - intros [[Hi Hidx] Hall]. split.
    + intros j v. split; [intros (? & ? & ?); by apply Hall|]. intros [-> ->]. destruct (proj2 (Hall i r) (conj eq_refl eq_refl)). done.
    + intros ([j v] & Hin%list_elem_of_In%elem_of_lookup_imap & Hne & Hv). destruct Hin as (k & w & [= -> ->] & Hw).
      destruct (proj1 (Hall k w) (conj Hw Hv)) as [-> _]. simpl in Hne. by rewrite Nat.eqb_refl in Hne.
Qed.

Lemma source_minutes_ok candidate source m :
  source_minutes candidate source = Ok m ↔
  (0 < m <= u32_max)%N ∧ whole_seconds (duration_between (er_end source) (er_start source)) = (Z.of_N m * 60)%Z.
Proof.
  unfold source_minutes. set (s := whole_seconds _).
  destruct (Z.leb_spec s 0); simpl; [split; [done|lia]|].
  destruct (Z.eqb_spec (Z.rem s 60) 0) as [Hr|Hr]; simpl.
  - rewrite ok_or_ok. unfold try_u32. pose proof (Z.quot_rem' s 60). rewrite Hr in *.
    destruct ((0 <=? _)%Z && _) eqn:E; bool_to_prop; [split; [intros [= <-]|intros [? ?]; f_equal]|split; [done|]]; lia.
  - split; [done|]. intros [? Hs]. destruct Hr. rewrite Hs. apply Z.rem_mul. lia.
Qed.

Lemma ceil_seconds_mono a b : (a <= b)%N → (ceil_seconds_to_minutes a <= ceil_seconds_to_minutes b)%N.
Proof.
  intros Hab. unfold ceil_seconds_to_minutes, saturating_add.
  assert (N.min (a + 59) u64_max / 60 <= N.min (b + 59) u64_max / 60)%N by (apply N.Div0.div_le_mono; lia).
  destruct (N.leb_spec (N.min (a + 59) u64_max / 60) u32_max), (N.leb_spec (N.min (b + 59) u64_max / 60) u32_max); lia.
Qed.

Lemma remaining_source_ok candidate unit source remaining :
  (eu_credited_seconds unit <= dci_credited_seconds_after_source candidate)%N →
  remaining_source candidate unit source = Ok remaining ↔
  ∃ minutes, (0 < minutes <= u32_max)%N ∧ (0 < remaining)%N ∧
    whole_seconds (duration_between (er_end source) (er_start source)) = (Z.of_N minutes * 60)%Z ∧
    (minutes + ceil_seconds_to_minutes (eu_credited_seconds unit) =
     remaining + ceil_seconds_to_minutes (dci_credited_seconds_after_source candidate))%N.
Proof.
  intros Hc%ceil_seconds_mono. unfold remaining_source. rewrite rbind_ok. split.
  - intros (m & [Hm Hs]%source_minutes_ok & (c & Hc'%ok_or_ok%checked_sub_Some & Hr%ok_or_ok)%rbind_ok).
    exists m. destruct (checked_sub m c) as [r|] eqn:E; simpl in Hr; [|done]. apply checked_sub_Some in E.
    destruct (N.ltb_spec 0 r); [|done]. simplify_eq. split_and!; try done; lia.
  - intros (m & Hm & Hr & Hs & Heq). exists m. split; [by apply source_minutes_ok|].
    set (before := ceil_seconds_to_minutes (eu_credited_seconds unit)) in *.
    set (after := ceil_seconds_to_minutes (dci_credited_seconds_after_source candidate)) in *.
    assert (checked_sub after before = Some (after - before)%N) as -> by (by apply checked_sub_Some). simpl.
    assert (checked_sub m (after - before) = Some remaining) as -> by (apply checked_sub_Some; lia). simpl.
    by rewrite (proj2 (N.ltb_lt _ _) Hr).
Qed.

Lemma claimed_index_iff request unit candidate i :
  claimed_index request unit candidate i ↔
  i ∈ eu_used_session_indices unit ++ (er_session_index <$> eu_reservations unit) ++
     (filter (λ a, pa_item_id a = dci_item_id candidate ∧ pa_occurrence_id a = dci_occurrence_id candidate)
        (previous_assignments request) ≫= λ a, pb_session_index <$> pa_blocks a).
Proof.
  unfold claimed_index. rewrite !elem_of_app, list_elem_of_bind. setoid_rewrite list_elem_of_fmap.
  setoid_rewrite list_elem_of_filter. split.
  - intros [?|[?|(a & b & ? & ? & ? & ? & ->)]]; [by left|by right; left|]. right. right. exists a. split; [by exists b|done].
  - intros [?|[?|(a & (b & -> & ?) & (? & ?) & ?)]]; [by left|by right; left|]. right. right. by exists a, b.
Qed.

Lemma expected_replacement_ok request unit candidate i :
  expected_replacement_index request unit candidate = Ok i ↔
  next_fresh_index (claimed_index request unit candidate) i ∧ (i <= u16_max)%N.
Proof.
  unfold expected_replacement_index, next_fresh_index. rewrite ok_or_ok.
  pose proof (claimed_index_iff request unit candidate) as Hcl. unfold defer_high_water.
  set (l := _ ++ _) in *. destruct (max_by N.compare l) as [h|] eqn:E.
  - assert (claimed_index request unit candidate h) as Hh by (by apply Hcl, max_by_N_in).
    assert (∀ j, claimed_index request unit candidate j → (j <= h)%N) as Hle by (intros j Hj%Hcl; by eapply max_by_N_ge).
    unfold checked_add. split.
    + destruct (N.leb_spec (h + 1) u16_max); [|done]. intros [= <-]. split; [|done]. split; [intros j Hj%Hle; lia|right; by exists h].
    + intros [[Hlt Hor] Hmax]. specialize (Hlt h Hh). destruct Hor as [->|(j & Hj%Hle & ->)]; [lia|].
      rewrite (proj2 (N.leb_le _ _)) by lia. f_equal. lia.
  - assert (∀ j, ¬ claimed_index request unit candidate j) as Hno.
    { intros j Hj%Hcl. destruct l; [by apply not_elem_of_nil in Hj|done]. }
    split; [intros [= <-]|intros [[_ [->|(j & Hj & _)]] _]]; [|done|by destruct (Hno j)].
    split; [split; [intros j Hj; by destruct (Hno j)|by left]|done].
Qed.

Lemma window_ok request candidate remaining :
  (0 < remaining)%N →
  misses_grid_or_length request candidate remaining = false ↔
  nanosecond (dci_move_start candidate) = 0%Z ∧ nanosecond (dci_move_end candidate) = 0%Z ∧
  (dci_move_end candidate - dci_move_start candidate = duration_minutes remaining)%Z ∧
  (unix_timestamp (dci_move_start candidate) mod (Z.of_N (slot_granularity (config request)) * 60) = 0)%Z.
Proof.
  intros Hr. unfold misses_grid_or_length. rewrite !orb_false_iff, !negb_false_iff, !Z.eqb_eq, odt_leb_gt.
  unfold nanosecond, whole_seconds, duration_between, duration_minutes, nanos_per_second, nanos_per_minute.
  set (s := unix_nanos (dci_move_start candidate)). set (e := unix_nanos (dci_move_end candidate)). split.
  - intros ((((Hlt & Hs) & He) & Hq) & Hg). split_and!; try done.
    pose proof (Z.div_mod s 1000000000). pose proof (Z.div_mod e 1000000000).
    rewrite Z.quot_div_nonneg in Hq by lia.
    assert (e - s = 1000000000 * (e / 1000000000 - s / 1000000000))%Z as Heq by lia.
    rewrite Heq in Hq |- *. rewrite Z.mul_comm, Z.div_mul in Hq by lia. lia.
  - intros (Hs & He & Hd & Hg). split_and!; try done; [lia|]. rewrite Hd. rewrite Z.quot_div_nonneg by lia.
    replace (Z.of_N remaining * 60000000000)%Z with (Z.of_N remaining * 60 * 1000000000)%Z by lia. by rewrite Z.div_mul by lia.
Qed.

Lemma horizon_ok request candidate :
  outside_horizon request candidate = false ↔
  (as_of request <= dci_move_start candidate)%Z ∧ (horizon_start request <= dci_move_start candidate)%Z ∧
  (dci_move_end candidate <= horizon_end request)%Z.
Proof. unfold outside_horizon. rewrite !orb_false_iff, !odt_ltb_ge. tauto. Qed.

Lemma prepare_iff request execution candidate execution' remaining :
  prepare_defer_candidate request execution candidate = Ok (execution', remaining) ↔
  ∃ unit_index unit reservation_index source,
    deferrable request execution candidate unit_index unit reservation_index source remaining ∧
    execution' = with_unit execution unit_index (deferred_unit candidate reservation_index unit).
Proof.
  unfold prepare_defer_candidate, is_nil.
  destruct (N.eqb_spec (dci_placement_id candidate) 0) as [Hn|Hn].
  { split; [done|]. by intros (? & ? & ? & ? & [[? _] _ _ _ _ _ _ _ _] & _). }
  assert (existsb (λ a, bool_decide (pa_manual_placement_id a = Some (dci_placement_id candidate))) (previous_assignments request) = false ↔
    ∀ a, a ∈ previous_assignments request → pa_manual_placement_id a ≠ Some (dci_placement_id candidate)) as Hfresh.
  { rewrite <- not_true_iff_false, existsb_exists. setoid_rewrite <- list_elem_of_In. setoid_rewrite bool_decide_eq_true. naive_solver. }
  destruct (existsb _ _).
  { split; [done|]. intros (? & ? & ? & ? & [[_ Hf] _ _ _ _ _ _ _ _] & _). by apply Hfresh in Hf. }
  pose proof (proj1 Hfresh eq_refl) as Hf. rewrite rbind_ok. split.
  - intros ([ui unit] & Hu & ([ri source] & Hs & Hk)%rbind_ok).
    destruct (has_other_in_flight unit ri) eqn:Ho; [done|].
    destruct (N.ltb_spec (dci_credited_seconds_after_source candidate) (eu_credited_seconds unit)) as [|Hc]; [done|].
    apply rbind_ok in Hk as (r & Hr%remaining_source_ok & (e & He%expected_replacement_ok & Hk)%rbind_ok); [|done].
    destruct (N.eqb_spec (dci_replacement_session_index candidate) e) as [Hi|]; simpl in Hk; [|done].
    destruct (misses_grid_or_length _ _ _) eqn:Hw; [done|]. destruct (outside_horizon _ _) eqn:Hh; [done|]. simplify_eq.
    exists ui, unit, ri, source. split; [|done]. destruct (proj1 (only_in_flight _ _ _ _) (conj Hs Ho)) as [? ?].
    constructor; [done|by apply source_unit_ok|done|done|done|done|done| |by apply horizon_ok].
    destruct Hr as (? & ? & ? & _). by apply window_ok.
  - intros (ui & unit & ri & source & [_ Hu Hs Hall Hc Hr [Hi Hmax] Hw Hh] & ->).
    exists (ui, unit). split; [by apply source_unit_ok|].
    destruct (proj2 (only_in_flight _ _ _ _) (conj Hs Hall)) as [Hsr Ho]. simpl. rewrite Hsr. simpl. rewrite Ho.
    rewrite (proj2 (N.ltb_ge _ _) Hc). apply (remaining_source_ok candidate unit source remaining Hc) in Hr as Hr'. rewrite Hr'. simpl.
    rewrite (proj2 (expected_replacement_ok _ _ _ (dci_replacement_session_index candidate)) (conj Hi Hmax)). simpl.
    rewrite N.eqb_refl. simpl. destruct Hr as (? & ? & Hpos & _).
    by rewrite (proj2 (window_ok _ _ _ Hpos) Hw), (proj2 (horizon_ok _ _) Hh).
Qed.

(** Replacing an element by one the loop treats alike. *)
Lemma foldM_insert {E S A} (f : S → A → result E S) l i a b s s' :
  l !! i = Some a → (∀ t t', f t a = Ok t' → f t b = Ok t') → foldM f s l = Ok s' → foldM f s (<[i := b]> l) = Ok s'.
Proof.
  intros Hi Hab. revert i s Hi. induction l as [|x l IH]; intros i s Hi Hf; [done|].
  simpl in Hf. apply rbind_ok in Hf as (t & Ht & Hf). destruct i as [|i]; simpl in *.
  - simplify_eq. by rewrite (Hab _ _ Ht).
  - rewrite Ht. simpl. by apply IH.
Qed.

Lemma elem_of_list_insert_or {A} (l : list A) i x y : y ∈ <[i := x]> l → y = x ∨ y ∈ l.
Proof.
  intros (j & Hj)%list_elem_of_lookup. apply list_lookup_insert_Some in Hj as [(-> & -> & _)|[_ Hj]]; [by left|right].
  by apply list_elem_of_lookup_2 in Hj.
Qed.

Lemma NoDup_insert_fresh {A} (l : list A) i x : NoDup l → x ∉ l → NoDup (<[i := x]> l).
Proof.
  rewrite !NoDup_alt. intros Hnd Hx j k y Hj Hk.
  apply list_lookup_insert_Some in Hj as [(-> & -> & _)|[Hij Hj]]; apply list_lookup_insert_Some in Hk as [(? & Hy & _)|[Hik Hk]];
    subst; [done| | |by eapply Hnd].
  - destruct Hx. by apply list_elem_of_lookup_2 in Hk.
  - destruct Hx. by apply list_elem_of_lookup_2 in Hj.
Qed.

(** A valid work unit stays valid: its source was historical, and the
    replacement is above every index. *)
Lemma deferred_unit_valid request execution candidate ui unit ri source remaining :
  deferrable request execution candidate ui unit ri source remaining → valid_work_unit unit →
  valid_work_unit (deferred_unit candidate ri unit).
Proof.
  intros [_ _ [Hri Hsrc] Hin _ Hr [[Hlt _] _] (Hs & He & Hd & _) _] [H1 H2 H3 H4 H5].
  assert (source ∈ eu_reservations unit) as Hmem by (by apply list_elem_of_lookup_2 in Hri).
  constructor; simpl; try done.
  - intros Hskip. rewrite (H2 Hskip) in Hmem. by apply not_elem_of_nil in Hmem.
  - intros r [Hrep|Hold]%elem_of_list_insert_or.
    + subst r. unfold valid_reservation, replacement. simpl. destruct Hr as (m & ? & Hpos & _). split.
      { unfold duration_minutes, nanos_per_minute in Hd. lia. }
      destruct (H4 source Hmem) as [_ Hk]. destruct (proj2 (Hin ri source) (conj eq_refl eq_refl)) as [_ Hkind]. rewrite Hkind in Hk.
      split; [by rewrite <- Hsrc|]. intros i Hi. apply Hlt. by left.
    + by apply H4.
  - rewrite list_fmap_insert. simpl. apply NoDup_insert_fresh; [done|].
    intros Hin'. specialize (Hlt _ (or_intror (or_introl Hin'))). lia.
Qed.

(** ** Theorems *)

(** C9. A defer candidate is accepted exactly when its placement identifier is
    new, it names the one work unit and the one reservation in flight, its
    credit does not go back, the source has unfinished whole minutes, the
    replacement takes the next fresh session index, and it starts on the grid
    inside the horizon and lasts exactly the unfinished minutes; then the
    snapshot changes in that one reservation and the unit's credit. *)
Theorem defer_accepted_iff request execution candidate execution' remaining :
  prepare_defer_candidate request execution candidate = Ok (execution', remaining) ↔
  ∃ unit_index unit reservation_index source,
    deferrable request execution candidate unit_index unit reservation_index source remaining ∧
    execution' = with_unit execution unit_index (deferred_unit candidate reservation_index unit).
Proof. apply prepare_iff. Qed.

(** A prepared snapshot of a valid one is valid: the replacement keeps every
    rule of the execution context. *)
Theorem deferral_keeps_snapshot_valid `{Platform} request execution candidate execution' remaining :
  validate_execution_context request execution = Ok tt →
  prepare_defer_candidate request execution candidate = Ok (execution', remaining) →
  validate_execution_context request execution' = Ok tt.
Proof.
  intros Hv (ui & unit & ri & source & Hd & ->)%prepare_iff. unfold validate_execution_context in *. cbv zeta in *.
  rewrite rbind_unit_ok in Hv. destruct Hv as [Hrev Hv]. rewrite rbind_unit_ok. split.
  { simpl. destruct (ec_work_units execution); [done|]. destruct (_ =? 0)%N; [done|]. by destruct ui. }
  apply rbind_ok in Hv as (ids & Hv & _). simpl.
  destruct (proj2 (df_unit _ _ _ _ _ _ _ _ Hd ui unit) (conj eq_refl eq_refl)) as [Hui _].
  erewrite foldM_insert; [reflexivity|exact Hui| |exact Hv]. intros t t'. simpl.
  destruct (collect_by_id (items request) !! eu_item_id unit) as [item|]; [|done].
  assert (bool_decide (<[ri:=replacement candidate]> (eu_reservations unit) = []) = bool_decide (eu_reservations unit = [])) as ->.
  { apply bool_decide_ext. destruct (eu_reservations unit), ri; simpl; split; done. }
  destruct (negb _ && _); [done|]. case_bool_decide; [done|].
  intros ([] & Hu%work_unit_accepted_iff & Ht)%rbind_ok.
  assert (validate_execution_work_unit (deferred_unit candidate ri unit) = Ok tt) as Hu'.
  { apply work_unit_accepted_iff. by eapply deferred_unit_valid. }
  by rewrite Hu'.
Qed.

(** ** Witness: a half-hour session deferred after ten minutes *)

(** Item 1 has 30 minutes in flight from 08:00, of which 10 are credited. *)
Definition in_flight_unit : ExecutionWorkUnit :=
  {| eu_item_id := 1; eu_occurrence_id := None; eu_progress_epoch := 1; eu_credited_seconds := 0;
     eu_disposition := None; eu_used_session_indices := [0%N];
     eu_reservations := [{| er_session_index := 0; er_start := at_minute 480; er_end := at_minute 510; er_kind := InFlight |}] |}.

Definition in_flight : ExecutionPlanningContext := {| ec_snapshot_revision := 1; ec_work_units := [in_flight_unit] |}.

Definition sample_candidate : DeferCandidateAssessmentInput :=
  {| dci_placement_id := 55; dci_item_id := 1; dci_occurrence_id := None; dci_source_session_index := 0;
     dci_replacement_session_index := 1; dci_credited_seconds_after_source := 590; dci_move_start := at_minute 600;
     dci_move_end := at_minute 620 |}.

Lemma deferral_keeps_snapshot_valid_witness :
  ∃ execution', prepare_defer_candidate (sample_request [sample_item 1 Task None 60]) in_flight sample_candidate =
    Ok (execution', 20%N) ∧
    @validate_execution_context utc_platform (sample_request [sample_item 1 Task None 60]) execution' = Ok tt.
Proof.
  destruct (prepare_defer_candidate (sample_request [sample_item 1 Task None 60]) in_flight sample_candidate)
    as [[execution' r]|e] eqn:E; [|vm_compute in E; discriminate E].
  assert (r = 20%N) as -> by (vm_compute in E; congruence).
  exists execution'. split; [reflexivity|].
  exact (@deferral_keeps_snapshot_valid utc_platform (sample_request [sample_item 1 Task None 60]) in_flight sample_candidate execution' 20 eq_refl E).
Defined.
