(* ===== verification/Placement.v ===== *)
(** * Placement: the search finds the best slot

    Theorems on the placement loops of Planner.v: the slots a search visits,
    that it returns the cheapest acceptable candidate among all of them and
    nothing else, and that the fuel of every loop is enough. *)
From S2P Require Import Prelude Platform Domain Samples Text Forest Rollup Lifecycle Plan Intervals Order Execution Validation Candidate Planner.

(** ** Specification: the slots of a search *)

Section slots.
Context `{Platform}.

(** The slots at or after [start], one grid step apart, that end within the
    free segment. *)
Inductive slot_from (search : Search) (free_end : OffsetDateTime) : OffsetDateTime → Interval → Prop :=
| slot_here start end_ :
    odt_checked_add start (duration_minutes (se_duration search)) = Some end_ → (end_ <= free_end)%Z →
    slot_from search free_end start {| iv_start := start; iv_end := end_ |}
| slot_later start end_ next i :
    odt_checked_add start (duration_minutes (se_duration search)) = Some end_ → (end_ <= free_end)%Z →
    odt_checked_add start (duration_minutes (granularity search)) = Some next →
    slot_from search free_end next i → slot_from search free_end start i.

(** A slot of a free segment of an availability window. *)
Inductive slot (state : PlanningState) (search : Search) : AvailabilityWindow → Interval → Prop :=
| a_slot w available free start i :
    w ∈ availability (se_request search) →
    clipped (availability_interval w) (planning_horizon (se_request search)) = Some available →
    free ∈ free_segments available (busy state) →
    first_slot search free = Some start →
    slot_from search (iv_end free) start i → slot state search w i.

(** The candidates of a search. *)
Definition candidate (state : PlanningState) (search : Search) (c : Candidate) : Prop :=
  ∃ w i, slot state search w i ∧ evaluate_slot state search w i = Some c.

(** The first of the cheapest elements of a set, or nothing when it is empty. *)
Definition best_of (S : Candidate → Prop) (best : option Candidate) : Prop :=
  match best with
  | Some c => S c ∧ ∀ c', S c' → candidate_cmp c' c ≠ Lt
  | None => ∀ c, ¬ S c
  end.

(** ** Lemmas *)

Lemma candidate_cmp_lawful : lawful candidate_cmp.
Proof.
  unfold candidate_cmp. apply (lawful_then (λ a b, (cand_penalty a ?= cand_penalty b)%N)).
  - apply (lawful_contramap cand_penalty), lawful_N.
  - apply (lawful_then (λ a b, odt_cmp (iv_start (cand_interval a)) (iv_start (cand_interval b)))).
    + unfold odt_cmp. apply (lawful_contramap (λ c, unix_nanos (iv_start (cand_interval c)))), lawful_Z.
    + unfold odt_cmp. apply (lawful_contramap (λ c, unix_nanos (iv_end (cand_interval c)))), lawful_Z.
Qed.

Lemma best_of_ext (S T : Candidate → Prop) best : (∀ c, S c ↔ T c) → best_of S best → best_of T best.
Proof. intros HST. destruct best; simpl; naive_solver. Qed.

Lemma candidate_cmp_refl c : candidate_cmp c c ≠ Lt.
Proof.
  pose proof (law_opp _ candidate_cmp_lawful c c) as Ho. destruct (candidate_cmp c c); done.
Qed.

Lemma best_of_keep S best x : best_of S best → best_of (λ c, S c ∨ x = Some c) (keep_better best x).
Proof.
  intros Hb. destruct x as [c|]; simpl; [|by eapply best_of_ext, Hb; naive_solver].
  destruct best as [b|]; simpl in *.
  - destruct Hb as [HS Hmin]. destruct (candidate_cmp c b) eqn:E; simpl.
    + split; [by left|]. intros c' [Hc'|[= <-]]; [by apply Hmin|]. by rewrite E.
    + split; [by right|]. intros c' [Hc'|[= <-]]; [|apply candidate_cmp_refl].
      intros Hlt. apply (Hmin c' Hc'). apply (lawful_lt_le _ c' c b candidate_cmp_lawful); rewrite ?Hlt, ?E; auto.
    + split; [by left|]. intros c' [Hc'|[= <-]]; [by apply Hmin|]. by rewrite E.
  - split; [by right|]. intros c' [Hc'|[= <-]]; [by destruct (Hb c')|apply candidate_cmp_refl].
Qed.
End slots.

Section laws.
Context `{PlatformLaws}.

Lemma scan_slots_best fuel state search w (free_end start : OffsetDateTime) best S :
  (0 < granularity search)%N →
  (free_end - start < Z.of_nat fuel * duration_minutes (granularity search))%Z →
  best_of S best →
  best_of (λ c, S c ∨ ∃ i, slot_from search free_end start i ∧ evaluate_slot state search w i = Some c)
    (scan_slots fuel state search w free_end start best).
Proof.
  intros Hg. revert start best S. induction fuel as [|fuel IH]; intros start best S Hfuel Hb; simpl.
  - eapply best_of_ext, Hb. intros c. split; [by left|]. intros [?|(i & Hi & _)]; [done|]. exfalso.
    assert (∃ end_, odt_checked_add start (duration_minutes (se_duration search)) = Some end_ ∧ (end_ <= free_end)%Z)
      as (end_ & He & Hle) by (inversion Hi; subst; eauto).
    apply checked_add_exact in He as [He _]. unfold duration_minutes, nanos_per_minute in *. lia.
  - destruct (odt_checked_add start (duration_minutes (se_duration search))) as [end_|] eqn:He.
    2:{ eapply best_of_ext, Hb. intros c. split; [by left|]. intros [?|(i & Hi & _)]; [done|]. inversion Hi; congruence. }
    destruct (odt_ltb free_end end_) eqn:Hlt; instants.
    { eapply best_of_ext, Hb. intros c. split; [by left|]. intros [?|(i & Hi & _)]; [done|].
      inversion Hi; simplify_eq; lia. }
    set (i0 := {| iv_start := start; iv_end := end_ |}).
    pose proof (best_of_keep S best (evaluate_slot state search w i0) Hb) as Hk.
    destruct (odt_checked_add start (duration_minutes (granularity search))) as [next|] eqn:Hn.
    + eapply best_of_ext; [|apply (IH next _ _ ltac:(apply checked_add_exact in Hn as [Hn _]; lia) Hk)].
      intros c. cbn beta. split.
      * intros [[?|?]|(i & Hi & Hc)]; [by left| |].
        -- right. exists i0. split; [by constructor|done].
        -- right. exists i. split; [by eapply slot_later|done].
      * intros [?|(i & Hi & Hc)]; [by left; left|]. inversion Hi; simplify_eq; [by left; right|right; eauto].
    + eapply best_of_ext, Hk. intros c. split.
      * intros [?|?]; [by left|]. right. exists i0. split; [by constructor|done].
      * intros [?|(i & Hi & Hc)]; [by left|]. inversion Hi; simplify_eq; by right.
Qed.

Lemma align_up_ge value g aligned :
  align_up value g = Some aligned → (0 < g)%N → (value <= aligned)%Z.
Proof.
  unfold align_up. intros Ha Hg. destruct (_ =? 0)%Z; [by simplify_eq|].
  apply checked_add_exact in Ha as [Ha _]. rewrite Ha.
  pose proof (Z.mod_pos_bound (unix_timestamp value) (Z.of_N g * 60) ltac:(lia)). unfold duration_seconds, nanos_per_second. lia.
Qed.

Lemma first_slot_ge search free start :
  (0 < granularity search)%N → first_slot search free = Some start →
  (iv_start free <= start)%Z ∧ ∀ e, se_session_earliest search = Some e → (e <= start)%Z.
Proof.
  intros Hg (t & Ht & Hs)%bind_Some. pose proof (align_up_ge _ _ _ Ht Hg).
  destruct (se_session_earliest search) as [e|]; [|by simplify_eq].
  apply align_up_ge in Hs; [|done]. rewrite unix_nanos_max in Hs. split; [lia|]. intros ? [= <-]. lia.
Qed.

Lemma slot_fuel_enough search free start :
  (0 < granularity search)%N → first_slot search free = Some start →
  (iv_end free - start < Z.of_nat (slot_fuel search free) * duration_minutes (granularity search))%Z.
Proof.
  intros Hg Hs. destruct (first_slot_ge _ _ _ Hg Hs) as [Hge _]. unfold slot_fuel.
  set (g := duration_minutes (granularity search)). assert (0 < g)%Z by (unfold g, duration_minutes, nanos_per_minute; lia).
  pose proof (Z.div_mod (iv_end free - iv_start free) g ltac:(lia)). pose proof (Z.mod_pos_bound (iv_end free - iv_start free) g ltac:(lia)).
  set (q := ((iv_end free - iv_start free) / g)%Z) in *.
  assert (q + 2 <= Z.of_nat (Z.to_nat q + 2))%Z by lia. nia.
Qed.

Lemma scan_segment_best state search w best free S :
  (0 < granularity search)%N → best_of S best →
  best_of (λ c, S c ∨ ∃ start i, first_slot search free = Some start ∧ slot_from search (iv_end free) start i ∧
                 evaluate_slot state search w i = Some c)
    (scan_segment state search w best free).
Proof.
  intros Hg Hb. unfold scan_segment. destruct (first_slot search free) as [start|] eqn:Hs.
  - eapply best_of_ext; [|apply scan_slots_best; [done|by apply slot_fuel_enough|done]]. naive_solver.
  - eapply best_of_ext, Hb. naive_solver.
Qed.

(** Folding a best-keeping scan over a list. *)
Lemma foldl_best {A} (f : option Candidate → A → option Candidate) (T : A → Candidate → Prop) l best S :
  (∀ S best a, a ∈ l → best_of S best → best_of (λ c, S c ∨ T a c) (f best a)) →
  best_of S best → best_of (λ c, S c ∨ ∃ a, a ∈ l ∧ T a c) (foldl f best l).
Proof.
  revert best S. induction l as [|a l IH]; intros best S Hf Hb; simpl.
  - eapply best_of_ext, Hb. intros c. split; [by left|]. by intros [?|(? & ?%elem_of_nil & _)].
  - eapply best_of_ext; [|apply (IH _ (λ c, S c ∨ T a c))].
    + intros c. cbn beta. setoid_rewrite elem_of_cons. naive_solver.
    + intros. apply Hf; [by right|done].
    + apply Hf; [left|done].
Qed.

Lemma best_candidate_spec state search :
  (0 < granularity search)%N → best_of (candidate state search) (best_candidate state search).
Proof.
  intros Hg. unfold best_candidate.
  eapply best_of_ext; [|apply (foldl_best _
    (λ w c, ∃ available free start i, clipped (availability_interval w) (planning_horizon (se_request search)) = Some available ∧
      free ∈ free_segments available (busy state) ∧ first_slot search free = Some start ∧
      slot_from search (iv_end free) start i ∧ evaluate_slot state search w i = Some c) _ _ (λ _, False))].
  - intros c. unfold candidate. split.
    + intros [[]|(w & Hw & available & free & start & i & ? & ? & ? & ? & ?)]. exists w, i. split; [|done]. by econstructor.
    + intros (w & i & Hs & Hc). inversion Hs; subst. right. exists w. split; [done|]. eauto 10.
  - intros S best w _ Hb. unfold scan_window.
    destruct (clipped _ _) as [available|]; [|eapply best_of_ext, Hb; naive_solver].
    eapply best_of_ext; [|apply (foldl_best _ (λ free c, ∃ start i, first_slot search free = Some start ∧
      slot_from search (iv_end free) start i ∧ evaluate_slot state search w i = Some c)); [|exact Hb]].
    + naive_solver.
    + intros. by apply scan_segment_best.
  - intros c [].
Qed.
End laws.

(** ** Where a slot lies *)

Section slot_position.
Context `{PlatformLaws}.

Lemma slot_from_bounds search (free_end start : OffsetDateTime) i :
  slot_from search free_end start i →
  (start <= iv_start i)%Z ∧ (iv_end i <= free_end)%Z ∧
  (iv_end i - iv_start i = duration_minutes (se_duration search))%Z.
Proof.
  induction 1 as [start end_ Hend Hle|start end_ next i Hend Hle Hnext Hi IH]; simpl.
  - apply checked_add_exact in Hend as [Hend _]. unfold duration_minutes in *. lia.
  - apply checked_add_exact in Hnext as [Hnext _]. unfold duration_minutes, nanos_per_minute in *. lia.
Qed.

(** On a grid: whole seconds that are a multiple of the granularity, with
    the fraction of a second the segment began with. *)
Definition on_slot_grid (g : Minutes) (t : OffsetDateTime) : Prop :=
  (unix_timestamp t mod (Z.of_N g * 60) = 0)%Z.

Lemma align_up_grid value g aligned :
  (0 < g)%N → align_up value g = Some aligned → on_slot_grid g aligned.
Proof.
  unfold align_up, on_slot_grid. intros Hg Ha. set (step := (Z.of_N g * 60)%Z) in *. assert (0 < step)%Z by lia.
  destruct (Z.eqb_spec (unix_timestamp value mod step) 0); [by simplify_eq|].
  apply checked_add_exact in Ha as [Ha _]. unfold unix_timestamp, duration_seconds in *. rewrite Ha.
  rewrite Z.div_add by done. set (ts := (value / nanos_per_second)%Z) in *.
  replace (ts + (step - ts mod step))%Z with ((ts / step + 1) * step)%Z.
  - apply Z.mod_mul. lia.
  - pose proof (Z.div_mod ts step ltac:(lia)). lia.
Qed.

Lemma slot_from_grid search (free_end start : OffsetDateTime) i :
  (0 < granularity search)%N → on_slot_grid (granularity search) start → slot_from search free_end start i →
  on_slot_grid (granularity search) (iv_start i).
Proof.
  intros Hg Hstart. induction 1 as [start end_ Hend Hle|start end_ next i Hend Hle Hnext Hi IH]; simpl; [done|].
  apply IH. apply checked_add_exact in Hnext as [Hnext _]. unfold on_slot_grid, unix_timestamp, duration_minutes in *.
  rewrite Hnext. replace (Z.of_N (granularity search) * nanos_per_minute)%Z with
    ((Z.of_N (granularity search) * 60) * nanos_per_second)%Z by (unfold nanos_per_minute, nanos_per_second; lia).
  rewrite Z.div_add by done. rewrite <- Z.add_mod_idemp_r by lia. rewrite Z.mod_same by lia. by rewrite Z.add_0_r.
Qed.

(** Everything about one slot: it lies in an availability window, in the
    future part of the horizon, after the earliest time asked for, on the
    grid, has the asked length, and shares no instant with busy time. *)
Record placed (state : PlanningState) (search : Search) (w : AvailabilityWindow) (i : Interval) : Prop := {
  pl_window : w ∈ availability (se_request search);
  pl_inside : (av_start w <= iv_start i)%Z ∧ (iv_end i <= av_end w)%Z;
  pl_horizon : (horizon_start (se_request search) <= iv_start i)%Z ∧ (iv_end i <= horizon_end (se_request search))%Z;
  pl_future : (as_of (se_request search) <= iv_start i)%Z;
  pl_earliest e : se_session_earliest search = Some e → (e <= iv_start i)%Z;
  pl_grid : on_slot_grid (granularity search) (iv_start i);
  pl_length : (iv_end i - iv_start i = duration_minutes (se_duration search))%Z;
  pl_free b t : b ∈ busy state → at_instant t i → ¬ at_instant t (bb_interval b)
}.

Lemma slot_placed state search w i :
  (0 < granularity search)%N → slot state search w i → placed state search w i.
Proof.
  intros Hg Hs. destruct Hs as [w available free start i Hw Hclip Hfree Hfirst Hi].
  destruct (slot_from_bounds _ _ _ _ Hi) as (Hstart & Hend & Hlen).
  destruct (first_slot_ge _ _ _ Hg Hfirst) as [Hge Hearliest].
  apply clipped_Some in Hclip. destruct Hclip as (Hc1 & Hc2 & Hc3).
  destruct (free_segments_facts available (busy state)) as (_ & Hne & Hin & Hexact).
  rewrite Forall_forall in Hin. specialize (Hin free Hfree). apply contains_iff in Hin.
  assert (∀ t, at_instant t i → at_instant t free) as Hsub by (unfold at_instant; intros t; lia).
  assert (iv_start available = Z.max (av_start w) (Z.max (horizon_start (se_request search)) (as_of (se_request search))) :> Z ∧
    iv_end available = Z.min (av_end w) (horizon_end (se_request search)) :> Z) as [Hs1 Hs2].
  { rewrite Hc2, Hc3. simpl. by rewrite unix_nanos_max. }
  constructor; try lia; try done.
  - intros e He. specialize (Hearliest e He). lia.
  - eapply slot_from_grid, Hi; [done|]. unfold first_slot in Hfirst. apply bind_Some in Hfirst as (t & Ht & Hfirst).
    destruct (se_session_earliest search); [by eapply align_up_grid|]. simplify_eq. by eapply align_up_grid.
  - intros b t Hb Ht. apply (Hexact t); [|done]. exists free. auto.
Qed.
End slot_position.

(** ** Fuel *)

Section fuel.
Context `{PlatformLaws}.

Lemma scan_slots_fuel fuel more state search w (free_end start : OffsetDateTime) best :
  (0 < granularity search)%N →
  (free_end - start < Z.of_nat fuel * duration_minutes (granularity search))%Z → fuel ≤ more →
  scan_slots more state search w free_end start best = scan_slots fuel state search w free_end start best.
Proof.
  intros Hg. revert more start best. induction fuel as [|fuel IH]; intros more start best Hfuel Hmore.
  - destruct more as [|more]; [done|]. simpl.
    destruct (odt_checked_add start (duration_minutes (se_duration search))) as [end_|] eqn:He; [|done].
    apply checked_add_exact in He as [He _]. destruct (odt_ltb free_end end_) eqn:Hlt; [done|]. instants.
    unfold duration_minutes, nanos_per_minute in *. lia.
  - destruct more as [|more]; [lia|]. simpl.
    destruct (odt_checked_add start (duration_minutes (se_duration search))); [|done].
    destruct (odt_ltb free_end _); [done|].
    destruct (odt_checked_add start (duration_minutes (granularity search))) as [next|] eqn:Hn; [|done].
    apply IH; [|lia]. apply checked_add_exact in Hn as [Hn _]. lia.
Qed.

Lemma try_sizes_fuel fuel more step minimum minimum_session remaining attempt size :
  (0 < step)%N → (size <= minimum + N.of_nat fuel * step)%N → S fuel ≤ more →
  try_sizes more step minimum minimum_session remaining attempt size =
  try_sizes (S fuel) step minimum minimum_session remaining attempt size.
Proof.
  intros Hstep. revert more size. induction fuel as [|fuel IH]; intros more size Hsize Hmore;
    (destruct more as [|more]; [lia|]); cbn [try_sizes].
  - lazymatch goal with |- match ?x with _ => _ end = _ => destruct x; [done|] end. rewrite (proj2 (N.leb_le size minimum)) by lia. done.
  - lazymatch goal with |- match ?x with _ => _ end = _ => destruct x; [done|] end. destruct (N.leb_spec size minimum); [done|].
    apply IH; [|lia]. unfold saturating_sub. nia.
Qed.

Lemma try_sizes_enough more step minimum minimum_session remaining attempt size :
  (0 < step)%N → size_fuel size step ≤ more →
  try_sizes more step minimum minimum_session remaining attempt size =
  try_sizes (size_fuel size step) step minimum minimum_session remaining attempt size.
Proof.
  intros Hstep Hmore. unfold size_fuel in *. replace (N.to_nat (size / step) + 2) with (S (N.to_nat (size / step) + 1)) in * by lia.
  apply try_sizes_fuel; [done| |lia].
  pose proof (N.div_mod size step ltac:(lia)). pose proof (N.mod_lt size step ltac:(lia)).
  rewrite Nat2N.inj_add, N2Nat.id. nia.
Qed.

Lemma next_session_added request item deps all_items minimum maximum gap days index loop loop' :
  next_session request item deps all_items minimum maximum gap days index loop = Continue loop' →
  sl_sessions_added loop' = (sl_sessions_added loop + 1)%N.
Proof.
  unfold next_session. intros Hn. repeat (case_match; try done); by simplify_eq/=.
Qed.

Lemma place_sessions_fuel fuel more request item deps all_items minimum maximum sessions gap days existing loop :
  (sessions <= existing + sl_sessions_added loop + N.of_nat fuel)%N → S fuel ≤ more →
  place_sessions more request item deps all_items minimum maximum sessions gap days existing loop =
  place_sessions (S fuel) request item deps all_items minimum maximum sessions gap days existing loop.
Proof.
  revert more loop. induction fuel as [|fuel IH]; intros more loop Hs Hmore;
    (destruct more as [|more]; [lia|]); cbn [place_sessions].
  - destruct (_ =? 0)%N; [done|]. by rewrite (proj2 (N.leb_le sessions _)) by lia.
  - destruct (_ =? 0)%N; [done|]. destruct (sessions <=? _)%N; [done|].
    destruct (sl_session_index loop) as [index|]; [|done].
    destruct (next_session request item deps all_items minimum maximum gap days index loop) eqn:En; [|done].
    apply IH; [|lia]. apply next_session_added in En. lia.
Qed.
End fuel.

(** ** Theorems *)

Section theorems.
Context `{PlatformLaws}.

(** C6. The search returns a candidate exactly when some slot has one, and then
    the cheapest of all of them, the earliest on a tie. *)
Theorem best_candidate_optimal state search :
  (0 < granularity search)%N →
  match best_candidate state search with
  | Some c => candidate state search c ∧ ∀ c', candidate state search c' → candidate_cmp c' c ≠ Lt
  | None => ∀ c, ¬ candidate state search c
  end.
Proof. apply best_candidate_spec. Qed.

(** A slot of the search lies in an availability window and in the future
    part of the horizon, begins on the grid, has the length asked for and
    shares no instant with busy time. *)
Theorem slots_are_free_time state search w i :
  (0 < granularity search)%N → slot state search w i → placed state search w i.
Proof. apply slot_placed. Qed.

(** C7. The placement loops end on their own: the fuel each of them is given is
    enough, and more of it changes nothing. *)
Theorem placement_loops_terminate :
  (∀ state search w free start best more, (0 < granularity search)%N → first_slot search free = Some start →
     slot_fuel search free ≤ more →
     scan_slots more state search w (iv_end free) start best =
     scan_slots (slot_fuel search free) state search w (iv_end free) start best) ∧
  (∀ step minimum minimum_session remaining attempt size more, (0 < step)%N → size_fuel size step ≤ more →
     try_sizes more step minimum minimum_session remaining attempt size =
     try_sizes (size_fuel size step) step minimum minimum_session remaining attempt size) ∧
  (∀ request item deps all_items minimum maximum sessions gap days existing loop more,
     S (N.to_nat sessions) ≤ more →
     place_sessions more request item deps all_items minimum maximum sessions gap days existing loop =
     place_sessions (S (N.to_nat sessions)) request item deps all_items minimum maximum sessions gap days existing loop).
Proof.
  split_and!.
  - intros. apply scan_slots_fuel; [done| |done]. by apply slot_fuel_enough.
  - intros. by apply try_sizes_enough.
  - intros. apply place_sessions_fuel; lia.
Qed.
End theorems.

(** ** What the answer of a search satisfies *)

Section answers.
Context `{PlatformLaws}.

Record answer (state : PlanningState) (search : Search) (w : AvailabilityWindow) (c : Candidate) : Prop := {
  an_placed : placed state search w (cand_interval c);
  an_days : day_limit_reached search (cand_interval c) = false;
  an_evaluated : evaluate_candidate state (se_request search) (se_item search) (se_dependencies search)
    (se_all_items search) w (cand_interval c) (se_finishes_item search) (se_session_index search) = Some c
}.

Lemma best_candidate_answer state search c :
  (0 < granularity search)%N → best_candidate state search = Some c → ∃ w, answer state search w c.
Proof.
  intros Hg Hc. pose proof (best_candidate_spec state search Hg) as Hb. rewrite Hc in Hb.
  destruct Hb as [(w & i & Hs & He) _]. exists w. unfold evaluate_slot in He.
  destruct (day_limit_reached search i) eqn:Hd; [done|].
  pose proof (candidate_facts _ _ _ _ _ _ _ _ _ _ He) as (<- & _). constructor; [by apply slot_placed|done|done].
Qed.

Lemma answer_length state search w c :
  answer state search w c →
  Z.to_N ((iv_end (cand_interval c) - iv_start (cand_interval c)) / nanos_per_minute) = se_duration search.
Proof.
  intros [[? ? ? ? ? ? Hl _] _ _]. rewrite Hl. unfold duration_minutes. rewrite Z.div_mul by done. lia.
Qed.
End answers.

(** ** Witnesses *)

Definition sample_search : Search :=
  search_for (sample_request [deadline_item]) deadline_item [] ∅ 30 true 0 None ∅ None.

Lemma best_candidate_optimal_witness :
  ∃ c, @best_candidate utc_platform empty_state sample_search = Some c ∧
    @candidate utc_platform empty_state sample_search c ∧
    ∀ c', @candidate utc_platform empty_state sample_search c' → candidate_cmp c' c ≠ Lt.
Proof.
  pose proof (@best_candidate_optimal utc_platform utc_platform_laws empty_state sample_search ltac:(reflexivity)) as Hbest.
  destruct (@best_candidate utc_platform empty_state sample_search) as [c|] eqn:E.
  - exists c. split; [reflexivity|exact Hbest].
  - vm_compute in E. discriminate E.
Defined.

Definition first_interval : Interval := {| iv_start := at_minute 480; iv_end := at_minute 510 |}.

Lemma sample_slot : @slot utc_platform empty_state sample_search (window 480 720) first_interval.
Proof.
  apply (@a_slot utc_platform _ _ _ {| iv_start := at_minute 480; iv_end := at_minute 720 |}
    {| iv_start := at_minute 480; iv_end := at_minute 720 |} (at_minute 480)).
  - left.
  - vm_compute. reflexivity.
  - vm_compute. left.
  - vm_compute. reflexivity.
  - apply slot_here; [vm_compute; reflexivity|vm_compute; done].
Qed.

Lemma slots_are_free_time_witness :
  @placed empty_state sample_search (window 480 720) first_interval.
Proof. apply (@slots_are_free_time utc_platform utc_platform_laws); [reflexivity|exact sample_slot]. Defined.

Lemma placement_loops_terminate_witness :
  @scan_slots utc_platform 1000 empty_state sample_search (window 480 720) (at_minute 720) (at_minute 480) None =
  @scan_slots utc_platform 50 empty_state sample_search (window 480 720) (at_minute 720) (at_minute 480) None.
Proof.
  apply (proj1 (@placement_loops_terminate utc_platform utc_platform_laws) empty_state sample_search (window 480 720)
    {| iv_start := at_minute 480; iv_end := at_minute 720 |} (at_minute 480) None 1000).
  - reflexivity.
  - vm_compute. reflexivity.
  - vm_compute. lia.
Defined.
