(* ===== verification/Sessions.v ===== *)
(** * Sessions: how one item is split over the day

    Theorems on [schedule_item] of Planner.v.  A run of it is a list of
    placements, each the answer of a search on the state the ones before left
    ([placing]), that obeys the item's split policy ([chain]).  From this
    follow the conservation of minutes, the freshness of the session indices
    and the respect of the session, gap and day limits. *)
From S2P Require Import Prelude Platform Domain Samples Text Forest Rollup Lifecycle Plan Intervals Order Execution Validation Candidate Planner Placement.

(** ** Runs *)

Record Placement : Type := {
  p_search : Search;
  p_candidate : Candidate;
  p_split : bool
}.

Definition p_size (p : Placement) : N := se_duration (p_search p).

Section runs.
Context `{Platform}.
Context (request : PlanRequest) (item : WorkItem) (deps : list Dependency) (all_items : gmap ItemId WorkItem).

(** The search is about this item in this request. *)
Definition search_about (s : Search) : Prop :=
  se_request s = request ∧ se_item s = item ∧ se_dependencies s = deps ∧ se_all_items s = all_items.

Definition accept (p : Placement) (st : PlanningState) : PlanningState :=
  accept_candidate item (p_candidate p) (se_session_index (p_search p)) (p_split p) st.

(** Placements accepted one after the other. *)
Inductive placing : PlanningState → list Placement → PlanningState → Prop :=
| placing_done st : placing st [] st
| placing_one st p l st' :
    search_about (p_search p) → (0 < p_size p)%N →
    best_candidate st (p_search p) = Some (p_candidate p) →
    placing (accept p st) l st' → placing st (p :: l) st'.

(** The earliest start the gap allows. *)
Definition after_gap (gap : Minutes) (previous_end earliest : option OffsetDateTime) : Prop :=
  match previous_end with
  | Some e => ∃ t, odt_checked_add e (duration_minutes gap) = Some t ∧ earliest = Some t
  | None => earliest = None
  end.

(** A list of sessions that follows a split policy: the arguments are the next
    index, the minutes left, the last end, the used days and the number of
    sessions so far. *)
Inductive chain (minimum maximum : Minutes) (sessions : N) (gap : Minutes) (max_days : option N)
    : option N → N → option OffsetDateTime → gset Date → N → list Placement → N → Prop :=
| chain_done index rem prev days count : chain minimum maximum sessions gap max_days index rem prev days count [] rem
| chain_session index rem prev days count p l rem' :
    (0 < rem)%N → (count < sessions)%N →
    (N.min minimum rem <= p_size p <= N.min rem maximum)%N →
    (rem - p_size p = 0 ∨ minimum <= rem - p_size p)%N →
    se_session_index (p_search p) = index →
    se_finishes_item (p_search p) = (rem - p_size p =? 0)%N →
    after_gap gap prev (se_session_earliest (p_search p)) →
    se_used_days (p_search p) = days → se_maximum_days (p_search p) = max_days →
    chain minimum maximum sessions gap max_days (checked_add u16_max index 1) (rem - p_size p)
      (Some (iv_end (cand_interval (p_candidate p))))
      ({[odt_date (iv_start (cand_interval (p_candidate p)))]} ∪ days) (count + 1) l rem' →
    chain minimum maximum sessions gap max_days (Some index) rem prev days count (p :: l) rem'.

(** ** The loops are runs *)

Lemma try_sizes_Some fuel step minimum minimum_session remaining attempt size size' c :
  try_sizes fuel step minimum minimum_session remaining attempt size = Some (size', c) →
  (minimum <= size)%N →
  attempt size' (remaining - size' =? 0)%N = Some c ∧ (minimum <= size' <= size)%N ∧
  (remaining - size' = 0 ∨ minimum_session <= remaining - size')%N.
Proof.
  revert size. induction fuel as [|fuel IH]; intros size Ht Hle; [done|]. cbn [try_sizes] in Ht.
  unfold saturating_sub in Ht.
  destruct (((remaining - size =? 0)%N || (minimum_session <=? remaining - size)%N) && (minimum <=? size)%N) eqn:Eb.
  - destruct (attempt size (remaining - size =? 0)%N) as [c'|] eqn:Ea.
    + simplify_eq. apply andb_true_iff in Eb as [Hor%orb_true_iff _]. rewrite N.eqb_eq, N.leb_le in Hor.
      split; [done|]. split; [lia|done].
    + destruct (N.leb_spec size minimum); [done|]. apply IH in Ht as (? & ? & ?); [|lia]. split; [done|]. split; [lia|done].
  - destruct (N.leb_spec size minimum); [done|]. apply IH in Ht as (? & ? & ?); [|lia]. split; [done|]. split; [lia|done].
Qed.

Lemma next_session_Continue minimum maximum gap max_days index loop loop' :
  next_session request item deps all_items minimum maximum gap max_days index loop = Continue loop' →
  (0 < minimum)%N → (minimum <= maximum)%N → (0 < sl_remaining loop)%N →
  ∃ p, search_about (p_search p) ∧ (0 < p_size p)%N ∧
    best_candidate (sl_state loop) (p_search p) = Some (p_candidate p) ∧
    (N.min minimum (sl_remaining loop) <= p_size p <= N.min (sl_remaining loop) maximum)%N ∧
    (sl_remaining loop - p_size p = 0 ∨ minimum <= sl_remaining loop - p_size p)%N ∧
    se_session_index (p_search p) = index ∧
    se_finishes_item (p_search p) = (sl_remaining loop - p_size p =? 0)%N ∧
    after_gap gap (sl_previous_end loop) (se_session_earliest (p_search p)) ∧
    se_used_days (p_search p) = sl_used_days loop ∧ se_maximum_days (p_search p) = max_days ∧
    loop' = {| sl_state := accept p (sl_state loop); sl_remaining := sl_remaining loop - p_size p;
               sl_session_index := checked_add u16_max index 1; sl_sessions_added := sl_sessions_added loop + 1;
               sl_previous_end := Some (iv_end (cand_interval (p_candidate p)));
               sl_used_days := {[odt_date (iv_start (cand_interval (p_candidate p)))]} ∪ sl_used_days loop;
               sl_limit_hit := sl_limit_hit loop |}.
Proof.
  unfold next_session. intros Hn Hmin Hmax Hrem.
  destruct (match sl_previous_end loop with Some _ => _ | None => _ end) as [earliest|] eqn:Ee; [|done].
  destruct (try_sizes _ _ _ _ _ _ _) as [[size c]|] eqn:Et; [|done]. simplify_eq.
  apply try_sizes_Some in Et as (Hbest & Hsize & Hrest); [|lia].
  eexists {| p_search := search_for request item deps all_items size (sl_remaining loop - size =? 0)%N index earliest
                           (sl_used_days loop) max_days; p_candidate := c; p_split := true |}.
  unfold p_size. cbn. split_and!; try done; try lia.
  unfold after_gap. destruct (sl_previous_end loop) as [e|]; [|by simplify_eq].
  destruct (odt_checked_add e _) as [t|]; [|done]. simplify_eq. eauto.
Qed.

Lemma place_sessions_run fuel minimum maximum sessions gap max_days existing loop loop' :
  place_sessions fuel request item deps all_items minimum maximum sessions gap max_days existing loop = loop' →
  (0 < minimum)%N → (minimum <= maximum)%N →
  ∃ l, placing (sl_state loop) l (sl_state loop') ∧
    chain minimum maximum sessions gap max_days (sl_session_index loop) (sl_remaining loop) (sl_previous_end loop)
      (sl_used_days loop) (existing + sl_sessions_added loop) l (sl_remaining loop').
Proof.
  intros <- Hmin Hmax. revert loop. induction fuel as [|fuel IH]; intros loop; cbn [place_sessions].
  { exists []. split; constructor. }
  destruct (N.eqb_spec (sl_remaining loop) 0) as [Hz|Hnz]; [exists []; split; constructor|].
  destruct (N.leb_spec sessions (existing + sl_sessions_added loop)) as [|Hlt]; [exists []; split; constructor|].
  destruct (sl_session_index loop) as [index|] eqn:Ei; [|exists []; split; [apply placing_done|apply chain_done]].
  destruct (next_session _ _ _ _ _ _ _ _ _ _) as [loop1|loop1] eqn:En.
  - apply next_session_Continue in En as (p & Hab & Hpos & Hbest & Hsize & Hrest & Hidx & Hfin & Hgap & Hdays & Hmd & ->);
      [|done|done|lia].
    destruct (IH {| sl_state := accept p (sl_state loop); sl_remaining := sl_remaining loop - p_size p;
               sl_session_index := checked_add u16_max index 1; sl_sessions_added := sl_sessions_added loop + 1;
               sl_previous_end := Some (iv_end (cand_interval (p_candidate p)));
               sl_used_days := {[odt_date (iv_start (cand_interval (p_candidate p)))]} ∪ sl_used_days loop;
               sl_limit_hit := sl_limit_hit loop |}) as (l & Hl & Hc).
    exists (p :: l). split; [by constructor|]. cbn in Hc. rewrite N.add_assoc in Hc.
    apply chain_session; try done; lia.
  - assert (sl_state loop1 = sl_state loop ∧ sl_remaining loop1 = sl_remaining loop) as [Hs Hr].
    { unfold next_session in En. repeat (case_match; try done); by simplify_eq. }
    exists []. rewrite Hs, Hr. split; constructor.
Qed.
End runs.

(** ** Runs: what they add *)

Section effects.
Context `{PlatformLaws}.
Context (request : PlanRequest) (item : WorkItem) (deps : list Dependency) (all_items : gmap ItemId WorkItem).

Definition placement_block (p : Placement) : ScheduleBlock :=
  planned_block item (p_candidate p) (se_session_index (p_search p)) (p_split p).

Definition placement_sizes (l : list Placement) : N := foldr (λ p total, p_size p + total)%N 0%N l.

(** What one run leaves untouched, and the blocks it appends. *)
Lemma placing_effect st l st' :
  placing request item deps all_items st l st' →
  blocks st' = blocks st ++ (placement_block <$> l) ∧
  bb_interval <$> busy st' = (bb_interval <$> busy st) ++ ((λ p, cand_interval (p_candidate p)) <$> l) ∧
  unscheduled st' = unscheduled st ∧ previous st' = previous st ∧
  session_high_water st' = session_high_water st ∧ live_session_indices st' = live_session_indices st ∧
  pinned_minutes st' = pinned_minutes st ∧ execution_reserved_minutes st' = execution_reserved_minutes st.
Proof.
  induction 1 as [st|st p l st' Hab Hpos Hbest Hl (H1 & H2 & H3 & H4 & H5 & H6 & H7 & H8)].
  - by rewrite !app_nil_r.
  - rewrite H1, H2, H3, H4, H5, H6, H7, H8. unfold accept, accept_candidate, reserve. simpl.
    rewrite fmap_app, <- !app_assoc. simpl. done.
Qed.

Lemma chain_sizes minimum maximum sessions gap max_days index rem prev days count l rem' :
  chain minimum maximum sessions gap max_days index rem prev days count l rem' →
  (placement_sizes l + rem' = rem)%N.
Proof. induction 1; simpl; lia. Qed.

Definition indivisible_run (index : option N) (rem : N) (l : list Placement) (rem' : N) : Prop :=
  (l = [] ∧ rem' = rem) ∨
  (∃ p, l = [p] ∧ p_size p = rem ∧ rem' = 0%N ∧ index = Some (se_session_index (p_search p)) ∧
        se_finishes_item (p_search p) = true ∧ se_session_earliest (p_search p) = None ∧
        se_maximum_days (p_search p) = None).

(** A run that follows the item's policy from the state it starts in. *)
Definition policy_run (st : PlanningState) (rem : N) (l : list Placement) (rem' : N) : Prop :=
  let loop := first_loop st item rem in
  match wi_split_policy item with
  | Indivisible => indivisible_run (sl_session_index loop) rem l rem'
  | Splittable minimum maximum sessions gap max_days =>
      chain minimum maximum sessions gap max_days (sl_session_index loop) rem (sl_previous_end loop)
        (sl_used_days loop) (N.of_nat (size (live_sessions st (wi_id item)))) l rem'
  end.

Lemma policy_run_sizes st rem l rem' : policy_run st rem l rem' → (placement_sizes l + rem' = rem)%N.
Proof.
  unfold policy_run. destruct (wi_split_policy item); [|apply chain_sizes].
  intros [[-> ->]|(p & -> & Hp & -> & _)]; simpl; lia.
Qed.

Lemma place_item_run st rem :
  valid_split (wi_split_policy item) → (0 < rem)%N →
  ∃ l, placing request item deps all_items st l (sl_state (place_item request item deps all_items (first_loop st item rem))) ∧
    policy_run st rem l (sl_remaining (place_item request item deps all_items (first_loop st item rem))).
Proof.
  intros Hsplit Hrem. unfold place_item, policy_run. destruct (wi_split_policy item) as [|minimum maximum sessions gap max_days].
  - destruct (sl_session_index (first_loop st item rem)) as [index|] eqn:Ei.
    2:{ exists []. split; [apply placing_done|]. by left. }
    destruct (best_candidate _ _) as [c|] eqn:Eb.
    2:{ exists []. split; [apply placing_done|]. by left. }
    set (p := {| p_search := search_for request item deps all_items rem true index None (sl_used_days (first_loop st item rem)) None;
                 p_candidate := c; p_split := false |}).
    exists [p]. split.
    + apply (placing_one _ _ _ _ _ p); [done|done|done|apply placing_done].
    + right. exists p. split_and!; done.
  - destruct Hsplit as (Hmin & Hmax & Hs).
    destruct (place_sessions_run request item deps all_items (S (N.to_nat sessions)) minimum maximum sessions gap max_days
      (N.of_nat (size (live_sessions (sl_state (first_loop st item rem)) (wi_id item)))) (first_loop st item rem) _ eq_refl Hmin Hmax)
      as (l & Hl & Hc).
    exists l. split; [done|]. by rewrite N.add_0_r in Hc.
Qed.

(** One call of [schedule_item] for an item with an estimate. *)
Lemma schedule_item_run st st' ok e :
  valid_split (wi_split_policy item) → wi_duration item = Some e →
  schedule_item request item deps all_items st = (st', ok) →
  ∃ l st1 left, placing request item deps all_items st l st1 ∧
    (remaining_demand st item (planning_minutes e) = 0%N → l = [] ∧ left = 0%N) ∧
    ((0 < remaining_demand st item (planning_minutes e))%N →
       policy_run st (remaining_demand st item (planning_minutes e)) l left) ∧
    blocks st' = blocks st1 ∧ busy st' = busy st1 ∧ ok = (left =? 0)%N ∧
    uw_remaining <$> unscheduled st' = (uw_remaining <$> unscheduled st) ++ (if (left =? 0)%N then [] else [left]) ∧
    uw_item_id <$> unscheduled st' = (uw_item_id <$> unscheduled st) ++ (if (left =? 0)%N then [] else [wi_id item]).
Proof.
  intros Hsplit He Hs. unfold schedule_item in Hs. rewrite He in Hs.
  destruct (N.eqb_spec (remaining_demand st item (planning_minutes e)) 0) as [Hz|Hnz].
  - simplify_eq. exists [], st, 0%N. split_and!; try done; [apply placing_done|lia|by rewrite app_nil_r..].
  - destruct (place_item_run st (remaining_demand st item (planning_minutes e)) Hsplit ltac:(lia)) as (l & Hl & Hp).
    set (loop := place_item _ _ _ _ _) in *. exists l, (sl_state loop), (sl_remaining loop).
    destruct (placing_effect _ _ _ Hl) as (_ & _ & Hu & _).
    split; [done|]. split; [done|]. split; [done|]. unfold conclude in Hs.
    destruct (N.eqb_spec (sl_remaining loop) 0) as [Hz|Hnz']; simplify_eq.
    + simpl. rewrite Hu, !app_nil_r. by split_and!.
    + destruct (0 <? _)%N; simpl; rewrite Hu, !fmap_app; simpl; split_and!; try done.
Qed.

(** Every placement of a run is the answer of its search. *)
Lemma placing_answers st l st' :
  (0 < slot_granularity (config request))%N → placing request item deps all_items st l st' →
  Forall (λ p, search_about request item deps all_items (p_search p) ∧
               ∃ st0 w, answer st0 (p_search p) w (p_candidate p)) l.
Proof.
  intros Hg. induction 1 as [|st p l st' Hab Hpos Hbest Hl IH]; constructor; [|done]. split; [done|].
  exists st. apply best_candidate_answer; [|done]. unfold granularity. by destruct Hab as [-> _].
Qed.

Definition length_minutes (b : ScheduleBlock) : N := Z.to_N ((sb_end b - sb_start b) / nanos_per_minute).

Definition planned_minutes (l : list ScheduleBlock) : N := foldr (λ b total, length_minutes b + total)%N 0%N l.

Lemma placing_minutes st l st' :
  (0 < slot_granularity (config request))%N → placing request item deps all_items st l st' →
  planned_minutes (placement_block <$> l) = placement_sizes l ∧
  ∀ p, p ∈ l → length_minutes (placement_block p) = p_size p.
Proof.
  intros Hg Hl. pose proof (placing_answers _ _ _ Hg Hl) as Ha. rewrite Forall_forall in Ha.
  assert (∀ p, p ∈ l → length_minutes (placement_block p) = p_size p) as Hp.
  { intros p Hin. destruct (Ha p Hin) as (_ & st0 & w & Hans). apply (answer_length _ _ _ _ Hans). }
  split; [|done]. clear -Hp. induction l as [|p l IH]; [done|]. rewrite fmap_cons.
  change (length_minutes (placement_block p) + planned_minutes (placement_block <$> l) = p_size p + placement_sizes l)%N.
  rewrite IH by (intros; apply Hp; by right). by rewrite Hp by left.
Qed.

Lemma chain_indices minimum maximum sessions gap max_days index rem prev days count l rem' :
  chain minimum maximum sessions gap max_days index rem prev days count l rem' →
  ∀ i p, l !! i = Some p → ∃ first, index = Some first ∧ se_session_index (p_search p) = (first + N.of_nat i)%N.
Proof.
  induction 1 as [|index rem prev days count p l rem' ? ? ? ? Hidx ? ? ? ? Hc IH]; intros i q Hi; [done|].
  exists index. split; [done|]. destruct i as [|i]; simplify_eq/=; [lia|].
  destruct (IH i q Hi) as (f & Hf & ->). apply checked_add_Some in Hf as [-> _]. lia.
Qed.

Lemma chain_count minimum maximum sessions gap max_days index rem prev days count l rem' :
  chain minimum maximum sessions gap max_days index rem prev days count l rem' →
  l ≠ [] → (count + N.of_nat (length l) <= sessions)%N.
Proof.
  induction 1 as [|index rem prev days count p l rem' ? Hlt ? ? ? ? ? ? ? Hc IH]; intros Hne; [done|].
  destruct l as [|q l]; simpl in *; [lia|]. specialize (IH ltac:(done)). lia.
Qed.

Lemma chain_size_bounds minimum maximum sessions gap max_days index rem prev days count l rem' :
  chain minimum maximum sessions gap max_days index rem prev days count l rem' →
  ∀ p, p ∈ l → (N.min minimum rem <= p_size p <= maximum)%N.
Proof.
  induction 1 as [|index rem prev days count p l rem' ? ? ? Hrest ? ? ? ? ? Hc IH]; intros q Hq; [by apply elem_of_nil in Hq|].
  apply elem_of_cons in Hq as [->|Hq]; [lia|]. specialize (IH q Hq).
  assert (rem - p_size p ≠ 0)%N; [|lia]. intros Hz. rewrite Hz in Hc. inversion Hc; subst; [by apply elem_of_nil in Hq|lia].
Qed.

(** The start of every session leaves the gap after the last end so far. *)
Lemma chain_gaps minimum maximum sessions gap max_days index rem prev days count l rem' :
  chain minimum maximum sessions gap max_days index rem prev days count l rem' →
  Forall (λ p, ∃ st0 w, answer st0 (p_search p) w (p_candidate p)) l →
  (∀ e p, prev = Some e → p ∈ l → (e + Z.of_N gap * nanos_per_minute <= iv_start (cand_interval (p_candidate p)))%Z) ∧
  (∀ i j p q, i < j → l !! i = Some p → l !! j = Some q →
     (iv_end (cand_interval (p_candidate p)) + Z.of_N gap * nanos_per_minute <= iv_start (cand_interval (p_candidate q)))%Z).
Proof.
  induction 1 as [|index rem prev days count p l rem' ? ? ? ? ? ? Hgap ? ? Hc IH]; intros Ha.
  { split; [by intros ? ? _ ?%elem_of_nil|done]. }
  apply Forall_cons in Ha as [(st0 & w & [Hpl _ _]) Ha]. destruct (IH Ha) as [IH1 IH2]. split.
  - intros e q -> [->|Hq]%elem_of_cons; simpl in Hgap; destruct Hgap as (t & Ht & He); apply checked_add_exact in Ht as [Ht _].
    + pose proof (pl_earliest _ _ _ _ Hpl t He). unfold duration_minutes in Ht. lia.
    + specialize (IH1 _ q eq_refl Hq). pose proof (pl_earliest _ _ _ _ Hpl t He). pose proof (pl_length _ _ _ _ Hpl).
      unfold duration_minutes, nanos_per_minute in *. lia.
  - intros [|i] [|j] q r Hij Hi Hj; simplify_eq/=; [lia| |lia|].
    + apply (IH1 _ r eq_refl). by eapply list_elem_of_lookup_2.
    + apply (IH2 i j); [lia|done..].
Qed.

Lemma chain_days minimum maximum sessions gap limit index rem prev days count l rem' :
  chain minimum maximum sessions gap (Some limit) index rem prev days count l rem' →
  Forall (λ p, ∃ st0 w, answer st0 (p_search p) w (p_candidate p)) l →
  size (days ∪ list_to_set ((λ p, odt_date (iv_start (cand_interval (p_candidate p)))) <$> l)) ≤
    max (N.to_nat limit) (size days).
Proof.
  induction 1 as [|index rem prev days count p l rem' ? ? ? ? ? ? Hgap Hd Hm Hc IH]; intros Ha.
  { simpl. replace (days ∪ ∅) with days by set_solver. lia. }
  apply Forall_cons in Ha as [(st0 & w & [_ Hlim _]) Ha]. specialize (IH Ha).
  rewrite fmap_cons, list_to_set_cons. set (d := odt_date (iv_start (cand_interval (p_candidate p)))) in *.
  set (rest := list_to_set _) in *. replace (days ∪ ({[d]} ∪ rest)) with ({[d]} ∪ days ∪ rest) by set_solver.
  unfold day_limit_reached in Hlim. rewrite Hm, Hd in Hlim. fold d in Hlim.
  apply andb_false_iff in Hlim as [Hin|Hlt%Nat.leb_gt].
  - apply negb_false_iff, bool_decide_eq_true in Hin. assert ({[d]} ∪ days = days) as Heq by set_solver.
    rewrite Heq in IH |- *. exact IH.
  - etransitivity; [exact IH|]. pose proof (size_union_alt {[d]} days) as Hu. rewrite size_singleton in Hu.
    assert (size (days ∖ {[d]}) ≤ size days) by (apply subseteq_size; set_solver). lia.
Qed.
End effects.

(** ** Lemmas: the state a run starts in *)

Lemma last_finish_ge l t b : last_finish l = Some t → b ∈ l → (sb_end b <= t)%Z.
Proof. intros [_ Hle]%last_finish_spec. apply Hle. Qed.

Lemma last_finish_None l : last_finish l = None → l = [].
Proof. destruct l; done. Qed.

(** The first free index is above every index in use. *)
Lemma first_index_fresh `{Platform} st item rem index :
  sl_session_index (first_loop st item rem) = Some index →
  (∀ b, b ∈ item_blocks (blocks st) (wi_id item) → (sb_session_index b < index)%N) ∧
  (∀ high, session_high_water st !! wi_id item = Some high → (high < index)%N).
Proof.
  unfold first_loop. simpl. set (existing := item_blocks (blocks st) (wi_id item)).
  destruct (max_by N.compare (sb_session_index <$> existing)) as [m|] eqn:Em.
  - pose proof (max_by_N_ge _ _ Em) as Hm.
    assert (∀ b, b ∈ existing → (sb_session_index b <= m)%N) as Hb.
    { intros b Hb. apply Hm. by apply list_elem_of_fmap_2. }
    destruct (session_high_water st !! wi_id item) as [h|]; simpl; intros [-> _]%checked_add_Some; split;
      [intros b Hin; specialize (Hb b Hin); lia|intros ? [= <-]; lia|intros b Hin; specialize (Hb b Hin); lia|done].
  - assert (existing = []) as -> by (by destruct existing).
    destruct (session_high_water st !! wi_id item) as [h|]; simpl.
    + intros [-> _]%checked_add_Some. split; [by intros ? ?%elem_of_nil|]. intros ? [= <-]. lia.
    + intros [= <-]. split; [by intros ? ?%elem_of_nil|done].
Qed.

(** ** Theorems *)

Section theorems.
Context `{PlatformLaws}.
Context (request : PlanRequest) (item : WorkItem) (deps : list Dependency) (all_items : gmap ItemId WorkItem)
  (st st' : PlanningState) (ok : bool) (e : DurationEstimate).

(** C5. No minute of work of an item with a duration estimate is lost or invented: the planned blocks an item gains
    and the minutes reported as unscheduled add up to what was left to place,
    and the outcome is success exactly when nothing is left over. *)
Theorem schedule_item_conserves_minutes :
  valid_split (wi_split_policy item) → (0 < slot_granularity (config request))%N → wi_duration item = Some e →
  schedule_item request item deps all_items st = (st', ok) →
  ∃ new left, blocks st' = blocks st ++ new ∧
    (∀ b, b ∈ new → sb_item_id b = Some (wi_id item) ∧ sb_kind b = Planned ∧ (0 < length_minutes b)%N) ∧
    (planned_minutes new + left = remaining_demand st item (planning_minutes e))%N ∧
    ok = (left =? 0)%N ∧
    uw_remaining <$> unscheduled st' = (uw_remaining <$> unscheduled st) ++ (if (left =? 0)%N then [] else [left]).
Proof.
  intros Hsplit Hg He Hs.
  destruct (schedule_item_run _ _ _ _ _ _ _ _ Hsplit He Hs) as (l & st1 & left & Hl & Hz & Hp & Hb & _ & Hok & Hu & _).
  destruct (placing_effect _ _ _ _ _ _ _ Hl) as (Hblocks & _).
  destruct (placing_minutes _ _ _ _ _ _ _ Hg Hl) as [Hsum Hlen].
  exists (placement_block item <$> l), left. split_and!; [by rewrite Hb| | |done|done].
  - intros b (p & -> & Hin)%list_elem_of_fmap. split_and!; [done|done|]. rewrite Hlen by done.
    assert (∀ st l st', placing request item deps all_items st l st' → ∀ p, p ∈ l → (0 < p_size p)%N) as Hpos.
    { clear. induction 1; [by intros ? ?%elem_of_nil|]. intros q [->|Hq]%elem_of_cons; auto. }
    by eapply Hpos.
  - rewrite Hsum. destruct (decide (remaining_demand st item (planning_minutes e) = 0%N)) as [Hd|Hd].
    + destruct (Hz Hd) as [-> ->]. by rewrite Hd.
    + eapply policy_run_sizes, Hp. lia.
Qed.

(** New sessions take fresh indices: consecutive, and above every index the
    item has in the plan or in its history. *)
Theorem session_indices_fresh :
  valid_split (wi_split_policy item) → wi_duration item = Some e →
  schedule_item request item deps all_items st = (st', ok) →
  ∃ new, blocks st' = blocks st ++ new ∧
    ∀ i b, new !! i = Some b → ∃ first, sb_session_index b = (first + N.of_nat i)%N ∧
      (∀ old, old ∈ item_blocks (blocks st) (wi_id item) → (sb_session_index old < first)%N) ∧
      (∀ high, session_high_water st !! wi_id item = Some high → (high < first)%N).
Proof.
  intros Hsplit He Hs.
  destruct (schedule_item_run _ _ _ _ _ _ _ _ Hsplit He Hs) as (l & st1 & left & Hl & Hz & Hp & Hb & _).
  destruct (placing_effect _ _ _ _ _ _ _ Hl) as (Hblocks & _).
  exists (placement_block item <$> l). split; [by rewrite Hb|].
  intros i b (p & -> & Hi)%list_lookup_fmap_Some.
  destruct (decide (remaining_demand st item (planning_minutes e) = 0%N)) as [Hd|Hd]; [destruct (Hz Hd) as [-> _]; done|].
  specialize (Hp ltac:(lia)). set (rem := remaining_demand st item (planning_minutes e)) in *.
  assert (∃ first, sl_session_index (first_loop st item rem) = Some first ∧
    se_session_index (p_search p) = (first + N.of_nat i)%N) as (first & Hf & Hidx).
  { unfold policy_run in Hp. destruct (wi_split_policy item); [|by eapply chain_indices].
    destruct Hp as [[-> _]|(q & -> & _ & _ & Hq & _)]; [done|]. apply list_lookup_singleton_Some in Hi as [-> ->].
    eexists. split; [exact Hq|]. lia. }
  exists first. split; [done|]. by eapply first_index_fresh.
Qed.

(** The split policy holds: the session count (with the item's live
    sessions) stays within its limit, every session within its bounds, the gap
    is kept after every earlier session of the item, and the days used stay
    within their limit, unless they exceeded it before. *)
Theorem schedule_item_respects_split minimum maximum sessions gap max_days :
  wi_split_policy item = Splittable minimum maximum sessions gap max_days →
  valid_split (wi_split_policy item) → (0 < slot_granularity (config request))%N → wi_duration item = Some e →
  schedule_item request item deps all_items st = (st', ok) →
  ∃ new, blocks st' = blocks st ++ new ∧
    (new ≠ [] → size (live_sessions st (wi_id item)) + length new ≤ N.to_nat sessions) ∧
    (∀ b, b ∈ new → N.min minimum (remaining_demand st item (planning_minutes e)) <= length_minutes b <= maximum)%N ∧
    (∀ old b, old ∈ item_blocks (blocks st) (wi_id item) → b ∈ new →
       (sb_end old + Z.of_N gap * nanos_per_minute <= sb_start b)%Z) ∧
    (∀ i j a b, i < j → new !! i = Some a → new !! j = Some b →
       (sb_end a + Z.of_N gap * nanos_per_minute <= sb_start b)%Z) ∧
    ∀ limit, max_days = Some limit →
      let days (l : list ScheduleBlock) : gset Z := list_to_set ((λ b, odt_date (sb_start b)) <$> l) in
      size (days (item_blocks (blocks st) (wi_id item)) ∪ days new) ≤
        max (N.to_nat limit) (size (days (item_blocks (blocks st) (wi_id item)))).
Proof.
  intros Hpolicy Hsplit Hg He Hs.
  destruct (schedule_item_run _ _ _ _ _ _ _ _ Hsplit He Hs) as (l & st1 & left & Hl & Hz & Hp & Hb & _).
  destruct (placing_effect _ _ _ _ _ _ _ Hl) as (Hblocks & _).
  destruct (placing_minutes _ _ _ _ _ _ _ Hg Hl) as [_ Hlen].
  pose proof (placing_answers _ _ _ _ _ _ _ Hg Hl) as Ha.
  assert (Forall (λ p, ∃ st0 w, answer st0 (p_search p) w (p_candidate p)) l) as Ha'.
  { eapply Forall_impl; [exact Ha|]. by intros p [_ ?]. }
  exists (placement_block item <$> l). split; [by rewrite Hb|]. cbv zeta.
  set (rem := remaining_demand st item (planning_minutes e)) in *.
  destruct (decide (rem = 0%N)) as [Hd|Hd].
  { destruct (Hz Hd) as [-> _]. simpl. split_and!; try done; [by intros ? ?%elem_of_nil|by intros ??? ?%elem_of_nil|].
    intros. replace (_ ∪ ∅) with (list_to_set ((λ b, odt_date (sb_start b)) <$> item_blocks (blocks st) (wi_id item)) : gset Z) by set_solver. lia. }
  specialize (Hp ltac:(lia)). unfold policy_run in Hp. rewrite Hpolicy in Hp.
  destruct (chain_gaps _ _ _ _ _ _ _ _ _ _ _ _ Hp Ha') as [Hgap1 Hgap2]. split_and!.
  - intros Hne. rewrite length_fmap. assert (l ≠ []) as Hne' by (by intros ->).
    pose proof (chain_count _ _ _ _ _ _ _ _ _ _ _ _ Hp Hne'). lia.
  - intros b (p & -> & Hin)%list_elem_of_fmap. rewrite Hlen by done. by eapply chain_size_bounds.
  - intros old b Hold (p & -> & Hin)%list_elem_of_fmap.
    destruct (last_finish (item_blocks (blocks st) (wi_id item))) as [t|] eqn:Et.
    + pose proof (last_finish_ge _ _ _ Et Hold). specialize (Hgap1 t p Et Hin). simpl. lia.
    + apply last_finish_None in Et. rewrite Et in Hold. by apply elem_of_nil in Hold.
  - intros i j a b Hij (p & -> & Hi)%list_lookup_fmap_Some (q & -> & Hj)%list_lookup_fmap_Some. by eapply Hgap2.
  - intros limit ->. rewrite <- list_fmap_compose. by apply (chain_days _ _ _ _ _ _ _ _ _ _ _ _ Hp).
Qed.
End theorems.

(** ** Witnesses: the split task of Validation.v on an empty day *)

Definition split_run : PlanningState * bool :=
  @schedule_item utc_platform (sample_request [split_item]) split_item [] ∅ empty_state.

Lemma split_run_eq :
  @schedule_item utc_platform (sample_request [split_item]) split_item [] ∅ empty_state = (split_run.1, split_run.2).
Proof. apply surjective_pairing. Qed.

Lemma split_item_valid : valid_split (wi_split_policy split_item).
Proof. simpl. lia. Qed.

Lemma sample_granularity : (0 < slot_granularity (config (sample_request [split_item])))%N.
Proof. done. Qed.

Lemma schedule_item_conserves_minutes_witness :
  ∃ new left, blocks split_run.1 = blocks empty_state ++ new ∧ (planned_minutes new + left = 60)%N.
Proof.
  destruct (@schedule_item_conserves_minutes utc_platform utc_platform_laws _ _ _ _ _ _ _ _
    split_item_valid sample_granularity eq_refl split_run_eq) as (new & left & Hb & _ & Hsum & _).
  exists new, left. split; [exact Hb|]. rewrite Hsum. vm_compute. reflexivity.
Defined.

Lemma session_indices_fresh_witness :
  ∃ new, blocks split_run.1 = blocks empty_state ++ new ∧
    ∀ i b, new !! i = Some b → ∃ first, sb_session_index b = (first + N.of_nat i)%N.
Proof.
  destruct (@session_indices_fresh utc_platform _ _ _ _ _ _ _ _
    split_item_valid eq_refl split_run_eq) as (new & Hb & Hidx).
  exists new. split; [exact Hb|]. intros i b Hi. destruct (Hidx i b Hi) as (first & Hf & _). exists first. exact Hf.
Defined.

Lemma schedule_item_respects_split_witness :
  ∃ new, blocks split_run.1 = blocks empty_state ++ new ∧
    (∀ b, b ∈ new → 15 <= length_minutes b <= 30)%N.
Proof.
  destruct (@schedule_item_respects_split utc_platform utc_platform_laws (sample_request [split_item]) split_item [] ∅
    empty_state split_run.1 split_run.2 (exact_estimate 60) 15%N 30%N 3%N 10%N (Some 1%N) eq_refl split_item_valid sample_granularity eq_refl split_run_eq) as (new & Hb & _ & Hsize & _).
  exists new. split; [exact Hb|]. intros b Hin. exact (Hsize b Hin).
Defined.
