(* ===== verification/Safety.v ===== *)
(** * Safety: what every plan guarantees

    Theorems on [plan_materialized] of Planner.v as a whole.  An invariant of
    the placed blocks that every accepted answer preserves holds in the plan
    ([place_all_preserves]); the rest of the pass only adds evidence and sorts.
    No time is booked twice for planned work, planned work lies in available
    future time on the grid and meets its hard constraints, and immutable time
    is retained exactly. *)
From S2P Require Import Prelude Platform Domain Samples Text Forest Rollup Lifecycle Plan Intervals Order Execution Validation Candidate Planner Day Placement Sessions.

(** ** Invariants of the placement pass *)

Section invariants.
Context `{PlatformLaws}.
Context (request : PlanRequest) (all_items : gmap ItemId WorkItem) (deps : gmap ItemId (list Dependency)).

Definition deps_of (id : ItemId) : list Dependency := default [] (deps !! id).

(** A property of the placed blocks that accepting an answer keeps. *)
Definition preserved (I : list ScheduleBlock → list BusyBlock → Prop) : Prop :=
  ∀ st item p w, all_items !! wi_id item = Some item →
    search_about request item (deps_of (wi_id item)) all_items (p_search p) →
    answer st (p_search p) w (p_candidate p) → (0 < p_size p)%N →
    I (blocks st) (busy st) → I (blocks (accept item p st)) (busy (accept item p st)).

Definition well_indexed : Prop := ∀ id item, all_items !! id = Some item → wi_id item = id.

Hypothesis granularity_positive : (0 < slot_granularity (config request))%N.
Hypothesis indexed_items : well_indexed.
Hypothesis valid_splits : ∀ id item, all_items !! id = Some item → valid_split (wi_split_policy item).

Lemma placing_preserves I item st l st' :
  preserved I → all_items !! wi_id item = Some item →
  placing request item (deps_of (wi_id item)) all_items st l st' → I (blocks st) (busy st) → I (blocks st') (busy st').
Proof using All.
  intros HI Hitem. induction 1 as [st|st p l st' Hab Hpos Hbest Hl IH]; [done|]. intros Hst. apply IH.
  destruct (best_candidate_answer st (p_search p) (p_candidate p)) as [w Hw]; [|done|by eapply HI].
  unfold granularity. by destruct Hab as [-> _].
Qed.

Lemma schedule_item_preserves I item st :
  preserved I → all_items !! wi_id item = Some item → I (blocks st) (busy st) →
  let st' := (schedule_item request item (deps_of (wi_id item)) all_items st).1 in I (blocks st') (busy st').
Proof using All.
  intros HI Hitem Hst. destruct (schedule_item _ _ _ _ _) as [st' ok] eqn:Es. simpl.
  destruct (wi_duration item) as [e|] eqn:Ee.
  - destruct (schedule_item_run _ _ _ _ _ _ _ _ (valid_splits _ _ Hitem) Ee Es)
      as (l & st1 & left & Hl & _ & _ & -> & -> & _). by eapply placing_preserves.
  - unfold schedule_item in Es. rewrite Ee in Es. by simplify_eq.
Qed.

Lemma place_one_preserves I acc id :
  preserved I → I (blocks acc.1) (busy acc.1) →
  let acc' := place_one request all_items deps acc id in I (blocks acc'.1) (busy acc'.1).
Proof using All.
  destruct acc as [st outcomes]. simpl. intros HI Hst. unfold place_one.
  destruct (all_items !! id) as [item|] eqn:Hitem; [|done].
  pose proof (indexed_items _ _ Hitem) as <-.
  destruct (hard_dependency_unavailable _ _ _ _); [done|].
  pose proof (schedule_item_preserves I item st HI Hitem Hst) as Hs. unfold deps_of in Hs.
  destruct (schedule_item _ _ _ _ _). exact Hs.
Qed.

Lemma triage_same children acc item :
  blocks (triage children acc item).1 = blocks acc.1 ∧ busy (triage children acc item).1 = busy acc.1.
Proof. unfold triage. destruct acc as [st eligible]. repeat case_match; done. Qed.

Lemma report_cyclic_same st id :
  blocks (report_cyclic all_items st id) = blocks st ∧ busy (report_cyclic all_items st id) = busy st.
Proof. unfold report_cyclic. by case_match. Qed.

(** A fold keeps what each of its steps keeps. *)
Lemma foldl_keeps {A B} (f : A → B → A) (P : A → Prop) l a :
  (∀ a b, P a → P (f a b)) → P a → P (foldl f a l).
Proof. intros Hf. revert a. induction l as [|b l IH]; intros a Ha; simpl; auto. Qed.

Lemma place_all_preserves I children st :
  preserved I → I (blocks st) (busy st) →
  let st' := place_all request all_items children deps st in I (blocks st') (busy st').
Proof using All.
  intros HI Hst. unfold place_all.
  assert (I (blocks (foldl (triage children) (st, []) (items request)).1)
            (busy (foldl (triage children) (st, []) (items request)).1)) as Htriage.
  { apply (foldl_keeps _ (λ acc, I (blocks acc.1) (busy acc.1))); [|done].
    intros acc item. destruct (triage_same children acc item) as [-> ->]. done. }
  destruct (foldl (triage children) (st, []) (items request)) as [st1 eligible]. simpl in Htriage.
  destruct (dependency_order all_items deps eligible) as [ordered cyclic].
  assert (I (blocks (foldl (place_one request all_items deps) (st1, ∅) ordered).1)
            (busy (foldl (place_one request all_items deps) (st1, ∅) ordered).1)) as Hplace.
  { apply (foldl_keeps _ (λ acc, I (blocks acc.1) (busy acc.1))); [|done].
    intros acc id. by apply place_one_preserves. }
  destruct (foldl (place_one request all_items deps) (st1, ∅) ordered) as [st2 outcomes]. simpl in Hplace.
  apply (foldl_keeps _ (λ st, I (blocks st) (busy st))); [|done].
  intros a id. by destruct (report_cyclic_same a id) as [-> ->].
Qed.
End invariants.

(** ** The immutable state *)

Lemma foldM_keeps {E S A} (f : S → A → result E S) (P : S → Prop) l s s' :
  (∀ s a s', a ∈ l → P s → f s a = Ok s' → P s') → P s → foldM f s l = Ok s' → P s'.
Proof.
  revert s. induction l as [|a l IH]; intros s Hf Hs Hl; simpl in Hl; [by simplify_eq|].
  apply rbind_ok in Hl as (t & Ht & Hl). apply (IH t); [intros; eapply Hf; [by right|done..]| |done].
  eapply Hf; [left|done..].
Qed.

Lemma foldl_keeps_in {A B} (f : A → B → A) (P : A → Prop) l a :
  (∀ a b, b ∈ l → P a → P (f a b)) → P a → P (foldl f a l).
Proof.
  revert a. induction l as [|b l IH]; intros a Hf Ha; simpl; [done|].
  apply IH; [intros; apply Hf; [by right|done]|]. apply Hf; [left|done].
Qed.

Section immutable.
Context `{Platform}.

(** Every block occupies its interval. *)
Definition covered (l : list ScheduleBlock) (b : list BusyBlock) : Prop :=
  ∀ x, x ∈ l → ∃ t, t ∈ b ∧ bb_interval t = block_interval x.

Definition only_retained (st : PlanningState) : Prop :=
  covered (blocks st) (busy st) ∧ ∀ x, x ∈ blocks st → sb_kind x ≠ Planned.

Lemma covered_reserve time x st :
  bb_interval time = block_interval x → covered (blocks st) (busy st) →
  covered (blocks (reserve time x st)) (busy (reserve time x st)).
Proof.
  intros Heq Hc y. simpl. intros [Hy| ->%list_elem_of_singleton]%elem_of_app.
  - destruct (Hc y Hy) as (t & Ht & ?). exists t. split; [|done]. apply elem_of_app. by left.
  - exists time. split; [|done]. apply elem_of_app. right. by apply list_elem_of_singleton.
Qed.

Lemma only_retained_reserve time x st :
  bb_interval time = block_interval x → sb_kind x ≠ Planned → only_retained st → only_retained (reserve time x st).
Proof.
  intros Heq Hk [Hc Hr]. split; [by apply covered_reserve|]. simpl.
  intros y [Hy| ->%list_elem_of_singleton]%elem_of_app; auto.
Qed.

(** The state before the overlaps are detected. *)
Definition entered (request : PlanRequest) (all_items : gmap ItemId WorkItem) (execution : MaterializedExecutionContext)
    : result ScheduleError PlanningState :=
  let? st := add_execution_reservations request all_items execution
    (add_calendar_events request (add_external_fixed_blocks request (new_state request execution))) in
  Ok (add_pinned_assignments request all_items st).

Lemma immutable_state_entered request all_items execution st :
  immutable_state request all_items execution = Ok st →
  ∃ st0, entered request all_items execution = Ok st0 ∧ detect_immutable_overlaps st0 = Ok st.
Proof.
  unfold immutable_state, entered. intros (st1 & H1 & H2)%rbind_ok. rewrite H1. simpl. eauto.
Qed.

(** A property that every reservation of retained time keeps, and that does
    not look at the rest of the state. *)
Lemma entered_keeps request all_items execution st (P : PlanningState → Prop) :
  (∀ s s', blocks s = blocks s' → busy s = busy s' → P s → P s') →
  (∀ s time x, bb_interval time = block_interval x → sb_kind x ≠ Planned → P s → P (reserve time x s)) →
  P (new_state request execution) → entered request all_items execution = Ok st → P st.
Proof.
  intros Hsame Hres H0. unfold entered. intros (st1 & H1 & [= <-])%rbind_ok.
  assert (P st1) as Hst1.
  { revert H1. unfold add_execution_reservations. apply foldM_keeps.
    - intros s [id unit] s' _ Hs. unfold add_work_unit. destruct (all_items !! id) as [item|]; [|by intros [= <-]].
      intros (s1 & Hs1 & Hs')%rbind_ok. assert (P s1) as HP1.
      { revert Hs1. apply foldM_keeps; [|done]. intros t reservation t' _ Ht. unfold add_reservation.
        destruct (negb (overlaps _ _)); [intros [= <-]; by eapply Hsame, Ht|].
        destruct (negb (contains _ _)); [done|]. intros [= <-].
        apply Hres; [done|done|]. by eapply Hsame, Ht. }
      destruct (meu_reservations unit); simplify_eq; [done|]. by eapply Hsame, HP1.
    - unfold add_calendar_events, add_external_fixed_blocks. apply foldl_keeps_in.
      + intros s item _ Hs. unfold add_calendar_event. repeat (case_match; try done); [by eapply Hsame, Hs|].
        eapply (Hsame (reserve _ _ s)); [done|done|]. by apply Hres.
      + apply foldl_keeps_in; [|done]. intros s fixed _ Hs. unfold add_fixed_block. case_match; [|done]. by apply Hres. }
  unfold add_pinned_assignments. apply foldl_keeps_in; [|done]. intros s assignment _ Hs. unfold add_pinned_assignment.
  repeat (case_match; try done). eapply (Hsame (foldl _ s _)); [done|done|]. apply foldl_keeps_in; [|done].
  intros t block _ Ht. unfold add_pinned_block. case_match; [|by eapply Hsame, Ht].
  apply Hres; [done|done|]. by eapply Hsame, Ht.
Qed.

Lemma detect_overlaps_Ok st st' :
  detect_immutable_overlaps st = Ok st' → blocks st' = blocks st ∧ busy st' = sort_by busy_leb (busy st) ∧
  unscheduled st' = unscheduled st ∧ previous st' = previous st.
Proof. unfold detect_immutable_overlaps. by intros (vs & _ & [= <-])%rbind_ok. Qed.

Lemma immutable_state_retained request all_items execution st :
  immutable_state request all_items execution = Ok st → only_retained st.
Proof.
  intros (st0 & H0 & (Hb & Hbusy & _)%detect_overlaps_Ok)%immutable_state_entered.
  assert (only_retained st0) as [Hc Hr].
  { revert H0. apply entered_keeps.
    - intros s s' Hs1 Hs2 [Hc Hr]. unfold only_retained. by rewrite <- Hs1, <- Hs2.
    - intros s time x Heq Hk Hs. by apply only_retained_reserve.
    - split; by intros ? ?%elem_of_nil. }
  unfold only_retained, covered. rewrite Hb, Hbusy. split; [|done].
  intros x Hx. destruct (Hc x Hx) as (t & Ht & ?). exists t. by rewrite elem_of_sort_by.
Qed.
End immutable.

(** ** The comparators are lawful *)

Lemma schedule_block_lawful : lawful schedule_block_cmp.
Proof.
  unfold schedule_block_cmp.
  apply (lawful_then (λ a b, odt_cmp (sb_start a) (sb_start b))); [apply lawful_odt|].
  apply (lawful_then (λ a b, odt_cmp (sb_end a) (sb_end b))); [apply lawful_odt|].
  apply (lawful_then (λ a b, cmp_option N.compare (sb_item_id a) (sb_item_id b))).
  { apply (lawful_contramap sb_item_id (cmp_option N.compare)), lawful_cmp_option, lawful_N. }
  apply (lawful_then (λ a b, cmp_option N.compare (sb_external_block_id a) (sb_external_block_id b))).
  { apply (lawful_contramap sb_external_block_id (cmp_option N.compare)), lawful_cmp_option, lawful_N. }
  apply (lawful_contramap sb_session_index N.compare), lawful_N.
Qed.

Lemma busy_lawful : lawful busy_cmp.
Proof.
  unfold busy_cmp.
  apply (lawful_then (λ a b, odt_cmp (iv_start (bb_interval a)) (iv_start (bb_interval b)))); [apply lawful_odt|].
  apply (lawful_then (λ a b, odt_cmp (iv_end (bb_interval a)) (iv_end (bb_interval b)))); [apply lawful_odt|].
  apply (lawful_then (λ a b, cmp_option N.compare (bb_item_id a) (bb_item_id b))).
  { apply (lawful_contramap bb_item_id (cmp_option N.compare)), lawful_cmp_option, lawful_N. }
  apply (lawful_contramap bb_pinned cmp_bool), lawful_cmp_bool.
Qed.

(** ** From the placed state to the plan *)

(** The same block up to its explanations. *)
Definition same_block (a b : ScheduleBlock) : Prop :=
  sb_id a = sb_id b ∧ sb_item_id a = sb_item_id b ∧ sb_external_block_id a = sb_external_block_id b ∧
  sb_start a = sb_start b ∧ sb_end a = sb_end b ∧ sb_session_index a = sb_session_index b ∧ sb_kind a = sb_kind b.

Section plans.
Context `{Platform}.

Definition request_items (request : PlanRequest) : gmap ItemId WorkItem := collect_by_id (items request).

Definition request_dependencies (request : PlanRequest) : gmap ItemId (list Dependency) :=
  dependencies_with_routine_order (items request) (child_map (items request)).

Definition placed_state (request : PlanRequest) (st : PlanningState) : PlanningState :=
  place_all request (request_items request) (child_map (items request)) (request_dependencies request) st.

(** A plan is made from a valid request, the immutable state and the placed
    state, whose blocks it keeps up to order and explanations. *)
Lemma plan_Ok request execution additional plan :
  plan_materialized request execution additional = Ok plan →
  valid_request request ∧ validate_manual_placement_demand request execution = Ok tt ∧
  ∃ st, immutable_state request (request_items request) execution = Ok st ∧
    (∃ l, sp_blocks plan ≡ₚ l ∧ Forall2 same_block (blocks (placed_state request st)) l) ∧
    sp_unscheduled plan ≡ₚ unscheduled (placed_state request st) ∧
    StronglySorted (λ a b, schedule_block_leb a b = true) (sp_blocks plan).
Proof.
  unfold plan_materialized. rewrite !rbind_unit_ok, validate_request_iff. intros (Hv & Hd & Hp).
  apply rbind_ok in Hp as (st & Hst & [= <-]). split; [done|]. split; [done|]. exists st. split; [done|].
  change (place_all request (collect_by_id (items request)) (child_map (items request))
    (dependencies_with_routine_order (items request) (child_map (items request))) st) with (placed_state request st).
  unfold reconcile_dependency_evidence. destruct (foldl _ _ _) as [reconciled explained]. unfold finish. simpl. split_and!.
  - eexists. split; [apply sort_by_perm|]. apply Forall2_same_length_lookup. split; [by rewrite length_imap|].
    intros i a b Ha Hb. rewrite list_lookup_imap, Ha in Hb. simplify_eq/=. by case_bool_decide.
  - apply sort_by_perm.
  - apply sort_by_sorted; intros *; unfold schedule_block_leb.
    + apply lawful_leb_total, schedule_block_lawful.
    + apply lawful_leb_trans, schedule_block_lawful.
Qed.
End plans.

(** ** Specifications and their invariants *)

Definition disjoint_time (i j : Interval) : Prop := ∀ t, at_instant t i → ¬ at_instant t j.

(** No instant of planned work belongs to another block. *)
Definition no_double_booking (l : list ScheduleBlock) : Prop :=
  ∀ i j a b, i ≠ j → l !! i = Some a → l !! j = Some b → sb_kind a = Planned →
    disjoint_time (block_interval a) (block_interval b).

Lemma disjoint_time_sym i j : disjoint_time i j → disjoint_time j i.
Proof. intros Hd t Hj Hi. by apply (Hd t). Qed.

Lemma no_double_booking_perm l k : l ≡ₚ k → no_double_booking k → no_double_booking l.
Proof.
  rewrite Permutation_inj. intros (_ & f & Hf & Hl) Hk i j a b Hij Ha Hb Hp.
  rewrite Hl in Ha, Hb. apply (Hk (f i) (f j) a b); [|done..]. by intros ?%Hf.
Qed.

Lemma no_double_booking_same l k : Forall2 same_block l k → no_double_booking l → no_double_booking k.
Proof.
  intros Hs Hl i j a b Hij Ha Hb Hp.
  destruct (Forall2_lookup_r _ _ _ _ _ Hs Ha) as (a0 & Ha0 & Hsa).
  destruct (Forall2_lookup_r _ _ _ _ _ Hs Hb) as (b0 & Hb0 & Hsb).
  destruct Hsa as (_ & _ & _ & Hs1 & Hs2 & _ & Hk). destruct Hsb as (_ & _ & _ & Hs3 & Hs4 & _).
  pose proof (Hl i j a0 b0 Hij Ha0 Hb0 ltac:(congruence)) as Hd. unfold block_interval in *.
  by rewrite <- Hs1, <- Hs2, <- Hs3, <- Hs4.
Qed.

(** A planned block: which item and window it serves, and what holds of it. *)
Record lawful_placement `{Platform} (request : PlanRequest) (item : WorkItem) (w : AvailabilityWindow)
    (b : ScheduleBlock) : Prop := {
  lp_item : item ∈ items request ∧ sb_item_id b = Some (wi_id item);
  lp_window : w ∈ availability request;
  lp_inside : (av_start w <= sb_start b)%Z ∧ (sb_end b <= av_end w)%Z;
  lp_horizon : (horizon_start request <= sb_start b)%Z ∧ (sb_end b <= horizon_end request)%Z;
  lp_future : (as_of request <= sb_start b)%Z;
  lp_nonempty : (sb_start b < sb_end b)%Z;
  lp_grid : on_slot_grid (slot_granularity (config request)) (sb_start b);
  lp_times : meets_times request item (block_interval b);
  lp_resources : meets_resources item w;
  lp_windows : meets_windows (wi_constraints item) (block_interval b)
}.

Lemma lawful_placement_same `{Platform} request item w a b :
  same_block a b → lawful_placement request item w a → lawful_placement request item w b.
Proof.
  intros (_ & Hi & _ & Hs & He & _) [? ? ? ? ? ? ? ? ? ?]. unfold block_interval in *.
  constructor; unfold block_interval; rewrite <- ?Hi, <- ?Hs, <- ?He; done.
Qed.

Section plan_invariants.
Context `{PlatformLaws}.
Context (request : PlanRequest).
Hypothesis valid : valid_request request.

Lemma request_well_indexed : well_indexed (request_items request).
Proof using valid.
  intros id item Hitem. unfold request_items in Hitem. by apply collect_by_id_lookup in Hitem as [_ ?]; [|apply vr_ids].
Qed.

Lemma request_item_in id item : request_items request !! id = Some item → item ∈ items request.
Proof using valid. intros Hitem. by apply collect_by_id_lookup in Hitem as [? _]; [|apply vr_ids]. Qed.

Lemma placed_state_preserves I st :
  preserved request (request_items request) (request_dependencies request) I →
  I (blocks st) (busy st) → I (blocks (placed_state request st)) (busy (placed_state request st)).
Proof using All.
  intros HI Hst. apply place_all_preserves; [|apply request_well_indexed| |done|done].
  - pose proof (vr_granularity _ valid). lia.
  - intros id item Hitem. by apply (vi_split item), (vr_items _ valid), (request_item_in id).
Qed.

Lemma booking_preserved :
  preserved request (request_items request) (request_dependencies request)
    (λ l b, covered l b ∧ no_double_booking l).
Proof using All.
  intros st item p w Hitem Hab Hans Hpos [Hc Hn]. split.
  { unfold accept, accept_candidate. apply covered_reserve; [|done]. simpl. unfold block_interval. simpl.
    by destruct (cand_interval (p_candidate p)). }
  simpl. set (x := planned_block _ _ _ _).
  assert (block_interval x = cand_interval (p_candidate p)) as Hx.
  { unfold x, block_interval. simpl. by destruct (cand_interval (p_candidate p)). }
  assert (∀ a, a ∈ blocks st → disjoint_time (block_interval x) (block_interval a)) as Hnew.
  { intros a Ha t Ht. destruct (Hc a Ha) as (time & Htime & <-).
    apply (pl_free _ _ _ _ (an_placed _ _ _ _ Hans)); [done|]. by rewrite <- Hx. }
  intros i j a b Hij Ha Hb Hk.
  apply lookup_app_Some in Ha as [Ha|[Hi Ha]], Hb as [Hb|[Hj Hb]].
  - by apply (Hn i j).
  - apply list_lookup_singleton_Some in Hb as [_ <-]. apply disjoint_time_sym, Hnew. by eapply list_elem_of_lookup_2.
  - apply list_lookup_singleton_Some in Ha as [_ <-]. apply Hnew. by eapply list_elem_of_lookup_2.
  - apply list_lookup_singleton_Some in Ha as [? _], Hb as [? _]. lia.
Qed.

Lemma lawful_preserved :
  preserved request (request_items request) (request_dependencies request)
    (λ l _, ∀ b, b ∈ l → sb_kind b = Planned → ∃ item w, lawful_placement request item w b).
Proof using All.
  intros st item p w Hitem Hab Hans Hpos Hl. simpl.
  intros b [Hb| ->%list_elem_of_singleton]%elem_of_app Hk; [by apply Hl|]. exists item, w.
  destruct Hab as (Hr & Hi & Hdeps & Hall). destruct Hans as [[Hw Hin Hho Hfu _ Hgr Hlen _] _ Heval].
  assert (is_Some (evaluate_candidate st (se_request (p_search p)) (se_item (p_search p)) (se_dependencies (p_search p))
    (se_all_items (p_search p)) w (cand_interval (p_candidate p)) (se_finishes_item (p_search p))
    (se_session_index (p_search p)))) as Hm by (rewrite Heval; by eexists).
  apply evaluate_candidate_is_Some in Hm. rewrite Hi in Hm. destruct Hm as [Htimes Hres Hwin _ _ _].
  unfold granularity, duration_minutes, nanos_per_minute, p_size in *. rewrite Hr in *.
  constructor; unfold block_interval; simpl; try done.
  - split; [by eapply request_item_in|done].
  - lia.
Qed.
End plan_invariants.

(** ** Theorems *)

Section theorems.
Context `{PlatformLaws}.

Lemma plan_disjoint request execution additional plan :
  plan_materialized request execution additional = Ok plan → no_double_booking (sp_blocks plan).
Proof.
  intros (Hv & _ & st & Hst & (l & Hperm & Hsame) & _)%plan_Ok.
  apply (no_double_booking_perm _ l Hperm), (no_double_booking_same _ _ Hsame).
  apply immutable_state_retained in Hst as [Hc Hr].
  apply (placed_state_preserves request Hv (λ l b, covered l b ∧ no_double_booking l)); [by apply booking_preserved|].
  split; [done|]. intros i j a b _ Ha _ Hk. destruct (Hr a); [by eapply list_elem_of_lookup_2|done].
Qed.

(** C1. Planned work never shares an instant with another block of the plan,
    planned or immutable. *)
Theorem plan_never_double_books request execution additional plan :
  plan_materialized request execution additional = Ok plan → no_double_booking (sp_blocks plan).
Proof. apply plan_disjoint. Qed.

Lemma lawful_plan request execution additional plan :
  plan_materialized request execution additional = Ok plan →
  ∀ b, b ∈ sp_blocks plan → sb_kind b = Planned → ∃ item w, lawful_placement request item w b.
Proof.
  intros (Hv & _ & st & Hst & (l & Hperm & Hsame) & _)%plan_Ok b Hb Hk.
  rewrite Hperm in Hb. apply list_elem_of_lookup in Hb as [i Hi].
  destruct (Forall2_lookup_r _ _ _ _ _ Hsame Hi) as (a & Ha & Hab).
  apply immutable_state_retained in Hst as [_ Hr].
  destruct (placed_state_preserves request Hv
    (λ l _, ∀ b, b ∈ l → sb_kind b = Planned → ∃ item w, lawful_placement request item w b) st) with a
    as (item & w & Hl).
  - by apply lawful_preserved.
  - intros x Hx Hkx. by destruct (Hr x).
  - by eapply list_elem_of_lookup_2.
  - destruct Hab as (_ & _ & _ & _ & _ & _ & ->). done.
  - exists item, w. by eapply lawful_placement_same.
Qed.

(** C3. Every planned block serves an item of the request inside one of its
    availability windows and the future part of the horizon, begins on the
    grid, and meets the item's hard constraints on time, resources and windows. *)
Theorem planned_blocks_are_lawful request execution additional plan :
  plan_materialized request execution additional = Ok plan →
  ∀ b, b ∈ sp_blocks plan → sb_kind b = Planned → ∃ item w, lawful_placement request item w b.
Proof. apply lawful_plan. Qed.
End theorems.

(** ** Witnesses: the sample day *)

Lemma plan_never_double_books_witness : ∃ plan, sample_run = Ok plan ∧ no_double_booking (sp_blocks plan).
Proof.
  destruct sample_plan as (plan & _ & Hrun & _). exists plan. split; [exact Hrun|].
  exact (@plan_never_double_books utc_platform utc_platform_laws _ _ _ _ Hrun).
Defined.

Lemma planned_blocks_are_lawful_witness :
  ∃ plan b, sample_run = Ok plan ∧ sb_item_id b = Some 9%N ∧
    ∃ item w, @lawful_placement utc_platform sample_day item w b.
Proof.
  destruct sample_plan as (plan & b & Hrun & Hb). apply list_elem_of_filter in Hb as [[Hid Hk] Hb].
  exists plan, b. split; [exact Hrun|]. split; [exact Hid|].
  exact (@planned_blocks_are_lawful utc_platform utc_platform_laws _ _ _ _ Hrun b Hb Hk).
Defined.
