(* ===== verification/Retained.v ===== *)
(** * Retained: immutable time in the plan

    Theorems on the immutable part of a plan of Planner.v: the blocks that are
    not planned are exactly the fixed blocks, calendar events, execution
    reservations and pinned sessions that meet the horizon, and the overlaps
    between immutable blocks that are not manual placements are all reported. *)
From S2P Require Import Prelude Platform Domain Samples Text Forest Rollup Lifecycle Plan Intervals Order Execution Validation Candidate Planner Day Placement Sessions Safety.

(** ** Specification *)

Definition meets_horizon (request : PlanRequest) (i : Interval) : Prop := is_Some (clipped i (horizon request)).

Inductive retained `{Platform} (request : PlanRequest) (execution : MaterializedExecutionContext) : ScheduleBlock → Prop :=
| retained_fixed fixed :
    fixed ∈ fixed_blocks request → meets_horizon request {| iv_start := fb_start fixed; iv_end := fb_end fixed |} →
    retained request execution (fixed_schedule_block fixed)
| retained_event item event :
    item ∈ items request → wi_kind item = CalendarEvent event → is_terminal (wi_status item) = false →
    wi_status item ≠ WorkStatus.Blocked → meets_horizon request {| iv_start := ce_start event; iv_end := ce_end event |} →
    retained request execution (event_block item event)
| retained_reservation id item unit reservation :
    mec_work_units execution !! id = Some unit → request_items request !! id = Some item →
    reservation ∈ meu_reservations unit → overlaps (horizon request) (reservation_interval reservation) = true →
    retained request execution (reservation_block item reservation)
| retained_pinned assignment item block :
    assignment ∈ previous_assignments request → pa_pinned assignment = true →
    request_items request !! pa_item_id assignment = Some item → is_calendar_event (wi_kind item) = false →
    block ∈ pa_blocks assignment → meets_horizon request {| iv_start := pb_start block; iv_end := pb_end block |} →
    retained request execution (pinned_block item block).

(** ** Lemmas *)

(** A loop that adds blocks, one element at a time. *)
Lemma foldl_adds {A} (f : PlanningState → A → PlanningState) (Q : A → ScheduleBlock → Prop) l st x :
  (∀ st a, a ∈ l → x ∈ blocks (f st a) ↔ x ∈ blocks st ∨ Q a x) →
  x ∈ blocks (foldl f st l) ↔ x ∈ blocks st ∨ ∃ a, a ∈ l ∧ Q a x.
Proof.
  revert st. induction l as [|a l IH]; intros st Hf; simpl.
  - split; [by left|]. by intros [?|(? & ?%elem_of_nil & _)].
  - rewrite IH by (intros; apply Hf; by right). rewrite Hf by left. setoid_rewrite elem_of_cons. naive_solver.
Qed.

Lemma foldM_adds {E A} (f : PlanningState → A → result E PlanningState) (Q : A → ScheduleBlock → Prop) l st st' x :
  (∀ st a st', a ∈ l → f st a = Ok st' → x ∈ blocks st' ↔ x ∈ blocks st ∨ Q a x) →
  foldM f st l = Ok st' → x ∈ blocks st' ↔ x ∈ blocks st ∨ ∃ a, a ∈ l ∧ Q a x.
Proof.
  revert st. induction l as [|a l IH]; intros st Hf Hl; simpl in Hl.
  - simplify_eq. split; [by left|]. by intros [?|(? & ?%elem_of_nil & _)].
  - apply rbind_ok in Hl as (st1 & Ha & Hl).
    assert (∀ st b st', b ∈ l → f st b = Ok st' → x ∈ blocks st' ↔ x ∈ blocks st ∨ Q b x) as Hf'.
    { intros s b s' Hb. apply Hf. by right. }
    rewrite (IH st1 Hf' Hl), (Hf st a st1 ltac:(left) Ha). setoid_rewrite elem_of_cons. naive_solver.
Qed.

Lemma elem_of_reserve time b st x : x ∈ blocks (reserve time b st) ↔ x ∈ blocks st ∨ x = b.
Proof. simpl. by rewrite elem_of_app, list_elem_of_singleton. Qed.

Lemma overlaps_meets_horizon request i :
  (horizon_start request < horizon_end request)%Z → nonempty i → overlaps (horizon request) i = true →
  meets_horizon request i.
Proof.
  unfold meets_horizon, clipped, overlaps, horizon, nonempty. simpl. intros Hh Hne Ho. bool_to_prop. instants.
  destruct (odt_ltb _ _) eqn:E; [by eexists|]. instants. lia.
Qed.

Section adds.
Context `{Platform}.
Context (request : PlanRequest) (execution : MaterializedExecutionContext).

Lemma add_external_adds st x :
  x ∈ blocks (add_external_fixed_blocks request st) ↔ x ∈ blocks st ∨
  ∃ fixed, fixed ∈ fixed_blocks request ∧
    (meets_horizon request {| iv_start := fb_start fixed; iv_end := fb_end fixed |} ∧ x = fixed_schedule_block fixed).
Proof.
  unfold add_external_fixed_blocks.
  apply (foldl_adds _ (λ fixed x,
    meets_horizon request {| iv_start := fb_start fixed; iv_end := fb_end fixed |} ∧ x = fixed_schedule_block fixed)).
  intros s fixed _. unfold add_fixed_block, meets_horizon.
  destruct (clipped _ _); [rewrite elem_of_reserve, Some_is_Some_iff; tauto|].
  split; [by left|]. by intros [?|[[? [=]] _]].
Qed.

Lemma add_calendar_adds st x :
  x ∈ blocks (add_calendar_events request st) ↔ x ∈ blocks st ∨
  ∃ item, item ∈ items request ∧ ∃ event, wi_kind item = CalendarEvent event ∧ is_terminal (wi_status item) = false ∧
    wi_status item ≠ WorkStatus.Blocked ∧ meets_horizon request {| iv_start := ce_start event; iv_end := ce_end event |} ∧
    x = event_block item event.
Proof.
  unfold add_calendar_events.
  apply (foldl_adds _ (λ item x, ∃ event, wi_kind item = CalendarEvent event ∧ is_terminal (wi_status item) = false ∧
    wi_status item ≠ WorkStatus.Blocked ∧ meets_horizon request {| iv_start := ce_start event; iv_end := ce_end event |} ∧
    x = event_block item event)).
  intros s item _. unfold add_calendar_event, meets_horizon.
  destruct (wi_kind item) as [| | | | | | |event]; try (split; [by left|by intros [?|(? & [=] & _)]]).
  destruct (is_terminal (wi_status item)) eqn:Et; simpl.
  { split; [by left|]. by intros [?|(? & _ & [=] & _)]. }
  case_bool_decide; simpl; [split; [by left|]; by intros [?|(? & _ & _ & ? & _)]|].
  destruct (clipped _ _) eqn:Ec.
  - change (x ∈ blocks (reserve {| bb_interval := {| iv_start := ce_start event; iv_end := ce_end event |};
      bb_item_id := Some (wi_id item); bb_pinned := ce_immutable event; bb_manual_placement := false |} (event_block item event) s) ↔
      x ∈ blocks s ∨ ∃ event0, CalendarEvent event = CalendarEvent event0 ∧ false = false ∧ wi_status item ≠ WorkStatus.Blocked ∧
        is_Some (clipped {| iv_start := ce_start event0; iv_end := ce_end event0 |} (horizon request)) ∧ x = event_block item event0).
    rewrite elem_of_reserve. split.
    + intros [?| ->]; [by left|]. right. exists event. rewrite Ec. split_and!; done.
    + intros [?|(? & [= <-] & _ & _ & _ & ->)]; auto.
  - split; [by left|]. intros [?|(? & [= <-] & _ & _ & Hs & _)]; [done|]. rewrite Ec in Hs. by destruct Hs.
Qed.

Lemma add_reservations_adds all_items st st' x :
  add_execution_reservations request all_items execution st = Ok st' →
  x ∈ blocks st' ↔ x ∈ blocks st ∨
  ∃ entry, entry ∈ entries (mec_work_units execution) ∧ ∃ item, all_items !! entry.1 = Some item ∧
    ∃ reservation, reservation ∈ meu_reservations entry.2 ∧
      (overlaps (horizon request) (reservation_interval reservation) = true ∧ x = reservation_block item reservation).
Proof.
  unfold add_execution_reservations.
  apply (foldM_adds _ (λ entry x, ∃ item, all_items !! entry.1 = Some item ∧
    ∃ reservation, reservation ∈ meu_reservations entry.2 ∧
      (overlaps (horizon request) (reservation_interval reservation) = true ∧ x = reservation_block item reservation))).
  intros s [id unit] s' _ Hs. simpl. unfold add_work_unit in Hs.
  destruct (all_items !! id) as [item|]; [|simplify_eq; split; [by left|by intros [?|(? & [=] & _)]]].
  apply rbind_ok in Hs as (s1 & Hs1 & Hs).
  assert (x ∈ blocks s' ↔ x ∈ blocks s1) as -> by (destruct (meu_reservations unit); by simplify_eq).
  assert (x ∈ blocks s1 ↔ x ∈ blocks s ∨ ∃ reservation, reservation ∈ meu_reservations unit ∧
    (overlaps (horizon request) (reservation_interval reservation) = true ∧ x = reservation_block item reservation)) as ->.
  { revert Hs1. apply (foldM_adds _ (λ reservation x, overlaps (horizon request) (reservation_interval reservation) = true ∧
      x = reservation_block item reservation)).
    intros t reservation t' _. unfold add_reservation.
    destruct (overlaps (horizon request) (reservation_interval reservation)) eqn:Eo; simpl.
    - destruct (negb _); [done|]. intros [= <-]. rewrite elem_of_reserve. simpl. tauto.
    - intros [= <-]. simpl. split; [by left|]. by intros [?|[[=] _]]. }
  split; [intros [?|?]; [by left|right; eauto]|]. intros [?|(? & [= <-] & ?)]; [by left|by right].
Qed.

Lemma add_pinned_adds all_items st x :
  x ∈ blocks (add_pinned_assignments request all_items st) ↔ x ∈ blocks st ∨
  ∃ assignment, assignment ∈ previous_assignments request ∧ pa_pinned assignment = true ∧
    ∃ item, all_items !! pa_item_id assignment = Some item ∧ is_calendar_event (wi_kind item) = false ∧
      ∃ block, block ∈ pa_blocks assignment ∧
        (meets_horizon request {| iv_start := pb_start block; iv_end := pb_end block |} ∧ x = pinned_block item block).
Proof.
  unfold add_pinned_assignments.
  apply (foldl_adds _ (λ assignment x, pa_pinned assignment = true ∧
    ∃ item, all_items !! pa_item_id assignment = Some item ∧ is_calendar_event (wi_kind item) = false ∧
      ∃ block, block ∈ pa_blocks assignment ∧
        (meets_horizon request {| iv_start := pb_start block; iv_end := pb_end block |} ∧ x = pinned_block item block))).
  intros s assignment _. unfold add_pinned_assignment. destruct (pa_pinned assignment); simpl; [|split; [by left|by intros [?|([=] & _)]]].
  destruct (all_items !! pa_item_id assignment) as [item|]; [|split; [by left|by intros [?|(_ & ? & [=] & _)]]].
  destruct (is_calendar_event (wi_kind item)) eqn:Ek.
  { split; [by left|]. intros [?|(_ & ? & [= <-] & ? & _)]; [done|congruence]. }
  assert (∀ m, x ∈ blocks (foldl (add_pinned_block request item m) s (pa_blocks assignment)) ↔ x ∈ blocks s ∨
    ∃ block, block ∈ pa_blocks assignment ∧
      (meets_horizon request {| iv_start := pb_start block; iv_end := pb_end block |} ∧ x = pinned_block item block)) as Hb.
  { intros m. apply (foldl_adds _ (λ block x,
      meets_horizon request {| iv_start := pb_start block; iv_end := pb_end block |} ∧ x = pinned_block item block)).
    intros t block _. unfold add_pinned_block, meets_horizon.
    destruct (clipped _ _); [rewrite elem_of_reserve, Some_is_Some_iff; simpl; tauto|].
    split; [by left|]. by intros [?|[[? [=]] _]]. }
  simpl. rewrite Hb. split.
  - intros [?|?]; [by left|]. right. eauto 6.
  - intros [?|(_ & ? & [= <-] & _ & ?)]; auto.
Qed.
End adds.

(** ** Overlaps *)

(** Two blocks whose overlap is evidence. *)
Definition conflicting (l r : BusyBlock) : Prop :=
  overlaps (bb_interval l) (bb_interval r) = true ∧ bb_manual_placement l = false ∧ bb_manual_placement r = false.

Lemma overlaps_with_spec l rest vs vs' :
  StronglySorted (λ a b, iv_start (bb_interval a) <= iv_start (bb_interval b))%Z rest →
  overlaps_with l rest vs = Ok vs' →
  ∃ new, vs' = vs ++ new ∧ ∀ v, v ∈ new ↔ ∃ r, r ∈ rest ∧ conflicting l r ∧ v = overlap_violation l r.
Proof.
  intros Hs. revert vs. induction Hs as [|r rest Hs IH Hr]; intros vs Ho; cbn [overlaps_with] in Ho.
  - simplify_eq. exists []. rewrite app_nil_r. split; [done|]. set_solver.
  - assert (∀ vs, overlaps_with l rest vs = Ok vs' → ¬ conflicting l r →
      ∃ new, vs' = vs ++ new ∧ ∀ v, v ∈ new ↔ ∃ r', r' ∈ r :: rest ∧ conflicting l r' ∧ v = overlap_violation l r') as Hskip.
    { intros ws Hw Hno. destruct (IH ws Hw) as (new & -> & Hnew). exists new. split; [done|]. intros v.
      rewrite Hnew. setoid_rewrite elem_of_cons. split; [naive_solver|]. intros (r' & [->|Hr'] & ? & ?); [done|eauto]. }
    destruct (odt_leb _ _) eqn:Eb; instants.
    + simplify_eq. exists []. rewrite app_nil_r. split; [done|]. intros v. split; [by intros ?%elem_of_nil|].
      intros (r' & Hr' & (Hov & _) & _). unfold overlaps in Hov. bool_to_prop. instants.
      apply elem_of_cons in Hr' as [->|Hr']; [lia|]. rewrite Forall_forall in Hr. specialize (Hr r' Hr'). lia.
    + destruct (overlaps (bb_interval l) (bb_interval r)) eqn:Eo.
      2:{ apply (Hskip vs Ho). intros [? _]. congruence. }
      destruct (bb_manual_placement l || bb_manual_placement r) eqn:Em.
      { apply (Hskip vs Ho). intros (_ & H1 & H2). by rewrite H1, H2 in Em. }
      destruct (_ <=? _); [done|]. bool_to_prop. destruct (IH _ Ho) as (new & -> & Hnew).
      exists (overlap_violation l r :: new). rewrite <- app_assoc. split; [done|]. intros v.
      rewrite elem_of_cons, Hnew. setoid_rewrite elem_of_cons. split.
      * intros [->|(r' & ? & ? & ?)]; [exists r|exists r']; unfold conflicting; auto.
      * intros (r' & [->|?] & ? & ?); eauto.
Qed.

Lemma all_overlaps_spec sorted vs vs' :
  StronglySorted (λ a b, iv_start (bb_interval a) <= iv_start (bb_interval b))%Z sorted →
  all_overlaps sorted vs = Ok vs' →
  ∃ new, vs' = vs ++ new ∧ ∀ v, v ∈ new ↔
    ∃ i j l r, i < j ∧ sorted !! i = Some l ∧ sorted !! j = Some r ∧ conflicting l r ∧ v = overlap_violation l r.
Proof.
  intros Hs. revert vs. induction Hs as [|l rest Hs IH Hl]; intros vs Ho; simpl in Ho.
  - simplify_eq. exists []. rewrite app_nil_r. split; [done|]. intros v. split; [by intros ?%elem_of_nil|].
    by intros (i & j & l & r & _ & Hi & _).
  - apply rbind_ok in Ho as (ws & H1 & H2). destruct (overlaps_with_spec _ _ _ _ Hs H1) as (n1 & -> & Hn1).
    destruct (IH _ H2) as (n2 & -> & Hn2). exists (n1 ++ n2). rewrite app_assoc. split; [done|]. intros v.
    rewrite elem_of_app, Hn1, Hn2. split.
    + intros [(r & Hr & Hc & ->)|(i & j & a & b & Hij & Ha & Hb & Hc & ->)].
      * apply list_elem_of_lookup in Hr as [j Hj]. exists 0, (S j), l, r. split_and!; [lia|done..].
      * exists (S i), (S j), a, b. split_and!; [lia|done..].
    + intros ([|i] & [|j] & a & b & Hij & Ha & Hb & Hc & ->); simpl in *; simplify_eq; try lia.
      * left. exists b. split_and!; [by eapply list_elem_of_lookup_2|done..].
      * right. exists i, j, a, b. split_and!; [lia|done..].
Qed.

Lemma busy_sorted l : StronglySorted (λ a b, iv_start (bb_interval a) <= iv_start (bb_interval b))%Z (sort_by busy_leb l).
Proof.
  assert (StronglySorted (λ a b, busy_leb a b = true) (sort_by busy_leb l)) as Hs.
  { apply sort_by_sorted; intros *; unfold busy_leb.
    - apply lawful_leb_total, busy_lawful.
    - apply lawful_leb_trans, busy_lawful. }
  induction Hs as [|a k Hk IH Ha]; constructor; [done|]. eapply Forall_impl; [exact Ha|]. intros b Hb. cbn beta in Hb.
  unfold busy_leb, busy_cmp, odt_cmp in Hb. destruct (Z.compare_spec (iv_start (bb_interval a)) (iv_start (bb_interval b)));
    simpl in Hb; [lia|lia|done].
Qed.

(** ** Theorems *)

Section theorems.
Context `{PlatformLaws}.

(** C4. The blocks of a plan that are not planned are exactly the immutable time
    of the request within the horizon: nothing is dropped, moved or invented. *)
Theorem immutable_time_is_retained request execution additional plan :
  plan_materialized request execution additional = Ok plan →
  (∀ b, b ∈ sp_blocks plan → sb_kind b ≠ Planned → ∃ a, retained request execution a ∧ same_block a b) ∧
  (∀ a, retained request execution a → ∃ b, b ∈ sp_blocks plan ∧ same_block a b).
Proof.
  intros (Hv & _ & st & Hst & (l & Hperm & Hsame) & _)%plan_Ok.
  assert (∀ a, a ∈ blocks st ↔ retained request execution a) as Hret.
  { intros a. apply immutable_state_entered in Hst as (st0 & Hent & (-> & _)%detect_overlaps_Ok).
    unfold entered in Hent. apply rbind_ok in Hent as (st1 & H1 & [= <-]).
    rewrite add_pinned_adds, (add_reservations_adds _ _ _ _ _ a H1), add_calendar_adds, add_external_adds. split.
    - intros [[[[?%elem_of_nil|(fixed & ? & ? & ->)]|(item & ? & event & ? & ? & ? & ? & ->)]|
        ([id unit] & Hu & item & ? & reservation & ? & ? & ->)]|(assignment & ? & ? & item & ? & ? & block & ? & ? & ->)].
      + done.
      + by constructor.
      + by apply retained_event.
      + apply elem_of_entries in Hu. by eapply retained_reservation.
      + by eapply retained_pinned.
    - intros [fixed ? ?|item event ? ? ? ? ?|id item unit reservation ? ? ? ?|assignment item block ? ? ? ? ? ?].
      + left; left; left; right. eauto.
      + left; left; right. eauto 10.
      + left; right. exists (id, unit). split; [by apply elem_of_entries|]. eauto 10.
      + right. eauto 12. }
  assert (∀ a, a ∈ blocks st → a ∈ blocks (placed_state request st)) as Hgrow.
  { apply (placed_state_preserves request Hv (λ l _, ∀ a, a ∈ blocks st → a ∈ l)); [|done].
    intros s item p w _ _ _ _ Hl a Ha. simpl. apply elem_of_app. left. by apply Hl. }
  assert (∀ a, a ∈ blocks (placed_state request st) → sb_kind a ≠ Planned → a ∈ blocks st) as Hback.
  { apply (placed_state_preserves request Hv (λ l _, ∀ a, a ∈ l → sb_kind a ≠ Planned → a ∈ blocks st)); [|done].
    intros s item p w _ _ _ _ Hl a. simpl. intros [Ha| ->%list_elem_of_singleton]%elem_of_app Hk; [by apply Hl|done]. }
  split.
  - intros b Hb Hk. rewrite Hperm in Hb. apply list_elem_of_lookup in Hb as [i Hi].
    destruct (Forall2_lookup_r _ _ _ _ _ Hsame Hi) as (a & Ha & Hab). exists a. split; [|done].
    apply Hret, Hback; [by eapply list_elem_of_lookup_2|]. destruct Hab as (_ & _ & _ & _ & _ & _ & ->). done.
  - intros a Ha. apply Hret, Hgrow, list_elem_of_lookup in Ha as [i Hi].
    destruct (Forall2_lookup_l _ _ _ _ _ Hsame Hi) as (b & Hb & Hab). exists b. split; [|done].
    rewrite Hperm. by eapply list_elem_of_lookup_2.
Qed.
End theorems.

(** The violations overlap detection adds are exactly those of the pairs of
    retained blocks that share time, manual placements aside: breaking off the
    inner loop early misses none. *)
Theorem overlaps_are_reported st st' :
  detect_immutable_overlaps st = Ok st' →
  busy st' ≡ₚ busy st ∧
  ∃ new, violations st' = violations st ++ new ∧ ∀ v, v ∈ new ↔
    ∃ i j l r, i < j ∧ busy st' !! i = Some l ∧ busy st' !! j = Some r ∧ conflicting l r ∧ v = overlap_violation l r.
Proof.
  unfold detect_immutable_overlaps. intros (vs & Hvs & [= <-])%rbind_ok. simpl. split; [apply sort_by_perm|].
  by apply all_overlaps_spec in Hvs; [|apply busy_sorted].
Qed.

(** ** Witnesses *)

Lemma immutable_time_is_retained_witness :
  ∃ plan b, sample_run = Ok plan ∧ b ∈ sp_blocks plan ∧ same_block (fixed_schedule_block sleep_block) b.
Proof.
  destruct sample_plan as (plan & _ & Hrun & _).
  destruct (@immutable_time_is_retained utc_platform utc_platform_laws _ _ _ _ Hrun) as [_ Hret].
  destruct (Hret (fixed_schedule_block sleep_block)) as (b & Hb & Hs).
  { apply retained_fixed; [left|]. unfold meets_horizon. vm_compute. eexists. reflexivity. }
  exists plan, b. split; [exact Hrun|]. split; [exact Hb|exact Hs].
Defined.

(** Two meetings that overlap by ten minutes. *)
Definition meeting (id : ItemId) (start : Z) : BusyBlock :=
  {| bb_interval := {| iv_start := at_minute start; iv_end := at_minute (start + 30) |}; bb_item_id := Some id;
     bb_pinned := false; bb_manual_placement := false |}.

Definition crowded_state : PlanningState := with_busy [meeting 2 560; meeting 1 540] empty_state.

Definition detected_state : PlanningState :=
  default crowded_state (match detect_immutable_overlaps crowded_state with Ok st => Some st | Err _ => None end).

Lemma overlaps_are_reported_witness :
  ∃ new, violations detected_state = violations crowded_state ++ new ∧ overlap_violation (meeting 1 540) (meeting 2 560) ∈ new.
Proof.
  destruct (overlaps_are_reported crowded_state detected_state ltac:(vm_compute; reflexivity)) as (_ & new & Hv & Hnew).
  exists new. split; [exact Hv|]. apply Hnew. exists 0, 1, (meeting 1 540), (meeting 2 560).
  split; [lia|]. split; [vm_compute; reflexivity|]. split; [vm_compute; reflexivity|]. split; [|reflexivity].
  split; [vm_compute; reflexivity|]. split; reflexivity.
Defined.
