(* ===== verification/Precedence.v ===== *)
(** * Precedence: hard finish-to-start dependencies in the plan

    The theorem on hard dependencies of the pass of Planner.v: planned work
    begins only after the lag from the end of every block of its hard
    finish-to-start predecessors.  The invariant follows the ordered loop: when
    an item is placed its predecessors already have all their blocks, and no
    later step adds any. *)
From S2P Require Import Prelude Platform Domain Samples Text Forest Rollup Lifecycle Plan Intervals Order Execution Validation Candidate Planner Day Placement Sessions Safety.

(** ** Specification *)

(** The dependencies the theorem is about. *)
Definition hard_finish_to_start (all_items : gmap ItemId WorkItem) (d : Dependency) : Prop :=
  dep_strength d = Hard ∧ dep_relation d = FinishToStart ∧ predecessor_completed all_items d = false.

(** A block starting at [t] follows the predecessor: it has blocks or is a
    calendar event, and all of them end the lag before [t]. *)
Definition follows (all_items : gmap ItemId WorkItem) (l : list ScheduleBlock) (d : Dependency) (t : Z) : Prop :=
  let lag := (Z.of_N (dep_minimum_lag d) * nanos_per_minute)%Z in
  (∀ b, b ∈ l → sb_item_id b = Some (dep_item_id d) → (sb_end b + lag <= t)%Z) ∧
  ((∃ b, b ∈ l ∧ sb_item_id b = Some (dep_item_id d)) ∨
   (∃ item event, all_items !! dep_item_id d = Some item ∧ wi_kind item = CalendarEvent event ∧
      (ce_end event + lag <= t)%Z)).

(** Unless a block of the item was retained, all its blocks follow its hard
    predecessors. *)
Definition precedence (all_items : gmap ItemId WorkItem) (ds : list Dependency) (l : list ScheduleBlock) (x : ItemId)
    : Prop :=
  (∀ b, b ∈ l → sb_item_id b = Some x → sb_kind b = Planned) →
  ∀ d b, d ∈ ds → hard_finish_to_start all_items d → b ∈ l → sb_item_id b = Some x →
    follows all_items l d (sb_start b).

(** ** Lemmas *)

Lemma elem_of_item_blocks l id b : b ∈ item_blocks l id ↔ sb_item_id b = Some id ∧ b ∈ l.
Proof. unfold item_blocks. by rewrite list_elem_of_filter. Qed.

(** The bounds of a predecessor cover its blocks. *)
Lemma predecessor_bounds_spec predecessor l s e :
  dependency_predecessor_bounds predecessor l = Some (s, e) →
  (∀ b, b ∈ l → (sb_end b <= e)%Z) ∧
  (l ≠ [] ∨ ∃ item event, predecessor = Some item ∧ wi_kind item = CalendarEvent event ∧ e = ce_end event).
Proof.
  unfold dependency_predecessor_bounds.
  set (step := λ bounds block, Some match bounds with
         | None => (sb_start block, sb_end block)
         | Some (start, end_) => (odt_min start (sb_start block), odt_max end_ (sb_end block))
         end).
  assert (∀ l o, (∀ b, b ∈ l → ∃ s e, foldl step o l = Some (s, e) ∧ (sb_end b <= e)%Z) ∧
    (∀ s0 e0, o = Some (s0, e0) → ∃ s e, foldl step o l = Some (s, e) ∧ (e0 <= e)%Z)) as Hgo.
  { clear. induction l as [|a l IH]; intros o; simpl.
    - split; [by intros ? ?%elem_of_nil|]. intros s0 e0 ->. eauto with lia.
    - destruct (IH (step o a)) as [H1 H2].
      assert (∃ s1 e1, step o a = Some (s1, e1) ∧ (sb_end a <= e1)%Z ∧ ∀ s0 e0, o = Some (s0, e0) → (e0 <= e1)%Z)
        as (s1 & e1 & Hstep & Ha & Ho).
      { unfold step. destruct o as [[s0 e0]|]; eexists _, _; (split; [reflexivity|]).
        - rewrite unix_nanos_max. split; [lia|]. intros ? ? [= <- <-]. lia.
        - split; [lia|done]. }
      destruct (H2 s1 e1 Hstep) as (s & e & Hf & Hle). split.
      + intros b [->|Hb]%elem_of_cons; [exists s, e; split; [done|lia]|by apply H1].
      + intros s0 e0 Hs0. exists s, e. split; [done|]. specialize (Ho s0 e0 Hs0). lia. }
  intros Hb. destruct (Hgo l None) as [H1 _]. destruct l as [|a l].
  - simpl in Hb. split; [by intros ? ?%elem_of_nil|]. right. destruct predecessor as [item|]; simpl in Hb; [|done].
    destruct (wi_kind item) eqn:Ek; simplify_eq. eauto.
  - split; [|by left]. intros b Hin. destruct (H1 b Hin) as (s' & e' & Hf & Hle). rewrite Hf in Hb. by simplify_eq.
Qed.

Section precedence.
Context `{PlatformLaws}.
Context (request : PlanRequest) (all_items : gmap ItemId WorkItem) (deps : gmap ItemId (list Dependency)).
Hypothesis granularity_positive : (0 < slot_granularity (config request))%N.
Hypothesis indexed_items : well_indexed all_items.
Hypothesis valid_splits : ∀ id item, all_items !! id = Some item → valid_split (wi_split_policy item).

(** The first session of an item without blocks checks every dependency on
    starts. *)
Lemma first_session_follows st item search c w d :
  item_blocks (blocks st) (wi_id item) = [] →
  search_about request item (deps_of deps (wi_id item)) all_items search → answer st search w c →
  d ∈ deps_of deps (wi_id item) → hard_finish_to_start all_items d →
  follows all_items (blocks st) d (iv_start (cand_interval c)).
Proof using All.
  intros Hnone (Hr & Hi & Hdeps & Hall) [_ _ Heval] Hd (Hhard & Hrel & Hnot).
  assert (is_Some (evaluate_candidate st (se_request search) (se_item search) (se_dependencies search)
    (se_all_items search) w (cand_interval c) (se_finishes_item search) (se_session_index search))) as Hm
    by (rewrite Heval; by eexists).
  apply evaluate_candidate_is_Some in Hm. apply mh_dependencies with (d := d) in Hm; [|by rewrite Hdeps].
  unfold meets_dependency in Hm. rewrite Hi, Hnone, Hall in Hm.
  destruct Hm as (s & e & Hbounds & Hsat); [by unfold dependency_deferred; rewrite Hrel|done|by rewrite Hhard|].
  unfold available_bounds in Hbounds. destruct (_ && _); [done|].
  apply predecessor_bounds_spec in Hbounds as [Hends Hsome].
  unfold dependency_boundary in Hsat. rewrite Hrel in Hsat. simpl in Hsat.
  destruct (odt_checked_add e (duration_minutes (dep_minimum_lag d))) as [t|] eqn:Et; [|done].
  apply checked_add_exact in Et as [Et _]. simpl in Hsat. instants. unfold duration_minutes in Et. split.
  - intros b Hb Hid. specialize (Hends b). rewrite elem_of_item_blocks in Hends. specialize (Hends (conj Hid Hb)). lia.
  - destruct Hsome as [Hne|(y & event & Hy & Hk & ->)]; [left|right].
    + destruct (item_blocks (blocks st) (dep_item_id d)) as [|b l] eqn:El; [done|]. exists b.
      assert (b ∈ item_blocks (blocks st) (dep_item_id d)) as Hb by (rewrite El; left).
      by apply elem_of_item_blocks in Hb as [? ?].
    + exists y, event. split_and!; [done|done|lia].
Qed.

(** A run on an item without blocks: the whole run starts at or after a slot
    that follows every hard predecessor. *)
Lemma run_follows st item l st1 rem left d :
  item_blocks (blocks st) (wi_id item) = [] →
  valid_split (wi_split_policy item) →
  placing request item (deps_of deps (wi_id item)) all_items st l st1 → policy_run item st rem l left →
  d ∈ deps_of deps (wi_id item) → hard_finish_to_start all_items d →
  ∀ p, p ∈ l → follows all_items (blocks st) d (iv_start (cand_interval (p_candidate p))).
Proof using All.
  intros Hnone Hsplit Hl Hp Hd Hhard.
  pose proof (placing_answers _ _ _ _ _ _ _ granularity_positive Hl) as Ha.
  destruct l as [|p l]; [by intros ? ?%elem_of_nil|].
  assert (follows all_items (blocks st) d (iv_start (cand_interval (p_candidate p)))) as Hfirst.
  { inversion Hl as [|? ? ? ? Hab _ Hbest _]; subst.
    destruct (best_candidate_answer st (p_search p) (p_candidate p)) as [w Hw]; [|done|by eapply first_session_follows].
    unfold granularity. by destruct Hab as [-> _]. }
  assert (∀ q, q ∈ l → (iv_start (cand_interval (p_candidate p)) <= iv_start (cand_interval (p_candidate q)))%Z) as Hlater.
  { intros q Hq. unfold policy_run in Hp. destruct (wi_split_policy item) as [|minimum maximum sessions gap max_days].
    - destruct Hp as [[? _]|(r & [= _ ->] & _)]; [done|]. by apply elem_of_nil in Hq.
    - apply list_elem_of_lookup in Hq as [i Hi].
      assert (Forall (λ p, ∃ st0 w, answer st0 (p_search p) w (p_candidate p)) (p :: l)) as Ha'.
      { eapply Forall_impl; [exact Ha|]. by intros r [_ ?]. }
      destruct (chain_gaps _ _ _ _ _ _ _ _ _ _ _ _ Hp Ha') as [_ Hgap].
      specialize (Hgap 0 (S i) p q ltac:(lia) eq_refl Hi).
      apply Forall_inv in Ha' as (st0 & w & [Hpl _ _]). pose proof (pl_length _ _ _ _ Hpl).
      unfold duration_minutes, nanos_per_minute in *. lia. }
  intros q [->|Hq]%elem_of_cons; [done|]. destruct Hfirst as [Hf1 Hf2]. specialize (Hlater q Hq). split.
  - intros b Hb Hid. specialize (Hf1 b Hb Hid). lia.
  - destruct Hf2 as [?|(y & event & Hy & Hk & Hle)]; [by left|right]. exists y, event. split_and!; [done|done|lia].
Qed.

(** ** The ordered loop *)

(** The blocks one step adds are planned blocks of its item, and when the item
    had none they follow its hard predecessors. *)
Lemma place_one_adds acc x :
  ∃ new, blocks (place_one request all_items deps acc x).1 = blocks acc.1 ++ new ∧
    (∀ b, b ∈ new → sb_item_id b = Some x ∧ sb_kind b = Planned) ∧
    (item_blocks (blocks acc.1) x = [] → ∀ d b, d ∈ deps_of deps x → hard_finish_to_start all_items d → b ∈ new →
       follows all_items (blocks acc.1) d (sb_start b)).
Proof using All.
  assert (∀ st st' : PlanningState, blocks st' = blocks st →
    ∃ new, blocks st' = blocks st ++ new ∧ (∀ b, b ∈ new → sb_item_id b = Some x ∧ sb_kind b = Planned) ∧
      (item_blocks (blocks st) x = [] → ∀ d b, d ∈ deps_of deps x → hard_finish_to_start all_items d → b ∈ new →
       follows all_items (blocks st) d (sb_start b))) as Hnothing.
  { intros st st' ->. exists []. rewrite app_nil_r. split_and!; [done|by intros ? ?%elem_of_nil|by intros _ ? ? _ _ ?%elem_of_nil]. }
  destruct acc as [st outcomes]. unfold place_one. simpl.
  destruct (all_items !! x) as [item|] eqn:Hitem; [|by apply Hnothing].
  destruct (hard_dependency_unavailable _ _ _ _); [by apply Hnothing|].
  destruct (schedule_item _ _ _ _ _) as [st' ok] eqn:Es. simpl.
  destruct (wi_duration item) as [e|] eqn:Ee.
  2:{ apply Hnothing. unfold schedule_item in Es. rewrite Ee in Es. by simplify_eq. }
  destruct (schedule_item_run _ _ _ _ _ _ _ _ (valid_splits _ _ Hitem) Ee Es)
    as (l & st1 & left & Hl & Hz & Hp & Hb & _).
  destruct (placing_effect _ _ _ _ _ _ _ Hl) as (Hblocks & _).
  exists (placement_block item <$> l). pose proof (indexed_items _ _ Hitem) as Hx. split_and!; [by rewrite Hb| |].
  - intros b (p & -> & _)%list_elem_of_fmap. simpl. by rewrite Hx.
  - intros Hnone d b Hd Hhard (p & -> & Hin)%list_elem_of_fmap. simpl.
    destruct (decide (remaining_demand st item (planning_minutes e) = 0%N)) as [Hr|Hr].
    + destruct (Hz Hr) as [-> _]. by apply elem_of_nil in Hin.
    + change (default [] (deps !! x)) with (deps_of deps x) in Hl. rewrite <- Hx in Hnone, Hd, Hl.
      by eapply run_follows; [done|by eapply valid_splits|exact Hl|apply Hp; lia|..].
Qed.

Lemma follows_app l k d t :
  (∀ b, b ∈ k → sb_item_id b ≠ Some (dep_item_id d)) → follows all_items l d t → follows all_items (l ++ k) d t.
Proof using.
  intros Hk [H1 H2]. split.
  - intros b [Hb|Hb]%elem_of_app Hid; [by apply H1|by destruct (Hk b Hb)].
  - destruct H2 as [(b & Hb & Hid)|?]; [left|by right]. exists b. split; [|done]. apply elem_of_app. by left.
Qed.

Definition loop_invariant (done : list ItemId) (st : PlanningState) : Prop :=
  (∀ b, b ∈ blocks st → sb_kind b = Planned → ∃ y, y ∈ done ∧ sb_item_id b = Some y) ∧
  (∀ x, x ∈ done → precedence all_items (deps_of deps x) (blocks st) x).

(** What the order promises: hard predecessors come before. *)
Definition predecessors_first (ordered : list ItemId) : Prop :=
  ∀ p x q d, ordered = p ++ x :: q → d ∈ deps_of deps x → dep_strength d = Hard → dep_item_id d ∈ x :: q → False.

Lemma place_one_invariant p x q acc :
  NoDup (p ++ x :: q) → predecessors_first (p ++ x :: q) →
  loop_invariant p acc.1 → loop_invariant (p ++ [x]) (place_one request all_items deps acc x).1.
Proof using All.
  intros Hnd Hfirst [Hinv1 Hinv2]. destruct (place_one_adds acc x) as (new & Hb & Hnew & Hfollow).
  assert (x ∉ p) as Hxp by (intros Hx; apply NoDup_app in Hnd as (_ & Hd & _); apply (Hd x Hx); left).
  unfold loop_invariant. rewrite Hb. split.
  { intros b [Hin|Hin]%elem_of_app Hk.
    - destruct (Hinv1 b Hin Hk) as (y & Hy & ?). exists y. split; [|done]. apply elem_of_app. by left.
    - exists x. split; [apply elem_of_app; right; left|by apply Hnew]. }
  assert (∀ y d, y ∈ p ++ [x] → d ∈ deps_of deps y → dep_strength d = Hard → dep_item_id d ≠ x) as Hother.
  { intros y d Hy Hd Hh Heq. apply elem_of_app in Hy as [Hy| ->%list_elem_of_singleton].
    - apply list_elem_of_split in Hy as (p1 & p2 & ->). apply (Hfirst p1 y (p2 ++ x :: q) d); [by rewrite <- app_assoc|done|done|].
      rewrite Heq. right. apply elem_of_app. right. left.
    - apply (Hfirst p x q d); [done..|]. rewrite Heq. left. }
  intros y Hy Hplanned d b Hd Hhard Hin Hid. pose proof Hhard as (Hh & _ & _).
  apply follows_app.
  { intros c Hc. destruct (Hnew c Hc) as [-> _]. intros [= Heq]. by apply (Hother y d Hy Hd Hh). }
  destruct (decide (y = x)) as [->|Hne].
  - assert (∀ c, c ∈ blocks acc.1 → sb_item_id c ≠ Some x) as Hno.
    { intros c Hc Hcx. destruct (Hinv1 c Hc) as (z & Hz & Hcz); [|congruence].
      apply Hplanned; [apply elem_of_app; by left|done]. }
    apply elem_of_app in Hin as [Hin|Hin]; [by destruct (Hno b Hin)|]. apply Hfollow; [|done..].
    destruct (item_blocks (blocks acc.1) x) as [|c l] eqn:El; [done|].
    assert (c ∈ item_blocks (blocks acc.1) x) as Hc by (rewrite El; left). apply elem_of_item_blocks in Hc as [? ?].
    by destruct (Hno c).
  - apply elem_of_app in Hy as [Hy|?%list_elem_of_singleton]; [|done].
    apply elem_of_app in Hin as [Hin|Hin]; [|destruct (Hnew b Hin); congruence].
    apply (Hinv2 y Hy); [|done..]. intros c Hc. apply Hplanned. apply elem_of_app. by left.
Qed.

Lemma place_loop_invariant p q acc :
  NoDup (p ++ q) → predecessors_first (p ++ q) → loop_invariant p acc.1 →
  loop_invariant (p ++ q) (foldl (place_one request all_items deps) acc q).1.
Proof using All.
  revert p acc. induction q as [|x q IH]; intros p acc Hnd Hfirst Hinv; simpl; [by rewrite app_nil_r|].
  rewrite cons_middle, app_assoc in *. apply IH; [done..|]. rewrite <- app_assoc in *. by eapply place_one_invariant.
Qed.
End precedence.

(** ** The whole pass *)

(** The eligible items are a sublist of the request's. *)
Lemma triage_eligible children its acc :
  ∃ l, (foldl (triage children) acc its).2 = acc.2 ++ l ∧ l `sublist_of` (wi_id <$> its).
Proof.
  revert acc. induction its as [|item its IH]; intros acc; simpl; [by exists []; rewrite app_nil_r|].
  destruct (IH (triage children acc item)) as (l & Hl & Hsub).
  assert ((triage children acc item).2 = acc.2 ∨ (triage children acc item).2 = acc.2 ++ [wi_id item]) as [Ht|Ht].
  { destruct acc as [st eligible]. unfold triage. repeat (case_match; simpl; auto). }
  - exists l. rewrite Hl, Ht. split; [done|]. by apply sublist_cons.
  - exists (wi_id item :: l). rewrite Hl, Ht, <- app_assoc. split; [done|]. by apply sublist_skip.
Qed.

(** Precedence depends on the blocks up to order, repetition and explanations. *)
Lemma precedence_same all_items ds l k x :
  (∀ b, b ∈ l → ∃ a, a ∈ k ∧ same_block a b) → (∀ a, a ∈ k → ∃ b, b ∈ l ∧ same_block a b) →
  precedence all_items ds k x → precedence all_items ds l x.
Proof.
  intros Hlk Hkl Hk Hplanned d b Hd Hhard Hb Hid.
  destruct (Hlk b Hb) as (a & Ha & (_ & Hi & _ & Hs & _)).
  destruct (Hk) with (d := d) (b := a) as [H1 H2]; [|done..|congruence|].
  { intros c Hc Hcx. destruct (Hkl c Hc) as (c' & Hc' & (_ & Hi' & _ & _ & _ & _ & ->)).
    apply Hplanned; [done|congruence]. }
  rewrite Hs in *. split.
  - intros c Hc Hcd. destruct (Hlk c Hc) as (c' & Hc' & (_ & Hi' & _ & _ & He & _)).
    rewrite <- He. apply H1; [done|congruence].
  - destruct H2 as [(c & Hc & Hcd)|?]; [left|by right]. destruct (Hkl c Hc) as (c' & Hc' & (_ & Hi' & _)).
    exists c'. split; [done|congruence].
Qed.

Section whole.
Context `{PlatformLaws}.
Context (request : PlanRequest).
Hypothesis valid : valid_request request.

Lemma placed_precedence st x :
  only_retained st →
  precedence (request_items request) (deps_of (request_dependencies request) x) (blocks (placed_state request st)) x.
Proof using All.
  intros [_ Hret]. unfold placed_state, place_all.
  destruct (triage_eligible (child_map (items request)) (items request) (st, [])) as (l & Hl & Hsub).
  assert (blocks (foldl (triage (child_map (items request))) (st, []) (items request)).1 = blocks st) as Hb.
  { apply (foldl_keeps _ (λ acc, blocks acc.1 = blocks st)); [|done]. intros acc item.
    by destruct (triage_same (child_map (items request)) acc item) as [-> _]. }
  destruct (foldl (triage _) (st, []) (items request)) as [st1 eligible]. simpl in Hl, Hb. subst eligible.
  assert (NoDup l) as Hnd by (eapply sublist_NoDup; [by apply vr_ids|done]).
  destruct (dependency_order (request_items request) (request_dependencies request) l) as [ordered cyclic] eqn:Eo.
  destruct (dependency_order_spec _ _ _ _ _ Hnd Eo) as [Hperm Hhard].
  assert (NoDup ordered) as Hndo by (rewrite <- Hperm in Hnd; by apply NoDup_app in Hnd as [? _]).
  assert (predecessors_first (request_dependencies request) ordered) as Hfirst.
  { intros p y q d Heq Hd Hh Hin.
    assert (dep_item_id d ∈ p) as Hp.
    { apply (Hhard p y q d Heq Hd); [by rewrite Hh|]. rewrite <- Hperm, Heq. rewrite !elem_of_app. auto. }
    rewrite Heq in Hndo. apply NoDup_app in Hndo as (_ & Hdis & _). by apply (Hdis _ Hp). }
  assert (loop_invariant (request_items request) (request_dependencies request) []
    (st1, ∅ : gmap ItemId bool).1) as Hinit.
  { split; [|by intros ? ?%elem_of_nil]. simpl. rewrite Hb. intros b Hin Hk. by destruct (Hret b Hin). }
  apply (place_loop_invariant request) with (q := ordered) in Hinit; try done.
  2:{ pose proof (vr_granularity _ valid). lia. }
  2:{ by apply request_well_indexed. }
  2:{ intros id item Hitem. by apply (vi_split item), (vr_items _ valid), (request_item_in request valid id). }
  destruct (foldl (place_one _ _ _) _ ordered) as [st2 outcomes]. simpl in Hinit.
  assert (blocks (foldl (report_cyclic (request_items request)) st2 cyclic) = blocks st2) as ->.
  { apply (foldl_keeps _ (λ s, blocks s = blocks st2)); [|done]. intros s id.
    by destruct (report_cyclic_same (request_items request) s id) as [-> _]. }
  destruct Hinit as [Hinv1 Hinv2]. destruct (decide (x ∈ ordered)) as [Hx|Hx]; [by apply Hinv2|].
  intros Hplanned d b _ _ Hin Hid. destruct (Hinv1 b Hin (Hplanned b Hin Hid)) as (y & Hy & Hby). congruence.
Qed.
End whole.

(** ** Theorem *)

(** C2. In every plan the work that the planner placed follows its hard
    finish-to-start predecessors: each planned block of an item with no
    retained block starts the lag or more after the end of every block of
    every such predecessor that is not completed, and the predecessor has a
    block in the plan or is a calendar event that has ended. *)
Theorem hard_order_respected `{PlatformLaws} request execution additional plan :
  plan_materialized request execution additional = Ok plan →
  ∀ x, precedence (request_items request) (deps_of (request_dependencies request) x) (sp_blocks plan) x.
Proof.
  intros (Hv & _ & st & Hst & (l & Hperm & Hsame) & _)%plan_Ok x.
  apply immutable_state_retained in Hst.
  apply (precedence_same _ _ _ (blocks (placed_state request st))); [| |by apply placed_precedence].
  - intros b Hb. rewrite Hperm in Hb. apply list_elem_of_lookup in Hb as [i Hi].
    destruct (Forall2_lookup_r _ _ _ _ _ Hsame Hi) as (a & Ha & Hab). exists a. split; [by eapply list_elem_of_lookup_2|done].
  - intros a Ha. apply list_elem_of_lookup in Ha as [i Hi].
    destruct (Forall2_lookup_l _ _ _ _ _ Hsame Hi) as (b & Hb & Hab). exists b. split; [|done].
    rewrite Hperm. by eapply list_elem_of_lookup_2.
Qed.

(** ** Witness: the sample day, where item 9 waits ten minutes after item 5 *)

Lemma hard_order_respected_witness :
  ∃ plan, sample_run = Ok plan ∧
    precedence (request_items sample_day) (deps_of (request_dependencies sample_day) 9) (sp_blocks plan) 9.
Proof.
  destruct sample_plan as (plan & _ & Hrun & _). exists plan. split; [exact Hrun|].
  exact (@hard_order_respected utc_platform utc_platform_laws _ _ _ _ Hrun 9%N).
Defined.

(** What the plan of the sample day looks like. *)
Example sample_run_summary :
  match sample_run with
  | Ok plan => (λ b, (sb_item_id b, (unix_nanos (sb_start b) / nanos_per_minute)%Z, sb_kind b)) <$> sp_blocks plan
  | Err _ => []
  end =
  [(None, 0%Z, ExternalFixed); (Some 5%N, 485%Z, Planned); (Some 9%N, 525%Z, Planned);
   (Some 2%N, 565%Z, Planned); (Some 4%N, 600%Z, Pinned); (Some 7%N, 620%Z, Planned);
   (Some 7%N, 660%Z, Planned)].
Proof. vm_compute. reflexivity. Qed.
