(* ===== verification/Pipeline.v ===== *)
(** * Pipeline: the entry points of the scheduler

    [Scheduler::plan], [plan_with_execution], [plan_with_lifecycle] and
    [assess_defer_candidate] of crates/dayweave-core/src/scheduler.rs: the
    composition of validation, recurrence materialisation, the lifecycle
    overlay, the execution snapshot, the placement pass, the manual assessment
    and the translation of materialised identifiers back to their series.
    Recurrence materialisation is the interface [Recurrences], which Recurring
    instantiates with the code of recurrence.rs.

    The theorems: no output plan books an instant twice, outputs name the
    series and never a materialised clone, every manual violation also stands
    among the plan's violations, and an assessed defer reserves exactly the
    replacement and reports on it. *)
From S2P Require Import Prelude Platform Domain Samples Text Forest Rollup Lifecycle Plan Intervals Order Execution Validation Candidate Planner Day Placement Sessions Safety Manual Defer.

(** ** The interface to recurrence.rs *)

(** [materialize_recurrences], with the text of its error. *)
Class Recurrences : Type := { materialize_recurrences : PlanRequest → result string MaterializedPlan }.

(** ** Translating identifiers back *)

(** The series of a materialised item, or the item itself. *)
Definition series_of (identities : gmap ItemId MaterializedIdentity) (id : ItemId) : ItemId :=
  match identities !! id with Some identity => mi_series_item_id identity | None => id end.

Definition occurrence_of (identities : gmap ItemId MaterializedIdentity) (id : ItemId) : option OccurrenceId :=
  mi_occurrence_id <$> identities !! id.

(** The occurrence an output shows: the identity's, or what it had. *)
Definition remap_occurrence (identities : gmap ItemId MaterializedIdentity) (id : ItemId) (occurrence : option OccurrenceId)
    : option OccurrenceId :=
  match occurrence_of identities id with Some o => Some o | None => occurrence end.

Definition remap_item (identities : gmap ItemId MaterializedIdentity) (item_id : option ItemId) : option ItemId :=
  series_of identities <$> item_id.

Definition remap_block (identities : gmap ItemId MaterializedIdentity) (block : ScheduleBlock) : ScheduleBlock :=
  {| sb_id := sb_id block; sb_is_sensitive := sb_is_sensitive block;
     sb_item_id := remap_item identities (sb_item_id block);
     sb_occurrence_id :=
       match sb_item_id block with
       | Some id => remap_occurrence identities id (sb_occurrence_id block)
       | None => sb_occurrence_id block
       end;
     sb_external_block_id := sb_external_block_id block; sb_title := sb_title block; sb_start := sb_start block;
     sb_end := sb_end block; sb_session_index := sb_session_index block; sb_kind := sb_kind block;
     sb_explanations := sb_explanations block |}.

Definition remap_unscheduled (identities : gmap ItemId MaterializedIdentity) (work : UnscheduledWork) : UnscheduledWork :=
  {| uw_item_id := series_of identities (uw_item_id work);
     uw_occurrence_id := remap_occurrence identities (uw_item_id work) (uw_occurrence_id work);
     uw_remaining := uw_remaining work; uw_reason := uw_reason work; uw_message := uw_message work |}.

Definition remap_decision (identities : gmap ItemId MaterializedIdentity) (decision : PlanDecision) : PlanDecision :=
  {| pd_item_id := series_of identities (pd_item_id decision);
     pd_occurrence_id := remap_occurrence identities (pd_item_id decision) (pd_occurrence_id decision);
     pd_kind := pd_kind decision; pd_message := pd_message decision |}.

(** The identifiers of a violation: replaced, sorted and without repetition. *)
Definition remap_ids (identities : gmap ItemId MaterializedIdentity) (ids : list ItemId) : list ItemId :=
  sort_dedup_N (series_of identities <$> ids).

Definition remap_occurrences (identities : gmap ItemId MaterializedIdentity) (ids : list ItemId)
    (occurrences : list OccurrenceId) : list OccurrenceId :=
  sort_dedup_N (occurrences ++ omap (occurrence_of identities) ids).

Definition remap_violation (identities : gmap ItemId MaterializedIdentity) (v : PlanViolation) : PlanViolation :=
  {| pv_kind := pv_kind v; pv_severity := pv_severity v; pv_item_ids := remap_ids identities (pv_item_ids v);
     pv_occurrence_ids := remap_occurrences identities (pv_item_ids v) (pv_occurrence_ids v);
     pv_start := pv_start v; pv_end := pv_end v; pv_penalty := pv_penalty v; pv_message := pv_message v |}.

Definition remap_conflict (identities : gmap ItemId MaterializedIdentity) (c : ManualPlacementConflict) : ManualPlacementConflict :=
  {| mpc_block_id := mpc_block_id c; mpc_item_id := remap_item identities (mpc_item_id c);
     mpc_occurrence_id :=
       match mpc_item_id c with
       | Some id => remap_occurrence identities id (mpc_occurrence_id c)
       | None => mpc_occurrence_id c
       end;
     mpc_external_block_id := mpc_external_block_id c; mpc_kind := mpc_kind c; mpc_start := mpc_start c;
     mpc_end := mpc_end c |}.

Definition remap_manual_violation (identities : gmap ItemId MaterializedIdentity) (v : ManualPlacementViolation)
    : ManualPlacementViolation :=
  {| mpv_code := mpv_code v; mpv_item_ids := remap_ids identities (mpv_item_ids v);
     mpv_occurrence_ids := remap_occurrences identities (mpv_item_ids v) (mpv_occurrence_ids v);
     mpv_conflicting_block_ids := mpv_conflicting_block_ids v;
     mpv_conflicting_blocks := remap_conflict identities <$> mpv_conflicting_blocks v; mpv_start := mpv_start v;
     mpv_end := mpv_end v; mpv_boundary_start := mpv_boundary_start v; mpv_boundary_end := mpv_boundary_end v;
     mpv_message := mpv_message v |}.

Definition remap_assessment (identities : gmap ItemId MaterializedIdentity) (a : ManualPlacementAssessment)
    : ManualPlacementAssessment :=
  {| mpa_placement_id := mpa_placement_id a; mpa_environment_digest := mpa_environment_digest a;
     mpa_violations := remap_manual_violation identities <$> mpa_violations a |}.

Definition remap_occurrence_outputs (plan : SchedulePlan) (identities : gmap ItemId MaterializedIdentity) : SchedulePlan :=
  {| sp_as_of := sp_as_of plan; sp_horizon_start := sp_horizon_start plan; sp_horizon_end := sp_horizon_end plan;
     sp_blocks := remap_block identities <$> sp_blocks plan;
     sp_unscheduled := remap_unscheduled identities <$> sp_unscheduled plan;
     sp_decisions := remap_decision identities <$> sp_decisions plan;
     sp_violations := remap_violation identities <$> sp_violations plan; sp_score := sp_score plan;
     sp_occurrences := sp_occurrences plan;
     sp_manual_placement_assessments := remap_assessment identities <$> sp_manual_placement_assessments plan |}.

(** [plan.manual_placement_assessments = ..] with the violations they add. *)
Definition with_assessments (plan : SchedulePlan) (assessments : list ManualPlacementAssessment) : SchedulePlan :=
  {| sp_as_of := sp_as_of plan; sp_horizon_start := sp_horizon_start plan; sp_horizon_end := sp_horizon_end plan;
     sp_blocks := sp_blocks plan; sp_unscheduled := sp_unscheduled plan; sp_decisions := sp_decisions plan;
     sp_violations := sp_violations plan ++ (as_plan_violation <$> (assessments ≫= mpa_violations));
     sp_score := sp_score plan; sp_occurrences := sp_occurrences plan;
     sp_manual_placement_assessments := assessments |}.

Definition with_occurrences (plan : SchedulePlan) (occurrences : list Occurrence) : SchedulePlan :=
  {| sp_as_of := sp_as_of plan; sp_horizon_start := sp_horizon_start plan; sp_horizon_end := sp_horizon_end plan;
     sp_blocks := sp_blocks plan; sp_unscheduled := sp_unscheduled plan; sp_decisions := sp_decisions plan;
     sp_violations := sp_violations plan; sp_score := sp_score plan; sp_occurrences := occurrences;
     sp_manual_placement_assessments := sp_manual_placement_assessments plan |}.

(** [OccurrenceLifecycleContext::default] *)
Definition default_lifecycle : OccurrenceLifecycleContext := {| lc_snapshot_revision := 0; lc_instances := [] |}.

Section pipeline.
Context `{Platform} `{Encoding} `{Recurrences}.

(** What both entry points do before planning. *)
Definition materialize_inputs (request : PlanRequest) (execution : ExecutionPlanningContext)
    (lifecycle : OccurrenceLifecycleContext)
    : result ScheduleError (MaterializedPlan * PlanRequest * MaterializedExecutionContext) :=
  let? materialized := map_err ScheduleError.InvalidRecurrence (materialize_recurrences request) in
  let? materialized := map_err ScheduleError.InvalidOccurrenceLifecycle
                         (apply_occurrence_lifecycle request execution lifecycle materialized) in
  let? (materialized_request, materialized_execution) :=
    apply_execution_context (mp_request materialized) (mp_identities materialized) execution in
  Ok (materialized, materialized_request, materialized_execution).

(** The outputs under the identifiers of the request. *)
Definition publish (materialized : MaterializedPlan) (plan : SchedulePlan) : SchedulePlan :=
  with_occurrences (remap_occurrence_outputs plan (mp_identities materialized)) (mp_occurrences materialized).

(** [Scheduler::plan_with_lifecycle] *)
Definition plan_with_lifecycle (request : PlanRequest) (execution : ExecutionPlanningContext)
    (lifecycle : OccurrenceLifecycleContext) : result ScheduleError SchedulePlan :=
  let? _ := validate_request request in
  let? _ := validate_execution_context request execution in
  let? (materialized, materialized_request, materialized_execution) := materialize_inputs request execution lifecycle in
  let? plan := plan_materialized materialized_request materialized_execution [] in
  let? assessments := assess_manual_placements materialized_request plan in
  Ok (publish materialized (with_assessments plan assessments)).

Definition plan_with_execution (request : PlanRequest) (execution : ExecutionPlanningContext)
    : result ScheduleError SchedulePlan :=
  plan_with_lifecycle request execution default_lifecycle.

(** [Scheduler::plan] *)
Definition plan_request (request : PlanRequest) : result ScheduleError SchedulePlan :=
  plan_with_execution request default_execution.

(** ** Assessing a defer candidate *)

Definition defer_materialized_item_id (materialized_request : PlanRequest) (identities : gmap ItemId MaterializedIdentity)
    (candidate : DeferCandidateAssessmentInput) : result ScheduleError ItemId :=
  match dci_occurrence_id candidate with
  | Some occurrence_id =>
      ok_or (fst <$> List.find (λ p, (mi_series_item_id p.2 =? dci_item_id candidate)%N &&
                                     (mi_occurrence_id p.2 =? occurrence_id)%N) (entries identities))
        (invalid_defer_candidate candidate "the source occurrence is not materialized in the active planning horizon")
  | None =>
      if existsb (λ identity, (mi_series_item_id identity =? dci_item_id candidate)%N) (values identities) then
        Err (invalid_defer_candidate candidate "a recurring source must bind its exact occurrence identifier")
      else if existsb (λ item, (wi_id item =? dci_item_id candidate)%N) (items materialized_request) then
        Ok (dci_item_id candidate)
      else Err (invalid_defer_candidate candidate "the source item is not executable in the active planning horizon")
  end.

Definition outside_occurrence_window (item : WorkItem) (block : PreviousBlock) : bool :=
  match occurrence_window (wi_constraints item) with
  | Some window => odt_ltb (pb_start block) (aw_start window) || odt_ltb (aw_end window) (pb_end block)
  | None => false
  end.

Definition validate_defer_materialized_target (request : PlanRequest) (item_id : ItemId) (block : PreviousBlock)
    (remaining_source_minutes : N) (candidate : DeferCandidateAssessmentInput) : result ScheduleError unit :=
  let? item := ok_or (List.find (λ item, (wi_id item =? item_id)%N) (items request))
                 (invalid_defer_candidate candidate "the materialized source item is missing") in
  if target_is_not_executable (child_map (items request)) item then
    Err (invalid_defer_candidate candidate "the source does not identify executable work")
  else
    let? duration := ok_or (wi_duration item)
                       (invalid_defer_candidate candidate "the source item has no authoritative duration") in
    if (planning_minutes duration <? remaining_source_minutes)%N then
      Err (invalid_defer_candidate candidate "the source replacement exceeds the item's remaining demand")
    else if outside_occurrence_window item block then
      Err (invalid_defer_candidate candidate "the replacement is outside its exact occurrence window")
    else validate_manual_split_policy item [block] remaining_source_minutes.

Definition candidate_block (candidate : DeferCandidateAssessmentInput) : PreviousBlock :=
  {| pb_start := dci_move_start candidate; pb_end := dci_move_end candidate;
     pb_session_index := dci_replacement_session_index candidate |}.

Definition candidate_target (candidate : DeferCandidateAssessmentInput) (item_id : ItemId) : PreviousAssignment :=
  {| pa_item_id := item_id; pa_occurrence_id := dci_occurrence_id candidate; pa_blocks := [candidate_block candidate];
     pa_pinned := true; pa_manual_placement_id := Some (dci_placement_id candidate) |}.

(** The blocks of the plan that are the replacement. *)
Definition replacement_blocks (plan : SchedulePlan) (item_id : ItemId) (candidate : DeferCandidateAssessmentInput)
    : list ScheduleBlock :=
  filter (λ block, manual_block_matches block item_id (candidate_block candidate) = true) (sp_blocks plan).

Definition check_replacement (plan : SchedulePlan) (item_id : ItemId) (candidate : DeferCandidateAssessmentInput)
    : result ScheduleError unit :=
  match replacement_blocks plan item_id candidate with
  | [_] => Ok tt
  | [] => Err (invalid_defer_candidate candidate "the replacement did not produce its exact reserved schedule block")
  | _ => Err (invalid_defer_candidate candidate "the replacement produced ambiguous reserved schedule blocks")
  end.

Definition candidate_assessment (plan : SchedulePlan) (candidate : DeferCandidateAssessmentInput)
    : result ScheduleError ManualPlacementAssessment :=
  match filter (λ a, mpa_placement_id a = dci_placement_id candidate) (sp_manual_placement_assessments plan) with
  | [assessment] => Ok assessment
  | [] => Err (ScheduleError.MissingDeferAssessment (dci_placement_id candidate))
  | _ => Err (ScheduleError.AmbiguousDeferAssessment (dci_placement_id candidate))
  end.

Definition assess_defer_candidate_with_lifecycle (request : PlanRequest) (execution : ExecutionPlanningContext)
    (lifecycle : OccurrenceLifecycleContext) (candidate : DeferCandidateAssessmentInput)
    : result ScheduleError DeferCandidateAssessmentResult :=
  let? _ := validate_request request in
  let? (candidate_execution, remaining_source_minutes) := prepare_defer_candidate request execution candidate in
  let? _ := validate_execution_context request candidate_execution in
  let? (materialized, materialized_request, materialized_execution) :=
    materialize_inputs request candidate_execution lifecycle in
  let? item_id := defer_materialized_item_id materialized_request (mp_identities materialized) candidate in
  let target := candidate_target candidate item_id in
  let? _ := validate_defer_materialized_target materialized_request item_id (candidate_block candidate)
              remaining_source_minutes candidate in
  let? plan := plan_materialized materialized_request materialized_execution [target] in
  let? _ := check_replacement plan item_id candidate in
  let? assessments := assess_manual_placement_targets materialized_request plan [target] in
  let plan := publish materialized (with_assessments plan assessments) in
  let? assessment := candidate_assessment plan candidate in
  Ok {| dcr_plan := plan; dcr_assessment := assessment |}.

(** [Scheduler::assess_defer_candidate] *)
Definition assess_defer_candidate (request : PlanRequest) (execution : ExecutionPlanningContext)
    (candidate : DeferCandidateAssessmentInput) : result ScheduleError DeferCandidateAssessmentResult :=
  assess_defer_candidate_with_lifecycle request execution default_lifecycle candidate.
End pipeline.

(** ** Lemmas *)

Lemma no_double_booking_fmap (f : ScheduleBlock → ScheduleBlock) l :
  (∀ b, block_interval (f b) = block_interval b ∧ sb_kind (f b) = sb_kind b) →
  no_double_booking l → no_double_booking (f <$> l).
Proof.
  intros Hf Hl i j a b Hij Ha Hb Hk. rewrite list_lookup_fmap in Ha, Hb.
  destruct (l !! i) as [a0|] eqn:Ea; [|done]. destruct (l !! j) as [b0|] eqn:Eb; [|done]. simpl in *. simplify_eq.
  destruct (Hf a0) as [-> Hka], (Hf b0) as [-> _]. apply (Hl i j); [done..|congruence].
Qed.

Lemma no_double_booking_publish materialized plan assessments :
  no_double_booking (sp_blocks plan) → no_double_booking (sp_blocks (publish materialized (with_assessments plan assessments))).
Proof. intros Hn. simpl. by apply no_double_booking_fmap. Qed.

(** A clone's series is not itself a clone. *)
Definition clones_are_fresh (identities : gmap ItemId MaterializedIdentity) : Prop :=
  ∀ k i, identities !! k = Some i → identities !! mi_series_item_id i = None.

Lemma series_of_fresh identities id : clones_are_fresh identities → identities !! series_of identities id = None.
Proof. intros Hf. unfold series_of. destruct (identities !! id) as [i|] eqn:E; [by eapply Hf|done]. Qed.

Lemma remap_ids_fresh identities ids id : clones_are_fresh identities → id ∈ remap_ids identities ids → identities !! id = None.
Proof.
  unfold remap_ids. rewrite elem_of_sort_dedup_N. intros Hf (k & -> & _)%list_elem_of_fmap. by apply series_of_fresh.
Qed.

Lemma remap_item_fresh identities o id : clones_are_fresh identities → remap_item identities o = Some id → identities !! id = None.
Proof. intros Hf. unfold remap_item. destruct o; [|done]. intros [= <-]. by apply series_of_fresh. Qed.

(** What an output shows to its reader. *)
Record names_only (P : ItemId → Prop) (plan : SchedulePlan) : Prop := {
  no_blocks b id : b ∈ sp_blocks plan → sb_item_id b = Some id → P id;
  no_unscheduled w : w ∈ sp_unscheduled plan → P (uw_item_id w);
  no_decisions d : d ∈ sp_decisions plan → P (pd_item_id d);
  no_violations v id : v ∈ sp_violations plan → id ∈ pv_item_ids v → P id;
  no_manual a v id : a ∈ sp_manual_placement_assessments plan → v ∈ mpa_violations a → id ∈ mpv_item_ids v → P id;
  no_conflicts a v c id : a ∈ sp_manual_placement_assessments plan → v ∈ mpa_violations a → c ∈ mpv_conflicting_blocks v →
    mpc_item_id c = Some id → P id
}.

Lemma publish_names materialized plan :
  clones_are_fresh (mp_identities materialized) →
  names_only (λ id, mp_identities materialized !! id = None) (publish materialized plan).
Proof.
  intros Hf. constructor; simpl.
  - intros b id (b0 & -> & _)%list_elem_of_fmap. by apply remap_item_fresh.
  - intros w (w0 & -> & _)%list_elem_of_fmap. by apply series_of_fresh.
  - intros d (d0 & -> & _)%list_elem_of_fmap. by apply series_of_fresh.
  - intros v id (v0 & -> & _)%list_elem_of_fmap. by apply remap_ids_fresh.
  - intros a v id (a0 & -> & _)%list_elem_of_fmap (v0 & -> & _)%list_elem_of_fmap. by apply remap_ids_fresh.
  - intros a v c id (a0 & -> & _)%list_elem_of_fmap (v0 & -> & _)%list_elem_of_fmap (c0 & -> & _)%list_elem_of_fmap.
    by apply remap_item_fresh.
Qed.

(** The plan violation that shows a manual violation. *)
Definition shows_violation (v : ManualPlacementViolation) (pv : PlanViolation) : Prop :=
  pv_kind pv = violation_kind (mpv_code v) ∧ pv_severity pv = Error ∧ pv_start pv = Some (mpv_start v) ∧
  pv_end pv = Some (mpv_end v) ∧ pv_message pv = mpv_message v ∧ pv_penalty pv = 0%N ∧
  ∀ id, id ∈ mpv_item_ids v → id ∈ pv_item_ids pv.

Lemma publish_shows materialized plan assessments a v :
  let published := publish materialized (with_assessments plan assessments) in
  a ∈ sp_manual_placement_assessments published → v ∈ mpa_violations a → ∃ pv, pv ∈ sp_violations published ∧ shows_violation v pv.
Proof.
  simpl. intros (a0 & -> & Ha)%list_elem_of_fmap (v0 & -> & Hv)%list_elem_of_fmap.
  exists (remap_violation (mp_identities materialized) (as_plan_violation v0)). split.
  - apply list_elem_of_fmap_2, elem_of_app. right. apply list_elem_of_fmap_2, list_elem_of_bind. by exists a0.
  - unfold shows_violation. simpl. split_and!; try done. intros id. unfold remap_ids. rewrite !elem_of_sort_dedup_N.
    intros (k & -> & Hk)%list_elem_of_fmap. apply list_elem_of_fmap_2. rewrite elem_of_sort_dedup_N. apply elem_of_app. by left.
Qed.

(** ** Theorems *)

Section theorems.
Context `{PlatformLaws} `{Encoding} `{Recurrences}.

(** The block that keeps the time of a deferred session. *)
Definition reserves (candidate : DeferCandidateAssessmentInput) (b : ScheduleBlock) : Prop :=
  sb_kind b = Pinned ∧ (sb_start b : Z) = dci_move_start candidate ∧ (sb_end b : Z) = dci_move_end candidate ∧
  sb_session_index b = dci_replacement_session_index candidate ∧
  ∀ o, dci_occurrence_id candidate = Some o → sb_item_id b = Some (dci_item_id candidate) ∧ sb_occurrence_id b = Some o.

Lemma remap_reserves request identities candidate item_id b :
  defer_materialized_item_id request identities candidate = Ok item_id →
  manual_block_matches b item_id (candidate_block candidate) = true → reserves candidate (remap_block identities b).
Proof.
  unfold manual_block_matches. rewrite !andb_true_iff, !bool_decide_eq_true, N.eqb_eq, !odt_eqb_eq.
  intros Hid ((((Hk & Hi) & Hx) & Hs) & He). unfold reserves. simpl. split_and!; [done..|].
  intros o Ho. unfold defer_materialized_item_id in Hid. rewrite Ho in Hid. apply ok_or_ok in Hid.
  destruct (List.find _ _) as [[k identity]|] eqn:Ef; [|done]. simpl in Hid. simplify_eq.
  apply find_some in Ef as [Hin%list_elem_of_In%elem_of_entries Hm]. simpl in Hm. rewrite andb_true_iff, !N.eqb_eq in Hm.
  destruct Hm as [Hser Hocc]. rewrite Hi. simpl. unfold series_of, remap_occurrence, occurrence_of. rewrite Hin. simpl.
  by rewrite Hser, Hocc.
Qed.

Lemma plan_with_lifecycle_Ok request execution lifecycle plan :
  plan_with_lifecycle request execution lifecycle = Ok plan →
  ∃ source materialized materialized_request materialized_execution inner assessments,
    materialize_recurrences request = Ok source ∧ mp_identities materialized = mp_identities source ∧
    plan_materialized materialized_request materialized_execution [] = Ok inner ∧
    assess_manual_placements materialized_request inner = Ok assessments ∧
    plan = publish materialized (with_assessments inner assessments).
Proof.
  unfold plan_with_lifecycle. rewrite !rbind_unit_ok. intros (_ & _ & Hp).
  apply rbind_ok in Hp as ([[materialized mr] me] & Hm & Hp). apply rbind_ok in Hp as (inner & Hinner & Hp).
  apply rbind_ok in Hp as (assessments & Ha & [= <-]).
  unfold materialize_inputs in Hm. apply rbind_ok in Hm as (source & Hs & Hm). apply rbind_ok in Hm as (m & Hl & Hm).
  apply rbind_ok in Hm as ([r e] & _ & [= <- <- <-]).
  exists source, m, r, e, inner, assessments. split_and!; try done.
  - unfold map_err in Hs. destruct (materialize_recurrences request); [|done]. by simplify_eq.
  - unfold map_err in Hl. destruct (apply_occurrence_lifecycle _ _ _ _) as [m'|] eqn:El; [|done]. simplify_eq.
    unfold apply_occurrence_lifecycle in El. apply rbind_ok in El as (indexed & _ & El).
    case_bool_decide; [by simplify_eq|]. by apply rbind_ok in El as (statuses & _ & [= <-]).
Qed.

(** The plan a client receives never books planned work twice: the
    translation of identifiers moves no block. *)
Theorem published_plan_never_double_books request execution lifecycle plan :
  plan_with_lifecycle request execution lifecycle = Ok plan → no_double_booking (sp_blocks plan).
Proof.
  intros (_ & m & r & e & inner & a & _ & _ & Hp & _ & ->)%plan_with_lifecycle_Ok.
  apply no_double_booking_publish. by eapply plan_disjoint.
Qed.

(** No output names a materialised clone: given that a series is never itself
    a clone, every item a plan mentions - in its blocks, unscheduled work,
    decisions, violations and assessments - is outside the clones. *)
Theorem published_plan_names_series request execution lifecycle plan source :
  plan_with_lifecycle request execution lifecycle = Ok plan →
  materialize_recurrences request = Ok source → clones_are_fresh (mp_identities source) →
  names_only (λ id, mp_identities source !! id = None) plan.
Proof.
  intros (source' & m & r & e & inner & a & Hs & Hid & _ & _ & ->)%plan_with_lifecycle_Ok Hs' Hf.
  rewrite Hs in Hs'. simplify_eq. rewrite <- Hid in *. by apply publish_names.
Qed.

(** Every manual violation of an assessment also stands among the plan's
    violations, as an error over the same time. *)
Theorem manual_violations_are_plan_violations request execution lifecycle plan a v :
  plan_with_lifecycle request execution lifecycle = Ok plan →
  a ∈ sp_manual_placement_assessments plan → v ∈ mpa_violations a → ∃ pv, pv ∈ sp_violations plan ∧ shows_violation v pv.
Proof. intros (_ & m & r & e & inner & l & _ & _ & _ & _ & ->)%plan_with_lifecycle_Ok. apply publish_shows. Qed.

(** An assessed defer was a deferrable candidate, and its result is about it:
    the plan holds a pinned block with the replacement's time and index, under
    the series and occurrence of the candidate when it names an occurrence, the
    assessment is the plan's only one for the placement, and no planned work is
    booked twice. *)
Theorem assessed_defer_is_reserved request execution lifecycle candidate res :
  assess_defer_candidate_with_lifecycle request execution lifecycle candidate = Ok res →
  (∃ ui unit ri source remaining, deferrable request execution candidate ui unit ri source remaining) ∧
  (∃ b, b ∈ sp_blocks (dcr_plan res) ∧ reserves candidate b) ∧
  filter (λ a, mpa_placement_id a = dci_placement_id candidate) (sp_manual_placement_assessments (dcr_plan res)) =
    [dcr_assessment res] ∧
  no_double_booking (sp_blocks (dcr_plan res)).
Proof.
  unfold assess_defer_candidate_with_lifecycle. rewrite rbind_unit_ok. intros (_ & Hp).
  apply rbind_ok in Hp as ([ce remaining] & Hprep & Hp). rewrite rbind_unit_ok in Hp. destruct Hp as (_ & Hp).
  apply rbind_ok in Hp as ([[m r] e] & _ & Hp). apply rbind_ok in Hp as (item_id & Hitem & Hp).
  rewrite rbind_unit_ok in Hp. destruct Hp as (_ & Hp). apply rbind_ok in Hp as (plan & Hplan & Hp).
  rewrite rbind_unit_ok in Hp. destruct Hp as (Hcheck & Hp). apply rbind_ok in Hp as (l & _ & Hp).
  apply rbind_ok in Hp as (assessment & Ha & [= <-]). cbn [dcr_plan dcr_assessment].
  split_and!.
  - apply prepare_iff in Hprep as (ui & unit & ri & source & Hd & _). by exists ui, unit, ri, source, remaining.
  - unfold check_replacement in Hcheck. destruct (replacement_blocks plan item_id candidate) as [|b [|? ?]] eqn:Eb; [done| |done].
    assert (b ∈ replacement_blocks plan item_id candidate) as Hb by (rewrite Eb; left).
    apply list_elem_of_filter in Hb as [Hm Hb]. exists (remap_block (mp_identities m) b).
    split; [simpl; by apply list_elem_of_fmap_2|by eapply remap_reserves].
  - unfold candidate_assessment in Ha. destruct (filter _ _) as [|x [|y k]]; [done| |done]. by simplify_eq.
  - apply no_double_booking_publish. by eapply plan_disjoint.
Qed.
End theorems.

(** ** Witnesses *)

(** Requests without recurrences stay as they are. *)
Definition no_recurrences : Recurrences :=
  {| materialize_recurrences r := Ok {| mp_request := r; mp_occurrences := []; mp_identities := ∅ |} |}.

(** One occurrence of item 5, under the clone 205. *)
Definition one_clone : Recurrences :=
  {| materialize_recurrences r := Ok {| mp_request := with_items r [sample_item 205 Task None 30]; mp_occurrences := [];
       mp_identities := {[205%N := {| mi_series_item_id := 5; mi_occurrence_id := 900 |}]} |} |}.

Definition published (R : Recurrences) (request : PlanRequest) : result ScheduleError SchedulePlan :=
  @plan_with_lifecycle utc_platform sample_encoding R request default_execution default_lifecycle.

Lemma published_manual_day : is_ok (published no_recurrences (manual_day 470)) = true.
Proof. vm_compute. reflexivity. Qed.

Lemma published_plan_never_double_books_witness :
  ∃ plan, published no_recurrences (manual_day 470) = Ok plan ∧ no_double_booking (sp_blocks plan).
Proof.
  pose proof published_manual_day as Hok.
  destruct (published no_recurrences (manual_day 470)) as [plan|e] eqn:E; [|discriminate Hok].
  exists plan. split; [reflexivity|].
  exact (@published_plan_never_double_books utc_platform utc_platform_laws sample_encoding no_recurrences _ _ _ plan E).
Defined.

Lemma published_clone : is_ok (published one_clone (sample_request [deadline_item])) = true.
Proof. vm_compute. reflexivity. Qed.

Lemma published_plan_names_series_witness :
  ∃ plan, published one_clone (sample_request [deadline_item]) = Ok plan ∧
    names_only (λ id, ({[205%N := {| mi_series_item_id := 5; mi_occurrence_id := 900 |}]} : gmap ItemId MaterializedIdentity) !! id = None) plan.
Proof.
  pose proof published_clone as Hok.
  destruct (published one_clone (sample_request [deadline_item])) as [plan|e] eqn:E; [|discriminate Hok].
  exists plan. split; [reflexivity|].
  refine (@published_plan_names_series utc_platform sample_encoding one_clone _ _ _ plan _ E eq_refl _).
  intros k i Hk. simpl in Hk. apply lookup_singleton_Some in Hk as [_ <-]. reflexivity.
Defined.

Lemma manual_violations_are_plan_violations_witness :
  ∃ plan v pv, published no_recurrences (manual_day 470) = Ok plan ∧ pv ∈ sp_violations plan ∧ shows_violation v pv.
Proof.
  pose proof published_manual_day as Hok.
  destruct (published no_recurrences (manual_day 470)) as [plan|e] eqn:E; [|discriminate Hok].
  assert (∃ a v, a ∈ sp_manual_placement_assessments plan ∧ v ∈ mpa_violations a) as (a & v & Ha & Hv).
  { vm_compute in E. injection E as <-. eexists _, _. split; [left|left]. }
  destruct (@manual_violations_are_plan_violations utc_platform sample_encoding no_recurrences _ _ _ plan a v E Ha Hv)
    as (pv & Hp & Hs).
  exists plan, v, pv. split; [reflexivity|]. split; [exact Hp|exact Hs].
Defined.

Definition sample_assessment : result ScheduleError DeferCandidateAssessmentResult :=
  @assess_defer_candidate_with_lifecycle utc_platform sample_encoding no_recurrences
    (sample_request [sample_item 1 Task None 60]) in_flight default_lifecycle sample_candidate.

Lemma sample_assessment_ok : is_ok sample_assessment = true.
Proof. vm_compute. reflexivity. Qed.

Lemma assessed_defer_is_reserved_witness :
  ∃ res b, sample_assessment = Ok res ∧ b ∈ sp_blocks (dcr_plan res) ∧ reserves sample_candidate b.
Proof.
  pose proof sample_assessment_ok as Hok. destruct sample_assessment as [res|e] eqn:E; [|discriminate Hok].
  destruct (@assessed_defer_is_reserved utc_platform utc_platform_laws sample_encoding no_recurrences _ _ _ _ res E)
    as (_ & (b & Hb & Hr) & _).
  exists res, b. split; [reflexivity|]. split; [exact Hb|exact Hr].
Defined.
