(* ===== verification/Recurring.v ===== *)
(** * Recurring: the entry points with the materialisation of recurrence.rs

    The instance of the interface [Recurrences] of Pipeline by the functions of
    Materialize, and what a published plan promises about recurring work. *)
From S2P Require Import Prelude Text Tokens Platform Civil Domain Samples Forest Rollup Lifecycle Plan Order Rrule Expansion Horizon Occurrences Materialize Subtrees Clones Execution Validation Candidate Planner Placement Safety Manual Defer Pipeline.

(** [materialize_recurrences], with the text of its error *)
#[export] Instance core_recurrences `{Platform, Civil} : Recurrences :=
  {| materialize_recurrences request := map_err recurrence_error_message (materialize_recurrences_core request) |}.

(** ** What the passes after materialisation keep *)

(** Same identifiers and constraints, position by position. *)
Definition same_skeleton (l l' : list WorkItem) : Prop :=
  Forall2 (λ x x', wi_id x' = wi_id x ∧ wi_constraints x' = wi_constraints x) l l'.

Lemma same_skeleton_map (f : WorkItem → WorkItem) l :
  (∀ x, wi_id (f x) = wi_id x ∧ wi_constraints (f x) = wi_constraints x) → same_skeleton l (f <$> l).
Proof. intros Hf. unfold same_skeleton. apply Forall2_fmap_r, Forall_Forall2_diag, Forall_forall. intros x _. apply Hf. Qed.

Lemma same_skeleton_trans l1 l2 l3 : same_skeleton l1 l2 → same_skeleton l2 l3 → same_skeleton l1 l3.
Proof.
  unfold same_skeleton. intros H1. revert l3. induction H1 as [|x y l l' [Hi Hc] _ IH]; intros l3 H2; [done|].
  inversion H2 as [|? z ? ? [Hi' Hc'] H2']; subst. constructor; [split; congruence|by apply IH].
Qed.

Lemma same_skeleton_ids l l' : same_skeleton l l' → wi_id <$> l' = wi_id <$> l.
Proof. induction 1 as [|x x' l l' [Hid _] _ IH]; [done|]. by rewrite !fmap_cons, Hid, IH. Qed.

Lemma same_skeleton_in l l' x' : same_skeleton l l' → x' ∈ l' → ∃ x, x ∈ l ∧ wi_id x' = wi_id x ∧ wi_constraints x' = wi_constraints x.
Proof.
  intros HF Hx. apply list_elem_of_lookup in Hx as [k Hk]. destruct (Forall2_lookup_r _ _ _ _ _ HF Hk) as (x & Hx & ?).
  exists x. split; [by eapply list_elem_of_lookup_2|done].
Qed.

Section passes.
Context `{Platform} `{Encoding} `{Recurrences}.

Lemma materialize_inputs_Ok request execution lifecycle m r e :
  materialize_inputs request execution lifecycle = Ok (m, r, e) →
  ∃ source, materialize_recurrences request = Ok source ∧ mp_identities m = mp_identities source ∧
    mp_occurrences m = mp_occurrences source ∧ same_skeleton (items (mp_request source)) (items r).
Proof.
  unfold materialize_inputs. intros (source & Hs & (m' & Hl & ([r' e'] & He & [= <- <- <-])%rbind_ok)%rbind_ok)%rbind_ok.
  exists source. rewrite map_err_ok in Hs. rewrite map_err_ok in Hl. split; [done|].
  assert (mp_identities m' = mp_identities source ∧ mp_occurrences m' = mp_occurrences source ∧
    same_skeleton (items (mp_request source)) (items (mp_request m'))) as (? & ? & Hsk).
  { unfold apply_occurrence_lifecycle in Hl. apply rbind_ok in Hl as (indexed & _ & Hl). case_bool_decide.
    - injection Hl as <-. split_and!; [done|done|]. rewrite <- (list_fmap_id (items (mp_request source))) at 2. by apply same_skeleton_map.
    - apply rbind_ok in Hl as (statuses & _ & [= <-]). split_and!; [done|done|]. simpl. apply same_skeleton_map.
      intros x. by destruct (statuses !! wi_id x). }
  split_and!; [done|done|]. eapply same_skeleton_trans; [exact Hsk|].
  unfold apply_execution_context in He. destruct (apply_units _ _ _) as [[new matched] units] eqn:E.
  apply apply_units_spec in E as (-> & _). apply rbind_ok in He as (u & _ & [= <- <-]). simpl. apply same_skeleton_map.
  intros x. destruct (_ !! _) as [w|]; [|done]. unfold apply_unit. case_bool_decide; [done|]. by destruct (wi_duration x).
Qed.
End passes.

(** ** Recurring work *)

Lemma add_identities_lookup (l : list (ItemId * MaterializedIdentity)) m k v :
  NoDup l.*1 → add_identities m l !! k = Some v ↔ (k, v) ∈ l ∨ m !! k = Some v ∧ k ∉ l.*1.
Proof.
  revert m. induction l as [|[a b] l IH]; intros m Hnd; simpl; [unfold add_identities; simpl; set_solver|].
  apply NoDup_cons in Hnd as [Ha Hnd]. unfold add_identities in *. simpl. rewrite IH by done. rewrite elem_of_cons, not_elem_of_cons.
  assert ((a, b) ∈ l → a ∈ l.*1) by (intros Hin; by apply (list_elem_of_fmap_2 fst) in Hin).
  destruct (decide (k = a)) as [->|Hne].
  - rewrite lookup_insert_eq. split; [|naive_solver]. intros [Hl|[[= ->] _]]; [|by left; left].
    exfalso. apply Ha. by apply (list_elem_of_fmap_2 fst) in Hl.
  - rewrite lookup_insert_ne by done. naive_solver.
Qed.

(** The work a published block is about: an item outside the recurring
    subtrees, or a member of one, in the window of an occurrence of its root. *)
Definition serves (request : PlanRequest) (plan : SchedulePlan) (b : ScheduleBlock) : Prop :=
  ∃ item, item ∈ items request ∧ sb_item_id b = Some (wi_id item) ∧
    ((∀ root, recurs (items request) root → ¬ descends (item_parents (items request)) root (wi_id item)) ∨
     ∃ o, o ∈ sp_occurrences plan ∧ sb_occurrence_id b = Some (occ_id o) ∧ occ_state o = OccurrenceState.Generated ∧
       recurs (items request) (occ_series_item_id o) ∧
       descends (item_parents (items request)) (occ_series_item_id o) (wi_id item) ∧
       (occ_window_start o <= sb_start b)%Z ∧ (sb_end b <= occ_window_end o)%Z).

Section materialized.
Context `{Platform, Civil}.
Context (request : PlanRequest) (source : MaterializedPlan).
Hypothesis complete : complete_hierarchy (items request).
Hypothesis materialized : materialize_recurrences_core request = Ok source.
Hypothesis distinct : NoDup (wi_id <$> items (mp_request source)).

Lemma jobs_ids clones jobs :
  Forall2 (λ (job : WorkItem * ((option Occurrence * Occurrence) * ItemId)) x, is_clone request job.1 job.2.1 job.2.2 x) jobs clones →
  ((λ job, job_identity job.1 job.2) <$> jobs).*1 = wi_id <$> clones.
Proof. induction 1 as [|job x jobs clones Hc _ IH]; [done|]. apply is_clone_id in Hc. rewrite !fmap_cons, IH, Hc. done. Qed.

(** A materialised item is an item outside the recurring subtrees without an
    identity, or a clone with the identity of its member and occurrence. *)
Lemma materialized_item x :
  x ∈ items (mp_request source) →
  (x ∈ retained_items request ∧ mp_identities source !! wi_id x = None) ∨
  ∃ root o item, root ∈ root_items request ∧ o ∈ generated_for (mp_occurrences source) (wi_id root) ∧ item ∈ items request ∧
    descends (item_parents (items request)) (wi_id root) (wi_id item) ∧
    mp_identities source !! wi_id x = Some {| mi_series_item_id := wi_id item; mi_occurrence_id := occ_id o |} ∧
    occurrence_window (wi_constraints x) = Some {| aw_start := occ_window_start o; aw_end := occ_window_end o |}.
Proof using complete materialized distinct.
  destruct (materialized_parts request complete source materialized) as (_ & _ & clones & Hitems & HF & Hids & _).
  unfold sort_items in Hitems. rewrite Hitems in distinct |- *. rewrite sort_by_perm, fmap_app in distinct.
  apply NoDup_app in distinct as (_ & Hdisjoint & Hclones). rewrite elem_of_sort_by, elem_of_app, Hids.
  pose proof (jobs_ids _ _ HF) as Hjobs. rewrite <- Hjobs in Hclones. intros [Hx|Hx].
  - left. split; [done|]. apply eq_None_not_Some. intros [v Hv]. apply add_identities_lookup in Hv as [Hv|[Hv _]]; [| |done].
    + apply (Hdisjoint (wi_id x)); [by apply list_elem_of_fmap_2|]. rewrite <- Hjobs. by apply (list_elem_of_fmap_2 fst) in Hv.
    + by rewrite lookup_empty in Hv.
  - right. apply list_elem_of_lookup in Hx as [k Hk].
    destruct (Forall2_lookup_r _ _ _ _ _ HF Hk) as ([root [[previous o] y]] & Hj & Hc). apply list_elem_of_lookup_2 in Hj.
    pose proof (jobs_inv _ _ _ _ _ _ Hj) as (Hroot & Ho & Hy & _). pose proof (is_clone_id _ _ _ _ _ Hc) as Hid.
    destruct Hc as (item & Hin & Hiid & Hc). exists root, o, item. simpl in *. subst y.
    split_and!; [done|done|done|by apply (in_subtree_iff request complete)| |].
    + apply add_identities_lookup; [done|]. left. apply list_elem_of_fmap. eexists. split; [|exact Hj].
      unfold job_identity, identity_of. simpl. by rewrite Hid.
    + unfold clone_item in Hc. by apply rbind_ok in Hc as (d & _ & [= <-]).
Qed.
End materialized.

Section published.
Context `{CivilLaws} `{!PlatformLaws} `{Encoding}.

(** C35. A published plan does recurring work at its time: every planned block
    is about an item of the request, outside the recurring subtrees, or in the
    subtree of the root of a generated occurrence that the block names and
    within that occurrence's window; and the plan's occurrences belong to
    recurring items, lie in the horizon, and are generated only when neither
    completed nor paused. *)
Theorem recurring_work_keeps_its_window request execution lifecycle plan :
  plan_with_lifecycle request execution lifecycle = Ok plan →
  (∀ b, b ∈ sp_blocks plan → sb_kind b = Planned → serves request plan b) ∧
  (∀ o, o ∈ sp_occurrences plan → recurs (items request) (occ_series_item_id o) ∧ in_horizon request o ∧ settled request o).
Proof.
  unfold plan_with_lifecycle. rewrite !rbind_unit_ok, validate_request_iff. intros (Hv & _ & Hp).
  apply rbind_ok in Hp as ([[m r] e] & Hm & (inner & Hinner & (assessments & _ & [= <-])%rbind_ok)%rbind_ok).
  apply materialize_inputs_Ok in Hm as (source & Hs & Hid & Hocc & Hsk). simpl in Hs. rewrite map_err_ok in Hs.
  assert (complete_hierarchy (items request)) as Hcomplete.
  { destruct Hv. apply roll_up_succeeds_iff. by destruct (roll_up_expected_durations (items request)); [eexists|]. }
  destruct (materialized_parts request Hcomplete source Hs) as (Hexpand & _).
  assert (∀ o, o ∈ mp_occurrences source → recurs (items request) (occ_series_item_id o) ∧ in_horizon request o ∧ settled request o) as Hocs.
  { intros o Ho. destruct (occurrences_sound request ltac:(destruct Hv; lia) _ Hexpand) as (_ & _ & Hall).
    destruct (Hall o Ho) as ((item & Hin & <-) & ? & ?). split_and!; [|done..].
    by apply (root_iff request Hcomplete), (root_of_root_item request Hcomplete). }
  split; [|simpl; by rewrite Hocc].
  assert (NoDup (wi_id <$> items (mp_request source))) as Hnd.
  { rewrite <- (same_skeleton_ids _ _ Hsk). destruct (plan_Ok _ _ _ _ Hinner) as ([_ _ Hd _ _ _ _ _ _] & _). exact Hd. }
  intros b (b0 & -> & Hb)%list_elem_of_fmap Hk. simpl in Hk.
  destruct (lawful_plan _ _ _ _ Hinner b0 Hb Hk) as (x' & w & [[Hx' Hbid] _ _ _ _ _ _ _ _ [Hwin _]]).
  destruct (same_skeleton_in _ _ _ Hsk Hx') as (x & Hx & Heq & Hc). rewrite Heq in Hbid. rewrite Hc in Hwin.
  unfold serves. simpl. rewrite Hbid, Hid, Hocc. simpl. unfold series_of, remap_occurrence, occurrence_of.
  destruct (materialized_item request source Hcomplete Hs Hnd x Hx) as [[Hret Hnone]|(root & o & item & Hr & Ho & Hin & Hd & Hsome & Hw)].
  - rewrite Hnone. apply (retained_iff request Hcomplete) in Hret as [Hin Hno]. exists x. split_and!; [done|done|]. left.
    intros root Hrec Hdesc. apply Hno. by apply (topmost request Hcomplete root).
  - rewrite Hsome. exists item. split_and!; [done|done|]. right. exists o. apply list_elem_of_filter in Ho as [[Hst Hser] Ho].
    destruct (Hwin _ Hw) as [? ?]. simpl in *. rewrite Hser. split_and!; try done.
    by apply (root_iff request Hcomplete), (root_of_root_item request Hcomplete).
Qed.
End published.

(** ** Witness: the routine of three days is planned on the first and the third *)

Definition published_routine : result ScheduleError SchedulePlan :=
  @plan_with_lifecycle utc_platform sample_encoding (@core_recurrences utc_platform gregorian) routine_days default_execution default_lifecycle.

Definition names_occurrence (b : ScheduleBlock) : bool :=
  bool_decide (sb_kind b = Planned) && bool_decide (is_Some (sb_occurrence_id b)).

Lemma published_routine_ok :
  match published_routine with Ok plan => length (filter (λ b, names_occurrence b = true) (sp_blocks plan)) =? 4 | Err _ => false end = true.
Proof. vm_compute. reflexivity. Qed.

Lemma recurring_work_keeps_its_window_witness :
  ∃ plan b, published_routine = Ok plan ∧ b ∈ sp_blocks plan ∧ is_Some (sb_occurrence_id b) ∧ serves routine_days plan b.
Proof.
  pose proof published_routine_ok as Hok. destruct published_routine as [plan|e] eqn:E; [|discriminate Hok].
  apply Nat.eqb_eq in Hok. destruct (filter (λ b, names_occurrence b = true) (sp_blocks plan)) as [|b l] eqn:Eb; [discriminate Hok|].
  assert (b ∈ filter (λ b, names_occurrence b = true) (sp_blocks plan)) as Hb by (rewrite Eb; left).
  apply list_elem_of_filter in Hb as [Hn Hb]. unfold names_occurrence in Hn. rewrite andb_true_iff, !bool_decide_eq_true in Hn.
  destruct Hn as [Hk Ho].
  destruct (@recurring_work_keeps_its_window utc_platform gregorian gregorian_laws utc_platform_laws sample_encoding
    routine_days default_execution default_lifecycle plan E) as [Hserves _].
  exists plan, b. split; [reflexivity|]. split; [exact Hb|]. split; [exact Ho|]. exact (Hserves b Hb Hk).
Defined.
