(* ===== verification/Session.v ===== *)
(** * Session: the execution state machine of the server

    The model of server/dayweave-api/src/execution/domain.rs: an
    [ExecutionSession] and the commands that move it between its states.
    Instants are nanoseconds since the Unix epoch, as chrono counts them;
    adding at most a day to an instant is exact (chrono panics beyond its
    range).  Two clocks reach every command: the causal protocol time that
    orders the history, and the observed wall clock that the timer runs on.

    The theorems: when a command is accepted, the invariant of reachable
    sessions, their round trip through the wire form, and the refinement of an
    abstract stopwatch. *)
From S2P Require Import Prelude Platform Text.

(** ** Data *)

Definition MAX_PAUSE_SECONDS : N := 86400.
Definition MAX_DEFER_SECONDS : N := 86400.
Definition MAX_ACTUAL_SECONDS : N := 9223372036854775807.
Definition MAX_REASON_CHARS : nat := 500.

(** [chrono::DateTime<Utc>] *)
Definition DateTime : Type := Z.

(** [chrono::Duration::seconds] *)
Definition seconds (n : N) : Z := (Z.of_N n * nanos_per_second)%Z.

(** [signed_duration_since(..).num_seconds()] *)
Definition num_seconds (later earlier : DateTime) : Z := Z.quot (later - earlier) nanos_per_second.

Definition has_postgres_timestamp_precision (value : DateTime) : bool :=
  ((value mod nanos_per_second) mod 1000 =? 0)%Z.

Module ExecutionStatus.
Inductive ExecutionStatus : Type := Active | Paused | Completed | Skipped | Deferred.
End ExecutionStatus.
Abbreviation ExecutionStatus := ExecutionStatus.ExecutionStatus.

#[global] Instance ExecutionStatus_eq_dec : EqDecision ExecutionStatus.
Proof. solve_decision. Defined.

Definition is_open_status (status : ExecutionStatus) : bool :=
  match status with ExecutionStatus.Active | ExecutionStatus.Paused => true | _ => false end.

Record ExecutionSession : Type := {
  es_id : Uuid;
  es_item_id : Uuid;
  es_item_revision : N;
  es_occurrence_id : option Uuid;
  es_session_index : N;
  es_planned_block_id : option Uuid;
  es_source_device_id : Uuid;
  es_status : ExecutionStatus;
  es_revision : N;
  es_accumulated_seconds : N;
  es_actual_seconds : option N;
  es_started_at : DateTime;
  es_running_since : option DateTime;
  es_observed_running_since : option DateTime;
  es_paused_at : option DateTime;
  es_pause_until : option DateTime;
  es_pause_reason : option string;
  es_move_start : option DateTime;
  es_move_end : option DateTime;
  es_ended_at : option DateTime;
  es_created_at : DateTime;
  es_updated_at : DateTime
}.

(** The wire form leaves the observed clock out. *)
Record ExecutionSessionWire : Type := {
  ew_id : Uuid;
  ew_item_id : Uuid;
  ew_item_revision : N;
  ew_occurrence_id : option Uuid;
  ew_session_index : N;
  ew_planned_block_id : option Uuid;
  ew_source_device_id : Uuid;
  ew_status : ExecutionStatus;
  ew_revision : N;
  ew_accumulated_seconds : N;
  ew_actual_seconds : option N;
  ew_started_at : DateTime;
  ew_running_since : option DateTime;
  ew_paused_at : option DateTime;
  ew_pause_until : option DateTime;
  ew_pause_reason : option string;
  ew_move_start : option DateTime;
  ew_move_end : option DateTime;
  ew_ended_at : option DateTime;
  ew_created_at : DateTime;
  ew_updated_at : DateTime
}.

Record StartExecution : Type := {
  st_session_id : Uuid;
  st_item_id : Uuid;
  st_item_revision : N;
  st_occurrence_id : option Uuid;
  st_session_index : N;
  st_planned_block_id : option Uuid;
  st_device_id : Uuid
}.

Record PauseExecution : Type := {
  pu_session_id : Uuid;
  pu_duration_seconds : option N;
  pu_pause_until : option DateTime;
  pu_reason : option string
}.

Record ResumeExecution : Type := { re_session_id : Uuid }.

Record FinishExecution : Type := {
  fi_session_id : Uuid;
  fi_actual_seconds : option N
}.

Record DeferExecution : Type := {
  de_session_id : Uuid;
  de_move_start : DateTime;
  de_move_end : DateTime;
  de_actual_seconds : option N;
  de_assessment_digest : option string;
  de_approved_assessment_digest : option string
}.

Inductive ExecutionCommand : Type :=
| Start (input : StartExecution)
| Pause (input : PauseExecution)
| Resume (input : ResumeExecution)
| Complete (input : FinishExecution)
| Skip (input : FinishExecution)
| Defer (input : DeferExecution).

Inductive ExecutionDomainError : Type :=
| NilIdentifier
| InvalidItemRevision
| InvalidPause
| InvalidPauseReason
| InvalidActualDuration
| InvalidDefer
| InvalidDeferAssessment
| InvalidTransition
| DurationOverflow.

(** ** Checks *)

Definition reject_nil (id : Uuid) : result ExecutionDomainError unit :=
  if is_nil id then Err NilIdentifier else Ok tt.

Definition next_revision (current : N) : result ExecutionDomainError N :=
  ok_or (checked_add u64_max current 1) DurationOverflow.

Definition reason_is_invalid (value : string) : bool :=
  is_blank value || (MAX_REASON_CHARS <? length (chars value)).

Definition validate_reason (reason : option string) : result ExecutionDomainError unit :=
  match reason with
  | Some value => if reason_is_invalid value then Err InvalidPauseReason else Ok tt
  | None => Ok tt
  end.

(** [strip_prefix] of a byte string. *)
Fixpoint strip_prefix (prefix value : list N) : option (list N) :=
  match prefix, value with
  | [], _ => Some value
  | p :: prefix', v :: value' => if (p =? v)%N then strip_prefix prefix' value' else None
  | _ :: _, [] => None
  end.

Definition is_canonical_sha256_digest (value : string) : bool :=
  match strip_prefix (bytes_of "sha256:") (bytes_of value) with
  | Some hex =>
      (length hex =? 64) && forallb (λ byte, is_ascii_digit byte || ((97 <=? byte)%N && (byte <=? 102)%N)) hex
  | None => false
  end.

Definition exceeds_actual (actual : option N) : bool :=
  match actual with Some s => (MAX_ACTUAL_SECONDS <? s)%N | None => false end.

Definition digest_is_malformed (digest : option string) : bool :=
  match digest with Some value => negb (is_canonical_sha256_digest value) | None => false end.

Definition approval_mismatched (assessment approved : option string) : bool :=
  match assessment, approved with
  | None, Some _ => true
  | Some assessment, Some approved => negb (bool_decide (assessment = approved))
  | _, None => false
  end.

Definition defer_window_is_invalid (move_start move_end now : DateTime) : bool :=
  negb (has_postgres_timestamp_precision move_start) || negb (has_postgres_timestamp_precision move_end) ||
  (move_start <=? now)%Z || (move_end <=? move_start)%Z || (seconds MAX_DEFER_SECONDS <? move_end - move_start)%Z.

Definition validate_defer (input : DeferExecution) (now : DateTime) : result ExecutionDomainError unit :=
  let? _ := reject_nil (de_session_id input) in
  if exceeds_actual (de_actual_seconds input) then Err InvalidActualDuration
  else if digest_is_malformed (de_assessment_digest input) || digest_is_malformed (de_approved_assessment_digest input) ||
          approval_mismatched (de_assessment_digest input) (de_approved_assessment_digest input)
  then Err InvalidDeferAssessment
  else if defer_window_is_invalid (de_move_start input) (de_move_end input) now then Err InvalidDefer
  else Ok tt.

Definition validate_start (input : StartExecution) : result ExecutionDomainError unit :=
  let? _ := reject_nil (st_session_id input) in
  let? _ := reject_nil (st_item_id input) in
  let? _ := reject_nil (st_device_id input) in
  let? _ := match st_occurrence_id input with Some id => reject_nil id | None => Ok tt end in
  let? _ := match st_planned_block_id input with Some id => reject_nil id | None => Ok tt end in
  if (st_item_revision input =? 0)%N then Err InvalidItemRevision else Ok tt.

(** [ExecutionCommand::session_id] *)
Definition command_session_id (command : ExecutionCommand) : Uuid :=
  match command with
  | Start input => st_session_id input
  | Pause input => pu_session_id input
  | Resume input => re_session_id input
  | Complete input | Skip input => fi_session_id input
  | Defer input => de_session_id input
  end.

(** [ExecutionCommand::validate] *)
Definition validate_command (command : ExecutionCommand) (now : DateTime) : result ExecutionDomainError unit :=
  match command with
  | Start input => validate_start input
  | Pause input =>
      let? _ := reject_nil (pu_session_id input) in
      let? _ := validate_reason (pu_reason input) in
      match pu_duration_seconds input, pu_pause_until input with
      | Some s, None => if (1 <=? s)%N && (s <=? MAX_PAUSE_SECONDS)%N then Ok tt else Err InvalidPause
      | None, Some until =>
          if has_postgres_timestamp_precision until && (now <? until)%Z && (until <=? now + seconds MAX_PAUSE_SECONDS)%Z
          then Ok tt else Err InvalidPause
      | None, None => Ok tt
      | Some _, Some _ => Err InvalidPause
      end
  | Resume input => reject_nil (re_session_id input)
  | Complete input | Skip input =>
      let? _ := reject_nil (fi_session_id input) in
      if exceeds_actual (fi_actual_seconds input) then Err InvalidActualDuration else Ok tt
  | Defer input => validate_defer input now
  end.

(** ** Transitions *)

Definition start_with_protocol_time (input : StartExecution) (transition_at observed_at : DateTime) : ExecutionSession :=
  {| es_id := st_session_id input; es_item_id := st_item_id input; es_item_revision := st_item_revision input;
     es_occurrence_id := st_occurrence_id input; es_session_index := st_session_index input;
     es_planned_block_id := st_planned_block_id input; es_source_device_id := st_device_id input;
     es_status := ExecutionStatus.Active; es_revision := 1; es_accumulated_seconds := 0; es_actual_seconds := None;
     es_started_at := transition_at; es_running_since := Some transition_at;
     es_observed_running_since := Some observed_at; es_paused_at := None; es_pause_until := None;
     es_pause_reason := None; es_move_start := None; es_move_end := None; es_ended_at := None;
     es_created_at := transition_at; es_updated_at := transition_at |}.

(** The running segment is cut off at zero and the total at [i64::MAX]. *)
Definition elapsed_seconds (s : ExecutionSession) (now : DateTime) : N :=
  let running :=
    match es_observed_running_since s with
    | Some started => Z.to_N (Z.max (num_seconds now started) 0)
    | None => 0%N
    end in
  N.min (default MAX_ACTUAL_SECONDS (checked_add u64_max (es_accumulated_seconds s) running)) MAX_ACTUAL_SECONDS.

Definition pause_end (input : PauseExecution) (transition_at : DateTime)
    : result ExecutionDomainError (option DateTime) :=
  match pu_duration_seconds input, pu_pause_until input with
  | Some s, None =>
      if (1 <=? s)%N && (s <=? MAX_PAUSE_SECONDS)%N then Ok (Some (transition_at + seconds s)%Z) else Err InvalidPause
  | None, Some until =>
      let maximum := (transition_at + seconds MAX_PAUSE_SECONDS)%Z in
      if negb (has_postgres_timestamp_precision until) || (until <=? transition_at)%Z || (maximum <? until)%Z
      then Err InvalidPause else Ok (Some until)
  | None, None => Ok None
  | Some _, Some _ => Err InvalidPause
  end.

Definition option_or {A} (a b : option A) : option A := match a with Some _ => a | None => b end.

(** The session after a pause. *)
Definition paused (s : ExecutionSession) (input : PauseExecution) (transition_at : DateTime) (pause_until : option DateTime) (accumulated_seconds revision : N) : ExecutionSession :=
  {| es_id := es_id s; es_item_id := es_item_id s; es_item_revision := es_item_revision s;
     es_occurrence_id := es_occurrence_id s; es_session_index := es_session_index s;
     es_planned_block_id := es_planned_block_id s; es_source_device_id := es_source_device_id s;
     es_status := ExecutionStatus.Paused; es_revision := revision;
     es_accumulated_seconds := accumulated_seconds; es_actual_seconds := es_actual_seconds s;
     es_started_at := es_started_at s; es_running_since := None; es_observed_running_since := None;
     es_paused_at := option_or (es_paused_at s) (Some transition_at); es_pause_until := pause_until;
     es_pause_reason := option_or (pu_reason input) (es_pause_reason s);
     es_move_start := es_move_start s; es_move_end := es_move_end s; es_ended_at := es_ended_at s;
     es_created_at := es_created_at s; es_updated_at := transition_at |}.

Definition pause (s : ExecutionSession) (input : PauseExecution) (transition_at elapsed_at : DateTime)
    : result ExecutionDomainError ExecutionSession :=
  if negb (es_id s =? pu_session_id input)%N || negb (is_open_status (es_status s)) then Err InvalidTransition
  else
    let? _ := validate_reason (pu_reason input) in
    let? pause_until := pause_end input transition_at in
    let accumulated_seconds := elapsed_seconds s elapsed_at in
    let? revision := next_revision (es_revision s) in
    Ok (paused s input transition_at pause_until accumulated_seconds revision).

(** The session after it resumes. *)
Definition resumed (s : ExecutionSession) (transition_at observed_at : DateTime) (revision : N) : ExecutionSession :=
  {| es_id := es_id s; es_item_id := es_item_id s; es_item_revision := es_item_revision s;
     es_occurrence_id := es_occurrence_id s; es_session_index := es_session_index s;
     es_planned_block_id := es_planned_block_id s; es_source_device_id := es_source_device_id s;
     es_status := ExecutionStatus.Active; es_revision := revision;
     es_accumulated_seconds := es_accumulated_seconds s; es_actual_seconds := es_actual_seconds s;
     es_started_at := es_started_at s; es_running_since := Some transition_at;
     es_observed_running_since := Some observed_at; es_paused_at := None; es_pause_until := None;
     es_pause_reason := None; es_move_start := es_move_start s; es_move_end := es_move_end s;
     es_ended_at := es_ended_at s; es_created_at := es_created_at s; es_updated_at := transition_at |}.

Definition resume (s : ExecutionSession) (input : ResumeExecution) (transition_at observed_at : DateTime)
    : result ExecutionDomainError ExecutionSession :=
  if negb (es_id s =? re_session_id input)%N || negb (bool_decide (es_status s = ExecutionStatus.Paused))
  then Err InvalidTransition
  else
    let? revision := next_revision (es_revision s) in
    Ok (resumed s transition_at observed_at revision).

(** The session after it ends. *)
Definition finished (s : ExecutionSession) (status : ExecutionStatus) (transition_at : DateTime) (elapsed actual_seconds revision : N) : ExecutionSession :=
  {| es_id := es_id s; es_item_id := es_item_id s; es_item_revision := es_item_revision s;
     es_occurrence_id := es_occurrence_id s; es_session_index := es_session_index s;
     es_planned_block_id := es_planned_block_id s; es_source_device_id := es_source_device_id s;
     es_status := status; es_revision := revision; es_accumulated_seconds := elapsed;
     es_actual_seconds := Some actual_seconds; es_started_at := es_started_at s;
     es_running_since := None; es_observed_running_since := None;
     es_paused_at := option_or (es_paused_at s)
     (if bool_decide (es_status s = ExecutionStatus.Paused) then Some transition_at else None);
     es_pause_until := None; es_pause_reason := None; es_move_start := es_move_start s;
     es_move_end := es_move_end s; es_ended_at := Some transition_at;
     es_created_at := es_created_at s; es_updated_at := transition_at |}.

Definition finish_session (s : ExecutionSession) (session_id : Uuid) (corrected_actual_seconds : option N)
    (status : ExecutionStatus) (transition_at elapsed_at : DateTime)
    : result ExecutionDomainError ExecutionSession :=
  if negb (es_id s =? session_id)%N || negb (is_open_status (es_status s)) || is_open_status status
  then Err InvalidTransition
  else
    let elapsed := elapsed_seconds s elapsed_at in
    let actual_seconds := default elapsed corrected_actual_seconds in
    if (MAX_ACTUAL_SECONDS <? actual_seconds)%N then Err InvalidActualDuration
    else
      let? revision := next_revision (es_revision s) in
      Ok (finished s status transition_at elapsed actual_seconds revision).

Definition with_move (s : ExecutionSession) (move_start move_end : DateTime) : ExecutionSession :=
  {| es_id := es_id s; es_item_id := es_item_id s; es_item_revision := es_item_revision s;
     es_occurrence_id := es_occurrence_id s; es_session_index := es_session_index s;
     es_planned_block_id := es_planned_block_id s; es_source_device_id := es_source_device_id s;
     es_status := es_status s; es_revision := es_revision s; es_accumulated_seconds := es_accumulated_seconds s;
     es_actual_seconds := es_actual_seconds s; es_started_at := es_started_at s;
     es_running_since := es_running_since s; es_observed_running_since := es_observed_running_since s;
     es_paused_at := es_paused_at s; es_pause_until := es_pause_until s; es_pause_reason := es_pause_reason s;
     es_move_start := Some move_start; es_move_end := Some move_end; es_ended_at := es_ended_at s;
     es_created_at := es_created_at s; es_updated_at := es_updated_at s |}.

Definition defer (s : ExecutionSession) (input : DeferExecution) (transition_at elapsed_at : DateTime)
    : result ExecutionDomainError ExecutionSession :=
  if negb (bool_decide (es_status s = ExecutionStatus.Paused)) then Err InvalidTransition
  else
    let? _ := validate_defer input transition_at in
    let? deferred := finish_session s (de_session_id input) (de_actual_seconds input) ExecutionStatus.Deferred
                       transition_at elapsed_at in
    Ok (with_move deferred (de_move_start input) (de_move_end input)).

Definition apply_with_protocol_time (s : ExecutionSession) (command : ExecutionCommand)
    (transition_at observed_at : DateTime) : result ExecutionDomainError ExecutionSession :=
  if (transition_at <? es_updated_at s)%Z || (transition_at <? observed_at)%Z then Err InvalidTransition
  else
    match command with
    | Start _ => Err InvalidTransition
    | Pause input => pause s input transition_at observed_at
    | Resume input => resume s input transition_at observed_at
    | Complete input =>
        finish_session s (fi_session_id input) (fi_actual_seconds input) ExecutionStatus.Completed transition_at observed_at
    | Skip input =>
        finish_session s (fi_session_id input) (fi_actual_seconds input) ExecutionStatus.Skipped transition_at observed_at
    | Defer input => defer s input transition_at observed_at
    end.

(** ** The wire form *)

(** The derived [Serialize]: every field but the observed clock. *)
Definition to_wire (s : ExecutionSession) : ExecutionSessionWire :=
  {| ew_id := es_id s; ew_item_id := es_item_id s; ew_item_revision := es_item_revision s;
     ew_occurrence_id := es_occurrence_id s; ew_session_index := es_session_index s;
     ew_planned_block_id := es_planned_block_id s; ew_source_device_id := es_source_device_id s;
     ew_status := es_status s; ew_revision := es_revision s; ew_accumulated_seconds := es_accumulated_seconds s;
     ew_actual_seconds := es_actual_seconds s; ew_started_at := es_started_at s;
     ew_running_since := es_running_since s; ew_paused_at := es_paused_at s; ew_pause_until := es_pause_until s;
     ew_pause_reason := es_pause_reason s; ew_move_start := es_move_start s; ew_move_end := es_move_end s;
     ew_ended_at := es_ended_at s; ew_created_at := es_created_at s; ew_updated_at := es_updated_at s |}.

Definition of_wire (w : ExecutionSessionWire) : ExecutionSession :=
  {| es_id := ew_id w; es_item_id := ew_item_id w; es_item_revision := ew_item_revision w;
     es_occurrence_id := ew_occurrence_id w; es_session_index := ew_session_index w;
     es_planned_block_id := ew_planned_block_id w; es_source_device_id := ew_source_device_id w;
     es_status := ew_status w; es_revision := ew_revision w; es_accumulated_seconds := ew_accumulated_seconds w;
     es_actual_seconds := ew_actual_seconds w; es_started_at := ew_started_at w;
     es_running_since := ew_running_since w; es_observed_running_since := ew_running_since w;
     es_paused_at := ew_paused_at w; es_pause_until := ew_pause_until w; es_pause_reason := ew_pause_reason w;
     es_move_start := ew_move_start w; es_move_end := ew_move_end w; es_ended_at := ew_ended_at w;
     es_created_at := ew_created_at w; es_updated_at := ew_updated_at w |}.

Definition move_window_ok (w : ExecutionSessionWire) (start end_ : DateTime) : bool :=
  bool_decide (ew_ended_at w = Some (ew_updated_at w)) && (ew_updated_at w <? start)%Z && (start <? end_)%Z &&
  has_postgres_timestamp_precision start && has_postgres_timestamp_precision end_ &&
  (end_ - start <=? seconds MAX_DEFER_SECONDS)%Z.

(** [TryFrom<ExecutionSessionWire>] *)
Definition try_from_wire (w : ExecutionSessionWire) : result ExecutionDomainError ExecutionSession :=
  match ew_status w, ew_move_start w, ew_move_end w with
  | ExecutionStatus.Deferred, Some start, Some end_ =>
      if move_window_ok w start end_ then Ok (of_wire w) else Err InvalidDefer
  | ExecutionStatus.Deferred, _, _ => Err InvalidDefer
  | _, None, None => Ok (of_wire w)
  | _, _, _ => Err InvalidDefer
  end.

(** ** Specification: acceptance *)

Definition pause_window_ok (input : PauseExecution) (now : DateTime) : Prop :=
  match pu_duration_seconds input, pu_pause_until input with
  | Some s, None => (1 <= s <= MAX_PAUSE_SECONDS)%N
  | None, Some until =>
      has_postgres_timestamp_precision until = true ∧ (now < until)%Z ∧ (until <= now + seconds MAX_PAUSE_SECONDS)%Z
  | None, None => True
  | Some _, Some _ => False
  end.

Definition reason_ok (reason : option string) : Prop :=
  ∀ value, reason = Some value → is_blank value = false ∧ length (chars value) ≤ MAX_REASON_CHARS.

Definition actual_ok (actual : option N) : Prop := ∀ a, actual = Some a → (a <= MAX_ACTUAL_SECONDS)%N.

(** A digest approves an assessment only when it equals it. *)
Definition approval_ok (assessment approved : option string) : Prop :=
  (∀ d, assessment = Some d → is_canonical_sha256_digest d = true) ∧
  (∀ d, approved = Some d → assessment = Some d).

Record move_window (start end_ : DateTime) (now : DateTime) : Prop := {
  mw_start_precise : has_postgres_timestamp_precision start = true;
  mw_end_precise : has_postgres_timestamp_precision end_ = true;
  mw_future : (now < start)%Z;
  mw_nonempty : (start < end_)%Z;
  mw_length : (end_ - start <= seconds MAX_DEFER_SECONDS)%Z
}.

Definition defer_ok (input : DeferExecution) (now : DateTime) : Prop :=
  de_session_id input ≠ 0%N ∧ actual_ok (de_actual_seconds input) ∧
  approval_ok (de_assessment_digest input) (de_approved_assessment_digest input) ∧
  move_window (de_move_start input) (de_move_end input) now.

(** The transition table: when a session takes a command. *)
Definition takes (s : ExecutionSession) (command : ExecutionCommand) (now : DateTime) : Prop :=
  match command with
  | Start _ => False
  | Pause input =>
      is_open_status (es_status s) = true ∧ reason_ok (pu_reason input) ∧ pause_window_ok input now
  | Resume _ => es_status s = ExecutionStatus.Paused
  | Complete input | Skip input =>
      is_open_status (es_status s) = true ∧ actual_ok (fi_actual_seconds input)
  | Defer input => es_status s = ExecutionStatus.Paused ∧ defer_ok input now
  end.

(** The status a command leads to. *)
Definition status_after (command : ExecutionCommand) : ExecutionStatus :=
  match command with
  | Start _ | Resume _ => ExecutionStatus.Active
  | Pause _ => ExecutionStatus.Paused
  | Complete _ => ExecutionStatus.Completed
  | Skip _ => ExecutionStatus.Skipped
  | Defer _ => ExecutionStatus.Deferred
  end.

(** ** Lemmas on the checks *)

Lemma validate_reason_ok reason : validate_reason reason = Ok tt ↔ reason_ok reason.
Proof.
  unfold validate_reason, reason_ok, reason_is_invalid. destruct reason as [value|]; [|split; [by intros _ ? [=]|done]].
  destruct (is_blank value) eqn:E1; simpl.
  { split; [done|]. intros Hr. destruct (Hr value eq_refl). congruence. }
  destruct (Nat.ltb_spec MAX_REASON_CHARS (length (chars value))); split; try done.
  - intros Hr. destruct (Hr value eq_refl). lia.
  - by intros _ ? [= <-].
Qed.

Lemma pause_end_ok input now : is_ok (pause_end input now) = true ↔ pause_window_ok input now.
Proof.
  unfold pause_end, pause_window_ok. destruct (pu_duration_seconds input) as [s|], (pu_pause_until input) as [until|];
    try done.
  - destruct (N.leb_spec 1 s), (N.leb_spec s MAX_PAUSE_SECONDS); simpl; split; try done; lia.
  - destruct (has_postgres_timestamp_precision until); simpl; [|naive_solver].
    destruct (Z.leb_spec until now), (Z.ltb_spec (now + seconds MAX_PAUSE_SECONDS) until); simpl; split;
      try done; naive_solver lia.
Qed.

(** A pause ends within a day of its beginning. *)
Lemma pause_end_bounds input now until :
  pause_end input now = Ok (Some until) → (now < until <= now + seconds MAX_PAUSE_SECONDS)%Z.
Proof.
  unfold pause_end. destruct (pu_duration_seconds input) as [s|], (pu_pause_until input) as [u|]; try done.
  - destruct (N.leb_spec 1 s), (N.leb_spec s MAX_PAUSE_SECONDS); simpl; try done. intros [= <-].
    unfold seconds, nanos_per_second. lia.
  - destruct (has_postgres_timestamp_precision u); simpl; [|done].
    destruct (Z.leb_spec u now), (Z.ltb_spec (now + seconds MAX_PAUSE_SECONDS) u); simpl; try done. intros [= <-]. lia.
Qed.

Lemma exceeds_actual_false actual : exceeds_actual actual = false ↔ actual_ok actual.
Proof. unfold exceeds_actual, actual_ok. destruct actual; [rewrite N.ltb_ge|]; naive_solver. Qed.

Lemma defer_window_valid start end_ now : defer_window_is_invalid start end_ now = false ↔ move_window start end_ now.
Proof.
  unfold defer_window_is_invalid. rewrite !orb_false_iff, !negb_false_iff, !Z.leb_gt, Z.ltb_ge. split.
  - intros ((((? & ?) & ?) & ?) & ?). by constructor.
  - intros []. auto.
Qed.

Lemma approval_valid assessment approved :
  digest_is_malformed assessment || digest_is_malformed approved || approval_mismatched assessment approved = false ↔
  approval_ok assessment approved.
Proof.
  unfold approval_ok, digest_is_malformed, approval_mismatched. rewrite !orb_false_iff.
  destruct assessment as [a|], approved as [b|]; simpl; rewrite ?negb_false_iff, ?bool_decide_eq_true; split.
  - intros [[? ?] ->]. split; intros d [= <-]; done.
  - intros [H1 H2]. specialize (H2 b eq_refl). simplify_eq. split; [split|]; auto.
  - intros [[? _] _]. split; [by intros d [= <-]|done].
  - intros [H1 _]. split; [split|]; auto.
  - by intros [_ [=]].
  - intros [_ H2]. by specialize (H2 b eq_refl).
  - done.
  - done.
Qed.

Lemma reject_nil_ok id : reject_nil id = Ok tt ↔ id ≠ 0%N.
Proof. unfold reject_nil, is_nil. destruct (N.eqb_spec id 0); naive_solver. Qed.

Lemma validate_defer_ok input now : validate_defer input now = Ok tt ↔ defer_ok input now.
Proof.
  unfold validate_defer, defer_ok. rewrite rbind_unit_ok, reject_nil_ok, <- exceeds_actual_false, <- approval_valid,
    <- defer_window_valid.
  destruct (exceeds_actual _); [naive_solver|]. destruct (_ || _ || _); [naive_solver|].
  destruct (defer_window_is_invalid _ _ _); naive_solver.
Qed.

Lemma next_revision_ok n : (n < u64_max)%N → next_revision n = Ok (n + 1)%N.
Proof. intros Hn. unfold next_revision, checked_add. destruct (N.leb_spec (n + 1) u64_max); [done|lia]. Qed.

Lemma next_revision_Ok n m : next_revision n = Ok m → m = (n + 1)%N ∧ (m <= u64_max)%N.
Proof. unfold next_revision, checked_add. destruct (N.leb_spec (n + 1) u64_max); [by intros [= <-]|done]. Qed.

Lemma elapsed_seconds_le s now : (elapsed_seconds s now <= MAX_ACTUAL_SECONDS)%N.
Proof. unfold elapsed_seconds. lia. Qed.

(** ** The step relation *)

(** What closing a session needs, and the session it leaves. *)
Definition closing (s : ExecutionSession) (id : Uuid) (actual : option N) : Prop :=
  es_id s = id ∧ is_open_status (es_status s) = true ∧ actual_ok actual ∧ (es_revision s < u64_max)%N.

Definition closed (s : ExecutionSession) (actual : option N) (status : ExecutionStatus) (t o : DateTime)
    : ExecutionSession :=
  finished s status t (elapsed_seconds s o) (default (elapsed_seconds s o) actual) (es_revision s + 1)%N.

Inductive session_step (s : ExecutionSession) (t o : DateTime) : ExecutionCommand → ExecutionSession → Prop :=
| step_pause input until :
    es_id s = pu_session_id input → is_open_status (es_status s) = true → reason_ok (pu_reason input) →
    pause_end input t = Ok until → (es_revision s < u64_max)%N →
    session_step s t o (Pause input) (paused s input t until (elapsed_seconds s o) (es_revision s + 1)%N)
| step_resume input :
    es_id s = re_session_id input → es_status s = ExecutionStatus.Paused → (es_revision s < u64_max)%N →
    session_step s t o (Resume input) (resumed s t o (es_revision s + 1)%N)
| step_complete input :
    closing s (fi_session_id input) (fi_actual_seconds input) →
    session_step s t o (Complete input) (closed s (fi_actual_seconds input) ExecutionStatus.Completed t o)
| step_skip input :
    closing s (fi_session_id input) (fi_actual_seconds input) →
    session_step s t o (Skip input) (closed s (fi_actual_seconds input) ExecutionStatus.Skipped t o)
| step_defer input :
    es_status s = ExecutionStatus.Paused → defer_ok input t →
    closing s (de_session_id input) (de_actual_seconds input) →
    session_step s t o (Defer input)
      (with_move (closed s (de_actual_seconds input) ExecutionStatus.Deferred t o) (de_move_start input) (de_move_end input)).

Lemma finish_session_iff s id actual status t o s' :
  is_open_status status = false →
  finish_session s id actual status t o = Ok s' ↔ closing s id actual ∧ s' = closed s actual status t o.
Proof.
  intros Hst. unfold finish_session, closing, closed. rewrite Hst, orb_false_r.
  destruct (N.eqb_spec (es_id s) id); simpl; [|naive_solver].
  destruct (is_open_status (es_status s)); simpl; [|naive_solver].
  pose proof (elapsed_seconds_le s o) as Hel.
  assert ((MAX_ACTUAL_SECONDS <? default (elapsed_seconds s o) actual)%N = false ↔ actual_ok actual) as Hact.
  { unfold actual_ok. rewrite N.ltb_ge. destruct actual; simpl; naive_solver. }
  destruct (_ <? _)%N.
  { split; [done|]. intros ((_ & _ & Ha & _) & _). by apply Hact in Ha. }
  rewrite rbind_ok. split.
  - intros (r & [-> ?]%next_revision_Ok & [= <-]). split; [|done]. split_and!; [done|done|by apply Hact|lia].
  - intros ((_ & _ & _ & Hr) & ->). exists (es_revision s + 1)%N. by rewrite next_revision_ok.
Qed.

(** The handler is the step relation, guarded by the clocks. *)
Lemma apply_iff_step s c t o s' :
  apply_with_protocol_time s c t o = Ok s' ↔ (es_updated_at s <= t)%Z ∧ (o <= t)%Z ∧ session_step s t o c s'.
Proof.
  unfold apply_with_protocol_time.
  destruct (Z.ltb_spec t (es_updated_at s)), (Z.ltb_spec t o); simpl; try (split; [done|lia]).
  assert (∀ P : Prop, (es_updated_at s <= t)%Z ∧ (o <= t)%Z ∧ P ↔ P) as Hclock by tauto.
  rewrite Hclock. destruct c as [input|input|input|input|input|input].
  - split; [done|]. inversion 1.
  - unfold pause. destruct (N.eqb_spec (es_id s) (pu_session_id input)); simpl; [|split; [done|by inversion 1]].
    destruct (is_open_status (es_status s)) eqn:Eo; simpl; [|split; [done|inversion 1; congruence]].
    rewrite rbind_unit_ok, validate_reason_ok, rbind_ok. split.
    + intros (Hr & until & Hu & Hs). apply rbind_ok in Hs as (r & [-> ?]%next_revision_Ok & [= <-]).
      constructor; try done. lia.
    + inversion 1; subst. split; [done|]. eexists. split; [done|]. by rewrite next_revision_ok.
  - unfold resume. destruct (N.eqb_spec (es_id s) (re_session_id input)); simpl; [|split; [done|by inversion 1]].
    case_bool_decide; simpl; [|split; [done|by inversion 1]]. rewrite rbind_ok. split.
    + intros (r & [-> ?]%next_revision_Ok & [= <-]). constructor; try done. lia.
    + inversion 1; subst. eexists. by rewrite next_revision_ok.
  - rewrite finish_session_iff by done. split; [intros [? ->]; by constructor|by inversion 1].
  - rewrite finish_session_iff by done. split; [intros [? ->]; by constructor|by inversion 1].
  - unfold defer. case_bool_decide; simpl; [|split; [done|by inversion 1]].
    rewrite rbind_unit_ok, validate_defer_ok, rbind_ok. split.
    + intros (Hd & s1 & Hf & [= <-]). apply finish_session_iff in Hf as [Hc ->]; [|done]. by constructor.
    + inversion 1; subst. split; [done|]. eexists. by rewrite finish_session_iff.
Qed.

(** What every step changes and what it keeps. *)
Lemma step_facts s t o c s' :
  session_step s t o c s' →
  es_status s' = status_after c ∧ es_revision s' = (es_revision s + 1)%N ∧ es_updated_at s' = t ∧
  es_id s = command_session_id c ∧ is_open_status (es_status s) = true ∧
  es_id s' = es_id s ∧ es_item_id s' = es_item_id s ∧ es_item_revision s' = es_item_revision s ∧
  es_occurrence_id s' = es_occurrence_id s ∧ es_session_index s' = es_session_index s ∧
  (es_revision s' <= u64_max)%N.
Proof.
  destruct 1 as [input until ? ? ? ? ?|? ? Hp ?|input (? & ? & ? & ?)|input (? & ? & ? & ?)|input Hp ? (? & ? & ? & ?)];
    simpl; split_and!; try done; try lia; by rewrite Hp.
Qed.

(** ** Reachable sessions and their invariant *)

(** The repository passes a protocol time that is never behind the observed
    clock. *)
Inductive reachable_session : ExecutionSession → Prop :=
| reach_start input t o :
    (o <= t)%Z → reachable_session (start_with_protocol_time input t o)
| reach_step s c t o s' :
    reachable_session s → apply_with_protocol_time s c t o = Ok s' → reachable_session s'.

(** A session that ended, with its actual duration. *)
Record ended (s : ExecutionSession) : Prop := {
  en_ended_at : es_ended_at s = Some (es_updated_at s);
  en_actual : ∃ a, es_actual_seconds s = Some a ∧ (a <= MAX_ACTUAL_SECONDS)%N;
  en_running : es_running_since s = None ∧ es_observed_running_since s = None;
  en_pause : es_pause_until s = None ∧ es_pause_reason s = None
}.

(** A session that is still open has no end, no actual duration and no move. *)
Record live (s : ExecutionSession) : Prop := {
  li_ended_at : es_ended_at s = None;
  li_actual : es_actual_seconds s = None;
  li_move : es_move_start s = None ∧ es_move_end s = None
}.

Definition status_shape (s : ExecutionSession) : Prop :=
  match es_status s with
  | ExecutionStatus.Active =>
      live s ∧ es_running_since s = Some (es_updated_at s) ∧
      (∃ o, es_observed_running_since s = Some o ∧ (o <= es_updated_at s)%Z) ∧
      es_paused_at s = None ∧ es_pause_until s = None ∧ es_pause_reason s = None
  | ExecutionStatus.Paused =>
      live s ∧ es_running_since s = None ∧ es_observed_running_since s = None ∧
      (∃ p, es_paused_at s = Some p ∧ (es_started_at s <= p <= es_updated_at s)%Z) ∧
      (∀ u, es_pause_until s = Some u → (es_updated_at s < u <= es_updated_at s + seconds MAX_PAUSE_SECONDS)%Z) ∧
      reason_ok (es_pause_reason s)
  | ExecutionStatus.Completed | ExecutionStatus.Skipped =>
      ended s ∧ es_move_start s = None ∧ es_move_end s = None
  | ExecutionStatus.Deferred =>
      ended s ∧ is_Some (es_paused_at s) ∧
      ∃ a b, es_move_start s = Some a ∧ es_move_end s = Some b ∧ move_window a b (es_updated_at s)
  end.

Record well_formed_session (s : ExecutionSession) : Prop := {
  wf_revision : (1 <= es_revision s <= u64_max)%N;
  wf_created : es_created_at s = es_started_at s;
  wf_started : (es_started_at s <= es_updated_at s)%Z;
  wf_accumulated : (es_accumulated_seconds s <= MAX_ACTUAL_SECONDS)%N;
  wf_shape : status_shape s
}.

(** An open session in a good shape is live. *)
Lemma open_live s : status_shape s → is_open_status (es_status s) = true → live s.
Proof. unfold status_shape. by destruct (es_status s); simpl; intros Hs Ho; try discriminate Ho; destruct Hs. Qed.

Lemma closed_ended s actual status t o :
  live s → actual_ok actual → ended (closed s actual status t o) ∧
  es_move_start (closed s actual status t o) = None ∧ es_move_end (closed s actual status t o) = None.
Proof.
  intros [_ _ [? ?]] Ha. split; [|done]. constructor; [done| |done|done].
  eexists. split; [done|]. pose proof (elapsed_seconds_le s o). destruct actual as [a|]; simpl; [by apply Ha|done].
Qed.

Lemma step_shape s t o c s' :
  well_formed_session s → (es_updated_at s <= t)%Z → (o <= t)%Z → session_step s t o c s' → status_shape s'.
Proof.
  intros [_ _ Hst _ Hshape] Ht Ho.
  destruct 1 as [input until ? Hopen ? Hu ?|? ? Hp ?|input (? & Hopen & ? & ?)|input (? & Hopen & ? & ?)
                |input Hp (? & ? & ? & Hm) (? & Hopen & ? & ?)];
    try (pose proof (open_live _ Hshape Hopen) as Hlive); unfold status_shape; simpl.
  - split; [by destruct Hlive|]. split_and!; [done|done| | |].
    + unfold status_shape in Hshape. destruct (es_status s) eqn:Es; try done.
      * destruct Hshape as (_ & _ & _ & -> & _). simpl. eexists. split; [done|lia].
      * destruct Hshape as (_ & _ & _ & (p & -> & ?) & _). simpl. eexists. split; [done|lia].
    + intros u Hx. rewrite Hx in Hu. by apply pause_end_bounds in Hu.
    + destruct (pu_reason input) eqn:Er; simpl; [done|].
      unfold status_shape in Hshape. destruct (es_status s) eqn:Es; try done.
      * by destruct Hshape as (_ & _ & _ & _ & _ & ->).
      * by destruct Hshape as (_ & _ & _ & _ & _ & ?).
  - unfold status_shape in Hshape. rewrite Hp in Hshape. destruct Hshape as ([? ? ?] & _).
    split; [done|]. split_and!; [done|by eexists|done|done|done].
  - by apply closed_ended.
  - by apply closed_ended.
  - destruct (closed_ended s (de_actual_seconds input) ExecutionStatus.Deferred t o Hlive) as [[? ? ? ?] _]; [done|].
    split; [done|]. split; [|by eexists _, _]. unfold status_shape in Hshape. rewrite Hp in Hshape.
    destruct Hshape as (_ & _ & _ & (p & -> & _) & _). by eexists.
Qed.

Lemma step_started s t o c s' :
  session_step s t o c s' → es_started_at s' = es_started_at s ∧ es_created_at s' = es_created_at s ∧
  (es_accumulated_seconds s' = elapsed_seconds s o ∨ es_accumulated_seconds s' = es_accumulated_seconds s).
Proof. destruct 1; simpl; auto. Qed.

Lemma reachable_well_formed s : reachable_session s → well_formed_session s.
Proof.
  induction 1 as [input t o Ho|s c t o s' _ IH Hs].
  - constructor; simpl; try done.
    unfold status_shape. simpl. split; [done|]. split_and!; try done. by exists o.
  - apply apply_iff_step in Hs as (Ht & Ho & Hs). pose proof (step_facts _ _ _ _ _ Hs) as (_ & Hr & Hu & _ & _ & _ & _ & _ & _ & _ & Hmax).
    pose proof (step_started _ _ _ _ _ Hs) as (Hst & Hc & Hacc). pose proof (elapsed_seconds_le s o).
    pose proof IH as [? ? ? ? _]. constructor; [lia|congruence|lia|lia|by eapply step_shape].
Qed.

(** ** Theorems *)

(** A command is accepted exactly when the protocol clock does not go back,
    the command names the session, the transition table allows it and the
    revision is not exhausted; then the status is the command's, the revision
    grows by one and the identity of the work is kept. *)
Theorem command_accepted_iff s c t o :
  ((∃ s', apply_with_protocol_time s c t o = Ok s') ↔
     (es_updated_at s <= t)%Z ∧ (o <= t)%Z ∧ es_id s = command_session_id c ∧ takes s c t ∧ (es_revision s < u64_max)%N) ∧
  ∀ s', apply_with_protocol_time s c t o = Ok s' →
    es_status s' = status_after c ∧ es_revision s' = (es_revision s + 1)%N ∧ es_updated_at s' = t ∧
    es_id s' = es_id s ∧ es_item_id s' = es_item_id s ∧ es_item_revision s' = es_item_revision s ∧
    es_occurrence_id s' = es_occurrence_id s ∧ es_session_index s' = es_session_index s.
Proof.
  split.
  2:{ intros s' (_ & _ & Hs)%apply_iff_step. apply step_facts in Hs. tauto. }
  setoid_rewrite apply_iff_step. split.
  - intros (s' & Ht & Ho & Hs). split_and!; [done|done| | |].
    + by apply step_facts in Hs as (_ & _ & _ & ? & _).
    + destruct Hs as [input until ? ? ? Hu ?|? ? Hp ?|input (? & ? & ? & ?)|input (? & ? & ? & ?)|input Hp ? (? & ? & ? & ?)];
        simpl; try done. split_and!; [done|done|]. apply pause_end_ok. by rewrite Hu.
    + apply step_facts in Hs. lia.
  - intros (Ht & Ho & Hid & Htakes & Hr). destruct c as [input|input|input|input|input|input]; simpl in Htakes; [done|..].
    + destruct Htakes as (Hopen & Hreason & Hw). apply pause_end_ok in Hw.
      destruct (pause_end input t) as [until|] eqn:Eu; [|done]. eexists. split_and!; [done|done|]. by eapply step_pause.
    + eexists. split_and!; [done|done|]. by apply step_resume.
    + destruct Htakes. eexists. split_and!; [done|done|]. by apply step_complete.
    + destruct Htakes. eexists. split_and!; [done|done|]. by apply step_skip.
    + destruct Htakes as [Hp Hd]. eexists. split_and!; [done|done|]. apply step_defer; [done|done|].
      split_and!; [done|by rewrite Hp|by destruct Hd as (_ & ? & _)|done].
Qed.

(** Every session that the server can reach is well formed: its clocks,
    durations, pause, end and move window agree with its status. *)
Theorem reachable_sessions_well_formed s : reachable_session s → well_formed_session s.
Proof. apply reachable_well_formed. Qed.

(** Every reachable session survives the wire: reading back its serialized
    form succeeds and gives the same session, except that an active session's
    timer restarts from the protocol time of its last transition. *)
Theorem session_wire_roundtrip s :
  reachable_session s →
  ∃ s', try_from_wire (to_wire s) = Ok s' ∧ to_wire s' = to_wire s ∧
    es_observed_running_since s' = es_running_since s ∧
    (es_status s ≠ ExecutionStatus.Active → s' = s).
Proof.
  intros [_ _ _ _ Hshape]%reachable_well_formed. exists (of_wire (to_wire s)).
  assert (es_observed_running_since s = None ∧ es_running_since s = None → of_wire (to_wire s) = s) as Hsame.
  { intros [Ho Hr]. destruct s. simpl in *. subst. done. }
  split_and!; [|by destruct s|done|].
  - unfold try_from_wire. simpl. unfold status_shape in Hshape. destruct (es_status s) eqn:Es.
    + destruct Hshape as ([_ _ [-> ->]] & _). done.
    + destruct Hshape as ([_ _ [-> ->]] & _). done.
    + destruct Hshape as (_ & -> & ->). done.
    + destruct Hshape as (_ & -> & ->). done.
    + destruct Hshape as ([He _ _ _] & _ & a & b & -> & -> & [H1 H2 H3 H4 H5]). unfold move_window_ok. simpl.
      rewrite He, bool_decide_eq_true_2 by done. rewrite H1, H2.
      rewrite (proj2 (Z.ltb_lt _ _) H3), (proj2 (Z.ltb_lt _ _) H4), (proj2 (Z.leb_le _ _) H5). done.
  - intros Hne. apply Hsame. unfold status_shape in Hshape. destruct (es_status s) eqn:Es; try done.
    + by destruct Hshape as (_ & ? & ? & _).
    + destruct Hshape as ([_ _ [? ?] _] & _). done.
    + destruct Hshape as ([_ _ [? ?] _] & _). done.
    + destruct Hshape as ([_ _ [? ?] _] & _). done.
Qed.

(** ** Refinement of a stopwatch *)

(** The timer a user has in mind: it runs or stands, counts whole seconds of
    observed time and never overflows. *)
Record Stopwatch : Type := { sw_running : option DateTime; sw_total : N }.

Definition sw_segment (w : Stopwatch) (now : DateTime) : N :=
  match sw_running w with Some r => Z.to_N (Z.max (num_seconds now r) 0) | None => 0%N end.

Definition sw_event (w : Stopwatch) (event : ExecutionCommand * DateTime * DateTime) : Stopwatch :=
  let '(command, _, observed_at) := event in
  match command with
  | Start _ | Resume _ => {| sw_running := Some observed_at; sw_total := sw_total w |}
  | _ => {| sw_running := None; sw_total := (sw_total w + sw_segment w observed_at)%N |}
  end.

Definition stopwatch (observed_at : DateTime) (trace : list (ExecutionCommand * DateTime * DateTime)) : Stopwatch :=
  foldl sw_event {| sw_running := Some observed_at; sw_total := 0 |} trace.

(** Commands accepted one after the other. *)
Fixpoint run_session (s : ExecutionSession) (trace : list (ExecutionCommand * DateTime * DateTime))
    : result ExecutionDomainError ExecutionSession :=
  match trace with
  | [] => Ok s
  | (command, transition_at, observed_at) :: trace' =>
      let? s' := apply_with_protocol_time s command transition_at observed_at in run_session s' trace'
  end.

(** A session shows the stopwatch, capped at the largest duration. *)
Definition shows (s : ExecutionSession) (w : Stopwatch) : Prop :=
  es_observed_running_since s = sw_running w ∧ es_accumulated_seconds s = N.min (sw_total w) MAX_ACTUAL_SECONDS.

Lemma elapsed_shows s w now :
  shows s w → elapsed_seconds s now = N.min (sw_total w + sw_segment w now) MAX_ACTUAL_SECONDS.
Proof.
  intros [Hr Ha]. unfold elapsed_seconds, sw_segment. rewrite Hr, Ha.
  set (seg := match sw_running w with Some _ => _ | None => _ end). unfold checked_add.
  assert (MAX_ACTUAL_SECONDS < u64_max)%N by done.
  destruct (N.leb_spec (N.min (sw_total w) MAX_ACTUAL_SECONDS + seg) u64_max); simpl; lia.
Qed.

Lemma step_shows s w c t o s' :
  session_step s t o c s' → shows s w → shows s' (sw_event w (c, t, o)).
Proof.
  intros Hs Hw. pose proof (elapsed_shows s w o Hw) as He. destruct Hw as [Hr Ha].
  destruct Hs as [input until ? ? ? ? ?|? ? Hp ?|input _|input _|input _ _ _]; split; simpl; try done.
Qed.

(** What a command records as the actual duration, when the stopwatch shows
    [total]: whatever ends the session records the total, or the correction the
    user gives instead of it; a break records nothing. *)
Definition recorded (command : ExecutionCommand) (total : N) : option N :=
  match command with
  | Complete input | Skip input => Some (default total (fi_actual_seconds input))
  | Defer input => Some (default total (de_actual_seconds input))
  | Start _ | Pause _ | Resume _ => None
  end.

(** A command that leaves the session open records nothing. *)
Lemma recorded_open command total : is_open_status (status_after command) = true → recorded command total = None.
Proof. by destruct command. Qed.

Lemma recorded_le command s t o s' :
  session_step s t o command s' → ∀ total a, (total <= MAX_ACTUAL_SECONDS)%N → recorded command total = Some a →
  (a <= MAX_ACTUAL_SECONDS)%N.
Proof.
  destruct 1 as [| |input (_ & _ & Ha & _)|input (_ & _ & Ha & _)|input _ _ (_ & _ & Ha & _)]; intros total a Ht; simpl; try done;
    intros [= <-]; [destruct (fi_actual_seconds _) eqn:E..|destruct (de_actual_seconds _) eqn:E]; simpl; auto.
Qed.

(** A step keeps the recorded duration of an open session or sets it. *)
Lemma step_recorded s t o c s' :
  session_step s t o c s' → es_actual_seconds s = None → es_actual_seconds s' = recorded c (elapsed_seconds s o).
Proof. by destruct 1. Qed.

(** The status and the recorded duration after a trace: those of its last
    command, with the stopwatch's total. *)
Definition ends_as (s : ExecutionSession) (final : option ExecutionCommand) (total : N) : Prop :=
  es_status s = from_option status_after ExecutionStatus.Active final ∧
  es_actual_seconds s = (final ≫= λ command, recorded command total) ∧
  ∀ a, es_actual_seconds s = Some a → (a <= MAX_ACTUAL_SECONDS)%N.

(** An open session has recorded nothing yet. *)
Lemma ends_open s final total : ends_as s final total → is_open_status (es_status s) = true → es_actual_seconds s = None.
Proof.
  intros (Hst & -> & _) Hopen. rewrite Hst in Hopen. destruct final as [c|]; [|done]. by apply recorded_open.
Qed.

Lemma step_ends s w t o c s' final total :
  session_step s t o c s' → shows s w → ends_as s final total →
  ends_as s' (Some c) (N.min (sw_total (sw_event w (c, t, o))) MAX_ACTUAL_SECONDS).
Proof.
  intros Hs Hw Hend. pose proof (step_facts _ _ _ _ _ Hs) as (Hst & _ & _ & _ & Hopen & _).
  assert (es_actual_seconds s' = recorded c (N.min (sw_total (sw_event w (c, t, o))) MAX_ACTUAL_SECONDS)) as Hrec.
  { rewrite (step_recorded _ _ _ _ _ Hs (ends_open _ _ _ Hend Hopen)), (elapsed_shows _ _ _ Hw). by destruct Hs. }
  split_and!; [done|done|]. intros a Ha. rewrite Hrec in Ha. eapply recorded_le; [done| |done]. lia.
Qed.

Lemma run_session_ind (P : ExecutionSession → list (ExecutionCommand * DateTime * DateTime) → Prop) s0 :
  P s0 [] →
  (∀ s trace c t o s', P s trace → (es_updated_at s <= t)%Z → (o <= t)%Z → session_step s t o c s' →
     P s' (trace ++ [(c, t, o)])) →
  ∀ trace s, run_session s0 trace = Ok s → P s trace.
Proof.
  intros H0 Hstep trace. assert (∀ done s1 s, P s1 done → run_session s1 trace = Ok s → P s (done ++ trace)) as Hgo.
  { induction trace as [|[[c t] o] trace IH]; intros done s1 s Hs1 Hrun; simpl in Hrun.
    - simplify_eq. by rewrite app_nil_r.
    - apply rbind_ok in Hrun as (s2 & (Ht & Ho & Hs)%apply_iff_step & Hrun).
      specialize (IH (done ++ [(c, t, o)]) s2 s). rewrite <- app_assoc in IH. apply IH; [by eapply Hstep|done]. }
  intros s Hrun. by apply (Hgo [] s0).
Qed.

(** The command that was accepted last. *)
Definition final_command (trace : list (ExecutionCommand * DateTime * DateTime)) : option ExecutionCommand :=
  (λ event, event.1.1) <$> last trace.

(** C20. The session implements the stopwatch: after any sequence of accepted
    commands it shows the stopwatch driven by the same commands at the observed
    times, so that breaks are not counted.  Its status is that of the last
    command, and a session that was completed, skipped or deferred has recorded
    the stopwatch's total, capped at the largest duration, or the correction
    that its last command gave instead; a session still open has recorded
    nothing, and no recorded duration exceeds the cap. *)
Theorem session_refines_stopwatch input t0 o0 trace s :
  run_session (start_with_protocol_time input t0 o0) trace = Ok s →
  shows s (stopwatch o0 trace) ∧
  es_status s = from_option status_after ExecutionStatus.Active (final_command trace) ∧
  es_actual_seconds s =
    (final_command trace ≫= λ command, recorded command (N.min (sw_total (stopwatch o0 trace)) MAX_ACTUAL_SECONDS)) ∧
  ∀ a, es_actual_seconds s = Some a → (a <= MAX_ACTUAL_SECONDS)%N.
Proof.
  change (run_session (start_with_protocol_time input t0 o0) trace = Ok s → shows s (stopwatch o0 trace) ∧
    ends_as s (final_command trace) (N.min (sw_total (stopwatch o0 trace)) MAX_ACTUAL_SECONDS)).
  revert trace s. apply run_session_ind.
  - by split.
  - intros s trace c t o s' [Hw Hend] _ _ Hs. unfold stopwatch, final_command in *. rewrite foldl_app, last_snoc. cbn [foldl].
    split; [by eapply step_shows|by eapply step_ends].
Qed.

(** An open session can always be closed, whatever happened before: at any
    time that is not behind its clock, completing it is accepted and frees it. *)
Theorem open_session_can_close s t o :
  reachable_session s → is_open_status (es_status s) = true → (es_revision s < u64_max)%N →
  (es_updated_at s <= t)%Z → (o <= t)%Z →
  ∃ s', apply_with_protocol_time s (Complete {| fi_session_id := es_id s; fi_actual_seconds := None |}) t o = Ok s' ∧
    is_open_status (es_status s') = false ∧ ended s'.
Proof.
  intros Hreach Hopen Hr Ht Ho.
  assert (session_step s t o (Complete {| fi_session_id := es_id s; fi_actual_seconds := None |})
    (closed s None ExecutionStatus.Completed t o)) as Hs by (apply step_complete; split_and!; done).
  eexists. split; [apply apply_iff_step; done|]. split; [done|].
  apply closed_ended; [|done]. apply open_live; [|done]. by apply reachable_well_formed.
Qed.

(** ** Witnesses: ninety seconds of work, a break and a minute more *)

Definition sample_start : StartExecution :=
  {| st_session_id := 1; st_item_id := 2; st_item_revision := 4; st_occurrence_id := None; st_session_index := 0;
     st_planned_block_id := Some 3%N; st_device_id := 4 |}.

Definition sample_session : ExecutionSession := start_with_protocol_time sample_start 0%Z 0%Z.

Definition sample_complete : ExecutionCommand := Complete {| fi_session_id := 1; fi_actual_seconds := None |}.

Definition sample_trace : list (ExecutionCommand * DateTime * DateTime) :=
  [(Pause {| pu_session_id := 1; pu_duration_seconds := Some 300%N; pu_pause_until := None; pu_reason := Some "Tea"%string |},
    seconds 90, seconds 90);
   (Resume {| re_session_id := 1 |}, seconds 390, seconds 390);
   (sample_complete, seconds 450, seconds 450)].

Lemma sample_session_reachable : reachable_session sample_session.
Proof. by apply reach_start. Qed.

Lemma reachable_sessions_well_formed_witness : well_formed_session sample_session.
Proof. exact (reachable_sessions_well_formed _ sample_session_reachable). Defined.

Lemma session_wire_roundtrip_witness : is_ok (try_from_wire (to_wire sample_session)) = true.
Proof. destruct (session_wire_roundtrip _ sample_session_reachable) as (s' & -> & _). reflexivity. Defined.

(** The same work, skipped with a correction to twelve seconds. *)
Definition corrected_trace : list (ExecutionCommand * DateTime * DateTime) :=
  take 2 sample_trace ++ [(Skip {| fi_session_id := 1; fi_actual_seconds := Some 12%N |}, seconds 450, seconds 450)].

Lemma session_refines_stopwatch_witness :
  (∃ s, run_session sample_session sample_trace = Ok s ∧ es_actual_seconds s = Some 150%N) ∧
  (∃ s, run_session sample_session corrected_trace = Ok s ∧ es_accumulated_seconds s = 150%N ∧ es_actual_seconds s = Some 12%N).
Proof.
  split.
  - destruct (run_session sample_session sample_trace) as [s|e] eqn:E; [|vm_compute in E; discriminate E].
    exists s. split; [reflexivity|].
    destruct (session_refines_stopwatch sample_start 0%Z 0%Z sample_trace s E) as (_ & _ & -> & _). vm_compute. reflexivity.
  - destruct (run_session sample_session corrected_trace) as [s|e] eqn:E; [|vm_compute in E; discriminate E].
    exists s. split; [reflexivity|].
    destruct (session_refines_stopwatch sample_start 0%Z 0%Z corrected_trace s E) as ([_ ->] & _ & -> & _). split; vm_compute; reflexivity.
Defined.

Lemma open_session_can_close_witness :
  ∃ s', apply_with_protocol_time sample_session sample_complete (seconds 5) (seconds 5) = Ok s' ∧
    is_open_status (es_status s') = false.
Proof.
  destruct (open_session_can_close sample_session (seconds 5) (seconds 5) sample_session_reachable eq_refl
    ltac:(reflexivity) ltac:(discriminate) ltac:(discriminate)) as (s' & Hs & Ho & _).
  exists s'. split; [exact Hs|exact Ho].
Defined.
