(* ===== verification/Lease.v ===== *)
(** * Lease: the execution repository of the server

    The model of server/dayweave-api/src/execution/repository.rs: the
    in-memory repository that holds every execution session of a workspace,
    the one that is open, the causal protocol clock and the remembered answers
    of idempotent commands.  A method on the locked state is a function from
    the state to the state and its answer; the lock makes every method one
    atomic step, so that a history of the repository is a sequence of steps.

    The theorems: the invariant of reachable repositories (at most one open
    session, a strictly causal clock, one session for each slot of work, a
    revision that counts every transition), that concurrent commands cannot
    both use a revision, that a repeated command is answered from memory
    whatever ran in between, and that an open session can always be closed. *)
From S2P Require Import Prelude Platform Text Session.

(** ** Data *)

Record ExecutionMutation : Type := {
  mu_revision : N;
  mu_active_session : option ExecutionSession;
  mu_changed_session : ExecutionSession;
  mu_replayed : bool
}.

Record ExecutionSnapshot : Type := {
  sn_revision : N;
  sn_active_session : option ExecutionSession
}.

(** Hashes are opaque: only their equality is used. *)
Record ExecutionIdempotency : Type := {
  ik_key_hash : N;
  ik_fingerprint : N;
  ik_expires_at : DateTime
}.

Module ExecutionRepositoryError.
Inductive ExecutionRepositoryError : Type :=
| RevisionConflict (expected actual : N)
| ActiveSessionConflict
| SessionNotFound (id : Uuid)
| DuplicateSession (id : Uuid)
| ItemRevisionConflict
| ItemNotExecutable
| ScheduleStale
| IndexExhausted
| DeferDurationConflict
| DeferRequiresPause
| DeferAssessmentUnavailable
| DeferAssessmentStale
| DeferApprovalRequired
| DeferApprovalInvalid
| IdempotencyConflict
| InvalidCommand (error : ExecutionDomainError)
| Internal.
End ExecutionRepositoryError.
Abbreviation ExecutionRepositoryError := ExecutionRepositoryError.ExecutionRepositoryError.

Record MemoryIdempotency : Type := {
  me_fingerprint : N;
  me_expires_at : DateTime;
  me_mutation : ExecutionMutation
}.

Record MemoryState : Type := {
  ms_revision : N;
  ms_active_session_id : option Uuid;
  ms_protocol_updated_at : option DateTime;
  ms_sessions : gmap Uuid ExecutionSession;
  ms_idempotency : gmap N MemoryIdempotency
}.

(** [MemoryState::default] *)
Definition empty_memory : MemoryState :=
  {| ms_revision := 0; ms_active_session_id := None; ms_protocol_updated_at := None; ms_sessions := ∅;
     ms_idempotency := ∅ |}.

(** The instants chrono can represent. *)
Class Chrono : Type := { chrono_in_range : DateTime → bool }.

(** [DateTime::checked_add_signed] *)
Definition checked_add_signed `{Chrono} (t : DateTime) (d : Z) : option DateTime :=
  if chrono_in_range (t + d)%Z then Some (t + d)%Z else None.

(** One microsecond. *)
Definition one_microsecond : Z := 1000.

Definition next_protocol_time `{Chrono} (now : DateTime) (previous : option DateTime)
    : result ExecutionRepositoryError DateTime :=
  match previous with
  | None => Ok now
  | Some previous =>
      if (previous <? now)%Z then Ok now
      else ok_or (checked_add_signed previous one_microsecond) ExecutionRepositoryError.Internal
  end.

(** ** Queries *)

Definition same_slot (session : ExecutionSession) (input : StartExecution) : bool :=
  (es_item_id session =? st_item_id input)%N && (es_item_revision session =? st_item_revision input)%N &&
  bool_decide (es_occurrence_id session = st_occurrence_id input) &&
  (es_session_index session =? st_session_index input)%N.

Definition is_active (st : MemoryState) (session : ExecutionSession) : bool :=
  bool_decide (Some (es_id session) = ms_active_session_id st).

Definition newest_cmp (st : MemoryState) (left right : ExecutionSession) : comparison :=
  then_with (cmp_bool (is_active st left) (is_active st right))
    (then_with (es_updated_at left ?= es_updated_at right)%Z (es_id left ?= es_id right)%N).

Definition newest_semantic_session (st : MemoryState) (input : StartExecution) : option ExecutionSession :=
  max_by (newest_cmp st) (filter (λ session, same_slot session input = true) (values (ms_sessions st))).

Definition active_session (st : MemoryState) : option ExecutionSession :=
  id ← ms_active_session_id st; ms_sessions st !! id.

(** [snapshot] *)
Definition snapshot (st : MemoryState) : ExecutionSnapshot :=
  {| sn_revision := ms_revision st; sn_active_session := active_session st |}.

Definition history_leb (left right : ExecutionSession) : bool :=
  is_le (then_with (es_updated_at right ?= es_updated_at left)%Z (es_id right ?= es_id left)%N).

(** [history]: newest first, one page. *)
Definition history (limit offset : nat) (st : MemoryState) : list ExecutionSession :=
  take limit (drop offset (sort_by history_leb (values (ms_sessions st)))).

(** ** Idempotency *)

Definition retain_live (now : DateTime) (m : gmap N MemoryIdempotency) : gmap N MemoryIdempotency :=
  filter (λ p, (now < me_expires_at p.2)%Z) m.

Definition prune (now : DateTime) (st : MemoryState) : MemoryState :=
  {| ms_revision := ms_revision st; ms_active_session_id := ms_active_session_id st;
     ms_protocol_updated_at := ms_protocol_updated_at st; ms_sessions := ms_sessions st;
     ms_idempotency := retain_live now (ms_idempotency st) |}.

Definition as_replayed (m : ExecutionMutation) : ExecutionMutation :=
  {| mu_revision := mu_revision m; mu_active_session := mu_active_session m;
     mu_changed_session := mu_changed_session m; mu_replayed := true |}.

(** The answer remembered for a key. *)
Definition recall (st : MemoryState) (idempotency : ExecutionIdempotency)
    : option (result ExecutionRepositoryError ExecutionMutation) :=
  remembered ← ms_idempotency st !! ik_key_hash idempotency;
  Some (if (me_fingerprint remembered =? ik_fingerprint idempotency)%N
        then Ok (as_replayed (me_mutation remembered))
        else Err ExecutionRepositoryError.IdempotencyConflict).

(** [InMemoryExecutionRepository::replay] *)
Definition replay (now : DateTime) (idempotency : ExecutionIdempotency) (st : MemoryState)
    : MemoryState * result ExecutionRepositoryError (option ExecutionMutation) :=
  let st := prune now st in
  match recall st idempotency with
  | None => (st, Ok None)
  | Some (Ok m) => (st, Ok (Some m))
  | Some (Err e) => (st, Err e)
  end.

(** ** Commands *)

Definition with_session (session : ExecutionSession) (active : option Uuid) (st : MemoryState) : MemoryState :=
  {| ms_revision := ms_revision st; ms_active_session_id := active;
     ms_protocol_updated_at := ms_protocol_updated_at st;
     ms_sessions := <[es_id session := session]> (ms_sessions st); ms_idempotency := ms_idempotency st |}.

Definition start_session (st : MemoryState) (input : StartExecution) (transition_at now : DateTime)
    : result ExecutionRepositoryError (MemoryState * ExecutionSession) :=
  if bool_decide (is_Some (ms_active_session_id st)) then Err ExecutionRepositoryError.ActiveSessionConflict
  else if bool_decide (is_Some (ms_sessions st !! st_session_id input)) then
    Err (ExecutionRepositoryError.DuplicateSession (st_session_id input))
  else
    match newest_semantic_session st input with
    | Some head =>
        Err (if is_open_status (es_status head) then ExecutionRepositoryError.ActiveSessionConflict
             else ExecutionRepositoryError.ScheduleStale)
    | None =>
        let session := start_with_protocol_time input transition_at now in
        Ok (with_session session (Some (es_id session)) st, session)
    end.

Definition advance_session (st : MemoryState) (command : ExecutionCommand) (transition_at now : DateTime)
    : result ExecutionRepositoryError (MemoryState * ExecutionSession) :=
  let not_found := ExecutionRepositoryError.SessionNotFound (command_session_id command) in
  let? active_id := ok_or (ms_active_session_id st) not_found in
  if negb (active_id =? command_session_id command)%N then Err not_found
  else
    let? current := ok_or (ms_sessions st !! active_id) ExecutionRepositoryError.Internal in
    let? updated := map_err ExecutionRepositoryError.InvalidCommand
                      (apply_with_protocol_time current command transition_at now) in
    Ok (with_session updated (if is_open_status (es_status updated) then Some (es_id updated) else None) st, updated).

Definition transition (st : MemoryState) (command : ExecutionCommand) (transition_at now : DateTime)
    : result ExecutionRepositoryError (MemoryState * ExecutionSession) :=
  match command with
  | Start input => start_session st input transition_at now
  | _ => advance_session st command transition_at now
  end.

(** The new revision, clock and remembered answer. *)
Definition commit (next : MemoryState) (changed : ExecutionSession) (revision : N) (transition_at : DateTime)
    (idempotency : ExecutionIdempotency) : MemoryState * ExecutionMutation :=
  let mutation := {| mu_revision := revision; mu_active_session := active_session next;
                     mu_changed_session := changed; mu_replayed := false |} in
  ({| ms_revision := revision; ms_active_session_id := ms_active_session_id next;
      ms_protocol_updated_at := Some transition_at; ms_sessions := ms_sessions next;
      ms_idempotency := <[ik_key_hash idempotency :=
        {| me_fingerprint := ik_fingerprint idempotency; me_expires_at := ik_expires_at idempotency;
           me_mutation := mutation |}]> (ms_idempotency next) |}, mutation).

(** The part of [apply] that works on a copy of the state. *)
Definition perform `{Chrono} (expected_revision : N) (command : ExecutionCommand) (now : DateTime)
    (idempotency : ExecutionIdempotency) (guard : MemoryState)
    : result ExecutionRepositoryError (MemoryState * ExecutionMutation) :=
  if negb (expected_revision =? ms_revision guard)%N then
    Err (ExecutionRepositoryError.RevisionConflict expected_revision (ms_revision guard))
  else
    let? transition_at := next_protocol_time now (ms_protocol_updated_at guard) in
    let? (next, changed) := transition guard command transition_at now in
    let? revision := ok_or (checked_add u64_max (ms_revision next) 1) ExecutionRepositoryError.Internal in
    Ok (commit next changed revision transition_at idempotency).

(** [InMemoryExecutionRepository::apply] *)
Definition apply_command `{Chrono} (expected_revision : N) (command : ExecutionCommand) (now : DateTime)
    (idempotency : ExecutionIdempotency) (st : MemoryState)
    : MemoryState * result ExecutionRepositoryError ExecutionMutation :=
  let guard := prune now st in
  match recall guard idempotency with
  | Some answer => (guard, answer)
  | None =>
      match perform expected_revision command now idempotency guard with
      | Ok (next, mutation) => (next, Ok mutation)
      | Err e => (guard, Err e)
      end
  end.

(** ** Histories *)

(** One atomic step at the wall-clock time [now], whatever its answer. *)
Inductive lease_step `{Chrono} (now : DateTime) (st : MemoryState) : MemoryState → Prop :=
| step_apply expected command idempotency :
    lease_step now st (apply_command expected command now idempotency st).1
| step_replay idempotency :
    lease_step now st (replay now idempotency st).1.

(** Any number of steps, in any order, of any number of clients. *)
Inductive lease_steps `{Chrono} (P : DateTime → Prop) : MemoryState → MemoryState → Prop :=
| steps_refl st : lease_steps P st st
| steps_step st now st' st'' :
    P now → lease_step now st st' → lease_steps P st' st'' → lease_steps P st st''.

Definition reachable_lease `{Chrono} (st : MemoryState) : Prop := lease_steps (λ _, True) empty_memory st.

(** The sum of the revisions of all sessions. *)
Definition total_revisions (sessions : gmap Uuid ExecutionSession) : N :=
  map_fold (λ _ s total, es_revision s + total)%N 0%N sessions.

Definition slot_of (s : ExecutionSession) : Uuid * N * option Uuid * N :=
  (es_item_id s, es_item_revision s, es_occurrence_id s, es_session_index s).

Record lease_ok (st : MemoryState) : Prop := {
  lo_sessions k s : ms_sessions st !! k = Some s → es_id s = k ∧ reachable_session s;
  lo_active k : ms_active_session_id st = Some k ↔
    ∃ s, ms_sessions st !! k = Some s ∧ is_open_status (es_status s) = true;
  lo_clock k s : ms_sessions st !! k = Some s → ∃ p, ms_protocol_updated_at st = Some p ∧ (es_updated_at s <= p)%Z;
  lo_revision : ms_revision st = total_revisions (ms_sessions st) ∧ (ms_revision st <= u64_max)%N;
  lo_slots k1 k2 s1 s2 :
    ms_sessions st !! k1 = Some s1 → ms_sessions st !! k2 = Some s2 → slot_of s1 = slot_of s2 → k1 = k2;
  lo_memory k r : ms_idempotency st !! k = Some r →
    (mu_revision (me_mutation r) <= ms_revision st)%N ∧ mu_replayed (me_mutation r) = false
}.

(** ** Lemmas *)

Lemma total_revisions_insert k s sessions :
  sessions !! k = None → total_revisions (<[k := s]> sessions) = (es_revision s + total_revisions sessions)%N.
Proof.
  intros Hk. unfold total_revisions. apply (map_fold_insert_L (λ _ s total, es_revision s + total)%N); [|done].
  intros. lia.
Qed.

Lemma total_revisions_update k s s' sessions :
  sessions !! k = Some s →
  (total_revisions (<[k := s']> sessions) + es_revision s = total_revisions sessions + es_revision s')%N.
Proof.
  intros Hk. rewrite <- (insert_delete_id sessions k s Hk), insert_insert_eq.
  rewrite !total_revisions_insert by apply lookup_delete_eq. lia.
Qed.

Lemma total_revisions_ge k s sessions : sessions !! k = Some s → (es_revision s <= total_revisions sessions)%N.
Proof.
  intros Hk. rewrite <- (insert_delete_id sessions k s Hk), total_revisions_insert by apply lookup_delete_eq. lia.
Qed.

Lemma next_protocol_time_Ok `{Chrono} now previous t :
  next_protocol_time now previous = Ok t → (now <= t)%Z ∧ ∀ p, previous = Some p → (p < t)%Z.
Proof.
  unfold next_protocol_time. destruct previous as [p|]; [|intros [= <-]; split; [lia|done]].
  destruct (Z.ltb_spec p now); [intros [= <-]; split; [lia|intros ? [= <-]; lia]|].
  intros Ht%ok_or_ok. unfold checked_add_signed in Ht. destruct (chrono_in_range _); [|done]. simplify_eq.
  unfold one_microsecond. split; [lia|]. intros ? [= <-]. lia.
Qed.

Lemma prune_lookup now st k r :
  ms_idempotency (prune now st) !! k = Some r ↔ ms_idempotency st !! k = Some r ∧ (now < me_expires_at r)%Z.
Proof. simpl. unfold retain_live. by rewrite map_lookup_filter_Some. Qed.

Lemma prune_ok now st : lease_ok st → lease_ok (prune now st).
Proof.
  intros [H1 H2 H3 H4 H5 H6]. constructor; simpl; try done. intros k r Hk. apply prune_lookup in Hk as [Hk _]. by eapply H6.
Qed.

(** There is no newest session of a slot exactly when the slot is unused. *)
Lemma newest_None st input :
  newest_semantic_session st input = None ↔ ∀ k s, ms_sessions st !! k = Some s → same_slot s input = false.
Proof.
  unfold newest_semantic_session.
  assert (∀ (cmp : ExecutionSession → ExecutionSession → comparison) l, max_by cmp l = None ↔ l = []) as -> by (by intros ? []).
  split.
  - intros Hnil k s Hs. apply not_true_is_false. intros Hslot. apply (not_elem_of_nil s). rewrite <- Hnil.
    apply list_elem_of_filter. split; [done|]. apply elem_of_values. by exists k.
  - intros Hall. apply elem_of_nil_inv. intros s [Hslot (k & Hs)%elem_of_values]%list_elem_of_filter.
    by rewrite (Hall k s Hs) in Hslot.
Qed.

Lemma same_slot_spec s input :
  same_slot s input = true ↔
  slot_of s = (st_item_id input, st_item_revision input, st_occurrence_id input, st_session_index input).
Proof.
  unfold same_slot, slot_of. rewrite !andb_true_iff, !N.eqb_eq, bool_decide_eq_true. split.
  - by intros [[[-> ->] ->] ->].
  - by intros [= -> -> -> ->].
Qed.

(** ** What an accepted command does *)

(** The ways a command can change the sessions. *)
Inductive transitions (st : MemoryState) (t now : DateTime) : ExecutionCommand → ExecutionSession → Prop :=
| transition_start input :
    ms_active_session_id st = None → ms_sessions st !! st_session_id input = None →
    (∀ k s, ms_sessions st !! k = Some s → same_slot s input = false) →
    transitions st t now (Start input) (start_with_protocol_time input t now)
| transition_advance c current s :
    ms_active_session_id st = Some (command_session_id c) → ms_sessions st !! command_session_id c = Some current →
    apply_with_protocol_time current c t now = Ok s → transitions st t now c s.

Definition active_after (s : ExecutionSession) : option Uuid :=
  if is_open_status (es_status s) then Some (es_id s) else None.

Lemma transition_iff st c t now next s :
  transition st c t now = Ok (next, s) ↔ transitions st t now c s ∧ next = with_session s (active_after s) st.
Proof.
  assert (∀ c, (∀ input, c ≠ Start input) →
    advance_session st c t now = Ok (next, s) ↔
    transitions st t now c s ∧ next = with_session s (active_after s) st) as Hadvance.
  { clear c. intros c Hc. unfold advance_session. rewrite rbind_ok. split.
    - intros (id & Hid%ok_or_ok & Hs). destruct (N.eqb_spec id (command_session_id c)) as [->|]; simpl in Hs; [|done].
      apply rbind_ok in Hs as (current & Hcur%ok_or_ok & Hs). apply rbind_ok in Hs as (s1 & Happly & [= <- <-]).
      unfold map_err in Happly. destruct (apply_with_protocol_time _ _ _ _) eqn:E; [|done]. simplify_eq.
      split; [|done]. by econstructor.
    - intros [Hs ->]. destruct Hs as [input|c current s Ha Hcur Happly]; [by destruct (Hc input)|].
      exists (command_session_id c). rewrite Ha. split; [done|]. rewrite N.eqb_refl. simpl.
      rewrite Hcur. simpl. by rewrite Happly. }
  destruct c as [input|input|input|input|input|input]; try (by apply Hadvance).
  simpl. unfold start_session. case_bool_decide as Ha.
  { split; [done|]. intros [Hs _]. inversion Hs as [? Hnone|? ? ? Hsome Hcur Happly]; subst.
    - rewrite Hnone in Ha. by destruct Ha.
    - apply apply_iff_step in Happly as (_ & _ & Hstep). inversion Hstep. }
  apply eq_None_not_Some in Ha. case_bool_decide as Hd.
  { split; [done|]. intros [Hs _]. inversion Hs as [? ? Hnone|? ? ? Hsome]; subst; [by rewrite Hnone in Hd; destruct Hd|congruence]. }
  apply eq_None_not_Some in Hd. pose proof (newest_None st input) as Hn.
  destruct (newest_semantic_session st input) as [head|] eqn:En.
  { split; [done|]. intros [Hs _]. inversion Hs; subst; [|congruence]. destruct Hn as [_ Hn]. by specialize (Hn ltac:(done)). }
  split.
  - intros [= <- <-]. split; [|done]. constructor; try done. by apply Hn.
  - intros [Hs ->]. inversion Hs; subst; [done|congruence].
Qed.

Section repository.
Context `{Chrono}.

Lemma perform_iff expected c now idem st next m :
  perform expected c now idem st = Ok (next, m) ↔
  ∃ t s, expected = ms_revision st ∧ next_protocol_time now (ms_protocol_updated_at st) = Ok t ∧
    transitions st t now c s ∧ (ms_revision st + 1 <= u64_max)%N ∧
    (next, m) = commit (with_session s (active_after s) st) s (ms_revision st + 1) t idem.
Proof.
  unfold perform. destruct (N.eqb_spec expected (ms_revision st)) as [->|Hne]; simpl.
  2:{ split; [done|]. by intros (? & ? & ? & _). }
  rewrite rbind_ok. split.
  - intros (t & Ht & ([next' s] & [Hs ->]%transition_iff & Hr)%rbind_ok). apply rbind_ok in Hr as (r & Hr%ok_or_ok & Hm).
    unfold checked_add in Hr. simpl in Hr. destruct (N.leb_spec (ms_revision st + 1) u64_max); [|done]. simplify_eq.
    by exists t, s.
  - intros (t & s & _ & Ht & Hs & Hr & Hm). exists t. split; [done|].
    assert (transition st c t now = Ok (with_session s (active_after s) st, s)) as -> by (by apply transition_iff).
    simpl. unfold checked_add. rewrite (proj2 (N.leb_le _ _) Hr). simpl. by rewrite <- Hm.
Qed.

(** The sessions and the clock after an accepted command keep the invariant. *)
Lemma commit_ok st s active t idem :
  lease_ok st → reachable_session s → active = active_after s → es_updated_at s = t →
  (∀ p, ms_protocol_updated_at st = Some p → (p <= t)%Z) →
  (∀ k s', ms_sessions st !! k = Some s' → k ≠ es_id s → is_open_status (es_status s') = false ∧ slot_of s' ≠ slot_of s) →
  total_revisions (<[es_id s := s]> (ms_sessions st)) = (ms_revision st + 1)%N → (ms_revision st + 1 <= u64_max)%N →
  lease_ok (commit (with_session s active st) s (ms_revision st + 1) t idem).1.
Proof.
  intros [H1 H2 H3 H4 H5 H6] Hs -> Ht Hclock Hother Htotal Hmax. constructor; simpl.
  - intros k s' Hk. destruct (decide (k = es_id s)) as [->|].
    + rewrite lookup_insert_eq in Hk. by simplify_eq.
    + rewrite lookup_insert_ne in Hk by done. by apply H1.
  - intros k. unfold active_after. destruct (decide (k = es_id s)) as [->|Hne].
    + rewrite lookup_insert_eq. destruct (is_open_status _) eqn:E; split; [by eexists|done|done|].
      intros (? & [= <-] & ?). congruence.
    + rewrite lookup_insert_ne by done. split; [destruct (is_open_status _); intros [=]; by subst|].
      intros (s' & Hk & Ho). destruct (Hother k s' Hk Hne). congruence.
  - intros k s' Hk. exists t. split; [done|]. destruct (decide (k = es_id s)) as [->|].
    + rewrite lookup_insert_eq in Hk. simplify_eq. lia.
    + rewrite lookup_insert_ne in Hk by done. destruct (H3 k s' Hk) as (p & Hp & Hle). specialize (Hclock p Hp). lia.
  - done.
  - intros k1 k2 s1 s2 Hk1 Hk2 Heq. destruct (decide (k1 = es_id s)), (decide (k2 = es_id s)); subst; try done.
    + rewrite lookup_insert_eq in Hk1. rewrite lookup_insert_ne in Hk2 by done. injection Hk1 as <-. destruct (Hother k2 s2) as [_ Hne]; [done|done|congruence].
    + rewrite lookup_insert_eq in Hk2. rewrite lookup_insert_ne in Hk1 by done. injection Hk2 as <-. destruct (Hother k1 s1) as [_ Hne]; [done|done|congruence].
    + rewrite !lookup_insert_ne in Hk1, Hk2 by done. by eapply H5.
  - intros k r Hk. destruct (decide (k = ik_key_hash idem)) as [->|].
    + rewrite lookup_insert_eq in Hk. simplify_eq. simpl. split; [lia|done].
    + rewrite lookup_insert_ne in Hk by done. destruct (H6 k r Hk). split; [lia|done].
Qed.

Lemma apply_slot s c t o s' :
  apply_with_protocol_time s c t o = Ok s' → slot_of s' = slot_of s ∧ es_id s' = es_id s ∧ es_updated_at s' = t ∧
  es_revision s' = (es_revision s + 1)%N.
Proof.
  intros (_ & _ & Hs)%apply_iff_step. apply step_facts in Hs as (_ & ? & ? & _ & _ & ? & ? & ? & ? & ? & _).
  split_and!; try done. unfold slot_of. congruence.
Qed.

Lemma perform_ok expected c now idem st next m :
  lease_ok st → perform expected c now idem st = Ok (next, m) → lease_ok next.
Proof.
  intros Hok (t & s & -> & [Ht1 Ht2]%next_protocol_time_Ok & Hs & Hmax & Hm)%perform_iff.
  apply (f_equal fst) in Hm. simpl in Hm. subst next. pose proof Hok as [H1 H2 H3 H4 H5 H6].
  assert (∀ p, ms_protocol_updated_at st = Some p → (p <= t)%Z) as Hclock by (intros p Hp; specialize (Ht2 p Hp); lia).
  destruct Hs as [input Ha Hd Hn|c current s Ha Hcur Hs].
  - apply commit_ok; try done.
    + by apply reach_start.
    + intros k s' Hk Hne. split.
      * apply not_true_is_false. intros Ho. assert (ms_active_session_id st = Some k) by (apply H2; by exists s'). congruence.
      * intros Heq. specialize (Hn k s' Hk). apply not_true_iff_false in Hn. apply Hn, same_slot_spec, Heq.
    + simpl. rewrite total_revisions_insert by done. destruct H4 as [-> _]. simpl. lia.
  - destruct (H1 _ _ Hcur) as [Hid Hreach]. destruct (apply_slot _ _ _ _ _ Hs) as (Hslot & Hsid & Hu & Hr).
    assert (es_id s = command_session_id c) as Hc by congruence.
    apply commit_ok; try done.
    + by eapply reach_step.
    + intros k s' Hk Hne. split.
      * apply not_true_is_false. intros Ho. assert (ms_active_session_id st = Some k) by (apply H2; by exists s'). congruence.
      * rewrite Hslot. intros Heq. apply Hne. rewrite Hc. by eapply H5.
    + rewrite Hc. pose proof (total_revisions_update _ _ s _ Hcur). destruct H4 as [-> _]. lia.
Qed.

(** Every atomic step only prunes the memory, or performs a command that is
    not remembered. *)
Lemma apply_command_cases expected c now idem st :
  let st' := prune now st in
  (∃ answer, recall st' idem = Some answer ∧ apply_command expected c now idem st = (st', answer)) ∨
  (recall st' idem = None ∧ ∃ next m, perform expected c now idem st' = Ok (next, m) ∧
     apply_command expected c now idem st = (next, Ok m)) ∨
  (recall st' idem = None ∧ ∃ e, perform expected c now idem st' = Err e ∧
     apply_command expected c now idem st = (st', Err e)).
Proof.
  simpl. unfold apply_command. destruct (recall _ _) as [answer|]; [left; by eexists|right].
  destruct (perform _ _ _ _ _) as [[next m]|e] eqn:E; [left|right]; eauto 10.
Qed.

Lemma replay_state now idem st : (replay now idem st).1 = prune now st.
Proof. unfold replay. by destruct (recall _ _) as [[]|]. Qed.

Lemma lease_step_cases now st st' :
  lease_step now st st' → st' = prune now st ∨
  ∃ expected c idem m, recall (prune now st) idem = None ∧ perform expected c now idem (prune now st) = Ok (st', m).
Proof.
  destruct 1 as [expected c idem|idem]; [|left; apply replay_state].
  destruct (apply_command_cases expected c now idem st) as [(? & _ & ->)|[(Hn & next & m & Hp & ->)|(_ & ? & _ & ->)]]; simpl;
    [by left| |by left]. right. by exists expected, c, idem, m.
Qed.

Lemma lease_step_ok now st st' : lease_ok st → lease_step now st st' → lease_ok st'.
Proof.
  intros Hok%(prune_ok now) [->|(expected & c & idem & m & _ & Hp)]%lease_step_cases; [done|]. by eapply perform_ok.
Qed.

Lemma empty_ok : lease_ok empty_memory.
Proof. constructor; simpl; try done. split; [done|]. by intros (? & [=] & _). Qed.

Lemma reachable_lease_inv st : reachable_lease st → lease_ok st.
Proof.
  unfold reachable_lease. intros Hst. assert (∀ st1 st2, lease_steps (λ _, True) st1 st2 → lease_ok st1 → lease_ok st2) as Hall.
  { induction 1; eauto using lease_step_ok. }
  eapply Hall; [exact Hst|]. apply empty_ok.
Qed.

Lemma perform_commits expected c now idem st next m :
  perform expected c now idem st = Ok (next, m) →
  expected = ms_revision st ∧ ms_revision next = (expected + 1)%N ∧ mu_replayed m = false ∧
  ms_idempotency next = <[ik_key_hash idem := {| me_fingerprint := ik_fingerprint idem;
    me_expires_at := ik_expires_at idem; me_mutation := m |}]> (ms_idempotency st).
Proof. intros (t & s & -> & _ & _ & _ & Hm)%perform_iff. by injection Hm as -> ->. Qed.

Lemma steps_revision P st st' : lease_steps P st st' → (ms_revision st <= ms_revision st')%N.
Proof.
  induction 1 as [|st now st' st'' _ Hstep _ IH]; [done|]. etransitivity; [|exact IH].
  destruct (lease_step_cases _ _ _ Hstep) as [->|(expected & c & idem & m & _ & Hp)]; [done|].
  apply perform_commits in Hp as (-> & -> & _). simpl. lia.
Qed.

(** A command that is not answered from memory was performed. *)
Lemma fresh_answer expected c now idem st st' m :
  apply_command expected c now idem st = (st', Ok m) → mu_replayed m = false →
  perform expected c now idem (prune now st) = Ok (st', m).
Proof.
  intros Ha Hm. destruct (apply_command_cases expected c now idem st) as [(a & Hr & Hx)|[(_ & next & m' & Hp & Hx)|(_ & e & _ & Hx)]];
    rewrite Hx in Ha; simplify_eq; [|done].
  unfold recall in Hr. destruct (ms_idempotency _ !! _) as [r|]; simpl in Hr; [|done]. destruct (_ =? _)%N; by simplify_eq.
Qed.

Lemma steps_remember P st st' k r :
  lease_steps P st st' → (∀ now, P now → (now < me_expires_at r)%Z) → ms_idempotency st !! k = Some r →
  ms_idempotency st' !! k = Some r.
Proof.
  intros Hsteps HP. induction Hsteps as [|st now st' st'' Hnow Hstep _ IH]; [done|]. intros Hk. apply IH. clear IH.
  assert (ms_idempotency (prune now st) !! k = Some r) as Hk' by (apply prune_lookup; auto).
  destruct (lease_step_cases _ _ _ Hstep) as [->|(expected & c & idem & m & Hnone & Hp)]; [done|].
  apply perform_commits in Hp as (_ & _ & _ & ->). rewrite lookup_insert_ne; [done|]. intros <-.
  unfold recall in Hnone. by rewrite Hk' in Hnone.
Qed.

(** ** Theorems *)

(** C17. In every reachable repository, whatever clients did in whatever order: the
    active identifier names the one session that is open, every session is a
    reachable session stored under its own identifier and not ahead of the
    protocol clock, no two sessions share a slot of work, the revision is the
    number of transitions of all sessions and fits its width, and remembered
    answers belong to past revisions. *)
Theorem reachable_leases_ok st : reachable_lease st → lease_ok st.
Proof. apply reachable_lease_inv. Qed.

(** No lost update: when a command was performed at a revision, any later
    command that names the same revision is not performed, whatever ran in
    between; if it succeeds at all it is an answer from memory. *)
Theorem revision_used_once P expected c1 now1 idem1 c2 now2 idem2 st st1 st2 st3 m1 m2 :
  apply_command expected c1 now1 idem1 st = (st1, Ok m1) → mu_replayed m1 = false →
  lease_steps P st1 st2 →
  apply_command expected c2 now2 idem2 st2 = (st3, Ok m2) → mu_replayed m2 = true.
Proof.
  intros H1 Hm1 Hsteps H2. apply fresh_answer in H1; [|done].
  apply perform_commits in H1 as (-> & Hr1 & _). apply steps_revision in Hsteps.
  apply not_false_is_true. intros Hm2. apply fresh_answer in H2; [|done]. apply perform_commits in H2 as (Hr2 & _).
  simpl in *. lia.
Qed.

(** Idempotency: until its answer expires, repeating a performed command's key
    gives the same answer, marked as replayed, and performs nothing, whatever
    ran in between and whatever revision it names; the key with other content
    is refused. *)
Theorem answers_are_remembered expected c now idem st st1 m st2 expected' c' now' idem' :
  apply_command expected c now idem st = (st1, Ok m) → mu_replayed m = false →
  lease_steps (λ t, (t < ik_expires_at idem)%Z) st1 st2 → (now' < ik_expires_at idem)%Z →
  ik_key_hash idem' = ik_key_hash idem →
  apply_command expected' c' now' idem' st2 =
    (prune now' st2,
     if decide (ik_fingerprint idem' = ik_fingerprint idem) then Ok (as_replayed m)
     else Err ExecutionRepositoryError.IdempotencyConflict).
Proof.
  intros Ha Hm Hsteps Hnow Hkey. apply fresh_answer in Ha; [|done]. apply perform_commits in Ha as (_ & _ & _ & Hmem).
  set (r := {| me_fingerprint := _ |}) in Hmem.
  assert (ms_idempotency st2 !! ik_key_hash idem = Some r) as Hst2.
  { eapply steps_remember; [exact Hsteps|by intros|rewrite Hmem; apply lookup_insert_eq]. }
  unfold apply_command, recall.
  assert (ms_idempotency (prune now' st2) !! ik_key_hash idem' = Some r) as -> by (rewrite Hkey; apply prune_lookup; by split).
  simpl. destruct (N.eqb_spec (ik_fingerprint idem) (ik_fingerprint idem')), (decide _); congruence.
Qed.

(** A failed command changes nothing but the expiry of remembered answers. *)
Lemma failures_change_nothing expected c now idem st st' e :
  apply_command expected c now idem st = (st', Err e) → st' = prune now st.
Proof.
  destruct (apply_command_cases expected c now idem st) as [(? & _ & ->)|[(_ & ? & ? & _ & ->)|(_ & ? & _ & ->)]]; by intros [= <- ?].
Qed.

(** C19. The open session can be released: completing it at the current revision
    is accepted, unless the key is already in use, the clock or the revision is
    exhausted; the repository then has no open session, so that the
    next one can start. *)
Theorem open_session_can_be_released st s now t idem :
  reachable_lease st → active_session st = Some s → (ms_revision st < u64_max)%N →
  next_protocol_time now (ms_protocol_updated_at st) = Ok t → recall (prune now st) idem = None →
  ∃ st' m, apply_command (ms_revision st) (Complete {| fi_session_id := es_id s; fi_actual_seconds := None |}) now idem st =
    (st', Ok m) ∧ mu_replayed m = false ∧ ms_active_session_id st' = None ∧ ms_revision st' = (ms_revision st + 1)%N.
Proof.
  intros Hst%reachable_lease_inv%(prune_ok now) Hactive Hrev Ht Hnone. pose proof Hst as [H1 H2 H3 [H4 _] H5 H6].
  unfold active_session in Hactive. destruct (ms_active_session_id st) as [k|] eqn:Ek; simpl in Hactive; [|done].
  destruct (H1 k s Hactive) as [Hid Hreach]. destruct (proj1 (H2 k) Ek) as (s0 & Hs0 & Hopen). simpl in *. simplify_eq.
  destruct (H3 _ _ Hactive) as (p & Hp & Hle). pose proof (total_revisions_ge _ _ _ Hactive) as Hge.
  apply next_protocol_time_Ok in Ht as Hclock. destruct Hclock as [Hnow Hlt]. specialize (Hlt p Hp).
  set (c := Complete {| fi_session_id := es_id s; fi_actual_seconds := None |}).
  assert (session_step s t now c (closed s None ExecutionStatus.Completed t now)) as Hstep.
  { apply step_complete. split_and!; try done. simpl. lia. }
  set (s1 := closed s None ExecutionStatus.Completed t now) in *.
  assert (perform (ms_revision st) c now idem (prune now st) =
    Ok (commit (with_session s1 (active_after s1) (prune now st)) s1 (ms_revision st + 1) t idem)) as Hp1.
  { destruct (commit _ _ _ _ _) as [next m] eqn:Ec. apply perform_iff. exists t, s1. split_and!; simpl; try done; [|lia].
    eapply (transition_advance _ _ _ _ s); [done|done|]. apply apply_iff_step. split_and!; [lia|done|done]. }
  eexists _, _. unfold apply_command. rewrite Hnone, Hp1. split; [reflexivity|]. done.
Qed.

(** ** Refinement of a desk *)

(** What a user sees: a desk with room for one session and an archive of the
    sessions that ended. *)
Record Desk : Type := { dk_open : option ExecutionSession; dk_archive : gmap Uuid ExecutionSession }.

Definition archived_slot (d : Desk) (slot : Uuid * N * option Uuid * N) : Prop :=
  ∃ k s, dk_archive d !! k = Some s ∧ slot_of s = slot.

Definition slot_of_input (input : StartExecution) : Uuid * N * option Uuid * N :=
  (st_item_id input, st_item_revision input, st_occurrence_id input, st_session_index input).

(** One step of the desk: take new work, continue it, or put it away. *)
Inductive desk_step (t now : DateTime) (d : Desk) : Desk → Prop :=
| desk_start input :
    dk_open d = None → dk_archive d !! st_session_id input = None → ¬ archived_slot d (slot_of_input input) →
    desk_step t now d {| dk_open := Some (start_with_protocol_time input t now); dk_archive := dk_archive d |}
| desk_continue s c s' :
    dk_open d = Some s → session_step s t now c s' → is_open_status (es_status s') = true →
    desk_step t now d {| dk_open := Some s'; dk_archive := dk_archive d |}
| desk_close s c s' :
    dk_open d = Some s → session_step s t now c s' → is_open_status (es_status s') = false →
    desk_step t now d {| dk_open := None; dk_archive := <[es_id s' := s']> (dk_archive d) |}.

Definition is_closed (p : Uuid * ExecutionSession) : Prop := is_open_status (es_status p.2) = false.

#[global] Instance is_closed_dec p : Decision (is_closed p).
Proof. unfold is_closed. solve_decision. Defined.

Definition desk_of (st : MemoryState) : Desk :=
  {| dk_open := active_session st; dk_archive := filter is_closed (ms_sessions st) |}.

Lemma desk_of_prune now st : desk_of (prune now st) = desk_of st.
Proof. done. Qed.

Lemma open_other_None st k s :
  lease_ok st → ms_sessions st !! k = Some s → ms_active_session_id st ≠ Some k → is_open_status (es_status s) = false.
Proof. intros [_ H2 _ _ _ _] Hk Ha. apply not_true_is_false. intros Ho. apply Ha, H2. by exists s. Qed.

Lemma perform_refines expected c now idem st next m :
  lease_ok st → perform expected c now idem st = Ok (next, m) →
  ∃ t, next_protocol_time now (ms_protocol_updated_at st) = Ok t ∧ desk_step t now (desk_of st) (desk_of next).
Proof.
  intros Hok (t & s & -> & Ht & Hs & _ & Hm)%perform_iff. exists t. split; [done|].
  apply (f_equal fst) in Hm. simpl in Hm. subst next. unfold desk_of, active_session. simpl.
  destruct Hs as [input Ha Hd Hn|c current s Ha Hcur Hs].
  - simpl. rewrite lookup_insert_eq, map_filter_insert_False by done. rewrite delete_id by done.
    refine (desk_start t now _ input _ _ _); simpl.
    + by rewrite Ha.
    + apply map_lookup_filter_None. by left.
    + intros (k & s' & (Hk & _)%map_lookup_filter_Some & Hslot). specialize (Hn k s' Hk).
      apply not_true_iff_false in Hn. by apply Hn, same_slot_spec.
  - destruct (apply_slot _ _ _ _ _ Hs) as (_ & Hid & _). destruct (lo_sessions _ Hok _ _ Hcur) as [Hcid _].
    assert (es_id s = command_session_id c) as Hsid by congruence.
    assert (dk_open (desk_of st) = Some current) as Hopen by (unfold desk_of, active_session; simpl; by rewrite Ha).
    apply apply_iff_step in Hs as (_ & _ & Hs). unfold active_after. destruct (is_open_status (es_status s)) eqn:Eo; simpl.
    + rewrite lookup_insert_eq, map_filter_insert_False by (unfold is_closed; simpl; congruence).
      rewrite map_filter_delete, delete_id.
      2:{ apply map_lookup_filter_None. right. intros x. rewrite Hsid, Hcur. intros [= <-]. unfold is_closed. simpl.
          destruct (proj1 (lo_active _ Hok _) Ha) as (y & Hy & ?). congruence. }
      by eapply (desk_continue _ _ (desk_of st)).
    + rewrite map_filter_insert_True by done. by eapply (desk_close _ _ (desk_of st)).
Qed.

(** C18. The repository implements the desk: every atomic step of any client either
    leaves the desk and the revision alone, or is exactly one step of the desk
    at a protocol time strictly after the previous one, and counts once. *)
Theorem lease_refines_desk now st st' :
  reachable_lease st → lease_step now st st' →
  (desk_of st' = desk_of st ∧ ms_revision st' = ms_revision st) ∨
  (∃ t, next_protocol_time now (ms_protocol_updated_at st) = Ok t ∧ desk_step t now (desk_of st) (desk_of st') ∧
     (∀ p, ms_protocol_updated_at st = Some p → (p < t)%Z) ∧ ms_protocol_updated_at st' = Some t ∧
     ms_revision st' = (ms_revision st + 1)%N).
Proof.
  intros Hok%reachable_lease_inv%(prune_ok now) [->|(expected & c & idem & m & _ & Hp)]%lease_step_cases; [by left|right].
  destruct (perform_refines _ _ _ _ _ _ _ Hok Hp) as (t & Ht & Hd). exists t.
  apply perform_iff in Hp as (t' & s & -> & Ht' & _ & _ & Hm). rewrite Ht in Ht'. simplify_eq.
  apply (f_equal fst) in Hm. simpl in Hm. subst st'. split_and!; try done. by apply next_protocol_time_Ok in Ht as [_ ?].
Qed.

End repository.

(** ** Witnesses: a start, a pause by another client, and a repeated start *)

(** The range chrono documents, in whole years. *)
Definition sample_chrono : Chrono :=
  {| chrono_in_range := λ t, (-8334601228800 * nanos_per_second <=? t)%Z && (t <? 8210266876800 * nanos_per_second)%Z |}.

Definition sample_key (k : N) : ExecutionIdempotency :=
  {| ik_key_hash := k; ik_fingerprint := 70 + k; ik_expires_at := seconds 86400 |}.

Definition sample_pause : ExecutionCommand :=
  Pause {| pu_session_id := 1; pu_duration_seconds := None; pu_pause_until := None; pu_reason := None |}.

Definition lease1 : MemoryState := (@apply_command sample_chrono 0 (Start sample_start) 0%Z (sample_key 1) empty_memory).1.

Definition lease2 : MemoryState := (@apply_command sample_chrono 1 sample_pause (seconds 90) (sample_key 2) lease1).1.

Definition mutation1 : ExecutionMutation :=
  {| mu_revision := 1; mu_active_session := Some sample_session; mu_changed_session := sample_session; mu_replayed := false |}.

Lemma lease1_reachable : @reachable_lease sample_chrono lease1.
Proof.
  eapply (@steps_step sample_chrono); [done|apply (@step_apply sample_chrono)|apply (@steps_refl sample_chrono)].
Qed.

Lemma lease1_answer :
  @apply_command sample_chrono 0 (Start sample_start) 0%Z (sample_key 1) empty_memory = (lease1, Ok mutation1).
Proof. vm_compute. reflexivity. Qed.

Lemma lease1_lease2 (P : DateTime → Prop) : P (seconds 90) → @lease_steps sample_chrono P lease1 lease2.
Proof.
  intros HP. eapply (@steps_step sample_chrono); [exact HP|apply (@step_apply sample_chrono)|apply (@steps_refl sample_chrono)].
Qed.

Lemma reachable_leases_ok_witness : ms_revision lease1 = 1%N ∧ lease_ok lease1.
Proof. split; [reflexivity|]. exact (@reachable_leases_ok sample_chrono lease1 lease1_reachable). Defined.

Lemma revision_used_once_witness :
  ∃ st m, @apply_command sample_chrono 0 (Start sample_start) (seconds 100) (sample_key 1) lease2 = (st, Ok m) ∧ mu_replayed m = true.
Proof.
  destruct (@apply_command sample_chrono 0 (Start sample_start) (seconds 100) (sample_key 1) lease2) as [st [m|e]] eqn:E;
    [|vm_compute in E; discriminate E].
  exists st, m. split; [reflexivity|].
  exact (@revision_used_once sample_chrono (λ _, True) 0 _ _ _ _ _ _ _ _ _ _ _ _ lease1_answer eq_refl
    (lease1_lease2 (λ _, True) I) E).
Defined.

Lemma answers_are_remembered_witness :
  (@apply_command sample_chrono 7 sample_pause (seconds 100) (sample_key 1) lease2).2 = Ok (as_replayed mutation1).
Proof.
  rewrite (@answers_are_remembered sample_chrono 0 (Start sample_start) 0%Z (sample_key 1) empty_memory lease1 mutation1 lease2
    7 sample_pause (seconds 100) (sample_key 1) lease1_answer eq_refl (lease1_lease2 _ eq_refl) eq_refl eq_refl).
  reflexivity.
Defined.

Lemma open_session_can_be_released_witness :
  ∃ st' m, @apply_command sample_chrono 1 sample_complete (seconds 60) (sample_key 3) lease1 = (st', Ok m) ∧
    ms_active_session_id st' = None.
Proof.
  destruct (@open_session_can_be_released sample_chrono lease1 sample_session (seconds 60) (seconds 60) (sample_key 3)
    lease1_reachable eq_refl eq_refl eq_refl eq_refl) as (st' & m & Ha & _ & Hn & _).
  exists st', m. split; [exact Ha|exact Hn].
Defined.

Lemma lease_refines_desk_witness :
  ∃ t, @next_protocol_time sample_chrono (seconds 90) (Some 0%Z) = Ok t ∧
    desk_step t (seconds 90) (desk_of lease1) (desk_of lease2).
Proof.
  destruct (@lease_refines_desk sample_chrono (seconds 90) lease1 lease2 lease1_reachable
    (@step_apply sample_chrono (seconds 90) lease1 1 sample_pause (sample_key 2))) as [[_ Hr]|(t & Ht & Hd & _)].
  - discriminate Hr.
  - exists t. split; [exact Ht|exact Hd].
Defined.
