(* ===== verification/ItemDomain.v ===== *)
(** * ItemDomain: the canonical items of the server

    server/dayweave-api/src/items/domain.rs: the [Item] a client creates,
    replaces, trashes and restores, and the normalisation of its fields.  JSON
    values, the IANA time zones and serde's generated decoders come from other
    crates: [ItemFormats] lists what the code uses of them.  The strict decoder of
    scheduling metadata, crates/dayweave-compose/src/metadata.rs, is the
    interface [SchedulingMetadata].

    What holds of the items in a repository is in Repository. *)
From S2P Require Import Prelude Text Platform Civil Domain Rrule Decimal Session Samples.

Definition MAX_TITLE_CHARS : nat := 500.
Definition MAX_NOTES_CHARS : nat := Z.to_nat 100000.
Definition MAX_DURATION_SECONDS : N := 366 * 24 * 60 * 60.
Definition MAX_DEADLINE_SOFT_WEIGHT : N := 1000000.
Definition MAX_DEADLINE_YEAR : Z := 9999.
Definition MAX_BLOCKED_REASON_CHARS : nat := 1000.
Definition MAX_SIBLING_ORDER : N := 1000000.
Definition MAX_RECURRENCE_BYTES : N := 16 * 1024.
Definition MAX_SCHEDULING_METADATA_BYTES : N := 32 * 1024.

(** ** Enumerations *)

Module ItemKind.
Inductive ItemKind : Type := Event | Task | Habit | Routine | Goal | Project | Break.
End ItemKind.
Abbreviation ItemKind := ItemKind.ItemKind.

#[export] Instance ItemKind_eq_dec : EqDecision ItemKind.
Proof. solve_decision. Defined.

(** [ItemKind::has_executable_component] *)
Definition has_executable_component (kind : ItemKind) (has_own_effort : bool) : bool :=
  match kind with ItemKind.Project | ItemKind.Goal | ItemKind.Routine => has_own_effort | _ => true end.

Module ItemStatus.
Inductive ItemStatus : Type :=
| Inbox | Planned | Scheduled | InProgress | Paused | Completed | Skipped | Cancelled | Blocked.
End ItemStatus.
Abbreviation ItemStatus := ItemStatus.ItemStatus.

#[export] Instance ItemStatus_eq_dec : EqDecision ItemStatus.
Proof. solve_decision. Defined.

(** [is_terminal], [prevents_execution] and [is_executing_state] *)
Definition is_terminal (status : ItemStatus) : bool :=
  match status with ItemStatus.Completed | ItemStatus.Skipped | ItemStatus.Cancelled => true | _ => false end.

Definition prevents_execution (status : ItemStatus) : bool :=
  is_terminal status || bool_decide (status = ItemStatus.Blocked).

Definition is_executing_state (status : ItemStatus) : bool :=
  match status with
  | ItemStatus.Scheduled | ItemStatus.InProgress | ItemStatus.Paused | ItemStatus.Completed | ItemStatus.Skipped
  | ItemStatus.Cancelled => true
  | _ => false
  end.

Module DurationKind.
Inductive DurationKind : Type := Unknown | Exact | Range.
End DurationKind.
Abbreviation DurationKind := DurationKind.DurationKind.

Module DurationSource.
Inductive DurationSource : Type := User | Assistant | Learned | Imported.
End DurationSource.
Abbreviation DurationSource := DurationSource.DurationSource.

Module DeadlineKind.
Inductive DeadlineKind : Type := None_ | Date_ | DateTime_.
End DeadlineKind.
Abbreviation DeadlineKind := DeadlineKind.DeadlineKind.

Module DeadlineStrength.
Inductive DeadlineStrength : Type := Hard | Soft.
End DeadlineStrength.
Abbreviation DeadlineStrength := DeadlineStrength.DeadlineStrength.

Module BlockedReasonKind.
Inductive BlockedReasonKind : Type := Dependency | Manual | External.
End BlockedReasonKind.
Abbreviation BlockedReasonKind := BlockedReasonKind.BlockedReasonKind.

Module SplitPolicy.
Inductive SplitPolicy : Type :=
| Indivisible
| Splittable (minimum_chunk_seconds maximum_chunk_seconds : N).
End SplitPolicy.
Abbreviation SplitPolicy := SplitPolicy.SplitPolicy.

#[export] Instance DurationKind_eq_dec : EqDecision DurationKind.
Proof. solve_decision. Defined.
#[export] Instance DurationSource_eq_dec : EqDecision DurationSource.
Proof. solve_decision. Defined.
#[export] Instance DeadlineKind_eq_dec : EqDecision DeadlineKind.
Proof. solve_decision. Defined.
#[export] Instance DeadlineStrength_eq_dec : EqDecision DeadlineStrength.
Proof. solve_decision. Defined.
#[export] Instance BlockedReasonKind_eq_dec : EqDecision BlockedReasonKind.
Proof. solve_decision. Defined.
#[export] Instance SplitPolicy_eq_dec : EqDecision SplitPolicy.
Proof. solve_decision. Defined.

(** ** Errors *)

Inductive ItemDomainError : Type :=
| TitleRequired
| TitleTooLong
| NotesTooLong
| InvalidTimezone
| InvalidDuration
| InvalidDurationShape
| InvalidDeadlineShape
| InvalidTimeWindow
| InvalidRecurrence
| InvalidFlexibleConstraints
| InvalidSchedulingMetadata (message : string)
| InvalidCustomRecurrenceAnchor (anchor_date week_starts_on reason : string)
| InvalidSplitPolicy
| InvalidPriority
| ConflictingOwnEffort
| InvalidBlockedReason
| InvalidSiblingOrder
| RevisionOverflow.

(** ** What other crates provide *)

Inductive LocalResult : Type :=
| Single (t : DateTime)
| Ambiguous (first second : DateTime)
| NoTime.

Class ItemFormats : Type := {
  (** [serde_json::Value] and the functions on it *)
  Value : Type;
  Value_eq_dec :: EqDecision Value;
  empty_object : Value;
  bool_value : bool → Value;
  value_get : Value → string → option Value;
  value_as_bool : Value → option bool;
  value_is_object : Value → bool;
  value_len : Value → nat;
  value_insert : Value → string → Value → Value;
  value_remove : Value → string → Value;
  encoded_length : Value → option N;
  (** the decoders and encoders that serde derives *)
  decode_dependencies : Value → option (list Dependency);
  encode_dependencies : list Dependency → option Value;
  encode_recurrence : Recurrence → result string Value;
  (** [chrono_tz::Tz]: parsing, local midnights and local dates *)
  Tz : Type;
  tz_from_str : string → option Tz;
  local_midnight : Tz → Date → LocalResult;
  local_date : Tz → DateTime → Date;
  (** [NaiveDate]: its year, the next date, and [time::Date::from_ordinal_date] of it *)
  naive_year : Date → Z;
  naive_succ : Date → option Date;
  to_time_date : Date → option Date
}.

(** [validate_scheduling_metadata] of dayweave-compose *)
Record SchedulingMetadataInput `{ItemFormats} : Type := {
  sm_item_id : Uuid;
  sm_kind : ItemKind;
  sm_status : ItemStatus;
  sm_timezone_name : string;
  sm_duration_seconds : option N;
  sm_deadline_at : option DateTime;
  sm_earliest_start_at : option DateTime;
  sm_recurrence : option Value;
  sm_flexible_constraints : Value;
  sm_split_policy : SplitPolicy;
  sm_parent_id : option Uuid
}.

Class SchedulingMetadata `{ItemFormats} : Type := {
  (** the validated recurrence, or the text of the error *)
  validate_scheduling_metadata : SchedulingMetadataInput → result string (option Recurrence)
}.

(** What [serde_json::Map] and serde's derived code promise *)
Class ItemFormatLaws `{ItemFormats} : Prop := {
  value_get_object : ∀ v k x, value_get v k = Some x → value_is_object v = true;
  value_get_insert : ∀ v k x k', value_is_object v = true →
    value_get (value_insert v k x) k' = if bool_decide (k' = k) then Some x else value_get v k';
  value_get_remove : ∀ v k k', value_is_object v = true →
    value_get (value_remove v k) k' = if bool_decide (k' = k) then None else value_get v k';
  value_insert_object : ∀ v k x, value_is_object v = true → value_is_object (value_insert v k x) = true;
  value_remove_object : ∀ v k, value_is_object v = true → value_is_object (value_remove v k) = true;
  empty_object_object : value_is_object empty_object = true;
  bool_value_as_bool : ∀ b, value_as_bool (bool_value b) = Some b;
  decode_encode_dependencies : ∀ l v, encode_dependencies l = Some v → decode_dependencies v = Some l
}.

(** ** Items *)

Section items.
Context `{ItemFormats}.

Record Item : Type := {
  it_id : Uuid;
  it_is_sensitive : bool;
  it_kind : ItemKind;
  it_status : ItemStatus;
  it_title : string;
  it_notes : option string;
  it_timezone_name : string;
  it_duration_kind : DurationKind;
  it_duration_seconds : option N;
  it_duration_min_seconds : option N;
  it_duration_max_seconds : option N;
  it_duration_source : option DurationSource;
  it_deadline_kind : DeadlineKind;
  it_deadline_date : option Date;
  it_deadline_at : option DateTime;
  it_deadline_strength : option DeadlineStrength;
  it_deadline_soft_weight : option N;
  it_earliest_start_at : option DateTime;
  it_recurrence : option Value;
  it_flexible_constraints : Value;
  it_has_own_effort : bool;
  it_split_policy : SplitPolicy;
  it_importance : N;
  it_urgency : N;
  it_parent_id : option Uuid;
  it_sibling_order : N;
  it_is_executable : bool;
  it_revision : N;
  it_created_at : DateTime;
  it_updated_at : DateTime;
  it_completed_at : option DateTime;
  it_deleted_at : option DateTime;
  it_blocked_reason_kind : option BlockedReasonKind;
  it_blocked_by_item_id : option Uuid;
  it_blocked_reason : option string
}.

(** The fields a client writes: a [ReplaceItem] has exactly these, a [NewItem]
    these and an identifier, and both are copied into [ItemFields]. *)
Record ItemFields : Type := {
  if_is_sensitive : bool;
  if_kind : ItemKind;
  if_status : ItemStatus;
  if_title : string;
  if_notes : option string;
  if_timezone_name : string;
  if_duration_kind : option DurationKind;
  if_duration_seconds : option N;
  if_duration_min_seconds : option N;
  if_duration_max_seconds : option N;
  if_duration_source : option DurationSource;
  if_deadline_kind : option DeadlineKind;
  if_deadline_date : option Date;
  if_deadline_at : option DateTime;
  if_deadline_strength : option DeadlineStrength;
  if_deadline_soft_weight : option N;
  if_earliest_start_at : option DateTime;
  if_recurrence : option Value;
  if_flexible_constraints : Value;
  if_has_own_effort : option bool;
  if_split_policy : SplitPolicy;
  if_importance : N;
  if_urgency : N;
  if_parent_id : option Uuid;
  if_sibling_order : N;
  if_blocked_reason_kind : option BlockedReasonKind;
  if_blocked_by_item_id : option Uuid;
  if_blocked_reason : option string
}.

Definition ReplaceItem : Type := ItemFields.

Record NewItem : Type := { ni_id : Uuid; ni_fields : ItemFields }.

(** [ReplaceItem::may_remove_executable_component] *)
Definition may_remove_executable_component (r : ReplaceItem) : bool :=
  let requested :=
    match if_has_own_effort r with
    | Some b => Some b
    | None => value ← value_get (if_flexible_constraints r) "has_own_effort"; value_as_bool value
    end in
  negb (has_executable_component (if_kind r) (default false requested)).

(** ** Normal forms *)

Record NormalizedDuration : Type := {
  nd_kind : DurationKind;
  nd_expected : option N;
  nd_minimum : option N;
  nd_maximum : option N;
  nd_source : option DurationSource
}.

Definition bounded_seconds (value : N) : bool := (1 <=? value)%N && (value <=? MAX_DURATION_SECONDS)%N.

Definition is_some {A} (o : option A) : bool := match o with Some _ => true | None => false end.

(** [value.is_some_and(|value| value != expected)] *)
Definition differs (value : option N) (expected : N) : bool :=
  match value with Some v => negb (v =? expected)%N | None => false end.

Definition duration_kind_of (kind : option DurationKind) (expected minimum maximum : option N) (source : option DurationSource)
    : result ItemDomainError DurationKind :=
  match kind with
  | Some kind => Ok kind
  | None =>
      if is_some minimum || is_some maximum || is_some source then Err InvalidDurationShape
      else Ok (if is_some expected then DurationKind.Exact else DurationKind.Unknown)
  end.

Definition normalize_duration (kind : option DurationKind) (expected minimum maximum : option N) (source : option DurationSource)
    : result ItemDomainError NormalizedDuration :=
  let? kind := duration_kind_of kind expected minimum maximum source in
  match kind with
  | DurationKind.Unknown =>
      if is_some expected || is_some minimum || is_some maximum || is_some source then Err InvalidDurationShape
      else Ok {| nd_kind := kind; nd_expected := None; nd_minimum := None; nd_maximum := None; nd_source := None |}
  | DurationKind.Exact =>
      let? expected := ok_or expected InvalidDurationShape in
      if negb (bounded_seconds expected) || differs minimum expected || differs maximum expected then Err InvalidDurationShape
      else Ok {| nd_kind := kind; nd_expected := Some expected; nd_minimum := Some expected; nd_maximum := Some expected;
                 nd_source := Some (default DurationSource.User source) |}
  | DurationKind.Range =>
      match expected, minimum, maximum with
      | Some expected, Some minimum, Some maximum =>
          if negb (bounded_seconds expected) || negb (bounded_seconds minimum) || negb (bounded_seconds maximum) ||
             (expected <? minimum)%N || (maximum <? expected)%N || (minimum =? maximum)%N
          then Err InvalidDurationShape
          else Ok {| nd_kind := kind; nd_expected := Some expected; nd_minimum := Some minimum; nd_maximum := Some maximum;
                     nd_source := Some (default DurationSource.User source) |}
      | _, _, _ => Err InvalidDurationShape
      end
  end.

Record NormalizedDeadline : Type := {
  nl_kind : DeadlineKind;
  nl_date : option Date;
  nl_at : option DateTime;
  nl_strength : option DeadlineStrength;
  nl_soft_weight : option N
}.

Definition deadline_kind_of (item_kind : ItemKind) (kind : option DeadlineKind) (date : option Date) (at_ : option DateTime)
    (strength : option DeadlineStrength) (soft_weight : option N) : result ItemDomainError DeadlineKind :=
  match kind with
  | Some kind => Ok kind
  | None =>
      if is_some date || is_some strength || is_some soft_weight then Err InvalidDeadlineShape
      else if bool_decide (item_kind = ItemKind.Event) then Ok DeadlineKind.None_
      else Ok (if is_some at_ then DeadlineKind.DateTime_ else DeadlineKind.None_)
  end.

Definition normalize_strength (strength : option DeadlineStrength) (soft_weight : option N)
    : result ItemDomainError (DeadlineStrength * option N) :=
  match default DeadlineStrength.Hard strength, soft_weight with
  | DeadlineStrength.Hard, None => Ok (DeadlineStrength.Hard, None)
  | DeadlineStrength.Soft, Some weight =>
      if (weight <=? MAX_DEADLINE_SOFT_WEIGHT)%N then Ok (DeadlineStrength.Soft, Some weight) else Err InvalidDeadlineShape
  | _, _ => Err InvalidDeadlineShape
  end.

Definition deadline_date_ok (date : Date) : bool :=
  (1 <=? naive_year date)%Z && (naive_year date <=? MAX_DEADLINE_YEAR)%Z &&
  match naive_succ date with Some next => (naive_year next <=? MAX_DEADLINE_YEAR)%Z | None => false end.

Definition normalize_deadline (item_kind : ItemKind) (kind : option DeadlineKind) (date : option Date) (at_ : option DateTime)
    (strength : option DeadlineStrength) (soft_weight : option N) : result ItemDomainError NormalizedDeadline :=
  let? kind := deadline_kind_of item_kind kind date at_ strength soft_weight in
  if bool_decide (item_kind = ItemKind.Event) && negb (bool_decide (kind = DeadlineKind.None_)) then Err InvalidDeadlineShape
  else
    match kind with
    | DeadlineKind.None_ =>
        if negb (is_some date) && negb (is_some strength) && negb (is_some soft_weight) &&
           (negb (is_some at_) || bool_decide (item_kind = ItemKind.Event))
        then Ok {| nl_kind := kind; nl_date := None; nl_at := at_; nl_strength := None; nl_soft_weight := None |}
        else Err InvalidDeadlineShape
    | DeadlineKind.Date_ =>
        if match date with Some date => deadline_date_ok date | None => false end && negb (is_some at_) then
          let? (strength, soft_weight) := normalize_strength strength soft_weight in
          Ok {| nl_kind := kind; nl_date := date; nl_at := None; nl_strength := Some strength; nl_soft_weight := soft_weight |}
        else Err InvalidDeadlineShape
    | DeadlineKind.DateTime_ =>
        if negb (is_some date) && is_some at_ then
          let? (strength, soft_weight) := normalize_strength strength soft_weight in
          Ok {| nl_kind := kind; nl_date := None; nl_at := at_; nl_strength := Some strength; nl_soft_weight := soft_weight |}
        else Err InvalidDeadlineShape
    end.

Definition resolve_date_deadline (date : Date) (timezone : Tz) : result ItemDomainError DateTime :=
  let? next := ok_or (naive_succ date) InvalidDeadlineShape in
  match local_midnight timezone next with
  | Single value => Ok value
  | Ambiguous first second => Ok (Z.min first second)
  | NoTime => Err InvalidDeadlineShape
  end.

(** The resolved flag, and the constraints with it written. *)
Definition normalize_has_own_effort (explicit : option bool) (flexible_constraints : Value)
    : result ItemDomainError (bool * Value) :=
  if negb (value_is_object flexible_constraints) then Err InvalidFlexibleConstraints
  else
    let? legacy :=
      match value_get flexible_constraints "has_own_effort" with
      | Some value => let? b := ok_or (value_as_bool value) InvalidFlexibleConstraints in Ok (Some b)
      | None => Ok None
      end in
    if match explicit, legacy with Some a, Some b => negb (bool_decide (a = b)) | _, _ => false end then Err ConflictingOwnEffort
    else
      let resolved := default false (match explicit with Some b => Some b | None => legacy end) in
      Ok (resolved, if resolved && negb (is_some legacy) then value_insert flexible_constraints "has_own_effort" (bool_value true)
                    else flexible_constraints).

Record NormalizedBlocker : Type := {
  nb_kind : option BlockedReasonKind;
  nb_item_id : option Uuid;
  nb_reason : option string
}.

Definition check_blocked_reason (reason : option string) : result ItemDomainError (option string) :=
  match reason with
  | None => Ok None
  | Some value =>
      let value := trim_str value in
      if bool_decide (value = EmptyString) || (MAX_BLOCKED_REASON_CHARS <? length (chars value))%nat ||
         existsb is_control_range (chars value)
      then Err InvalidBlockedReason
      else Ok (Some value)
  end.

Definition blocker_is_valid (item_id : Uuid) (status : ItemStatus) (kind : option BlockedReasonKind)
    (blocked_by_item_id : option Uuid) (reason : option string) : bool :=
  match status, kind, blocked_by_item_id, reason with
  | ItemStatus.Blocked, Some BlockedReasonKind.Dependency, Some blocker_id, _ => negb (blocker_id =? item_id)%N
  | ItemStatus.Blocked, Some (BlockedReasonKind.Manual | BlockedReasonKind.External), None, Some _ => true
  | status, None, None, None => negb (bool_decide (status = ItemStatus.Blocked))
  | _, _, _, _ => false
  end.

Definition normalize_blocker (item_id : Uuid) (status : ItemStatus) (kind : option BlockedReasonKind)
    (blocked_by_item_id : option Uuid) (reason : option string) : result ItemDomainError NormalizedBlocker :=
  let? reason := check_blocked_reason reason in
  if blocker_is_valid item_id status kind blocked_by_item_id reason
  then Ok {| nb_kind := kind; nb_item_id := blocked_by_item_id; nb_reason := reason |}
  else Err InvalidBlockedReason.

(** ** Validation *)

Definition is_legacy_google_task_metadata (value : Value) : bool :=
  value_is_object value && (value_len value =? 1)%nat &&
  match value_get value "google_sync" with Some sync => value_is_object sync | None => false end.

Definition has_legacy_import_evidence (value : Value) : bool :=
  value_is_object value &&
  existsb (λ key, match value_get value key with Some v => value_is_object v | None => false end) ["calendar_event"; "calendar_context"].

Definition split_policy_valid (policy : SplitPolicy) (duration_seconds : option N) : bool :=
  match policy, duration_seconds with
  | SplitPolicy.Indivisible, _ => true
  | SplitPolicy.Splittable _ _, None => false
  | SplitPolicy.Splittable minimum maximum, Some duration =>
      negb ((minimum =? 0)%N || (maximum <? minimum)%N || (duration <? minimum)%N || (duration <? maximum)%N)
  end.

Definition within_length (limit : N) (value : Value) : bool :=
  value_is_object value && match encoded_length value with Some length => (length <=? limit)%N | None => false end.

(** The fields after [normalize_duration], [normalize_deadline],
    [normalize_has_own_effort] and [normalize_blocker]. *)
Definition with_normal_forms (f : ItemFields) (title : string) (d : NormalizedDuration) (l : NormalizedDeadline)
    (effort : bool) (constraints : Value) (b : NormalizedBlocker) : ItemFields :=
  {| if_is_sensitive := if_is_sensitive f; if_kind := if_kind f; if_status := if_status f; if_title := title;
     if_notes := if_notes f; if_timezone_name := if_timezone_name f;
     if_duration_kind := Some (nd_kind d); if_duration_seconds := nd_expected d; if_duration_min_seconds := nd_minimum d;
     if_duration_max_seconds := nd_maximum d; if_duration_source := nd_source d;
     if_deadline_kind := Some (nl_kind l); if_deadline_date := nl_date l; if_deadline_at := nl_at l;
     if_deadline_strength := nl_strength l; if_deadline_soft_weight := nl_soft_weight l;
     if_earliest_start_at := if_earliest_start_at f; if_recurrence := if_recurrence f; if_flexible_constraints := constraints;
     if_has_own_effort := Some effort; if_split_policy := if_split_policy f; if_importance := if_importance f;
     if_urgency := if_urgency f; if_parent_id := if_parent_id f; if_sibling_order := if_sibling_order f;
     if_blocked_reason_kind := nb_kind b; if_blocked_by_item_id := nb_item_id b; if_blocked_reason := nb_reason b |}.

Definition with_recurrence (f : ItemFields) (recurrence : option Value) : ItemFields :=
  {| if_is_sensitive := if_is_sensitive f; if_kind := if_kind f; if_status := if_status f; if_title := if_title f;
     if_notes := if_notes f; if_timezone_name := if_timezone_name f;
     if_duration_kind := if_duration_kind f; if_duration_seconds := if_duration_seconds f;
     if_duration_min_seconds := if_duration_min_seconds f; if_duration_max_seconds := if_duration_max_seconds f;
     if_duration_source := if_duration_source f; if_deadline_kind := if_deadline_kind f; if_deadline_date := if_deadline_date f;
     if_deadline_at := if_deadline_at f; if_deadline_strength := if_deadline_strength f;
     if_deadline_soft_weight := if_deadline_soft_weight f; if_earliest_start_at := if_earliest_start_at f;
     if_recurrence := recurrence; if_flexible_constraints := if_flexible_constraints f; if_has_own_effort := if_has_own_effort f;
     if_split_policy := if_split_policy f; if_importance := if_importance f; if_urgency := if_urgency f;
     if_parent_id := if_parent_id f; if_sibling_order := if_sibling_order f; if_blocked_reason_kind := if_blocked_reason_kind f;
     if_blocked_by_item_id := if_blocked_by_item_id f; if_blocked_reason := if_blocked_reason f |}.

Definition weekday_name (value : DayOfWeek) : string :=
  match value with
  | DayOfWeek.Monday => "monday" | DayOfWeek.Tuesday => "tuesday" | DayOfWeek.Wednesday => "wednesday"
  | DayOfWeek.Thursday => "thursday" | DayOfWeek.Friday => "friday" | DayOfWeek.Saturday => "saturday"
  | DayOfWeek.Sunday => "sunday"
  end.

Context `{Platform, Civil, !SchedulingMetadata}.

Definition all_week_starts : list DayOfWeek :=
  [DayOfWeek.Monday; DayOfWeek.Tuesday; DayOfWeek.Wednesday; DayOfWeek.Thursday; DayOfWeek.Friday; DayOfWeek.Saturday;
   DayOfWeek.Sunday].

Definition validate_custom_recurrence_anchor (rrule : string) (created_at : DateTime) (timezone : Tz)
    : result ItemDomainError unit :=
  let local_creation := local_date timezone created_at in
  let? anchor := ok_or (to_time_date local_creation)
    (InvalidCustomRecurrenceAnchor (date_display local_creation) "unknown" "item creation date is outside the supported calendar") in
  forM (λ week_starts_on,
    map_err (λ error, InvalidCustomRecurrenceAnchor (date_display anchor) (weekday_name week_starts_on) (custom_error_message error))
      (validate_custom_rrule_for_anchor (bytes_of rrule) anchor week_starts_on)) all_week_starts.

(** The checks on text, before the normal forms. *)
Definition check_text (f : ItemFields) : result ItemDomainError (string * Tz) :=
  let title := trim_str (if_title f) in
  if bool_decide (title = EmptyString) then Err TitleRequired
  else if (MAX_TITLE_CHARS <? length (chars title))%nat then Err TitleTooLong
  else if match if_notes f with Some notes => (MAX_NOTES_CHARS <? length (chars notes))%nat | None => false end then Err NotesTooLong
  else let? timezone := ok_or (tz_from_str (if_timezone_name f)) InvalidTimezone in Ok (title, timezone).

(** The checks on the normal forms, up to the scheduling metadata. *)
Definition check_fields (f : ItemFields) (effective_deadline_at : option DateTime) : result ItemDomainError unit :=
  if match if_earliest_start_at f, effective_deadline_at with Some e, Some d => (d <=? e)%Z | _, _ => false end then Err InvalidTimeWindow
  else if match if_recurrence f with Some value => negb (within_length MAX_RECURRENCE_BYTES value) | None => false end
  then Err InvalidRecurrence
  else if negb (within_length MAX_SCHEDULING_METADATA_BYTES (if_flexible_constraints f)) then Err InvalidFlexibleConstraints
  else if negb (split_policy_valid (if_split_policy f) (if_duration_seconds f)) then Err InvalidSplitPolicy
  else if (100 <? if_importance f)%N || (100 <? if_urgency f)%N then Err InvalidPriority
  else if (MAX_SIBLING_ORDER <? if_sibling_order f)%N then Err InvalidSiblingOrder
  else Ok tt.

(** The constraints whose semantics are checked: a preserved legacy object of a
    task stands for an empty one. *)
Definition scheduling_constraints (f : ItemFields) (preserved : option Value) : Value :=
  if match preserved with
     | Some current => bool_decide (current = if_flexible_constraints f) && is_legacy_google_task_metadata current
     | None => false
     end && bool_decide (if_kind f = ItemKind.Task)
  then empty_object else if_flexible_constraints f.

Definition metadata_input (item_id : Uuid) (f : ItemFields) (preserved : option Value) (effective_deadline_at : option DateTime)
    : SchedulingMetadataInput :=
  {| sm_item_id := item_id; sm_kind := if_kind f; sm_status := if_status f; sm_timezone_name := if_timezone_name f;
     sm_duration_seconds := if_duration_seconds f; sm_deadline_at := effective_deadline_at;
     sm_earliest_start_at := if_earliest_start_at f; sm_recurrence := if_recurrence f;
     sm_flexible_constraints := scheduling_constraints f preserved; sm_split_policy := if_split_policy f;
     sm_parent_id := if_parent_id f |}.

Definition encoded_recurrence (recurrence : option Recurrence) : result ItemDomainError (option Value) :=
  match recurrence with
  | None => Ok None
  | Some recurrence =>
      let? value := map_err (λ error, InvalidSchedulingMetadata (String.append "canonical recurrence could not be encoded: " error))
        (encode_recurrence recurrence) in
      Ok (Some value)
  end.

(** [ItemFields::validate] *)
Definition validate_fields (f : ItemFields) (item_id : Uuid) (preserved : option Value) (created_at : DateTime)
    : result ItemDomainError ItemFields :=
  let? (title, timezone) := check_text f in
  let? duration := normalize_duration (if_duration_kind f) (if_duration_seconds f) (if_duration_min_seconds f)
    (if_duration_max_seconds f) (if_duration_source f) in
  let? deadline := normalize_deadline (if_kind f) (if_deadline_kind f) (if_deadline_date f) (if_deadline_at f)
    (if_deadline_strength f) (if_deadline_soft_weight f) in
  let? effective_deadline_at :=
    match nl_kind deadline with
    | DeadlineKind.Date_ =>
        let? date := ok_or (nl_date deadline) InvalidDeadlineShape in
        let? at_ := resolve_date_deadline date timezone in Ok (Some at_)
    | _ => Ok (nl_at deadline)
    end in
  let? (effort, constraints) := normalize_has_own_effort (if_has_own_effort f) (if_flexible_constraints f) in
  let? blocker := normalize_blocker item_id (if_status f) (if_blocked_reason_kind f) (if_blocked_by_item_id f) (if_blocked_reason f) in
  let f := with_normal_forms f title duration deadline effort constraints blocker in
  let? _ := check_fields f effective_deadline_at in
  let? recurrence := map_err InvalidSchedulingMetadata
    (validate_scheduling_metadata (metadata_input item_id f preserved effective_deadline_at)) in
  let? _ := match recurrence with
            | Some (Custom rrule) => validate_custom_recurrence_anchor rrule created_at timezone
            | _ => Ok tt
            end in
  let? recurrence := encoded_recurrence recurrence in
  Ok (with_recurrence f recurrence).

(** ** The life of an item *)

(** Whole microseconds, as PostgreSQL stores instants. *)
Definition canonical_storage_instant (value : DateTime) : DateTime := (value - (value mod nanos_per_second) mod 1000)%Z.

(** [execution_is_allowed] *)
Definition execution_is_allowed (item : Item) (has_active_children : bool) : bool :=
  negb (is_some (it_deleted_at item)) && negb has_active_children &&
  has_executable_component (it_kind item) (it_has_own_effort item).

(** An item with validated fields *)
Definition of_fields (id : Uuid) (f : ItemFields) (duration_kind : DurationKind) (deadline_kind : DeadlineKind)
    (has_own_effort is_executable : bool) (revision : N) (created_at updated_at : DateTime)
    (completed_at deleted_at : option DateTime) : Item :=
  {| it_id := id; it_is_sensitive := if_is_sensitive f; it_kind := if_kind f; it_status := if_status f; it_title := if_title f;
     it_notes := if_notes f; it_timezone_name := if_timezone_name f; it_duration_kind := duration_kind;
     it_duration_seconds := if_duration_seconds f; it_duration_min_seconds := if_duration_min_seconds f;
     it_duration_max_seconds := if_duration_max_seconds f; it_duration_source := if_duration_source f;
     it_deadline_kind := deadline_kind; it_deadline_date := if_deadline_date f; it_deadline_at := if_deadline_at f;
     it_deadline_strength := if_deadline_strength f; it_deadline_soft_weight := if_deadline_soft_weight f;
     it_earliest_start_at := if_earliest_start_at f; it_recurrence := if_recurrence f;
     it_flexible_constraints := if_flexible_constraints f; it_has_own_effort := has_own_effort;
     it_split_policy := if_split_policy f; it_importance := if_importance f; it_urgency := if_urgency f;
     it_parent_id := if_parent_id f; it_sibling_order := if_sibling_order f; it_is_executable := is_executable;
     it_revision := revision; it_created_at := created_at; it_updated_at := updated_at; it_completed_at := completed_at;
     it_deleted_at := deleted_at; it_blocked_reason_kind := if_blocked_reason_kind f;
     it_blocked_by_item_id := if_blocked_by_item_id f; it_blocked_reason := if_blocked_reason f |}.

(** [Item::new] *)
Definition new_item (input : NewItem) (now : DateTime) : result ItemDomainError Item :=
  let now := canonical_storage_instant now in
  let? f := validate_fields (ni_fields input) (ni_id input) None now in
  let? duration_kind := ok_or (if_duration_kind f) InvalidDurationShape in
  let? deadline_kind := ok_or (if_deadline_kind f) InvalidDeadlineShape in
  let? effort := ok_or (if_has_own_effort f) InvalidFlexibleConstraints in
  Ok (of_fields (ni_id input) f duration_kind deadline_kind effort (has_executable_component (if_kind f) effort) 1 now now
        (if bool_decide (if_status f = ItemStatus.Completed) then Some now else None) None).

Definition next_item_revision (item : Item) : result ItemDomainError N := ok_or (checked_add u64_max (it_revision item) 1) RevisionOverflow.

(** [Item::replaced]; an absent kind or flag panics in the code and cannot occur. *)
Definition replaced (item : Item) (input : ReplaceItem) (now : DateTime) : result ItemDomainError Item :=
  let now := canonical_storage_instant now in
  let? f := validate_fields input (it_id item) (Some (it_flexible_constraints item)) (it_created_at item) in
  let? revision := next_item_revision item in
  let effort := default false (if_has_own_effort f) in
  Ok (of_fields (it_id item) f (default DurationKind.Unknown (if_duration_kind f)) (default DeadlineKind.None_ (if_deadline_kind f))
        effort (it_is_executable item && has_executable_component (if_kind f) effort) revision (it_created_at item) now
        (if bool_decide (if_status f = ItemStatus.Completed)
         then Some (default now (it_completed_at item)) else None)
        (it_deleted_at item)).

(** What trashing, restoring and refreshing change. *)
Definition touched (item : Item) (revision : N) (now : DateTime) (deleted_at : option DateTime) (is_executable : bool) : Item :=
  {| it_id := it_id item; it_is_sensitive := it_is_sensitive item; it_kind := it_kind item; it_status := it_status item;
     it_title := it_title item; it_notes := it_notes item; it_timezone_name := it_timezone_name item;
     it_duration_kind := it_duration_kind item; it_duration_seconds := it_duration_seconds item;
     it_duration_min_seconds := it_duration_min_seconds item; it_duration_max_seconds := it_duration_max_seconds item;
     it_duration_source := it_duration_source item; it_deadline_kind := it_deadline_kind item;
     it_deadline_date := it_deadline_date item; it_deadline_at := it_deadline_at item;
     it_deadline_strength := it_deadline_strength item; it_deadline_soft_weight := it_deadline_soft_weight item;
     it_earliest_start_at := it_earliest_start_at item; it_recurrence := it_recurrence item;
     it_flexible_constraints := it_flexible_constraints item; it_has_own_effort := it_has_own_effort item;
     it_split_policy := it_split_policy item; it_importance := it_importance item; it_urgency := it_urgency item;
     it_parent_id := it_parent_id item; it_sibling_order := it_sibling_order item; it_is_executable := is_executable;
     it_revision := revision; it_created_at := it_created_at item; it_updated_at := now;
     it_completed_at := it_completed_at item; it_deleted_at := deleted_at; it_blocked_reason_kind := it_blocked_reason_kind item;
     it_blocked_by_item_id := it_blocked_by_item_id item; it_blocked_reason := it_blocked_reason item |}.

Definition trashed (item : Item) (now : DateTime) : result ItemDomainError Item :=
  let now := canonical_storage_instant now in
  let? revision := next_item_revision item in
  Ok (touched item revision now (Some now) false).

Definition restored (item : Item) (now : DateTime) : result ItemDomainError Item :=
  let now := canonical_storage_instant now in
  let? revision := next_item_revision item in
  Ok (touched item revision now None (it_is_executable item)).

Definition refreshed_execution (item : Item) (has_active_children : bool) (now : DateTime) : result ItemDomainError Item :=
  let now := canonical_storage_instant now in
  let? revision := next_item_revision item in
  Ok (touched item revision now (it_deleted_at item) (execution_is_allowed item has_active_children)).

(** [Item::dependencies] *)
Definition item_dependencies (item : Item) : result ItemDomainError (list Dependency) :=
  match (constraints ← value_get (it_flexible_constraints item) "constraints"; value_get constraints "dependencies") with
  | None => Ok []
  | Some value => ok_or (decode_dependencies value) InvalidFlexibleConstraints
  end.

Definition with_constraints (item : Item) (constraints : Value) : Item :=
  {| it_id := it_id item; it_is_sensitive := it_is_sensitive item; it_kind := it_kind item; it_status := it_status item;
     it_title := it_title item; it_notes := it_notes item; it_timezone_name := it_timezone_name item;
     it_duration_kind := it_duration_kind item; it_duration_seconds := it_duration_seconds item;
     it_duration_min_seconds := it_duration_min_seconds item; it_duration_max_seconds := it_duration_max_seconds item;
     it_duration_source := it_duration_source item; it_deadline_kind := it_deadline_kind item;
     it_deadline_date := it_deadline_date item; it_deadline_at := it_deadline_at item;
     it_deadline_strength := it_deadline_strength item; it_deadline_soft_weight := it_deadline_soft_weight item;
     it_earliest_start_at := it_earliest_start_at item; it_recurrence := it_recurrence item;
     it_flexible_constraints := constraints; it_has_own_effort := it_has_own_effort item;
     it_split_policy := it_split_policy item; it_importance := it_importance item; it_urgency := it_urgency item;
     it_parent_id := it_parent_id item; it_sibling_order := it_sibling_order item; it_is_executable := it_is_executable item;
     it_revision := it_revision item; it_created_at := it_created_at item; it_updated_at := it_updated_at item;
     it_completed_at := it_completed_at item; it_deleted_at := it_deleted_at item;
     it_blocked_reason_kind := it_blocked_reason_kind item; it_blocked_by_item_id := it_blocked_by_item_id item;
     it_blocked_reason := it_blocked_reason item |}.

(** [Item::project_dependencies]; a field changed in place is inserted again. *)
Definition project_dependencies (item : Item) (dependencies : list Dependency) : result ItemDomainError Item :=
  let root := it_flexible_constraints item in
  if negb (value_is_object root) then Err InvalidFlexibleConstraints
  else
    match dependencies with
    | [] =>
        match value_get root "constraints" with
        | None => Ok item
        | Some constraints =>
            if negb (value_is_object constraints) then Err InvalidFlexibleConstraints
            else
              let constraints := value_remove constraints "dependencies" in
              Ok (with_constraints item
                    (if (value_len constraints =? 0)%nat then value_remove root "constraints" else value_insert root "constraints" constraints))
        end
    | _ =>
        let? encoded := ok_or (encode_dependencies dependencies) InvalidFlexibleConstraints in
        let constraints := default empty_object (value_get root "constraints") in
        if negb (value_is_object constraints) then Err InvalidFlexibleConstraints
        else Ok (with_constraints item (value_insert root "constraints" (value_insert constraints "dependencies" encoded)))
    end.

Definition constraints_without_dependencies (item : Item) : result ItemDomainError Value :=
  let? projected := project_dependencies item [] in Ok (it_flexible_constraints projected).

(** ** Stored items *)

(** The stored form of an item: [ItemWire] has the fields of [ItemFields] and
    those that a client cannot write. *)
Record ItemWire : Type := {
  iw_id : Uuid;
  iw_fields : ItemFields;
  iw_is_executable : bool;
  iw_revision : N;
  iw_created_at : DateTime;
  iw_updated_at : DateTime;
  iw_completed_at : option DateTime;
  iw_deleted_at : option DateTime
}.

(** Serialisation writes every field of an item. *)
Definition item_fields (item : Item) : ItemFields :=
  {| if_is_sensitive := it_is_sensitive item; if_kind := it_kind item; if_status := it_status item; if_title := it_title item;
     if_notes := it_notes item; if_timezone_name := it_timezone_name item; if_duration_kind := Some (it_duration_kind item);
     if_duration_seconds := it_duration_seconds item; if_duration_min_seconds := it_duration_min_seconds item;
     if_duration_max_seconds := it_duration_max_seconds item; if_duration_source := it_duration_source item;
     if_deadline_kind := Some (it_deadline_kind item); if_deadline_date := it_deadline_date item;
     if_deadline_at := it_deadline_at item; if_deadline_strength := it_deadline_strength item;
     if_deadline_soft_weight := it_deadline_soft_weight item; if_earliest_start_at := it_earliest_start_at item;
     if_recurrence := it_recurrence item; if_flexible_constraints := it_flexible_constraints item;
     if_has_own_effort := Some (it_has_own_effort item); if_split_policy := it_split_policy item;
     if_importance := it_importance item; if_urgency := it_urgency item; if_parent_id := it_parent_id item;
     if_sibling_order := it_sibling_order item; if_blocked_reason_kind := it_blocked_reason_kind item;
     if_blocked_by_item_id := it_blocked_by_item_id item; if_blocked_reason := it_blocked_reason item |}.

Definition wire_of_item (item : Item) : ItemWire :=
  {| iw_id := it_id item; iw_fields := item_fields item; iw_is_executable := it_is_executable item;
     iw_revision := it_revision item; iw_created_at := it_created_at item; iw_updated_at := it_updated_at item;
     iw_completed_at := it_completed_at item; iw_deleted_at := it_deleted_at item |}.

(** A row from before the typed durations, imported from a calendar *)
Definition is_legacy_import (f : ItemFields) : bool :=
  negb (is_some (if_duration_source f)) && negb (is_some (if_duration_kind f)) && is_some (if_duration_seconds f) &&
  has_legacy_import_evidence (if_flexible_constraints f).

(** [Item::try_from]; the code returns the text of the error. *)
Definition item_of_wire (w : ItemWire) : result ItemDomainError Item :=
  let f := iw_fields w in
  let legacy_import := is_legacy_import f in
  let duration_kind := match if_duration_kind f with
                       | Some kind => Some kind
                       | None => if legacy_import then Some DurationKind.Exact else None
                       end in
  let duration_source := match if_duration_source f with
                         | Some source => Some source
                         | None => if legacy_import then Some DurationSource.Imported else None
                         end in
  let? duration := normalize_duration duration_kind (if_duration_seconds f) (if_duration_min_seconds f) (if_duration_max_seconds f)
    duration_source in
  let? deadline := normalize_deadline (if_kind f) (if_deadline_kind f) (if_deadline_date f) (if_deadline_at f)
    (if_deadline_strength f) (if_deadline_soft_weight f) in
  let? (effort, constraints) := normalize_has_own_effort (if_has_own_effort f) (if_flexible_constraints f) in
  let? blocker := normalize_blocker (iw_id w) (if_status f) (if_blocked_reason_kind f) (if_blocked_by_item_id f) (if_blocked_reason f) in
  let fields := with_normal_forms f (if_title f) duration deadline effort constraints blocker in
  Ok (of_fields (iw_id w) fields (nd_kind duration) (nl_kind deadline) effort
        (iw_is_executable w && has_executable_component (if_kind f) effort) (iw_revision w) (iw_created_at w) (iw_updated_at w)
        (iw_completed_at w) (iw_deleted_at w)).
End items.
