(* ===== verification/CompletionPolicy.v ===== *)
(** * CompletionPolicy: the server's completion policy over the hierarchy

    server/dayweave-api/src/item_completion/domain.rs: the stored completion
    state of an item, and [plan_item_completion], which evaluates the forest of
    active items with the core's [evaluate_hierarchy_completion] (Completion) and
    turns its decisions into effects on items and states.  serde_json and SHA-256
    are the interface [CompletionDigest].

    The theorems are in Effects. *)
From S2P Require Import Prelude Text Platform Domain Decimal Progress Completion Session ItemDomain.

Definition MAX_COMPLETION_ITEMS : nat := Z.to_nat 20000.
Definition MAX_COMPLETION_PAYLOAD_BYTES : N := 32 * 1024 * 1024.

(** ** Data *)

Module ItemCompletionError.
Inductive ItemCompletionError : Type :=
| Invalid
| ItemMissing
| ItemStale
| CompletionStale
| EvidenceStale
| OperationReused
| ParentRequired
| ReopeningReviewRequired
| OccurrenceEvidenceRequired
| ExecutionConflict
| TooLarge
| Unavailable.
End ItemCompletionError.
Abbreviation ItemCompletionError := ItemCompletionError.ItemCompletionError.
Import ItemCompletionError.

Module ItemCompletionMode.
Inductive ItemCompletionMode : Type := Automatic | KeepOpen | Complete.
End ItemCompletionMode.
Abbreviation ItemCompletionMode := ItemCompletionMode.ItemCompletionMode.

Module ProvenanceKind.
Inductive ItemCompletionProvenanceKind : Type := Automatic | Manual.
End ProvenanceKind.
Abbreviation ItemCompletionProvenanceKind := ProvenanceKind.ItemCompletionProvenanceKind.

#[export] Instance ItemCompletionMode_eq_dec : EqDecision ItemCompletionMode.
Proof. solve_decision. Defined.
#[export] Instance ItemCompletionProvenanceKind_eq_dec : EqDecision ItemCompletionProvenanceKind.
Proof. solve_decision. Defined.

Record ItemCompletionReopenState : Type := {
  ro_status : ItemStatus;
  ro_blocked_reason_kind : option BlockedReasonKind;
  ro_blocked_by_item_id : option Uuid;
  ro_blocked_reason : option string
}.

Record ItemCompletionProvenance : Type := {
  pv_kind : ItemCompletionProvenanceKind;
  pv_reopen : ItemCompletionReopenState
}.

Record ItemCompletionState : Type := {
  cs_item_id : Uuid;
  cs_revision : N;
  cs_required_for_parent : bool;
  cs_mode : ItemCompletionMode;
  cs_provenance : option ItemCompletionProvenance;
  cs_updated_at : option DateTime
}.

#[export] Instance ItemCompletionReopenState_eq_dec : EqDecision ItemCompletionReopenState.
Proof. solve_decision. Defined.
#[export] Instance ItemCompletionProvenance_eq_dec : EqDecision ItemCompletionProvenance.
Proof. solve_decision. Defined.
#[export] Instance ItemCompletionState_eq_dec : EqDecision ItemCompletionState.
Proof. solve_decision. Defined.

Record ItemCompletionCommand : Type := {
  cc_schema_version : N;
  cc_operation_id : Uuid;
  cc_expected_item_revision : N;
  cc_expected_completion_revision : N;
  cc_expected_evidence_hash : string;
  cc_required_for_parent : bool;
  cc_mode : ItemCompletionMode;
  cc_reopening : option ItemCompletionReopenState
}.

#[export] Instance ItemCompletionCommand_eq_dec : EqDecision ItemCompletionCommand.
Proof. solve_decision. Defined.

Record ItemCompletionExecutionEvidence : Type := {
  ce_revision : N;
  ce_live_item_ids : gset Uuid
}.

Record ItemCompletionSnapshot : Type := {
  sc_item_id : Uuid;
  sc_item_revision : N;
  sc_state : ItemCompletionState;
  sc_evidence_hash : string;
  sc_counts : HierarchyCompletionCounts;
  sc_occurrence_evidence_required : bool
}.

(** ** States *)

(** [ItemCompletionReopenState::validate] *)
Definition reopen_reason_ok (reason : option string) : bool :=
  match reason with
  | None => true
  | Some reason =>
      bool_decide (trim_str reason = reason) && negb (bool_decide (reason = EmptyString)) &&
      (length (chars reason) <=? 1000) && negb (existsb is_control_range (chars reason))
  end.

Definition reopen_blocker_ok (s : ItemCompletionReopenState) (item_id : Uuid) : bool :=
  match ro_status s, ro_blocked_reason_kind s, ro_blocked_by_item_id s, ro_blocked_reason s with
  | ItemStatus.Blocked, Some BlockedReasonKind.Dependency, Some id, _ => negb (is_nil id) && negb (id =? item_id)%N
  | ItemStatus.Blocked, Some (BlockedReasonKind.Manual | BlockedReasonKind.External), None, Some _ => true
  | status, None, None, None => negb (bool_decide (status = ItemStatus.Blocked))
  | _, _, _, _ => false
  end.

Definition validate_reopen (s : ItemCompletionReopenState) (item_id : Uuid) : result ItemCompletionError unit :=
  match ro_status s with
  | ItemStatus.Inbox | ItemStatus.Planned | ItemStatus.Blocked =>
      if reopen_reason_ok (ro_blocked_reason s) && reopen_blocker_ok s item_id then Ok tt else Err Invalid
  | _ => Err ReopeningReviewRequired
  end.

(** [ItemCompletionState::empty] *)
Definition empty_completion (item_id : Uuid) : ItemCompletionState :=
  {| cs_item_id := item_id; cs_revision := 0; cs_required_for_parent := true; cs_mode := ItemCompletionMode.Automatic;
     cs_provenance := None; cs_updated_at := None |}.

Definition provenance_matches (mode : ItemCompletionMode) (kind : ItemCompletionProvenanceKind) : bool :=
  match mode, kind with
  | ItemCompletionMode.Automatic, ProvenanceKind.Automatic | ItemCompletionMode.Complete, ProvenanceKind.Manual => true
  | _, _ => false
  end.

(** [ItemCompletionState::validate] *)
Definition validate_completion (s : ItemCompletionState) : result ItemCompletionError unit :=
  if is_nil (cs_item_id s) || (i64_max <? cs_revision s)%N ||
     ((cs_revision s =? 0)%N && negb (bool_decide (s = empty_completion (cs_item_id s)))) ||
     ((0 <? cs_revision s)%N && negb (is_some (cs_updated_at s))) ||
     match cs_updated_at s with Some t => negb (has_postgres_timestamp_precision t) | None => false end ||
     (bool_decide (cs_mode s = ItemCompletionMode.Complete) && negb (is_some (cs_provenance s)))
  then Err Invalid
  else
    match cs_provenance s with
    | None => Ok tt
    | Some provenance =>
        let? _ := validate_reopen (pv_reopen provenance) (cs_item_id s) in
        if provenance_matches (cs_mode s) (pv_kind provenance) then Ok tt else Err Invalid
    end.

Definition is_lower_hex (b : N) : bool := ((48 <=? b) && (b <=? 57) || (97 <=? b) && (b <=? 102))%N.

Definition valid_hash (value : string) : bool :=
  let bytes := bytes_of value in
  bool_decide (take 7 bytes = bytes_of "sha256:") && (length bytes =? 71) && forallb is_lower_hex (drop 7 bytes).

(** [ItemCompletionCommand::validate] *)
Definition validate_completion_command (c : ItemCompletionCommand) (item_id : Uuid) : result ItemCompletionError unit :=
  if negb (cc_schema_version c =? 1)%N || is_nil item_id || is_nil (cc_operation_id c) || (cc_expected_item_revision c =? 0)%N ||
     (i64_max <? cc_expected_item_revision c)%N || (i64_max <? cc_expected_completion_revision c)%N ||
     negb (valid_hash (cc_expected_evidence_hash c))
  then Err Invalid
  else match cc_reopening c with Some reopening => validate_reopen reopening item_id | None => Ok tt end.

Definition core_status (status : ItemStatus) : HierarchyProgressStatus :=
  match status with
  | ItemStatus.Inbox => HierarchyProgressStatus.Inbox
  | ItemStatus.Planned => HierarchyProgressStatus.Planned
  | ItemStatus.Scheduled => HierarchyProgressStatus.Scheduled
  | ItemStatus.InProgress => HierarchyProgressStatus.InProgress
  | ItemStatus.Paused => HierarchyProgressStatus.Paused
  | ItemStatus.Completed => HierarchyProgressStatus.Completed
  | ItemStatus.Skipped => HierarchyProgressStatus.Skipped
  | ItemStatus.Cancelled => HierarchyProgressStatus.Cancelled
  | ItemStatus.Blocked => HierarchyProgressStatus.Blocked
  end.

Definition action_name (action : HierarchyCompletionAction) (command : bool) : string :=
  match action with
  | Action.Unchanged => if command then "policy_reviewed" else "unchanged"
  | Action.OccurrenceEvidenceRequired => "occurrence_evidence_required"
  | Action.AutomaticallyCompleted => "automatically_completed"
  | Action.AutomaticallyReopened => "automatically_reopened"
  | Action.ManuallyCompleted => "manually_completed"
  | Action.ManuallyKeptOpen => "manually_kept_open"
  | Action.ManualCompletionReleased => "manual_completion_released"
  end.

Definition map_core_error (error : HierarchyCompletionError) : ItemCompletionError :=
  match error with
  | HierarchyCompletionError.MissingPriorOpenStatus _ | HierarchyCompletionError.AmbiguousTerminalParent _
  | HierarchyCompletionError.InvalidProvenance _ => ReopeningReviewRequired
  | HierarchyCompletionError.Overflow _ => TooLarge
  | _ => Invalid
  end.

Definition next_completion_revision (revision : N) : result ItemCompletionError N :=
  match checked_add u64_max revision 1 with
  | Some value => if (value <=? i64_max)%N then Ok value else Err Unavailable
  | None => Err Unavailable
  end.

(** [truncate_to_postgres_timestamp_precision] *)
Definition truncate_to_postgres_timestamp_precision (value : DateTime) : DateTime := (value / 1000 * 1000)%Z.

(** ** The forest under review *)

Section plan.
Context `{ItemFormats}.

#[export] Instance Item_eq_dec : EqDecision Item.
Proof. solve_decision. Defined.

(** What serde_json and SHA-256 make of a forest: the length of its JSON, or
    nothing when it cannot be encoded, and the digest of the evidence. *)
Class CompletionDigest : Type := {
  forest_length : list Item → list ItemCompletionState → option N;
  evidence_length : gmap Uuid Item → gmap Uuid ItemCompletionState → ItemCompletionExecutionEvidence → option N;
  evidence_digest : gmap Uuid Item → gmap Uuid ItemCompletionState → ItemCompletionExecutionEvidence → string
}.

(** [BoundedDigest::serialize] *)
Definition bounded_serialize (length : option N) : result ItemCompletionError unit :=
  match length with
  | None => Err Unavailable
  | Some length => if (MAX_COMPLETION_PAYLOAD_BYTES <? length)%N then Err TooLarge else Ok tt
  end.

Record ItemCompletionEffect : Type := {
  ef_before_item : Item;
  ef_after_item : Item;
  ef_before_state : ItemCompletionState;
  ef_after_state : ItemCompletionState;
  ef_reason : string
}.

Record ItemCompletionPlan : Type := {
  pl_effects : list ItemCompletionEffect;
  pl_evaluated_item_ids : list Uuid;
  pl_snapshots : gmap Uuid ItemCompletionSnapshot
}.

Context `{!CompletionDigest}.

Definition index_item (by_id : gmap Uuid Item) (item : Item) : result ItemCompletionError (gmap Uuid Item) :=
  if is_nil (it_id item) || (it_revision item =? 0)%N || (i64_max <? it_revision item)%N || is_some (it_deleted_at item) ||
     is_some (by_id !! it_id item)
  then Err Invalid else Ok (<[it_id item := item]> by_id).

(** One turn of the loop over the states: those supplied, and all by item. *)
Definition index_state (by_id : gmap Uuid Item) (st : gset Uuid * gmap Uuid ItemCompletionState) (state : ItemCompletionState)
    : result ItemCompletionError (gset Uuid * gmap Uuid ItemCompletionState) :=
  let? _ := validate_completion state in
  if negb (is_some (by_id !! cs_item_id state)) || bool_decide (cs_item_id state ∈ st.1) then Err Invalid
  else Ok ({[cs_item_id state]} ∪ st.1, <[cs_item_id state := state]> st.2).

(** [index] *)
Definition index_forest (items : list Item) (states : list ItemCompletionState)
    : result ItemCompletionError (gmap Uuid Item * gmap Uuid ItemCompletionState) :=
  if (MAX_COMPLETION_ITEMS <? length items) || (MAX_COMPLETION_ITEMS <? length states) then Err TooLarge
  else
    let? _ := bounded_serialize (forest_length items states) in
    let? by_id := foldM index_item ∅ items in
    let? (_, indexed) := foldM (index_state by_id) (∅, map_imap (λ id _, Some (empty_completion id)) by_id) states in
    Ok (by_id, indexed).

(** [item_completion_evidence_hash] *)
Definition item_completion_evidence_hash (items : list Item) (states : list ItemCompletionState)
    (execution : ItemCompletionExecutionEvidence) : result ItemCompletionError string :=
  let? (by_id, indexed) := index_forest items states in
  if (i64_max <? ce_revision execution)%N || bool_decide (0%N ∈ ce_live_item_ids execution) then Err Invalid
  else if (MAX_COMPLETION_ITEMS <? size (ce_live_item_ids execution)) then Err TooLarge
  else
    let? _ := bounded_serialize (evidence_length by_id indexed execution) in
    Ok (String.append "sha256:" (evidence_digest by_id indexed execution)).

(** ** The command *)

(** The tuple of status and blocker of an item, and its stamps. *)
Definition with_lifecycle (item : Item) (status : ItemStatus) (completed_at : option DateTime)
    (reason_kind : option BlockedReasonKind) (blocked_by : option Uuid) (reason : option string) : Item :=
  {| it_id := it_id item; it_is_sensitive := it_is_sensitive item; it_kind := it_kind item; it_status := status;
     it_title := it_title item; it_notes := it_notes item; it_timezone_name := it_timezone_name item;
     it_duration_kind := it_duration_kind item; it_duration_seconds := it_duration_seconds item;
     it_duration_min_seconds := it_duration_min_seconds item; it_duration_max_seconds := it_duration_max_seconds item;
     it_duration_source := it_duration_source item; it_deadline_kind := it_deadline_kind item;
     it_deadline_date := it_deadline_date item; it_deadline_at := it_deadline_at item;
     it_deadline_strength := it_deadline_strength item; it_deadline_soft_weight := it_deadline_soft_weight item;
     it_earliest_start_at := it_earliest_start_at item; it_recurrence := it_recurrence item;
     it_flexible_constraints := it_flexible_constraints item; it_has_own_effort := it_has_own_effort item;
     it_split_policy := it_split_policy item; it_importance := it_importance item; it_urgency := it_urgency item;
     it_parent_id := it_parent_id item; it_sibling_order := it_sibling_order item; it_is_executable := it_is_executable item;
     it_revision := it_revision item; it_created_at := it_created_at item; it_updated_at := it_updated_at item;
     it_completed_at := completed_at; it_deleted_at := it_deleted_at item; it_blocked_reason_kind := reason_kind;
     it_blocked_by_item_id := blocked_by; it_blocked_reason := reason |}.

(** [ItemCompletionReopenState::apply_to] and [from_item] *)
Definition reopen_item (s : ItemCompletionReopenState) (item : Item) : Item :=
  with_lifecycle item (ro_status s) None (ro_blocked_reason_kind s) (ro_blocked_by_item_id s) (ro_blocked_reason s).

Definition reopen_of_item (item : Item) : result ItemCompletionError ItemCompletionReopenState :=
  let state := {| ro_status := it_status item; ro_blocked_reason_kind := it_blocked_reason_kind item;
                  ro_blocked_by_item_id := it_blocked_by_item_id item; ro_blocked_reason := it_blocked_reason item |} in
  let? _ := validate_reopen state (it_id item) in Ok state.

Definition with_policy (s : ItemCompletionState) (required_for_parent : bool) (mode : ItemCompletionMode) : ItemCompletionState :=
  {| cs_item_id := cs_item_id s; cs_revision := cs_revision s; cs_required_for_parent := required_for_parent; cs_mode := mode;
     cs_provenance := cs_provenance s; cs_updated_at := cs_updated_at s |}.

(** The forest the command asks for. *)
Definition prepare_command (parents : gset Uuid) (evidence_hash : string) (id : Uuid) (command : ItemCompletionCommand)
    (forest : gmap Uuid Item * gmap Uuid ItemCompletionState)
    : result ItemCompletionError (gmap Uuid Item * gmap Uuid ItemCompletionState) :=
  let? _ := validate_completion_command command id in
  let? item := ok_or (forest.1 !! id) ItemMissing in
  let? state := ok_or (forest.2 !! id) Unavailable in
  if negb (it_revision item =? cc_expected_item_revision command)%N then Err ItemStale
  else if negb (cs_revision state =? cc_expected_completion_revision command)%N then Err CompletionStale
  else if negb (bool_decide (evidence_hash = cc_expected_evidence_hash command)) then Err EvidenceStale
  else if negb (bool_decide (id ∈ parents)) && bool_decide (cs_mode state = ItemCompletionMode.Automatic) &&
          negb (is_some (cs_provenance state)) && negb (bool_decide (cc_mode command = ItemCompletionMode.Automatic))
  then Err ParentRequired
  else
    let states := <[id := with_policy state (cc_required_for_parent command) (cc_mode command)]> forest.2 in
    match cc_reopening command with
    | None => Ok (forest.1, states)
    | Some reopening =>
        if is_some (cs_provenance state) || negb (is_terminal (it_status item)) || negb (bool_decide (id ∈ parents))
        then Err ReopeningReviewRequired
        else Ok (<[id := reopen_item reopening item]> forest.1, states)
    end.

(** ** Evaluation *)

Definition core_override (mode : ItemCompletionMode) : HierarchyCompletionOverride :=
  match mode with
  | ItemCompletionMode.Automatic => HierarchyCompletionOverride.Automatic
  | ItemCompletionMode.KeepOpen => HierarchyCompletionOverride.KeepOpen
  | ItemCompletionMode.Complete => HierarchyCompletionOverride.Complete
  end.

Definition core_provenance (p : ItemCompletionProvenance) : HierarchyCompletionProvenance :=
  match pv_kind p with
  | ProvenanceKind.Automatic => Provenance.Automatic (core_status (ro_status (pv_reopen p)))
  | ProvenanceKind.Manual => Provenance.Manual (core_status (ro_status (pv_reopen p)))
  end.

Definition state_of (states : gmap Uuid ItemCompletionState) (id : Uuid) : ItemCompletionState :=
  default (empty_completion id) (states !! id).

Definition completion_node (states : gmap Uuid ItemCompletionState) (item : Item) : result ItemCompletionError HierarchyCompletionItem :=
  let state := state_of states (it_id item) in
  if is_some (cs_provenance state) && negb (bool_decide (it_status item = ItemStatus.Completed)) then Err ReopeningReviewRequired
  else
    Ok {| hc_id := it_id item; hc_parent_id := it_parent_id item; hc_status := core_status (it_status item);
          hc_required_for_parent := cs_required_for_parent state; hc_recurs := is_some (it_recurrence item);
          hc_has_children_outside_plan := false; hc_manual_override := core_override (cs_mode state);
          hc_provenance := core_provenance <$> cs_provenance state |}.

Definition completion_nodes (items : gmap Uuid Item) (states : gmap Uuid ItemCompletionState)
    : result ItemCompletionError (list HierarchyCompletionItem) :=
  foldM (λ nodes item, let? node := completion_node states item in Ok (nodes ++ [node])) [] (values items).

(** ** Effects *)

Definition server_kind (p : HierarchyCompletionProvenance) : ItemCompletionProvenanceKind :=
  match p with Provenance.Automatic _ => ProvenanceKind.Automatic | Provenance.Manual _ => ProvenanceKind.Manual end.

(** The provenance to store: a standing one keeps its reopening state. *)
Definition decided_provenance (decision : HierarchyCompletionDecision) (prepared : Item) (requested : ItemCompletionState)
    : result ItemCompletionError (option ItemCompletionProvenance) :=
  match hd_provenance decision with
  | None => Ok None
  | Some value =>
      let? reopen := match cs_provenance requested with
                     | Some standing => Ok (pv_reopen standing)
                     | None => reopen_of_item prepared
                     end in
      Ok (Some {| pv_kind := server_kind value; pv_reopen := reopen |})
  end.

Definition decided_item (decision : HierarchyCompletionDecision) (prepared : Item) (requested : ItemCompletionState) (now : DateTime)
    : result ItemCompletionError Item :=
  if bool_decide (hd_status decision = HierarchyProgressStatus.Completed) &&
     negb (bool_decide (it_status prepared = ItemStatus.Completed))
  then Ok (with_lifecycle prepared ItemStatus.Completed (Some now) None None None)
  else if negb (bool_decide (hd_status decision = core_status (it_status prepared))) then
    let? provenance := ok_or (cs_provenance requested) ReopeningReviewRequired in
    if negb (bool_decide (core_status (ro_status (pv_reopen provenance)) = hd_status decision)) then Err Unavailable
    else Ok (reopen_item (pv_reopen provenance) prepared)
  else Ok prepared.

Definition with_provenance (s : ItemCompletionState) (provenance : option ItemCompletionProvenance) (revision : N)
    (updated_at : option DateTime) : ItemCompletionState :=
  {| cs_item_id := cs_item_id s; cs_revision := revision; cs_required_for_parent := cs_required_for_parent s; cs_mode := cs_mode s;
     cs_provenance := provenance; cs_updated_at := updated_at |}.

(** The inputs of one turn of the loop over the items. *)
Record ItemReview : Type := {
  rv_before_item : Item;
  rv_before_state : ItemCompletionState;
  rv_prepared : Item;
  rv_requested : ItemCompletionState;
  rv_decision : HierarchyCompletionDecision;
  rv_has_children : bool;
  rv_is_command : bool;
  rv_is_live : bool
}.

Definition review_effect (r : ItemReview) (now : DateTime) : result ItemCompletionError (option ItemCompletionEffect) :=
  let decision := rv_decision r in
  if hd_occurrence_evidence_required decision && rv_is_command r &&
     (negb (bool_decide (cs_mode (rv_before_state r) = cs_mode (rv_requested r))) ||
      negb (bool_decide (it_status (rv_prepared r) = it_status (rv_before_item r))))
  then Err OccurrenceEvidenceRequired
  else
    let? provenance := decided_provenance decision (rv_prepared r) (rv_requested r) in
    let? item := decided_item decision (rv_prepared r) (rv_requested r) now in
    let item := touched item (it_revision item) (it_updated_at item) (it_deleted_at item) (execution_is_allowed item (rv_has_children r)) in
    let state := with_provenance (rv_requested r) provenance (cs_revision (rv_requested r)) (cs_updated_at (rv_requested r)) in
    if bool_decide (item = rv_before_item r) && bool_decide (state = rv_before_state r) && negb (rv_is_command r) then Ok None
    else if rv_is_live r && negb (bool_decide (it_status item = it_status (rv_before_item r))) then Err ExecutionConflict
    else
      let? revision := next_completion_revision (it_revision (rv_before_item r)) in
      let? state_revision := next_completion_revision (cs_revision (rv_before_state r)) in
      let item := touched item revision now (it_deleted_at item) (it_is_executable item) in
      let state := with_provenance state provenance state_revision (Some now) in
      let? _ := validate_completion state in
      Ok (Some {| ef_before_item := rv_before_item r; ef_after_item := item; ef_before_state := rv_before_state r;
                  ef_after_state := state; ef_reason := action_name (hd_action decision) (rv_is_command r) |}).

Definition review_snapshot (r : ItemReview) (evidence_hash : string) : ItemCompletionSnapshot :=
  {| sc_item_id := it_id (rv_before_item r); sc_item_revision := it_revision (rv_before_item r); sc_state := rv_before_state r;
     sc_evidence_hash := evidence_hash; sc_counts := hd_counts (rv_decision r);
     sc_occurrence_evidence_required := hd_occurrence_evidence_required (rv_decision r) |}.

Definition indexed_parents (items : list Item) : gset Uuid := list_to_set (omap it_parent_id items).

(** The turn for one item; an item without a decision panics in the code and
    cannot occur. *)
Definition review_of (forest prepared : gmap Uuid Item * gmap Uuid ItemCompletionState)
    (decisions : gmap ItemId HierarchyCompletionDecision) (parents : gset Uuid) (execution : ItemCompletionExecutionEvidence)
    (command : option (Uuid * ItemCompletionCommand)) (entry : Uuid * Item) : option ItemReview :=
  let '(id, before_item) := entry in
  decision ← decisions !! id;
  after ← prepared.1 !! id;
  Some {| rv_before_item := before_item; rv_before_state := state_of forest.2 id; rv_prepared := after;
          rv_requested := state_of prepared.2 id; rv_decision := decision; rv_has_children := bool_decide (id ∈ parents);
          rv_is_command := match command with Some (target, _) => (target =? id)%N | None => false end;
          rv_is_live := bool_decide (id ∈ ce_live_item_ids execution) |}.

Definition plan_step (review : Uuid * Item → option ItemReview) (evidence_hash : string) (now : DateTime)
    (st : list ItemCompletionEffect * gmap Uuid ItemCompletionSnapshot) (entry : Uuid * Item)
    : result ItemCompletionError (list ItemCompletionEffect * gmap Uuid ItemCompletionSnapshot) :=
  match review entry with
  | None => Ok st
  | Some r =>
      let? effect := review_effect r now in
      Ok (st.1 ++ match effect with Some e => [e] | None => [] end, <[entry.1 := review_snapshot r evidence_hash]> st.2)
  end.

(** [plan_item_completion] *)
Definition plan_item_completion (items : list Item) (states : list ItemCompletionState)
    (execution : ItemCompletionExecutionEvidence) (command : option (Uuid * ItemCompletionCommand)) (now : DateTime)
    : result ItemCompletionError ItemCompletionPlan :=
  let now := truncate_to_postgres_timestamp_precision now in
  let? evidence_hash := item_completion_evidence_hash items states execution in
  let? forest := index_forest items states in
  let parents := indexed_parents items in
  let? prepared :=
    match command with
    | None => Ok forest
    | Some (id, command) => prepare_command parents evidence_hash id command forest
    end in
  let? nodes := completion_nodes prepared.1 prepared.2 in
  let? evaluation := map_err map_core_error (evaluate_hierarchy_completion nodes OneOff) in
  let? (effects, snapshots) :=
    foldM (plan_step (review_of forest prepared (he_decisions evaluation) parents execution command) evidence_hash now)
      ([], ∅) (entries forest.1) in
  Ok {| pl_effects := effects; pl_evaluated_item_ids := keys forest.1; pl_snapshots := snapshots |}.
End plan.
