(* ===== verification/ItemStore.v ===== *)
(** * ItemStore: the in-memory repository of items

    server/dayweave-api/src/items/repository.rs: [InMemoryItemRepository] keeps
    the items of a user, trashed ones included, a log of changes that clients
    follow, and the answers to recent requests.  A mutation works on a copy of
    the state that replaces it at the end; here it returns the next state.  The
    clock and fresh identifiers are arguments.  A [HashMap] is read in ascending
    order of its keys; only which of several errors is reported depends on it.

    The progress records and the bootstrap snapshots of the state belong to
    item_progress and items/bootstrap.rs and are in ItemProgress and Bootstrap. *)
From S2P Require Import Prelude Text Platform Civil Domain Rrule Decimal Progress Completion Session Lease ItemDomain CompletionPolicy.

Definition MAX_ITEM_CHANGE_GROUP_SIZE : nat := 300.
Definition MAX_ITEM_DELTA_PAGE_PAYLOAD_BYTES : N := 8 * 1024 * 1024.
Definition MAX_ITEM_CHANGE_GROUP_PAYLOAD_BYTES : N := MAX_ITEM_DELTA_PAGE_PAYLOAD_BYTES.

(** ** Data *)

Module ItemRepositoryError.
Inductive ItemRepositoryError : Type :=
| NotFound (id : Uuid)
| Duplicate (id : Uuid)
| RevisionConflict (expected actual : N)
| ParentNotFound (id : Uuid)
| BlockedByItemNotFound (id : Uuid)
| DependencyNotFound (id : Uuid)
| CrossRecurringSubtreeDependency (successor_id predecessor_id : Uuid)
| DependencyCycle
| SelfParent
| HierarchyCycle
| InvalidParentState
| NonLeafExecutable
| ActiveExecutionConflict (item_id session_id : Uuid)
| HasChildren
| DeletedParent
| IdempotencyConflict
| IdempotencyInProgress
| InvalidCursor
| DeltaGroupTooLarge
| BootstrapExpired
| BootstrapTooLarge
| BootstrapCapacity
| BootstrapCursorInvalid
| InvalidItem (error : ItemDomainError)
| Internal.
End ItemRepositoryError.
Abbreviation ItemRepositoryError := ItemRepositoryError.ItemRepositoryError.
Import ItemRepositoryError.

(** A fingerprint is opaque: only its equality is used. *)
Record IdempotencyContext : Type := {
  ic_namespace : string;
  ic_key : string;
  ic_fingerprint : N;
  ic_expires_at : DateTime
}.

Record ItemTombstone : Type := {
  tb_id : Uuid;
  tb_revision : N;
  tb_deleted_at : DateTime;
  tb_parent_id : option Uuid
}.

Section data.
Context `{ItemFormats}.

Record ItemMutation : Type := { im_item : Item; im_replayed : bool }.

Inductive DeltaChange : Type :=
| Upsert (item : Item)
| Tombstone (tombstone : ItemTombstone).

Record ItemIdempotency : Type := {
  ii_fingerprint : N;
  ii_expires_at : DateTime;
  ii_item : Item
}.

Record MemoryChange : Type := {
  mc_sequence : N;
  mc_change_group_id : option Uuid;
  mc_change : DeltaChange
}.

Record ItemCompletionMutation : Type := {
  cm_operation_id : Uuid;
  cm_replayed : bool;
  cm_completion : ItemCompletionSnapshot
}.

(** [MemoryState] *)
Record ItemState : Type := {
  st_items : gmap Uuid Item;
  st_completion_states : gmap Uuid ItemCompletionState;
  st_completion_receipts : gmap Uuid (Uuid * ItemCompletionCommand * ItemCompletionMutation);
  st_completion_effects : list ItemCompletionEffect;
  st_idempotency : gmap (string * string) ItemIdempotency;
  st_changes : list MemoryChange;
  st_next_sequence : N
}.

Definition empty_items : ItemState :=
  {| st_items := ∅; st_completion_states := ∅; st_completion_receipts := ∅; st_completion_effects := []; st_idempotency := ∅;
     st_changes := []; st_next_sequence := 0 |}.

Definition with_store_items (st : ItemState) (items : gmap Uuid Item) : ItemState :=
  {| st_items := items; st_completion_states := st_completion_states st; st_completion_receipts := st_completion_receipts st;
     st_completion_effects := st_completion_effects st; st_idempotency := st_idempotency st; st_changes := st_changes st;
     st_next_sequence := st_next_sequence st |}.

Definition with_idempotency (st : ItemState) (entries : gmap (string * string) ItemIdempotency) : ItemState :=
  {| st_items := st_items st; st_completion_states := st_completion_states st; st_completion_receipts := st_completion_receipts st;
     st_completion_effects := st_completion_effects st; st_idempotency := entries; st_changes := st_changes st;
     st_next_sequence := st_next_sequence st |}.

(** ** Bookkeeping *)

Definition append_change (st : ItemState) (group_id : option Uuid) (change : DeltaChange) : result ItemRepositoryError ItemState :=
  let? sequence := ok_or (checked_add u64_max (st_next_sequence st) 1) Internal in
  Ok {| st_items := st_items st; st_completion_states := st_completion_states st;
        st_completion_receipts := st_completion_receipts st; st_completion_effects := st_completion_effects st;
        st_idempotency := st_idempotency st;
        st_changes := st_changes st ++ [{| mc_sequence := sequence; mc_change_group_id := group_id; mc_change := change |}];
        st_next_sequence := sequence |}.

Definition context_key (context : IdempotencyContext) : string * string := (ic_namespace context, ic_key context).

(** [replay]: the state without an expired answer, and the answer. *)
Definition replay_item (clock : DateTime) (st : ItemState) (context : IdempotencyContext)
    : ItemState * option (result ItemRepositoryError ItemMutation) :=
  let key := context_key context in
  match st_idempotency st !! key with
  | None => (st, None)
  | Some entry =>
      if (ii_expires_at entry <=? clock)%Z then (with_idempotency st (delete key (st_idempotency st)), None)
      else (st, Some (if (ii_fingerprint entry =? ic_fingerprint context)%N
                      then Ok {| im_item := ii_item entry; im_replayed := true |} else Err IdempotencyConflict))
  end.

Definition remember (st : ItemState) (context : IdempotencyContext) (item : Item) : ItemState :=
  with_idempotency st
    (<[context_key context := {| ii_fingerprint := ic_fingerprint context; ii_expires_at := ic_expires_at context; ii_item := item |}]>
       (st_idempotency st)).

(** ** Checks *)

Definition is_active (item : Item) : bool := negb (is_some (it_deleted_at item)).

Definition active_item (items : gmap Uuid Item) (id : Uuid) : option Item :=
  item ← items !! id; if is_active item then Some item else None.

Definition trashed_item (items : gmap Uuid Item) (id : Uuid) : option Item :=
  item ← items !! id; if is_active item then None else Some item.

Definition is_child_of (parent_id : Uuid) (item : Item) : bool := bool_decide (it_parent_id item = Some parent_id).

Definition has_active_children (item_id : Uuid) (items : gmap Uuid Item) : bool :=
  existsb (λ item, is_child_of item_id item && is_active item) (values items).

Definition with_executable (item : Item) (is_executable : bool) : Item :=
  touched item (it_revision item) (it_updated_at item) (it_deleted_at item) is_executable.

Definition decorate (item : Item) (items : gmap Uuid Item) : Item :=
  with_executable item (execution_is_allowed item (has_active_children (it_id item) items)).

Definition ensure_revision (item : Item) (expected : N) : result ItemRepositoryError unit :=
  if (it_revision item =? expected)%N then Ok tt else Err (RevisionConflict expected (it_revision item)).

Definition completion_allows_parent (item : Item) (states : gmap Uuid ItemCompletionState) : bool :=
  bool_decide (it_status item = ItemStatus.Completed) &&
  match states !! it_id item with
  | Some state => (0 <? cs_revision state)%N && is_some (cs_provenance state) && is_ok (validate_completion state)
  | None => false
  end.

(** The walk of [validate_parent] from the parent upwards; it visits each item
    once, and then at most an absent one. *)
Fixpoint walk_ancestors (fuel : nat) (items : gmap Uuid Item) (item_id : Uuid) (visited : gset Uuid) (ancestor : option Uuid)
    : result ItemRepositoryError unit :=
  match ancestor with
  | None => Ok tt
  | Some ancestor_id =>
      if (ancestor_id =? item_id)%N then Err HierarchyCycle
      else if bool_decide (ancestor_id ∈ visited) then Err HierarchyCycle
      else
        match fuel with
        | O => Err Internal
        | S fuel' => walk_ancestors fuel' items item_id ({[ancestor_id]} ∪ visited) (items !! ancestor_id ≫= it_parent_id)
        end
  end.

Definition validate_item_parent (items : gmap Uuid Item) (states : gmap Uuid ItemCompletionState) (item_id : Uuid)
    (parent_id : option Uuid) : result ItemRepositoryError unit :=
  match parent_id with
  | None => Ok tt
  | Some parent_id =>
      if (parent_id =? item_id)%N then Err SelfParent
      else
        let? parent := ok_or (active_item items parent_id) (ParentNotFound parent_id) in
        if is_executing_state (it_status parent) && negb (completion_allows_parent parent states) then Err InvalidParentState
        else walk_ancestors (S (size items)) items item_id ∅ (Some parent_id)
  end.

Definition validate_blocked_by (items : gmap Uuid Item) (blocked_by : option Uuid) : result ItemRepositoryError unit :=
  match blocked_by with
  | Some id => if is_some (items !! id) then Ok tt else Err (BlockedByItemNotFound id)
  | None => Ok tt
  end.

(** ** The dependency graph *)

(** The path from an item to the first resolved ancestor, and its owner. *)
Fixpoint owner_path (fuel : nat) (items : gmap Uuid Item) (resolved : gmap Uuid (option Uuid)) (path : list Uuid)
    (current : option Uuid) : result ItemRepositoryError (list Uuid * option Uuid) :=
  match current with
  | None => Ok (path, None)
  | Some item_id =>
      match resolved !! item_id with
      | Some cached => Ok (path, cached)
      | None =>
          if bool_decide (item_id ∈ path) then Err HierarchyCycle
          else
            match fuel with
            | O => Err Internal
            | S fuel' =>
                let? item := ok_or (items !! item_id) (ParentNotFound item_id) in
                owner_path fuel' items resolved (path ++ [item_id]) (it_parent_id item)
            end
      end
  end.

Definition recurs_item (items : gmap Uuid Item) (id : Uuid) : bool :=
  match items !! id with Some item => is_some (it_recurrence item) | None => false end.

Definition resolve_owner (items : gmap Uuid Item) (st : gmap Uuid (option Uuid) * option Uuid) (item_id : Uuid)
    : gmap Uuid (option Uuid) * option Uuid :=
  let owner := if negb (is_some st.2) && recurs_item items item_id then Some item_id else st.2 in
  (<[item_id := owner]> st.1, owner).

Definition resolve_owners (items : gmap Uuid Item) (resolved : gmap Uuid (option Uuid)) (start : Uuid)
    : result ItemRepositoryError (gmap Uuid (option Uuid)) :=
  match resolved !! start with
  | Some _ => Ok resolved
  | None =>
      let? (path, owner) := owner_path (S (size items)) items resolved [] (Some start) in
      Ok (foldl (resolve_owner items) (resolved, owner) (rev path)).1
  end.

Definition recurring_subtree_owners (items : gmap Uuid Item) : result ItemRepositoryError (gmap Uuid Uuid) :=
  let? resolved := foldM (resolve_owners items) ∅ (keys items) in
  Ok (omap id resolved).

(** The successors of each item, and the degrees; the keys of the degrees are
    the items that will be visited. *)
Definition Graph : Type := (gmap Uuid (list Uuid) * gmap Uuid nat)%type.

Definition add_dependency_edge (graph : Graph) (edge : Uuid * Uuid) : Graph :=
  (<[edge.1 := default [] (graph.1 !! edge.1) ++ [edge.2]]> graph.1, <[edge.2 := default 0 (graph.2 !! edge.2)]> graph.2).

Definition check_dependency (items : gmap Uuid Item) (owners : gmap Uuid Uuid) (successor_id : Uuid)
    (graph : Graph) (dependency : Dependency) : result ItemRepositoryError Graph :=
  let predecessor_id := dep_item_id dependency in
  if negb (is_some (items !! predecessor_id)) then Err (DependencyNotFound predecessor_id)
  else if match owners !! predecessor_id with
          | Some owner => negb (bool_decide (owners !! successor_id = Some owner))
          | None => false
          end
  then Err (CrossRecurringSubtreeDependency successor_id predecessor_id)
  else Ok (add_dependency_edge graph (predecessor_id, successor_id)).

Definition explicit_edges (items : gmap Uuid Item) (owners : gmap Uuid Uuid) (graph : Graph) (entry : Uuid * Item)
    : result ItemRepositoryError Graph :=
  let? dependencies := map_err InvalidItem (item_dependencies entry.2) in
  foldM (check_dependency items owners entry.1) graph dependencies.

Definition is_ordered (item : Item) : bool :=
  is_active item && bool_decide (it_kind item = ItemKind.Routine) &&
  bool_decide ((value_get (it_flexible_constraints item) "routine_ordered" ≫= value_as_bool) = Some true).

Definition sibling_leb (a b : Item) : bool :=
  is_le (then_with (it_sibling_order a ?= it_sibling_order b)%N (it_id a ?= it_id b)%N).

Definition routine_children (items : gmap Uuid Item) (routine : Item) : list Item :=
  sort_by sibling_leb (filter (λ item, is_active item && is_child_of (it_id routine) item = true) (values items)).

(** [windows(2)] *)
Definition neighbours {A} (l : list A) : list (A * A) := zip l (tail l).

Definition routine_edges (items : gmap Uuid Item) (routine : Item) : list (Uuid * Uuid) :=
  (λ p : Item * Item, (it_id p.1, it_id p.2)) <$> neighbours (routine_children items routine).

Definition all_routine_edges (items : gmap Uuid Item) : list (Uuid * Uuid) :=
  filter (λ item, is_ordered item = true) (values items) ≫= routine_edges items.

Definition add_degree (indegree : gmap Uuid nat) (successor : Uuid) : result ItemRepositoryError (gmap Uuid nat) :=
  let? degree := ok_or (indegree !! successor) Internal in Ok (<[successor := S degree]> indegree).

(** One successor of a visited item. *)
Definition release_successor (st : gmap Uuid nat * gset Uuid) (successor : Uuid)
    : result ItemRepositoryError (gmap Uuid nat * gset Uuid) :=
  let? degree := ok_or (st.1 !! successor) Internal in
  match degree with
  | O => Err Internal
  | S degree' => Ok (<[successor := degree']> st.1, if (degree' =? 0)%nat then {[successor]} ∪ st.2 else st.2)
  end.

(** The loop over the ready items, in ascending order; each item is ready once. *)
Fixpoint visit_ready (fuel : nat) (adjacency : gmap Uuid (list Uuid)) (indegree : gmap Uuid nat) (ready : gset Uuid)
    (visited : nat) : result ItemRepositoryError nat :=
  match fuel with
  | O => Ok visited
  | S fuel' =>
      match pop_first ready with
      | None => Ok visited
      | Some (id, ready) =>
          let? (indegree, ready) := foldM release_successor (indegree, ready) (default [] (adjacency !! id)) in
          visit_ready fuel' adjacency indegree ready (S visited)
      end
  end.

Definition validate_dependency_graph (items : gmap Uuid Item) : result ItemRepositoryError unit :=
  let? owners := recurring_subtree_owners items in
  let? graph := foldM (explicit_edges items owners) ((λ _, []) <$> items, (λ _, 0) <$> items) (entries items) in
  let graph := foldl add_dependency_edge graph (all_routine_edges items) in
  let adjacency := sort_dedup_N <$> graph.1 in
  let? indegree := foldM add_degree ((λ _, 0) <$> graph.2) (concat (values adjacency)) in
  let? visited := visit_ready (S (size indegree)) adjacency indegree (dom (filter (λ p : Uuid * nat, p.2 = 0) indegree)) 0 in
  if (visited =? size items)%nat then Ok tt else Err DependencyCycle.

(** ** Mutations *)

(** One parent of [refresh_parents]. *)
Definition refresh_parent (now : DateTime) (group_id : Uuid) (st : ItemState) (parent_id : Uuid) : result ItemRepositoryError ItemState :=
  let? parent := ok_or (active_item (st_items st) parent_id) (ParentNotFound parent_id) in
  let? parent := map_err InvalidItem (refreshed_execution parent (has_active_children parent_id (st_items st)) now) in
  append_change (with_store_items st (<[parent_id := parent]> (st_items st))) (Some group_id) (Upsert parent).

Definition refresh_parents (st : ItemState) (parent_ids : list (option Uuid)) (now : DateTime) (group_id : Uuid)
    : result ItemRepositoryError ItemState :=
  foldM (refresh_parent now group_id) st (sort_dedup_N (omap id parent_ids)).

(** What every mutation ends with: the item is stored, checked, logged and
    answered. *)
Definition store_item (st : ItemState) (item : Item) (group_id : Uuid) (change : DeltaChange) : result ItemRepositoryError ItemState :=
  append_change (with_store_items st (<[it_id item := item]> (st_items st))) (Some group_id) change.

Definition tombstone_of (item : Item) (deleted_at : DateTime) : ItemTombstone :=
  {| tb_id := it_id item; tb_revision := it_revision item; tb_deleted_at := deleted_at; tb_parent_id := it_parent_id item |}.

(** A mutation after the lookup of its remembered answer. *)
Definition answering (clock : DateTime) (st : ItemState) (context : IdempotencyContext)
    (mutate : ItemState → result ItemRepositoryError (ItemState * Item)) : result ItemRepositoryError (ItemState * ItemMutation) :=
  match replay_item clock st context with
  | (st, Some answer) => let? mutation := answer in Ok (st, mutation)
  | (st, None) =>
      let? (next, item) := mutate st in
      Ok (remember next context item, {| im_item := item; im_replayed := false |})
  end.

Definition create_item (group_id : Uuid) (item : Item) (st : ItemState) : result ItemRepositoryError (ItemState * Item) :=
  if is_some (st_items st !! it_id item) then Err (Duplicate (it_id item))
  else
    let? _ := validate_item_parent (st_items st) (st_completion_states st) (it_id item) (it_parent_id item) in
    let? _ := validate_blocked_by (st_items st) (it_blocked_by_item_id item) in
    let item := with_executable item (execution_is_allowed item false) in
    let? _ := validate_dependency_graph (<[it_id item := item]> (st_items st)) in
    let? st := store_item st item group_id (Upsert item) in
    let? st := refresh_parents st [it_parent_id item] (it_updated_at item) group_id in
    Ok (st, item).

Definition create_memory (clock : DateTime) (group_id : Uuid) (st : ItemState) (item : Item) (context : IdempotencyContext)
    : result ItemRepositoryError (ItemState * ItemMutation) :=
  answering clock st context (create_item group_id item).

(** An item with active children may be in an executing state only when the
    completion policy put it there. *)
Definition check_leaf (states : gmap Uuid ItemCompletionState) (item : Item) (has_children : bool) : result ItemRepositoryError unit :=
  if has_children && is_executing_state (it_status item) && negb (completion_allows_parent item states) then Err NonLeafExecutable
  else Ok tt.

Definition status_is_owned (states : gmap Uuid ItemCompletionState) (id : Uuid) : bool :=
  match states !! id with
  | Some state => negb (bool_decide (cs_mode state = ItemCompletionMode.Automatic)) || is_some (cs_provenance state)
  | None => false
  end.

Context `{Platform, Civil, !SchedulingMetadata}.

Definition replace_item (now : DateTime) (group_id : Uuid) (id : Uuid) (expected_revision : N) (replacement : ReplaceItem) (st : ItemState)
    : result ItemRepositoryError (ItemState * Item) :=
  let? current := ok_or (active_item (st_items st) id) (NotFound id) in
  let? _ := ensure_revision current expected_revision in
  let? item := map_err InvalidItem (replaced current replacement now) in
  if negb (bool_decide (it_status current = it_status item)) && status_is_owned (st_completion_states st) id then Err InvalidParentState
  else
    let? _ := validate_item_parent (st_items st) (st_completion_states st) id (it_parent_id item) in
    let? _ := validate_blocked_by (st_items st) (it_blocked_by_item_id item) in
    let has_children := has_active_children id (st_items st) in
    let? _ := check_leaf (st_completion_states st) item has_children in
    let item := with_executable item (execution_is_allowed item has_children) in
    let? _ := validate_dependency_graph (<[id := item]> (st_items st)) in
    let? st := store_item st item group_id (Upsert item) in
    let? st :=
      if bool_decide (it_parent_id current = it_parent_id item) && (it_sibling_order current =? it_sibling_order item)%N then Ok st
      else refresh_parents st [it_parent_id current; it_parent_id item] (it_updated_at item) group_id in
    Ok (st, item).

Definition replace_memory (clock now : DateTime) (group_id : Uuid) (st : ItemState) (id : Uuid) (expected_revision : N)
    (replacement : ReplaceItem) (context : IdempotencyContext) : result ItemRepositoryError (ItemState * ItemMutation) :=
  answering clock st context (replace_item now group_id id expected_revision replacement).

Definition restore_item (now : DateTime) (group_id : Uuid) (id : Uuid) (expected_revision : N) (st : ItemState)
    : result ItemRepositoryError (ItemState * Item) :=
  let? current := ok_or (trashed_item (st_items st) id) (NotFound id) in
  let? _ := ensure_revision current expected_revision in
  if match it_parent_id current with Some parent_id => negb (is_some (active_item (st_items st) parent_id)) | None => false end
  then Err DeletedParent
  else
    let? item := map_err InvalidItem (restored current now) in
    let? _ := validate_item_parent (st_items st) (st_completion_states st) id (it_parent_id item) in
    let has_children := has_active_children id (st_items st) in
    let item := with_executable item (execution_is_allowed item has_children) in
    let? _ := check_leaf (st_completion_states st) item has_children in
    let? _ := validate_dependency_graph (<[id := item]> (st_items st)) in
    let? st := store_item st item group_id (Upsert item) in
    let? st := refresh_parents st [it_parent_id item] (it_updated_at item) group_id in
    Ok (st, item).

Definition restore_memory (clock now : DateTime) (group_id : Uuid) (st : ItemState) (id : Uuid) (expected_revision : N)
    (context : IdempotencyContext) : result ItemRepositoryError (ItemState * ItemMutation) :=
  answering clock st context (restore_item now group_id id expected_revision).

Definition trash_item (now : DateTime) (group_id : Uuid) (id : Uuid) (expected_revision : N) (st : ItemState)
    : result ItemRepositoryError (ItemState * Item) :=
  let? current := ok_or (active_item (st_items st) id) (NotFound id) in
  let? _ := ensure_revision current expected_revision in
  if has_active_children id (st_items st) then Err HasChildren
  else
    let? item := map_err InvalidItem (trashed current now) in
    let? deleted_at := ok_or (it_deleted_at item) Internal in
    let? st := store_item st item group_id (Tombstone (tombstone_of item deleted_at)) in
    let? st := refresh_parents st [it_parent_id item] (it_updated_at item) group_id in
    Ok (st, item).

Definition trash_memory (clock now : DateTime) (group_id : Uuid) (st : ItemState) (id : Uuid) (expected_revision : N)
    (context : IdempotencyContext) : result ItemRepositoryError (ItemState * ItemMutation) :=
  answering clock st context (trash_item now group_id id expected_revision).

(** ** Completion *)

Context `{!CompletionDigest}.

(** The length of the JSON of a change, when it can be encoded. *)
Class ChangeLength : Type := { change_length : DeltaChange → option N }.

Definition completion_memory_plan (st : ItemState) (execution : ExecutionSnapshot) (command : option (Uuid * ItemCompletionCommand))
    (now : DateTime) : result ItemCompletionError ItemCompletionPlan :=
  let items := filter (λ item, is_active item = true) (values (st_items st)) in
  let states := filter (λ state, is_some (active_item (st_items st) (cs_item_id state)) = true) (values (st_completion_states st)) in
  let evidence := {| ce_revision := sn_revision execution;
                     ce_live_item_ids := match sn_active_session execution with Some session => {[es_item_id session]} | None => ∅ end |} in
  plan_item_completion items states evidence command now.

Context `{!ChangeLength}.

Definition blocker_known (items : gmap Uuid Item) (blocked_by : option Uuid) : bool :=
  match blocked_by with Some id => is_some (items !! id) | None => true end.

Definition with_effect (st : ItemState) (effect : ItemCompletionEffect) : ItemState :=
  {| st_items := <[it_id (ef_after_item effect) := ef_after_item effect]> (st_items st);
     st_completion_states := <[cs_item_id (ef_after_state effect) := ef_after_state effect]> (st_completion_states st);
     st_completion_receipts := st_completion_receipts st; st_completion_effects := st_completion_effects st;
     st_idempotency := st_idempotency st; st_changes := st_changes st; st_next_sequence := st_next_sequence st |}.

Definition record_effect (st : ItemState) (effect : ItemCompletionEffect) : ItemState :=
  {| st_items := st_items st; st_completion_states := st_completion_states st; st_completion_receipts := st_completion_receipts st;
     st_completion_effects := st_completion_effects st ++ [effect]; st_idempotency := st_idempotency st; st_changes := st_changes st;
     st_next_sequence := st_next_sequence st |}.

(** The variables of the loop: the state, the group, its size and its bytes. *)
Record EffectLoop : Type := {
  el_state : ItemState;
  el_group : nat;
  el_count : nat;
  el_bytes : N
}.

Definition apply_effect (fresh : nat → Uuid) (loop : EffectLoop) (effect : ItemCompletionEffect) : result ItemCompletionError EffectLoop :=
  let st := el_state loop in
  if negb (blocker_known (st_items st) (provenance ← cs_provenance (ef_after_state effect); ro_blocked_by_item_id (pv_reopen provenance))) ||
     negb (blocker_known (st_items st) (it_blocked_by_item_id (ef_after_item effect)))
  then Err ItemCompletionError.Invalid
  else
    let change := Upsert (ef_after_item effect) in
    let? length := ok_or (change_length change) ItemCompletionError.Unavailable in
    if (MAX_ITEM_CHANGE_GROUP_PAYLOAD_BYTES <? length)%N then Err ItemCompletionError.TooLarge
    else
      let full := (el_count loop =? MAX_ITEM_CHANGE_GROUP_SIZE)%nat || (MAX_ITEM_CHANGE_GROUP_PAYLOAD_BYTES <? el_bytes loop + length)%N in
      let group := if full then S (el_group loop) else el_group loop in
      let count := if full then 0 else el_count loop in
      let bytes := if full then 0%N else el_bytes loop in
      let? st := map_err (λ _, ItemCompletionError.Unavailable) (append_change (with_effect st effect) (Some (fresh group)) change) in
      Ok {| el_state := record_effect st effect; el_group := group; el_count := S count; el_bytes := (bytes + length)%N |}.

Definition apply_completion_memory (fresh : nat → Uuid) (st : ItemState) (plan : ItemCompletionPlan) : result ItemCompletionError ItemState :=
  let? loop := foldM (apply_effect fresh) {| el_state := st; el_group := 0; el_count := 0; el_bytes := 0 |} (pl_effects plan) in
  Ok (el_state loop).

Definition completion_repository_error (error : ItemCompletionError) : ItemRepositoryError :=
  match error with
  | ItemCompletionError.TooLarge => DeltaGroupTooLarge
  | ItemCompletionError.ReopeningReviewRequired | ItemCompletionError.OccurrenceEvidenceRequired
  | ItemCompletionError.ParentRequired => InvalidParentState
  | _ => Internal
  end.

(** The second part of [mutate_with_completion], under the lock; the first looks
    the answer up and drops an expired one. *)
Definition commit_mutation (fresh : nat → Uuid) (execution : ExecutionSnapshot)
    (mutation : ItemState → result ItemRepositoryError (ItemState * ItemMutation)) (st : ItemState)
    : result ItemRepositoryError (ItemState * ItemMutation) :=
  let? (next, answer) := mutation st in
  if im_replayed answer then Ok (st, answer)
  else
    let? plan := map_err completion_repository_error (completion_memory_plan next execution None (it_updated_at (im_item answer))) in
    let? next := map_err completion_repository_error (apply_completion_memory fresh next plan) in
    Ok (next, answer).

(** The session that would be disturbed. *)
Definition refuse_session (execution : ExecutionSnapshot) (disturbed : Uuid → bool) : result ItemRepositoryError unit :=
  match sn_active_session execution with
  | Some session => if disturbed (es_item_id session) then Err (ActiveExecutionConflict (es_item_id session) (es_id session)) else Ok tt
  | None => Ok tt
  end.

(** The operations of the repository, under the lock. *)
Inductive ItemRequest : Type :=
| Create (item : Item)
| Replace (id : Uuid) (expected_revision : N) (replacement : ReplaceItem)
| Trash (id : Uuid) (expected_revision : N)
| Restore_ (id : Uuid) (expected_revision : N).

Definition is_parent_of (item_parent : option Uuid) (id : Uuid) : bool := bool_decide (item_parent = Some id).

Definition mutation_of (clock now : DateTime) (group_id : Uuid) (execution : ExecutionSnapshot) (request : ItemRequest)
    (context : IdempotencyContext) (st : ItemState) : result ItemRepositoryError (ItemState * ItemMutation) :=
  match request with
  | Create item =>
      let? _ := refuse_session execution (is_parent_of (it_parent_id item)) in
      create_memory clock group_id st item context
  | Replace id expected_revision replacement =>
      let? current := ok_or (active_item (st_items st) id) (NotFound id) in
      let? _ := ensure_revision current expected_revision in
      let may_close_self := prevents_execution (if_status replacement) || may_remove_executable_component replacement in
      let? _ := refuse_session execution (λ live,
        may_close_self && (live =? id)%N ||
        negb (bool_decide (if_parent_id replacement = it_parent_id current)) && is_parent_of (if_parent_id replacement) live) in
      replace_memory clock now group_id st id expected_revision replacement context
  | Trash id expected_revision =>
      let? _ := refuse_session execution (λ live, (live =? id)%N) in
      trash_memory clock now group_id st id expected_revision context
  | Restore_ id expected_revision =>
      let? current := ok_or (trashed_item (st_items st) id) (NotFound id) in
      let? _ := ensure_revision current expected_revision in
      let? _ := refuse_session execution (is_parent_of (it_parent_id current)) in
      restore_memory clock now group_id st id expected_revision context
  end.

(** [create], [replace], [trash] and [restore] *)
Definition request_item (clock now : DateTime) (fresh : nat → Uuid) (execution : ExecutionSnapshot) (request : ItemRequest)
    (context : IdempotencyContext) (st : ItemState) : result ItemRepositoryError (ItemState * ItemMutation) :=
  commit_mutation (λ k, fresh (S k)) execution (mutation_of clock now (fresh 0) execution request context) st.

(** [completion_execution]: without a guard there is no execution; a guard may
    fail. *)
Definition completion_execution (guard : option (option ExecutionSnapshot)) : result ItemCompletionError ExecutionSnapshot :=
  match guard with
  | Some snapshot => ok_or snapshot ItemCompletionError.Unavailable
  | None => Ok {| sn_revision := 0; sn_active_session := None |}
  end.

(** [mutate_with_completion] as a step of the repository: the lookup under the
    first lock, which drops an expired answer, and the mutation under the second.
    [looked_up] and [clock] are the two readings of the clock. *)
Definition mutate_with_completion (looked_up clock now : DateTime) (fresh : nat → Uuid) (guard : option (option ExecutionSnapshot))
    (request : ItemRequest) (context : IdempotencyContext) (st : ItemState) : ItemState * result ItemRepositoryError ItemMutation :=
  match replay_item looked_up st context with
  | (st, Some answer) => (st, answer)
  | (st, None) =>
      match map_err completion_repository_error (completion_execution guard) with
      | Err e => (st, Err e)
      | Ok execution =>
          match request_item clock now fresh execution request context st with
          | Ok (next, answer) => (next, Ok answer)
          | Err e => (st, Err e)
          end
      end
  end.

(** ** Reads *)

Record ItemQuery : Type := {
  iq_parent_id : option Uuid;
  iq_include_deleted : bool;
  iq_limit : nat
}.

(** [get] *)
Definition get_item (st : ItemState) (id : Uuid) (include_deleted : bool) : result ItemRepositoryError Item :=
  let? item := ok_or (item ← st_items st !! id; if include_deleted || is_active item then Some item else None) (NotFound id) in
  Ok (decorate item (st_items st)).

Definition list_cmp (a b : Item) : comparison :=
  then_with (cmp_option N.compare (it_parent_id a) (it_parent_id b))
    (then_with (it_sibling_order a ?= it_sibling_order b)%N
       (then_with (it_created_at a ?= it_created_at b)%Z (it_id a ?= it_id b)%N)).

Definition list_matches (query : ItemQuery) (item : Item) : bool :=
  (iq_include_deleted query || is_active item) &&
  match iq_parent_id query with Some parent => is_child_of parent item | None => true end.

(** [list] *)
Definition list_items (st : ItemState) (query : ItemQuery) : list Item :=
  let items := (λ item, decorate item (st_items st)) <$> filter (λ item, list_matches query item = true) (values (st_items st)) in
  take (iq_limit query) (sort_by (λ a b, is_le (list_cmp a b)) items).

(** [get_completion] *)
Definition get_completion (st : ItemState) (guard : option (option ExecutionSnapshot)) (now : DateTime) (item_id : Uuid)
    : result ItemCompletionError ItemCompletionSnapshot :=
  let? execution := completion_execution guard in
  if negb (is_some (active_item (st_items st) item_id)) then Err ItemCompletionError.ItemMissing
  else
    let? plan := completion_memory_plan st execution None now in
    ok_or (pl_snapshots plan !! item_id) ItemCompletionError.ItemMissing.

(** ** Completion commands *)

(** The permanent receipt of an operation. *)
Definition completion_receipt (st : ItemState) (item_id : Uuid) (command : ItemCompletionCommand)
    : option (result ItemCompletionError ItemCompletionMutation) :=
  '(target, original, result) ← st_completion_receipts st !! cc_operation_id command;
  Some (if negb (target =? item_id)%N || negb (bool_decide (original = command)) then Err ItemCompletionError.OperationReused
        else Ok {| cm_operation_id := cm_operation_id result; cm_replayed := true; cm_completion := cm_completion result |}).

Definition with_receipt (st : ItemState) (operation_id : Uuid) (receipt : Uuid * ItemCompletionCommand * ItemCompletionMutation)
    : ItemState :=
  {| st_items := st_items st; st_completion_states := st_completion_states st;
     st_completion_receipts := <[operation_id := receipt]> (st_completion_receipts st);
     st_completion_effects := st_completion_effects st; st_idempotency := st_idempotency st; st_changes := st_changes st;
     st_next_sequence := st_next_sequence st |}.

(** [put_completion] after the lookup of the receipt: the next state, and the
    answer.  The second lookup, under the lock that the first released, is for a
    repository without a gate; here nothing happens between the two. *)
Definition commit_completion (fresh : nat → Uuid) (execution : ExecutionSnapshot) (now : DateTime) (item_id : Uuid)
    (command : ItemCompletionCommand) (st : ItemState) : result ItemCompletionError (ItemState * ItemCompletionMutation) :=
  let? plan := completion_memory_plan st execution (Some (item_id, command)) now in
  let? next := apply_completion_memory fresh st plan in
  let? plan := completion_memory_plan next execution None now in
  let? completion := ok_or (pl_snapshots plan !! item_id) ItemCompletionError.ItemMissing in
  let result := {| cm_operation_id := cc_operation_id command; cm_replayed := false; cm_completion := completion |} in
  Ok (with_receipt next (cc_operation_id command) (item_id, command, result), result).

Definition put_completion (fresh : nat → Uuid) (guard : option (option ExecutionSnapshot)) (now : DateTime) (item_id : Uuid)
    (command : ItemCompletionCommand) (st : ItemState) : result ItemCompletionError (ItemState * ItemCompletionMutation) :=
  match completion_receipt st item_id command with
  | Some answer => let? answer := answer in Ok (st, answer)
  | None =>
      let? _ := validate_completion_command command item_id in
      let? execution := completion_execution guard in
      commit_completion fresh execution now item_id command st
  end.
End data.
