(* ===== verification/Kahn.v ===== *)
(** * Kahn: the acyclicity check of the dependency graph

    [visit_ready] of ItemStore visits the items of a graph whose predecessors
    have been visited.  It never fails, and it visits all the items exactly when
    no item can be reached from itself.  The graph is a map from an item to its
    successors, without duplicates, and the items are those that have a degree. *)
From S2P Require Import Prelude Platform Domain Forest Session ItemDomain ItemStore.

Section kahn.
Context (adjacency : gmap Uuid (list Uuid)).

Definition successors_of (a : Uuid) : list Uuid := default [] (adjacency !! a).

Definition edge (a b : Uuid) : Prop := b ∈ successors_of a.

#[export] Instance edge_dec a b : Decision (edge a b).
Proof. unfold edge. apply _. Defined.

Definition preds (b : Uuid) : gset Uuid := list_to_set (filter (λ a, edge a b) (keys adjacency)).

(** The predecessors of an item that have not been visited. *)
Definition waiting (visited : gset Uuid) (b : Uuid) : nat := size (preds b ∖ visited).

Lemma edge_key a b : edge a b → a ∈ keys adjacency.
Proof.
  unfold edge, successors_of. rewrite elem_of_keys.
  destruct (adjacency !! a); [by eexists|]. cbn. set_solver.
Qed.

Lemma elem_of_preds a b : a ∈ preds b ↔ edge a b.
Proof. unfold preds. rewrite elem_of_list_to_set, list_elem_of_filter. naive_solver eauto using edge_key. Qed.

Lemma waiting_zero visited b : waiting visited b = 0 ↔ ∀ a, edge a b → a ∈ visited.
Proof.
  unfold waiting. rewrite size_empty_iff. split.
  - intros Hempty a Ha%elem_of_preds. destruct (decide (a ∈ visited)); [done|]. set_solver.
  - intros Hall. apply set_equiv. intros a. rewrite elem_of_difference, elem_of_preds. set_solver.
Qed.

Lemma waiting_visit visited id b :
  id ∉ visited → waiting visited b = (if decide (edge id b) then 1 else 0) + waiting ({[id]} ∪ visited) b.
Proof.
  intros Hid. unfold waiting. case_decide as Hedge.
  - rewrite <-(size_singleton (C := gset Uuid) id), <-size_union.
    + f_equal. apply leibniz_equiv. intros x. rewrite <-elem_of_preds in Hedge.
      destruct (decide (x = id)) as [->|]; set_solver.
    + set_solver.
  - rewrite <-elem_of_preds in Hedge. cbn. f_equal. set_solver.
Qed.

(** ** The degrees *)

Lemma add_degrees_ok degrees l :
  (∀ b, b ∈ l → is_Some (degrees !! b)) →
  ∃ degrees', foldM add_degree degrees l = Ok degrees' ∧
    ∀ b, degrees' !! b = (λ n, n + length (filter (b =.) l)) <$> degrees !! b.
Proof.
  revert degrees. induction l as [|x l IH]; intros degrees Hl.
  - exists degrees. split; [done|]. intros b. destruct (degrees !! b); cbn; by rewrite ?Nat.add_0_r.
  - destruct (Hl x) as [d Hd]; [by left|]. cbn [foldM]. unfold add_degree at 1. rewrite Hd. cbn [ok_or rbind].
    destruct (IH (<[x := S d]> degrees)) as (degrees' & Hfold & Hspec).
    { intros b Hb. destruct (decide (b = x)) as [->|]; [rewrite lookup_insert_eq; by eexists|].
      rewrite lookup_insert_ne by done. apply Hl. by right. }
    exists degrees'. split; [done|]. intros b. rewrite Hspec, filter_cons.
    case_decide as Hb; [subst b; rewrite lookup_insert_eq, Hd; cbn; f_equal; lia|].
    by rewrite lookup_insert_ne.
Qed.

Lemma add_degrees_inv degrees l degrees' :
  foldM add_degree degrees l = Ok degrees' → ∀ b, b ∈ l → is_Some (degrees !! b).
Proof.
  revert degrees. induction l as [|x l IH]; intros degrees Hfold b Hb; [by apply elem_of_nil in Hb|].
  cbn [foldM] in Hfold. unfold add_degree at 1 in Hfold. destruct (degrees !! x) as [d|] eqn:Hd; cbn in Hfold; [|done].
  apply elem_of_cons in Hb as [->|Hb]; [by rewrite Hd|].
  specialize (IH _ Hfold b Hb). destruct (decide (b = x)) as [->|]; [by rewrite Hd|]. by rewrite lookup_insert_ne in IH.
Qed.

Lemma count_one (b : Uuid) (l : list Uuid) : NoDup l → length (filter (b =.) l) = if decide (b ∈ l) then 1 else 0.
Proof.
  induction 1 as [|x l Hx _ IH]; [done|]. rewrite filter_cons. destruct (decide (b = x)) as [->|Hne].
  - cbn. rewrite IH, decide_False, decide_True by set_solver. done.
  - rewrite IH. do 2 case_decide; set_solver.
Qed.

Context (Hnodup : ∀ a, NoDup (successors_of a)).

(** The degree of an item is the number of its predecessors. *)
Lemma count_preds b : length (filter (b =.) (concat (values adjacency))) = waiting ∅ b.
Proof.
  unfold waiting, preds. rewrite difference_empty_L, size_list_to_set by apply NoDup_filter, NoDup_keys.
  unfold values. assert (∀ k, k ∈ keys adjacency → is_Some (adjacency !! k)) as Hks by (intros; by apply elem_of_keys).
  revert Hks. generalize (keys adjacency) as ks. induction ks as [|k ks IH]; intros Hks; [done|].
  destruct (Hks k) as [l Hl]; [by left|]. rewrite filter_cons. cbn [omap list_omap]. rewrite Hl. cbn [concat].
  rewrite filter_app, length_app, IH by (intros; apply Hks; by right).
  pose proof (Hnodup k) as Hk. unfold successors_of in Hk. rewrite Hl in Hk. rewrite count_one by done.
  assert (edge k b ↔ b ∈ l) as Hiff by (unfold edge, successors_of; by rewrite Hl).
  do 2 case_decide; [done|tauto..|done].
Qed.

(** ** One visited item *)

Lemma release_all indegree ready l :
  NoDup l → (∀ s, s ∈ l → ∃ d, indegree !! s = Some (S d)) →
  ∃ indegree' ready', foldM release_successor (indegree, ready) l = Ok (indegree', ready') ∧
    (∀ b, indegree' !! b = if decide (b ∈ l) then pred <$> indegree !! b else indegree !! b) ∧
    (∀ b, b ∈ ready' ↔ b ∈ ready ∨ b ∈ l ∧ indegree !! b = Some 1).
Proof.
  revert indegree ready. induction l as [|s l IH]; intros indegree ready Hnd Hl.
  - exists indegree, ready. split; [done|]. split; intros b; [done|]. set_solver.
  - apply NoDup_cons in Hnd as [Hs Hnd]. destruct (Hl s) as [d Hd]; [by left|].
    cbn [foldM]. unfold release_successor at 1. cbn. rewrite Hd. cbn [ok_or rbind].
    destruct (IH (<[s := d]> indegree) (if d =? 0 then {[s]} ∪ ready else ready) Hnd)
      as (indegree' & ready' & Hfold & Hdeg & Hready).
    { intros x Hx. rewrite lookup_insert_ne by (intros ->; done). apply Hl. by right. }
    exists indegree', ready'. split; [done|]. split; intros b.
    + rewrite Hdeg. destruct (decide (b = s)) as [->|Hne].
      * rewrite decide_False, decide_True, lookup_insert_eq, Hd by set_solver. done.
      * rewrite lookup_insert_ne by done. do 2 case_decide; set_solver.
    + rewrite Hready. destruct (decide (b = s)) as [->|Hne].
      * rewrite Hd. destruct (Nat.eqb_spec d 0) as [->|Hd0]; [set_solver|].
        split; [set_solver|]. intros [?|[_ [= ?]]]; [by left|]. lia.
      * rewrite lookup_insert_ne by done. destruct (d =? 0); set_solver.
Qed.

(** ** The invariant *)

Context (V : gset Uuid) (Hclosed : ∀ a b, edge a b → a ∈ V ∧ b ∈ V).

Record kahn_inv (visited : gset Uuid) (indegree : gmap Uuid nat) (ready : gset Uuid) : Prop := {
  ki_degree : ∀ b, b ∈ V → indegree !! b = Some (waiting visited b);
  ki_ready : ∀ b, b ∈ ready ↔ b ∈ V ∧ (b ∉ visited) ∧ waiting visited b = 0;
  ki_visited : visited ⊆ V;
  ki_rank : ∃ rank : Uuid → nat,
    (∀ x, x ∈ visited → rank x < size visited) ∧ ∀ a b, edge a b → b ∈ visited → a ∈ visited ∧ rank a < rank b
}.

Lemma kahn_step visited indegree ready id :
  kahn_inv visited indegree ready → id ∈ ready →
  ∃ indegree' ready',
    foldM release_successor (indegree, ready ∖ {[id]}) (successors_of id) = Ok (indegree', ready') ∧
    kahn_inv ({[id]} ∪ visited) indegree' ready'.
Proof.
  intros [Hdeg Hready HV (rank & Hrank & Hedges)] Hid. apply Hready in Hid as (HidV & Hfresh & Hzero).
  destruct (release_all indegree (ready ∖ {[id]}) (successors_of id) (Hnodup id)) as (indegree' & ready' & Hfold & Hdeg' & Hready').
  { intros s Hs. exists (waiting ({[id]} ∪ visited) s). rewrite Hdeg by (by apply (Hclosed id)).
    rewrite (waiting_visit visited id s Hfresh). by rewrite decide_True. }
  exists indegree', ready'. split; [done|].
  assert (∀ b, b ∈ V → indegree' !! b = Some (waiting ({[id]} ∪ visited) b)) as Hnew.
  { intros b Hb. rewrite Hdeg', Hdeg, (waiting_visit visited id b Hfresh) by done.
    unfold edge in *. do 2 case_decide; done. }
  split; [done| |set_solver|].
  - intros b. rewrite Hready', elem_of_difference, Hready, elem_of_singleton. fold (edge id b). split.
    + intros [[(Hb & Hnv & Hw) Hne]|[Hedge Hone]].
      * split; [done|]. split; [set_solver|]. pose proof (waiting_visit visited id b Hfresh). lia.
      * destruct (Hclosed _ _ Hedge) as [_ HbV]. rewrite Hdeg in Hone by done. injection Hone as Hone.
        split; [done|]. pose proof (waiting_visit visited id b Hfresh) as Hw. rewrite decide_True in Hw by done.
        split; [|lia]. apply not_elem_of_union. split; [intros ->%elem_of_singleton; lia|].
        intros Hbv. by destruct (Hedges _ _ Hedge Hbv).
    + intros (Hb & Hnv & Hw). pose proof (waiting_visit visited id b Hfresh) as Hsplit. rewrite Hw in Hsplit.
      case_decide; [right|left]; [|set_solver]. split; [done|]. rewrite Hdeg by done. f_equal. lia.
  - assert (size ({[id]} ∪ visited) = S (size visited)) as Hsize.
    { rewrite size_union by set_solver. by rewrite size_singleton. }
    exists (λ x, if decide (x = id) then size visited else rank x). rewrite Hsize. split.
    + intros x Hx. case_decide; [lia|]. assert (x ∈ visited) as Hv by set_solver. specialize (Hrank x Hv). lia.
    + intros a b Hedge Hb. destruct (decide (b = id)) as [->|Hne].
      * pose proof (proj1 (waiting_zero visited id) Hzero a Hedge) as Ha. split; [set_solver|].
        rewrite decide_False by (intros ->; done). by apply Hrank.
      * assert (b ∈ visited) as Hv by set_solver. destruct (Hedges a b Hedge Hv) as [Ha Hlt]. split; [set_solver|].
        rewrite decide_False by (intros ->; done). done.
Qed.

Lemma visit_ready_ends fuel visited indegree ready :
  kahn_inv visited indegree ready → size V < fuel + size visited →
  ∃ final indegree', visit_ready fuel adjacency indegree ready (size visited) = Ok (size final) ∧ kahn_inv final indegree' ∅.
Proof.
  revert visited indegree ready. induction fuel as [|fuel IH]; intros visited indegree ready Hinv Hfuel.
  - pose proof (subseteq_size _ _ (ki_visited _ _ _ Hinv)). lia.
  - cbn [visit_ready]. destruct (pop_first ready) as [[id rest]|] eqn:Hpop.
    + apply pop_first_Some in Hpop as (Hin & -> & _).
      destruct (kahn_step _ _ _ _ Hinv Hin) as (indegree' & ready' & Hfold & Hinv').
      fold (successors_of id). rewrite Hfold. cbn [rbind].
      assert (id ∉ visited) as Hfresh by (by apply (ki_ready _ _ _ Hinv) in Hin as (_ & ? & _)).
      assert (size ({[id]} ∪ visited) = S (size visited)) as Hsize.
      { rewrite size_union by set_solver. by rewrite size_singleton. }
      rewrite <-Hsize. apply IH with (1 := Hinv'). lia.
    + apply pop_first_None in Hpop as ->. by exists visited, indegree.
Qed.

(** ** Cycles *)

Definition acyclic : Prop := ∀ x, ¬ tc edge x x.

Lemma backward_chain (W : gset Uuid) x n :
  (∀ b, b ∈ W → ∃ a, a ∈ W ∧ edge a b) → x ∈ W →
  ∃ l, length l = S n ∧ (∀ y, y ∈ l → y ∈ W) ∧
    ∀ i j y z, i < j → l !! i = Some y → l !! j = Some z → tc edge z y.
Proof.
  intros Hpred Hx. induction n as [|n (l & Hlen & HW & Hchain)].
  - exists [x]. split; [done|]. split; [set_solver|]. intros [|i] [|j] y z Hij Hi Hj; simplify_eq/=; lia.
  - destruct (lookup_lt_is_Some_2 l n) as [last Hlast]; [lia|].
    destruct (Hpred last) as (a & Ha & Hedge); [eapply HW, list_elem_of_lookup_2, Hlast|].
    exists (l ++ [a]). split; [rewrite length_app; cbn; lia|]. split; [set_solver|].
    intros i j y z Hij Hi Hj. apply lookup_app_Some in Hj as [Hj|[Hlj Hj]].
    { apply (Hchain i j); [done|..|done]. apply lookup_lt_Some in Hj. by rewrite lookup_app_l in Hi by lia. }
    apply list_lookup_singleton_Some in Hj as [Hj <-]. rewrite lookup_app_l in Hi by lia.
    destruct (decide (i = n)) as [->|Hne]; [simplify_eq; by constructor|].
    apply tc_l with (y := last); [done|]. apply (Hchain i n); [lia|done..].
Qed.

(** A set in which every item has a predecessor contains a cycle. *)
Lemma no_source_cycle (W : gset Uuid) x :
  (∀ b, b ∈ W → ∃ a, a ∈ W ∧ edge a b) → x ∈ W → ∃ y, tc edge y y.
Proof.
  intros Hpred Hx. destruct (backward_chain W x (size W) Hpred Hx) as (l & Hlen & HW & Hchain).
  destruct (pigeonhole_dup W l HW) as (i & j & y & Hij & Hi & Hj); [lia|]. exists y. by apply (Hchain i j).
Qed.

Lemma ranked_acyclic (rank : Uuid → nat) : (∀ a b, edge a b → rank a < rank b) → acyclic.
Proof.
  intros Hrank x Hx. assert (∀ a b, tc edge a b → rank a < rank b) as Htc.
  { induction 1 as [a b Hab|a b c Hab _ IH]; [by apply Hrank|]. specialize (Hrank a b Hab). lia. }
  specialize (Htc x x Hx). lia.
Qed.

Lemma visited_all_acyclic indegree ready : kahn_inv V indegree ready → acyclic.
Proof.
  intros [_ _ _ (rank & _ & Hrank)]. apply (ranked_acyclic rank). intros a b Hedge.
  apply Hrank; [done|]. by apply (Hclosed a b).
Qed.

Lemma acyclic_visits_all visited indegree : acyclic → kahn_inv visited indegree ∅ → visited = V.
Proof.
  intros Hacyclic Hinv. apply leibniz_equiv. intros x. split; [apply (ki_visited _ _ _ Hinv)|]. intros HxV.
  destruct (decide (x ∈ visited)) as [|Hx]; [done|]. exfalso.
  destruct (no_source_cycle (V ∖ visited) x) as [y Hy]; [|set_solver|by apply (Hacyclic y)].
  intros b [HbV Hb]%elem_of_difference.
  destruct (waiting visited b) eqn:Hw.
  { assert (b ∈ (∅ : gset Uuid)) as []%not_elem_of_empty. by apply (ki_ready _ _ _ Hinv). }
  destruct (set_choose_or_empty (preds b ∖ visited)) as [[a Ha]|Hempty].
  - exists a. apply elem_of_difference in Ha as [Ha%elem_of_preds Hav]. destruct (Hclosed a b Ha). set_solver.
  - unfold waiting in Hw. apply leibniz_equiv in Hempty. rewrite Hempty, size_empty in Hw. done.
Qed.

(** [visit_ready], from the degrees of the graph *)
Lemma kahn_counts degrees :
  (∀ b, b ∈ V ↔ is_Some (degrees !! b)) →
  ∃ indegree n, foldM add_degree ((λ _ : nat, 0) <$> degrees) (concat (values adjacency)) = Ok indegree ∧
    visit_ready (S (size indegree)) adjacency indegree (dom (filter (λ p : Uuid * nat, p.2 = 0) indegree)) 0 = Ok n ∧
    (n = size V ↔ acyclic).
Proof.
  intros HV. destruct (add_degrees_ok ((λ _ : nat, 0) <$> degrees) (concat (values adjacency))) as (indegree & Hfold & Hspec).
  { intros b Hb. rewrite lookup_fmap, fmap_is_Some. apply HV.
    apply list_elem_of_In, in_concat in Hb as (l & Hl%list_elem_of_In & Hb%list_elem_of_In). apply elem_of_values in Hl as [a Ha].
    apply (Hclosed a b). unfold edge, successors_of. by rewrite Ha. }
  assert (∀ b, indegree !! b = (λ _, waiting ∅ b) <$> degrees !! b) as Hdeg.
  { intros b. rewrite Hspec, lookup_fmap, count_preds. by destruct (degrees !! b). }
  assert (dom indegree = V) as Hdom.
  { apply leibniz_equiv. intros b. rewrite elem_of_dom, Hdeg, fmap_is_Some. by rewrite HV. }
  assert (kahn_inv ∅ indegree (dom (filter (λ p : Uuid * nat, p.2 = 0) indegree))) as Hinv.
  { split; [| |set_solver|].
    - intros b Hb. apply HV in Hb as [d Hd]. by rewrite Hdeg, Hd.
    - intros b. rewrite elem_of_dom. split.
      + intros [d [Hd Hz]%map_lookup_filter_Some]. cbn in Hz. subst d. rewrite Hdeg in Hd.
        destruct (degrees !! b) eqn:Hb; [|done]. injection Hd as Hd. split; [by apply HV; rewrite Hb|]. by split; [set_solver|].
      + intros (Hb & _ & Hw). exists 0. apply map_lookup_filter_Some. split; [|done]. rewrite Hdeg. apply HV in Hb as [d Hd].
        rewrite Hd. cbn. by f_equal.
    - exists (λ _, 0). split; set_solver. }
  destruct (visit_ready_ends (S (size indegree)) ∅ indegree _ Hinv) as (final & indegree' & Hvisit & Hfinal).
  { rewrite <-Hdom, size_dom. cbn. lia. }
  rewrite size_empty in Hvisit. exists indegree, (size final). split; [done|]. split; [done|]. split.
  - intros Hsize. assert (final = V) as ->.
    { apply leibniz_equiv, set_subseteq_size_equiv; [apply (ki_visited _ _ _ Hfinal)|lia]. }
    by apply (visited_all_acyclic _ _ Hfinal).
  - intros Hacyclic. by rewrite (acyclic_visits_all _ _ Hacyclic Hfinal).
Qed.
End kahn.
