(* ===== verification/ItemForest.v ===== *)
(** * ItemForest: the hierarchy of the item repository

    The items of ItemStore, trashed ones included, form a forest in the sense of
    Forest.  [validate_item_parent] accepts a parent exactly when it is an active
    item that may have children and the forest stays one; the fuel of its walk
    never runs out.  [recurring_subtree_owners] computes the topmost recurring
    item above each item. *)
From S2P Require Import Prelude Text Platform Civil Domain Forest Rrule Decimal Progress Completion Session Lease ItemDomain CompletionPolicy ItemStore.
Import ItemRepositoryError.

(** ** Chains *)

(** A rooted node is not among those it is a proper ancestor of. *)
Lemma fresh_on_chain (parents : gmap N (option N)) current (below : gset N) :
  rooted parents current → (∀ v, v ∈ below → ∃ k, 0 < k ∧ ancestor parents k v = Some current) → current ∉ below.
Proof. intros Hrooted Hbelow Hin. destruct (Hbelow _ Hin) as (k & Hk & Hc). by apply (cycle_not_rooted parents current k). Qed.

Lemma ancestor_snoc (parents : gmap N (option N)) k v x p :
  ancestor parents k v = Some x → parents !! x = Some (Some p) → ancestor parents (S k) v = Some p.
Proof. intros Hk Hx. replace (S k) with (k + 1) by lia. rewrite (ancestor_add _ _ _ _ _ Hk). cbn. by rewrite Hx. Qed.

Lemma chain_below (parents : gmap N (option N)) (below : gset N) current p :
  parents !! current = Some (Some p) →
  (∀ v, v ∈ below → ∃ k, 0 < k ∧ ancestor parents k v = Some current) →
  ∀ v, v ∈ {[current]} ∪ below → ∃ k, 0 < k ∧ ancestor parents k v = Some p.
Proof.
  intros Hc Hbelow v [->%elem_of_singleton|Hv]%elem_of_union.
  - exists 1. split; [lia|]. cbn. by rewrite Hc.
  - destruct (Hbelow v Hv) as (k & Hk & Ha). exists (S k). split; [lia|]. by apply ancestor_snoc with current.
Qed.

Lemma rooted_present parents id : rooted parents id → is_Some (parents !! id).
Proof. inversion 1; by eexists. Qed.

(** Attaching a node below a rooted one keeps a forest. *)
Lemma forest_attach parents id p :
  forest_ok parents → rooted (<[id := Some p]> parents) p → forest_ok (<[id := Some p]> parents).
Proof.
  intros Hforest Hp.
  assert (rooted (<[id := Some p]> parents) id) as Hid by (eapply rooted_child; [apply lookup_insert_eq|done]).
  intros x Hx. destruct (decide (x = id)) as [->|Hne]; [done|]. rewrite lookup_insert_ne in Hx by done.
  specialize (Hforest x Hx). clear Hx Hne. induction Hforest as [x Hx|x q Hx _ IH].
  - destruct (decide (x = id)) as [->|Hne]; [done|]. apply rooted_root. by rewrite lookup_insert_ne.
  - destruct (decide (x = id)) as [->|Hne]; [done|]. apply rooted_child with q; [by rewrite lookup_insert_ne|done].
Qed.

Lemma forest_detach parents id : forest_ok parents → forest_ok (<[id := None]> parents).
Proof.
  intros Hforest.
  assert (rooted (<[id := None]> parents) id) as Hid by (apply rooted_root, lookup_insert_eq).
  intros x Hx. destruct (decide (x = id)) as [->|Hne]; [done|]. rewrite lookup_insert_ne in Hx by done.
  specialize (Hforest x Hx). clear Hx Hne. induction Hforest as [x Hx|x q Hx _ IH].
  - destruct (decide (x = id)) as [->|Hne]; [done|]. apply rooted_root. by rewrite lookup_insert_ne.
  - destruct (decide (x = id)) as [->|Hne]; [done|]. apply rooted_child with q; [by rewrite lookup_insert_ne|done].
Qed.

Section forest.
Context `{ItemFormats}.

(** ** The parents *)

Definition item_parents_map (items : gmap Uuid Item) : gmap Uuid (option Uuid) := it_parent_id <$> items.

Lemma item_parent_lookup items id : item_parents_map items !! id = it_parent_id <$> items !! id.
Proof. apply lookup_fmap. Qed.

(** The walk of [validate_item_parent] *)
Lemma walk_has_fuel fuel items item_id visited start :
  visited ⊆ dom items → size items < fuel + size visited →
  walk_ancestors fuel items item_id visited start ≠ Err Internal.
Proof.
  revert visited start. induction fuel as [|fuel IH]; intros visited [current|] Hsub Hfuel; [|done| |done].
  - apply subseteq_size in Hsub. rewrite size_dom in Hsub. cbn in Hfuel. lia.
  - cbn [walk_ancestors]. case_match; [done|]. case_bool_decide as Hv; [done|].
    destruct (items !! current) as [item|] eqn:Hi; cbn; [|by destruct fuel].
    apply IH; [by apply elem_of_dom_2 in Hi; set_solver|].
    rewrite size_union, size_singleton by set_solver. lia.
Qed.

Lemma walk_sound fuel items item_id visited p :
  forest_ok (item_parents_map items) → is_Some (items !! p) →
  walk_ancestors fuel items item_id visited (Some p) = Ok tt →
  ∀ parent, rooted (<[item_id := parent]> (item_parents_map items)) p.
Proof.
  intros Hforest. revert visited p. induction fuel as [|fuel IH]; intros visited p Hp Hwalk parent; cbn [walk_ancestors] in Hwalk.
  - repeat case_match; done.
  - destruct (N.eqb_spec p item_id) as [|Hne]; [done|]. case_bool_decide; [done|].
    destruct Hp as [item Hp]. rewrite Hp in Hwalk. cbn in Hwalk.
    assert (item_parents_map items !! p = Some (it_parent_id item)) as Hparent by (by rewrite item_parent_lookup, Hp).
    destruct (it_parent_id item) as [q|].
    + apply rooted_child with q; [by rewrite lookup_insert_ne|]. eapply IH; [|done].
      specialize (Hforest p (mk_is_Some _ _ Hparent)). inversion Hforest as [? Hr|? q' Hr Hq]; simplify_eq/=.
      apply rooted_present in Hq. by rewrite item_parent_lookup, fmap_is_Some in Hq.
    + apply rooted_root. by rewrite lookup_insert_ne.
Qed.

Lemma walk_complete fuel items item_id p visited current :
  let parents := <[item_id := Some p]> (item_parents_map items) in
  rooted parents current → rooted parents p → (∃ k, ancestor parents k p = Some current) →
  (∀ v, v ∈ visited → ∃ k, 0 < k ∧ ancestor parents k v = Some current) →
  visited ⊆ dom items → size items < fuel + size visited →
  walk_ancestors fuel items item_id visited (Some current) = Ok tt.
Proof.
  intros parents Hrooted Hp. revert fuel visited.
  assert (∀ current, (∃ k, ancestor parents k p = Some current) → current ≠ item_id) as Hnot.
  { intros c [k Hk] ->. apply (cycle_not_rooted parents p (S k)); [lia| |done].
    apply ancestor_snoc with item_id; [done|]. apply lookup_insert_eq. }
  induction Hrooted as [c Hc|c q Hc Hq IH]; intros fuel visited Hk Hbelow Hsub Hfuel;
    pose proof (Hnot _ Hk) as Hne; unfold parents in Hc; rewrite lookup_insert_ne, item_parent_lookup in Hc by done;
    destruct (items !! c) as [item|] eqn:Hi; simplify_eq/=;
    (destruct fuel as [|fuel]; [apply subseteq_size in Hsub; rewrite size_dom in Hsub; cbn in Hfuel; lia|]);
    cbn [walk_ancestors]; rewrite (proj2 (N.eqb_neq c item_id) Hne), Hi; cbn.
  - rewrite bool_decide_false; [rewrite Hc; by destruct fuel|]. apply fresh_on_chain with (parents := parents); [|done].
    apply rooted_root. unfold parents. rewrite lookup_insert_ne, item_parent_lookup, Hi by done. cbn. by f_equal.
  - assert (parents !! c = Some (Some q)) as Hcq.
    { unfold parents. rewrite lookup_insert_ne, item_parent_lookup, Hi by done. cbn. by f_equal. }
    assert (c ∉ visited) as Hfresh.
    { apply fresh_on_chain with (parents := parents); [|done]. by apply rooted_child with q. }
    rewrite bool_decide_false, Hc by done. apply IH.
    + destruct Hk as [k Hk]. exists (S k). by apply ancestor_snoc with c.
    + by apply chain_below.
    + apply elem_of_dom_2 in Hi. set_solver.
    + rewrite size_union, size_singleton by set_solver. lia.
Qed.

Lemma active_item_Some items id item :
  active_item items id = Some item ↔ items !! id = Some item ∧ it_deleted_at item = None.
Proof.
  unfold active_item, is_active. destruct (items !! id) as [found|]; cbn; [|naive_solver].
  destruct (it_deleted_at found) eqn:Hd; cbn; naive_solver.
Qed.

Lemma trashed_item_Some items id item :
  trashed_item items id = Some item ↔ items !! id = Some item ∧ is_Some (it_deleted_at item).
Proof.
  unfold trashed_item, is_active. destruct (items !! id) as [found|]; cbn; [|naive_solver].
  destruct (it_deleted_at found) eqn:Hd; cbn.
  - split; [intros [= <-]; split; [done|by eexists]|naive_solver].
  - split; [done|]. intros [[= <-] [? ?]]. congruence.
Qed.

(** What [validate_item_parent] promises. *)
Definition parent_allowed (items : gmap Uuid Item) (states : gmap Uuid ItemCompletionState) (item_id : Uuid)
    (parent_id : option Uuid) : Prop :=
  ∀ p, parent_id = Some p →
  ∃ item, items !! p = Some item ∧ it_deleted_at item = None ∧
    (is_executing_state (it_status item) = true → completion_allows_parent item states = true) ∧
    rooted (<[item_id := Some p]> (item_parents_map items)) p.

Lemma self_not_rooted parents (id : N) : ¬ rooted (<[id := Some id]> parents) id.
Proof. apply cycle_not_rooted with 1; [lia|]. cbn. by rewrite lookup_insert_eq. Qed.

Lemma parent_check_iff items states item_id parent_id :
  forest_ok (item_parents_map items) →
  validate_item_parent items states item_id parent_id = Ok tt ↔ parent_allowed items states item_id parent_id.
Proof.
  intros Hforest. unfold validate_item_parent, parent_allowed. destruct parent_id as [p|]; [|naive_solver].
  destruct (N.eqb_spec p item_id) as [->|Hne].
  { split; [done|]. intros Hall. destruct (Hall item_id eq_refl) as (item & _ & _ & _ & []%self_not_rooted). }
  destruct (active_item items p) as [item|] eqn:Hactive; cbn [ok_or rbind].
  2:{ split; [done|]. intros Hall. destruct (Hall p eq_refl) as (item & Hi & Hd & _).
      rewrite (proj2 (active_item_Some items p item)) in Hactive; done. }
  apply active_item_Some in Hactive as [Hi Hd].
  destruct (is_executing_state (it_status item) && negb (completion_allows_parent item states)) eqn:Hexec.
  - split; [done|]. intros Hall. destruct (Hall p eq_refl) as (item' & Hi' & _ & Hallowed & _). simplify_eq.
    apply andb_true_iff in Hexec as [He Hn]. by rewrite Hallowed in Hn.
  - split.
    + intros Hwalk p' [= <-]. exists item. split; [done|]. split; [done|]. split.
      * intros He. rewrite He in Hexec. by destruct (completion_allows_parent item states).
      * apply (walk_sound _ _ _ _ _ Hforest (mk_is_Some _ _ Hi) Hwalk).
    + intros Hall. destruct (Hall p eq_refl) as (_ & _ & _ & _ & Hr).
      apply walk_complete with (p := p); [done..|by exists 0|set_solver|set_solver|lia].
Qed.

(** ** Recurring owners *)

(** The owner of an item: the one of its parent, or itself when it recurs. *)
Inductive owner_is (items : gmap Uuid Item) : Uuid → option Uuid → Prop :=
| owner_root id : item_parents_map items !! id = Some None →
    owner_is items id (if recurs_item items id then Some id else None)
| owner_inherited id p o : item_parents_map items !! id = Some (Some p) → owner_is items p (Some o) → owner_is items id (Some o)
| owner_own id p : item_parents_map items !! id = Some (Some p) → owner_is items p None →
    owner_is items id (if recurs_item items id then Some id else None).

Lemma owner_is_fun items id o o' : owner_is items id o → owner_is items id o' → o = o'.
Proof.
  intros Ho. revert o'. induction Ho as [id Hp|id p o Hp _ IH|id p Hp _ IH]; intros o' Ho'; inversion Ho'; simplify_eq; try done.
  - by apply IH.
  - by specialize (IH _ ltac:(eassumption)).
  - by specialize (IH _ ltac:(eassumption)).
Qed.

Definition owners_sound (items : gmap Uuid Item) (resolved : gmap Uuid (option Uuid)) : Prop :=
  ∀ id o, resolved !! id = Some o → owner_is items id o.

(** What resolving the path from [current] gives: every item on it and those
    already resolved, and the owner of [current]. *)
Lemma owner_path_resolves items resolved fuel path current path' owner :
  owners_sound items resolved →
  owner_path fuel items resolved path current = Ok (path', owner) →
  ∃ new, path' = path ++ new ∧
    let st := foldl (resolve_owner items) (resolved, owner) (rev new) in
    owners_sound items st.1 ∧ (∀ x, is_Some (resolved !! x) → is_Some (st.1 !! x)) ∧
    match current with
    | Some id => owner_is items id st.2 ∧ is_Some (st.1 !! id)
    | None => st.2 = None
    end.
Proof.
  intros Hsound. revert path current. induction fuel as [|fuel IH]; intros path [id|] Hpath; cbn [owner_path] in Hpath.
  - destruct (resolved !! id) as [cached|] eqn:Hid; [|by case_bool_decide].
    simplify_eq. exists []. rewrite app_nil_r. cbn. split; [done|]. split; [done|]. split; [done|].
    split; [by apply Hsound|by eexists].
  - simplify_eq. exists []. by rewrite app_nil_r.
  - destruct (resolved !! id) as [cached|] eqn:Hid.
    { simplify_eq. exists []. rewrite app_nil_r. cbn. split; [done|]. split; [done|]. split; [done|].
      split; [by apply Hsound|by eexists]. }
    case_bool_decide; [done|]. destruct (items !! id) as [item|] eqn:Hitem; [|done]. cbn [ok_or rbind] in Hpath.
    destruct (IH _ _ Hpath) as (new & -> & Hs & Hmono & Hcur).
    exists (id :: new). split; [by rewrite <-app_assoc|]. cbn [rev]. rewrite foldl_app. cbn [foldl].
    destruct (foldl (resolve_owner items) (resolved, owner) (rev new)) as [res o] eqn:Hst. cbn in Hs, Hmono, Hcur |- *.
    assert (owner_is items id (if negb (is_some o) && recurs_item items id then Some id else o)) as Howner.
    { assert (item_parents_map items !! id = Some (it_parent_id item)) as Hp by (by rewrite item_parent_lookup, Hitem).
      destruct (it_parent_id item) as [p|].
      - destruct Hcur as [Hcur _]. destruct o as [o|]; cbn; [by eapply owner_inherited|by eapply owner_own].
      - subst o. by apply owner_root. }
    split; [|split; [|by rewrite lookup_insert_eq; eauto]].
    + intros x o' Hx. destruct (decide (x = id)) as [->|Hne]; [rewrite lookup_insert_eq in Hx; by simplify_eq|].
      rewrite lookup_insert_ne in Hx by done. by apply Hs.
    + intros x Hx. destruct (decide (x = id)) as [->|Hne]; [rewrite lookup_insert_eq; by eexists|].
      rewrite lookup_insert_ne by done. by apply Hmono.
  - simplify_eq. exists []. by rewrite app_nil_r.
Qed.

Lemma owner_path_total items resolved fuel path current :
  match current with Some id => rooted (item_parents_map items) id | None => True end →
  (∀ v, v ∈ path → ∃ k, 0 < k ∧ match current with Some id => ancestor (item_parents_map items) k v = Some id | None => True end) →
  NoDup path → (∀ v, v ∈ path → v ∈ dom items) → size items < fuel + length path →
  ∃ result, owner_path fuel items resolved path current = Ok result.
Proof.
  intros Hcur. destruct current as [id|]; [|by destruct fuel; eexists].
  revert fuel path. induction Hcur as [id Hid|id p Hid Hp IH]; intros fuel path Hbelow Hnodup Hsub Hfuel.
  all: rewrite item_parent_lookup in Hid; destruct (items !! id) as [item|] eqn:Hi; simplify_eq/=.
  all: assert (rooted (item_parents_map items) id) as Hrooted
         by (first [apply rooted_child with p; [by rewrite item_parent_lookup, Hi; cbn; f_equal|done]
                   |apply rooted_root; rewrite item_parent_lookup, Hi; cbn; by f_equal]).
  all: assert (id ∉ path) as Hfresh.
  1,3: intros Hin; apply (fresh_on_chain (item_parents_map items) id (list_to_set path)); [done| |by apply elem_of_list_to_set];
         intros v Hv%elem_of_list_to_set; by apply Hbelow.
  all: assert (length path ≤ size items) as Hlen.
  1,3: rewrite <-size_dom, <-(size_list_to_set (C := gset Uuid)) by done; apply subseteq_size; intros v Hv%elem_of_list_to_set;
         by apply Hsub.
  all: destruct fuel as [|fuel]; [lia|]; cbn [owner_path]; destruct (resolved !! id); [by eexists|];
         rewrite bool_decide_false, Hi by done; cbn [ok_or rbind].
  - rewrite Hid. by destruct fuel; eexists.
  - rewrite Hid. apply IH.
    + intros v [Hv|Hv]%elem_of_app.
      * destruct (Hbelow v Hv) as (k & Hk & Ha). exists (S k). split; [lia|]. apply ancestor_snoc with id; [done|].
        rewrite item_parent_lookup, Hi. cbn. by f_equal.
      * apply list_elem_of_singleton in Hv as ->. exists 1. split; [lia|]. cbn. by rewrite item_parent_lookup, Hi; cbn; rewrite Hid.
    + by apply NoDup_snoc.
    + intros v [Hv| ->]%elem_of_snoc_iff; [by apply Hsub|by eapply elem_of_dom_2].
    + rewrite length_app. cbn. lia.
Qed.

Lemma resolve_all items ids resolved :
  owners_sound items resolved → (∀ id, id ∈ ids → rooted (item_parents_map items) id) →
  ∃ resolved', foldM (resolve_owners items) resolved ids = Ok resolved' ∧ owners_sound items resolved' ∧
    (∀ x, is_Some (resolved !! x) → is_Some (resolved' !! x)) ∧ ∀ id, id ∈ ids → is_Some (resolved' !! id).
Proof.
  revert resolved. induction ids as [|id ids IH]; intros resolved Hsound Hrooted.
  - exists resolved. split; [done|]. split; [done|]. split; [done|]. set_solver.
  - cbn [foldM]. unfold resolve_owners at 1.
    assert (∃ next, match resolved !! id with
                    | Some _ => Ok resolved
                    | None => let? (path, owner) := owner_path (S (size items)) items resolved [] (Some id) in
                              Ok (foldl (resolve_owner items) (resolved, owner) (rev path)).1
                    end = Ok next ∧ owners_sound items next ∧ is_Some (next !! id) ∧
                    ∀ x, is_Some (resolved !! x) → is_Some (next !! x)) as (next & Hnext & Hs & Hid & Hmono).
    { destruct (resolved !! id) eqn:Hid; [exists resolved; rewrite Hid; eauto|].
      destruct (owner_path_total items resolved (S (size items)) [] (Some id)) as [[path owner] Hpath];
        [apply Hrooted; by left|set_solver|constructor|set_solver|cbn; lia|].
      rewrite Hpath. cbn [rbind]. eexists. split; [done|].
      destruct (owner_path_resolves _ _ _ _ _ _ _ Hsound Hpath) as (new & Hnew & Hs & Hmono & _ & Hcur).
      cbn in Hnew. subst new. done. }
    rewrite Hnext. cbn [rbind].
    destruct (IH next Hs) as (resolved' & Hfold & Hs' & Hmono' & Hall); [intros x Hx; apply Hrooted; by right|].
    exists resolved'. split; [done|]. split; [done|]. split; [auto|]. intros x [->|Hx]%elem_of_cons; auto.
Qed.

Lemma recurring_owners_spec items :
  forest_ok (item_parents_map items) →
  ∃ owners, recurring_subtree_owners items = Ok owners ∧ ∀ id o, owners !! id = Some o ↔ owner_is items id (Some o).
Proof.
  intros Hforest. destruct (resolve_all items (keys items) ∅) as (resolved & Hfold & Hsound & _ & Hall).
  { by intros x o. }
  { intros x [item Hx]%elem_of_keys. apply Hforest. rewrite item_parent_lookup, Hx. by eexists. }
  unfold recurring_subtree_owners. rewrite Hfold. cbn [rbind]. eexists. split; [done|].
  intros x o. rewrite lookup_omap. split.
  - intros Hx. destruct (resolved !! x) as [o'|] eqn:Ho; [|done]. cbn in Hx. subst o'. by apply Hsound.
  - intros Ho. assert (x ∈ keys items) as Hin.
    { apply elem_of_keys. inversion Ho as [? Hp|? ? ? Hp|? ? Hp]; subst; rewrite item_parent_lookup in Hp;
        (destruct (items !! x); [by eexists|done]). }
    destruct (Hall x Hin) as [o' Ho']. rewrite Ho'. cbn. apply (owner_is_fun items x); [by apply Hsound|done].
Qed.

(** The topmost recurring item among an item and its ancestors. *)
Definition topmost_recurring (items : gmap Uuid Item) (id owner : Uuid) : Prop :=
  ∃ k, ancestor (item_parents_map items) k id = Some owner ∧ recurs_item items owner = true ∧
    ∀ j y, k < j → ancestor (item_parents_map items) j id = Some y → recurs_item items y = false.

Lemma ancestor_step items id p j y :
  item_parents_map items !! id = Some (Some p) →
  ancestor (item_parents_map items) j id = Some y ↔
  (j = 0 ∧ y = id) ∨ ∃ i, j = S i ∧ ancestor (item_parents_map items) i p = Some y.
Proof.
  intros Hp. destruct j as [|j]; cbn.
  - split; [intros [= ->]; by left|]. intros [[_ ->]|(i & ? & _)]; done.
  - rewrite Hp. split; [intros; right; by exists j|]. intros [[? _]|(i & [= ->] & ?)]; done.
Qed.

Lemma owner_spec items id o :
  owner_is items id o →
  match o with
  | Some owner => topmost_recurring items id owner
  | None => ∀ j y, ancestor (item_parents_map items) j id = Some y → recurs_item items y = false
  end.
Proof.
  induction 1 as [id Hp|id p o Hp _ IH|id p Hp _ IH].
  - assert (∀ j y, ancestor (item_parents_map items) j id = Some y → j = 0 ∧ y = id) as Hself.
    { intros [|j] y Ha; cbn in Ha; [by simplify_eq|]. by rewrite Hp in Ha. }
    destruct (recurs_item items id) eqn:Hr.
    + exists 0. split; [done|]. split; [done|]. intros j y Hj Ha. destruct (Hself _ _ Ha). lia.
    + intros j y Ha. by destruct (Hself _ _ Ha) as [_ ->].
  - destruct IH as (k & Hk & Hr & Habove). exists (S k).
    split; [apply (ancestor_step items id p); [done|]; right; by exists k|]. split; [done|].
    intros j y Hj Ha. apply (ancestor_step items id p) in Ha as [[-> _]|(i & -> & Ha)]; [lia| |done].
    apply (Habove i); [lia|done].
  - destruct (recurs_item items id) eqn:Hr.
    + exists 0. split; [done|]. split; [done|]. intros j y Hj Ha.
      apply (ancestor_step items id p) in Ha as [[-> _]|(i & -> & Ha)]; [lia| |done]. by apply (IH i).
    + intros j y Ha. apply (ancestor_step items id p) in Ha as [[_ ->]|(i & -> & Ha)]; [done| |done]. by apply (IH i).
Qed.

Lemma owner_total items id : rooted (item_parents_map items) id → ∃ o, owner_is items id o.
Proof.
  induction 1 as [id Hp|id p Hp _ [o Ho]]; [eexists; by apply owner_root|].
  destruct o as [o|]; eexists; [by eapply owner_inherited|by eapply owner_own].
Qed.

Lemma owner_topmost items id owner :
  rooted (item_parents_map items) id → owner_is items id (Some owner) ↔ topmost_recurring items id owner.
Proof.
  intros Hrooted. split; [apply (owner_spec items id (Some owner))|]. intros (k & Hk & Hr & Habove).
  destruct (owner_total items id Hrooted) as [o Ho]. pose proof (owner_spec _ _ _ Ho) as Hspec.
  destruct o as [o|]; [|by rewrite (Hspec _ _ Hk) in Hr]. destruct Hspec as (k' & Hk' & Hr' & Habove').
  destruct (lt_eq_lt_dec k k') as [[Hlt| ->]|Hlt].
  - by rewrite (Habove _ _ Hlt Hk') in Hr'.
  - by simplify_eq.
  - by rewrite (Habove' _ _ Hlt Hk) in Hr.
Qed.
End forest.
