(* ===== verification/ItemGraph.v ===== *)
(** * ItemGraph: what the dependency check of the item repository decides

    [validate_dependency_graph] of ItemStore accepts a forest of items exactly
    when every dependency decodes, names a stored item and stays inside the
    recurring subtree of its predecessor, and no item precedes itself, where an
    item precedes another by a dependency or as the previous child of an ordered
    routine.  The check reads only the [Shape] of the items, and moving an item
    to the trash keeps a graph accepted. *)
From S2P Require Import Prelude Text Platform Civil Domain Forest Rrule Decimal Progress Completion Session Lease ItemDomain CompletionPolicy ItemStore Kahn ItemForest.
Import ItemRepositoryError.

(** ** Neighbours of a list *)

Lemma neighbours_cons {A} (x y : A) l : neighbours (x :: y :: l) = (x, y) :: neighbours (y :: l).
Proof. done. Qed.

Lemma elem_of_neighbours {A} (l : list A) a b : (a, b) ∈ neighbours l → a ∈ l ∧ b ∈ l.
Proof.
  unfold neighbours. intros Hin. split.
  - by apply elem_of_zip_l in Hin.
  - apply elem_of_zip_r in Hin. destruct l; [done|]. by right.
Qed.

Lemma neighbours_fmap {A B} (f : A → B) (l : list A) : (λ p, (f p.1, f p.2)) <$> neighbours l = neighbours (f <$> l).
Proof. induction l as [|x [|y l] IH]; [done..|]. rewrite neighbours_cons, fmap_cons, IH. done. Qed.

Lemma neighbours_pair {A} (l : list A) a b : (a, b) ∈ neighbours l → [a; b] `sublist_of` l.
Proof.
  induction l as [|x [|y l] IH]; [by intros ?%elem_of_nil..|]. rewrite neighbours_cons. intros [[= -> ->]|Hin]%elem_of_cons.
  - apply sublist_skip, sublist_skip, sublist_nil_l.
  - by apply sublist_cons, IH.
Qed.

Lemma pair_neighbours {A} (l : list A) a b : [a; b] `sublist_of` l → tc (λ u v : A, (u, v) ∈ neighbours l) a b.
Proof.
  assert (∀ (l : list A) (x a b : A), tc (λ u v : A, (u, v) ∈ neighbours l) a b → tc (λ u v : A, (u, v) ∈ neighbours (x :: l)) a b) as Hmono.
  { intros k x c d. apply (tc_congruence (λ u : A, u)). intros u v Huv. destruct k; [by apply elem_of_nil in Huv|].
    rewrite neighbours_cons. by right. }
  assert (∀ (l : list A) (x b : A), b ∈ l → tc (λ u v : A, (u, v) ∈ neighbours (x :: l)) x b) as Hhead.
  { intros k. induction k as [|y k IH]; intros x c Hc; [by apply elem_of_nil in Hc|].
    assert ((x, y) ∈ neighbours (x :: y :: k)) as Hxy by (rewrite neighbours_cons; by left).
    apply elem_of_cons in Hc as [->|Hc]; [by constructor|].
    apply tc_l with y; [done|]. apply Hmono, IH, Hc. }
  induction l as [|x l IH]; intros Hsub; [by apply sublist_nil_r in Hsub|].
  apply sublist_cons_r in Hsub as [Hsub|(l' & [= -> <-] & Hsub)].
  - apply Hmono, IH, Hsub.
  - apply Hhead. by apply sublist_cons_l in Hsub as (k1 & k2 & -> & _); set_solver.
Qed.

Lemma filter_fmap {A B} (f : A → B) (P : B → Prop) `{∀ x, Decision (P x)} (l : list A) :
  filter P (f <$> l) = f <$> filter (λ x, P (f x)) l.
Proof. induction l as [|x l IH]; [done|]. rewrite fmap_cons, !filter_cons. case_decide; [|done]. by rewrite IH. Qed.

Lemma tc_of_tc {A} (R R' : A → A → Prop) x y : (∀ a b, R a b → tc R' a b) → tc R x y → tc R' x y.
Proof. intros Hsub. induction 1 as [a b Hab|a b c Hab _ IH]; [by apply Hsub|]. apply tc_trans with b; [by apply Hsub|done]. Qed.

Section graph.
Context `{ItemFormats}.

(** ** The graph *)

Definition depends_on (items : gmap Uuid Item) (successor predecessor : Uuid) : Prop :=
  ∃ item deps d, items !! successor = Some item ∧ item_dependencies item = Ok deps ∧ d ∈ deps ∧ dep_item_id d = predecessor.

(** The child just before in an ordered routine. *)
Definition ordered_before (items : gmap Uuid Item) (a b : Uuid) : Prop :=
  ∃ routine, routine ∈ values items ∧ is_ordered routine = true ∧ (a, b) ∈ routine_edges items routine.

Definition precedes (items : gmap Uuid Item) (a b : Uuid) : Prop := depends_on items b a ∨ ordered_before items a b.

Record graph_ok (items : gmap Uuid Item) : Prop := {
  go_decodes : ∀ id item, items !! id = Some item → ∃ deps, item_dependencies item = Ok deps;
  go_known : ∀ a b, depends_on items b a → is_Some (items !! a);
  go_owner : ∀ a b owner, depends_on items b a → topmost_recurring items a owner → topmost_recurring items b owner;
  go_acyclic : ∀ x, ¬ tc (precedes items) x x
}.

(** Every item is stored under its identifier. *)
Definition keys_ok (items : gmap Uuid Item) : Prop := ∀ id item, items !! id = Some item → it_id item = id.

(** ** The edges *)

Lemma add_edges_spec (es : list (Uuid * Uuid)) (g : Graph) :
  (∀ a b, b ∈ default [] ((foldl add_dependency_edge g es).1 !! a) ↔ b ∈ default [] (g.1 !! a) ∨ (a, b) ∈ es) ∧
  (∀ b, is_Some ((foldl add_dependency_edge g es).2 !! b) ↔ is_Some (g.2 !! b) ∨ ∃ a, (a, b) ∈ es).
Proof.
  revert g. induction es as [|[x y] es IH]; intros g; cbn [foldl].
  { split; intros; set_solver. }
  destruct (IH (add_dependency_edge g (x, y))) as [Hsucc Hdeg]. split.
  - intros a b. rewrite Hsucc. cbn. rewrite elem_of_cons. destruct (decide (a = x)) as [->|Hne].
    + rewrite lookup_insert_eq. cbn. rewrite elem_of_snoc_iff. naive_solver.
    + rewrite lookup_insert_ne by done. naive_solver.
  - intros b. rewrite Hdeg. cbn. setoid_rewrite elem_of_cons. destruct (decide (b = y)) as [->|Hne].
    + rewrite lookup_insert_eq. split; [|by left]. intros _. right. exists x. by left.
    + rewrite lookup_insert_ne by done. naive_solver.
Qed.

Definition edges_of (entry : Uuid * Item) : list (Uuid * Uuid) :=
  match item_dependencies entry.2 with Ok deps => (λ d, (dep_item_id d, entry.1)) <$> deps | Err _ => [] end.

(** An entry passes the checks on its dependencies. *)
Definition entry_ok (items : gmap Uuid Item) (owners : gmap Uuid Uuid) (entry : Uuid * Item) : Prop :=
  ∃ deps, item_dependencies entry.2 = Ok deps ∧
    ∀ d, d ∈ deps → is_Some (items !! dep_item_id d) ∧
      ∀ owner, owners !! dep_item_id d = Some owner → owners !! entry.1 = Some owner.

Lemma check_dependencies_iff items owners id deps g g' :
  foldM (check_dependency items owners id) g deps = Ok g' ↔
  (∀ d, d ∈ deps → is_Some (items !! dep_item_id d) ∧
     ∀ owner, owners !! dep_item_id d = Some owner → owners !! id = Some owner) ∧
  g' = foldl add_dependency_edge g ((λ d, (dep_item_id d, id)) <$> deps).
Proof.
  revert g. induction deps as [|d deps IH]; intros g.
  { cbn. split; [intros [= ->]; split; [set_solver|done]|by intros [_ ->]]. }
  cbn [foldM fmap list_fmap foldl]. unfold check_dependency at 1.
  destruct (items !! dep_item_id d) as [item|] eqn:Hd; cbn [is_some negb].
  2:{ split; [done|]. intros [Hall _]. destruct (Hall d) as [[? Hd'] _]; [by left|]. congruence. }
  destruct (match owners !! dep_item_id d with Some o => negb (bool_decide (owners !! id = Some o)) | None => false end) eqn:Hcross.
  - split; [done|]. intros [Hall _]. destruct (owners !! dep_item_id d) as [o|] eqn:Ho; [|done].
    apply negb_true_iff, bool_decide_eq_false in Hcross. destruct (Hall d) as [_ Hown]; [by left|].
    by destruct Hcross; apply Hown.
  - cbn [rbind]. rewrite IH. assert (∀ owner, owners !! dep_item_id d = Some owner → owners !! id = Some owner) as Hown.
    { intros o Ho. rewrite Ho in Hcross. by apply negb_false_iff, bool_decide_eq_true in Hcross. }
    split; intros [Hall ->]; (split; [|done]).
    + intros d' [->|Hd']%elem_of_cons; [split; [by eexists|done]|by apply Hall].
    + intros d' Hd'. apply Hall. by right.
Qed.

Lemma explicit_edges_iff items owners es g g' :
  foldM (explicit_edges items owners) g es = Ok g' ↔
  (∀ entry, entry ∈ es → entry_ok items owners entry) ∧ g' = foldl add_dependency_edge g (es ≫= edges_of).
Proof.
  revert g. induction es as [|entry es IH]; intros g.
  { cbn. split; [intros [= ->]; split; [set_solver|done]|by intros [_ ->]]. }
  cbn [foldM]. rewrite rbind_ok. rewrite bind_cons, foldl_app. unfold explicit_edges at 1. setoid_rewrite rbind_ok.
  setoid_rewrite map_err_ok. setoid_rewrite check_dependencies_iff. setoid_rewrite IH. split.
  - intros (mid & (deps & Hdeps & Hall & ->) & Hrest & ->). 
    assert (edges_of entry = (λ d, (dep_item_id d, entry.1)) <$> deps) as -> by (unfold edges_of; by rewrite Hdeps). split; [|done].
    intros e [->|He]%elem_of_cons; [by exists deps|by apply Hrest].
  - intros [Hall ->]. destruct (Hall entry) as (deps & Hdeps & Hd); [by left|].
    eexists. split; [exists deps; split; [done|]; split; [done|reflexivity]|].
    assert (edges_of entry = (λ d, (dep_item_id d, entry.1)) <$> deps) as -> by (unfold edges_of; by rewrite Hdeps). split; [|done]. intros e He. apply Hall. by right.
Qed.

Lemma elem_of_edges items a b : (a, b) ∈ entries items ≫= edges_of ↔ depends_on items b a.
Proof.
  rewrite list_elem_of_bind. unfold depends_on. split.
  - intros ([id item] & Hin & He%elem_of_entries). unfold edges_of in Hin. cbn in Hin.
    destruct (item_dependencies item) as [deps|] eqn:Hdeps; [|set_solver].
    apply list_elem_of_fmap in Hin as (d & [= -> ->] & Hd). eauto 10.
  - intros (item & deps & d & Hb & Hdeps & Hd & <-). exists (b, item). rewrite elem_of_entries. split; [|done].
    unfold edges_of. cbn. rewrite Hdeps. apply list_elem_of_fmap. eauto.
Qed.

Lemma elem_of_routine_edges items a b : (a, b) ∈ all_routine_edges items ↔ ordered_before items a b.
Proof.
  unfold all_routine_edges, ordered_before. rewrite list_elem_of_bind. setoid_rewrite list_elem_of_filter. naive_solver.
Qed.

Lemma elem_of_routine_children items routine item :
  item ∈ routine_children items routine ↔
  (∃ id, items !! id = Some item) ∧ it_deleted_at item = None ∧ it_parent_id item = Some (it_id routine).
Proof.
  unfold routine_children, is_child_of, is_active. rewrite elem_of_sort_by, list_elem_of_filter, elem_of_values, andb_true_iff, bool_decide_eq_true.
  destruct (it_deleted_at item); cbn; naive_solver.
Qed.

Lemma ordered_known items a b : keys_ok items → ordered_before items a b → is_Some (items !! a) ∧ is_Some (items !! b).
Proof.
  intros Hkeys (routine & _ & _ & Hin). unfold routine_edges in Hin.
  apply list_elem_of_fmap in Hin as ([x y] & [= -> ->] & Hin). apply elem_of_neighbours in Hin as [Hx Hy].
  apply elem_of_routine_children in Hx as [[i Hi] _], Hy as [[j Hj] _].
  rewrite (Hkeys _ _ Hi), (Hkeys _ _ Hj), Hi, Hj. by split; eexists.
Qed.

Lemma depends_successor items a b : depends_on items b a → is_Some (items !! b).
Proof. intros (item & ? & ? & -> & _). by eexists. Qed.

(** ** The check *)

Lemma entries_ok_iff items owners :
  (∀ id o, owners !! id = Some o ↔ topmost_recurring items id o) →
  (∀ entry, entry ∈ entries items → entry_ok items owners entry) ↔
  (∀ id item, items !! id = Some item → ∃ deps, item_dependencies item = Ok deps) ∧
  (∀ a b, depends_on items b a → is_Some (items !! a)) ∧
  (∀ a b owner, depends_on items b a → topmost_recurring items a owner → topmost_recurring items b owner).
Proof.
  intros Howners. split.
  - intros Hall. assert (∀ id item, items !! id = Some item → entry_ok items owners (id, item)) as Hentry.
    { intros id item Hi. by apply Hall, elem_of_entries. }
    split; [intros id item Hi; by destruct (Hentry _ _ Hi) as (deps & Hd & _); exists deps|].
    split; intros a b; [|intros owner]; intros (item & deps & d & Hb & Hdeps & Hd & <-);
      destruct (Hentry _ _ Hb) as (deps' & Hdeps' & Hok); cbn in Hdeps', Hok; rewrite Hdeps in Hdeps'; injection Hdeps' as <-; destruct (Hok _ Hd) as [Hknown Hown]; [done|].
    rewrite <-!Howners. apply Hown.
  - intros (Hdec & Hknown & Hown) [id item] Hi%elem_of_entries. destruct (Hdec _ _ Hi) as [deps Hdeps].
    exists deps. split; [done|]. intros d Hd. assert (depends_on items id (dep_item_id d)) as Hdep by (exists item, deps, d; done).
    split; [by apply (Hknown _ id)|]. intros owner. rewrite !Howners. by apply Hown.
Qed.

(** The graph of accepted dependencies and ordered routines: its successors,
    sorted and without duplicates. *)
Definition item_graph (items : gmap Uuid Item) : Graph :=
  foldl add_dependency_edge (foldl add_dependency_edge ((λ _, []) <$> items, (λ _, 0) <$> items) (entries items ≫= edges_of))
    (all_routine_edges items).

Lemma item_graph_edge items a b : edge (sort_dedup_N <$> (item_graph items).1) a b ↔ precedes items a b.
Proof.
  unfold edge, successors_of, precedes. rewrite lookup_fmap.
  transitivity (b ∈ default [] ((item_graph items).1 !! a)).
  { destruct ((item_graph items).1 !! a); cbn; [apply elem_of_sort_dedup_N|done]. }
  unfold item_graph. rewrite (proj1 (add_edges_spec _ _)), (proj1 (add_edges_spec _ _)), elem_of_edges, elem_of_routine_edges.
  cbn. rewrite lookup_fmap. destruct (items !! a); cbn; set_solver.
Qed.

Lemma item_graph_items items b :
  keys_ok items → b ∈ dom items ↔ is_Some ((item_graph items).2 !! b).
Proof.
  intros Hkeys. unfold item_graph. rewrite (proj2 (add_edges_spec _ _)), (proj2 (add_edges_spec _ _)). cbn.
  rewrite lookup_fmap, fmap_is_Some, elem_of_dom. setoid_rewrite elem_of_edges. setoid_rewrite elem_of_routine_edges.
  split; [by left; left|]. intros [[Hb|[a Ha]]|[a Ha]]; [done|by eapply depends_successor|by eapply ordered_known].
Qed.

(** [validate_dependency_graph] decides [graph_ok], and never fails for an
    internal reason. *)
Lemma dependency_check_iff items :
  keys_ok items → forest_ok (item_parents_map items) →
  (validate_dependency_graph items = Ok tt ↔ graph_ok items) ∧ validate_dependency_graph items ≠ Err Internal.
Proof.
  intros Hkeys Hforest. destruct (recurring_owners_spec items Hforest) as (owners & Howners & Hspec).
  assert (∀ id o, owners !! id = Some o ↔ topmost_recurring items id o) as Htop.
  { intros id o. rewrite Hspec. split; [apply (owner_spec items id (Some o))|]. intros Ht. apply owner_topmost; [|done].
    destruct Ht as (k & Hk & Hr & _). apply Hforest. destruct k as [|k]; cbn in Hk.
    - simplify_eq. unfold recurs_item in Hr. rewrite item_parent_lookup. destruct (items !! o); [by eexists|done].
    - destruct (item_parents_map items !! id); [by eexists|done]. }
  pose proof (entries_ok_iff items owners Htop) as Hentries.
  unfold validate_dependency_graph. rewrite Howners. cbn [rbind].
  destruct (foldM (explicit_edges items owners) _ (entries items)) as [g|e] eqn:Hexplicit; cbn [rbind].
  - apply explicit_edges_iff in Hexplicit as [Hok ->]. apply Hentries in Hok as (Hdec & Hknown & Hown).
    fold (item_graph items).
    destruct (kahn_counts (sort_dedup_N <$> (item_graph items).1)) with (V := dom items) (degrees := (item_graph items).2)
      as (indegree & n & -> & Hvisit & Hn).
    + intros a. unfold successors_of. rewrite lookup_fmap. destruct ((item_graph items).1 !! a); cbn; [apply NoDup_sort_dedup_N|constructor].
    + intros a b. rewrite item_graph_edge, !elem_of_dom. intros [Hab|Hab]; [|by apply ordered_known].
      split; [by apply (Hknown a b)|by eapply depends_successor].
    + intros b. by apply item_graph_items.
    + cbn [rbind]. rewrite Hvisit. cbn [rbind]. rewrite size_dom in Hn.
      assert (acyclic (sort_dedup_N <$> (item_graph items).1) ↔ ∀ x, ¬ tc (precedes items) x x) as Hacyclic.
      { unfold acyclic. split; intros Hno x Hx; apply (Hno x); revert Hx; apply (tc_congruence (λ u, u));
          intros u v Huv; by apply item_graph_edge. }
      destruct (Nat.eqb_spec n (size items)) as [Heq|Hne]; (split; [|done]); (split; [|]).
      * intros _. split; [done..|]. by apply Hacyclic, Hn.
      * done.
      * done.
      * intros [_ _ _ Hno]. by destruct Hne; apply Hn, Hacyclic.
  - split; [split; [done|]|].
    + intros [Hdec Hknown Hown _]. exfalso.
      assert (foldM (explicit_edges items owners) ((λ _, []) <$> items, (λ _, 0) <$> items) (entries items) = Ok
        (foldl add_dependency_edge ((λ _, []) <$> items, (λ _, 0) <$> items) (entries items ≫= edges_of))) as Hfold.
      { apply explicit_edges_iff. split; [|done]. by apply Hentries. }
      congruence.
    + intros [= ->]. apply foldM_Err in Hexplicit as (l1 & x & l2 & st & _ & _ & Hx).
      unfold explicit_edges in Hx. destruct (item_dependencies x.2) as [deps|]; cbn in Hx; [|done].
      apply foldM_Err in Hx as (k1 & d & k2 & st' & _ & _ & Hd). unfold check_dependency in Hd.
      repeat case_match; done.
Qed.

(** ** What the check reads *)

Record Shape : Type := {
  sh_id : Uuid;
  sh_parent_id : option Uuid;
  sh_sibling_order : N;
  sh_is_active : bool;
  sh_is_ordered : bool;
  sh_recurs : bool;
  sh_dependencies : result ItemDomainError (list Dependency)
}.

Definition shape (item : Item) : Shape :=
  {| sh_id := it_id item; sh_parent_id := it_parent_id item; sh_sibling_order := it_sibling_order item;
     sh_is_active := is_active item; sh_is_ordered := is_ordered item; sh_recurs := is_some (it_recurrence item);
     sh_dependencies := item_dependencies item |}.

Definition same_shape (items items' : gmap Uuid Item) : Prop := shape <$> items = shape <$> items'.

#[export] Instance same_shape_equivalence : Equivalence same_shape.
Proof. split; [done|by intros ???|by intros ????; unfold same_shape; congruence]. Qed.

Lemma same_shape_lookup items items' id item :
  same_shape items items' → items !! id = Some item → ∃ item', items' !! id = Some item' ∧ shape item' = shape item.
Proof.
  intros Hsame Hi. assert ((shape <$> items') !! id = Some (shape item)) as Hs by (by rewrite <-Hsame, lookup_fmap, Hi).
  rewrite lookup_fmap in Hs. destruct (items' !! id) as [item'|]; [|done]. exists item'. split; [done|]. by apply (inj Some) in Hs.
Qed.

Lemma same_shape_insert items id item item' :
  items !! id = Some item → shape item' = shape item → same_shape (<[id := item']> items) items.
Proof.
  intros Hi Hs. unfold same_shape. rewrite fmap_insert, Hs. apply insert_id. by rewrite lookup_fmap, Hi.
Qed.

Lemma same_shape_parents items items' : same_shape items items' → item_parents_map items = item_parents_map items'.
Proof.
  intros Hsame. apply map_eq. intros id. rewrite !item_parent_lookup.
  assert ((shape <$> items) !! id = (shape <$> items') !! id) as Hs by (by rewrite Hsame).
  rewrite !lookup_fmap in Hs. destruct (items !! id), (items' !! id); simplify_eq/=; [|done]. by f_equal.
Qed.

Lemma same_shape_keys items items' : same_shape items items' → keys_ok items → keys_ok items'.
Proof.
  intros Hsame Hkeys id item' Hi. destruct (same_shape_lookup items' items id item') as (item & Hitem & Hs); [by symmetry|done|].
  injection Hs as Hs _ _ _ _ _ _. rewrite <-Hs. by apply Hkeys.
Qed.

Lemma same_shape_recurs items items' id : same_shape items items' → recurs_item items id = recurs_item items' id.
Proof.
  intros Hsame. unfold recurs_item. assert ((shape <$> items) !! id = (shape <$> items') !! id) as Hs by (by rewrite Hsame).
  rewrite !lookup_fmap in Hs. by destruct (items !! id), (items' !! id); simplify_eq/=.
Qed.

Lemma same_shape_topmost items items' id owner :
  same_shape items items' → topmost_recurring items id owner → topmost_recurring items' id owner.
Proof.
  intros Hsame (k & Hk & Hr & Habove). exists k. rewrite <-(same_shape_parents items items'), <-(same_shape_recurs items items') by done.
  split; [done|]. split; [done|]. intros j y Hj Ha. rewrite <-(same_shape_recurs items items') by done. by apply (Habove j).
Qed.

Lemma same_shape_depends items items' a b : same_shape items items' → depends_on items b a → depends_on items' b a.
Proof.
  intros Hsame (item & deps & d & Hb & Hdeps & Hd & <-).
  destruct (same_shape_lookup _ _ _ _ Hsame Hb) as (item' & Hb' & Hs). exists item', deps, d. split; [done|].
  injection Hs as _ _ _ _ _ _ Hs. by rewrite Hs.
Qed.

Definition shape_leb (a b : Shape) : bool :=
  is_le (then_with (sh_sibling_order a ?= sh_sibling_order b)%N (sh_id a ?= sh_id b)%N).

(** The children of a routine, from the shapes of the items. *)
Lemma routine_children_shape items routine :
  shape <$> routine_children items routine =
  sort_by shape_leb (filter (λ s, sh_is_active s && bool_decide (sh_parent_id s = Some (it_id routine)) = true) (values (shape <$> items))).
Proof.
  unfold routine_children. rewrite (fmap_sort_by shape sibling_leb shape_leb) by done. f_equal.
  by rewrite values_fmap, filter_fmap.
Qed.

Lemma routine_edges_neighbours items routine :
  routine_edges items routine = neighbours (sh_id <$> (shape <$> routine_children items routine)).
Proof. unfold routine_edges. rewrite neighbours_fmap. f_equal. by rewrite <-list_fmap_compose. Qed.

Lemma same_shape_ordered items items' a b : same_shape items items' → ordered_before items a b → ordered_before items' a b.
Proof.
  intros Hsame (routine & [id Hr]%elem_of_values & Hordered & Hin).
  destruct (same_shape_lookup _ _ _ _ Hsame Hr) as (routine' & Hr' & Hs). exists routine'.
  split; [by apply elem_of_values; exists id|]. injection Hs as Hid _ _ _ Ho _ _. split; [by rewrite Ho|].
  rewrite routine_edges_neighbours, routine_children_shape in Hin |- *. by rewrite Hid, <-Hsame.
Qed.

Lemma same_shape_precedes items items' a b : same_shape items items' → precedes items a b → precedes items' a b.
Proof. intros Hsame [Hab|Hab]; [left; by eapply same_shape_depends|right; by eapply same_shape_ordered]. Qed.

Lemma same_shape_graph_ok items items' : same_shape items items' → graph_ok items → graph_ok items'.
Proof.
  intros Hsame [Hdec Hknown Hown Hno]. assert (same_shape items' items) as Hback by done. split.
  - intros id item' Hi. destruct (same_shape_lookup _ _ _ _ Hback Hi) as (item & Hitem & Hs).
    destruct (Hdec _ _ Hitem) as [deps Hdeps]. exists deps. injection Hs as _ _ _ _ _ _ Hs. congruence.
  - intros a b Hab. destruct (Hknown a b) as [item Ha]; [by eapply same_shape_depends|].
    destruct (same_shape_lookup _ _ _ _ Hsame Ha) as (item' & -> & _). by eexists.
  - intros a b owner Hab Ha. apply (same_shape_topmost items items'); [done|].
    apply (Hown a); [by eapply same_shape_depends|by eapply same_shape_topmost].
  - intros x Hx. apply (Hno x). revert Hx. apply (tc_congruence (λ u, u)). intros u v. by apply same_shape_precedes.
Qed.

(** ** Moving an item to the trash *)

Lemma sibling_leb_total x y : sibling_leb x y = false → sibling_leb y x = true.
Proof. apply (lawful_leb_total (λ a b, then_with (it_sibling_order a ?= it_sibling_order b)%N (it_id a ?= it_id b)%N)). auto with dayweave. Qed.

Lemma sibling_leb_trans x y z : sibling_leb x y = true → sibling_leb y z = true → sibling_leb x z = true.
Proof. apply (lawful_leb_trans (λ a b, then_with (it_sibling_order a ?= it_sibling_order b)%N (it_id a ?= it_id b)%N)). auto with dayweave. Qed.

(** An inactive item takes no part among the children of a routine. *)
Lemma routine_children_trash items id item item' routine :
  keys_ok items → items !! id = Some item → is_active item' = false →
  routine_children (<[id := item']> items) routine = filter (λ x, it_id x ≠ id) (routine_children items routine).
Proof.
  intros Hkeys Hi Hinactive. unfold routine_children. rewrite (filter_sort_by _ sibling_leb_total sibling_leb_trans). f_equal.
  unfold values. assert (keys (<[id := item']> items) = keys items) as ->.
  { rewrite <-(keys_fmap (λ _, tt) (<[id := item']> items)), <-(keys_fmap (λ _, tt) items). f_equal.
    rewrite fmap_insert. apply insert_id. by rewrite lookup_fmap, Hi. }
  induction (keys items) as [|k ks IH]; [done|]. cbn [omap list_omap]. destruct (decide (k = id)) as [->|Hne].
  - rewrite lookup_insert_eq, Hi. rewrite (filter_cons _ item'), Hinactive. cbn [andb]. rewrite decide_False by done.
    rewrite IH, (filter_cons _ item). case_decide; [|done]. rewrite filter_cons. rewrite decide_False; [done|].
    intros Hid. by destruct Hid; apply Hkeys.
  - rewrite lookup_insert_ne by done. destruct (items !! k) as [x|] eqn:Hk; [|done].
    rewrite !(filter_cons _ x). case_decide; [|done]. rewrite filter_cons, decide_True by (by rewrite (Hkeys _ _ Hk)).
    by rewrite IH.
Qed.

(** Trashing keeps the parent, the recurrence and the dependencies of an item. *)
Definition trashes (item item' : Item) : Prop :=
  it_id item' = it_id item ∧ it_parent_id item' = it_parent_id item ∧ it_recurrence item' = it_recurrence item ∧
  it_flexible_constraints item' = it_flexible_constraints item ∧ is_active item' = false.

Lemma trash_precedes items id item item' a b :
  keys_ok items → items !! id = Some item → trashes item item' →
  precedes (<[id := item']> items) a b → tc (precedes items) a b.
Proof.
  intros Hkeys Hi (Hid & Hp & Hrec & Hflex & Hinactive) [(x & deps & d & Hx & Hdeps & Hd & <-)|(routine & Hr & Ho & Hin)].
  - constructor. left. destruct (decide (b = id)) as [->|Hne].
    + rewrite lookup_insert_eq in Hx. simplify_eq. exists item, deps, d. unfold item_dependencies in Hdeps. by rewrite Hflex in Hdeps.
    + rewrite lookup_insert_ne in Hx by done. by exists x, deps, d.
  - assert (routine ∈ values items) as Hr'.
    { apply elem_of_values in Hr as [k Hk]. apply elem_of_values. exists k. destruct (decide (k = id)) as [->|Hne].
      - rewrite lookup_insert_eq in Hk. simplify_eq. unfold is_ordered in Ho. by rewrite Hinactive in Ho.
      - by rewrite lookup_insert_ne in Hk. }
    unfold routine_edges in Hin. rewrite neighbours_fmap in Hin. apply neighbours_pair in Hin.
    assert ([a; b] `sublist_of` it_id <$> routine_children items routine) as Hsub.
    { etrans; [done|]. apply fmap_sublist. rewrite (routine_children_trash items id item) by done. apply sublist_filter. }
    apply pair_neighbours in Hsub. revert Hsub. apply (tc_congruence (λ u, u)). intros u v Huv. right. exists routine.
    split; [done|]. split; [done|]. unfold routine_edges. by rewrite neighbours_fmap.
Qed.

Lemma trash_recurs items id item item' x :
  items !! id = Some item → trashes item item' → recurs_item (<[id := item']> items) x = recurs_item items x.
Proof.
  intros Hi (_ & _ & Hrec & _). unfold recurs_item. destruct (decide (x = id)) as [->|Hne].
  - by rewrite lookup_insert_eq, Hi, Hrec.
  - by rewrite lookup_insert_ne.
Qed.

Lemma trash_parents items id item item' :
  items !! id = Some item → trashes item item' → item_parents_map (<[id := item']> items) = item_parents_map items.
Proof.
  intros Hi (_ & Hp & _). unfold item_parents_map. rewrite fmap_insert, Hp. apply insert_id. by rewrite lookup_fmap, Hi.
Qed.

Lemma trash_graph_ok items id item item' :
  keys_ok items → items !! id = Some item → trashes item item' → graph_ok items → graph_ok (<[id := item']> items).
Proof.
  intros Hkeys Hi Htrash [Hdec Hknown Hown Hno].
  assert (∀ a b, depends_on (<[id := item']> items) b a → depends_on items b a) as Hdep.
  { intros a b (x & deps & d & Hx & Hdeps & Hd & <-). destruct (decide (b = id)) as [->|Hne].
    - rewrite lookup_insert_eq in Hx. simplify_eq. exists item, deps, d. destruct Htrash as (_ & _ & _ & Hflex & _).
      unfold item_dependencies in Hdeps. by rewrite Hflex in Hdeps.
    - rewrite lookup_insert_ne in Hx by done. by exists x, deps, d. }
  assert (∀ a o, topmost_recurring (<[id := item']> items) a o ↔ topmost_recurring items a o) as Htop.
  { intros a o. unfold topmost_recurring. setoid_rewrite (trash_recurs items id item item' _ Hi Htrash).
    by rewrite (trash_parents items id item item'). }
  split.
  - intros k x Hx. destruct (decide (k = id)) as [->|Hne].
    + rewrite lookup_insert_eq in Hx. simplify_eq. destruct Htrash as (_ & _ & _ & Hflex & _).
      unfold item_dependencies. rewrite Hflex. apply (Hdec _ _ Hi).
    + rewrite lookup_insert_ne in Hx by done. by apply (Hdec k).
  - intros a b Hab. destruct (Hknown a b (Hdep _ _ Hab)) as [x Hx].
    destruct (decide (a = id)) as [->|Hne]; [rewrite lookup_insert_eq; by eexists|]. rewrite lookup_insert_ne by done. by eexists.
  - intros a b owner Hab. rewrite !Htop. apply Hown. by apply Hdep.
  - intros x Hx. apply (Hno x). revert Hx. apply tc_of_tc. intros u v. by apply (trash_precedes items id item item').
Qed.
End graph.
