(* ===== verification/Effects.v ===== *)
(** * Effects: what the completion policy does to the items

    Every effect of [plan_item_completion] (CompletionPolicy) is a new revision
    of one item of the forest that keeps the hierarchy, with a valid completion
    state; it leaves an item in an executing state only when it completed the
    item itself, with a provenance, or found it so.  No item has two effects. *)
From S2P Require Import Prelude Text Platform Domain Forest Rrule Decimal Progress Completion Session ItemDomain CompletionPolicy ItemStore ItemForest ItemGraph.
Import ItemCompletionError.

Lemma elem_of_last {A} (l : list A) x y : x ∈ l ++ [y] ↔ x ∈ l ∨ x = y.
Proof. by rewrite elem_of_app, list_elem_of_singleton. Qed.

(** ** Decisions *)

(** An evaluation that completes an item gives it a provenance, unless it found
    the item completed without one. *)
Lemma decide_provenance item counts evidence children d :
  check_content item = Ok tt → decide_item item counts evidence children = Ok d →
  hd_status d = HierarchyProgressStatus.Completed →
  hc_status item ≠ HierarchyProgressStatus.Completed ∨ is_Some (hc_provenance item) →
  is_Some (hd_provenance d).
Proof.
  intros Hcheck Hdec Hdone Hcase.
  assert (∀ p, prior_of item = Some p → p ≠ HierarchyProgressStatus.Completed) as Hprior.
  { intros p Hp%prior_open; [|done]. by intros ->. }
  unfold decide_item in Hdec. destruct evidence.
  { injection Hdec as <-. cbn in *. by destruct Hcase. }
  destruct (_ && _ && _ && _); [done|]. unfold prior_of in *. destruct (hc_manual_override item).
  - case_bool_decide.
    + destruct (hc_provenance item) as [p|]; [injection Hdec as <-; by eexists|].
      destruct (is_open (hc_status item)) eqn:Ho; injection Hdec as <-; [by eexists|]. cbn in *. destruct Hcase as [Hcase|[? ?]]; done.
    + destruct (hc_provenance item) as [p|]; injection Hdec as <-; cbn in *; [by destruct (Hprior _ eq_refl)|].
      destruct Hcase as [Hcase|[? ?]]; done.
  - apply rbind_ok in Hdec as (status & Hs%ok_or_ok & Hdec). injection Hdec as <-. cbn in *. by destruct (Hprior _ Hs).
  - apply rbind_ok in Hdec as (status & Hs%ok_or_ok & Hdec). injection Hdec as <-. by eexists.
Qed.

Lemma core_status_inj a b : core_status a = core_status b → a = b.
Proof. by destruct a, b. Qed.

Lemma validate_reopen_open s id : validate_reopen s id = Ok tt → is_executing_state (ro_status s) = false.
Proof. unfold validate_reopen. by destruct (ro_status s). Qed.

Section effects.
Context `{ItemFormats}.

(** ** The forest under review *)

(** The same item up to its lifecycle. *)
Definition same_item (item item' : Item) : Prop :=
  shape item' = shape item ∧ it_kind item' = it_kind item ∧ it_has_own_effort item' = it_has_own_effort item ∧
  it_deleted_at item' = it_deleted_at item ∧ it_revision item' = it_revision item.

Lemma reopen_same_item s item : same_item item (reopen_item s item).
Proof. done. Qed.

(** What a review makes of an item, apart from its stamps: it is reopened by a
    valid state, or completed. *)
Inductive reviewed (before : Item) : Item → Prop :=
| reviewed_same : reviewed before before
| reviewed_reopened s item :
    reviewed before item → validate_reopen s (it_id before) = Ok tt → reviewed before (reopen_item s item)
| reviewed_completed now item :
    reviewed before item → reviewed before (with_lifecycle item ItemStatus.Completed (Some now) None None None).

(** The completion states of a forest. *)
Definition states_ok (states : gmap Uuid ItemCompletionState) : Prop :=
  ∀ id s, states !! id = Some s → cs_item_id s = id ∧ validate_completion s = Ok tt.

Lemma is_nil_false id : is_nil id = false ↔ id ≠ 0%N.
Proof. unfold is_nil. by rewrite N.eqb_neq. Qed.

Lemma validate_empty id : id ≠ 0%N → validate_completion (empty_completion id) = Ok tt.
Proof.
  intros Hid. unfold validate_completion, is_nil. cbn [cs_item_id empty_completion]. rewrite (proj2 (N.eqb_neq _ _) Hid).
  by rewrite bool_decide_true.
Qed.

Lemma index_items_spec items by_id :
  foldM index_item ∅ items = Ok by_id →
  (∀ id item, by_id !! id = Some item ↔ item ∈ items ∧ it_id item = id) ∧
  (∀ item, item ∈ items → it_id item ≠ 0%N ∧ it_deleted_at item = None).
Proof.
  intros Hfold. revert Hfold. apply (foldM_inv _ (λ l by_id,
    (∀ id item, by_id !! id = Some item ↔ item ∈ l ∧ it_id item = id) ∧
    (∀ item, item ∈ l → it_id item ≠ 0%N ∧ it_deleted_at item = None))).
  { split; [intros id item; rewrite lookup_empty; set_solver|set_solver]. }
  intros p item q m m' _ [Hm Hl] Hstep. unfold index_item in Hstep. destruct (_ || _) eqn:Hbad; [done|].
  injection Hstep as <-. apply orb_false_iff in Hbad as [Hbad Hfresh]. apply orb_false_iff in Hbad as [Hbad Hdel].
  apply orb_false_iff in Hbad as [Hbad _]. apply orb_false_iff in Hbad as [Hnil _]. apply is_nil_false in Hnil.
  assert (m !! it_id item = None) as Hnone by (by destruct (m !! it_id item)). split.
  - intros id x. rewrite elem_of_last. destruct (decide (id = it_id item)) as [->|Hne].
    + rewrite lookup_insert_eq. split; [intros [= ->]; auto|]. intros [[Hx| ->] Hid]; [|done].
      assert (m !! it_id item = Some x) by (by apply Hm). congruence.
    + rewrite lookup_insert_ne, Hm by done. naive_solver.
  - intros x [Hx| ->]%elem_of_last; [by apply Hl|]. split; [done|]. by destruct (it_deleted_at item).
Qed.

Lemma index_states_spec by_id states seen indexed :
  (∀ id item, by_id !! id = Some item → id ≠ 0%N) →
  foldM (index_state by_id) (∅, map_imap (λ id _, Some (empty_completion id)) by_id) states = Ok (seen, indexed) →
  states_ok indexed ∧
  (∀ id, is_Some (indexed !! id) ↔ is_Some (by_id !! id)) ∧
  (∀ s, s ∈ states → indexed !! cs_item_id s = Some s) ∧
  (∀ id s, indexed !! id = Some s → s ∈ states ∨ s = empty_completion id).
Proof.
  intros Hnil Hfold.
  pose (I := λ (l : list ItemCompletionState) (st : gset Uuid * gmap Uuid ItemCompletionState),
    states_ok st.2 ∧ (∀ id, is_Some (st.2 !! id) ↔ is_Some (by_id !! id)) ∧ (∀ s, s ∈ l → st.2 !! cs_item_id s = Some s) ∧
    (∀ s, s ∈ l → cs_item_id s ∈ st.1) ∧
    (∀ id s, st.2 !! id = Some s → s ∈ l ∨ s = empty_completion id)).
  assert (I states (seen, indexed)) as (? & ? & ? & _ & ?); [|done].
  revert Hfold. apply foldM_inv.
  - unfold I. cbn. split; [|split; [|split; [set_solver|split; [set_solver|]]]].
    + intros id s. rewrite map_lookup_imap. destruct (by_id !! id) as [item|] eqn:Hid; [|done]. intros [= <-].
      split; [done|]. apply validate_empty. by eapply Hnil.
    + intros id. rewrite map_lookup_imap. by destruct (by_id !! id); split; intros [? ?]; eauto.
    + intros id s. rewrite map_lookup_imap. destruct (by_id !! id); [|done]. intros [= <-]. by right.
  - intros p s q [seen' m] st' _ (Hok & Hdom & Hin & Hseen & Hfrom) Hstep. unfold index_state in Hstep.
    apply rbind_ok in Hstep as ([] & Hvalid & Hstep). destruct (_ || _) eqn:Hbad; [done|]. injection Hstep as <-.
    apply orb_false_iff in Hbad as [Hknown Hfresh]. apply bool_decide_eq_false in Hfresh. cbn in *.
    assert (is_Some (by_id !! cs_item_id s)) as Hpresent by (destruct (by_id !! cs_item_id s); [by eexists|done]).
    unfold I. cbn. split; [|split; [|split; [|split]]].
    + intros id x. destruct (decide (id = cs_item_id s)) as [->|Hne]; [rewrite lookup_insert_eq; by intros [= <-]|].
      rewrite lookup_insert_ne by done. apply Hok.
    + intros id. destruct (decide (id = cs_item_id s)) as [->|Hne]; [rewrite lookup_insert_eq; split; eauto|].
      by rewrite lookup_insert_ne.
    + intros x [Hx| ->]%elem_of_last; [|by rewrite lookup_insert_eq].
      rewrite lookup_insert_ne; [by apply Hin|]. intros Heq. destruct Hfresh. rewrite Heq. by apply Hseen.
    + intros x [Hx| ->]%elem_of_last; [|set_solver]. specialize (Hseen x Hx). set_solver.
    + intros id x. destruct (decide (id = cs_item_id s)) as [->|Hne].
      * rewrite lookup_insert_eq. intros [= <-]. left. set_solver.
      * rewrite lookup_insert_ne by done. intros Hx. destruct (Hfrom _ _ Hx); [left; set_solver|by right].
Qed.

(** ** One review *)

(** What the turn for an item starts from. *)
Record review_ok (r : ItemReview) : Prop := {
  ro_prepared : rv_prepared r = rv_before_item r ∨
    ∃ s, validate_reopen s (it_id (rv_before_item r)) = Ok tt ∧ rv_prepared r = reopen_item s (rv_before_item r);
  ro_before : cs_item_id (rv_before_state r) = it_id (rv_before_item r) ∧ validate_completion (rv_before_state r) = Ok tt;
  ro_requested : cs_item_id (rv_requested r) = it_id (rv_before_item r) ∧
    cs_provenance (rv_requested r) = cs_provenance (rv_before_state r);
  ro_decision : ∃ node counts evidence children,
    check_content node = Ok tt ∧ decide_item node counts evidence children = Ok (rv_decision r) ∧
    hc_status node = core_status (it_status (rv_prepared r)) ∧
    hc_provenance node = core_provenance <$> cs_provenance (rv_requested r)
}.

(** An executing item that the policy completed, or that was so already. *)
Definition policy_completed (item : Item) (state : ItemCompletionState) : Prop :=
  it_status item = ItemStatus.Completed ∧ is_Some (cs_provenance state).

#[export] Instance policy_completed_dec item state : Decision (policy_completed item state).
Proof. unfold policy_completed. apply _. Defined.

Record effect_ok (has_children : bool) (e : ItemCompletionEffect) : Prop := {
  eo_shape : shape (ef_after_item e) = shape (ef_before_item e);
  eo_kind : it_kind (ef_after_item e) = it_kind (ef_before_item e);
  eo_effort : it_has_own_effort (ef_after_item e) = it_has_own_effort (ef_before_item e);
  eo_deleted : it_deleted_at (ef_after_item e) = it_deleted_at (ef_before_item e);
  eo_executable : it_is_executable (ef_after_item e) = execution_is_allowed (ef_after_item e) has_children;
  eo_revision : it_revision (ef_after_item e) = (it_revision (ef_before_item e) + 1)%N;
  eo_reviewed : ∃ item revision now executable, reviewed (ef_before_item e) item ∧
    ef_after_item e = touched item revision now (it_deleted_at item) executable;
  eo_state_id : cs_item_id (ef_after_state e) = it_id (ef_after_item e);
  eo_state_revision : (0 < cs_revision (ef_after_state e))%N;
  eo_state_valid : validate_completion (ef_after_state e) = Ok tt;
  eo_executing : is_executing_state (it_status (ef_after_item e)) = true →
    policy_completed (ef_after_item e) (ef_after_state e) ∨
    it_status (ef_after_item e) = it_status (ef_before_item e) ∧ ¬ policy_completed (ef_before_item e) (ef_before_state e)
}.

Lemma next_completion_revision_Ok n m : next_completion_revision n = Ok m → m = (n + 1)%N ∧ (m <= i64_max)%N.
Proof.
  unfold next_completion_revision. destruct (checked_add u64_max n 1) as [v|] eqn:Hv; [|done].
  apply checked_add_Some in Hv as [-> _]. destruct (N.leb_spec (n + 1) i64_max); [|done]. intros [= <-]. done.
Qed.

Lemma validate_completion_reopen s p : validate_completion s = Ok tt → cs_provenance s = Some p →
  validate_reopen (pv_reopen p) (cs_item_id s) = Ok tt.
Proof.
  unfold validate_completion. destruct (_ || _); [done|]. intros Hv Hp. rewrite Hp in Hv. apply rbind_ok in Hv as ([] & Hr & _). done.
Qed.

Lemma decided_item_spec r now item :
  review_ok r → decided_item (rv_decision r) (rv_prepared r) (rv_requested r) now = Ok item →
  same_item (rv_before_item r) item ∧ reviewed (rv_before_item r) item ∧
  (hd_status (rv_decision r) = core_status (it_status item)) ∧
  (is_executing_state (it_status item) = true →
   it_status item = ItemStatus.Completed ∧ it_status (rv_prepared r) ≠ ItemStatus.Completed ∨ item = rv_before_item r).
Proof.
  intros [Hprep [Hbid Hbvalid] [Hrid Hrprov] _] Hdec.
  assert (same_item (rv_before_item r) (rv_prepared r)) as Hsame by (destruct Hprep as [->|(s & _ & ->)]; done).
  assert (reviewed (rv_before_item r) (rv_prepared r)) as Hrev.
  { destruct Hprep as [->|(s & Hs & ->)]; [constructor|by apply reviewed_reopened; [constructor|]]. }
  unfold decided_item in Hdec. destruct (_ && _) eqn:Hcompleted.
  { injection Hdec as <-. apply andb_true_iff in Hcompleted as [Hd Hn]. apply bool_decide_eq_true in Hd.
    apply negb_true_iff, bool_decide_eq_false in Hn. split; [done|]. split; [by constructor|].
    split; [done|]. by left. }
  clear Hcompleted. destruct (negb _) eqn:Hchanged.
  - apply rbind_ok in Hdec as (p & Hp%ok_or_ok & Hdec). clear Hchanged. destruct (negb _) eqn:Hmatch; [done|]. injection Hdec as <-.
    apply negb_false_iff, bool_decide_eq_true in Hmatch. rewrite Hrprov in Hp.
    pose proof (validate_completion_reopen _ _ Hbvalid Hp) as Hreopen. rewrite Hbid in Hreopen.
    split; [by destruct Hsame|]. split; [by constructor|]. split; [by symmetry|]. cbn. by rewrite (validate_reopen_open _ _ Hreopen).
  - injection Hdec as <-. apply negb_false_iff, bool_decide_eq_true in Hchanged. split; [done|]. split; [done|]. split; [done|].
    destruct Hprep as [->|(s & Hs & ->)]; [by right|]. cbn. by rewrite (validate_reopen_open _ _ Hs).
Qed.

Lemma decided_provenance_Some decision prepared requested provenance :
  decided_provenance decision prepared requested = Ok provenance → is_Some (hd_provenance decision) → is_Some provenance.
Proof.
  unfold decided_provenance. intros Hdec [p Hp]. rewrite Hp in Hdec. apply rbind_ok in Hdec as (reopen & _ & [= <-]). by eexists.
Qed.

Lemma review_effect_spec r now e :
  review_ok r → review_effect r now = Ok (Some e) →
  ef_before_item e = rv_before_item r ∧ ef_before_state e = rv_before_state r ∧ effect_ok (rv_has_children r) e.
Proof.
  intros Hok Heff. unfold review_effect in Heff. destruct (_ && _ && _); [done|].
  apply rbind_ok in Heff as (provenance & Hprov & Heff). apply rbind_ok in Heff as (item & Hitem & Heff).
  destruct (_ && _ && _); [done|]. destruct (_ && _); [done|].
  apply rbind_ok in Heff as (revision & [Hrev _]%next_completion_revision_Ok & Heff).
  apply rbind_ok in Heff as (state_revision & [Hsrev _]%next_completion_revision_Ok & Heff).
  apply rbind_ok in Heff as ([] & Hvalid & [= <-]). cbn. split; [done|]. split; [done|].
  destruct (decided_item_spec _ _ _ Hok Hitem) as ((Hshape & Hkind & Heffort & Hdel & _) & Hreviewed & Hstatus & Hexec).
  destruct Hok as [Hprep [Hbid _] [Hrid Hrprov] (node & counts & evidence & children & Hcheck & Hdec & Hns & Hnp)].
  assert (it_id item = it_id (rv_before_item r)) as Hid by (by injection Hshape).
  split; cbn; try done; [by exists item; eexists _, _, _|by rewrite Hrid, Hid|lia|].
  intros He. assert (hd_status (rv_decision r) = HierarchyProgressStatus.Completed →
    hc_status node ≠ HierarchyProgressStatus.Completed ∨ is_Some (hc_provenance node) → is_Some provenance) as Hsome.
  { intros Hd Hc. eapply decided_provenance_Some; [done|]. by eapply decide_provenance. }
  destruct (Hexec He) as [[Hdone Hnot]| ->].
  - left. split; [done|]. cbn. apply Hsome; [by rewrite Hstatus, Hdone|]. left. rewrite Hns.
    intros Heq. by apply (core_status_inj _ ItemStatus.Completed) in Heq.
  - destruct (decide (policy_completed (rv_before_item r) (rv_before_state r))) as [[Hdone Hp]|Hnot].
    + left. split; [done|]. cbn. apply Hsome; [by rewrite Hstatus, Hdone|]. right. by rewrite Hnp, fmap_is_Some, Hrprov.
    + right. done.
Qed.

(** ** The plan *)

Definition forest_valid (forest : gmap Uuid Item * gmap Uuid ItemCompletionState) : Prop :=
  (∀ id item, forest.1 !! id = Some item → it_id item = id) ∧ states_ok forest.2 ∧
  (∀ id, is_Some (forest.2 !! id) ↔ is_Some (forest.1 !! id)).

(** The forest a command asks for: at most one reopened item, and policies. *)
Record prepared_from (forest prepared : gmap Uuid Item * gmap Uuid ItemCompletionState) : Prop := {
  pf_item : ∀ id before, forest.1 !! id = Some before → ∃ after, prepared.1 !! id = Some after ∧
    (after = before ∨ ∃ s, validate_reopen s id = Ok tt ∧ after = reopen_item s before);
  pf_state : ∀ id s, forest.2 !! id = Some s → ∃ s', prepared.2 !! id = Some s' ∧
    cs_item_id s' = cs_item_id s ∧ cs_provenance s' = cs_provenance s
}.

Lemma prepared_self forest : prepared_from forest forest.
Proof. split; intros id x Hx; exists x; auto. Qed.

Lemma prepare_command_spec parents hash id command forest prepared :
  prepare_command parents hash id command forest = Ok prepared → prepared_from forest prepared.
Proof.
  unfold prepare_command. intros ([] & Hvalid & Hprep)%rbind_ok. apply rbind_ok in Hprep as (item & Hitem%ok_or_ok & Hprep).
  apply rbind_ok in Hprep as (state & Hstate%ok_or_ok & Hprep).
  assert (∀ k s, forest.2 !! k = Some s → ∃ s',
    <[id := with_policy state (cc_required_for_parent command) (cc_mode command)]> forest.2 !! k = Some s' ∧
    cs_item_id s' = cs_item_id s ∧ cs_provenance s' = cs_provenance s) as Hstates.
  { intros k s Hs. destruct (decide (k = id)) as [->|Hne].
    - rewrite lookup_insert_eq. simplify_eq. by eexists.
    - rewrite lookup_insert_ne by done. by exists s. }
  repeat (destruct (negb _ || _) || destruct (negb _); [done|]).
  destruct (_ && _ && _ && _); [done|]. destruct (cc_reopening command) as [reopening|] eqn:Hre.
  - destruct (_ || _); [done|]. injection Hprep as <-. split; [|done]. cbn. intros k before Hb.
    destruct (decide (k = id)) as [->|Hne]; [|rewrite lookup_insert_ne by done; eauto].
    rewrite lookup_insert_eq. simplify_eq. eexists. split; [done|]. right. exists reopening. split; [|done].
    unfold validate_completion_command in Hvalid. destruct (_ || _); [done|]. by rewrite Hre in Hvalid.
  - injection Hprep as <-. split; [|done]. cbn. eauto.
Qed.

Lemma completion_nodes_spec items states nodes :
  completion_nodes items states = Ok nodes →
  ∀ item, item ∈ values items → ∃ node, node ∈ nodes ∧ completion_node states item = Ok node.
Proof.
  unfold completion_nodes. apply (foldM_inv _ (λ l nodes, ∀ item, item ∈ l → ∃ node, node ∈ nodes ∧ completion_node states item = Ok node)).
  - set_solver.
  - intros p item q acc acc' _ IH (node & Hnode & [= <-])%rbind_ok x [Hx| ->]%elem_of_last.
    + destruct (IH x Hx) as (n & Hn & Hc). exists n. set_solver.
    + exists node. set_solver.
Qed.

Lemma review_of_spec forest prepared nodes evaluation parents execution command entry r :
  forest_valid forest → prepared_from forest prepared →
  completion_nodes prepared.1 prepared.2 = Ok nodes → evaluate_hierarchy_completion nodes OneOff = Ok evaluation →
  forest.1 !! entry.1 = Some entry.2 →
  review_of forest prepared (he_decisions evaluation) parents execution command entry = Some r →
  rv_before_item r = entry.2 ∧ forest.2 !! entry.1 = Some (rv_before_state r) ∧
  rv_has_children r = bool_decide (entry.1 ∈ parents) ∧ review_ok r.
Proof.
  destruct entry as [id before]. cbn. intros (Hkeys & Hstates & Hdom) [Hitem Hstate] Hnodes Heval Hbefore Hreview.
  destruct (he_decisions evaluation !! id) as [decision|] eqn:Hd; [|done]. cbn in Hreview.
  destruct (Hitem _ _ Hbefore) as (after & Hafter & Hcase). rewrite Hafter in Hreview. cbn in Hreview. injection Hreview as <-. cbn.
  destruct (proj2 (Hdom id) (mk_is_Some _ _ Hbefore)) as [s Hs]. unfold state_of at 1. rewrite Hs.
  split; [done|]. split; [done|]. split; [done|].
  destruct (Hstate _ _ Hs) as (s' & Hs' & Hsid & Hsprov). destruct (Hstates _ _ Hs) as [Hid Hvalid].
  assert (it_id after = id) as Haid by (destruct Hcase as [->|(? & _ & ->)]; cbn; by apply Hkeys).
  split; cbn; unfold state_of; rewrite ?Hs, ?Hs'; cbn.
  - by rewrite (Hkeys _ _ Hbefore).
  - by rewrite (Hkeys _ _ Hbefore).
  - rewrite (Hkeys _ _ Hbefore). by rewrite Hsid.
  - destruct (completion_nodes_spec _ _ _ Hnodes after) as (node & Hnode & Hcompl); [apply elem_of_values; by exists id|].
    apply evaluate_Ok in Heval as (by_id & order & Hev & _).
    destruct (node_equation Hev node Hnode) as (d & Hd' & _ & Hdec).
    unfold completion_node in Hcompl. destruct (_ && _); [done|]. injection Hcompl as <-. cbn in *.
    rewrite Haid in *. unfold state_of in *. rewrite Hs' in *. cbn in *. rewrite Hd in Hd'. injection Hd' as <-.
    eexists _, _, _, _. split; [apply (ix_after _ _ _ _ (ev_index _ _ _ _ _ Hev) _ Hnode)|]. split; [exact Hdec|]. done.
Qed.

Context `{!CompletionDigest}.

(** The forest of [index_forest] *)
Lemma index_forest_spec items states forest :
  index_forest items states = Ok forest →
  forest_valid forest ∧
  (∀ id item, forest.1 !! id = Some item ↔ item ∈ items ∧ it_id item = id) ∧
  (∀ s, s ∈ states → forest.2 !! cs_item_id s = Some s) ∧
  (∀ id s, forest.2 !! id = Some s → s ∈ states ∨ s = empty_completion id).
Proof.
  unfold index_forest. destruct (_ || _); [done|]. intros (? & _ & Hforest)%rbind_ok.
  apply rbind_ok in Hforest as (by_id & Hitems & Hforest). apply rbind_ok in Hforest as ([seen indexed] & Hstates & [= <-]).
  apply index_items_spec in Hitems as [Hlookup Hgood]. apply index_states_spec in Hstates as (Hok & Hdom & Hin & Hfrom).
  2:{ intros id item [Hi <-]%Hlookup. by apply Hgood. }
  cbn. split; [|done]. split; [|done]. by intros id item [_ ?]%Hlookup.
Qed.

Lemma plan_spec items states execution command now plan :
  plan_item_completion items states execution command now = Ok plan →
  ∃ forest, index_forest items states = Ok forest ∧
    (∀ e, e ∈ pl_effects plan →
       forest.1 !! it_id (ef_before_item e) = Some (ef_before_item e) ∧
       forest.2 !! it_id (ef_before_item e) = Some (ef_before_state e) ∧
       effect_ok (bool_decide (it_id (ef_before_item e) ∈ indexed_parents items)) e) ∧
    NoDup ((λ e, it_id (ef_before_item e)) <$> pl_effects plan).
Proof.
  unfold plan_item_completion. intros (hash & _ & Hplan)%rbind_ok. apply rbind_ok in Hplan as (forest & Hforest & Hplan).
  apply rbind_ok in Hplan as (prepared & Hprepared & Hplan). apply rbind_ok in Hplan as (nodes & Hnodes & Hplan).
  apply rbind_ok in Hplan as (evaluation & Heval%map_err_ok & Hplan). apply rbind_ok in Hplan as ([effects snapshots] & Hfold & [= <-]).
  exists forest. split; [done|]. cbn. destruct (index_forest_spec _ _ _ Hforest) as (Hvalid & _).
  assert (prepared_from forest prepared) as Hfrom.
  { destruct command as [[id command]|]; [by eapply prepare_command_spec|]. injection Hprepared as <-. apply prepared_self. }
  pose (I := λ (l : list (Uuid * Item)) (st : list ItemCompletionEffect * gmap Uuid ItemCompletionSnapshot),
    (∀ e, e ∈ st.1 → (it_id (ef_before_item e), ef_before_item e) ∈ l ∧
       forest.2 !! it_id (ef_before_item e) = Some (ef_before_state e) ∧
       effect_ok (bool_decide (it_id (ef_before_item e) ∈ indexed_parents items)) e) ∧
    NoDup ((λ e, it_id (ef_before_item e)) <$> st.1)).
  assert (I (entries forest.1) (effects, snapshots)) as [Hall Hnd].
  2:{ split; [|done]. intros e He. destruct (Hall e He) as ([]%elem_of_entries & ? & ?). done. }
  assert (NoDup (entries forest.1).*1) as Hkeys_nodup.
  { assert ((entries forest.1).*1 = keys forest.1) as ->; [|apply NoDup_keys].
    unfold entries. assert (∀ k, k ∈ keys forest.1 → is_Some (forest.1 !! k)) as Hks by (intros; by apply elem_of_keys).
    induction (keys forest.1) as [|k ks IH]; [done|]. cbn. destruct (Hks k) as [v Hv]; [by left|]. rewrite Hv. cbn.
    f_equal. apply IH. intros; apply Hks; by right. }
  revert Hfold. apply foldM_inv; [split; [set_solver|constructor]|].
  intros p entry q [effs snaps] st' Hsplit [Hall Hnd] Hstep. cbn in Hall, Hnd.
  assert (forest.1 !! entry.1 = Some entry.2) as Hentry.
  { apply elem_of_entries. destruct entry. rewrite Hsplit. set_solver. }
  unfold plan_step in Hstep. destruct (review_of _ _ _ _ _ _ entry) as [r|] eqn:Hr.
  2:{ injection Hstep as <-. split; [|done]. cbn. intros e He. destruct (Hall e He). split; [set_solver|done]. }
  apply rbind_ok in Hstep as (effect & Heffect & [= <-]).
  apply (review_of_spec _ _ nodes) in Hr as (Hb & Hs & Hc & Hrok); [|done..].
  assert (it_id entry.2 = entry.1) as Hid by (by apply Hvalid).
  destruct effect as [e|]; unfold I; cbn [fst]; rewrite ?app_nil_r.
  2:{ split; [|done]. intros e He. destruct (Hall e He). split; [set_solver|done]. }
  apply review_effect_spec in Heffect as (Hbe & Hbs & Hok); [|done]. rewrite Hb in Hbe. rewrite <-Hid in Hs, Hc. split.
  - intros e' [He'| ->]%elem_of_last.
    + destruct (Hall e' He'). split; [set_solver|done].
    + rewrite Hbe, Hbs. split; [|by rewrite <-Hc]. rewrite Hid. destruct entry. set_solver.
  - rewrite fmap_app. apply NoDup_app. split; [done|]. split; [|apply NoDup_singleton].
    intros k Hk ->%list_elem_of_singleton. apply list_elem_of_fmap in Hk as (e' & Hk & He').
    destruct (Hall e' He') as [Hin _]. rewrite <-Hk, Hbe, Hid in Hin.
    rewrite Hsplit, fmap_app, fmap_cons in Hkeys_nodup. apply NoDup_app in Hkeys_nodup as (_ & Hdis & _).
    apply (Hdis entry.1); [|by left]. apply list_elem_of_fmap. by exists (entry.1, ef_before_item e').
Qed.
End effects.
