(* ===== verification/Repository.v ===== *)
(** * Repository: the invariant of the item repository

    Every state that the operations of ItemStore reach from the empty repository
    is consistent: items are stored under their identifiers and form a forest, an
    active item has an active parent, the stored executability is the one the
    hierarchy gives, the dependency graph is accepted, an item with active
    children is in an executing state only when the completion policy completed
    it, the completion states are valid, and the change log, replayed, gives the
    items that are stored. *)
From S2P Require Import Prelude Text Platform Civil Domain Forest Rrule Decimal Progress Completion Session Lease ItemDomain CompletionPolicy ItemStore ItemForest ItemGraph Effects.
Import ItemRepositoryError.

Section repository.
Context `{ItemFormats}.

(** ** The log *)

(** What a client is told about an item. *)
Definition change_of (item : Item) : DeltaChange :=
  match it_deleted_at item with
  | None => Upsert item
  | Some deleted_at => Tombstone (tombstone_of item deleted_at)
  end.

Definition change_id (change : DeltaChange) : Uuid :=
  match change with Upsert item => it_id item | Tombstone tombstone => tb_id tombstone end.

(** A client keeps the last change of each item. *)
Definition apply_change (known : gmap Uuid DeltaChange) (change : DeltaChange) : gmap Uuid DeltaChange :=
  <[change_id change := change]> known.

Definition latest (changes : list DeltaChange) : gmap Uuid DeltaChange := foldl apply_change ∅ changes.

Lemma change_of_id item : change_id (change_of item) = it_id item.
Proof. unfold change_of. by destruct (it_deleted_at item). Qed.

Record log_ok (st : ItemState) : Prop := {
  lo_sequence : ∀ i change, st_changes st !! i = Some change → mc_sequence change = N.of_nat (S i);
  lo_next : st_next_sequence st = N.of_nat (length (st_changes st));
  lo_latest : latest (mc_change <$> st_changes st) = change_of <$> st_items st
}.

Lemma append_change_Ok st group_id change st' :
  append_change st group_id change = Ok st' →
  st_items st' = st_items st ∧ st_completion_states st' = st_completion_states st ∧
  st_next_sequence st' = (st_next_sequence st + 1)%N ∧
  st_changes st' = st_changes st ++
    [{| mc_sequence := st_next_sequence st + 1; mc_change_group_id := group_id; mc_change := change |}].
Proof. intros (sequence & Hs%ok_or_ok & [= <-])%rbind_ok. by apply checked_add_Some in Hs as [-> _]. Qed.

(** Storing an item and logging it keeps the log. *)
Lemma append_log_ok st st0 item group_id st' :
  log_ok st → st_changes st0 = st_changes st → st_next_sequence st0 = st_next_sequence st →
  st_items st0 = <[it_id item := item]> (st_items st) →
  append_change st0 group_id (change_of item) = Ok st' → log_ok st'.
Proof.
  intros [Hseq Hnext Hlatest] Hc Hn Hi (Hi' & _ & Hn' & Hc')%append_change_Ok. split.
  - intros i change. rewrite Hc', Hc, Hn, Hnext. intros [Hl|[Hle Hl]]%lookup_app_Some; [by apply Hseq|].
    apply list_lookup_singleton_Some in Hl as [Hz <-]. cbn. lia.
  - rewrite Hn', Hc', Hn, Hc, length_app, Hnext. cbn. lia.
  - rewrite Hc', Hc, Hi', Hi, fmap_app. unfold latest in *. rewrite foldl_app, Hlatest. cbn. unfold apply_change.
    by rewrite change_of_id, fmap_insert.
Qed.

(** ** The items *)

Lemma has_active_children_true id items :
  has_active_children id items = true ↔
  ∃ k child, items !! k = Some child ∧ it_parent_id child = Some id ∧ it_deleted_at child = None.
Proof.
  unfold has_active_children. rewrite existsb_exists. unfold is_child_of, is_active. split.
  - intros (child & Hin & Hc). apply list_elem_of_In, elem_of_values in Hin as [k Hk].
    apply andb_true_iff in Hc as [Hp%bool_decide_eq_true Ha]. exists k, child. split; [done|]. split; [done|].
    by destruct (it_deleted_at child).
  - intros (k & child & Hk & Hp & Ha). exists child. split; [apply list_elem_of_In, elem_of_values; by exists k|].
    by rewrite bool_decide_true, Ha.
Qed.

Lemma has_active_children_shape id items items' :
  same_shape items items' → has_active_children id items = has_active_children id items'.
Proof.
  assert (∀ items items', same_shape items items' → has_active_children id items = true → has_active_children id items' = true) as Hone.
  { clear items items'. intros items items' Hsame. rewrite !has_active_children_true. intros (k & child & Hk & Hp & Ha).
    destruct (same_shape_lookup _ _ _ _ Hsame Hk) as (child' & Hk' & Hs). exists k, child'. split; [done|].
    injection Hs as _ Hp' _ Ha' _ _ _. split; [congruence|]. unfold is_active in Ha'. rewrite Ha in Ha'.
    by destruct (it_deleted_at child'). }
  intros Hsame. apply Bool.eq_true_iff_eq. split; apply Hone; [done|by symmetry].
Qed.

(** Storing an item changes only whether its parents have active children. *)
Lemma active_children_insert items id item x :
  it_parent_id item ≠ Some x → (items !! id ≫= it_parent_id) ≠ Some x →
  has_active_children x (<[id := item]> items) = has_active_children x items.
Proof.
  intros Hnew Hold. apply Bool.eq_true_iff_eq. rewrite !has_active_children_true. split.
  - intros (k & child & Hk & Hp & Ha). destruct (decide (k = id)) as [->|Hne].
    + rewrite lookup_insert_eq in Hk. by simplify_eq.
    + rewrite lookup_insert_ne in Hk by done. eauto.
  - intros (k & child & Hk & Hp & Ha). exists k, child. rewrite lookup_insert_ne; [done|]. intros <-. by rewrite Hk in Hold.
Qed.

Lemma active_children_same items id current item x :
  items !! id = Some current → it_parent_id item = it_parent_id current → it_deleted_at item = it_deleted_at current →
  has_active_children x (<[id := item]> items) = has_active_children x items.
Proof.
  intros Hid Hparent Hdel. apply Bool.eq_true_iff_eq. rewrite !has_active_children_true. split.
  - intros (k & child & Hk & Hp & Ha). destruct (decide (k = id)) as [->|Hne].
    + rewrite lookup_insert_eq in Hk. simplify_eq. exists id, current. by rewrite <-Hparent, <-Hdel.
    + rewrite lookup_insert_ne in Hk by done. eauto.
  - intros (k & child & Hk & Hp & Ha). destruct (decide (k = id)) as [->|Hne].
    + simplify_eq. exists id, item. by rewrite lookup_insert_eq, Hparent, Hdel.
    + exists k, child. by rewrite lookup_insert_ne.
Qed.

(** The items are consistent, except that the executability of those in [stale]
    is still to be refreshed. *)
Record items_ok (stale : gset Uuid) (items : gmap Uuid Item) : Prop := {
  io_keys : keys_ok items;
  io_forest : forest_ok (item_parents_map items);
  io_active : ∀ id item p, items !! id = Some item → it_deleted_at item = None → it_parent_id item = Some p →
    ∃ parent, items !! p = Some parent ∧ it_deleted_at parent = None;
  io_executable : ∀ id item, items !! id = Some item → id ∉ stale →
    it_is_executable item = execution_is_allowed item (has_active_children id items);
  io_graph : graph_ok items
}.

Lemma parent_not_self items id item : forest_ok (item_parents_map items) → items !! id = Some item → it_parent_id item ≠ Some id.
Proof.
  intros Hforest Hi Hp. assert (item_parents_map items !! id = Some (Some id)) as Hl by (by rewrite item_parent_lookup, Hi; cbn; rewrite Hp).
  apply (cycle_not_rooted (item_parents_map items) id 1); [lia|cbn; by rewrite Hl|]. apply Hforest. by rewrite Hl.
Qed.

Lemma put_items_ok items id item stale :
  items_ok ∅ items → it_id item = id →
  forest_ok (item_parents_map (<[id := item]> items)) →
  (it_deleted_at item = None → ∀ p, it_parent_id item = Some p → ∃ parent, items !! p = Some parent ∧ it_deleted_at parent = None) →
  (is_Some (it_deleted_at item) → has_active_children id items = false) →
  it_is_executable item = execution_is_allowed item (has_active_children id items) →
  graph_ok (<[id := item]> items) →
  (∀ x, x ∉ stale ∨ x = id → has_active_children x (<[id := item]> items) = has_active_children x items) →
  items_ok stale (<[id := item]> items).
Proof.
  intros [Hkeys Hforest Hactive Hexec _] Hid Hforest' Hparent Hleaf Hitem Hgraph Hsame. split; [|done| | |done].
  - intros k x Hk. destruct (decide (k = id)) as [->|Hne]; [rewrite lookup_insert_eq in Hk; by simplify_eq|].
    rewrite lookup_insert_ne in Hk by done. by apply Hkeys.
  - intros k x p Hk Ha Hp.
    assert (∃ parent, items !! p = Some parent ∧ it_deleted_at parent = None) as (parent & Hpar & Hpa).
    { destruct (decide (k = id)) as [->|Hne]; [rewrite lookup_insert_eq in Hk; simplify_eq; by apply Hparent|].
      rewrite lookup_insert_ne in Hk by done. by apply (Hactive k x). }
    destruct (decide (p = id)) as [->|Hne]; [|exists parent; by rewrite lookup_insert_ne].
    exists item. rewrite lookup_insert_eq. split; [done|]. destruct (it_deleted_at item) eqn:Hd; [|done]. exfalso.
    assert (has_active_children id items = true) as Hyes.
    { apply has_active_children_true. exists k, x. split; [|done].
      destruct (decide (k = id)) as [->|Hne]; [rewrite lookup_insert_eq in Hk; simplify_eq; congruence|by rewrite lookup_insert_ne in Hk]. }
    rewrite Hleaf in Hyes; [done|by eexists].
  - intros k x Hk Hstale. rewrite Hsame by (by left). destruct (decide (k = id)) as [->|Hne].
    + rewrite lookup_insert_eq in Hk. by simplify_eq.
    + rewrite lookup_insert_ne in Hk by done. apply Hexec; [done|set_solver].
Qed.

(** Replacing an item by one of the same shape. *)
Lemma reshape_items_ok items id current item stale stale' :
  items_ok stale items → items !! id = Some current → shape item = shape current → it_deleted_at item = it_deleted_at current →
  it_is_executable item = execution_is_allowed item (has_active_children id items) →
  (∀ x, x ∉ stale' → x ∉ stale ∨ x = id) →
  items_ok stale' (<[id := item]> items).
Proof.
  intros [Hkeys Hforest Hactive Hexec Hgraph] Hi Hshape Hdel Hitem Hsub.
  assert (same_shape (<[id := item]> items) items) as Hsame by (by eapply same_shape_insert).
  assert (same_shape items (<[id := item]> items)) as Hback by done. split.
  - by eapply same_shape_keys.
  - by rewrite (same_shape_parents _ _ Hsame).
  - intros k x p Hk Ha Hp.
    assert (∃ parent, items !! p = Some parent ∧ it_deleted_at parent = None) as (parent & Hpar & Hpa).
    { destruct (decide (k = id)) as [->|Hne].
      - rewrite lookup_insert_eq in Hk. injection Hk as <-. injection Hshape as _ Hps _ _ _ _ _.
        apply (Hactive id current); [done|congruence..].
      - rewrite lookup_insert_ne in Hk by done. by apply (Hactive k x). }
    destruct (decide (p = id)) as [->|Hne]; [|exists parent; by rewrite lookup_insert_ne].
    exists item. rewrite lookup_insert_eq. simplify_eq. by rewrite Hdel.
  - intros k x Hk Hstale. rewrite (has_active_children_shape k _ _ Hsame). destruct (decide (k = id)) as [->|Hne].
    + rewrite lookup_insert_eq in Hk. by simplify_eq.
    + rewrite lookup_insert_ne in Hk by done. apply Hexec; [done|]. by destruct (Hsub k Hstale).
  - by apply (same_shape_graph_ok items).
Qed.

(** ** The state *)

(** An executing item with active children was completed by the policy. *)
Definition executing_ok (items : gmap Uuid Item) (states : gmap Uuid ItemCompletionState) : Prop :=
  ∀ id item, items !! id = Some item → it_deleted_at item = None → has_active_children id items = true →
  is_executing_state (it_status item) = true → completion_allows_parent item states = true.

Record store_ok_except (stale : gset Uuid) (st : ItemState) : Prop := {
  so_items : items_ok stale (st_items st);
  so_states : states_ok (st_completion_states st);
  so_executing : executing_ok (st_items st) (st_completion_states st);
  so_log : log_ok st
}.

Definition store_ok : ItemState → Prop := store_ok_except ∅.

Lemma store_ok_empty : store_ok empty_items.
Proof.
  split; cbn [st_items st_completion_states empty_items].
  - split.
    + intros id item Hi. by rewrite lookup_empty in Hi.
    + intros id [x Hx]. by rewrite item_parent_lookup, lookup_empty in Hx.
    + intros id item p Hi. by rewrite lookup_empty in Hi.
    + intros id item Hi. by rewrite lookup_empty in Hi.
    + assert (∀ a b, ¬ precedes ∅ a b) as Hnone.
      { intros a b [(item & ? & ? & Hi & _)|(routine & Hr & _)]; [by rewrite lookup_empty in Hi|].
        apply elem_of_values in Hr as [k Hk]. by rewrite lookup_empty in Hk. }
      split.
      * intros id item Hi. by rewrite lookup_empty in Hi.
      * intros a b Hab. destruct (Hnone a b). by left.
      * intros a b owner Hab. destruct (Hnone a b). by left.
      * intros x Hx. apply tc_nsteps in Hx as ([|n] & Hn & Hx); [lia|]. inversion Hx as [|? ? y ? Hxy]. by apply (Hnone x y).
  - intros id s Hs. by rewrite lookup_empty in Hs.
  - intros id item Hi. by rewrite lookup_empty in Hi.
  - split; [by intros i change Hc|done|]. cbn. by rewrite fmap_empty.
Qed.

(** Only the status of an item, its state and its children matter. *)
Lemma executing_put items states id item :
  executing_ok items states →
  (it_deleted_at item = None → has_active_children id (<[id := item]> items) = true →
   is_executing_state (it_status item) = true → completion_allows_parent item states = true) →
  (∀ k x, k ≠ id → items !! k = Some x → it_deleted_at x = None → has_active_children k (<[id := item]> items) = true →
   is_executing_state (it_status x) = true → has_active_children k items = true ∨ completion_allows_parent x states = true) →
  executing_ok (<[id := item]> items) states.
Proof.
  intros Hok Hitem Hother k x Hk Ha Hc He. destruct (decide (k = id)) as [->|Hne].
  - rewrite lookup_insert_eq in Hk. simplify_eq. by apply Hitem.
  - rewrite lookup_insert_ne in Hk by done. destruct (Hother k x Hne Hk Ha Hc He); [by apply (Hok k)|done].
Qed.

Lemma allows_parent_status a b states :
  it_id a = it_id b → it_status a = it_status b → completion_allows_parent a states = completion_allows_parent b states.
Proof. unfold completion_allows_parent. by intros -> ->. Qed.

(** Refreshing a parent settles its executability. *)
Lemma refresh_parent_ok stale now group_id st p st' :
  store_ok_except stale st → refresh_parent now group_id st p = Ok st' → store_ok_except (stale ∖ {[p]}) st'.
Proof.
  intros [Hitems Hstates Hexec Hlog] (parent & Hp%ok_or_ok & Href)%rbind_ok. apply active_item_Some in Hp as [Hp Hactive].
  apply rbind_ok in Href as (refreshed & Hr%map_err_ok & Happend).
  unfold refreshed_execution in Hr. apply rbind_ok in Hr as (revision & _ & [= <-]).
  assert (it_id parent = p) as Hid by (by apply (io_keys _ _ Hitems)).
  assert (shape (touched parent revision (canonical_storage_instant now) (it_deleted_at parent)
    (execution_is_allowed parent (has_active_children p (st_items st)))) = shape parent) as Hshape by done.
  set (item := touched _ _ _ _ _) in *.
  assert (same_shape (<[p := item]> (st_items st)) (st_items st)) as Hsame by (by eapply same_shape_insert).
  pose proof (append_change_Ok _ _ _ _ Happend) as (Hi & Hs & _). cbn in Hi, Hs.
  assert (it_id item = p) as Hiid by (by rewrite <-Hid).
  split.
  - rewrite Hi. apply (reshape_items_ok (st_items st) p parent item stale); [done..|]. intros x Hx.
    destruct (decide (x = p)); [by right|left; set_solver].
  - by rewrite Hs.
  - rewrite Hi, Hs. apply executing_put; [done| |].
    + rewrite (has_active_children_shape p _ _ Hsame). intros _ Hc He.
      rewrite (allows_parent_status item parent) by done. by apply (Hexec p parent).
    + intros k x Hne Hk Ha Hc He. left. by rewrite <-(has_active_children_shape k _ _ Hsame).
  - assert (change_of item = Upsert item) as Hchange by (unfold change_of; cbn; by rewrite Hactive).
    rewrite <-Hchange in Happend.
    apply (append_log_ok st (with_store_items st (<[p := item]> (st_items st))) item (Some group_id)); [done..| |done].
    cbn. by rewrite Hid.
Qed.

Lemma refresh_parents_ok stale now group_id st parents st' :
  store_ok_except stale st → refresh_parents st parents now group_id = Ok st' →
  (∀ p, p ∈ stale → Some p ∈ parents) → store_ok st'.
Proof.
  intros Hok Href Hsub. unfold refresh_parents in Href.
  assert (∀ p, p ∈ stale → p ∈ sort_dedup_N (omap id parents)) as Hall.
  { intros p Hp%Hsub. rewrite elem_of_sort_dedup_N, list_elem_of_omap. by exists (Some p). }
  clear Hsub. revert st stale Hok Href Hall. generalize (sort_dedup_N (omap id parents)) as ps.
  induction ps as [|p ps IH]; intros st stale Hok Href Hall.
  - cbn in Href. injection Href as <-. assert (stale = ∅) as -> by set_solver. done.
  - cbn [foldM] in Href. apply rbind_ok in Href as (mid & Hmid & Href).
    apply (IH mid (stale ∖ {[p]})); [by eapply refresh_parent_ok|done|]. intros x [Hx Hne]%elem_of_difference.
    specialize (Hall x Hx). set_solver.
Qed.

(** Storing an item, before its parents are refreshed. *)
Lemma store_item_ok stale st item group_id st' :
  store_ok st → store_item st item group_id (change_of item) = Ok st' →
  items_ok stale (<[it_id item := item]> (st_items st)) →
  executing_ok (<[it_id item := item]> (st_items st)) (st_completion_states st) →
  store_ok_except stale st'.
Proof.
  intros [_ Hstates _ Hlog] Hstore Hitems Hexec. unfold store_item in Hstore.
  pose proof (append_change_Ok _ _ _ _ Hstore) as (Hi & Hs & _). cbn in Hi, Hs. split; [by rewrite Hi|by rewrite Hs|by rewrite Hi, Hs|].
  by apply (append_log_ok st (with_store_items st (<[it_id item := item]> (st_items st))) item (Some group_id)).
Qed.

(** ** Placing an item *)

Lemma item_parents_insert items id item : item_parents_map (<[id := item]> items) = <[id := it_parent_id item]> (item_parents_map items).
Proof. apply fmap_insert. Qed.

Lemma placed_forest items states id item :
  forest_ok (item_parents_map items) → parent_allowed items states id (it_parent_id item) →
  forest_ok (item_parents_map (<[id := item]> items)).
Proof.
  intros Hforest Hallowed. rewrite item_parents_insert. destruct (it_parent_id item) as [p|]; [|by apply forest_detach].
  destruct (Hallowed p eq_refl) as (_ & _ & _ & _ & Hr). by apply forest_attach.
Qed.

Lemma parent_allowed_not_self items states id p : parent_allowed items states id (Some p) → p ≠ id.
Proof. intros Hallowed ->. destruct (Hallowed id eq_refl) as (_ & _ & _ & _ & []%self_not_rooted). Qed.

(** The parents whose children change when an item is stored. *)
Definition changed_parents (items : gmap Uuid Item) (k : Uuid) (item : Item) : gset Uuid :=
  list_to_set (omap (λ p, p) [items !! k ≫= it_parent_id; it_parent_id item]).

Lemma elem_of_changed_parents items id item p :
  p ∈ changed_parents items id item ↔
  (items !! id ≫= it_parent_id) = Some p ∨ it_parent_id item = Some p.
Proof.
  unfold changed_parents. rewrite elem_of_list_to_set, list_elem_of_omap. setoid_rewrite elem_of_cons. setoid_rewrite list_elem_of_singleton. naive_solver.
Qed.

Lemma placed_ok stale st item group_id st' :
  store_ok st → it_deleted_at item = None →
  parent_allowed (st_items st) (st_completion_states st) (it_id item) (it_parent_id item) →
  it_is_executable item = execution_is_allowed item (has_active_children (it_id item) (st_items st)) →
  (has_active_children (it_id item) (st_items st) = true → is_executing_state (it_status item) = true →
   completion_allows_parent item (st_completion_states st) = true) →
  (∀ x, x ∉ stale ∨ x = it_id item →
   has_active_children x (<[it_id item := item]> (st_items st)) = has_active_children x (st_items st)) →
  validate_dependency_graph (<[it_id item := item]> (st_items st)) = Ok tt →
  store_item st item group_id (Upsert item) = Ok st' →
  store_ok_except stale st'.
Proof.
  intros Hok Hactive Hallowed Hexecutable Hleaf Hsame Hgraph Hstore. pose proof Hok as [Hitems _ Hexec _].
  assert (forest_ok (item_parents_map (<[it_id item := item]> (st_items st)))) as Hforest.
  { eapply placed_forest; [apply Hitems|done]. }
  apply store_item_ok with (st := st) (item := item) (group_id := group_id); [done|by unfold change_of; rewrite Hactive| |].
  - apply put_items_ok; [done|done|done| | |done| |done].
    + intros _ p Hp. destruct (Hallowed p Hp) as (parent & Hpar & Hpa & _). by exists parent.
    + rewrite Hactive. by intros [? ?].
    + apply dependency_check_iff; [|done|done]. intros k x Hk. destruct (decide (k = it_id item)) as [->|Hne].
      * rewrite lookup_insert_eq in Hk. by simplify_eq.
      * rewrite lookup_insert_ne in Hk by done. by apply (io_keys _ _ Hitems).
  - apply executing_put; [done| |].
    + intros _ Hc. apply Hleaf. rewrite Hsame in Hc; [done|by right].
    + intros k x Hne Hk Ha Hc He. apply has_active_children_true in Hc as (j & child & Hj & Hp & Hca).
      destruct (decide (j = it_id item)) as [->|Hnj].
      * rewrite lookup_insert_eq in Hj. injection Hj as <-. right. destruct (Hallowed k Hp) as (parent & Hpar & _ & Hal & _).
        simplify_eq. by apply Hal.
      * left. rewrite lookup_insert_ne in Hj by done. apply has_active_children_true. by exists j, child.
Qed.

(** No item is below one that is not stored. *)
Lemma fresh_has_no_children items id : forest_ok (item_parents_map items) → items !! id = None → has_active_children id items = false.
Proof.
  intros Hforest Hfresh. apply not_true_iff_false. rewrite has_active_children_true. intros (k & child & Hk & Hp & _).
  assert (item_parents_map items !! k = Some (Some id)) as Hl by (rewrite item_parent_lookup, Hk; cbn; by f_equal).
  specialize (Hforest k (mk_is_Some _ _ Hl)). inversion Hforest as [? Hr|? q Hr Hq]; simplify_eq.
  apply rooted_present in Hq. rewrite item_parent_lookup, Hfresh in Hq. by destruct Hq.
Qed.

(** The children of an item that is not a parent of the stored one, before or
    after, and of the item itself. *)
Lemma parents_stale items states id item x :
  forest_ok (item_parents_map items) → parent_allowed items states id (it_parent_id item) →
  x ∉ changed_parents items id item ∨ x = id →
  has_active_children x (<[id := item]> items) = has_active_children x items.
Proof.
  intros Hforest Hallowed Hx. apply active_children_insert.
  - destruct Hx as [Hx| ->]; [intros Hp; apply Hx, elem_of_changed_parents; by right|]. intros Hp. rewrite Hp in Hallowed.
    by apply (parent_allowed_not_self items states id id).
  - destruct Hx as [Hx| ->]; [intros Hp; apply Hx, elem_of_changed_parents; by left|].
    destruct (items !! id) as [current|] eqn:Hc; [|done]. cbn. by apply (parent_not_self items).
Qed.

Lemma create_item_ok group_id item st st' answer :
  store_ok st → it_deleted_at item = None → create_item group_id item st = Ok (st', answer) → store_ok st'.
Proof.
  intros Hok Hactive Hcreate. pose proof (so_items _ _ Hok) as Hitems. unfold create_item in Hcreate.
  destruct (is_some _) eqn:Hfresh; [done|]. assert (st_items st !! it_id item = None) as Hnone by (by destruct (_ !! _)).
  apply rbind_ok in Hcreate as ([] & Hparent & Hcreate). apply rbind_ok in Hcreate as ([] & _ & Hcreate).
  apply rbind_ok in Hcreate as ([] & Hgraph & Hcreate). apply rbind_ok in Hcreate as (mid & Hstore & Hcreate).
  apply rbind_ok in Hcreate as (last & Href & [= <- <-]).
  apply parent_check_iff in Hparent; [|apply Hitems].
  set (placed := with_executable item _) in *.
  apply (refresh_parents_ok (changed_parents (st_items st) (it_id item) placed)) in Href; [done| |].
  - apply (placed_ok _ st placed group_id); try done.
    + cbn. by rewrite fresh_has_no_children by (apply Hitems || done).
    + cbn. by rewrite fresh_has_no_children by (apply Hitems || done).
    + intros x. apply (parents_stale _ (st_completion_states st)); [apply Hitems|done].
  - intros p. rewrite elem_of_changed_parents. cbn. rewrite Hnone. intros [?|Hp]; [done|]. rewrite Hp. by left.
Qed.

(** ** Replacing, restoring and trashing *)

Context `{Platform, Civil, !SchedulingMetadata}.

Lemma replaced_keeps item input now item' :
  replaced item input now = Ok item' →
  it_id item' = it_id item ∧ it_deleted_at item' = it_deleted_at item ∧ it_revision item' = (it_revision item + 1)%N.
Proof.
  unfold replaced. intros (f & _ & Hr)%rbind_ok. apply rbind_ok in Hr as (revision & Hrev & [= <-]).
  unfold next_item_revision in Hrev. apply ok_or_ok, checked_add_Some in Hrev as [-> _]. done.
Qed.

Lemma check_leaf_Ok states item has_children :
  check_leaf states item has_children = Ok tt → has_children = true → is_executing_state (it_status item) = true →
  completion_allows_parent item states = true.
Proof.
  unfold check_leaf. intros Hcheck -> He. rewrite He in Hcheck. by destruct (completion_allows_parent item states).
Qed.

Lemma replace_item_ok now group_id id expected input st st' answer :
  store_ok st → replace_item now group_id id expected input st = Ok (st', answer) → store_ok st'.
Proof.
  intros Hok Hreplace. pose proof (so_items _ _ Hok) as Hitems. unfold replace_item in Hreplace.
  apply rbind_ok in Hreplace as (current & Hcurrent%ok_or_ok & Hreplace). apply active_item_Some in Hcurrent as [Hcurrent Hactive].
  apply rbind_ok in Hreplace as ([] & _ & Hreplace). apply rbind_ok in Hreplace as (item & Hitem%map_err_ok & Hreplace).
  destruct (_ && _); [done|].
  apply rbind_ok in Hreplace as ([] & Hparent & Hreplace). apply rbind_ok in Hreplace as ([] & _ & Hreplace).
  apply rbind_ok in Hreplace as ([] & Hleaf & Hreplace). apply rbind_ok in Hreplace as ([] & Hgraph & Hreplace).
  apply rbind_ok in Hreplace as (mid & Hstore & Hreplace). apply rbind_ok in Hreplace as (last & Href & [= <- <-]).
  apply parent_check_iff in Hparent; [|apply Hitems]. apply replaced_keeps in Hitem as (Hid & Hdel & _).
  assert (it_id current = id) as Hcid by (by apply (io_keys _ _ Hitems)). rewrite Hcid in Hid.
  set (placed := with_executable item _) in *. assert (it_id placed = id) as Hpid by done.
  assert (it_deleted_at placed = it_deleted_at current) as Hpdel by done.
  assert (∀ stale, (∀ x, x ∉ stale ∨ x = it_id placed →
    has_active_children x (<[it_id placed := placed]> (st_items st)) = has_active_children x (st_items st)) →
    store_ok_except stale mid) as Hplaced.
  { intros stale Hsame. apply (placed_ok _ st placed group_id); rewrite ?Hpid; try done.
    - by rewrite Hpdel.
    - by apply check_leaf_Ok.
    - by rewrite Hpid in Hsame. }
  destruct (bool_decide _ && _) eqn:Hsteady.
  - injection Href as <-. apply Hplaced. intros x _. rewrite Hpid. apply andb_true_iff in Hsteady as [Hp%bool_decide_eq_true _].
    by apply (active_children_same _ _ current).
  - apply (refresh_parents_ok (changed_parents (st_items st) id placed)) in Href; [done| |].
    + apply Hplaced. intros x. rewrite Hpid. apply (parents_stale _ (st_completion_states st)); [apply Hitems|done].
    + intros p. rewrite elem_of_changed_parents, Hcurrent. cbn. intros [Hp|Hp]; rewrite Hp; [by left|right; by left].
Qed.

Lemma restore_item_ok now group_id id expected st st' answer :
  store_ok st → restore_item now group_id id expected st = Ok (st', answer) → store_ok st'.
Proof.
  intros Hok Hrestore. pose proof (so_items _ _ Hok) as Hitems. unfold restore_item in Hrestore.
  apply rbind_ok in Hrestore as (current & Hcurrent%ok_or_ok & Hrestore). apply trashed_item_Some in Hcurrent as [Hcurrent _].
  apply rbind_ok in Hrestore as ([] & _ & Hrestore). case_match; [done|].
  apply rbind_ok in Hrestore as (item & Hitem%map_err_ok & Hrestore).
  apply rbind_ok in Hrestore as ([] & Hparent & Hrestore). apply rbind_ok in Hrestore as ([] & Hleaf & Hrestore).
  apply rbind_ok in Hrestore as ([] & Hgraph & Hrestore). apply rbind_ok in Hrestore as (mid & Hstore & Hrestore).
  apply rbind_ok in Hrestore as (last & Href & [= <- <-]).
  apply parent_check_iff in Hparent; [|apply Hitems].
  assert (it_id current = id) as Hcid by (by apply (io_keys _ _ Hitems)).
  unfold restored in Hitem. apply rbind_ok in Hitem as (revision & _ & [= <-]).
  set (placed := with_executable _ _) in *. assert (it_id placed = id) as Hpid by done.
  apply (refresh_parents_ok (changed_parents (st_items st) id placed)) in Href; [done| |].
  - apply (placed_ok _ st placed group_id); rewrite ?Hpid; try done.
    + by apply check_leaf_Ok.
    + intros x. apply (parents_stale _ (st_completion_states st)); [apply Hitems|done].
  - intros p. rewrite elem_of_changed_parents, Hcurrent. cbn. intros [Hp|Hp]; rewrite Hp; by left.
Qed.

Lemma trash_item_ok now group_id id expected st st' answer :
  store_ok st → trash_item now group_id id expected st = Ok (st', answer) → store_ok st'.
Proof.
  intros Hok Htrash. pose proof Hok as [Hitems _ Hexec _]. unfold trash_item in Htrash.
  apply rbind_ok in Htrash as (current & Hcurrent%ok_or_ok & Htrash). apply active_item_Some in Hcurrent as [Hcurrent Hactive].
  apply rbind_ok in Htrash as ([] & _ & Htrash). destruct (has_active_children id _) eqn:Hleaf; [done|].
  apply rbind_ok in Htrash as (item & Hitem%map_err_ok & Htrash). apply rbind_ok in Htrash as (deleted_at & Hdel%ok_or_ok & Htrash).
  apply rbind_ok in Htrash as (mid & Hstore & Htrash). apply rbind_ok in Htrash as (last & Href & [= <- <-]).
  assert (it_id current = id) as Hcid by (by apply (io_keys _ _ Hitems)).
  unfold trashed in Hitem. apply rbind_ok in Hitem as (revision & _ & [= <-]). set (gone := touched _ _ _ _ _) in *.
  assert (it_id gone = id) as Hgid by done.
  assert (trashes current gone) as Htrashes by done.
  assert (∀ x, it_parent_id current ≠ Some x →
    has_active_children x (<[id := gone]> (st_items st)) = has_active_children x (st_items st)) as Hsame.
  { intros x Hx. apply active_children_insert; [done|]. by rewrite Hcurrent. }
  assert (it_parent_id current ≠ Some id) as Hself by (apply (parent_not_self (st_items st)); [apply Hitems|done]).
  apply (refresh_parents_ok (changed_parents (st_items st) id gone)) in Href; [done| |].
  - apply (store_item_ok _ st gone group_id); [done|by unfold change_of; rewrite Hdel| |]; rewrite Hgid.
    + apply put_items_ok; try done.
      * rewrite (trash_parents _ _ current) by done. apply Hitems.
      * by eapply trash_graph_ok; [apply Hitems|done..|apply Hitems].
      * intros x [Hx| ->]; apply Hsame; [|done]. intros Hp. apply Hx, elem_of_changed_parents. by right.
    + apply executing_put; [done|done|]. intros k x Hne Hk Ha Hc He. left.
      apply has_active_children_true in Hc as (j & child & Hj & Hp & Hca). apply has_active_children_true.
      destruct (decide (j = id)) as [->|Hnj]; [rewrite lookup_insert_eq in Hj; by injection Hj as <-|].
      exists j, child. by rewrite lookup_insert_ne in Hj.
  - intros p. rewrite elem_of_changed_parents, Hcurrent. cbn. intros [Hp|Hp]; rewrite Hp; by left.
Qed.

(** ** The effects of the completion policy *)

Context `{!CompletionDigest, !ChangeLength}.

(** An effect that is about the item and the state as they are stored. *)
Record effect_current (st : ItemState) (e : ItemCompletionEffect) : Prop := {
  ec_item : st_items st !! it_id (ef_before_item e) = Some (ef_before_item e);
  ec_active : it_deleted_at (ef_before_item e) = None;
  ec_state : ∀ s, st_completion_states st !! it_id (ef_before_item e) = Some s → s = ef_before_state e;
  ec_ok : effect_ok (has_active_children (it_id (ef_before_item e)) (st_items st)) e
}.

Lemma effect_same_id children e : effect_ok children e → it_id (ef_after_item e) = it_id (ef_before_item e).
Proof. intros Hok. pose proof (eo_shape _ _ Hok) as Hs. by injection Hs. Qed.

Lemma apply_effect_ok fresh loop e loop' :
  store_ok (el_state loop) → effect_current (el_state loop) e → apply_effect fresh loop e = Ok loop' →
  store_ok (el_state loop') ∧
  st_items (el_state loop') = <[it_id (ef_before_item e) := ef_after_item e]> (st_items (el_state loop)) ∧
  st_completion_states (el_state loop') = <[it_id (ef_before_item e) := ef_after_state e]> (st_completion_states (el_state loop)).
Proof.
  intros Hok [Hitem Hactive Hstate Heff] Happly. unfold apply_effect in Happly. destruct (_ || _); [done|].
  apply rbind_ok in Happly as (len & _ & Happly). destruct (_ <? _)%N; [done|].
  apply rbind_ok in Happly as (st1 & Happend%map_err_ok & [= <-]). cbn [el_state record_effect].
  pose proof (effect_same_id _ _ Heff) as Hid. destruct Hok as [Hitems Hstates Hexec Hlog].
  assert (cs_item_id (ef_after_state e) = it_id (ef_before_item e)) as Hsid by (by rewrite (eo_state_id _ _ Heff)).
  pose proof (append_change_Ok _ _ _ _ Happend) as (Hi & Hs & _). cbn in Hi, Hs. rewrite Hid in Hi. rewrite Hsid in Hs.
  assert (same_shape (<[it_id (ef_before_item e) := ef_after_item e]> (st_items (el_state loop))) (st_items (el_state loop))) as Hsame.
  { eapply same_shape_insert; [done|apply (eo_shape _ _ Heff)]. }
  unfold record_effect. split; [|done]. split; cbn [st_items st_completion_states].
  - rewrite Hi. apply (reshape_items_ok _ _ (ef_before_item e) _ ∅); [done|done|apply (eo_shape _ _ Heff)|apply (eo_deleted _ _ Heff)| |set_solver].
    apply (eo_executable _ _ Heff).
  - rewrite Hs. intros k s. destruct (decide (k = it_id (ef_before_item e))) as [->|Hne].
    + rewrite lookup_insert_eq. intros [= <-]. split; [done|apply (eo_state_valid _ _ Heff)].
    + rewrite lookup_insert_ne by done. apply Hstates.
  - rewrite Hi, Hs. intros k x Hk Ha Hc He. rewrite (has_active_children_shape k _ _ Hsame) in Hc.
    destruct (decide (k = it_id (ef_before_item e))) as [->|Hne].
    + rewrite lookup_insert_eq in Hk. injection Hk as <-. unfold completion_allows_parent. rewrite Hid, lookup_insert_eq.
      destruct (eo_executing _ _ Heff He) as [[Hdone Hprov]|[Hstatus Hnot]].
      * rewrite Hdone, (eo_state_valid _ _ Heff). rewrite (proj2 (N.ltb_lt _ _) (eo_state_revision _ _ Heff)).
        destruct Hprov as [p ->]. done.
      * destruct Hnot. assert (completion_allows_parent (ef_before_item e) (st_completion_states (el_state loop)) = true) as Hallow.
        { apply (Hexec _ _ Hitem); [done|done|by rewrite <-Hstatus]. }
        unfold completion_allows_parent in Hallow. apply andb_true_iff in Hallow as [Hdone%bool_decide_eq_true Hallow].
        split; [done|]. destruct (st_completion_states (el_state loop) !! _) as [s|] eqn:Hl; [|done]. rewrite (Hstate s eq_refl) in Hallow.
        apply andb_true_iff in Hallow as [Hallow _]. apply andb_true_iff in Hallow as [_ Hp]. by destruct (cs_provenance _).
    + rewrite lookup_insert_ne in Hk by done. pose proof (Hexec k x Hk Ha Hc He) as Hallow.
      unfold completion_allows_parent in *. rewrite lookup_insert_ne; [done|].
      rewrite (io_keys _ _ Hitems _ _ Hk). by intros <-.
  - assert (log_ok st1) as Hlog1; [|destruct Hlog1; split; done].
    apply (append_log_ok (el_state loop) (with_effect (el_state loop) e) (ef_after_item e) (Some
      (fresh (if (el_count loop =? MAX_ITEM_CHANGE_GROUP_SIZE)%nat || (MAX_ITEM_CHANGE_GROUP_PAYLOAD_BYTES <? el_bytes loop + len)%N
              then S (el_group loop) else el_group loop)))); [done..|].
    unfold change_of. by rewrite (eo_deleted _ _ Heff), Hactive.
Qed.

Lemma apply_effects_ok fresh es loop loop' :
  store_ok (el_state loop) → (∀ e, e ∈ es → effect_current (el_state loop) e) →
  NoDup ((λ e, it_id (ef_before_item e)) <$> es) →
  foldM (apply_effect fresh) loop es = Ok loop' → store_ok (el_state loop').
Proof.
  revert loop. induction es as [|e es IH]; intros loop Hok Hall Hnd Hfold; [by injection Hfold as <-|].
  cbn [foldM] in Hfold. apply rbind_ok in Hfold as (mid & Hmid & Hfold). rewrite fmap_cons in Hnd.
  apply NoDup_cons in Hnd as [Hfresh Hnd].
  assert (effect_current (el_state loop) e) as He by (apply Hall; by left).
  destruct (apply_effect_ok _ _ _ _ Hok He Hmid) as (Hok' & Hi & Hs).
  apply (IH mid); [done| |done|done]. intros e' He'.
  assert (it_id (ef_before_item e') ≠ it_id (ef_before_item e)) as Hne.
  { intros Heq. apply Hfresh. rewrite <-Heq. by apply (list_elem_of_fmap_2 (λ e, it_id (ef_before_item e))). }
  destruct (Hall e') as [Hitem Hactive Hstate Heff]; [by right|]. split.
  - by rewrite Hi, lookup_insert_ne.
  - done.
  - intros s. rewrite Hs, lookup_insert_ne by done. apply Hstate.
  - rewrite Hi. rewrite (has_active_children_shape _ _ (st_items (el_state loop))); [done|].
    eapply same_shape_insert; [apply (ec_item _ _ He)|apply (eo_shape _ _ (ec_ok _ _ He))].
Qed.

(** The forest that the policy reviews is the active part of the store. *)
Lemma memory_plan_current st execution command now plan :
  items_ok ∅ (st_items st) → states_ok (st_completion_states st) →
  completion_memory_plan st execution command now = Ok plan →
  (∀ e, e ∈ pl_effects plan → effect_current st e) ∧ NoDup ((λ e, it_id (ef_before_item e)) <$> pl_effects plan).
Proof.
  intros Hitems Hstates (forest & Hforest & Hall & Hnd)%plan_spec. split; [|done]. intros e He.
  destruct (Hall e He) as (Hb & Hs & Hok). apply index_forest_spec in Hforest as (_ & Hin & Hst & Hfrom).
  apply Hin in Hb as [[Hactive Hb]%list_elem_of_filter _]. apply elem_of_values in Hb as [k Hk].
  pose proof (io_keys _ _ Hitems _ _ Hk) as Hkid. rewrite Hkid in *.
  assert (it_deleted_at (ef_before_item e) = None) as Hdel by (unfold is_active in Hactive; by destruct (it_deleted_at _)).
  split; rewrite ?Hkid; [done|done| |].
  - intros s Hl. destruct (Hstates _ _ Hl) as [Hsid _].
    assert (forest.2 !! cs_item_id s = Some s) as Hf.
    { apply Hst, list_elem_of_filter. split; [|apply elem_of_values; by exists k].
      rewrite Hsid. by rewrite (proj2 (active_item_Some _ _ _) (conj Hk Hdel)). }
    rewrite Hsid in Hf. congruence.
  - assert (has_active_children k (st_items st) =
      bool_decide (k ∈ indexed_parents (filter (λ item, is_active item = true) (values (st_items st))))) as ->; [|done].
    apply Bool.eq_true_iff_eq. rewrite has_active_children_true, bool_decide_eq_true. unfold indexed_parents.
    rewrite elem_of_list_to_set, list_elem_of_omap. setoid_rewrite list_elem_of_filter. setoid_rewrite elem_of_values.
    unfold is_active. split.
    + intros (j & child & Hj & Hp & Ha). exists child. rewrite Ha. eauto.
    + intros (child & [Ha [j Hj]] & Hp). exists j, child. split; [done|]. split; [done|]. by destruct (it_deleted_at child).
Qed.

Lemma completion_store_ok fresh st execution command now plan st' :
  store_ok st → completion_memory_plan st execution command now = Ok plan →
  apply_completion_memory fresh st plan = Ok st' → store_ok st'.
Proof.
  intros Hok Hplan Happly. apply memory_plan_current in Hplan as [Hall Hnd]; [|apply Hok..].
  unfold apply_completion_memory in Happly. apply rbind_ok in Happly as (loop & Hfold & [= <-]).
  by eapply apply_effects_ok; [..|exact Hfold].
Qed.
End repository.
