(* ===== verification/ItemSamples.v ===== *)
(** * ItemSamples: concrete formats and items for the witnesses

    A small format for the JSON of an item, one time zone without offsets, and
    constant encodings, on which the theorems about items are evaluated. *)
From S2P Require Import Prelude Text Platform Civil Domain Rrule Decimal Progress Completion Session ItemDomain CompletionPolicy ItemStore.

#[local] Instance sample_dependency_eq_dec : EqDecision Dependency.
Proof. solve_decision. Defined.

#[local] Existing Instance utc_platform.
#[local] Existing Instance gregorian.

(** Flags, lists of dependencies, and objects as chains of fields. *)
Inductive Doc : Type :=
| Flag (b : bool)
| Deps (l : list Dependency)
| Empty
| Field (key : string) (value rest : Doc).

#[export] Instance Doc_eq_dec : EqDecision Doc.
Proof. solve_decision. Defined.

Definition is_object (value : Doc) : bool := match value with Empty | Field _ _ _ => true | _ => false end.

Fixpoint doc_get (value : Doc) (key : string) : option Doc :=
  match value with
  | Field k x rest => if bool_decide (key = k) then Some x else doc_get rest key
  | _ => None
  end.

Fixpoint doc_insert (value : Doc) (key : string) (field : Doc) : Doc :=
  match value with
  | Field k x rest => if bool_decide (key = k) then Field k field rest else Field k x (doc_insert rest key field)
  | _ => Field key field Empty
  end.

Fixpoint doc_remove (value : Doc) (key : string) : Doc :=
  match value with
  | Field k x rest => if bool_decide (key = k) then doc_remove rest key else Field k x (doc_remove rest key)
  | _ => Empty
  end.

Fixpoint doc_len (value : Doc) : nat := match value with Field _ _ rest => S (doc_len rest) | _ => 0 end.

#[export] Instance sample_formats : ItemFormats := {|
  Value := Doc;
  Value_eq_dec := _;
  empty_object := Empty;
  bool_value := Flag;
  value_get := doc_get;
  value_as_bool := λ value, match value with Flag b => Some b | _ => None end;
  value_is_object := is_object;
  value_len := doc_len;
  value_insert := doc_insert;
  value_remove := doc_remove;
  encoded_length := λ _, Some 100%N;
  decode_dependencies := λ value, match value with Deps l => Some l | _ => None end;
  encode_dependencies := λ l, Some (Deps l);
  encode_recurrence := λ _, Ok Empty;
  Tz := unit;
  tz_from_str := λ name, if bool_decide (name = "UTC") then Some tt else None;
  local_midnight := λ _ date, Single (date * (86400 * nanos_per_second))%Z;
  local_date := λ _ t, (t / (86400 * nanos_per_second))%Z;
  naive_year := λ date, (1970 + date / 365)%Z;
  naive_succ := λ date, Some (date + 1)%Z;
  to_time_date := Some
|}.

#[export] Instance sample_formats_laws : ItemFormatLaws.
Proof.
  split; cbn [value_get value_is_object value_insert value_remove empty_object sample_formats].
  - by intros [].
  - intros v k x k' _. induction v as [b|l| |key value _ rest IH]; cbn; [by repeat case_bool_decide..|].
    destruct (bool_decide (k = key)) eqn:Hk; [apply bool_decide_eq_true in Hk as ->; cbn; by case_bool_decide|].
    apply bool_decide_eq_false in Hk. cbn. rewrite IH. do 2 case_bool_decide; subst; try done.
  - intros v k k' _. induction v as [b|l| |key value _ rest IH]; cbn; [by case_bool_decide..|].
    destruct (bool_decide (k = key)) eqn:Hk; [apply bool_decide_eq_true in Hk as ->|apply bool_decide_eq_false in Hk; cbn]; rewrite IH;
      [by destruct (decide (k' = key)) as [->|Hne]; [rewrite !bool_decide_true|rewrite !bool_decide_false]|].
    repeat case_bool_decide; subst; done.
  - intros [] k x; cbn; try done. by case_bool_decide.
  - intros v k _. induction v as [b|l| |key value _ rest IH]; cbn; try done. by case_bool_decide.
  - done.
  - done.
  - intros l v. by intros [= <-].
Qed.

#[export] Instance sample_metadata : SchedulingMetadata := {| validate_scheduling_metadata := λ _, Ok None |}.

#[export] Instance sample_digest : CompletionDigest := {|
  forest_length := λ _ _, Some 100%N;
  evidence_length := λ _ _ _, Some 100%N;
  evidence_digest := λ _ _ _, "digest"
|}.

#[export] Instance sample_lengths : ChangeLength := {| change_length := λ _, Some 1000%N |}.

(** A planned task of half an hour, with its dependencies. *)
Definition sample_fields (kind : ItemKind) (parent : option Uuid) (predecessors : list Uuid) : ItemFields :=
  {| if_is_sensitive := false; if_kind := kind; if_status := ItemStatus.Planned; if_title := " Write "; if_notes := None;
     if_timezone_name := "UTC"; if_duration_kind := None; if_duration_seconds := Some 1800%N; if_duration_min_seconds := None;
     if_duration_max_seconds := None; if_duration_source := None; if_deadline_kind := None; if_deadline_date := None;
     if_deadline_at := None; if_deadline_strength := None; if_deadline_soft_weight := None; if_earliest_start_at := None;
     if_recurrence := None;
     if_flexible_constraints := Field "constraints" (Field "dependencies" (Deps ((λ id, {| dep_item_id := id;
       dep_relation := FinishToStart; dep_minimum_lag := 0; dep_strength := Hard |}) <$> predecessors)) Empty) Empty;
     if_has_own_effort := None; if_split_policy := SplitPolicy.Indivisible; if_importance := 50; if_urgency := 50;
     if_parent_id := parent; if_sibling_order := 0; if_blocked_reason_kind := None; if_blocked_by_item_id := None;
     if_blocked_reason := None |}.

Definition sample_input (id : Uuid) (kind : ItemKind) (parent : option Uuid) (predecessors : list Uuid) : NewItem :=
  {| ni_id := id; ni_fields := sample_fields kind parent predecessors |}.

Definition sample_now : DateTime := (1000 * nanos_per_second)%Z.

Definition sample_context (key : string) : IdempotencyContext :=
  {| ic_namespace := "items"; ic_key := key; ic_fingerprint := 7; ic_expires_at := (sample_now + 86400 * nanos_per_second)%Z |}.

(** The item of an accepted input. *)
Definition sample_item (input : NewItem) : result ItemDomainError Item :=
  new_item input sample_now.

(** Identifiers that no earlier write used. *)
Definition sample_fresh (st : ItemState) (k : nat) : Uuid := (N.of_nat k + 100 + 10 * st_next_sequence st)%N.

(** A write of the service, without an execution guard. *)
Definition sample_write (request : ItemRequest) (key : string) (st : ItemState) : ItemState * result ItemRepositoryError ItemMutation :=
  mutate_with_completion sample_now sample_now sample_now (sample_fresh st) None request (sample_context key) st.

(** The store after an item is created. *)
Definition sample_created (input : NewItem) (key : string) (st : ItemState) : ItemState :=
  match sample_item input with Ok item => (sample_write (Create item) key st).1 | Err _ => st end.

(** A project with two tasks, the second after the first. *)
Definition sample_store : ItemState :=
  sample_created (sample_input 3 ItemKind.Task (Some 1%N) [2%N]) "create-3"
    (sample_created (sample_input 2 ItemKind.Task (Some 1%N) []) "create-2"
       (sample_created (sample_input 1 ItemKind.Project None []) "create-1" empty_items)).

Example sample_store_items : keys (st_items sample_store) = [1; 2; 3]%N ∧ st_next_sequence sample_store = 5%N.
Proof. vm_compute. split; reflexivity. Qed.

Example sample_item_normalised :
  it_title <$> match sample_item (sample_input 1 ItemKind.Task None []) with Ok item => Some item | Err _ => None end = Some "Write".
Proof. vm_compute. reflexivity. Qed.
