(* ===== verification/Versions.v ===== *)
(** * Versions: the revisions and the answers of the item repository

    The operations of ItemStore publish each new revision of an item in the change
    log, one after the other, and never lose an item.  A revision that a write
    was based on is never current again, a failed request changes nothing, and an
    answered one is answered the same way until it expires. *)
From S2P Require Import Prelude Text Platform Civil Domain Forest Rrule Decimal Progress Completion Session Lease ItemDomain CompletionPolicy ItemStore ItemForest ItemGraph Effects Repository ItemSamples.
Import ItemRepositoryError.

Section versions.
Context `{ItemFormats, Platform, Civil, !SchedulingMetadata}.

(** ** Publishing *)

(** The strings of a request are UTF-8, as every [String]. *)
Definition text_fields (f : ItemFields) : Prop := match if_blocked_reason f with Some reason => is_text reason = true | None => True end.

(** Where a revision comes from: an accepted input, an accepted replacement, or a
    review of the stored item, up to the stamps. *)
Inductive item_origin (items : gmap Uuid Item) : Item → Prop :=
| origin_new input now item executable :
    new_item input now = Ok item → text_fields (ni_fields input) → item_origin items (with_executable item executable)
| origin_replaced current input now item executable :
    items !! it_id current = Some current → replaced current input now = Ok item → text_fields input →
    item_origin items (with_executable item executable)
| origin_reviewed current item revision now deleted_at executable :
    items !! it_id current = Some current → reviewed current item →
    item_origin items (touched item revision now deleted_at executable).

(** Storing a new revision of an item and logging it. *)
Record publishes (st : ItemState) (item : Item) (st' : ItemState) : Prop := {
  pb_origin : item_origin (st_items st) item;
  pb_next : ∀ old, st_items st !! it_id item = Some old → it_revision item = (it_revision old + 1)%N;
  pb_items : st_items st' = <[it_id item := item]> (st_items st);
  pb_log : mc_change <$> st_changes st' = (mc_change <$> st_changes st) ++ [change_of item]
}.

(** Any number of publications; what clients are not told may change as well. *)
Inductive advances : ItemState → ItemState → Prop :=
| adv_done st st' : st_items st' = st_items st → st_changes st' = st_changes st → advances st st'
| adv_publish st item st1 st2 : publishes st item st1 → advances st1 st2 → advances st st2.

Lemma advances_refl st : advances st st.
Proof. by constructor. Qed.

Lemma advances_silent st st1 st2 :
  st_items st = st_items st1 → st_changes st = st_changes st1 → advances st1 st2 → advances st st2.
Proof.
  intros Hi Hc Hadv. destruct Hadv as [st1 st2 Hi' Hc'|st1 item mid st2 [Horigin Hnext Hitems Hlog] Hadv].
  - constructor; congruence.
  - apply adv_publish with item mid; [|done]. split; rewrite ?Hi, ?Hc; done.
Qed.

Lemma advances_trans st1 st2 st3 : advances st1 st2 → advances st2 st3 → advances st1 st3.
Proof.
  induction 1 as [st st' Hi Hc|st item mid st' Hp _ IH]; intros Hadv; [by eapply advances_silent|].
  eapply adv_publish; [done|]. by apply IH.
Qed.

Lemma publishes_append st st0 item group_id st' :
  item_origin (st_items st) item → st_items st0 = <[it_id item := item]> (st_items st) → st_changes st0 = st_changes st →
  (∀ old, st_items st !! it_id item = Some old → it_revision item = (it_revision old + 1)%N) →
  append_change st0 group_id (change_of item) = Ok st' → publishes st item st'.
Proof.
  intros Horigin Hi Hc Hnext (Hi' & _ & _ & Hc')%append_change_Ok. split; [done..|by rewrite Hi'|]. by rewrite Hc', Hc, fmap_app.
Qed.

Lemma publishes_keys st item st' : publishes st item st' → keys_ok (st_items st) → keys_ok (st_items st').
Proof.
  intros [_ _ Hi _] Hkeys id x. rewrite Hi. destruct (decide (id = it_id item)) as [->|Hne].
  - rewrite lookup_insert_eq. by intros [= <-].
  - rewrite lookup_insert_ne by done. apply Hkeys.
Qed.

Lemma advances_keys st st' : advances st st' → keys_ok (st_items st) → keys_ok (st_items st').
Proof. induction 1 as [st st' Hi _|st item mid st' Hp _ IH]; [by rewrite Hi|]. intros Hk. by eapply IH, publishes_keys. Qed.

Lemma next_item_revision_Ok item revision : next_item_revision item = Ok revision → revision = (it_revision item + 1)%N.
Proof. unfold next_item_revision. by intros [-> _]%ok_or_ok%checked_add_Some. Qed.

Lemma refresh_parent_publishes now group_id st p st' :
  keys_ok (st_items st) → refresh_parent now group_id st p = Ok st' → ∃ item, publishes st item st'.
Proof.
  intros Hkeys (parent & Hp%ok_or_ok & Href)%rbind_ok. apply active_item_Some in Hp as [Hp Hactive].
  apply rbind_ok in Href as (item & Hr%map_err_ok & Happend). unfold refreshed_execution in Hr.
  apply rbind_ok in Hr as (revision & ->%next_item_revision_Ok & [= <-]). exists (touched parent (it_revision parent + 1)
    (canonical_storage_instant now) (it_deleted_at parent) (execution_is_allowed parent (has_active_children p (st_items st)))).
  set (item := touched _ _ _ _ _) in *. assert (it_id item = p) as Hid by exact (Hkeys p parent Hp).
  assert (change_of item = Upsert item) as Hchange by (unfold change_of; cbn; by rewrite Hactive). rewrite <-Hchange in Happend.
  eapply publishes_append; [..|exact Happend]; [|by rewrite Hid|done|].
  { apply (origin_reviewed _ parent parent); [by rewrite (Hkeys p parent Hp)|constructor]. } intros old. rewrite Hid. intros Hold. by simplify_eq.
Qed.

Lemma refresh_parents_advances st parents now group_id st' :
  keys_ok (st_items st) → refresh_parents st parents now group_id = Ok st' → advances st st'.
Proof.
  unfold refresh_parents. generalize (sort_dedup_N (omap id parents)) as ps. intros ps. revert st.
  induction ps as [|p ps IH]; intros st Hkeys Hfold; [injection Hfold as <-; apply advances_refl|].
  cbn [foldM] in Hfold. apply rbind_ok in Hfold as (mid & Hmid & Hfold).
  destruct (refresh_parent_publishes _ _ _ _ _ Hkeys Hmid) as [item Hp].
  apply adv_publish with item mid; [done|]. apply IH; [by eapply publishes_keys|done].
Qed.

(** ** The mutations *)

(** Publishing an item, and then any number of others. *)
Definition publishes_first (st : ItemState) (item : Item) (st' : ItemState) : Prop :=
  ∃ mid, publishes st item mid ∧ advances mid st'.

Lemma publishes_first_advances st item st' : publishes_first st item st' → advances st st'.
Proof. intros (mid & Hp & Hadv). by apply adv_publish with item mid. Qed.

(** A mutation that stores the item it answers with, and then refreshes. *)
Lemma store_refresh_advances st item group_id mid parents now group_id' st' :
  keys_ok (st_items st) → item_origin (st_items st) item → store_item st item group_id (change_of item) = Ok mid →
  (∀ old, st_items st !! it_id item = Some old → it_revision item = (it_revision old + 1)%N) →
  (mid = st' ∨ refresh_parents mid parents now group_id' = Ok st') → publishes_first st item st'.
Proof.
  intros Hkeys Horigin Hstore Hnext Href. assert (publishes st item mid) as Hp by (by apply (publishes_append st
    (with_store_items st (<[it_id item := item]> (st_items st))) item (Some group_id))).
  exists mid. split; [done|]. destruct Href as [->|Href]; [apply advances_refl|].
  eapply refresh_parents_advances; [by eapply publishes_keys|done].
Qed.

Lemma create_item_advances group_id item st st' answer :
  keys_ok (st_items st) → it_deleted_at item = None → (∀ executable, item_origin (st_items st) (with_executable item executable)) →
  create_item group_id item st = Ok (st', answer) →
  st_items st !! it_id item = None ∧ it_id answer = it_id item ∧ it_revision answer = it_revision item ∧ publishes_first st answer st'.
Proof.
  intros Hkeys Hactive Horigin Hcreate. unfold create_item in Hcreate. destruct (is_some _) eqn:Hfresh; [done|].
  assert (st_items st !! it_id item = None) as Hnone by (by destruct (_ !! _)). split; [done|].
  apply rbind_ok in Hcreate as ([] & _ & Hcreate). apply rbind_ok in Hcreate as ([] & _ & Hcreate).
  apply rbind_ok in Hcreate as ([] & _ & Hcreate). apply rbind_ok in Hcreate as (mid & Hstore & Hcreate).
  apply rbind_ok in Hcreate as (last & Href & [= <- <-]). split; [done|]. split; [done|].
  set (placed := with_executable item _) in *. eapply (store_refresh_advances st placed group_id); [done|apply Horigin| | |by right].
  - unfold change_of. cbn. rewrite Hactive. exact Hstore.
  - cbn. intros old Hold. congruence.
Qed.

Lemma replace_item_advances now group_id id expected input st st' answer :
  keys_ok (st_items st) → text_fields input → replace_item now group_id id expected input st = Ok (st', answer) →
  ∃ current, st_items st !! id = Some current ∧ it_deleted_at current = None ∧ it_revision current = expected ∧
    it_id answer = id ∧ it_revision answer = (expected + 1)%N ∧ publishes_first st answer st'.
Proof.
  intros Hkeys Htext Hreplace. unfold replace_item in Hreplace.
  apply rbind_ok in Hreplace as (current & Hcurrent%ok_or_ok & Hreplace). apply active_item_Some in Hcurrent as [Hcurrent Hactive].
  apply rbind_ok in Hreplace as ([] & Hrev & Hreplace). apply rbind_ok in Hreplace as (item & Hitem%map_err_ok & Hreplace).
  destruct (_ && _); [done|].
  apply rbind_ok in Hreplace as ([] & _ & Hreplace). apply rbind_ok in Hreplace as ([] & _ & Hreplace).
  apply rbind_ok in Hreplace as ([] & _ & Hreplace). apply rbind_ok in Hreplace as ([] & _ & Hreplace).
  apply rbind_ok in Hreplace as (mid & Hstore & Hreplace). apply rbind_ok in Hreplace as (last & Href & [= <- <-]).
  assert (∀ executable, item_origin (st_items st) (with_executable item executable)) as Horigin.
  { intros executable. eapply (origin_replaced _ current); [by rewrite (Hkeys _ _ Hcurrent)|done..]. }
  apply replaced_keeps in Hitem as (Hid & Hdel & Hnext). rewrite (Hkeys _ _ Hcurrent) in Hid.
  unfold ensure_revision in Hrev. destruct (N.eqb_spec (it_revision current) expected) as [<-|]; [|done].
  exists current. split; [done|]. split; [done|]. split; [done|]. split; [done|]. split; [done|].
  set (placed := with_executable item _) in *. assert (it_id placed = id) as Hpid by done.
  eapply (store_refresh_advances st placed group_id); [done|apply Horigin| | |].
  - assert (it_deleted_at placed = None) as Hpd by (by change (it_deleted_at placed) with (it_deleted_at item); rewrite Hdel).
    unfold change_of. rewrite Hpd. exact Hstore.
  - rewrite Hpid, Hcurrent. intros old [= <-]. exact Hnext.
  - destruct (_ && _); [left; by injection Href|by right].
Qed.

Lemma restore_item_advances now group_id id expected st st' answer :
  keys_ok (st_items st) → restore_item now group_id id expected st = Ok (st', answer) →
  ∃ current, st_items st !! id = Some current ∧ is_Some (it_deleted_at current) ∧ it_revision current = expected ∧
    it_id answer = id ∧ it_revision answer = (expected + 1)%N ∧ publishes_first st answer st'.
Proof.
  intros Hkeys Hrestore. unfold restore_item in Hrestore.
  apply rbind_ok in Hrestore as (current & Hcurrent%ok_or_ok & Hrestore). apply trashed_item_Some in Hcurrent as [Hcurrent Hdel].
  apply rbind_ok in Hrestore as ([] & Hrev & Hrestore). case_match; [done|].
  apply rbind_ok in Hrestore as (item & Hitem%map_err_ok & Hrestore).
  apply rbind_ok in Hrestore as ([] & _ & Hrestore). apply rbind_ok in Hrestore as ([] & _ & Hrestore).
  apply rbind_ok in Hrestore as ([] & _ & Hrestore). apply rbind_ok in Hrestore as (mid & Hstore & Hrestore).
  apply rbind_ok in Hrestore as (last & Href & [= <- <-]).
  unfold restored in Hitem. apply rbind_ok in Hitem as (revision & ->%next_item_revision_Ok & [= <-]).
  unfold ensure_revision in Hrev. destruct (N.eqb_spec (it_revision current) expected) as [<-|]; [|done].
  exists current. split; [done|]. split; [done|]. split; [done|]. set (placed := with_executable _ _) in *.
  assert (it_id placed = id) as Hpid by exact (Hkeys id current Hcurrent). split; [done|]. split; [done|].
  eapply (store_refresh_advances st placed group_id); [done| |exact Hstore| |by right].
  { apply (origin_reviewed _ current current); [by rewrite (Hkeys _ _ Hcurrent)|constructor]. }
  rewrite Hpid, Hcurrent. by intros old [= <-].
Qed.

Lemma trash_item_advances now group_id id expected st st' answer :
  keys_ok (st_items st) → trash_item now group_id id expected st = Ok (st', answer) →
  ∃ current, st_items st !! id = Some current ∧ it_deleted_at current = None ∧ it_revision current = expected ∧
    it_id answer = id ∧ it_revision answer = (expected + 1)%N ∧ publishes_first st answer st'.
Proof.
  intros Hkeys Htrash. unfold trash_item in Htrash.
  apply rbind_ok in Htrash as (current & Hcurrent%ok_or_ok & Htrash). apply active_item_Some in Hcurrent as [Hcurrent Hactive].
  apply rbind_ok in Htrash as ([] & Hrev & Htrash). destruct (has_active_children id _); [done|].
  apply rbind_ok in Htrash as (item & Hitem%map_err_ok & Htrash). apply rbind_ok in Htrash as (deleted_at & Hdel%ok_or_ok & Htrash).
  apply rbind_ok in Htrash as (mid & Hstore & Htrash). apply rbind_ok in Htrash as (last & Href & [= <- <-]).
  unfold trashed in Hitem. apply rbind_ok in Hitem as (revision & ->%next_item_revision_Ok & [= <-]).
  unfold ensure_revision in Hrev. destruct (N.eqb_spec (it_revision current) expected) as [<-|]; [|done].
  exists current. split; [done|]. split; [done|]. split; [done|]. set (gone := touched _ _ _ _ _) in *.
  assert (it_id gone = id) as Hgid by exact (Hkeys id current Hcurrent). split; [done|]. split; [done|].
  eapply (store_refresh_advances st gone group_id); [done| | | |by right].
  - apply (origin_reviewed _ current current); [by rewrite (Hkeys _ _ Hcurrent)|constructor].
  - unfold change_of. rewrite Hdel. exact Hstore.
  - rewrite Hgid, Hcurrent. by intros old [= <-].
Qed.

(** ** The completion policy *)

Context `{!CompletionDigest, !ChangeLength}.

Lemma apply_effect_publishes fresh loop e loop' :
  keys_ok (st_items (el_state loop)) → st_items (el_state loop) !! it_id (ef_before_item e) = Some (ef_before_item e) →
  it_deleted_at (ef_before_item e) = None → (∃ children, effect_ok children e) →
  apply_effect fresh loop e = Ok loop' → publishes (el_state loop) (ef_after_item e) (el_state loop').
Proof.
  intros Hkeys Hitem Hactive [children Heff] Happly. unfold apply_effect in Happly. destruct (_ || _); [done|].
  apply rbind_ok in Happly as (len & _ & Happly). destruct (_ <? _)%N; [done|].
  apply rbind_ok in Happly as (st1 & Happend%map_err_ok & [= <-]). cbn [el_state].
  assert (publishes (el_state loop) (ef_after_item e) st1) as [Ho Hn Hi Hl]; [|by split].
  pose proof (effect_same_id _ _ Heff) as Hid.
  eapply (publishes_append _ (with_effect (el_state loop) e)); [|done|done| |].
  - destruct (eo_reviewed _ _ Heff) as (item & revision & now & executable & Hrev & ->). by eapply origin_reviewed.
  - rewrite Hid, Hitem. intros old [= <-]. apply (eo_revision _ _ Heff).
  - unfold change_of. rewrite (eo_deleted _ _ Heff), Hactive. exact Happend.
Qed.

Lemma apply_effects_advances fresh es loop loop' :
  keys_ok (st_items (el_state loop)) → (∀ e, e ∈ es → effect_current (el_state loop) e) →
  NoDup ((λ e, it_id (ef_before_item e)) <$> es) →
  foldM (apply_effect fresh) loop es = Ok loop' → advances (el_state loop) (el_state loop').
Proof.
  intros Hkeys Hall.
  assert (∀ e, e ∈ es → st_items (el_state loop) !! it_id (ef_before_item e) = Some (ef_before_item e) ∧
    it_deleted_at (ef_before_item e) = None ∧ ∃ children, effect_ok children e) as Hcur.
  { intros e He. destruct (Hall e He) as [? ? _ ?]. eauto. }
  clear Hall. revert loop Hkeys Hcur. induction es as [|e es IH]; intros loop Hkeys Hall Hnd Hfold.
  { injection Hfold as <-. apply advances_refl. }
  cbn [foldM] in Hfold. apply rbind_ok in Hfold as (mid & Hmid & Hfold). rewrite fmap_cons in Hnd.
  apply NoDup_cons in Hnd as [Hfresh Hnd]. destruct (Hall e) as (Hitem & Hactive & Heff); [by left|].
  apply apply_effect_publishes in Hmid as Hp; [|done..].
  apply adv_publish with (ef_after_item e) (el_state mid); [done|]. apply IH; [by eapply publishes_keys| |done|done].
  intros e' He'. destruct (Hall e') as (Hitem' & Hrest); [by right|]. split; [|done].
  rewrite (pb_items _ _ _ Hp). destruct Heff as [children Heff]. rewrite (effect_same_id _ _ Heff), lookup_insert_ne; [done|].
  intros Heq. apply Hfresh. rewrite Heq. by apply (list_elem_of_fmap_2 (λ e, it_id (ef_before_item e))).
Qed.

Lemma completion_advances fresh st execution command now plan st' :
  store_ok st → completion_memory_plan st execution command now = Ok plan →
  apply_completion_memory fresh st plan = Ok st' → advances st st'.
Proof.
  intros Hok Hplan Happly. apply memory_plan_current in Hplan as [Hall Hnd]; [|apply Hok..].
  unfold apply_completion_memory in Happly. apply rbind_ok in Happly as (loop & Hfold & [= <-]).
  eapply (apply_effects_advances fresh (pl_effects plan) {| el_state := st |}); [|done..]. apply Hok.
Qed.

(** ** Requests *)

(** The service creates only the items that [new_item] makes. *)
Definition request_valid (request : ItemRequest) : Prop :=
  match request with
  | Create item => ∃ input now, new_item input now = Ok item ∧ text_fields (ni_fields input)
  | Replace _ _ replacement => text_fields replacement
  | _ => True
  end.

(** The item a request changes, and the revision it was based on. *)
Definition request_base (request : ItemRequest) : option (Uuid * N) :=
  match request with
  | Create _ => None
  | Replace id expected _ | Trash id expected | Restore_ id expected => Some (id, expected)
  end.

Lemma new_item_active input now item : new_item input now = Ok item → it_deleted_at item = None.
Proof.
  unfold new_item. intros (f & _ & Hn)%rbind_ok. apply rbind_ok in Hn as (? & _ & Hn). apply rbind_ok in Hn as (? & _ & Hn).
  by apply rbind_ok in Hn as (? & _ & [= <-]).
Qed.

Lemma store_ok_idempotency stale st entries : store_ok_except stale st → store_ok_except stale (with_idempotency st entries).
Proof. intros [Hi Hs He [Hseq Hn Hl]]. split; [exact Hi|exact Hs|exact He|]. by split. Qed.

(** What a mutation that was not answered before does, up to the answers. *)
Definition effect_of (clock now : DateTime) (group_id : Uuid) (request : ItemRequest) (st : ItemState)
    : result ItemRepositoryError (ItemState * Item) :=
  match request with
  | Create item => create_item group_id item st
  | Replace id expected replacement => replace_item now group_id id expected replacement st
  | Trash id expected => trash_item now group_id id expected st
  | Restore_ id expected => restore_item now group_id id expected st
  end.

Lemma mutation_of_answering clock now group_id execution request context st result :
  mutation_of clock now group_id execution request context st = Ok result →
  answering clock st context (effect_of clock now group_id request) = Ok result.
Proof.
  destruct request as [item|id expected replacement|id expected|id expected]; cbn [mutation_of effect_of].
  - by intros (? & _ & Hm)%rbind_ok.
  - intros (? & _ & Hm)%rbind_ok. apply rbind_ok in Hm as (? & _ & Hm). by apply rbind_ok in Hm as (? & _ & Hm).
  - by intros (? & _ & Hm)%rbind_ok.
  - intros (? & _ & Hm)%rbind_ok. apply rbind_ok in Hm as (? & _ & Hm). by apply rbind_ok in Hm as (? & _ & Hm).
Qed.

Lemma effect_of_spec clock now group_id request st st' answer :
  store_ok st → request_valid request → effect_of clock now group_id request st = Ok (st', answer) →
  store_ok st' ∧ publishes_first st answer st' ∧
  (∀ id expected, request_base request = Some (id, expected) →
     ∃ current, st_items st !! id = Some current ∧ it_revision current = expected ∧ it_id answer = id ∧
       it_revision answer = (expected + 1)%N).
Proof.
  intros Hok Hvalid Heff. pose proof (io_keys _ _ (so_items _ _ Hok)) as Hkeys.
  destruct request as [item|id expected replacement|id expected|id expected]; cbn [effect_of] in Heff.
  - destruct Hvalid as (input & at_ & Hitem & Htext). pose proof (new_item_active _ _ _ Hitem) as Hactive.
    split; [by eapply create_item_ok|]. apply create_item_advances in Heff as (_ & _ & _ & Hp); [done..|].
    intros executable. by eapply origin_new.
  - split; [by eapply replace_item_ok|]. apply replace_item_advances in Heff as (current & ? & _ & ? & ? & ? & ?); [|done..].
    split; [done|]. intros ? ? [= <- <-]. by exists current.
  - split; [by eapply trash_item_ok|]. apply trash_item_advances in Heff as (current & ? & _ & ? & ? & ? & ?); [|done].
    split; [done|]. intros ? ? [= <- <-]. by exists current.
  - split; [by eapply restore_item_ok|]. apply restore_item_advances in Heff as (current & ? & _ & ? & ? & ? & ?); [|done].
    split; [done|]. intros ? ? [= <- <-]. by exists current.
Qed.

Lemma replay_item_spec clock st context st' found :
  replay_item clock st context = (st', found) →
  st_items st' = st_items st ∧ st_changes st' = st_changes st ∧ (∃ entries, st' = with_idempotency st entries) ∧
  st_idempotency st' ⊆ st_idempotency st ∧
  match found with
  | None => st_idempotency st' !! context_key context = None
  | Some (Ok m) => im_replayed m = true
  | Some (Err e) => e = IdempotencyConflict
  end.
Proof.
  assert (∀ st, st = with_idempotency st (st_idempotency st)) as Hself by (by intros []).
  unfold replay_item. destruct (st_idempotency st !! context_key context) as [entry|] eqn:He.
  - destruct (_ <=? _)%Z; intros [= <- <-].
    + split; [done|]. split; [done|]. split; [by eexists|]. cbn. split; [apply delete_subseteq|apply lookup_delete_eq].
    + split; [done|]. split; [done|]. split; [by eexists|]. split; [done|]. by destruct (_ =? _)%N.
  - intros [= <- <-]. split; [done|]. split; [done|]. split; [by eexists|]. done.
Qed.

Lemma answering_spec clock st context mutate st' answer :
  answering clock st context mutate = Ok (st', answer) → im_replayed answer = false →
  ∃ st0 next item, replay_item clock st context = (st0, None) ∧ mutate st0 = Ok (next, item) ∧
    st' = remember next context item ∧ im_item answer = item.
Proof.
  unfold answering. destruct (replay_item clock st context) as [st0 [found|]] eqn:Hreplay.
  - intros (m & -> & [= <- <-])%rbind_ok Hfresh. apply replay_item_spec in Hreplay as (_ & _ & _ & _ & Hr). congruence.
  - intros ([next item] & Hm & [= <- <-])%rbind_ok _. by exists st0, next, item.
Qed.

Lemma apply_effects_idempotency fresh es loop loop' :
  foldM (apply_effect fresh) loop es = Ok loop' → st_idempotency (el_state loop') = st_idempotency (el_state loop).
Proof.
  revert loop. induction es as [|e es IH]; intros loop Hfold; [by injection Hfold as <-|].
  cbn [foldM] in Hfold. apply rbind_ok in Hfold as (mid & Hmid & Hfold). rewrite (IH _ Hfold). clear IH Hfold.
  unfold apply_effect in Hmid. destruct (_ || _); [done|]. apply rbind_ok in Hmid as (len & _ & Hmid).
  destruct (_ <? _)%N; [done|]. apply rbind_ok in Hmid as (st1 & Happend%map_err_ok & [= <-]).
  by apply rbind_ok in Happend as (sequence & _ & [= <-]).
Qed.

(** What a successful request did. *)
Record committed (request : ItemRequest) (context : IdempotencyContext) (st : ItemState) (item : Item) (st' : ItemState) : Prop := {
  cd_ok : store_ok st';
  cd_publishes : publishes_first st item st';
  cd_base : ∀ id expected, request_base request = Some (id, expected) →
    ∃ current, st_items st !! id = Some current ∧ it_revision current = expected ∧ it_id item = id ∧
      it_revision item = (expected + 1)%N;
  cd_answer : st_idempotency st' !! context_key context =
    Some {| ii_fingerprint := ic_fingerprint context; ii_expires_at := ic_expires_at context; ii_item := item |}
}.

Lemma request_item_spec clock now fresh execution request context st st' answer :
  store_ok st → request_valid request →
  request_item clock now fresh execution request context st = Ok (st', answer) →
  im_replayed answer = true ∧ st' = st ∨
  im_replayed answer = false ∧ committed request context st (im_item answer) st'.
Proof.
  intros Hok Hvalid Hreq. unfold request_item, commit_mutation in Hreq.
  apply rbind_ok in Hreq as ([next answer'] & Hmutation%mutation_of_answering & Hreq).
  destruct (im_replayed answer') eqn:Hreplayed; [injection Hreq as <- <-; by left|].
  apply rbind_ok in Hreq as (plan & Hplan%map_err_ok & Hreq). apply rbind_ok in Hreq as (last & Happly%map_err_ok & [= <- <-]).
  right. split; [done|]. apply answering_spec in Hmutation as (st0 & mid & item & Hreplay & Heff & -> & Hitem); [|done].
  apply replay_item_spec in Hreplay as (Hi0 & Hc0 & (entries & ->) & _ & _).
  assert (store_ok (with_idempotency st entries)) as Hok0 by (by apply store_ok_idempotency).
  destruct (effect_of_spec _ _ _ _ _ _ _ Hok0 Hvalid Heff) as (Hokm & (mid' & Hfirst & Hadv) & Hbase).
  assert (store_ok (remember mid context item)) as Hokr by (by apply store_ok_idempotency).
  split.
  - by eapply completion_store_ok.
  - rewrite Hitem. exists mid'. split; [by destruct Hfirst|]. apply advances_trans with (remember mid context item).
    + apply advances_trans with mid; [done|]. by constructor.
    + by eapply completion_advances.
  - rewrite Hitem. exact Hbase.
  - unfold apply_completion_memory in Happly. apply rbind_ok in Happly as (loop & Hfold & [= <-]).
    rewrite (apply_effects_idempotency _ _ _ _ Hfold). cbn. by rewrite lookup_insert_eq, Hitem.
Qed.

Lemma mutate_spec looked_up clock now fresh guard request context st st' result :
  store_ok st → request_valid request →
  mutate_with_completion looked_up clock now fresh guard request context st = (st', result) →
  (∃ entries, st' = with_idempotency st entries ∧ entries ⊆ st_idempotency st) ∧
    match result with Ok answer => im_replayed answer = true | Err _ => True end ∨
  ∃ answer, result = Ok answer ∧ im_replayed answer = false ∧ committed request context st (im_item answer) st'.
Proof.
  intros Hok Hvalid Hmut. unfold mutate_with_completion in Hmut.
  destruct (replay_item looked_up st context) as [st0 found] eqn:Hreplay.
  apply replay_item_spec in Hreplay as (Hi & Hc & (entries & ->) & Hsub & Hfound).
  destruct found as [found|]; [injection Hmut as <- <-; left; split; [by eexists|by destruct found]|].
  destruct (map_err _ _) as [execution|]; [|injection Hmut as <- <-; left; split; [by eexists|done]].
  destruct (request_item _ _ _ _ _ _ _) as [[next answer]|] eqn:Hreq; [|injection Hmut as <- <-; left; split; [by eexists|done]].
  injection Hmut as <- <-. apply request_item_spec in Hreq; [|by apply store_ok_idempotency|done].
  destruct Hreq as [[Hr ->]|[Hr [Hokn (mid & Hfirst & Hadv) Hbase Hanswer]]]; [left; split; [by eexists|done]|].
  right. exists answer. split; [done|]. split; [done|]. split; [done| |done|done].
  exists mid. split; [by destruct Hfirst|done].
Qed.

(** ** Reachable states *)

Inductive item_step : ItemState → ItemState → Prop :=
| step_write looked_up clock now fresh guard request context st :
    request_valid request →
    item_step st (mutate_with_completion looked_up clock now fresh guard request context st).1
| step_completion fresh guard now item_id command st st' answer :
    put_completion fresh guard now item_id command st = Ok (st', answer) → item_step st st'.

Lemma put_completion_spec fresh guard now item_id command st st' answer :
  store_ok st → put_completion fresh guard now item_id command st = Ok (st', answer) → store_ok st' ∧ advances st st'.
Proof.
  intros Hok Hput. unfold put_completion in Hput. destruct (completion_receipt st item_id command) as [found|].
  - apply rbind_ok in Hput as (m & _ & [= <- _]). split; [done|apply advances_refl].
  - apply rbind_ok in Hput as ([] & _ & Hput). apply rbind_ok in Hput as (execution & _ & Hput). unfold commit_completion in Hput.
    apply rbind_ok in Hput as (plan & Hplan & Hput). apply rbind_ok in Hput as (next & Happly & Hput).
    apply rbind_ok in Hput as (plan' & _ & Hput). apply rbind_ok in Hput as (completion & _ & [= <- _]). split.
    + destruct (completion_store_ok _ _ _ _ _ _ _ Hok Hplan Happly) as [Hi Hs He [Hseq Hn Hl]].
      split; [exact Hi|exact Hs|exact He|by split].
    + apply advances_trans with next; [by eapply completion_advances|by constructor].
Qed.

Lemma item_step_spec st st' : store_ok st → item_step st st' → store_ok st' ∧ advances st st'.
Proof.
  intros Hok Hstep. destruct Hstep as [looked_up clock now fresh guard request context st Hvalid|].
  - destruct (mutate_with_completion _ _ _ _ _ _ _ st) as [st' result] eqn:Hmut. cbn.
    apply mutate_spec in Hmut as [[(entries & -> & _) _]|(answer & _ & _ & [Hok' Hp _ _])]; [| |done..].
    + split; [by apply store_ok_idempotency|by constructor].
    + split; [done|by eapply publishes_first_advances].
  - by eapply put_completion_spec.
Qed.

Lemma item_steps_spec st st' : store_ok st → rtc item_step st st' → store_ok st' ∧ advances st st'.
Proof.
  intros Hok Hsteps. revert Hok. induction Hsteps as [st|st mid st' Hstep _ IH]; intros Hok; [split; [done|apply advances_refl]|].
  destruct (item_step_spec _ _ Hok Hstep) as [Hok' Hadv]. destruct (IH Hok') as [Hok'' Hadv']. split; [done|].
  by apply advances_trans with mid.
Qed.

(** ** Revisions *)

Lemma publishes_monotone st item st' id old :
  publishes st item st' → st_items st !! id = Some old →
  ∃ new, st_items st' !! id = Some new ∧ (it_revision old <= it_revision new)%N.
Proof.
  intros [_ Hnext Hi _] Hold. rewrite Hi. destruct (decide (id = it_id item)) as [->|Hne].
  - exists item. rewrite lookup_insert_eq, (Hnext _ Hold). split; [done|]. lia.
  - exists old. rewrite lookup_insert_ne by done. split; [done|]. lia.
Qed.

Lemma advances_monotone st st' id old :
  advances st st' → st_items st !! id = Some old →
  ∃ new, st_items st' !! id = Some new ∧ (it_revision old <= it_revision new)%N.
Proof.
  intros Hadv. revert old. induction Hadv as [st st' Hi _|st item mid st' Hp _ IH]; intros old Hold.
  - exists old. rewrite Hi. split; [done|]. lia.
  - destruct (publishes_monotone _ _ _ _ _ Hp Hold) as (m & Hm & Hle). destruct (IH _ Hm) as (new & Hnew & Hle').
    exists new. split; [done|]. lia.
Qed.

Definition change_version (change : DeltaChange) : N :=
  match change with Upsert item => it_revision item | Tombstone tombstone => tb_revision tombstone end.

(** The versions of an item in the log increase, up to the stored one. *)
Record versions_ok (st : ItemState) : Prop := {
  vo_stored : ∀ change, change ∈ mc_change <$> st_changes st →
    ∃ item, st_items st !! change_id change = Some item ∧ (change_version change <= it_revision item)%N;
  vo_increase : ∀ i j a b, i < j → (mc_change <$> st_changes st) !! i = Some a → (mc_change <$> st_changes st) !! j = Some b →
    change_id a = change_id b → (change_version a < change_version b)%N
}.

Lemma change_of_version item : change_version (change_of item) = it_revision item.
Proof. unfold change_of. by destruct (it_deleted_at item). Qed.

Lemma publishes_versions st item st' : publishes st item st' → versions_ok st → versions_ok st'.
Proof.
  intros Hp [Hstored Hincrease]. pose proof Hp as [_ Hnext Hi Hl]. split.
  - intros change. rewrite Hl. intros [Hc| ->]%elem_of_last.
    + destruct (Hstored _ Hc) as (x & Hx & Hle). destruct (publishes_monotone _ _ _ _ _ Hp Hx) as (y & Hy & Hle').
      exists y. split; [done|]. lia.
    + exists item. rewrite Hi, change_of_id, change_of_version, lookup_insert_eq. split; [done|]. lia.
  - intros i j a b Hij. rewrite Hl. intros Ha Hb Hid. apply lookup_app_Some in Hb as [Hb|[Hle Hb]].
    + assert (i < length (mc_change <$> st_changes st)) by (apply lookup_lt_Some in Hb; lia).
      rewrite lookup_app_l in Ha by done. by apply (Hincrease i j).
    + apply list_lookup_singleton_Some in Hb as [Hz <-]. rewrite lookup_app_l in Ha by lia.
      destruct (Hstored a) as (x & Hx & Hle'); [by eapply list_elem_of_lookup_2|].
      rewrite Hid, change_of_id in Hx. rewrite change_of_version, (Hnext _ Hx). lia.
Qed.

Lemma advances_versions st st' : advances st st' → versions_ok st → versions_ok st'.
Proof.
  induction 1 as [st st' Hi Hc|st item mid st' Hp _ IH].
  - intros [Hs Hinc]. split; by rewrite ?Hi, ?Hc.
  - intros Hv. by eapply IH, publishes_versions.
Qed.

(** ** Answers *)

Lemma store_item_idempotency st item group_id change st' :
  store_item st item group_id change = Ok st' → st_idempotency st' = st_idempotency st.
Proof. by intros (? & _ & [= <-])%rbind_ok. Qed.

Lemma refresh_parents_idempotency st parents now group_id st' :
  refresh_parents st parents now group_id = Ok st' → st_idempotency st' = st_idempotency st.
Proof.
  unfold refresh_parents. generalize (sort_dedup_N (omap id parents)) as ps. intros ps. revert st.
  induction ps as [|p ps IH]; intros st Hfold; [by injection Hfold as <-|].
  cbn [foldM] in Hfold. apply rbind_ok in Hfold as (mid & Hmid & Hfold). rewrite (IH _ Hfold).
  apply rbind_ok in Hmid as (? & _ & Hmid). apply rbind_ok in Hmid as (? & _ & Hmid). by apply rbind_ok in Hmid as (? & _ & [= <-]).
Qed.

(** Every mutation stores its answer and then refreshes at most two parents. *)
Lemma effect_of_stored clock now group_id request st st' answer :
  effect_of clock now group_id request st = Ok (st', answer) →
  ∃ change mid parents at_, store_item st answer group_id change = Ok mid ∧
    refresh_parents mid parents at_ group_id = Ok st' ∧ length parents ≤ 2.
Proof.
  destruct request as [item|id expected replacement|id expected|id expected]; cbn [effect_of]; intros Heff.
  - unfold create_item in Heff. destruct (is_some _); [done|]. do 3 apply rbind_ok in Heff as (? & _ & Heff).
    apply rbind_ok in Heff as (mid & Hs & Heff). apply rbind_ok in Heff as (last & Hr & [= <- <-]).
    eexists _, mid, _, _. split; [exact Hs|]. split; [exact Hr|]. cbn. lia.
  - unfold replace_item in Heff. do 3 apply rbind_ok in Heff as (? & _ & Heff). destruct (_ && _); [done|].
    do 4 apply rbind_ok in Heff as (? & _ & Heff). apply rbind_ok in Heff as (mid & Hs & Heff).
    apply rbind_ok in Heff as (last & Hr & [= <- <-]). destruct (_ && _).
    + injection Hr as <-. eexists _, mid, [], 0%Z. split; [exact Hs|]. split; [done|]. cbn. lia.
    + eexists _, mid, _, _. split; [exact Hs|]. split; [exact Hr|]. cbn. lia.
  - unfold trash_item in Heff. do 2 apply rbind_ok in Heff as (? & _ & Heff). destruct (has_active_children _ _); [done|].
    do 2 apply rbind_ok in Heff as (? & _ & Heff). apply rbind_ok in Heff as (mid & Hs & Heff).
    apply rbind_ok in Heff as (last & Hr & [= <- <-]). eexists _, mid, _, _. split; [exact Hs|]. split; [exact Hr|]. cbn. lia.
  - unfold restore_item in Heff. do 2 apply rbind_ok in Heff as (? & _ & Heff). case_match; [done|].
    do 4 apply rbind_ok in Heff as (? & _ & Heff). apply rbind_ok in Heff as (mid & Hs & Heff).
    apply rbind_ok in Heff as (last & Hr & [= <- <-]). eexists _, mid, _, _. split; [exact Hs|]. split; [exact Hr|]. cbn. lia.
Qed.

Lemma effect_of_idempotency clock now group_id request st st' answer :
  effect_of clock now group_id request st = Ok (st', answer) → st_idempotency st' = st_idempotency st.
Proof.
  intros (change & mid & parents & at_ & Hs%store_item_idempotency & Hr%refresh_parents_idempotency & _)%effect_of_stored. congruence.
Qed.

(** A stored answer that has not expired is found, and nothing removes it. *)
Lemma replay_live clock st context entry :
  st_idempotency st !! context_key context = Some entry → (clock < ii_expires_at entry)%Z →
  replay_item clock st context = (st, Some (if (ii_fingerprint entry =? ic_fingerprint context)%N
    then Ok {| im_item := ii_item entry; im_replayed := true |} else Err IdempotencyConflict)).
Proof. intros He Hlive. unfold replay_item. rewrite He. by destruct (Z.leb_spec (ii_expires_at entry) clock); [lia|]. Qed.

Lemma replay_other clock st context st' found key :
  replay_item clock st context = (st', found) → key ≠ context_key context → st_idempotency st' !! key = st_idempotency st !! key.
Proof.
  unfold replay_item. intros Hr Hne. repeat case_match; simplify_eq; try done. cbn. by rewrite lookup_delete_ne.
Qed.

Lemma mutate_keeps_answer looked_up clock now fresh guard request context st key entry :
  st_idempotency st !! key = Some entry → (looked_up < ii_expires_at entry)%Z →
  st_idempotency (mutate_with_completion looked_up clock now fresh guard request context st).1 !! key = Some entry.
Proof.
  intros He Hlive. unfold mutate_with_completion. destruct (decide (key = context_key context)) as [->|Hne].
  { by rewrite (replay_live _ _ _ _ He Hlive). }
  destruct (replay_item looked_up st context) as [st0 found] eqn:Hreplay. rewrite <-(replay_other _ _ _ _ _ _ Hreplay Hne) in He.
  destruct found; [done|]. destruct (map_err _ _) as [execution|]; [|done].
  destruct (request_item _ _ _ _ _ _ _) as [[next answer]|] eqn:Hreq; [|done]. cbn. unfold request_item, commit_mutation in Hreq.
  apply rbind_ok in Hreq as ([mid answer'] & Hmutation%mutation_of_answering & Hreq).
  assert (st_idempotency mid !! key = Some entry) as Hmid.
  { unfold answering in Hmutation. destruct (replay_item clock st0 context) as [st1 found] eqn:Hreplay'.
    rewrite <-(replay_other _ _ _ _ _ _ Hreplay' Hne) in He. destruct found as [found|].
    - by apply rbind_ok in Hmutation as (? & _ & [= <- _]).
    - apply rbind_ok in Hmutation as ([last item] & Heff%effect_of_idempotency & [= <- _]). cbn.
      by rewrite lookup_insert_ne, Heff. }
  destruct (im_replayed answer'); [by injection Hreq as <- _|].
  apply rbind_ok in Hreq as (plan & _ & Hreq). apply rbind_ok in Hreq as (last & Happly%map_err_ok & [= <- _]).
  apply rbind_ok in Happly as (loop & Hfold & [= <-]). by rewrite (apply_effects_idempotency _ _ _ _ Hfold).
Qed.

(** Steps whose clocks are before an instant. *)
Inductive item_step_before (limit : DateTime) : ItemState → ItemState → Prop :=
| before_write looked_up clock now fresh guard request context st :
    (looked_up < limit)%Z →
    item_step_before limit st (mutate_with_completion looked_up clock now fresh guard request context st).1
| before_completion fresh guard now item_id command st st' answer :
    put_completion fresh guard now item_id command st = Ok (st', answer) → item_step_before limit st st'.

Lemma put_completion_idempotency fresh guard now item_id command st st' answer :
  put_completion fresh guard now item_id command st = Ok (st', answer) → st_idempotency st' = st_idempotency st.
Proof.
  unfold put_completion. destruct (completion_receipt st item_id command) as [found|]; [by intros (? & _ & [= <- _])%rbind_ok|].
  intros (? & _ & Hput)%rbind_ok. apply rbind_ok in Hput as (? & _ & Hput). unfold commit_completion in Hput.
  apply rbind_ok in Hput as (plan & _ & Hput). apply rbind_ok in Hput as (next & Happly & Hput).
  apply rbind_ok in Hput as (? & _ & Hput). apply rbind_ok in Hput as (? & _ & [= <- _]).
  apply rbind_ok in Happly as (loop & Hfold & [= <-]). cbn. by rewrite (apply_effects_idempotency _ _ _ _ Hfold).
Qed.

Lemma steps_keep_answer limit st st' key entry :
  rtc (item_step_before limit) st st' → st_idempotency st !! key = Some entry → (limit <= ii_expires_at entry)%Z →
  st_idempotency st' !! key = Some entry.
Proof.
  intros Hsteps He Hle. induction Hsteps as [|st mid st' Hstep _ IH]; [done|]. apply IH. clear IH. destruct Hstep as [|? ? ? ? ? ? ? ? Hput].
  - apply mutate_keeps_answer; [done|lia].
  - by rewrite (put_completion_idempotency _ _ _ _ _ _ _ _ Hput).
Qed.

(** ** Theorems *)

(** C21. Every store reached from the empty one by the writes and the completion
    commands of the service is consistent: the hierarchy, the executability, the
    dependency graph, the executing parents, the completion states and the log. *)
Theorem reachable_stores_ok st : rtc item_step empty_items st → store_ok st.
Proof. intros Hsteps. by apply (item_steps_spec empty_items st store_ok_empty). Qed.

(** In the change log of a reachable store, the versions of an item increase
    strictly, up to the revision that is stored. *)
Theorem log_versions_increase st : rtc item_step empty_items st → versions_ok st.
Proof.
  intros Hsteps. destruct (item_steps_spec empty_items st store_ok_empty Hsteps) as [_ Hadv].
  apply (advances_versions _ _ Hadv). split; [by intros ? ?%elem_of_nil|done].
Qed.

(** C22. A revision on which a write was based is spent: whatever runs in between, no
    other write based on it is performed, and the items stay as they are. *)
Theorem item_revision_spent_once st st1 st2 st3 looked_up clock now fresh guard request context looked_up' clock' now' fresh' guard'
    request' context' answer answer' id revision :
  rtc item_step empty_items st → request_valid request → request_valid request' →
  request_base request = Some (id, revision) → request_base request' = Some (id, revision) →
  mutate_with_completion looked_up clock now fresh guard request context st = (st1, Ok answer) → im_replayed answer = false →
  rtc item_step st1 st2 →
  mutate_with_completion looked_up' clock' now' fresh' guard' request' context' st2 = (st3, Ok answer') →
  im_replayed answer' = true ∧ st_items st3 = st_items st2.
Proof.
  intros Hreach Hvalid Hvalid' Hbase Hbase' Hmut Hnew Hsteps Hmut'.
  destruct (item_steps_spec empty_items st store_ok_empty Hreach) as [Hok _].
  apply mutate_spec in Hmut as [[_ Hreplayed]|(a & [= <-] & _ & [Hok1 (mid & Hfirst & Hadv) Hb _])]; [congruence| |done..].
  destruct (item_steps_spec st1 st2 Hok1 Hsteps) as [Hok2 Hadv'].
  apply mutate_spec in Hmut' as [[(entries & -> & _) Hreplayed]|(a & [= <-] & _ & [_ _ Hb' _])]; [done| |done..]. exfalso.
  destruct (Hb _ _ Hbase) as (current & Hcur & Hrev & Hid & Hnext). destruct (Hb' _ _ Hbase') as (current' & Hcur' & Hrev' & _ & _).
  assert (st_items mid !! id = Some (im_item answer)) as Hmid by (rewrite (pb_items _ _ _ Hfirst), Hid; apply lookup_insert_eq).
  destruct (advances_monotone _ _ _ _ (advances_trans _ _ _ Hadv Hadv') Hmid) as (new & Hnew' & Hle). simplify_eq. lia.
Qed.

(** C26. Until it expires, a performed write is answered from memory, whatever runs in
    between: with the same item for the same content, with a conflict for other
    content, and nothing changes. *)
Theorem item_answers_repeat st st1 st2 looked_up clock now fresh guard request context answer
    looked_up' clock' now' fresh' guard' request' context' :
  store_ok st → request_valid request →
  mutate_with_completion looked_up clock now fresh guard request context st = (st1, Ok answer) → im_replayed answer = false →
  rtc (item_step_before (ic_expires_at context)) st1 st2 →
  context_key context' = context_key context → (looked_up' < ic_expires_at context)%Z →
  mutate_with_completion looked_up' clock' now' fresh' guard' request' context' st2 =
    (st2, if (ic_fingerprint context =? ic_fingerprint context')%N then Ok {| im_item := im_item answer; im_replayed := true |}
          else Err IdempotencyConflict).
Proof.
  intros Hok Hvalid Hmut Hnew Hsteps Hkey Hlive.
  apply mutate_spec in Hmut as [[_ Hreplayed]|(a & [= <-] & _ & [_ _ _ Hanswer])]; [congruence| |done..].
  apply (steps_keep_answer _ _ _ _ _ Hsteps) in Hanswer; [|done].
  unfold mutate_with_completion. rewrite <-Hkey in Hanswer. by rewrite (replay_live _ _ _ _ Hanswer Hlive).
Qed.

(** C27. A request that fails changes nothing, apart from dropping an expired answer. *)
Theorem failed_writes_change_nothing looked_up clock now fresh guard request context st st' error :
  mutate_with_completion looked_up clock now fresh guard request context st = (st', Err error) →
  ∃ answers, st' = with_idempotency st answers ∧ answers ⊆ st_idempotency st ∧
    ∀ key entry, st_idempotency st !! key = Some entry → (looked_up < ii_expires_at entry)%Z → answers !! key = Some entry.
Proof.
  intros Hmut. pose proof (mutate_keeps_answer looked_up clock now fresh guard request context st) as Hkeep. rewrite Hmut in Hkeep. cbn in Hkeep.
  assert (∃ answers, st' = with_idempotency st answers ∧ answers ⊆ st_idempotency st) as (answers & -> & Hsub).
  { unfold mutate_with_completion in Hmut. destruct (replay_item looked_up st context) as [st0 found] eqn:Hreplay.
    apply replay_item_spec in Hreplay as (_ & _ & (answers & ->) & Hsub & _). exists answers.
    destruct found; [by injection Hmut as <- _|]. destruct (map_err _ _); [|by injection Hmut as <- _].
    destruct (request_item _ _ _ _ _ _ _) as [[? ?]|]; [done|by injection Hmut as <- _]. }
  exists answers. split; [done|]. split; [done|]. intros key entry. apply Hkeep.
Qed.
(** C25. The check of the dependency graph is exact: for items stored under their
    identifiers that form a forest it accepts exactly the graphs whose
    dependencies decode, name stored items, do not leave the subtree of a
    topmost recurring item, and have no cycle together with the order of the
    ordered routines.  It never ends with an internal error. *)
Theorem dependency_check_decides items :
  keys_ok items → forest_ok (item_parents_map items) →
  (validate_dependency_graph items = Ok tt ↔ graph_ok items) ∧ validate_dependency_graph items ≠ Err Internal.
Proof. apply dependency_check_iff. Qed.
End versions.

(** ** Witnesses *)

#[local] Existing Instance utc_platform.
#[local] Existing Instance gregorian.

Lemma sample_created_step input key st : text_fields (ni_fields input) → rtc item_step st (sample_created input key st).
Proof.
  intros Htext. unfold sample_created. destruct (sample_item input) as [item|] eqn:Hitem; [|apply rtc_refl].
  apply rtc_once, step_write. by exists input, sample_now.
Qed.

Lemma sample_store_reached : rtc item_step empty_items sample_store.
Proof. unfold sample_store. do 3 (etrans; [|by apply sample_created_step]). apply rtc_refl. Qed.

Lemma reachable_stores_ok_witness : size (st_items sample_store) = 3 ∧ store_ok sample_store.
Proof. split; [vm_compute; reflexivity|exact (reachable_stores_ok sample_store sample_store_reached)]. Defined.

Lemma log_versions_increase_witness : length (st_changes sample_store) = 5 ∧ versions_ok sample_store.
Proof. split; [vm_compute; reflexivity|exact (log_versions_increase sample_store sample_store_reached)]. Defined.

(** The answer of a write that was performed. *)
Definition performed {A} (r : A * result ItemRepositoryError ItemMutation) : bool :=
  match r.2 with Ok answer => negb (im_replayed answer) | Err _ => false end.

(** [sample_write], unfolded *)
Abbreviation sample_mutate request key st :=
  (mutate_with_completion sample_now sample_now sample_now (sample_fresh st) None request (sample_context key) st).

Lemma sample_trash_answer :
  ∃ st1 answer, sample_mutate (Trash 3 1) "trash-3" sample_store = (st1, Ok answer) ∧ im_replayed answer = false.
Proof.
  assert (performed (sample_mutate (Trash 3 1) "trash-3" sample_store) = true) as Hp by (vm_compute; reflexivity).
  destruct (sample_mutate _ _ _) as [st1 [answer|e]]; unfold performed in Hp; cbn in Hp; [|done].
  exists st1, answer. split; [done|]. by destruct (im_replayed answer).
Qed.

Lemma sample_store_ok : store_ok sample_store.
Proof. exact (proj1 (item_steps_spec empty_items sample_store store_ok_empty sample_store_reached)). Qed.

(** The same write, once more. *)
Lemma sample_trash_again st1 answer :
  sample_mutate (Trash 3 1) "trash-3" sample_store = (st1, Ok answer) → im_replayed answer = false →
  sample_mutate (Trash 3 1) "trash-3" st1 = (st1, Ok {| im_item := im_item answer; im_replayed := true |}).
Proof.
  intros Hmut Hnew.
  destruct (mutate_spec _ _ _ _ _ (Trash 3 1) _ _ _ _ sample_store_ok I Hmut) as [[_ Hreplayed]|(a & Ha & _ & [_ _ _ Hanswer])]; [congruence|].
  assert (a = answer) as -> by congruence. unfold mutate_with_completion.
  rewrite (replay_live sample_now st1 (sample_context "trash-3") _ Hanswer); reflexivity.
Qed.

Lemma item_answers_repeat_witness :
  ∃ st1 answer, sample_mutate (Trash 3 1) "trash-3" st1 = (st1, Ok {| im_item := im_item answer; im_replayed := true |}).
Proof.
  destruct sample_trash_answer as (st1 & answer & Hmut & Hnew). exists st1, answer.
  exact (item_answers_repeat _ _ st1 _ _ _ _ _ (Trash 3 1) _ _ sample_now sample_now sample_now (sample_fresh st1) None (Trash 3 1)
    (sample_context "trash-3") sample_store_ok I Hmut Hnew (rtc_refl _ _) eq_refl eq_refl).
Defined.

Lemma item_revision_spent_once_witness :
  ∃ st1 answer, sample_mutate (Trash 3 1) "trash-3" st1 = (st1, Ok answer) ∧ im_replayed answer = true.
Proof.
  destruct sample_trash_answer as (st1 & answer & Hmut & Hnew). pose proof (sample_trash_again st1 answer Hmut Hnew) as Hagain.
  exists st1. eexists. split; [exact Hagain|].
  exact (proj1 (item_revision_spent_once sample_store st1 st1 st1 _ _ _ _ _ (Trash 3 1) _ _ _ _ _ _ (Trash 3 1) _ answer _ 3%N 1%N
    sample_store_reached I I eq_refl eq_refl Hmut Hnew (rtc_refl _ _) Hagain)).
Defined.

Lemma sample_failure : ∃ st1 e, sample_mutate (Trash 1 9) "trash-1" sample_store = (st1, Err e).
Proof.
  assert (is_ok (sample_mutate (Trash 1 9) "trash-1" sample_store).2 = false) as Hf by (vm_compute; reflexivity).
  destruct (sample_mutate _ _ _) as [st1 [a|e]]; [done|by exists st1, e].
Qed.

Lemma failed_writes_change_nothing_witness :
  ∃ st1 e answers, sample_mutate (Trash 1 9) "trash-1" sample_store = (st1, Err e) ∧ st1 = with_idempotency sample_store answers.
Proof.
  destruct sample_failure as (st1 & e & Hfail). exists st1, e.
  destruct (failed_writes_change_nothing _ _ _ _ _ _ _ _ _ _ Hfail) as (answers & Heq & _).
  exists answers. split; [exact Hfail|exact Heq].
Defined.

Lemma dependency_check_decides_witness :
  validate_dependency_graph (st_items sample_store) = Ok tt ∧ graph_ok (st_items sample_store).
Proof.
  destruct (so_items _ _ sample_store_ok) as [Hkeys Hforest _ _ _].
  assert (validate_dependency_graph (st_items sample_store) = Ok tt) as Hcheck by (vm_compute; reflexivity).
  split; [exact Hcheck|]. exact (proj1 (proj1 (dependency_check_decides (st_items sample_store) Hkeys Hforest)) Hcheck).
Defined.
