(* ===== verification/Delta.v ===== *)
(** * Delta: how clients follow the change log

    server/dayweave-api/src/items/repository.rs: the pages of the change log of
    ItemStore.  A page is a prefix of the changes after a cursor that never cuts
    an atomic group, bounded in rows and in bytes; a group that cannot be
    delivered is an error.  [HashMap]s are read in ascending order. *)
From S2P Require Import Prelude Text Platform Civil Domain Rrule Decimal Progress Completion Session ItemDomain CompletionPolicy ItemStore.
Import ItemRepositoryError.

Definition usize_max : N := u64_max.

Definition add_usize (a b : nat) : option nat := N.to_nat <$> checked_add usize_max (N.of_nat a) (N.of_nat b).

Definition max_expanded_delta_page_size (requested_limit : nat) : result ItemRepositoryError nat :=
  if (requested_limit =? 0)%nat then Err Internal
  else ok_or (add_usize requested_limit (MAX_ITEM_CHANGE_GROUP_SIZE - 1)) Internal.

(** [Iterator::position] and [rposition] of the first and last element that is
    not [Some group]. *)
Definition outside_group (group : Uuid) (id : option Uuid) : bool := negb (bool_decide (id = Some group)).

Fixpoint position {A} (f : A → bool) (l : list A) : option nat :=
  match l with
  | [] => None
  | x :: l' => if f x then Some 0 else S <$> position f l'
  end.

Definition rposition {A} (f : A → bool) (l : list A) : option nat :=
  (λ i, length l - 1 - i) <$> position f (rev l).

(** [atomic_delta_prefix_len] *)
Definition atomic_delta_prefix_len (change_group_ids : list (option Uuid)) (requested_limit : nat) : result ItemRepositoryError nat :=
  let? maximum_page := max_expanded_delta_page_size requested_limit in
  if (length change_group_ids <=? requested_limit)%nat then Ok (length change_group_ids)
  else
    match mjoin (change_group_ids !! (requested_limit - 1)) with
    | None => Ok requested_limit
    | Some boundary_group_id =>
        let group_start :=
          match rposition (outside_group boundary_group_id) (take requested_limit change_group_ids) with
          | Some index => index + 1
          | None => 0
          end in
        let group_end :=
          match position (outside_group boundary_group_id) (drop requested_limit change_group_ids) with
          | Some offset => requested_limit + offset
          | None => length change_group_ids
          end in
        if (MAX_ITEM_CHANGE_GROUP_SIZE <? group_end - group_start)%nat || (maximum_page <? group_end)%nat
        then Err DeltaGroupTooLarge else Ok group_end
    end.

(** ** Whole groups *)

(** The variables of the loop of [validate_atomic_delta_groups]. *)
Record GroupLoop : Type := {
  gl_completed : gset Uuid;
  gl_current : option Uuid;
  gl_count : nat;
  gl_bytes : N
}.

Definition finish_group (group_id : option Uuid) (count : nat) (payload_bytes : N) : result ItemRepositoryError unit :=
  if is_some group_id && ((MAX_ITEM_CHANGE_GROUP_SIZE <? count)%nat || (MAX_ITEM_CHANGE_GROUP_PAYLOAD_BYTES <? payload_bytes)%N)
  then Err DeltaGroupTooLarge else Ok tt.

(** The start of another group. *)
Definition enter_group (loop : GroupLoop) (group_id : option Uuid) : result ItemRepositoryError GroupLoop :=
  if bool_decide (group_id = gl_current loop) then Ok loop
  else
    let? _ := finish_group (gl_current loop) (gl_count loop) (gl_bytes loop) in
    let completed := match gl_current loop with Some id => {[id]} ∪ gl_completed loop | None => gl_completed loop end in
    if match group_id with Some id => bool_decide (id ∈ completed) | None => false end then Err Internal
    else Ok {| gl_completed := completed; gl_current := group_id; gl_count := 0; gl_bytes := 0 |}.

Definition group_row (loop : GroupLoop) (row : option Uuid * N) : result ItemRepositoryError GroupLoop :=
  let? loop := enter_group loop row.1 in
  if is_some row.1 then
    let? count := ok_or (add_usize (gl_count loop) 1) Internal in
    let? bytes := ok_or (checked_add usize_max (gl_bytes loop) row.2) Internal in
    Ok {| gl_completed := gl_completed loop; gl_current := gl_current loop; gl_count := count; gl_bytes := bytes |}
  else Ok loop.

(** [validate_atomic_delta_groups] *)
Definition validate_atomic_delta_groups (change_group_ids : list (option Uuid)) (payload_sizes : list N)
    : result ItemRepositoryError unit :=
  if negb (length change_group_ids =? length payload_sizes)%nat then Err Internal
  else
    let? loop := foldM group_row {| gl_completed := ∅; gl_current := None; gl_count := 0; gl_bytes := 0 |}
      (zip change_group_ids payload_sizes) in
    finish_group (gl_current loop) (gl_count loop) (gl_bytes loop).

(** ** The bound on bytes *)

Definition sum_usize (l : list N) : option N := foldl (λ total size, t ← total; checked_add usize_max t size) (Some 0%N) l.

(** The end of the unit that starts at a row: a whole group, or one row. *)
Definition unit_end (change_group_ids : list (option Uuid)) (count_prefix selected : nat) : nat :=
  match mjoin (change_group_ids !! selected) with
  | Some group_id =>
      match position (outside_group group_id) (drop (selected + 1) (take count_prefix change_group_ids)) with
      | Some offset => selected + offset + 1
      | None => count_prefix
      end
  | None => selected + 1
  end.

(** The loop over the units; each turn selects at least one row. *)
Fixpoint select_units (fuel : nat) (change_group_ids : list (option Uuid)) (payload_sizes : list N) (count_prefix selected : nat)
    (selected_bytes : N) : result ItemRepositoryError nat :=
  if (count_prefix <=? selected)%nat then Ok selected
  else
    match fuel with
    | O => Err Internal
    | S fuel' =>
        let ends := unit_end change_group_ids count_prefix selected in
        let? bytes := ok_or (sum_usize (take (ends - selected) (drop selected payload_sizes))) Internal in
        if (MAX_ITEM_DELTA_PAGE_PAYLOAD_BYTES <? bytes)%N then Err DeltaGroupTooLarge
        else
          let? next := ok_or (checked_add usize_max selected_bytes bytes) Internal in
          if (MAX_ITEM_DELTA_PAGE_PAYLOAD_BYTES <? next)%N then Ok selected
          else select_units fuel' change_group_ids payload_sizes count_prefix ends next
    end.

(** [delivery_bounded_delta_prefix_len] *)
Definition delivery_bounded_delta_prefix_len (change_group_ids : list (option Uuid)) (payload_sizes : list N) (requested_limit : nat)
    : result ItemRepositoryError nat :=
  if negb (length change_group_ids =? length payload_sizes)%nat then Err Internal
  else
    let? count_prefix := atomic_delta_prefix_len change_group_ids requested_limit in
    let? _ := validate_atomic_delta_groups (take count_prefix change_group_ids) (take count_prefix payload_sizes) in
    let? selected := select_units count_prefix change_group_ids payload_sizes count_prefix 0 0 in
    if (0 <? count_prefix)%nat && (selected =? 0)%nat then Err DeltaGroupTooLarge else Ok selected.

(** ** Pages *)

Section delta.
Context `{ItemFormats, !ChangeLength}.

Definition encoded_change (change : MemoryChange) : result ItemRepositoryError N := ok_or (change_length (mc_change change)) Internal.

(** One group of [validate_memory_group_completeness]. *)
Definition whole_group (all_changes selected_changes : list MemoryChange) (group_id : Uuid) : result ItemRepositoryError unit :=
  let in_group := λ change, mc_change_group_id change = Some group_id in
  let matching := filter (λ p : nat * MemoryChange, in_group p.2) (imap pair all_changes) in
  let? bytes := foldM (λ total p, let? size := encoded_change p.2 in ok_or (checked_add usize_max total size) Internal) 0%N matching in
  if (MAX_ITEM_CHANGE_GROUP_SIZE <? length matching)%nat || (MAX_ITEM_CHANGE_GROUP_PAYLOAD_BYTES <? bytes)%N then Err DeltaGroupTooLarge
  else
    let contiguous :=
      match head matching, last matching with
      | Some (first, _), Some (last, _) => (last - first + 1 =? length matching)%nat
      | _, _ => false
      end in
    if negb (length matching =? length (filter in_group selected_changes))%nat || negb contiguous then Err Internal else Ok tt.

(** [validate_memory_group_completeness] *)
Definition validate_memory_group_completeness (all_changes selected_changes : list MemoryChange) : result ItemRepositoryError unit :=
  forM (whole_group all_changes selected_changes) (set_elems (list_to_set (omap mc_change_group_id selected_changes))).

Record ItemDeltaPage : Type := {
  dp_changes : list DeltaChange;
  dp_watermark : N;
  dp_has_more : bool
}.

(** A cursor inside a group. *)
Definition splits_group (changes : list MemoryChange) (first_index : nat) : bool :=
  (0 <? first_index)%nat && (first_index <? length changes)%nat &&
  match changes !! first_index, changes !! (first_index - 1) with
  | Some current, Some previous =>
      is_some (mc_change_group_id current) && bool_decide (mc_change_group_id current = mc_change_group_id previous)
  | _, _ => false
  end.

(** [partition_point] on the sequences, which increase *)
Definition first_after (changes : list MemoryChange) (after : N) : nat :=
  default (length changes) (position (λ change, (after <? mc_sequence change)%N) changes).

(** [delta] *)
Definition delta (st : ItemState) (after : N) (limit : nat) : result ItemRepositoryError ItemDeltaPage :=
  if (st_next_sequence st <? after)%N then Err InvalidCursor
  else
    let first_index := first_after (st_changes st) after in
    if splits_group (st_changes st) first_index then Err InvalidCursor
    else
      let? fetch_limit := ok_or (add_usize limit MAX_ITEM_CHANGE_GROUP_SIZE) Internal in
      let available := drop first_index (st_changes st) in
      let candidates := take fetch_limit available in
      let group_ids := mc_change_group_id <$> candidates in
      let? payload_sizes := foldM (λ sizes change, let? size := encoded_change change in Ok (sizes ++ [size])) [] candidates in
      let? selected_count := delivery_bounded_delta_prefix_len group_ids payload_sizes limit in
      let selected := take selected_count candidates in
      let? _ := validate_memory_group_completeness (st_changes st) selected in
      Ok {| dp_changes := mc_change <$> selected;
            dp_watermark := match candidates !! (selected_count - 1) with Some change => mc_sequence change | None => after end;
            dp_has_more := (selected_count <? length available)%nat |}.
End delta.
