(* ===== verification/Bootstrap.v ===== *)
(** * Bootstrap: the current state, for clients that start afresh

    server/dayweave-api/src/items/bootstrap.rs, and [bootstrap] of
    items/repository.rs: instead of the whole change log a client can ask for a
    snapshot of the current items and the recent trash, which the repository
    keeps for some minutes and delivers in pages, and then follow the log from
    the head of the snapshot.  The theorems are in Snapshots. *)
From S2P Require Import Prelude Text Platform Civil Domain Rrule Decimal Progress Completion Session ItemDomain CompletionPolicy ItemStore Delta.
Import ItemRepositoryError.

Definition MAX_BOOTSTRAP_MEMBERS : nat := Z.to_nat 20000.
Definition MAX_BOOTSTRAP_BYTES : N := 32 * 1024 * 1024.
Definition MAX_BOOTSTRAP_PAGE_MEMBERS : nat := 300.
Definition MAX_BOOTSTRAP_TICKETS : nat := 16.
Definition BOOTSTRAP_TTL : Z := 10 * 60 * nanos_per_second.
Definition BOOTSTRAP_TRASH_RETENTION : Z := 30 * 86400 * nanos_per_second.

Record ItemBootstrapPosition : Type := { bp_snapshot_id : Uuid; bp_after : nat }.

Section bootstrap.
Context `{ItemFormats, !ChangeLength}.

Record ItemBootstrapPage : Type := {
  bg_changes : list DeltaChange;
  bg_head : N;
  bg_continuation : option ItemBootstrapPosition
}.

Definition encoded_size (change : DeltaChange) : result ItemRepositoryError N := ok_or (change_length change) Internal.

(** ** Members *)

(** The variables of the loop of [validate_members]. *)
Record MemberLoop : Type := {
  ml_ids : gset Uuid;
  ml_parents : gmap Uuid (option Uuid);
  ml_bytes : N
}.

(** The identifier of a member, and the parents with it. *)
Definition member_id (parents : gmap Uuid (option Uuid)) (change : DeltaChange)
    : result ItemRepositoryError (Uuid * gmap Uuid (option Uuid)) :=
  match change with
  | Upsert item =>
      if is_some (it_deleted_at item) then Err Internal else Ok (it_id item, <[it_id item := it_parent_id item]> parents)
  | Tombstone tombstone => Ok (tb_id tombstone, parents)
  end.

Definition check_bootstrap_member (loop : MemberLoop) (change : DeltaChange) : result ItemRepositoryError MemberLoop :=
  let? payload_bytes := encoded_size change in
  if (MAX_ITEM_DELTA_PAGE_PAYLOAD_BYTES <? payload_bytes)%N then Err BootstrapTooLarge
  else
    let? bytes := ok_or (checked_add usize_max (ml_bytes loop) payload_bytes) BootstrapTooLarge in
    if (MAX_BOOTSTRAP_BYTES <? bytes)%N then Err BootstrapTooLarge
    else
      let? (id, parents) := member_id (ml_parents loop) change in
      if is_nil id || bool_decide (id ∈ ml_ids loop) then Err Internal
      else Ok {| ml_ids := {[id]} ∪ ml_ids loop; ml_parents := parents; ml_bytes := bytes |}.

(** The walk from a member upwards, to a root or a member already done. *)
Fixpoint walk_members (fuel : nat) (parents : gmap Uuid (option Uuid)) (finished path : gset Uuid) (current : option Uuid)
    : result ItemRepositoryError (gset Uuid) :=
  match current with
  | None => Ok path
  | Some node =>
      if bool_decide (node ∈ finished) then Ok path
      else if bool_decide (node ∈ path) then Err Internal
      else
        match fuel with
        | O => Err Internal
        | S fuel' =>
            let? parent := ok_or (parents !! node) Internal in
            walk_members fuel' parents finished ({[node]} ∪ path) parent
        end
  end.

Definition walk_member (parents : gmap Uuid (option Uuid)) (finished : gset Uuid) (id : Uuid) : result ItemRepositoryError (gset Uuid) :=
  let? path := walk_members (S (size parents)) parents finished ∅ (Some id) in Ok (finished ∪ path).

(** [validate_members] *)
Definition validate_members (changes : list DeltaChange) : result ItemRepositoryError N :=
  if (MAX_BOOTSTRAP_MEMBERS <? length changes)%nat then Err BootstrapTooLarge
  else
    let? loop := foldM check_bootstrap_member {| ml_ids := ∅; ml_parents := ∅; ml_bytes := 0 |} changes in
    let? _ := foldM (walk_member (ml_parents loop)) ∅ (keys (ml_parents loop)) in
    Ok (ml_bytes loop).

(** ** Snapshots *)

Record MemoryBootstrap : Type := {
  mb_id : Uuid;
  mb_head : N;
  mb_expires_at : DateTime;
  mb_changes : list DeltaChange
}.

(** What a snapshot holds of an item: nothing of old trash. *)
Definition member_of (cutoff : DateTime) (item : Item) : option DeltaChange :=
  match it_deleted_at item with
  | Some deleted_at => if (cutoff <=? deleted_at)%Z then Some (Tombstone (tombstone_of item deleted_at)) else None
  | None => Some (Upsert item)
  end.

(** One item of [capture]: the members so far and their bytes. *)
Definition capture_item (cutoff : DateTime) (st : list (Uuid * DeltaChange) * N) (item : Item)
    : result ItemRepositoryError (list (Uuid * DeltaChange) * N) :=
  match member_of cutoff item with
  | None => Ok st
  | Some change =>
      let members := st.1 ++ [(it_id item, change)] in
      if (MAX_BOOTSTRAP_MEMBERS <? length members)%nat then Err BootstrapTooLarge
      else
        let? size := encoded_size change in
        let? bytes := ok_or (checked_add usize_max st.2 size) BootstrapTooLarge in
        if (MAX_BOOTSTRAP_BYTES <? bytes)%N || (MAX_ITEM_DELTA_PAGE_PAYLOAD_BYTES <? size)%N then Err BootstrapTooLarge
        else Ok (members, bytes)
  end.

Definition member_leb (a b : Uuid * DeltaChange) : bool := (a.1 <=? b.1)%N.

(** [MemoryBootstrap::capture] *)
Definition capture (id : Uuid) (items : list Item) (head : N) (now : DateTime) : result ItemRepositoryError MemoryBootstrap :=
  let cutoff := (now - BOOTSTRAP_TRASH_RETENTION)%Z in
  let? (members, _) := foldM (capture_item cutoff) ([], 0%N) items in
  let changes := (sort_by member_leb members).*2 in
  let? _ := validate_members changes in
  Ok {| mb_id := id; mb_head := head; mb_expires_at := (now + BOOTSTRAP_TTL)%Z; mb_changes := changes |}.

(** ** Pages *)

(** The rows of a page, after some bytes. *)
Fixpoint page_rows (changes : list DeltaChange) (bytes : N) : result ItemRepositoryError nat :=
  match changes with
  | [] => Ok 0
  | change :: changes =>
      let? size := encoded_size change in
      if (MAX_ITEM_DELTA_PAGE_PAYLOAD_BYTES <? size)%N then Err BootstrapTooLarge
      else if (MAX_ITEM_DELTA_PAGE_PAYLOAD_BYTES <? bytes + size)%N then Ok 0
      else let? count := page_rows changes (bytes + size)%N in Ok (S count)
  end.

Definition page_prefix (changes : list DeltaChange) : result ItemRepositoryError nat :=
  page_rows (take MAX_BOOTSTRAP_PAGE_MEMBERS changes) 0%N.

(** [MemoryBootstrap::page] *)
Definition bootstrap_page (snapshot : MemoryBootstrap) (after : nat) : result ItemRepositoryError ItemBootstrapPage :=
  let changes := mb_changes snapshot in
  if (length changes <? after)%nat || ((after =? length changes)%nat && negb (after =? 0)%nat) then Err BootstrapCursorInvalid
  else
    let? count := page_prefix (drop after changes) in
    let next := after + count in
    Ok {| bg_changes := take count (drop after changes); bg_head := mb_head snapshot;
          bg_continuation := if (next <? length changes)%nat then Some {| bp_snapshot_id := mb_id snapshot; bp_after := next |} else None |}.

(** [bootstrap]: the snapshots that are kept, and the page. *)
Definition bootstrap (fresh : Uuid) (st : ItemState) (snapshots : gmap Uuid MemoryBootstrap) (requested : option ItemBootstrapPosition)
    (now : DateTime) : gmap Uuid MemoryBootstrap * result ItemRepositoryError ItemBootstrapPage :=
  let live := filter (λ p : Uuid * MemoryBootstrap, (now < mb_expires_at p.2)%Z) snapshots in
  match requested with
  | Some requested =>
      (live, let? snapshot := ok_or (live !! bp_snapshot_id requested) BootstrapExpired in bootstrap_page snapshot (bp_after requested))
  | None =>
      match head (filter (λ snapshot, mb_head snapshot = st_next_sequence st) (values live)) with
      | Some snapshot => (live, bootstrap_page snapshot 0)
      | None =>
          if (MAX_BOOTSTRAP_TICKETS <=? size live)%nat then (live, Err BootstrapCapacity)
          else
            match capture fresh (values (st_items st)) (st_next_sequence st) now with
            | Err e => (live, Err e)
            | Ok snapshot =>
                match bootstrap_page snapshot 0 with
                | Err e => (live, Err e)
                | Ok page => (<[mb_id snapshot := snapshot]> live, Ok page)
                end
            end
      end
  end.
End bootstrap.
