(* ===== verification/Paging.v ===== *)
(** * Paging: clients that follow the change log read all of it

    A log is deliverable when it is a sequence of units: a row of its own, or the
    rows of one atomic group, within the bounds of Delta.  From the end of any
    unit, [delta] answers with the next units, at least one when there are any,
    so that a client that follows the pages receives the whole log, and keeps
    what Repository shows the store to hold. *)
From S2P Require Import Prelude Text Platform Civil Domain Rrule Decimal Progress Completion Session ItemDomain CompletionPolicy ItemStore Delta ItemForest ItemGraph Effects Repository ItemSamples Versions.
Import ItemRepositoryError.

(** ** Positions *)

Lemma position_none {A} (f : A → bool) (l : list A) : (∀ x, x ∈ l → f x = false) → position f l = None.
Proof. induction l as [|x l IH]; intros Hall; cbn; [done|]. rewrite Hall by (by left). by rewrite IH by (intros; apply Hall; by right). Qed.

Lemma position_app {A} (f : A → bool) (l k : list A) :
  (∀ x, x ∈ l → f x = false) → position f (l ++ k) = (λ i, length l + i) <$> position f k.
Proof.
  induction l as [|x l IH]; intros Hall; cbn; [by destruct (position f k)|]. rewrite Hall by (by left).
  rewrite IH by (intros; apply Hall; by right). by destruct (position f k).
Qed.

Lemma position_head {A} (f : A → bool) (x : A) l : f x = true → position f (x :: l) = Some 0.
Proof. cbn. by intros ->. Qed.

(** The first element after a run, if any. *)
Lemma position_after_run {A} (f : A → bool) (run rest : list A) :
  (∀ x, x ∈ run → f x = false) → (∀ x, x ∈ rest → f x = true) →
  default (length (run ++ rest)) (position f (run ++ rest)) = length run.
Proof.
  intros Hrun Hrest. rewrite position_app by done. destruct rest as [|x rest]; [by rewrite app_nil_r|].
  rewrite position_head by (apply Hrest; by left). cbn. lia.
Qed.

Lemma elem_of_rev {A} (l : list A) x : x ∈ rev l ↔ x ∈ l.
Proof. by rewrite !list_elem_of_In, <-in_rev. Qed.

(** The start of a run at the end of a list. *)
Lemma rposition_before_run {A} (f : A → bool) (rest run : list A) :
  (∀ x, x ∈ run → f x = false) → (∀ x, x ∈ rest → f x = true) →
  match rposition f (rest ++ run) with Some i => i + 1 | None => 0 end = length rest.
Proof.
  intros Hrun Hrest. unfold rposition. rewrite rev_app_distr, (position_app f) by (intros x Hx; by apply Hrun, elem_of_rev).
  rewrite length_rev, length_app. destruct (rev rest) as [|x back] eqn:Hrev.
  - apply (f_equal length) in Hrev. rewrite length_rev in Hrev. cbn in *. lia.
  - rewrite position_head; [cbn|].
    + apply (f_equal length) in Hrev. rewrite length_rev in Hrev. cbn in Hrev. lia.
    + apply Hrest, elem_of_rev. rewrite Hrev. by left.
Qed.

Section paging.
Context `{ItemFormats, !ChangeLength}.

(** ** Units *)

Abbreviation ids_of l := (mc_change_group_id <$> l).

Definition change_bytes (change : MemoryChange) : N := default 0%N (change_length (mc_change change)).

Definition bytes_of_changes (changes : list MemoryChange) : N := foldr (λ c n, (change_bytes c + n)%N) 0%N changes.

Definition unit_id (u : list MemoryChange) : option Uuid := mjoin (mc_change_group_id <$> head u).

(** One row of its own, or the rows of a group, within the bounds. *)
Record unit_ok (u : list MemoryChange) : Prop := {
  un_rows : u ≠ [];
  un_group : ∀ c, c ∈ u → mc_change_group_id c = unit_id u;
  un_single : unit_id u = None → length u = 1;
  un_size : length u ≤ MAX_ITEM_CHANGE_GROUP_SIZE;
  un_encoded : ∀ c, c ∈ u → is_Some (change_length (mc_change c));
  un_bytes : (bytes_of_changes u <= MAX_ITEM_DELTA_PAGE_PAYLOAD_BYTES)%N
}.

Record units_ok (units : list (list MemoryChange)) : Prop := {
  us_each : ∀ u, u ∈ units → unit_ok u;
  us_distinct : NoDup (omap unit_id units)
}.

(** A log that can be delivered. *)
Definition deliverable (changes : list MemoryChange) : Prop := ∃ units, units_ok units ∧ changes = concat units.

Lemma units_ok_app a b : units_ok (a ++ b) → units_ok a ∧ units_ok b.
Proof.
  intros [Heach Hnd]. rewrite omap_app in Hnd. apply NoDup_app in Hnd as (Ha & _ & Hb).
  split; split; try done; intros u Hu; apply Heach, elem_of_app; auto.
Qed.

Lemma elem_of_concat {A} (ll : list (list A)) x : x ∈ concat ll ↔ ∃ l, l ∈ ll ∧ x ∈ l.
Proof.
  rewrite list_elem_of_In, in_concat. setoid_rewrite <-list_elem_of_In. done.
Qed.

(** The unit that contains a row. *)
Lemma split_units (units : list (list MemoryChange)) i :
  i < length (concat units) → (∀ u, u ∈ units → u ≠ []) →
  ∃ a u b, units = a ++ u :: b ∧ length (concat a) ≤ i < length (concat a) + length u.
Proof.
  revert i. induction units as [|u units IH]; intros i Hi Hne; cbn in Hi; [lia|]. rewrite length_app in Hi.
  destruct (decide (i < length u)) as [Hlt|Hge].
  - exists [], u, units. split; [done|]. cbn. lia.
  - destruct (IH (i - length u)) as (a & v & b & -> & Hb); [lia|intros w Hw; apply Hne; by right|].
    exists (u :: a), v, b. split; [done|]. cbn. rewrite length_app. lia.
Qed.

Lemma unit_ids u : unit_ok u → ids_of u = replicate (length u) (unit_id u).
Proof.
  intros [_ Hgroup _ _ _ _]. revert Hgroup. generalize (unit_id u) as g. intros g. induction u as [|c u IH]; intros Hg; [done|].
  rewrite fmap_cons. cbn. rewrite (Hg c) by (by left). f_equal. apply IH. intros d Hd. apply Hg. by right.
Qed.

(** The rows around a unit are in other groups. *)
Lemma other_groups a u b g :
  units_ok (a ++ u :: b) → unit_id u = Some g → ∀ c, c ∈ concat a ∨ c ∈ concat b → mc_change_group_id c ≠ Some g.
Proof.
  intros [Heach Hnd] Hg c Hc Hcg. rewrite omap_app in Hnd. cbn in Hnd. rewrite Hg in Hnd.
  apply NoDup_app in Hnd as (_ & Hdis & Hnd). apply NoDup_cons in Hnd as [Hb _].
  assert (∀ l, (∀ v, v ∈ l → unit_ok v) → c ∈ concat l → g ∈ omap unit_id l) as Hin.
  { intros l Hl (v & Hv & Hcv)%elem_of_concat. apply list_elem_of_omap. exists v. split; [done|].
    by rewrite <-(un_group _ (Hl v Hv) c Hcv). }
  destruct Hc as [Hc|Hc].
  - apply (Hdis g); [|by left]. apply Hin; [|done]. intros v Hv. apply Heach, elem_of_app. by left.
  - apply Hb, Hin; [|done]. intros v Hv. apply Heach, elem_of_app. right. by right.
Qed.

(** ** The rows of a page *)

Lemma add_usize_Some a b : (N.of_nat (a + b) <= usize_max)%N → add_usize a b = Some (a + b).
Proof.
  intros Hle. unfold add_usize. destruct (checked_add usize_max (N.of_nat a) (N.of_nat b)) as [s|] eqn:Hs.
  - apply checked_add_Some in Hs as [-> _]. cbn. f_equal. lia.
  - unfold checked_add in Hs. destruct (N.leb_spec (N.of_nat a + N.of_nat b) usize_max); [done|]. lia.
Qed.

Lemma max_page_Ok limit :
  1 ≤ limit → (N.of_nat (limit + MAX_ITEM_CHANGE_GROUP_SIZE) <= usize_max)%N →
  max_expanded_delta_page_size limit = Ok (limit + (MAX_ITEM_CHANGE_GROUP_SIZE - 1)).
Proof.
  intros Hl Hu. unfold max_expanded_delta_page_size. destruct (Nat.eqb_spec limit 0); [lia|].
  rewrite add_usize_Some; [done|]. unfold MAX_ITEM_CHANGE_GROUP_SIZE in *. lia.
Qed.

(** The first units that cover the requested rows. *)
Lemma atomic_prefix_units units limit :
  units_ok units → 1 ≤ limit → (N.of_nat (limit + MAX_ITEM_CHANGE_GROUP_SIZE) <= usize_max)%N →
  ∃ a b, units = a ++ b ∧
    atomic_delta_prefix_len (ids_of (take (limit + MAX_ITEM_CHANGE_GROUP_SIZE) (concat units))) limit = Ok (length (concat a)) ∧
    length (concat a) ≤ limit + (MAX_ITEM_CHANGE_GROUP_SIZE - 1) ∧ (units ≠ [] → a ≠ []).
Proof.
  intros Hunits Hlimit Husize. unfold atomic_delta_prefix_len. rewrite (max_page_Ok limit) by done. cbn [rbind].
  rewrite length_fmap, length_take. destruct (Nat.leb_spec ((limit + MAX_ITEM_CHANGE_GROUP_SIZE) `min` length (concat units)) limit) as [Hshort|Hlong].
  { exists units, []. rewrite app_nil_r. split; [done|]. unfold MAX_ITEM_CHANGE_GROUP_SIZE in *. split; [f_equal; lia|]. split; [lia|done]. }
  destruct (split_units units (limit - 1)) as (a & u & b & Heq & Hpos); [lia|intros v Hv; by apply (us_each _ Hunits)|].
  assert (unit_ok u) as Hu by (apply (us_each _ Hunits); rewrite Heq; apply elem_of_app; right; by left).
  pose proof (un_size _ Hu) as Hsize. exists (a ++ [u]), b. split; [by rewrite Heq, <-app_assoc|].
  assert (length (concat (a ++ [u])) = length (concat a) + length u) as Hlen.
  { rewrite concat_app, length_app. cbn. by rewrite app_nil_r. }
  set (rest := take (limit + MAX_ITEM_CHANGE_GROUP_SIZE - length (concat a) - length u) (concat b)).
  assert (ids_of (take (limit + MAX_ITEM_CHANGE_GROUP_SIZE) (concat units)) =
    ids_of (concat a) ++ replicate (length u) (unit_id u) ++ ids_of rest) as Hids.
  { rewrite Heq, concat_app. cbn [concat]. rewrite take_app_ge by (unfold MAX_ITEM_CHANGE_GROUP_SIZE; lia).
    rewrite take_app_ge by (unfold MAX_ITEM_CHANGE_GROUP_SIZE in *; lia). rewrite !fmap_app, (unit_ids u) by done. done. }
  rewrite Hids, Hlen.
  assert ((ids_of (concat a) ++ replicate (length u) (unit_id u) ++ ids_of rest) !! (limit - 1) = Some (unit_id u)) as ->.
  { rewrite lookup_app_r by (rewrite length_fmap; lia). rewrite length_fmap, lookup_app_l by (rewrite length_replicate; lia).
    apply lookup_replicate. split; [done|]. lia. }
  cbn [mjoin option_join]. split; [|split; [lia|intros _; by destruct a]].
  destruct (unit_id u) as [g|] eqn:Hg.
  2:{ pose proof (un_single _ Hu Hg). f_equal. lia. }
  pose proof Hunits as Hall. rewrite Heq in Hall. pose proof (other_groups a u b g Hall Hg) as Hother.
  assert (∀ x, x ∈ ids_of (concat a) → outside_group g x = true) as Hbefore.
  { intros x (c & -> & Hc)%list_elem_of_fmap. unfold outside_group. rewrite bool_decide_false; [done|]. apply Hother. by left. }
  assert (∀ x, x ∈ ids_of rest → outside_group g x = true) as Hafter.
  { intros x (c & -> & Hc)%list_elem_of_fmap. unfold outside_group. rewrite bool_decide_false; [done|]. apply Hother. right.
    apply elem_of_take in Hc as (i & Hi & _). by eapply list_elem_of_lookup_2. }
  assert (∀ n x, x ∈ replicate n (Some g) → outside_group g x = false) as Hin.
  { intros n x [-> _]%elem_of_replicate. unfold outside_group. by rewrite bool_decide_true. }
  rewrite take_app_ge by (rewrite length_fmap; lia). rewrite drop_app_ge by (rewrite length_fmap; lia). rewrite !length_fmap.
  rewrite take_app_le, drop_app_le by (rewrite length_replicate; lia). rewrite take_replicate, drop_replicate.
  rewrite (rposition_before_run (outside_group g)) by (apply Hin || done). rewrite length_fmap.
  pose proof (position_after_run (outside_group g) (replicate (length u - (limit - length (concat a))) (Some g)) (ids_of rest)
    (Hin _) Hafter) as Hend. rewrite length_app, length_replicate in Hend.
  assert (match position (outside_group g) (replicate (length u - (limit - length (concat a))) (Some g) ++ ids_of rest) with
          | Some offset => limit + offset
          | None => (limit + MAX_ITEM_CHANGE_GROUP_SIZE) `min` length (concat units)
          end = length (concat a) + length u) as ->.
  { apply (f_equal length) in Hids. rewrite !length_app, length_replicate, !length_fmap, length_take in Hids.
    rewrite length_fmap in Hend. destruct (position _ _); cbn in Hend; lia. }
  destruct (Nat.ltb_spec MAX_ITEM_CHANGE_GROUP_SIZE (length (concat a) + length u - length (concat a))); [lia|].
  destruct (Nat.ltb_spec (limit + (MAX_ITEM_CHANGE_GROUP_SIZE - 1)) (length (concat a) + length u)); [|done]. lia.
Qed.

(** ** Whole groups *)

Definition rows_of (l : list MemoryChange) : list (option Uuid * N) := (λ c, (mc_change_group_id c, change_bytes c)) <$> l.

Lemma zip_rows l : zip (ids_of l) (change_bytes <$> l) = rows_of l.
Proof. unfold rows_of. induction l as [|c l IH]; [done|]. cbn. by f_equal. Qed.

Lemma checked_add_usize a b : (a + b <= usize_max)%N → checked_add usize_max a b = Some (a + b)%N.
Proof. intros Hle. unfold checked_add. by destruct (N.leb_spec (a + b) usize_max); [|lia]. Qed.

(** The rows of a group that has been entered. *)
Lemma group_run g l loop :
  (∀ c, c ∈ l → mc_change_group_id c = Some g) → gl_current loop = Some g →
  gl_count loop + length l ≤ MAX_ITEM_CHANGE_GROUP_SIZE →
  (gl_bytes loop + bytes_of_changes l <= MAX_ITEM_DELTA_PAGE_PAYLOAD_BYTES)%N →
  foldM group_row loop (rows_of l) = Ok {| gl_completed := gl_completed loop; gl_current := Some g;
    gl_count := gl_count loop + length l; gl_bytes := (gl_bytes loop + bytes_of_changes l)%N |}.
Proof.
  revert loop. induction l as [|c l IH]; intros [completed current count bytes] Hg Hcur Hcount Hbytes; cbn in Hcur, Hcount, Hbytes; subst current.
  { cbn. do 2 f_equal; lia. }
  change (rows_of (c :: l)) with ((mc_change_group_id c, change_bytes c) :: rows_of l). cbn [foldM].
  unfold group_row at 1, enter_group. cbn [fst snd gl_current gl_completed gl_count gl_bytes]. rewrite (Hg c) by (by left).
  rewrite bool_decide_true by done. cbn [rbind is_some gl_count gl_bytes gl_completed gl_current].
  unfold MAX_ITEM_CHANGE_GROUP_SIZE, MAX_ITEM_DELTA_PAGE_PAYLOAD_BYTES in *.
  fold (bytes_of_changes l) in Hbytes. assert (N.of_nat (count + 1) <= usize_max)%N as H1 by (unfold usize_max, u64_max; lia).
  assert (bytes + change_bytes c <= usize_max)%N as H2 by (unfold usize_max, u64_max; lia).
  rewrite (add_usize_Some count 1 H1), (checked_add_usize bytes (change_bytes c) H2).
  cbn [ok_or rbind].
  rewrite IH; cbn [gl_current gl_count gl_bytes gl_completed]; [|intros d Hd; apply Hg; by right|done|lia|lia].
  cbn [length bytes_of_changes foldr]. do 2 f_equal; fold (bytes_of_changes l); lia.
Qed.

Definition seen_group (loop : GroupLoop) (g : Uuid) : Prop := g ∈ gl_completed loop ∨ gl_current loop = Some g.

Definition loop_ok (loop : GroupLoop) : Prop := finish_group (gl_current loop) (gl_count loop) (gl_bytes loop) = Ok tt.

Lemma group_unit u loop :
  unit_ok u → loop_ok loop → (∀ g, unit_id u = Some g → ¬ seen_group loop g) →
  ∃ loop', foldM group_row loop (rows_of u) = Ok loop' ∧ loop_ok loop' ∧
    ∀ g, seen_group loop' g → seen_group loop g ∨ unit_id u = Some g.
Proof.
  intros Hu Hloop Hfresh. destruct loop as [completed current count bytes]. unfold loop_ok, seen_group in *. cbn in Hloop, Hfresh.
  destruct (unit_id u) as [g|] eqn:Hg.
  - specialize (Hfresh g eq_refl). set (completed' := match current with Some id => {[id]} ∪ completed | None => completed end).
    set (entered := {| gl_completed := completed'; gl_current := Some g; gl_count := 0; gl_bytes := 0 |}).
    assert (foldM group_row {| gl_completed := completed; gl_current := current; gl_count := count; gl_bytes := bytes |} (rows_of u)
      = foldM group_row entered (rows_of u)) as ->.
    { pose proof (un_rows _ Hu) as Hne. destruct u as [|c u]; [done|].
      change (rows_of (c :: u)) with ((mc_change_group_id c, change_bytes c) :: rows_of u). cbn [foldM]. f_equal.
      unfold group_row, enter_group. cbn [fst gl_current]. assert (mc_change_group_id c = Some g) as -> by exact Hg.
      rewrite bool_decide_false by naive_solver. cbn [gl_completed gl_count gl_bytes]. rewrite Hloop. cbn [rbind].
      fold completed'. rewrite bool_decide_false by (unfold completed'; destruct current; set_solver).
      rewrite bool_decide_true by done. done. }
    rewrite (group_run g); [| |done|apply (un_size _ Hu)|apply (un_bytes _ Hu)].
    2:{ intros c Hc. by rewrite (un_group _ Hu c Hc). }
    eexists. split; [done|]. cbn [gl_current gl_count gl_bytes gl_completed entered]. rewrite N.add_0_l, Nat.add_0_l. split.
    + unfold finish_group. cbn [is_some andb]. destruct (Nat.ltb_spec MAX_ITEM_CHANGE_GROUP_SIZE (length u)); [pose proof (un_size _ Hu); lia|].
      pose proof (un_bytes _ Hu). destruct (N.ltb_spec MAX_ITEM_CHANGE_GROUP_PAYLOAD_BYTES (bytes_of_changes u)); [|done].
      unfold MAX_ITEM_CHANGE_GROUP_PAYLOAD_BYTES in *. lia.
    + intros h [Hh|[= ->]]; [|by right]. left. unfold completed' in Hh. destruct current as [k|]; set_solver.
  - pose proof (un_single _ Hu Hg) as Hone. pose proof (un_group _ Hu) as Hgroup. rewrite Hg in Hgroup.
    destruct u as [|c [|]]; [done| |done]. cbn. unfold group_row, enter_group. cbn [fst gl_current]. rewrite (Hgroup c) by (by left).
    case_bool_decide as Hcur; cbn [rbind gl_completed gl_count gl_bytes]; [|rewrite Hloop; cbn [rbind]].
    + eexists. split; [done|]. cbn. split; [done|]. auto.
    + eexists. split; [done|]. cbn. split; [done|]. intros g [Hh|]; [|done]. left. destruct current as [k|]; set_solver.
Qed.

Lemma rows_of_app l k : rows_of (l ++ k) = rows_of l ++ rows_of k.
Proof. apply fmap_app. Qed.

Lemma groups_run units loop :
  units_ok units → loop_ok loop → (∀ g, g ∈ omap unit_id units → ¬ seen_group loop g) →
  ∃ loop', foldM group_row loop (rows_of (concat units)) = Ok loop' ∧ loop_ok loop'.
Proof.
  revert loop. induction units as [|u units IH]; intros loop Hunits Hloop Hfresh; [by exists loop|].
  cbn [concat]. rewrite rows_of_app, foldM_app.
  destruct (units_ok_app [u] units Hunits) as [Hone Hrest].
  destruct (group_unit u loop) as (mid & -> & Hmid & Hseen); [apply Hone; by left|done| |].
  { intros g Hg. apply Hfresh. apply list_elem_of_omap. exists u. split; [by left|done]. }
  cbn [rbind]. apply IH; [done|done|]. intros g Hg [Hold|Hnew]%Hseen.
  - apply (Hfresh g); [|done]. apply list_elem_of_omap in Hg as (v & Hv & Hgv). apply list_elem_of_omap. exists v. split; [by right|done].
  - pose proof (us_distinct _ Hunits) as Hnd. cbn in Hnd. rewrite Hnew in Hnd. by apply NoDup_cons in Hnd as [? _].
Qed.

Lemma validate_groups_Ok units :
  units_ok units → validate_atomic_delta_groups (ids_of (concat units)) (change_bytes <$> concat units) = Ok tt.
Proof.
  intros Hunits. unfold validate_atomic_delta_groups. rewrite !length_fmap, Nat.eqb_refl, zip_rows. cbn [negb].
  destruct (groups_run units {| gl_completed := ∅; gl_current := None; gl_count := 0; gl_bytes := 0 |}) as (loop & -> & Hloop);
    [done|done| |done].
  intros g _ [Hin|]; [by apply elem_of_empty in Hin|done].
Qed.

(** ** The bytes of a page *)

Lemma sum_from total l :
  (total + bytes_of_changes l <= usize_max)%N →
  foldl (λ total size, t ← total; checked_add usize_max t size) (Some total) (change_bytes <$> l) = Some (total + bytes_of_changes l)%N.
Proof.
  revert total. induction l as [|c l IH]; intros total Hle; [cbn; by rewrite N.add_0_r|].
  assert (bytes_of_changes (c :: l) = (change_bytes c + bytes_of_changes l)%N) as Hb by done. rewrite Hb in Hle |- *.
  rewrite fmap_cons. cbn [foldl mbind option_bind]. rewrite checked_add_usize by lia. rewrite IH by lia. f_equal. lia.
Qed.

Lemma concat_snoc {A} (a : list (list A)) u : concat (a ++ [u]) = concat a ++ u.
Proof. rewrite concat_app. cbn. by rewrite app_nil_r. Qed.

(** The unit that starts after some others. *)
Lemma unit_end_next d u t rest :
  units_ok (d ++ u :: t) →
  unit_end (ids_of (concat (d ++ u :: t) ++ rest)) (length (concat (d ++ u :: t))) (length (concat d)) = length (concat (d ++ [u])).
Proof.
  intros Hunits. assert (unit_ok u) as Hu by (apply (us_each _ Hunits), elem_of_app; right; by left).
  assert (concat (d ++ u :: t) = concat d ++ u ++ concat t) as Hcat by (by rewrite concat_app).
  unfold unit_end. rewrite concat_snoc, length_app.
  assert (ids_of (concat (d ++ u :: t) ++ rest) !! length (concat d) = Some (unit_id u)) as ->.
  { rewrite Hcat, <-!app_assoc, fmap_app, lookup_app_r by (rewrite length_fmap; lia).
    rewrite length_fmap, Nat.sub_diag, fmap_app, (unit_ids u) by done. pose proof (un_rows _ Hu). by destruct u. }
  cbn [mjoin option_join]. destruct (unit_id u) as [g|] eqn:Hg; [|by rewrite (un_single _ Hu Hg)].
  pose proof (other_groups d u t g Hunits Hg) as Hother. pose proof (un_rows _ Hu) as Hne.
  assert (drop (length (concat d) + 1) (take (length (concat (d ++ u :: t))) (ids_of (concat (d ++ u :: t) ++ rest))) =
    replicate (length u - 1) (Some g) ++ ids_of (concat t)) as ->.
  { rewrite fmap_app, take_app_le by (rewrite length_fmap; lia). rewrite take_ge by (rewrite length_fmap; lia).
    rewrite Hcat, !fmap_app, drop_app_ge by (rewrite length_fmap; lia). rewrite length_fmap, (unit_ids u), Hg by done.
    replace (length (concat d) + 1 - length (concat d)) with 1 by lia.
    destruct u as [|c u]; [done|]. cbn [length replicate app]. by rewrite Nat.sub_succ, Nat.sub_0_r. }
  assert (default (length (replicate (length u - 1) (Some g) ++ ids_of (concat t)))
    (position (outside_group g) (replicate (length u - 1) (Some g) ++ ids_of (concat t))) = length (replicate (length u - 1) (Some g))) as Hend.
  { apply position_after_run.
    - intros x [-> _]%elem_of_replicate. unfold outside_group. by rewrite bool_decide_true.
    - intros x (c & -> & Hc)%list_elem_of_fmap. unfold outside_group. rewrite bool_decide_false; [done|]. apply Hother. by right. }
  rewrite length_app, !length_replicate, length_fmap in Hend. rewrite Hcat, !length_app.
  assert (0 < length u) by (destruct u; [done|cbn; lia]).
  destruct (position _ _); cbn in Hend; lia.
Qed.

Lemma select_units_spec a rest t d bytes fuel :
  units_ok a → a = d ++ t → length t ≤ fuel → (bytes <= MAX_ITEM_DELTA_PAGE_PAYLOAD_BYTES)%N →
  ∃ t1 t2, t = t1 ++ t2 ∧
    select_units fuel (ids_of (concat a ++ rest)) (change_bytes <$> (concat a ++ rest)) (length (concat a)) (length (concat d)) bytes
      = Ok (length (concat (d ++ t1))) ∧ (bytes = 0%N → t ≠ [] → t1 ≠ []).
Proof.
  intros Hunits. revert d bytes fuel. induction t as [|u t IH]; intros d bytes fuel Ha Hfuel Hbytes.
  { rewrite app_nil_r in Ha. subst d. exists [], []. split; [done|]. split; [|done].
    destruct fuel; cbn [select_units]; by rewrite Nat.leb_refl, app_nil_r. }
  destruct fuel as [|fuel]; [cbn in Hfuel; lia|]. cbn [select_units].
  assert (unit_ok u) as Hu by (apply (us_each _ Hunits); rewrite Ha; apply elem_of_app; right; by left).
  pose proof (un_rows _ Hu) as Hne. assert (0 < length u) as Hpos by (destruct u; [done|cbn; lia]).
  assert (concat a = concat d ++ u ++ concat t) as Hcat by (rewrite Ha; by rewrite concat_app).
  destruct (Nat.leb_spec (length (concat a)) (length (concat d))) as [Hle|_]; [rewrite Hcat, !length_app in Hle; lia|].
  rewrite Ha in Hunits |- *. rewrite (unit_end_next d u t rest Hunits). rewrite <-Ha.
  assert (take (length (concat (d ++ [u])) - length (concat d)) (drop (length (concat d)) (change_bytes <$> (concat a ++ rest))) =
    change_bytes <$> u) as ->.
  { rewrite concat_snoc, length_app, Hcat, <-!app_assoc, fmap_app, drop_app_ge by (rewrite length_fmap; lia).
    rewrite length_fmap, Nat.sub_diag, drop_0, fmap_app. replace (length (concat d) + length u - length (concat d)) with (length u) by lia.
    rewrite take_app_le, take_ge by (rewrite length_fmap; lia). done. }
  pose proof (un_bytes _ Hu) as Hub. unfold MAX_ITEM_DELTA_PAGE_PAYLOAD_BYTES in *.
  unfold sum_usize. rewrite sum_from, N.add_0_l by (unfold usize_max, u64_max; lia). cbn [ok_or rbind].
  destruct (N.ltb_spec (8 * 1024 * 1024) (bytes_of_changes u)); [lia|].
  rewrite checked_add_usize by (unfold usize_max, u64_max; lia). cbn [ok_or rbind].
  destruct (N.ltb_spec (8 * 1024 * 1024) (bytes + bytes_of_changes u)).
  - exists [], (u :: t). rewrite app_nil_r. split; [done|]. split; [done|]. intros ->. lia.
  - destruct (IH (d ++ [u]) (bytes + bytes_of_changes u)%N fuel) as (t1 & t2 & -> & Hsel & _).
    { by rewrite Ha, <-app_assoc. } { cbn in Hfuel. lia. } { lia. }
    rewrite <-Ha in Hunits. exists (u :: t1), t2. split; [done|]. rewrite Hsel, <-app_assoc. done.
Qed.

(** The page that is delivered. *)
Lemma delivery_spec units limit :
  units_ok units → 1 ≤ limit → (N.of_nat (limit + MAX_ITEM_CHANGE_GROUP_SIZE) <= usize_max)%N →
  let candidates := take (limit + MAX_ITEM_CHANGE_GROUP_SIZE) (concat units) in
  ∃ t1 t2, units = t1 ++ t2 ∧
    delivery_bounded_delta_prefix_len (ids_of candidates) (change_bytes <$> candidates) limit = Ok (length (concat t1)) ∧
    length (concat t1) ≤ limit + (MAX_ITEM_CHANGE_GROUP_SIZE - 1) ∧ (units ≠ [] → t1 ≠ []).
Proof.
  intros Hunits Hlimit Husize candidates. unfold delivery_bounded_delta_prefix_len. rewrite !length_fmap, Nat.eqb_refl. cbn [negb].
  destruct (atomic_prefix_units units limit) as (a & b & Heq & Hatomic & Hlen & Hne); [done..|].
  fold candidates in Hatomic. rewrite Hatomic. cbn [rbind].
  assert (units_ok a) as Ha by (rewrite Heq in Hunits; by apply units_ok_app in Hunits as [? _]).
  assert (∃ rest, candidates = concat a ++ rest) as [rest Hcand].
  { unfold candidates. rewrite Heq, concat_app, take_app_ge by lia. by eexists. }
  rewrite Hcand, !fmap_app, !take_app_le, !take_ge by (rewrite length_fmap; lia). rewrite validate_groups_Ok by done. cbn [rbind].
  rewrite <-!fmap_app.
  destruct (select_units_spec a rest a [] 0%N (length (concat a))) as (t1 & t2 & Hsplit & Hsel & Hsome); [done..| |lia|].
  { assert (∀ l : list (list MemoryChange), (∀ u, u ∈ l → u ≠ []) → length l ≤ length (concat l)) as Hlong.
    { induction l as [|u l IH]; intros Hl; [done|]. cbn. rewrite length_app. specialize (IH (λ v Hv, Hl v (list_elem_of_further _ _ _ Hv))).
      assert (u ≠ []) by (apply Hl; by left). destruct u; [done|cbn; lia]. }
    apply Hlong. intros u Hu. by apply (us_each _ Ha). }
  cbn [concat length app] in Hsel. rewrite Hsel. cbn [rbind]. exists t1, (t2 ++ b). split; [by rewrite Heq, Hsplit, <-app_assoc|].
  assert (a ≠ [] → 0 < length (concat t1)) as Hpos.
  { intros Hna. specialize (Hsome eq_refl Hna). destruct t1 as [|u t1]; [done|]. cbn. rewrite length_app.
    assert (u ≠ []) by (apply (us_each _ Ha); rewrite Hsplit; by left). destruct u; [done|cbn; lia]. }
  split; [|split].
  - destruct (Nat.ltb_spec 0 (length (concat a))) as [Hl|]; [|done]. destruct (Nat.eqb_spec (length (concat t1)) 0); [|done].
    assert (a ≠ []) as Hna by (intros ->; cbn in Hl; lia). specialize (Hpos Hna). lia.
  - rewrite Hsplit, concat_app, length_app in Hlen. lia.
  - intros Hu. apply Hsome; [done|]. by apply Hne.
Qed.

(** ** Complete groups *)

Lemma filter_none {A} (P : A → Prop) `{∀ x, Decision (P x)} (l : list A) : (∀ x, x ∈ l → ¬ P x) → filter P l = [].
Proof.
  induction l as [|x l IH]; intros Hall; [done|]. rewrite filter_cons, decide_False by (apply Hall; by left).
  apply IH. intros y Hy. apply Hall. by right.
Qed.

Lemma filter_middle {A} (P : A → Prop) `{∀ x, Decision (P x)} (l1 l2 l3 : list A) :
  (∀ x, x ∈ l1 → ¬ P x) → (∀ x, x ∈ l2 → P x) → (∀ x, x ∈ l3 → ¬ P x) → filter P (l1 ++ l2 ++ l3) = l2.
Proof.
  intros Hl1 Hl2 Hl3. rewrite !filter_app, (filter_none P l1), (filter_none P l3), app_nil_r by done. by apply filter_all.
Qed.

Lemma encoded_bytes change : is_Some (change_length (mc_change change)) → encoded_change change = Ok (change_bytes change).
Proof. unfold encoded_change, change_bytes. intros [n ->]. done. Qed.

Lemma group_bytes (f : nat → nat) u total :
  (∀ c, c ∈ u → is_Some (change_length (mc_change c))) → (total + bytes_of_changes u <= usize_max)%N →
  foldM (λ total p, let? size := encoded_change p.2 in ok_or (checked_add usize_max total size) Internal) total
    (imap (λ i c, (f i, c)) u) = (Ok (total + bytes_of_changes u)%N : result ItemRepositoryError N).
Proof.
  revert f total. induction u as [|c u IH]; intros f total Henc Hle; [cbn; by rewrite N.add_0_r|].
  assert (bytes_of_changes (c :: u) = (change_bytes c + bytes_of_changes u)%N) as Hb by done. rewrite Hb in Hle |- *.
  rewrite imap_cons. cbn [foldM snd]. rewrite encoded_bytes by (apply Henc; by left). cbn [rbind].
  rewrite checked_add_usize by lia. cbn [ok_or rbind]. rewrite (IH (f ∘ S)); [f_equal; lia|intros d Hd; apply Henc; by right|lia].
Qed.

Lemma whole_group_Ok before a u b after g :
  units_ok (before ++ (a ++ u :: b) ++ after) → unit_id u = Some g →
  whole_group (concat (before ++ (a ++ u :: b) ++ after)) (concat (a ++ u :: b)) g = Ok tt.
Proof.
  intros Hunits Hg. assert (unit_ok u) as Hu by (apply (us_each _ Hunits); set_solver).
  assert (before ++ (a ++ u :: b) ++ after = (before ++ a) ++ u :: (b ++ after)) as Heq by (by rewrite <-!app_assoc).
  pose proof Hunits as Hall. rewrite Heq in Hall. pose proof (other_groups _ _ _ _ Hall Hg) as Hother.
  assert (∀ c, c ∈ u → mc_change_group_id c = Some g) as Hin by (intros c Hc; by rewrite (un_group _ Hu c Hc)).
  unfold whole_group. rewrite Heq, (concat_app (before ++ a)), (concat_app a). cbn [concat].
  set (l1 := concat (before ++ a)) in *. set (l2 := concat (b ++ after)) in *.
  assert (filter (λ p : nat * MemoryChange, mc_change_group_id p.2 = Some g) (imap pair (l1 ++ u ++ l2)) =
    imap (λ i c, (length l1 + i, c)) u) as ->.
  { rewrite imap_app, imap_app. apply filter_middle.
    - intros p (i & c & -> & Hc)%elem_of_lookup_imap. cbn. apply Hother. left. by eapply list_elem_of_lookup_2.
    - intros p (i & c & -> & Hc)%elem_of_lookup_imap. cbn. apply Hin. by eapply list_elem_of_lookup_2.
    - intros p (i & c & -> & Hc)%elem_of_lookup_imap. cbn. apply Hother. right. by eapply list_elem_of_lookup_2. }
  assert (filter (λ change, mc_change_group_id change = Some g) (concat a ++ u ++ concat b) = u) as ->.
  { apply filter_middle; [|done|]; intros c Hc; apply Hother; [left|right]; subst l1 l2; rewrite concat_app; apply elem_of_app; auto. }
  pose proof (un_bytes _ Hu) as Hub. pose proof (un_size _ Hu) as Hsize. pose proof (un_rows _ Hu) as Hne.
  unfold MAX_ITEM_DELTA_PAGE_PAYLOAD_BYTES in Hub.
  rewrite (group_bytes (λ i, length l1 + i)); [|apply (un_encoded _ Hu)|unfold usize_max, u64_max; lia]. cbn [rbind].
  rewrite N.add_0_l, length_imap, Nat.eqb_refl. destruct (Nat.ltb_spec MAX_ITEM_CHANGE_GROUP_SIZE (length u)); [lia|].
  destruct (N.ltb_spec MAX_ITEM_CHANGE_GROUP_PAYLOAD_BYTES (bytes_of_changes u)).
  { unfold MAX_ITEM_CHANGE_GROUP_PAYLOAD_BYTES, MAX_ITEM_DELTA_PAGE_PAYLOAD_BYTES in *. lia. }
  rewrite last_lookup, length_imap, list_lookup_imap. destruct u as [|c u]; [done|].
  destruct (lookup_lt_is_Some_2 (c :: u) (length u)) as [d Hd]; [cbn; lia|]. cbn [length Nat.pred]. rewrite Hd. cbn.
  rewrite Nat.add_0_r. destruct (Nat.eqb_spec (length l1 + length u - length l1 + 1) (S (length u))); [done|lia].
Qed.

(** ** Following the log *)

Lemma first_after_log changes k :
  (∀ i change, changes !! i = Some change → mc_sequence change = N.of_nat (S i)) → k ≤ length changes →
  first_after changes (N.of_nat k) = k.
Proof.
  intros Hseq Hk. unfold first_after. rewrite <-(take_drop k changes) at 1 2.
  rewrite position_after_run; [rewrite length_take; lia|..].
  - intros c (i & Hi & Hlt)%elem_of_take. rewrite (Hseq _ _ Hi). apply N.ltb_ge. lia.
  - intros c Hc. apply list_elem_of_lookup in Hc as [i Hi]. rewrite lookup_drop in Hi. rewrite (Hseq _ _ Hi). apply N.ltb_lt. lia.
Qed.

Lemma boundary_not_split d t :
  units_ok (d ++ t) → splits_group (concat (d ++ t)) (length (concat d)) = false.
Proof.
  intros Hunits. unfold splits_group. destruct (Nat.ltb_spec 0 (length (concat d))) as [Hpos|]; [|done]. cbn [andb].
  destruct (Nat.ltb_spec (length (concat d)) (length (concat (d ++ t)))) as [Hlt|]; [|done]. cbn [andb].
  destruct t as [|u t]; [rewrite app_nil_r in Hlt; lia|].
  assert (unit_ok u) as Hu by (apply (us_each _ Hunits), elem_of_app; right; by left).
  pose proof (un_rows _ Hu) as Hne. destruct u as [|c u]; [done|].
  assert (concat (d ++ (c :: u) :: t) !! length (concat d) = Some c) as ->.
  { rewrite concat_app. cbn. by rewrite lookup_app_r, Nat.sub_diag by lia. }
  destruct (lookup_lt_is_Some_2 (concat d) (length (concat d) - 1)) as [p Hp]; [lia|].
  assert (concat (d ++ (c :: u) :: t) !! (length (concat d) - 1) = Some p) as -> by (rewrite concat_app; by rewrite lookup_app_l by lia).
  destruct (mc_change_group_id c) as [g|] eqn:Hg; [|done]. cbn [is_some andb]. apply bool_decide_eq_false. intros Heq.
  apply (other_groups d (c :: u) t g Hunits Hg p); [|done]. left. by eapply list_elem_of_lookup_2.
Qed.

Lemma encoded_sizes l sizes :
  (∀ c, c ∈ l → is_Some (change_length (mc_change c))) →
  foldM (λ sizes change, let? size := encoded_change change in Ok (sizes ++ [size])) sizes l =
    (Ok (sizes ++ (change_bytes <$> l)) : result ItemRepositoryError (list N)).
Proof.
  revert sizes. induction l as [|c l IH]; intros sizes Henc; [cbn; by rewrite app_nil_r|].
  cbn [foldM]. rewrite encoded_bytes by (apply Henc; by left). cbn [rbind]. rewrite IH by (intros d Hd; apply Henc; by right).
  by rewrite <-app_assoc.
Qed.

(** A page from the end of a unit delivers the next units. *)
Lemma page_spec st d t limit :
  log_ok st → st_changes st = concat (d ++ t) → units_ok (d ++ t) →
  1 ≤ limit → (N.of_nat (limit + MAX_ITEM_CHANGE_GROUP_SIZE) <= usize_max)%N →
  ∃ t1 t2 page, t = t1 ++ t2 ∧ (t ≠ [] → t1 ≠ []) ∧
    delta st (N.of_nat (length (concat d))) limit = Ok page ∧
    dp_changes page = mc_change <$> concat t1 ∧ dp_watermark page = N.of_nat (length (concat (d ++ t1))) ∧
    (dp_has_more page = true ↔ t2 ≠ []) ∧ length (dp_changes page) ≤ limit + (MAX_ITEM_CHANGE_GROUP_SIZE - 1).
Proof.
  intros Hlog Hchanges Hunits Hlimit Husize. pose proof (units_ok_app _ _ Hunits) as [_ Ht].
  assert (length (concat d) ≤ length (st_changes st)) as Hle by (rewrite Hchanges, concat_app, length_app; lia).
  destruct (delivery_spec t limit Ht Hlimit Husize) as (t1 & t2 & Hsplit & Hdel & Hlen & Hsome).
  unfold delta. rewrite (lo_next _ Hlog). destruct (N.ltb_spec (N.of_nat (length (st_changes st))) (N.of_nat (length (concat d)))); [lia|].
  rewrite (first_after_log _ _ (lo_sequence _ Hlog) Hle), Hchanges, boundary_not_split by done.
  rewrite add_usize_Some by done. cbn [ok_or rbind]. rewrite concat_app, drop_app_length.
  set (candidates := take (limit + MAX_ITEM_CHANGE_GROUP_SIZE) (concat t)) in *.
  rewrite encoded_sizes.
  2:{ intros c (i & Hi & _)%elem_of_take. apply list_elem_of_lookup_2, elem_of_concat in Hi as (u & Hu & Hc).
      by apply (un_encoded _ (us_each _ Ht _ Hu)). }
  cbn [rbind app]. rewrite Hdel. cbn [rbind].
  assert (take (length (concat t1)) candidates = concat t1) as Htake.
  { unfold candidates. rewrite take_take, Nat.min_l by lia. rewrite Hsplit, concat_app. apply take_app_length. }
  rewrite Htake. rewrite <-concat_app, Hsplit.
  assert (validate_memory_group_completeness (concat (d ++ t1 ++ t2)) (concat t1) = Ok tt) as ->.
  { apply forM_ok, Forall_forall. intros g Hg. apply elem_of_set_elems, elem_of_list_to_set, list_elem_of_omap in Hg as (c & Hc & Hg).
    apply elem_of_concat in Hc as (u & Hu & Hc). assert (unit_ok u) as Huok by (apply (us_each _ Ht); rewrite Hsplit; set_solver).
    rewrite (un_group _ Huok c Hc) in Hg. apply list_elem_of_split in Hu as (a & b & ->). apply whole_group_Ok; [|done].
    by rewrite <-Hsplit. }
  cbn [rbind]. exists t1, t2. eexists. split; [done|]. split; [by rewrite <-Hsplit|]. split; [reflexivity|]. cbn [dp_changes dp_watermark dp_has_more].
  split; [done|]. split; [|split].
  - destruct (decide (length (concat t1) = 0)) as [Hz|Hnz].
    + assert (t = []) as Hnil.
      { destruct t as [|u t']; [done|]. exfalso. destruct t1 as [|v t1]; [by apply Hsome|].
        assert (v ≠ []) by (apply (us_each _ Ht); rewrite Hsplit; by left). destruct v; [done|]. cbn in Hz. lia. }
      assert (candidates = []) as -> by (unfold candidates; rewrite Hnil; cbn; by rewrite take_nil).
      rewrite lookup_nil, concat_app, length_app. lia.
    + assert (candidates !! (length (concat t1) - 1) = concat t1 !! (length (concat t1) - 1)) as ->.
      { transitivity (take (length (concat t1)) candidates !! (length (concat t1) - 1)); [by rewrite lookup_take_lt by lia|by rewrite Htake]. }
      destruct (lookup_lt_is_Some_2 (concat t1) (length (concat t1) - 1)) as [c Hc]; [lia|]. rewrite Hc.
      assert (st_changes st !! (length (concat d) + (length (concat t1) - 1)) = Some c) as Hrow.
      { rewrite Hchanges, Hsplit, !concat_app, lookup_app_r by lia. rewrite lookup_app_l by lia. rewrite <-Hc. f_equal. lia. }
      rewrite (lo_sequence _ Hlog _ _ Hrow), concat_app, length_app. lia.
  - rewrite concat_app, length_app, Nat.ltb_lt. destruct t2 as [|u t2]; [cbn; split; [lia|done]|]. split; [done|]. intros _.
    assert (u ≠ []) by (apply (us_each _ Ht); rewrite Hsplit; set_solver). destruct u; [done|cbn; lia].
  - by rewrite length_fmap.
Qed.

(** A client that follows the pages, from a cursor on, until there are no more. *)
Fixpoint follow (fuel : nat) (st : ItemState) (after : N) (limit : nat) : result ItemRepositoryError (list DeltaChange) :=
  match fuel with
  | O => Err Internal
  | S fuel' =>
      let? page := delta st after limit in
      if dp_has_more page then
        let? later := follow fuel' st (dp_watermark page) limit in Ok (dp_changes page ++ later)
      else Ok (dp_changes page)
  end.

Lemma follow_units st d t limit fuel :
  log_ok st → st_changes st = concat (d ++ t) → units_ok (d ++ t) →
  1 ≤ limit → (N.of_nat (limit + MAX_ITEM_CHANGE_GROUP_SIZE) <= usize_max)%N → length t < fuel →
  follow fuel st (N.of_nat (length (concat d))) limit = Ok (mc_change <$> concat t).
Proof.
  intros Hlog Hchanges Hunits Hlimit Husize. revert d t Hchanges Hunits. induction fuel as [|fuel IH]; intros d t Hchanges Hunits Hfuel; [lia|].
  destruct (page_spec st d t limit Hlog Hchanges Hunits Hlimit Husize) as (t1 & t2 & page & -> & Hsome & Hdelta & Hrows & Hmark & Hmore & _).
  cbn [follow]. rewrite Hdelta. cbn [rbind]. rewrite Hrows, Hmark. destruct (dp_has_more page) eqn:Hm.
  - assert (t2 ≠ []) as Hne by (by apply Hmore). rewrite app_assoc in Hchanges, Hunits. rewrite (IH (d ++ t1) t2); [|done..|].
    + cbn [rbind]. by rewrite concat_app, fmap_app.
    + assert (t1 ≠ []) as Hne1 by (apply Hsome; by destruct t1, t2). rewrite length_app in Hfuel. destruct t1; [done|]. cbn in Hfuel. lia.
  - assert (t2 = []) as ->; [|by rewrite app_nil_r]. destruct t2 as [|u t2]; [done|]. assert (u :: t2 ≠ []) as Hne by done. apply Hmore in Hne. congruence.
Qed.

Lemma units_few units : (∀ u, u ∈ units → unit_ok u) → length units ≤ length (concat units).
Proof.
  induction units as [|u units IH]; intros Hall; [done|]. cbn. rewrite length_app.
  assert (u ≠ []) by (apply un_rows, Hall; by left). assert (length units ≤ length (concat units)) by (apply IH; intros v Hv; apply Hall; by right).
  destruct u; [done|cbn; lia].
Qed.

(** A client that follows a log that can be delivered, from the start, receives
    it all. *)
Lemma follow_all st limit :
  log_ok st → deliverable (st_changes st) → 1 ≤ limit → (N.of_nat (limit + MAX_ITEM_CHANGE_GROUP_SIZE) <= usize_max)%N →
  follow (S (length (st_changes st))) st 0 limit = Ok (mc_change <$> st_changes st).
Proof.
  intros Hlog (units & Hunits & Hchanges) Hlimit Husize.
  rewrite Hchanges at 2. apply (follow_units st [] units); [done..|].
  rewrite Hchanges. pose proof (units_few units (us_each _ Hunits)). lia.
Qed.
End paging.
