(* ===== verification/Groups.v ===== *)
(** * Groups: the change log of a reachable store can be delivered

    A write of ItemStore logs its item and the refreshed parents in one atomic
    group, and what the completion policy did in further groups of bounded size.
    With fresh group identifiers the log is a sequence of whole groups, so the
    pages of Delta never fail, and clients that follow them know the items. *)
From S2P Require Import Prelude Text Platform Civil Domain Rrule Decimal Progress Completion Session Lease ItemDomain CompletionPolicy ItemStore ItemGraph Effects Repository ItemSamples Versions Delta Paging.

Section groups.
Context `{ItemFormats}.

(** ** Rows *)

Definition in_group (g : Uuid) (rows : list MemoryChange) : Prop := ∀ c, c ∈ rows → mc_change_group_id c = Some g.

(** The log grew by rows of one group. *)
Definition grows (g : Uuid) (bound : nat) (st st' : ItemState) : Prop :=
  ∃ rows, st_changes st' = st_changes st ++ rows ∧ in_group g rows ∧ length rows ≤ bound.

Lemma append_grows st st0 g change st' :
  st_changes st0 = st_changes st → append_change st0 (Some g) change = Ok st' → grows g 1 st st'.
Proof.
  intros Heq (_ & _ & _ & Hc)%append_change_Ok. eexists. rewrite Hc, Heq. split; [done|]. split; [|done].
  by intros c ->%list_elem_of_singleton.
Qed.

Lemma grows_trans g n m st1 st2 st3 : grows g n st1 st2 → grows g m st2 st3 → grows g (n + m) st1 st3.
Proof.
  intros (r1 & H1 & Hg1 & Hn) (r2 & H2 & Hg2 & Hm). exists (r1 ++ r2). rewrite H2, H1, app_assoc. split; [done|].
  rewrite length_app. split; [|lia]. intros c [Hc|Hc]%elem_of_app; auto.
Qed.

Lemma length_sort_dedup_N l : length (sort_dedup_N l) ≤ length l.
Proof.
  apply submseteq_length, NoDup_submseteq; [apply NoDup_sort_dedup_N|]. intros x. by rewrite elem_of_sort_dedup_N.
Qed.

Lemma refresh_parents_grows st parents now g st' : refresh_parents st parents now g = Ok st' → grows g (length parents) st st'.
Proof.
  intros Hfold. assert (length (sort_dedup_N (omap id parents)) ≤ length parents) as Hlen.
  { etrans; [apply length_sort_dedup_N|]. clear. induction parents as [|[p|] ps IH]; cbn; lia. }
  assert (grows g (length (sort_dedup_N (omap id parents))) st st') as (rows & Hc & Hg & Hn); [|exists rows; split; [done|]; split; [done|lia]].
  unfold refresh_parents in Hfold. revert Hfold. generalize (sort_dedup_N (omap id parents)). clear Hlen parents.
  intros ps. revert st. induction ps as [|p ps IH]; intros st Hfold.
  - injection Hfold as <-. exists []. rewrite app_nil_r. split; [done|]. split; [by intros c ?%elem_of_nil|done].
  - cbn [foldM] in Hfold. apply rbind_ok in Hfold as (mid & Hmid & Hfold). apply IH in Hfold.
    apply rbind_ok in Hmid as (parent & _ & Hmid). apply rbind_ok in Hmid as (fresh & _ & Hmid).
    apply (append_grows st) in Hmid; [|done]. by apply (grows_trans g 1 (length ps) st mid).
Qed.

Context `{Platform, Civil, !SchedulingMetadata}.

(** A mutation logs between one and three rows of its group. *)
Lemma effect_of_grows clock now g request st st' answer :
  effect_of clock now g request st = Ok (st', answer) →
  ∃ rows, st_changes st' = st_changes st ++ rows ∧ in_group g rows ∧ rows ≠ [] ∧ length rows ≤ 3.
Proof.
  intros (change & mid & parents & at_ & Hs & Hr%refresh_parents_grows & Hlen)%effect_of_stored.
  apply append_change_Ok in Hs as (_ & _ & _ & Hc). destruct Hr as (rows & Hrows & Hg & Hn). rewrite Hrows, Hc. cbn [st_changes with_store_items].
  eexists. rewrite <-app_assoc. split; [done|]. split; [|split; [done|cbn; lia]].
  intros c [Hc'|Hc']%elem_of_cons; [by rewrite Hc'|by apply Hg].
Qed.

Context `{!CompletionDigest, !ChangeLength}.

(** ** Effects *)

Lemma bytes_of_snoc rows row : bytes_of_changes (rows ++ [row]) = (bytes_of_changes rows + change_bytes row)%N.
Proof.
  unfold bytes_of_changes. rewrite foldr_app. cbn. rewrite N.add_0_r.
  induction rows as [|r rows IH]; cbn; [lia|]. rewrite IH. lia.
Qed.

Lemma group_unit_ok g rows :
  in_group g rows → rows ≠ [] → length rows ≤ MAX_ITEM_CHANGE_GROUP_SIZE →
  (∀ c, c ∈ rows → is_Some (change_length (mc_change c))) → (bytes_of_changes rows <= MAX_ITEM_DELTA_PAGE_PAYLOAD_BYTES)%N →
  unit_ok rows ∧ unit_id rows = Some g.
Proof.
  intros Hg Hne Hlen Henc Hbytes. assert (unit_id rows = Some g) as Hid by (destruct rows; [done|]; apply Hg; by left).
  split; [|done]. split; try done; [|by rewrite Hid]. intros c Hc. by rewrite Hid, Hg.
Qed.

(** Units whose groups are fresh identifiers, each used once *)
Definition fresh_units (fresh : nat → Uuid) (units : list (list MemoryChange)) (ks : list nat) : Prop :=
  (∀ u, u ∈ units → unit_ok u) ∧ unit_id <$> units = (λ k, Some (fresh k)) <$> ks ∧ NoDup ks.

Lemma fresh_units_snoc fresh units ks rows k :
  fresh_units fresh units ks → unit_ok rows → unit_id rows = Some (fresh k) → k ∉ ks → fresh_units fresh (units ++ [rows]) (ks ++ [k]).
Proof.
  intros (Heach & Hids & Hnd) Hrows Hid Hk. split; [|split].
  - intros u [Hu| ->]%elem_of_last; [by apply Heach|done].
  - rewrite !fmap_app, Hids. cbn. by rewrite Hid.
  - apply NoDup_app. split; [done|]. split; [|apply NoDup_singleton]. intros x Hx ->%list_elem_of_singleton. done.
Qed.

(** The rows logged by the loop over the effects: whole groups, and the rows of
    the current one. *)
Record effect_rows (fresh : nat → Uuid) (st : ItemState) (loop : EffectLoop) (units : list (list MemoryChange)) (ks : list nat)
    (current : list MemoryChange) : Prop := {
  er_changes : st_changes (el_state loop) = st_changes st ++ concat units ++ current;
  er_units : fresh_units fresh units ks;
  er_before : ∀ k, k ∈ ks → k < el_group loop;
  er_current : in_group (fresh (el_group loop)) current;
  er_count : length current = el_count loop ∧ el_count loop ≤ MAX_ITEM_CHANGE_GROUP_SIZE;
  er_bytes : bytes_of_changes current = el_bytes loop ∧ (el_bytes loop <= MAX_ITEM_DELTA_PAGE_PAYLOAD_BYTES)%N;
  er_encoded : ∀ c, c ∈ current → is_Some (change_length (mc_change c))
}.

(** Closing the current group *)
Lemma close_group fresh st loop units ks current :
  effect_rows fresh st loop units ks current → current ≠ [] →
  fresh_units fresh (units ++ [current]) (ks ++ [el_group loop]) ∧ (∀ k, k ∈ ks ++ [el_group loop] → k < S (el_group loop)).
Proof.
  intros [_ Hunits Hbefore Hcur [Hlen Hmax] [Hb Hbmax] Henc] Hne.
  destruct (group_unit_ok _ _ Hcur Hne) as [Hok Hid]; [lia|done|lia|]. split.
  - apply fresh_units_snoc; try done. intros Hk%Hbefore. lia.
  - intros k [Hk%Hbefore| ->]%elem_of_last; lia.
Qed.

Lemma apply_effect_rows fresh st loop e loop' units ks current :
  effect_rows fresh st loop units ks current → apply_effect fresh loop e = Ok loop' →
  ∃ units' ks' current', effect_rows fresh st loop' units' ks' current' ∧ current' ≠ [].
Proof.
  intros Hrows Happly. pose proof Hrows as [Hc Hunits Hbefore Hcur [Hlen Hmax] [Hb Hbmax] Henc].
  unfold apply_effect in Happly. destruct (_ || _); [done|].
  apply rbind_ok in Happly as (len & Hlength%ok_or_ok & Happly). destruct (N.ltb_spec MAX_ITEM_CHANGE_GROUP_PAYLOAD_BYTES len) as [|Hfits]; [done|].
  apply rbind_ok in Happly as (st1 & Happend%map_err_ok & [= <-]). apply append_change_Ok in Happend as (_ & _ & _ & Hc').
  cbn [st_changes with_effect st_next_sequence] in Hc'. unfold MAX_ITEM_CHANGE_GROUP_PAYLOAD_BYTES in *.
  destruct ((el_count loop =? MAX_ITEM_CHANGE_GROUP_SIZE)%nat || (MAX_ITEM_DELTA_PAGE_PAYLOAD_BYTES <? el_bytes loop + len)%N) eqn:Hfull.
  - assert (current ≠ []) as Hne.
    { intros ->. cbn in Hlen, Hb. apply orb_true_iff in Hfull as [Heq%Nat.eqb_eq|Hlt%N.ltb_lt]; [unfold MAX_ITEM_CHANGE_GROUP_SIZE in Heq; lia|lia]. }
    destruct (close_group _ _ _ _ _ _ Hrows Hne) as [Hclosed Hless].
    exists (units ++ [current]), (ks ++ [el_group loop]). eexists [_]. split; [|done]. split; cbn [el_state el_group el_count el_bytes record_effect st_changes].
    + rewrite Hc', Hc, concat_app. cbn. rewrite app_nil_r, <-!app_assoc. reflexivity.
    + exact Hclosed.
    + exact Hless.
    + by intros c ->%list_elem_of_singleton.
    + unfold MAX_ITEM_CHANGE_GROUP_SIZE. cbn. lia.
    + cbn. unfold change_bytes. cbn. rewrite Hlength. cbn. lia.
    + intros c ->%list_elem_of_singleton. by eexists.
  - apply orb_false_iff in Hfull as [Hcount%Nat.eqb_neq Hbytes%N.ltb_ge].
    exists units, ks. eexists (current ++ [_]). split; [|by destruct current]. split; cbn [el_state el_group el_count el_bytes record_effect st_changes].
    + rewrite Hc', Hc, <-!app_assoc. reflexivity.
    + exact Hunits.
    + exact Hbefore.
    + intros c [Hin| ->]%elem_of_last; [by apply Hcur|done].
    + rewrite length_app. cbn. lia.
    + rewrite bytes_of_snoc. unfold change_bytes. cbn. rewrite Hlength. cbn. lia.
    + intros c [Hin| ->]%elem_of_last; [by apply Henc|by eexists].
Qed.

(** What the completion policy logs: whole groups of fresh identifiers. *)
Lemma completion_units fresh st plan st' :
  apply_completion_memory fresh st plan = Ok st' →
  ∃ units ks, st_changes st' = st_changes st ++ concat units ∧ fresh_units fresh units ks.
Proof.
  unfold apply_completion_memory. intros (loop & Hfold & [= <-])%rbind_ok.
  assert (∃ units ks current, effect_rows fresh st loop units ks current) as (units & ks & current & Hrows).
  { revert Hfold. apply (foldM_inv _ (λ _ loop, ∃ units ks current, effect_rows fresh st loop units ks current)).
    - exists [], [], []. split; cbn [el_state el_group el_count el_bytes]; try (by intros ? ?%elem_of_nil).
      + by rewrite app_nil_r.
      + split; [by intros u ?%elem_of_nil|]. split; [done|constructor].
      + split; [done|lia].
      + split; [done|lia].
    - intros p e q l l' _ (units & ks & current & Hr) Hstep. destruct (apply_effect_rows _ _ _ _ _ _ _ _ Hr Hstep) as (u' & k' & c' & ? & _); eauto. }
  destruct current as [|c current].
  - exists units, ks. destruct Hrows as [Hc Hunits _ _ _ _ _]. rewrite Hc, app_nil_r. done.
  - destruct (close_group _ _ _ _ _ _ Hrows) as [Hclosed _]; [done|]. eexists _, _. split; [|exact Hclosed].
    rewrite (er_changes _ _ _ _ _ _ Hrows), concat_app. cbn. by rewrite app_nil_r.
Qed.

(** ** Steps *)

(** What a write logs: the rows of its mutation, and those of the policy. *)
Lemma mutate_rows looked_up clock now fresh guard request context st :
  st_changes (mutate_with_completion looked_up clock now fresh guard request context st).1 = st_changes st ∨
  ∃ rows units ks, st_changes (mutate_with_completion looked_up clock now fresh guard request context st).1 =
      st_changes st ++ rows ++ concat units ∧
    in_group (fresh 0) rows ∧ rows ≠ [] ∧ length rows ≤ 3 ∧ fresh_units (λ k, fresh (S k)) units ks.
Proof.
  unfold mutate_with_completion. destruct (replay_item looked_up st context) as [st0 found] eqn:Hreplay.
  apply replay_item_spec in Hreplay as (_ & Hc & _). rewrite <-Hc. clear Hc. destruct found; [by left|].
  destruct (map_err _ _) as [execution|]; [|by left].
  destruct (request_item _ _ _ _ _ _ _) as [[next answer]|] eqn:Hreq; [|by left]. cbn. unfold request_item, commit_mutation in Hreq.
  apply rbind_ok in Hreq as ([mid answer'] & Hmutation%mutation_of_answering & Hreq).
  destruct (im_replayed answer') eqn:Hreplayed; [injection Hreq as <- _; by left|].
  apply rbind_ok in Hreq as (plan & _ & Hreq). apply rbind_ok in Hreq as (last & Happly%map_err_ok & [= <- _]). right.
  apply answering_spec in Hmutation as (st1 & mid' & item & Hreplay & Heff & -> & _); [|done].
  apply replay_item_spec in Hreplay as (_ & Hc & _). apply effect_of_grows in Heff as (rows & Hrows & Hg & Hne & Hlen).
  apply completion_units in Happly as (units & ks & Hunits & Hfresh). exists rows, units, ks. rewrite Hunits, app_assoc. cbn. by rewrite Hrows, Hc.
Qed.

Lemma put_completion_rows fresh guard now item_id command st st' answer :
  put_completion fresh guard now item_id command st = Ok (st', answer) →
  ∃ units ks, st_changes st' = st_changes st ++ concat units ∧ fresh_units fresh units ks.
Proof.
  unfold put_completion. destruct (completion_receipt st item_id command) as [found|].
  { intros (m & _ & [= <- _])%rbind_ok. exists [], []. rewrite app_nil_r. split; [done|]. split; [by intros ? ?%elem_of_nil|].
    split; [done|constructor]. }
  intros ([] & _ & Hput)%rbind_ok. apply rbind_ok in Hput as (execution & _ & Hput). unfold commit_completion in Hput.
  apply rbind_ok in Hput as (plan & _ & Hput). apply rbind_ok in Hput as (next & Happly & Hput).
  apply rbind_ok in Hput as (plan' & _ & Hput). apply rbind_ok in Hput as (completion & _ & [= <- _]).
  by apply completion_units in Happly.
Qed.

Definition log_groups (st : ItemState) : list Uuid := omap mc_change_group_id (st_changes st).

(** New identifiers: different, and not in the log. *)
Definition fresh_for (st : ItemState) (fresh : nat → Uuid) : Prop := (∀ i j, fresh i = fresh j → i = j) ∧ ∀ k, fresh k ∉ log_groups st.

(** The steps of Versions, with new identifiers for the groups. *)
Inductive fresh_step : ItemState → ItemState → Prop :=
| fresh_write looked_up clock now fresh guard request context st :
    request_valid request → fresh_for st fresh →
    fresh_step st (mutate_with_completion looked_up clock now fresh guard request context st).1
| fresh_completion fresh guard now item_id command st st' answer :
    fresh_for st fresh → put_completion fresh guard now item_id command st = Ok (st', answer) → fresh_step st st'.

Lemma fresh_steps_items st st' : rtc fresh_step st st' → rtc item_step st st'.
Proof.
  induction 1 as [|st mid st' Hstep _ IH]; [done|]. eapply rtc_l; [|exact IH]. destruct Hstep; [by apply step_write|by eapply step_completion].
Qed.

(** A change that can be encoded in a third of a page. *)
Definition short_change (c : MemoryChange) : Prop :=
  ∃ n, change_length (mc_change c) = Some n ∧ (3 * n <= MAX_ITEM_DELTA_PAGE_PAYLOAD_BYTES)%N.

Lemma short_rows_ok g rows :
  in_group g rows → rows ≠ [] → length rows ≤ 3 → (∀ c, c ∈ rows → short_change c) → unit_ok rows ∧ unit_id rows = Some g.
Proof.
  intros Hg Hne Hlen Hshort. apply group_unit_ok; try done.
  - unfold MAX_ITEM_CHANGE_GROUP_SIZE. lia.
  - intros c Hc. destruct (Hshort c Hc) as (n & Hn & _). by eexists.
  - assert (∀ l, (∀ c, c ∈ l → short_change c) → (3 * bytes_of_changes l <= N.of_nat (length l) * MAX_ITEM_DELTA_PAGE_PAYLOAD_BYTES)%N) as Hsum.
    { clear. induction l as [|c l IH]; intros Hall; [done|].
      assert (3 * bytes_of_changes l <= N.of_nat (length l) * MAX_ITEM_DELTA_PAGE_PAYLOAD_BYTES)%N as Hl by (apply IH; intros d Hd; apply Hall; by right).
      destruct (Hall c) as (n & Hn & Hle); [by left|].
      assert (change_bytes c = n) as Hb by (unfold change_bytes; by rewrite Hn).
      change (bytes_of_changes (c :: l)) with (change_bytes c + bytes_of_changes l)%N. cbn [length].
      rewrite Hb, Nat2N.inj_succ, N.mul_succ_l. lia. }
    specialize (Hsum rows Hshort).
    assert (N.of_nat (length rows) * MAX_ITEM_DELTA_PAGE_PAYLOAD_BYTES <= 3 * MAX_ITEM_DELTA_PAGE_PAYLOAD_BYTES)%N
      by (apply N.mul_le_mono_r; lia). lia.
Qed.

Lemma fresh_units_ids fresh units ks : fresh_units fresh units ks → omap unit_id units = fresh <$> ks.
Proof.
  intros (_ & Hids & _). revert ks Hids. induction units as [|u units IH]; intros [|k ks] Hids; try done.
  cbn in Hids. injection Hids as Hu Hrest. cbn. rewrite Hu. f_equal. by apply IH.
Qed.

(** A step appends whole groups that were not in the log. *)
Lemma fresh_step_units st st' :
  fresh_step st st' → (∀ c, c ∈ st_changes st' → short_change c) →
  ∃ units, st_changes st' = st_changes st ++ concat units ∧ units_ok units ∧ ∀ g, g ∈ omap unit_id units → g ∉ log_groups st.
Proof.
  intros Hstep Hshort.
  assert (st_changes st' = st_changes st → ∃ units, st_changes st' = st_changes st ++ concat units ∧ units_ok units ∧
    ∀ g, g ∈ omap unit_id units → g ∉ log_groups st) as Hsame.
  { intros Heq. exists []. rewrite app_nil_r. split; [done|]. split; [split; [by intros ? ?%elem_of_nil|constructor]|by intros ? ?%elem_of_nil]. }
  destruct Hstep as [looked_up clock now fresh guard request context st _ [Hinj Hnew]|fresh guard now item_id command st st' answer [Hinj Hnew] Hput].
  - destruct (mutate_rows looked_up clock now fresh guard request context st) as [Heq|(rows & units & ks & Hc & Hg & Hne & Hlen & Hunits)]; [by apply Hsame|].
    pose proof (fresh_units_ids _ _ _ Hunits) as Hids. destruct Hunits as (Heach & _ & Hnd).
    destruct (short_rows_ok (fresh 0) rows) as [Hok Hid]; [done..| |].
    { intros c Hin. apply Hshort. rewrite Hc. set_solver. }
    assert (omap unit_id (rows :: units) = fresh 0 :: omap unit_id units) as Hcons by (cbn [omap list_omap]; by rewrite Hid).
    exists (rows :: units). split; [done|]. rewrite Hcons. split; [split|].
    + intros u [->|Hu]%elem_of_cons; [done|by apply Heach].
    + rewrite Hcons. apply NoDup_cons. rewrite Hids. split.
      * intros (k & Hk & _)%list_elem_of_fmap. by apply Hinj in Hk.
      * apply NoDup_fmap_2_strong; [|done]. intros i j _ _ Heq%Hinj. lia.
    + intros g [->|Hin]%elem_of_cons; [apply Hnew|]. rewrite Hids in Hin.
      apply list_elem_of_fmap in Hin as (k & -> & _). apply Hnew.
  - destruct (put_completion_rows _ _ _ _ _ _ _ _ Hput) as (units & ks & Hc & Hunits). pose proof (fresh_units_ids _ _ _ Hunits) as Hids.
    destruct Hunits as (Heach & _ & Hnd). exists units. split; [exact Hc|]. rewrite Hids. split; [split; [done|]|].
    + rewrite Hids. apply NoDup_fmap_2_strong; [|done]. intros i j _ _. apply Hinj.
    + intros g (k & -> & _)%list_elem_of_fmap. apply Hnew.
Qed.

(** From a log of whole groups, steps only append whole groups. *)
Lemma fresh_steps_units st st' d :
  rtc fresh_step st st' → st_changes st = concat d → units_ok d → (∀ c, c ∈ st_changes st' → short_change c) →
  ∃ t, st_changes st' = concat (d ++ t) ∧ units_ok (d ++ t).
Proof.
  intros Hsteps Hd Hunits. revert st' Hsteps. apply (rtc_ind_r (λ st', (∀ c, c ∈ st_changes st' → short_change c) →
    ∃ t, st_changes st' = concat (d ++ t) ∧ units_ok (d ++ t))).
  { intros _. exists []. by rewrite app_nil_r. }
  intros mid st' _ Hstep IH Hshort.
  destruct (fresh_step_units _ _ Hstep Hshort) as (units & Hc & [Heach Hnd] & Hnew).
  destruct IH as (t & Ht & [Heach' Hnd']). { intros c Hin. apply Hshort. rewrite Hc. set_solver. }
  exists (t ++ units). rewrite !app_assoc, concat_app, Hc, Ht. split; [done|]. split.
  - intros u [Hu|Hu]%elem_of_app; [by apply Heach'|by apply Heach].
  - rewrite omap_app. apply NoDup_app. split; [done|]. split; [|done]. intros g Hg Hg'. apply (Hnew g Hg').
    apply list_elem_of_omap in Hg as (u & Hu & Hid). unfold log_groups. apply list_elem_of_omap. pose proof (un_group _ (Heach' u Hu)) as Hgroup.
    destruct u as [|c u]; [done|]. exists c. rewrite Ht. split; [apply elem_of_concat; exists (c :: u); split; [done|by left]|].
    rewrite (Hgroup c); [done|by left].
Qed.

Lemma reachable_log_deliverable st :
  rtc fresh_step empty_items st → (∀ c, c ∈ st_changes st → short_change c) → deliverable (st_changes st).
Proof.
  intros Hsteps Hshort. destruct (fresh_steps_units _ _ [] Hsteps) as (t & Ht & Hunits); [done| |done|by exists t].
  split; [by intros ? ?%elem_of_nil|constructor].
Qed.

(** C23. A client that follows the change log of a reachable store from the start, in
    pages of any size, ends, receives the whole log, and then knows the stored
    items: the active ones as they are, and of the others that they are in the
    trash.  The store is reached by writes whose change groups have identities of
    their own, and no change takes more than a third of the bytes of a page. *)
Theorem clients_converge st limit :
  rtc fresh_step empty_items st → (∀ c, c ∈ st_changes st → short_change c) →
  1 ≤ limit → (N.of_nat (limit + MAX_ITEM_CHANGE_GROUP_SIZE) <= usize_max)%N →
  ∃ received, follow (S (length (st_changes st))) st 0 limit = Ok received ∧
    received = mc_change <$> st_changes st ∧ latest received = change_of <$> st_items st.
Proof.
  intros Hsteps Hshort Hlimit Husize. pose proof (reachable_log_deliverable _ Hsteps Hshort) as Hdel.
  destruct (item_steps_spec empty_items st store_ok_empty (fresh_steps_items _ _ Hsteps)) as [Hok _].
  exists (mc_change <$> st_changes st). split; [|split; [done|apply (lo_latest _ (so_log _ _ Hok))]].
  apply follow_all; [apply Hok|done..].
Qed.
End groups.

(** ** Witnesses *)

#[local] Existing Instance utc_platform.
#[local] Existing Instance gregorian.

Lemma sample_fresh_for st : (∀ g, g ∈ log_groups st → (g < 100 + 10 * st_next_sequence st)%N) → fresh_for st (sample_fresh st).
Proof.
  intros Hall. split; unfold sample_fresh; [lia|]. intros k Hk%Hall. lia.
Qed.

Lemma sample_created_fresh input key st :
  text_fields (ni_fields input) → forallb (λ g, (g <? 100 + 10 * st_next_sequence st)%N) (log_groups st) = true →
  rtc fresh_step st (sample_created input key st).
Proof.
  intros Htext Hgroups. unfold sample_created. destruct (sample_item input) as [item|] eqn:Hitem; [|apply rtc_refl].
  apply rtc_once, fresh_write; [by exists input, sample_now|]. apply sample_fresh_for. intros g Hg%list_elem_of_In.
  apply N.ltb_lt. by apply (proj1 (forallb_forall _ _) Hgroups).
Qed.

Lemma sample_store_fresh : rtc fresh_step empty_items sample_store.
Proof.
  unfold sample_store. do 3 (etrans; [|apply sample_created_fresh; [done|vm_compute; reflexivity]]). apply rtc_refl.
Qed.

Lemma sample_changes_short c : short_change c.
Proof. exists 1000%N. split; [done|]. unfold MAX_ITEM_DELTA_PAGE_PAYLOAD_BYTES. lia. Qed.

Lemma clients_converge_witness :
  ∃ received, follow 6 sample_store 0 2 = Ok received ∧ length received = 5 ∧ latest received = change_of <$> st_items sample_store.
Proof.
  assert (length (st_changes sample_store) = 5) as Hlen by (vm_compute; reflexivity).
  destruct (clients_converge sample_store 2 sample_store_fresh (λ c _, sample_changes_short c)) as (received & Hfollow & Hall & Hlatest);
    [lia|unfold usize_max, u64_max, MAX_ITEM_CHANGE_GROUP_SIZE; lia|].
  rewrite Hlen in Hfollow. exists received. split; [exact Hfollow|]. split; [|exact Hlatest]. by rewrite Hall, length_fmap.
Defined.
