(* ===== verification/Snapshots.v ===== *)
(** * Snapshots: bootstrapped clients know the items

    A snapshot of Bootstrap holds the items and the recent trash of one state of
    the repository.  Its pages deliver it whole, and a client that goes on with
    the change log from the head of the snapshot knows the items as they are
    then; only trash older than the retention can be missing. *)
From S2P Require Import Prelude Text Platform Civil Domain Forest Rrule Decimal Progress Completion Session Lease ItemDomain CompletionPolicy ItemStore ItemForest ItemGraph Effects Repository ItemSamples Versions Delta Paging Groups Bootstrap.
Import ItemRepositoryError.

Section snapshots.
Context `{ItemFormats, !ChangeLength}.

(** ** What a snapshot holds *)

(** Members that fit in a page *)
Definition fits (change : DeltaChange) : Prop := ∃ n, change_length change = Some n ∧ (n <= MAX_ITEM_DELTA_PAGE_PAYLOAD_BYTES)%N.

Lemma capture_item_spec cutoff st item st' :
  capture_item cutoff st item = Ok st' →
  st'.1.*2 = st.1.*2 ++ (match member_of cutoff item with Some c => [c] | None => [] end) ∧
  (∀ c, member_of cutoff item = Some c → fits c).
Proof.
  unfold capture_item. destruct (member_of cutoff item) as [change|]; [|intros [= <-]; by rewrite app_nil_r].
  destruct (_ <? _)%nat; [done|]. intros (size & Hsize%ok_or_ok & Hc)%rbind_ok. apply rbind_ok in Hc as (bytes & _ & Hc).
  destruct (_ || _) eqn:Hbad; [done|]. injection Hc as <-. cbn. rewrite fmap_app. split; [done|]. intros c [= <-].
  apply orb_false_iff in Hbad as [_ Hbad%N.ltb_ge]. by exists size.
Qed.

Lemma capture_spec id items head now snapshot :
  capture id items head now = Ok snapshot →
  mb_id snapshot = id ∧ mb_head snapshot = head ∧ mb_expires_at snapshot = (now + BOOTSTRAP_TTL)%Z ∧
  mb_changes snapshot ≡ₚ omap (member_of (now - BOOTSTRAP_TRASH_RETENTION)%Z) items ∧
  (∀ c, c ∈ mb_changes snapshot → fits c).
Proof.
  unfold capture. intros ([members bytes] & Hfold & Hc)%rbind_ok. apply rbind_ok in Hc as (total & _ & [= <-]). cbn.
  set (cutoff := (now - BOOTSTRAP_TRASH_RETENTION)%Z) in *. split; [done|]. split; [done|]. split; [done|].
  assert (members.*2 = omap (member_of cutoff) items ∧ (∀ c, c ∈ members.*2 → fits c)) as [Hmembers Hfits].
  { pose (I := λ (l : list Item) (st : list (Uuid * DeltaChange) * N), st.1.*2 = omap (member_of cutoff) l ∧ (∀ c, c ∈ st.1.*2 → fits c)).
    assert (I items (members, bytes)) as [? ?]; [|done]. revert Hfold. apply foldM_inv; [split; [done|by intros c ?%elem_of_nil]|].
    intros p item q st st' _ [Hst Hfits] (Heq & Hnew)%capture_item_spec. split.
    - rewrite Heq, Hst, omap_app. cbn. by destruct (member_of cutoff item).
    - intros c. rewrite Heq. intros [Hc|Hc]%elem_of_app; [by apply Hfits|]. destruct (member_of cutoff item) as [c'|]; [|by apply elem_of_nil in Hc].
      apply list_elem_of_singleton in Hc as ->. by apply Hnew. }
  rewrite <-Hmembers, sort_by_perm. split; [done|]. intros c. rewrite sort_by_perm. apply Hfits.
Qed.

(** ** Pages *)

Lemma page_rows_fit changes bytes :
  (∀ c, c ∈ changes → fits c) → ∃ n, page_rows changes bytes = Ok n ∧ n ≤ length changes ∧
    (changes ≠ [] → bytes = 0%N → 0 < n).
Proof.
  revert bytes. induction changes as [|change changes IH]; intros bytes Hfits; [by exists 0|].
  destruct (Hfits change) as (size & Hsize & Hle); [by left|]. cbn [page_rows]. unfold encoded_size. rewrite Hsize. cbn [ok_or rbind].
  destruct (N.ltb_spec MAX_ITEM_DELTA_PAGE_PAYLOAD_BYTES size); [lia|].
  destruct (N.ltb_spec MAX_ITEM_DELTA_PAGE_PAYLOAD_BYTES (bytes + size)).
  - exists 0. split; [done|]. split; [lia|]. intros _ ->. lia.
  - destruct (IH (bytes + size)%N) as (n & -> & Hn & _); [intros c Hc; apply Hfits; by right|]. exists (S n). cbn. split; [done|]. lia.
Qed.

(** A page of a snapshot delivers the next members, and goes on after them. *)
Lemma bootstrap_page_next snapshot after :
  (∀ c, c ∈ mb_changes snapshot → fits c) → after < length (mb_changes snapshot) ∨ after = 0 →
  ∃ page, bootstrap_page snapshot after = Ok page ∧ bg_head page = mb_head snapshot ∧
    (bg_continuation page = None ∧ bg_changes page = drop after (mb_changes snapshot) ∨
     ∃ next, bg_continuation page = Some {| bp_snapshot_id := mb_id snapshot; bp_after := next |} ∧
       after < next < length (mb_changes snapshot) ∧ bg_changes page ++ drop next (mb_changes snapshot) = drop after (mb_changes snapshot)).
Proof.
  intros Hfits Hafter. unfold bootstrap_page. set (changes := mb_changes snapshot) in *.
  assert ((length changes <? after)%nat || ((after =? length changes)%nat && negb (after =? 0)%nat) = false) as ->.
  { destruct (Nat.ltb_spec (length changes) after); [lia|]. destruct (Nat.eqb_spec after (length changes)); [|done].
    by destruct (Nat.eqb_spec after 0); [|lia]. }
  unfold page_prefix. destruct (page_rows_fit (take MAX_BOOTSTRAP_PAGE_MEMBERS (drop after changes)) 0) as (n & -> & Hn & Hpos).
  { intros c (i & Hi & _)%elem_of_take. apply Hfits. apply list_elem_of_lookup_2 in Hi. apply (subseteq_drop after _ _ Hi). }
  rewrite length_take, length_drop in Hn. eexists. split; [reflexivity|]. split; [done|]. cbn [rbind bg_continuation bg_changes].
  destruct (Nat.ltb_spec (after + n) (length changes)) as [Hmore|Hend].
  - right. exists (after + n). split; [done|]. split.
    + assert (0 < n); [|lia]. apply Hpos; [|done]. intros Hnil%(f_equal length). rewrite length_take, length_drop in Hnil.
      unfold MAX_BOOTSTRAP_PAGE_MEMBERS in Hnil. cbn [length] in Hnil. lia.
    + by rewrite <-drop_drop, take_drop.
  - left. split; [done|]. rewrite take_ge; [done|]. rewrite length_drop. lia.
Qed.

(** ** What a client knows *)

Lemma apply_changes_lookup known changes id :
  foldl apply_change known changes !! id =
  match last (filter (λ c, change_id c = id) changes) with Some c => Some c | None => known !! id end.
Proof.
  induction changes as [|c changes IH] using rev_ind; [done|]. rewrite foldl_app, filter_app. cbn [foldl]. unfold apply_change at 1.
  destruct (decide (change_id c = id)) as [Heq|Hne].
  - rewrite filter_cons_True by done. cbn. rewrite last_snoc. rewrite <-Heq. apply lookup_insert_eq.
  - rewrite filter_cons_False by done. cbn. rewrite app_nil_r, lookup_insert_ne by done. exact IH.
Qed.

Lemma latest_distinct changes id c :
  NoDup (change_id <$> changes) → c ∈ changes → change_id c = id → latest changes !! id = Some c.
Proof.
  intros Hnd Hc Hid. unfold latest. rewrite apply_changes_lookup.
  assert (∀ d, d ∈ filter (λ c, change_id c = id) changes → d = c) as Hall.
  { intros d [Hd Hin]%list_elem_of_filter. apply list_elem_of_lookup in Hc as [i Hi]. apply list_elem_of_lookup in Hin as [j Hj].
    assert (i = j) as ->; [|congruence].
    apply (NoDup_lookup (change_id <$> changes) i j id); [done|by rewrite list_lookup_fmap, Hi, <-Hid|by rewrite list_lookup_fmap, Hj, <-Hd]. }
  destruct (last _) as [d|] eqn:Hl.
  - f_equal. apply Hall. by apply last_Some_elem_of in Hl.
  - apply last_None in Hl. assert (c ∈ filter (λ c, change_id c = id) changes) as Hin by (by apply list_elem_of_filter).
    rewrite Hl in Hin. by apply elem_of_nil in Hin.
Qed.

Lemma member_of_id cutoff item c : member_of cutoff item = Some c → c = change_of item ∧ change_id c = it_id item.
Proof.
  unfold member_of, change_of. destruct (it_deleted_at item) as [t|]; [destruct (_ <=? _)%Z; [|done]|]; by intros [= <-].
Qed.

Lemma values_ids items : keys_ok items → it_id <$> values items = keys items.
Proof.
  intros Hkeys. unfold values. assert (∀ k, k ∈ keys items → is_Some (items !! k)) as Hks by (intros; by apply elem_of_keys).
  induction (keys items) as [|k ks IH]; [done|]. cbn. destruct (Hks k) as [item Hi]; [by left|]. rewrite Hi. cbn.
  rewrite (Hkeys _ _ Hi). f_equal. apply IH. intros; apply Hks; by right.
Qed.

(** A client with a snapshot knows what it holds of each item. *)
Lemma snapshot_view items changes cutoff id :
  keys_ok items → changes ≡ₚ omap (member_of cutoff) (values items) →
  latest changes !! id = items !! id ≫= member_of cutoff.
Proof.
  intros Hkeys Hperm.
  assert (NoDup (change_id <$> changes)) as Hnd.
  { rewrite Hperm. assert (change_id <$> omap (member_of cutoff) (values items) `sublist_of` it_id <$> values items) as Hsub.
    { clear. induction (values items) as [|item l IH]; [done|]. cbn. destruct (member_of cutoff item) as [c|] eqn:Hc.
      - rewrite !fmap_cons. destruct (member_of_id _ _ _ Hc) as [_ ->]. by apply sublist_skip.
      - by apply sublist_cons. }
    rewrite values_ids in Hsub by done. eapply sublist_NoDup; [|exact Hsub]. apply NoDup_keys. }
  assert (∀ c, c ∈ changes ↔ ∃ k item, items !! k = Some item ∧ member_of cutoff item = Some c) as Helem.
  { intros c. rewrite Hperm, list_elem_of_omap. setoid_rewrite elem_of_values. naive_solver. }
  destruct (items !! id ≫= member_of cutoff) as [c|] eqn:Hc.
  - apply bind_Some in Hc as (item & Hi & Hm). apply latest_distinct; [done|apply Helem; eauto|].
    destruct (member_of_id _ _ _ Hm) as [_ ->]. by apply Hkeys.
  - unfold latest. rewrite apply_changes_lookup. destruct (last _) as [c|] eqn:Hl; [|by rewrite lookup_empty].
    apply last_Some_elem_of, list_elem_of_filter in Hl as [Hid (k & item & Hk & Hm)%Helem].
    destruct (member_of_id _ _ _ Hm) as [_ Hi]. rewrite (Hkeys _ _ Hk) in Hi.
    assert (k = id) as -> by congruence. rewrite Hk in Hc. cbn in Hc. congruence.
Qed.

(** Going on with the log from a snapshot gives the current items. *)
Lemma snapshot_then_log st0 st changes rest cutoff :
  items_ok ∅ (st_items st0) → log_ok st0 → log_ok st → changes ≡ₚ omap (member_of cutoff) (values (st_items st0)) →
  st_changes st = st_changes st0 ++ rest →
  ∀ id, let known := foldl apply_change (latest changes) (mc_change <$> rest) in
    known !! id = change_of <$> st_items st !! id ∨
    known !! id = None ∧ ∃ item t, st_items st !! id = Some item ∧ it_deleted_at item = Some t ∧ (t < cutoff)%Z.
Proof.
  intros Hitems Hlog0 Hlog Hperm Hrest id known. unfold known. rewrite apply_changes_lookup.
  pose proof (lo_latest _ Hlog) as Hl. rewrite Hrest, fmap_app in Hl. unfold latest in Hl. rewrite foldl_app in Hl.
  apply (f_equal (λ m, m !! id)) in Hl. rewrite apply_changes_lookup, lookup_fmap in Hl.
  destruct (last _) as [c|]; [by left|]. fold (latest (mc_change <$> st_changes st0)) in Hl. rewrite (lo_latest _ Hlog0), lookup_fmap in Hl.
  rewrite (snapshot_view (st_items st0) changes cutoff id (io_keys _ _ Hitems) Hperm).
  destruct (st_items st0 !! id) as [item0|]; cbn in Hl |- *; [|by left].
  destruct (member_of cutoff item0) as [c|] eqn:Hm; [left; rewrite <-Hl; f_equal; by apply member_of_id in Hm as [-> _]|].
  right. split; [done|]. destruct (st_items st !! id) as [item|]; [|done]. cbn in Hl. injection Hl as Hl.
  unfold member_of in Hm. unfold change_of in Hl. destruct (it_deleted_at item0) as [t|]; [|done].
  destruct (Z.leb_spec cutoff t); [done|]. destruct (it_deleted_at item) as [t'|] eqn:Hd; [|done]. exists item, t'. split; [done|].
  split; [done|]. injection Hl as _ _ -> _. lia.
Qed.

(** ** The server *)

Context `{Platform, Civil, !SchedulingMetadata, !CompletionDigest}.

(** The repository with the snapshots it keeps, at a time. *)
Record World : Type := {
  wo_items : ItemState;
  wo_snapshots : gmap Uuid MemoryBootstrap;
  wo_now : DateTime
}.

Definition new_world (now : DateTime) : World := {| wo_items := empty_items; wo_snapshots := ∅; wo_now := now |}.

(** Writes, and requests for a page, with a new identifier for the snapshot. *)
Inductive world_step : World → World → Prop :=
| world_write w st now :
    fresh_step (wo_items w) st → (wo_now w <= now)%Z →
    world_step w {| wo_items := st; wo_snapshots := wo_snapshots w; wo_now := now |}
| world_bootstrap w fresh requested now :
    wo_snapshots w !! fresh = None → (wo_now w <= now)%Z →
    world_step w {| wo_items := wo_items w; wo_snapshots := (bootstrap fresh (wo_items w) (wo_snapshots w) requested now).1; wo_now := now |}.

(** A snapshot was captured in a state the store has been in. *)
Definition captured (w : World) (k : Uuid) (snapshot : MemoryBootstrap) : Prop :=
  ∃ st t, rtc fresh_step empty_items st ∧ rtc fresh_step st (wo_items w) ∧ (t <= wo_now w)%Z ∧
    capture k (values (st_items st)) (st_next_sequence st) t = Ok snapshot.

Record world_ok (w : World) : Prop := {
  wk_items : rtc fresh_step empty_items (wo_items w);
  wk_snapshots : ∀ k snapshot, wo_snapshots w !! k = Some snapshot → captured w k snapshot
}.

Lemma bootstrap_kept fresh st snapshots requested now k snapshot :
  (bootstrap fresh st snapshots requested now).1 !! k = Some snapshot →
  snapshots !! k = Some snapshot ∨ capture k (values (st_items st)) (st_next_sequence st) now = Ok snapshot.
Proof.
  unfold bootstrap. set (live := filter _ snapshots).
  assert (live !! k = Some snapshot → snapshots !! k = Some snapshot) as Hlive by (by intros [? _]%map_lookup_filter_Some).
  destruct requested as [requested|]; [by left; apply Hlive|]. destruct (head _); [by left; apply Hlive|].
  destruct (_ <=? _)%nat; [by left; apply Hlive|]. destruct (capture _ _ _ _) as [taken|] eqn:Hc; [|by left; apply Hlive].
  destruct (bootstrap_page taken 0); [|by left; apply Hlive]. cbn. destruct (decide (mb_id taken = k)) as [<-|Hne].
  - rewrite lookup_insert_eq. intros [= ->]. right. pose proof Hc as (Hid & _)%capture_spec. by rewrite Hid.
  - rewrite lookup_insert_ne by done. by left; apply Hlive.
Qed.

(** A snapshot is kept until it expires. *)
Lemma bootstrap_keeps fresh st snapshots requested now k snapshot :
  snapshots !! k = Some snapshot → (now < mb_expires_at snapshot)%Z → snapshots !! fresh = None →
  (bootstrap fresh st snapshots requested now).1 !! k = Some snapshot.
Proof.
  intros Hk Hnow Hfresh. unfold bootstrap. set (live := filter _ snapshots).
  assert (live !! k = Some snapshot) as Hlive by (by apply map_lookup_filter_Some).
  destruct requested as [requested|]; [done|]. destruct (head _); [done|].
  destruct (_ <=? _)%nat; [done|]. destruct (capture _ _ _ _) as [taken|] eqn:Hc; [|done].
  destruct (bootstrap_page taken 0); [|done]. cbn. apply capture_spec in Hc as (-> & _).
  rewrite lookup_insert_ne; [done|]. intros ->. congruence.
Qed.

Lemma world_step_ok w w' : world_ok w → world_step w w' → world_ok w'.
Proof.
  intros [Hitems Hsnaps] Hstep. destruct Hstep as [w st now Hstep Hnow|w fresh requested now Hfresh Hnow]; split; cbn.
  - etrans; [exact Hitems|by apply rtc_once].
  - intros k s (st0 & t & Hr & Hs & Ht & Hc)%Hsnaps. exists st0, t. cbn. split; [done|]. split; [|split; [lia|done]].
    etrans; [exact Hs|by apply rtc_once].
  - done.
  - intros k s [(st0 & t & Hr & Hs & Ht & Hc)%Hsnaps|Hc]%bootstrap_kept.
    + exists st0, t. cbn. split; [done|]. split; [done|]. split; [lia|done].
    + exists (wo_items w), now. split; [done|]. split; [constructor|done].
Qed.

Lemma new_world_ok now : world_ok (new_world now).
Proof. split; [constructor|done]. Qed.

Lemma worlds_ok w w' : world_ok w → rtc world_step w w' → world_ok w'.
Proof. intros Hok. revert w'. apply rtc_ind_r; [done|]. intros v v' _ Hstep Hv. by eapply world_step_ok. Qed.

Lemma worlds_log w w' : rtc world_step w w' → rtc fresh_step (wo_items w) (wo_items w') ∧ (wo_now w <= wo_now w')%Z.
Proof.
  induction 1 as [w|w v w' Hstep _ [IH Hle]]; [done|]. destruct Hstep as [w st now Hstep Hnow|w fresh requested now _ Hnow]; cbn in *.
  - split; [by eapply rtc_l|lia].
  - split; [done|lia].
Qed.

Lemma worlds_keep w w' k snapshot :
  rtc world_step w w' → wo_snapshots w !! k = Some snapshot → (wo_now w' < mb_expires_at snapshot)%Z →
  wo_snapshots w' !! k = Some snapshot.
Proof.
  induction 1 as [w|w v w' Hstep Hsteps IH]; [done|]. intros Hk Hexp. apply IH; [|done].
  apply worlds_log in Hsteps as [_ Hle]. destruct Hstep as [w st now _ _|w fresh requested now Hfresh _]; cbn in *; [done|].
  by apply bootstrap_keeps; [|lia|].
Qed.

(** The log is only appended to. *)
Lemma steps_log st st' : rtc fresh_step st st' → ∃ rest, st_changes st' = st_changes st ++ rest.
Proof.
  induction 1 as [st|st mid st' Hstep _ [rest IH]]; [exists []; by rewrite app_nil_r|].
  assert (∃ rows, st_changes mid = st_changes st ++ rows) as [rows Hrows]; [|exists (rows ++ rest); by rewrite IH, Hrows, app_assoc].
  destruct Hstep as [looked_up clock now fresh guard request context st _ _|fresh guard now item_id command st st2 answer _ Hput].
  - destruct (mutate_rows looked_up clock now fresh guard request context st) as [Heq|(rows & units & ks & Hc & _)]; [|by eexists].
    exists []. by rewrite app_nil_r.
  - destruct (put_completion_rows _ _ _ _ _ _ _ _ Hput) as (units & ks & Hc & _). by eexists.
Qed.

(** ** Clients *)

(** A client that has a page and asks for the following ones, each request in
    the world of that time. *)
Fixpoint follow_pages (worlds : list World) (page : ItemBootstrapPage) : result ItemRepositoryError (list DeltaChange) :=
  match bg_continuation page, worlds with
  | None, _ => Ok (bg_changes page)
  | Some _, [] => Err Internal
  | Some continuation, w :: worlds' =>
      let? next := (bootstrap 0%N (wo_items w) (wo_snapshots w) (Some continuation) (wo_now w)).2 in
      let? later := follow_pages worlds' next in
      Ok (bg_changes page ++ later)
  end.

(** A world in which a snapshot can be read. *)
Definition readable (k : Uuid) (snapshot : MemoryBootstrap) (w : World) : Prop :=
  wo_snapshots w !! k = Some snapshot ∧ (wo_now w < mb_expires_at snapshot)%Z.

Lemma read_page w fresh k snapshot after :
  readable k snapshot w →
  (bootstrap fresh (wo_items w) (wo_snapshots w) (Some {| bp_snapshot_id := k; bp_after := after |}) (wo_now w)).2 = bootstrap_page snapshot after.
Proof.
  intros [Hk Hnow]. unfold bootstrap. cbn [snd bp_snapshot_id bp_after].
  assert (filter (λ p : Uuid * MemoryBootstrap, (wo_now w < mb_expires_at p.2)%Z) (wo_snapshots w) !! k = Some snapshot) as -> by (by apply map_lookup_filter_Some).
  done.
Qed.

(** Following the pages of a snapshot delivers it whole. *)
Lemma follow_pages_all k snapshot after worlds page :
  mb_id snapshot = k → (∀ c, c ∈ mb_changes snapshot → fits c) → after < length (mb_changes snapshot) ∨ after = 0 →
  bootstrap_page snapshot after = Ok page → Forall (readable k snapshot) worlds → length (mb_changes snapshot) ≤ after + length worlds →
  follow_pages worlds page = Ok (drop after (mb_changes snapshot)).
Proof.
  intros Hid Hfits. revert after page. induction worlds as [|w worlds IH]; intros after page Hafter Hpage Hread Hlen;
    destruct (bootstrap_page_next snapshot after Hfits Hafter) as (page' & Hpage' & _ & [[Hend Hrows]|(next & Hnext & Hb & Hrows)]);
    rewrite Hpage in Hpage'; injection Hpage' as <-; cbn [follow_pages].
  - by rewrite Hend, Hrows.
  - cbn in Hlen. lia.
  - by rewrite Hend, Hrows.
  - apply Forall_cons in Hread as [Hw Hread]. rewrite Hnext, Hid, (read_page w 0 k snapshot) by done.
    destruct (bootstrap_page_next snapshot next Hfits) as (page'' & Hpage'' & _); [lia|]. rewrite Hpage''. cbn [rbind].
    rewrite (IH next); [cbn [rbind]; by rewrite Hrows|lia|done|done|]. cbn in Hlen. lia.
Qed.

(** The first page is of a snapshot that is kept from then on. *)
Lemma bootstrap_first fresh st snapshots now later page :
  bootstrap fresh st snapshots None now = (later, Ok page) →
  ∃ k snapshot, later !! k = Some snapshot ∧ (now < mb_expires_at snapshot)%Z ∧ bootstrap_page snapshot 0 = Ok page.
Proof.
  unfold bootstrap. set (live := filter _ snapshots). destruct (head _) as [snapshot|] eqn:Hhead.
  - intros [= <- Hpage]. assert (snapshot ∈ values live) as Hin.
    { assert (snapshot ∈ filter (λ s, mb_head s = st_next_sequence st) (values live)) as [_ Hin]%list_elem_of_filter; [|done].
      destruct (filter _ (values live)) as [|s l]; [done|]. injection Hhead as <-. by left. }
    apply elem_of_values in Hin as [k Hk]. exists k, snapshot. apply map_lookup_filter_Some in Hk as Hk'. by destruct Hk'.
  - destruct (_ <=? _)%nat; [done|]. destruct (capture _ _ _ _) as [taken|] eqn:Hc; [|done].
    destruct (bootstrap_page taken 0) as [page'|] eqn:Hpage; [|done]. intros [= <- <-].
    apply capture_spec in Hc as (Hid & _ & Hexp & _). exists (mb_id taken), taken. rewrite lookup_insert_eq. split; [done|]. split; [|done].
    rewrite Hexp. unfold BOOTSTRAP_TTL, nanos_per_second. lia.
Qed.

(** C24. A client that bootstraps, in a repository that has been through any writes
    and requests before, gets the first page of a snapshot; while that has not
    expired, the other pages follow whatever happens in between, and the change
    log from the head of the snapshot can be followed at any later time.  The
    client then knows every item as it is at that time, except items in the
    trash since before the retention. *)
Theorem bootstrapped_clients_converge start w fresh now later page :
  rtc world_step (new_world start) w → wo_snapshots w !! fresh = None → (wo_now w <= now)%Z →
  bootstrap fresh (wo_items w) (wo_snapshots w) None now = (later, Ok page) →
  let w1 := {| wo_items := wo_items w; wo_snapshots := later; wo_now := now |} in
  ∃ snapshot, later !! mb_id snapshot = Some snapshot ∧ (now < mb_expires_at snapshot)%Z ∧
    ∀ worlds, Forall (λ v, rtc world_step w1 v ∧ (wo_now v < mb_expires_at snapshot)%Z) worlds →
      length (mb_changes snapshot) ≤ length worlds →
      ∃ received, follow_pages worlds page = Ok received ∧
        ∀ w' limit, rtc world_step w1 w' → (∀ c, c ∈ st_changes (wo_items w') → short_change c) →
          1 ≤ limit → (N.of_nat (limit + MAX_ITEM_CHANGE_GROUP_SIZE) <= usize_max)%N →
          ∃ rest, follow (S (length (st_changes (wo_items w')))) (wo_items w') (bg_head page) limit = Ok rest ∧
            ∀ id, let known := foldl apply_change (latest received) rest in
              known !! id = change_of <$> st_items (wo_items w') !! id ∨
              known !! id = None ∧ ∃ item t, st_items (wo_items w') !! id = Some item ∧
                it_deleted_at item = Some t ∧ (t < now - BOOTSTRAP_TRASH_RETENTION)%Z.
Proof.
  intros Hreach Hfresh Hnow Hboot w1. destruct (bootstrap_first _ _ _ _ _ _ Hboot) as (k & snapshot & Hk & Hlive & Hpage).
  assert (world_ok w1) as Hok1.
  { eapply world_step_ok; [exact (worlds_ok _ _ (new_world_ok start) Hreach)|].
    pose proof (world_bootstrap w fresh None now Hfresh Hnow) as Hstep. by rewrite Hboot in Hstep. }
  destruct (wk_snapshots _ Hok1 k snapshot Hk) as (st0 & t & Hst0 & Hsteps & Ht & Hcapture).
  pose proof (capture_spec _ _ _ _ _ Hcapture) as (Hid & Hhead & _ & Hperm & Hfits).
  exists snapshot. rewrite Hid. split; [done|]. split; [done|]. intros worlds Hworlds Hlen.
  exists (mb_changes snapshot). split.
  { apply (follow_pages_all k snapshot 0); [done|done|by right|done| |done]. eapply Forall_impl; [exact Hworlds|].
    intros v [Hv Hexp]. split; [|done]. by apply (worlds_keep w1). }
  intros w' limit Hw' Hshort Hlimit Husize. apply worlds_log in Hw' as [Hlog' _].
  assert (rtc fresh_step st0 (wo_items w')) as Hfrom by (etrans; [exact Hsteps|exact Hlog']).
  destruct (item_steps_spec empty_items st0 store_ok_empty (fresh_steps_items _ _ Hst0)) as [Hok0 _].
  destruct (item_steps_spec st0 (wo_items w') Hok0 (fresh_steps_items _ _ Hfrom)) as [Hok' Hadv].
  destruct (bootstrap_page_next snapshot 0 Hfits) as (page' & Hpage' & Hhead' & _); [by right|].
  rewrite Hpage in Hpage'. injection Hpage' as <-.
  destruct (steps_log _ _ Hfrom) as [more Hmore].
  destruct (fresh_steps_units _ _ [] Hst0) as (d & Hd & Hunits0).
  { done. } { split; [by intros ? ?%elem_of_nil|constructor]. } { intros c Hc. apply Hshort. rewrite Hmore. set_solver. }
  rewrite app_nil_l in Hd, Hunits0. destruct (fresh_steps_units _ _ d Hfrom Hd Hunits0 Hshort) as (units & Hunits & Hok).
  exists (mc_change <$> concat units). split.
  { rewrite Hhead', Hhead, (lo_next _ (so_log _ _ Hok0)), Hd. apply follow_units; try done; [apply Hok'|].
    destruct Hok as [Heach _]. assert (length units ≤ length (concat units)) by (apply units_few; intros u Hu; apply Heach, elem_of_app; by right).
    rewrite Hunits, concat_app, length_app. lia. }
  intros id. cbn. rewrite concat_app, <-Hd in Hunits.
  destruct (snapshot_then_log st0 (wo_items w') (mb_changes snapshot) (concat units) (t - BOOTSTRAP_TRASH_RETENTION)%Z
    (so_items _ _ Hok0) (so_log _ _ Hok0) (so_log _ _ Hok') Hperm Hunits id) as [Heq|(Hnone & item & t' & Hi & Hdel & Hlt)]; [by left|].
  right. split; [exact Hnone|]. exists item, t'. cbn in Ht. split; [done|]. split; [done|]. lia.
Qed.
End snapshots.

(** ** Witness *)

#[local] Existing Instance utc_platform.
#[local] Existing Instance gregorian.

Definition sample_world : World := {| wo_items := sample_store; wo_snapshots := ∅; wo_now := 0%Z |}.

Lemma sample_world_reached : rtc world_step (new_world 0%Z) sample_world.
Proof.
  unfold sample_world, new_world. generalize sample_store_fresh. generalize empty_items, sample_store.
  induction 1 as [|st mid st' Hstep _ IH]; [done|]. eapply rtc_l; [|exact IH].
  apply (world_write {| wo_items := st; wo_snapshots := ∅; wo_now := 0%Z |} mid 0%Z); [done|]. cbn. lia.
Qed.

Lemma bootstrapped_clients_converge_witness :
  ∃ later page worlds received rest,
    bootstrap 900%N sample_store ∅ None 0%Z = (later, Ok page) ∧ follow_pages worlds page = Ok received ∧ length received = 3 ∧
    follow 6 sample_store (bg_head page) 2 = Ok rest ∧
    ∀ id, (foldl apply_change (latest received) rest) !! id = change_of <$> st_items sample_store !! id ∨
      (foldl apply_change (latest received) rest) !! id = None ∧
      ∃ item t, st_items sample_store !! id = Some item ∧ it_deleted_at item = Some t ∧ (t < 0%Z - BOOTSTRAP_TRASH_RETENTION)%Z.
Proof.
  assert (length (st_changes sample_store) = 5) as Hlen by (vm_compute; reflexivity).
  assert (match bootstrap 900%N sample_store ∅ None 0%Z with
    | (later, Ok page) => bool_decide (length <$> (mb_changes <$> values later) = [3]) && bool_decide (length (bg_changes page) = 3) && negb (is_some (bg_continuation page)) | _ => false end = true)
    as Hrun by (vm_compute; reflexivity).
  destruct (bootstrap 900%N sample_store ∅ None 0%Z) as [later [page|]] eqn:Hboot; [|done].
  apply andb_true_iff in Hrun as [[Hsize%bool_decide_eq_true Hpage%bool_decide_eq_true]%andb_true_iff Hwhole].
  destruct (bootstrapped_clients_converge 0%Z sample_world 900%N 0%Z later page sample_world_reached eq_refl (Z.le_refl 0) Hboot)
    as (snapshot & Hkept & Hlive & Hclient).
  set (w1 := {| wo_items := wo_items sample_world; wo_snapshots := later; wo_now := 0%Z |}) in *.
  assert (length (mb_changes snapshot) = 3) as Hmembers.
  { assert (snapshot ∈ values later) as Hin by (apply elem_of_values; eauto).
    rewrite <-list_fmap_compose in Hsize. destruct (values later) as [|s [|]]; [done| |done].
    apply list_elem_of_singleton in Hin as ->. by injection Hsize. }
  exists later, page, (replicate 3 w1).
  destruct (Hclient (replicate 3 w1)) as (received & Hfollow & Hrest).
  { apply Forall_replicate. split; [apply rtc_refl|exact Hlive]. }
  { by rewrite Hmembers. }
  destruct (Hrest w1 2) as (rest & Hlog & Hknown);
    [apply rtc_refl|intros c _; apply sample_changes_short|lia|unfold usize_max, u64_max, MAX_ITEM_CHANGE_GROUP_SIZE; lia|].
  exists received, rest. split; [done|]. split; [exact Hfollow|]. split; [|split; [|exact Hknown]].
  - cbn [follow_pages replicate] in Hfollow. destruct (bg_continuation page); [discriminate Hwhole|]. injection Hfollow as <-. exact Hpage.
  - cbn [wo_items w1 sample_world] in Hlog. by rewrite Hlen in Hlog.
Defined.
