(* ===== verification/ItemNormal.v ===== *)
(** * ItemNormal: the normal forms of items

    The fields of every stored item are in normal form: validation accepts them
    again without change.  So an item survives its encoding, although decoding
    normalises the fields again and infers those that old rows lack.  Projecting
    dependencies into an item and reading them back are inverse. *)
From S2P Require Import Prelude Text Platform Civil Domain Rrule Decimal Progress Completion Session Lease ItemDomain CompletionPolicy ItemStore ItemGraph Effects Repository ItemSamples Versions.

Section normal.
Context `{ItemFormats}.

(** ** The normal forms are fixed *)

Lemma normalize_duration_idem kind e mi ma source d :
  normalize_duration kind e mi ma source = Ok d →
  normalize_duration (Some (nd_kind d)) (nd_expected d) (nd_minimum d) (nd_maximum d) (nd_source d) = Ok d.
Proof.
  unfold normalize_duration. intros (k & _ & Hn)%rbind_ok. cbn [duration_kind_of rbind]. destruct k.
  - destruct (_ || _); [done|]. by injection Hn as <-.
  - apply rbind_ok in Hn as (x & _ & Hn). destruct (_ || _) eqn:Hbad; [done|]. injection Hn as <-. cbn.
    apply orb_false_iff in Hbad as [[Hb _]%orb_false_iff _]. by rewrite Hb, N.eqb_refl.
  - destruct e as [e|]; [|done]. destruct mi as [mi|]; [|done]. destruct ma as [ma|]; [|done].
    destruct (_ || _) eqn:Hbad; [done|]. injection Hn as <-. cbn. by rewrite Hbad.
Qed.

Lemma normalize_strength_idem strength weight s w :
  normalize_strength strength weight = Ok (s, w) → normalize_strength (Some s) w = Ok (s, w).
Proof.
  unfold normalize_strength. destruct (default DeadlineStrength.Hard strength) eqn:Hs, weight as [w'|]; cbn; try done.
  - by intros [= <- <-].
  - destruct (w' <=? _)%N eqn:Hw; [|done]. intros [= <- <-]. cbn. by rewrite Hw.
Qed.

Lemma normalize_deadline_idem item_kind kind date at_ strength weight l :
  normalize_deadline item_kind kind date at_ strength weight = Ok l →
  normalize_deadline item_kind (Some (nl_kind l)) (nl_date l) (nl_at l) (nl_strength l) (nl_soft_weight l) = Ok l.
Proof.
  unfold normalize_deadline. intros (k & _ & Hn)%rbind_ok. cbn [deadline_kind_of rbind].
  destruct (_ && _) eqn:Hevent; [done|]. destruct k.
  - destruct (_ && _ && _ && _) eqn:Hshape; [|done]. injection Hn as <-. cbn. rewrite Hevent.
    apply andb_true_iff in Hshape as [_ ->]. done.
  - destruct (_ && negb (is_some at_)) eqn:Hshape; [|done]. apply rbind_ok in Hn as ([s w] & Hs & [= <-]). cbn. rewrite Hevent.
    apply andb_true_iff in Hshape as [-> _]. cbn. by rewrite (normalize_strength_idem _ _ _ _ Hs).
  - destruct (negb (is_some date) && is_some at_) eqn:Hshape; [|done]. apply rbind_ok in Hn as ([s w] & Hs & [= <-]). cbn. rewrite Hevent.
    apply andb_true_iff in Hshape as [_ ->]. cbn. by rewrite (normalize_strength_idem _ _ _ _ Hs).
Qed.

Lemma normalize_effort_idem `{!ItemFormatLaws} explicit constraints effort constraints' :
  normalize_has_own_effort explicit constraints = Ok (effort, constraints') →
  normalize_has_own_effort (Some effort) constraints' = Ok (effort, constraints').
Proof.
  unfold normalize_has_own_effort. destruct (negb (value_is_object constraints)) eqn:Hobj; [done|].
  apply negb_false_iff in Hobj. intros (legacy & Hlegacy & Hn)%rbind_ok. 
  match type of Hn with (if ?b then _ else _) = _ => destruct b eqn:Hconflict; [done|] end.
  injection Hn as <- <-. set (resolved := default false _).
  assert (∀ b, legacy = Some b → resolved = b) as Hagree.
  { intros b ->. unfold resolved. destruct explicit as [a|]; [|done]. cbn. by apply negb_false_iff, bool_decide_eq_true in Hconflict. }
  destruct (value_get constraints "has_own_effort") as [value|] eqn:Hget.
  - apply rbind_ok in Hlegacy as (b & Hb & [= <-]). rewrite (Hagree b eq_refl), andb_false_r, Hobj, Hget. cbn. rewrite Hb. cbn.
    by rewrite bool_decide_true, andb_false_r.
  - injection Hlegacy as <-. cbn [is_some negb]. rewrite andb_true_r. destruct resolved.
    + rewrite value_insert_object by done. cbn. rewrite value_get_insert, bool_decide_true by done. cbn. by rewrite bool_value_as_bool.
    + by rewrite Hobj, Hget.
Qed.

Lemma check_blocked_reason_idem reason reason' :
  match reason with Some r => is_text r = true | None => True end →
  check_blocked_reason reason = Ok reason' → check_blocked_reason reason' = Ok reason'.
Proof.
  destruct reason as [r|]; cbn; [|by intros _ [= <-]]. intros Htext. destruct (_ || _) eqn:Hbad; [done|]. intros [= <-]. cbn.
  by rewrite (trim_str_idem r Htext), Hbad.
Qed.

(** ** Normal items *)

Record item_normal (item : Item) : Prop := {
  in_duration : normalize_duration (Some (it_duration_kind item)) (it_duration_seconds item) (it_duration_min_seconds item)
      (it_duration_max_seconds item) (it_duration_source item) =
    Ok {| nd_kind := it_duration_kind item; nd_expected := it_duration_seconds item; nd_minimum := it_duration_min_seconds item;
          nd_maximum := it_duration_max_seconds item; nd_source := it_duration_source item |};
  in_deadline : normalize_deadline (it_kind item) (Some (it_deadline_kind item)) (it_deadline_date item) (it_deadline_at item)
      (it_deadline_strength item) (it_deadline_soft_weight item) =
    Ok {| nl_kind := it_deadline_kind item; nl_date := it_deadline_date item; nl_at := it_deadline_at item;
          nl_strength := it_deadline_strength item; nl_soft_weight := it_deadline_soft_weight item |};
  in_effort : normalize_has_own_effort (Some (it_has_own_effort item)) (it_flexible_constraints item) =
    Ok (it_has_own_effort item, it_flexible_constraints item);
  in_blocker : normalize_blocker (it_id item) (it_status item) (it_blocked_reason_kind item) (it_blocked_by_item_id item)
      (it_blocked_reason item) =
    Ok {| nb_kind := it_blocked_reason_kind item; nb_item_id := it_blocked_by_item_id item; nb_reason := it_blocked_reason item |}
}.

Lemma touched_normal item revision now deleted_at executable :
  item_normal item → item_normal (touched item revision now deleted_at executable).
Proof. by intros []. Qed.

Lemma lifecycle_normal item status completed_at kind by_ reason :
  item_normal item →
  normalize_blocker (it_id item) status kind by_ reason = Ok {| nb_kind := kind; nb_item_id := by_; nb_reason := reason |} →
  item_normal (with_lifecycle item status completed_at kind by_ reason).
Proof. intros [? ? ? _] ?. by split. Qed.

(** A valid reopening state has the normal form of a blocker. *)
Lemma reopen_normal s id :
  validate_reopen s id = Ok tt →
  normalize_blocker id (ro_status s) (ro_blocked_reason_kind s) (ro_blocked_by_item_id s) (ro_blocked_reason s) =
    Ok {| nb_kind := ro_blocked_reason_kind s; nb_item_id := ro_blocked_by_item_id s; nb_reason := ro_blocked_reason s |}.
Proof.
  unfold validate_reopen. intros Hv.
  assert (reopen_reason_ok (ro_blocked_reason s) = true ∧ reopen_blocker_ok s id = true) as [Hreason Hblocker].
  { apply andb_true_iff. by destruct (ro_status s), (_ && _). }
  unfold normalize_blocker. assert (check_blocked_reason (ro_blocked_reason s) = Ok (ro_blocked_reason s)) as ->.
  { destruct (ro_blocked_reason s) as [r|]; [|done]. unfold reopen_reason_ok in Hreason. unfold check_blocked_reason. apply andb_true_iff in Hreason as [Hreason Hcontrol].
    apply andb_true_iff in Hreason as [Hreason Hlen]. apply andb_true_iff in Hreason as [Htrim Hempty].
    apply bool_decide_eq_true in Htrim. cbv zeta. rewrite Htrim. apply negb_true_iff in Hempty, Hcontrol. rewrite Hempty, Hcontrol.
    unfold MAX_BLOCKED_REASON_CHARS. apply Nat.leb_le in Hlen. by destruct (Nat.ltb_spec 1000 (length (chars r))); [lia|]. }
  cbn [rbind]. assert (blocker_is_valid id (ro_status s) (ro_blocked_reason_kind s) (ro_blocked_by_item_id s) (ro_blocked_reason s) = true) as ->.
  2:{ done. }
  unfold reopen_blocker_ok in Hblocker. unfold blocker_is_valid.
  destruct (ro_status s), (ro_blocked_reason_kind s) as [[]|], (ro_blocked_by_item_id s), (ro_blocked_reason s); try done;
    by apply andb_true_iff in Hblocker as [_ ?].
Qed.

Lemma reviewed_normal before item : reviewed before item → item_normal before → it_id item = it_id before ∧ item_normal item.
Proof.
  intros Hrev Hbefore. induction Hrev as [|s item _ [Hid IH] Hs|now item _ [Hid IH]]; [done| |].
  - split; [done|]. apply lifecycle_normal; [done|]. rewrite Hid. by apply reopen_normal.
  - split; [done|]. by apply lifecycle_normal.
Qed.

Context `{Platform, Civil, !SchedulingMetadata, !ItemFormatLaws}.

(** Validated fields are in normal form. *)
Lemma of_fields_normal f id preserved created f' k l b executable revision created_at updated_at completed_at deleted_at :
  validate_fields f id preserved created = Ok f' → text_fields f →
  if_duration_kind f' = Some k → if_deadline_kind f' = Some l → if_has_own_effort f' = Some b →
  item_normal (of_fields id f' k l b executable revision created_at updated_at completed_at deleted_at).
Proof.
  unfold validate_fields. intros ([title timezone] & _ & Hv)%rbind_ok Htext Hk Hl Hb.
  apply rbind_ok in Hv as (d & Hd%normalize_duration_idem & Hv). apply rbind_ok in Hv as (dl & Hdl%normalize_deadline_idem & Hv).
  apply rbind_ok in Hv as (effective & _ & Hv). apply rbind_ok in Hv as ([effort constraints] & He%normalize_effort_idem & Hv).
  apply rbind_ok in Hv as (blocker & Hbl & Hv). do 4 apply rbind_ok in Hv as (? & _ & Hv). injection Hv as <-.
  cbn in Hk, Hl, Hb. injection Hk as <-. injection Hl as <-. injection Hb as <-.
  unfold normalize_blocker in Hbl. apply rbind_ok in Hbl as (reason & Hreason & Hbl).
  destruct (blocker_is_valid _ _ _ _ _) eqn:Hvalid; [|done]. injection Hbl as <-. split.
  - refine (eq_trans Hd _). by destruct d.
  - refine (eq_trans Hdl _). by destruct dl.
  - exact He.
  - unfold normalize_blocker. cbn [of_fields with_recurrence with_normal_forms it_id it_status it_blocked_reason_kind
      it_blocked_by_item_id it_blocked_reason if_status if_blocked_reason_kind if_blocked_by_item_id if_blocked_reason
      nb_kind nb_item_id nb_reason]. rewrite (check_blocked_reason_idem _ _ Htext Hreason). cbn [rbind]. by rewrite Hvalid.
Qed.

Lemma new_item_normal input now item : new_item input now = Ok item → text_fields (ni_fields input) → item_normal item.
Proof.
  unfold new_item. intros (f & Hf & Hn)%rbind_ok Htext. apply rbind_ok in Hn as (k & Hk%ok_or_ok & Hn).
  apply rbind_ok in Hn as (l & Hl%ok_or_ok & Hn). apply rbind_ok in Hn as (b & Hb%ok_or_ok & [= <-]).
  by eapply of_fields_normal.
Qed.

(** The three fields that validation always gives *)
Lemma validated_fields f id preserved created f' :
  validate_fields f id preserved created = Ok f' →
  is_Some (if_duration_kind f') ∧ is_Some (if_deadline_kind f') ∧ is_Some (if_has_own_effort f').
Proof.
  unfold validate_fields. intros ([title timezone] & _ & Hv)%rbind_ok. do 3 apply rbind_ok in Hv as (? & _ & Hv).
  apply rbind_ok in Hv as ([effort constraints] & _ & Hv). do 5 apply rbind_ok in Hv as (? & _ & Hv). injection Hv as <-. by split_and!; eexists.
Qed.

Lemma replaced_normal current input now item : replaced current input now = Ok item → text_fields input → item_normal item.
Proof.
  unfold replaced. intros (f & Hf & Hn)%rbind_ok Htext. apply rbind_ok in Hn as (revision & _ & [= <-]).
  destruct (validated_fields _ _ _ _ _ Hf) as ([k Hk] & [l Hl] & [b Hb]). rewrite Hk, Hl, Hb. by eapply of_fields_normal.
Qed.

Lemma origin_normal items item :
  item_origin items item → (∀ id x, items !! id = Some x → item_normal x) → item_normal item.
Proof.
  intros Horigin Hall. destruct Horigin as [input now item b Hnew Htext|current input now item b _ Hrep Htext|current item ? ? ? ? Hcur Hrev].
  - by eapply touched_normal, new_item_normal.
  - by eapply touched_normal, replaced_normal.
  - apply touched_normal, (reviewed_normal current); [done|]. by eapply Hall.
Qed.

Definition items_normal (st : ItemState) : Prop := ∀ id item, st_items st !! id = Some item → item_normal item.

Lemma advances_normal st st' : advances st st' → items_normal st → items_normal st'.
Proof.
  induction 1 as [st st' Hi _|st item mid st' [Horigin _ Hi _] _ IH]; intros Hall.
  - unfold items_normal. by rewrite Hi.
  - apply IH. intros id x. rewrite Hi. destruct (decide (id = it_id item)) as [->|Hne].
    + rewrite lookup_insert_eq. intros [= <-]. by eapply origin_normal.
    + rewrite lookup_insert_ne by done. apply Hall.
Qed.

(** ** Encoding *)

(** A normal item whose executability is the one of its kind is decoded as it
    was. *)
Lemma wire_roundtrip item :
  item_normal item → (it_is_executable item = true → has_executable_component (it_kind item) (it_has_own_effort item) = true) →
  item_of_wire (wire_of_item item) = Ok item.
Proof.
  intros [Hd Hl He Hb] Hexec. unfold item_of_wire. cbn [wire_of_item iw_fields iw_id item_fields if_kind if_status if_duration_kind
    if_duration_seconds if_duration_min_seconds if_duration_max_seconds if_duration_source if_deadline_kind if_deadline_date
    if_deadline_at if_deadline_strength if_deadline_soft_weight if_flexible_constraints if_has_own_effort if_blocked_reason_kind
    if_blocked_by_item_id if_blocked_reason iw_is_executable].
  assert (is_legacy_import (item_fields item) = false) as Hlegacy.
  { unfold is_legacy_import. cbn [item_fields if_duration_kind is_some negb]. by rewrite andb_false_r. }
  rewrite Hlegacy.
  assert (match it_duration_source item with Some source => Some source | None => None end = it_duration_source item) as ->
    by (by destruct (it_duration_source item)).
  rewrite Hd. cbn [rbind]. rewrite Hl. cbn [rbind]. rewrite He. cbn [rbind]. rewrite Hb. cbn [rbind nd_kind nl_kind].
  assert (it_is_executable item && has_executable_component (it_kind item) (it_has_own_effort item) = it_is_executable item) as ->.
  { destruct (it_is_executable item); [by rewrite Hexec|done]. }
  by destruct item.
Qed.

(** ** Dependencies *)

Lemma dependencies_of_constraints item root constraints :
  it_flexible_constraints item = root → value_get root "constraints" = Some constraints →
  item_dependencies item = match value_get constraints "dependencies" with
                           | None => Ok []
                           | Some value => ok_or (decode_dependencies value) InvalidFlexibleConstraints
                           end.
Proof. intros <- Hc. unfold item_dependencies. by rewrite Hc. Qed.

Lemma project_none item item' : project_dependencies item [] = Ok item' → item_dependencies item' = Ok [].
Proof.
  unfold project_dependencies. destruct (negb (value_is_object (it_flexible_constraints item))) eqn:Hobj; [done|].
  apply negb_false_iff in Hobj. destruct (value_get (it_flexible_constraints item) "constraints") as [constraints|] eqn:Hc.
  2:{ intros [= <-]. unfold item_dependencies. by rewrite Hc. }
  destruct (negb (value_is_object constraints)) eqn:Hco; [done|]. apply negb_false_iff in Hco. intros [= <-].
  destruct (value_len (value_remove constraints "dependencies") =? 0)%nat.
  - unfold item_dependencies. cbn [with_constraints it_flexible_constraints]. by rewrite value_get_remove, bool_decide_true.
  - erewrite dependencies_of_constraints; [|reflexivity|]; [|by cbn; rewrite value_get_insert, bool_decide_true].
    by rewrite value_get_remove, bool_decide_true.
Qed.

Lemma project_some item deps item' : project_dependencies item deps = Ok item' → item_dependencies item' = Ok deps.
Proof.
  destruct deps as [|d deps]; [apply project_none|]. unfold project_dependencies.
  destruct (negb (value_is_object (it_flexible_constraints item))) eqn:Hobj; [done|]. apply negb_false_iff in Hobj.
  intros (encoded & Hencoded%ok_or_ok & Hproject)%rbind_ok.
  destruct (negb (value_is_object (default empty_object _))) eqn:Hco; [done|]. apply negb_false_iff in Hco. injection Hproject as <-.
  erewrite dependencies_of_constraints; [|reflexivity|]; [|by cbn; rewrite value_get_insert, bool_decide_true].
  rewrite value_get_insert, bool_decide_true by done. by rewrite (decode_encode_dependencies _ _ Hencoded).
Qed.

(** A projection leaves a root and constraints that can be projected into. *)
Lemma project_again item deps item' :
  project_dependencies item deps = Ok item' → ∃ bare, constraints_without_dependencies item' = Ok bare.
Proof.
  intros Hproject. unfold constraints_without_dependencies.
  assert (∃ x, project_dependencies item' [] = Ok x) as [x ->]; [|by eexists].
  assert (value_is_object (it_flexible_constraints item') = true ∧
    ∀ c, value_get (it_flexible_constraints item') "constraints" = Some c → value_is_object c = true) as [Hroot Hcons].
  2:{ unfold project_dependencies. rewrite Hroot. cbn [negb]. destruct (value_get (it_flexible_constraints item') "constraints") as [c|]; [|by eexists].
      rewrite (Hcons c eq_refl). by eexists. }
  unfold project_dependencies in Hproject. destruct (negb (value_is_object (it_flexible_constraints item))) eqn:Hobj; [done|].
  apply negb_false_iff in Hobj. destruct deps as [|d deps].
  - destruct (value_get _ _) as [c|] eqn:Hc; [|injection Hproject as <-; split; [done|congruence]].
    destruct (negb (value_is_object c)) eqn:Hco; [done|]. apply negb_false_iff in Hco. injection Hproject as <-.
    cbn [with_constraints it_flexible_constraints]. destruct (_ =? 0)%nat.
    + split; [by apply value_remove_object|]. intros c'. by rewrite value_get_remove, bool_decide_true.
    + split; [by apply value_insert_object|]. intros c'. rewrite value_get_insert, bool_decide_true by done. intros [= <-].
      by apply value_remove_object.
  - apply rbind_ok in Hproject as (encoded & _ & Hproject).
    destruct (negb (value_is_object (default empty_object _))) eqn:Hco; [done|]. apply negb_false_iff in Hco. injection Hproject as <-.
    cbn [with_constraints it_flexible_constraints]. split; [by apply value_insert_object|]. intros c'.
    rewrite value_get_insert, bool_decide_true by done. intros [= <-]. by apply value_insert_object.
Qed.

(** Dependencies projected into an item are read back as they were, and the
    constraints stored without them have none. *)
Theorem projected_dependencies_read_back item deps item' :
  project_dependencies item deps = Ok item' →
  item_dependencies item' = Ok deps ∧
  ∃ bare, constraints_without_dependencies item' = Ok bare ∧ item_dependencies (with_constraints item' bare) = Ok [].
Proof.
  intros Hproject. split; [by eapply project_some|]. destruct (project_again _ _ _ Hproject) as [bare Hbare]. exists bare. split; [done|].
  unfold constraints_without_dependencies in Hbare. apply rbind_ok in Hbare as (x & Hx%project_none & [= <-]).
  unfold item_dependencies in *. done.
Qed.

Context `{!CompletionDigest, !ChangeLength}.

(** C28. Every item of a reachable store survives its encoding: decoding the stored
    form, which normalises and infers fields, gives the item back. *)
Theorem stored_items_survive_encoding st id item :
  rtc item_step empty_items st → st_items st !! id = Some item → item_of_wire (wire_of_item item) = Ok item.
Proof.
  intros Hreach Hitem. destruct (item_steps_spec empty_items st store_ok_empty Hreach) as [Hok Hadv].
  apply wire_roundtrip.
  - apply (advances_normal _ _ Hadv) with id; [|done]. intros k x Hx. cbn in Hx. by rewrite lookup_empty in Hx.
  - rewrite (io_executable _ _ (so_items _ _ Hok) id item Hitem) by set_solver. unfold execution_is_allowed.
    by intros [_ ?]%andb_true_iff.
Qed.
End normal.

(** ** Witnesses *)

#[local] Existing Instance utc_platform.
#[local] Existing Instance gregorian.

(** An item of the sample store *)
Lemma sample_stored id : bool_decide (is_Some (st_items sample_store !! id)) = true → ∃ item, st_items sample_store !! id = Some item.
Proof. by intros [item ?]%bool_decide_eq_true; exists item. Qed.

Lemma stored_items_survive_encoding_witness :
  ∃ item, st_items sample_store !! 3%N = Some item ∧ item_of_wire (wire_of_item item) = Ok item.
Proof.
  destruct (sample_stored 3) as [item Hitem]; [vm_compute; reflexivity|]. exists item. split; [exact Hitem|].
  exact (stored_items_survive_encoding sample_store 3 item sample_store_reached Hitem).
Defined.

Definition sample_dependency : Dependency :=
  {| dep_item_id := 9; dep_relation := FinishToStart; dep_minimum_lag := 0; dep_strength := Hard |}.

Lemma projected_dependencies_read_back_witness :
  ∃ item item', st_items sample_store !! 1%N = Some item ∧ project_dependencies item [sample_dependency] = Ok item' ∧
    item_dependencies item' = Ok [sample_dependency].
Proof.
  destruct (sample_stored 1) as [item Hitem]; [vm_compute; reflexivity|].
  assert (match st_items sample_store !! 1%N with Some item => is_ok (project_dependencies item [sample_dependency]) | None => false end = true)
    as Hok by (vm_compute; reflexivity).
  rewrite Hitem in Hok. destruct (project_dependencies item [sample_dependency]) as [item'|e] eqn:Hproject; [|discriminate Hok].
  exists item, item'. split; [exact Hitem|]. split; [exact Hproject|].
  exact (proj1 (projected_dependencies_read_back item [sample_dependency] item' Hproject)).
Defined.
