(* ===== verification/ItemProgress.v ===== *)
(** * ItemProgress: the progress that a user records by hand

    server/dayweave-api/src/item_progress: domain.rs (components of progress,
    commands and snapshots), memory.rs (the snapshots and the receipts that the
    in-memory item repository keeps), and [get_progress] and [put_progress] of
    items/repository.rs.  A command replaces the components of an item when it
    names the current revisions of the item and of its progress.

    The theorems: the memory refines a journal of performed commands, whose
    entries are the only source of what is shown, and a performed operation is
    answered the same way for ever. *)
From S2P Require Import Prelude Text Platform Civil Domain Rrule Decimal Progress Completion Session Lease ItemDomain CompletionPolicy ItemStore ItemGraph Effects Repository ItemSamples Versions.

(** ** Data *)

Module ItemProgressError.
Inductive ItemProgressError : Type :=
| Invalid
| ItemStale
| ProgressStale
| ItemMissing
| OperationReused
| Unavailable.
End ItemProgressError.
Abbreviation ItemProgressError := ItemProgressError.ItemProgressError.
Import ItemProgressError.

Inductive ItemProgressDirection : Type := AtLeast | AtMost.

Record ItemProgressTarget : Type := {
  pt_value : string;
  pt_direction : ItemProgressDirection
}.

Module ItemProgressValue.
Inductive ItemProgressValue : Type :=
| Percentage (basis_points : N)
| Time (elapsed_seconds : N) (remaining_seconds : option N)
| Quantity (current unit_ : string) (target : option ItemProgressTarget).
End ItemProgressValue.
Abbreviation ItemProgressValue := ItemProgressValue.ItemProgressValue.

Record ItemProgressComponent : Type := {
  pc_id : Uuid;
  pc_name : string;
  pc_value : ItemProgressValue
}.

Record ItemProgressCommand : Type := {
  pm_schema_version : N;
  pm_operation_id : Uuid;
  pm_expected_item_revision : N;
  pm_expected_progress_revision : N;
  pm_components : list ItemProgressComponent
}.

#[export] Instance ItemProgressDirection_eq_dec : EqDecision ItemProgressDirection.
Proof. solve_decision. Defined.
#[export] Instance ItemProgressTarget_eq_dec : EqDecision ItemProgressTarget.
Proof. solve_decision. Defined.
#[export] Instance ItemProgressValue_eq_dec : EqDecision ItemProgressValue.
Proof. solve_decision. Defined.
#[export] Instance ItemProgressComponent_eq_dec : EqDecision ItemProgressComponent.
Proof. solve_decision. Defined.
#[export] Instance ItemProgressCommand_eq_dec : EqDecision ItemProgressCommand.
Proof. solve_decision. Defined.

Record ItemProgressSnapshot : Type := {
  ps_schema_version : N;
  ps_item_id : Uuid;
  ps_item_revision : N;
  ps_revision : N;
  ps_components : list ItemProgressComponent;
  ps_updated_at : option DateTime
}.

Record ItemProgressMutation : Type := {
  px_operation_id : Uuid;
  px_replayed : bool;
  px_progress : ItemProgressSnapshot
}.

(** ** Commands *)

Definition progress_value_ok (value : ItemProgressValue) : bool :=
  match value with
  | ItemProgressValue.Percentage basis_points => (basis_points <=? MAX_PROGRESS_BASIS_POINTS)%N
  | ItemProgressValue.Time elapsed remaining =>
      (elapsed <=? MAX_PROGRESS_SECONDS)%N && match remaining with Some r => (r <=? MAX_PROGRESS_SECONDS)%N | None => true end
  | ItemProgressValue.Quantity current unit_ target =>
      is_ok (parse_progress_decimal current) && is_valid_progress_label unit_ MAX_PROGRESS_UNIT_SCALARS &&
      match target with Some t => is_ok (parse_progress_decimal (pt_value t)) | None => true end
  end.

(** One component, after those already seen. *)
Definition check_component (seen : gset Uuid) (component : ItemProgressComponent) : result ItemProgressError (gset Uuid) :=
  if is_nil (pc_id component) || bool_decide (pc_id component ∈ seen) ||
     negb (is_valid_progress_label (pc_name component) MAX_PROGRESS_NAME_SCALARS)
  then Err Invalid
  else if negb (progress_value_ok (pc_value component)) then Err Invalid
  else Ok ({[pc_id component]} ∪ seen).

(** [ItemProgressCommand::validate] *)
Definition validate_progress_command (c : ItemProgressCommand) (item_id : Uuid) : result ItemProgressError unit :=
  if negb (pm_schema_version c =? 1)%N || is_nil item_id || is_nil (pm_operation_id c) || (pm_expected_item_revision c =? 0)%N ||
     (i64_max <? pm_expected_item_revision c)%N || (i64_max <? pm_expected_progress_revision c)%N ||
     (MAX_PROGRESS_COMPONENTS <? N.of_nat (length (pm_components c)))%N
  then Err Invalid
  else let? _ := foldM check_component ∅ (pm_components c) in Ok tt.

(** ** Snapshots *)

Definition empty_snapshot (item_id : Uuid) (item_revision : N) : ItemProgressSnapshot :=
  {| ps_schema_version := 1; ps_item_id := item_id; ps_item_revision := item_revision; ps_revision := 0; ps_components := [];
     ps_updated_at := None |}.

(** [ItemProgressSnapshot::replaced] *)
Definition replaced_progress (s : ItemProgressSnapshot) (c : ItemProgressCommand) (now : DateTime)
    : result ItemProgressError ItemProgressSnapshot :=
  if negb (ps_item_revision s =? pm_expected_item_revision c)%N then Err ItemStale
  else if negb (ps_revision s =? pm_expected_progress_revision c)%N then Err ProgressStale
  else
    let? revision := ok_or (revision ← checked_add u64_max (ps_revision s) 1; if (revision <=? i64_max)%N then Some revision else None)
      Unavailable in
    Ok {| ps_schema_version := ps_schema_version s; ps_item_id := ps_item_id s; ps_item_revision := ps_item_revision s;
          ps_revision := revision; ps_components := pm_components c; ps_updated_at := Some now |}.

(** ** The memory *)

Record Receipt : Type := {
  rc_item_id : Uuid;
  rc_command : ItemProgressCommand;
  rc_before : ItemProgressSnapshot;
  rc_after : ItemProgressMutation
}.

Record MemoryProgress : Type := {
  mp_snapshots : gmap Uuid ItemProgressSnapshot;
  mp_receipts : gmap Uuid Receipt
}.

Definition empty_progress : MemoryProgress := {| mp_snapshots := ∅; mp_receipts := ∅ |}.

(** [MemoryProgress::get] *)
Definition progress_of_item (p : MemoryProgress) (item_id : Uuid) (item_revision : N) : ItemProgressSnapshot :=
  let s := default (empty_snapshot item_id item_revision) (mp_snapshots p !! item_id) in
  {| ps_schema_version := ps_schema_version s; ps_item_id := ps_item_id s; ps_item_revision := item_revision;
     ps_revision := ps_revision s; ps_components := ps_components s; ps_updated_at := ps_updated_at s |}.

Definition as_replay (m : ItemProgressMutation) : ItemProgressMutation :=
  {| px_operation_id := px_operation_id m; px_replayed := true; px_progress := px_progress m |}.

(** [MemoryProgress::replay] *)
Definition replay_progress (p : MemoryProgress) (item_id : Uuid) (c : ItemProgressCommand)
    : result ItemProgressError (option ItemProgressMutation) :=
  match mp_receipts p !! pm_operation_id c with
  | None => Ok None
  | Some receipt =>
      if negb (rc_item_id receipt =? item_id)%N || negb (bool_decide (rc_command receipt = c)) then Err OperationReused
      else Ok (Some (as_replay (rc_after receipt)))
  end.

(** [MemoryProgress::put] *)
Definition put_memory (p : MemoryProgress) (item_id : Uuid) (item_revision : N) (c : ItemProgressCommand) (now : DateTime)
    : result ItemProgressError (MemoryProgress * ItemProgressMutation) :=
  let? _ := validate_progress_command c item_id in
  let before := progress_of_item p item_id item_revision in
  let? progress := replaced_progress before c now in
  let after := {| px_operation_id := pm_operation_id c; px_replayed := false; px_progress := progress |} in
  Ok ({| mp_snapshots := <[item_id := progress]> (mp_snapshots p);
         mp_receipts := <[pm_operation_id c := {| rc_item_id := item_id; rc_command := c; rc_before := before; rc_after := after |}]>
           (mp_receipts p) |}, after).

(** ** The repository *)

Section repository.
Context `{ItemFormats}.

Definition get_progress (st : ItemState) (p : MemoryProgress) (item_id : Uuid) : result ItemProgressError ItemProgressSnapshot :=
  let? item := ok_or (active_item (st_items st) item_id) ItemMissing in
  Ok (progress_of_item p item_id (it_revision item)).

Definition put_progress (now : DateTime) (item_id : Uuid) (c : ItemProgressCommand) (st : ItemState) (p : MemoryProgress)
    : result ItemProgressError (MemoryProgress * ItemProgressMutation) :=
  let? found := replay_progress p item_id c in
  match found with
  | Some answer => Ok (p, answer)
  | None =>
      let? _ := validate_progress_command c item_id in
      let? item := ok_or (active_item (st_items st) item_id) ItemMissing in
      put_memory p item_id (it_revision item) c now
  end.
End repository.

(** [ItemProgressService::get] and [put] *)
Definition service_get_progress `{ItemFormats} (st : ItemState) (p : MemoryProgress) (item_id : Uuid)
    : result ItemProgressError ItemProgressSnapshot :=
  if is_nil item_id then Err Invalid else get_progress st p item_id.

Definition service_put_progress `{ItemFormats} (clock : DateTime) (item_id : Uuid) (c : ItemProgressCommand) (st : ItemState)
    (p : MemoryProgress) : result ItemProgressError (MemoryProgress * ItemProgressMutation) :=
  put_progress (truncate_to_postgres_timestamp_precision clock) item_id c st p.

(** ** The journal *)

(** A performed command *)
Record Entry : Type := { en_item : Uuid; en_command : ItemProgressCommand; en_at : DateTime }.

Definition entries_of (id : Uuid) (journal : list Entry) : list Entry := filter (λ e, en_item e = id) journal.

(** What a journal shows of an item: the components of its last entry. *)
Definition journal_snapshot (journal : list Entry) (id : Uuid) (item_revision : N) : ItemProgressSnapshot :=
  let own := entries_of id journal in
  {| ps_schema_version := 1; ps_item_id := id; ps_item_revision := item_revision; ps_revision := N.of_nat (length own);
     ps_components := default [] (pm_components ∘ en_command <$> last own); ps_updated_at := en_at <$> last own |}.

(** The receipt of an entry, given the entries before it *)
Definition journal_receipt (before : list Entry) (e : Entry) : Receipt :=
  let revision := pm_expected_item_revision (en_command e) in
  {| rc_item_id := en_item e; rc_command := en_command e; rc_before := journal_snapshot before (en_item e) revision;
     rc_after := {| px_operation_id := pm_operation_id (en_command e); px_replayed := false;
                    px_progress := journal_snapshot (before ++ [e]) (en_item e) revision |} |}.

Definition operation_ids (journal : list Entry) : list Uuid := pm_operation_id ∘ en_command <$> journal.

Record journal_ok (p : MemoryProgress) (journal : list Entry) : Prop := {
  jo_snapshots : ∀ id revision, progress_of_item p id revision = journal_snapshot journal id revision;
  jo_receipts : ∀ operation receipt, mp_receipts p !! operation = Some receipt ↔
    ∃ before e after, journal = before ++ e :: after ∧ pm_operation_id (en_command e) = operation ∧ receipt = journal_receipt before e;
  jo_operations : NoDup (operation_ids journal);
  jo_valid : ∀ e, e ∈ journal → validate_progress_command (en_command e) (en_item e) = Ok tt;
  jo_revisions : ∀ before e after, journal = before ++ e :: after →
    pm_expected_progress_revision (en_command e) = N.of_nat (length (entries_of (en_item e) before))
}.

Lemma entries_of_snoc id journal e :
  entries_of id (journal ++ [e]) = entries_of id journal ++ if decide (en_item e = id) then [e] else [].
Proof. unfold entries_of. by rewrite filter_app. Qed.

Lemma empty_journal_ok : journal_ok empty_progress [].
Proof.
  split.
  - intros id revision. unfold progress_of_item. cbn. by rewrite lookup_empty.
  - intros operation receipt. cbn. rewrite lookup_empty. split; [done|]. by intros ([|] & ? & ? & ? & _).
  - constructor.
  - by intros e ?%elem_of_nil.
  - by intros [|] ? ? ?.
Qed.

Lemma split_snoc {A} (l : list A) x before e after :
  l ++ [x] = before ++ e :: after ↔ (∃ after', after = after' ++ [x] ∧ l = before ++ e :: after') ∨ after = [] ∧ l = before ∧ e = x.
Proof.
  split.
  - intros Heq. destruct after as [|y after _] using rev_ind.
    + apply app_inj_tail in Heq as [-> ->]. by right.
    + left. exists after. rewrite app_comm_cons, app_assoc in Heq. apply app_inj_tail in Heq as [-> ->]. done.
  - intros [(after' & -> & ->)|(-> & -> & ->)]; [|done]. by rewrite <-app_assoc.
Qed.

Lemma elem_of_operation_ids journal operation :
  operation ∈ operation_ids journal ↔ ∃ before e after, journal = before ++ e :: after ∧ pm_operation_id (en_command e) = operation.
Proof.
  unfold operation_ids. rewrite list_elem_of_fmap. split.
  - intros (e & -> & He). apply list_elem_of_split in He as (before & after & ->). by exists before, e, after.
  - intros (before & e & after & -> & <-). exists e. set_solver.
Qed.

(** A performed command adds an entry. *)
Lemma put_memory_journal p journal item_id revision c now p' m :
  journal_ok p journal → mp_receipts p !! pm_operation_id c = None → put_memory p item_id revision c now = Ok (p', m) →
  px_replayed m = false ∧ journal_ok p' (journal ++ [{| en_item := item_id; en_command := c; en_at := now |}]).
Proof.
  intros [Hsnap Hrec Hnd Hvalid Hrevs] Hfresh Hput. unfold put_memory in Hput. apply rbind_ok in Hput as ([] & Hc & Hput).
  apply rbind_ok in Hput as (progress & Hreplaced & [= <- <-]). split; [done|]. rewrite Hsnap in Hreplaced |- *.
  set (e := {| en_item := item_id |}) in *. unfold replaced_progress in Hreplaced.
  destruct (N.eqb_spec (ps_item_revision (journal_snapshot journal item_id revision)) (pm_expected_item_revision c)) as [Hir|]; [|done].
  destruct (N.eqb_spec (ps_revision (journal_snapshot journal item_id revision)) (pm_expected_progress_revision c)) as [Hpr|]; [|done].
  cbn [negb] in Hreplaced. apply rbind_ok in Hreplaced as (next & Hnext%ok_or_ok & [= <-]). cbn in Hir, Hpr. subst revision.
  apply bind_Some in Hnext as (n & Hn & Hnext). apply checked_add_Some in Hn as [-> _].
  assert (next = N.of_nat (length (entries_of item_id (journal ++ [e])))) as ->.
  { rewrite entries_of_snoc, decide_True by done. rewrite length_app. cbn in Hnext |- *. destruct (_ <=? _)%N; [|done]. injection Hnext as <-. lia. }
  clear Hnext.
  assert (∀ r, journal_snapshot (journal ++ [e]) item_id r = {| ps_schema_version := 1; ps_item_id := item_id; ps_item_revision := r;
    ps_revision := N.of_nat (length (entries_of item_id (journal ++ [e]))); ps_components := pm_components c;
    ps_updated_at := Some now |}) as Hlast.
  { intros r. unfold journal_snapshot. by rewrite entries_of_snoc, decide_True, last_snoc by done. }
  assert (pm_operation_id c ∉ operation_ids journal) as Hnew.
  { intros (before & x & after & Hj & Hop)%elem_of_operation_ids.
    assert (mp_receipts p !! pm_operation_id c = Some (journal_receipt before x)) by (apply Hrec; by exists before, x, after). congruence. }
  split.
  - intros id r. unfold progress_of_item. cbn [mp_snapshots]. destruct (decide (id = item_id)) as [->|Hne].
    + by rewrite lookup_insert_eq, Hlast.
    + rewrite lookup_insert_ne by done. fold (progress_of_item p id r). rewrite Hsnap. unfold journal_snapshot.
      rewrite entries_of_snoc, decide_False, app_nil_r; [done|]. by intros <-.
  - intros operation receipt. cbn [mp_receipts]. destruct (decide (operation = pm_operation_id c)) as [->|Hne].
    + rewrite lookup_insert_eq. split.
      * intros [= <-]. exists journal, e, []. split; [done|]. split; [done|]. unfold journal_receipt. cbn. by rewrite Hlast.
      * intros (before & x & after & [(after' & -> & Hj)|(-> & -> & ->)]%split_snoc & Hop & ->).
        { destruct Hnew. apply elem_of_operation_ids. by exists before, x, after'. }
        unfold journal_receipt. cbn. by rewrite Hlast.
    + rewrite lookup_insert_ne, Hrec by done. split.
      * intros (before & x & after & -> & Hop & ->). exists before, x, (after ++ [e]). by rewrite <-app_assoc.
      * intros (before & x & after & [(after' & -> & Hj)|(-> & -> & ->)]%split_snoc & Hop & ->); [by exists before, x, after'|done].
  - unfold operation_ids. rewrite fmap_app. apply NoDup_app. split; [done|]. split; [|apply NoDup_singleton].
    intros x Hx ->%list_elem_of_singleton. done.
  - intros x [Hx| ->]%elem_of_last; [by apply Hvalid|done].
  - intros before x after [(after' & _ & Hj)|(_ & -> & ->)]%split_snoc; [by eapply Hrevs|]. exact (eq_sym Hpr).
Qed.

(** ** Runs *)

Section runs.
Context `{ItemFormats, Platform, Civil, !SchedulingMetadata, !CompletionDigest, !ChangeLength}.

(** A repository and the commands performed on its progress; the items may
    change in between. *)
Inductive recorded : ItemState → MemoryProgress → list Entry → Prop :=
| recorded_empty : recorded empty_items empty_progress []
| recorded_items st st' p journal : recorded st p journal → item_step st st' → recorded st' p journal
| recorded_put st p journal now id c p' m :
    recorded st p journal → put_progress now id c st p = Ok (p', m) →
    recorded st p' (if px_replayed m then journal else journal ++ [{| en_item := id; en_command := c; en_at := now |}]).

Lemma recorded_ok st p journal : recorded st p journal → journal_ok p journal.
Proof.
  induction 1 as [|st st' p journal _ IH _|st p journal now id c p' m _ IH Hput]; [apply empty_journal_ok|done|].
  unfold put_progress in Hput. apply rbind_ok in Hput as (found & Hfound & Hput). unfold replay_progress in Hfound.
  destruct (mp_receipts p !! pm_operation_id c) as [receipt|] eqn:Hrec.
  - destruct (_ || _); [done|]. injection Hfound as <-. by injection Hput as <- <-.
  - injection Hfound as <-. apply rbind_ok in Hput as ([] & _ & Hput). apply rbind_ok in Hput as (item & _ & Hput).
    by destruct (put_memory_journal _ _ _ _ _ _ _ _ IH Hrec Hput) as [-> ?].
Qed.

(** C29. The progress refines its journal: every item shows the components of its
    last performed command, at the number of its commands, and every performed
    command was valid and named that number. *)
Theorem progress_refines_journal st p journal :
  recorded st p journal →
  (∀ id item, active_item (st_items st) id = Some item → get_progress st p id = Ok (journal_snapshot journal id (it_revision item))) ∧
  (∀ before e after, journal = before ++ e :: after →
     validate_progress_command (en_command e) (en_item e) = Ok tt ∧
     pm_expected_progress_revision (en_command e) = N.of_nat (length (entries_of (en_item e) before))).
Proof.
  intros [Hsnap _ _ Hvalid Hrevs]%recorded_ok. split.
  - intros id item Hitem. unfold get_progress. rewrite Hitem. cbn. by rewrite Hsnap.
  - intros before e after Hj. split; [|by eapply Hrevs]. apply Hvalid. rewrite Hj. set_solver.
Qed.

(** A performed operation is answered for ever: the same command with what it
    made, any other one with an error, and nothing changes. *)
Theorem progress_answers_forever st p before e after now id c :
  recorded st p (before ++ e :: after) → pm_operation_id c = pm_operation_id (en_command e) →
  put_progress now id c st p =
    if (en_item e =? id)%N && bool_decide (en_command e = c)
    then Ok (p, {| px_operation_id := pm_operation_id c; px_replayed := true;
                   px_progress := journal_snapshot (before ++ [e]) id (pm_expected_item_revision c) |})
    else Err OperationReused.
Proof.
  intros [_ Hrec _ _ _]%recorded_ok Hop. unfold put_progress, replay_progress.
  assert (mp_receipts p !! pm_operation_id c = Some (journal_receipt before e)) as ->.
  { apply Hrec. exists before, e, after. by rewrite Hop. }
  unfold journal_receipt. cbn [rc_item_id rc_command rc_after]. destruct (N.eqb_spec (en_item e) id) as [<-|]; [|done].
  destruct (decide (en_command e = c)) as [<-|Hne].
  - by rewrite !bool_decide_true.
  - by rewrite !bool_decide_false.
Qed.
End runs.

(** ** Witnesses *)

#[local] Existing Instance utc_platform.
#[local] Existing Instance gregorian.

(** Half of item 2 is done. *)
Definition sample_progress_command : ItemProgressCommand :=
  {| pm_schema_version := 1; pm_operation_id := 50; pm_expected_item_revision := 1; pm_expected_progress_revision := 0;
     pm_components := [{| pc_id := 60; pc_name := "Pages"; pc_value := ItemProgressValue.Percentage 5000 |}] |}.

Definition sample_entry : Entry := {| en_item := 2; en_command := sample_progress_command; en_at := sample_now |}.

Lemma sample_recorded_store : recorded sample_store empty_progress [].
Proof.
  assert (∀ st st' journal, rtc item_step st st' → recorded st empty_progress journal → recorded st' empty_progress journal) as Hall.
  { induction 1 as [|st mid st' Hstep _ IH]; intros Hrec; [done|]. apply IH. by eapply recorded_items. }
  exact (Hall _ _ _ sample_store_reached recorded_empty).
Qed.

Lemma sample_recorded : ∃ p, recorded sample_store p [sample_entry].
Proof.
  assert (match put_progress sample_now 2 sample_progress_command sample_store empty_progress with
          | Ok (_, m) => negb (px_replayed m) | Err _ => false end = true) as Hput by (vm_compute; reflexivity).
  destruct (put_progress sample_now 2 sample_progress_command sample_store empty_progress) as [[p m]|e] eqn:Heq; [|discriminate Hput].
  exists p. apply negb_true_iff in Hput. pose proof (recorded_put _ _ _ _ _ _ _ _ sample_recorded_store Heq) as Hrec.
  by rewrite Hput in Hrec.
Qed.

Lemma progress_refines_journal_witness :
  ∃ p, recorded sample_store p [sample_entry] ∧ validate_progress_command sample_progress_command 2 = Ok tt.
Proof.
  destruct sample_recorded as [p Hrec]. exists p. split; [exact Hrec|].
  exact (proj1 (proj2 (progress_refines_journal sample_store p [sample_entry] Hrec) [] sample_entry [] eq_refl)).
Defined.

Lemma progress_answers_forever_witness :
  ∃ p m, recorded sample_store p [sample_entry] ∧ put_progress 0%Z 2 sample_progress_command sample_store p = Ok (p, m) ∧
    px_replayed m = true.
Proof.
  destruct sample_recorded as [p Hrec]. exists p. eexists. split; [exact Hrec|]. split.
  - exact (progress_answers_forever sample_store p [] sample_entry [] 0%Z 2 sample_progress_command Hrec eq_refl).
  - reflexivity.
Defined.
