(* ===== verification/Proposals.v ===== *)
(** * Proposals: suggestions that a user decides

    server/dayweave-api/src/proposals: domain.rs (a proposal and what may be done
    to it), repository.rs (the in-memory repository) and service.rs (the
    operations of the server).  A method of the repository is atomic, but an
    operation of the service is a sequence of them between which other
    operations run: it is a program of calls, and ProposalRuns runs programs
    side by side.  [revision += 1] is exact. *)
From S2P Require Import Prelude Text Platform Civil Domain Rrule Decimal Progress Completion Session ItemDomain CompletionPolicy ItemStore Delta.

(** ** JSON

    [serde_json::Value], with the representation of numbers left open; an object
    is the list of its members. *)

Class JsonNumbers : Type := { Number : Type }.

Section json.
Context `{JsonNumbers}.

Inductive Json : Type :=
| JNull
| JBool (b : bool)
| JNumber (n : Number)
| JString (s : string)
| JArray (values : list Json)
| JObject (members : list (string * Json)).

Definition json_is_object (v : Json) : bool := match v with JObject _ => true | _ => false end.

Definition json_get (v : Json) (key : string) : option Json :=
  match v with JObject members => snd <$> find (λ m, String.eqb m.1 key) members | _ => None end.

Definition json_as_str (v : Json) : option string := match v with JString s => Some s | _ => None end.

Definition has_control (s : string) : bool := existsb is_control_range (chars s).

Fixpoint json_has_unsupported_text (value : Json) (depth : nat) : bool :=
  if (64 <? depth)%nat then true
  else
    match value with
    | JString s => has_control s
    | JArray values => existsb (λ v, json_has_unsupported_text v (depth + 1)) values
    | JObject members => existsb (λ m, has_control m.1 || json_has_unsupported_text m.2 (depth + 1)) members
    | JNull | JBool _ | JNumber _ => false
    end.
End json.

(** ** Data *)

Definition MAX_TITLE_LENGTH : nat := 200.
Definition MAX_EXPLANATION_LENGTH : nat := Z.to_nat 4000.
Definition MAX_SOURCE_REFERENCE_LENGTH : nat := 500.
Definition MAX_DECISION_NOTE_LENGTH : nat := 1000.

Inductive ProposalSource : Type := AppAssistant | ChatGpt | Codex | ExternalMcp.

Module ProposalKind.
Inductive ProposalKind : Type :=
| CreateItem
| UpdateItem
| GoalBreakdown
| ConstraintChange
| CalendarEvent
| SchedulePlan
| Recommendation.
End ProposalKind.
Abbreviation ProposalKind := ProposalKind.ProposalKind.

Module ProposalStatus.
Inductive ProposalStatus : Type := Pending | Accepted | Rejected | Expired.
End ProposalStatus.
Abbreviation ProposalStatus := ProposalStatus.ProposalStatus.

Inductive DecisionKind : Type := Accept | Reject.

#[export] Instance ProposalSource_eq_dec : EqDecision ProposalSource.
Proof. solve_decision. Defined.
#[export] Instance ProposalStatus_eq_dec : EqDecision ProposalStatus.
Proof. solve_decision. Defined.
#[export] Instance DecisionKind_eq_dec : EqDecision DecisionKind.
Proof. solve_decision. Defined.

Module ProposalDomainError.
Inductive ProposalDomainError : Type :=
| Required (field : string)
| TooLong (field : string) (max_length : nat)
| UnsupportedText (field : string)
| PayloadMustBeObject
| ExpirationMustBeFuture
| EmptyEdit
| NotPending (status : ProposalStatus).
End ProposalDomainError.
Abbreviation ProposalDomainError := ProposalDomainError.ProposalDomainError.
Import ProposalDomainError.

Section proposals.
Context `{JsonNumbers}.

Record Proposal : Type := {
  pr_id : Uuid;
  pr_revision : N;
  pr_submitted_by : string;
  pr_source : ProposalSource;
  pr_source_reference : option string;
  pr_kind : ProposalKind;
  pr_status : ProposalStatus;
  pr_title : string;
  pr_explanation : option string;
  pr_payload : Json;
  pr_decision_note : option string;
  pr_created_at : DateTime;
  pr_updated_at : DateTime;
  pr_expires_at : DateTime;
  pr_decided_at : option DateTime
}.

Record NewProposal : Type := {
  np_submitted_by : string;
  np_source : ProposalSource;
  np_source_reference : option string;
  np_kind : ProposalKind;
  np_title : string;
  np_explanation : option string;
  np_payload : Json;
  np_expires_at : DateTime
}.

Record EditProposal : Type := {
  ep_title : option string;
  ep_explanation : option string;
  ep_payload : option Json;
  ep_expires_at : option DateTime
}.

(** ** Checks *)

Definition validate_length (field : string) (value : string) (max_length : nat) : result ProposalDomainError unit :=
  if (max_length <? length (chars value))%nat then Err (TooLong field max_length)
  else if has_control value then Err (UnsupportedText field)
  else Ok tt.

Definition validate_nonempty (field : string) (value : string) (max_length : nat) : result ProposalDomainError unit :=
  if is_blank value then Err (Required field) else validate_length field value max_length.

Definition validate_optional_length (field : string) (value : option string) (max_length : nat) : result ProposalDomainError unit :=
  match value with Some value => validate_length field value max_length | None => Ok tt end.

Definition validate_payload (payload : Json) : result ProposalDomainError unit :=
  if negb (json_is_object payload) then Err PayloadMustBeObject
  else if json_has_unsupported_text payload 0 then Err (UnsupportedText "payload")
  else Ok tt.

(** ** Operations *)

(** [Proposal::new]; the new identifier is an argument. *)
Definition new_proposal (id : Uuid) (input : NewProposal) (now : DateTime) : result ProposalDomainError Proposal :=
  let? _ := validate_nonempty "submitted_by" (np_submitted_by input) MAX_SOURCE_REFERENCE_LENGTH in
  let? _ := validate_nonempty "title" (np_title input) MAX_TITLE_LENGTH in
  let? _ := validate_optional_length "source_reference" (np_source_reference input) MAX_SOURCE_REFERENCE_LENGTH in
  let? _ := validate_optional_length "explanation" (np_explanation input) MAX_EXPLANATION_LENGTH in
  let? _ := validate_payload (np_payload input) in
  if (np_expires_at input <=? now)%Z then Err ExpirationMustBeFuture
  else
    Ok {| pr_id := id; pr_revision := 1; pr_submitted_by := np_submitted_by input; pr_source := np_source input;
          pr_source_reference := np_source_reference input; pr_kind := np_kind input; pr_status := ProposalStatus.Pending;
          pr_title := np_title input; pr_explanation := np_explanation input; pr_payload := np_payload input;
          pr_decision_note := None; pr_created_at := now; pr_updated_at := now; pr_expires_at := np_expires_at input;
          pr_decided_at := None |}.

(** A proposal whose status, note and decision instant are replaced, at the
    next revision ([bump_revision]). *)
Definition with_proposal_status (p : Proposal) (status : ProposalStatus) (note : option string) (decided_at : option DateTime) (now : DateTime)
    : Proposal :=
  {| pr_id := pr_id p; pr_revision := pr_revision p + 1; pr_submitted_by := pr_submitted_by p; pr_source := pr_source p;
     pr_source_reference := pr_source_reference p; pr_kind := pr_kind p; pr_status := status; pr_title := pr_title p;
     pr_explanation := pr_explanation p; pr_payload := pr_payload p; pr_decision_note := note; pr_created_at := pr_created_at p;
     pr_updated_at := now; pr_expires_at := pr_expires_at p; pr_decided_at := decided_at |}.

Definition is_due_proposal (p : Proposal) (now : DateTime) : bool :=
  bool_decide (pr_status p = ProposalStatus.Pending) && (pr_expires_at p <=? now)%Z.

(** [expire_if_due]: the proposal, and whether it expired. *)
Definition expire_if_due (p : Proposal) (now : DateTime) : Proposal * bool :=
  if is_due_proposal p now then (with_proposal_status p ProposalStatus.Expired (pr_decision_note p) (pr_decided_at p) now, true) else (p, false).

(** [ensure_pending]: the proposal, which may have expired, with the result. *)
Definition ensure_pending (p : Proposal) (now : DateTime) : Proposal * result ProposalDomainError unit :=
  let p := (expire_if_due p now).1 in
  (p, if bool_decide (pr_status p = ProposalStatus.Pending) then Ok tt else Err (NotPending (pr_status p))).

Definition is_empty_edit (edit : EditProposal) : bool :=
  negb (is_some (ep_title edit) || is_some (ep_explanation edit) || is_some (ep_payload edit) || is_some (ep_expires_at edit)).

Definition validate_edit (edit : EditProposal) (now : DateTime) : result ProposalDomainError unit :=
  if is_empty_edit edit then Err EmptyEdit
  else
    let? _ := match ep_title edit with Some title => validate_nonempty "title" title MAX_TITLE_LENGTH | None => Ok tt end in
    let? _ := match ep_explanation edit with
              | Some explanation => validate_nonempty "explanation" explanation MAX_EXPLANATION_LENGTH
              | None => Ok tt
              end in
    let? _ := match ep_payload edit with Some payload => validate_payload payload | None => Ok tt end in
    if match ep_expires_at edit with Some expires_at => (expires_at <=? now)%Z | None => false end then Err ExpirationMustBeFuture
    else Ok tt.

Definition with_edit (p : Proposal) (edit : EditProposal) (now : DateTime) : Proposal :=
  {| pr_id := pr_id p; pr_revision := pr_revision p + 1; pr_submitted_by := pr_submitted_by p; pr_source := pr_source p;
     pr_source_reference := pr_source_reference p; pr_kind := pr_kind p; pr_status := pr_status p;
     pr_title := default (pr_title p) (ep_title edit);
     pr_explanation := match ep_explanation edit with Some e => Some e | None => pr_explanation p end;
     pr_payload := default (pr_payload p) (ep_payload edit); pr_decision_note := pr_decision_note p;
     pr_created_at := pr_created_at p; pr_updated_at := now; pr_expires_at := default (pr_expires_at p) (ep_expires_at edit);
     pr_decided_at := pr_decided_at p |}.

(** [Proposal::edit] *)
Definition edit_proposal (p : Proposal) (edit : EditProposal) (now : DateTime) : Proposal * result ProposalDomainError unit :=
  let (p, pending) := ensure_pending p now in
  match rbind pending (λ _, validate_edit edit now) with
  | Err e => (p, Err e)
  | Ok _ => (with_edit p edit now, Ok tt)
  end.

Definition status_of_decision (decision : DecisionKind) : ProposalStatus :=
  match decision with Accept => ProposalStatus.Accepted | Reject => ProposalStatus.Rejected end.

(** [Proposal::decide] *)
Definition decide_proposal (p : Proposal) (decision : DecisionKind) (note : option string) (now : DateTime)
    : Proposal * result ProposalDomainError unit :=
  let (p, pending) := ensure_pending p now in
  match rbind pending (λ _, validate_optional_length "decision_note" note MAX_DECISION_NOTE_LENGTH) with
  | Err e => (p, Err e)
  | Ok _ => (with_proposal_status p (status_of_decision decision) note (Some now) now, Ok tt)
  end.
End proposals.

(** ** The repository *)

Module RepositoryError.
Inductive RepositoryError : Type :=
| NotFound (id : Uuid)
| Duplicate (id : Uuid)
| RevisionConflict (expected actual : N)
| Internal.
End RepositoryError.
Abbreviation RepositoryError := RepositoryError.RepositoryError.

Record ProposalQuery : Type := {
  pq_status : option ProposalStatus;
  pq_source : option ProposalSource;
  pq_limit : N
}.

(** [Vec::truncate] *)
Definition truncate {A} (limit : N) (l : list A) : list A :=
  if (N.of_nat (length l) <=? limit)%N then l else take (N.to_nat limit) l.

Section repository.
Context `{JsonNumbers}.

Abbreviation Store := (gmap Uuid Proposal).

Definition insert_proposal (store : Store) (p : Proposal) : Store * result RepositoryError Proposal :=
  if is_some (store !! pr_id p) then (store, Err (RepositoryError.Duplicate (pr_id p)))
  else (<[pr_id p := p]> store, Ok p).

Definition get_proposal (store : Store) (id : Uuid) : result RepositoryError Proposal :=
  ok_or (store !! id) (RepositoryError.NotFound id).

Definition matches_source (query : ProposalQuery) (p : Proposal) : bool :=
  match pq_source query with Some source => bool_decide (pr_source p = source) | None => true end.

Definition matches_status (query : ProposalQuery) (p : Proposal) : bool :=
  match pq_status query with Some status => bool_decide (pr_status p = status) | None => true end.

(** The latest first *)
Definition newest_proposal_cmp (left right : Proposal) : comparison :=
  then_with (pr_created_at right ?= pr_created_at left)%Z (pr_id right ?= pr_id left)%N.

Definition list_proposals (store : Store) (query : ProposalQuery) : list Proposal :=
  truncate (pq_limit query)
    (sort_by (λ a b, is_le (newest_proposal_cmp a b))
       (filter (λ p, matches_source query p = true) (filter (λ p, matches_status query p = true) (values store)))).

Definition replace_proposal (store : Store) (p : Proposal) (expected_revision : N) : Store * result RepositoryError Proposal :=
  match store !! pr_id p with
  | None => (store, Err (RepositoryError.NotFound (pr_id p)))
  | Some current =>
      if negb (pr_revision current =? expected_revision)%N
      then (store, Err (RepositoryError.RevisionConflict expected_revision (pr_revision current)))
      else (<[pr_id p := p]> store, Ok p)
  end.

Definition delete_proposal (store : Store) (id : Uuid) (expected_revision : N) : Store * result RepositoryError unit :=
  match store !! id with
  | None => (store, Err (RepositoryError.NotFound id))
  | Some current =>
      if negb (pr_revision current =? expected_revision)%N
      then (store, Err (RepositoryError.RevisionConflict expected_revision (pr_revision current)))
      else (delete id store, Ok tt)
  end.
End repository.

(** ** Programs

    What an operation of the service does: reading the clock, drawing an
    identifier, and the methods of the repository. *)

Section programs.
Context `{JsonNumbers}.

Inductive prog (A : Type) : Type :=
| Ret (a : A)
| Now (k : DateTime → prog A)
| Fresh (k : Uuid → prog A)
| Insert (p : Proposal) (k : result RepositoryError Proposal → prog A)
| Get (id : Uuid) (k : result RepositoryError Proposal → prog A)
| List (query : ProposalQuery) (k : list Proposal → prog A)
| Replace (p : Proposal) (expected_revision : N) (k : result RepositoryError Proposal → prog A)
| Delete (id : Uuid) (expected_revision : N) (k : result RepositoryError unit → prog A).

Fixpoint pbind {A B} (m : prog A) (f : A → prog B) : prog B :=
  match m with
  | Ret _ a => f a
  | Now _ k => Now B (λ now, pbind (k now) f)
  | Fresh _ k => Fresh B (λ id, pbind (k id) f)
  | Insert _ p k => Insert B p (λ r, pbind (k r) f)
  | Get _ id k => Get B id (λ r, pbind (k r) f)
  | List _ query k => List B query (λ l, pbind (k l) f)
  | Replace _ p revision k => Replace B p revision (λ r, pbind (k r) f)
  | Delete _ id revision k => Delete B id revision (λ r, pbind (k r) f)
  end.
End programs.

Arguments Ret {_ A} a.
Arguments Now {_ A} k.
Arguments Fresh {_ A} k.
Arguments Insert {_ A} p k.
Arguments Get {_ A} id k.
Arguments List {_ A} query k.
Arguments Replace {_ A} p expected_revision k.
Arguments Delete {_ A} id expected_revision k.

(** ** The service *)

Module ProposalServiceError.
Inductive ProposalServiceError : Type :=
| ReservedChangeSetRequiresApplication
| Domain (e : ProposalDomainError)
| Repository (e : RepositoryError).
End ProposalServiceError.
Abbreviation ProposalServiceError := ProposalServiceError.ProposalServiceError.
Import ProposalServiceError.

Section service.
Context `{JsonNumbers}.

Abbreviation Answer A := (prog (result ProposalServiceError A)).

(** The [?] operator after a call *)
Definition and_then {A B} (m : Answer A) (f : A → Answer B) : Answer B :=
  pbind m (λ r, match r with Ok a => f a | Err e => Ret (Err e) end).

Definition stored {A} (r : result RepositoryError A) : result ProposalServiceError A := map_err Repository r.

Definition uses_reserved_change_set_namespace (payload : Json) : bool :=
  match json_get payload "schema" ≫= json_as_str with
  | Some schema => String.prefix "dayweave.proposal-change-set/" schema
  | None => false
  end.

Definition ensure_revision_of (p : Proposal) (expected_revision : N) : result ProposalServiceError unit :=
  if (pr_revision p =? expected_revision)%N then Ok tt
  else Err (Repository (RepositoryError.RevisionConflict expected_revision (pr_revision p))).

(** [create]: [prepare] and [persist_prepared]. *)
Definition prepare_proposal (input : NewProposal) : Answer Proposal :=
  Now (λ now, Fresh (λ id, Ret (map_err Domain (new_proposal id input now)))).

Definition persist_prepared (p : Proposal) : Answer Proposal := Insert p (λ r, Ret (stored r)).

Definition create_proposal (input : NewProposal) : Answer Proposal := and_then (prepare_proposal input) persist_prepared.

Definition normalize_expiration (p : Proposal) : Answer Proposal :=
  Now (λ now,
    let (expired, due) := expire_if_due p now in
    if negb due then Ret (Ok p)
    else
      Replace expired (pr_revision p) (λ r,
        match r with
        | Err (RepositoryError.RevisionConflict _ _) => Get (pr_id p) (λ r, Ret (stored r))
        | r => Ret (stored r)
        end)).

(** [ProposalService::get] *)
Definition read_proposal (id : Uuid) : Answer Proposal :=
  and_then (Get id (λ r, Ret (stored r))) normalize_expiration.

Fixpoint normalize_all (ps : list Proposal) : Answer (list Proposal) :=
  match ps with
  | [] => Ret (Ok [])
  | p :: ps => and_then (normalize_expiration p) (λ p, and_then (normalize_all ps) (λ later, Ret (Ok (p :: later))))
  end.

(** [ProposalService::list] *)
Definition browse_proposals (query : ProposalQuery) : Answer (list Proposal) :=
  List {| pq_status := None; pq_source := pq_source query; pq_limit := usize_max |} (λ ps,
    and_then (normalize_all ps) (λ normalized,
      Ret (Ok (truncate (pq_limit query) (filter (λ p, matches_status query p = true) normalized))))).

(** [ProposalService::edit] *)
Definition revise_proposal (id : Uuid) (expected_revision : N) (edit : EditProposal) : Answer Proposal :=
  and_then (read_proposal id) (λ p,
    match ensure_revision_of p expected_revision with
    | Err e => Ret (Err e)
    | Ok _ =>
        Now (λ now,
          match edit_proposal p edit now with
          | (_, Err e) => Ret (Err (Domain e))
          | (p, Ok _) => Replace p expected_revision (λ r, Ret (stored r))
          end)
    end).

(** [ProposalService::decide] *)
Definition settle_proposal (id : Uuid) (expected_revision : N) (decision : DecisionKind) (note : option string) : Answer Proposal :=
  and_then (read_proposal id) (λ p,
    match ensure_revision_of p expected_revision with
    | Err e => Ret (Err e)
    | Ok _ =>
        if bool_decide (decision = Accept) && uses_reserved_change_set_namespace (pr_payload p)
        then Ret (Err ReservedChangeSetRequiresApplication)
        else
          Now (λ now,
            match decide_proposal p decision note now with
            | (_, Err e) => Ret (Err (Domain e))
            | (p, Ok _) => Replace p expected_revision (λ r, Ret (stored r))
            end)
    end).

(** [ProposalService::delete] *)
Definition remove_proposal (id : Uuid) (expected_revision : N) : Answer unit :=
  Delete id expected_revision (λ r, Ret (stored r)).
End service.
