(* ===== verification/ProposalRuns.v ===== *)
(** * ProposalRuns: proposals decided once, whatever runs side by side

    The operations of Proposals run side by side: between any two calls of one,
    others may call the repository.  Every version that is stored is a lawful
    successor of the version stored before it, since a replacement names the
    revision it was made from; so a proposal is decided at most once, before it
    expires, and stays as it was decided. *)
From S2P Require Import Prelude Text Platform Civil Domain Rrule Decimal Progress Completion Session ItemDomain CompletionPolicy ItemStore Delta Proposals.
Import ProposalServiceError.

Section runs.
Context `{JsonNumbers}.

(** ** Versions *)

(** What the service may do to a proposal, at a time. *)
Inductive amends (t : DateTime) (p p' : Proposal) : Prop :=
| by_edit edit : edit_proposal p edit t = (p', Ok tt) → amends t p p'
| by_decision decision note :
    decide_proposal p decision note t = (p', Ok tt) →
    (decision = Accept → uses_reserved_change_set_namespace (pr_payload p) = false) → amends t p p'
| by_expiry : expire_if_due p t = (p', true) → amends t p p'.

(** The versions of a proposal, in order. *)
Inductive lifecycle : list Proposal → Prop :=
| lifecycle_none : lifecycle []
| lifecycle_new id input t p : new_proposal id input t = Ok p → lifecycle [p]
| lifecycle_next versions p t p' : lifecycle (versions ++ [p]) → amends t p p' → lifecycle (versions ++ [p; p']).

Lemma ensure_pending_Ok p t p' : ensure_pending p t = (p', Ok tt) → p' = p ∧ pr_status p = ProposalStatus.Pending ∧ (t < pr_expires_at p)%Z.
Proof.
  unfold ensure_pending, expire_if_due, is_due_proposal. destruct (decide (pr_status p = ProposalStatus.Pending)) as [Hp|Hp].
  - rewrite bool_decide_true by done. destruct (Z.leb_spec (pr_expires_at p) t); cbn [andb fst].
    + rewrite bool_decide_false by done. done.
    + rewrite bool_decide_true by done. intros [= <-]. split; [done|]. split; [done|lia].
  - rewrite bool_decide_false by done. cbn [andb fst]. by rewrite bool_decide_false.
Qed.

Lemma edit_Ok p edit t p' :
  edit_proposal p edit t = (p', Ok tt) →
  pr_status p = ProposalStatus.Pending ∧ (t < pr_expires_at p)%Z ∧ validate_edit edit t = Ok tt ∧ p' = with_edit p edit t.
Proof.
  unfold edit_proposal. destruct (ensure_pending p t) as [q [[]|e]] eqn:Hp; [|done]. apply ensure_pending_Ok in Hp as (-> & Hs & Ht).
  cbn. destruct (validate_edit edit t) as [[]|e]; [|done]. by intros [= <-].
Qed.

Lemma decide_Ok p decision note t p' :
  decide_proposal p decision note t = (p', Ok tt) →
  pr_status p = ProposalStatus.Pending ∧ (t < pr_expires_at p)%Z ∧
  p' = with_proposal_status p (status_of_decision decision) note (Some t) t.
Proof.
  unfold decide_proposal. destruct (ensure_pending p t) as [q [[]|e]] eqn:Hp; [|done]. apply ensure_pending_Ok in Hp as (-> & Hs & Ht).
  cbn. destruct (validate_optional_length _ _ _) as [[]|e]; [|done]. by intros [= <-].
Qed.

Lemma expiry_Ok p t p' :
  expire_if_due p t = (p', true) →
  pr_status p = ProposalStatus.Pending ∧ (pr_expires_at p <= t)%Z ∧
  p' = with_proposal_status p ProposalStatus.Expired (pr_decision_note p) (pr_decided_at p) t.
Proof.
  unfold expire_if_due, is_due_proposal. destruct (bool_decide _) eqn:Hs; [|done]. destruct (Z.leb_spec (pr_expires_at p) t); [|done].
  intros [= <-]. by apply bool_decide_eq_true in Hs.
Qed.

Lemma amends_pending t p p' :
  amends t p p' → pr_status p = ProposalStatus.Pending ∧ pr_id p' = pr_id p ∧ pr_revision p' = (pr_revision p + 1)%N.
Proof.
  intros [edit (Hs & _ & _ & ->)%edit_Ok|decision note (Hs & _ & ->)%decide_Ok _|(Hs & _ & ->)%expiry_Ok]; done.
Qed.

Lemma lifecycle_prefix versions rest : lifecycle (versions ++ rest) → lifecycle versions.
Proof.
  induction rest as [|p rest IH] using rev_ind; [by rewrite app_nil_r|]. intros Hl. apply IH.
  rewrite app_assoc in Hl. inversion Hl as [Heq|id input t q Hnew Heq|vs q t q' Hq Ham Heq].
  - by destruct (versions ++ rest).
  - destruct (versions ++ rest); [constructor|]. by destruct l.
  - change [q; q'] with ([q] ++ [q']) in Heq. rewrite app_assoc in Heq. apply app_inj_tail in Heq as [<- _]. done.
Qed.

Lemma lifecycle_revision versions i p :
  lifecycle versions → versions !! i = Some p → pr_revision p = N.of_nat (S i).
Proof.
  intros Hl. revert i p. induction Hl as [|id input t q Hnew|vs q t q' Hq IH Ham]; intros i p Hi.
  - done.
  - destruct i; [|done]. injection Hi as <-. unfold new_proposal in Hnew.
    do 5 (apply rbind_ok in Hnew as ([] & _ & Hnew)). destruct (_ <=? _)%Z; [done|]. by injection Hnew as <-.
  - change [q; q'] with ([q] ++ [q']) in Hi. rewrite app_assoc in Hi. apply lookup_app_Some in Hi as [Hi|[Hlen Hi]]; [by apply IH|].
    apply list_lookup_singleton_Some in Hi as [Hi <-]. apply amends_pending in Ham as (_ & _ & ->).
    rewrite (IH (length vs) q); [|by rewrite lookup_app_r, Nat.sub_diag by lia]. rewrite length_app in Hlen, Hi. cbn in *. lia.
Qed.

Lemma lifecycle_pending versions p p' rest :
  lifecycle (versions ++ p :: p' :: rest) → ∃ t, amends t p p'.
Proof.
  replace (versions ++ p :: p' :: rest) with ((versions ++ [p; p']) ++ rest) by (by rewrite <-app_assoc).
  intros Hl%lifecycle_prefix. inversion Hl as [Heq|id input t q Hnew Heq|vs q t q' Hq Ham Heq].
  - by destruct versions.
  - destruct versions as [|? [|]]; done.
  - change [q; q'] with ([q] ++ [q']) in Heq. change [p; p'] with ([p] ++ [p']) in Heq. rewrite !app_assoc in Heq.
    apply app_inj_tail in Heq as [Heq ->]. apply app_inj_tail in Heq as [_ ->]. by exists t.
Qed.

(** ** Operations that run *)

Inductive ProposalRequest : Type :=
| AskCreate (input : NewProposal)
| AskGet (id : Uuid)
| AskList (query : ProposalQuery)
| AskEdit (id : Uuid) (expected_revision : N) (edit : EditProposal)
| AskDecide (id : Uuid) (expected_revision : N) (decision : DecisionKind) (note : option string)
| AskDelete (id : Uuid) (expected_revision : N).

Inductive ProposalAnswer : Type :=
| AnswerOne (r : result ProposalServiceError Proposal)
| AnswerMany (r : result ProposalServiceError (list Proposal))
| AnswerDone (r : result ProposalServiceError unit).

Definition answer {A} (f : A → ProposalAnswer) (m : prog A) : prog ProposalAnswer := pbind m (λ a, Ret (f a)).

Definition serve (request : ProposalRequest) : prog ProposalAnswer :=
  match request with
  | AskCreate input => answer AnswerOne (create_proposal input)
  | AskGet id => answer AnswerOne (read_proposal id)
  | AskList query => answer AnswerMany (browse_proposals query)
  | AskEdit id revision edit => answer AnswerOne (revise_proposal id revision edit)
  | AskDecide id revision decision note => answer AnswerOne (settle_proposal id revision decision note)
  | AskDelete id revision => answer AnswerDone (remove_proposal id revision)
  end.

(** The server: the repository, the time, what remains of the running
    operations, by their numbers, and two records that no code keeps: every
    version stored, with the operation that stored it, and the answers. *)
Record Server : Type := {
  sv_store : gmap Uuid Proposal;
  sv_now : DateTime;
  sv_running : gmap nat (ProposalRequest * prog ProposalAnswer);
  sv_log : list (nat * Proposal);
  sv_answers : gmap nat (ProposalRequest * ProposalAnswer)
}.

Definition new_server (now : DateTime) : Server :=
  {| sv_store := ∅; sv_now := now; sv_running := ∅; sv_log := []; sv_answers := ∅ |}.

Definition proceed (s : Server) (n : nat) (request : ProposalRequest) (m : prog ProposalAnswer) (store : gmap Uuid Proposal)
    (written : list Proposal) : Server :=
  {| sv_store := store; sv_now := sv_now s; sv_running := <[n := (request, m)]> (sv_running s);
     sv_log := sv_log s ++ (pair n <$> written); sv_answers := sv_answers s |}.

Definition written {A} (r : result RepositoryError A) : list A := match r with Ok a => [a] | Err _ => [] end.

(** One call of an operation, in the server. *)
Inductive call_step (s : Server) (n : nat) (request : ProposalRequest) : prog ProposalAnswer → Server → Prop :=
| call_now k : call_step s n request (Now k) (proceed s n request (k (sv_now s)) (sv_store s) [])
| call_fresh k id : call_step s n request (Fresh k) (proceed s n request (k id) (sv_store s) [])
| call_insert p k store r :
    (∀ v, v ∈ sv_log s → pr_id v.2 ≠ pr_id p) → insert_proposal (sv_store s) p = (store, r) →
    call_step s n request (Insert p k) (proceed s n request (k r) store (written r))
| call_get id k : call_step s n request (Get id k) (proceed s n request (k (get_proposal (sv_store s) id)) (sv_store s) [])
| call_list query k : call_step s n request (List query k) (proceed s n request (k (list_proposals (sv_store s) query)) (sv_store s) [])
| call_replace p revision k store r :
    replace_proposal (sv_store s) p revision = (store, r) →
    call_step s n request (Replace p revision k) (proceed s n request (k r) store (written r))
| call_delete id revision k store r :
    delete_proposal (sv_store s) id revision = (store, r) →
    call_step s n request (Delete id revision k) (proceed s n request (k r) store []).

(** Requests arrive, time passes, operations make their calls and answer.  An
    identifier that is drawn was not used before. *)
Inductive server_step (s : Server) : Server → Prop :=
| step_arrive n request :
    sv_running s !! n = None → sv_answers s !! n = None →
    server_step s (proceed s n request (serve request) (sv_store s) [])
| step_time now :
    (sv_now s <= now)%Z →
    server_step s {| sv_store := sv_store s; sv_now := now; sv_running := sv_running s; sv_log := sv_log s; sv_answers := sv_answers s |}
| step_call n request m s' :
    sv_running s !! n = Some (request, m) → call_step s n request m s' → server_step s s'
| step_answer n request a :
    sv_running s !! n = Some (request, Ret a) →
    server_step s {| sv_store := sv_store s; sv_now := sv_now s; sv_running := delete n (sv_running s); sv_log := sv_log s;
                     sv_answers := <[n := (request, a)]> (sv_answers s) |}.

(** ** Lawful programs *)

Abbreviation Log := (list (nat * Proposal)).

Definition knows (log : Log) (p : Proposal) : Prop := ∃ n, (n, p) ∈ log.

(** A program of operation [n] that only stores lawful versions, and answers as
    [Q] says, however the log grows meanwhile. *)
Inductive lawful {A} (n : nat) (Q : Log → A → Prop) : Log → DateTime → prog A → Prop :=
| lawful_ret log now a : Q log a → lawful n Q log now (Ret a)
| lawful_now log now k :
    (∀ log' now', log `prefix_of` log' → (now <= now')%Z → lawful n Q log' now' (k now')) → lawful n Q log now (Now k)
| lawful_fresh log now k :
    (∀ log' now' id, log `prefix_of` log' → (now <= now')%Z → lawful n Q log' now' (k id)) → lawful n Q log now (Fresh k)
| lawful_insert log now p k input t :
    new_proposal (pr_id p) input t = Ok p →
    (∀ log' now' r, log `prefix_of` log' → (now <= now')%Z → (∀ p', r = Ok p' → p' = p ∧ (n, p) ∈ log') → lawful n Q log' now' (k r)) →
    lawful n Q log now (Insert p k)
| lawful_get log now id k :
    (∀ log' now' r, log `prefix_of` log' → (now <= now')%Z → (∀ p, r = Ok p → knows log' p ∧ pr_id p = id) → lawful n Q log' now' (k r)) →
    lawful n Q log now (Get id k)
| lawful_list log now query k :
    (∀ log' now' ps, log `prefix_of` log' → (now <= now')%Z → (∀ p, p ∈ ps → knows log' p) → lawful n Q log' now' (k ps)) →
    lawful n Q log now (List query k)
| lawful_replace log now p revision k q t :
    knows log q → pr_id q = pr_id p → pr_revision q = revision → amends t q p →
    (∀ log' now' r, log `prefix_of` log' → (now <= now')%Z → (∀ p', r = Ok p' → p' = p ∧ (n, p) ∈ log') → lawful n Q log' now' (k r)) →
    lawful n Q log now (Replace p revision k)
| lawful_delete log now id revision k :
    (∀ log' now' r, log `prefix_of` log' → (now <= now')%Z → lawful n Q log' now' (k r)) → lawful n Q log now (Delete id revision k).

Lemma knows_mono log log' p : log `prefix_of` log' → knows log p → knows log' p.
Proof. intros [rest ->] [n Hn]. exists n. apply elem_of_app. by left. Qed.

Lemma lawful_mono {A} n (Q : Log → A → Prop) log now log' now' m :
  (∀ l l' a, l `prefix_of` l' → Q l a → Q l' a) → log `prefix_of` log' → (now <= now')%Z →
  lawful n Q log now m → lawful n Q log' now' m.
Proof.
  intros HQ Hlog Hnow Hm. destruct Hm.
  - constructor. by eapply HQ.
  - constructor. intros l t Hl Ht. apply H0; [by etrans|lia].
  - constructor. intros l t i Hl Ht. apply H0; [by etrans|lia].
  - econstructor; [done|]. intros l u r Hl Hu Hr. apply H1; [by etrans|lia|done].
  - constructor. intros l u r Hl Hu Hr. apply H0; [by etrans|lia|done].
  - constructor. intros l u r Hl Hu Hr. apply H0; [by etrans|lia|done].
  - econstructor; [by eapply knows_mono|done..|]. intros l u r Hl Hu Hr. apply H4; [by etrans|lia|done].
  - constructor. intros l u r Hl Hu. apply H0; [by etrans|lia].
Qed.

Lemma lawful_bind {A B} n (Q : Log → A → Prop) (Q' : Log → B → Prop) log now (m : prog A) (f : A → prog B) :
  lawful n Q log now m →
  (∀ log' now' a, log `prefix_of` log' → (now <= now')%Z → Q log' a → lawful n Q' log' now' (f a)) →
  lawful n Q' log now (pbind m f).
Proof.
  induction 1; intros Hf; cbn [pbind].
  - by apply Hf.
  - constructor. intros l t Hl Ht. apply H1; [done|done|]. intros l' t' a Hl' Ht'. apply Hf; [by etrans|lia].
  - constructor. intros l t i Hl Ht. apply H1; [done|done|]. intros l' t' a Hl' Ht'. apply Hf; [by etrans|lia].
  - econstructor; [done|]. intros l u r Hl Hu Hr. apply H2; [done..|]. intros l' t' a Hl' Ht'. apply Hf; [by etrans|lia].
  - constructor. intros l u r Hl Hu Hr. apply H1; [done..|]. intros l' t' a Hl' Ht'. apply Hf; [by etrans|lia].
  - constructor. intros l u r Hl Hu Hr. apply H1; [done..|]. intros l' t' a Hl' Ht'. apply Hf; [by etrans|lia].
  - econstructor; [done..|]. intros l u r Hl Hu Hr. apply H5; [done..|]. intros l' t' a Hl' Ht'. apply Hf; [by etrans|lia].
  - constructor. intros l u r Hl Hu. apply H1; [done..|]. intros l' t' a Hl' Ht'. apply Hf; [by etrans|lia].
Qed.

Definition of_result {A} (Q : Log → A → Prop) (log : Log) (r : result ProposalServiceError A) : Prop := ∀ a, r = Ok a → Q log a.

Lemma lawful_and_then {A B} n (Q : Log → A → Prop) (Q' : Log → B → Prop) log now (m : prog (result ProposalServiceError A)) f :
  lawful n (of_result Q) log now m →
  (∀ log' now' a, log `prefix_of` log' → (now <= now')%Z → Q log' a → lawful n (of_result Q') log' now' (f a)) →
  lawful n (of_result Q') log now (and_then m f).
Proof.
  intros Hm Hf. eapply lawful_bind; [exact Hm|]. intros l t [a|e] Hl Ht HQ; [apply Hf; [done|done|by apply HQ]|]. constructor. by intros b.
Qed.

Lemma stored_Ok {A} (r : result RepositoryError A) a : stored r = Ok a ↔ r = Ok a.
Proof. unfold stored. by rewrite map_err_ok. Qed.

(** ** The operations are lawful *)

Definition known_at (id : Uuid) (log : Log) (p : Proposal) : Prop := knows log p ∧ pr_id p = id.

Definition all_known (log : Log) (ps : list Proposal) : Prop := ∀ p, p ∈ ps → knows log p.

Lemma expired_lawful n (Q : Log → result ProposalServiceError Proposal → Prop) log now p p' t k :
  knows log p → expire_if_due p t = (p', true) →
  (∀ log' now' r, log `prefix_of` log' → (now <= now')%Z → (∀ q, r = Ok q → q = p' ∧ (n, p') ∈ log') → lawful n Q log' now' (k r)) →
  lawful n Q log now (Replace p' (pr_revision p) k).
Proof.
  intros Hp Ht Hk. eapply lawful_replace; [exact Hp| |done|by apply by_expiry|done].
  apply expiry_Ok in Ht as (_ & _ & ->). done.
Qed.

Lemma normalize_lawful n log now p :
  knows log p → lawful n (of_result (known_at (pr_id p))) log now (normalize_expiration p).
Proof.
  intros Hp. constructor. intros l t Hl Ht. apply (knows_mono _ l) in Hp; [|done].
  destruct (expire_if_due p t) as [p' due] eqn:Hdue. destruct due; cbn [negb].
  2:{ constructor. by intros q [= <-]. }
  assert (pr_id p' = pr_id p) as Hid by (apply expiry_Ok in Hdue as (_ & _ & ->); done).
  eapply expired_lawful; [done|done|]. intros l' t' r Hl' Ht' Hr. destruct r as [q|e].
  - constructor. intros a Ha%stored_Ok. injection Ha as ->. destruct (Hr a) as [-> Hin]; [done|]. split; [by exists n|done].
  - destruct e; try (constructor; by intros a Ha%stored_Ok). constructor. intros l2 t2 r Hl2 Ht2 Hr2.
    constructor. intros a Ha%stored_Ok. destruct (Hr2 a Ha). done.
Qed.

Lemma read_lawful n log now id : lawful n (of_result (known_at id)) log now (read_proposal id).
Proof.
  eapply lawful_and_then with (Q := known_at id).
  - constructor. intros l t r Hl Ht Hr. constructor. intros a Ha%stored_Ok. by apply Hr.
  - intros l t p Hl Ht [Hp <-]. by apply normalize_lawful.
Qed.

Lemma all_known_mono l l' ps : l `prefix_of` l' → all_known l ps → all_known l' ps.
Proof. intros Hl Hall p Hp. eapply knows_mono; [done|]. by apply Hall. Qed.

Lemma normalize_all_lawful n log now ps : all_known log ps → lawful n (of_result all_known) log now (normalize_all ps).
Proof.
  revert log now. induction ps as [|p ps IH]; intros log now Hall; cbn [normalize_all].
  - constructor. intros a [= <-] q Hq. by apply elem_of_nil in Hq.
  - eapply lawful_and_then; [apply normalize_lawful, Hall; by left|]. intros l t q Hl Ht [Hq _].
    eapply lawful_and_then; [apply IH|].
    + intros x Hx. eapply knows_mono; [done|]. apply Hall. by right.
    + intros l' t' later Hl' Ht' Hlater. constructor. intros a [= <-] x [->|Hx]%elem_of_cons; [by eapply knows_mono|by apply Hlater].
Qed.

Lemma browse_lawful n log now query : lawful n (of_result all_known) log now (browse_proposals query).
Proof.
  constructor. intros l t ps Hl Ht Hps. eapply lawful_and_then; [by apply normalize_all_lawful|].
  intros l' t' normalized Hl' Ht' Hall. constructor. intros a [= <-] p Hp. apply Hall.
  unfold truncate in Hp. destruct (_ <=? _)%N; [|apply elem_of_take in Hp as (i & Hi & _); apply list_elem_of_lookup_2 in Hi as Hp];
    by apply list_elem_of_filter in Hp as [_ Hp].
Qed.

(** What an operation stored, from the revision it named. *)
Definition stored_next (n : nat) (id : Uuid) (revision : N) (log : Log) (p : Proposal) : Prop :=
  (n, p) ∈ log ∧ pr_id p = id ∧ pr_revision p = (revision + 1)%N.

Lemma ensure_revision_Ok p revision : ensure_revision_of p revision = Ok tt → pr_revision p = revision.
Proof. unfold ensure_revision_of. by destruct (N.eqb_spec (pr_revision p) revision). Qed.

Lemma revise_lawful n log now id revision edit :
  lawful n (of_result (stored_next n id revision)) log now (revise_proposal id revision edit).
Proof.
  eapply lawful_and_then; [apply read_lawful|]. intros l t p Hl Ht [Hp Hid].
  destruct (ensure_revision_of p revision) as [[]|e] eqn:Hrev; [|by constructor; intros a]. apply ensure_revision_Ok in Hrev.
  constructor. intros l' t' Hl' Ht'. destruct (edit_proposal p edit t') as [p' [[]|e]] eqn:He; [|by constructor; intros a].
  pose proof (by_edit t' p p' edit He) as Hamends. destruct (amends_pending _ _ _ Hamends) as (_ & Hid' & Hrev').
  eapply lawful_replace; [by eapply knows_mono|done|done|done|]. intros l2 t2 r Hl2 Ht2 Hr.
  constructor. intros a Ha%stored_Ok. destruct (Hr a Ha) as [-> Hin]. split; [done|]. rewrite Hid', Hrev'. by subst.
Qed.

Definition decided (p : Proposal) (decision : DecisionKind) (note : option string) : Prop :=
  pr_status p = status_of_decision decision ∧ pr_decision_note p = note ∧
  (decision = Accept → uses_reserved_change_set_namespace (pr_payload p) = false).

Lemma settle_lawful n log now id revision decision note :
  lawful n (of_result (λ log p, stored_next n id revision log p ∧ decided p decision note)) log now
    (settle_proposal id revision decision note).
Proof.
  eapply lawful_and_then; [apply read_lawful|]. intros l t p Hl Ht [Hp Hid].
  destruct (ensure_revision_of p revision) as [[]|e] eqn:Hrev; [|by constructor; intros a]. apply ensure_revision_Ok in Hrev.
  destruct (bool_decide (decision = Accept) && _) eqn:Hreserved; [by constructor; intros a|].
  constructor. intros l' t' Hl' Ht'. destruct (decide_proposal p decision note t') as [p' [[]|e]] eqn:He; [|by constructor; intros a].
  assert (decision = Accept → uses_reserved_change_set_namespace (pr_payload p) = false) as Hfree.
  { intros ->. by rewrite bool_decide_true in Hreserved. }
  pose proof (by_decision t' p p' decision note He Hfree) as Hamends. destruct (amends_pending _ _ _ Hamends) as (_ & Hid' & Hrev').
  apply decide_Ok in He as (_ & _ & Hp').
  eapply lawful_replace; [by eapply knows_mono|done|done|done|]. intros l2 t2 r Hl2 Ht2 Hr.
  constructor. intros a Ha%stored_Ok. destruct (Hr a Ha) as [-> Hin]. split; [split; [done|]; rewrite Hid', Hrev'; by subst|].
  rewrite Hp'. done.
Qed.

Lemma create_lawful n log now input : lawful n (of_result (λ log p, (n, p) ∈ log)) log now (create_proposal input).
Proof.
  eapply lawful_and_then with (Q := λ _ p, ∃ id t, new_proposal id input t = Ok p).
  - constructor. intros l t Hl Ht. constructor. intros l' t' id Hl' Ht'. constructor. intros p Hp%map_err_ok. by exists id, t.
  - intros l t p Hl Ht (id & u & Hp). assert (pr_id p = id) as Hid.
    { unfold new_proposal in Hp. do 5 (apply rbind_ok in Hp as ([] & _ & Hp)). destruct (_ <=? _)%Z; [done|]. by injection Hp as <-. }
    eapply lawful_insert; [by rewrite Hid|]. intros l' t' r Hl' Ht' Hr. constructor. intros a Ha%stored_Ok. by destruct (Hr a Ha) as [-> ?].
Qed.

(** What an answer of operation [n] says. *)
Definition answered (n : nat) (request : ProposalRequest) (log : Log) (a : ProposalAnswer) : Prop :=
  match request, a with
  | AskCreate _, AnswerOne r => of_result (λ log p, (n, p) ∈ log) log r
  | AskGet id, AnswerOne r => of_result (known_at id) log r
  | AskList _, AnswerMany r => of_result all_known log r
  | AskEdit id revision _, AnswerOne r => of_result (stored_next n id revision) log r
  | AskDecide id revision decision note, AnswerOne r =>
      of_result (λ log p, stored_next n id revision log p ∧ decided p decision note) log r
  | AskDelete _ _, AnswerDone _ => True
  | _, _ => False
  end.

Lemma lawful_answer {A} n (Q : Log → A → Prop) (Q' : Log → ProposalAnswer → Prop) (f : A → ProposalAnswer) log now m :
  (∀ log a, Q log a → Q' log (f a)) → lawful n Q log now m → lawful n Q' log now (answer f m).
Proof. intros HQ Hm. eapply lawful_bind; [exact Hm|]. intros l t a _ _ Ha. constructor. by apply HQ. Qed.

Lemma serve_lawful n request log now : lawful n (answered n request) log now (serve request).
Proof.
  destruct request; cbn [serve].
  - eapply lawful_answer; [|apply create_lawful]. done.
  - eapply lawful_answer; [|apply read_lawful]. done.
  - eapply lawful_answer; [|apply browse_lawful]. done.
  - eapply lawful_answer; [|apply revise_lawful]. done.
  - eapply lawful_answer; [|apply settle_lawful]. done.
  - eapply lawful_answer with (Q := λ _ _, True); [done|]. constructor. intros l t r _ _. by constructor.
Qed.

Lemma answered_mono n request l l' a : l `prefix_of` l' → answered n request l a → answered n request l' a.
Proof.
  intros Hl. assert (∀ x, x ∈ l → x ∈ l') as Hin by (destruct Hl as [rest ->]; intros x Hx; apply elem_of_app; by left).
  destruct request, a as [r|r|r]; cbn [answered]; try done; intros Ha x Hx; specialize (Ha x Hx).
  - by apply Hin.
  - destruct Ha as [Hk ?]. split; [by eapply knows_mono|done].
  - by eapply all_known_mono.
  - destruct Ha as (Hn & ?). split; [by apply Hin|done].
  - destruct Ha as ((Hn & ?) & ?). split; [split; [by apply Hin|done]|done].
Qed.

(** ** Servers *)

Definition entries_at (id : Uuid) (log : Log) : Log := filter (λ v, pr_id v.2 = id) log.

Definition versions_at (id : Uuid) (log : Log) : list Proposal := (entries_at id log).*2.

Record server_ok (s : Server) : Prop := {
  sk_versions : ∀ id, lifecycle (versions_at id (sv_log s));
  sk_store : ∀ id p, sv_store s !! id = Some p → pr_id p = id ∧ last (versions_at id (sv_log s)) = Some p;
  sk_running : ∀ n request m, sv_running s !! n = Some (request, m) → lawful n (answered n request) (sv_log s) (sv_now s) m;
  sk_answers : ∀ n request a, sv_answers s !! n = Some (request, a) → answered n request (sv_log s) a
}.

Lemma elem_of_versions id log p : p ∈ versions_at id log ↔ knows log p ∧ pr_id p = id.
Proof.
  unfold versions_at, entries_at. rewrite list_elem_of_fmap. split.
  - intros ([n q] & -> & [Hid Hin]%list_elem_of_filter). split; [by exists n|done].
  - intros [[n Hn] Hid]. exists (n, p). split; [done|]. by apply list_elem_of_filter.
Qed.

Lemma versions_snoc id log n p :
  versions_at id (log ++ [(n, p)]) = versions_at id log ++ if decide (pr_id p = id) then [p] else [].
Proof.
  unfold versions_at, entries_at. rewrite filter_app, fmap_app. f_equal. unfold filter, list_filter. cbn. by destruct (decide (pr_id p = id)).
Qed.

Lemma proceed_ok s n request m store new :
  server_ok s →
  (∀ id, lifecycle (versions_at id (sv_log s ++ (pair n <$> new)))) →
  (∀ id p, store !! id = Some p → pr_id p = id ∧ last (versions_at id (sv_log s ++ (pair n <$> new))) = Some p) →
  lawful n (answered n request) (sv_log s ++ (pair n <$> new)) (sv_now s) m →
  server_ok (proceed s n request m store new).
Proof.
  intros [_ _ Hrun Hans] Hv Hs Hm. assert (sv_log s `prefix_of` sv_log s ++ (pair n <$> new)) as Hpre by by eexists.
  split; cbn; [done|done| |].
  - intros n' request' m' Hn. destruct (decide (n' = n)) as [->|Hne].
    + rewrite lookup_insert_eq in Hn. injection Hn as <- <-. exact Hm.
    + rewrite lookup_insert_ne in Hn by done. eapply lawful_mono; [apply answered_mono|exact Hpre|reflexivity|]. by apply Hrun.
  - intros n' request' a Hn. eapply answered_mono; [exact Hpre|]. by apply Hans.
Qed.

(** A step that stores nothing *)
Lemma proceed_same s n request m :
  server_ok s → lawful n (answered n request) (sv_log s) (sv_now s) m → server_ok (proceed s n request m (sv_store s) []).
Proof. intros Hok Hm. apply proceed_ok; cbn; rewrite ?app_nil_r; try done; apply Hok. Qed.

Lemma last_revision versions p q :
  lifecycle versions → last versions = Some p → q ∈ versions → pr_revision q = pr_revision p → q = p.
Proof.
  intros Hl Hlast [i Hi]%list_elem_of_lookup Hrev. rewrite last_lookup in Hlast.
  pose proof (lifecycle_revision _ _ _ Hl Hi). pose proof (lifecycle_revision _ _ _ Hl Hlast).
  assert (i = pred (length versions)) as -> by lia. congruence.
Qed.

(** Storing a version after the last one. *)
Lemma store_version s n p :
  server_ok s → (lifecycle (versions_at (pr_id p) (sv_log s) ++ [p])) →
  (∀ id, lifecycle (versions_at id (sv_log s ++ [(n, p)]))) ∧
  (∀ id q, <[pr_id p := p]> (sv_store s) !! id = Some q → pr_id q = id ∧ last (versions_at id (sv_log s ++ [(n, p)])) = Some q).
Proof.
  intros Hok Hl. split.
  - intros id. rewrite versions_snoc. destruct (decide (pr_id p = id)) as [<-|]; [done|]. rewrite app_nil_r. apply Hok.
  - intros id q. rewrite versions_snoc. destruct (decide (pr_id p = id)) as [<-|Hne].
    + rewrite lookup_insert_eq. intros [= <-]. by rewrite last_snoc.
    + rewrite lookup_insert_ne by done. rewrite app_nil_r. apply Hok.
Qed.

(** The rest of a lawful program *)
Ltac continue_call :=
  match goal with
  | Hk : context [lawful _ _ _ _ (?k _)] |- lawful _ _ _ _ (?k _) => apply Hk
  end.

Lemma call_step_ok s n request m s' :
  server_ok s → sv_running s !! n = Some (request, m) → call_step s n request m s' → server_ok s'.
Proof.
  intros Hok Hn Hstep. pose proof (sk_running _ Hok _ _ _ Hn) as Hm.
  destruct Hstep as [k|k id|p k store r Hnew Hr|id k|query k|p revision k store r Hr|id revision k store r Hr]; inversion Hm; subst.
  - apply proceed_same; [done|]. by continue_call.
  - apply proceed_same; [done|]. by continue_call.
  - unfold insert_proposal in Hr. destruct (is_some _); injection Hr as <- <-; cbn [written].
    { apply proceed_same; [done|]. by continue_call. }
    assert (versions_at (pr_id p) (sv_log s) = []) as Hnone.
    { destruct (versions_at (pr_id p) (sv_log s)) as [|q l] eqn:Hv; [done|]. exfalso.
      assert (q ∈ versions_at (pr_id p) (sv_log s)) as [[m Hq] Hid]%elem_of_versions by (rewrite Hv; by left). by apply (Hnew _ Hq). }
    destruct (store_version s n p Hok) as [Hv Hs].
    { rewrite Hnone. by eapply (lifecycle_new (pr_id p)). }
    apply proceed_ok; [done|exact Hv|exact Hs|]. continue_call; [by eexists|done|]. intros p' [= <-]. split; [done|]. apply elem_of_app. right. by left.
  - apply proceed_same; [done|]. continue_call; [done..|]. intros p Hp%ok_or_ok.
    destruct (sk_store _ Hok _ _ Hp) as [Hid Hlast]. split; [|done]. apply last_Some_elem_of, elem_of_versions in Hlast. by destruct Hlast.
  - apply proceed_same; [done|]. continue_call; [done..|]. intros p Hp. unfold list_proposals, truncate in Hp.
    assert (p ∈ values (sv_store s)) as [id Hid]%elem_of_values.
    { destruct (_ <=? _)%N; [|apply elem_of_take in Hp as (i & Hi & _); apply list_elem_of_lookup_2 in Hi as Hp];
        rewrite sort_by_perm in Hp; apply list_elem_of_filter in Hp as [_ Hp]; by apply list_elem_of_filter in Hp as [_ Hp]. }
    destruct (sk_store _ Hok _ _ Hid) as [_ Hlast]. apply last_Some_elem_of, elem_of_versions in Hlast. by destruct Hlast.
  - unfold replace_proposal in Hr. destruct (sv_store s !! pr_id p) as [cur|] eqn:Hcur.
    2:{ injection Hr as <- <-. apply proceed_same; [done|]. by continue_call. }
    destruct (N.eqb_spec (pr_revision cur) (pr_revision q)) as [Hrev|]; cbn [negb] in Hr; injection Hr as <- <-.
    2:{ apply proceed_same; [done|]. by continue_call. }
    destruct (sk_store _ Hok _ _ Hcur) as [Hid Hlast].
    assert (q = cur) as ->.
    { apply (last_revision (versions_at (pr_id p) (sv_log s))); [apply Hok|done| |done]. by apply elem_of_versions. }
    destruct (store_version s n p Hok) as [Hv Hs].
    { pose proof (sk_versions _ Hok (pr_id p)) as Hl. apply last_Some in Hlast as [vs Hvs]. rewrite Hvs in Hl |- *.
      rewrite <-app_assoc. by eapply lifecycle_next. }
    apply proceed_ok; [done|exact Hv|exact Hs|]. continue_call; [by eexists|done|]. intros p' [= <-]. split; [done|]. apply elem_of_app. right. by left.
  - unfold delete_proposal in Hr. apply proceed_ok; cbn; rewrite ?app_nil_r; [done|apply Hok| |by continue_call].
    destruct (sv_store s !! id) as [cur|]; [|injection Hr as <- _; apply Hok].
    destruct (negb _); injection Hr as <- _; [apply Hok|]. intros id' p Hp. apply Hok. by apply lookup_delete_Some in Hp as [_ Hp].
Qed.

Lemma server_step_ok s s' : server_ok s → server_step s s' → server_ok s'.
Proof.
  intros Hok Hstep. destruct Hstep as [n request _ _|now Hnow|n request m s' Hn Hcall|n request a Hn].
  - apply proceed_same; [done|]. apply serve_lawful.
  - split; cbn; [apply Hok|apply Hok| |apply Hok]. intros n request m Hn.
    eapply lawful_mono; [apply answered_mono|reflexivity|exact Hnow|]. by apply Hok.
  - by eapply call_step_ok.
  - pose proof (sk_running _ Hok _ _ _ Hn) as Hm. split; cbn; [apply Hok|apply Hok| |].
    + intros n' request' m Hm'. apply lookup_delete_Some in Hm' as [_ Hm']. by apply Hok.
    + intros n' request' a' Ha. destruct (decide (n' = n)) as [->|Hne].
      * rewrite lookup_insert_eq in Ha. injection Ha as <- <-. by inversion Hm.
      * rewrite lookup_insert_ne in Ha by done. by apply Hok.
Qed.

Lemma new_server_ok now : server_ok (new_server now).
Proof. split; cbn; [intros id; constructor|done|done|done]. Qed.

Lemma reachable_servers_ok now s : rtc server_step (new_server now) s → server_ok s.
Proof. apply (rtc_ind_r server_ok); [apply new_server_ok|]. intros s1 s2 _ Hstep Hok. by eapply server_step_ok. Qed.

(** ** Schedules *)

(** What happens next: a request arrives, time passes, or an operation goes on
    (with the identifier that it may draw). *)
Inductive Event : Type :=
| Arrives (n : nat) (request : ProposalRequest)
| Time (now : DateTime)
| Runs (n : nat) (id : Uuid).

Definition run_call (s : Server) (n : nat) (request : ProposalRequest) (id : Uuid) (m : prog ProposalAnswer) : option Server :=
  let same := proceed s n request in
  match m with
  | Ret a => Some {| sv_store := sv_store s; sv_now := sv_now s; sv_running := delete n (sv_running s); sv_log := sv_log s;
                     sv_answers := <[n := (request, a)]> (sv_answers s) |}
  | Now k => Some (same (k (sv_now s)) (sv_store s) [])
  | Fresh k => Some (same (k id) (sv_store s) [])
  | Insert p k =>
      if existsb (λ v, (pr_id v.2 =? pr_id p)%N) (sv_log s) then None
      else let (store, r) := insert_proposal (sv_store s) p in Some (same (k r) store (written r))
  | Get id k => Some (same (k (get_proposal (sv_store s) id)) (sv_store s) [])
  | List query k => Some (same (k (list_proposals (sv_store s) query)) (sv_store s) [])
  | Replace p revision k => let (store, r) := replace_proposal (sv_store s) p revision in Some (same (k r) store (written r))
  | Delete id revision k => let (store, r) := delete_proposal (sv_store s) id revision in Some (same (k r) store [])
  end.

Definition happen (s : Server) (e : Event) : option Server :=
  match e with
  | Arrives n request =>
      if is_some (sv_running s !! n) || is_some (sv_answers s !! n) then None
      else Some (proceed s n request (serve request) (sv_store s) [])
  | Time now =>
      if (sv_now s <=? now)%Z
      then Some {| sv_store := sv_store s; sv_now := now; sv_running := sv_running s; sv_log := sv_log s; sv_answers := sv_answers s |}
      else None
  | Runs n id => '(request, m) ← sv_running s !! n; run_call s n request id m
  end.

Lemma happen_step s e s' : happen s e = Some s' → server_step s s'.
Proof.
  destruct e as [n request|now|n id]; cbn.
  - destruct (sv_running s !! n) eqn:Hr, (sv_answers s !! n) eqn:Ha; cbn; try done. intros [= <-]. by constructor.
  - destruct (Z.leb_spec (sv_now s) now); [|done]. intros [= <-]. by constructor.
  - intros ([request m] & Hn & Hrun)%bind_Some. destruct m as [a|k|k|p k|id' k|query k|p revision k|id' revision k]; cbn in Hrun.
    + injection Hrun as <-. by constructor.
    + injection Hrun as <-. eapply step_call; [exact Hn|constructor].
    + injection Hrun as <-. eapply step_call; [exact Hn|constructor].
    + destruct (existsb _ _) eqn:Hnew; [done|]. destruct (insert_proposal _ _) as [store r] eqn:Hr. injection Hrun as <-.
      eapply step_call; [exact Hn|]. constructor; [|done]. intros v Hv Heq.
      assert (existsb (λ v, (pr_id v.2 =? pr_id p)%N) (sv_log s) = true); [|congruence].
      apply existsb_exists. exists v. split; [by apply list_elem_of_In|by apply N.eqb_eq].
    + injection Hrun as <-. eapply step_call; [exact Hn|constructor].
    + injection Hrun as <-. eapply step_call; [exact Hn|constructor].
    + destruct (replace_proposal _ _ _) as [store r] eqn:Hr. injection Hrun as <-. eapply step_call; [exact Hn|by constructor].
    + destruct (delete_proposal _ _ _) as [store r] eqn:Hr. injection Hrun as <-. eapply step_call; [exact Hn|by constructor].
Qed.

Fixpoint happens (s : Server) (events : list Event) : option Server :=
  match events with
  | [] => Some s
  | e :: events => s' ← happen s e; happens s' events
  end.

Lemma happens_steps s events s' : happens s events = Some s' → rtc server_step s s'.
Proof.
  revert s. induction events as [|e events IH]; intros s; cbn.
  - intros [= <-]. apply rtc_refl.
  - intros (mid & Hmid%happen_step & Hrest)%bind_Some. eapply rtc_l; [exact Hmid|]. by apply IH.
Qed.

(** ** Theorems *)

(** What every version of a proposal has. *)
Record well_formed (p : Proposal) : Prop := {
  wf_submitted_by : validate_nonempty "submitted_by" (pr_submitted_by p) MAX_SOURCE_REFERENCE_LENGTH = Ok tt;
  wf_title : validate_nonempty "title" (pr_title p) MAX_TITLE_LENGTH = Ok tt;
  wf_source_reference : validate_optional_length "source_reference" (pr_source_reference p) MAX_SOURCE_REFERENCE_LENGTH = Ok tt;
  wf_explanation : validate_optional_length "explanation" (pr_explanation p) MAX_EXPLANATION_LENGTH = Ok tt;
  wf_payload : validate_payload (pr_payload p) = Ok tt
}.

Lemma new_well_formed id input t p : new_proposal id input t = Ok p → well_formed p.
Proof.
  unfold new_proposal. intros ([] & H1 & Hn)%rbind_ok. apply rbind_ok in Hn as ([] & H2 & Hn). apply rbind_ok in Hn as ([] & H3 & Hn).
  apply rbind_ok in Hn as ([] & H4 & Hn). apply rbind_ok in Hn as ([] & H5 & Hn). destruct (_ <=? _)%Z; [done|]. by injection Hn as <-.
Qed.

Lemma amends_well_formed t p p' : amends t p p' → well_formed p → well_formed p'.
Proof.
  intros [edit (_ & _ & Hv & ->)%edit_Ok|decision note (_ & _ & ->)%decide_Ok _|(_ & _ & ->)%expiry_Ok] Hwf; [|by destruct Hwf..].
  unfold validate_edit in Hv. destruct (is_empty_edit edit); [done|]. apply rbind_ok in Hv as ([] & Ht & Hv).
  apply rbind_ok in Hv as ([] & He & Hv). apply rbind_ok in Hv as ([] & Hp & Hv). destruct Hwf as [H1 H2 H3 H4 H5].
  split; cbn; [done| |done| |].
  - by destruct (ep_title edit).
  - destruct (ep_explanation edit) as [e|]; [|done]. cbn. unfold validate_nonempty in He. by destruct (is_blank e).
  - by destruct (ep_payload edit).
Qed.

Lemma lifecycle_well_formed versions p : lifecycle versions → p ∈ versions → well_formed p.
Proof.
  intros Hl. revert p. induction Hl as [|id input t q Hnew|vs q t q' Hq IH Ham]; intros p Hp.
  - by apply elem_of_nil in Hp.
  - apply list_elem_of_singleton in Hp as ->. by eapply new_well_formed.
  - change [q; q'] with ([q] ++ [q']) in Hp. rewrite app_assoc in Hp. apply elem_of_app in Hp as [Hp|Hp%list_elem_of_singleton]; [by apply IH|subst p].
    eapply amends_well_formed; [exact Ham|]. apply IH. apply elem_of_app. right. by left.
Qed.

(** C31. Whatever operations run side by side, the stored versions of a proposal are a
    history: they are well formed, their revisions count from one, each but the
    first was made from the one before it, pending, by an edit, a decision or its
    expiry, and the repository holds the last one or none. *)
Theorem proposals_have_histories start s id :
  rtc server_step (new_server start) s →
  let versions := versions_at id (sv_log s) in
  (∀ p, p ∈ versions → well_formed p) ∧
  (∀ i p, versions !! i = Some p → pr_revision p = N.of_nat (S i)) ∧
  (∀ i p p', versions !! i = Some p → versions !! S i = Some p' → pr_status p = ProposalStatus.Pending ∧ ∃ t, amends t p p') ∧
  (∀ p, sv_store s !! id = Some p → last versions = Some p).
Proof.
  intros Hok%reachable_servers_ok versions. pose proof (sk_versions _ Hok id) as Hl. split; [|split; [|split]].
  - intros p. by apply lifecycle_well_formed.
  - intros i p. by apply lifecycle_revision.
  - intros i p p' Hi Hi'. unfold versions in *. rewrite <-(take_drop i (versions_at id (sv_log s))) in Hl.
    rewrite (drop_S _ _ _ Hi), (drop_S _ _ _ Hi') in Hl. apply lifecycle_pending in Hl as [t Ht].
    split; [by destruct (amends_pending _ _ _ Ht)|by exists t].
  - intros p Hp. by apply Hok.
Qed.

(** A version that is not pending is the last one. *)
Lemma final_entry log id n p :
  lifecycle (versions_at id log) → (n, p) ∈ log → pr_id p = id → pr_status p ≠ ProposalStatus.Pending → last (entries_at id log) = Some (n, p).
Proof.
  intros Hl Hin Hid Hfinal. assert ((n, p) ∈ entries_at id log) as (before & after & Heq)%list_elem_of_split by (by apply list_elem_of_filter).
  destruct after as [|[m q] after]; [by rewrite Heq, last_snoc|]. exfalso. apply Hfinal.
  unfold versions_at in Hl. rewrite Heq, fmap_app in Hl. cbn in Hl. apply lifecycle_pending in Hl as [t Ht]. by destruct (amends_pending _ _ _ Ht).
Qed.

Lemma decision_not_pending decision : status_of_decision decision ≠ ProposalStatus.Pending.
Proof. by destruct decision. Qed.

Lemma decided_in_time versions p decision note :
  lifecycle versions → p ∈ versions → decided p decision note → ∃ t, pr_decided_at p = Some t ∧ (t < pr_expires_at p)%Z.
Proof.
  intros Hl Hp [Hs _]. revert p Hp Hs. induction Hl as [|id input t q Hnew|vs q t q' Hq IH Ham]; intros p Hp Hs.
  - by apply elem_of_nil in Hp.
  - apply list_elem_of_singleton in Hp as ->. unfold new_proposal in Hnew. do 5 (apply rbind_ok in Hnew as ([] & _ & Hnew)).
    destruct (_ <=? _)%Z; [done|]. injection Hnew as <-. by destruct decision.
  - change [q; q'] with ([q] ++ [q']) in Hp. rewrite app_assoc in Hp. apply elem_of_app in Hp as [Hp|Hp%list_elem_of_singleton]; [by apply IH|subst p].
    destruct Ham as [edit (Hq' & _ & _ & ->)%edit_Ok|decision' note' (_ & Ht & ->)%decide_Ok _|(_ & _ & ->)%expiry_Ok]; cbn in Hs.
    + rewrite Hq' in Hs. by destruct decision.
    + by exists t.
    + by destruct decision.
Qed.

(** C30. Whatever operations run side by side, at most one decision about a proposal
    is answered with success; it was taken before the proposal expired, it names
    the revision it was made from, an accepted proposal is not one that needs
    atomic application, and nothing is stored after it. *)
Theorem proposals_decided_once start s n m id revision decision note p revision' decision' note' p' :
  rtc server_step (new_server start) s →
  sv_answers s !! n = Some (AskDecide id revision decision note, AnswerOne (Ok p)) →
  sv_answers s !! m = Some (AskDecide id revision' decision' note', AnswerOne (Ok p')) →
  n = m ∧ decided p decision note ∧ pr_revision p = (revision + 1)%N ∧
  (∃ t, pr_decided_at p = Some t ∧ (t < pr_expires_at p)%Z) ∧ last (versions_at id (sv_log s)) = Some p.
Proof.
  intros Hok%reachable_servers_ok Hn Hm. pose proof (sk_versions _ Hok id) as Hl.
  destruct (sk_answers _ Hok _ _ _ Hn p eq_refl) as [(Hin & Hid & Hrev) Hdec].
  destruct (sk_answers _ Hok _ _ _ Hm p' eq_refl) as [(Hin' & Hid' & _) Hdec'].
  assert (last (entries_at id (sv_log s)) = Some (n, p)) as Hlast.
  { apply final_entry; try done. destruct Hdec as [-> _]. apply decision_not_pending. }
  assert (last (entries_at id (sv_log s)) = Some (m, p')) as Hlast'.
  { apply final_entry; try done. destruct Hdec' as [-> _]. apply decision_not_pending. }
  split; [congruence|]. split; [done|]. split; [done|]. split.
  - eapply decided_in_time; [exact Hl| |exact Hdec]. apply elem_of_versions. split; [by exists n|done].
  - unfold versions_at. by rewrite fmap_last, Hlast.
Qed.
End runs.

(** ** Witnesses *)

#[local] Instance integer_numbers : JsonNumbers := {| Number := Z |}.

Definition sample_new_proposal : NewProposal :=
  {| np_submitted_by := "codex"; np_source := Codex; np_source_reference := None; np_kind := ProposalKind.Recommendation;
     np_title := "Move the review"; np_explanation := None; np_payload := JObject [("note", JString "later")]; np_expires_at := 1000%Z |}.

Definition sample_edit : EditProposal :=
  {| ep_title := Some "Move the review to Friday"%string; ep_explanation := None; ep_payload := None; ep_expires_at := None |}.

(** A proposal is created, and decided while it is being edited. *)
Definition sample_events : list Event :=
  [Arrives 0 (AskCreate sample_new_proposal); Runs 0 7%N; Runs 0 7%N; Runs 0 7%N; Runs 0 7%N;
   Arrives 1 (AskDecide 7%N 1%N Accept None); Arrives 2 (AskEdit 7%N 1%N sample_edit);
   Runs 1 0%N; Runs 2 0%N; Runs 1 0%N; Time 20%Z; Runs 2 0%N; Runs 2 0%N; Runs 1 0%N; Runs 1 0%N; Runs 1 0%N; Runs 2 0%N; Runs 2 0%N].

Definition sample_server : Server := default (new_server 10%Z) (happens (new_server 10%Z) sample_events).

Lemma sample_server_reached : rtc server_step (new_server 10%Z) sample_server.
Proof.
  unfold sample_server. destruct (happens (new_server 10%Z) sample_events) as [s|] eqn:Hs; [|apply rtc_refl]. by apply happens_steps in Hs.
Qed.

Lemma proposals_have_histories_witness :
  length (versions_at 7%N (sv_log sample_server)) = 2 ∧
  ∀ p, p ∈ versions_at 7%N (sv_log sample_server) → well_formed p.
Proof.
  split; [vm_compute; reflexivity|]. exact (proj1 (proposals_have_histories 10%Z sample_server 7%N sample_server_reached)).
Defined.

Lemma proposals_decided_once_witness :
  ∃ p, sv_answers sample_server !! 1 = Some (AskDecide 7%N 1%N Accept None, AnswerOne (Ok p)) ∧
    sv_answers sample_server !! 2 = Some (AskEdit 7%N 1%N sample_edit, AnswerOne (Err (Repository (RepositoryError.RevisionConflict 1 2)))) ∧
    last (versions_at 7%N (sv_log sample_server)) = Some p.
Proof.
  eexists. split; [vm_compute; reflexivity|]. split; [vm_compute; reflexivity|].
  eapply (proposals_decided_once 10%Z sample_server 1 1 7%N 1%N Accept None _ 1%N Accept None);
    [exact sample_server_reached|vm_compute; reflexivity|vm_compute; reflexivity].
Defined.
