(* ===== verification/ChangeSets.v ===== *)
(** * ChangeSets: the commands of a proposal

    server/dayweave-api/src/proposals/application.rs (the typed commands on items
    that a proposal may carry, and their checks), and of
    persistence/proposal_application_repository.rs what a review does before it
    reads the database: the checks of the request, of the proposals and of the
    revisions that the commands name. *)
From S2P Require Import Prelude Text Platform Civil Domain Rrule Decimal Progress Completion Session ItemDomain CompletionPolicy ItemStore Delta Proposals.
Import ItemRepositoryError.

Definition MAX_PROPOSAL_COMMANDS : nat := 100.
Definition MAX_PROPOSALS_PER_PREVIEW : nat := 20.

Module ProposalOperation.
Inductive ProposalOperation : Type := CreateItem | ReplaceItem | TrashItem | RestoreItem.
End ProposalOperation.
Abbreviation ProposalOperation := ProposalOperation.ProposalOperation.

Module ProposalConflictCode.
Inductive ProposalConflictCode : Type :=
| ProposalNotPending
| ProposalExpired
| ProposalRevisionMismatch
| ItemAlreadyExists
| ItemNotFound
| ItemRevisionMismatch
| ParentNotFound
| HierarchyCycle
| DependencyNotFound
| DependencyCycle
| InvalidParentState
| NonLeafExecutable
| HasChildren
| DeletedParent
| InvalidItem
| ProviderManagedItem
| PreviewExpired
| PreviewMismatch
| PreviewNotApplicable
| AlreadyApplied
| UndoExpired
| UndoDiverged.
End ProposalConflictCode.
Abbreviation ProposalConflictCode := ProposalConflictCode.ProposalConflictCode.

Record ProposalPreviewMember : Type := { pm_proposal_id : Uuid; pm_expected_revision : N }.

Module ProposalChangeSetError.
Inductive ProposalChangeSetError : Type :=
| InvalidPayload
| Empty
| TooManyCommands (maximum : nat)
| DuplicateCommandId (id : Uuid)
| DuplicateTargetId (id : Uuid)
| ExpectedRevisionMustBePositive (id : Uuid).
End ProposalChangeSetError.
Abbreviation ProposalChangeSetError := ProposalChangeSetError.ProposalChangeSetError.
Import ProposalChangeSetError.

(** [Validation] without its text *)
Module ProposalApplicationError.
Inductive ProposalApplicationError : Type :=
| Validation
| NotFound
| OwnerUnavailable
| Stale (code : ProposalConflictCode)
| RevisionConflict (expected actual : N)
| IdempotencyConflict
| Internal.
End ProposalApplicationError.
Abbreviation ProposalApplicationError := ProposalApplicationError.ProposalApplicationError.
Import ProposalApplicationError.

Section change_sets.
Context `{ItemFormats}.

Inductive ProposalCommand : Type :=
| CreateItem (command_id : Uuid) (item : NewItem)
| ReplaceItem (command_id item_id : Uuid) (expected_revision : N) (item : ItemDomain.ReplaceItem)
| TrashItem (command_id item_id : Uuid) (expected_revision : N)
| RestoreItem (command_id item_id : Uuid) (expected_revision : N).

Definition command_id (c : ProposalCommand) : Uuid :=
  match c with CreateItem id _ | ReplaceItem id _ _ _ | TrashItem id _ _ | RestoreItem id _ _ => id end.

Definition operation (c : ProposalCommand) : ProposalOperation :=
  match c with
  | CreateItem _ _ => ProposalOperation.CreateItem
  | ReplaceItem _ _ _ _ => ProposalOperation.ReplaceItem
  | TrashItem _ _ _ => ProposalOperation.TrashItem
  | RestoreItem _ _ _ => ProposalOperation.RestoreItem
  end.

Definition target_item_id (c : ProposalCommand) : Uuid :=
  match c with CreateItem _ item => ni_id item | ReplaceItem _ id _ _ | TrashItem _ id _ | RestoreItem _ id _ => id end.

Definition expected_revision (c : ProposalCommand) : option N :=
  match c with CreateItem _ _ => None | ReplaceItem _ _ r _ | TrashItem _ _ r | RestoreItem _ _ r => Some r end.

(** One command of [validate], after those already seen. *)
Definition check_command (seen : gset Uuid * gset Uuid) (c : ProposalCommand) : result ProposalChangeSetError (gset Uuid * gset Uuid) :=
  if bool_decide (command_id c ∈ seen.1) then Err (DuplicateCommandId (command_id c))
  else if bool_decide (target_item_id c ∈ seen.2) then Err (DuplicateTargetId (target_item_id c))
  else if bool_decide (expected_revision c = Some 0%N) then Err (ExpectedRevisionMustBePositive (command_id c))
  else Ok ({[command_id c]} ∪ seen.1, {[target_item_id c]} ∪ seen.2).

(** [ProposalChangeSet::validate]; the only schema is left out. *)
Definition validate_change_set (commands : list ProposalCommand) : result ProposalChangeSetError unit :=
  match commands with
  | [] => Err Empty
  | _ =>
      if (MAX_PROPOSAL_COMMANDS <? length commands)%nat then Err (TooManyCommands MAX_PROPOSAL_COMMANDS)
      else let? _ := foldM check_command (∅, ∅) commands in Ok tt
  end.

(** [ProposalChangeSet::new] *)
Definition new_change_set (commands : list ProposalCommand) : result ProposalChangeSetError (list ProposalCommand) :=
  let? _ := validate_change_set commands in Ok commands.

(** [serde_json::from_value] of [ProposalChangeSetWire] *)
Class ChangeSetFormat `{JsonNumbers} : Type := { decode_change_set : Json → option (list ProposalCommand) }.

(** ** Before a review *)

Context `{JsonNumbers} `{!ChangeSetFormat}.

(** [ProposalChangeSet::from_payload] *)
Definition change_set_from_payload (payload : Json) : result ProposalChangeSetError (list ProposalCommand) :=
  match decode_change_set payload with
  | Some commands => if is_ok (validate_change_set commands) then Ok commands else Err InvalidPayload
  | None => Err InvalidPayload
  end.

Definition is_create (c : ProposalCommand) : bool := match c with CreateItem _ _ => true | _ => false end.

Definition is_create_event (c : ProposalCommand) : bool :=
  match c with CreateItem _ item => bool_decide (if_kind (ni_fields item) = ItemKind.Event) | _ => false end.

Definition validate_kind_contract (kind : ProposalKind) (commands : list ProposalCommand) : result ProposalApplicationError unit :=
  let valid :=
    match kind with
    | ProposalKind.CreateItem => (length commands =? 1)%nat && match head commands with Some c => is_create c | None => false end
    | ProposalKind.GoalBreakdown => forallb is_create commands
    | ProposalKind.CalendarEvent => forallb is_create_event commands
    | ProposalKind.UpdateItem | ProposalKind.ConstraintChange => forallb (λ c, negb (is_create c)) commands
    | ProposalKind.SchedulePlan | ProposalKind.Recommendation => false
    end in
  if valid then Ok tt else Err Validation.

(** One proposal of [prepare_change_set], after the commands so far. *)
Definition prepare_proposal_commands (now : DateTime) (commands : list ProposalCommand) (p : Proposal)
    : result ProposalApplicationError (list ProposalCommand) :=
  if negb (bool_decide (pr_status p = ProposalStatus.Pending)) then Err (Stale ProposalConflictCode.ProposalNotPending)
  else if (pr_expires_at p <=? now)%Z then Err (Stale ProposalConflictCode.ProposalExpired)
  else
    let? own := map_err (λ _, Validation) (change_set_from_payload (pr_payload p)) in
    let? _ := validate_kind_contract (pr_kind p) own in
    Ok (commands ++ own).

Definition prepare_change_set (proposals : list Proposal) (now : DateTime) : result ProposalApplicationError (list ProposalCommand) :=
  let? commands := foldM (prepare_proposal_commands now) [] proposals in
  let? combined := map_err (λ _, Validation) (new_change_set commands) in
  if (MAX_PROPOSAL_COMMANDS <? length combined)%nat then Err Validation else Ok combined.

Definition check_member_once (seen : gset Uuid) (member : ProposalPreviewMember) : result ProposalApplicationError (gset Uuid) :=
  if (pm_expected_revision member =? 0)%N then Err Validation
  else if bool_decide (pm_proposal_id member ∈ seen) then Err Validation
  else Ok ({[pm_proposal_id member]} ∪ seen).

Definition validate_preview_request (members : list ProposalPreviewMember) : result ProposalApplicationError unit :=
  if match members with [] => true | _ => false end || (MAX_PROPOSALS_PER_PREVIEW <? length members)%nat then Err Validation
  else let? _ := foldM check_member_once ∅ members in Ok tt.

(** One command of [validate_initial_command_fences]. *)
Definition check_fence (initial : gmap Uuid Item) (c : ProposalCommand) : result ItemRepositoryError unit :=
  let fenced (item_id : Uuid) (expected : N) (must_be_deleted : bool) :=
    match initial !! item_id with
    | Some item =>
        if negb (Bool.eqb (is_some (it_deleted_at item)) must_be_deleted) then Err (ItemRepositoryError.NotFound item_id)
        else if negb (it_revision item =? expected)%N then Err (ItemRepositoryError.RevisionConflict expected (it_revision item))
        else Ok tt
    | None => Err (ItemRepositoryError.NotFound item_id)
    end in
  match c with
  | CreateItem _ item => if is_some (initial !! ni_id item) then Err (Duplicate (ni_id item)) else Ok tt
  | ReplaceItem _ id revision _ | TrashItem _ id revision => fenced id revision false
  | RestoreItem _ id revision => fenced id revision true
  end.

(** An error with the index of the command *)
Definition at_index {A} (index : nat) (r : result ItemRepositoryError A) : result (nat * ItemRepositoryError) A := map_err (pair index) r.

Definition validate_initial_command_fences (commands : list ProposalCommand) (initial : gmap Uuid Item)
    : result (nat * ItemRepositoryError) unit :=
  forM (λ p : nat * ProposalCommand, at_index p.1 (check_fence initial p.2)) (imap pair commands).

(** ** Lemmas *)

Lemma check_commands_distinct commands seen seen' :
  foldM check_command seen commands = Ok seen' →
  NoDup (command_id <$> commands) ∧ NoDup (target_item_id <$> commands) ∧
  (∀ c, c ∈ commands → (command_id c ∉ seen.1) ∧ (target_item_id c ∉ seen.2) ∧ expected_revision c ≠ Some 0%N).
Proof.
  revert seen. induction commands as [|c commands IH]; intros seen Hfold.
  - split; [constructor|]. split; [constructor|]. by intros c ?%elem_of_nil.
  - apply rbind_ok in Hfold as (mid & Hc & Hfold). apply IH in Hfold as (Hids & Htargets & Hall). unfold check_command in Hc.
    destruct (bool_decide (command_id c ∈ seen.1)) eqn:Hc1; [done|]. apply bool_decide_eq_false in Hc1.
    destruct (bool_decide (target_item_id c ∈ seen.2)) eqn:Hc2; [done|]. apply bool_decide_eq_false in Hc2.
    destruct (bool_decide (expected_revision c = Some 0%N)) eqn:Hc3; [done|]. apply bool_decide_eq_false in Hc3.
    injection Hc as <-. cbn in Hall. split; [|split].
    + cbn. constructor; [|done]. intros (d & Heq & Hd)%list_elem_of_fmap. destruct (Hall d Hd) as (Hn & _). rewrite <-Heq in Hn. set_solver.
    + cbn. constructor; [|done]. intros (d & Heq & Hd)%list_elem_of_fmap. destruct (Hall d Hd) as (_ & Hn & _). rewrite <-Heq in Hn. set_solver.
    + intros d [->|Hd]%elem_of_cons; [done|]. destruct (Hall d Hd) as (Hn1 & Hn2 & ?). set_solver.
Qed.

Lemma validate_change_set_targets commands :
  validate_change_set commands = Ok tt → commands ≠ [] ∧ NoDup (target_item_id <$> commands).
Proof.
  unfold validate_change_set. destruct commands as [|c commands]; [done|]. destruct (_ <? _)%nat; [done|].
  intros ([s1 s2] & Hfold & _)%rbind_ok. by apply check_commands_distinct in Hfold as (_ & ? & _).
Qed.
End change_sets.
