(* ===== verification/CommandOrder.v ===== *)
(** * CommandOrder: the order in which a change set is executed

    server/dayweave-api/src/persistence/proposal_application_repository.rs: the
    commands of a change set are one transaction, but they are executed one
    after the other, and each must be lawful when it is executed.  Before the
    database is written, the server projects the commands on a copy of the items
    and looks for an order in which each of them succeeds: first greedily, then
    by a search that remembers the sets of commands that lead nowhere.
    [staged_item_shell] is in persistence/item_repository.rs and
    [has_qualified_completion] in persistence/item_completion_repository.rs.
    The theorems are in Orders. *)
From S2P Require Import Prelude Text Platform Civil Domain Rrule Decimal Progress Completion Session ItemDomain CompletionPolicy ItemStore Delta Proposals ChangeSets.
Import ItemRepositoryError.

Section projection.
Context `{ItemFormats, Platform, Civil, !SchedulingMetadata}.

Record ProjectedBatchState : Type := {
  pb_items : gmap Uuid Item;
  pb_completion_states : gmap Uuid ItemCompletionState;
  pb_pending_create_ids : gset Uuid
}.

Definition has_qualified_completion (item : Item) (state : option ItemCompletionState) : bool :=
  bool_decide (it_status item = ItemStatus.Completed) &&
  match state with
  | Some state => (cs_item_id state =? it_id item)%N && is_ok (validate_completion state) && is_some (cs_provenance state)
  | None => false
  end.

(** The fields that a shell does not have yet. *)
Definition as_shell (item : Item) : Item :=
  {| it_id := it_id item; it_is_sensitive := it_is_sensitive item; it_kind := it_kind item; it_status := ItemStatus.Planned;
     it_title := it_title item; it_notes := it_notes item; it_timezone_name := it_timezone_name item;
     it_duration_kind := it_duration_kind item; it_duration_seconds := it_duration_seconds item;
     it_duration_min_seconds := it_duration_min_seconds item; it_duration_max_seconds := it_duration_max_seconds item;
     it_duration_source := it_duration_source item; it_deadline_kind := it_deadline_kind item;
     it_deadline_date := it_deadline_date item; it_deadline_at := it_deadline_at item;
     it_deadline_strength := it_deadline_strength item; it_deadline_soft_weight := it_deadline_soft_weight item;
     it_earliest_start_at := it_earliest_start_at item; it_recurrence := it_recurrence item;
     it_flexible_constraints := it_flexible_constraints item; it_has_own_effort := it_has_own_effort item;
     it_split_policy := it_split_policy item; it_importance := it_importance item; it_urgency := it_urgency item;
     it_parent_id := None; it_sibling_order := it_sibling_order item; it_is_executable := it_is_executable item;
     it_revision := it_revision item; it_created_at := it_created_at item; it_updated_at := it_updated_at item;
     it_completed_at := None; it_deleted_at := it_deleted_at item; it_blocked_reason_kind := None; it_blocked_by_item_id := None;
     it_blocked_reason := None |}.

Definition staged_item_shell (input : NewItem) (now : DateTime) : result ItemRepositoryError Item :=
  let? item := map_err InvalidItem (new_item input now) in
  let? shell := map_err InvalidItem (project_dependencies (as_shell item) []) in
  Ok (with_executable shell (execution_is_allowed shell false)).

(** The dependencies of a replaced item are cleared. *)
Definition clear_replaced (items : gmap Uuid Item) (p : nat * ProposalCommand) : result (nat * ItemRepositoryError) (gmap Uuid Item) :=
  match p.2 with
  | ReplaceItem _ item_id _ _ =>
      at_index p.1
        (let? item := ok_or (active_item items item_id) (NotFound item_id) in
         let? item := map_err InvalidItem (project_dependencies item []) in
         Ok (<[item_id := item]> items))
  | _ => Ok items
  end.

(** The shell of a created item is staged. *)
Definition stage_created (now : DateTime) (st : gmap Uuid Item * gset Uuid) (p : nat * ProposalCommand)
    : result (nat * ItemRepositoryError) (gmap Uuid Item * gset Uuid) :=
  match p.2 with
  | CreateItem _ item =>
      at_index p.1
        (let? shell := staged_item_shell item now in
         if is_some (st.1 !! it_id shell) || bool_decide (ni_id item ∈ st.2) then Err (Duplicate (ni_id item))
         else Ok (<[it_id shell := shell]> st.1, {[ni_id item]} ∪ st.2))
  | _ => Ok st
  end.

Definition projected_batch_state (commands : list ProposalCommand) (initial : gmap Uuid Item)
    (completion_states : gmap Uuid ItemCompletionState) (now : DateTime) : result (nat * ItemRepositoryError) ProjectedBatchState :=
  let? items := foldM clear_replaced initial (imap pair commands) in
  let? (items, pending) := foldM (stage_created now) (items, ∅) (imap pair commands) in
  Ok {| pb_items := items; pb_completion_states := completion_states; pb_pending_create_ids := pending |}.

(** ** One command *)

Definition validate_projected_parent (st : ProjectedBatchState) (item_id : Uuid) (parent_id : option Uuid) : result ItemRepositoryError unit :=
  match parent_id with
  | None => Ok tt
  | Some parent_id =>
      if (parent_id =? item_id)%N then Err SelfParent
      else
        let? parent := ok_or (active_item (pb_items st) parent_id) (ParentNotFound parent_id) in
        if is_executing_state (it_status parent) && negb (has_qualified_completion parent (pb_completion_states st !! parent_id))
        then Err InvalidParentState
        else walk_ancestors (S (size (pb_items st))) (pb_items st) item_id ∅ (Some parent_id)
  end.

(** [validate_projected_blocker] and [projected_has_active_children] are
    [validate_blocked_by] and [has_active_children] of ItemStore. *)
Definition validate_projected_blocker (items : gmap Uuid Item) (blocked_by : option Uuid) : result ItemRepositoryError unit :=
  validate_blocked_by items blocked_by.

Definition projected_has_active_children (item_id : Uuid) (items : gmap Uuid Item) : bool := has_active_children item_id items.

(** An item that executes must be a leaf. *)
Definition check_projected_leaf (st : ProjectedBatchState) (item_id : Uuid) (item : Item) : result ItemRepositoryError unit :=
  if projected_has_active_children item_id (pb_items st) && is_executing_state (it_status item) &&
     negb (has_qualified_completion item (pb_completion_states st !! item_id))
  then Err NonLeafExecutable else Ok tt.

Definition with_pending (st : ProjectedBatchState) (pending : gset Uuid) : ProjectedBatchState :=
  {| pb_items := pb_items st; pb_completion_states := pb_completion_states st; pb_pending_create_ids := pending |}.

(** The first part of [project_command_for_ordering]: what a command makes of
    its item, the parents to refresh, and the creations still pending. *)
Definition projected_item (c : ProposalCommand) (st : ProjectedBatchState) (now : DateTime)
    : result ItemRepositoryError (Item * list (option Uuid) * gset Uuid) :=
  match c with
  | CreateItem _ input =>
      if negb (bool_decide (ni_id input ∈ pb_pending_create_ids st)) then Err (Duplicate (ni_id input))
      else
        let pending := pb_pending_create_ids st ∖ {[ni_id input]} in
        let? item := map_err InvalidItem (new_item input now) in
        let? _ := validate_projected_parent (with_pending st pending) (it_id item) (it_parent_id item) in
        let? _ := validate_projected_blocker (pb_items st) (it_blocked_by_item_id item) in
        Ok (item, [it_parent_id item], pending)
  | ReplaceItem _ item_id _ input =>
      let? current := ok_or (active_item (pb_items st) item_id) (NotFound item_id) in
      let? item := map_err InvalidItem (replaced current input now) in
      let? _ := validate_projected_parent st item_id (it_parent_id item) in
      let? _ := validate_projected_blocker (pb_items st) (it_blocked_by_item_id item) in
      let? _ := check_projected_leaf st item_id item in
      let moved := negb (bool_decide (it_parent_id current = it_parent_id item)) ||
                   negb (it_sibling_order current =? it_sibling_order item)%N in
      Ok (item, if moved then [it_parent_id current; it_parent_id item] else [], pb_pending_create_ids st)
  | TrashItem _ item_id _ =>
      let? current := ok_or (active_item (pb_items st) item_id) (NotFound item_id) in
      if projected_has_active_children item_id (pb_items st) then Err HasChildren
      else
        let? item := map_err InvalidItem (trashed current now) in
        Ok (item, [it_parent_id current], pb_pending_create_ids st)
  | RestoreItem _ item_id _ =>
      let? current := ok_or (trashed_item (pb_items st) item_id) (NotFound item_id) in
      let? _ := map_err (λ e, match e with ParentNotFound _ => DeletedParent | e => e end)
                  (validate_projected_parent st item_id (it_parent_id current)) in
      let? item := map_err InvalidItem (restored current now) in
      let? _ := check_projected_leaf st item_id item in
      Ok (item, [it_parent_id item], pb_pending_create_ids st)
  end.

(** One parent of [refresh_projected_parents]. *)
Definition refresh_projected_parent (now : DateTime) (items : gmap Uuid Item) (parent_id : Uuid) : result ItemRepositoryError (gmap Uuid Item) :=
  let? current := ok_or (active_item items parent_id) (ParentNotFound parent_id) in
  let? parent := map_err InvalidItem (refreshed_execution current (projected_has_active_children parent_id items) now) in
  Ok (<[parent_id := parent]> items).

Definition refresh_projected_parents (items : gmap Uuid Item) (parent_ids : list (option Uuid)) (now : DateTime)
    : result ItemRepositoryError (gmap Uuid Item) :=
  foldM (refresh_projected_parent now) items (sort_dedup_N (omap id parent_ids)).

Definition project_command_for_ordering (c : ProposalCommand) (st : ProjectedBatchState) (now : DateTime)
    : result ItemRepositoryError ProjectedBatchState :=
  let? (done, pending) := projected_item c st now in
  let (item, parents_to_refresh) := (done : Item * list (option Uuid)) in
  let items := <[it_id item := item]> (pb_items st) in
  let item := with_executable item (execution_is_allowed item (projected_has_active_children (it_id item) items)) in
  let items := <[it_id item := item]> items in
  let? items := refresh_projected_parents items parents_to_refresh now in
  let? _ := validate_dependency_graph items in
  Ok {| pb_items := items; pb_completion_states := pb_completion_states st; pb_pending_create_ids := pending |}.

Definition order_error_can_be_resolved (e : ItemRepositoryError) : bool :=
  match e with
  | ParentNotFound _ | HierarchyCycle | DependencyNotFound _ | CrossRecurringSubtreeDependency _ _ | InvalidParentState
  | NonLeafExecutable | HasChildren | DeletedParent | DependencyCycle => true
  | _ => false
  end.

(** ** Prerequisites *)

Definition created_parent_indices (commands : list ProposalCommand) : gmap Uuid nat :=
  foldl (λ m p, match p.2 with CreateItem _ item => <[ni_id item := p.1]> m | _ => m end) ∅ (imap pair commands).

Definition requested_parent (c : ProposalCommand) : option Uuid :=
  match c with
  | CreateItem _ item => if_parent_id (ni_fields item)
  | ReplaceItem _ _ _ item => if_parent_id item
  | TrashItem _ _ _ | RestoreItem _ _ _ => None
  end.

(** The creation of the parent, when the change set creates it: the only
    prerequisite that a command can have. *)
Definition prerequisites_of (created : gmap Uuid nat) (c : ProposalCommand) : list nat :=
  match requested_parent c ≫= (λ parent_id, created !! parent_id) with Some index => [index] | None => [] end.

Definition prerequisites (commands : list ProposalCommand) : list (list nat) :=
  prerequisites_of (created_parent_indices commands) <$> commands.

Definition successors (commands : list ProposalCommand) (index : nat) : list nat :=
  filter (λ child, index ∈ default [] (prerequisites commands !! child)) (seq 0 (length commands)).

(** ** The greedy pass *)

Abbreviation OrderError := (nat * ItemRepositoryError)%type.

(** What the ready commands offer: the first that succeeds, or the first error
    that another order may resolve. *)
Inductive Selection : Type :=
| Selected (index : nat) (candidate : ProjectedBatchState)
| Blocked (first_error : option OrderError).

Fixpoint select_ready (commands : list ProposalCommand) (projected : ProjectedBatchState) (now : DateTime) (ready : list nat)
    (first_error : option OrderError) : result OrderError Selection :=
  match ready with
  | [] => Ok (Blocked first_error)
  | index :: ready =>
      match commands !! index with
      | None => Err (index, Internal)
      | Some c =>
          match project_command_for_ordering c projected now with
          | Ok candidate => Ok (Selected index candidate)
          | Err e =>
              if order_error_can_be_resolved e
              then select_ready commands projected now ready (match first_error with Some f => Some f | None => Some (index, e) end)
              else Err (index, e)
          end
      end
  end.

(** The variables of the greedy loop. *)
Record Greedy : Type := {
  gr_projected : ProjectedBatchState;
  gr_ready : gset nat;
  gr_indegree : list nat;
  gr_order : list nat
}.

Definition ready_list (ready : gset nat) : list nat := sort_by Nat.leb (elements ready).

Definition release_next (st : list nat * gset nat) (successor : nat) : list nat * gset nat :=
  let degree := default 0 (st.1 !! successor) - 1 in
  (<[successor := degree]> st.1, if (degree =? 0)%nat then {[successor]} ∪ st.2 else st.2).

Definition advance_greedy (commands : list ProposalCommand) (g : Greedy) (index : nat) (candidate : ProjectedBatchState) : Greedy :=
  let (indegree, ready) := foldl release_next (gr_indegree g, gr_ready g ∖ {[index]}) (successors commands index) in
  {| gr_projected := candidate; gr_ready := ready; gr_indegree := indegree; gr_order := gr_order g ++ [index] |}.

(** ** The search *)

Definition MAX_COMMAND_ORDER_SEARCH_STATES : N := 50000.

(** What a search keeps: the sets of executed commands already tried, and the
    states it may still visit. *)
Record OrderSearch : Type := {
  se_exhausted_sets : gset (list bool);
  se_remaining_states : N
}.

Definition position_of (f : bool → bool) (executed : list bool) : nat := default 0 (position f executed).

(** A command that may be executed next. *)
Definition may_execute (prereqs : list (list nat)) (executed : list bool) (index : nat) : bool :=
  negb (default true (executed !! index)) && forallb (λ p, default false (executed !! p)) (default [] (prereqs !! index)).

Abbreviation SearchResult := (OrderSearch * result OrderError (option (list nat)))%type.

(** The loop over the commands, given the search from the next state. *)
Fixpoint try_commands (deeper : ProjectedBatchState → list bool → list nat → OrderSearch → SearchResult) (commands : list ProposalCommand)
    (projected : ProjectedBatchState) (prereqs : list (list nat)) (now : DateTime) (executed : list bool) (order : list nat)
    (indices : list nat) (search : OrderSearch) : SearchResult :=
  match indices with
  | [] => (search, Ok None)
  | index :: indices =>
      let continue := try_commands deeper commands projected prereqs now executed order indices in
      if negb (may_execute prereqs executed index) then continue search
      else
        match commands !! index with
        | None => (search, Err (index, Internal))
        | Some c =>
            match project_command_for_ordering c projected now with
            | Err e => if order_error_can_be_resolved e then continue search else (search, Err (index, e))
            | Ok candidate =>
                match deeper candidate (<[index := true]> executed) (order ++ [index]) search with
                | (search, Ok None) => continue search
                | found => found
                end
            end
        end
  end.

(** [search_command_execution_order]; each level executes one more command. *)
Fixpoint search_command_execution_order (fuel : nat) (commands : list ProposalCommand) (prereqs : list (list nat)) (now : DateTime)
    (projected : ProjectedBatchState) (executed : list bool) (order : list nat) (search : OrderSearch) : SearchResult :=
  if (length order =? length commands)%nat then (search, Ok (Some order))
  else
    match fuel with
    | O => (search, Err (0, Internal))
    | S fuel' =>
        match checked_sub (se_remaining_states search) 1 with
        | None => (search, Err (position_of negb executed, Internal))
        | Some next_remaining =>
            let seen := bool_decide (executed ∈ se_exhausted_sets search) in
            let search := {| se_exhausted_sets := {[executed]} ∪ se_exhausted_sets search; se_remaining_states := next_remaining |} in
            if seen then (search, Ok None)
            else
              try_commands (search_command_execution_order fuel' commands prereqs now) commands projected prereqs now executed order
                (seq 0 (length commands)) search
        end
    end.

Definition fallback_command_execution_order (commands : list ProposalCommand) (initial : ProjectedBatchState) (prereqs : list (list nat))
    (now : DateTime) : result OrderError (option (list nat)) :=
  (search_command_execution_order (length commands) commands prereqs now initial (replicate (length commands) false) []
     {| se_exhausted_sets := ∅; se_remaining_states := MAX_COMMAND_ORDER_SEARCH_STATES |}).2.

(** ** The order *)

(** The end of the greedy pass. *)
Definition finish_greedy (commands : list ProposalCommand) (g : Greedy) : result OrderError (list nat) :=
  if (length (gr_order g) =? length commands)%nat && bool_decide (pb_pending_create_ids (gr_projected g) = ∅) then Ok (gr_order g)
  else Err (default 0 (position (λ degree, (0 <? degree)%nat) (gr_indegree g)), HierarchyCycle).

Fixpoint greedy_order (fuel : nat) (commands : list ProposalCommand) (initial : ProjectedBatchState) (now : DateTime) (g : Greedy)
    : result OrderError (list nat) :=
  match ready_list (gr_ready g) with
  | [] => finish_greedy commands g
  | first :: _ =>
      match fuel with
      | O => Err (0, Internal)
      | S fuel' =>
          let? selection := select_ready commands (gr_projected g) now (ready_list (gr_ready g)) None in
          match selection with
          | Selected index candidate => greedy_order fuel' commands initial now (advance_greedy commands g index candidate)
          | Blocked first_error =>
              let? found := fallback_command_execution_order commands initial (prerequisites commands) now in
              ok_or found (default (first, HierarchyCycle) first_error)
          end
      end
  end.

Definition command_execution_order (commands : list ProposalCommand) (initial_by_id : gmap Uuid Item)
    (completion_states : gmap Uuid ItemCompletionState) (now : DateTime) : result OrderError (list nat) :=
  let indegree := length <$> prerequisites commands in
  let ready := list_to_set (filter (λ index, indegree !! index = Some 0) (seq 0 (length commands))) in
  let? initial := projected_batch_state commands initial_by_id completion_states now in
  greedy_order (length commands) commands initial now
    {| gr_projected := initial; gr_ready := ready; gr_indegree := indegree; gr_order := [] |}.

(** The first steps of [simulate_commands]: the fences, then the order. *)
Definition planned_order (commands : list ProposalCommand) (initial : gmap Uuid Item) (states : gmap Uuid ItemCompletionState) (now : DateTime)
    : result OrderError (list nat) :=
  let? _ := validate_initial_command_fences commands initial in
  command_execution_order commands initial states now.
End projection.
