(* ===== verification/Projections.v ===== *)
(** * Projections: executing a set of commands in any order

    The projection of CommandOrder changes its items step by step, and when
    parents are refreshed depends on the order of the commands.  The result does
    not: after commands that were executed successfully in an order that respects
    the prerequisites, the projected state is determined by the set of these
    commands.  This is what lets the search of CommandOrder remember sets. *)
From S2P Require Import Prelude Text Platform Civil Domain Rrule Decimal Progress Completion Session ItemDomain CompletionPolicy ItemStore Delta ItemForest ItemGraph Effects Repository Proposals ChangeSets CommandOrder.
Import ItemRepositoryError.

Section projections.
Context `{ItemFormats, Platform, Civil, !SchedulingMetadata}.

(** ** Items up to their refreshes *)

(** What refreshing an item leaves as it is. *)
Definition bare (i : Item) : Item := touched i 0 0%Z (it_deleted_at i) false.

Lemma item_ext (a b : Item) :
  bare a = bare b → it_revision a = it_revision b → it_updated_at a = it_updated_at b → it_is_executable a = it_is_executable b → a = b.
Proof. destruct a, b. unfold bare, touched. cbn. intros Heq -> -> ->. by injection Heq; intros; subst. Qed.

Lemma bare_touched i revision now executable : bare (touched i revision now (it_deleted_at i) executable) = bare i.
Proof. done. Qed.

Lemma bare_with_executable i executable : bare (with_executable i executable) = bare i.
Proof. done. Qed.

Lemma bare_fields a b :
  bare a = bare b →
  it_id a = it_id b ∧ it_parent_id a = it_parent_id b ∧ it_sibling_order a = it_sibling_order b ∧ it_deleted_at a = it_deleted_at b ∧
  it_kind a = it_kind b ∧ it_has_own_effort a = it_has_own_effort b.
Proof.
  intros Heq. split_and!; [apply (f_equal it_id) in Heq|apply (f_equal it_parent_id) in Heq|apply (f_equal it_sibling_order) in Heq
    |apply (f_equal it_deleted_at) in Heq|apply (f_equal it_kind) in Heq|apply (f_equal it_has_own_effort) in Heq]; exact Heq.
Qed.

Lemma bare_allowed a b children : bare a = bare b → execution_is_allowed a children = execution_is_allowed b children.
Proof. intros (_ & _ & _ & Hd & Hk & He)%bare_fields. unfold execution_is_allowed. by rewrite Hd, Hk, He. Qed.

Definition same_up_to_refresh (m m' : gmap Uuid Item) : Prop := ∀ k, bare <$> m !! k = bare <$> m' !! k.

Lemma bare_children m m' x : same_up_to_refresh m m' → has_active_children x m = has_active_children x m'.
Proof.
  assert (∀ m m', same_up_to_refresh m m' → has_active_children x m = true → has_active_children x m' = true) as Hone.
  { clear m m'. intros m m' Hsame. rewrite !has_active_children_true. intros (k & child & Hk & Hp & Ha).
    specialize (Hsame k). rewrite Hk in Hsame. destruct (m' !! k) as [child'|] eqn:Hk'; [|done]. change (Some (bare child) = Some (bare child')) in Hsame.
    apply (inj Some), bare_fields in Hsame as (_ & Hp' & _ & Ha' & _). exists k, child'. by rewrite <-Hp', <-Ha'. }
  intros Hsame. apply Bool.eq_true_iff_eq. split; apply Hone; [done|intros k; by symmetry].
Qed.

Definition child_of (x : Uuid) (i : Item) : Prop := it_parent_id i = Some x ∧ it_deleted_at i = None.

Lemma children_insert m t old new x :
  m !! t = Some old → (child_of x old ↔ child_of x new) → has_active_children x (<[t := new]> m) = has_active_children x m.
Proof.
  intros Hold Hiff. apply Bool.eq_true_iff_eq. rewrite !has_active_children_true. split.
  - intros (k & child & Hk & Hc). destruct (decide (k = t)) as [->|Hne].
    + rewrite lookup_insert_eq in Hk. injection Hk as ->. exists t, old. split; [done|]. by apply Hiff.
    + rewrite lookup_insert_ne in Hk by done. eauto.
  - intros (k & child & Hk & Hc). destruct (decide (k = t)) as [->|Hne].
    + exists t, new. rewrite lookup_insert_eq. split; [done|]. simplify_eq. by apply Hiff.
    + exists k, child. by rewrite lookup_insert_ne.
Qed.

(** ** Refreshing parents *)

Context (now : DateTime).

Abbreviation stored_now := (canonical_storage_instant now).

Definition refreshed_item (children : bool) (i : Item) : Item :=
  touched i (it_revision i + 1) stored_now (it_deleted_at i) (execution_is_allowed i children).

Lemma next_item_revision_succ i r : next_item_revision i = Ok r → r = (it_revision i + 1)%N.
Proof. unfold next_item_revision. by intros [-> _]%ok_or_ok%checked_add_Some. Qed.

Lemma refresh_one items p items' :
  refresh_projected_parent now items p = Ok items' →
  ∃ i, items !! p = Some i ∧ it_deleted_at i = None ∧ items' = <[p := refreshed_item (has_active_children p items) i]> items.
Proof.
  unfold refresh_projected_parent. intros (i & [Hi Hd]%ok_or_ok%active_item_Some & Hr)%rbind_ok.
  apply rbind_ok in Hr as (parent & Hp%map_err_ok & [= <-]). unfold refreshed_execution in Hp.
  apply rbind_ok in Hp as (r & ->%next_item_revision_succ & [= <-]). by exists i.
Qed.

Lemma refresh_same items p i children : items !! p = Some i → same_up_to_refresh (<[p := refreshed_item children i]> items) items.
Proof.
  intros Hi k. destruct (decide (k = p)) as [->|Hne]; [by rewrite lookup_insert_eq, Hi|by rewrite lookup_insert_ne].
Qed.

Lemma refresh_all ps items items' :
  NoDup ps → foldM (refresh_projected_parent now) items ps = Ok items' →
  ∀ k, items' !! k = if decide (k ∈ ps) then refreshed_item (has_active_children k items) <$> items !! k else items !! k.
Proof.
  revert items. induction ps as [|p ps IH]; intros items Hnd Hfold k.
  - injection Hfold as <-. by rewrite decide_False by (by intros ?%elem_of_nil).
  - apply NoDup_cons in Hnd as [Hp Hnd]. apply rbind_ok in Hfold as (mid & (i & Hi & _ & ->)%refresh_one & Hfold).
    rewrite (IH _ Hnd Hfold k), (bare_children _ items) by (by apply refresh_same).
    destruct (decide (k = p)) as [->|Hne].
    + rewrite decide_False by done. rewrite decide_True by (by left). by rewrite lookup_insert_eq, Hi.
    + rewrite lookup_insert_ne by done. destruct (decide (k ∈ ps)).
      * by rewrite decide_True by (by right).
      * by rewrite decide_False by (by intros [|]%elem_of_cons).
Qed.

Lemma refresh_all_same ps items items' :
  foldM (refresh_projected_parent now) items ps = Ok items' → same_up_to_refresh items' items.
Proof.
  revert items. induction ps as [|p ps IH]; intros items Hfold; [by injection Hfold as <-|].
  apply rbind_ok in Hfold as (mid & (i & Hi & _ & ->)%refresh_one & Hfold). intros k. by rewrite (IH _ Hfold k), (refresh_same items p i).
Qed.

(** ** What a command makes of its item *)

Definition makes (c : ProposalCommand) (i0 : Item) (x : Item) : Prop :=
  match c with
  | CreateItem _ input => ∃ item, new_item input now = Ok item ∧ x = bare item
  | ReplaceItem _ _ _ input => ∃ cur item, bare cur = bare i0 ∧ replaced cur input now = Ok item ∧ x = bare item
  | TrashItem _ _ _ => ∃ cur item, bare cur = bare i0 ∧ trashed cur now = Ok item ∧ x = bare item
  | RestoreItem _ _ _ => ∃ cur item, bare cur = bare i0 ∧ restored cur now = Ok item ∧ x = bare item
  end.

Lemma validate_keeps f id preserved created f' :
  validate_fields f id preserved created = Ok f' → if_parent_id f' = if_parent_id f ∧ if_sibling_order f' = if_sibling_order f.
Proof.
  unfold validate_fields. intros ([title timezone] & _ & Hv)%rbind_ok. do 3 apply rbind_ok in Hv as (? & _ & Hv).
  apply rbind_ok in Hv as ([effort constraints] & _ & Hv). do 5 apply rbind_ok in Hv as (? & _ & Hv). by injection Hv as <-.
Qed.

Lemma new_item_Ok input item :
  new_item input now = Ok item →
  it_id item = ni_id input ∧ it_parent_id item = if_parent_id (ni_fields input) ∧ it_revision item = 1%N ∧ it_updated_at item = stored_now ∧
  it_deleted_at item = None.
Proof.
  unfold new_item. intros (f & Hf & Hn)%rbind_ok. do 3 apply rbind_ok in Hn as (? & _ & Hn). injection Hn as <-.
  apply validate_keeps in Hf as [Hp _]. done.
Qed.

Lemma replaced_Ok cur input item :
  replaced cur input now = Ok item →
  it_id item = it_id cur ∧ it_parent_id item = if_parent_id input ∧ it_sibling_order item = if_sibling_order input ∧
  it_revision item = (it_revision cur + 1)%N ∧ it_updated_at item = stored_now ∧ it_deleted_at item = it_deleted_at cur.
Proof.
  unfold replaced. intros (f & Hf & Hn)%rbind_ok. apply rbind_ok in Hn as (r & ->%next_item_revision_succ & [= <-]).
  apply validate_keeps in Hf as [Hp Hs]. done.
Qed.

Lemma replaced_strip cur cur' input item item' :
  bare cur = bare cur' → replaced cur input now = Ok item → replaced cur' input now = Ok item' → bare item = bare item'.
Proof.
  intros Hs. assert (it_id cur = it_id cur' ∧ it_flexible_constraints cur = it_flexible_constraints cur' ∧
    it_created_at cur = it_created_at cur' ∧ it_completed_at cur = it_completed_at cur' ∧ it_deleted_at cur = it_deleted_at cur')
    as (Hid & Hf & Hc & Hco & Hd).
  { split_and!; [apply (f_equal it_id) in Hs|apply (f_equal it_flexible_constraints) in Hs|apply (f_equal it_created_at) in Hs
      |apply (f_equal it_completed_at) in Hs|apply (f_equal it_deleted_at) in Hs]; exact Hs. }
  unfold replaced. rewrite Hid, Hf, Hc, Hco, Hd. intros (f & -> & Hn)%rbind_ok Hn'. cbn [rbind] in Hn'.
  apply rbind_ok in Hn as (r & _ & [= <-]). by apply rbind_ok in Hn' as (r' & _ & [= <-]).
Qed.

Lemma touched_strip i i' deleted : bare i = bare i' → bare (touched i 0 0%Z deleted false) = bare (touched i' 0 0%Z deleted false).
Proof.
  intros Heq. change (touched (bare i) 0 0%Z deleted false = touched (bare i') 0 0%Z deleted false). by rewrite Heq.
Qed.

Lemma makes_fun c i0 i0' x y : bare i0 = bare i0' → makes c i0 x → makes c i0' y → x = y.
Proof.
  intros Hs. destruct c as [? input|? ? ? input|? ? ?|? ? ?]; cbn.
  - intros (a & Ha & ->) (b & Hb & ->). congruence.
  - intros (cur & a & Hc & Ha & ->) (cur' & b & Hc' & Hb & ->). apply (replaced_strip cur cur' input); [congruence|done|done].
  - intros (cur & a & Hc & Ha & ->) (cur' & b & Hc' & Hb & ->). unfold trashed in *.
    apply rbind_ok in Ha as (r & _ & [= <-]). apply rbind_ok in Hb as (r' & _ & [= <-]). apply (touched_strip cur cur'). congruence.
  - intros (cur & a & Hc & Ha & ->) (cur' & b & Hc' & Hb & ->). unfold restored in *.
    apply rbind_ok in Ha as (r & _ & [= <-]). apply rbind_ok in Hb as (r' & _ & [= <-]). apply (touched_strip cur cur'). congruence.
Qed.

Lemma makes_bare c i0 i0' x : bare i0 = bare i0' → makes c i0 x → makes c i0' x.
Proof. intros Hs. destruct c; cbn; [done|..]; intros (cur & a & Hc & Ha & Hx); exists cur, a; by rewrite <-Hs. Qed.

(** The parents that a command refreshes. *)
Definition refreshes (c : ProposalCommand) (i0 : Item) : list Uuid :=
  sort_dedup_N (omap id
    match c with
    | CreateItem _ input => [if_parent_id (ni_fields input)]
    | ReplaceItem _ _ _ input =>
        if negb (bool_decide (it_parent_id i0 = if_parent_id input)) || negb (it_sibling_order i0 =? if_sibling_order input)%N
        then [it_parent_id i0; if_parent_id input] else []
    | TrashItem _ _ _ | RestoreItem _ _ _ => [it_parent_id i0]
    end).

Lemma refreshes_bare c i0 i0' : bare i0 = bare i0' → refreshes c i0 = refreshes c i0'.
Proof. intros (_ & Hp & Hs & _)%bare_fields. unfold refreshes. by rewrite Hp, Hs. Qed.

Lemma elem_of_refreshes x (l : list (option Uuid)) : x ∈ sort_dedup_N (omap id l) ↔ Some x ∈ l.
Proof.
  rewrite elem_of_sort_dedup_N, list_elem_of_omap. split; [by intros ([y|] & Hy & [= ->])|]. intros Hx. by exists (Some x).
Qed.

Lemma projected_parent_Ok st id parent : validate_projected_parent st id parent = Ok tt → parent ≠ Some id.
Proof.
  destruct parent as [p|]; [|done]. cbn. destruct (N.eqb_spec p id) as [|Hne]; [done|]. intros _ [= ->]. done.
Qed.

(** What the first part of a projection gives, from the current item. *)
Record projects (c : ProposalCommand) (s : ProjectedBatchState) (cur item : Item) (parents : list (option Uuid)) (pending : gset Uuid) : Prop := {
  pj_id : it_id item = target_item_id c;
  pj_makes : makes c cur (bare item);
  pj_updated : it_updated_at item = stored_now;
  pj_revision : it_revision item = if is_create c then 1%N else (it_revision cur + 1)%N;
  pj_parents : sort_dedup_N (omap id parents) = refreshes c cur;
  pj_pending : pending = pb_pending_create_ids s ∖ (if is_create c then {[target_item_id c]} else ∅);
  pj_children : ∀ x, (is_create c = true → it_parent_id cur = None) → x ∉ refreshes c cur → (child_of x cur ↔ child_of x item);
  pj_self : is_create c = true → target_item_id c ∉ refreshes c cur;
  pj_created : is_create c = true → target_item_id c ∈ pb_pending_create_ids s
}.

Lemma projected_item_spec c s cur item parents pending :
  projected_item c s now = Ok (item, parents, pending) → pb_items s !! target_item_id c = Some cur → it_id cur = target_item_id c →
  projects c s cur item parents pending.
Proof.
  intros Hp Hcur Hid. destruct c as [cid input|cid t expected input|cid t expected|cid t expected]; cbn [target_item_id] in *; cbn in Hp.
  - destruct (bool_decide (ni_id input ∈ pb_pending_create_ids s)) eqn:Hpend; [|done]. apply bool_decide_eq_true in Hpend. cbn in Hp.
    apply rbind_ok in Hp as (i & Hi%map_err_ok & Hp). apply rbind_ok in Hp as ([] & Hparent%projected_parent_Ok & Hp).
    apply rbind_ok in Hp as (_ & _ & [= <- <- <-]). pose proof (new_item_Ok _ _ Hi) as (Hiid & Hip & Hir & Hiu & Hid').
    rewrite Hip in *. rewrite Hiid in Hparent. split; cbn; try done.
    + by exists i.
    + unfold refreshes. intros x Hnone. rewrite elem_of_refreshes. unfold child_of. rewrite Hip, (Hnone eq_refl). set_solver.
    + intros _. unfold refreshes. rewrite elem_of_refreshes. set_solver.
  - apply rbind_ok in Hp as (cur' & [Hc Hd]%ok_or_ok%active_item_Some & Hp). rewrite Hcur in Hc. injection Hc as <-.
    apply rbind_ok in Hp as (i & Hi%map_err_ok & Hp). apply rbind_ok in Hp as ([] & Hparent%projected_parent_Ok & Hp).
    apply rbind_ok in Hp as ([] & _ & Hp). apply rbind_ok in Hp as ([] & _ & [= <- <- <-]).
    pose proof (replaced_Ok _ _ _ Hi) as (Hiid & Hip & His & Hir & Hiu & Hid').
    split; cbn; try done; try congruence.
    + by exists cur, i.
    + unfold refreshes. by rewrite Hip, His.
    + set_solver.
    + intros x _ Hx. unfold child_of. rewrite Hd in Hid'. unfold refreshes in Hx. rewrite elem_of_refreshes in Hx. rewrite Hip, Hid', Hd.
      destruct (bool_decide (it_parent_id cur = if_parent_id input)) eqn:Hsame.
      * apply bool_decide_eq_true in Hsame. by rewrite Hsame.
      * cbn in Hx. set_solver.
  - apply rbind_ok in Hp as (cur' & [Hc Hd]%ok_or_ok%active_item_Some & Hp). rewrite Hcur in Hc. injection Hc as <-.
    destruct (projected_has_active_children _ _); [done|]. apply rbind_ok in Hp as (i & Hi%map_err_ok & [= <- <- <-]).
    pose proof Hi as Hi'. unfold trashed in Hi'. apply rbind_ok in Hi' as (r & ->%next_item_revision_succ & [= <-]).
    split; cbn; try done.
    + by eexists cur, _.
    + set_solver.
    + intros x _. unfold refreshes. rewrite elem_of_refreshes. unfold child_of. cbn. set_solver.
  - apply rbind_ok in Hp as (cur' & [Hc Hd]%ok_or_ok%trashed_item_Some & Hp). rewrite Hcur in Hc. injection Hc as <-.
    apply rbind_ok in Hp as ([] & _ & Hp). apply rbind_ok in Hp as (i & Hi%map_err_ok & Hp).
    apply rbind_ok in Hp as ([] & _ & [= <- <- <-]).
    pose proof Hi as Hi'. unfold restored in Hi'. apply rbind_ok in Hi' as (r & ->%next_item_revision_succ & [= <-]).
    split; cbn; try done.
    + by eexists cur, _.
    + set_solver.
    + intros x _. unfold refreshes. rewrite elem_of_refreshes. unfold child_of. cbn. destruct Hd as [d Hd]. rewrite Hd. set_solver.
Qed.

(** The whole projection of a command, seen from outside. *)
Record executes (c : ProposalCommand) (s s' : ProjectedBatchState) (cur : Item) : Prop := {
  ex_item : ∃ item, it_id item = target_item_id c ∧ makes c cur (bare item) ∧ it_updated_at item = stored_now ∧
    it_revision item = (if is_create c then 1%N else (it_revision cur + 1)%N) ∧
    it_is_executable item = execution_is_allowed item (has_active_children (target_item_id c) (pb_items s')) ∧
    ∀ k, pb_items s' !! k =
      if decide (k ∈ refreshes c cur)
      then refreshed_item (has_active_children k (pb_items s')) <$> <[target_item_id c := item]> (pb_items s) !! k
      else <[target_item_id c := item]> (pb_items s) !! k;
  ex_children : ∀ x, (is_create c = true → it_parent_id cur = None) → x ∉ refreshes c cur →
    has_active_children x (pb_items s') = has_active_children x (pb_items s);
  ex_self : is_create c = true → target_item_id c ∉ refreshes c cur;
  ex_states : pb_completion_states s' = pb_completion_states s;
  ex_pending : pb_pending_create_ids s' = pb_pending_create_ids s ∖ (if is_create c then {[target_item_id c]} else ∅);
  ex_created : is_create c = true → target_item_id c ∈ pb_pending_create_ids s
}.

Lemma project_spec c s s' cur :
  project_command_for_ordering c s now = Ok s' → pb_items s !! target_item_id c = Some cur → it_id cur = target_item_id c →
  executes c s s' cur.
Proof.
  intros Hp Hcur Hid. unfold project_command_for_ordering in Hp. apply rbind_ok in Hp as ([[item parents] pending] & Hitem & Hp).
  pose proof (projected_item_spec _ _ _ _ _ _ Hitem Hcur Hid) as [Hiid Hmakes Hupd Hrev Hpar Hpend Hch Hself Hcreated]. rewrite Hiid in Hp.
  set (items1 := <[target_item_id c := item]> (pb_items s)) in *.
  set (item' := with_executable item _) in Hp. change (it_id item') with (it_id item) in Hp. rewrite Hiid in Hp.
  set (items2 := <[target_item_id c := item']> items1) in Hp.
  apply rbind_ok in Hp as (items3 & Hrefresh & Hp). apply rbind_ok in Hp as ([] & _ & [= <-]).
  unfold refresh_projected_parents in Hrefresh. rewrite Hpar in Hrefresh.
  assert (items2 = <[target_item_id c := item']> (pb_items s)) as Heq2 by (unfold items2, items1; by rewrite insert_insert_eq).
  assert (same_up_to_refresh items2 items1) as H21.
  { intros k. unfold items2. destruct (decide (k = target_item_id c)) as [->|Hne]; [|by rewrite lookup_insert_ne].
    rewrite lookup_insert_eq. unfold items1. by rewrite lookup_insert_eq. }
  assert (same_up_to_refresh items3 items2) as H32 by exact (refresh_all_same _ _ _ Hrefresh).
  assert (∀ x, has_active_children x items3 = has_active_children x items1) as Hchildren.
  { intros x. rewrite (bare_children items3 items2), (bare_children items2 items1); done. }
  assert (NoDup (refreshes c cur)) as Hnd by apply NoDup_sort_dedup_N.
  split; cbn; try done.
  - exists item'. split; [done|]. split; [done|]. split; [done|]. split; [done|]. split.
    + unfold item'. cbn. rewrite Hchildren. done.
    + intros k. rewrite (refresh_all _ _ _ Hnd Hrefresh k), Hchildren, (bare_children items2 items1), Heq2 by done. done.
  - intros x Hnone Hx. rewrite Hchildren. apply (children_insert _ _ cur); [done|]. by apply Hch.
Qed.

(** ** Runs of commands *)

Context (commands : list ProposalCommand) (st0 : ProjectedBatchState).

Abbreviation items0 := (pb_items st0).

Definition run_command (s : ProjectedBatchState) (index : nat) : result ItemRepositoryError ProjectedBatchState :=
  match commands !! index with Some c => project_command_for_ordering c s now | None => Err Internal end.

Definition run_commands (s : ProjectedBatchState) (order : list nat) : result ItemRepositoryError ProjectedBatchState :=
  foldM run_command s order.

(** Every command comes after its prerequisites. *)
Definition respects (order : list nat) : Prop :=
  ∀ before index after, order = before ++ index :: after → ∀ p, p ∈ default [] (prerequisites commands !! index) → p ∈ before.

(** What the search relies on: one command for an item, and staged shells that
    nothing refers to but the commands. *)
Record staged_ok : Prop := {
  sg_targets : NoDup (target_item_id <$> commands);
  sg_keys : ∀ id item, items0 !! id = Some item → it_id item = id;
  sg_items : ∀ c, c ∈ commands → is_Some (items0 !! target_item_id c);
  sg_shells : ∀ c item, c ∈ commands → is_create c = true → items0 !! target_item_id c = Some item →
    it_parent_id item = None ∧ it_revision item = 1%N ∧ it_updated_at item = stored_now;
  sg_pending : ∀ id, id ∈ pb_pending_create_ids st0 ↔ ∃ c, c ∈ commands ∧ is_create c = true ∧ target_item_id c = id;
  sg_parents : ∀ id item p, items0 !! id = Some item → it_parent_id item = Some p → p ∉ pb_pending_create_ids st0
}.

(** How often a command raises the revision of an item. *)
Definition raises (k : nat) (id : Uuid) : nat :=
  match commands !! k with
  | Some c =>
      match items0 !! target_item_id c with
      | Some i0 => (if bool_decide (id ∈ refreshes c i0) then 1 else 0) +
                   (if bool_decide (target_item_id c = id) && negb (is_create c) then 1 else 0)
      | None => 0
      end
  | None => 0
  end.

(** Whether a command decides the executability of an item. *)
Definition hits (k : nat) (id : Uuid) : bool :=
  match commands !! k with
  | Some c =>
      match items0 !! target_item_id c with
      | Some i0 => bool_decide (target_item_id c = id) || bool_decide (id ∈ refreshes c i0)
      | None => false
      end
  | None => false
  end.

Definition hit (order : list nat) (id : Uuid) : bool := existsb (λ k, hits k id) order.

Definition targeted (order : list nat) (id : Uuid) (c : ProposalCommand) : Prop :=
  ∃ k, k ∈ order ∧ commands !! k = Some c ∧ target_item_id c = id.

(** The state after some commands, whatever their order. *)
Record closed_item (order : list nat) (s : ProjectedBatchState) (id : Uuid) (i0 i : Item) : Prop := {
  ci_id : it_id i = id;
  ci_content : (∃ c, targeted order id c ∧ makes c i0 (bare i)) ∨ ((∀ c, ¬ targeted order id c) ∧ bare i = bare i0);
  ci_revision : it_revision i = (it_revision i0 + N.of_nat (sum_list_with (λ k, raises k id) order))%N;
  ci_updated : it_updated_at i = if hit order id then stored_now else it_updated_at i0;
  ci_executable : it_is_executable i =
    if hit order id then execution_is_allowed i (has_active_children id (pb_items s)) else it_is_executable i0
}.

Record closed (order : list nat) (s : ProjectedBatchState) : Prop := {
  cl_states : pb_completion_states s = pb_completion_states st0;
  cl_pending : ∀ id, id ∈ pb_pending_create_ids s ↔
    id ∈ pb_pending_create_ids st0 ∧ ∀ c, targeted order id c → is_create c = false;
  cl_dom : ∀ id, is_Some (pb_items s !! id) ↔ is_Some (items0 !! id);
  cl_items : ∀ id i, pb_items s !! id = Some i → ∃ i0, items0 !! id = Some i0 ∧ closed_item order s id i0 i
}.

Lemma hit_perm order order' id : order ≡ₚ order' → hit order id = hit order' id.
Proof.
  intros Hperm. apply Bool.eq_true_iff_eq. unfold hit. rewrite !existsb_exists.
  split; intros (k & Hk%list_elem_of_In & Hh); exists k; (split; [apply list_elem_of_In|done]); [by rewrite <-Hperm|by rewrite Hperm].
Qed.

Lemma targeted_perm order order' id c : order ≡ₚ order' → targeted order id c → targeted order' id c.
Proof. intros Hperm (k & Hk & Hc). exists k. by rewrite <-Hperm. Qed.

Lemma targeted_fun order id c c' : NoDup (target_item_id <$> commands) → targeted order id c → targeted order id c' → c = c'.
Proof.
  intros Hnd (k & _ & Hc & Hid) (k' & _ & Hc' & Hid').
  assert (k = k') as ->; [|congruence]. apply (NoDup_lookup _ k k' id Hnd); rewrite list_lookup_fmap; [by rewrite Hc; cbn; f_equal|by rewrite Hc'; cbn; f_equal].
Qed.

(** Two orders of the same commands lead to the same state. *)
Lemma closed_unique order order' s s' :
  staged_ok → order ≡ₚ order' → closed order s → closed order' s' → s = s'.
Proof.
  intros Hst Hperm [Hst1 Hp1 Hd1 Hi1] [Hst2 Hp2 Hd2 Hi2]. destruct s as [m st pend], s' as [m' st' pend']. cbn in *.
  assert (∀ id i i', m !! id = Some i → m' !! id = Some i' → bare i = bare i') as Hstrip.
  { intros id i i' Hi Hi'. destruct (Hi1 id i Hi) as (i0 & Hi0 & [_ Hc _ _ _]). destruct (Hi2 id i' Hi') as (i0' & Hi0' & [_ Hc' _ _ _]).
    assert (i0' = i0) as -> by congruence. destruct Hc as [(c & Ht & Hm)|[Hnone Hs]], Hc' as [(c' & Ht' & Hm')|[Hnone' Hs']].
    - assert (c' = c) as ->.
      { eapply targeted_fun; [apply Hst| |exact Ht]. eapply targeted_perm; [by symmetry|exact Ht']. }
      by eapply makes_fun.
    - destruct (Hnone' c). by eapply targeted_perm.
    - destruct (Hnone c'). eapply targeted_perm; [by symmetry|exact Ht'].
    - congruence. }
  assert (∀ id, is_Some (m !! id) ↔ is_Some (m' !! id)) as Hdom by (intros id; by rewrite Hd1, Hd2).
  assert (same_up_to_refresh m m') as Hsame.
  { intros id. specialize (Hdom id). destruct (m !! id) as [i|] eqn:Hi, (m' !! id) as [i'|] eqn:Hi'; try done.
    - cbn. f_equal. by eapply Hstrip.
    - destruct (proj1 Hdom); [by eexists|done].
    - destruct (proj2 Hdom); [by eexists|done]. }
  assert (m = m') as ->.
  { apply map_eq. intros id. specialize (Hdom id). destruct (m !! id) as [i|] eqn:Hi, (m' !! id) as [i'|] eqn:Hi'; try done.
    - f_equal. destruct (Hi1 id i Hi) as (i0 & Hi0 & [_ _ Hr Hu He]). destruct (Hi2 id i' Hi') as (i0' & Hi0' & [_ _ Hr' Hu' He']).
      assert (i0' = i0) as -> by congruence. pose proof (Hstrip _ _ _ Hi Hi') as Hs. apply item_ext; [done| | |].
      + by rewrite Hr, Hr', Hperm.
      + by rewrite Hu, Hu', (hit_perm _ _ _ Hperm).
      + rewrite He, He', (hit_perm _ _ _ Hperm), (bare_children m m') by done. by rewrite (bare_allowed i i').
    - destruct (proj1 Hdom); [by eexists|done].
    - destruct (proj2 Hdom); [by eexists|done]. }
  f_equal; [congruence|]. apply set_eq. intros id. rewrite Hp1, Hp2. split; intros [Hin Hall]; (split; [done|]); intros c Ht; apply Hall;
    (eapply targeted_perm; [|exact Ht]); [by symmetry|done].
Qed.

(** ** Runs are closed *)

Lemma created_fold (l : list (nat * ProposalCommand)) (m : gmap Uuid nat) id k :
  foldl (λ m p, match p.2 with CreateItem _ item => <[ni_id item := p.1]> m | _ => m end) m l !! id = Some k →
  m !! id = Some k ∨ ∃ c, (k, c) ∈ l ∧ is_create c = true ∧ target_item_id c = id.
Proof.
  revert m. induction l as [|[j c] l IH]; intros m Hk; [by left|]. cbn in Hk. apply IH in Hk as [Hk|(c' & Hin & Hc')].
  - destruct c as [cid item|cid t r i|cid t r|cid t r]; cbn in Hk; try (by left).
    destruct (decide (ni_id item = id)) as [<-|Hne].
    + rewrite lookup_insert_eq in Hk. injection Hk as <-. right. exists (CreateItem cid item). split; [by left|done].
    + rewrite lookup_insert_ne in Hk by done. by left.
  - right. exists c'. split; [by right|done].
Qed.

Lemma created_fold_some (l : list (nat * ProposalCommand)) (m : gmap Uuid nat) id :
  is_Some (m !! id) ∨ (∃ k c, (k, c) ∈ l ∧ is_create c = true ∧ target_item_id c = id) →
  is_Some (foldl (λ m p, match p.2 with CreateItem _ item => <[ni_id item := p.1]> m | _ => m end) m l !! id).
Proof.
  revert m. induction l as [|[j c] l IH]; intros m Hk; cbn.
  - destruct Hk as [Hk|(k & c & Hin & _)]; [done|by apply elem_of_nil in Hin].
  - apply IH. destruct Hk as [Hk|(k & c' & [Heq|Hin]%elem_of_cons & Hc' & Hid)].
    + left. destruct c; cbn; try done. apply lookup_insert_is_Some'. by right.
    + injection Heq as -> ->. left. destruct c; try done. cbn in *. subst. rewrite lookup_insert_eq. by eexists.
    + right. by exists k, c'.
Qed.

Lemma elem_of_imap_pair k c : (k, c) ∈ imap pair commands ↔ commands !! k = Some c.
Proof.
  rewrite list_elem_of_lookup. setoid_rewrite list_lookup_imap. split.
  - intros (j & Hj). destruct (commands !! j) as [d|] eqn:Hd; [|done]. by injection Hj as <- <-.
  - intros Hk. exists k. by rewrite Hk.
Qed.

Lemma created_index k c :
  NoDup (target_item_id <$> commands) → commands !! k = Some c → is_create c = true →
  created_parent_indices commands !! target_item_id c = Some k.
Proof.
  intros Hnd Hk Hc. unfold created_parent_indices.
  destruct (created_fold_some (imap pair commands) ∅ (target_item_id c)) as [j Hj].
  { right. exists k, c. by rewrite elem_of_imap_pair. }
  rewrite Hj. apply created_fold in Hj as [Hj|(d & Hd%elem_of_imap_pair & _ & Hid)]; [by rewrite lookup_empty in Hj|].
  f_equal. apply (NoDup_lookup _ j k (target_item_id c) Hnd); rewrite list_lookup_fmap; [by rewrite Hd, <-Hid|by rewrite Hk].
Qed.

Lemma targeted_snoc order k c id c' :
  commands !! k = Some c → targeted (order ++ [k]) id c' ↔ targeted order id c' ∨ c' = c ∧ target_item_id c = id.
Proof.
  intros Hk. unfold targeted. setoid_rewrite elem_of_app. setoid_rewrite list_elem_of_singleton. split.
  - intros (j & [Hj| ->] & Hc & Hid); [left; by exists j|]. right. by simplify_eq.
  - intros [(j & Hj & Hc & Hid)|[-> Hid]]; [exists j; auto|]. exists k. auto.
Qed.

(** A creation that is still to come was not touched before. *)
Lemma untouched_before order k c j :
  staged_ok → commands !! k = Some c → is_create c = true → k ∉ order → respects (order ++ [k]) → j ∈ order →
  hits j (target_item_id c) = false ∧ raises j (target_item_id c) = 0.
Proof.
  intros Hst Hk Hc Hnew Hresp Hj. unfold hits, raises. destruct (commands !! j) as [cj|] eqn:Hcj; [|done].
  destruct (items0 !! target_item_id cj) as [ij|] eqn:Hij; [|done].
  assert (target_item_id cj ≠ target_item_id c) as Hne.
  { intros Heq. apply Hnew. assert (j = k) as <-; [|done].
    apply (NoDup_lookup _ j k (target_item_id c) (sg_targets Hst)); rewrite list_lookup_fmap; [by rewrite Hcj, <-Heq|by rewrite Hk]. }
  assert (target_item_id c ∉ refreshes cj ij) as Hno.
  { unfold refreshes. rewrite elem_of_refreshes. intros Hin.
    assert (requested_parent cj ≠ Some (target_item_id c)) as Hreq.
    { intros Heq. apply list_elem_of_split in Hj as (before & after & ->). apply Hnew.
      assert (k ∈ before); [|set_solver]. apply (Hresp before j (after ++ [k])); [by rewrite <-app_assoc|].
      unfold prerequisites. rewrite list_lookup_fmap, Hcj. cbn. unfold prerequisites_of. rewrite Heq. cbn.
      rewrite (created_index k c) by (done || apply Hst). by left. }
    assert (it_parent_id ij ≠ Some (target_item_id c)) as Hold.
    { intros Heq. apply (sg_parents Hst _ _ _ Hij Heq). apply (sg_pending Hst). exists c. split; [by eapply list_elem_of_lookup_2|done]. }
    destruct cj as [cid input|cid t r input|cid t r|cid t r]; cbn in *.
    - apply list_elem_of_singleton in Hin. by rewrite Hin in Hreq.
    - destruct (_ || _); [|by apply elem_of_nil in Hin]. set_solver.
    - apply list_elem_of_singleton in Hin. by rewrite Hin in Hold.
    - apply list_elem_of_singleton in Hin. by rewrite Hin in Hold. }
  by rewrite !bool_decide_false by done.
Qed.

Lemma untouched_hit order id : (∀ j, j ∈ order → hits j id = false) → hit order id = false.
Proof.
  intros Hall. unfold hit. apply not_true_iff_false. intros (j & Hj%list_elem_of_In & Hh)%existsb_exists. by rewrite Hall in Hh.
Qed.

Lemma untouched_sum order id : (∀ j, j ∈ order → raises j id = 0) → sum_list_with (λ k, raises k id) order = 0.
Proof.
  induction order as [|j order IH]; intros Hall; cbn; [done|]. rewrite Hall by (by left). apply IH. intros; apply Hall. by right.
Qed.

(** One more command after a closed state: what it does to the pending
    creations, to its own item and to every other item. *)
Section step.
Context (order : list nat) (k : nat) (c : ProposalCommand) (s s' : ProjectedBatchState) (cur i0 : Item).
Context (Hst : staged_ok) (Hclosed : closed order s) (Hnew : k ∉ order) (Hresp : respects (order ++ [k])) (Hk : commands !! k = Some c).
Context (Hi0 : items0 !! target_item_id c = Some i0) (Hcl : closed_item order s (target_item_id c) i0 cur).
Context (Hstrip : bare cur = bare i0) (Hex : executes c s s' cur).

Abbreviation t := (target_item_id c).
Abbreviation refreshed id j := (if decide (id ∈ refreshes c i0) then refreshed_item (has_active_children id (pb_items s')) j else j).

Lemma step_hit id : hit (order ++ [k]) id = hit order id || (bool_decide (t = id) || bool_decide (id ∈ refreshes c i0)).
Proof. unfold hit. rewrite existsb_app. cbn. unfold hits at 2. by rewrite Hk, Hi0, orb_false_r. Qed.

Lemma step_raises id :
  sum_list_with (λ k, raises k id) (order ++ [k]) =
  sum_list_with (λ k, raises k id) order + ((if bool_decide (id ∈ refreshes c i0) then 1 else 0) + (if bool_decide (t = id) && negb (is_create c) then 1 else 0)).
Proof. rewrite sum_list_with_app. cbn. unfold raises at 2. by rewrite Hk, Hi0, Nat.add_0_r. Qed.

Lemma step_pending id :
  id ∈ pb_pending_create_ids s' ↔ id ∈ pb_pending_create_ids st0 ∧ ∀ c', targeted (order ++ [k]) id c' → is_create c' = false.
Proof.
  rewrite (ex_pending _ _ _ _ Hex). setoid_rewrite (targeted_snoc order k c id _ Hk). rewrite elem_of_difference, (cl_pending _ _ Hclosed).
  destruct (is_create c) eqn:Hcr.
  - rewrite elem_of_singleton. split.
    + intros [[H1' H2'] Hne]. split; [done|]. intros c' [Ht|[-> Ht]]; [by apply H2'|]. by destruct Hne.
    + intros [H1' H2']. split; [split; [done|]; intros c' Ht; apply H2'; by left|]. intros ->.
      specialize (H2' c (or_intror (conj eq_refl eq_refl))). congruence.
  - split.
    + intros [[H1' H2'] _]. split; [done|]. intros c' [Ht|[-> Ht]]; [by apply H2'|done].
    + intros [H1' H2']. split; [split; [done|]; intros c' Ht; apply H2'; by left|set_solver].
Qed.

Lemma step_own_item item :
  it_id item = t → makes c cur (bare item) → it_updated_at item = stored_now →
  it_revision item = (if is_create c then 1%N else (it_revision cur + 1)%N) →
  it_is_executable item = execution_is_allowed item (has_active_children t (pb_items s')) →
  closed_item (order ++ [k]) s' t i0 (refreshed t item).
Proof.
  intros Hid Hmakes Hupd Hrev Hexec. split.
  - by destruct (decide _).
  - left. exists c. split; [apply targeted_snoc with c; [done|by right]|]. apply makes_bare with cur; [done|]. by destruct (decide _).
  - rewrite step_raises. pose proof (ci_revision _ _ _ _ _ Hcl) as Hr. rewrite bool_decide_true with (P := t = t) by done.
    destruct (is_create c) eqn:Hcr; cbn [andb negb].
    + destruct (sg_shells Hst c i0 (list_elem_of_lookup_2 _ _ _ Hk) Hcr Hi0) as (_ & Hr0 & _).
      assert (t ∉ refreshes c i0) as Hself by (rewrite <-(refreshes_bare c cur i0 Hstrip); by apply (ex_self _ _ _ _ Hex)).
      rewrite decide_False, bool_decide_false by done. rewrite untouched_sum; [cbn; lia|].
      intros j Hj. by apply (untouched_before order k c j).
    + destruct (decide (t ∈ refreshes c i0)); [rewrite bool_decide_true by done; cbn|rewrite bool_decide_false by done]; lia.
  - rewrite step_hit, bool_decide_true with (P := t = t) by done. rewrite orb_true_r. by destruct (decide _).
  - rewrite step_hit, bool_decide_true with (P := t = t) by done. rewrite orb_true_r. by destruct (decide (t ∈ refreshes c i0)).
Qed.

Lemma step_other_item id j j0 : id ≠ t → closed_item order s id j0 j → closed_item (order ++ [k]) s' id j0 (refreshed id j).
Proof.
  intros Hne [Cid Cc Cr Cu Ce]. assert (bare (refreshed id j) = bare j) as Hs by (by destruct (decide _)).
  assert (bool_decide (t = id) = false) as Hno by (by apply bool_decide_eq_false_2). split.
  - by destruct (decide _).
  - rewrite Hs. destruct Cc as [(c' & Ht & Hm)|[Hnone Hj]].
    + left. exists c'. split; [apply targeted_snoc with c; [done|by left]|done].
    + right. split; [|done]. intros c' [Ht|[_ Ht]]%(targeted_snoc order k c id c' Hk); [by apply (Hnone c')|done].
  - rewrite step_raises, Hno. cbn [andb]. destruct (decide (id ∈ refreshes c i0)); [rewrite bool_decide_true by done; cbn|rewrite bool_decide_false by done]; lia.
  - rewrite step_hit, Hno. cbn [orb]. destruct (decide (id ∈ refreshes c i0)); [rewrite bool_decide_true by done; by rewrite orb_true_r|].
    rewrite bool_decide_false by done. by rewrite orb_false_r.
  - rewrite step_hit, Hno. cbn [orb]. destruct (decide (id ∈ refreshes c i0)) as [Hin|Hnin]; [rewrite bool_decide_true by done; by rewrite orb_true_r|].
    rewrite bool_decide_false, orb_false_r by done. rewrite (ex_children _ _ _ _ Hex id); [done| |by rewrite (refreshes_bare c cur i0 Hstrip)].
    intros Hcr. destruct (bare_fields _ _ Hstrip) as (_ & -> & _). by destruct (sg_shells Hst c i0 (list_elem_of_lookup_2 _ _ _ Hk) Hcr Hi0).
Qed.

Lemma step_closed : closed (order ++ [k]) s'.
Proof.
  destruct (ex_item _ _ _ _ Hex) as (item & Hiid & Hmakes & Hupd & Hrev & Hexec & Hall). rewrite (refreshes_bare c cur i0 Hstrip) in Hall.
  destruct Hclosed as [Hstates _ Hdom Hitems]. split.
  - by rewrite (ex_states _ _ _ _ Hex).
  - exact step_pending.
  - intros id. rewrite <-Hdom, Hall. destruct (decide (id = t)) as [->|Hne].
    + rewrite lookup_insert_eq. assert (is_Some (pb_items s !! t)) as [? ->] by (apply Hdom; by eexists). destruct (decide _); by split; intros; eexists.
    + rewrite lookup_insert_ne by done. destruct (decide _); [by rewrite fmap_is_Some|done].
  - intros id i Hi. rewrite Hall in Hi. assert (∃ j, <[t := item]> (pb_items s) !! id = Some j ∧ i = refreshed id j) as (j & Hj & ->).
    { destruct (decide (id ∈ refreshes c i0)); [apply fmap_Some in Hi as (j & Hj & ->); by exists j|by exists i]. }
    destruct (decide (id = t)) as [->|Hne].
    + rewrite lookup_insert_eq in Hj. injection Hj as <-. exists i0. split; [done|]. by apply step_own_item.
    + rewrite lookup_insert_ne in Hj by done. destruct (Hitems id j Hj) as (j0 & Hj0 & Hc). exists j0. split; [done|]. by apply step_other_item.
Qed.
End step.

Lemma closed_step order k s s' :
  staged_ok → closed order s → k ∉ order → respects (order ++ [k]) → run_command s k = Ok s' → closed (order ++ [k]) s'.
Proof.
  intros Hst Hclosed Hnew Hresp Hrun. unfold run_command in Hrun. destruct (commands !! k) as [c|] eqn:Hk; [|done].
  destruct (proj2 (cl_dom _ _ Hclosed (target_item_id c))) as [cur Hcur]; [apply Hst; by eapply list_elem_of_lookup_2|].
  destruct (cl_items _ _ Hclosed _ cur Hcur) as (i0 & Hi0 & Hcl).
  assert (bare cur = bare i0) as Hstrip.
  { destruct (ci_content _ _ _ _ _ Hcl) as [(c' & (j & Hj & Hcj & Hid) & _)|[_ Hs]]; [|done]. destruct Hnew. assert (j = k) as <-; [|done].
    apply (NoDup_lookup _ j k (target_item_id c) (sg_targets Hst)); rewrite list_lookup_fmap; [by rewrite Hcj, <-Hid|by rewrite Hk]. }
  apply (step_closed order k c s s' cur i0); try done. apply project_spec; [done|done|exact (ci_id _ _ _ _ _ Hcl)].
Qed.

Lemma closed_start : staged_ok → closed [] st0.
Proof.
  intros Hst. split; try done.
  - intros id. split; [|by intros [? _]]. intros Hid. split; [done|]. by intros c (k & Hk%elem_of_nil & _).
  - intros id i Hi. exists i. split; [done|]. split; cbn; try done.
    + by apply (sg_keys Hst).
    + right. split; [|done]. by intros c (k & Hk%elem_of_nil & _).
    + lia.
Qed.

Lemma respects_prefix order rest : respects (order ++ rest) → respects order.
Proof. intros Hresp before k after -> p Hp. apply (Hresp before k (after ++ rest)); [by rewrite <-app_assoc|done]. Qed.

Lemma closed_run order s :
  staged_ok → NoDup order → respects order → run_commands st0 order = Ok s → closed order s.
Proof.
  intros Hst. revert s. induction order as [|k order IH] using rev_ind; intros s Hnd Hresp Hrun.
  - injection Hrun as <-. by apply closed_start.
  - unfold run_commands in Hrun. rewrite foldM_app in Hrun. apply rbind_ok in Hrun as (mid & Hmid & Hrun).
    apply rbind_ok in Hrun as (s' & Hk & [= <-]). apply NoDup_app in Hnd as (Hnd & Hdis & _).
    apply (closed_step order k mid); [done| | |done|done].
    + apply IH; [done|by eapply respects_prefix|done].
    + intros Hin. apply (Hdis k Hin). by left.
Qed.

(** The projected state after some commands does not depend on their order. *)
Lemma runs_agree order order' s s' :
  staged_ok → NoDup order → order ≡ₚ order' → respects order → respects order' →
  run_commands st0 order = Ok s → run_commands st0 order' = Ok s' → s = s'.
Proof.
  intros Hst Hnd Hperm Hr Hr' Hs Hs'. apply (closed_unique order order'); [done..| |].
  - by apply closed_run.
  - apply closed_run; [done|by rewrite <-Hperm|done|done].
Qed.
End projections.
