(* ===== verification/Orders.v ===== *)
(** * Orders: the execution order is found exactly when there is one

    The greedy pass and the search of CommandOrder.  An order that is answered
    executes every command once, after its prerequisites, each of them with
    success.  When the answer is an error that another order could resolve, no
    order of the commands works: the search may skip a set of commands that it
    has tried before because, by Projections, the set determines the state. *)
From S2P Require Import Prelude Text Platform Civil Domain Rrule Decimal Progress Completion Session ItemDomain CompletionPolicy ItemStore Delta ItemForest ItemGraph Effects Repository Proposals ChangeSets CommandOrder Projections ItemSamples Versions.
Import ItemRepositoryError.

Section orders.
Context `{ItemFormats, Platform, Civil, !SchedulingMetadata}.

(** ** The staged state *)

Lemma project_dependencies_keeps item deps item' :
  project_dependencies item deps = Ok item' →
  it_id item' = it_id item ∧ it_parent_id item' = it_parent_id item ∧ it_revision item' = it_revision item ∧
  it_updated_at item' = it_updated_at item ∧ it_deleted_at item' = it_deleted_at item.
Proof.
  unfold project_dependencies. repeat (case_match; try done); intros; simplify_eq; try done;
    repeat match goal with Hr : rbind _ _ = Ok _ |- _ => apply rbind_ok in Hr as (? & _ & Hr) end; simplify_eq; done.
Qed.

Context (now : DateTime) (commands : list ProposalCommand).

Abbreviation indexed := (imap pair commands).

Lemma elem_of_indexed k c : (k, c) ∈ indexed → c ∈ commands.
Proof. intros Hin%elem_of_imap_pair. by eapply list_elem_of_lookup_2. Qed.

Lemma clear_replaced_spec initial items :
  foldM clear_replaced initial indexed = Ok items →
  (∀ id, is_Some (items !! id) ↔ is_Some (initial !! id)) ∧
  (∀ id i, items !! id = Some i → ∃ i0, initial !! id = Some i0 ∧ it_id i = it_id i0 ∧ it_parent_id i = it_parent_id i0) ∧
  (∀ cid t r input, ReplaceItem cid t r input ∈ commands → is_Some (initial !! t)).
Proof.
  intros Hfold. assert ((∀ id, is_Some (items !! id) ↔ is_Some (initial !! id)) ∧
    (∀ id i, items !! id = Some i → ∃ i0, initial !! id = Some i0 ∧ it_id i = it_id i0 ∧ it_parent_id i = it_parent_id i0) ∧
    (∀ k cid t r input, (k, ReplaceItem cid t r input) ∈ indexed → is_Some (initial !! t))) as (Hdom & Hitems & Hrep).
  { revert Hfold. apply (foldM_inv _ (λ l items, (∀ id, is_Some (items !! id) ↔ is_Some (initial !! id)) ∧
      (∀ id i, items !! id = Some i → ∃ i0, initial !! id = Some i0 ∧ it_id i = it_id i0 ∧ it_parent_id i = it_parent_id i0) ∧
      (∀ k cid t r input, (k, ReplaceItem cid t r input) ∈ l → is_Some (initial !! t)))).
    { split; [done|]. split; [by intros id i Hi; exists i|]. by intros k cid t r input ?%elem_of_nil. }
    intros p [k c] q m m' _ (Hd & Hi & Hr) Hc. unfold clear_replaced, at_index in Hc. cbn in Hc.
    destruct c as [cid input|cid t r input|cid t r|cid t r]; [|apply map_err_ok, rbind_ok in Hc as (i & [Ht _]%ok_or_ok%active_item_Some & Hc)
      | |];
      [by (injection Hc as <-; split; [done|split; [done|]]; intros k' cid' t' r' input' [Hin|Heq]%elem_of_last; [by eapply Hr|done])| | |].
    2,3: (injection Hc as <-; split; [done|split; [done|]]; intros k' cid' t' r' input' [Hin|Heq]%elem_of_last; [by eapply Hr|done]).
    apply rbind_ok in Hc as (i' & (Hid & Hp & _)%map_err_ok%project_dependencies_keeps & [= <-]). split; [|split].
    - intros id. rewrite <-Hd. destruct (decide (id = t)) as [->|Hne]; [rewrite lookup_insert_eq, Ht; by split; intros; eexists|by rewrite lookup_insert_ne].
    - intros id x. destruct (decide (id = t)) as [->|Hne]; [rewrite lookup_insert_eq|rewrite lookup_insert_ne by done; apply Hi].
      intros [= <-]. destruct (Hi _ _ Ht) as (i0 & Hi0 & Hid0 & Hp0). exists i0. split; [done|]. split; congruence.
    - intros k' cid' t' r' input' [Hin|Heq]%elem_of_last; [by eapply Hr|]. injection Heq as _ _ -> _ _. apply Hd. by eexists. }
  split; [done|]. split; [done|]. intros cid t r input [k Hk]%list_elem_of_lookup. apply (Hrep k cid t r input). by apply elem_of_imap_pair.
Qed.

Definition shell_of (shell : Item) (id : Uuid) : Prop :=
  it_id shell = id ∧ it_parent_id shell = None ∧ it_revision shell = 1%N ∧ it_updated_at shell = canonical_storage_instant now.

Lemma staged_shell_Ok input shell : staged_item_shell input now = Ok shell → shell_of shell (ni_id input).
Proof.
  unfold staged_item_shell. intros (i & Hi%map_err_ok & Hs)%rbind_ok. apply rbind_ok in Hs as (x & Hx%map_err_ok & [= <-]).
  apply project_dependencies_keeps in Hx as (Hid & Hp & Hr & Hu & _). apply new_item_Ok in Hi as (Hid' & _ & Hr' & Hu' & _).
  split_and!; [exact (eq_trans Hid Hid')|exact Hp|exact (eq_trans Hr Hr')|exact (eq_trans Hu Hu')].
Qed.

(** The items after the shells of some commands were staged. *)
Record stages (base : gmap Uuid Item) (l : list (nat * ProposalCommand)) (items : gmap Uuid Item) (pending : gset Uuid) : Prop := {
  sn_base : ∀ id i, base !! id = Some i → items !! id = Some i;
  sn_items : ∀ id i, items !! id = Some i → base !! id = Some i ∨ id ∈ pending ∧ shell_of i id;
  sn_pending : ∀ id, id ∈ pending ↔ ∃ k c, (k, c) ∈ l ∧ is_create c = true ∧ target_item_id c = id;
  sn_fresh : ∀ id, id ∈ pending → base !! id = None ∧ is_Some (items !! id)
}.

Lemma stage_created_spec base items pending :
  foldM (stage_created now) (base, ∅) indexed = Ok (items, pending) → stages base indexed items pending.
Proof.
  intros Hfold. cut ((λ l (st : gmap Uuid Item * gset Uuid), stages base l st.1 st.2) indexed (items, pending)); [done|].
  revert Hfold. apply foldM_inv.
  { split; cbn; [done|by left| |set_solver]. intros id. split; [set_solver|]. by intros (k & c & ?%elem_of_nil & _). }
  intros p [k c] q [m pend] [m' pend'] _ [Sb Si Sp Sf] Hc. unfold stage_created, at_index in Hc. cbn in *.
  assert (∀ id, is_create c = false → pend' = pend → id ∈ pend' ↔ ∃ k0 c0, (k0, c0) ∈ p ++ [(k, c)] ∧ is_create c0 = true ∧ target_item_id c0 = id) as Hsame.
  { intros id Hno ->. rewrite Sp. split.
    - intros (k0 & c0 & Hin & Hc0). exists k0, c0. split; [apply elem_of_app; by left|done].
    - intros (k0 & c0 & [Hin|Heq]%elem_of_last & Hc0 & Hid); [by exists k0, c0|]. injection Heq as -> ->. congruence. }
  destruct c as [cid input|cid t r input|cid t r|cid t r]; [|injection Hc as <- <-; split; try done; intros id; by apply Hsame..].
  apply map_err_ok, rbind_ok in Hc as (shell & Hshell%staged_shell_Ok & Hc). pose proof Hshell as (Hid & _).
  destruct (is_some (m !! it_id shell)) eqn:Hfresh; [done|]. cbn in Hc. destruct (bool_decide _) eqn:Hpend; [done|].
  apply bool_decide_eq_false in Hpend. injection Hc as <- <-. rewrite Hid in *. assert (m !! ni_id input = None) as Hnone by (by destruct (m !! ni_id input)).
  split.
  - intros id i Hi. rewrite lookup_insert_ne; [by apply Sb|]. intros <-. rewrite (Sb _ _ Hi) in Hnone. done.
  - intros id i. destruct (decide (id = ni_id input)) as [->|Hne].
    + rewrite lookup_insert_eq. intros [= <-]. right. split; [set_solver|done].
    + rewrite lookup_insert_ne by done. intros [Hb|[Hp Hs]]%Si; [by left|]. right. split; [set_solver|done].
  - intros id. rewrite elem_of_union, elem_of_singleton, Sp. split.
    + intros [->|(k0 & c0 & Hin & Hc0)]; [exists k, (CreateItem cid input); split; [apply elem_of_app; right; by left|done]|].
      exists k0, c0. split; [apply elem_of_app; by left|done].
    + intros (k0 & c0 & [Hin|Heq]%elem_of_last & Hc0 & Hid'); [right; by exists k0, c0|]. injection Heq as -> ->. by left.
  - intros id [->%elem_of_singleton|Hin]%elem_of_union.
    + split; [|rewrite lookup_insert_eq; by eexists]. destruct (base !! ni_id input) as [i|] eqn:Hb; [|done]. by rewrite (Sb _ _ Hb) in Hnone.
    + destruct (Sf id Hin) as [Hb [i Hi]]. split; [done|]. destruct (decide (id = ni_id input)) as [->|Hne]; [rewrite lookup_insert_eq; by eexists|].
      rewrite lookup_insert_ne by done. by eexists.
Qed.

(** Items whose parents are items too. *)
Definition parents_stored (items : gmap Uuid Item) : Prop :=
  ∀ id item p, items !! id = Some item → it_parent_id item = Some p → is_Some (items !! p).

Lemma fences_targets initial :
  validate_initial_command_fences commands initial = Ok tt → ∀ c, c ∈ commands → is_create c = false → is_Some (initial !! target_item_id c).
Proof.
  intros Hf%forM_ok c [k Hk]%list_elem_of_lookup Hno. rewrite Forall_forall in Hf.
  specialize (Hf (k, c) (proj2 (elem_of_imap_pair commands k c) Hk)). apply map_err_ok in Hf. cbn in Hf.
  destruct c as [cid input|cid t r input|cid t r|cid t r]; [done|..]; cbn in *; by destruct (initial !! t).
Qed.

Lemma batch_staged initial states st0 :
  NoDup (target_item_id <$> commands) → keys_ok initial → parents_stored initial → validate_initial_command_fences commands initial = Ok tt →
  projected_batch_state commands initial states now = Ok st0 → staged_ok now commands st0.
Proof.
  intros Hnd Hkeys Hparents Hfence Hbatch. unfold projected_batch_state in Hbatch. apply rbind_ok in Hbatch as (base & Hbase & Hbatch).
  apply rbind_ok in Hbatch as ([items pending] & Hstage & [= <-]). apply clear_replaced_spec in Hbase as (Hdom & Hbase & _).
  apply stage_created_spec in Hstage as [Sb Si Sp Sf].
  assert (∀ id, id ∈ pending ↔ ∃ c, c ∈ commands ∧ is_create c = true ∧ target_item_id c = id) as Hpend.
  { intros id. rewrite Sp. split.
    - intros (k & c & Hin%elem_of_indexed & Hc). by exists c.
    - intros (c & [k Hk]%list_elem_of_lookup & Hc). exists k, c. split; [by apply elem_of_imap_pair|done]. }
  split; cbn; [done| | | |done|].
  - intros id i [Hi|[_ [Hid _]]]%Si; [|done]. apply Hbase in Hi as (i0 & Hi0 & -> & _). by apply Hkeys.
  - intros c Hc. destruct (is_create c) eqn:Hcr.
    + apply Sf, Hpend. by exists c.
    + destruct (fences_targets initial Hfence c Hc Hcr) as [i0 Hi0]. destruct (proj2 (Hdom (target_item_id c))) as [i Hi]; [by eexists|].
      exists i. by apply Sb.
  - intros c i Hc Hcr Hi. assert (target_item_id c ∈ pending) as Hin by (apply Hpend; by exists c).
    destruct (Si _ _ Hi) as [Hb|[_ (_ & ? & ? & ?)]]; [|done]. destruct (Sf _ Hin) as [Hno _]. congruence.
  - intros id i p Hi Hp Hin. destruct (Sf _ Hin) as [Hno _]. destruct (Si _ _ Hi) as [Hb|[_ (_ & Hnone & _)]]; [|congruence].
    apply Hbase in Hb as (i0 & Hi0 & _ & Hpar). rewrite Hpar in Hp. destruct (Hparents _ _ _ Hi0 Hp) as [x Hx].
    destruct (proj2 (Hdom p)) as [y Hy]; [by eexists|]. congruence.
Qed.

(** ** Orders that work *)

Context (st0 : ProjectedBatchState).

Abbreviation count_of l := (length (filter (λ b, b = true) l)).
Abbreviation prereqs_of k := (default [] (prerequisites commands !! k)).

(** Some commands executed, one after the other. *)
Record node (order : list nat) (s : ProjectedBatchState) : Prop := {
  nd_distinct : NoDup order;
  nd_commands : ∀ k, k ∈ order → k < length commands;
  nd_respects : respects commands order;
  nd_runs : run_commands now commands st0 order = Ok s
}.

(** Every command once, after its prerequisites, with success. *)
Record valid_order (order : list nat) : Prop := {
  vo_all : order ≡ₚ seq 0 (length commands);
  vo_respects : respects commands order;
  vo_runs : is_Some (match run_commands now commands st0 order with Ok s => Some s | Err _ => None end)
}.

Lemma respects_snoc order k : respects commands order → (∀ p, p ∈ prereqs_of k → p ∈ order) → respects commands (order ++ [k]).
Proof.
  intros Hr Hk before j after Heq p Hp. destruct after as [|x after _] using rev_ind.
  - apply app_inj_tail in Heq as [<- <-]. by apply Hk.
  - rewrite app_comm_cons, app_assoc in Heq. apply app_inj_tail in Heq as [-> _]. by apply (Hr before j after).
Qed.

Lemma node_extend order s k s' :
  node order s → k < length commands → k ∉ order → (∀ p, p ∈ prereqs_of k → p ∈ order) → run_command now commands s k = Ok s' →
  node (order ++ [k]) s'.
Proof.
  intros [Hd Hc Hr Hs] Hk Hnew Hp Hrun. split.
  - apply NoDup_app. split; [done|]. split; [|apply NoDup_singleton]. intros x Hx ->%list_elem_of_singleton. done.
  - intros j [Hj| ->]%elem_of_last; [by apply Hc|done].
  - by apply respects_snoc.
  - unfold run_commands in *. rewrite foldM_app, Hs. cbn. by rewrite Hrun.
Qed.

Lemma node_full order s : node order s → length order = length commands → valid_order order.
Proof.
  intros [Hd Hc Hr Hs] Hlen. split; [|done|by rewrite Hs; eexists].
  apply submseteq_length_Permutation; [|by rewrite length_seq, Hlen]. apply NoDup_submseteq; [done|].
  intros k Hk%Hc. apply elem_of_seq. lia.
Qed.

(** The part of an order that works before any point *)
Lemma valid_prefix order rest : valid_order (order ++ rest) → ∃ s, node order s.
Proof.
  intros [Hall Hr [sn Hs]]. destruct (run_commands now commands st0 (order ++ rest)) as [s2|] eqn:Hrun; [|done].
  unfold run_commands in Hrun. rewrite foldM_app in Hrun. apply rbind_ok in Hrun as (s & Hs' & _). exists s.
  assert (NoDup (order ++ rest)) as Hnd by (rewrite Hall; apply NoDup_seq). split.
  - by apply NoDup_app in Hnd as [? _].
  - intros k Hk. assert (k ∈ seq 0 (length commands)) as Hin by (rewrite <-Hall; apply elem_of_app; by left). apply elem_of_seq in Hin. lia.
  - by eapply respects_prefix.
  - done.
Qed.

Lemma valid_next order k rest s :
  valid_order (order ++ k :: rest) → run_commands now commands st0 order = Ok s →
  k < length commands ∧ (k ∉ order) ∧ (∀ p, p ∈ prereqs_of k → p ∈ order) ∧ ∃ s', run_command now commands s k = Ok s'.
Proof.
  intros [Hall Hr [sn Hs]] Hrun. assert (NoDup (order ++ k :: rest)) as Hnd by (rewrite Hall; apply NoDup_seq). split; [|split; [|split]].
  - assert (k ∈ seq 0 (length commands)) as Hin by (rewrite <-Hall; apply elem_of_app; right; by left). apply elem_of_seq in Hin. lia.
  - apply NoDup_app in Hnd as (_ & Hdis & _). intros Hin. apply (Hdis k Hin). by left.
  - exact (Hr order k rest eq_refl).
  - unfold run_commands in *. rewrite foldM_app, Hrun in Hs. cbn in Hs. destruct (run_command now commands s k) as [s'|]; [by eexists|].
    done.
Qed.

(** ** Sets of executed commands *)

Definition flags (order : list nat) : list bool := (λ i, bool_decide (i ∈ order)) <$> seq 0 (length commands).

Lemma flags_lookup order k : flags order !! k = if decide (k < length commands) then Some (bool_decide (k ∈ order)) else None.
Proof.
  unfold flags. rewrite list_lookup_fmap. destruct (decide (k < length commands)).
  - by rewrite lookup_seq_lt.
  - rewrite lookup_seq_ge by lia. done.
Qed.

Lemma flags_nil : flags [] = replicate (length commands) false.
Proof.
  apply list_eq. intros k. rewrite flags_lookup. destruct (decide (k < length commands)).
  - rewrite bool_decide_false by (by intros ?%elem_of_nil). symmetry. by apply lookup_replicate_2.
  - symmetry. apply lookup_replicate_None. lia.
Qed.

Lemma flags_snoc order k : k < length commands → <[k := true]> (flags order) = flags (order ++ [k]).
Proof.
  intros Hk. apply list_eq. intros j. rewrite flags_lookup. destruct (decide (j = k)) as [->|Hne].
  - rewrite list_lookup_insert_eq by (unfold flags; by rewrite length_fmap, length_seq). rewrite decide_True by done.
    rewrite bool_decide_true; [done|]. apply elem_of_app. right. by left.
  - rewrite list_lookup_insert_ne by done. rewrite flags_lookup. destruct (decide _); [|done]. f_equal. apply bool_decide_ext.
    rewrite elem_of_app, list_elem_of_singleton. naive_solver.
Qed.

Lemma flags_perm order order' :
  NoDup order → NoDup order' → (∀ k, k ∈ order → k < length commands) → (∀ k, k ∈ order' → k < length commands) →
  flags order = flags order' → order ≡ₚ order'.
Proof.
  intros Hd Hd' Hc Hc' Heq. apply NoDup_Permutation; [done|done|]. intros k. destruct (decide (k < length commands)) as [Hk|Hk].
  - assert (flags order !! k = flags order' !! k) as Hat by congruence. rewrite !flags_lookup, !decide_True in Hat by done.
    apply (inj Some) in Hat. split; intros Hin; [apply (bool_decide_eq_true_1 _ (eq_trans (eq_sym Hat) (bool_decide_eq_true_2 _ Hin)))|apply (bool_decide_eq_true_1 _ (eq_trans Hat (bool_decide_eq_true_2 _ Hin)))].
  - split; intros Hin; [by apply Hc in Hin|by apply Hc' in Hin].
Qed.

Lemma flags_count order s : node order s → count_of (flags order) = length order.
Proof.
  intros [Hd Hc _ _]. assert (length (filter (λ k, k ∈ order) (seq 0 (length commands))) = length order) as Hlen.
  { apply Permutation_length, NoDup_Permutation; [apply NoDup_filter, NoDup_seq|done|]. intros k.
    rewrite list_elem_of_filter, elem_of_seq. split; [by intros [? _]|]. intros Hk. split; [done|]. apply Hc in Hk. lia. }
  rewrite <-Hlen. unfold flags. generalize (seq 0 (length commands)). intros l. induction l as [|k l IH]; [done|]. rewrite fmap_cons.
  destruct (decide (k ∈ order)) as [Hk|Hk].
  - rewrite bool_decide_true, !filter_cons_True by done. cbn. by rewrite IH.
  - rewrite bool_decide_false, !filter_cons_False by done. done.
Qed.

Lemma may_execute_iff order s k :
  node order s → k < length commands →
  may_execute (prerequisites commands) (flags order) k = true ↔ (k ∉ order) ∧ ∀ p, p ∈ prereqs_of k → p ∈ order.
Proof.
  intros [_ Hc _ _] Hk. unfold may_execute. rewrite flags_lookup, decide_True by done. cbn.
  rewrite andb_true_iff, negb_true_iff, bool_decide_eq_false, forallb_forall. split; intros [Hno Hp]; (split; [done|]); intros p Hin.
  - specialize (Hp p (proj1 (list_elem_of_In _ _) Hin)). rewrite flags_lookup in Hp. destruct (decide _); [|done]. by apply bool_decide_eq_true in Hp.
  - apply list_elem_of_In in Hin. specialize (Hp p Hin). rewrite flags_lookup, decide_True by (by apply Hc). by apply bool_decide_eq_true.
Qed.

(** ** The search *)

(** No order that works starts with these commands. *)
Definition dead (executed : list bool) : Prop := ∀ order rest, flags order = executed → ¬ valid_order (order ++ rest).

(** What a search answers, from some commands and the sets tried before. *)
Definition search_answers (order : list nat) (tried : gset (list bool)) (found : OrderSearch * result (nat * ItemRepositoryError) (option (list nat))) : Prop :=
  match found.2 with
  | Ok None => (∀ e, e ∈ se_exhausted_sets found.1 → e ∈ tried ∨ dead e) ∧ dead (flags order)
  | Ok (Some o) => valid_order o
  | Err e => order_error_can_be_resolved e.2 = false
  end.

Definition tried_ok (depth : nat) (tried : gset (list bool)) : Prop := ∀ e, e ∈ tried → count_of e < depth ∨ dead e.

Lemma try_spec deeper order s tried indices search :
  node order s → (∀ k, k ∈ indices → k < length commands) → tried_ok (S (length order)) tried →
  (∀ e, e ∈ se_exhausted_sets search → e ∈ tried ∨ dead e) →
  (∀ k s' search, node (order ++ [k]) s' → tried_ok (S (length order)) (se_exhausted_sets search) →
     search_answers (order ++ [k]) (se_exhausted_sets search) (deeper s' (flags (order ++ [k])) (order ++ [k]) search)) →
  let found := try_commands deeper commands s (prerequisites commands) now (flags order) order indices search in
  match found.2 with
  | Ok None =>
      (∀ e, e ∈ se_exhausted_sets found.1 → e ∈ tried ∨ dead e) ∧
      ∀ k s', k ∈ indices → k ∉ order → (∀ p, p ∈ prereqs_of k → p ∈ order) → run_command now commands s k = Ok s' → dead (flags (order ++ [k]))
  | Ok (Some o) => valid_order o
  | Err e => order_error_can_be_resolved e.2 = false
  end.
Proof.
  intros Hnode Hin Htried Hsearch Hdeeper. revert search Hsearch. induction indices as [|k indices IH]; intros search Hsearch.
  { split; [done|]. by intros k s' ?%elem_of_nil. }
  assert (k < length commands) as Hk by (apply Hin; by left).
  specialize (IH (λ j Hj, Hin j (list_elem_of_further _ _ _ Hj))). cbn zeta in *.
  assert (∀ search, (∀ e, e ∈ se_exhausted_sets search → e ∈ tried ∨ dead e) →
    (∀ s', k ∉ order → (∀ p, p ∈ prereqs_of k → p ∈ order) → run_command now commands s k = Ok s' → dead (flags (order ++ [k]))) →
    let found := try_commands deeper commands s (prerequisites commands) now (flags order) order indices search in
    match found.2 with
    | Ok None => (∀ e, e ∈ se_exhausted_sets found.1 → e ∈ tried ∨ dead e) ∧
        ∀ j s', j ∈ k :: indices → j ∉ order → (∀ p, p ∈ prereqs_of j → p ∈ order) → run_command now commands s j = Ok s' → dead (flags (order ++ [j]))
    | Ok (Some o) => valid_order o
    | Err e => order_error_can_be_resolved e.2 = false
    end) as Hcontinue.
  { intros search' Hs' Hdead. specialize (IH search' Hs'). cbn zeta. destruct (try_commands _ _ _ _ _ _ _ indices search') as [found [[o|]|e]]; [done| |done].
    destruct IH as [Htr Hall]. split; [exact Htr|]. intros j s' [->|Hj]%elem_of_cons; [by apply Hdead|by apply Hall]. }
  cbn [try_commands]. destruct (may_execute (prerequisites commands) (flags order) k) eqn:Hmay; cbn [negb].
  2:{ apply Hcontinue; [done|]. intros s' Hno Hp. exfalso. apply not_true_iff_false in Hmay. apply Hmay. by apply (may_execute_iff order s). }
  apply (may_execute_iff order s k Hnode Hk) in Hmay as [Hno Hp]. destruct (commands !! k) as [c|] eqn:Hc; [|done].
  assert (run_command now commands s k = project_command_for_ordering c s now) as Hrun by (unfold run_command; by rewrite Hc).
  destruct (project_command_for_ordering c s now) as [s'|e] eqn:Hproj.
  2:{ destruct (order_error_can_be_resolved e) eqn:Hres; [|done]. apply Hcontinue; [done|]. intros s' _ _. congruence. }
  rewrite (flags_snoc order k Hk). assert (node (order ++ [k]) s') as Hnext by (by apply (node_extend order s)).
  assert (tried_ok (S (length order)) (se_exhausted_sets search)) as Htr by (intros e [He|He]%Hsearch; [by apply Htried|by right]).
  specialize (Hdeeper k s' search Hnext Htr). unfold search_answers in Hdeeper.
  destruct (deeper s' (flags (order ++ [k])) (order ++ [k]) search) as [search' [[o|]|e]]; cbn in Hdeeper; [done| |done].
  destruct Hdeeper as [Hexh Hdead]. apply Hcontinue.
  - intros e [He|He]%Hexh; [by apply Hsearch|by right].
  - intros s2 _ _ _. exact Hdead.
Qed.

Lemma search_spec fuel order s search :
  staged_ok now commands st0 → node order s → tried_ok (length order) (se_exhausted_sets search) →
  search_answers order (se_exhausted_sets search)
    (search_command_execution_order fuel commands (prerequisites commands) now s (flags order) order search).
Proof.
  intros Hst. revert order s search. induction fuel as [|fuel IH]; intros order s search Hnode Htried; cbn [search_command_execution_order].
  all: destruct (Nat.eqb_spec (length order) (length commands)) as [Hfull|Hpart]; [by apply (node_full order s)|]. { done. }
  destruct (checked_sub _ _) as [remaining|]; [|done].
  set (tried := se_exhausted_sets search) in *.
  assert (count_of (flags order) = length order) as Hcount by (by apply (flags_count order s)).
  destruct (bool_decide (flags order ∈ tried)) eqn:Hseen.
  { apply bool_decide_eq_true in Hseen. assert (dead (flags order)) as Hdead.
    { destruct (Htried _ Hseen) as [Hlt|]; [|done]. rewrite Hcount in Hlt. lia. }
    split; [|done]. cbn. intros e [->%elem_of_singleton|He]%elem_of_union; [by right|by left]. }
  set (search1 := {| se_exhausted_sets := {[flags order]} ∪ tried; se_remaining_states := remaining |}).
  pose proof (try_spec (search_command_execution_order fuel commands (prerequisites commands) now) order s ({[flags order]} ∪ tried)
    (seq 0 (length commands)) search1 Hnode) as Htry. cbn zeta in Htry.
  unfold search_answers. destruct (try_commands _ _ _ _ _ _ _ _ _) as [found [[o|]|e]]; cbn in *.
  - apply Htry; [intros k Hk%elem_of_seq; lia| |by left|].
    + intros e [->%elem_of_singleton|He]%elem_of_union; [left; rewrite Hcount; lia|]. destruct (Htried e He); [left; lia|by right].
    + intros k s' search' Hn Ht. apply IH; [done|]. rewrite length_app, Nat.add_1_r. exact Ht.
  - destruct Htry as [Hexh Hall]; [intros k Hk%elem_of_seq; lia| |by left| |].
    + intros e [->%elem_of_singleton|He]%elem_of_union; [left; rewrite Hcount; lia|]. destruct (Htried e He); [left; lia|by right].
    + intros k s' search' Hn Ht. apply IH; [done|]. rewrite length_app, Nat.add_1_r. exact Ht.
    + assert (dead (flags order)) as Hdead.
      { intros order' rest Hflags Hvalid. destruct (valid_prefix order' rest Hvalid) as [s' Hn'].
        assert (order' ≡ₚ order) as Hperm by (apply flags_perm; try apply Hn'; try apply Hnode; done).
        assert (s' = s) as ->.
        { apply (runs_agree now commands st0 order' order); [done|apply Hn'|done|apply Hn'|apply Hnode|apply Hn'|apply Hnode]. }
        destruct rest as [|k rest].
        - apply Hpart. rewrite app_nil_r in Hvalid. rewrite <-Hperm, (vo_all _ Hvalid), length_seq. done.
        - destruct (valid_next order' k rest s Hvalid (nd_runs _ _ Hn')) as (Hk & Hno & Hp & s' & Hrun).
          apply (Hall k s') with (order := order' ++ [k]) (rest := rest).
          + apply elem_of_seq. lia.
          + by rewrite <-Hperm.
          + intros p Hin. rewrite <-Hperm. by apply Hp.
          + exact Hrun.
          + rewrite <-!flags_snoc by done. by rewrite Hflags.
          + by rewrite <-app_assoc. }
      split; [|exact Hdead]. intros e [[->%elem_of_singleton|He]%elem_of_union|He]%Hexh; [by right|by left|by right].
  - apply Htry; [intros k Hk%elem_of_seq; lia| |by left|].
    + intros e' [->%elem_of_singleton|He]%elem_of_union; [left; rewrite Hcount; lia|]. destruct (Htried e' He); [left; lia|by right].
    + intros k s' search' Hn Ht. apply IH; [done|]. rewrite length_app, Nat.add_1_r. exact Ht.
Qed.

(** ** The greedy pass *)

Record greedy_ok (g : Greedy) : Prop := {
  go_node : node (gr_order g) (gr_projected g);
  go_indegree : ∀ k, k < length commands → gr_indegree g !! k = Some (length (filter (λ p, p ∉ gr_order g) (prereqs_of k)));
  go_ready : ∀ k, k ∈ gr_ready g ↔ k < length commands ∧ (k ∉ gr_order g) ∧ ∀ p, p ∈ prereqs_of k → p ∈ gr_order g
}.

Lemma prereqs_short k : prereqs_of k = [] ∨ ∃ p, prereqs_of k = [p].
Proof.
  unfold prerequisites. rewrite list_lookup_fmap. destruct (commands !! k) as [c|]; cbn; [|by left]. unfold prerequisites_of.
  destruct (_ ≫= _); [right; by eexists|by left].
Qed.

Lemma elem_of_successors k j : j ∈ successors commands k ↔ j < length commands ∧ prereqs_of j = [k].
Proof.
  unfold successors. rewrite list_elem_of_filter, elem_of_seq. destruct (prereqs_short j) as [Hp|[p Hp]]; rewrite Hp.
  - split; [by intros [?%elem_of_nil _]|by intros [_ ?]].
  - rewrite list_elem_of_singleton. split; [intros [-> ?]; split; [lia|done]|intros [? [= ->]]; split; [done|lia]].
Qed.

Lemma released_all (l : list nat) (indegree : list nat) (ready : gset nat) :
  NoDup l → (∀ j, j ∈ l → indegree !! j = Some 1) →
  (∀ j, (foldl release_next (indegree, ready) l).1 !! j = if decide (j ∈ l) then Some 0 else indegree !! j) ∧
  ∀ j, j ∈ (foldl release_next (indegree, ready) l).2 ↔ j ∈ ready ∨ j ∈ l.
Proof.
  revert indegree ready. induction l as [|k l IH]; intros indegree ready Hnd Hone.
  { split; intros j; [by rewrite decide_False by (by intros ?%elem_of_nil)|]. cbn. split; [by left|]. intros [Hj|Hj]; [done|by apply elem_of_nil in Hj]. }
  apply NoDup_cons in Hnd as [Hk Hnd]. cbn [foldl]. unfold release_next at 2 4. cbn [fst snd]. rewrite (Hone k) by (by left). cbn [default Nat.sub Nat.eqb].
  destruct (IH (<[k := 0]> indegree) ({[k]} ∪ ready) Hnd) as [Hl Hr].
  { intros j Hj. rewrite list_lookup_insert_ne by (by intros ->). apply Hone. by right. }
  split; intros j.
  - cbn. rewrite Hl. destruct (decide (j ∈ l)) as [Hj|Hj]; [by rewrite decide_True by (by right)|].
    destruct (decide (j = k)) as [->|Hne].
    + rewrite decide_True by (by left). apply list_lookup_insert_eq. apply lookup_lt_is_Some_1. rewrite (Hone k) by (by left). by eexists.
    + rewrite list_lookup_insert_ne by done. by rewrite decide_False by (by intros [|]%elem_of_cons).
  - cbn. rewrite Hr, elem_of_union, elem_of_singleton, elem_of_cons. naive_solver.
Qed.

Lemma greedy_advance_ok g k candidate :
  greedy_ok g → k ∈ gr_ready g → run_command now commands (gr_projected g) k = Ok candidate → greedy_ok (advance_greedy commands g k candidate).
Proof.
  intros [Hnode Hdeg Hready] Hk Hrun. pose proof (proj1 (Hready k) Hk) as (Hlt & Hno & Hp).
  assert (∀ j, j ∈ successors commands k → j < length commands ∧ prereqs_of j = [k] ∧ (j ∉ gr_order g) ∧ j ≠ k) as Hsucc.
  { intros j [Hj Hpj]%elem_of_successors. split; [done|]. split; [done|]. split.
    - intros Hin. apply list_elem_of_split in Hin as (before & after & Heq). apply Hno. rewrite Heq. apply elem_of_app. left.
      apply (nd_respects _ _ Hnode before j after Heq). rewrite Hpj. by left.
    - intros ->. apply Hno, Hp. rewrite Hpj. by left. }
  destruct (released_all (successors commands k) (gr_indegree g) (gr_ready g ∖ {[k]})) as [Hl Hr].
  { apply NoDup_filter, NoDup_seq. }
  { intros j Hj. destruct (Hsucc j Hj) as (Hjn & Hpj & _). rewrite (Hdeg j Hjn), Hpj, filter_cons_True by done. done. }
  unfold advance_greedy. destruct (foldl release_next _ _) as [indegree ready]. cbn [fst snd] in Hl, Hr. split; cbn [gr_order gr_projected gr_indegree gr_ready].
  - by apply (node_extend (gr_order g) (gr_projected g)).
  - intros j Hj. rewrite Hl. destruct (decide (j ∈ successors commands k)) as [Hin|Hnin].
    + destruct (Hsucc j Hin) as (_ & -> & _). rewrite filter_cons_False; [done|]. rewrite elem_of_app, list_elem_of_singleton. tauto.
    + rewrite (Hdeg j Hj). do 2 f_equal. apply filter_ext_in. intros p Hin. rewrite elem_of_app, list_elem_of_singleton.
      split; [|tauto]. intros Hpno [| ->]; [done|]. apply Hnin, elem_of_successors. split; [done|].
      destruct (prereqs_short j) as [Hs|[q Hs]]; rewrite Hs in *; [by apply elem_of_nil in Hin|]. by apply list_elem_of_singleton in Hin as ->.
  - intros j. rewrite Hr, elem_of_difference, elem_of_singleton, Hready. setoid_rewrite elem_of_app. setoid_rewrite list_elem_of_singleton. split.
    + intros [[(Hj & Hjno & Hjp) Hne]|Hin].
      * split; [done|]. split; [tauto|]. intros p Hin. left. by apply Hjp.
      * destruct (Hsucc j Hin) as (Hj & Hpj & Hjno & Hne). split; [done|]. split; [tauto|]. intros p. rewrite Hpj, list_elem_of_singleton. tauto.
    + intros (Hj & Hjno & Hjp). destruct (decide (j ∈ successors commands k)) as [Hin|Hnin]; [by right|]. left.
      split; [|tauto]. split; [done|]. split; [tauto|]. intros p Hin. destruct (Hjp p Hin) as [|Heq]; [done|]. exfalso.
      apply Hnin, elem_of_successors. split; [done|]. destruct (prereqs_short j) as [Hs|[q Hs]]; rewrite Hs in *; [by apply elem_of_nil in Hin|].
      apply list_elem_of_singleton in Hin. congruence.
Qed.

Lemma select_spec projected ready first_error :
  match select_ready commands projected now ready first_error with
  | Ok (Selected k candidate) => k ∈ ready ∧ run_command now commands projected k = Ok candidate
  | Ok (Blocked _) => True
  | Err e => order_error_can_be_resolved e.2 = false
  end.
Proof.
  revert first_error. induction ready as [|k ready IH]; intros first_error; cbn [select_ready]; [done|].
  destruct (commands !! k) as [c|] eqn:Hc; [|done].
  destruct (project_command_for_ordering c projected now) as [candidate|e] eqn:Hp.
  - split; [by left|]. unfold run_command. by rewrite Hc.
  - destruct (order_error_can_be_resolved e) eqn:He; [|done].
    specialize (IH (match first_error with Some f => Some f | None => Some (k, e) end)).
    destruct (select_ready _ _ _ _ _) as [[j candidate|f]|e']; [|done|done]. destruct IH as [Hj Hrun]. split; [by right|done].
Qed.

Lemma elem_of_ready_list ready k : k ∈ ready_list ready ↔ k ∈ ready.
Proof. unfold ready_list. by rewrite sort_by_perm, elem_of_elements. Qed.

(** What an answer means. *)
Definition order_answer (r : result (nat * ItemRepositoryError) (list nat)) : Prop :=
  match r with
  | Ok order => valid_order order
  | Err e => order_error_can_be_resolved e.2 = true → ∀ order, ¬ valid_order order
  end.

Lemma finish_spec g :
  staged_ok now commands st0 → greedy_ok g → (∀ k, k ∉ gr_ready g) → order_answer (finish_greedy commands g).
Proof.
  intros Hst Hok Hempty. pose proof (go_node _ Hok) as Hnode. unfold finish_greedy.
  destruct (Nat.eqb_spec (length (gr_order g)) (length commands)) as [Hfull|Hpart]; cbn [andb].
  - pose proof (node_full _ _ Hnode Hfull) as Hvalid. destruct (bool_decide _) eqn:Hpend; [exact Hvalid|].
    exfalso. apply bool_decide_eq_false in Hpend. apply Hpend. apply set_eq. intros id. split; [|set_solver]. intros Hid. exfalso.
    destruct Hnode as [Hd Hc Hr Hs]. apply (cl_pending _ _ _ _ _ (closed_run now commands st0 _ _ Hst Hd Hr Hs)) in Hid as [Hin Hnone].
    apply (sg_pending _ _ _ Hst) in Hin as (c & Hcmd & Hcr & Ht). apply list_elem_of_lookup in Hcmd as [k Hk].
    assert (is_create c = false); [|congruence]. apply Hnone. exists k. split; [|done]. rewrite (vo_all _ Hvalid). apply elem_of_seq.
    apply lookup_lt_Some in Hk. lia.
  - intros _ order Hvalid. apply Hpart.
    assert (∀ before after, order = before ++ after → ∀ k, k ∈ before → k ∈ gr_order g) as Hall.
    { intros before. induction before as [|k before IH] using rev_ind; [by intros ? ? ? ?%elem_of_nil|]. intros after Heq j [Hj| ->]%elem_of_last.
      - apply (IH ([k] ++ after)); [by rewrite app_assoc|done].
      - destruct (decide (k ∈ gr_order g)) as [|Hno]; [done|]. exfalso. apply (Hempty k), (go_ready _ Hok). split; [|split; [done|]].
        + assert (k ∈ seq 0 (length commands)) as Hin by (rewrite <-(vo_all _ Hvalid), Heq; set_solver). apply elem_of_seq in Hin. lia.
        + intros p Hp. apply (IH ([k] ++ after)); [by rewrite app_assoc|]. apply (vo_respects _ Hvalid before k after); [by rewrite Heq, <-app_assoc|done]. }
    apply Nat.le_antisymm.
    + rewrite <-(length_seq (length commands) 0). apply submseteq_length, NoDup_submseteq; [apply Hnode|].
      intros k Hk. apply elem_of_seq. pose proof (nd_commands _ _ Hnode k Hk). lia.
    + rewrite <-(length_seq (length commands) 0), <-(vo_all _ Hvalid). apply submseteq_length, NoDup_submseteq.
      * rewrite (vo_all _ Hvalid). apply NoDup_seq.
      * intros k Hk. apply (Hall order []); [by rewrite app_nil_r|done].
Qed.

Lemma node_start : node [] st0.
Proof. split; [constructor|by intros k ?%elem_of_nil|intros [|] ? ? ?; done|done]. Qed.

Lemma fallback_spec :
  staged_ok now commands st0 →
  match fallback_command_execution_order commands st0 (prerequisites commands) now with
  | Ok (Some order) => valid_order order
  | Ok None => ∀ order, ¬ valid_order order
  | Err e => order_error_can_be_resolved e.2 = false
  end.
Proof.
  intros Hst. unfold fallback_command_execution_order. rewrite <-flags_nil.
  pose proof (search_spec (length commands) [] st0 {| se_exhausted_sets := ∅; se_remaining_states := MAX_COMMAND_ORDER_SEARCH_STATES |}
    Hst node_start) as Hsearch. unfold search_answers in Hsearch.
  destruct (search_command_execution_order _ _ _ _ _ _ _ _) as [found [[order|]|e]]; cbn [fst snd] in *;
    [by apply Hsearch; intros e ?%elem_of_empty| |by apply Hsearch; intros ? ?%elem_of_empty].
  destruct Hsearch as [_ Hdead]; [by intros e ?%elem_of_empty|]. intros order. by apply (Hdead [] order).
Qed.

Lemma greedy_spec fuel g : staged_ok now commands st0 → greedy_ok g → order_answer (greedy_order fuel commands st0 now g).
Proof.
  intros Hst. revert g. induction fuel as [|fuel IH]; intros g Hok; cbn [greedy_order];
    destruct (ready_list (gr_ready g)) as [|first later] eqn:Hlist;
    try (apply finish_spec; [done|done|]; intros k Hk%elem_of_ready_list; rewrite Hlist in Hk; by apply elem_of_nil in Hk).
  { done. }
  pose proof (select_spec (gr_projected g) (first :: later) None) as Hselect.
  destruct (select_ready _ _ _ _ _) as [[k candidate|first_error]|e]; cbn [rbind].
  - destruct Hselect as [Hk Hrun]. apply IH, greedy_advance_ok; [done| |done]. by rewrite <-elem_of_ready_list, Hlist.
  - pose proof (fallback_spec Hst) as Hfall. destruct (fallback_command_execution_order _ _ _ _) as [[order|]|e]; cbn [rbind ok_or].
    + exact Hfall.
    + intros _. exact Hfall.
    + cbn. rewrite Hfall. done.
  - cbn. rewrite Hselect. done.
Qed.

Lemma greedy_start_ok :
  greedy_ok {| gr_projected := st0; gr_order := []; gr_indegree := length <$> prerequisites commands;
               gr_ready := list_to_set (filter (λ index, (length <$> prerequisites commands) !! index = Some 0) (seq 0 (length commands))) |}.
Proof.
  split; cbn.
  - exact node_start.
  - intros k Hk. rewrite list_lookup_fmap. unfold prerequisites in *. rewrite list_lookup_fmap.
    destruct (lookup_lt_is_Some_2 commands k Hk) as [c ->]. cbn. rewrite filter_all; [done|]. by intros p _ ?%elem_of_nil.
  - intros k. rewrite elem_of_list_to_set, list_elem_of_filter, elem_of_seq, list_lookup_fmap. unfold prerequisites. rewrite list_lookup_fmap. split.
    + intros [Hlen Hk]. split; [lia|]. split; [by intros ?%elem_of_nil|]. destruct (commands !! k) as [c|]; [|done]. cbn in *.
      intros p Hp. destruct (prerequisites_of _ c); [done|]. by injection Hlen.
    + intros (Hk & _ & Hp). split; [|lia]. destruct (lookup_lt_is_Some_2 commands k Hk) as [c Hc]. rewrite Hc in *. cbn in *.
      destruct (prerequisites_of _ c) as [|p l]; [done|]. specialize (Hp p (list_elem_of_here _ _)). by apply elem_of_nil in Hp.
Qed.

(** ** Errors of the staging *)

Lemma at_index_Err {A} k (r : result ItemRepositoryError A) e : at_index k r = Err e → e.1 = k ∧ r = Err e.2.
Proof. by destruct r as [|x]; [|intros [= <-]]. Qed.

Lemma foldM_error {A B E} (f : A → B → result E A) (Q : E → Prop) (l : list B) (a : A) e :
  (∀ a x e, f a x = Err e → Q e) → foldM f a l = Err e → Q e.
Proof. intros Hf (p & x & q & t & _ & _ & Hx)%foldM_Err. by eapply Hf. Qed.

Abbreviation unresolvable := (λ e : nat * ItemRepositoryError, order_error_can_be_resolved e.2 = false).

Lemma fences_error initial e : validate_initial_command_fences commands initial = Err e → unresolvable e.
Proof.
  apply (foldM_error _ unresolvable). intros _ [k c] x [_ Hc]%at_index_Err. cbn in Hc.
  destruct c; cbn in Hc; repeat (case_match; try done); injection Hc as <-; done.
Qed.

Lemma batch_error initial states e : projected_batch_state commands initial states now = Err e → unresolvable e.
Proof.
  unfold projected_batch_state. destruct (foldM clear_replaced _ _) as [items|x] eqn:Hclear; cbn.
  - destruct (foldM (stage_created now) _ _) as [[items' pending]|x] eqn:Hstage; cbn; [done|]. intros [= <-].
    revert Hstage. apply (foldM_error _ unresolvable). intros [m pend] [k c] y. unfold stage_created. destruct c; try done. intros [_ Hc]%at_index_Err.
    unfold staged_item_shell in Hc. destruct (new_item _ _) as [i|]; [|by injection Hc as <-]. cbn in Hc.
    destruct (project_dependencies _ _) as [i'|]; [|by injection Hc as <-]. cbn in Hc. case_match; [by injection Hc as <-|done].
  - intros [= <-]. revert Hclear. apply (foldM_error _ unresolvable). intros m [k c] y. unfold clear_replaced. destruct c; try done. intros [_ Hc]%at_index_Err.
    destruct (active_item _ _) as [i|]; [|by injection Hc as <-]. cbn in Hc.
    by destruct (project_dependencies _ _) as [i'|]; [|injection Hc as <-].
Qed.

(** ** The fuel is enough *)

Lemma try_commands_ext deeper deeper' s prereqs executed order indices search :
  (∀ s' executed' k search', deeper s' executed' (order ++ [k]) search' = deeper' s' executed' (order ++ [k]) search') →
  try_commands deeper commands s prereqs now executed order indices search =
  try_commands deeper' commands s prereqs now executed order indices search.
Proof.
  intros Hext. revert search. induction indices as [|k indices IH]; intros search; [done|]. cbn [try_commands].
  destruct (negb _); [by rewrite IH|]. destruct (commands !! k) as [c|]; [|done].
  destruct (project_command_for_ordering c s now) as [candidate|e]; [|destruct (order_error_can_be_resolved e); [by rewrite IH|done]].
  rewrite Hext. destruct (deeper' _ _ _ _) as [found [[o|]|e]]; [done|by rewrite IH|done].
Qed.

(** The search has one level for every command. *)
Lemma search_fuel prereqs fuel fuel' s executed order search :
  length order ≤ length commands → length commands ≤ length order + fuel → fuel ≤ fuel' →
  search_command_execution_order fuel commands prereqs now s executed order search =
  search_command_execution_order fuel' commands prereqs now s executed order search.
Proof.
  revert fuel' s executed order search. induction fuel as [|fuel IH]; intros [|fuel'] s executed order search Hshort Hlen Hle;
    cbn [search_command_execution_order]; destruct (Nat.eqb_spec (length order) (length commands)) as [|Hne]; try done; try lia.
  destruct (checked_sub _ _) as [remaining|]; [|done]. cbn zeta. destruct (bool_decide _); [done|]. apply try_commands_ext.
  intros s' executed' k search'. apply IH; rewrite ?length_app; cbn; lia.
Qed.

(** The greedy pass executes a command in every round. *)
Lemma greedy_fuel fuel fuel' g :
  greedy_ok g → length commands ≤ length (gr_order g) + fuel → fuel ≤ fuel' →
  greedy_order fuel commands st0 now g = greedy_order fuel' commands st0 now g.
Proof.
  revert fuel' g. induction fuel as [|fuel IH]; intros [|fuel'] g Hok Hlen Hle; cbn [greedy_order];
    destruct (ready_list (gr_ready g)) as [|first later] eqn:Hlist; try done; try lia.
  - exfalso. assert (first ∈ gr_ready g) as Hin by (apply elem_of_ready_list; rewrite Hlist; by left).
    apply (go_ready _ Hok) in Hin as (Hlt & Hno & _). destruct (go_node _ Hok) as [Hnd Hcmd _ _].
    assert (length (first :: gr_order g) ≤ length (seq 0 (length commands))) as Hshort; [|rewrite length_seq in Hshort; cbn in Hshort; lia].
    apply submseteq_length, NoDup_submseteq; [by constructor|]. intros k Hk. apply elem_of_seq.
    apply elem_of_cons in Hk as [->|Hk%Hcmd]; lia.
  - pose proof (select_spec (gr_projected g) (first :: later) None) as Hselect.
    destruct (select_ready _ _ _ _ _) as [[k candidate|first_error]|e]; cbn [rbind]; [|done|done].
    destruct Hselect as [Hk Hrun]. apply IH; [|unfold advance_greedy; destruct (foldl _ _ _); cbn; rewrite length_app; cbn; lia|lia].
    apply greedy_advance_ok; [done| |done]. by rewrite <-elem_of_ready_list, Hlist.
Qed.
End orders.

(** ** Orders of a change set *)

Section planned.
Context `{ItemFormats, Platform, Civil, !SchedulingMetadata}.

Lemma items_parents_stored items : items_ok ∅ items → parents_stored items.
Proof.
  intros Hok id item p Hi Hp. assert (item_parents_map items !! id = Some (Some p)) as Hparent by (by rewrite item_parent_lookup, Hi; cbn; rewrite Hp).
  assert (is_Some (item_parents_map items !! p)) as [x Hx]; [|rewrite item_parent_lookup in Hx; by destruct (items !! p)].
  destruct (io_forest _ _ Hok id) as [|id' q Hq Hr]; [by rewrite Hparent|congruence|]. assert (q = p) as -> by congruence.
  destruct Hr as [? Hr|? ? Hr _]; by rewrite Hr.
Qed.

(** The answer to a change set whose fences hold. *)
Lemma ordered_answer commands initial states now :
  items_ok ∅ initial → validate_change_set commands = Ok tt → validate_initial_command_fences commands initial = Ok tt →
  match command_execution_order commands initial states now with
  | Ok order => ∃ st0, projected_batch_state commands initial states now = Ok st0 ∧ valid_order now commands st0 order
  | Err e => order_error_can_be_resolved e.2 = true →
      ∃ st0, projected_batch_state commands initial states now = Ok st0 ∧ ∀ order, ¬ valid_order now commands st0 order
  end.
Proof.
  intros Hok [_ Htargets]%validate_change_set_targets Hfence. unfold command_execution_order.
  destruct (projected_batch_state commands initial states now) as [st0|e] eqn:Hbatch; cbn [rbind].
  - pose proof (batch_staged now commands initial states st0 Htargets (io_keys _ _ Hok) (items_parents_stored _ Hok) Hfence Hbatch) as Hst.
    pose proof (greedy_spec now commands st0 (length commands) _ Hst (greedy_start_ok now commands st0)) as Hgreedy.
    unfold order_answer in Hgreedy. destruct (greedy_order _ _ _ _ _) as [order|e]; [by exists st0|]. intros He. exists st0. auto.
  - intros He. by rewrite (batch_error now commands initial states e Hbatch) in He.
Qed.

(** C32. C1: the server finds an order for a change set exactly when there is one.
    Over a consistent store of items, an accepted change set is either answered
    with an order that executes every command once, after the creation of the
    parent it names, each command with success on the projected items; or with
    an error.  When that error is one that another order could resolve (a child
    still there, a parent still missing, a dependency cycle), there is no order
    in which the commands succeed: the greedy pass and the search, which skips
    sets of commands that it has tried before, miss none. *)
Theorem execution_order_decides commands initial states now :
  items_ok ∅ initial → validate_change_set commands = Ok tt →
  match planned_order commands initial states now with
  | Ok order => ∃ st0, projected_batch_state commands initial states now = Ok st0 ∧ valid_order now commands st0 order
  | Err e => order_error_can_be_resolved e.2 = true →
      ∃ st0, projected_batch_state commands initial states now = Ok st0 ∧ ∀ order, ¬ valid_order now commands st0 order
  end.
Proof.
  intros Hok Hset. unfold planned_order. destruct (validate_initial_command_fences commands initial) as [[]|e] eqn:Hfence; cbn [rbind].
  - by apply ordered_answer.
  - intros He. by rewrite (fences_error commands initial e Hfence) in He.
Qed.
End planned.

(** ** A project and its tasks are trashed, and another project is created *)

#[local] Existing Instance utc_platform.
#[local] Existing Instance gregorian.

Definition sample_change_set : list ProposalCommand :=
  [TrashItem 10 1 3; TrashItem 11 2 1; TrashItem 12 3 1;
   CreateItem 13 (sample_input 5 ItemKind.Task (Some 4%N) []); CreateItem 14 (sample_input 4 ItemKind.Project None [])]%N.

Example sample_change_set_order :
  planned_order sample_change_set (st_items sample_store) ∅ sample_now = Ok [1; 2; 0; 4; 3].
Proof. vm_compute. reflexivity. Qed.

Example sample_change_set_blocked :
  planned_order [TrashItem 10 1 3; TrashItem 11 2 1]%N (st_items sample_store) ∅ sample_now = Err (0, HasChildren).
Proof. vm_compute. reflexivity. Qed.

Lemma execution_order_decides_witness :
  (∃ st0, projected_batch_state sample_change_set (st_items sample_store) ∅ sample_now = Ok st0 ∧
     valid_order sample_now sample_change_set st0 [1; 2; 0; 4; 3]) ∧
  ∃ st0, ∀ order, ¬ valid_order sample_now [TrashItem 10 1 3; TrashItem 11 2 1]%N st0 order.
Proof.
  pose proof (so_items _ _ sample_store_ok) as Hitems. split.
  - pose proof (execution_order_decides sample_change_set (st_items sample_store) ∅ sample_now Hitems eq_refl) as Hdecides.
    rewrite sample_change_set_order in Hdecides. exact Hdecides.
  - pose proof (execution_order_decides [TrashItem 10 1 3; TrashItem 11 2 1]%N (st_items sample_store) ∅ sample_now Hitems eq_refl) as Hdecides.
    rewrite sample_change_set_blocked in Hdecides. destruct (Hdecides eq_refl) as (st0 & _ & Hnone). by exists st0.
Defined.
