(* ===== verification/Risks.v ===== *)
(** * Risks: what the review of a change set shows

    The pure functions that turn the effects of a simulated change set into its
    review, of server/dayweave-api/src/persistence/proposal_application_repository.rs:
    the changed fields of an item, the changes that no command names, the
    conflict of an error, the risks, and whether an explicit approval is
    required.  The types of the review are in proposals/application.rs;
    [TransactionalItemEffect] is in persistence/item_repository.rs.  The texts
    that summarise a risk or a conflict are left out. *)
From S2P Require Import Prelude Text Platform Civil Domain Rrule Decimal Progress Completion Session ItemDomain CompletionPolicy ItemStore Delta Proposals ChangeSets ItemSamples.

Module ProposalItemField.
Inductive ProposalItemField : Type :=
| IsSensitive | Kind | Status | Title | Notes | TimezoneName | DurationKind | DurationSeconds | DurationMinSeconds | DurationMaxSeconds
| DurationSource | DeadlineKind | DeadlineDate | DeadlineAt | DeadlineStrength | DeadlineSoftWeight | EarliestStartAt | Recurrence
| FlexibleConstraints | Dependencies | HasOwnEffort | SplitPolicy | Importance | Urgency | ParentId | SiblingOrder | BlockedReasonKind
| BlockedByItemId | BlockedReason | IsExecutable | Revision | CompletedAt | DeletedAt.
End ProposalItemField.
Abbreviation ProposalItemField := ProposalItemField.ProposalItemField.

Module ProposalRiskLevel.
Inductive ProposalRiskLevel : Type := Low | Medium | High | Critical.
End ProposalRiskLevel.
Abbreviation ProposalRiskLevel := ProposalRiskLevel.ProposalRiskLevel.

Module ProposalRiskCode.
Inductive ProposalRiskCode : Type :=
| CreatesItem | ReplacesItem | TrashesItem | RestoresItem | ChangesDeadline | RelaxesDeadline | ChangesHierarchy | ChangesDependencies
| ChangesSensitivity | ChangesRecurrence | ChangesExecutionState | SensitiveContent | BulkChange.
End ProposalRiskCode.
Abbreviation ProposalRiskCode := ProposalRiskCode.ProposalRiskCode.

(** The derived order of the levels *)
Definition level_rank (level : ProposalRiskLevel) : nat :=
  match level with ProposalRiskLevel.Low => 0 | ProposalRiskLevel.Medium => 1 | ProposalRiskLevel.High => 2 | ProposalRiskLevel.Critical => 3 end.

Definition level_max (a b : ProposalRiskLevel) : ProposalRiskLevel := if (level_rank a <=? level_rank b)%nat then b else a.

Record ProposalRisk : Type := {
  pr_code : ProposalRiskCode;
  pr_level : ProposalRiskLevel;
  pr_command_id : option Uuid;
  pr_item_id : option Uuid;
  pr_requires_explicit_approval : bool
}.

Record ProposalConflict : Type := {
  pc_code : ProposalConflictCode;
  pc_command_id : option Uuid;
  pc_item_id : option Uuid;
  pc_expected_revision : option N;
  pc_actual_revision : option N
}.

#[export] Instance Dependency_eq_dec : EqDecision Dependency.
Proof. solve_decision. Defined.
#[export] Instance ItemDomainError_eq_dec : EqDecision ItemDomainError.
Proof. solve_decision. Defined.
#[export] Instance result_eq_dec `{EqDecision E, EqDecision A} : EqDecision (result E A).
Proof. solve_decision. Defined.

Section review.
Context `{ItemFormats}.

Record TransactionalItemEffect : Type := {
  te_before : option Item;
  te_after : Item;
  te_execution_ordinal : nat
}.

Record ProposalItemDiff : Type := {
  pid_command_id : Uuid;
  pid_operation : ProposalOperation;
  pid_item_id : Uuid;
  pid_changed_fields : list ProposalItemField;
  pid_before : option Item;
  pid_after : option Item
}.

(** Its reason is always a refresh of the hierarchy. *)
Record ProposalImplicitItemDiff : Type := {
  imp_item_id : Uuid;
  imp_changed_fields : list ProposalItemField;
  imp_before : Item;
  imp_after : Item
}.

Definition item_conflict (c : ProposalCommand) (e : ItemRepositoryError) : ProposalConflict :=
  let '(code, expected, actual) :=
    match e with
    | ItemRepositoryError.Duplicate _ => (ProposalConflictCode.ItemAlreadyExists, None, None)
    | ItemRepositoryError.NotFound _ => (ProposalConflictCode.ItemNotFound, None, None)
    | ItemRepositoryError.RevisionConflict expected actual => (ProposalConflictCode.ItemRevisionMismatch, Some expected, Some actual)
    | ItemRepositoryError.ParentNotFound _ => (ProposalConflictCode.ParentNotFound, None, None)
    | ItemRepositoryError.HierarchyCycle | ItemRepositoryError.SelfParent => (ProposalConflictCode.HierarchyCycle, None, None)
    | ItemRepositoryError.DependencyNotFound _ => (ProposalConflictCode.DependencyNotFound, None, None)
    | ItemRepositoryError.DependencyCycle => (ProposalConflictCode.DependencyCycle, None, None)
    | ItemRepositoryError.InvalidParentState => (ProposalConflictCode.InvalidParentState, None, None)
    | ItemRepositoryError.NonLeafExecutable => (ProposalConflictCode.NonLeafExecutable, None, None)
    | ItemRepositoryError.HasChildren => (ProposalConflictCode.HasChildren, None, None)
    | ItemRepositoryError.DeletedParent => (ProposalConflictCode.DeletedParent, None, None)
    | _ => (ProposalConflictCode.InvalidItem, None, None)
    end in
  {| pc_code := code; pc_command_id := Some (command_id c); pc_item_id := Some (target_item_id c);
     pc_expected_revision := expected; pc_actual_revision := actual |}.

(** ** Diffs *)

Definition changed {A} `{EqDecision A} (get : Item → A) (field : ProposalItemField) (before after : Item) : list ProposalItemField :=
  if bool_decide (get before = get after) then [] else [field].

Definition all_fields : list ProposalItemField :=
  [ProposalItemField.IsSensitive; ProposalItemField.Kind; ProposalItemField.Status; ProposalItemField.Title; ProposalItemField.Notes;
   ProposalItemField.TimezoneName; ProposalItemField.DurationKind; ProposalItemField.DurationSeconds; ProposalItemField.DurationMinSeconds;
   ProposalItemField.DurationMaxSeconds; ProposalItemField.DurationSource; ProposalItemField.DeadlineKind; ProposalItemField.DeadlineDate;
   ProposalItemField.DeadlineAt; ProposalItemField.DeadlineStrength; ProposalItemField.DeadlineSoftWeight;
   ProposalItemField.EarliestStartAt; ProposalItemField.Recurrence; ProposalItemField.FlexibleConstraints; ProposalItemField.Dependencies;
   ProposalItemField.HasOwnEffort; ProposalItemField.SplitPolicy; ProposalItemField.Importance; ProposalItemField.Urgency;
   ProposalItemField.ParentId; ProposalItemField.SiblingOrder; ProposalItemField.BlockedReasonKind; ProposalItemField.BlockedByItemId;
   ProposalItemField.BlockedReason; ProposalItemField.IsExecutable; ProposalItemField.Revision; ProposalItemField.CompletedAt;
   ProposalItemField.DeletedAt].

Definition changed_fields (before after : option Item) : list ProposalItemField :=
  match before, after with
  | None, _ => all_fields
  | Some _, None => [ProposalItemField.DeletedAt]
  | Some b, Some a =>
      changed it_is_sensitive ProposalItemField.IsSensitive b a ++
      changed it_kind ProposalItemField.Kind b a ++
      changed it_status ProposalItemField.Status b a ++
      changed it_title ProposalItemField.Title b a ++
      changed it_notes ProposalItemField.Notes b a ++
      changed it_timezone_name ProposalItemField.TimezoneName b a ++
      changed it_duration_kind ProposalItemField.DurationKind b a ++
      changed it_duration_seconds ProposalItemField.DurationSeconds b a ++
      changed it_duration_min_seconds ProposalItemField.DurationMinSeconds b a ++
      changed it_duration_max_seconds ProposalItemField.DurationMaxSeconds b a ++
      changed it_duration_source ProposalItemField.DurationSource b a ++
      changed it_deadline_kind ProposalItemField.DeadlineKind b a ++
      changed it_deadline_date ProposalItemField.DeadlineDate b a ++
      changed it_deadline_at ProposalItemField.DeadlineAt b a ++
      changed it_deadline_strength ProposalItemField.DeadlineStrength b a ++
      changed it_deadline_soft_weight ProposalItemField.DeadlineSoftWeight b a ++
      changed it_earliest_start_at ProposalItemField.EarliestStartAt b a ++
      changed it_recurrence ProposalItemField.Recurrence b a ++
      changed constraints_without_dependencies ProposalItemField.FlexibleConstraints b a ++
      changed item_dependencies ProposalItemField.Dependencies b a ++
      changed it_has_own_effort ProposalItemField.HasOwnEffort b a ++
      changed it_split_policy ProposalItemField.SplitPolicy b a ++
      changed it_importance ProposalItemField.Importance b a ++
      changed it_urgency ProposalItemField.Urgency b a ++
      changed it_parent_id ProposalItemField.ParentId b a ++
      changed it_sibling_order ProposalItemField.SiblingOrder b a ++
      changed it_blocked_reason_kind ProposalItemField.BlockedReasonKind b a ++
      changed it_blocked_by_item_id ProposalItemField.BlockedByItemId b a ++
      changed it_blocked_reason ProposalItemField.BlockedReason b a ++
      changed it_is_executable ProposalItemField.IsExecutable b a ++
      changed it_revision ProposalItemField.Revision b a ++
      changed it_completed_at ProposalItemField.CompletedAt b a ++
      changed it_deleted_at ProposalItemField.DeletedAt b a
  end.

Definition item_diff (c : ProposalCommand) (effect : TransactionalItemEffect) : ProposalItemDiff :=
  {| pid_command_id := command_id c; pid_operation := operation c; pid_item_id := target_item_id c;
     pid_changed_fields := changed_fields (te_before effect) (Some (te_after effect));
     pid_before := te_before effect; pid_after := Some (te_after effect) |}.

Definition implicit_item_diff (after_by_id : gmap Uuid Item) (before : Item) : option ProposalImplicitItemDiff :=
  after ← after_by_id !! it_id before;
  if bool_decide (before = after) then None
  else Some {| imp_item_id := it_id before; imp_changed_fields := changed_fields (Some before) (Some after);
               imp_before := before; imp_after := after |}.

Definition implicit_item_diffs (before_items after_items : list Item) (commands : list ProposalCommand) : list ProposalImplicitItemDiff :=
  let direct_targets : gset Uuid := list_to_set (target_item_id <$> commands) in
  let after_by_id := foldl (λ m item, <[it_id item := item]> m) ∅ after_items in
  omap (implicit_item_diff after_by_id) (filter (λ before, it_id before ∉ direct_targets) before_items).

Definition affected_preview_item_ids (commands : list ProposalCommand) (effects : list TransactionalItemEffect)
    (implicit_diffs : list ProposalImplicitItemDiff) : list Uuid :=
  sort_dedup_N ((target_item_id <$> commands) ++ ((λ effect, it_id (te_after effect)) <$> effects) ++ (imp_item_id <$> implicit_diffs)).

(** ** Deadlines *)

Record DeadlineRiskShape : Type := {
  dl_kind : DeadlineKind;
  dl_date : option Date;
  dl_instant : option DateTime;
  dl_strength : option DeadlineStrength;
  dl_soft_weight : option N
}.

#[export] Instance DeadlineRiskShape_eq_dec : EqDecision DeadlineRiskShape.
Proof. solve_decision. Defined.

Definition deadline_risk_shape (kind : DeadlineKind) (date : option Date) (instant : option DateTime) (strength : option DeadlineStrength)
    (soft_weight : option N) : DeadlineRiskShape :=
  let weight := if bool_decide (strength = Some DeadlineStrength.Soft) then soft_weight else None in
  match kind with
  | DeadlineKind.None_ => {| dl_kind := kind; dl_date := None; dl_instant := None; dl_strength := None; dl_soft_weight := None |}
  | DeadlineKind.Date_ => {| dl_kind := kind; dl_date := date; dl_instant := None; dl_strength := strength; dl_soft_weight := weight |}
  | DeadlineKind.DateTime_ => {| dl_kind := kind; dl_date := None; dl_instant := instant; dl_strength := strength; dl_soft_weight := weight |}
  end.

Definition shape_from_item (item : Item) : DeadlineRiskShape :=
  deadline_risk_shape (it_deadline_kind item) (it_deadline_date item) (it_deadline_at item) (it_deadline_strength item)
    (it_deadline_soft_weight item).

Inductive DeadlineRiskChange : Type := Changed | Relaxed.

(** What an optional instant says: later is relaxed, earlier is tightened. *)
Definition moved_deadline (old new : option Z) : bool * bool :=
  match old, new with Some old, Some new => (bool_decide (old < new)%Z, bool_decide (new < old)%Z) | _, _ => (false, false) end.

Definition deadline_kind_change (before after : DeadlineRiskShape) : bool * bool :=
  match dl_kind before, dl_kind after with
  | DeadlineKind.None_, (DeadlineKind.Date_ | DeadlineKind.DateTime_) => (false, true)
  | (DeadlineKind.Date_ | DeadlineKind.DateTime_), DeadlineKind.None_ => (true, false)
  | DeadlineKind.Date_, DeadlineKind.Date_ => moved_deadline (dl_date before) (dl_date after)
  | DeadlineKind.DateTime_, DeadlineKind.DateTime_ => moved_deadline (dl_instant before) (dl_instant after)
  | _, _ => (false, false)
  end.

Definition deadline_strength_change (before after : DeadlineRiskShape) : bool * bool :=
  if bool_decide (dl_kind before ≠ DeadlineKind.None_) && bool_decide (dl_kind after ≠ DeadlineKind.None_)
  then
    match dl_strength before, dl_strength after with
    | Some DeadlineStrength.Hard, Some DeadlineStrength.Soft => (true, false)
    | Some DeadlineStrength.Soft, Some DeadlineStrength.Hard => (false, true)
    | Some DeadlineStrength.Soft, Some DeadlineStrength.Soft =>
        match dl_soft_weight before, dl_soft_weight after with
        | Some old, Some new => ((new <? old)%N, (old <? new)%N)
        | _, _ => (false, false)
        end
    | _, _ => (false, false)
    end
  else (false, false).

Definition classify_deadline_risk_change (before after : DeadlineRiskShape) : option DeadlineRiskChange :=
  if bool_decide (before = after) then None
  else
    let (relaxed, tightened) := deadline_kind_change before after in
    let (relaxed', tightened') := deadline_strength_change before after in
    Some (if (relaxed || relaxed') && negb (tightened || tightened') then Relaxed else Changed).

Definition deadline_risk_change (before after : Item) : option DeadlineRiskChange :=
  classify_deadline_risk_change (shape_from_item before) (shape_from_item after).

(** ** Risks *)

Definition risk_of (c : ProposalCommand) (code : ProposalRiskCode) (level : ProposalRiskLevel) (approval : bool) : ProposalRisk :=
  {| pr_code := code; pr_level := level; pr_command_id := Some (command_id c); pr_item_id := Some (target_item_id c);
     pr_requires_explicit_approval := approval |}.

Definition is_sensitive_effect (effect : TransactionalItemEffect) : bool :=
  it_is_sensitive (te_after effect) || match te_before effect with Some before => it_is_sensitive before | None => false end.

(** The first loop of [proposal_risks]: the risk of the command itself. *)
Definition command_risk (effects : list TransactionalItemEffect) (p : nat * ProposalCommand) : ProposalRisk :=
  let c := p.2 in
  let '(code, level, approval) :=
    match c with
    | CreateItem _ _ => (ProposalRiskCode.CreatesItem, ProposalRiskLevel.Low, false)
    | ReplaceItem _ _ _ _ => (ProposalRiskCode.ReplacesItem, ProposalRiskLevel.Medium, true)
    | TrashItem _ _ _ => (ProposalRiskCode.TrashesItem, ProposalRiskLevel.High, true)
    | RestoreItem _ _ _ => (ProposalRiskCode.RestoresItem, ProposalRiskLevel.Medium, true)
    end in
  let sensitive := match effects !! p.1 with Some effect => is_sensitive_effect effect | None => false end in
  risk_of c (if sensitive then ProposalRiskCode.SensitiveContent else code)
    (if sensitive then level_max level ProposalRiskLevel.Medium else level) (approval || sensitive).

Definition push_when {A} (b : bool) (x : A) : list A := if b then [x] else [].

Definition dependencies_changed (effect : TransactionalItemEffect) : bool :=
  match te_before effect with
  | None => match item_dependencies (te_after effect) with Ok dependencies => negb (bool_decide (dependencies = [])) | Err _ => false end
  | Some before => negb (bool_decide (item_dependencies before = item_dependencies (te_after effect)))
  end.

Definition adds_beneath_parent (c : ProposalCommand) : bool :=
  match c with CreateItem _ input => is_some (if_parent_id (ni_fields input)) | _ => false end.

(** The material changes of an item that was stored before. *)
Definition material_risks (before after : Item) : list (ProposalRiskCode * ProposalRiskLevel) :=
  match deadline_risk_change before after with
  | Some Relaxed => [(ProposalRiskCode.RelaxesDeadline, ProposalRiskLevel.Medium)]
  | Some Changed => [(ProposalRiskCode.ChangesDeadline, ProposalRiskLevel.Medium)]
  | None => []
  end ++
  push_when (negb (bool_decide (it_parent_id before = it_parent_id after)) || negb (it_sibling_order before =? it_sibling_order after)%N)
    (ProposalRiskCode.ChangesHierarchy, ProposalRiskLevel.High) ++
  push_when (negb (bool_decide (it_recurrence before = it_recurrence after))) (ProposalRiskCode.ChangesRecurrence, ProposalRiskLevel.High) ++
  push_when (negb (bool_decide (it_status before = it_status after))) (ProposalRiskCode.ChangesExecutionState, ProposalRiskLevel.Medium) ++
  push_when (negb (Bool.eqb (it_is_sensitive before) (it_is_sensitive after))) (ProposalRiskCode.ChangesSensitivity, ProposalRiskLevel.High).

(** The second loop of [proposal_risks] *)
Definition effect_risks (p : ProposalCommand * TransactionalItemEffect) : list ProposalRisk :=
  let (c, effect) := p in
  push_when (adds_beneath_parent c) (risk_of c ProposalRiskCode.ChangesHierarchy ProposalRiskLevel.High true) ++
  push_when (dependencies_changed effect) (risk_of c ProposalRiskCode.ChangesDependencies ProposalRiskLevel.High true) ++
  match te_before effect with
  | None => []
  | Some before => (λ m, risk_of c m.1 m.2 true) <$> material_risks before (te_after effect)
  end.

Definition unaddressed_risk (code : ProposalRiskCode) : ProposalRisk :=
  {| pr_code := code; pr_level := ProposalRiskLevel.Medium; pr_command_id := None; pr_item_id := None; pr_requires_explicit_approval := true |}.

Definition proposal_risks (commands : list ProposalCommand) (effects : list TransactionalItemEffect) : list ProposalRisk :=
  (command_risk effects <$> imap pair commands) ++ (zip commands effects ≫= effect_risks) ++
  push_when (1 <? length commands)%nat (unaddressed_risk ProposalRiskCode.BulkChange).

Definition changes_completion (diff : ProposalImplicitItemDiff) : bool :=
  negb (bool_decide (it_status (imp_before diff) = it_status (imp_after diff))) ||
  negb (bool_decide (it_completed_at (imp_before diff) = it_completed_at (imp_after diff))) ||
  bool_decide (it_status (imp_after diff) = ItemStatus.Completed).

Definition implicit_completion_risks (diffs : list ProposalImplicitItemDiff) : list ProposalRisk :=
  if (length (filter (λ diff, changes_completion diff = true) diffs) =? 0)%nat then []
  else [unaddressed_risk ProposalRiskCode.ChangesExecutionState].

(** ** The review *)

(** What [preview] concludes from the effects: the risks, the highest level, and
    whether an explicit approval is required. *)
Definition review_risks (commands : list ProposalCommand) (effects : list TransactionalItemEffect)
    (implicit_diffs : list ProposalImplicitItemDiff) : list ProposalRisk :=
  proposal_risks commands effects ++ implicit_completion_risks implicit_diffs.

Definition maximum_risk (risks : list ProposalRisk) : ProposalRiskLevel :=
  foldl level_max ProposalRiskLevel.Low (pr_level <$> risks).

Definition requires_explicit_approval (risks : list ProposalRisk) : bool := existsb pr_requires_explicit_approval risks.

(** ** What needs no approval *)

Definition quiet (risks : list ProposalRisk) : Prop := Forall (λ r, pr_requires_explicit_approval r = false) risks.

Lemma requires_explicit_approval_false risks : requires_explicit_approval risks = false ↔ quiet risks.
Proof.
  unfold requires_explicit_approval, quiet. induction risks as [|r risks IH]; cbn; [by split|].
  by rewrite orb_false_iff, Forall_cons, IH.
Qed.

Lemma quiet_app l k : quiet (l ++ k) ↔ quiet l ∧ quiet k.
Proof. apply Forall_app. Qed.

Lemma quiet_when b (r : ProposalRisk) : pr_requires_explicit_approval r = true → quiet (push_when b r) ↔ b = false.
Proof. unfold quiet, push_when. destruct b; [rewrite Forall_cons; intros ->; by split; [intros [? _]|]|by split; [|constructor]]. Qed.

Lemma quiet_implicit diffs : quiet (implicit_completion_risks diffs) ↔ ∀ d, d ∈ diffs → changes_completion d = false.
Proof.
  unfold implicit_completion_risks. destruct (filter _ diffs) as [|d l] eqn:Hf; cbn.
  - split; [|constructor]. intros _ d Hd. destruct (changes_completion d) eqn:Hc; [|done].
    assert (d ∈ filter (λ diff, changes_completion diff = true) diffs) as Hin by (by apply list_elem_of_filter). rewrite Hf in Hin. by apply elem_of_nil in Hin.
  - unfold quiet. rewrite Forall_cons. split; [by intros [? _]|]. intros Hall.
    assert (d ∈ filter (λ diff, changes_completion diff = true) diffs) as [Hc Hd]%list_elem_of_filter by (rewrite Hf; by left).
    by rewrite (Hall d Hd) in Hc.
Qed.

(** The creation of an item without a parent, without dependencies, not marked sensitive. *)
Definition plain_creation (c : ProposalCommand) (e : TransactionalItemEffect) : Prop :=
  is_create c = true ∧ adds_beneath_parent c = false ∧ it_is_sensitive (te_after e) = false ∧
  ∀ dependencies, item_dependencies (te_after e) = Ok dependencies → dependencies = [].

Lemma quiet_creation c e :
  te_before e = None → is_create c = true →
  quiet (command_risk [e] (0, c) :: effect_risks (c, e)) ↔ plain_creation c e.
Proof.
  intros Hb Hc. destruct c as [cid input| | |]; try done. unfold plain_creation, quiet. rewrite Forall_cons. unfold effect_risks. rewrite Hb, app_nil_r.
  change (Forall _ ?l) with (quiet l). rewrite quiet_app, !quiet_when by done. unfold command_risk, dependencies_changed, is_sensitive_effect. rewrite Hb. cbn.
  rewrite Hb, orb_false_r. destruct (item_dependencies (te_after e)) as [deps|x].
  - rewrite negb_false_iff, bool_decide_eq_true. split.
    + intros (? & ? & ->). split_and!; try done. by intros ? [= <-].
    + intros (_ & ? & ? & Hd). split_and!; auto.
  - naive_solver.
Qed.

Lemma quiet_command c effects k : quiet [command_risk effects (k, c)] → is_create c = true.
Proof. unfold quiet. rewrite Forall_cons. intros [Hq _]. destruct c; [done|cbn in Hq; done..]. Qed.

(** The level of a risk says whether it requires an approval. *)
Definition calibrated (r : ProposalRisk) : Prop := pr_requires_explicit_approval r = false ↔ pr_level r = ProposalRiskLevel.Low.

Lemma material_levels before after m : m ∈ material_risks before after → m.2 ≠ ProposalRiskLevel.Low.
Proof.
  unfold material_risks. rewrite !elem_of_app. unfold push_when.
  intros [Hm|[Hm|[Hm|[Hm|Hm]]]]; repeat (case_match; try by apply elem_of_nil in Hm); by apply list_elem_of_singleton in Hm as ->.
Qed.

Lemma risks_calibrated commands effects diffs r : r ∈ review_risks commands effects diffs → calibrated r.
Proof.
  unfold review_risks, proposal_risks, calibrated. rewrite !elem_of_app. intros [[Hr|[Hr|Hr]]|Hr].
  - apply list_elem_of_fmap in Hr as ([k c] & -> & _). unfold command_risk. cbn.
    destruct c; cbn; destruct (match effects !! k with Some effect => is_sensitive_effect effect | None => false end); by cbn.
  - apply list_elem_of_bind in Hr as ([c e] & Hr & _). unfold effect_risks in Hr. rewrite !elem_of_app in Hr. unfold push_when in Hr.
    destruct Hr as [Hr|[Hr|Hr]]; [destruct (adds_beneath_parent c)|destruct (dependencies_changed e)|destruct (te_before e) as [before|]];
      try (by apply elem_of_nil in Hr); try (by apply list_elem_of_singleton in Hr as ->).
    apply list_elem_of_fmap in Hr as (m & -> & Hm%material_levels). cbn. by split; intros.
  - unfold push_when in Hr. destruct (1 <? length commands)%nat; [by apply list_elem_of_singleton in Hr as ->|by apply elem_of_nil in Hr].
  - unfold implicit_completion_risks in Hr. destruct (_ =? 0)%nat; [by apply elem_of_nil in Hr|by apply list_elem_of_singleton in Hr as ->].
Qed.

Lemma level_max_low a b : level_max a b = ProposalRiskLevel.Low ↔ a = ProposalRiskLevel.Low ∧ b = ProposalRiskLevel.Low.
Proof. destruct a, b; cbn; split; first [by intros [? ?]|by intros]. Qed.

Lemma maximum_risk_low risks : maximum_risk risks = ProposalRiskLevel.Low ↔ ∀ r, r ∈ risks → pr_level r = ProposalRiskLevel.Low.
Proof.
  unfold maximum_risk. assert (∀ start, foldl level_max start (pr_level <$> risks) = ProposalRiskLevel.Low ↔
    start = ProposalRiskLevel.Low ∧ ∀ r, r ∈ risks → pr_level r = ProposalRiskLevel.Low) as ->; [|tauto].
  induction risks as [|r risks IH]; intros start; cbn.
  - split; [|by intros []]. intros ->. split; [done|]. by intros r ?%elem_of_nil.
  - rewrite IH, level_max_low. setoid_rewrite elem_of_cons. naive_solver.
Qed.

(** ** Changes that no command names *)

Lemma after_by_id_lookup (items : list Item) id a :
  NoDup (it_id <$> items) → a ∈ items → it_id a = id → foldl (λ m item, <[it_id item := item]> m) (∅ : gmap Uuid Item) items !! id = Some a.
Proof.
  intros Hnd Ha <-. induction items as [|x items IH] using rev_ind; [by apply elem_of_nil in Ha|]. rewrite foldl_snoc.
  rewrite fmap_app in Hnd. apply NoDup_app in Hnd as (Hnd & Hdis & _). apply elem_of_app in Ha as [Ha| ->%list_elem_of_singleton].
  - rewrite lookup_insert_ne; [by apply IH|]. intros Heq. apply (Hdis (it_id a)); [by apply list_elem_of_fmap_2|].
    rewrite <-Heq. apply list_elem_of_fmap_2. by left.
  - by rewrite lookup_insert_eq.
Qed.

(** Every other item that changed is shown with both its values. *)
Lemma implicit_diffs_complete before_items after_items commands b a :
  NoDup (it_id <$> after_items) → b ∈ before_items → a ∈ after_items → it_id a = it_id b → (it_id b ∉ target_item_id <$> commands) → b ≠ a →
  ∃ d, d ∈ implicit_item_diffs before_items after_items commands ∧ imp_before d = b ∧ imp_after d = a.
Proof.
  intros Hnd Hb Ha Hid Htarget Hne. unfold implicit_item_diffs. eexists. split.
  - apply list_elem_of_omap. exists b. split.
    + apply list_elem_of_filter. split; [|done]. by rewrite elem_of_list_to_set.
    + unfold implicit_item_diff. rewrite (after_by_id_lookup after_items (it_id b) a) by done. cbn. by rewrite bool_decide_false by done.
  - done.
Qed.

(** C33. C1: only the creation of one plain item goes without an explicit approval.
    The review of a change set asks for no approval exactly when the change set
    is a single creation of an item that is not sensitive, has no parent and no
    dependencies, and no other item's completion changes; every replacement,
    every trashed or restored item and every batch must be approved.  The
    highest level of the review is low in these cases and in no other, and then
    every item that is stored and not named keeps its status and its completion. *)
Theorem approval_exempts_plain_creations commands effects diffs :
  commands ≠ [] → Forall2 (λ c e, is_create c = true ↔ te_before e = None) commands effects →
  (requires_explicit_approval (review_risks commands effects diffs) = false ↔
     (∃ c e, commands = [c] ∧ effects = [e] ∧ plain_creation c e) ∧ ∀ d, d ∈ diffs → changes_completion d = false) ∧
  (requires_explicit_approval (review_risks commands effects diffs) = false ↔
     maximum_risk (review_risks commands effects diffs) = ProposalRiskLevel.Low) ∧
  ∀ before_items after_items b a,
    requires_explicit_approval (review_risks commands effects diffs) = false →
    diffs = implicit_item_diffs before_items after_items commands →
    NoDup (it_id <$> after_items) → b ∈ before_items → a ∈ after_items → it_id a = it_id b → (it_id b ∉ target_item_id <$> commands) →
    it_status b = it_status a ∧ it_completed_at b = it_completed_at a.
Proof.
  intros Hne Haligned. rewrite requires_explicit_approval_false. split_and!.
  - unfold review_risks, proposal_risks. rewrite !quiet_app, quiet_implicit, quiet_when by done. rewrite Nat.ltb_ge.
    destruct Haligned as [|c e commands effects Hce Haligned]; [done|]. destruct Haligned as [|c' e' commands effects Hce' Haligned].
    + cbn [imap zip zip_with mbind list_bind fmap list_fmap length]. rewrite app_nil_r. split.
      * intros [(Hc & He & _) Hd]. split; [|done]. exists c, e. split; [done|]. split; [done|].
        pose proof (quiet_command c [e] 0 Hc) as Hcr. apply quiet_creation; [by apply Hce|done|]. by apply (quiet_app [_]).
      * intros [(? & ? & [= <-] & [= <-] & Hplain) Hd]. pose proof Hplain as (Hcr & _). apply quiet_creation in Hplain; [|by apply Hce|done].
        apply (quiet_app [_]) in Hplain as []. split_and!; [done|done|cbn; lia|done].
    + cbn. split; [lia|]. by intros [(? & ? & ? & _) _].
  - rewrite maximum_risk_low. unfold quiet. rewrite Forall_forall. split; intros Hall r Hr; apply (risks_calibrated _ _ _ r Hr), Hall, Hr.
  - intros before_items after_items b a [_ Hquiet]%requires_explicit_approval_false%quiet_app -> Hnd Hb Ha Hid Htarget. destruct (decide (b = a)) as [->|Hdiff]; [done|].
    destruct (implicit_diffs_complete before_items after_items commands b a) as (d & Hd & <- & <-); [done..|].
    apply quiet_implicit with (d := d) in Hquiet; [|done]. unfold changes_completion in Hquiet.
    apply orb_false_iff in Hquiet as [[Hs%negb_false_iff Hc%negb_false_iff]%orb_false_iff _]. by apply bool_decide_eq_true in Hs, Hc.
Qed.

(** Relaxing a deadline is not undone by relaxing it again. *)
Lemma deadline_relaxed_asymmetric a b : classify_deadline_risk_change a b = Some Relaxed → classify_deadline_risk_change b a = Some Changed.
Proof.
  unfold classify_deadline_risk_change. intros Hr. destruct (bool_decide (a = b)) eqn:Hab; [done|]. apply bool_decide_eq_false in Hab.
  rewrite bool_decide_false by congruence.
  assert (deadline_kind_change b a = ((deadline_kind_change a b).2, (deadline_kind_change a b).1)) as ->.
  { unfold deadline_kind_change, moved_deadline. by repeat case_match; simplify_eq. }
  assert (deadline_strength_change b a = ((deadline_strength_change a b).2, (deadline_strength_change a b).1)) as ->.
  { unfold deadline_strength_change. rewrite andb_comm. by repeat case_match; simplify_eq. }
  destruct (deadline_kind_change a b) as [[] []], (deadline_strength_change a b) as [[] []]; by cbn in *.
Qed.
End review.

(** ** A goal is created *)

#[local] Existing Instance utc_platform.
#[local] Existing Instance gregorian.

Lemma approval_exempts_plain_creations_witness :
  ∃ goal, requires_explicit_approval
            (review_risks [CreateItem 13 (sample_input 4 ItemKind.Project None [])]%N
               [{| te_before := None; te_after := goal; te_execution_ordinal := 0 |}] []) = false ∧ it_title goal = "Write".
Proof.
  assert (match sample_item (sample_input 4 ItemKind.Project None []) with
          | Ok goal => bool_decide (it_title goal = "Write") && negb (it_is_sensitive goal) &&
                       bool_decide (item_dependencies goal = Ok [])
          | Err _ => false
          end = true) as Hgoal by (vm_compute; reflexivity).
  destruct (sample_item _) as [goal|]; [|discriminate Hgoal]. exists goal.
  apply andb_true_iff in Hgoal as [[Htitle Hplain%negb_true_iff]%andb_true_iff Hdeps]. apply bool_decide_eq_true in Htitle, Hdeps.
  split; [|exact Htitle].
  refine (proj2 (proj1 (approval_exempts_plain_creations [CreateItem 13 (sample_input 4 ItemKind.Project None [])]%N _ _ _ _)) _).
  - discriminate.
  - repeat constructor.
  - split; [|by intros d ?%elem_of_nil]. eexists _, _. split; [reflexivity|]. split; [reflexivity|]. split_and!; [reflexivity|reflexivity|exact Hplain|].
    intros deps. cbn. rewrite Hdeps. congruence.
Defined.
