(* ===== verification/Metadata.v ===== *)
(** * Metadata: the scheduling metadata of an item

    crates/dayweave-compose/src/metadata.rs: what an item's recurrence and its
    flexible constraints mean to the scheduler, and when they are accepted.
    The decoders that serde derives for [SchedulingMetadata] and [Recurrence],
    the arrays and strings of serde_json and a few functions of chrono are the
    interface [MetadataFormats].  The text of an error is left out.

    The file also gives [ItemDomain.SchedulingMetadata], the interface through
    which the server validates an item, its implementation.  Prepared has the
    theorems. *)
From S2P Require Import Prelude Text Tokens Platform Civil Domain Rrule Decimal Progress Completion Session HabitRecord ItemDomain.

Definition MAX_RECURRENCE_BYTES : N := 16384.
Definition MAX_SCHEDULING_METADATA_BYTES : N := 32768.
Definition MAX_SCHEDULING_OFFSET_MINUTES : N := 527040.
Definition MAX_SOFT_WEIGHT : N := 1000000.

(** ** Data *)

Record CalendarContextSpec : Type := {
  cc_start : OffsetDateTime;
  cc_end : OffsetDateTime;
  cc_all_day : bool
}.

Record DayWeaveFirmBlockSpec : Type := {
  fbs_owned : bool;
  fbs_starts_at : OffsetDateTime;
  fbs_ends_at : OffsetDateTime;
  fbs_all_day : bool;
  fbs_tentative : bool;
  fbs_busy : bool
}.

Inductive EnergyMetadata : Type :=
| SimpleEnergy (level : EnergyLevel)
| QualifiedEnergy (level : Qualified EnergyLevel).

(** [SchedulingMetadata] of metadata.rs *)
Record Metadata : Type := {
  md_constraints : SchedulingConstraints;
  md_has_own_effort : bool;
  md_goal_ids : gset Uuid;
  md_energy : option EnergyMetadata;
  md_tags : gset string;
  md_calendar_event : option CalendarEventSpec;
  md_calendar_context : option CalendarContextSpec;
  md_dayweave_firm_block : option DayWeaveFirmBlockSpec;
  md_habit_target : option QuantityTarget;
  md_preserves_streak_when_paused : bool;
  md_habit_missed_policy : HabitMissedPolicy;
  md_habit_minimum_spacing_minutes : N;
  md_routine_ordered : bool;
  md_goal_measures : list GoalMeasure;
  md_goal_weekly_allocation : option AllocationRange;
  md_break_category : option BreakCategory;
  md_break_mandatory : bool;
  md_break_prompt_to_resume : bool;
  md_maximum_sessions : option N;
  md_minimum_gap_minutes : N;
  md_maximum_split_days : option N;
  md_preferred_start_minute : option N
}.

Record ValidatedSchedulingMetadata : Type := {
  vm_metadata : Metadata;
  vm_recurrence : option Recurrence
}.

Inductive SchedulingMetadataError : Type := RecurrenceRejected | FlexibleConstraintsRejected.

Abbreviation Checked := (result SchedulingMetadataError unit).

(** [SchedulingMetadata::default], with the defaults of the core's types *)
Definition default_constraints : SchedulingConstraints :=
  {| earliest_start := None; latest_finish := None; minimum_notice := None; allowed_weekdays := None; preferred_daily_windows := [];
     preferred_absolute_windows := []; forbidden_windows := []; required_contexts := []; required_location := None; dependencies := [];
     maximum_daily_work := None; maximum_weekly_work := None; buffers := {| bp_before := 0; bp_after := 0; bp_strength := None |};
     occurrence_window := None |}.

Definition default_metadata : Metadata :=
  {| md_constraints := default_constraints; md_has_own_effort := false; md_goal_ids := ∅; md_energy := None; md_tags := ∅;
     md_calendar_event := None; md_calendar_context := None; md_dayweave_firm_block := None; md_habit_target := None;
     md_preserves_streak_when_paused := true; md_habit_missed_policy := Ask; md_habit_minimum_spacing_minutes := 0;
     md_routine_ordered := false; md_goal_measures := []; md_goal_weekly_allocation := None; md_break_category := None;
     md_break_mandatory := false; md_break_prompt_to_resume := true; md_maximum_sessions := None; md_minimum_gap_minutes := 0;
     md_maximum_split_days := None; md_preferred_start_minute := None |}.

(** [EnergyMetadata::into_qualified] *)
Definition into_qualified (energy : EnergyMetadata) : Qualified EnergyLevel :=
  match energy with
  | SimpleEnergy value => {| q_value := value; q_strength := Soft 100 |}
  | QualifiedEnergy value => value
  end.

(** ** What other crates provide *)

Class MetadataFormats `{ItemFormats} : Type := {
  (** [Value::as_array], [Value::as_str], and the values of a number and a list *)
  value_as_array : Value → option (list Value);
  value_as_str : Value → option string;
  number_value : N → Value;
  array_value : list Value → Value;
  (** [serde_json::from_value] *)
  decode_metadata : Value → option Metadata;
  decode_recurrence : Value → option Recurrence;
  (** [Uuid::parse_str] *)
  parse_uuid : string → option Uuid;
  (** [DateTime::<Utc>::from_timestamp] of an instant *)
  instant_of_odt : OffsetDateTime → option DateTime;
  (** hour, minute, second and nanosecond of the local clock *)
  local_clock : Tz → DateTime → N * N * N * N
}.

(** ** Precision and bounds *)

Definition instant_has_database_precision (value : OffsetDateTime) : bool := (nanosecond value mod 1000 =? 0)%Z.

(** [chrono_instant_has_database_precision] is [has_postgres_timestamp_precision] of Session. *)
Definition chrono_instant_has_database_precision (value : DateTime) : bool := has_postgres_timestamp_precision value.

(** The order of pairs of seconds and nanoseconds *)
Definition parts_precede (a b : Z * Z) : bool := (a.1 <? b.1)%Z || ((a.1 =? b.1)%Z && (a.2 <? b.2)%Z).

Definition chrono_parts (t : DateTime) : Z * Z := (t / nanos_per_second, t mod nanos_per_second)%Z.

Definition offset_parts (t : OffsetDateTime) : Z * Z := (unix_timestamp t, nanosecond t).

Definition chrono_precedes_offset (left : DateTime) (right : OffsetDateTime) : bool := parts_precede (chrono_parts left) (offset_parts right).

Definition offset_precedes_chrono (left : OffsetDateTime) (right : DateTime) : bool := parts_precede (offset_parts left) (chrono_parts right).

Definition same_instant_as (value : DateTime) (other : OffsetDateTime) : bool :=
  ((chrono_parts value).1 =? unix_timestamp other)%Z && ((chrono_parts value).2 =? nanosecond other)%Z.

Definition flexible (b : bool) : Checked := ensure b FlexibleConstraintsRejected.

Definition validate_instant_precision (value : OffsetDateTime) : Checked := flexible (instant_has_database_precision value).

Definition validate_policy_minutes (value : Minutes) : Checked := flexible (value <=? MAX_SCHEDULING_OFFSET_MINUTES)%N.

Definition validate_strength (strength : ConstraintStrength) : Checked :=
  flexible match strength with Soft weight => (weight <=? MAX_SOFT_WEIGHT)%N | Hard => true end.

Definition validate_optional_strength {T} (value : option (Qualified T)) : Checked :=
  match value with Some value => validate_strength (q_strength value) | None => Ok tt end.

Definition validate_calendar_bounds (start end_ : OffsetDateTime) : Checked :=
  let? _ := flexible (odt_ltb start end_) in
  let? _ := validate_instant_precision start in
  validate_instant_precision end_.

(** [DayWeaveFirmBlockSpec::as_calendar_event] *)
Definition as_calendar_event (firm : DayWeaveFirmBlockSpec) : result SchedulingMetadataError CalendarEventSpec :=
  let? _ := flexible (fbs_owned firm) in
  let? _ := validate_calendar_bounds (fbs_starts_at firm) (fbs_ends_at firm) in
  Ok {| ce_start := fbs_starts_at firm; ce_end := fbs_ends_at firm; ce_immutable := true; ce_all_day := fbs_all_day firm;
        ce_source_calendar_id := None |}.

(** ** Timestamps *)

Definition digit_at (bytes : list N) (index : nat) : bool :=
  match bytes !! index with Some b => is_ascii_digit b | None => false end.

Definition byte_is (bytes : list N) (index : nat) (b : N) : bool := bool_decide (bytes !! index = Some b).

(** The number written in two digits *)
Definition two_digits (bytes : list N) (start : nat) : N :=
  ((default 48 (bytes !! start) - 48) * 10 + default 48 (bytes !! S start) - 48)%N.

Fixpoint leading_digits (bytes : list N) : nat :=
  match bytes with
  | b :: bytes => if is_ascii_digit b then S (leading_digits bytes) else 0
  | [] => 0
  end.

(** The zone of a timestamp, from an index on *)
Definition canonical_zone (bytes : list N) (zone_index : nat) : bool :=
  if byte_is bytes zone_index 90 then (zone_index + 1 =? length bytes)%nat
  else if byte_is bytes zone_index 43 || byte_is bytes zone_index 45 then
    if negb (zone_index + 6 =? length bytes)%nat || negb (byte_is bytes (zone_index + 3) 58) ||
       negb (forallb (digit_at bytes) [zone_index + 1; zone_index + 2; zone_index + 4; zone_index + 5]%nat)
    then false
    else
      let hours := two_digits bytes (zone_index + 1) in
      let minutes := two_digits bytes (zone_index + 4) in
      (minutes <=? 59)%N && ((hours <? 18)%N || ((hours =? 18)%N && (minutes =? 0)%N))
  else false.

Definition is_canonical_rfc3339 (value : string) : bool :=
  let bytes := bytes_of value in
  if (length bytes <? 20)%nat || negb (byte_is bytes 4 45) || negb (byte_is bytes 7 45) || negb (byte_is bytes 10 84) ||
     negb (byte_is bytes 13 58) || negb (byte_is bytes 16 58) ||
     negb (forallb (digit_at bytes) [0; 1; 2; 3; 5; 6; 8; 9; 11; 12; 14; 15; 17; 18])
  then false
  else if bool_decide (take 4 bytes = [48; 48; 48; 48]%N) || (two_digits bytes 5 =? 0)%N || (12 <? two_digits bytes 5)%N ||
     (two_digits bytes 8 =? 0)%N || (31 <? two_digits bytes 8)%N || (23 <? two_digits bytes 11)%N ||
     (59 <? two_digits bytes 14)%N || (59 <? two_digits bytes 17)%N
  then false
  else if byte_is bytes 19 46 then
    let fraction := leading_digits (drop 20 bytes) in
    if (1 <=? fraction)%nat && (fraction <=? 9)%nat then canonical_zone bytes (20 + fraction) else false
  else canonical_zone bytes 19.

Section metadata.
Context `{ItemFormats, !MetadataFormats}.

(** ** Checks on the JSON *)

Definition validate_timestamp_string (error : SchedulingMetadataError) (value : Value) : Checked :=
  match value_as_str value with Some s => ensure (is_canonical_rfc3339 s) error | None => Ok tt end.

(** A member of an object that is an object *)
Definition object_member (value : Value) (key : string) : option Value :=
  member ← value_get value key; if value_is_object member then Some member else None.

Definition array_member (value : Value) (key : string) : option (list Value) := member ← value_get value key; value_as_array member.

Definition check_timestamp_member (error : SchedulingMetadataError) (value : Value) (key : string) : Checked :=
  match value_get value key with Some member => validate_timestamp_string error member | None => Ok tt end.

Definition validate_recurrence_timestamp_strings (value : Value) : Checked := check_timestamp_member RecurrenceRejected value "anchor".

Definition check_bounds (object : option Value) (fields : list string) : Checked :=
  match object with
  | Some object => forM (check_timestamp_member FlexibleConstraintsRejected object) fields
  | None => Ok tt
  end.

Definition validate_metadata_timestamp_strings (metadata : Value) : Checked :=
  let? _ := forM (λ spec : string * string * string, check_bounds (object_member metadata spec.1.1) [spec.1.2; spec.2])
    [("calendar_event", "start", "end"); ("calendar_context", "start", "end"); ("dayweave_firm_block", "starts_at", "ends_at")] in
  match object_member metadata "constraints" with
  | None => Ok tt
  | Some constraints =>
      let? _ := forM (λ field, check_bounds (object_member constraints field) ["value"]) ["earliest_start"; "latest_finish"] in
      let? _ := forM (λ field,
        forM (λ window, check_bounds (object_member window "value") ["start"; "end"])
          (default [] (array_member constraints field))) ["preferred_absolute_windows"; "forbidden_windows"] in
      check_bounds (object_member constraints "occurrence_window") ["start"; "end"]
  end.

(** The strings, or the identifiers, of an array are distinct. *)
Definition validate_unique_string_array (error : SchedulingMetadataError) (value : Value) : Checked :=
  match value_as_array value with
  | Some values => ensure (bool_decide (NoDup (omap value_as_str values))) error
  | None => Ok tt
  end.

Definition validate_unique_uuid_array (value : Value) : Checked :=
  match value_as_array value with
  | Some values => flexible (bool_decide (NoDup (omap (λ v, s ← value_as_str v; parse_uuid s) values)))
  | None => Ok tt
  end.

Definition check_strings (error : SchedulingMetadataError) (value : option Value) : Checked :=
  match value with Some value => validate_unique_string_array error value | None => Ok tt end.

Definition validate_recurrence_set_arrays (value : Value) : Checked := check_strings RecurrenceRejected (value_get value "weekdays").

Definition validate_metadata_set_arrays (value : Value) : Checked :=
  let? _ := match value_get value "goal_ids" with Some values => validate_unique_uuid_array values | None => Ok tt end in
  let? _ := check_strings FlexibleConstraintsRejected (value_get value "tags") in
  match object_member value "constraints" with
  | None => Ok tt
  | Some constraints =>
      let? _ := check_strings FlexibleConstraintsRejected
                  (qualified ← object_member constraints "allowed_weekdays"; value_get qualified "value") in
      forM (λ qualified, check_strings FlexibleConstraintsRejected
              (window ← object_member qualified "value"; value_get window "weekdays"))
        (default [] (array_member constraints "preferred_daily_windows"))
  end.

Definition validate_encoded_object (value : Value) (maximum_bytes : N) : Checked := flexible (within_length maximum_bytes value).

(** ** The recurrence *)

(** [object.entry(key).or_insert(value)] *)
Definition or_insert (object : Value) (key : string) (value : Value) : Value :=
  if is_some (value_get object key) then object else value_insert object key value.

Definition with_recurrence_defaults (object : Value) (recurrence_type : string) : Value :=
  if bool_decide (recurrence_type = "daily") then or_insert object "times_per_day" (number_value 1)
  else if bool_decide (recurrence_type = "weekly") then
    let days := match array_member object "weekdays" with Some days => N.max (N.of_nat (length days)) 1 | None => 1%N end in
    or_insert (or_insert object "times_per_week" (number_value days)) "weekdays" (array_value [])
  else if bool_decide (recurrence_type = "monthly") then or_insert object "times_per_month" (number_value 1)
  else object.

Definition parse_recurrence (value : option Value) : result SchedulingMetadataError (option Recurrence) :=
  match value with
  | None => Ok None
  | Some object =>
      if negb (value_is_object object) then Err RecurrenceRejected
      else
        let? recurrence_type := ok_or (member ← value_get object "type"; value_as_str member) RecurrenceRejected in
        let? recurrence := ok_or (decode_recurrence (with_recurrence_defaults object recurrence_type)) RecurrenceRejected in
        Ok (Some recurrence)
  end.

Definition validate_bounded_recurrence_minutes (value : Minutes) : Checked :=
  ensure (value <=? MAX_SCHEDULING_OFFSET_MINUTES)%N RecurrenceRejected.

Definition validate_recurrence_rule (value : option Recurrence) : Checked :=
  match value with
  | Some (Daily times) => ensure (negb (times =? 0)%N) RecurrenceRejected
  | Some (Weekly times _) => ensure (negb (times =? 0)%N) RecurrenceRejected
  | Some (Monthly times) => ensure (negb (times =? 0)%N) RecurrenceRejected
  | Some (EveryInterval interval | AfterCompletion interval) =>
      if is_zero interval then Err RecurrenceRejected else validate_bounded_recurrence_minutes interval
  | Some (Frequency target period semantics weekdays minimum_spacing anchor) =>
      if (target =? 0)%N then Err RecurrenceRejected
      else
        let? _ :=
        match semantics, period with
        | Rolling, Day => if (24 * 60 <? target)%N then Err RecurrenceRejected else Ok tt
        | Rolling, Week => if (7 * 24 * 60 <? target)%N then Err RecurrenceRejected else Ok tt
        | _, _ => Ok tt
        end in
        if match semantics with Rolling => negb (bool_decide (weekdays = ∅)) | Calendar => false end then Err RecurrenceRejected
        else if match semantics with Calendar => is_some anchor | Rolling => false end then Err RecurrenceRejected
        else if match anchor with Some anchor => negb (instant_has_database_precision anchor) | None => false end then Err RecurrenceRejected
        else validate_bounded_recurrence_minutes minimum_spacing
  | Some (Custom _) | None => Ok tt
  end.

(** ** The values *)

(** A window of [preferred_absolute_windows] or [forbidden_windows] *)
Definition validate_absolute_window (window : Qualified AbsoluteWindow) : Checked :=
  let? _ := flexible (odt_ltb (aw_start (q_value window)) (aw_end (q_value window))) in
  let? _ := validate_instant_precision (aw_start (q_value window)) in
  let? _ := validate_instant_precision (aw_end (q_value window)) in
  validate_strength (q_strength window).

Definition validate_daily_window (window : Qualified DailyTimeWindow) : Checked :=
  let w := q_value window in
  let? _ := flexible (negb ((1440 <=? dw_start_minute w)%N || (1440 <? dw_end_minute w)%N || (dw_start_minute w =? dw_end_minute w)%N)) in
  validate_strength (q_strength window).

Definition validate_metadata_dependency (ids : gset ItemId) (d : Dependency) : result SchedulingMetadataError (gset ItemId) :=
  let? _ := flexible (negb (is_nil (dep_item_id d))) in
  let? _ := flexible (negb (bool_decide (dep_item_id d ∈ ids))) in
  let? _ := validate_policy_minutes (dep_minimum_lag d) in
  let? _ := validate_strength (dep_strength d) in
  Ok ({[dep_item_id d]} ∪ ids).

Definition validate_buffers (b : BufferPolicy) : Checked :=
  let? _ := flexible (negb (is_some (bp_strength b) && is_zero (bp_before b) && is_zero (bp_after b))) in
  let? _ := match bp_strength b with Some strength => validate_strength strength | None => Ok tt end in
  let? _ := validate_policy_minutes (bp_before b) in
  validate_policy_minutes (bp_after b).

Definition instants_in_order (start finish : option (Qualified OffsetDateTime)) : bool :=
  match start, finish with Some start, Some finish => odt_ltb (q_value start) (q_value finish) | _, _ => true end.

Definition check_instant (value : option (Qualified OffsetDateTime)) : Checked :=
  match value with Some value => validate_instant_precision (q_value value) | None => Ok tt end.

(** [validate_constraints] *)
Definition validate_metadata_constraints (c : SchedulingConstraints) : Checked :=
  let? _ := flexible (instants_in_order (earliest_start c) (latest_finish c)) in
  let? _ := check_instant (earliest_start c) in
  let? _ := check_instant (latest_finish c) in
  let? _ := forM validate_absolute_window (preferred_absolute_windows c) in
  let? _ := forM validate_absolute_window (forbidden_windows c) in
  let? _ := forM validate_daily_window (preferred_daily_windows c) in
  let? _ := validate_optional_strength (earliest_start c) in
  let? _ := validate_optional_strength (latest_finish c) in
  let? _ := validate_optional_strength (minimum_notice c) in
  let? _ := match minimum_notice c with Some notice => validate_policy_minutes (q_value notice) | None => Ok tt end in
  let? _ := validate_optional_strength (allowed_weekdays c) in
  let? _ := flexible match allowed_weekdays c with Some weekdays => negb (bool_decide (q_value weekdays = ∅)) | None => true end in
  let? _ := validate_optional_strength (required_location c) in
  let? _ := validate_optional_strength (maximum_daily_work c) in
  let? _ := validate_optional_strength (maximum_weekly_work c) in
  let? _ := forM (λ context : Qualified string,
              let? _ := validate_strength (q_strength context) in flexible (negb (is_blank (q_value context)))) (required_contexts c) in
  let? _ := flexible match required_location c with Some location => negb (is_blank (q_value location)) | None => true end in
  let? _ := foldM validate_metadata_dependency ∅ (dependencies c) in
  let? _ := validate_buffers (buffers c) in
  flexible (negb (is_some (occurrence_window c))).

(** [QuantityTarget::is_valid] *)
Definition quantity_is_valid (target : QuantityTarget) : bool :=
  (0 <? qt_amount target)%N && is_valid_habit_quantity_unit (qt_unit target).

Definition validate_metadata_values (m : Metadata) : Checked :=
  let? _ := flexible (negb (bool_decide (0%N ∈ md_goal_ids m))) in
  let? _ := flexible (forallb (λ tag, negb (is_blank tag)) (elements (md_tags m))) in
  let? _ := match md_energy m with Some (QualifiedEnergy energy) => validate_strength (q_strength energy) | _ => Ok tt end in
  let? _ := flexible match md_habit_target m with Some target => quantity_is_valid target | None => true end in
  let? _ := validate_policy_minutes (md_habit_minimum_spacing_minutes m) in
  let? _ := forM (λ measure, flexible (negb (is_blank (gm_name measure)) && negb (is_blank (gm_unit measure)))) (md_goal_measures m) in
  flexible match md_goal_weekly_allocation m with
           | Some allocation => match ar_maximum allocation with Some maximum => (ar_minimum allocation <=? maximum)%N | None => true end
           | None => true
           end.

(** ** The item *)

Definition has_any (object : Value) (names : list string) : bool := existsb (λ name, is_some (value_get object name)) names.

(** The only key of an object *)
Definition sole_key (object : Value) (key : string) : bool := (value_len object =? 1)%nat && is_some (value_get object key).

Definition validate_all_day_bounds (start end_ : OffsetDateTime) (timezone_name : string) : Checked :=
  let? timezone := ok_or (tz_from_str timezone_name) FlexibleConstraintsRejected in
  let? start := ok_or (instant_of_odt start) FlexibleConstraintsRejected in
  let? end_ := ok_or (instant_of_odt end_) FlexibleConstraintsRejected in
  let is_midnight t := bool_decide (local_clock timezone t = (0, 0, 0, 0)%N) in
  flexible (is_midnight start && is_midnight end_ && (local_date timezone start <? local_date timezone end_)%Z).

Definition validate_event_canonical_fields (input : SchedulingMetadataInput) (start end_ : OffsetDateTime) (all_day : bool) : Checked :=
  let? _ := flexible match sm_earliest_start_at input with Some canonical => same_instant_as canonical start | None => true end in
  let? _ := flexible match sm_deadline_at input with Some canonical => same_instant_as canonical end_ | None => true end in
  let? _ := match sm_duration_seconds input with
            | None => Ok tt
            | Some expected =>
                let duration := duration_between end_ start in
                let seconds := whole_seconds duration in
                flexible (negb (negb (duration =? seconds * nanos_per_second)%Z || (seconds <=? 0)%Z || negb (seconds =? Z.of_N expected)%Z))
            end in
  if all_day then validate_all_day_bounds start end_ (sm_timezone_name input) else Ok tt.

Definition is_splittable (policy : ItemDomain.SplitPolicy) : bool := match policy with SplitPolicy.Splittable _ _ => true | _ => false end.

Definition validate_event_metadata (input : SchedulingMetadataInput) (m : Metadata) : Checked :=
  let keys := sm_flexible_constraints input in
  let one (b : bool) := if b then 1 else 0 in
  let variants := one (is_some (md_calendar_event m)) + one (is_some (md_calendar_context m)) + one (is_some (md_dayweave_firm_block m)) in
  let? _ := flexible (variants <=? 1)%nat in
  let? _ := flexible (negb (negb (bool_decide (sm_status input = ItemStatus.Inbox)) && (variants =? 0)%nat)) in
  let? _ := match md_calendar_event m with
            | None => Ok tt
            | Some event =>
                let? _ := validate_calendar_bounds (ce_start event) (ce_end event) in
                let? _ := validate_event_canonical_fields input (ce_start event) (ce_end event) (ce_all_day event) in
                flexible match ce_source_calendar_id event with Some identifier => negb (is_blank identifier) | None => true end
            end in
  let? _ := match md_calendar_context m with
            | None => Ok tt
            | Some context =>
                let? _ := flexible (negb (is_some (sm_parent_id input))) in
                let? _ := flexible (sole_key keys "calendar_context") in
                let? _ := validate_calendar_bounds (cc_start context) (cc_end context) in
                validate_event_canonical_fields input (cc_start context) (cc_end context) (cc_all_day context)
            end in
  let? _ := match md_dayweave_firm_block m with
            | None => Ok tt
            | Some firm =>
                let? _ := flexible (sole_key keys "dayweave_firm_block") in
                let? _ := as_calendar_event firm in
                validate_event_canonical_fields input (fbs_starts_at firm) (fbs_ends_at firm) (fbs_all_day firm)
            end in
  flexible (negb (is_splittable (sm_split_policy input))).

(** The metadata that is only for one kind of item *)
Definition foreign_keys (kind : ItemDomain.ItemKind) (keys : Value) : bool :=
  (negb (bool_decide (kind = ItemKind.Event)) && has_any keys ["calendar_event"; "calendar_context"; "dayweave_firm_block"]) ||
  (negb (bool_decide (kind = ItemKind.Habit)) &&
   has_any keys ["habit_target"; "preserves_streak_when_paused"; "habit_missed_policy"; "habit_minimum_spacing_minutes"]) ||
  (negb (bool_decide (kind = ItemKind.Routine)) && has_any keys ["routine_ordered"]) ||
  (negb (bool_decide (kind = ItemKind.Goal)) && has_any keys ["goal_measures"; "goal_weekly_allocation"]) ||
  (negb (bool_decide (kind = ItemKind.Break)) && has_any keys ["break_category"; "break_mandatory"; "break_prompt_to_resume"]).

Definition validate_kind_keys (input : SchedulingMetadataInput) (m : Metadata) (recurrence : option Recurrence) : Checked :=
  let? _ := flexible (negb (bool_decide (sm_item_id input ∈ md_goal_ids m))) in
  let? _ := flexible (negb (existsb (λ d, dep_item_id d =? sm_item_id input)%N (dependencies (md_constraints m)))) in
  let? _ := flexible (negb (foreign_keys (sm_kind input) (sm_flexible_constraints input))) in
  match sm_kind input with
  | ItemKind.Event => let? _ := ensure (negb (is_some recurrence)) RecurrenceRejected in validate_event_metadata input m
  | ItemKind.Task | ItemKind.Routine => Ok tt
  | ItemKind.Habit =>
      ensure (negb (negb (bool_decide (sm_status input = ItemStatus.Inbox)) && negb (is_some recurrence))) RecurrenceRejected
  | ItemKind.Goal | ItemKind.Project | ItemKind.Break => ensure (negb (is_some recurrence)) RecurrenceRejected
  end.

Definition validate_split_extensions (input : SchedulingMetadataInput) (m : Metadata) : Checked :=
  let has_extensions := is_some (md_maximum_sessions m) || negb (md_minimum_gap_minutes m =? 0)%N || is_some (md_maximum_split_days m) in
  let? _ := flexible (negb (has_extensions && negb (is_splittable (sm_split_policy input)))) in
  let? _ := match sm_split_policy input with
            | SplitPolicy.Indivisible => Ok tt
            | SplitPolicy.Splittable minimum maximum =>
                let? duration := ok_or (sm_duration_seconds input) FlexibleConstraintsRejected in
                flexible (negb ((minimum =? 0)%N || (maximum =? 0)%N || (maximum <? minimum)%N || (duration <? minimum)%N || (duration <? maximum)%N))
            end in
  let? _ := flexible (negb (bool_decide (md_maximum_sessions m = Some 0%N))) in
  let? _ := flexible (negb (bool_decide (md_maximum_split_days m = Some 0%N))) in
  let? _ := validate_policy_minutes (md_minimum_gap_minutes m) in
  match sm_duration_seconds input, sm_split_policy input, md_maximum_sessions m with
  | Some duration, SplitPolicy.Splittable _ maximum, Some maximum_sessions =>
      let required_sessions := (duration / maximum + if (duration mod maximum =? 0) then 0 else 1)%N in
      flexible (required_sessions <=? maximum_sessions)%N
  | _, _, _ => Ok tt
  end.

(** The preferred start of the day, of older clients *)
Definition validate_preferred_start (input : SchedulingMetadataInput) (preferred_start : N) : Checked :=
  let? _ := flexible (negb (bool_decide (sm_kind input = ItemKind.Event))) in
  let? _ := flexible (preferred_start <=? 1439)%N in
  let? duration := ok_or (sm_duration_seconds input) FlexibleConstraintsRejected in
  flexible (saturating_add u32_max preferred_start (saturating_add u32_max duration 59 / 60) <=? 1440)%N.

Definition validate_canonical_interactions (input : SchedulingMetadataInput) (m : Metadata) : Checked :=
  let precise t := match t with Some t => chrono_instant_has_database_precision t | None => true end in
  let c := md_constraints m in
  let? _ := flexible (precise (sm_earliest_start_at input)) in
  let? _ := flexible (precise (sm_deadline_at input)) in
  let? _ := flexible (negb (is_some (sm_earliest_start_at input) && is_some (earliest_start c))) in
  let? _ := flexible (negb (is_some (sm_deadline_at input) && is_some (latest_finish c))) in
  let? _ := flexible match sm_earliest_start_at input, latest_finish c with
                     | Some start, Some finish => chrono_precedes_offset start (q_value finish)
                     | _, _ => true
                     end in
  let? _ := flexible match earliest_start c, sm_deadline_at input with
                     | Some start, Some finish => offset_precedes_chrono (q_value start) finish
                     | _, _ => true
                     end in
  match md_preferred_start_minute m with Some preferred_start => validate_preferred_start input preferred_start | None => Ok tt end.

Context `{Platform, Civil}.

(** A custom rule is replaced by its canonical spelling. *)
Definition canonical_recurrence (recurrence : option Recurrence) : result SchedulingMetadataError (option Recurrence) :=
  match recurrence with
  | Some (Custom rrule) =>
      let? canonical := map_err (λ _, RecurrenceRejected) (canonicalize_custom_rrule (bytes_of rrule)) in
      Ok (Some (Custom (string_of_bytes canonical)))
  | recurrence => Ok recurrence
  end.

Definition validate_recurrence_object (recurrence : option Value) : Checked :=
  match recurrence with
  | None => Ok tt
  | Some recurrence =>
      let? _ := ensure (within_length MAX_RECURRENCE_BYTES recurrence) RecurrenceRejected in
      let? _ := validate_recurrence_set_arrays recurrence in
      validate_recurrence_timestamp_strings recurrence
  end.

(** [validate_scheduling_metadata] *)
Definition validated_metadata (input : SchedulingMetadataInput) : result SchedulingMetadataError ValidatedSchedulingMetadata :=
  let? _ := validate_encoded_object (sm_flexible_constraints input) MAX_SCHEDULING_METADATA_BYTES in
  let? _ := validate_recurrence_object (sm_recurrence input) in
  let? _ := validate_metadata_set_arrays (sm_flexible_constraints input) in
  let? _ := validate_metadata_timestamp_strings (sm_flexible_constraints input) in
  let? m := ok_or (decode_metadata (sm_flexible_constraints input)) FlexibleConstraintsRejected in
  let? recurrence := parse_recurrence (sm_recurrence input) in
  let? recurrence := canonical_recurrence recurrence in
  let? _ := validate_recurrence_rule recurrence in
  let? _ := validate_metadata_constraints (md_constraints m) in
  let? _ := validate_metadata_values m in
  let? _ := validate_kind_keys input m recurrence in
  let? _ := validate_split_extensions input m in
  let? _ := validate_canonical_interactions input m in
  Ok {| vm_metadata := m; vm_recurrence := recurrence |}.

(** The text of an error, up to what it is about *)
Definition metadata_error_text (e : SchedulingMetadataError) : string :=
  match e with RecurrenceRejected => "invalid recurrence" | FlexibleConstraintsRejected => "invalid flexible_constraints" end.

(** The implementation of the interface that ItemDomain relies on *)
Definition compose_metadata : SchedulingMetadata :=
  {| validate_scheduling_metadata := λ input, map_err metadata_error_text (let? v := validated_metadata input in Ok (vm_recurrence v)) |}.
End metadata.
