(* ===== verification/Prepare.v ===== *)
(** * Prepare: from the stored items to a planning request

    crates/dayweave-compose/src/model.rs and prepare.rs: the request of a host
    and a complete snapshot of the items become a [PlanRequest] of the core.
    [CanonicalItem] has the fields of the wire form of an item in the same
    types, and is [ItemWire] here; the enums of model.rs that it is made of are
    those of ItemDomain.  The texts of errors are left out, and the reason of a
    rejection is a constructor.  A checked addition of lengths is plain: where
    it would overflow the code answers as for the limit that it is held to.  Classify maps an item, Compose builds the
    request, and Sensitivity and Prepared have the theorems. *)
From S2P Require Import Prelude Text Platform Civil Domain Rrule Decimal Progress Completion Session ItemDomain Metadata.

Definition MAX_CANONICAL_ITEMS : nat := Z.to_nat 10000.
Definition MAX_AVAILABILITY_WINDOWS : nat := Z.to_nat 10000.
Definition MAX_FIXED_BLOCKS : nat := Z.to_nat 10000.
Definition MAX_PREVIOUS_ASSIGNMENTS : nat := Z.to_nat 10000.
Definition MAX_PREVIOUS_BLOCKS : nat := Z.to_nat 50000.
Definition MAX_MANUAL_PLACEMENTS : nat := 64.
Definition MAX_MANUAL_ASSIGNMENTS : nat := 128.
Definition MAX_MANUAL_BLOCKS : nat := 256.
Definition MAX_MANUAL_PLACEMENT_RELEASES : nat := 64.
Definition MAX_RECURRENCE_CONTEXT_ENTRIES : nat := Z.to_nat 10000.
Definition MAX_HORIZON_DAYS : Z := 90.
Definition MAX_CALENDAR_DAYS : nat := 92.
Definition MAX_WEIGHT : N := 1000000.
Definition MAX_BLOCK_TITLE_CHARACTERS : nat := 500.
Definition MAX_NOTES_CHARACTERS : nat := Z.to_nat 100000.
Definition MAX_BLOCKED_REASON_CHARACTERS : nat := 1000.

Module PrepareScheduleError.
Inductive PrepareScheduleError : Type :=
| InvalidRequest
| TooManyItems
| DuplicateCanonicalItem (id : Uuid)
| InvalidCanonicalItem (id : Uuid)
| AccountingOverflow.
End PrepareScheduleError.
Abbreviation PrepareScheduleError := PrepareScheduleError.PrepareScheduleError.
Import PrepareScheduleError.

(** ** The request *)

Record AvailabilityInput : Type := {
  ai_start : DateTime;
  ai_end : DateTime;
  ai_contexts : gset string;
  ai_location : option string;
  ai_energy : EnergyLevel
}.

Record FixedBlockInput : Type := {
  fi_id : Uuid;
  fi_is_sensitive : bool;
  fi_title : string;
  fi_start : DateTime;
  fi_end : DateTime;
  fi_source : FixedBlockSource
}.

Record PreviousBlockInput : Type := {
  bi_start : DateTime;
  bi_end : DateTime;
  bi_session_index : N
}.

Record PreviousAssignmentInput : Type := {
  pai_item_id : Uuid;
  pai_item_revision : N;
  pai_occurrence_id : option Uuid;
  pai_blocks : list PreviousBlockInput;
  pai_pinned : bool
}.

Record ManualPlacementAssignmentInput : Type := {
  mai_item_id : Uuid;
  mai_item_revision : N;
  mai_occurrence_id : option Uuid;
  mai_blocks : list PreviousBlockInput
}.

Record ManualPlacementInput : Type := {
  mpi_id : Uuid;
  mpi_source_schedule_revision_id : option Uuid;
  mpi_assignments : list ManualPlacementAssignmentInput
}.

Record ManualPlacementReleaseInput : Type := {
  mri_id : Uuid;
  mri_placement_id : Uuid;
  mri_source_schedule_revision_id : Uuid
}.

Record SchedulerConfigInput : Type := {
  sci_slot_granularity_minutes : N;
  sci_stability_weight : N;
  sci_default_soft_weight : N
}.

Record ComposeScheduleRequest : Type := {
  cr_as_of : DateTime;
  cr_horizon_start : DateTime;
  cr_horizon_end : DateTime;
  cr_timezone_name : string;
  cr_availability : list AvailabilityInput;
  cr_fixed_blocks : list FixedBlockInput;
  cr_previous_assignments : list PreviousAssignmentInput;
  cr_manual_placements : list ManualPlacementInput;
  cr_manual_placement_releases : list ManualPlacementReleaseInput;
  cr_config : SchedulerConfigInput;
  cr_recurrence_context : RecurrenceContext
}.

(** Why an item is left out of the plan *)
Inductive Rejection : Type :=
| ItemTimezoneInvalid
| MetadataRejected (error : SchedulingMetadataError)
| TimezoneMismatch
| TimeRejected
| CustomRuleRejected (error : CustomRecurrenceRuleError)
| EarliestDefinedTwice
| DeadlineDefinedTwice
| PreferredStartInvalid
| PreferredStartNeedsDuration
| EventRecurrence
| EventMetadataCombined
| EventMetadataMissing
| HabitNeedsRecurrence
| RecurrenceUnsupported (kind : string)
| DurationIncomplete
| DurationSourceMissing
| DurationMinimumMissing
| DurationExpectedMissing
| DurationMaximumMissing
| DurationRejected (error : DurationEstimateError)
| DeadlineStrengthMissing
| DeadlineDateMissing
| DeadlineDateOutOfRange
| DeadlineInstantMissing
| ParentUnavailable (id : ItemId).

Record RejectedScheduleItem : Type := {
  rj_item_id : Uuid;
  rj_is_sensitive : bool;
  rj_title : string;
  rj_reason : Rejection
}.

Record IgnoredPreviousAssignment : Type := {
  ig_item_id : Uuid;
  ig_requested_revision : N;
  ig_current_revision : option N
}.

Record PreparedSchedule : Type := {
  ps_timezone_name : string;
  ps_source_item_count : nat;
  ps_source_item_revisions : gmap Uuid N;
  ps_effective_sensitivity : gmap Uuid bool;
  ps_accepted_item_count : nat;
  ps_rejected_items : list RejectedScheduleItem;
  ps_ignored_previous_assignments : list IgnoredPreviousAssignment;
  ps_manual_placements : list ManualPlacementInput;
  ps_manual_placement_releases : list ManualPlacementReleaseInput;
  ps_plan_request : PlanRequest
}.

Abbreviation Checked := (result PrepareScheduleError unit).

Definition valid_if (b : bool) : Checked := ensure b InvalidRequest.

(** Whether the values inserted one by one are new each time *)
Definition distinct {A} `{EqDecision A} (l : list A) : bool := bool_decide (NoDup l).

(** ** Checks of the request *)

Definition selector_is_precise (selector : RecurrenceExceptionSelector) : bool :=
  match selector with SelectNominalStart at_ => instant_has_database_precision at_ | _ => true end.

Definition identity_is_precise (identity : RecurrenceOccurrenceIdentity) : bool :=
  match identity with
  | IdentityAfterCompletion anchor | RollingMinutes _ anchor | RollingMonth _ _ anchor => instant_has_database_precision anchor
  | _ => true
  end.

Definition action_is_precise (action : RecurrenceExceptionAction) : bool :=
  match action with
  | ActionMove start end_ source =>
      instant_has_database_precision start && instant_has_database_precision end_ &&
      instant_has_database_precision (ms_nominal_start source) && instant_has_database_precision (ms_nominal_end source) &&
      identity_is_precise (ms_identity source)
  | ActionSkip => true
  end.

Definition recurrence_instants_are_precise (context : RecurrenceContext) : bool :=
  forallb instant_has_database_precision (values (rctx_completion_anchors context) ++ values (rctx_rolling_anchors context)) &&
  forallb (λ day, instant_has_database_precision (zd_start day) && instant_has_database_precision (zd_end day))
    (rc_days (rctx_calendar context)) &&
  forallb (λ pause, instant_has_database_precision (rpz_start pause) && instant_has_database_precision (rpz_end pause)) (rctx_pauses context) &&
  forallb (λ e, selector_is_precise (rx_selector e) && action_is_precise (rx_action e)) (rctx_exceptions context).

Definition block_is_precise (block : PreviousBlockInput) : bool :=
  has_postgres_timestamp_precision (bi_start block) && has_postgres_timestamp_precision (bi_end block).

Definition instants_are_precise (request : ComposeScheduleRequest) : bool :=
  has_postgres_timestamp_precision (cr_as_of request) && has_postgres_timestamp_precision (cr_horizon_start request) &&
  has_postgres_timestamp_precision (cr_horizon_end request) &&
  forallb (λ w, has_postgres_timestamp_precision (ai_start w) && has_postgres_timestamp_precision (ai_end w)) (cr_availability request) &&
  forallb (λ b, has_postgres_timestamp_precision (fi_start b) && has_postgres_timestamp_precision (fi_end b)) (cr_fixed_blocks request) &&
  forallb (λ a, forallb block_is_precise (pai_blocks a)) (cr_previous_assignments request) &&
  recurrence_instants_are_precise (cr_recurrence_context request) &&
  forallb (λ p, forallb (λ a, forallb block_is_precise (mai_blocks a)) (mpi_assignments p)) (cr_manual_placements request).

Definition block_title_is_valid (title : string) : bool :=
  negb (is_blank title) && (length (chars title) <=? MAX_BLOCK_TITLE_CHARACTERS)%nat && negb (existsb is_control_range (chars title)).

Definition validate_manual_placement_releases (request : ComposeScheduleRequest) : Checked :=
  let releases := cr_manual_placement_releases request in
  valid_if (forallb (λ r, negb (is_nil (mri_id r) || is_nil (mri_placement_id r) || is_nil (mri_source_schedule_revision_id r))) releases &&
            distinct (mri_id <$> releases) && distinct (mri_placement_id <$> releases)).

(** The blocks of an assignment of a placement *)
Definition validate_manual_blocks (request : ComposeScheduleRequest) (blocks : list PreviousBlockInput) : Checked :=
  let earliest := Z.max (cr_as_of request) (cr_horizon_start request) in
  valid_if (forallb (λ b, negb ((bi_end b <=? bi_start b)%Z || (bi_start b <? earliest)%Z || (cr_horizon_end request <? bi_end b)%Z)) blocks &&
            distinct (bi_session_index <$> blocks)).

(** The counters and identities of the loops over placements and assignments *)
Record PlacementLoop : Type := {
  pl_identities : gset (Uuid * option Uuid);
  pl_assignment_count : nat;
  pl_block_count : nat
}.

Section prepare.
Context `{ItemFormats, !MetadataFormats, Platform, Civil}.

Definition validate_manual_assignment (request : ComposeScheduleRequest) (occurrence : option Uuid) (loop : PlacementLoop)
    (a : ManualPlacementAssignmentInput) : result PrepareScheduleError PlacementLoop :=
  let identity := (mai_item_id a, mai_occurrence_id a) in
  let? _ := valid_if (negb (is_nil (mai_item_id a) || (mai_item_revision a =? 0)%N || bool_decide (mai_blocks a = []) ||
                            bool_decide (identity ∈ pl_identities loop))) in
  let? _ := valid_if match mai_occurrence_id a with Some id => (uuid_version id =? 5)%N | None => true end in
  let? _ := valid_if (bool_decide (mai_occurrence_id a = occurrence)) in
  let block_count := (pl_block_count loop + length (mai_blocks a))%nat in
  let? _ := valid_if (block_count <=? MAX_MANUAL_BLOCKS)%nat in
  let? _ := validate_manual_blocks request (mai_blocks a) in
  Ok {| pl_identities := {[identity]} ∪ pl_identities loop; pl_assignment_count := pl_assignment_count loop; pl_block_count := block_count |}.

(** All assignments of a placement are about the occurrence of the first. *)
Definition validate_manual_placement (request : ComposeScheduleRequest) (loop : PlacementLoop) (p : ManualPlacementInput)
    : result PrepareScheduleError PlacementLoop :=
  let? _ := valid_if (negb (is_nil (mpi_id p) || bool_decide (mpi_source_schedule_revision_id p = Some 0%N) ||
                            bool_decide (mpi_assignments p = []))) in
  let assignment_count := (pl_assignment_count loop + length (mpi_assignments p))%nat in
  let? _ := valid_if (assignment_count <=? MAX_MANUAL_ASSIGNMENTS)%nat in
  let occurrence := match mpi_assignments p with a :: _ => mai_occurrence_id a | [] => None end in
  foldM (validate_manual_assignment request occurrence)
    {| pl_identities := pl_identities loop; pl_assignment_count := assignment_count; pl_block_count := pl_block_count loop |}
    (mpi_assignments p).

Definition count_blocks (request : ComposeScheduleRequest) : nat :=
  sum_list_with (λ a, length (pai_blocks a)) (cr_previous_assignments request).

Definition validate_manual_placement_capacity (request : ComposeScheduleRequest) (assignment_count block_count : nat) : Checked :=
  let? _ := valid_if (length (cr_previous_assignments request) + assignment_count <=? MAX_PREVIOUS_ASSIGNMENTS)%nat in
  valid_if (count_blocks request + block_count <=? MAX_PREVIOUS_BLOCKS)%nat.

Definition validate_manual_placement_shape (request : ComposeScheduleRequest) : Checked :=
  let? _ := valid_if (length (cr_manual_placements request) <=? MAX_MANUAL_PLACEMENTS)%nat in
  let? _ := valid_if (length (cr_manual_placement_releases request) <=? MAX_MANUAL_PLACEMENT_RELEASES)%nat in
  let? _ := validate_manual_placement_releases request in
  let? _ := valid_if (distinct (mpi_id <$> cr_manual_placements request)) in
  let? loop := foldM (validate_manual_placement request) {| pl_identities := ∅; pl_assignment_count := 0; pl_block_count := 0 |}
                 (cr_manual_placements request) in
  validate_manual_placement_capacity request (pl_assignment_count loop) (pl_block_count loop).

Definition context_entries (context : RecurrenceContext) : nat :=
  (size (rctx_completion_anchors context) + size (rctx_rolling_anchors context) + size (rctx_minimum_spacing context) +
   size (rctx_completed_occurrence_ids context) + size (rctx_partial_progress context) + length (rctx_pauses context) +
   length (rctx_exceptions context))%nat.

(** One entry of the partial progress *)
Definition partial_progress_is_valid (entry : OccurrenceId * RecurrencePartialProgress) : bool :=
  let (id, p) := entry in
  negb (is_nil id || negb ((1 <=? rp_progress_basis_points p)%N && (rp_progress_basis_points p <? 10000)%N) ||
        is_zero (rp_expected_duration_minutes p) || (MAX_SCHEDULING_OFFSET_MINUTES <? rp_expected_duration_minutes p)%N ||
        match rp_remaining_duration_minutes p with
        | Some remaining =>
            is_zero remaining || (rp_expected_duration_minutes p <? remaining)%N || (MAX_SCHEDULING_OFFSET_MINUTES <? remaining)%N
        | None => false
        end).

Definition validate_schedule_request (request : ComposeScheduleRequest) : Checked :=
  let horizon := (cr_horizon_end request - cr_horizon_start request)%Z in
  let? _ := valid_if (negb ((horizon <=? 0)%Z || (MAX_HORIZON_DAYS * 86400 * nanos_per_second <? horizon)%Z)) in
  let? _ := valid_if (cr_as_of request <=? cr_horizon_end request)%Z in
  let? _ := valid_if (instants_are_precise request) in
  let? _ := valid_if (is_some (tz_from_str (cr_timezone_name request))) in
  let? _ := valid_if (length (cr_availability request) <=? MAX_AVAILABILITY_WINDOWS)%nat in
  let? _ := valid_if (length (cr_fixed_blocks request) <=? MAX_FIXED_BLOCKS)%nat in
  let? _ := valid_if (forallb (λ b, block_title_is_valid (fi_title b)) (cr_fixed_blocks request)) in
  let? _ := valid_if (distinct (fi_id <$> cr_fixed_blocks request)) in
  let? _ := valid_if (length (cr_previous_assignments request) <=? MAX_PREVIOUS_ASSIGNMENTS)%nat in
  let? _ := valid_if (count_blocks request <=? MAX_PREVIOUS_BLOCKS)%nat in
  let? _ := validate_manual_placement_shape request in
  let config := cr_config request in
  let? _ := valid_if ((1 <=? sci_slot_granularity_minutes config)%N && (sci_slot_granularity_minutes config <=? 60)%N) in
  let? _ := valid_if ((sci_stability_weight config <=? MAX_WEIGHT)%N && (sci_default_soft_weight config <=? MAX_WEIGHT)%N) in
  let context := cr_recurrence_context request in
  let? _ := valid_if (context_entries context <=? MAX_RECURRENCE_CONTEXT_ENTRIES)%nat in
  let? _ := valid_if (length (rc_days (rctx_calendar context)) <=? MAX_CALENDAR_DAYS)%nat in
  valid_if (forallb partial_progress_is_valid (map_to_list (rctx_partial_progress context))).

(** ** Times *)

(** What chrono, chrono_tz and time offer for the conversions *)
Class ComposeTime : Type := {
  (** [local_minus_utc] of the offset of a zone at an instant *)
  zone_offset : Tz → DateTime → Z;
  (** [UtcOffset::from_whole_seconds] *)
  offset_from_whole_seconds : Z → option Z;
  (** [OffsetDateTime::from_unix_timestamp], with the nanoseconds *)
  odt_of_instant : DateTime → option OffsetDateTime;
  (** [NaiveDate::from_ymd_opt] of a [time::Date], [time::Date::from_calendar_date] of a [NaiveDate] *)
  naive_of_date : Date → option Date;
  date_of_naive : Date → option Date;
  (** [DateTime::checked_sub_signed] *)
  datetime_checked_sub : DateTime → Z → option DateTime
}.

Context `{!ComposeTime}.

(** [OffsetDateTime::to_offset] keeps the instant. *)
Definition to_offset (t : OffsetDateTime) (offset : Z) : OffsetDateTime := {| unix_nanos := unix_nanos t; utc_offset := offset |}.

Definition to_time (value : DateTime) : result PrepareScheduleError OffsetDateTime := ok_or (odt_of_instant value) InvalidRequest.

Definition to_time_in_timezone (value : DateTime) (timezone : Tz) : result PrepareScheduleError OffsetDateTime :=
  let? offset := ok_or (offset_from_whole_seconds (zone_offset timezone value)) InvalidRequest in
  let? t := to_time value in
  Ok (to_offset t offset).

Definition zoned_midnight (timezone : Tz) (date : Date) : result PrepareScheduleError OffsetDateTime :=
  let? resolved := match local_midnight timezone date with
                   | Single value => Ok value
                   | Ambiguous first second => Ok (Z.min first second)
                   | NoTime => Err InvalidRequest
                   end in
  to_time_in_timezone resolved timezone.

Definition local_date_in_timezone (value : OffsetDateTime) (timezone : Tz) : result PrepareScheduleError Date :=
  let? utc := ok_or (instant_of_odt value) InvalidRequest in Ok (local_date timezone utc).

Definition time_date (value : Date) : result PrepareScheduleError Date := ok_or (date_of_naive value) InvalidRequest.

(** ** Canonical items *)

Abbreviation CanonicalItem := ItemWire.

Definition with_structure (w : CanonicalItem) (kind : DurationKind) (minimum maximum : option N) (source : option DurationSource)
    (deadline : DeadlineKind) (strength : option DeadlineStrength) (effort : bool) : CanonicalItem :=
  let f := iw_fields w in
  {| iw_id := iw_id w;
     iw_fields :=
       {| if_is_sensitive := if_is_sensitive f; if_kind := if_kind f; if_status := if_status f; if_title := if_title f;
          if_notes := if_notes f; if_timezone_name := if_timezone_name f; if_duration_kind := Some kind;
          if_duration_seconds := if_duration_seconds f; if_duration_min_seconds := minimum; if_duration_max_seconds := maximum;
          if_duration_source := source; if_deadline_kind := Some deadline; if_deadline_date := if_deadline_date f;
          if_deadline_at := if_deadline_at f; if_deadline_strength := strength; if_deadline_soft_weight := if_deadline_soft_weight f;
          if_earliest_start_at := if_earliest_start_at f; if_recurrence := if_recurrence f;
          if_flexible_constraints := if_flexible_constraints f; if_has_own_effort := Some effort; if_split_policy := if_split_policy f;
          if_importance := if_importance f; if_urgency := if_urgency f; if_parent_id := if_parent_id f;
          if_sibling_order := if_sibling_order f; if_blocked_reason_kind := if_blocked_reason_kind f;
          if_blocked_by_item_id := if_blocked_by_item_id f; if_blocked_reason := if_blocked_reason f |};
     iw_is_executable := iw_is_executable w; iw_revision := iw_revision w; iw_created_at := iw_created_at w;
     iw_updated_at := iw_updated_at w; iw_completed_at := iw_completed_at w; iw_deleted_at := iw_deleted_at w |}.

(** The kind, minimum, maximum and source of a duration *)
Definition legacy_duration (w : CanonicalItem) : result PrepareScheduleError (DurationKind * option N * option N * option DurationSource) :=
  let f := iw_fields w in
  match if_duration_kind f with
  | Some kind => Ok (kind, if_duration_min_seconds f, if_duration_max_seconds f, if_duration_source f)
  | None =>
      if is_some (if_duration_min_seconds f) || is_some (if_duration_max_seconds f) || is_some (if_duration_source f)
      then Err (InvalidCanonicalItem (iw_id w))
      else match if_duration_seconds f with
           | Some expected => Ok (DurationKind.Exact, Some expected, Some expected,
               Some (if has_legacy_import_evidence (if_flexible_constraints f) then DurationSource.Imported else DurationSource.User))
           | None => Ok (DurationKind.Unknown, None, None, None)
           end
  end.

Definition legacy_deadline (w : CanonicalItem) : result PrepareScheduleError (DeadlineKind * option DeadlineStrength) :=
  let f := iw_fields w in
  match if_deadline_kind f with
  | Some kind => Ok (kind, if_deadline_strength f)
  | None =>
      if is_some (if_deadline_date f) || is_some (if_deadline_strength f) || is_some (if_deadline_soft_weight f)
      then Err (InvalidCanonicalItem (iw_id w))
      else if bool_decide (if_kind f = ItemKind.Event) || negb (is_some (if_deadline_at f)) then Ok (DeadlineKind.None_, None)
      else Ok (DeadlineKind.DateTime_, Some DeadlineStrength.Hard)
  end.

Definition legacy_effort (w : CanonicalItem) : result PrepareScheduleError bool :=
  let f := iw_fields w in
  let? legacy := match value_get (if_flexible_constraints f) "has_own_effort" with
                 | Some value => let? b := ok_or (value_as_bool value) (InvalidCanonicalItem (iw_id w)) in Ok (Some b)
                 | None => Ok None
                 end in
  match if_has_own_effort f, legacy with
  | Some explicit, Some legacy => if Bool.eqb explicit legacy then Ok explicit else Err (InvalidCanonicalItem (iw_id w))
  | Some b, None | None, Some b => Ok b
  | None, None => Ok false
  end.

Definition normalize_legacy_structural_fields (w : CanonicalItem) : result PrepareScheduleError CanonicalItem :=
  let? (kind, minimum, maximum, source) := legacy_duration w in
  let? (deadline, strength) := legacy_deadline w in
  let? effort := legacy_effort w in
  Ok (with_structure w kind minimum maximum source deadline strength effort).

(** The normalised kinds and flag *)
Definition duration_kind_of_item (w : CanonicalItem) : DurationKind := default DurationKind.Unknown (if_duration_kind (iw_fields w)).
Definition deadline_kind_of_item (w : CanonicalItem) : DeadlineKind := default DeadlineKind.None_ (if_deadline_kind (iw_fields w)).
Definition own_effort_of_item (w : CanonicalItem) : bool := default false (if_has_own_effort (iw_fields w)).

Definition canonical_duration_is_valid (w : CanonicalItem) : bool :=
  let f := iw_fields w in
  match duration_kind_of_item w with
  | DurationKind.Unknown =>
      negb (is_some (if_duration_seconds f)) && negb (is_some (if_duration_min_seconds f)) && negb (is_some (if_duration_max_seconds f)) &&
      negb (is_some (if_duration_source f))
  | DurationKind.Exact =>
      match if_duration_seconds f with
      | Some expected =>
          bounded_seconds expected && bool_decide (if_duration_min_seconds f = Some expected) &&
          bool_decide (if_duration_max_seconds f = Some expected) && is_some (if_duration_source f)
      | None => false
      end
  | DurationKind.Range =>
      match if_duration_min_seconds f, if_duration_seconds f, if_duration_max_seconds f with
      | Some minimum, Some expected, Some maximum =>
          bounded_seconds minimum && bounded_seconds expected && bounded_seconds maximum && (minimum <=? expected)%N &&
          (expected <=? maximum)%N && (minimum <? maximum)%N && is_some (if_duration_source f)
      | _, _, _ => false
      end
  end.

Definition deadline_strength_is_valid (f : ItemFields) (required : bool) : bool :=
  match if_deadline_strength f with
  | None => negb required && negb (is_some (if_deadline_soft_weight f))
  | Some DeadlineStrength.Hard => required && negb (is_some (if_deadline_soft_weight f))
  | Some DeadlineStrength.Soft =>
      required && match if_deadline_soft_weight f with Some weight => (weight <=? MAX_WEIGHT)%N | None => false end
  end.

Definition canonical_deadline_is_valid (w : CanonicalItem) : bool :=
  let f := iw_fields w in
  match deadline_kind_of_item w with
  | DeadlineKind.None_ =>
      negb (is_some (if_deadline_date f)) && deadline_strength_is_valid f false &&
      (negb (is_some (if_deadline_at f)) || bool_decide (if_kind f = ItemKind.Event))
  | DeadlineKind.Date_ =>
      match if_deadline_date f with Some date => deadline_date_ok date | None => false end &&
      negb (is_some (if_deadline_at f)) && deadline_strength_is_valid f true && negb (bool_decide (if_kind f = ItemKind.Event))
  | DeadlineKind.DateTime_ =>
      negb (is_some (if_deadline_date f)) && is_some (if_deadline_at f) && deadline_strength_is_valid f true &&
      negb (bool_decide (if_kind f = ItemKind.Event))
  end.

Definition effective_deadline (w : CanonicalItem) (timezone : option Tz) : option OffsetDateTime :=
  let f := iw_fields w in
  match deadline_kind_of_item w with
  | DeadlineKind.None_ => None
  | DeadlineKind.Date_ =>
      date ← if_deadline_date f; next ← naive_succ date; timezone ← timezone;
      match zoned_midnight timezone next with Ok t => Some t | Err _ => None end
  | DeadlineKind.DateTime_ => at_ ← if_deadline_at f; odt_of_instant at_
  end.

Definition earliest_precedes_deadline (w : CanonicalItem) (timezone : option Tz) : bool :=
  match if_earliest_start_at (iw_fields w) with
  | None => true
  | Some earliest =>
      bool_decide (deadline_kind_of_item w = DeadlineKind.None_) ||
      match effective_deadline w timezone, odt_of_instant earliest with
      | Some deadline, Some earliest => odt_ltb earliest deadline
      | _, _ => false
      end
  end.

Definition own_effort_is_valid (f : ItemFields) : bool :=
  match value_get (if_flexible_constraints f) "has_own_effort" with
  | None => true
  | Some value => match value_as_bool value with Some b => bool_decide (Some b = if_has_own_effort f) | None => false end
  end.

Definition blocked_reason_is_valid (reason : option string) : bool :=
  match reason with
  | None => true
  | Some reason =>
      negb (bool_decide (reason = EmptyString)) && bool_decide (reason = trim_str reason) &&
      (length (chars reason) <=? MAX_BLOCKED_REASON_CHARACTERS)%nat && negb (existsb is_control_range (chars reason))
  end.

Definition canonical_blocker_is_valid (w : CanonicalItem) : bool :=
  let f := iw_fields w in
  match if_status f, if_blocked_reason_kind f, if_blocked_by_item_id f, if_blocked_reason f with
  | ItemStatus.Blocked, Some BlockedReasonKind.Dependency, Some blocker_id, _ =>
      negb (blocker_id =? iw_id w)%N && blocked_reason_is_valid (if_blocked_reason f)
  | ItemStatus.Blocked, Some (BlockedReasonKind.Manual | BlockedReasonKind.External), None, Some _ =>
      blocked_reason_is_valid (if_blocked_reason f)
  | status, None, None, None => negb (bool_decide (status = ItemStatus.Blocked))
  | _, _, _, _ => false
  end.

Definition canonical_item_is_valid (w : CanonicalItem) : bool :=
  let f := iw_fields w in
  let timezone := tz_from_str (if_timezone_name f) in
  negb (is_some (iw_deleted_at w)) && (0 <? iw_revision w)%N && negb (bool_decide (if_title f = EmptyString)) &&
  bool_decide (if_title f = trim_str (if_title f)) && (length (chars (if_title f)) <=? MAX_BLOCK_TITLE_CHARACTERS)%nat &&
  match if_notes f with Some notes => (length (chars notes) <=? MAX_NOTES_CHARACTERS)%nat | None => true end &&
  is_some timezone && canonical_duration_is_valid w && canonical_deadline_is_valid w && own_effort_is_valid f &&
  canonical_blocker_is_valid w && earliest_precedes_deadline w timezone &&
  match if_recurrence f with Some value => within_length MAX_RECURRENCE_BYTES value | None => true end &&
  within_length MAX_SCHEDULING_METADATA_BYTES (if_flexible_constraints f) &&
  split_policy_valid (if_split_policy f) (if_duration_seconds f) &&
  (if_importance f <=? 100)%N && (if_urgency f <=? 100)%N && (if_sibling_order f <=? MAX_SIBLING_ORDER)%N.

Definition validate_canonical_item (w : CanonicalItem) : Checked := ensure (canonical_item_is_valid w) (InvalidCanonicalItem (iw_id w)).
End prepare.
