(* ===== verification/Classify.v ===== *)
(** * Classify: one stored item as planned work

    The part of crates/dayweave-compose/src/prepare.rs that looks at the
    items: the sensitivity an item inherits, the subtrees of the inbox, what an
    item is to the planner ([classify_item] and the functions it calls), and
    the items that are left without a parent.  A loop that the code bounds by
    its own state runs on fuel; Sensitivity and Prepared show that the fuel is
    enough. *)
From S2P Require Import Prelude Text Platform Civil Domain Rrule Rollup Decimal Progress Completion Session ItemDomain Metadata Prepare.
Import PrepareScheduleError.

(** ** Minutes, priorities and statuses *)

Definition seconds_to_minutes (seconds : N) : Minutes := (saturating_add u32_max seconds 59 / 60)%N.

Definition u8_max : N := 255.

Definition normalize_priority (value : N) : N := (saturating_add u8_max value 9 / 10)%N.

Definition map_status (status : ItemStatus) : WorkStatus :=
  match status with
  | ItemStatus.Inbox | ItemStatus.Planned => WorkStatus.NotStarted
  | ItemStatus.Scheduled => WorkStatus.Scheduled
  | ItemStatus.InProgress => WorkStatus.Active
  | ItemStatus.Paused => WorkStatus.Paused
  | ItemStatus.Completed => WorkStatus.Completed
  | ItemStatus.Skipped => WorkStatus.Skipped
  | ItemStatus.Cancelled => WorkStatus.Canceled
  | ItemStatus.Blocked => WorkStatus.Blocked
  end.

Definition map_source (source : DurationSource) : EstimateSource :=
  match source with
  | DurationSource.User => User
  | DurationSource.Assistant => Ai
  | DurationSource.Learned => Learned
  | DurationSource.Imported => Imported
  end.

Inductive MappedScheduleItem : Type :=
| Plannable (item : WorkItem)
| ContextOnly.

Section classify.
Context `{ItemFormats, !MetadataFormats, Platform, Civil, !ComposeTime}.

(** ** Sensitivity *)

Definition canonical_by_id (items : list ItemWire) : gmap Uuid ItemWire := foldl (λ m w, <[iw_id w := w]> m) ∅ items.

(** The [loop] that follows the parents of an item: whether what it ends at is
    sensitive, and the items passed, the last one first *)
Fixpoint sensitivity_path (fuel : nat) (by_id : gmap Uuid ItemWire) (resolved : gmap Uuid bool) (visiting : gset Uuid)
    (path : list Uuid) (current : option Uuid) : bool * list Uuid :=
  match fuel with
  | 0 => (true, path)
  | S fuel =>
      match current with
      | None => (false, path)
      | Some id =>
          match resolved !! id, by_id !! id with
          | Some value, _ => (value, path)
          | None, None => (true, path)
          | None, Some item =>
              if bool_decide (id ∈ visiting) then (true, path)
              else sensitivity_path fuel by_id resolved ({[id]} ∪ visiting) (id :: path) (if_parent_id (iw_fields item))
          end
      end
  end.

Definition resolve_step (by_id : gmap Uuid ItemWire) (state : bool * gmap Uuid bool) (id : Uuid) : bool * gmap Uuid bool :=
  let (inherited, resolved) := state in
  let value := match by_id !! id with Some item => if_is_sensitive (iw_fields item) || inherited | None => true end in
  (value, <[id := value]> resolved).

Definition resolve_start (by_id : gmap Uuid ItemWire) (resolved : gmap Uuid bool) (start : Uuid) : gmap Uuid bool :=
  if is_some (resolved !! start) then resolved
  else
    let (inherited, path) := sensitivity_path (S (S (size by_id))) by_id resolved ∅ [] (Some start) in
    (foldl (resolve_step by_id) (inherited, resolved) path).2.

Definition effective_sensitivity_by_item (items : list ItemWire) : gmap Uuid bool :=
  let by_id := canonical_by_id items in foldl (resolve_start by_id) ∅ (keys by_id).

(** ** The inbox *)

(** [children_by_parent], with the children sorted *)
Definition inbox_children (items : list ItemWire) : gmap Uuid (list Uuid) :=
  sort_by N.leb <$> foldl (λ m w, match if_parent_id (iw_fields w) with
                                  | Some parent => <[parent := default [] (m !! parent) ++ [iw_id w]]> m
                                  | None => m
                                  end) ∅ items.

(** [if excluded.insert(id) { frontier.push_back(id) }] *)
Definition exclude (state : gset Uuid * list Uuid) (id : Uuid) : gset Uuid * list Uuid :=
  let (excluded, frontier) := state in
  if bool_decide (id ∈ excluded) then state else ({[id]} ∪ excluded, frontier ++ [id]).

Definition inbox_roots (items : list ItemWire) : list Uuid :=
  iw_id <$> filter (λ w, if_status (iw_fields w) = ItemStatus.Inbox) items.

Fixpoint exclude_descendants (rounds : nat) (children : gmap Uuid (list Uuid)) (state : gset Uuid * list Uuid)
    : gset Uuid * list Uuid :=
  match rounds with
  | 0 => state
  | S rounds =>
      match state with
      | (excluded, []) => state
      | (excluded, parent :: frontier) =>
          exclude_descendants rounds children (foldl exclude (excluded, frontier) (default [] (children !! parent)))
      end
  end.

(** The excluded items and the frontier after the loop *)
Definition inbox_exclusion (items : list ItemWire) : gset Uuid * list Uuid :=
  exclude_descendants (length items) (inbox_children items) (foldl exclude (∅, []) (inbox_roots items)).

Definition inbox_subtree_item_ids (items : list ItemWire) : gset Uuid := (inbox_exclusion items).1.

(** ** Mapping an item *)

Definition rejected_time {A} (m : result PrepareScheduleError A) : result Rejection A := map_err (λ _, TimeRejected) m.

Definition reject_recurrence (recurrence : option Recurrence) (kind : string) : result Rejection unit :=
  ensure (negb (is_some recurrence)) (RecurrenceUnsupported kind).

Definition map_split_policy (policy : ItemDomain.SplitPolicy) (m : Metadata) : Domain.SplitPolicy :=
  match policy with
  | SplitPolicy.Indivisible => Domain.Indivisible
  | SplitPolicy.Splittable minimum maximum =>
      Domain.Splittable (seconds_to_minutes minimum) (seconds_to_minutes maximum) (default u16_max (md_maximum_sessions m))
        (md_minimum_gap_minutes m) (md_maximum_split_days m)
  end.

Definition map_duration (w : ItemWire) : result Rejection (option DurationEstimate) :=
  let f := iw_fields w in
  let source := map_source <$> if_duration_source f in
  let estimate m := map_err DurationRejected (let? e := m in Ok (Some e)) in
  match duration_kind_of_item w with
  | DurationKind.Unknown => Ok None
  | DurationKind.Exact =>
      let? expected := ok_or (if_duration_seconds f) DurationIncomplete in
      let? source := ok_or source DurationSourceMissing in
      estimate (try_exact (seconds_to_minutes expected) source)
  | DurationKind.Range =>
      let? minimum := ok_or (if_duration_min_seconds f) DurationMinimumMissing in
      let? expected := ok_or (if_duration_seconds f) DurationExpectedMissing in
      let? maximum := ok_or (if_duration_max_seconds f) DurationMaximumMissing in
      let minimum := seconds_to_minutes minimum in
      let expected := seconds_to_minutes expected in
      let maximum := seconds_to_minutes maximum in
      let? source := ok_or source DurationSourceMissing in
      estimate (if (minimum =? maximum)%N then try_exact expected source else try_range minimum expected maximum source)
  end.

(** A soft deadline of an accepted item has a weight. *)
Definition deadline_strength_of (f : ItemFields) : result Rejection ConstraintStrength :=
  let? strength := ok_or (if_deadline_strength f) DeadlineStrengthMissing in
  Ok match strength with
     | DeadlineStrength.Hard => Domain.Hard
     | DeadlineStrength.Soft => Domain.Soft (default 0%N (if_deadline_soft_weight f))
     end.

Definition map_deadline (w : ItemWire) (timezone : Tz) : result Rejection (option (Qualified OffsetDateTime)) :=
  let f := iw_fields w in
  match deadline_kind_of_item w with
  | DeadlineKind.None_ => Ok None
  | DeadlineKind.Date_ =>
      let? date := ok_or (if_deadline_date f) DeadlineDateMissing in
      let? next_date := ok_or (naive_succ date) DeadlineDateOutOfRange in
      let? value := rejected_time (zoned_midnight timezone next_date) in
      let? strength := deadline_strength_of f in
      Ok (Some {| q_value := value; q_strength := strength |})
  | DeadlineKind.DateTime_ =>
      let? at_ := ok_or (if_deadline_at f) DeadlineInstantMissing in
      let? value := rejected_time (to_time_in_timezone at_ timezone) in
      let? strength := deadline_strength_of f in
      Ok (Some {| q_value := value; q_strength := strength |})
  end.

(** The constraints with another first instant, last instant and preferred days *)
Definition with_limits (c : SchedulingConstraints) (earliest latest : option (Qualified OffsetDateTime))
    (daily : list (Qualified DailyTimeWindow)) : SchedulingConstraints :=
  {| earliest_start := earliest; latest_finish := latest; minimum_notice := minimum_notice c;
     allowed_weekdays := allowed_weekdays c; preferred_daily_windows := daily;
     preferred_absolute_windows := preferred_absolute_windows c; forbidden_windows := forbidden_windows c;
     required_contexts := required_contexts c; required_location := required_location c; dependencies := dependencies c;
     maximum_daily_work := maximum_daily_work c; maximum_weekly_work := maximum_weekly_work c; buffers := buffers c;
     occurrence_window := occurrence_window c |}.

Definition add_earliest_start (w : ItemWire) (timezone : Tz) (c : SchedulingConstraints) : result Rejection SchedulingConstraints :=
  match if_earliest_start_at (iw_fields w) with
  | None => Ok c
  | Some earliest =>
      let? _ := ensure (negb (is_some (earliest_start c))) EarliestDefinedTwice in
      let? value := rejected_time (to_time_in_timezone earliest timezone) in
      Ok (with_limits c (Some {| q_value := value; q_strength := Domain.Hard |}) (latest_finish c) (preferred_daily_windows c))
  end.

Definition add_deadline (w : ItemWire) (timezone : Tz) (c : SchedulingConstraints) : result Rejection SchedulingConstraints :=
  let? deadline := map_deadline w timezone in
  match deadline with
  | None => Ok c
  | Some deadline =>
      let? _ := ensure (negb (is_some (latest_finish c))) DeadlineDefinedTwice in
      Ok (with_limits c (earliest_start c) (Some deadline) (preferred_daily_windows c))
  end.

Definition add_legacy_preferred_window (c : SchedulingConstraints) (start_minute : N) (duration : option DurationEstimate)
    (duration_seconds : option N) : result Rejection SchedulingConstraints :=
  let? _ := ensure (start_minute <=? 1439)%N PreferredStartInvalid in
  let duration_minutes := match duration with Some value => de_expected value | None => 1%N end in
  let end_ := saturating_add u32_max start_minute duration_minutes in
  let? _ := ensure (negb ((1440 <? end_)%N || negb (is_some duration_seconds))) PreferredStartNeedsDuration in
  Ok (with_limits c (earliest_start c) (latest_finish c)
        (preferred_daily_windows c ++
         [{| q_value := {| dw_weekdays := ∅; dw_start_minute := start_minute; dw_end_minute := end_ |}; q_strength := Domain.Soft 100 |}])).

Definition add_preferred_start (m : Metadata) (duration : option DurationEstimate) (duration_seconds : option N)
    (c : SchedulingConstraints) : result Rejection SchedulingConstraints :=
  match md_preferred_start_minute m with
  | Some preferred_start => add_legacy_preferred_window c preferred_start duration duration_seconds
  | None => Ok c
  end.

Definition map_event (m : Metadata) : result Rejection CalendarEventSpec :=
  match md_calendar_event m, md_dayweave_firm_block m with
  | Some event, None => Ok event
  | None, Some firm => map_err MetadataRejected (as_calendar_event firm)
  | Some _, Some _ => Err EventMetadataCombined
  | None, None => Err EventMetadataMissing
  end.

Definition map_kind (kind : ItemDomain.ItemKind) (recurrence : option Recurrence) (m : Metadata) : result Rejection Domain.ItemKind :=
  match kind with
  | ItemKind.Event =>
      let? _ := ensure (negb (is_some recurrence)) EventRecurrence in
      let? event := map_event m in
      Ok (Domain.CalendarEvent event)
  | ItemKind.Task =>
      Ok match recurrence with Some r => Domain.RecurringTask {| rts_recurrence := r |} | None => Domain.Task end
  | ItemKind.Habit =>
      let? r := ok_or recurrence HabitNeedsRecurrence in
      Ok (Domain.Habit {| hs_recurrence := r; hs_target := md_habit_target m;
                          hs_preserves_streak_when_paused := md_preserves_streak_when_paused m;
                          hs_missed_policy := md_habit_missed_policy m; hs_minimum_spacing := md_habit_minimum_spacing_minutes m |})
  | ItemKind.Routine => Ok (Domain.Routine {| rs_ordered := md_routine_ordered m; rs_recurrence := recurrence |})
  | ItemKind.Goal =>
      let? _ := reject_recurrence recurrence "goal" in
      Ok (Domain.Goal {| gs_measures := md_goal_measures m; gs_weekly_allocation := md_goal_weekly_allocation m |})
  | ItemKind.Project => let? _ := reject_recurrence recurrence "project" in Ok Domain.Project
  | ItemKind.Break =>
      let? _ := reject_recurrence recurrence "break" in
      Ok (Domain.Break {| bs_category := default Domain.Other (md_break_category m); bs_mandatory := md_break_mandatory m;
                          bs_prompt_to_resume := md_break_prompt_to_resume m |})
  end.

Definition classify_input (w : ItemWire) : SchedulingMetadataInput :=
  let f := iw_fields w in
  {| sm_item_id := iw_id w; sm_kind := if_kind f; sm_status := if_status f; sm_timezone_name := if_timezone_name f;
     sm_duration_seconds := if_duration_seconds f; sm_deadline_at := if_deadline_at f;
     sm_earliest_start_at := if_earliest_start_at f; sm_recurrence := if_recurrence f;
     sm_flexible_constraints := if_flexible_constraints f; sm_split_policy := if_split_policy f;
     sm_parent_id := if_parent_id f |}.

Definition check_custom_rule (recurrence : option Recurrence) (created_at : OffsetDateTime) (week_starts_on : DayOfWeek)
    : result Rejection unit :=
  match recurrence with
  | Some (Custom rrule) =>
      map_err CustomRuleRejected (validate_custom_rrule_for_anchor (bytes_of rrule) (odt_date created_at) week_starts_on)
  | _ => Ok tt
  end.

(** The work item of accepted metadata, from the duration on *)
Definition plannable_item (w : ItemWire) (is_sensitive : bool) (timezone : Tz) (m : Metadata) (recurrence : option Recurrence)
    (created_at : OffsetDateTime) : result Rejection WorkItem :=
  let f := iw_fields w in
  let? duration := map_duration w in
  let? constraints := add_earliest_start w timezone (md_constraints m) in
  let? constraints := add_deadline w timezone constraints in
  let? constraints := add_preferred_start m duration (if_duration_seconds f) constraints in
  let? kind := map_kind (if_kind f) recurrence m in
  let? updated_at := rejected_time (to_time_in_timezone (iw_updated_at w) timezone) in
  Ok {| wi_id := iw_id w;
        wi_is_sensitive := is_sensitive;
        wi_revision := iw_revision w;
        wi_title := if_title f;
        wi_kind := kind;
        wi_status := map_status (if_status f);
        wi_parent_id := if_parent_id f;
        wi_sibling_order := Some (if_sibling_order f);
        wi_has_own_effort := iw_is_executable w && own_effort_of_item w;
        wi_has_children_outside_plan := false;
        wi_goal_ids := md_goal_ids m;
        wi_priority := {| importance := normalize_priority (if_importance f); urgency := normalize_priority (if_urgency f) |};
        wi_duration := if bool_decide (if_kind f = ItemKind.Event) then None else duration;
        wi_constraints := constraints;
        wi_split_policy := map_split_policy (if_split_policy f) m;
        wi_energy := into_qualified <$> md_energy m;
        wi_tags := md_tags m;
        wi_created_at := created_at;
        wi_updated_at := updated_at |}.

Definition classify_item (w : ItemWire) (is_sensitive : bool) (planning_timezone_name : string) (week_starts_on : DayOfWeek)
    : result Rejection MappedScheduleItem :=
  let f := iw_fields w in
  let? timezone := ok_or (tz_from_str (if_timezone_name f)) ItemTimezoneInvalid in
  let? validated := map_err MetadataRejected (validated_metadata (classify_input w)) in
  let m := vm_metadata validated in
  let recurrence := vm_recurrence validated in
  let? _ := ensure (negb (is_some recurrence && negb (bool_decide (if_timezone_name f = planning_timezone_name)))) TimezoneMismatch in
  let? created_at := rejected_time (to_time_in_timezone (iw_created_at w) timezone) in
  let? _ := check_custom_rule recurrence created_at week_starts_on in
  if is_some (md_calendar_context m) then Ok ContextOnly
  else
    let? item := plannable_item w is_sensitive timezone m recurrence created_at in
    Ok (Plannable item).

(** ** Items left without a parent *)

Definition with_children_outside (item : WorkItem) (outside : bool) : WorkItem :=
  {| wi_id := wi_id item; wi_is_sensitive := wi_is_sensitive item; wi_revision := wi_revision item; wi_title := wi_title item;
     wi_kind := wi_kind item; wi_status := wi_status item; wi_parent_id := wi_parent_id item;
     wi_sibling_order := wi_sibling_order item; wi_has_own_effort := wi_has_own_effort item;
     wi_has_children_outside_plan := outside; wi_goal_ids := wi_goal_ids item; wi_priority := wi_priority item;
     wi_duration := wi_duration item; wi_constraints := wi_constraints item; wi_split_policy := wi_split_policy item;
     wi_energy := wi_energy item; wi_tags := wi_tags item; wi_created_at := wi_created_at item; wi_updated_at := wi_updated_at item |}.

Definition preserve_omitted_child_topology (items : list WorkItem) (source : list ItemWire) : list WorkItem :=
  let included : gset ItemId := list_to_set (wi_id <$> items) in
  let omitted_child_parents : gset Uuid :=
    list_to_set (omap (λ child, if_parent_id (iw_fields child)) (filter (λ child, iw_id child ∉ included) source)) in
  (λ item, with_children_outside item (bool_decide (wi_id item ∈ omitted_child_parents))) <$> items.
End classify.

(** The children of a parent, as a set *)
Definition work_children (items : list WorkItem) : gmap ItemId (gset ItemId) :=
  foldl (λ m item, match wi_parent_id item with
                   | Some parent => <[parent := {[wi_id item]} ∪ default ∅ (m !! parent)]> m
                   | None => m
                   end) ∅ items.

(** The items whose parent is not among them *)
Definition orphans (items : list WorkItem) : gset ItemId :=
  let all_ids : gset ItemId := list_to_set (wi_id <$> items) in
  list_to_set (omap (λ item, parent ← wi_parent_id item; if bool_decide (parent ∈ all_ids) then None else Some (wi_id item)) items).

Definition rejected_orphan (item : WorkItem) (parent : ItemId) : RejectedScheduleItem :=
  {| rj_item_id := wi_id item; rj_is_sensitive := wi_is_sensitive item; rj_title := wi_title item;
     rj_reason := ParentUnavailable parent |}.

(** [while let Some(item_id) = frontier.pop_first()] *)
Fixpoint prune_loop (fuel : nat) (children : gmap ItemId (gset ItemId)) (frontier : gset ItemId) (retained : gmap ItemId WorkItem)
    (rejected : list RejectedScheduleItem) : gmap ItemId WorkItem * list RejectedScheduleItem :=
  match fuel with
  | 0 => (retained, rejected)
  | S fuel =>
      match pop_first frontier with
      | None => (retained, rejected)
      | Some (item_id, frontier) =>
          match retained !! item_id with
          | None => prune_loop fuel children frontier retained rejected
          | Some item =>
              match wi_parent_id item with
              | None => prune_loop fuel children frontier (delete item_id retained) rejected
              | Some parent =>
                  prune_loop fuel children (default ∅ (children !! item_id) ∪ frontier) (delete item_id retained)
                    (rejected ++ [rejected_orphan item parent])
              end
          end
      end
  end.

Definition prune_orphaned_items (items : list WorkItem) (rejected : list RejectedScheduleItem)
    : list WorkItem * list RejectedScheduleItem :=
  let (retained, rejected) := prune_loop (S (length items)) (work_children items) (orphans items) (collect_by_id items) rejected in
  (values retained, rejected).
