(* ===== verification/Compose.v ===== *)
(** * Compose: the planning request of a snapshot

    [prepare_canonical_schedule] of crates/dayweave-compose/src/prepare.rs and
    the functions it calls on the request: recurrence references, previous and
    manual assignments, availability, fixed blocks and the recurrence
    calendar.  The calendar loop runs on fuel, which the code's own bound of
    [MAX_CALENDAR_DAYS] days never lets it use up. *)
From S2P Require Import Prelude Text Platform Civil Domain Rrule Rollup Decimal Progress Completion Session ItemDomain Metadata Prepare Classify.
Import PrepareScheduleError.

(** [collect::<Result<Vec<_>, _>>()] *)
Fixpoint traverse {E A B} (f : A → result E B) (l : list A) : result E (list B) :=
  match l with
  | [] => Ok []
  | a :: l => let? b := f a in let? bs := traverse f l in Ok (b :: bs)
  end.

Section compose.
Context `{ItemFormats, !MetadataFormats, Platform, Civil, !ComposeTime}.

(** ** Recurrence references *)

Definition validate_recurrence_context_references (context : RecurrenceContext) (revisions : gmap ItemId N)
    : result PrepareScheduleError unit :=
  let referenced : gset ItemId :=
    dom (rctx_completion_anchors context) ∪ dom (rctx_rolling_anchors context) ∪ dom (rctx_minimum_spacing context) ∪
    list_to_set (rpz_item_id <$> rctx_pauses context) ∪ list_to_set (rx_item_id <$> rctx_exceptions context) in
  valid_if (forallb (λ id, is_some (revisions !! id)) (set_elems referenced)).

Definition with_entries (c : RecurrenceContext) (completion rolling : gmap ItemId OffsetDateTime) (spacing : gmap ItemId Minutes)
    (pauses : list RecurrencePause) (exceptions : list RecurrenceException) : RecurrenceContext :=
  {| rctx_calendar := rctx_calendar c; rctx_completion_anchors := completion; rctx_rolling_anchors := rolling;
     rctx_minimum_spacing := spacing; rctx_completed_occurrence_ids := rctx_completed_occurrence_ids c;
     rctx_partial_progress := rctx_partial_progress c; rctx_pauses := pauses; rctx_exceptions := exceptions |}.

Definition remove_inbox_subtree_recurrence_references (c : RecurrenceContext) (inbox : gset Uuid) : RecurrenceContext :=
  let retained {V} (m : gmap ItemId V) := filter (λ entry, entry.1 ∉ inbox) m in
  with_entries c (retained (rctx_completion_anchors c)) (retained (rctx_rolling_anchors c)) (retained (rctx_minimum_spacing c))
    (filter (λ pause, rpz_item_id pause ∉ inbox) (rctx_pauses c)) (filter (λ e, rx_item_id e ∉ inbox) (rctx_exceptions c)).

(** ** Assignments *)

Definition map_block (timezone : Tz) (b : PreviousBlockInput) : result PrepareScheduleError PreviousBlock :=
  let? start := to_time_in_timezone (bi_start b) timezone in
  let? end_ := to_time_in_timezone (bi_end b) timezone in
  Ok {| pb_start := start; pb_end := end_; pb_session_index := bi_session_index b |}.

Definition Identity : Type := ItemId * option OccurrenceId.

Definition assignment_identity (a : PreviousAssignment) : Identity := (pa_item_id a, pa_occurrence_id a).

(** What [map_previous_assignments] has seen, accepted and ignored *)
Record AssignmentLoop : Type := {
  al_seen : gset Identity;
  al_accepted : list PreviousAssignment;
  al_ignored : list IgnoredPreviousAssignment
}.

Definition map_previous_assignment (revisions : gmap ItemId N) (timezone : Tz) (loop : AssignmentLoop) (a : PreviousAssignmentInput)
    : result PrepareScheduleError AssignmentLoop :=
  let identity := (pai_item_id a, pai_occurrence_id a) in
  let? _ := valid_if (negb (bool_decide (identity ∈ al_seen loop))) in
  let seen := {[identity]} ∪ al_seen loop in
  let current_revision := revisions !! pai_item_id a in
  if negb (bool_decide (current_revision = Some (pai_item_revision a))) then
    Ok {| al_seen := seen; al_accepted := al_accepted loop;
          al_ignored := al_ignored loop ++ [{| ig_item_id := pai_item_id a; ig_requested_revision := pai_item_revision a;
                                               ig_current_revision := current_revision |}] |}
  else
    let? blocks := traverse (map_block timezone) (pai_blocks a) in
    Ok {| al_seen := seen;
          al_accepted := al_accepted loop ++ [{| pa_item_id := pai_item_id a; pa_occurrence_id := pai_occurrence_id a;
                                                 pa_blocks := blocks; pa_pinned := pai_pinned a; pa_manual_placement_id := None |}];
          al_ignored := al_ignored loop |}.

Definition map_previous_assignments (assignments : list PreviousAssignmentInput) (revisions : gmap ItemId N) (timezone : Tz)
    : result PrepareScheduleError (list PreviousAssignment * list IgnoredPreviousAssignment) :=
  let? loop := foldM (map_previous_assignment revisions timezone) {| al_seen := ∅; al_accepted := []; al_ignored := [] |} assignments in
  Ok (al_accepted loop, al_ignored loop).

(** One assignment of a manual placement replaces the one of its identity. *)
Definition map_manual_assignment (revisions : gmap ItemId N) (timezone : Tz) (placement_id : Uuid)
    (assignments : list PreviousAssignment) (requested : ManualPlacementAssignmentInput)
    : result PrepareScheduleError (list PreviousAssignment) :=
  let? _ := valid_if (bool_decide (revisions !! mai_item_id requested = Some (mai_item_revision requested))) in
  let identity := (mai_item_id requested, mai_occurrence_id requested) in
  let retained := filter (λ a, assignment_identity a ≠ identity) assignments in
  let? blocks := traverse (map_block timezone) (mai_blocks requested) in
  Ok (retained ++ [{| pa_item_id := mai_item_id requested; pa_occurrence_id := mai_occurrence_id requested; pa_blocks := blocks;
                      pa_pinned := true; pa_manual_placement_id := Some placement_id |}]).

Definition map_manual_placements (placements : list ManualPlacementInput) (revisions : gmap ItemId N) (timezone : Tz)
    (assignments : list PreviousAssignment) : result PrepareScheduleError (list PreviousAssignment) :=
  foldM (λ assignments placement,
    foldM (map_manual_assignment revisions timezone (mpi_id placement)) assignments (mpi_assignments placement))
    assignments placements.

(** ** Availability and fixed blocks *)

Definition map_availability (timezone : Tz) (input : AvailabilityInput) : result PrepareScheduleError AvailabilityWindow :=
  let? start := to_time_in_timezone (ai_start input) timezone in
  let? end_ := to_time_in_timezone (ai_end input) timezone in
  Ok {| av_start := start; av_end := end_; av_contexts := ai_contexts input; av_location := ai_location input;
        av_energy := ai_energy input |}.

Definition map_fixed_block (timezone : Tz) (input : FixedBlockInput) : result PrepareScheduleError FixedBlock :=
  let? start := to_time_in_timezone (fi_start input) timezone in
  let? end_ := to_time_in_timezone (fi_end input) timezone in
  Ok {| fb_id := fi_id input; fb_is_sensitive := fi_is_sensitive input; fb_title := fi_title input; fb_start := start;
        fb_end := end_; fb_source := fi_source input |}.

(** ** The recurrence calendar *)

(** The source of a move widens the dates the calendar must have. *)
Definition widen_bounds (timezone : Tz) (bounds : Date * Date) (e : RecurrenceException) : result PrepareScheduleError (Date * Date) :=
  match rx_action e with
  | ActionSkip => Ok bounds
  | ActionMove _ _ source =>
      let? _ := valid_if (negb (odt_leb (ms_nominal_end source) (ms_nominal_start source))) in
      let? end_inclusive := ok_or (odt_checked_sub (ms_nominal_end source) 1) InvalidRequest in
      let? source_first := local_date_in_timezone (ms_nominal_start source) timezone in
      let? source_last := local_date_in_timezone end_inclusive timezone in
      let? _ := valid_if match ms_local_date source with
                         | Some local_date => bool_decide (date_of_naive source_first = Some local_date)
                         | None => true
                         end in
      Ok (Z.min bounds.1 source_first, Z.max bounds.2 source_last)
  end.

Definition recurrence_calendar_date_bounds (context : RecurrenceContext) (timezone : Tz) (horizon_start horizon_end : DateTime)
    : result PrepareScheduleError (Date * Date) :=
  let? horizon_last := ok_or (datetime_checked_sub horizon_end 1) InvalidRequest in
  foldM (widen_bounds timezone) (local_date timezone horizon_start, local_date timezone horizon_last) (rctx_exceptions context).

(** [OffsetDateTime] equality looks at the instant only. *)
Definition same_time (a b : OffsetDateTime) : bool := odt_eqb a b && (utc_offset a =? utc_offset b)%Z.

Definition check_calendar_day (timezone : Tz) (day : ZonedDayBoundary) : result PrepareScheduleError unit :=
  let? date := ok_or (naive_of_date (zd_local_date day)) InvalidRequest in
  let? next_date := ok_or (naive_succ date) InvalidRequest in
  let? expected_start := zoned_midnight timezone date in
  let? expected_end := zoned_midnight timezone next_date in
  valid_if (same_time (zd_start day) expected_start && same_time (zd_end day) expected_end).

Definition check_calendar (timezone_name : string) (timezone : Tz) (calendar : RecurrenceCalendar) (first last : Date)
    : result PrepareScheduleError unit :=
  let? _ := valid_if match time_zone_id calendar with Some value => bool_decide (value = timezone_name) | None => true end in
  let? _ := forM (check_calendar_day timezone) (rc_days calendar) in
  let? first := time_date first in
  let? last := time_date last in
  valid_if (existsb (λ day, zd_local_date day =? first)%Z (rc_days calendar) && existsb (λ day, zd_local_date day =? last)%Z (rc_days calendar)).

(** The [loop] that generates the days from [date] on *)
Fixpoint generate_days (fuel : nat) (timezone : Tz) (last : Date) (horizon_end : DateTime) (date : Date) (days : list ZonedDayBoundary)
    : result PrepareScheduleError (list ZonedDayBoundary) :=
  match fuel with
  | 0 => Err InvalidRequest
  | S fuel =>
      let? next := ok_or (naive_succ date) InvalidRequest in
      let? start := zoned_midnight timezone date in
      let? end_ := zoned_midnight timezone next in
      let? _ := valid_if (negb (length days =? MAX_CALENDAR_DAYS)%nat) in
      let? local := time_date date in
      let days := days ++ [{| zd_local_date := local; zd_start := start; zd_end := end_ |}] in
      let? horizon := to_time horizon_end in
      if odt_leb horizon end_ && (last <=? date)%Z then Ok days
      else generate_days fuel timezone last horizon_end next days
  end.

Definition with_calendar (c : RecurrenceContext) (timezone_name : string) (days : list ZonedDayBoundary) : RecurrenceContext :=
  {| rctx_calendar := {| time_zone_id := Some timezone_name; week_starts_on := week_starts_on (rctx_calendar c); rc_days := days |};
     rctx_completion_anchors := rctx_completion_anchors c; rctx_rolling_anchors := rctx_rolling_anchors c;
     rctx_minimum_spacing := rctx_minimum_spacing c; rctx_completed_occurrence_ids := rctx_completed_occurrence_ids c;
     rctx_partial_progress := rctx_partial_progress c; rctx_pauses := rctx_pauses c; rctx_exceptions := rctx_exceptions c |}.

Definition populate_recurrence_calendar (context : RecurrenceContext) (timezone_name : string) (horizon_start horizon_end : DateTime)
    : result PrepareScheduleError RecurrenceContext :=
  let? timezone := ok_or (tz_from_str timezone_name) InvalidRequest in
  let? (first, last) := recurrence_calendar_date_bounds context timezone horizon_start horizon_end in
  match rc_days (rctx_calendar context) with
  | [] =>
      let? days := generate_days (S MAX_CALENDAR_DAYS) timezone last horizon_end first [] in
      Ok (with_calendar context timezone_name days)
  | _ :: _ as days =>
      let? _ := check_calendar timezone_name timezone (rctx_calendar context) first last in
      Ok (with_calendar context timezone_name days)
  end.

(** ** The schedule *)

(** The items that [prepare_canonical_schedule] has seen *)
Record ItemLoop : Type := {
  il_accepted : list WorkItem;
  il_without_work : N;
  il_rejected : list RejectedScheduleItem
}.

Definition usize_max : N := u64_max.

Definition count_without_work (loop : ItemLoop) : result PrepareScheduleError ItemLoop :=
  let? count := ok_or (checked_add usize_max (il_without_work loop) 1) AccountingOverflow in
  Ok {| il_accepted := il_accepted loop; il_without_work := count; il_rejected := il_rejected loop |}.

Definition collect_item (request : ComposeScheduleRequest) (sensitivity : gmap Uuid bool) (inbox : gset Uuid) (loop : ItemLoop)
    (w : ItemWire) : result PrepareScheduleError ItemLoop :=
  if bool_decide (iw_id w ∈ inbox) then count_without_work loop
  else
    let is_sensitive := default true (sensitivity !! iw_id w) in
    match classify_item w is_sensitive (cr_timezone_name request)
            (week_starts_on (rctx_calendar (cr_recurrence_context request))) with
    | Ok (Plannable item) =>
        Ok {| il_accepted := il_accepted loop ++ [item]; il_without_work := il_without_work loop; il_rejected := il_rejected loop |}
    | Ok ContextOnly => count_without_work loop
    | Err reason =>
        Ok {| il_accepted := il_accepted loop; il_without_work := il_without_work loop;
              il_rejected := il_rejected loop ++ [{| rj_item_id := iw_id w; rj_is_sensitive := is_sensitive;
                                                     rj_title := if_title (iw_fields w); rj_reason := reason |}] |}
    end.

(** [windows(2)] *)
Fixpoint check_neighbours (items : list ItemWire) : result PrepareScheduleError unit :=
  match items with
  | a :: (b :: _) as rest =>
      let? _ := ensure (negb (iw_id a =? iw_id b)%N) (DuplicateCanonicalItem (iw_id a)) in check_neighbours rest
  | _ => Ok tt
  end.

(** The snapshot: normalised, ordered and valid *)
Definition canonical_items (source_items : list ItemWire) : result PrepareScheduleError (list ItemWire) :=
  let? _ := ensure (length source_items <=? MAX_CANONICAL_ITEMS)%nat TooManyItems in
  let? source_items := traverse normalize_legacy_structural_fields source_items in
  let source_items := sort_by (λ a b, iw_id a <=? iw_id b)%N source_items in
  let? _ := check_neighbours source_items in
  let? _ := forM validate_canonical_item source_items in
  Ok source_items.

(** The items of the plan, what was rejected, and the number without work *)
Record PlannedItems : Type := {
  pi_items : list WorkItem;
  pi_rejected : list RejectedScheduleItem;
  pi_without_work : N
}.

Definition planned_items (request : ComposeScheduleRequest) (source_items : list ItemWire) : result PrepareScheduleError PlannedItems :=
  let? loop := foldM (collect_item request (effective_sensitivity_by_item source_items) (inbox_subtree_item_ids source_items))
                 {| il_accepted := []; il_without_work := 0; il_rejected := [] |} source_items in
  let (accepted, rejected) := prune_orphaned_items (il_accepted loop) (il_rejected loop) in
  let accepted := preserve_omitted_child_topology accepted source_items in
  Ok {| pi_items := sort_by (λ a b, wi_id a <=? wi_id b)%N accepted;
        pi_rejected := sort_by (λ a b, rj_item_id a <=? rj_item_id b)%N rejected;
        pi_without_work := il_without_work loop |}.

Definition revisions_of (items : list WorkItem) : gmap ItemId N := foldl (λ m item, <[wi_id item := wi_revision item]> m) ∅ items.

Definition canonical_revisions (items : list ItemWire) : gmap Uuid N := foldl (λ m w, <[iw_id w := iw_revision w]> m) ∅ items.

Definition map_config (input : SchedulerConfigInput) : SchedulerConfig :=
  {| slot_granularity := sci_slot_granularity_minutes input; stability_weight := sci_stability_weight input;
     default_soft_weight := sci_default_soft_weight input |}.

(** The planning request of the planned items, and the previous assignments that are ignored *)
Definition plan_request_of (request : ComposeScheduleRequest) (inbox : gset Uuid) (accepted : list WorkItem)
    : result PrepareScheduleError (PlanRequest * list IgnoredPreviousAssignment) :=
  let revisions := revisions_of accepted in
  let context := remove_inbox_subtree_recurrence_references (cr_recurrence_context request) inbox in
  let? _ := validate_recurrence_context_references context revisions in
  let? timezone := ok_or (tz_from_str (cr_timezone_name request)) InvalidRequest in
  let? (previous, ignored) := map_previous_assignments (cr_previous_assignments request) revisions timezone in
  let? previous := map_manual_placements (cr_manual_placements request) revisions timezone previous in
  let? start := to_time_in_timezone (cr_horizon_start request) timezone in
  let? end_ := to_time_in_timezone (cr_horizon_end request) timezone in
  let? context := populate_recurrence_calendar context (cr_timezone_name request) (cr_horizon_start request) (cr_horizon_end request) in
  let? now := to_time_in_timezone (cr_as_of request) timezone in
  let? windows := traverse (map_availability timezone) (cr_availability request) in
  let? blocks := traverse (map_fixed_block timezone) (cr_fixed_blocks request) in
  Ok ({| as_of := now; horizon_start := start; horizon_end := end_; items := accepted; availability := windows;
         fixed_blocks := blocks; previous_assignments := previous; config := map_config (cr_config request);
         recurrence_context := context |}, ignored).

Definition prepare_canonical_schedule (source_items : list ItemWire) (request : ComposeScheduleRequest)
    : result PrepareScheduleError PreparedSchedule :=
  let? _ := validate_schedule_request request in
  let? source_items := canonical_items source_items in
  let? planned := planned_items request source_items in
  let? (plan_request, ignored) := plan_request_of request (inbox_subtree_item_ids source_items) (pi_items planned) in
  let? count := ok_or (checked_add usize_max (N.of_nat (length (items plan_request))) (pi_without_work planned)) AccountingOverflow in
  let? _ := ensure (bool_decide (checked_add usize_max count (N.of_nat (length (pi_rejected planned))) =
                                 Some (N.of_nat (length source_items)))) AccountingOverflow in
  Ok {| ps_timezone_name := cr_timezone_name request;
        ps_source_item_count := length source_items;
        ps_source_item_revisions := canonical_revisions source_items;
        ps_effective_sensitivity := effective_sensitivity_by_item source_items;
        ps_accepted_item_count := N.to_nat count;
        ps_rejected_items := pi_rejected planned;
        ps_ignored_previous_assignments := ignored;
        ps_manual_placements := cr_manual_placements request;
        ps_manual_placement_releases := cr_manual_placement_releases request;
        ps_plan_request := plan_request |}.
End compose.
