(* ===== verification/Sensitivity.v ===== *)
(** * Sensitivity: what a stored item takes from its ancestors

    Properties of the loops of Classify: the sensitivity of an item is that of
    its chain of ancestors, open only when the whole chain is; the subtrees of
    the inbox are found within one round per item; and pruning keeps exactly
    the items whose ancestors are all there. *)
From S2P Require Import Prelude Text Platform Civil Domain Rollup ItemDomain Metadata Prepare Classify.

(** ** Maps filled by a loop *)

Lemma distinct_key {A B} (f : A → B) l a b : NoDup (f <$> l) → a ∈ l → b ∈ l → f a = f b → a = b.
Proof.
  induction l as [|c l IH]; [set_solver|]. rewrite fmap_cons, NoDup_cons. intros [Hc Hnd] [->|Ha]%elem_of_cons [->|Hb]%elem_of_cons Hf.
  - done.
  - destruct Hc. rewrite Hf. by apply list_elem_of_fmap_2.
  - destruct Hc. rewrite <- Hf. by apply list_elem_of_fmap_2.
  - by apply IH.
Qed.

Section fill.
Context {A V : Type} (key : A → N) (value : A → V).

Definition fill (m : gmap N V) (l : list A) : gmap N V := foldl (λ m a, <[key a := value a]> m) m l.

Lemma fill_in l k v : fill ∅ l !! k = Some v → ∃ a, a ∈ l ∧ key a = k ∧ value a = v.
Proof.
  unfold fill. induction l as [|a l IH] using rev_ind; [done|]. rewrite foldl_app. simpl. rewrite lookup_insert.
  case_decide; [intros ?; simplify_eq; exists a; set_solver|]. intros (b & Hb & Hk & Hv)%IH. exists b. set_solver.
Qed.

Lemma fill_is_Some l k : is_Some (fill ∅ l !! k) ↔ k ∈ key <$> l.
Proof.
  unfold fill. induction l as [|a l IH] using rev_ind; [simpl; rewrite lookup_empty, elem_of_nil; split; [by intros []|done]|].
  rewrite foldl_app, fmap_app, elem_of_app, <- IH. simpl. rewrite list_elem_of_singleton, lookup_insert. case_decide; naive_solver eauto.
Qed.

Lemma fill_lookup l a : NoDup (key <$> l) → a ∈ l → fill ∅ l !! key a = Some (value a).
Proof.
  intros Hnd Ha. assert (Hk : key a ∈ key <$> l) by (apply list_elem_of_fmap; eauto).
  apply fill_is_Some in Hk as (v & Hv). destruct (fill_in l _ _ Hv) as (b & Hb & Hkey & Hval).
  by rewrite Hv, <- Hval, (distinct_key key l b a).
Qed.
End fill.

Lemma keys_of_values {V} (key : V → N) (m : gmap N V) : (∀ k v, m !! k = Some v → key v = k) → key <$> values m = keys m.
Proof.
  intros Hkey. unfold values. assert (Hl : ∀ k, k ∈ keys m → is_Some (m !! k)) by (intros k; apply elem_of_keys).
  induction (keys m) as [|k l IH]; [done|]. simpl. destruct (Hl k) as [v Hv]; [left|]. rewrite Hv. simpl.
  f_equal; [by apply Hkey|]. apply IH. intros x Hx. apply Hl. by right.
Qed.

(** ** Sensitivity *)

Section sensitivity.
Context `{ItemFormats}.
Implicit Types (by_id : gmap Uuid ItemWire) (resolved : gmap Uuid bool).

Lemma canonical_by_id_fill items : canonical_by_id items = fill iw_id id ∅ items.
Proof. done. Qed.

(** The chain of [n] items from [id] to a root is there, and none is sensitive. *)
Fixpoint open_within by_id (n : nat) (id : Uuid) : bool :=
  match n, by_id !! id with
  | S n, Some item =>
      negb (if_is_sensitive (iw_fields item)) &&
      match if_parent_id (iw_fields item) with Some parent => open_within by_id n parent | None => true end
  | _, _ => false
  end.

Definition open_item by_id (id : Uuid) : Prop := ∃ n, open_within by_id n id = true.

(** What an item inherits when its parent is [parent] *)
Definition open_parent by_id (parent : option Uuid) : Prop := match parent with Some p => open_item by_id p | None => True end.

Lemma open_item_step by_id id item : by_id !! id = Some item →
  open_item by_id id ↔ if_is_sensitive (iw_fields item) = false ∧ open_parent by_id (if_parent_id (iw_fields item)).
Proof.
  intros Hid. unfold open_item, open_parent. split.
  - intros ([|n] & Hn); [done|]. simpl in Hn. rewrite Hid in Hn. apply andb_true_iff in Hn as [Hs Hp].
    split; [by apply negb_true_iff|]. destruct (if_parent_id (iw_fields item)); [by exists n|done].
  - intros [Hs Hp]. destruct (if_parent_id (iw_fields item)) as [p|] eqn:E; [destruct Hp as (n & Hn); exists (S n)|exists 1];
      simpl; by rewrite Hid, Hs, E.
Qed.

Lemma open_item_present by_id id : open_item by_id id → is_Some (by_id !! id).
Proof. intros ([|n] & Hn); simpl in Hn; [done|]. by destruct (by_id !! id). Qed.

(** Each item of the list is the parent of the one after it. *)
Fixpoint linked by_id (path : list Uuid) : Prop :=
  match path with
  | x :: (y :: _) as rest => (∃ item, by_id !! y = Some item ∧ if_parent_id (iw_fields item) = Some x) ∧ linked by_id rest
  | _ => True
  end.

(** The parent of the first item of the list *)
Definition top by_id (path : list Uuid) (current : option Uuid) : Prop :=
  match path with x :: _ => ∃ item, by_id !! x = Some item ∧ if_parent_id (iw_fields item) = current | [] => True end.

Lemma linked_cons by_id path x : linked by_id path → top by_id path (Some x) → linked by_id (x :: path).
Proof. destruct path; [done|]. intros Hl Ht. by split. Qed.

(** Going down a chain, the number of items to the root shrinks. *)
Lemma open_descends by_id l x p n q : linked by_id (l ++ [p]) → head (l ++ [p]) = Some x → top by_id (l ++ [p]) (Some q) →
  open_within by_id n p = true → ∃ m, m < n ∧ open_within by_id m q = true.
Proof.
  revert x q. induction l as [|y l IH]; intros x q Hl Hh Ht Hn.
  - destruct n as [|n]; simpl in *; [done|]. destruct Ht as (item & Hp & Hq). rewrite Hp, Hq in Hn.
    apply andb_true_iff in Hn as [_ Hn]. exists n. split; [lia|done].
  - assert (Htop : linked by_id (l ++ [p]) ∧ top by_id (l ++ [p]) (Some y)) by (destruct l; simpl in *; naive_solver).
    destruct Htop as [Hl' Ht'].
    destruct (head (l ++ [p])) as [z|] eqn:Ez; [|by destruct l].
    destruct (IH z y Hl' eq_refl Ht' Hn) as (m & Hm & Hopen). destruct Ht as (item & Hy & Hq).
    destruct m as [|m]; [done|]. simpl in Hopen. rewrite Hy, Hq in Hopen. apply andb_true_iff in Hopen as [_ Hopen].
    exists m. split; [lia|done].
Qed.

Lemma cycle_not_open by_id path p : linked by_id path → top by_id path (Some p) → p ∈ path → ¬ open_item by_id p.
Proof.
  intros Hl Ht Hp (n & Hn). apply list_elem_of_split in Hp as (l1 & l2 & ->).
  assert (Hl1 : linked by_id (l1 ++ [p])).
  { clear Ht Hn. revert Hl. induction l1 as [|x [|y l1] IH]; [done|naive_solver|]. intros [Hx Hl]. split; [done|by apply IH]. }
  assert (Ht1 : top by_id (l1 ++ [p]) (Some p)) by (by destruct l1).
  destruct (head (l1 ++ [p])) as [x|] eqn:Ex; [|by destruct l1].
  induction (lt_wf n) as [n _ IH]. destruct (open_descends by_id l1 x p n p Hl1 Ex Ht1 Hn) as (m & Hm & Hopen). by apply (IH m).
Qed.

Definition resolved_ok by_id resolved : Prop :=
  ∀ id b, resolved !! id = Some b → is_Some (by_id !! id) ∧ (b = false ↔ open_item by_id id).

Lemma sensitivity_path_spec by_id resolved fuel visiting path current inherited path' :
  resolved_ok by_id resolved → linked by_id path → top by_id path current →
  (∀ x, x ∈ visiting ↔ x ∈ path) → visiting ⊆ dom by_id → size by_id < fuel + size visiting →
  sensitivity_path fuel by_id resolved visiting path current = (inherited, path') →
  linked by_id path' ∧ path' ⊆ elements (dom by_id) ∧ path `suffix_of` path' ∧
  ∃ q, top by_id path' q ∧ (inherited = false ↔ open_parent by_id q).
Proof.
  intros Hok. revert visiting path current.
  induction fuel as [|fuel IH]; intros visiting path current Hl Ht Hv Hsub Hfuel Heq.
  { apply subseteq_size in Hsub. rewrite size_dom in Hsub. lia. }
  assert (Hpath : path ⊆ elements (dom by_id)) by (intros x Hx%Hv; apply elem_of_elements; by apply Hsub).
  simpl in Heq. destruct current as [id|]; [|simplify_eq; split_and!; [done..|by exists None]].
  destruct (resolved !! id) as [value|] eqn:Er.
  { simplify_eq. split_and!; [done..|]. exists (Some id). split; [done|]. by apply Hok. }
  destruct (by_id !! id) as [item|] eqn:Ei.
  2: { simplify_eq. split_and!; [done..|]. exists (Some id). split; [done|]. split; [done|].
       intros []%open_item_present. congruence. }
  case_bool_decide as Hvisit.
  { simplify_eq. split_and!; [done..|]. exists (Some id). split; [done|]. split; [done|].
    apply Hv in Hvisit. intros Hopen. by destruct (cycle_not_open by_id path' id Hl Ht Hvisit). }
  apply IH in Heq as (Hl' & Hp' & Hsuf & Hq).
  - split_and!; [done..| |done]. etrans; [by exists [id]|done].
  - by apply linked_cons.
  - by exists item.
  - set_solver.
  - apply union_subseteq. split; [|done]. apply singleton_subseteq_l, elem_of_dom. eauto.
  - rewrite size_union by set_solver. rewrite size_singleton. lia.
Qed.

(** The items of a path are resolved from its top on. *)
Lemma resolve_path by_id path inherited resolved q :
  resolved_ok by_id resolved → linked by_id path → path ⊆ elements (dom by_id) → top by_id path q →
  (inherited = false ↔ open_parent by_id q) →
  let resolved' := (foldl (resolve_step by_id) (inherited, resolved) path).2 in
  resolved_ok by_id resolved' ∧ (∀ x, x ∈ path → is_Some (resolved' !! x)) ∧ ∀ x, is_Some (resolved !! x) → is_Some (resolved' !! x).
Proof.
  revert inherited resolved q. induction path as [|x path IH]; intros inherited resolved q Hok Hl Hsub Ht Hinh; simpl.
  { split_and!; [done|set_solver|done]. }
  destruct Ht as (item & Hx & <-). rewrite Hx.
  assert (Hvalue : if_is_sensitive (iw_fields item) || inherited = false ↔ open_item by_id x).
  { rewrite (open_item_step by_id x item Hx), orb_false_iff. naive_solver. }
  destruct (IH (if_is_sensitive (iw_fields item) || inherited)
    (<[x := if_is_sensitive (iw_fields item) || inherited]> resolved) (Some x)) as (Hok' & Hin & Hmono).
  - intros y b. rewrite lookup_insert. case_decide as Hy; [subst y; intros ?; simplify_eq; by eauto|by apply Hok].
  - by destruct path; [|apply Hl].
  - intros y Hy. apply Hsub. set_solver.
  - destruct path; [done|apply Hl].
  - done.
  - split_and!; [done| |].
    + intros y [->|Hy]%elem_of_cons; [apply Hmono; rewrite lookup_insert_eq; eauto|by apply Hin].
    + intros y Hy. apply Hmono. rewrite lookup_insert. case_decide; eauto.
Qed.

Lemma resolve_start_spec by_id resolved start :
  resolved_ok by_id resolved → is_Some (by_id !! start) →
  resolved_ok by_id (resolve_start by_id resolved start) ∧ is_Some (resolve_start by_id resolved start !! start) ∧
  ∀ x, is_Some (resolved !! x) → is_Some (resolve_start by_id resolved start !! x).
Proof.
  intros Hok (item & Hs). unfold resolve_start. destruct (resolved !! start) as [b|] eqn:Er; cbn [is_some]; [by rewrite Er; eauto|].
  assert (Hfuel : size by_id < S (size by_id)) by lia. remember (S (size by_id)) as fuel eqn:E. clear E.
  destruct (sensitivity_path _ _ _ _ _ _) as [inherited path] eqn:Ep.
  assert (Hstart : start ∈ path).
  { simpl in Ep. rewrite Er, Hs in Ep. case_bool_decide; [set_solver|].
    apply (sensitivity_path_spec by_id) in Ep as (_ & _ & [l ->] & _); [set_solver|done|done|by exists item|set_solver| |].
    - rewrite union_empty_r_L. apply singleton_subseteq_l, elem_of_dom. eauto.
    - rewrite union_empty_r_L, size_singleton. lia. }
  apply (sensitivity_path_spec by_id) in Ep as (Hl & Hsub & Hsuf & q & Ht & Hq); [|done|done|done|set_solver|set_solver|lia].
  destruct (resolve_path by_id path inherited resolved q) as (Hok' & Hin & Hmono); [done..|]. split_and!; auto.
Qed.

Lemma resolve_keys by_id l resolved : resolved_ok by_id resolved → (∀ x, x ∈ l → is_Some (by_id !! x)) →
  resolved_ok by_id (foldl (resolve_start by_id) resolved l) ∧
  (∀ x, x ∈ l ∨ is_Some (resolved !! x) → is_Some (foldl (resolve_start by_id) resolved l !! x)).
Proof.
  revert resolved. induction l as [|x l IH]; intros resolved Hok Hl; simpl; [split; [done|set_solver]|].
  destruct (resolve_start_spec by_id resolved x Hok) as (Hok' & Hx & Hmono); [apply Hl; left|].
  destruct (IH _ Hok') as [Hok'' Hin]; [intros y Hy; apply Hl; by right|].
  split; [done|]. intros y [[->|Hy]%elem_of_cons|Hy]; apply Hin; auto.
Qed.

(** Every item has a sensitivity, and it is open when its chain is. *)
Lemma effective_sensitivity_spec items id :
  (is_Some (effective_sensitivity_by_item items !! id) ↔ id ∈ iw_id <$> items) ∧
  (effective_sensitivity_by_item items !! id = Some false ↔ open_item (canonical_by_id items) id).
Proof.
  unfold effective_sensitivity_by_item.
  destruct (resolve_keys (canonical_by_id items) (keys (canonical_by_id items)) ∅) as [Hok Hin].
  { intros x b. by rewrite lookup_empty. }
  { intros x. by rewrite elem_of_keys. }
  set (resolved := foldl _ _ _) in *.
  assert (Hdom : is_Some (resolved !! id) ↔ is_Some (canonical_by_id items !! id)).
  { split; [intros (b & Hb); by apply (Hok id b)|]. intros Hid. apply Hin. left. by rewrite elem_of_keys. }
  split; [rewrite Hdom; apply fill_is_Some|]. split; [intros Hb; by apply (Hok id false)|].
  intros Hopen. destruct Hdom as [_ [b Hb]]; [by apply open_item_present|]. rewrite Hb. f_equal. by apply (Hok id b).
Qed.
End sensitivity.

(** ** The inbox *)

Section inbox.
Context `{ItemFormats}.

(** An item of the inbox, or below one *)
Inductive in_inbox (items : list ItemWire) : Uuid → Prop :=
| InboxItem w : w ∈ items → if_status (iw_fields w) = ItemStatus.Inbox → in_inbox items (iw_id w)
| InboxChild w parent : w ∈ items → if_parent_id (iw_fields w) = Some parent → in_inbox items parent → in_inbox items (iw_id w).

Lemma elem_of_inbox_children items p c :
  c ∈ default [] (inbox_children items !! p) ↔ ∃ w, w ∈ items ∧ iw_id w = c ∧ if_parent_id (iw_fields w) = Some p.
Proof.
  unfold inbox_children. rewrite lookup_fmap.
  enough (c ∈ default [] (foldl (λ (m : gmap Uuid (list Uuid)) w, match if_parent_id (iw_fields w) with
            | Some parent => <[parent := default [] (m !! parent) ++ [iw_id w]]> m | None => m end) ∅ items !! p) ↔
          ∃ w, w ∈ items ∧ iw_id w = c ∧ if_parent_id (iw_fields w) = Some p) as <-.
  { destruct (foldl _ _ _ !! p); simpl; [apply elem_of_sort_by|done]. }
  induction items as [|w items IH] using rev_ind; [simpl; rewrite lookup_empty; set_solver|].
  rewrite foldl_app. simpl. destruct (if_parent_id (iw_fields w)) as [q|] eqn:E; [|rewrite IH; set_solver].
  rewrite lookup_insert. case_decide as Hq; simpl; [subst q; rewrite elem_of_app, IH; set_solver|rewrite IH; set_solver].
Qed.

(** Excluding a list: what is new goes to the end of the frontier. *)
Lemma exclude_list l excluded frontier excluded' frontier' :
  foldl exclude (excluded, frontier) l = (excluded', frontier') → NoDup frontier → (∀ x, x ∈ frontier → x ∈ excluded) →
  NoDup frontier' ∧ (∀ x, x ∈ excluded' ↔ x ∈ excluded ∨ x ∈ l) ∧
  (∀ x, x ∈ frontier' ↔ x ∈ frontier ∨ (x ∈ excluded' ∧ x ∉ excluded)) ∧
  size excluded' + length frontier = size excluded + length frontier'.
Proof.
  revert excluded frontier. induction l as [|a l IH]; intros excluded frontier Heq Hnd Hin; simpl in Heq.
  { simplify_eq. split_and!; [done|set_solver|set_solver|done]. }
  case_bool_decide as Ha.
  { apply IH in Heq as (? & He & Hf & Hs); [|done..]. split_and!; [done|set_solver|set_solver|done]. }
  apply IH in Heq as (Hnd' & He & Hf & Hs).
  - rewrite size_union, size_singleton, length_app in Hs by set_solver. simpl in Hs.
    split_and!; [done|set_solver| |lia]. intros x. rewrite Hf, He. destruct (decide (x = a)); set_solver.
  - apply NoDup_app. split_and!; [done| |apply NoDup_singleton]. intros x Hx ->%list_elem_of_singleton. by apply Ha, Hin.
  - set_solver.
Qed.

(** What holds between the rounds *)
Record exclusion_inv (items : list ItemWire) (rounds : nat) (state : gset Uuid * list Uuid) : Prop := {
  ei_nodup : NoDup state.2;
  ei_frontier x : x ∈ state.2 → x ∈ state.1;
  ei_sound x : x ∈ state.1 → in_inbox items x;
  ei_roots w : w ∈ items → if_status (iw_fields w) = ItemStatus.Inbox → iw_id w ∈ state.1;
  ei_closed w p : w ∈ items → if_parent_id (iw_fields w) = Some p → p ∈ state.1 → p ∉ state.2 → iw_id w ∈ state.1;
  ei_rounds : length items + length state.2 <= rounds + size state.1
}.

Lemma in_inbox_id items x : in_inbox items x → x ∈ iw_id <$> items.
Proof. intros []; by apply list_elem_of_fmap_2. Qed.

Lemma exclusion_size items rounds state : exclusion_inv items rounds state → size state.1 <= length items.
Proof.
  intros Hinv. unfold size, set_size. rewrite <- (length_fmap iw_id items). apply submseteq_length, NoDup_submseteq; [apply NoDup_elements|].
  intros x Hx%elem_of_elements%(ei_sound _ _ _ Hinv). by apply in_inbox_id.
Qed.

(** One item of the frontier, with its children *)
Lemma exclusion_step items rounds excluded p frontier : exclusion_inv items (S rounds) (excluded, p :: frontier) →
  exclusion_inv items rounds (foldl exclude (excluded, frontier) (default [] (inbox_children items !! p))).
Proof.
  intros [Hnd Hf Hs Hr Hc Hn]. simpl in *. apply NoDup_cons in Hnd as [Hp Hnd].
  destruct (foldl exclude _ _) as [excluded' frontier'] eqn:E.
  apply exclude_list in E as (Hnd' & He & Hf' & Hsize); [|done|set_solver].
  assert (Hchild : ∀ x, x ∈ default [] (inbox_children items !! p) ↔ ∃ w, w ∈ items ∧ iw_id w = x ∧ if_parent_id (iw_fields w) = Some p)
    by (intros; apply elem_of_inbox_children).
  split; simpl.
  - done.
  - intros x [Hx|[Hx _]]%Hf'; [apply He; left; apply Hf; by right|done].
  - intros x [Hx|(w & Hw & <- & Hpw)%Hchild]%He; [by apply Hs|]. apply (InboxChild items w p); [done..|]. apply Hs, Hf. left.
  - intros w Hw Hstatus. apply He. left. by apply Hr.
  - intros w q Hw Hq Hin Hout. destruct (decide (q = p)) as [->|Hqp]; apply He; [right; apply Hchild; eauto|].
    destruct (decide (q ∈ excluded)) as [Hqe|Hqe]; [|destruct Hout; apply Hf'; auto].
    left. apply (Hc w q Hw Hq Hqe). intros [?|Hqf]%elem_of_cons; [done|]. apply Hout, Hf'. by left.
  - lia.
Qed.

Lemma exclude_descendants_inv items rounds state : exclusion_inv items rounds state →
  ∃ rounds', exclusion_inv items rounds' (exclude_descendants rounds (inbox_children items) state) ∧
  (exclude_descendants rounds (inbox_children items) state).2 = [].
Proof.
  revert state. induction rounds as [|rounds IH]; intros state Hinv; simpl.
  - exists 0. split; [done|]. pose proof (exclusion_size _ _ _ Hinv). pose proof (ei_rounds _ _ _ Hinv).
    apply length_zero_iff_nil. lia.
  - destruct state as [excluded [|p frontier]]; [by exists (S rounds)|]. by apply IH, exclusion_step.
Qed.

Lemma exclusion_start items : exclusion_inv items (length items) (foldl exclude (∅, []) (inbox_roots items)).
Proof.
  destruct (foldl exclude _ _) as [excluded frontier] eqn:E.
  apply exclude_list in E as (Hnd & He & Hf & Hs); [|constructor|set_solver]. rewrite size_empty in Hs. simpl in Hs.
  assert (Hroots : ∀ x, x ∈ inbox_roots items ↔ ∃ w, x = iw_id w ∧ w ∈ items ∧ if_status (iw_fields w) = ItemStatus.Inbox).
  { intros x. unfold inbox_roots. rewrite list_elem_of_fmap. setoid_rewrite list_elem_of_filter. naive_solver. }
  split; simpl.
  - done.
  - set_solver.
  - intros x [?|(w & -> & Hw & Hst)%Hroots]%He; [set_solver|by apply InboxItem].
  - intros w Hw Hst. apply He. right. apply Hroots. eauto.
  - intros w p _ _ Hp Hout. destruct Hout. apply Hf. right. split; [done|set_solver].
  - lia.
Qed.

(** The frontier is empty after a round for each item, as the code asserts,
    and what is excluded is what is in the inbox or below it. *)
Lemma inbox_exclusion_spec items :
  (inbox_exclusion items).2 = [] ∧ ∀ x, x ∈ inbox_subtree_item_ids items ↔ in_inbox items x.
Proof.
  destruct (exclude_descendants_inv items _ _ (exclusion_start items)) as (rounds & Hinv & Hempty).
  fold (inbox_exclusion items) in Hinv, Hempty. unfold inbox_subtree_item_ids. split; [done|]. intros x.
  split; [apply (ei_sound _ _ _ Hinv)|]. induction 1 as [w Hw Hst|w p Hw Hp _ IH]; [by apply (ei_roots _ _ _ Hinv)|].
  apply (ei_closed _ _ _ Hinv w p); [done..|]. rewrite Hempty. apply not_elem_of_nil.
Qed.
End inbox.

(** ** Items left without a parent *)

Section prune.
Context (its : list WorkItem) (ids_distinct : NoDup (wi_id <$> its)).

(** The parent is not there, or its own ancestors are not. *)
Inductive hangs : ItemId → Prop :=
| HangsHere item parent : item ∈ its → wi_parent_id item = Some parent → parent ∉ wi_id <$> its → hangs (wi_id item)
| HangsBelow item parent : item ∈ its → wi_parent_id item = Some parent → hangs parent → hangs (wi_id item).

Lemma elem_of_work_children p c :
  c ∈ default ∅ (work_children its !! p) ↔ ∃ item, item ∈ its ∧ wi_id item = c ∧ wi_parent_id item = Some p.
Proof.
  clear ids_distinct. unfold work_children. induction its as [|a l IH] using rev_ind; [simpl; rewrite lookup_empty; set_solver|].
  rewrite foldl_app. simpl. destruct (wi_parent_id a) as [q|] eqn:E; [|rewrite IH; set_solver].
  rewrite lookup_insert. case_decide as Hq; simpl; [subst q; rewrite elem_of_union, IH; set_solver|rewrite IH; set_solver].
Qed.

Lemma elem_of_orphans c :
  c ∈ orphans its ↔ ∃ item p, item ∈ its ∧ wi_id item = c ∧ wi_parent_id item = Some p ∧ p ∉ wi_id <$> its.
Proof.
  unfold orphans. rewrite elem_of_list_to_set, list_elem_of_omap. split.
  - intros (item & Hin & Hc). destruct (wi_parent_id item) as [p|] eqn:E; [|done]. simpl in Hc. case_bool_decide as Hp; [done|].
    simplify_eq. exists item, p. rewrite elem_of_list_to_set in Hp. done.
  - intros (item & p & Hin & <- & E & Hp). exists item. split; [done|]. rewrite E. simpl. rewrite bool_decide_eq_false_2; [done|].
    by rewrite elem_of_list_to_set.
Qed.

Lemma same_work_item a b : a ∈ its → b ∈ its → wi_id a = wi_id b → a = b.
Proof. by apply distinct_key. Qed.

(** What holds before each item of the frontier *)
Record prune_inv (frontier : gset ItemId) (retained : gmap ItemId WorkItem) (new : list RejectedScheduleItem) : Prop := {
  pv_items id item : retained !! id = Some item → item ∈ its ∧ wi_id item = id;
  pv_frontier id : id ∈ frontier ↔ ∃ item p, retained !! id = Some item ∧ wi_parent_id item = Some p ∧ retained !! p = None;
  pv_gone item : item ∈ its → retained !! wi_id item = None →
    hangs (wi_id item) ∧ ∃ p, wi_parent_id item = Some p ∧ retained !! p = None;
  pv_rejected r : r ∈ new → ∃ item p, item ∈ its ∧ wi_parent_id item = Some p ∧ r = rejected_orphan item p ∧ retained !! wi_id item = None;
  pv_partition : wi_id <$> its ≡ₚ (rj_item_id <$> new) ++ elements (dom retained)
}.

Lemma prune_start : prune_inv (orphans its) (collect_by_id its) [].
Proof.
  assert (Hdom : ∀ p, collect_by_id its !! p = None ↔ p ∉ wi_id <$> its)
    by (intros p; rewrite <- collect_by_id_is_Some, eq_None_not_Some; done).
  split.
  - intros id item. apply collect_by_id_in.
  - intros id. rewrite elem_of_orphans. setoid_rewrite Hdom. setoid_rewrite collect_by_id_lookup; [|done..]. naive_solver.
  - intros item Hin []%Hdom. by apply list_elem_of_fmap_2.
  - intros r []%elem_of_nil.
  - simpl. apply NoDup_Permutation; [done|apply NoDup_elements|]. intros x. by rewrite elem_of_elements, elem_of_dom, collect_by_id_is_Some.
Qed.

(** An item of the frontier is rejected, and its children join the frontier. *)
Lemma prune_step frontier retained new id rest : prune_inv frontier retained new → pop_first frontier = Some (id, rest) →
  ∃ item p, retained !! id = Some item ∧ wi_parent_id item = Some p ∧
  prune_inv (default ∅ (work_children its !! id) ∪ rest) (delete id retained) (new ++ [rejected_orphan item p]).
Proof.
  intros [Hitems Hfrontier Hgone Hrej Hpart] Hpop. apply pop_first_Some in Hpop as (Hid & -> & _).
  pose proof Hid as (item & p & Hitem & Hp & Hout)%Hfrontier. exists item, p. split_and!; [done..|].
  destruct (Hitems id item Hitem) as [Hin Hkey].
  assert (Hhangs : hangs id).
  { rewrite <- Hkey. destruct (decide (p ∈ wi_id <$> its)) as [Hpin|Hpin]; [|by apply (HangsHere item p)].
    apply list_elem_of_fmap in Hpin as (parent & -> & Hparent). by apply (HangsBelow item (wi_id parent)); [..|apply Hgone]. }
  assert (Hpid : p ≠ id) by congruence.
  split.
  - intros x y [_ Hx]%lookup_delete_Some. by apply Hitems.
  - intros x. rewrite elem_of_union, elem_of_work_children, elem_of_difference, not_elem_of_singleton, Hfrontier.
    setoid_rewrite lookup_delete_None. setoid_rewrite lookup_delete_Some. split.
    + intros [(c & Hc & <- & Hcp)|[(y & q & Hy & Hq & Hqo) Hne]]; [|exists y, q; auto].
      assert (Hne : id ≠ wi_id c) by (intros ->; assert (c = item) by (by apply same_work_item); congruence).
      exists c, id. split_and!; [done| |done|by left].
      destruct (retained !! wi_id c) as [c'|] eqn:E.
      * destruct (Hitems _ _ E) as [Hc' Hk]. f_equal. by apply same_work_item.
      * destruct (Hgone c Hc E) as [_ (q & Hq & Hqo)]. congruence.
    + intros (y & q & (Hne & Hy) & Hq & [<-|Hqo]); [left; destruct (Hitems _ _ Hy); eauto|right; split; eauto].
  - intros x Hx. rewrite lookup_delete_None. intros [Hxid|Hgo].
    + rewrite <- Hxid. split; [done|]. assert (x = item) as -> by (apply same_work_item; [done..|congruence]).
      exists p. split; [done|]. rewrite lookup_delete_None. auto.
    + destruct (Hgone x Hx Hgo) as [Hh (q & Hq & Hqo)]. split; [done|]. exists q. split; [done|]. rewrite lookup_delete_None. auto.
  - intros r [Hr| ->%list_elem_of_singleton]%elem_of_app.
    + destruct (Hrej r Hr) as (x & q & Hx & Hq & -> & Hgo). exists x, q. rewrite lookup_delete_None. auto.
    + exists item, p. rewrite lookup_delete_None. auto.
  - rewrite Hpart, fmap_app, <- app_assoc. f_equiv. simpl. rewrite Hkey, dom_delete_L.
    assert (dom retained = {[id]} ∪ dom retained ∖ {[id]}) as Hdom.
    { apply set_eq. intros x. rewrite elem_of_union, elem_of_difference, elem_of_singleton.
      destruct (decide (x = id)) as [->|]; [|tauto]. split; [auto|]. intros _. apply elem_of_dom. eauto. }
    rewrite Hdom at 1. apply elements_union_singleton. set_solver.
Qed.

Lemma prune_loop_spec fuel frontier retained new rejected : prune_inv frontier retained new → size retained < fuel →
  ∃ retained' new', prune_loop fuel (work_children its) frontier retained (rejected ++ new) = (retained', rejected ++ new') ∧
  prune_inv ∅ retained' new'.
Proof.
  revert frontier retained new. induction fuel as [|fuel IH]; intros frontier retained new Hinv Hfuel; [lia|]. simpl.
  destruct (pop_first frontier) as [[id rest]|] eqn:Hpop; [|apply pop_first_None in Hpop as ->; eauto].
  destruct (prune_step _ _ _ _ _ Hinv Hpop) as (item & p & Hitem & Hp & Hinv'). rewrite Hitem, Hp, <- app_assoc.
  apply IH; [done|]. assert (size retained ≠ 0) by (apply (map_size_ne_0_lookup_2 retained id); eauto).
  rewrite map_size_delete_Some by eauto. lia.
Qed.

Lemma hangs_gone retained new x : prune_inv ∅ retained new → hangs x → retained !! x = None.
Proof.
  intros Hinv Hh. assert (Hfr : ∀ item p, item ∈ its → wi_parent_id item = Some p → retained !! p = None → retained !! wi_id item = None).
  { intros item p Hin Hp Hgo. destruct (retained !! wi_id item) as [y|] eqn:E; [|done].
    destruct (pv_items _ _ _ Hinv _ _ E) as [Hy Hid]. assert (y = item) as -> by (by apply same_work_item).
    assert (wi_id item ∈ (∅ : gset ItemId)); [|set_solver]. apply (pv_frontier _ _ _ Hinv). eauto. }
  induction Hh as [item p Hin Hp Hout|item p Hin Hp _ IH]; apply (Hfr item p); [done..| |done|done|done].
  destruct (retained !! p) as [y|] eqn:E; [|done]. destruct (pv_items _ _ _ Hinv _ _ E) as [Hy <-].
  destruct Hout. by apply list_elem_of_fmap_2.
Qed.

(** What pruning keeps and rejects *)
Lemma prune_orphaned_items_spec rejected kept rejected' : prune_orphaned_items its rejected = (kept, rejected') →
  (∀ item, item ∈ kept ↔ item ∈ its ∧ ¬ hangs (wi_id item)) ∧
  ∃ new, rejected' = rejected ++ new ∧ wi_id <$> its ≡ₚ (wi_id <$> kept) ++ (rj_item_id <$> new) ∧
  ∀ r, r ∈ new → ∃ item p, item ∈ its ∧ wi_parent_id item = Some p ∧ r = rejected_orphan item p ∧ hangs (wi_id item).
Proof.
  unfold prune_orphaned_items. intros Heq.
  destruct (prune_loop_spec (S (length its)) (orphans its) (collect_by_id its) [] rejected prune_start)
    as (retained & new & Hloop & Hinv).
  { rewrite (proj2 (size_collect_by_id its)) by done. lia. }
  rewrite app_nil_r in Hloop. rewrite Hloop in Heq. simplify_eq.
  assert (Hkept : ∀ item, item ∈ values retained ↔ item ∈ its ∧ ¬ hangs (wi_id item)).
  { intros item. rewrite elem_of_values. split.
    - intros (id & Hid). destruct (pv_items _ _ _ Hinv id item Hid) as [Hin <-]. split; [done|]. intros Hh.
      by rewrite (hangs_gone _ _ _ Hinv Hh) in Hid.
    - intros [Hin Hh]. exists (wi_id item). destruct (retained !! wi_id item) as [x|] eqn:E.
      + destruct (pv_items _ _ _ Hinv _ _ E). f_equal. by apply same_work_item.
      + by destruct Hh, (pv_gone _ _ _ Hinv item Hin E). }
  split; [done|]. exists new. split_and!; [done| |].
  - rewrite (pv_partition _ _ _ Hinv), Permutation_app_comm. f_equiv. rewrite (keys_of_values wi_id retained), keys_perm_elements; [done|].
    intros k v Hv. by apply (pv_items _ _ _ Hinv k v).
  - intros r Hr. destruct (pv_rejected _ _ _ Hinv r Hr) as (item & p & Hin & Hp & -> & Hgo). exists item, p.
    destruct (pv_gone _ _ _ Hinv item Hin Hgo). auto.
Qed.
End prune.
