(* ===== verification/Prepared.v ===== *)
(** * Prepared: the items of a prepared planning request

    What [planned_items] (Compose) makes of a snapshot: the snapshot has every
    item of the host once, in the order of the identifiers; each item is
    planned, rejected or without work; and the planned items are ones that the
    planner accepts (the specification [valid_item] of Validation), below
    parents that are planned too.  Composed has the theorems about requests. *)
From S2P Require Import Prelude Text Platform Civil Domain Samples Rrule Rollup Decimal Progress Completion Session Validation ItemDomain Metadata Prepare Classify Compose Sensitivity.
Import PrepareScheduleError.

(** ** Accepted metadata *)

Section metadata.
Context `{ItemFormats, !MetadataFormats, Platform, Civil}.

(** Every check of a chain of [let?] has passed. *)
Ltac checks H := repeat first [apply rbind_unit_ok in H as [?Hc H] | apply rbind_ok in H as (? & ?Hc & H)].

Lemma flexible_ok b : flexible b = Ok tt ↔ b = true.
Proof. apply ensure_ok. Qed.

Lemma accepted_dependencies l ids s : foldM validate_metadata_dependency ids l = Ok s →
  ∀ d, d ∈ l → (dep_minimum_lag d <= MAX_DEPENDENCY_LAG_MINUTES)%N ∧ (weight (dep_strength d) <= MAX_DEPENDENCY_WEIGHT)%N.
Proof.
  apply (foldM_inv validate_metadata_dependency (λ p _, ∀ d, d ∈ p →
    (dep_minimum_lag d <= MAX_DEPENDENCY_LAG_MINUTES)%N ∧ (weight (dep_strength d) <= MAX_DEPENDENCY_WEIGHT)%N)); [set_solver|].
  intros p a q t t' _ Hp Ha d [Hd| ->%list_elem_of_singleton]%elem_of_app; [by apply Hp|].
  unfold validate_metadata_dependency in Ha. checks Ha. split.
  - unfold validate_policy_minutes in *. match goal with H : flexible (_ <=? _)%N = _ |- _ => apply flexible_ok, N.leb_le in H; exact H end.
  - unfold validate_strength in *. destruct (dep_strength a); simpl in *; [lia|].
    match goal with H : flexible (_ <=? MAX_SOFT_WEIGHT)%N = _ |- _ => apply flexible_ok, N.leb_le in H; exact H end.
Qed.

Lemma accepted_buffers b : validate_buffers b = Ok tt → is_Some (bp_strength b) → bp_before b ≠ 0%N ∨ bp_after b ≠ 0%N.
Proof.
  unfold validate_buffers. intros Hok [strength Hs]. apply rbind_unit_ok in Hok as [Hz _]. apply flexible_ok in Hz.
  rewrite Hs in Hz. apply negb_true_iff, andb_false_iff in Hz as [Hz|Hz]; [left|right]; by apply N.eqb_neq.
Qed.

(** The windows, buffers and dependencies of accepted constraints are what the
    planner asks for, whatever limits are added to them. *)
Lemma accepted_constraints item c earliest latest daily : validate_metadata_constraints c = Ok tt →
  (∀ d, d ∈ dependencies c → dep_item_id d ≠ wi_id item) →
  (∀ w, w ∈ daily → w ∈ preferred_daily_windows c ∨ valid_daily_window (q_value w)) →
  valid_constraints item (with_limits c earliest latest daily).
Proof.
  unfold validate_metadata_constraints. intros Hok Hself Hdaily. checks Hok.
  repeat match goal with H : forM _ _ = Ok tt |- _ => apply forM_ok in H; rewrite Forall_forall in H end.
  assert (Hwin : ∀ w, validate_absolute_window w = Ok tt → valid_window (q_value w)).
  { intros w Hw. unfold validate_absolute_window in Hw. checks Hw. match goal with H : flexible _ = Ok tt |- _ =>
      apply flexible_ok, odt_ltb_lt in H; exact H end. }
  split; simpl.
  - intros w Hw. apply flexible_ok in Hok. by rewrite Hw in Hok.
  - auto.
  - auto.
  - intros w Hw. destruct (Hdaily w Hw) as [Hin|Hval]; [|done].
    assert (Hd : validate_daily_window w = Ok tt) by auto. unfold validate_daily_window in Hd. checks Hd.
    apply daily_window_valid. by apply flexible_ok.
  - by apply accepted_buffers.
  - intros d Hd. destruct (accepted_dependencies _ _ _ ltac:(eassumption) d Hd) as [Hlag Hw]. split_and!; auto.
Qed.

(** An accepted split policy, in whole minutes *)
Lemma minutes_pos seconds : (0 < seconds)%N → (0 < seconds_to_minutes seconds)%N.
Proof. unfold seconds_to_minutes, saturating_add, u32_max. intros. apply N.div_str_pos. lia. Qed.

Lemma minutes_mono a b : (a <= b)%N → (seconds_to_minutes a <= seconds_to_minutes b)%N.
Proof. unfold seconds_to_minutes, saturating_add. intros. apply N.Div0.div_le_mono. lia. Qed.

Lemma accepted_split input m : validate_split_extensions input m = Ok tt → valid_split (map_split_policy (sm_split_policy input) m).
Proof.
  unfold validate_split_extensions. intros Hok. checks Hok. destruct (sm_split_policy input) as [|minimum maximum] eqn:Es; simpl; [done|].
  match goal with H : rbind (ok_or (sm_duration_seconds input) _) _ = _ |- _ => checks H; rename H into Hbounds end.
  apply flexible_ok in Hbounds. bool_to_prop. split_and!.
  - apply minutes_pos. lia.
  - apply minutes_mono. lia.
  - destruct (md_maximum_sessions m) as [n|]; simpl; [|done].
    match goal with H : flexible (negb (bool_decide (Some n = Some 0%N))) = _ |- _ => apply flexible_ok in H; bool_to_prop end.
    destruct n; [done|lia].
Qed.

(** The event of an accepted calendar item ends after it starts. *)
Lemma accepted_event input m recurrence e : validate_kind_keys input m recurrence = Ok tt → sm_kind input = ItemKind.Event →
  map_event m = Ok e → (ce_start e < ce_end e)%Z.
Proof.
  assert (Hb : ∀ s t, validate_calendar_bounds s t = Ok tt → (s < t)%Z).
  { unfold validate_calendar_bounds. intros s t Hst. checks Hst.
    match goal with H : flexible (odt_ltb _ _) = _ |- _ => apply flexible_ok, odt_ltb_lt in H; exact H end. }
  unfold validate_kind_keys. intros Hok Hkind He. checks Hok. rewrite Hkind in Hok. checks Hok.
  unfold validate_event_metadata in Hok. checks Hok. unfold map_event in He.
  destruct (md_calendar_event m) as [event|], (md_dayweave_firm_block m) as [firm|]; simplify_eq/=.
  - match goal with H : rbind (validate_calendar_bounds _ _) _ = _ |- _ => checks H end. by apply Hb.
  - apply map_err_ok in He. unfold as_calendar_event in He. checks He. simplify_eq. by apply Hb.
Qed.

Lemma accepted_owner input m recurrence d : validate_kind_keys input m recurrence = Ok tt →
  d ∈ dependencies (md_constraints m) → dep_item_id d ≠ sm_item_id input.
Proof.
  unfold validate_kind_keys. intros Hok Hd Heq. checks Hok.
  match goal with H : flexible (negb (existsb _ _)) = _ |- _ => apply flexible_ok, negb_true_iff in H; rename H into He end.
  enough (existsb (λ d, dep_item_id d =? sm_item_id input)%N (dependencies (md_constraints m)) = true) by congruence.
  apply existsb_exists. exists d. split; [by apply list_elem_of_In|]. by apply N.eqb_eq.
Qed.
End metadata.

(** ** Mapped items *)

Section mapped.
Context `{ItemFormats, !MetadataFormats, Platform, Civil, !ComposeTime}.

Ltac checks H := repeat first [apply rbind_unit_ok in H as [?Hc H] | apply rbind_ok in H as (? & ?Hc & H)].

Lemma mapped_duration w e : map_duration w = Ok (Some e) → valid_estimate e.
Proof.
  assert (Hx : ∀ v s r, try_exact v s = Ok r → valid_estimate r)
    by (unfold try_exact; intros v s r Hr; checks Hr; simplify_eq; by apply validate_estimate_iff).
  assert (Hr : ∀ a b c s r, try_range a b c s = Ok r → valid_estimate r).
  { unfold try_range. intros a b c s r Hr. checks Hr. destruct (a =? c)%N; [done|]. simplify_eq. by apply validate_estimate_iff. }
  unfold map_duration. intros Hok. destruct (duration_kind_of_item w).
  - done.
  - checks Hok. apply map_err_ok in Hok. checks Hok. simplify_eq. by eapply Hx.
  - checks Hok. apply map_err_ok in Hok. checks Hok. simplify_eq. destruct (_ =? _)%N; [by eapply Hx|by eapply Hr].
Qed.

(** The three functions that add limits leave the rest of the constraints. *)
Definition limited (c c' : SchedulingConstraints) : Prop :=
  ∃ earliest latest daily, c' = with_limits c earliest latest daily ∧
  ∀ w, w ∈ daily → w ∈ preferred_daily_windows c ∨ valid_daily_window (q_value w).

Lemma limited_refl c : limited c c.
Proof. exists (earliest_start c), (latest_finish c), (preferred_daily_windows c). split; [by destruct c|auto]. Qed.

Lemma limited_trans a b c : limited a b → limited b c → limited a c.
Proof.
  intros (e & l & d & -> & Hd) (e' & l' & d' & -> & Hd'). exists e', l', d'. split; [done|]. intros w [Hw|Hw]%Hd'; auto.
Qed.

Lemma limited_instants c earliest latest : limited c (with_limits c earliest latest (preferred_daily_windows c)).
Proof. exists earliest, latest, (preferred_daily_windows c). auto. Qed.

Lemma add_earliest_limited w tz c c' : add_earliest_start w tz c = Ok c' → limited c c'.
Proof.
  unfold add_earliest_start. intros Hok. destruct (if_earliest_start_at _); [|simplify_eq; apply limited_refl].
  checks Hok. simplify_eq. apply limited_instants.
Qed.

Lemma add_deadline_limited w tz c c' : add_deadline w tz c = Ok c' → limited c c'.
Proof.
  unfold add_deadline. intros Hok. apply rbind_ok in Hok as (deadline & _ & Hok). destruct deadline; [|simplify_eq; apply limited_refl].
  checks Hok. simplify_eq. apply limited_instants.
Qed.

Lemma preferred_window_valid days start minutes : (start <= 1439)%N → (0 < minutes)%N →
  (saturating_add u32_max start minutes <= 1440)%N →
  valid_daily_window {| dw_weekdays := days; dw_start_minute := start; dw_end_minute := saturating_add u32_max start minutes |}.
Proof.
  intros Hs Hm. unfold saturating_add. destruct (N.le_ge_cases (start + minutes) u32_max) as [Hle|Hge].
  - rewrite N.min_l by exact Hle. clear Hle. intros He. split_and!; simpl; lia.
  - rewrite N.min_r by exact Hge. by intros [].
Qed.

Lemma add_preferred_limited m duration seconds c c' : (∀ e, duration = Some e → valid_estimate e) →
  add_preferred_start m duration seconds c = Ok c' → limited c c'.
Proof.
  intros Hd. unfold add_preferred_start. destruct (md_preferred_start_minute m) as [start|]; [|intros; simplify_eq; apply limited_refl].
  unfold add_legacy_preferred_window. intros Hok. apply rbind_unit_ok in Hok as [Hs Hok]. apply rbind_unit_ok in Hok as [He Hok].
  apply ensure_ok in Hs, He. apply N.leb_le in Hs. apply negb_true_iff, orb_false_iff in He as [He _]. apply N.ltb_ge in He.
  injection Hok as <-. eexists _, _, _. split; [reflexivity|].
  intros w [Hw| ->%list_elem_of_singleton]%elem_of_app; [by left|right]. apply preferred_window_valid; [done| |done].
  destruct duration as [e|]; [|done]. destruct (Hd e eq_refl) as (Hmin & Hexp & _). eapply N.lt_le_trans; eassumption.
Qed.

(** What an accepted item keeps of its source *)
Record mapped_from (w : ItemWire) (is_sensitive : bool) (item : WorkItem) : Prop := {
  mf_id : wi_id item = iw_id w;
  mf_parent : wi_parent_id item = if_parent_id (iw_fields w);
  mf_revision : wi_revision item = iw_revision w;
  mf_sensitive : wi_is_sensitive item = is_sensitive;
  mf_valid : valid_item item
}.

Lemma trimmed_not_blank s : s ≠ EmptyString → s = trim_str s → is_blank s = false.
Proof. intros Hne Ht. unfold is_blank. destruct (trim (chars s)) eqn:E; [|done]. destruct Hne. rewrite Ht. unfold trim_str. by rewrite E. Qed.

Lemma normalized_priority v : (v <= 100)%N → (normalize_priority v <= 10)%N.
Proof.
  unfold normalize_priority, saturating_add, u8_max. intros. transitivity (109 / 10)%N; [apply N.Div0.div_le_mono; lia|done].
Qed.

Lemma plannable_mapped w is_sensitive tz m recurrence created item :
  canonical_item_is_valid w = true → validate_metadata_constraints (md_constraints m) = Ok tt →
  validate_kind_keys (classify_input w) m recurrence = Ok tt → validate_split_extensions (classify_input w) m = Ok tt →
  plannable_item w is_sensitive tz m recurrence created = Ok item → mapped_from w is_sensitive item.
Proof.
  intros Hw Hmc Hmk Hms Hok. unfold plannable_item in Hok. apply rbind_ok in Hok as (duration & Hdur & Hok).
  assert (Hvalid : ∀ e, duration = Some e → valid_estimate e) by (intros e ->; by eapply mapped_duration).
  apply rbind_ok in Hok as (c1 & H1c & Hok). apply rbind_ok in Hok as (c2 & H2c & Hok). apply rbind_ok in Hok as (c3 & H3c & Hok).
  apply rbind_ok in Hok as (kind & Hkind & Hok). apply rbind_ok in Hok as (updated & _ & Hok). simplify_eq.
  assert (Hlim : limited (md_constraints m) c3).
  { eapply limited_trans; [by eapply add_earliest_limited|]. eapply limited_trans; [by eapply add_deadline_limited|].
    by eapply add_preferred_limited. }
  unfold canonical_item_is_valid in Hw. bool_to_prop. split; simpl; [done..|]. split; simpl.
  - split; by apply normalized_priority.
  - by apply (accepted_split (classify_input w)).
  - intros e. case_bool_decide; [done|]. by apply Hvalid.
  - by apply trimmed_not_blank.
  - intros e ->. unfold map_kind in Hkind. destruct (if_kind (iw_fields w)) eqn:Ek; checks Hkind; simplify_eq;
      try by destruct recurrence.
    by eapply (accepted_event (classify_input w)).
  - destruct Hlim as (earliest & latest & daily & -> & Hdaily). apply accepted_constraints; [done| |done]. simpl.
    intros d Hd. by apply (accepted_owner (classify_input w) m recurrence).
Qed.

Lemma classified w is_sensitive name week item : canonical_item_is_valid w = true →
  classify_item w is_sensitive name week = Ok (Plannable item) → mapped_from w is_sensitive item.
Proof.
  intros Hw Hok. unfold classify_item in Hok. apply rbind_ok in Hok as (tz & _ & Hok). apply rbind_ok in Hok as (v & Hv & Hok).
  apply map_err_ok in Hv. apply rbind_unit_ok in Hok as [_ Hok]. apply rbind_ok in Hok as (created & _ & Hok).
  apply rbind_unit_ok in Hok as [_ Hok]. destruct (is_some _); [done|]. apply rbind_ok in Hok as (x & Hx & Hok). simplify_eq.
  unfold validated_metadata in Hv. checks Hv. simplify_eq. by eapply plannable_mapped.
Qed.
End mapped.

(** ** The snapshot *)

Lemma traverse_ok {E A B} (f : A → result E B) l l' : traverse f l = Ok l' ↔ Forall2 (λ a b, f a = Ok b) l l'.
Proof.
  revert l'. induction l as [|a l IH]; intros l'; simpl.
  - split; [intros ?; simplify_eq; constructor|by intros ->%Forall2_nil_inv_l].
  - split.
    + intros (b & Hb & Hl)%rbind_ok. apply rbind_ok in Hl as (bs & Hbs & Hl). simplify_eq. constructor; [done|by apply IH].
    + intros (b & bs & Hb & Hbs & ->)%Forall2_cons_inv_l. apply IH in Hbs. by rewrite Hb, Hbs.
Qed.

Lemma traverse_perm {E A B} (f : A → result E B) l1 l2 r1 : l1 ≡ₚ l2 → traverse f l1 = Ok r1 →
  ∃ r2, traverse f l2 = Ok r2 ∧ r1 ≡ₚ r2.
Proof.
  intros Hp. revert r1. induction Hp as [|x l1 l2 Hp IH|x y l|l1 l2 l3 _ IH1 _ IH2]; intros r1 Hr.
  - eauto.
  - simpl in *. apply rbind_ok in Hr as (b & Hb & Hr). apply rbind_ok in Hr as (bs & Hbs & Hr). simplify_eq.
    destruct (IH bs Hbs) as (r2 & H2 & Hperm). exists (b :: r2). rewrite Hb, H2. by rewrite Hperm.
  - simpl in *. destruct (f y) as [b|]; [|done]. simpl in *. destruct (f x) as [a|]; [|done]. simpl in *.
    destruct (traverse f l) as [bs|]; [|done]. simplify_eq/=. eexists. split; [done|]. constructor.
  - destruct (IH1 r1 Hr) as (r2 & H2 & Hp1). destruct (IH2 r2 H2) as (r3 & H3 & Hp2). exists r3. by rewrite Hp1.
Qed.

Section snapshot.
Context `{ItemFormats, !MetadataFormats, Platform, Civil, !ComposeTime}.

Lemma normalized_keeps w w' : normalize_legacy_structural_fields w = Ok w' →
  iw_id w' = iw_id w ∧ if_is_sensitive (iw_fields w') = if_is_sensitive (iw_fields w) ∧
  if_parent_id (iw_fields w') = if_parent_id (iw_fields w).
Proof.
  unfold normalize_legacy_structural_fields. intros (d & _ & Hok)%rbind_ok. destruct d as [[[kind minimum] maximum] source].
  apply rbind_ok in Hok as ([deadline strength] & _ & Hok). apply rbind_ok in Hok as (effort & _ & Hok). by simplify_eq.
Qed.

Definition id_leb (a b : ItemWire) : bool := (iw_id a <=? iw_id b)%N.

Lemma id_leb_le a b : id_leb a b = true ↔ (iw_id a <= iw_id b)%N.
Proof. apply N.leb_le. Qed.

Lemma sorted_by_id l : StronglySorted (λ a b, id_leb a b = true) (sort_by id_leb l).
Proof.
  apply (sort_by_sorted id_leb).
  - intros a b. unfold id_leb. rewrite N.leb_gt, N.leb_le. lia.
  - intros a b c. unfold id_leb. rewrite !N.leb_le. lia.
Qed.

Lemma neighbours_distinct l : StronglySorted (λ a b, id_leb a b = true) l →
  check_neighbours l = Ok tt ↔ NoDup (iw_id <$> l).
Proof.
  induction l as [|a [|b l] IH]; intros Hs; [split; [constructor|done]|split; [intros _; apply NoDup_singleton|done]|].
  apply StronglySorted_inv in Hs as [Hs Ha]. cbn [check_neighbours]. rewrite rbind_unit_ok, ensure_ok, (IH Hs).
  rewrite (fmap_cons iw_id a (b :: l)), (NoDup_cons (iw_id a)), negb_true_iff, N.eqb_neq. apply and_iff_compat_r.
  split; [|intros Hn Heq; apply Hn; rewrite Heq; left].
  intros Hne Hin. apply list_elem_of_fmap in Hin as (c & Hc & [->|Hin]%elem_of_cons); [done|].
  apply StronglySorted_inv in Hs as [_ Hb]. rewrite Forall_forall in Ha, Hb. specialize (Hb c Hin).
  assert (Hab : id_leb a b = true) by (apply Ha; left). apply id_leb_le in Hab, Hb. lia.
Qed.

(** The snapshot has the items of the host, once each, in the order of their
    identifiers, and all of them are valid. *)
Record canonical_snapshot (source_items src : list ItemWire) : Prop := {
  sn_bound : length src <= MAX_CANONICAL_ITEMS;
  sn_length : length src = length source_items;
  sn_distinct : NoDup (iw_id <$> src);
  sn_ids : iw_id <$> src ≡ₚ iw_id <$> source_items;
  sn_valid w : w ∈ src → canonical_item_is_valid w = true;
  sn_source w : w ∈ src → ∃ v, v ∈ source_items ∧ normalize_legacy_structural_fields v = Ok w
}.

Lemma canonical_items_spec source_items src : canonical_items source_items = Ok src → canonical_snapshot source_items src.
Proof.
  unfold canonical_items. intros (Hlen & Hok)%rbind_unit_ok. apply rbind_ok in Hok as (l & Hl & Hok). cbv zeta in Hok.
  apply rbind_unit_ok in Hok as [Hn Hok]. apply rbind_unit_ok in Hok as [Hv Hok].
  change (λ a b, (iw_id a <=? iw_id b)%N) with id_leb in *. injection Hok as <-.
  apply ensure_ok, Nat.leb_le in Hlen. apply traverse_ok in Hl. pose proof (Forall2_length _ _ _ Hl) as Hlen'.
  assert (Hids : iw_id <$> l = iw_id <$> source_items).
  { clear -Hl. induction Hl as [|a b l1 l2 Hab _ IH]; [done|]. rewrite !fmap_cons. f_equal; [by apply normalized_keeps|done]. }
  split.
  - rewrite length_sort_by. lia.
  - by rewrite length_sort_by.
  - apply neighbours_distinct; [apply sorted_by_id|done].
  - by rewrite sort_by_perm, Hids.
  - apply forM_ok in Hv. rewrite Forall_forall in Hv. intros w Hw. by apply Hv, ensure_ok in Hw.
  - intros w Hw. rewrite sort_by_perm in Hw. apply list_elem_of_lookup in Hw as [i Hi].
    destruct (Forall2_lookup_r _ _ _ _ _ Hl Hi) as (v & Hvi & Hvw). exists v. split; [|done]. by eapply list_elem_of_lookup_2.
Qed.

(** The order of the host's list is forgotten. *)
Lemma canonical_items_perm l1 l2 src : l1 ≡ₚ l2 → canonical_items l1 = Ok src → canonical_items l2 = Ok src.
Proof.
  intros Hp. unfold canonical_items. intros (Hlen & Hok)%rbind_unit_ok. apply rbind_ok in Hok as (r1 & Ht1 & Hok).
  destruct (traverse_perm _ _ _ _ Hp Ht1) as (r2 & Ht2 & Hr).
  rewrite Hp in Hlen. rewrite Hlen, Ht2. cbn [rbind]. revert Hok. cbv zeta. change (λ a b, (iw_id a <=? iw_id b)%N) with id_leb.
  intros Hok. pose proof Hok as [Hn _]%rbind_unit_ok. apply neighbours_distinct in Hn; [|apply sorted_by_id].
  assert (sort_by id_leb r1 = sort_by id_leb r2) as <-; [|done].
  apply (StronglySorted_unique_strong (λ a b, id_leb a b = true)); [|apply sorted_by_id..|by rewrite !sort_by_perm].
  intros a b Ha Hb Hab%id_leb_le Hba%id_leb_le. assert (Hid : iw_id a = iw_id b) by lia.
  rewrite sort_by_perm, <- Hr in Hb. rewrite sort_by_perm in Ha, Hn.
  by apply (distinct_key iw_id r1).
Qed.
End snapshot.

(** ** The items of the plan *)

Section planned.
Context `{ItemFormats, !MetadataFormats, Platform, Civil, !ComposeTime}.
Context (request : ComposeScheduleRequest) (sensitivity : gmap Uuid bool) (inbox : gset Uuid).

Definition sensitivity_of (w : ItemWire) : bool := default true (sensitivity !! iw_id w).

(** What the classification of an item says, once it is not in the inbox *)
Definition classification (w : ItemWire) : result Rejection MappedScheduleItem :=
  classify_item w (sensitivity_of w) (cr_timezone_name request) (week_starts_on (rctx_calendar (cr_recurrence_context request))).

Definition accepted_of (w : ItemWire) : option WorkItem :=
  if bool_decide (iw_id w ∈ inbox) then None
  else match classification w with Ok (Plannable item) => Some item | _ => None end.

Definition rejected_of (w : ItemWire) : option RejectedScheduleItem :=
  if bool_decide (iw_id w ∈ inbox) then None
  else match classification w with
       | Err reason => Some {| rj_item_id := iw_id w; rj_is_sensitive := sensitivity_of w; rj_title := if_title (iw_fields w);
                               rj_reason := reason |}
       | _ => None
       end.

(** Not work: in the inbox, or only context of the calendar *)
Definition without_work (w : ItemWire) : option Uuid :=
  if bool_decide (iw_id w ∈ inbox) then Some (iw_id w)
  else match classification w with Ok ContextOnly => Some (iw_id w) | _ => None end.

(** The loop over the items, after some of them *)
Definition collected (loop : ItemLoop) (l : list ItemWire) : ItemLoop :=
  {| il_accepted := il_accepted loop ++ omap accepted_of l;
     il_without_work := il_without_work loop + N.of_nat (length (omap without_work l));
     il_rejected := il_rejected loop ++ omap rejected_of l |}.

Lemma collect_item_spec loop w : (il_without_work loop < usize_max)%N →
  collect_item request sensitivity inbox loop w = Ok (collected loop [w]).
Proof.
  intros Hbound. assert (Hcount : count_without_work loop = Ok {| il_accepted := il_accepted loop;
    il_without_work := il_without_work loop + 1; il_rejected := il_rejected loop |}).
  { unfold count_without_work. rewrite (proj2 (checked_add_Some usize_max (il_without_work loop) 1 (il_without_work loop + 1))); [done|].
    split; [done|]. lia. }
  unfold collect_item, collected, omap, list_omap, accepted_of, rejected_of, without_work, classification, sensitivity_of.
  case_bool_decide as Hin; [by rewrite Hcount, !app_nil_r|].
  destruct (classify_item _ _ _ _) as [[item|]|reason]; cbn [length N.of_nat]; rewrite ?app_nil_r, ?N.add_0_r; done.
Qed.

Lemma omap_split {A B} (f : A → option B) a l : omap f (a :: l) = omap f [a] ++ omap f l.
Proof. simpl. by destruct (f a). Qed.

Lemma collect_items l loop : (il_without_work loop + N.of_nat (length l) <= usize_max)%N →
  foldM (collect_item request sensitivity inbox) loop l = Ok (collected loop l).
Proof.
  revert loop. induction l as [|w l IH]; intros loop Hbound; cbn [foldM].
  { unfold collected. simpl. rewrite !app_nil_r, N.add_0_r. by destruct loop. }
  cbn [length] in Hbound. rewrite Nat2N.inj_succ in Hbound. rewrite collect_item_spec by lia. cbn [rbind].
  assert (Hone : length (omap without_work [w]) <= 1) by (simpl; by destruct (without_work w); simpl; lia).
  rewrite IH by (unfold collected; cbn [il_without_work]; lia).
  unfold collected. cbn [il_accepted il_without_work il_rejected].
  rewrite (omap_split accepted_of w l), (omap_split rejected_of w l), (omap_split without_work w l), length_app, Nat2N.inj_add.
  by rewrite !app_assoc, N.add_assoc.
Qed.

(** Each item is in exactly one of the three. *)
Lemma outcomes_partition l : (∀ w, w ∈ l → canonical_item_is_valid w = true) →
  iw_id <$> l ≡ₚ (wi_id <$> omap accepted_of l) ++ (rj_item_id <$> omap rejected_of l) ++ omap without_work l.
Proof.
  induction l as [|w l IH]; intros Hv; [done|]. assert (Hw : canonical_item_is_valid w = true) by (apply Hv; left).
  specialize (IH (λ x Hx, Hv x (list_elem_of_further _ _ _ Hx))). rewrite fmap_cons, IH. simpl.
  unfold accepted_of at 2, rejected_of at 2, without_work at 2. case_bool_decide; simpl; [solve_Permutation|].
  destruct (classification w) as [[item|]|reason] eqn:E; simpl; [|solve_Permutation..].
  apply (classified w) in E; [|done]. by rewrite (mf_id _ _ _ E).
Qed.
End planned.

Section plan.
Context `{ItemFormats, !MetadataFormats, Platform, Civil, !ComposeTime}.

Definition not_planned (request : ComposeScheduleRequest) (src : list ItemWire) : list Uuid :=
  omap (without_work request (effective_sensitivity_by_item src) (inbox_subtree_item_ids src)) src.

(** The items of the plan: each from an item of the snapshot, accepted by the
    planner, and below a parent that is planned too; and every item of the
    snapshot is planned, rejected or without work, once. *)
Record planned_from (request : ComposeScheduleRequest) (src : list ItemWire) (planned : PlannedItems) : Prop := {
  pf_source item : item ∈ pi_items planned → ∃ w, w ∈ src ∧ wi_id item = iw_id w ∧ wi_parent_id item = if_parent_id (iw_fields w) ∧
    wi_revision item = iw_revision w ∧ wi_is_sensitive item = default true (effective_sensitivity_by_item src !! iw_id w);
  pf_valid item : item ∈ pi_items planned → valid_item item;
  pf_rejected r : r ∈ pi_rejected planned →
    rj_is_sensitive r = default true (effective_sensitivity_by_item src !! rj_item_id r);
  pf_distinct : NoDup (wi_id <$> pi_items planned);
  pf_parents item p : item ∈ pi_items planned → wi_parent_id item = Some p → p ∈ wi_id <$> pi_items planned;
  pf_partition : iw_id <$> src ≡ₚ (wi_id <$> pi_items planned) ++ (rj_item_id <$> pi_rejected planned) ++ not_planned request src;
  pf_without : pi_without_work planned = N.of_nat (length (not_planned request src))
}.

Lemma valid_outside item outside : valid_item (with_children_outside item outside) ↔ valid_item item.
Proof. split; intros [? ? ? ? ? []]; split; try done; by split. Qed.

Lemma topology_marks its src : ∃ outside, preserve_omitted_child_topology its src = (λ item, with_children_outside item (outside item)) <$> its.
Proof. by eexists. Qed.

Lemma planned_items_spec request source_items src : canonical_snapshot source_items src →
  ∃ planned, planned_items request src = Ok planned ∧ planned_from request src planned.
Proof.
  intros [Hbound _ Hnd _ Hvalid _]. unfold planned_items.
  rewrite collect_items. 2: { simpl. unfold usize_max, u64_max, MAX_CANONICAL_ITEMS in *. lia. }
  cbn [rbind collected il_accepted il_rejected il_without_work app].
  set (sens := effective_sensitivity_by_item src). set (inbox := inbox_subtree_item_ids src).
  set (accepted := omap (accepted_of request sens inbox) src).
  pose proof (outcomes_partition request sens inbox src Hvalid) as Hpart. fold accepted in Hpart.
  assert (Hacc : NoDup (wi_id <$> accepted)) by (rewrite Hpart in Hnd; by apply NoDup_app in Hnd as [? _]).
  assert (Hfrom : ∀ item, item ∈ accepted → ∃ w, w ∈ src ∧ mapped_from w (sensitivity_of sens w) item).
  { intros item (w & Hw & Hitem)%list_elem_of_omap. exists w. split; [done|]. unfold accepted_of in Hitem.
    case_bool_decide; [done|]. destruct (classification _ _ w) as [[x|]|] eqn:E; simplify_eq. apply (classified w) in E; [done|by apply Hvalid]. }
  destruct (prune_orphaned_items accepted _) as [kept rejected] eqn:Ep.
  apply (prune_orphaned_items_spec accepted Hacc) in Ep as (Hkept & new & -> & Hsplit & Hnew).
  eexists. split; [done|]. destruct (topology_marks kept src) as [outside ->].
  assert (Hids : wi_id <$> sort_by (λ a b, wi_id a <=? wi_id b)%N ((λ item, with_children_outside item (outside item)) <$> kept) ≡ₚ wi_id <$> kept).
  { rewrite sort_by_perm, <- list_fmap_compose. done. }
  split; cbn [pi_items pi_rejected pi_without_work].
  - intros item Hin. rewrite sort_by_perm in Hin. apply list_elem_of_fmap in Hin as (x & -> & Hx).
    apply Hkept in Hx as [Hx _]. destruct (Hfrom x Hx) as (w & Hw & [? ? ? ? _]). exists w. auto.
  - intros item Hin. rewrite sort_by_perm in Hin. apply list_elem_of_fmap in Hin as (x & -> & Hx).
    apply Hkept in Hx as [Hx _]. destruct (Hfrom x Hx) as (w & _ & Hm). by apply valid_outside, (mf_valid _ _ _ Hm).
  - intros r Hr. rewrite sort_by_perm in Hr. apply elem_of_app in Hr as [Hr|Hr].
    + apply list_elem_of_omap in Hr as (w & _ & Hr). unfold rejected_of in Hr. case_bool_decide; [done|].
      by destruct (classification _ _ w) as [[]|]; simplify_eq.
    + destruct (Hnew r Hr) as (x & q & Hx & _ & -> & _). destruct (Hfrom x Hx) as (w & _ & [Hid _ _ Hsens _]).
      simpl. by rewrite Hsens, Hid.
  - rewrite Hids. rewrite Hsplit in Hacc. by apply NoDup_app in Hacc as [? _].
  - intros item p Hin Hp. rewrite sort_by_perm in Hin. apply list_elem_of_fmap in Hin as (x & -> & Hx). simpl in Hp.
    rewrite Hids. pose proof Hx as [Hxin Hxh]%Hkept.
    destruct (decide (p ∈ wi_id <$> accepted)) as [Hpin|Hpout]; [|by destruct Hxh; apply (HangsHere accepted x p)].
    apply list_elem_of_fmap in Hpin as (parent & -> & Hparent). apply list_elem_of_fmap_2, Hkept. split; [done|].
    intros Hh. by destruct Hxh; apply (HangsBelow accepted x (wi_id parent)).
  - rewrite Hpart, Hids, Hsplit, sort_by_perm, fmap_app. unfold not_planned. fold sens inbox. solve_Permutation.
  - done.
Qed.
End plan.
