(* ===== verification/Composed.v ===== *)
(** * Composed: what a prepared planning request promises

    Theorems about [prepare_canonical_schedule] (Compose): of the planner's own
    checks only those of the hierarchy, of the windows and of the assignments
    can fail on its requests; every source item is accounted for once; the
    order in which the host lists the items does not matter; sensitivity is
    inherited and fails closed; and manual placements arrive as they were
    asked for. *)
From S2P Require Import Prelude Text Platform Civil Domain Samples Rrule Rollup Decimal Progress Completion Session Validation ItemDomain ItemSamples Metadata Prepare Classify Compose Sensitivity Prepared.
Import PrepareScheduleError.

(** ** Errors *)

Definition no_overflow {A} (m : result PrepareScheduleError A) : Prop := m ≠ Err AccountingOverflow.

Lemma no_overflow_ok {A} (a : A) : no_overflow (Ok a).
Proof. done. Qed.

Lemma no_overflow_err {A} e : e ≠ AccountingOverflow → no_overflow (A := A) (Err e).
Proof. intros ? [=]. done. Qed.

Lemma no_overflow_bind {A B} (m : result PrepareScheduleError A) (k : A → result PrepareScheduleError B) :
  no_overflow m → (∀ a, no_overflow (k a)) → no_overflow (rbind m k).
Proof. unfold no_overflow. destruct m; simpl; [auto|]. intros Hm _ [=]. subst. by apply Hm. Qed.

Lemma no_overflow_ensure b e : e ≠ AccountingOverflow → no_overflow (ensure b e).
Proof. destruct b; [done|]. apply no_overflow_err. Qed.

Lemma no_overflow_ok_or {A} (o : option A) e : e ≠ AccountingOverflow → no_overflow (ok_or o e).
Proof. destruct o; [done|]. apply no_overflow_err. Qed.

Lemma no_overflow_foldM {A S} (f : S → A → result PrepareScheduleError S) s l : (∀ s a, no_overflow (f s a)) → no_overflow (foldM f s l).
Proof. intros Hf. revert s. induction l as [|a l IH]; intros s; [done|]. by apply no_overflow_bind. Qed.

Lemma no_overflow_traverse {A B} (f : A → result PrepareScheduleError B) l : (∀ a, no_overflow (f a)) → no_overflow (traverse f l).
Proof. intros Hf. induction l as [|a l IH]; [done|]. apply no_overflow_bind; [done|]. intros b. by apply no_overflow_bind. Qed.

Section errors.
Context `{ItemFormats, !MetadataFormats, Platform, Civil, !ComposeTime}.

(** A computation of [let?], checks and loops, whose errors are others *)
Ltac no_overflows :=
  repeat first
    [ progress intros
    | apply no_overflow_bind | apply no_overflow_foldM | apply no_overflow_traverse
    | apply no_overflow_ensure; discriminate | apply no_overflow_ok_or; discriminate
    | apply no_overflow_ok | apply no_overflow_err; discriminate
    | match goal with |- no_overflow (match ?x with _ => _ end) => destruct x end
    | match goal with |- no_overflow (let _ := _ in _) => cbv zeta end
    | progress unfold valid_if ].

Lemma times_no_overflow t tz : no_overflow (to_time_in_timezone t tz).
Proof. unfold to_time_in_timezone, to_time. no_overflows. Qed.

Lemma midnight_no_overflow tz d : no_overflow (zoned_midnight tz d).
Proof. unfold zoned_midnight. apply no_overflow_bind; [no_overflows|]. intros. apply times_no_overflow. Qed.

Lemma validate_no_overflow request : no_overflow (validate_schedule_request request).
Proof.
  unfold validate_schedule_request, validate_manual_placement_shape, validate_manual_placement_releases,
    validate_manual_placement_capacity, validate_manual_placement, validate_manual_assignment, validate_manual_blocks.
  no_overflows.
Qed.

Lemma canonical_no_overflow l : no_overflow (canonical_items l).
Proof.
  assert (Hn : ∀ l, no_overflow (check_neighbours l)).
  { intros k. induction k as [|a [|b k] IH]; [done..|]. cbn [check_neighbours]. apply no_overflow_bind; [no_overflows|auto]. }
  unfold canonical_items, normalize_legacy_structural_fields, legacy_duration, legacy_deadline, legacy_effort, validate_canonical_item, forM.
  no_overflows. apply Hn.
Qed.

Lemma assignments_no_overflow l placements revisions tz :
  no_overflow (map_previous_assignments l revisions tz) ∧ ∀ previous, no_overflow (map_manual_placements placements revisions tz previous).
Proof.
  assert (Hblock : ∀ b, no_overflow (map_block tz b)) by (intros b; unfold map_block; no_overflows; apply times_no_overflow).
  unfold map_previous_assignments, map_previous_assignment, map_manual_placements, map_manual_assignment.
  split; no_overflows; apply Hblock.
Qed.

Lemma calendar_no_overflow context name start end_ : no_overflow (populate_recurrence_calendar context name start end_).
Proof.
  assert (Hgen : ∀ fuel tz last horizon date days, no_overflow (generate_days fuel tz last horizon date days)).
  { induction fuel as [|fuel IH]; intros; simpl; [by apply no_overflow_err|]. unfold time_date, to_time.
    no_overflows; [apply midnight_no_overflow..|apply IH]. }
  assert (Hbounds : ∀ tz, no_overflow (recurrence_calendar_date_bounds context tz start end_)).
  { intros tz. unfold recurrence_calendar_date_bounds, widen_bounds, local_date_in_timezone. no_overflows. }
  assert (Hcheck : ∀ tz calendar first last, no_overflow (check_calendar name tz calendar first last)).
  { intros. unfold check_calendar, check_calendar_day, time_date, forM. no_overflows; apply midnight_no_overflow. }
  unfold populate_recurrence_calendar. apply no_overflow_bind; [no_overflows|]. intros tz. apply no_overflow_bind; [apply Hbounds|].
  intros [first last]. destruct (rc_days _); (apply no_overflow_bind; [auto|done]).
Qed.

Lemma plan_request_no_overflow request inbox accepted : no_overflow (plan_request_of request inbox accepted).
Proof.
  assert (Hwindow : ∀ tz w, no_overflow (map_availability tz w)) by (intros; unfold map_availability; no_overflows; apply times_no_overflow).
  assert (Hfixed : ∀ tz b, no_overflow (map_fixed_block tz b)) by (intros; unfold map_fixed_block; no_overflows; apply times_no_overflow).
  unfold plan_request_of. cbv zeta. apply no_overflow_bind; [apply no_overflow_ensure; discriminate|intros _].
  apply no_overflow_bind; [apply no_overflow_ok_or; discriminate|intros tz].
  apply no_overflow_bind; [apply (assignments_no_overflow _ [])|intros [previous ignored]].
  apply no_overflow_bind; [apply (assignments_no_overflow [])|intros all].
  do 6 (apply no_overflow_bind; [first [apply times_no_overflow|apply calendar_no_overflow|apply no_overflow_traverse; auto]|intros ?]).
  apply no_overflow_ok.
Qed.
End errors.

(** ** The prepared request *)

(** [OffsetDateTime::from_unix_timestamp], with its nanoseconds, is exact. *)
Class ComposeTimeLaws `{ComposeTime} : Prop := {
  odt_of_instant_exact : ∀ t o, odt_of_instant t = Some o → unix_nanos o = t
}.

Section prepared.
Context `{ItemFormats, !MetadataFormats, Platform, Civil, !ComposeTime}.

Lemma prepared_inv source_items request p : prepare_canonical_schedule source_items request = Ok p →
  ∃ src planned, validate_schedule_request request = Ok tt ∧ canonical_items source_items = Ok src ∧ canonical_snapshot source_items src ∧
  planned_from request src planned ∧
  plan_request_of request (inbox_subtree_item_ids src) (pi_items planned) = Ok (ps_plan_request p, ps_ignored_previous_assignments p) ∧
  ps_source_item_count p = length source_items ∧
  ps_accepted_item_count p = N.to_nat (N.of_nat (length (items (ps_plan_request p))) + pi_without_work planned) ∧
  ps_rejected_items p = pi_rejected planned ∧ ps_effective_sensitivity p = effective_sensitivity_by_item src.
Proof.
  unfold prepare_canonical_schedule. intros ([] & Hv & Hok)%rbind_ok. apply rbind_ok in Hok as (src & Hsrc & Hok).
  pose proof (canonical_items_spec _ _ Hsrc) as Hsnap. destruct (planned_items_spec request source_items src Hsnap) as (planned & Hp & Hfrom).
  rewrite Hp in Hok. cbn [rbind] in Hok. apply rbind_ok in Hok as ([r ignored] & Hr & Hok).
  apply rbind_ok in Hok as (count & Hc & Hok). apply rbind_unit_ok in Hok as [_ Hok]. injection Hok as <-.
  apply ok_or_ok, checked_add_Some in Hc as [-> _]. exists src, planned. cbn. rewrite (sn_length _ _ Hsnap). auto 10.
Qed.

Lemma plan_request_items request inbox accepted r ignored : plan_request_of request inbox accepted = Ok (r, ignored) → items r = accepted.
Proof.
  unfold plan_request_of. intros Hok. repeat (apply rbind_ok in Hok as (? & _ & Hok)).
  repeat match goal with x : _ * _ |- _ => destruct x end. repeat (apply rbind_ok in Hok as (? & _ & Hok)). by simplify_eq.
Qed.
End prepared.

(** ** The parts of the request *)

Section parts.
Context `{ItemFormats, !MetadataFormats, Platform, Civil, !ComposeTime, !ComposeTimeLaws}.

Lemma time_exact t tz o : to_time_in_timezone t tz = Ok o → unix_nanos o = t.
Proof.
  unfold to_time_in_timezone, to_time. intros (offset & _ & Hok)%rbind_ok. apply rbind_ok in Hok as (x & Hx & Hok). simplify_eq.
  apply ok_or_ok in Hx. simpl. by apply odt_of_instant_exact.
Qed.

(** What a planning request takes from the request of the host *)
Record request_parts (request : ComposeScheduleRequest) (accepted : list WorkItem) (r : PlanRequest)
    (ignored : list IgnoredPreviousAssignment) : Prop := {
  rp_items : items r = accepted;
  rp_as_of : unix_nanos (as_of r) = cr_as_of request;
  rp_start : unix_nanos (horizon_start r) = cr_horizon_start request;
  rp_end : unix_nanos (horizon_end r) = cr_horizon_end request;
  rp_config : config r = map_config (cr_config request);
  rp_assignments : ∃ tz previous,
    map_previous_assignments (cr_previous_assignments request) (revisions_of accepted) tz = Ok (previous, ignored) ∧
    map_manual_placements (cr_manual_placements request) (revisions_of accepted) tz previous = Ok (previous_assignments r)
}.

Lemma plan_request_parts request inbox accepted r ignored :
  plan_request_of request inbox accepted = Ok (r, ignored) → request_parts request accepted r ignored.
Proof.
  unfold plan_request_of. intros (_ & _ & Hok)%rbind_ok. apply rbind_ok in Hok as (tz & _ & Hok).
  apply rbind_ok in Hok as ([previous ig] & Hprev & Hok). apply rbind_ok in Hok as (all & Hall & Hok).
  apply rbind_ok in Hok as (start & Hs & Hok). apply rbind_ok in Hok as (end_ & He & Hok). apply rbind_ok in Hok as (context & _ & Hok).
  apply rbind_ok in Hok as (now & Hn & Hok). apply rbind_ok in Hok as (windows & _ & Hok). apply rbind_ok in Hok as (blocks & _ & Hok).
  injection Hok as <- <-. split; simpl; try done; try by eapply time_exact. eauto.
Qed.

(** *** Assignments *)

Lemma previous_distinct l revisions tz previous ignored : map_previous_assignments l revisions tz = Ok (previous, ignored) →
  NoDup (assignment_identity <$> previous).
Proof.
  unfold map_previous_assignments. intros (loop & Hloop & Hok)%rbind_ok. simplify_eq.
  apply (foldM_inv (map_previous_assignment revisions tz) (λ _ loop, NoDup (assignment_identity <$> al_accepted loop) ∧
    ∀ x, x ∈ assignment_identity <$> al_accepted loop → x ∈ al_seen loop)) in Hloop as [Hnd _]; [done|split; [constructor|simpl; set_solver]|].
  intros _ a _ t t' _ [Hnd Hseen] Hstep. unfold map_previous_assignment in Hstep. apply rbind_unit_ok in Hstep as [Hnew Hstep].
  apply ensure_ok in Hnew. bool_to_prop. destruct (negb _); [simplify_eq/=; split; [done|set_solver]|].
  apply rbind_ok in Hstep as (blocks & _ & Hstep). simplify_eq/=. rewrite fmap_app. split; [|set_solver].
  apply NoDup_app. split_and!; [done| |apply NoDup_singleton]. intros x Hx ->%list_elem_of_singleton. by apply Hnew, Hseen.
Qed.

(** The assignments of all placements, in order *)
Definition requested (placements : list ManualPlacementInput) : list (Uuid * ManualPlacementAssignmentInput) :=
  placements ≫= λ placement, (mpi_id placement,.) <$> mpi_assignments placement.

Definition requested_identity (r : Uuid * ManualPlacementAssignmentInput) : Identity := (mai_item_id r.2, mai_occurrence_id r.2).

Lemma map_manual_flat placements revisions tz l :
  map_manual_placements placements revisions tz l =
  foldM (λ l r, map_manual_assignment revisions tz r.1 l r.2) l (requested placements).
Proof.
  unfold map_manual_placements. revert l. induction placements as [|placement placements IH]; intros l; [done|].
  cbn [foldM requested mbind list_bind]. rewrite foldM_app.
  assert (foldM (λ l r, map_manual_assignment revisions tz r.1 l r.2) l ((mpi_id placement,.) <$> mpi_assignments placement) =
    foldM (map_manual_assignment revisions tz (mpi_id placement)) l (mpi_assignments placement)) as ->.
  { generalize (mpi_assignments placement) as k. clear. intros k. revert l. induction k as [|a k IH]; intros l; [done|]. cbn. 
    destruct (map_manual_assignment _ _ _ _ _); [apply IH|done]. }
  destruct (foldM _ l (mpi_assignments placement)); [apply IH|done].
Qed.

(** A manual assignment, as it arrives *)
Definition arrived (revisions : gmap ItemId N) (tz : Tz) (r : Uuid * ManualPlacementAssignmentInput) (b : PreviousAssignment) : Prop :=
  assignment_identity b = requested_identity r ∧ pa_pinned b = true ∧ pa_manual_placement_id b = Some r.1 ∧
  traverse (map_block tz) (mai_blocks r.2) = Ok (pa_blocks b) ∧ revisions !! mai_item_id r.2 = Some (mai_item_revision r.2).

Lemma manual_step revisions tz r l l' : map_manual_assignment revisions tz r.1 l r.2 = Ok l' →
  ∃ b, arrived revisions tz r b ∧ l' = filter (λ a, assignment_identity a ≠ requested_identity r) l ++ [b].
Proof.
  unfold map_manual_assignment. intros (Hrev & Hok)%rbind_unit_ok. apply ensure_ok in Hrev. bool_to_prop.
  apply rbind_ok in Hok as (blocks & Hblocks & Hok). simplify_eq. eexists. split; [|done]. by split_and!.
Qed.

Lemma manual_distinct placements revisions tz l l' : map_manual_placements placements revisions tz l = Ok l' →
  NoDup (assignment_identity <$> l) → NoDup (assignment_identity <$> l').
Proof.
  rewrite map_manual_flat. intros Hok Hnd. revert Hok. apply (foldM_inv _ (λ _ l, NoDup (assignment_identity <$> l))); [done|].
  intros _ r _ t t' _ Ht (b & (Hb & _) & ->)%manual_step. rewrite fmap_app. apply NoDup_app. split_and!; [|simpl; rewrite Hb|apply NoDup_singleton].
  - eapply sublist_NoDup; [done|]. apply fmap_sublist, sublist_filter.
  - intros x (a & -> & [Ha _]%list_elem_of_filter)%list_elem_of_fmap Hx%list_elem_of_singleton. done.
Qed.

(** When the identities are distinct, no assignment replaces another. *)
Lemma manual_all_arrive placements revisions tz l l' : map_manual_placements placements revisions tz l = Ok l' →
  NoDup (requested_identity <$> requested placements) →
  ∀ r, r ∈ requested placements → ∃ b, b ∈ l' ∧ arrived revisions tz r b.
Proof.
  rewrite map_manual_flat. intros Hok Hnd. revert Hok.
  apply (foldM_inv _ (λ p l, ∀ r, r ∈ p → ∃ b, b ∈ l ∧ arrived revisions tz r b)); [set_solver|].
  intros p a q t t' Hsplit Hp (b & Hb & ->)%manual_step r [Hr| ->%list_elem_of_singleton]%elem_of_app; [|exists b; set_solver].
  destruct (Hp r Hr) as (c & Hc & Hcr). exists c. split; [|done]. apply elem_of_app. left. apply list_elem_of_filter. split; [|done].
  destruct Hcr as [-> _]. rewrite Hsplit, fmap_app, NoDup_app in Hnd. destruct Hnd as (_ & Hd & _).
  intros Heq. apply (Hd (requested_identity r)); [by apply list_elem_of_fmap_2|]. rewrite Heq, fmap_cons. left.
Qed.
End parts.

(** *** The checks of the host's request *)

Section checked.
Context `{ItemFormats, !MetadataFormats, Platform, Civil, !ComposeTime}.

(** A block of a placement lies in the future part of the horizon. *)
Definition block_inside (request : ComposeScheduleRequest) (b : PreviousBlockInput) : Prop :=
  (bi_start b < bi_end b)%Z ∧ (cr_as_of request <= bi_start b)%Z ∧ (cr_horizon_start request <= bi_start b)%Z ∧
  (bi_end b <= cr_horizon_end request)%Z.

Record accepted_placements (request : ComposeScheduleRequest) (l : list (Uuid * ManualPlacementAssignmentInput)) (seen : gset Identity) : Prop := {
  ap_distinct : NoDup (requested_identity <$> l);
  ap_seen x : x ∈ requested_identity <$> l → x ∈ seen;
  ap_blocks r b : r ∈ l → b ∈ mai_blocks r.2 → block_inside request b
}.

Lemma manual_assignment_accepted request occurrence id loop a loop' l :
  validate_manual_assignment request occurrence loop a = Ok loop' → accepted_placements request l (pl_identities loop) →
  accepted_placements request (l ++ [(id, a)]) (pl_identities loop').
Proof.
  unfold validate_manual_assignment. intros (Hnew & Hok)%rbind_unit_ok [Hnd Hseen Hblocks].
  apply rbind_unit_ok in Hok as [_ Hok]. apply rbind_unit_ok in Hok as [_ Hok]. apply rbind_unit_ok in Hok as [_ Hok].
  apply rbind_unit_ok in Hok as [Hb Hok]. simplify_eq/=. apply ensure_ok in Hnew. bool_to_prop.
  split; rewrite ?fmap_app.
  - apply NoDup_app. split_and!; [done| |apply NoDup_singleton]. intros x Hx ->%list_elem_of_singleton.
    match goal with Hn : _ ∉ pl_identities loop |- _ => by apply Hn, Hseen end.
  - intros x [Hx|Hx%list_elem_of_singleton]%elem_of_app; [apply Hseen in Hx; set_solver|]. subst x. set_solver.
  - intros r b [Hr| ->%list_elem_of_singleton]%elem_of_app Hin; [by eapply Hblocks|]. simpl in Hin.
    unfold validate_manual_blocks, valid_if in Hb. apply ensure_ok in Hb. apply andb_true_iff in Hb as [Hb _].
    rewrite forallb_forall in Hb. specialize (Hb b). rewrite <- list_elem_of_In in Hb. specialize (Hb Hin). bool_to_prop.
    unfold block_inside. lia.
Qed.

Lemma manual_placement_accepted request loop p loop' l :
  validate_manual_placement request loop p = Ok loop' → accepted_placements request l (pl_identities loop) →
  accepted_placements request (l ++ ((mpi_id p,.) <$> mpi_assignments p)) (pl_identities loop').
Proof.
  unfold validate_manual_placement. intros (_ & Hok)%rbind_unit_ok Hl. apply rbind_unit_ok in Hok as [_ Hok]. revert Hok.
  apply (foldM_inv _ (λ q loop, accepted_placements request (l ++ ((mpi_id p,.) <$> q)) (pl_identities loop))); [by rewrite app_nil_r|].
  intros q a _ t t' _ Hq Ht. rewrite fmap_app, app_assoc. by eapply manual_assignment_accepted.
Qed.

(** What a valid request promises *)
Record request_checked (request : ComposeScheduleRequest) : Prop := {
  rc_horizon : (cr_horizon_start request < cr_horizon_end request)%Z;
  rc_granularity : sci_slot_granularity_minutes (cr_config request) ≠ 0%N;
  rc_placements : ∃ seen, accepted_placements request (requested (cr_manual_placements request)) seen
}.

Lemma validate_request_checked request : validate_schedule_request request = Ok tt → request_checked request.
Proof.
  unfold validate_schedule_request. cbv zeta. intros (Hh & Hok)%rbind_unit_ok. do 9 apply rbind_unit_ok in Hok as [_ Hok].
  apply rbind_unit_ok in Hok as [Hshape Hok]. apply rbind_unit_ok in Hok as [Hg _]. apply ensure_ok in Hh, Hg.
  bool_to_prop. split; [lia|lia|].
  unfold validate_manual_placement_shape in Hshape. do 4 apply rbind_unit_ok in Hshape as [_ Hshape].
  apply rbind_ok in Hshape as (loop & Hloop & _). exists (pl_identities loop). revert Hloop.
  apply (foldM_inv _ (λ p loop, accepted_placements request (requested p) (pl_identities loop))).
  - split; [constructor|set_solver|set_solver].
  - intros p a _ t t' _ Hp Ht. unfold requested. rewrite bind_app. cbn [mbind list_bind]. rewrite app_nil_r.
    by eapply manual_placement_accepted.
Qed.
End checked.

(** ** Theorems *)

Section theorems.
Context `{ItemFormats, !MetadataFormats, Platform, Civil, !ComposeTime}.

Lemma revision_planned its id revision : revisions_of its !! id = Some revision → ∃ item, item ∈ its ∧ wi_id item = id ∧ wi_revision item = revision.
Proof. apply (fill_in wi_id wi_revision). Qed.

Lemma inbox_not_planned request src id : in_inbox src id → id ∈ not_planned request src.
Proof.
  intros Hin. apply list_elem_of_omap. pose proof (in_inbox_id _ _ Hin) as (w & -> & Hw)%list_elem_of_fmap. exists w. split; [done|].
  unfold without_work. by rewrite bool_decide_eq_true_2 by (by apply inbox_exclusion_spec).
Qed.

(** C12. C1: Preparation never fails for its own accounting.  When it succeeds the
    numbers of accepted and rejected items add up to the items of the host, and
    every item of the host is planned, rejected or without work, exactly once;
    without work are the items of the inbox and all below them. *)
Theorem every_item_accounted source_items request :
  match prepare_canonical_schedule source_items request with
  | Ok p =>
      ps_source_item_count p = length source_items ∧
      ps_accepted_item_count p + length (ps_rejected_items p) = length source_items ∧
      NoDup (iw_id <$> source_items) ∧
      ∃ src without, canonical_items source_items = Ok src ∧ (∀ id, in_inbox src id → id ∈ without) ∧
      iw_id <$> source_items ≡ₚ (wi_id <$> items (ps_plan_request p)) ++ (rj_item_id <$> ps_rejected_items p) ++ without
  | Err e => e ≠ AccountingOverflow
  end.
Proof.
  destruct (prepare_canonical_schedule source_items request) as [p|e] eqn:Hp.
  - apply prepared_inv in Hp as (src & planned & _ & Hsrc & Hsnap & Hfrom & Hr & Hcount & Hacc & Hrej & _).
    apply plan_request_items in Hr. rewrite Hr in *. rewrite Hrej, Hacc.
    pose proof (pf_partition _ _ _ Hfrom) as Hpart. split_and!; [done| | |].
    + rewrite (pf_without _ _ _ Hfrom), <- (sn_length _ _ Hsnap), <- (length_fmap iw_id src), Hpart, !length_app, !length_fmap. lia.
    + rewrite <- (sn_ids _ _ Hsnap). apply Hsnap.
    + exists src, (not_planned request src). split_and!; [done|apply inbox_not_planned|]. by rewrite <- (sn_ids _ _ Hsnap).
  - intros ->. revert Hp. unfold prepare_canonical_schedule.
    destruct (validate_schedule_request request) as [[]|] eqn:Hv; cbn [rbind]; [|intros ?; simplify_eq; by destruct (validate_no_overflow request)].
    destruct (canonical_items source_items) as [src|] eqn:Hsrc; cbn [rbind];
      [|intros ?; simplify_eq; by destruct (canonical_no_overflow source_items)].
    apply canonical_items_spec in Hsrc as Hsnap. destruct (planned_items_spec request source_items src Hsnap) as (planned & -> & Hfrom).
    cbn [rbind]. destruct (plan_request_of _ _ _) as [[r ignored]|] eqn:Hr; cbn [rbind];
      [|intros ?; simplify_eq; by destruct (plan_request_no_overflow request (inbox_subtree_item_ids src) (pi_items planned))].
    apply plan_request_items in Hr. rewrite Hr, (pf_without _ _ _ Hfrom).
    assert (Hlen : length src = length (pi_items planned) + length (pi_rejected planned) + length (not_planned request src)).
    { rewrite <- (length_fmap iw_id src), (pf_partition _ _ _ Hfrom), !length_app, !length_fmap. lia. }
    assert (Hsmall : (N.of_nat (length src) <= usize_max)%N).
    { transitivity 10000%N; [|by vm_compute]. pose proof (sn_bound _ _ Hsnap) as Hb. unfold MAX_CANONICAL_ITEMS in Hb. lia. }
    rewrite (proj2 (checked_add_Some _ _ _ _)) by (split; [reflexivity|lia]). cbn [ok_or rbind].
    rewrite (proj2 (checked_add_Some _ _ _ _)) by (split; [reflexivity|lia]).
    rewrite bool_decide_eq_true_2 by (f_equal; lia). done.
Qed.

(** C14. C2: The order in which the host lists the items does not matter. *)
Theorem preparation_ignores_order l1 l2 request p :
  l1 ≡ₚ l2 → prepare_canonical_schedule l1 request = Ok p → prepare_canonical_schedule l2 request = Ok p.
Proof.
  intros Hp. unfold prepare_canonical_schedule. destruct (validate_schedule_request request) as [[]|]; cbn [rbind]; [|done].
  destruct (canonical_items l1) as [src|] eqn:Hsrc; cbn [rbind]; [|done]. by rewrite (canonical_items_perm _ _ _ Hp Hsrc).
Qed.

Context `{!ComposeTimeLaws}.

(** C10. C3: Of the planner's checks, those of the horizon, the granularity, the
    items and the identities of assignments never fail on a prepared request,
    and no planned item has lost its parent: the request is accepted exactly
    when its hierarchy rolls up, its windows are in order and its assignments
    are valid. *)
Theorem prepared_requests_validate source_items request p :
  prepare_canonical_schedule source_items request = Ok p →
  let r := ps_plan_request p in
  (∀ item parent, item ∈ items r → wi_parent_id item = Some parent → parent ∈ wi_id <$> items r) ∧
  (validate_request r = Ok tt ↔
   is_ok (roll_up_expected_durations (items r)) = true ∧ (∀ w, w ∈ availability r → (av_start w < av_end w)%Z) ∧
   (∀ b, b ∈ fixed_blocks r → (fb_start b < fb_end b)%Z) ∧ ∀ a, a ∈ previous_assignments r → valid_assignment r a).
Proof.
  intros (src & planned & Hv & _ & _ & Hfrom & Hr & _)%prepared_inv. apply plan_request_parts in Hr as [Hits _ Hs He Hc (tz & previous & Hprev & Hall)].
  apply validate_request_checked in Hv as [Hh Hg _]. cbv zeta. rewrite Hits. split; [apply Hfrom|].
  rewrite validate_request_iff. split; [intros []; by rewrite Hits in *|]. intros (Hroll & Hwin & Hfix & Hassign).
  split; rewrite ?Hits; auto.
  - by rewrite Hs, He.
  - by rewrite Hc.
  - apply Hfrom.
  - by apply (pf_valid _ _ _ Hfrom).
  - eapply (manual_distinct _ _ _ _ _ Hall), previous_distinct, Hprev.
Qed.

Lemma blocks_exact tz l l' : traverse (map_block tz) l = Ok l' →
  (λ b, (unix_nanos (pb_start b), unix_nanos (pb_end b), pb_session_index b)) <$> l' = (λ b, (bi_start b, bi_end b, bi_session_index b)) <$> l.
Proof.
  rewrite traverse_ok. induction 1 as [|b b' l l' Hb _ IH]; [done|]. rewrite !fmap_cons, IH. f_equal.
  unfold map_block in Hb. apply rbind_ok in Hb as (start & Hs & Hb). apply rbind_ok in Hb as (end_ & He & Hb). simplify_eq. simpl.
  by rewrite (time_exact _ _ _ Hs), (time_exact _ _ _ He).
Qed.

(** C13. C4: Every assignment of every manual placement arrives, as the one
    assignment of its item and occurrence: pinned, under the placement's
    identifier, with the blocks that were asked for, for the item at the
    revision that was asked for; its blocks lie in the future part of the
    horizon. *)
Theorem manual_placements_arrive source_items request p placement a :
  prepare_canonical_schedule source_items request = Ok p →
  placement ∈ cr_manual_placements request → a ∈ mpi_assignments placement →
  let r := ps_plan_request p in
  (∃ item, item ∈ items r ∧ wi_id item = mai_item_id a ∧ wi_revision item = mai_item_revision a) ∧
  ∃ b, b ∈ previous_assignments r ∧ assignment_identity b = (mai_item_id a, mai_occurrence_id a) ∧
  (∀ c, c ∈ previous_assignments r → assignment_identity c = assignment_identity b → c = b) ∧
  pa_pinned b = true ∧ pa_manual_placement_id b = Some (mpi_id placement) ∧
  (λ b, (unix_nanos (pb_start b), unix_nanos (pb_end b), pb_session_index b)) <$> pa_blocks b =
    (λ b, (bi_start b, bi_end b, bi_session_index b)) <$> mai_blocks a ∧
  ∀ block, block ∈ pa_blocks b → (pb_start block < pb_end block)%Z ∧ (as_of r <= pb_start block)%Z ∧
    (horizon_start r <= pb_start block)%Z ∧ (pb_end block <= horizon_end r)%Z.
Proof.
  intros (src & planned & Hv & _ & _ & Hfrom & Hr & _)%prepared_inv Hp Ha.
  apply plan_request_parts in Hr as [Hits Hnow Hs He _ (tz & previous & Hprev & Hall)].
  apply validate_request_checked in Hv as [_ _ [seen Hchecked]]. cbv zeta. rewrite Hits, Hnow, Hs, He.
  assert (Hreq : (mpi_id placement, a) ∈ requested (cr_manual_placements request)).
  { apply list_elem_of_bind. exists placement. split; [|done]. by apply list_elem_of_fmap_2. }
  destruct (manual_all_arrive _ _ _ _ _ Hall (ap_distinct _ _ _ Hchecked) _ Hreq) as (b & Hb & Hid & Hpin & Hplace & Hblocks & Hrev).
  split; [by apply revision_planned|]. apply blocks_exact in Hblocks. simpl in Hblocks.
  exists b. split_and!; [done..| |done|done|done|].
  - intros c Hc Hcb. apply previous_distinct, (manual_distinct _ _ _ _ _ Hall) in Hprev.
    by apply (distinct_key assignment_identity (previous_assignments (ps_plan_request p))).
  - intros block Hblock. apply (list_elem_of_fmap_2 (λ b, (unix_nanos (pb_start b), unix_nanos (pb_end b), pb_session_index b))) in Hblock.
    rewrite Hblocks in Hblock. apply list_elem_of_fmap in Hblock as (x & Heq & Hx). simplify_eq.
    destruct (ap_blocks _ _ _ Hchecked _ x Hreq Hx) as (? & ? & ? & ?). split_and!; congruence.
Qed.
End theorems.

Section sensitivity.
Context `{ItemFormats, !MetadataFormats, Platform, Civil, !ComposeTime}.

(** Normalisation changes neither the sensitivity nor the parents. *)
Lemma open_items_normalized source_items src x : canonical_snapshot source_items src →
  open_item (canonical_by_id src) x ↔ open_item (canonical_by_id source_items) x.
Proof.
  intros Hsnap. assert (Hnd : NoDup (iw_id <$> source_items)) by (rewrite <- (sn_ids _ _ Hsnap); apply Hsnap).
  assert (Hsame : ∀ k, match canonical_by_id src !! k, canonical_by_id source_items !! k with
    | Some w, Some v => if_is_sensitive (iw_fields w) = if_is_sensitive (iw_fields v) ∧
                        if_parent_id (iw_fields w) = if_parent_id (iw_fields v)
    | None, None => True
    | _, _ => False
    end).
  { intros k. rewrite !canonical_by_id_fill. destruct (fill iw_id id ∅ src !! k) as [w|] eqn:Ew.
    - apply fill_in in Ew as (w' & Hw & <- & Heq). simpl in Heq. subst w'.
      destruct (sn_source _ _ Hsnap w Hw) as (v & Hv & Hvw). apply normalized_keeps in Hvw as (-> & ? & ?).
      by rewrite (fill_lookup iw_id id _ _ Hnd Hv).
    - destruct (fill iw_id id ∅ source_items !! k) eqn:Ev; [|done].
      assert (Hk : is_Some (fill iw_id id ∅ source_items !! k)) by eauto.
      rewrite fill_is_Some, <- (sn_ids _ _ Hsnap), <- (fill_is_Some iw_id id) in Hk. rewrite Ew in Hk. by destruct Hk. }
  enough (∀ n k, open_within (canonical_by_id src) n k = open_within (canonical_by_id source_items) n k) as Hn
    by (unfold open_item; by setoid_rewrite Hn).
  induction n as [|n IH]; intros k; [done|]. simpl. specialize (Hsame k).
  destruct (canonical_by_id src !! k), (canonical_by_id source_items !! k); try done. destruct Hsame as [-> ->].
  destruct (if_parent_id _); [by rewrite IH|done].
Qed.

(** C11. C5: Every item of the host has a sensitivity.  It is open exactly when it
    and its ancestors up to a root are all there and none is sensitive, so that
    a missing ancestor or a cycle makes it sensitive; the planned and the
    rejected items carry that sensitivity. *)
Theorem sensitivity_fails_closed source_items request p : prepare_canonical_schedule source_items request = Ok p →
  let open := open_item (canonical_by_id source_items) in
  (∀ id, is_Some (ps_effective_sensitivity p !! id) ↔ id ∈ iw_id <$> source_items) ∧
  (∀ id, ps_effective_sensitivity p !! id = Some false ↔ open id) ∧
  (∀ item, item ∈ items (ps_plan_request p) → wi_is_sensitive item = false ↔ open (wi_id item)) ∧
  ∀ r, r ∈ ps_rejected_items p → rj_is_sensitive r = false ↔ open (rj_item_id r).
Proof.
  intros (src & planned & _ & _ & Hsnap & Hfrom & Hr & _ & _ & Hrej & Hsens)%prepared_inv.
  apply plan_request_items in Hr. cbv zeta. rewrite Hr, Hrej, Hsens.
  assert (Hopen : ∀ id, effective_sensitivity_by_item src !! id = Some false ↔ open_item (canonical_by_id source_items) id).
  { intros id. rewrite <- (open_items_normalized source_items src id Hsnap). apply effective_sensitivity_spec. }
  assert (Hdefault : ∀ id, default true (effective_sensitivity_by_item src !! id) = false ↔ open_item (canonical_by_id source_items) id).
  { intros id. rewrite <- Hopen. destruct (effective_sensitivity_by_item src !! id); naive_solver. }
  split_and!.
  - intros id. rewrite <- (sn_ids _ _ Hsnap). apply effective_sensitivity_spec.
  - done.
  - intros item (w & _ & -> & _ & _ & ->)%(pf_source _ _ _ Hfrom). apply Hdefault.
  - intros r ->%(pf_rejected _ _ _ Hfrom). apply Hdefault.
Qed.
End sensitivity.

(** ** A day with seven items *)

#[local] Existing Instance utc_platform.
#[local] Existing Instance gregorian.

(** Metadata without anything but dependencies *)
#[export] Instance sample_metadata_formats : MetadataFormats := {|
  value_as_array := λ _, None;
  value_as_str := λ _, None;
  number_value := λ _, Empty;
  array_value := λ _, Empty;
  decode_metadata := λ _, Some default_metadata;
  decode_recurrence := λ _, None;
  parse_uuid := λ _, None;
  instant_of_odt := λ t, Some (unix_nanos t);
  local_clock := λ _ _, (0, 0, 0, 0)%N
|}.

#[export] Instance sample_times : ComposeTime := {|
  zone_offset := λ _ _, 0%Z;
  offset_from_whole_seconds := λ offset, Some offset;
  odt_of_instant := λ t, Some {| unix_nanos := t; utc_offset := 0 |};
  naive_of_date := λ date, Some date;
  date_of_naive := λ date, Some date;
  datetime_checked_sub := λ t d, Some (t - d)%Z
|}.

#[export] Instance sample_times_laws : ComposeTimeLaws.
Proof. split. by intros t o [= <-]. Qed.

Definition sample_wire (kind : ItemKind) (id : Uuid) (is_sensitive : bool) (status : ItemStatus) (parent : option Uuid) : ItemWire :=
  {| iw_id := id;
     iw_fields :=
       {| if_is_sensitive := is_sensitive; if_kind := kind; if_status := status; if_title := "Write"; if_notes := None;
          if_timezone_name := "UTC"; if_duration_kind := None; if_duration_seconds := Some 1750%N; if_duration_min_seconds := None;
          if_duration_max_seconds := None; if_duration_source := None; if_deadline_kind := None; if_deadline_date := None;
          if_deadline_at := None; if_deadline_strength := None; if_deadline_soft_weight := None; if_earliest_start_at := None;
          if_recurrence := None; if_flexible_constraints := Empty; if_has_own_effort := None;
          if_split_policy := SplitPolicy.Indivisible; if_importance := 55; if_urgency := 50; if_parent_id := parent;
          if_sibling_order := 0; if_blocked_reason_kind := None; if_blocked_by_item_id := None; if_blocked_reason := None |};
     iw_is_executable := true; iw_revision := 2; iw_created_at := 0%Z; iw_updated_at := 0%Z; iw_completed_at := None;
     iw_deleted_at := None |}.

(** A project of two tasks, a task in the inbox with one below it, and two
    tasks below an item that is missing *)
Definition sample_snapshot : list ItemWire :=
  [sample_wire ItemKind.Task 7 false ItemStatus.Planned (Some 6%N);
   sample_wire ItemKind.Task 3 false ItemStatus.Planned (Some 1%N);
   sample_wire ItemKind.Project 1 false ItemStatus.Planned None;
   sample_wire ItemKind.Task 2 true ItemStatus.Planned (Some 1%N);
   sample_wire ItemKind.Task 6 false ItemStatus.Planned (Some 99%N);
   sample_wire ItemKind.Task 5 false ItemStatus.Planned (Some 4%N);
   sample_wire ItemKind.Task 4 false ItemStatus.Inbox None].

Definition minute (n : Z) : DateTime := (n * nanos_per_minute)%Z.

Definition sample_blocks : list PreviousBlockInput :=
  [{| bi_start := minute 60; bi_end := minute 90; bi_session_index := 0 |}].

Definition sample_assignment : ManualPlacementAssignmentInput :=
  {| mai_item_id := 3; mai_item_revision := 2; mai_occurrence_id := None; mai_blocks := sample_blocks |}.

Definition sample_placement : ManualPlacementInput :=
  {| mpi_id := 40; mpi_source_schedule_revision_id := None; mpi_assignments := [sample_assignment] |}.

(** One day, an earlier assignment of both tasks, and a placement of one *)
Definition sample_compose_request : ComposeScheduleRequest :=
  {| cr_as_of := minute 0; cr_horizon_start := minute 0; cr_horizon_end := minute 1440; cr_timezone_name := "UTC";
     cr_availability := [{| ai_start := minute 0; ai_end := minute 600; ai_contexts := ∅; ai_location := None; ai_energy := Medium |}];
     cr_fixed_blocks := [];
     cr_previous_assignments :=
       (λ id, {| pai_item_id := id; pai_item_revision := 2; pai_occurrence_id := None; pai_blocks := sample_blocks; pai_pinned := false |})
         <$> [2; 3; 4]%N;
     cr_manual_placements := [sample_placement]; cr_manual_placement_releases := [];
     cr_config := {| sci_slot_granularity_minutes := 5; sci_stability_weight := 4; sci_default_soft_weight := 100 |};
     cr_recurrence_context :=
       {| rctx_calendar := {| time_zone_id := None; week_starts_on := DayOfWeek.Monday; rc_days := [] |};
          rctx_completion_anchors := ∅; rctx_rolling_anchors := ∅; rctx_minimum_spacing := ∅; rctx_completed_occurrence_ids := ∅;
          rctx_partial_progress := ∅; rctx_pauses := []; rctx_exceptions := [] |} |}.

Definition sample_preparation : result PrepareScheduleError PreparedSchedule :=
  prepare_canonical_schedule sample_snapshot sample_compose_request.

Definition sample_prepared : PreparedSchedule := match sample_preparation with Ok p => p | Err _ => {|
  ps_timezone_name := ""; ps_source_item_count := 0; ps_source_item_revisions := ∅; ps_effective_sensitivity := ∅;
  ps_accepted_item_count := 0; ps_rejected_items := []; ps_ignored_previous_assignments := []; ps_manual_placements := [];
  ps_manual_placement_releases := [];
  ps_plan_request := {| as_of := {| unix_nanos := 0; utc_offset := 0 |}; horizon_start := {| unix_nanos := 0; utc_offset := 0 |};
    horizon_end := {| unix_nanos := 0; utc_offset := 0 |}; items := []; availability := []; fixed_blocks := [];
    previous_assignments := []; config := {| slot_granularity := 0; stability_weight := 0; default_soft_weight := 0 |};
    recurrence_context := cr_recurrence_context sample_compose_request |} |} end.

Lemma sample_preparation_ok : sample_preparation = Ok sample_prepared.
Proof.
  assert (Hok : is_ok sample_preparation = true) by (vm_compute; reflexivity).
  unfold sample_prepared. destruct sample_preparation; [reflexivity|discriminate Hok].
Qed.

Example sample_prepared_parts :
  (wi_id <$> items (ps_plan_request sample_prepared), rj_item_id <$> ps_rejected_items sample_prepared,
   wi_is_sensitive <$> items (ps_plan_request sample_prepared), ps_accepted_item_count sample_prepared,
   (λ a, (pa_item_id a, pa_pinned a)) <$> previous_assignments (ps_plan_request sample_prepared),
   ig_item_id <$> ps_ignored_previous_assignments sample_prepared,
   zd_local_date <$> rc_days (rctx_calendar (recurrence_context (ps_plan_request sample_prepared)))) =
  ([1; 2; 3]%N, [6; 7]%N, [false; true; false], 5, [(2, false); (3, true)]%N, [4]%N, [0]%Z).
Proof. vm_compute. reflexivity. Qed.

(** *** Witnesses *)

(** The order of the items of the day may be reversed. *)
Lemma preparation_ignores_order_witness : prepare_canonical_schedule (reverse sample_snapshot) sample_compose_request = Ok sample_prepared.
Proof.
  apply (preparation_ignores_order sample_snapshot); [symmetry; apply reverse_Permutation|]. exact sample_preparation_ok.
Defined.

Lemma prepared_requests_validate_witness :
  validate_request (ps_plan_request sample_prepared) = Ok tt ∧
  is_ok (roll_up_expected_durations (items (ps_plan_request sample_prepared))) = true.
Proof.
  assert (Hv : is_ok (validate_request (ps_plan_request sample_prepared)) = true) by (vm_compute; reflexivity).
  destruct (prepared_requests_validate sample_snapshot sample_compose_request sample_prepared sample_preparation_ok) as [_ Hiff].
  destruct (validate_request (ps_plan_request sample_prepared)) as [[]|e]; [|discriminate Hv].
  split; [reflexivity|]. exact (proj1 (proj1 Hiff eq_refl)).
Defined.

Lemma manual_placements_arrive_witness :
  ∃ b, b ∈ previous_assignments (ps_plan_request sample_prepared) ∧ pa_manual_placement_id b = Some 40%N ∧ pa_pinned b = true.
Proof.
  destruct (manual_placements_arrive sample_snapshot sample_compose_request sample_prepared sample_placement sample_assignment
    sample_preparation_ok) as (_ & b & Hb & _ & _ & Hpin & Hplace & _); [left|left|].
  exists b. split; [exact Hb|]. split; [exact Hplace|exact Hpin].
Defined.

(** The task below a missing item is sensitive, the open task is not. *)
Lemma sensitivity_fails_closed_witness :
  open_item (canonical_by_id sample_snapshot) 3%N ∧ ¬ open_item (canonical_by_id sample_snapshot) 7%N.
Proof.
  destruct (sensitivity_fails_closed sample_snapshot sample_compose_request sample_prepared sample_preparation_ok) as (_ & Hopen & _ & _).
  assert (H3 : bool_decide (ps_effective_sensitivity sample_prepared !! 3%N = Some false) = true) by (vm_compute; reflexivity).
  assert (H7 : bool_decide (ps_effective_sensitivity sample_prepared !! 7%N = Some false) = false) by (vm_compute; reflexivity).
  apply bool_decide_eq_true in H3. apply bool_decide_eq_false in H7.
  split; [exact (proj1 (Hopen 3%N) H3)|]. intros H. exact (H7 (proj2 (Hopen 7%N) H)).
Defined.
